(* ===== verification/_CoqProject ===== *)
-Q . S2P
Prelude.v
Stm32.v
Clktree.v
Clkspec.v
Rcc.v
Gpio.v
Exti.v
Afio.v
Crc.v
Iwdg.v
Uart.v
Ptimer.v
Timer.v
Rtc.v
Memory.v
Dma.v
Armv7m.v
Adc.v
Dac.v
Gic.v
Gicspec.v
Nvic.v
Interrupts.v
Systick.v
Cpu.v
Soc.v
Board.v
Boards.v
Machine.v
Qtimer.v
Timerqueue.v
Vmclock.v
Int128.v
Flatview.v
Memregion.v
Memaccess.v
Physmap.v
Dispatch.v
Listener.v
Bitmap.v
Ramblock.v
Physio.v
Softmmu.v
Tlbspec.v
Memmap.v
