(* ===== verification/Prelude.v ===== *)
(** * Verification of the STM32 (Blue Pill) peripheral emulation

    The program is a fork of QEMU that emulates STM32F103 boards
    ([docker/qemu/qemu_stm32]).  Its own logic is the set of peripheral devices
    under [hw/]: each is a C structure with handlers for register reads and
    writes, for changes of its input lines, for the expiry of its timers and
    for reset.  The devices call each other through interrupt lines, through
    the clock notifications of the RCC and through a few accessor functions.
    Below the devices are two layers of QEMU that decide when and at which
    address a handler runs: the timers with the virtual clock, and the memory
    layer, which turns a tree of memory regions into a table of handlers.
    The development models the handlers one by one and proves what they do,
    and does the same for the operations of the two layers.

    ** How code is modelled

    - The state of a device is a [Record] with the fields of the C structure
      (the QOM parts left out); a C integer is a [Z] and each conversion to a
      narrower type is written out with [u8], [u16], [u32], [u64], [i64].
    - A handler is a function in the monad [M E S]: from a state it is [Done]
      with a result, a new state and the list of the effects on the outside, or
      it is [Halt f] when the emulator stops (a [hw_error], a failed [assert])
      or the C program has no defined behaviour (division by zero, an index
      out of bounds, a null pointer).
    - Effects are values: [SetIrq] for [qemu_set_irq], [TimerMod] and [TimerDel]
      for timers, [ChrWrite] for the character device, [Output] for the DAC,
      [Report] for messages.
      But for one, the handlers that receive an effect do not call back into the
      device that caused it, so delivering the effects when the handler returns
      gives the same states.  The exception is a DMA request of the USART
      ([stm32_uart_receive] with DMAR set): the DMA controller reads or writes DR, or
      stops the emulator, before the call returns.  It is the last thing that
      [stm32_uart_receive] does, so the read is one that follows it; what the transfer
      does of its own ([Dma]) is not put together with the USART.
    - The virtual time is an argument ([now]) of the handlers that read it.
    - What a device sees of another one is a type class of [Stm32]
      ([PeriphClocks], [PinConfig], [PeriphMap]); theorems about the client
      hold for every instance, and [Rcc], [Gpio] and [Afio] provide theirs.

    ** The files

    - [Prelude]: integers, the monad, record update, bit fields
      ([include/qemu/bitops.h]), rules for handlers, the effects.
    - [Stm32]: numbers and interfaces of [include/hw/arm/stm32.h].
    - [Clktree]: [hw/arm/stm32_clktree.c], a heap of clocks with links both
      ways; [Clkspec]: promises about clocks that its operations maintain.
    - [Rcc]: [hw/arm/stm32_rcc.c] over [Clktree].
    - [Gpio], [Exti], [Afio]: [hw/gpio/stm32_gpio.c], [stm32_exti.c],
      [stm32_afio.c].
    - [Crc], [Iwdg], [Dma], [Adc], [Dac]: the files of these names in [hw/arm].
    - [Memory]: the system bus as an interface, memory, words as bytes;
      [Armv7m]: the bit-band regions and the memory map of [hw/arm/armv7m.c].
    - [Uart]: [hw/char/stm32_uart.c]; [Ptimer]: [hw/core/ptimer.c]; [Timer] and
      [Rtc]: [hw/timer/stm32_timer.c], [stm32_rtc.c].
    - [Gic], [Nvic]: the interrupt controller, [hw/intc/arm_gic.c],
      [arm_gic_common.c] and [armv7m_nvic.c]; [Gicspec]: an abstract
      controller that they refine; [Interrupts] and [Systick]: what the
      processor and the guest see of it.
    - [Cpu]: exception entry and return of the Cortex-M3, its status and
      special registers and the interrupt check ([target-arm/helper.c],
      [cpu.h], [cpu.c], [cpu-exec.c]).
    - [Soc]: the device table of [hw/arm/stm32.c]; [Board]: the Blue Pill of
      [hw/arm/stm32_f103c8.c] with the path from a pin to the NVIC;
      [Boards]: [stm32_p103.c] and [stm32_maple.c]; [Machine]: the board
      together with the NVIC and the processor.
    - [Qtimer]: timers, lists of timers, clocks and deadlines of
      [qemu-timer.c] as a heap with [next] links; [Timerqueue]: the queue
      that the lists implement; [Vmclock]: the virtual clock of [cpus.c],
      stopped and running, and the instruction counter with its warps.
    - [Int128]: [include/qemu/int128.h]; [Flatview]: regions and the rendering
      of a tree into a flat view; [Memregion]: the operations on regions,
      transactions and the calls of the listeners; [Memaccess]: checking and
      splitting an access (all of [memory.c]).
    - [Physmap], [Dispatch]: the radix tree of pages of [exec.c], its
      compaction, pages with several sections, and lookup; [Listener]: the
      dispatcher as a listener of [Memregion]; [Memmap]: the regions that the
      initialisation of the board creates, from [exec.c], [hw/arm/armv7m.c],
      [armv7m_nvic.c], [hw/core/sysbus.c] and [hw/arm/stm32.c].

    - [Bitmap]: [util/bitmap.c], [util/bitops.c] and their headers; [Ramblock]:
      the blocks of RAM of [exec.c] and the dirty bitmaps of
      [include/exec/ram_addr.h]; [Physio]: the accesses of [exec.c] to physical
      memory over [Dispatch], [Memaccess] and [Ramblock].
    - [Softmmu]: the processor's table of pages ([cputlb.c]), the regions of
      [exec.c] behind it and the loads and stores of [softmmu_template.h];
      [Tlbspec]: its invariant and what the guest sees through it.

    ** What the theorems show

    - Clocks ([Clkspec], [Rcc]): every frequency of the tree is the one its
      input, scale and enable flag ask for, after every operation; the tree is
      built and updated without stopping; the frequencies are a function of
      the registers; the enable registers gate the peripherals.
    - Pins ([Gpio], [Exti], [Afio], [Board], [Boards]): the invariants of the
      ports and of the EXTI, output lines, edge detection and pending bits,
      the wiring of ports to EXTI lines, LEDs and the button.
    - Interrupts ([Interrupts], [Systick], [Cpu], [Machine]): the NVIC refines the
      abstract controller over sequences of operations, it delivers the
      best interrupt, nested handlers return to what they have preempted, the
      SysTick timer does not drift, an exception and its return give the
      interrupted code its registers back, faults become pending exceptions,
      and a button press runs the handler of its interrupt, once when the handler
      clears the pending bit.
    - Data ([Crc], [Uart], [Dma], [Armv7m], [Adc], [Dac]): the CRC table is the
      bitwise CRC, transmission and reception deliver the bytes, a DMA transfer
      copies the memory, a bit-band access touches one bit, conversions give
      the sample or the voltage, the triangle counter is a triangle wave.
    - Time ([Iwdg], [Ptimer], [Timer], [Rtc]): the watchdog bites exactly when
      it is not refreshed, countdowns are exact within the rounding of the
      code, updates recur, the alarm fires at its count.
    - Timers ([Qtimer], [Timerqueue], [Vmclock]): the linked lists refine a
      queue ordered by deadline in which equal deadlines keep their order; a
      run calls exactly the timers that are due, in order, also when callbacks
      arm timers for later; the deadline given to the event loop is exact;
      virtual time advances exactly while the machine runs, and a warp takes
      the instruction clock to the next deadline.
    - Memory ([Int128], [Flatview], [Memregion], [Memaccess], [Physmap],
      [Dispatch], [Listener], [Memmap]): the flat view gives for every address
      what the tree of regions with its priorities, aliases and clipping
      gives; it stays current through every operation on regions; listeners
      hear of every change; the radix tree, compacted or not, finds what the
      view says, so the dispatcher follows the tree; an access split into
      pieces moves the same value; the addresses of the board reach the
      devices of its table.
    - RAM ([Bitmap], [Ramblock], [Physio]): the bitmap routines set and find the bits of a
      range, blocks of RAM never overlap, RAM is an array of bytes whatever way
      it is accessed, a write marks its pages and tells the code cache, lending
      memory to a device amounts to a write, an access to a device is a tiling
      with pieces that the device takes, and write protected memory keeps its
      contents.
    - The processor's view ([Softmmu], [Tlbspec]): through the table, whatever
      it holds, a load gives what was stored, also over the end of a page; an
      access to a device page is one access to its region; after any sequence
      of operations no store to a page with code goes unnoticed.
    - Errors: theorems that say exactly which accesses stop the emulator, and
      theorems about defects of the code (a DAC clock that cannot be enabled,
      a line of the EXTI without an interrupt, a one-pulse mode that does not
      stop and others).

    ** Fuel and bounds

    - [clktree_recalc_output_freq] recurses along the output links; its fuel
      is the number of clocks, which suffices because links lead from older to
      newer clocks ([Clktree.recalc_ok]).
    - [stm32_uart_start_tx] and [stm32_uart_tx_complete] call each other; the
      depth is at most 4 ([Uart.tx_fuel]), since each round empties a flag.
    - [stm32_dma_stream_start_whole] gets the remaining count plus one.
    - The walk of [gic_complete_irq] along the active interrupts gets one step
      per interrupt number; a cycle of the links, which the code would follow
      for ever, is [Halt OutOfFuel]; [Gicspec] shows that there is none while
      the priorities of active interrupts are left alone.
    - Walks along a list of timers get the number of timers plus one, which
      suffices for a list without a cycle ([Qtimer]); the loop that runs
      timers gets fuel greater than the number of due timers, which is enough
      while callbacks arm timers for later only.
    - Rendering a tree of regions gets the number of regions plus one; the
      check [Flatview.tree_ok] says that this depth is enough, which rules out
      cycles.  Merging and filling gaps get the length of the list.
    - The recursions over the radix tree get its number of levels; [mem_add] makes at most three steps: head, whole pages, tail.
    - The loops of [Physio] over the pieces of an access get the length of the
      access, since a piece has at least a byte ([Physio.pieces_tile]); those of
      [Bitmap] get the number of words.
    - An unaligned access through the table is made of aligned ones or of bytes,
      so the helpers of [Softmmu] get fuel for one level ([Tlbspec.ld_guest],
      [Tlbspec.st_guest]); the mask of [tlb_add_large_page] is widened at most
      32 times, after which it is 0.
    - Undefined and external values are parameters: [bit64] of [Rcc] (a shift
      by 64), [stale] of [Dma] (an uninitialised byte), [sine] and the results
      of [rand] of [Adc], the semihosting call of [Cpu].

    ** Not modelled

    The instructions of the processor (the translator), the block layer, the
    device object model (QOM), migration (the vmstate tables), the loading of
    guest images and the user interfaces are upstream QEMU: the devices only
    see register accesses, input lines and virtual time, and the processor is
    modelled at the boundaries of its handlers.  Of the memory layer the
    reference counts, event descriptors, coalesced accesses, watchpoints,
    translation by an IOMMU, and Xen and KVM are left out; of the timers the waiting of the host and the locks.  Of the
    processor's memory the walk of page tables (its MMU is off), the checks of
    instruction counting and the cache of translated code ([translate-all.c])
    are parameters or left out.  Debug output that
    is compiled out is left out.  Of [hw/arm/stm32.c] the object creation and
    the connection of host devices are left out; of the GIC the parts for KVM;
    of the DAC failures of the host's files. *)

From stdpp Require Export base list numbers option sets.
From Stdlib Require Export ZArith Lia.

#[export] Set Default Goal Selector "!".
Global Open Scope Z_scope.

(** ** Machine integers

    Every C integer is a [Z]; the conversions that C performs implicitly
    (assignment to a narrower type, unsigned arithmetic) are written out
    with the functions below. *)

Definition u8 (x : Z) : Z := x mod 2 ^ 8.
Definition u16 (x : Z) : Z := x mod 2 ^ 16.
Definition u32 (x : Z) : Z := x mod 2 ^ 32.
Definition u64 (x : Z) : Z := x mod 2 ^ 64.

(** Two's complement reading of a 64-bit pattern ([int64_t]). *)
Definition i64 (x : Z) : Z :=
  let y := u64 x in if y <? 2 ^ 63 then y else y - 2 ^ 64.

(** Bitwise complement of an unsigned 32-bit value. *)
Definition not32 (x : Z) : Z := Z.lxor (u32 x) 0xffffffff.

(** The C reading of a condition: any non-zero value is true. *)
Definition cbool (x : Z) : bool := negb (x =? 0).

(** [b2z] is C's conversion of a comparison or of a [bool] to [int]. *)
Definition b2z (b : bool) : Z := if b then 1 else 0.

Declare Scope c_scope.
Delimit Scope c_scope with C.
Infix ".&" := Z.land (at level 40, left associativity) : c_scope.
Infix ".|" := Z.lor (at level 50, left associativity) : c_scope.
Infix ".^" := Z.lxor (at level 45, left associativity) : c_scope.
Infix "<<" := Z.shiftl (at level 38, left associativity) : c_scope.
Infix ">>" := Z.shiftr (at level 38, left associativity) : c_scope.
Global Open Scope c_scope.

(** [BIT(nr)] of [include/qemu/bitops.h], for the positions below 64 at
    which the C shift is defined. *)
Definition BIT (nr : Z) : Z := 1 << nr.

(** ** Faults, outcomes and the device monad

    A handler either completes, yielding its result, the new device state
    and the list of the effects it had on the outside (interrupt lines,
    timers, characters, log entries), or it stops the emulator: [hw_error]
    and a failed [assert] abort the process, and C operations with undefined
    behaviour are reported as faults of their own. *)

Inductive fault : Type :=
  | HwError
  | AssertFailed
  | DivByZero
  | OutOfBounds
  | NullPointer
  | Uninitialised
  | OutOfFuel
  | Blocked.

#[export] Instance fault_eq_dec : EqDecision fault.
Proof. solve_decision. Defined.

Inductive outcome (E S A : Type) : Type :=
  | Done (a : A) (s : S) (t : list E)
  | Halt (f : fault).
Arguments Done {E S A} a s t.
Arguments Halt {E S A} f.

Definition M (E S A : Type) : Type := S → outcome E S A.

Section Monad.
  Context {E S : Type}.

#[export] Instance M_ret : MRet (M E S) := λ A a s, Done a s [].

#[export] Instance M_bind : MBind (M E S) := λ A B k m s,
  match m s with
  | Done a s1 t1 =>
      match k a s1 with
      | Done b s2 t2 => Done b s2 (t1 ++ t2)
      | Halt f => Halt f
      end
  | Halt f => Halt f
  end.

Definition get : M E S S := λ s, Done s s [].
Definition gets {A} (f : S → A) : M E S A := λ s, Done (f s) s [].
Definition put (s : S) : M E S unit := λ _, Done () s [].
Definition modify (f : S → S) : M E S unit := λ s, Done () (f s) [].
Definition emit (e : E) : M E S unit := λ s, Done () s [e].
Definition halt {A} (f : fault) : M E S A := λ _, Halt f.
Definition assert_ (b : bool) : M E S unit := if b then mret () else halt AssertFailed.
Definition when (b : bool) (m : M E S unit) : M E S unit := if b then m else mret ().

(** A C [for] loop over the values of a list. *)
Fixpoint for_each {A} (l : list A) (body : A → M E S unit) : M E S unit :=
  match l with
  | [] => mret ()
  | x :: l' => body x ;; for_each l' body
  end.

End Monad.

(** [zrange lo n] is the list [lo, lo+1, ..., lo+n-1]. *)
Definition zrange (lo : Z) (n : nat) : list Z := (λ i, lo + Z.of_nat i) <$> seq 0 n.
#[global] Arguments zrange : simpl never.

(** ** Record update

    [s <| f := v |>] is the C assignment [s->f = v].  The instance of
    [Setter] for a projection is computed from the record's eta expansion,
    which [Settable] provides. *)

Class Settable (R : Type) : Type := eta_record : R → R.

Class Setter {R A : Type} (proj : R → A) : Type := set_field : (A → A) → R → R.
Arguments set_field {R A} proj {_} f r.

Ltac solve_setter :=
  lazymatch goal with
  | |- @Setter ?R ?A ?proj =>
      let e := eval unfold eta_record in (@eta_record R _) in
      let e := eval hnf in e in
      let p := eval pattern proj in e in
      lazymatch p with
      | ?body _ => exact (λ (f : A → A) (r : R), body (λ r0, f (proj r0)) r)
      end
  end.

#[export] Hint Extern 1 (Setter _) => solve_setter : typeclass_instances.

#[warnings="-postfix-notation-not-level-1"]
Notation "s <| f := v |>" := (set_field f (λ _, v) s)
  (at level 12, left associativity, format "s  <| f  :=  v |>") : c_scope.

(** ** Bit fields ([include/qemu/bitops.h])

    The C accessors assert [start >= 0 && length > 0 && length <= w - start];
    every call of the device code passes constant positions, a loop index
    below 20 or a byte lane of a 16- or 32-bit access, so the assertion
    holds at each of them and the accessors are total functions here. *)

Definition extract32 (value start length : Z) : Z := (value >> start) .& Z.ones length.
Definition extract64 (value start length : Z) : Z := (value >> start) .& Z.ones length.

Definition deposit32 (value start length fieldval : Z) : Z :=
  let mask := Z.ones length << start in
  Z.ldiff value mask .| ((fieldval << start) .& mask).
Definition deposit64 (value start length fieldval : Z) : Z :=
  let mask := Z.ones length << start in
  Z.ldiff value mask .| ((fieldval << start) .& mask).

(** ** Bit-level reasoning *)

Create HintDb zbits discriminated.

Lemma testbit_mod_pow2 (n a i : Z) :
  0 <= n -> 0 <= i -> Z.testbit (a mod 2 ^ n) i = (i <? n) && Z.testbit a i.
Proof.
  intros Hn Hi. destruct (Z.ltb_spec i n).
  - by rewrite Z.mod_pow2_bits_low.
  - by rewrite Z.mod_pow2_bits_high by lia.
Qed.

Lemma testbit_ones (n i : Z) :
  0 <= n -> 0 <= i -> Z.testbit (Z.ones n) i = (i <? n).
Proof. intros Hn Hi. rewrite Z.testbit_ones by lia. destruct (Z.leb_spec 0 i); [done | lia]. Qed.

Lemma testbit_shiftl (a n i : Z) :
  0 <= i -> Z.testbit (a << n) i = (n <=? i) && Z.testbit a (i - n).
Proof.
  intros Hi. rewrite Z.shiftl_spec by lia.
  destruct (Z.leb_spec n i); [done |]. by rewrite Z.testbit_neg_r by lia.
Qed.

Lemma testbit_high (n a i : Z) : 0 <= a < 2 ^ n -> n <= i -> Z.testbit a i = false.
Proof.
  intros Ha Hi. destruct (decide (a = 0)) as [-> | Hne]; [apply Z.testbit_0_l |].
  apply Z.bits_above_log2; [lia |].
  enough (Z.log2 a < n) by lia. apply Z.log2_lt_pow2; lia.
Qed.

Lemma testbit_b2z (b : bool) : Z.testbit (b2z b) 0 = b.
Proof. by destruct b. Qed.

Lemma testbit_BIT (n i : Z) : 0 <= n -> 0 <= i -> Z.testbit (BIT n) i = (n =? i).
Proof.
  intros Hn Hi. unfold BIT. rewrite Z.shiftl_1_l.
  destruct (Z.eqb_spec n i) as [-> |]; [by apply Z.pow2_bits_true | by apply Z.pow2_bits_false].
Qed.

(** Two words are equal when their low [n] bits are. *)
Lemma bits_eq_upto (n a b : Z) :
  0 <= n -> 0 <= a < 2 ^ n -> 0 <= b < 2 ^ n ->
  (forall i, 0 <= i < n -> Z.testbit a i = Z.testbit b i) -> a = b.
Proof.
  intros Hn Ha Hb Hbits. apply Z.bits_inj'. intros i Hi.
  destruct (Z.ltb_spec i n); [by apply Hbits |].
  by rewrite !(testbit_high n) by lia.
Qed.

(** A value is below [2 ^ n] when no bit from [n] on is set. *)
Lemma bits_bound (n a : Z) :
  0 <= n -> 0 <= a -> (forall i, n <= i -> Z.testbit a i = false) -> a < 2 ^ n.
Proof.
  intros Hn Ha Hbits. destruct (decide (a = 0)) as [-> |]; [apply Z.pow_pos_nonneg; lia |].
  apply Z.log2_lt_pow2; [lia |]. destruct (Z.ltb_spec (Z.log2 a) n); [done |].
  pose proof (Z.bit_log2 a ltac:(lia)) as Hbit. by rewrite Hbits in Hbit by lia.
Qed.

Lemma land_bound (n a m : Z) : 0 <= n -> 0 <= m < 2 ^ n -> 0 <= a .& m < 2 ^ n.
Proof.
  intros Hn Hm. split; [apply Z.land_nonneg; lia |].
  apply bits_bound; [done | apply Z.land_nonneg; lia |].
  intros i Hi. by rewrite Z.land_spec, (testbit_high n m), andb_false_r by lia.
Qed.

Lemma lor_bound (n a b : Z) :
  0 <= n -> 0 <= a < 2 ^ n -> 0 <= b < 2 ^ n -> 0 <= a .| b < 2 ^ n.
Proof.
  intros Hn Ha Hb. split; [apply Z.lor_nonneg; lia |].
  apply bits_bound; [done | apply Z.lor_nonneg; lia |].
  intros i Hi. by rewrite Z.lor_spec, !(testbit_high n) by lia.
Qed.

Lemma lxor_bound (n a b : Z) :
  0 <= n -> 0 <= a < 2 ^ n -> 0 <= b < 2 ^ n -> 0 <= a .^ b < 2 ^ n.
Proof.
  intros Hn Ha Hb.
  assert (0 <= a .^ b) by (apply Z.lxor_nonneg; lia).
  split; [done |]. apply bits_bound; [done | done |].
  intros i Hi. by rewrite Z.lxor_spec, !(testbit_high n) by lia.
Qed.

Lemma ldiff_bound (n a b : Z) : 0 <= n -> 0 <= a < 2 ^ n -> 0 <= Z.ldiff a b < 2 ^ n.
Proof.
  intros Hn Ha. assert (0 <= Z.ldiff a b) by (apply Z.ldiff_nonneg; lia).
  split; [done |]. apply bits_bound; [done | done |].
  intros i Hi. by rewrite Z.ldiff_spec, (testbit_high n a) by lia.
Qed.

Lemma shiftr_bound (n k a : Z) : 0 <= n -> 0 <= k -> 0 <= a < 2 ^ (n + k) -> 0 <= a >> k < 2 ^ n.
Proof.
  intros Hn Hk Ha. rewrite Z.shiftr_div_pow2 by done. rewrite Z.pow_add_r in Ha by done.
  assert (0 < 2 ^ k) by (apply Z.pow_pos_nonneg; lia).
  split; [apply Z.div_pos; lia | apply Z.div_lt_upper_bound; lia].
Qed.

Lemma testbit_not32 (x i : Z) :
  0 <= i -> Z.testbit (not32 x) i = (i <? 32) && negb (Z.testbit x i).
Proof.
  intros Hi. unfold not32, u32. change 0xffffffff with (Z.ones 32).
  rewrite Z.lxor_spec, testbit_mod_pow2, testbit_ones by lia.
  destruct (i <? 32); cbn; [apply xorb_true_r | done].
Qed.

Lemma not32_range (x : Z) : 0 <= not32 x < 2 ^ 32.
Proof.
  apply (lxor_bound 32); [lia | apply Z.mod_pos_bound; lia | lia].
Qed.

Lemma cbool_BIT (v b : Z) : 0 <= b -> cbool (v .& BIT b) = Z.testbit v b.
Proof.
  intros Hb. unfold cbool. destruct (Z.testbit v b) eqn:Ht.
  - apply negb_true_iff, Z.eqb_neq. intros H0.
    assert (Z.testbit (v .& BIT b) b = false) as Hf by by rewrite H0, Z.testbit_0_l.
    rewrite Z.land_spec, testbit_BIT, Z.eqb_refl, Ht in Hf by lia. done.
  - apply negb_false_iff, Z.eqb_eq. apply Z.bits_inj'. intros i Hi.
    rewrite Z.land_spec, testbit_BIT, Z.testbit_0_l by lia.
    destruct (Z.eqb_spec b i) as [-> |]; [by rewrite Ht | apply andb_false_r].
Qed.

(** The C idiom [x &= ~(1 << pin); x |= (b ? 1 : 0) << pin]. *)
Definition put_bit (x pin : Z) (b : bool) : Z := (x .& not32 (1 << pin)) .| (b2z b << pin).

Lemma testbit_b2z_shift (b : bool) (pin i : Z) :
  0 <= pin -> 0 <= i -> Z.testbit (b2z b << pin) i = (pin =? i) && b.
Proof.
  intros Hp Hi. destruct b; cbn [b2z].
  - change (1 << pin) with (BIT pin). by rewrite testbit_BIT, andb_true_r by lia.
  - by rewrite Z.shiftl_0_l, Z.testbit_0_l, andb_false_r.
Qed.

Lemma testbit_put_bit (x pin i : Z) (b : bool) :
  0 <= pin < 32 -> 0 <= i < 32 ->
  Z.testbit (put_bit x pin b) i = if pin =? i then b else Z.testbit x i.
Proof.
  intros Hp Hi. unfold put_bit.
  rewrite Z.lor_spec, Z.land_spec, testbit_not32, testbit_b2z_shift by lia.
  change (1 << pin) with (BIT pin). rewrite testbit_BIT by lia.
  rewrite (proj2 (Z.ltb_lt i 32)) by lia.
  destruct (pin =? i); cbn; by rewrite ?andb_true_r, ?andb_false_r, ?orb_false_r.
Qed.

Lemma put_bit_range (n x pin : Z) (b : bool) :
  0 <= n <= 32 -> 0 <= x < 2 ^ n -> 0 <= pin < n -> 0 <= put_bit x pin b < 2 ^ n.
Proof.
  intros Hn Hx Hp. apply lor_bound; [lia | rewrite Z.land_comm; apply land_bound; lia |].
  destruct b; cbn [b2z]; [| rewrite Z.shiftl_0_l; lia].
  rewrite Z.shiftl_1_l. split; [apply Z.pow_nonneg; lia | apply Z.pow_lt_mono_r; lia].
Qed.

Lemma extract32_bit (x pos : Z) : 0 <= pos -> extract32 x pos 1 = b2z (Z.testbit x pos).
Proof.
  intros Hp. unfold extract32. change (Z.ones 1) with (Z.ones 1). rewrite Z.land_ones by lia.
  change (2 ^ 1) with 2. rewrite <- Z.bit0_mod, Z.shiftr_spec, Z.add_0_l by lia. done.
Qed.

Lemma testbit_deposit32_bit (x pos i : Z) (b : bool) :
  0 <= pos -> 0 <= i ->
  Z.testbit (deposit32 x pos 1 (b2z b)) i = if pos =? i then b else Z.testbit x i.
Proof.
  intros Hp Hi. unfold deposit32. change (Z.ones 1) with 1. change (1 << pos) with (BIT pos).
  rewrite Z.lor_spec, Z.ldiff_spec, Z.land_spec, testbit_b2z_shift, !testbit_BIT by lia.
  destruct (pos =? i), b, (Z.testbit x i); done.
Qed.

Lemma deposit32_bit_range (n x pos : Z) (b : bool) :
  0 <= pos < n -> 0 <= x < 2 ^ n -> 0 <= deposit32 x pos 1 (b2z b) < 2 ^ n.
Proof.
  intros Hp Hx. unfold deposit32. change (Z.ones 1) with 1.
  apply lor_bound; [lia | apply ldiff_bound; lia | apply land_bound; [lia |]].
  rewrite Z.shiftl_1_l. split; [apply Z.pow_nonneg; lia | apply Z.pow_lt_mono_r; lia].
Qed.

Lemma u8_range (x : Z) : 0 <= u8 x < 2 ^ 8.
Proof. apply Z.mod_pos_bound. lia. Qed.
Lemma u16_range (x : Z) : 0 <= u16 x < 2 ^ 16.
Proof. apply Z.mod_pos_bound. lia. Qed.
Lemma u32_range (x : Z) : 0 <= u32 x < 2 ^ 32.
Proof. apply Z.mod_pos_bound. lia. Qed.
Lemma u64_range (x : Z) : 0 <= u64 x < 2 ^ 64.
Proof. apply Z.mod_pos_bound. lia. Qed.
Lemma u32_small (x : Z) : 0 <= x < 2 ^ 32 -> u32 x = x.
Proof. apply Z.mod_small. Qed.
Lemma u64_small (x : Z) : 0 <= x < 2 ^ 64 -> u64 x = x.
Proof. apply Z.mod_small. Qed.

Lemma i64_small (x : Z) : - 2 ^ 63 <= x < 2 ^ 63 -> i64 x = x.
Proof.
  intros Hx. unfold i64, u64. destruct (Z.ltb_spec x 0).
  - rewrite <- (Z_mod_plus_full x 1), Z.mod_small by lia.
    destruct (Z.ltb_spec (x + 1 * 2 ^ 64) (2 ^ 63)); lia.
  - rewrite Z.mod_small by lia. destruct (Z.ltb_spec x (2 ^ 63)); lia.
Qed.

#[export] Hint Resolve u8_range u16_range u32_range u64_range : zbits.

(** A write of the whole register replaces it. *)
Lemma deposit64_word (old v : Z) : u32 (deposit64 old 0 32 v) = u32 v.
Proof.
  unfold deposit64, u32. rewrite !Z.shiftl_0_r. apply Z.bits_inj'. intros i Hi.
  rewrite !testbit_mod_pow2, Z.lor_spec, Z.ldiff_spec, Z.land_spec, testbit_ones by lia.
  destruct (i <? 32); cbn; [| done]. by rewrite andb_false_r, andb_true_r.
Qed.

(** [zbits] proves an equation between words bit by bit, with the bit
    position symbolic; [zbits_at n] enumerates the positions below [n],
    at which constant masks compute. *)
Ltac zbit_step :=
  first
    [ rewrite Z.land_spec | rewrite Z.lor_spec | rewrite Z.lxor_spec
    | rewrite Z.ldiff_spec | rewrite Z.shiftr_spec by lia
    | rewrite testbit_shiftl by lia | rewrite testbit_ones by lia
    | rewrite testbit_mod_pow2 by lia | rewrite testbit_BIT by lia
    | rewrite Z.testbit_0_l ].

Ltac zbit_simp := repeat zbit_step.

Ltac zbit_cases :=
  repeat match goal with
    | |- context [?a <? ?b] => destruct (Z.ltb_spec a b); try lia
    | |- context [?a <=? ?b] => destruct (Z.leb_spec a b); try lia
    | |- context [?a =? ?b] => destruct (Z.eqb_spec a b); try lia
    end.

Ltac zbits :=
  apply Z.bits_inj'; intros ?i ?Hi; unfold u8, u16, u32, u64; zbit_simp;
  zbit_cases; cbn [andb orb negb xorb]; zbit_simp;
  rewrite ?andb_true_r, ?andb_false_r, ?orb_false_r, ?orb_true_r, ?xorb_false_r;
  try done; try (f_equal; lia).

(** Enumerate the integer [i] between two constants in the hypothesis [H]. *)
Ltac enum_upto i n :=
  lazymatch eval cbv in n with
  | 0 => exfalso; lia
  | ?m =>
      let m' := eval cbv in (m - 1) in
      destruct (Z.eq_dec i m') as [-> | ?];
      [ | enum_upto i m' ]
  end.

Ltac zbits_at n :=
  apply (bits_eq_upto n); [ lia | try (cbn; lia) | try (cbn; lia) | ];
  let i := fresh "i" in let Hi := fresh "Hi" in
  intros i Hi; enum_upto i n; zbit_simp; cbn.

(** Evaluate the comparisons of constants in the goal: which case of a
    [switch] on a constant offset is taken. *)
Ltac zcase :=
  repeat match goal with
    | |- context [?a =? ?b] =>
        let r := eval vm_compute in (a =? b) in
        match r with true => idtac | false => idtac end;
        change (a =? b) with r
    | |- context [?a <=? ?b] =>
        let r := eval vm_compute in (a <=? b) in
        match r with true => idtac | false => idtac end;
        change (a <=? b) with r
    | |- context [?a <? ?b] =>
        let r := eval vm_compute in (a <? b) in
        match r with true => idtac | false => idtac end;
        change (a <? b) with r
    end; cbv beta iota.

(** The outcomes of the runs in the goal. *)
Ltac run_cases :=
  repeat match goal with
    | |- context [match ?x with Done _ _ _ => _ | Halt _ => _ end] =>
        lazymatch x with context [match _ with Done _ _ _ => _ | Halt _ => _ end] => fail | _ => idtac end;
        let a := fresh "a" in destruct x as [a ? ? |]; [try destruct a as [] |]
    end.

(** ** Reasoning about handlers

    [wp m Q s]: from state [s] the handler [m] completes and establishes
    [Q]; [wlp] is the partial version, which also holds when the handler
    stops the emulator. *)

Section Wp.
  Context {E S : Type}.

Definition wp {A} (m : M E S A) (Q : A → S → list E → Prop) (s : S) : Prop :=
  match m s with Done a s' t => Q a s' t | Halt _ => False end.

Definition wlp {A} (m : M E S A) (Q : A → S → list E → Prop) (s : S) : Prop :=
  match m s with Done a s' t => Q a s' t | Halt _ => True end.

(** A handler keeps [I] whenever it completes. *)
Definition preserves {A} (I : S → Prop) (m : M E S A) : Prop :=
  forall s, I s -> wlp m (λ _ s' _, I s') s.

(** A handler completes from every state of [I] and keeps [I]. *)
Definition safe {A} (I : S → Prop) (m : M E S A) : Prop :=
  forall s, I s -> wp m (λ _ s' _, I s') s.

Lemma wp_bind {A B} (m : M E S A) (k : A → M E S B) Q s :
  wp m (λ a s1 t1, wp (k a) (λ b s2 t2, Q b s2 (t1 ++ t2)) s1) s -> wp (m ≫= k) Q s.
Proof.
  unfold wp, mbind, M_bind. destruct (m s) as [a s1 t1 | f]; [| done].
  by destruct (k a s1).
Qed.

Lemma wlp_bind {A B} (m : M E S A) (k : A → M E S B) Q s :
  wlp m (λ a s1 t1, wlp (k a) (λ b s2 t2, Q b s2 (t1 ++ t2)) s1) s -> wlp (m ≫= k) Q s.
Proof.
  unfold wlp, mbind, M_bind. destruct (m s) as [a s1 t1 | f]; [| done].
  by destruct (k a s1).
Qed.

(** One step of a handler whose first action is known. *)
Lemma bind_Done {A B} (m : M E S A) (k : A → M E S B) s a s1 :
  m s = Done a s1 [] -> (m ≫= k) s = k a s1.
Proof. unfold mbind, M_bind. intros ->. by destruct (k a s1). Qed.

Lemma bind_Done_trace {A B} (m : M E S A) (k : A → M E S B) s a s1 t1 b s2 t2 :
  m s = Done a s1 t1 -> k a s1 = Done b s2 t2 -> (m ≫= k) s = Done b s2 (t1 ++ t2).
Proof. unfold mbind, M_bind. by intros -> ->. Qed.

Lemma bind_assoc {A B C} (m : M E S A) (f : A → M E S B) (g : B → M E S C) s :
  ((m ≫= f) ≫= g) s = (m ≫= λ a, f a ≫= g) s.
Proof.
  unfold mbind, M_bind. destruct (m s) as [a s1 t1 |]; [| done].
  destruct (f a s1) as [b s2 t2 |]; [| done]. destruct (g b s2); [| done]. by rewrite app_assoc.
Qed.

Lemma bind_modify {B} (f : S → S) (k : unit → M E S B) s : (modify f ≫= k) s = k () (f s).
Proof. by apply bind_Done. Qed.

Lemma bind_gets {A B} (f : S → A) (k : A → M E S B) s : (gets f ≫= k) s = k (f s) s.
Proof. by apply bind_Done. Qed.

Lemma bind_get {B} (k : S → M E S B) s : (get ≫= k) s = k s s.
Proof. by apply bind_Done. Qed.

Lemma wlp_modify {B} (f : S → S) (k : M E S B) Q s :
  wlp k Q (f s) -> wlp (modify f ;; k) Q s.
Proof. unfold wlp, mbind, M_bind, modify. by destruct (k (f s)). Qed.

Lemma wlp_get {B} (k : S → M E S B) Q s : wlp (k s) Q s -> wlp (s0 ← get; k s0) Q s.
Proof. unfold wlp, mbind, M_bind, get. by destruct (k s s). Qed.

Lemma wlp_ret {A B} (a : A) (k : A → M E S B) Q s : wlp (k a) Q s -> wlp (mret a ≫= k) Q s.
Proof. unfold wlp, mbind, M_bind. cbn. destruct (k a s); auto. Qed.

Lemma wp_mono {A} (m : M E S A) (P Q : A → S → list E → Prop) s :
  wp m P s -> (forall a s' t, P a s' t -> Q a s' t) -> wp m Q s.
Proof. unfold wp. destruct (m s); auto. Qed.

Lemma wlp_mono {A} (m : M E S A) (P Q : A → S → list E → Prop) s :
  wlp m P s -> (forall a s' t, P a s' t -> Q a s' t) -> wlp m Q s.
Proof. unfold wlp. destruct (m s); auto. Qed.

Lemma wp_Done {A} (m : M E S A) Q s :
  wp m Q s -> exists a s' t, m s = Done a s' t /\ Q a s' t.
Proof. unfold wp. destruct (m s) as [a s' t |]; [intros HQ; by exists a, s', t | done]. Qed.

Lemma preserves_ret {A} I (a : A) : preserves I (mret a).
Proof. by intros s Hs. Qed.

Lemma preserves_bind {A B} I (m : M E S A) (k : A → M E S B) :
  preserves I m -> (forall a, preserves I (k a)) -> preserves I (m ≫= k).
Proof.
  intros Hm Hk s Hs. apply wlp_bind. eapply wlp_mono; [by apply Hm |].
  intros a s1 t1 H1. by apply Hk.
Qed.

Lemma preserves_gets {A B} I (f : S → A) (k : A → M E S B) :
  (forall s, I s -> wlp (k (f s)) (λ _ s' _, I s') s) -> preserves I (gets f ≫= k).
Proof. intros Hk s Hs. apply wlp_bind. cbn. by apply Hk. Qed.

Lemma preserves_modify I (f : S → S) :
  (forall s, I s -> I (f s)) -> preserves I (modify f).
Proof. intros Hf s Hs. cbn. by apply Hf. Qed.

Lemma preserves_emit I (e : E) : preserves I (emit e).
Proof. by intros s Hs. Qed.

Lemma preserves_halt {A} I f : preserves I (halt f : M E S A).
Proof. done. Qed.

Lemma preserves_assert I b : preserves I (assert_ b).
Proof. destruct b; [apply preserves_ret | apply preserves_halt]. Qed.

Lemma preserves_when I b m : preserves I m -> preserves I (when b m).
Proof. destruct b; [done |]. intros _. apply preserves_ret. Qed.

Lemma preserves_for_each {A} I (l : list A) body :
  (forall x, x ∈ l -> preserves I (body x)) -> preserves I (for_each l body).
Proof.
  induction l as [|x l IH]; intros Hb; cbn; [apply preserves_ret |].
  apply preserves_bind; [apply Hb; set_solver |].
  intros _. apply IH. intros y Hy. apply Hb. set_solver.
Qed.

Lemma safe_for_each {A} I (l : list A) body :
  (forall x, x ∈ l -> safe I (body x)) -> safe I (for_each l body).
Proof.
  induction l as [|x l IH]; intros Hb s Hs; cbn; [done |]. apply wp_bind.
  eapply wp_mono; [apply Hb; [set_solver | done] |]. intros [] s1 t1 H1.
  eapply wp_mono; [apply IH; [set_solver | done] | done].
Qed.

(** Loop rule: [J k] holds of the state and trace after the first [k]
    iterations. *)
Lemma wp_for_each {A} (l : list A) body (J : nat → S → list E → Prop) s t0 :
  J 0%nat s t0 ->
  (forall k x s' t, l !! k = Some x -> J k s' t ->
     wp (body x) (λ _ s2 t2, J (Datatypes.S k) s2 (t ++ t2)) s') ->
  wp (for_each l body) (λ _ s' t', J (length l) s' (t0 ++ t')) s.
Proof.
  revert J s t0. induction l as [|x l IH]; intros J s t0 H0 Hstep; cbn.
  { unfold wp; cbn. by rewrite app_nil_r. }
  apply wp_bind. eapply wp_mono; [by apply (Hstep 0%nat x) |]. cbn.
  intros _ s1 t1 H1.
  eapply wp_mono; [apply (IH (λ k, J (Datatypes.S k)) s1 (t0 ++ t1)); [done |] |].
  - intros k y s' t Hy HJ. by apply (Hstep (Datatypes.S k)).
  - intros [] s2 t2 HJ. cbn. by rewrite <- app_assoc in HJ.
Qed.

(** The state of a loop whose body never stops the emulator is the fold
    of the body's effect. *)
Lemma for_each_fold {A} (l : list A) (body : A → M E S unit)
    (f : S → A → S) (g : S → A → list E) s :
  (forall x s, x ∈ l -> body x s = Done () (f s x) (g s x)) ->
  exists t, for_each l body s = Done () (foldl f s l) t.
Proof.
  revert s. induction l as [|x l IH]; intros s Hb; cbn; [by eexists |].
  unfold mbind, M_bind. rewrite Hb by set_solver.
  destruct (IH (f s x)) as [t Ht]; [set_solver |]. rewrite Ht. by eexists.
Qed.

Lemma for_each_skip {A} (l : list A) (body : A → M E S unit) s :
  (forall x, x ∈ l -> body x s = Done () s []) -> for_each l body s = Done () s [].
Proof.
  induction l as [|x l IH]; intros Hb; [done |]. cbn. unfold mbind, M_bind.
  rewrite Hb, IH by set_solver. done.
Qed.

Lemma for_each_app {A} (l1 l2 : list A) (body : A → M E S unit) s :
  for_each (l1 ++ l2) body s = (for_each l1 body ;; for_each l2 body) s.
Proof.
  revert s. induction l1 as [|x l1 IH]; intros s; cbn; unfold mbind, M_bind.
  { cbn. by destruct (for_each l2 body s) as [[] |]. }
  destruct (body x s) as [[] s1 t1 |]; [| done]. rewrite IH. unfold mbind, M_bind.
  destruct (for_each l1 body s1) as [[] s2 t2 |]; [| done].
  destruct (for_each l2 body s2) as [[] s3 t3 |]; [| done]. by rewrite app_assoc.
Qed.

Lemma for_each_emit {A} (l : list A) (f : A → E) (s : S) :
  for_each l (λ x, emit (f x)) s = Done () s (f <$> l).
Proof. induction l as [|x l IH]; [done |]. cbn. unfold mbind, M_bind. cbn. by rewrite IH. Qed.

Lemma for_each_when_emit {A} (l : list A) (b : A → bool) (f : A → E) (s : S) :
  for_each l (λ x, when (b x) (emit (f x))) s = Done () s (f <$> filter (λ x, b x = true) l).
Proof.
  induction l as [|x l IH]; [done |]. rewrite filter_cons. cbn [for_each].
  unfold mbind, M_bind. destruct (b x); cbn [when emit mret M_ret]; rewrite IH; case_decide; done.
Qed.

End Wp.

Create HintDb preserves discriminated.
#[export] Hint Resolve preserves_ret preserves_bind preserves_emit preserves_halt
  preserves_assert preserves_when : preserves.

Lemma elem_of_zrange (lo : Z) (n : nat) (i : Z) :
  i ∈ zrange lo n <-> lo <= i < lo + Z.of_nat n.
Proof.
  unfold zrange. rewrite list_elem_of_fmap. split.
  - intros (k & -> & Hk%elem_of_seq). lia.
  - intros Hi. exists (Z.to_nat (i - lo)). rewrite elem_of_seq. lia.
Qed.

Lemma zrange_lookup (lo : Z) (n k : nat) (x : Z) :
  zrange lo n !! k = Some x -> (k < n)%nat /\ x = lo + Z.of_nat k.
Proof.
  intros Hx. assert (Hk : (k < n)%nat).
  { apply lookup_lt_Some in Hx. unfold zrange in Hx. by rewrite length_fmap, length_seq in Hx. }
  unfold zrange in Hx. rewrite list_lookup_fmap, lookup_seq_lt in Hx by lia. cbn in Hx.
  injection Hx as <-. done.
Qed.

Lemma between_true (a p b : Z) : a <= p < b -> (a <=? p) && (p <? b) = true.
Proof. intros H. by rewrite (proj2 (Z.leb_le a p)), (proj2 (Z.ltb_lt p b)) by lia. Qed.

Lemma between_false (a p b : Z) : ~ (a <= p < b) -> (a <=? p) && (p <? b) = false.
Proof. intros H. destruct (Z.leb_spec a p), (Z.ltb_spec p b); try done. lia. Qed.

Lemma zrange_S (lo : Z) (n : nat) : zrange lo (S n) = zrange lo n ++ [lo + Z.of_nat n].
Proof. unfold zrange. by rewrite seq_S, fmap_app. Qed.

Lemma zrange_cons (lo : Z) (n : nat) : zrange lo (S n) = lo :: zrange (lo + 1) n.
Proof.
  unfold zrange. cbn [seq fmap list_fmap]. rewrite Z.add_0_r. f_equal. rewrite <- fmap_S_seq, <- list_fmap_compose.
  apply list_fmap_ext. intros _ i _. cbn. lia.
Qed.

(** The results of a range from [lo + 1] on are those of the range from [lo]. *)
Lemma zrange_bind_shift {A} (lo : Z) (n : nat) (f g : Z → list A) :
  (forall k, g k = f (k + 1)) -> zrange (lo + 1) n ≫= f = zrange lo n ≫= g.
Proof.
  intros Hfg. revert lo. induction n as [|n IH]; intros lo; [done |].
  by rewrite !zrange_cons, !bind_cons, IH, Hfg.
Qed.

Lemma zrange_length (lo : Z) (n : nat) : length (zrange lo n) = n.
Proof. unfold zrange. by rewrite length_fmap, length_seq. Qed.

Lemma filter_ext_in {A} (P Q : A → bool) (l : list A) :
  (forall x, x ∈ l -> P x = Q x) -> filter (λ x, P x = true) l = filter (λ x, Q x = true) l.
Proof.
  induction l as [|x l IH]; intros Hl; [done |]. rewrite !filter_cons, IH by set_solver.
  rewrite (Hl x) by set_solver. done.
Qed.

Lemma foldl_ext_in {A B} (f g : B → A → B) (l : list A) (b : B) :
  (forall b x, x ∈ l -> f b x = g b x) -> foldl f b l = foldl g b l.
Proof.
  revert b. induction l as [|x l IH]; intros b Hl; [done |]. cbn.
  rewrite Hl, IH by set_solver. done.
Qed.

(** ** Effects of the devices

    The outside world as a device sees it: [SetIrq n level] drives the
    device's [n]-th output line ([qemu_set_irq]); [TimerMod t w] arms its
    timer [t] for the virtual time [w] and [TimerDel t] cancels it;
    [ChrWrite c] sends a character; [OutputStart c] starts the output file of
    an analog channel and [Output c v] adds a value to it; the other events are
    diagnostics. *)

Inductive diag : Type :=
  | BadReg        (* STM32_BAD_REG *)
  | ReadOnlyReg   (* STM32_RO_REG *)
  | WriteOnlyReg  (* STM32_WO_REG *)
  | NotImplReg    (* STM32_NOT_IMPL_REG *)
  | HwWarn        (* stm32_hw_warn *)
  | Message.      (* printf, fprintf, qemu_log_mask *)

Inductive dev_event : Type :=
  | SetIrq (n level : Z)
  | TimerMod (timer expire : Z)
  | TimerDel (timer : Z)
  | ChrWrite (ch : Z)
  | OutputStart (channel : Z)
  | Output (channel value : Z)
  | Report (d : diag).

#[export] Instance diag_eq_dec : EqDecision diag.
Proof. solve_decision. Defined.
#[export] Instance dev_event_eq_dec : EqDecision dev_event.
Proof. solve_decision. Defined.

(** ** Lines

    The level of an output line after some effects, and the handlers that leave the line
    with the level that the device remembers of it. *)

Definition line_level (n l : Z) (t : list dev_event) : Z :=
  foldl (λ l e, match e with SetIrq n' v => if n' =? n then v else l | _ => l end) l t.

Lemma line_level_app n l t1 t2 : line_level n l (t1 ++ t2) = line_level n (line_level n l t1) t2.
Proof. apply foldl_app. Qed.

Section Drives.
  Context {S : Type} (n : Z) (level : S → Z).

Definition drives {A} (m : M dev_event S A) : Prop := forall s, wlp m (λ _ s' t, line_level n (level s) t = level s') s.

Lemma drives_ret {A} (a : A) : drives (mret a).
Proof. by intros s. Qed.

Lemma drives_halt {A} f : drives (halt f : M dev_event S A).
Proof. done. Qed.

Lemma drives_get : drives get.
Proof. by intros s. Qed.

Lemma drives_gets {A} (f : S → A) : drives (gets f).
Proof. by intros s. Qed.

Lemma drives_modify (f : S → S) : (forall s, level (f s) = level s) -> drives (modify f).
Proof. intros Hf s. cbn. by rewrite Hf. Qed.

Lemma drives_emit e : (forall l, line_level n l [e] = l) -> drives (emit e).
Proof. intros He s. exact (He (level s)). Qed.

Lemma drives_bind {A B} (m : M dev_event S A) (k : A → M dev_event S B) : drives m -> (forall a, drives (k a)) -> drives (m ≫= k).
Proof.
  intros Hm Hk s. apply wlp_bind. eapply wlp_mono; [apply Hm |]. intros a s1 t1 H1.
  eapply wlp_mono; [apply Hk |]. intros b s2 t2 H2. cbn beta in *. by rewrite line_level_app, H1.
Qed.

Lemma drives_when b m : drives m -> drives (when b m).
Proof. destruct b; [done |]. intros _. apply drives_ret. Qed.

Lemma drives_assert b : drives (assert_ b).
Proof. destruct b; [apply drives_ret | apply drives_halt]. Qed.

End Drives.

(** Goes through a handler whose other parts are known to [drives]. *)
Ltac drive :=
  repeat first
    [ apply drives_ret | apply drives_halt | apply drives_get | apply drives_gets | apply drives_assert
    | apply drives_modify; reflexivity | apply drives_emit; reflexivity | solve [auto with drives]
    | apply drives_bind; [| intros ?] | apply drives_when
    | match goal with |- drives _ _ (if ?b then _ else _) => destruct b end
    | match goal with |- drives _ _ (match ?x with _ => _ end) => destruct x end ].

Create HintDb drives.

(** The interrupts among the effects of a handler. *)
Definition is_irq (e : dev_event) : bool := match e with SetIrq _ _ => true | _ => false end.
