(* ===== verification/Stm32.v ===== *)
(** * Common definitions ([include/hw/arm/stm32.h])

    The peripheral identifiers ([stm32_periph_t] is [int32_t]), the interrupt
    numbers of the vector table and the encodings of the GPIO pin modes, and
    the interfaces through which the peripherals see each other: the clock of
    a peripheral ([PeriphClocks], provided by the RCC), the configuration of
    a port's pins ([PinConfig], provided by the GPIO ports) and the pin
    mapping of a peripheral ([PeriphMap], provided by the AFIO). *)

From S2P Require Import Prelude.

(** ** Peripherals *)

Definition STM32_PERIPH_UNDEFINED : Z := -1.
Definition STM32_RCC_PERIPH : Z := 0.
Definition STM32_GPIOA : Z := 1.
Definition STM32_GPIOB : Z := 2.
Definition STM32_GPIOC : Z := 3.
Definition STM32_GPIOD : Z := 4.
Definition STM32_GPIOE : Z := 5.
Definition STM32_GPIOF : Z := 6.
Definition STM32_GPIOG : Z := 7.
Definition STM32_GPIOH : Z := 8.
Definition STM32_GPIOI : Z := 9.
Definition STM32_GPIOJ : Z := 10.
Definition STM32_GPIOK : Z := 11.
Definition STM32_SYSCFG : Z := 12.
Definition STM32_AFIO_PERIPH : Z := 13.
Definition STM32_UART1 : Z := 14.
Definition STM32_UART2 : Z := 15.
Definition STM32_UART3 : Z := 16.
Definition STM32_UART4 : Z := 17.
Definition STM32_UART5 : Z := 18.
Definition STM32_UART6 : Z := 19.
Definition STM32_UART7 : Z := 20.
Definition STM32_UART8 : Z := 21.
Definition STM32_ADC1 : Z := 22.
Definition STM32_ADC2 : Z := 23.
Definition STM32_ADC3 : Z := 24.
Definition STM32_DAC : Z := 25.
Definition STM32_TIM1 : Z := 26.
Definition STM32_TIM2 : Z := 27.
Definition STM32_TIM3 : Z := 28.
Definition STM32_TIM4 : Z := 29.
Definition STM32_TIM5 : Z := 30.
Definition STM32_TIM6 : Z := 31.
Definition STM32_TIM7 : Z := 32.
Definition STM32_TIM8 : Z := 33.
Definition STM32_TIM9 : Z := 34.
Definition STM32_TIM10 : Z := 35.
Definition STM32_TIM11 : Z := 36.
Definition STM32_TIM12 : Z := 37.
Definition STM32_TIM13 : Z := 38.
Definition STM32_TIM14 : Z := 39.
Definition STM32_BKP : Z := 40.
Definition STM32_PWR : Z := 41.
Definition STM32_I2C1 : Z := 42.
Definition STM32_I2C2 : Z := 43.
Definition STM32_I2C3 : Z := 44.
Definition STM32_I2S2 : Z := 45.
Definition STM32_I2S3 : Z := 46.
Definition STM32_WWDG : Z := 47.
Definition STM32_IWDG : Z := 48.
Definition STM32_CAN1 : Z := 49.
Definition STM32_CAN2 : Z := 50.
Definition STM32_CAN : Z := 51.
Definition STM32_USB : Z := 52.
Definition STM32_SPI1 : Z := 53.
Definition STM32_SPI2 : Z := 54.
Definition STM32_SPI3 : Z := 55.
Definition STM32_EXTI_PERIPH : Z := 56.
Definition STM32_SDIO : Z := 57.
Definition STM32_FSMC : Z := 58.
Definition STM32_RTC : Z := 59.
Definition STM32_COMP : Z := 60.
Definition STM_LCD : Z := 61.
Definition STM32_CRC : Z := 62.
Definition STM32_DMA1 : Z := 63.
Definition STM32_DMA2 : Z := 64.
Definition STM32_DCMI_PERIPH : Z := 65.
Definition STM32_CRYP_PERIPH : Z := 66.
Definition STM32_HASH_PERIPH : Z := 67.
Definition STM32_RNG_PERIPH : Z := 68.
Definition STM32_PERIPH_COUNT : Z := 69.

(** ** Interrupt numbers *)

Definition STM32_RTC_IRQ : Z := 3.
Definition STM32_RCC_IRQ : Z := 5.
Definition STM32_ADC1_2_IRQ : Z := 18.
Definition STM32_UART1_IRQ : Z := 37.
Definition STM32_UART2_IRQ : Z := 38.
Definition STM32_UART3_IRQ : Z := 39.
Definition STM32_UART4_IRQ : Z := 52.
Definition STM32_UART5_IRQ : Z := 53.
Definition STM32_EXTI0_IRQ : Z := 6.
Definition STM32_EXTI1_IRQ : Z := 7.
Definition STM32_EXTI2_IRQ : Z := 8.
Definition STM32_EXTI3_IRQ : Z := 9.
Definition STM32_EXTI4_IRQ : Z := 10.
Definition STM32_DMA1_STREAM0_IRQ : Z := 11.
Definition STM32_DMA1_STREAM1_IRQ : Z := 12.
Definition STM32_DMA1_STREAM2_IRQ : Z := 13.
Definition STM32_DMA1_STREAM3_IRQ : Z := 14.
Definition STM32_DMA1_STREAM4_IRQ : Z := 15.
Definition STM32_DMA1_STREAM5_IRQ : Z := 16.
Definition STM32_DMA1_STREAM6_IRQ : Z := 17.
Definition STM32_EXTI9_5_IRQ : Z := 23.
Definition TIM1_BRK_IRQn : Z := 24.
Definition TIM1_UP_IRQn : Z := 25.
Definition TIM1_TRG_COM_IRQn : Z := 26.
Definition TIM1_CC_IRQn : Z := 27.
Definition TIM2_IRQn : Z := 28.
Definition TIM3_IRQn : Z := 29.
Definition TIM4_IRQn : Z := 30.
Definition STM32_EXTI15_10_IRQ : Z := 40.
Definition STM32_PVD_IRQ : Z := 1.
Definition STM32_RTCAlarm_IRQ : Z := 41.
Definition STM32_OTG_FS_WKUP_IRQ : Z := 42.
Definition TIM8_BRK_TIM12_IRQn : Z := 43.
Definition TIM8_UP_TIM13_IRQn : Z := 44.
Definition TIM8_TRG_COM_TIM14_IRQn : Z := 45.
Definition TIM8_CC_IRQn : Z := 46.
Definition STM32_DMA1_STREAM7_IRQ : Z := 47.
Definition TIM5_IRQn : Z := 50.
Definition TIM6_DAC_IRQn : Z := 54.
Definition TIM7_IRQn : Z := 55.
Definition STM32_ETH_WKUP_IRQ : Z := 62.

(** ** GPIO pins *)

Definition STM32_GPIO_COUNT : Z := STM32_GPIOG - STM32_GPIOA + 1.
Definition STM32_GPIO_PIN_COUNT : Z := 16.

Definition STM32_GPIO_INDEX_FROM_PERIPH (gpio_periph : Z) : Z := gpio_periph - STM32_GPIOA.
Definition STM32_GPIO_PERIPH_FROM_INDEX (gpio_index : Z) : Z := STM32_GPIOA + gpio_index.

Definition STM32_GPIO_MODE_IN : Z := 0.
Definition STM32_GPIO_MODE_OUT_10MHZ : Z := 1.
Definition STM32_GPIO_MODE_OUT_2MHZ : Z := 2.
Definition STM32_GPIO_MODE_OUT_50MHZ : Z := 3.
Definition STM32_GPIO_IN_ANALOG : Z := 0.
Definition STM32_GPIO_IN_FLOAT : Z := 1.
Definition STM32_GPIO_IN_PULLUPDOWN : Z := 2.
Definition STM32_GPIO_OUT_PUSHPULL : Z := 0.
Definition STM32_GPIO_OUT_OPENDRAIN : Z := 1.
Definition STM32_GPIO_OUT_ALT_PUSHPULL : Z := 2.
Definition STM32_GPIO_OUT_ALT_OPEN : Z := 3.
Definition STM32_GPIOA_INDEX : Z := 0.
Definition STM32_GPIOB_INDEX : Z := 1.
Definition STM32_GPIOC_INDEX : Z := 2.
Definition STM32_GPIOD_INDEX : Z := 3.
Definition STM32_GPIOE_INDEX : Z := 4.
Definition STM32_GPIOF_INDEX : Z := 5.
Definition STM32_GPIOG_INDEX : Z := 6.
Definition STM32_UART1_INDEX : Z := 0.
Definition STM32_UART2_INDEX : Z := 1.
Definition STM32_UART3_INDEX : Z := 2.
Definition STM32_UART4_INDEX : Z := 3.
Definition STM32_UART5_INDEX : Z := 4.
Definition STM32_ADC1_INDEX : Z := 0.
Definition STM32_ADC2_INDEX : Z := 1.

(** ** Pin remapping *)

Definition STM32_USART1_NO_REMAP : Z := 0.
Definition STM32_USART1_REMAP : Z := 1.
Definition STM32_USART2_NO_REMAP : Z := 0.
Definition STM32_USART2_REMAP : Z := 1.
Definition STM32_USART3_NO_REMAP : Z := 0.
Definition STM32_USART3_PARTIAL_REMAP : Z := 1.
Definition STM32_USART3_FULL_REMAP : Z := 3.

(** ** Interfaces between the peripherals *)

(** What a peripheral sees of the RCC: whether it has a clock, whether the
    clock is enabled and its frequency, a 32-bit number that is zero when the
    clock is off. *)
Class PeriphClocks (R : Type) : Type := {
  periph_clocked : R → Z → bool;
  periph_enabled : R → Z → bool;
  periph_freq : R → Z → Z
}.

Class PeriphClocksLaws (R : Type) `{PeriphClocks R} (ok : R → Prop) : Prop := {
  periph_freq_range r p : ok r -> 0 <= periph_freq r p < 2 ^ 32;
  periph_freq_off r p : ok r -> periph_enabled r p = false -> periph_freq r p = 0
}.

(** What a peripheral sees of a GPIO port: the mode and the configuration of
    each pin. *)
Class PinConfig (G : Type) : Type := {
  pin_mode : G → Z → Z;
  pin_config : G → Z → Z
}.

Class PinConfigLaws (G : Type) `{PinConfig G} (ok : G → Prop) : Prop := {
  pin_mode_range g pin : ok g -> 0 <= pin < 16 -> 0 <= pin_mode g pin < 4;
  pin_config_range g pin : ok g -> 0 <= pin < 16 -> 0 <= pin_config g pin < 4
}.

(** What a peripheral sees of the AFIO: the remap field of a peripheral. *)
Class PeriphMap (A : Type) : Type := periph_map : A → Z → option Z.

(** ** Calls from the peripherals to the RCC

    [check_periph_clk] is [stm32_rcc_check_periph_clk] and [get_periph_freq] is
    [stm32_rcc_get_periph_freq], as a device that holds a pointer to the RCC
    calls them: the RCC's state is only read. *)
Section RccCalls.
  Context {S R : Type} `{PeriphClocks R}.

Definition check_periph_clk (rcc : R) (periph : Z) : M dev_event S unit :=
  assert_ (periph_clocked rcc periph) ;;
  when (negb (periph_enabled rcc periph)) (emit (Report HwWarn)).

Definition get_periph_freq (rcc : R) (periph : Z) : M dev_event S Z :=
  assert_ (periph_clocked rcc periph) ;;
  mret (periph_freq rcc periph).

(** The diagnostic of a write to a peripheral whose clock is off. *)
Definition clk_warning (rcc : R) (periph : Z) : list dev_event :=
  if periph_enabled rcc periph then [] else [Report HwWarn].

Lemma check_periph_clk_ok (rcc : R) (periph : Z) (s : S) :
  periph_clocked rcc periph = true ->
  check_periph_clk rcc periph s = Done () s (clk_warning rcc periph).
Proof.
  intros Hc. unfold check_periph_clk, clk_warning, mbind, M_bind. rewrite Hc. cbn.
  by destruct (periph_enabled rcc periph).
Qed.

Lemma get_periph_freq_Done (rcc : R) (periph : Z) (s : S) :
  periph_clocked rcc periph = true ->
  get_periph_freq rcc periph s = Done (periph_freq rcc periph) s [].
Proof. intros Hc. unfold get_periph_freq, mbind, M_bind. by rewrite Hc. Qed.

End RccCalls.

(** A fixed clock source, for the examples: every peripheral has a clock of
    the given frequency. *)
#[export] Instance fixed_clocks : PeriphClocks Z := {
  periph_clocked _ _ := true;
  periph_enabled f _ := negb (f =? 0);
  periph_freq f _ := f
}.

(** A port whose pins all have the same mode and configuration, and a fixed
    mapping. *)
#[export] Instance fixed_pins : PinConfig (Z * Z) := {
  pin_mode g _ := fst g;
  pin_config g _ := snd g
}.

#[export] Instance fixed_map : PeriphMap Z := λ m _, Some m.
