(* ===== verification/Clktree.v ===== *)
(** * The clock tree ([hw/arm/stm32_clktree.c])

    A [Clk] is a pointer to a heap-allocated structure; the structures refer
    to each other both ways ([input] and [output] arrays), so the model keeps
    a heap of structures and pointers into it.  [clktree_recalc_output_freq]
    and [clktree_set_input_freq] call each other along the [output] links; the
    recursion is bounded by a fuel argument, and [recalc_ok] below shows that
    the number of allocated clocks is always enough.

    A change of frequency is announced to the users of a clock with
    [qemu_set_irq(user, 1)].  The handlers of the users read the new frequency
    of the clock ([stm32_rcc_get_periph_freq]) and nothing else of the tree,
    so the model records each announcement with the frequency the handler
    would read. *)

From S2P Require Import Prelude.
From stdpp Require Import strings relations.
Open Scope Z_scope.

(** ** Arithmetic: [muldiv64] of [include/qemu-common.h]

    The 96-bit product is divided in two 32-bit halves; the union's
    [res.l.high] and [res.l.low] are 32 bits wide. *)

Definition muldiv64 (a b c : Z) : Z :=
  let rl := u64 (u32 a * b) in
  let rh := u64 (u32 (a >> 32) * b) in
  let rh := u64 (rh + (rl >> 32)) in
  let high := u32 (rh / c) in
  let low := u32 (u64 (u64 ((rh mod c) << 32) + (rl .& 0xffffffff)) / c) in
  (high << 32) + low.

(** The division of the two halves is the division of the 96-bit product as
    long as the quotient fits in 64 bits. *)
Lemma muldiv64_eq (a b c : Z) :
  0 <= a < 2 ^ 64 -> 0 <= b < 2 ^ 32 -> 0 < c < 2 ^ 32 ->
  a * b / c < 2 ^ 64 -> muldiv64 a b c = a * b / c.
Proof.
  intros Ha Hb Hc Hq. unfold muldiv64, u32, u64.
  set (lo := a mod 2 ^ 32). set (hi := a / 2 ^ 32).
  assert (Hlo : 0 <= lo < 2 ^ 32) by (apply Z.mod_pos_bound; lia).
  assert (Hhi : 0 <= hi < 2 ^ 32) by (split; [apply Z.div_pos; lia | apply Z.div_lt_upper_bound; lia]).
  assert (Ea : a = hi * 2 ^ 32 + lo).
  { unfold hi, lo. rewrite (Z.div_mod a (2 ^ 32)) at 1 by lia. lia. }
  change 0xffffffff with (Z.ones 32).
  rewrite Z.land_ones, !Z.shiftl_mul_pow2, !Z.shiftr_div_pow2 by lia.
  fold hi. rewrite (Z.mod_small hi) by lia.
  rewrite (Z.mod_small (lo * b)) by nia. rewrite (Z.mod_small (hi * b)) by nia.
  set (rl := lo * b).
  assert (Hrl : 0 <= rl / 2 ^ 32 < 2 ^ 32)
    by (split; [apply Z.div_pos; nia | apply Z.div_lt_upper_bound; nia]).
  rewrite (Z.mod_small (hi * b + rl / 2 ^ 32)) by nia.
  set (rh := hi * b + rl / 2 ^ 32).
  assert (Eab : a * b = rh * 2 ^ 32 + rl mod 2 ^ 32).
  { rewrite Ea. unfold rh, rl. pose proof (Z.div_mod (lo * b) (2 ^ 32) ltac:(lia)). nia. }
  pose proof (Z.mod_pos_bound rl (2 ^ 32) ltac:(lia)) as Hrm.
  pose proof (Z.mod_pos_bound rh c ltac:(lia)) as Hrc.
  pose proof (Z.div_mod rh c ltac:(lia)) as Erh.
  rewrite (Z.mod_small (rh mod c * 2 ^ 32)) by nia.
  rewrite (Z.mod_small (rh mod c * 2 ^ 32 + rl mod 2 ^ 32)) by nia.
  assert (Hlow : 0 <= (rh mod c * 2 ^ 32 + rl mod 2 ^ 32) / c < 2 ^ 32)
    by (split; [apply Z.div_pos; nia | apply Z.div_lt_upper_bound; nia]).
  rewrite (Z.mod_small _ (2 ^ 32) Hlow).
  assert (Ediv : a * b / c = rh / c * 2 ^ 32 + (rh mod c * 2 ^ 32 + rl mod 2 ^ 32) / c).
  { rewrite Eab. rewrite Erh at 1.
    replace ((c * (rh / c) + rh mod c) * 2 ^ 32 + rl mod 2 ^ 32)
      with (rh mod c * 2 ^ 32 + rl mod 2 ^ 32 + (rh / c * 2 ^ 32) * c) by lia.
    rewrite Z.div_add by lia. lia. }
  rewrite (Z.mod_small (rh / c)); [lia |].
  split; [apply Z.div_pos; nia | nia].
Qed.

(** ** Data *)

Definition CLKTREE_MAX_IRQ : nat := 16.
Definition CLKTREE_MAX_OUTPUT : nat := 16.
Definition CLKTREE_MAX_INPUT : nat := 16.
Definition CLKTREE_NO_INPUT : Z := -1.
Definition CLKTREE_NO_MAX_FREQ : Z := 0xffffffff.

(** A pointer to a clock: its position in the heap, in order of allocation. *)
Abbreviation clkptr := nat.

(** [struct Clk].  The arrays [user], [output] and [input] with their counts
    are lists; [input[0]] is the null pointer. *)
Record Clk : Type := mkClk {
  name : string;
  enabled : bool;
  input_freq : Z;
  output_freq : Z;
  max_output_freq : Z;
  multiplier : Z;
  divisor : Z;
  user : list Z;
  output : list clkptr;
  input : list (option clkptr);
  selected_input : Z
}.

#[export] Instance Clk_settable : Settable Clk := λ c,
  mkClk (name c) (enabled c) (input_freq c) (output_freq c) (max_output_freq c)
    (multiplier c) (divisor c) (user c) (output c) (input c) (selected_input c).

Abbreviation heap := (list Clk).

Inductive clk_event : Type :=
  | Notify (u : Z) (freq : Z)     (* qemu_set_irq(clk->user[i], 1) *)
  | ExceedsMax (clk : clkptr).    (* the warning on stderr *)

Abbreviation ClkM := (M clk_event heap).

(** ** Heap access *)

Definition load (clk : clkptr) : ClkM Clk := λ h,
  match h !! clk with Some c => Done c h [] | None => Halt NullPointer end.

Definition store (clk : clkptr) (c : Clk) : ClkM unit := modify (λ h, <[clk := c]> h).

Definition alloc (c : Clk) : ClkM clkptr := λ h, Done (length h) (h ++ [c]) [].

(** ** Helper functions *)

Definition clktree_get_input_clk (c : Clk) : option clkptr :=
  default None (input c !! Z.to_nat (selected_input c + 1)).

(** [clktree_set_input_freq], over the routine that recalculates the output. *)
Definition set_input_freq_with (recalc : clkptr → ClkM unit)
    (clk : clkptr) (freq : Z) : ClkM unit :=
  c ← load clk;
  store clk (c <| input_freq := freq |>) ;;
  recalc clk.

(** The new output frequency: [muldiv64] divides by the divisor. *)
Definition new_output_freq (c : Clk) : ClkM Z :=
  if enabled c then
    if divisor c =? 0 then halt DivByZero
    else mret (u32 (muldiv64 (input_freq c) (multiplier c) (divisor c)))
  else mret 0.

Fixpoint clktree_recalc_output_freq (fuel : nat) (clk : clkptr) : ClkM unit :=
  match fuel with
  | O => halt OutOfFuel
  | S fuel' =>
      c ← load clk;
      new ← new_output_freq c;
      if new =? output_freq c then mret () else
      store clk (c <| output_freq := new |>) ;;
      when (max_output_freq c <? new) (emit (ExceedsMax clk)) ;;
      for_each (user c) (λ u, emit (Notify u new)) ;;
      for_each (output c) (λ next,
        nc ← load next;
        if decide (clktree_get_input_clk nc = Some clk)
        then set_input_freq_with (clktree_recalc_output_freq fuel') next new
        else mret ())
  end.

(** The fuel of a call from outside the recursion: one level per clock. *)
Definition recalc_top (clk : clkptr) : ClkM unit :=
  h ← get; clktree_recalc_output_freq (length h) clk.

Definition clktree_set_input_freq (clk : clkptr) (freq : Z) : ClkM unit :=
  set_input_freq_with recalc_top clk freq.

Definition clktree_create_generic (nm : string) (mul div : Z) (en : bool) : ClkM clkptr :=
  alloc (mkClk nm en 0 0 CLKTREE_NO_MAX_FREQ mul div [] [] [None] CLKTREE_NO_INPUT).

(** [CLKTREE_ADD_LINK]: store at [array[count]], increment the count and
    assert that the array has not overflowed. *)
Definition CLKTREE_ADD_LINK {A} (array : list A) (value : A) (array_size : nat) : ClkM (list A) :=
  assert_ (bool_decide (S (length array) <= array_size)%nat) ;;
  mret (array ++ [value]).

(** ** Public functions *)

Definition clktree_is_enabled (clk : clkptr) : ClkM bool :=
  c ← load clk; mret (enabled c).

Definition clktree_get_output_freq (clk : clkptr) : ClkM Z :=
  c ← load clk; mret (output_freq c).

Definition clktree_adduser (clk : clkptr) (u : Z) : ClkM unit :=
  c ← load clk;
  us ← CLKTREE_ADD_LINK (user c) u CLKTREE_MAX_IRQ;
  store clk (c <| user := us |>).

Definition clktree_create_src_clk (nm : string) (src_freq : Z) (en : bool) : ClkM clkptr :=
  clk ← clktree_create_generic nm 1 1 en;
  clktree_set_input_freq clk src_freq ;;
  mret clk.

(** The assertion compares [int] with [unsigned], so it is unsigned. *)
Definition clktree_set_selected_input (clk : clkptr) (sel : Z) : ClkM unit :=
  c ← load clk;
  assert_ (u32 (sel + 1) <? Z.of_nat (length (input c))) ;;
  store clk (c <| selected_input := sel |>) ;;
  freq ← (if -1 <? sel then
            match clktree_get_input_clk (c <| selected_input := sel |>) with
            | Some p => clktree_get_output_freq p
            | None => halt NullPointer
            end
          else mret 0);
  clktree_set_input_freq clk freq.

Definition add_input_link (clk input_clk : clkptr) : ClkM unit :=
  c ← load clk;
  ins ← CLKTREE_ADD_LINK (input c) (Some input_clk) CLKTREE_MAX_INPUT;
  store clk (c <| input := ins |>) ;;
  ic ← load input_clk;
  outs ← CLKTREE_ADD_LINK (output ic) clk CLKTREE_MAX_OUTPUT;
  store input_clk (ic <| output := outs |>).

(** The variable arguments, up to the terminating NULL, are the list [ins]. *)
Definition clktree_create_clk (nm : string) (mul div : Z) (en : bool)
    (max_freq : Z) (sel : Z) (ins : list clkptr) : ClkM clkptr :=
  clk ← clktree_create_generic nm mul div en;
  for_each ins (add_input_link clk) ;;
  clktree_set_selected_input clk sel ;;
  mret clk.

Definition clktree_set_scale (clk : clkptr) (mul div : Z) : ClkM unit :=
  c ← load clk;
  store clk (c <| multiplier := mul |> <| divisor := div |>) ;;
  recalc_top clk.

Definition clktree_set_enabled (clk : clkptr) (en : bool) : ClkM unit :=
  c ← load clk;
  store clk (c <| enabled := en |>) ;;
  recalc_top clk.

(** ** The invariant of the tree

    [topo]: the links are consistent.  [input[0]] is NULL and the other inputs
    are clocks created earlier whose [output] array lists this clock; outputs
    were created later; the selected input exists; the multiplier and the
    divisor are 16 bits wide and the divisor is not zero. *)

Definition scale_ok (c : Clk) : Prop :=
  0 <= multiplier c < 2 ^ 16 /\ 0 < divisor c < 2 ^ 16.

Record topo_clk (h : heap) (i : clkptr) (c : Clk) : Prop := {
  topo_inputs : exists ps, input c = None :: (Some <$> ps) /\
    forall p, p ∈ ps -> (p < i)%nat /\ exists pc, h !! p = Some pc /\ i ∈ output pc;
  topo_outputs : forall o, o ∈ output c -> (i < o < length h)%nat;
  topo_selected : 0 <= selected_input c + 1 < Z.of_nat (length (input c));
  topo_scale : scale_ok c
}.

Definition topo (h : heap) : Prop := forall i c, h !! i = Some c -> topo_clk h i c.

(** The output frequency a clock should have, given its input. *)
Definition calc (c : Clk) : Z :=
  if enabled c then u32 (muldiv64 (input_freq c) (multiplier c) (divisor c)) else 0.

Definition out_ok (c : Clk) : Prop := output_freq c = calc c.

(** The input frequency is the output frequency of the selected input, and
    zero when a clock with inputs has none selected. *)
Definition link_ok (h : heap) (c : Clk) : Prop :=
  match clktree_get_input_clk c with
  | Some p => exists pc, h !! p = Some pc /\ input_freq c = output_freq pc
  | None => (length (input c) = 1%nat /\ 0 <= input_freq c < 2 ^ 32) \/ input_freq c = 0
  end.

Record consistent (h : heap) : Prop := {
  cons_topo : topo h;
  cons_out : forall i c, h !! i = Some c -> out_ok c;
  cons_link : forall i c, h !! i = Some c -> link_ok h c
}.

(** Everything of a clock but its two frequencies. *)
Definition shape (c : Clk) : Clk := c <| input_freq := 0 |> <| output_freq := 0 |>.

Lemma shape_fields (c c' : Clk) : shape c = shape c' ->
  enabled c = enabled c' /\ max_output_freq c = max_output_freq c' /\
  multiplier c = multiplier c' /\ divisor c = divisor c' /\ user c = user c' /\
  output c = output c' /\ input c = input c' /\ selected_input c = selected_input c'.
Proof. destruct c, c'. unfold shape, set_field. cbn. intros H. injection H. naive_solver. Qed.

Lemma shape_get_input (c c' : Clk) :
  shape c = shape c' -> clktree_get_input_clk c = clktree_get_input_clk c'.
Proof.
  intros H%shape_fields. unfold clktree_get_input_clk.
  destruct H as (_ & _ & _ & _ & _ & _ & -> & ->). done.
Qed.

Lemma shape_lookup (h h' : heap) i c :
  shape <$> h = shape <$> h' -> h !! i = Some c ->
  exists c', h' !! i = Some c' /\ shape c = shape c'.
Proof.
  intros Hs Hi. assert ((shape <$> h') !! i = Some (shape c)) as Hl
    by by rewrite <- Hs, list_lookup_fmap, Hi.
  rewrite list_lookup_fmap in Hl. destruct (h' !! i) as [c' |]; [| done].
  apply (inj Some) in Hl. by exists c'.
Qed.

Lemma shape_length (h h' : heap) : shape <$> h = shape <$> h' -> length h = length h'.
Proof. intros Hs. by rewrite <- (length_fmap shape h), Hs, length_fmap. Qed.

Lemma topo_shape (h h' : heap) : shape <$> h = shape <$> h' -> topo h -> topo h'.
Proof.
  intros Hs Ht i c' Hi. destruct (shape_lookup h' h i c') as (c & Hc & Hcs); [done.. |].
  destruct (Ht i c Hc) as [(ps & Hin & Hps) Hout Hsel Hdiv].
  pose proof (shape_fields _ _ Hcs) as (? & ? & ? & ? & ? & ? & ? & ?). pose proof (shape_length _ _ Hs) as Hlen.
  split; [| rewrite <- Hlen | | unfold scale_ok in *; lia]; try congruence.
  2:{ intros o Ho. apply Hout. congruence. }
  exists ps. split; [congruence |]. intros p Hp. destruct (Hps p Hp) as (Hlt & pc & Hpc & Hio).
  split; [done |]. destruct (shape_lookup h h' p pc) as (pc' & Hpc' & Hps'); [done.. |].
  exists pc'. split; [done |].
  apply shape_fields in Hps' as (_ & _ & _ & _ & _ & Ho & _ & _). by rewrite <- Ho.
Qed.

Lemma shape_insert (h : heap) i c c' :
  h !! i = Some c -> shape c' = shape c -> shape <$> <[i := c']> h = shape <$> h.
Proof.
  intros Hi Hs. rewrite list_fmap_insert, Hs. apply list_insert_id.
  by rewrite list_lookup_fmap, Hi.
Qed.

(** The selected input of a clock is an earlier clock that lists it. *)
Lemma topo_parent (h : heap) i c p :
  topo h -> h !! i = Some c -> clktree_get_input_clk c = Some p ->
  (p < i)%nat /\ exists pc, h !! p = Some pc /\ i ∈ output pc.
Proof.
  intros Ht Hi Hp. destruct (Ht i c Hi) as [(ps & Hin & Hps) _ Hsel _].
  apply Hps. unfold clktree_get_input_clk in Hp. rewrite Hin in Hp.
  destruct (Z.to_nat (selected_input c + 1)) as [|k]; [done |].
  rewrite lookup_cons in Hp. rewrite list_lookup_fmap in Hp. destruct (ps !! k) as [q |] eqn:Hk; [| done].
  cbn in Hp. injection Hp as ->. by eapply list_elem_of_lookup_2.
Qed.

(** ** Propagation

    [pass n h h' t]: a propagation from clock [n] took the heap from [h] to
    [h'].  Only frequencies of [n] and of later clocks changed, the users
    of every clock whose output changed were told the frequency it has in
    [h'], and a clock with no selected input kept its input frequency. *)

Record pass (n : clkptr) (h h' : heap) (t : list clk_event) : Prop := {
  pass_shape : shape <$> h = shape <$> h';
  pass_frame : forall i, (i < n)%nat -> h' !! i = h !! i;
  pass_notify : forall i c c', h !! i = Some c -> h' !! i = Some c' ->
    output_freq c <> output_freq c' ->
    forall u, u ∈ user c -> Notify u (output_freq c') ∈ t;
  pass_source : forall i c c', h !! i = Some c -> h' !! i = Some c' ->
    clktree_get_input_clk c = None -> input_freq c' = input_freq c
}.

Lemma pass_refl n h : pass n h h [].
Proof. split; [done | done | naive_solver | naive_solver]. Qed.

Lemma pass_weaken n m h h' t : (n <= m)%nat -> pass m h h' t -> pass n h h' t.
Proof. intros Hnm [Hs Hf Hn Hk]. split; [done | | done | done]. intros i Hi. apply Hf. lia. Qed.

Lemma pass_trans n h1 h2 h3 t1 t2 :
  pass n h1 h2 t1 -> pass n h2 h3 t2 -> pass n h1 h3 (t1 ++ t2).
Proof.
  intros [Hs1 Hf1 Hn1 Hk1] [Hs2 Hf2 Hn2 Hk2]. split.
  - congruence.
  - intros i Hi. rewrite Hf2, Hf1; done.
  - intros i c c3 H1 H3 Hne u Hu.
    destruct (shape_lookup h1 h2 i c) as (c2 & H2 & Hsh); [done.. |].
    pose proof (shape_fields _ _ Hsh) as (_ & _ & _ & _ & Hus & _).
    apply elem_of_app. destruct (decide (output_freq c2 = output_freq c3)) as [He | Hd].
    + left. rewrite <- He. eapply Hn1; [done.. | congruence | done].
    + right. eapply Hn2; [done.. |]. congruence.
  - intros i c c3 H1 H3 Hnone. destruct (shape_lookup h1 h2 i c) as (c2 & H2 & Hsh); [done.. |].
    rewrite (Hk2 i c2 c3), (Hk1 i c c2); try done. by rewrite <- (shape_get_input _ _ Hsh).
Qed.

(** A write of the input frequency alone is a pass with no announcement. *)
Lemma pass_set_input n h c f :
  h !! n = Some c -> clktree_get_input_clk c <> None ->
  pass n h (<[n := c <| input_freq := f |>]> h) [].
Proof.
  intros Hn Hsel. split.
  - symmetry. by eapply shape_insert.
  - intros i Hi. apply list_lookup_insert_ne. lia.
  - intros i c1 c2 H1 H2 Hne u Hu.
    destruct (decide (i = n)) as [-> |].
    + rewrite list_lookup_insert_eq in H2 by (by eapply lookup_lt_Some).
      injection H2 as <-. rewrite Hn in H1. injection H1 as ->. done.
    + rewrite list_lookup_insert_ne in H2 by done. congruence.
  - intros i c1 c2 H1 H2 Hnone. destruct (decide (i = n)) as [-> |]; [congruence |].
    rewrite list_lookup_insert_ne in H2 by done. congruence.
Qed.

(** What holds while a propagation is under way: every output is up to date
    except those in [A], every input link except those in [B]. *)
Record partial (A B : clkptr → Prop) (h : heap) : Prop := {
  part_topo : topo h;
  part_out : forall i c, h !! i = Some c -> ~ A i -> out_ok c;
  part_link : forall i c, h !! i = Some c -> ~ B i -> link_ok h c
}.

Definition nobody : clkptr → Prop := λ _, False.

Lemma partial_consistent h : partial nobody nobody h <-> consistent h.
Proof.
  assert (Hno : forall i, ~ nobody i) by (by intros i []).
  split; intros [Ht Ho Hl]; split; eauto.
Qed.

(** Writing the input frequency that the parent announces repairs the link of
    the child and leaves only its output to be recalculated. *)
Lemma partial_set_input (B : clkptr → Prop) h n p c pc f :
  partial nobody (λ i, B i \/ i = n) h ->
  h !! n = Some c -> clktree_get_input_clk c = Some p ->
  h !! p = Some pc -> output_freq pc = f ->
  partial (λ i, i = n) B (<[n := c <| input_freq := f |>]> h).
Proof.
  intros [Ht Ho Hl] Hn Hp Hpc Hf.
  assert (Hlt : (n < length h)%nat) by (by eapply lookup_lt_Some).
  destruct (topo_parent h n c p Ht Hn Hp) as (Hpn & _).
  split.
  - eapply topo_shape, Ht. symmetry. by eapply shape_insert.
  - intros i ci Hi Hne. rewrite list_lookup_insert_ne in Hi by congruence.
    eapply Ho; [done | by intros []].
  - intros i ci Hi HB. destruct (decide (i = n)) as [-> | Hin].
    + rewrite list_lookup_insert_eq in Hi by done. injection Hi as <-.
      unfold link_ok.
      change (clktree_get_input_clk (c <| input_freq := f |>)) with (clktree_get_input_clk c).
      rewrite Hp. exists pc. rewrite list_lookup_insert_ne by lia. done.
    + rewrite list_lookup_insert_ne in Hi by done.
      pose proof (Hl i ci Hi ltac:(naive_solver)) as Hlk. unfold link_ok in *.
      destruct (clktree_get_input_clk ci) as [q |]; [| done].
      destruct Hlk as (qc & Hq & Hqf). destruct (decide (q = n)) as [-> | Hqn].
      * exists (c <| input_freq := f |>). rewrite list_lookup_insert_eq by done.
        split; [done |]. rewrite Hn in Hq. by injection Hq as <-.
      * exists qc. by rewrite list_lookup_insert_ne.
Qed.

(** Writing the recalculated output breaks the links of the selected children
    and nothing else. *)
Lemma partial_set_output (B : clkptr → Prop) h n c :
  partial (λ i, i = n) B h -> h !! n = Some c ->
  partial nobody
    (λ i, B i \/ exists ci, h !! i = Some ci /\ clktree_get_input_clk ci = Some n)
    (<[n := c <| output_freq := calc c |>]> h).
Proof.
  intros [Ht Ho Hl] Hn. assert (Hlt : (n < length h)%nat) by (by eapply lookup_lt_Some).
  split.
  - eapply topo_shape, Ht. symmetry. by eapply shape_insert.
  - intros i ci Hi _. destruct (decide (i = n)) as [-> | Hin].
    + rewrite list_lookup_insert_eq in Hi by done. by injection Hi as <-.
    + rewrite list_lookup_insert_ne in Hi by done. by eapply Ho.
  - intros i ci Hi HB. destruct (decide (i = n)) as [-> | Hin].
    + rewrite list_lookup_insert_eq in Hi by done. injection Hi as <-.
      pose proof (Hl n c Hn ltac:(naive_solver)) as Hlk. unfold link_ok in *.
      change (clktree_get_input_clk (c <| output_freq := calc c |>)) with (clktree_get_input_clk c).
      destruct (clktree_get_input_clk c) as [q |] eqn:Hq; [| done].
      destruct (topo_parent h n c q Ht Hn Hq) as (Hqn & _).
      destruct Hlk as (qc & Hqc & Hqf). exists qc. by rewrite list_lookup_insert_ne by lia.
    + rewrite list_lookup_insert_ne in Hi by done.
      pose proof (Hl i ci Hi ltac:(naive_solver)) as Hlk. unfold link_ok in *.
      destruct (clktree_get_input_clk ci) as [q |] eqn:Hq; [| done].
      destruct Hlk as (qc & Hqc & Hqf). exists qc.
      rewrite list_lookup_insert_ne; [done |]. intros <-. naive_solver.
Qed.

Lemma partial_mono (A B B' : clkptr → Prop) h :
  (forall i c, h !! i = Some c -> B i -> B' i) -> partial A B h -> partial A B' h.
Proof. intros Hsub [Ht Ho Hl]. split; [done.. |]. naive_solver. Qed.

(** The specification of the recalculation of clock [n] in heaps of [L] clocks. *)
Definition recalc_spec (L : nat) (rec : clkptr → ClkM unit) (n : clkptr) : Prop :=
  forall h (B : clkptr → Prop), length h = L -> partial (λ i, i = n) B h ->
    exists h' t, rec n h = Done () h' t /\ pass n h h' t /\ partial nobody B h'.

Definition visit_child (rec : clkptr → ClkM unit) (n : clkptr) (new : Z) (next : clkptr) : ClkM unit :=
  nc ← load next;
  if decide (clktree_get_input_clk nc = Some n)
  then set_input_freq_with rec next new
  else mret ().

Section Children.
  Context (L : nat) (rec : clkptr → ClkM unit) (n : clkptr) (new : Z).
  Hypothesis rec_ok : forall m, (n < m < L)%nat -> recalc_spec L rec m.

  (** The children of [n] in [l] that still have to hear of its new output. *)
Definition pending (h : heap) (l : list clkptr) (B : clkptr → Prop) : clkptr → Prop :=
    λ i, B i \/ (i ∈ l /\ exists ci, h !! i = Some ci /\ clktree_get_input_clk ci = Some n).

Lemma visit_child_ok h B x l :
  length h = L -> (n < x < L)%nat ->
  (exists pc, h !! n = Some pc /\ output_freq pc = new) ->
  partial nobody (pending h (x :: l) B) h ->
  exists h' t, visit_child rec n new x h = Done () h' t /\
    pass (S n) h h' t /\ partial nobody (pending h l B) h'.
Proof.
  intros HL Hx (pc & Hpc & Hnew) Hpart. unfold visit_child, mbind, M_bind, load.
  destruct (lookup_lt_is_Some_2 h x ltac:(lia)) as [c Hc]. rewrite Hc.
  destruct (decide _) as [Hin | Hin].
  - unfold set_input_freq_with, mbind, M_bind, load. rewrite Hc. cbn.
    set (h1 := <[x := c <| input_freq := new |>]> h).
    destruct (rec_ok x Hx h1 (pending h l B)) as (h2 & t & Hr & Hp & Hpt).
    { unfold h1. by rewrite length_insert. }
    { eapply partial_set_input; [| done.. ]. eapply partial_mono, Hpart.
      unfold pending. set_solver. }
    rewrite Hr. exists h2, t. split; [done | split; [| done]].
    apply (pass_weaken (S n) x); [lia |].
    change t with ([] ++ t). eapply pass_trans, Hp. apply pass_set_input; [done | congruence].
  - exists h, []. split; [done | split; [apply pass_refl |]].
    eapply partial_mono, Hpart. unfold pending. intros i ci Hi HB.
    destruct HB as [HB | (Hil & ci' & Hi' & Hg)]; [by left | right].
    split; [| by exists ci']. apply elem_of_cons in Hil as [-> |]; [congruence | done].
Qed.

Lemma children_ok l h B :
  length h = L -> (forall o, o ∈ l -> (n < o < L)%nat) ->
  (exists pc, h !! n = Some pc /\ output_freq pc = new) ->
  partial nobody (pending h l B) h ->
  exists h' t, for_each l (visit_child rec n new) h = Done () h' t /\
    pass (S n) h h' t /\ partial nobody B h'.
Proof.
  revert h. induction l as [|x l IH]; intros h HL Hl Hn Hpart.
  { exists h, []. split; [done | split; [apply pass_refl |]].
    eapply partial_mono, Hpart. unfold pending. set_solver. }
  destruct (visit_child_ok h B x l) as (h1 & t1 & H1 & Hp1 & Hpt1); [done | set_solver | done.. |].
  destruct (IH h1) as (h2 & t2 & H2 & Hp2 & Hpt2).
  - rewrite <- HL. symmetry. apply shape_length, Hp1.
  - set_solver.
  - destruct Hn as (pc & Hpc & Hnew). exists pc. by rewrite (pass_frame _ _ _ _ Hp1) by lia.
  - eapply partial_mono, Hpt1. unfold pending. intros i c1 Hi [HB | (Hil & ci & Hci & Hg)]; [by left |].
    right. split; [done |]. destruct (shape_lookup h h1 i ci) as (ci' & Hci' & Hsh); [apply Hp1 | done |].
    exists ci'. split; [done |]. by rewrite <- (shape_get_input _ _ Hsh).
  - exists h2, (t1 ++ t2). cbn. unfold mbind, M_bind. rewrite H1, H2.
    split; [done | split; [by eapply pass_trans | done]].
Qed.

End Children.

Lemma new_output_freq_ok c h :
  scale_ok c -> new_output_freq c h = Done (calc c) h [].
Proof.
  intros [_ Hd]. unfold new_output_freq, calc. destruct (enabled c); [| done].
  by rewrite (proj2 (Z.eqb_neq _ _)) by lia.
Qed.

(** Writing a changed output and announcing it is a pass. *)
Lemma pass_set_output n h c t :
  h !! n = Some c -> (forall u, u ∈ user c -> Notify u (calc c) ∈ t) ->
  pass n h (<[n := c <| output_freq := calc c |>]> h) t.
Proof.
  intros Hn Ht. split.
  - symmetry. by eapply shape_insert.
  - intros i Hi. apply list_lookup_insert_ne. lia.
  - intros i c1 c2 H1 H2 Hne u Hu. destruct (decide (i = n)) as [-> |].
    + rewrite list_lookup_insert_eq in H2 by (by eapply lookup_lt_Some).
      injection H2 as <-. rewrite Hn in H1. injection H1 as <-. by apply Ht.
    + rewrite list_lookup_insert_ne in H2 by done. congruence.
  - intros i c1 c2 H1 H2 _. destruct (decide (i = n)) as [-> |].
    + rewrite list_lookup_insert_eq in H2 by (by eapply lookup_lt_Some).
      injection H2 as <-. rewrite Hn in H1. by injection H1 as <-.
    + rewrite list_lookup_insert_ne in H2 by done. congruence.
Qed.

(** With one unit of fuel per clock from [n] on, the recalculation of [n]
    completes and brings every output and every link up to date. *)
Lemma recalc_ok fuel : forall n L, (n < L)%nat -> (L - n <= fuel)%nat ->
  recalc_spec L (clktree_recalc_output_freq fuel) n.
Proof.
  induction fuel as [|fuel IH]; intros n L Hn Hfuel h B HL Hpart; [lia |].
  destruct (lookup_lt_is_Some_2 h n ltac:(lia)) as [c Hc].
  destruct (part_topo _ _ _ Hpart n c Hc) as [_ Hout _ Hdiv].
  cbn [clktree_recalc_output_freq]. unfold mbind, M_bind, load. rewrite Hc.
  rewrite new_output_freq_ok by done. destruct (Z.eqb_spec (calc c) (output_freq c)) as [He | Hne].
  - exists h, []. split; [done | split; [apply pass_refl |]].
    destruct Hpart as [Ht Ho Hl]. split; [done | | done].
    intros i ci Hi _. destruct (decide (i = n)) as [-> |]; [| by eapply Ho].
    rewrite Hc in Hi. injection Hi as <-. done.
  - cbn [store modify]. set (h1 := <[n := c <| output_freq := calc c |>]> h).
    assert (HL1 : length h1 = L) by (unfold h1; by rewrite length_insert).
    destruct (children_ok L (clktree_recalc_output_freq fuel) n (calc c)) with
      (l := output c) (h := h1) (B := B) as (h2 & t2 & H2 & Hp2 & Hpt2).
    + intros m Hm. apply IH; lia.
    + done.
    + intros o Ho. rewrite <- HL. by apply Hout.
    + exists (c <| output_freq := calc c |>). unfold h1. by rewrite list_lookup_insert_eq by lia.
    + eapply partial_mono; [| by apply partial_set_output].
      intros i ci Hi [HB | (ci0 & Hci0 & Hg)]; [by left | right].
      destruct (topo_parent h i ci0 n) as (_ & pc & Hpc & Hio); [apply Hpart | done.. |].
      rewrite Hc in Hpc. injection Hpc as <-. split; [done |].
      destruct (shape_lookup h h1 i ci0) as (ci1 & Hci1 & Hsh);
        [symmetry; by eapply shape_insert | done |].
      exists ci1. split; [done |]. by rewrite <- (shape_get_input _ _ Hsh).
    + set (tw := if max_output_freq c <? calc c then [ExceedsMax n] else []).
      assert (Hw : when (max_output_freq c <? calc c) (emit (ExceedsMax n)) h1 = Done () h1 tw)
        by (unfold tw; by destruct (_ <? _)).
      rewrite Hw, for_each_emit. unfold visit_child, mbind, M_bind, load in H2. rewrite H2.
      eexists h2, _. split; [done | split; [| done]]. cbn [app].
      rewrite app_assoc. eapply pass_trans, (pass_weaken n (S n)), Hp2; [| lia].
      apply pass_set_output; [done |]. intros u Hu. set_solver.
Qed.

(** ** The public operations *)

Lemma topo_insert h n c c' :
  topo h -> h !! n = Some c -> input c' = input c -> output c' = output c ->
  0 <= selected_input c' + 1 < Z.of_nat (length (input c)) -> scale_ok c' ->
  topo (<[n := c']> h).
Proof.
  intros Ht Hn Hin Hout Hsel Hdiv i ci Hi. pose proof (lookup_lt_Some _ _ _ Hn) as Hlt.
  assert (Hlook : forall p pc, h !! p = Some pc ->
    exists pc', <[n := c']> h !! p = Some pc' /\ output pc' = output pc).
  { intros p pc Hp. destruct (decide (p = n)) as [-> |].
    - exists c'. rewrite list_lookup_insert_eq by done. naive_solver congruence.
    - exists pc. by rewrite list_lookup_insert_ne. }
  assert (Hold : exists c0, h !! i = Some c0 /\ input ci = input c0 /\ output ci = output c0 /\
    0 <= selected_input ci + 1 < Z.of_nat (length (input ci)) /\ scale_ok ci).
  { destruct (decide (i = n)) as [-> |].
    - rewrite list_lookup_insert_eq in Hi by done. injection Hi as <-. exists c.
      rewrite Hin. done.
    - rewrite list_lookup_insert_ne in Hi by done. exists ci.
      destruct (Ht i ci Hi). done. }
  destruct Hold as (c0 & H0 & Hi0 & Ho0 & Hs0 & Hd0).
  destruct (Ht i c0 H0) as [(ps & Hps & Hall) Hos _ _]. split; [| | done | done].
  - exists ps. split; [congruence |]. intros p Hp. destruct (Hall p Hp) as (Hlp & pc & Hpc & Hio).
    split; [done |]. destruct (Hlook p pc Hpc) as (pc' & Hpc' & Hopc). exists pc'.
    by rewrite Hopc.
  - intros o Ho. rewrite length_insert. apply Hos. congruence.
Qed.

(** Changing the scale or the enable flag of a clock leaves only its output
    to be recalculated. *)
Lemma partial_reconf h n c c' :
  consistent h -> h !! n = Some c -> shape c' = shape c <| enabled := enabled c' |>
    <| multiplier := multiplier c' |> <| divisor := divisor c' |> ->
  input_freq c' = input_freq c -> output_freq c' = output_freq c -> scale_ok c' ->
  partial (λ i, i = n) nobody (<[n := c']> h).
Proof.
  intros [Ht Ho Hl] Hn Hsh Hif Hof Hdiv. pose proof (lookup_lt_Some _ _ _ Hn) as Hlt.
  assert (Hfields : input c' = input c /\ output c' = output c /\ selected_input c' = selected_input c).
  { destruct c, c'. unfold shape, set_field in Hsh. cbn in *. by injection Hsh. }
  destruct Hfields as (Hin & Hout & Hsel). destruct (Ht n c Hn) as [_ _ Hs _].
  split.
  - eapply topo_insert; try done. by rewrite Hsel.
  - intros i ci Hi Hne. rewrite list_lookup_insert_ne in Hi by congruence. by eapply Ho.
  - intros i ci Hi _.
    assert (Hold : exists c0, h !! i = Some c0 /\ input_freq ci = input_freq c0 /\
      input ci = input c0 /\ selected_input ci = selected_input c0).
    { destruct (decide (i = n)) as [-> |].
      - rewrite list_lookup_insert_eq in Hi by done. injection Hi as <-. by exists c.
      - rewrite list_lookup_insert_ne in Hi by done. by exists ci. }
    destruct Hold as (c0 & H0 & Hf0 & Hi0 & Hs0). pose proof (Hl i c0 H0) as Hlk.
    unfold link_ok, clktree_get_input_clk in *. rewrite Hi0, Hs0, Hf0.
    destruct (default _ _) as [q |]; [| done]. destruct Hlk as (qc & Hq & Hqf).
    destruct (decide (q = n)) as [-> |].
    + exists c'. rewrite list_lookup_insert_eq by done. split; [done |].
      rewrite Hn in Hq. injection Hq as <-. congruence.
    + exists qc. by rewrite list_lookup_insert_ne.
Qed.

(** The effect of a public operation that rewrites clock [n] with [f] and
    propagates: the new heap is consistent and the users were told. *)
Definition propagated (n : clkptr) (f : Clk → Clk) (h h' : heap) (t : list clk_event) : Prop :=
  exists c, h !! n = Some c /\ recalc_top n (<[n := f c]> h) = Done () h' t /\
    pass n (<[n := f c]> h) h' t /\ consistent h'.

Lemma recalc_top_ok h n :
  (n < length h)%nat -> partial (λ i, i = n) nobody h ->
  exists h' t, recalc_top n h = Done () h' t /\ pass n h h' t /\ consistent h'.
Proof.
  intros Hn Hp. destruct (recalc_ok (length h) n (length h)) with (h := h) (B := nobody)
    as (h' & t & Hr & Hps & Hc); [done | lia | done | done |].
  exists h', t. split; [| split; [done | by apply partial_consistent]].
  unfold recalc_top, mbind, M_bind, get. by rewrite Hr.
Qed.

Lemma reconf_ok h n c c' :
  consistent h -> h !! n = Some c -> shape c' = shape c <| enabled := enabled c' |>
    <| multiplier := multiplier c' |> <| divisor := divisor c' |> ->
  input_freq c' = input_freq c -> output_freq c' = output_freq c -> scale_ok c' ->
  exists h' t, recalc_top n (<[n := c']> h) = Done () h' t /\
    pass n (<[n := c']> h) h' t /\ consistent h'.
Proof.
  intros. apply recalc_top_ok.
  - rewrite length_insert. by eapply lookup_lt_Some.
  - by eapply partial_reconf.
Qed.

Lemma set_scale_ok h n mul div :
  consistent h -> (n < length h)%nat -> 0 <= mul < 2 ^ 16 -> 0 < div < 2 ^ 16 ->
  exists h' t, clktree_set_scale n mul div h = Done () h' t /\
    propagated n (λ c, c <| multiplier := mul |> <| divisor := div |>) h h' t.
Proof.
  intros Hc Hn Hm Hd. destruct (lookup_lt_is_Some_2 h n Hn) as [c Hcl].
  destruct (reconf_ok h n c (c <| multiplier := mul |> <| divisor := div |>))
    as (h' & t & Hr & Hp & Hc'); try done.
  exists h', t. split; [| by exists c].
  unfold clktree_set_scale, mbind, M_bind, load. rewrite Hcl. cbn. by rewrite Hr.
Qed.

Lemma set_enabled_ok h n en :
  consistent h -> (n < length h)%nat ->
  exists h' t, clktree_set_enabled n en h = Done () h' t /\
    propagated n (λ c, c <| enabled := en |>) h h' t.
Proof.
  intros Hc Hn. destruct (lookup_lt_is_Some_2 h n Hn) as [c Hcl].
  destruct (reconf_ok h n c (c <| enabled := en |>)) as (h' & t & Hr & Hp & Hc'); try done.
  { by apply (cons_topo _ Hc n c). }
  exists h', t. split; [| by exists c].
  unfold clktree_set_enabled, mbind, M_bind, load. rewrite Hcl. cbn. by rewrite Hr.
Qed.

(** The frequency [clktree_set_selected_input] reads for the new selection. *)
Definition selected_freq (h : heap) (c : Clk) (sel : Z) : Z :=
  match clktree_get_input_clk (c <| selected_input := sel |>) with
  | Some p => default 0 (output_freq <$> h !! p)
  | None => 0
  end.

Definition select (h : heap) (sel : Z) (c : Clk) : Clk :=
  c <| selected_input := sel |> <| input_freq := selected_freq h c sel |>.

Lemma partial_select h n c sel :
  consistent h -> h !! n = Some c -> 0 <= sel + 1 < Z.of_nat (length (input c)) ->
  partial (λ i, i = n) nobody (<[n := select h sel c]> h).
Proof.
  intros [Ht Ho Hl] Hn Hsel. pose proof (lookup_lt_Some _ _ _ Hn) as Hlt.
  assert (Ht' : topo (<[n := c <| selected_input := sel |>]> h)).
  { eapply topo_insert; try done. by apply (Ht n c). }
  split.
  - eapply topo_insert; try done. by apply (Ht n c).
  - intros i ci Hi Hne. rewrite list_lookup_insert_ne in Hi by congruence. by eapply Ho.
  - intros i ci Hi _. destruct (decide (i = n)) as [-> | Hin].
    + rewrite list_lookup_insert_eq in Hi by done. injection Hi as <-. unfold link_ok.
      change (clktree_get_input_clk (select h sel c))
        with (clktree_get_input_clk (c <| selected_input := sel |>)).
      destruct (clktree_get_input_clk _) as [p |] eqn:Hp.
      * destruct (topo_parent _ n (c <| selected_input := sel |>) p Ht') as (Hpn & pc & Hpc & _);
          [by rewrite list_lookup_insert_eq | done |].
        rewrite list_lookup_insert_ne in Hpc by lia. exists pc.
        rewrite list_lookup_insert_ne by lia. split; [done |].
        unfold select. cbn. unfold selected_freq. by rewrite Hp, Hpc.
      * right. unfold select. cbn. unfold selected_freq. by rewrite Hp.
    + rewrite list_lookup_insert_ne in Hi by done. pose proof (Hl i ci Hi) as Hlk.
      unfold link_ok in *. destruct (clktree_get_input_clk ci) as [q |]; [| done].
      destruct Hlk as (qc & Hq & Hqf). destruct (decide (q = n)) as [-> |].
      * exists (select h sel c). rewrite list_lookup_insert_eq by done. split; [done |].
        rewrite Hn in Hq. by injection Hq as <-.
      * exists qc. by rewrite list_lookup_insert_ne.
Qed.

(** Every selection between [CLKTREE_NO_INPUT] and the last input is legal;
    any other one fails the assertion. *)
Lemma set_selected_input_ok h n c sel :
  consistent h -> h !! n = Some c ->
  -1 <= sel -> sel + 1 < Z.of_nat (length (input c)) -> sel + 1 < 2 ^ 32 ->
  exists h' t, clktree_set_selected_input n sel h = Done () h' t /\
    propagated n (select h sel) h h' t.
Proof.
  intros Hc Hn Hlo Hhi H32. pose proof (lookup_lt_Some _ _ _ Hn) as Hlt.
  destruct (recalc_top_ok (<[n := select h sel c]> h) n) as (h' & t & Hr & Hp & Hc').
  { by rewrite length_insert. }
  { by apply partial_select; [done | done | lia]. }
  exists h', t. split; [| by exists c].
  unfold clktree_set_selected_input, mbind, M_bind, load. rewrite Hn.
  rewrite u32_small by lia. rewrite (proj2 (Z.ltb_lt _ _) Hhi). cbn [assert_ mret M_ret store modify].
  assert (Hfreq : forall h1, h1 = <[n := c <| selected_input := sel |>]> h ->
    (if -1 <? sel then
       match clktree_get_input_clk (c <| selected_input := sel |>) with
       | Some p => clktree_get_output_freq p
       | None => halt NullPointer
       end else mret 0) h1 = Done (selected_freq h c sel) h1 []).
  { intros h1 ->. destruct (cons_topo _ Hc n c Hn) as [(ps & Hps & Hall) _ _ _].
    unfold selected_freq, clktree_get_input_clk. change (input (c <| selected_input := sel |>)) with (input c).
    change (selected_input (c <| selected_input := sel |>)) with sel. rewrite Hps.
    destruct (Z.ltb_spec (-1) sel).
    - destruct (Z.to_nat (sel + 1)) as [|k] eqn:Hk; [lia |].
      rewrite lookup_cons, list_lookup_fmap. rewrite Hps in Hhi. cbn in Hhi. rewrite length_fmap in Hhi.
      destruct (lookup_lt_is_Some_2 ps k ltac:(lia)) as [p Hp']. rewrite Hp'. cbn.
      destruct (Hall p) as (Hpn & pc & Hpc & _); [by eapply list_elem_of_lookup_2 |].
      unfold clktree_get_output_freq, mbind, M_bind, load.
      rewrite list_lookup_insert_ne by lia. by rewrite Hpc.
    - assert (sel = -1) as -> by lia. done. }
  rewrite (Hfreq _ eq_refl). unfold clktree_set_input_freq, set_input_freq_with, mbind, M_bind, load.
  rewrite list_lookup_insert_eq by done. cbn [store modify].
  rewrite list_insert_insert_eq. unfold select in Hr. by rewrite Hr.
Qed.

(** Changing only the users of a clock keeps the invariant. *)
Lemma consistent_users h n c us :
  consistent h -> h !! n = Some c -> consistent (<[n := c <| user := us |>]> h).
Proof.
  intros [Ht Ho Hl] Hn. pose proof (lookup_lt_Some _ _ _ Hn) as Hlt.
  destruct (Ht n c Hn) as [_ _ Hs Hd]. split.
  - by eapply topo_insert.
  - intros i ci Hi. destruct (decide (i = n)) as [-> |].
    + rewrite list_lookup_insert_eq in Hi by done. injection Hi as <-. by apply (Ho n c).
    + rewrite list_lookup_insert_ne in Hi by done. by eapply Ho.
  - intros i ci Hi.
    assert (Hold : exists c0, h !! i = Some c0 /\ input_freq ci = input_freq c0 /\
      length (input ci) = length (input c0) /\
      clktree_get_input_clk ci = clktree_get_input_clk c0).
    { destruct (decide (i = n)) as [-> |].
      - rewrite list_lookup_insert_eq in Hi by done. injection Hi as <-. by exists c.
      - rewrite list_lookup_insert_ne in Hi by done. by exists ci. }
    destruct Hold as (c0 & H0 & Hf & Hlen & Hg). pose proof (Hl i c0 H0) as Hlk.
    unfold link_ok in *. rewrite Hg, Hf, Hlen. destruct (clktree_get_input_clk c0) as [q |]; [| done].
    destruct Hlk as (qc & Hq & Hqf). destruct (decide (q = n)) as [-> |].
    + exists (c <| user := us |>). rewrite list_lookup_insert_eq by done. split; [done |].
      rewrite Hn in Hq. by injection Hq as <-.
    + exists qc. by rewrite list_lookup_insert_ne.
Qed.

Lemma adduser_preserves n u : preserves consistent (clktree_adduser n u).
Proof.
  intros h Hc. unfold clktree_adduser, wlp, mbind, M_bind, load.
  destruct (h !! n) as [c |] eqn:Hn; [| done]. unfold CLKTREE_ADD_LINK, assert_, mbind, M_bind.
  destruct (bool_decide _); [| done]. cbn. by apply consistent_users.
Qed.

(** A freshly created clock: no outputs, nothing selected, no input signal. *)
Record fresh (h : heap) (n : clkptr) (c : Clk) : Prop := {
  fresh_at : h !! n = Some c;
  fresh_outputs : output c = [];
  fresh_selected : selected_input c = -1;
  fresh_input : input_freq c = 0
}.

Lemma create_generic_ok h nm mul div en :
  consistent h -> 0 <= mul < 2 ^ 16 -> 0 < div < 2 ^ 16 ->
  exists c, clktree_create_generic nm mul div en h = Done (length h) (h ++ [c]) [] /\
    consistent (h ++ [c]) /\ fresh (h ++ [c]) (length h) c /\ input c = [None].
Proof.
  intros [Ht Ho Hl] Hm Hd. eexists. split; [done |]. set (c := mkClk _ _ _ _ _ _ _ _ _ _ _).
  assert (Hcases : forall i ci, (h ++ [c]) !! i = Some ci -> h !! i = Some ci \/ (i = length h /\ ci = c)).
  { intros i ci [Hi | (Hge & Hi)]%lookup_app_Some; [by left | right].
    destruct (i - length h)%nat as [|k] eqn:Hk; [| done]. injection Hi as <-. split; [lia | done]. }
  assert (Hlift : forall i ci, h !! i = Some ci -> (h ++ [c]) !! i = Some ci).
  { intros i ci Hi. rewrite lookup_app_l by (by eapply lookup_lt_Some). done. }
  split; [| split; [by split; [rewrite lookup_app_r, Nat.sub_diag by lia | ..] | done]].
  split.
  - intros i ci Hi. destruct (Hcases i ci Hi) as [Hi' | [-> ->]].
    + destruct (Ht i ci Hi') as [(ps & Hps & Hall) Hout Hs Hdv]. split; [| | done | done].
      * exists ps. split; [done |]. intros p Hp. destruct (Hall p Hp) as (Hlt & pc & Hpc & Hio).
        split; [done |]. exists pc. auto.
      * intros o Hoo. specialize (Hout o Hoo). rewrite length_app. lia.
    + split; [exists []; split; [done | set_solver] | set_solver | by unfold c | done].
  - intros i ci Hi. destruct (Hcases i ci Hi) as [Hi' | [-> ->]]; [by eapply Ho |].
    unfold out_ok, calc. by destruct en.
  - intros i ci Hi. destruct (Hcases i ci Hi) as [Hi' | [-> ->]]; [| by left].
    pose proof (Hl i ci Hi') as Hlk. unfold link_ok in *.
    destruct (clktree_get_input_clk ci) as [q |]; [| done]. naive_solver.
Qed.

(** The heap after linking the clock [n] to its new input [p]. *)
Section LinkInput.
  Context (h : heap) (n p : clkptr) (c pc : Clk).
  Hypothesis Hcons : consistent h.
  Hypothesis Hfresh : fresh h n c.
  Hypothesis Hp : h !! p = Some pc.
  Hypothesis Hpn : (p < n)%nat.

Definition linked_clk : Clk := c <| input := input c ++ [Some p] |>.
Definition linked_input : Clk := pc <| output := output pc ++ [n] |>.
Definition linked : heap := <[p := linked_input]> (<[n := linked_clk]> h).

Lemma linked_length : length linked = length h.
Proof. unfold linked. by rewrite !length_insert. Qed.

Lemma linked_cases i ci : linked !! i = Some ci ->
  (i = n /\ ci = linked_clk) \/ (i = p /\ ci = linked_input) \/ h !! i = Some ci.
Proof using Hfresh Hp Hpn.
  clear Hcons.
  pose proof (lookup_lt_Some _ _ _ (fresh_at _ _ _ Hfresh)).
  unfold linked. destruct (decide (i = p)) as [-> |].
  - rewrite list_lookup_insert_eq by (rewrite length_insert; lia). naive_solver.
  - rewrite list_lookup_insert_ne by done. destruct (decide (i = n)) as [-> |].
    + rewrite list_lookup_insert_eq by done. naive_solver.
    + rewrite list_lookup_insert_ne by done. naive_solver.
Qed.

Lemma linked_at_n : linked !! n = Some linked_clk.
Proof using Hfresh Hpn.
  pose proof (lookup_lt_Some _ _ _ (fresh_at _ _ _ Hfresh)).
  unfold linked. rewrite list_lookup_insert_ne by lia. by rewrite list_lookup_insert_eq.
Qed.

Lemma linked_at_p : linked !! p = Some linked_input.
Proof using Hp.
  pose proof (lookup_lt_Some _ _ _ Hp).
  unfold linked. by rewrite list_lookup_insert_eq by (by rewrite length_insert).
Qed.

Lemma linked_forward i ci : h !! i = Some ci -> exists ci', linked !! i = Some ci' /\
  output_freq ci' = output_freq ci /\ forall o, o ∈ output ci -> o ∈ output ci'.
Proof using Hfresh Hp Hpn.
  clear Hcons.
  intros Hi. destruct (decide (i = p)) as [-> |]; [| destruct (decide (i = n)) as [-> |]].
  - exists linked_input. rewrite Hp in Hi. injection Hi as <-. split; [apply linked_at_p |].
    split; [done |]. unfold linked_input. set_solver.
  - exists linked_clk. rewrite (fresh_at _ _ _ Hfresh) in Hi. injection Hi as <-.
    by split; [apply linked_at_n |].
  - exists ci. unfold linked. by rewrite !list_lookup_insert_ne by done.
Qed.

Lemma linked_inputs i (ps : list clkptr) :
  (forall q, q ∈ ps -> (q < i)%nat /\ exists qc, h !! q = Some qc /\ i ∈ output qc) ->
  forall q, q ∈ ps -> (q < i)%nat /\ exists qc, linked !! q = Some qc /\ i ∈ output qc.
Proof using Hfresh Hp Hpn.
  clear Hcons.
  intros Hall q Hq. destruct (Hall q Hq) as (Hqi & qc & Hqc & Hiq). split; [done |].
  destruct (linked_forward q qc Hqc) as (qc' & Hqc' & _ & Hsub). exists qc'. auto.
Qed.

Lemma linked_topo : topo linked.
Proof using Hcons Hfresh Hp Hpn.
  pose proof (lookup_lt_Some _ _ _ (fresh_at _ _ _ Hfresh)) as Hlt.
  destruct Hcons as [Ht _ _]. destruct Hfresh as [Hn Hout Hsel Hif].
  intros i ci Hi. destruct (linked_cases i ci Hi) as [[-> ->] | [[-> ->] | Hi']].
  - destruct (Ht n c Hn) as [(ps & Hps & Hall) _ _ Hd]. split; [| | | done].
    + exists (ps ++ [p]). split; [unfold linked_clk; cbn; by rewrite Hps, fmap_app |].
      intros q [Hq | ->%list_elem_of_singleton]%elem_of_app; [by apply (linked_inputs n ps Hall) |].
      split; [done |]. exists linked_input. split; [apply linked_at_p |]. unfold linked_input. set_solver.
    + unfold linked_clk. cbn. rewrite Hout. set_solver.
    + unfold linked_clk. cbn. rewrite Hsel, length_app. cbn. lia.
  - destruct (Ht p pc Hp) as [(ps & Hps & Hall) Hos Hs Hd]. split; [| | done | done].
    + exists ps. split; [done |]. by apply linked_inputs.
    + unfold linked_input. cbn. rewrite linked_length.
      intros o [Hoo | ->%list_elem_of_singleton]%elem_of_app; [by apply Hos | lia].
  - destruct (Ht i ci Hi') as [(ps & Hps & Hall) Hos Hs Hd].
    split; [| by rewrite linked_length | done | done].
    exists ps. split; [done |]. by apply linked_inputs.
Qed.

Lemma linked_consistent : consistent linked.
Proof using Hcons Hfresh Hp Hpn.
  pose proof linked_topo as Ht'. destruct Hcons as [Ht Ho Hl]. destruct Hfresh as [Hn Hout Hsel Hif].
  split; [done | |].
  - intros i ci Hi. destruct (linked_cases i ci Hi) as [[-> ->] | [[-> ->] | Hi']].
    + by apply (Ho n c).
    + by apply (Ho p pc).
    + by eapply Ho.
  - intros i ci Hi.
    assert (Hlk : forall c0, h !! i = Some c0 -> input_freq ci = input_freq c0 ->
      input ci = input c0 -> selected_input ci = selected_input c0 -> link_ok linked ci).
    { intros c0 H0 Hf Hin Hs. pose proof (Hl i c0 H0) as Hk. unfold link_ok, clktree_get_input_clk in *.
      rewrite Hin, Hs, Hf. destruct (default _ _) as [q |]; [| done].
      destruct Hk as (qc & Hq & Hqf). destruct (linked_forward q qc Hq) as (qc' & Hq' & Hof & _).
      exists qc'. by rewrite Hof. }
    destruct (linked_cases i ci Hi) as [[-> ->] | [[-> ->] | Hi']]; [| by apply (Hlk pc) | by apply (Hlk ci)].
    unfold link_ok, clktree_get_input_clk, linked_clk. cbn. rewrite Hsel.
    destruct (Ht n c Hn) as [(ps & Hps & _) _ _ _]. rewrite Hps. cbn. by right.
Qed.

End LinkInput.

(** Linking an input to a fresh clock keeps the invariant and the clock fresh. *)
Lemma add_input_link_ok n p h c :
  consistent h -> fresh h n c -> (p < n)%nat ->
  wlp (add_input_link n p) (λ _ h' _, consistent h' /\ length h' = length h /\
    exists c', fresh h' n c') h.
Proof.
  intros Hc Hf Hpn. pose proof (fresh_at _ _ _ Hf) as Hn. pose proof (lookup_lt_Some _ _ _ Hn) as Hlt.
  destruct (lookup_lt_is_Some_2 h p ltac:(lia)) as [pc Hp].
  unfold add_input_link, wlp, mbind, M_bind, load. rewrite Hn.
  unfold CLKTREE_ADD_LINK, assert_, mbind, M_bind.
  destruct (bool_decide (S (length (input c)) <= _)%nat); [| done]. cbn [mret M_ret halt store modify].
  rewrite list_lookup_insert_ne by lia. rewrite Hp.
  destruct (bool_decide _); [| done]. cbn [mret M_ret halt store modify].
  fold (linked_clk p c). fold (linked_input n pc). fold (linked h n p c pc).
  split; [by apply linked_consistent | split; [apply linked_length |]].
  exists (linked_clk p c). split; [by eapply linked_at_n | by destruct Hf..].
Qed.

Lemma add_inputs_ok n ins h c :
  consistent h -> fresh h n c -> Forall (λ p, (p < n)%nat) ins ->
  wlp (for_each ins (add_input_link n)) (λ _ h' _, consistent h' /\ length h' = length h /\
    exists c', fresh h' n c') h.
Proof.
  revert h c. induction ins as [|p ins IH]; intros h c Hc Hf Hins; cbn.
  { unfold wlp; cbn. eauto. }
  apply Forall_cons in Hins as [Hp Hins]. apply wlp_bind.
  eapply wlp_mono; [by eapply add_input_link_ok |]. cbn.
  intros _ h1 _ (Hc1 & Hlen & c1 & Hf1). eapply wlp_mono; [by eapply IH |]. cbn.
  intros _ h2 _ (Hc2 & Hlen2 & Hex). split; [done | split; [congruence | done]].
Qed.

Lemma select_preserves n sel :
  -1 <= sel < 2 ^ 31 -> preserves consistent (clktree_set_selected_input n sel).
Proof.
  intros Hsel h Hc. destruct (h !! n) as [c |] eqn:Hn.
  2:{ unfold wlp, clktree_set_selected_input, mbind, M_bind, load. by rewrite Hn. }
  destruct (decide (sel + 1 < Z.of_nat (length (input c)))) as [Hlt | Hge].
  - destruct (set_selected_input_ok h n c sel) as (h' & t & Hr & c0 & _ & _ & _ & Hc'); [done.. | lia | done | lia |].
    unfold wlp. by rewrite Hr.
  - unfold wlp, clktree_set_selected_input, mbind, M_bind, load. rewrite Hn.
    rewrite u32_small, (proj2 (Z.ltb_ge _ _)) by lia. done.
Qed.

Lemma create_clk_preserves nm mul div en mx sel ins h :
  consistent h -> 0 <= mul < 2 ^ 16 -> 0 < div < 2 ^ 16 -> -1 <= sel < 2 ^ 31 ->
  Forall (λ p, (p < length h)%nat) ins ->
  wlp (clktree_create_clk nm mul div en mx sel ins) (λ clk h' _, consistent h') h.
Proof.
  intros Hc Hm Hd Hsel Hins. unfold clktree_create_clk.
  destruct (create_generic_ok h nm mul div en) as (c & Hg & Hcc & Hf & _); [done.. |].
  apply wlp_bind. unfold wlp at 1. rewrite Hg.
  apply wlp_bind. eapply wlp_mono; [by eapply add_inputs_ok |]. cbn. intros _ h1 _ (Hc1 & _).
  apply wlp_bind. eapply wlp_mono; [by apply select_preserves |]. done.
Qed.

(** Giving a source clock its frequency leaves only its output to be
    recalculated. *)
Lemma partial_source h n c f :
  consistent h -> h !! n = Some c -> input c = [None] -> 0 <= f < 2 ^ 32 ->
  partial (λ i, i = n) nobody (<[n := c <| input_freq := f |>]> h).
Proof.
  intros [Ht Ho Hl] Hn Hin Hf. pose proof (lookup_lt_Some _ _ _ Hn) as Hlt. split.
  - eapply topo_shape, Ht. symmetry. by eapply shape_insert.
  - intros i ci Hi Hne. rewrite list_lookup_insert_ne in Hi by congruence. by eapply Ho.
  - intros i ci Hi _. destruct (decide (i = n)) as [-> |].
    + rewrite list_lookup_insert_eq in Hi by done. injection Hi as <-.
      unfold link_ok, clktree_get_input_clk. cbn. rewrite Hin.
      destruct (Z.to_nat _) as [|[|k]]; cbn; by left.
    + rewrite list_lookup_insert_ne in Hi by done. pose proof (Hl i ci Hi) as Hlk.
      unfold link_ok in *. destruct (clktree_get_input_clk ci) as [q |]; [| done].
      destruct Hlk as (qc & Hq & Hqf). destruct (decide (q = n)) as [-> |].
      * exists (c <| input_freq := f |>). rewrite list_lookup_insert_eq by done. split; [done |].
        rewrite Hn in Hq. by injection Hq as <-.
      * exists qc. by rewrite list_lookup_insert_ne.
Qed.

Lemma create_src_clk_ok nm f en h :
  consistent h -> 0 <= f < 2 ^ 32 ->
  exists h' t, clktree_create_src_clk nm f en h = Done (length h) h' t /\ consistent h'.
Proof.
  intros Hc Hf. destruct (create_generic_ok h nm 1 1 en) as (c & Hg & Hcc & Hfr & Hin); [done.. |].
  pose proof (fresh_at _ _ _ Hfr) as Hn. pose proof (lookup_lt_Some _ _ _ Hn) as Hlt.
  destruct (recalc_top_ok (<[length h := c <| input_freq := f |>]> (h ++ [c])) (length h))
    as (h' & t & Hr & _ & Hc'); [by rewrite length_insert | by apply partial_source |].
  exists h', t. split; [| done]. unfold clktree_create_src_clk, mbind, M_bind. rewrite Hg.
  unfold clktree_set_input_freq, set_input_freq_with, mbind, M_bind, load. rewrite Hn.
  cbn [store modify]. rewrite Hr. cbn. by rewrite app_nil_r.
Qed.

(** ** Reachable heaps

    One step is one completed call of a public function, with arguments of
    the C types; the inputs of a new clock are clocks that exist. *)
Inductive clk_step (h h' : heap) : Prop :=
  | step_create_src nm f en clk t :
      0 <= f < 2 ^ 32 -> clktree_create_src_clk nm f en h = Done clk h' t -> clk_step h h'
  | step_create nm mul div en mx sel ins clk t :
      0 <= mul < 2 ^ 16 -> 0 < div < 2 ^ 16 -> -1 <= sel < 2 ^ 31 ->
      Forall (λ p, (p < length h)%nat) ins ->
      clktree_create_clk nm mul div en mx sel ins h = Done clk h' t -> clk_step h h'
  | step_adduser clk u t : clktree_adduser clk u h = Done () h' t -> clk_step h h'
  | step_set_scale clk mul div t :
      0 <= mul < 2 ^ 16 -> 0 < div < 2 ^ 16 ->
      clktree_set_scale clk mul div h = Done () h' t -> clk_step h h'
  | step_set_enabled clk en t : clktree_set_enabled clk en h = Done () h' t -> clk_step h h'
  | step_select clk sel t :
      -1 <= sel < 2 ^ 31 ->
      clktree_set_selected_input clk sel h = Done () h' t -> clk_step h h'.

Definition reachable (h : heap) : Prop := rtc clk_step [] h.

Lemma wlp_Done {A} (m : ClkM A) (P : heap → Prop) h a h' t :
  wlp m (λ _ h' _, P h') h -> m h = Done a h' t -> P h'.
Proof. unfold wlp. intros H Hr. by rewrite Hr in H. Qed.

Lemma set_enabled_preserves n en : preserves consistent (clktree_set_enabled n en).
Proof.
  intros h Hc. unfold wlp. destruct (decide (n < length h)%nat) as [Hn | Hn].
  - destruct (set_enabled_ok h n en) as (h' & t & Hr & c & _ & _ & _ & Hc'); [done.. |]. by rewrite Hr.
  - unfold clktree_set_enabled, mbind, M_bind, load. by rewrite lookup_ge_None_2 by lia.
Qed.

Lemma set_scale_preserves n mul div :
  0 <= mul < 2 ^ 16 -> 0 < div < 2 ^ 16 -> preserves consistent (clktree_set_scale n mul div).
Proof.
  intros Hm Hd h Hc. unfold wlp. destruct (decide (n < length h)%nat) as [Hn | Hn].
  - destruct (set_scale_ok h n mul div) as (h' & t & Hr & c & _ & _ & _ & Hc'); [done.. |]. by rewrite Hr.
  - unfold clktree_set_scale, mbind, M_bind, load. by rewrite lookup_ge_None_2 by lia.
Qed.

Lemma clk_step_consistent h h' : clk_step h h' -> consistent h -> consistent h'.
Proof.
  intros Hstep Hc. destruct Hstep as [nm f en clk t Hf Hr | nm mul div en mx sel ins clk t Hm Hd Hs Hi Hr
    | clk u t Hr | clk mul div t Hm Hd Hr | clk en t Hr | clk sel t Hs Hr].
  - destruct (create_src_clk_ok nm f en h) as (h1 & t1 & Hr1 & Hc1); [done.. |]. congruence.
  - by eapply wlp_Done, Hr; apply create_clk_preserves.
  - by eapply wlp_Done, Hr; apply adduser_preserves.
  - by eapply wlp_Done, Hr; apply set_scale_preserves.
  - by eapply wlp_Done, Hr; apply set_enabled_preserves.
  - by eapply wlp_Done, Hr; apply select_preserves.
Qed.

Lemma consistent_nil : consistent [].
Proof. by split. Qed.

Lemma reachable_inv h : reachable h -> consistent h.
Proof.
  intros Hr. pose proof consistent_nil as Hc. revert Hc. induction Hr as [| h1 h2 h3 H12 _ IH]; [done |].
  intros Hc. apply IH. by eapply clk_step_consistent.
Qed.

(** In a consistent heap every frequency is a 32-bit number. *)
Lemma output_freq_range h i c :
  consistent h -> h !! i = Some c -> 0 <= output_freq c < 2 ^ 32.
Proof.
  intros [_ Ho _] Hi. rewrite (Ho i c Hi). unfold calc. destruct (enabled c); [apply u32_range | lia].
Qed.

Lemma input_freq_range h i c :
  consistent h -> h !! i = Some c -> 0 <= input_freq c < 2 ^ 32.
Proof.
  intros Hc Hi. pose proof (cons_link _ Hc i c Hi) as Hl. unfold link_ok in Hl.
  destruct (clktree_get_input_clk c) as [p |]; [| lia].
  destruct Hl as (pc & Hp & ->). by eapply output_freq_range.
Qed.

(** The arithmetic of a clock: the 96-bit [muldiv64] is the exact quotient. *)
Lemma calc_exact h i c :
  consistent h -> h !! i = Some c ->
  output_freq c = if enabled c then u32 (input_freq c * multiplier c / divisor c) else 0.
Proof.
  intros Hc Hi. rewrite (cons_out _ Hc i c Hi). unfold calc. destruct (enabled c); [| done].
  destruct (cons_topo _ Hc i c Hi) as [_ _ _ [Hm Hd]].
  pose proof (input_freq_range h i c Hc Hi) as Hf. f_equal. apply muldiv64_eq; [lia.. |].
  apply Z.div_lt_upper_bound; [lia |]. nia.
Qed.

(** *** The maximum frequency is never recorded *)

Definition no_max (h : heap) : Prop :=
  Forall (λ c, max_output_freq c = CLKTREE_NO_MAX_FREQ) h.

Lemma load_no_max {A} n (k : Clk → ClkM A) :
  (forall c, max_output_freq c = CLKTREE_NO_MAX_FREQ -> preserves no_max (k c)) ->
  preserves no_max (load n ≫= k).
Proof.
  intros Hk h Hh. apply wlp_bind. unfold wlp at 1, load. destruct (h !! n) as [c |] eqn:Hn; [| done].
  apply Hk; [| done]. by apply (Forall_lookup_1 _ h n c Hh Hn).
Qed.

Lemma store_no_max n c :
  max_output_freq c = CLKTREE_NO_MAX_FREQ -> preserves no_max (store n c).
Proof. intros Hc. apply preserves_modify. intros h Hh. by apply Forall_insert. Qed.

Lemma get_no_max {A} (k : heap → ClkM A) :
  (forall h, preserves no_max (k h)) -> preserves no_max (get ≫= k).
Proof. intros Hk h Hh. apply wlp_bind. by apply Hk. Qed.

Lemma recalc_no_max fuel n : preserves no_max (clktree_recalc_output_freq fuel n).
Proof.
  revert n. induction fuel as [|fuel IH]; intros n; cbn; [apply preserves_halt |].
  apply load_no_max. intros c Hc. apply preserves_bind.
  { unfold new_output_freq. repeat case_match; auto with preserves. }
  intros new. case_match; [apply preserves_ret |].
  apply preserves_bind; [by apply store_no_max |]. intros _.
  apply preserves_bind; [auto with preserves |]. intros _.
  apply preserves_bind; [apply preserves_for_each; auto with preserves |]. intros _.
  apply preserves_for_each. intros x _. apply load_no_max. intros nc Hnc.
  case_decide; [| apply preserves_ret]. unfold set_input_freq_with.
  apply load_no_max. intros c' Hc'. apply preserves_bind; [by apply store_no_max | auto].
Qed.

Lemma recalc_top_no_max n : preserves no_max (recalc_top n).
Proof. apply get_no_max. intros h. apply recalc_no_max. Qed.

Lemma update_no_max n (f : Clk → Clk) :
  (forall c, max_output_freq (f c) = max_output_freq c) ->
  preserves no_max (c ← load n; store n (f c) ;; recalc_top n).
Proof.
  intros Hf. apply load_no_max. intros c Hc. apply preserves_bind.
  - apply store_no_max. by rewrite Hf.
  - intros _. apply recalc_top_no_max.
Qed.

Lemma add_link_no_max {A} (l : list A) x n : preserves no_max (CLKTREE_ADD_LINK l x n).
Proof. unfold CLKTREE_ADD_LINK. auto with preserves. Qed.

Lemma select_no_max n sel : preserves no_max (clktree_set_selected_input n sel).
Proof.
  apply load_no_max. intros c Hc. apply preserves_bind; [auto with preserves |]. intros _.
  apply preserves_bind; [by apply store_no_max |]. intros _. apply preserves_bind.
  - case_match; [| apply preserves_ret]. case_match; [| apply preserves_halt].
    apply load_no_max. intros. apply preserves_ret.
  - intros f. by apply update_no_max.
Qed.

Lemma add_input_no_max n p : preserves no_max (add_input_link n p).
Proof.
  apply load_no_max. intros c Hc. apply preserves_bind; [apply add_link_no_max |]. intros ins.
  apply preserves_bind; [by apply store_no_max |]. intros _.
  apply load_no_max. intros c' Hc'. apply preserves_bind; [apply add_link_no_max |]. intros outs.
  by apply store_no_max.
Qed.

Lemma create_generic_no_max nm mul div en : preserves no_max (clktree_create_generic nm mul div en).
Proof. intros h Hh. cbn. apply Forall_app. split; [done |]. by apply Forall_singleton. Qed.

Lemma create_src_no_max nm f en : preserves no_max (clktree_create_src_clk nm f en).
Proof.
  apply preserves_bind; [apply create_generic_no_max |]. intros clk.
  apply preserves_bind; [by apply update_no_max | auto with preserves].
Qed.

Lemma create_clk_no_max nm mul div en mx sel ins :
  preserves no_max (clktree_create_clk nm mul div en mx sel ins).
Proof.
  apply preserves_bind; [apply create_generic_no_max |]. intros clk.
  apply preserves_bind; [apply preserves_for_each; intros p _; apply add_input_no_max |]. intros _.
  apply preserves_bind; [apply select_no_max | auto with preserves].
Qed.

Lemma adduser_no_max n u : preserves no_max (clktree_adduser n u).
Proof.
  apply load_no_max. intros c Hc. apply preserves_bind; [apply add_link_no_max |].
  intros us. by apply store_no_max.
Qed.

Lemma clk_step_no_max h h' : clk_step h h' -> no_max h -> no_max h'.
Proof.
  intros Hstep Hh. destruct Hstep; (eapply wlp_Done; [| eassumption]).
  - by apply create_src_no_max.
  - by apply create_clk_no_max.
  - by apply adduser_no_max.
  - by apply update_no_max.
  - by apply update_no_max.
  - by apply select_no_max.
Qed.

(** ** The properties of the clock tree *)

(** A two-clock tree for the witnesses: an 8 MHz oscillator and a clock that
    multiplies it by nine, with one user. *)
Definition demo_tree : ClkM unit :=
  src ← clktree_create_src_clk "OSC" 8000000 true;
  clk ← clktree_create_clk "PLL" 9 1 true 72000000 0 [src];
  clktree_adduser clk 7.

Definition demo_heap : heap :=
  match demo_tree [] with Done _ h _ => h | Halt _ => [] end.

Lemma demo_reachable : reachable demo_heap.
Proof.
  eapply rtc_l; [| eapply rtc_l; [| eapply rtc_l; [| apply rtc_refl]]].
  - by eapply (step_create_src _ _ "OSC" 8000000 true); [lia | vm_compute].
  - eapply (step_create _ _ "PLL" 9 1 true 72000000 0 [0%nat]); [lia.. | | by vm_compute].
    apply Forall_singleton. cbn. lia.
  - by apply (step_adduser _ _ 1%nat 7 []).
Defined.

(** C9 (clktree.reachable_frequencies).  In every heap that calls of the
    public functions can build, the output of every clock is zero when it is
    disabled and otherwise exactly [input * multiplier / divisor] in 32 bits,
    and the input of a clock is the output of the clock it has selected (zero
    when it has inputs and none is selected). *)
Theorem reachable_frequencies (h : heap) (i : clkptr) (c : Clk) :
  reachable h -> h !! i = Some c ->
  output_freq c = (if enabled c then u32 (input_freq c * multiplier c / divisor c) else 0) /\
  match clktree_get_input_clk c with
  | Some p => exists pc, h !! p = Some pc /\ input_freq c = output_freq pc
  | None => length (input c) = 1%nat \/ input_freq c = 0
  end.
Proof.
  intros Hr Hi. pose proof (reachable_inv h Hr) as Hc. split; [by eapply calc_exact |].
  pose proof (cons_link _ Hc i c Hi) as Hl. unfold link_ok in Hl. case_match; naive_solver.
Qed.

Lemma reachable_frequencies_witness :
  exists c, demo_heap !! 1%nat = Some c /\ output_freq c = 72000000 /\ input_freq c = 8000000.
Proof.
  destruct (demo_heap !! 1%nat) as [c |] eqn:Hi; [| by vm_compute in Hi].
  exists c. split; [done |].
  pose proof (reachable_frequencies demo_heap 1 c demo_reachable Hi) as [Ho _].
  vm_compute in Hi. injection Hi as <-. vm_compute in Ho |- *. done.
Defined.

(** C36 (clktree.updates_complete).  From every reachable heap, each of the
    three operations that change a running tree completes: the propagation
    terminates, the links and frequencies are consistent again, the clocks
    created before the changed one are untouched, and every user of a clock
    whose output changed is notified with the new frequency. *)
Theorem updates_complete (h : heap) (n : clkptr) (c : Clk) (mul div : Z) (en : bool) (sel : Z) :
  reachable h -> h !! n = Some c ->
  0 <= mul < 2 ^ 16 -> 0 < div < 2 ^ 16 ->
  -1 <= sel -> sel + 1 < Z.of_nat (length (input c)) -> sel + 1 < 2 ^ 32 ->
  (exists h' t, clktree_set_scale n mul div h = Done () h' t /\
     pass n (<[n := c <| multiplier := mul |> <| divisor := div |>]> h) h' t /\ consistent h') /\
  (exists h' t, clktree_set_enabled n en h = Done () h' t /\
     pass n (<[n := c <| enabled := en |>]> h) h' t /\ consistent h') /\
  (exists h' t, clktree_set_selected_input n sel h = Done () h' t /\
     pass n (<[n := select h sel c]> h) h' t /\ consistent h').
Proof.
  intros Hr Hn Hm Hd H1 H2 H3. pose proof (reachable_inv h Hr) as Hc.
  pose proof (lookup_lt_Some _ _ _ Hn) as Hlt. split; [| split].
  - destruct (set_scale_ok h n mul div) as (h' & t & Hrun & c0 & Hn0 & _ & Hp); [done.. |].
    rewrite Hn in Hn0. injection Hn0 as <-. eauto.
  - destruct (set_enabled_ok h n en) as (h' & t & Hrun & c0 & Hn0 & _ & Hp); [done.. |].
    rewrite Hn in Hn0. injection Hn0 as <-. eauto.
  - destruct (set_selected_input_ok h n c sel) as (h' & t & Hrun & c0 & Hn0 & _ & Hp); [done.. |].
    rewrite Hn in Hn0. injection Hn0 as <-. eauto.
Qed.

(** Disabling the oscillator of the two-clock tree completes. *)
Lemma updates_complete_witness :
  exists c h' t, demo_heap !! 0%nat = Some c /\
    clktree_set_enabled 0 false demo_heap = Done () h' t /\
    pass 0 (<[0%nat := c <| enabled := false |>]> demo_heap) h' t /\ consistent h'.
Proof.
  destruct (demo_heap !! 0%nat) as [c |] eqn:Hi; [| by vm_compute in Hi].
  assert (Hin : input c = [None]) by (vm_compute in Hi; by injection Hi as <-).
  destruct (updates_complete demo_heap 0 c 1 1 false (-1) demo_reachable Hi)
    as (_ & (h' & t & Hrun & Hp & Hc) & _); [lia | lia | lia | rewrite Hin; cbn; lia | lia |].
  exists c, h', t. exact (conj eq_refl (conj Hrun (conj Hp Hc))).
Defined.

(** [clktree_create_clk] never stores its
    [max_output_freq] argument: in every reachable heap the limit of every
    clock is [CLKTREE_NO_MAX_FREQ], so no output frequency is ever above it
    and the warning that the header promises cannot be given. *)
Theorem max_frequency_ignored (h : heap) (i : clkptr) (c : Clk) :
  reachable h -> h !! i = Some c ->
  max_output_freq c = CLKTREE_NO_MAX_FREQ /\ (max_output_freq c <? calc c) = false.
Proof.
  intros Hr Hi. assert (Hm : max_output_freq c = CLKTREE_NO_MAX_FREQ).
  { assert (no_max h) as Hh; [| by apply (Forall_lookup_1 _ h i c Hh Hi)].
    assert (no_max []) as H0 by constructor. revert H0.
    induction Hr as [| h1 h2 h3 H12 _ IH]; [done |]. intros H0. apply IH; [done |].
    by eapply clk_step_no_max. }
  split; [done |]. rewrite Hm. apply Z.ltb_ge.
  pose proof (cons_out _ (reachable_inv h Hr) i c Hi) as Ho.
  pose proof (output_freq_range h i c (reachable_inv h Hr) Hi). unfold out_ok in Ho.
  unfold CLKTREE_NO_MAX_FREQ. lia.
Qed.

(** The clock created with the limit 72 MHz has no limit. *)
Lemma max_frequency_ignored_witness :
  exists c, demo_heap !! 1%nat = Some c /\ max_output_freq c = 0xffffffff.
Proof.
  destruct (demo_heap !! 1%nat) as [c |] eqn:Hi; [| by vm_compute in Hi].
  exists c. split; [done |]. apply (max_frequency_ignored demo_heap 1 c demo_reachable Hi).
Defined.
