(* ===== verification/Clkspec.v ===== *)
(** * Specifications of clock trees

    A client of the clock tree (the RCC) builds a fixed set of clocks and then
    only changes enable flags, scales and selections.  [node] is what the
    client promises about one clock; [tracks spec h] says that the heap [h] is
    consistent and implements the list of promises [spec].  Each operation of
    [stm32_clktree.c] updates one promise ([track_enabled], [track_scale],
    [track_select]); the frequency of a clock is then a function of the
    promises ([node_output]).  The last section bounds the frequencies that are
    announced to the users of the clocks while a change propagates. *)

From S2P Require Import Prelude Clktree.

Record node : Type := mkNode {
  n_inputs : list (option clkptr);
  n_outputs : list clkptr;
  n_enabled : bool → Prop;
  n_scale : Z → Z → Prop;
  n_sel : Z → Prop;
  n_src : option Z     (* the frequency of an oscillator *)
}.

#[export] Instance node_settable : Settable node := λ n,
  mkNode (n_inputs n) (n_outputs n) (n_enabled n) (n_scale n) (n_sel n) (n_src n).

Record implements (n : node) (c : Clk) : Prop := {
  impl_inputs : input c = n_inputs n;
  impl_outputs : output c = n_outputs n;
  impl_enabled : n_enabled n (enabled c);
  impl_scale : n_scale n (multiplier c) (divisor c);
  impl_sel : n_sel n (selected_input c);
  impl_src : forall f, n_src n = Some f -> input c = [None] /\ input_freq c = f
}.

Definition tracks (spec : list node) (h : heap) : Prop :=
  consistent h /\ Forall2 implements spec h.

Lemma tracks_lookup spec h n nd :
  tracks spec h -> spec !! n = Some nd -> exists c, h !! n = Some c /\ implements nd c.
Proof. intros [_ Hf] Hn. by eapply Forall2_lookup_l in Hf. Qed.

Lemma source_no_input c : input c = [None] -> clktree_get_input_clk c = None.
Proof. intros Hc. unfold clktree_get_input_clk. rewrite Hc. by destruct (Z.to_nat _) as [|[|]]. Qed.

(** What an implementation of a promise leaves open: the users, the name and
    the frequencies of a clock that is not an oscillator. *)
Lemma implements_shape nd c c' :
  shape c = shape c' -> (input c = [None] -> input_freq c' = input_freq c) ->
  implements nd c -> implements nd c'.
Proof.
  intros Hs Hsrc [Hi Ho He Hsc Hse Hf].
  pose proof (shape_fields _ _ Hs) as (? & ? & ? & ? & ? & ? & ? & ?).
  split; [congruence | congruence | congruence | congruence | congruence |].
  intros f Hnf. destruct (Hf f Hnf) as (Hn & Hif). split; [congruence |]. rewrite <- Hif. auto.
Qed.

Lemma tracks_propagated spec h h' t n nd' f :
  tracks spec h -> propagated n f h h' t ->
  (forall c, h !! n = Some c -> implements nd' (f c)) -> tracks (<[n := nd']> spec) h'.
Proof.
  intros [_ Hf] (c & Hc & _ & Hp & Hcons) Hnew. split; [done |].
  assert (Hf1 : Forall2 implements (<[n := nd']> spec) (<[n := f c]> h))
    by (apply Forall2_insert; auto).
  pose proof (pass_shape _ _ _ _ Hp) as Hs.
  apply Forall2_same_length_lookup_2.
  { by rewrite (Forall2_length _ _ _ Hf1), (shape_length _ _ Hs). }
  intros i nd c' Hnd Hc'. destruct (Forall2_lookup_l _ _ _ _ _ Hf1 Hnd) as (c1 & Hc1 & Himpl).
  destruct (shape_lookup _ h' i c1 Hs Hc1) as (c2 & Hc2 & Hsh).
  assert (c2 = c') as -> by congruence. eapply implements_shape; [done | | done].
  intros Hin. eapply (pass_source _ _ _ _ Hp); [done | done | by apply source_no_input].
Qed.

(** ** The operations on specifications *)

Lemma track_enabled spec h n nd en :
  tracks spec h -> spec !! n = Some nd ->
  exists h' t, clktree_set_enabled n en h = Done () h' t /\
    propagated n (λ c, c <| enabled := en |>) h h' t /\
    tracks (<[n := nd <| n_enabled := eq en |>]> spec) h'.
Proof.
  intros Ht Hn. destruct (tracks_lookup _ _ _ _ Ht Hn) as (c & Hc & Himpl).
  destruct (set_enabled_ok h n en) as (h' & t & Hrun & Hp);
    [apply Ht | by eapply lookup_lt_Some |].
  exists h', t. split; [done | split; [done |]]. eapply tracks_propagated; [done.. |].
  intros c0 H0. assert (c0 = c) as -> by congruence. by destruct Himpl.
Qed.

Lemma track_scale spec h n nd mul div :
  tracks spec h -> spec !! n = Some nd -> 0 <= mul < 2 ^ 16 -> 0 < div < 2 ^ 16 ->
  exists h' t, clktree_set_scale n mul div h = Done () h' t /\
    propagated n (λ c, c <| multiplier := mul |> <| divisor := div |>) h h' t /\
    tracks (<[n := nd <| n_scale := λ m d, m = mul /\ d = div |>]> spec) h'.
Proof.
  intros Ht Hn Hm Hd. destruct (tracks_lookup _ _ _ _ Ht Hn) as (c & Hc & Himpl).
  destruct (set_scale_ok h n mul div) as (h' & t & Hrun & Hp);
    [apply Ht | by eapply lookup_lt_Some | done.. |].
  exists h', t. split; [done | split; [done |]]. eapply tracks_propagated; [done.. |].
  intros c0 H0. assert (c0 = c) as -> by congruence. by destruct Himpl.
Qed.

Lemma track_select spec h n nd sel :
  tracks spec h -> spec !! n = Some nd -> n_src nd = None ->
  -1 <= sel -> sel + 1 < Z.of_nat (length (n_inputs nd)) -> sel < 2 ^ 31 ->
  exists h' t, clktree_set_selected_input n sel h = Done () h' t /\
    propagated n (select h sel) h h' t /\
    tracks (<[n := nd <| n_sel := eq sel |>]> spec) h'.
Proof.
  intros Ht Hn Hsrc Hlo Hhi H31. destruct (tracks_lookup _ _ _ _ Ht Hn) as (c & Hc & Himpl).
  destruct (set_selected_input_ok h n c sel) as (h' & t & Hrun & Hp);
    [apply Ht | done | done | by rewrite (impl_inputs _ _ Himpl) | lia |].
  exists h', t. split; [done | split; [done |]]. eapply tracks_propagated; [done.. |].
  intros c0 H0. assert (c0 = c) as -> by congruence. destruct Himpl as [Hi Ho He Hsc Hse Hf].
  split; try done. cbn. rewrite Hsrc. done.
Qed.

Lemma track_weaken spec spec' h :
  tracks spec h -> Forall2 (λ n n', forall c, implements n c -> implements n' c) spec spec' ->
  tracks spec' h.
Proof.
  intros [Hc Hf] Hw. split; [done |].
  apply Forall2_same_length_lookup_2.
  { by rewrite <- (Forall2_length _ _ _ Hw), (Forall2_length _ _ _ Hf). }
  intros i nd' c Hnd' Hc'. destruct (Forall2_lookup_r _ _ _ _ _ Hw Hnd') as (nd & Hnd & Himp).
  apply Himp. by eapply (Forall2_lookup_lr _ _ _ _ _ _ Hf).
Qed.

Lemma track_users spec h n u :
  tracks spec h -> wlp (clktree_adduser n u) (λ _ h' _, tracks spec h') h.
Proof.
  intros [Hc Hf]. unfold clktree_adduser, wlp, mbind, M_bind, load.
  destruct (h !! n) as [c |] eqn:Hn; [| done]. unfold CLKTREE_ADD_LINK, assert_, mbind, M_bind.
  destruct (bool_decide _); [| done]. cbn. split; [by apply consistent_users |].
  apply Forall2_same_length_lookup_2.
  { by rewrite length_insert, (Forall2_length _ _ _ Hf). }
  intros i nd c' Hnd Hc'. destruct (Forall2_lookup_l _ _ _ _ _ Hf Hnd) as (c0 & H0 & Himpl).
  destruct (decide (i = n)) as [-> |].
  - rewrite list_lookup_insert_eq in Hc' by (by eapply lookup_lt_Some). injection Hc' as <-.
    assert (c0 = c) as -> by congruence. by destruct Himpl.
  - rewrite list_lookup_insert_ne in Hc' by done. by assert (c0 = c') as -> by congruence.
Qed.

(** ** Frequencies as a function of the specification *)

(** The frequency of clock [n], and that of the selected input of a promise. *)
Definition freq (h : heap) (n : clkptr) : Z := default 0 (output_freq <$> h !! n).

Definition is_on (h : heap) (n : clkptr) : bool := default false (enabled <$> h !! n).

Definition scaled (en : bool) (f mul div : Z) : Z := if en then u32 (f * mul / div) else 0.

Lemma node_output spec h n nd mul div sel p :
  tracks spec h -> spec !! n = Some nd ->
  (forall m d, n_scale nd m d -> m = mul /\ d = div) ->
  (forall s, n_sel nd s -> s = sel) ->
  n_inputs nd !! Z.to_nat (sel + 1) = Some (Some p) ->
  freq h n = scaled (is_on h n) (freq h p) mul div.
Proof.
  intros Ht Hn Hsc Hse Hp. destruct (tracks_lookup _ _ _ _ Ht Hn) as (c & Hc & Himpl).
  destruct Ht as [Hcons _]. unfold freq, is_on. rewrite Hc. cbn.
  rewrite (calc_exact h n c Hcons Hc). unfold scaled.
  destruct (Hsc _ _ (impl_scale _ _ Himpl)) as (-> & ->).
  pose proof (cons_link _ Hcons n c Hc) as Hl. unfold link_ok, clktree_get_input_clk in Hl.
  rewrite (impl_inputs _ _ Himpl), (Hse _ (impl_sel _ _ Himpl)), Hp in Hl. cbn in Hl.
  destruct Hl as (pc & -> & ->). done.
Qed.

Lemma source_output spec h n nd f :
  tracks spec h -> spec !! n = Some nd -> n_src nd = Some f ->
  (forall m d, n_scale nd m d -> m = 1 /\ d = 1) -> 0 <= f < 2 ^ 32 ->
  freq h n = if is_on h n then f else 0.
Proof.
  intros Ht Hn Hsrc Hsc Hf. destruct (tracks_lookup _ _ _ _ Ht Hn) as (c & Hc & Himpl).
  destruct Ht as [Hcons _]. unfold freq, is_on. rewrite Hc. cbn.
  rewrite (calc_exact h n c Hcons Hc). destruct (Hsc _ _ (impl_scale _ _ Himpl)) as (-> & ->).
  destruct (impl_src _ _ Himpl f Hsrc) as (_ & ->). destruct (enabled c); [| done].
  rewrite Z.mul_1_r, Z.div_1_r. by apply u32_small.
Qed.

Lemma idle_output spec h n nd :
  tracks spec h -> spec !! n = Some nd -> n_src nd = None -> (1 < length (n_inputs nd))%nat ->
  (forall s, n_sel nd s -> s = -1) -> freq h n = 0.
Proof.
  intros Ht Hn Hsrc Hlen Hse. destruct (tracks_lookup _ _ _ _ Ht Hn) as (c & Hc & Himpl).
  destruct Ht as [Hcons _]. unfold freq. rewrite Hc. cbn. rewrite (calc_exact h n c Hcons Hc).
  destruct (cons_topo _ Hcons n c Hc) as [(ps & Hps & _) _ _ [Hm Hd]].
  pose proof (cons_link _ Hcons n c Hc) as Hl. unfold link_ok, clktree_get_input_clk in Hl.
  rewrite (Hse _ (impl_sel _ _ Himpl)), Hps in Hl. cbn in Hl.
  rewrite <- (impl_inputs _ _ Himpl), Hps in Hlen. cbn in Hlen.
  destruct Hl as [[Hl _] | ->]; [lia |]. rewrite Z.div_0_l by lia. by destruct (enabled c).
Qed.

(** ** Checking a concrete tree

    The tree that a client has just built is checked by computation. *)

Definition inputs_okb (h : heap) (i : clkptr) (ins : list (option clkptr)) : bool :=
  match ins with
  | None :: l => forallb (λ o : option clkptr,
      match o with
      | Some p => bool_decide (p < i)%nat &&
          match h !! p with Some pc => bool_decide (i ∈ output pc) | None => false end
      | None => false
      end) l
  | _ => false
  end.

Definition clk_okb (h : heap) (i : clkptr) (c : Clk) : bool :=
  inputs_okb h i (input c) &&
  forallb (λ o, bool_decide (i < o < length h)%nat) (output c) &&
  (0 <=? selected_input c + 1) && (selected_input c + 1 <? Z.of_nat (length (input c))) &&
  (0 <=? multiplier c) && (multiplier c <? 2 ^ 16) && (0 <? divisor c) && (divisor c <? 2 ^ 16) &&
  (output_freq c =? calc c) &&
  match clktree_get_input_clk c with
  | Some p => match h !! p with Some pc => input_freq c =? output_freq pc | None => false end
  | None => bool_decide (length (input c) = 1%nat) || (input_freq c =? 0)
  end.

Definition consistentb (h : heap) : bool :=
  forallb (λ '(i, c), clk_okb h i c) (imap pair h).

Lemma inputs_okb_sound h i ins : inputs_okb h i ins = true ->
  exists ps, ins = None :: (Some <$> ps) /\
    forall p, p ∈ ps -> (p < i)%nat /\ exists pc, h !! p = Some pc /\ i ∈ output pc.
Proof.
  destruct ins as [|[x|] l]; cbn; [done.. |]. intros Hall.
  induction l as [|[p|] l IH]; [exists []; split; [done | set_solver] | | done].
  cbn in Hall. apply andb_prop in Hall as [[Hp Hpc]%andb_prop Hl].
  destruct (IH Hl) as (ps & Hps & Hq). injection Hps as ->. exists (p :: ps). split; [done |].
  intros q [-> | Hin]%elem_of_cons; [| by apply Hq]. apply bool_decide_eq_true in Hp. split; [done |].
  destruct (h !! p) as [pc |]; [| done]. apply bool_decide_eq_true in Hpc. by exists pc.
Qed.

Lemma consistentb_sound h :
  consistentb h = true -> Forall (λ c, 0 <= input_freq c < 2 ^ 32) h -> consistent h.
Proof.
  intros Hb Hr. assert (Hall : forall i c, h !! i = Some c -> clk_okb h i c = true).
  { intros i c Hi. unfold consistentb in Hb. rewrite forallb_forall in Hb.
    apply (Hb (i, c)), list_elem_of_In, elem_of_lookup_imap. eauto. }
  assert (Hsplit : forall i c, h !! i = Some c -> topo_clk h i c /\ out_ok c /\ link_ok h c).
  { intros i c Hi. pose proof (Hall i c Hi) as Hk. unfold clk_okb in Hk.
    pose proof (Forall_lookup_1 _ h i c Hr Hi) as Hrc. cbn in Hrc.
    rewrite !andb_true_iff in Hk.
    destruct Hk as (((((((((Hin & Hout) & Hs1) & Hs2) & Hm1) & Hm2) & Hd1) & Hd2) & Ho) & Hl).
    split; [| split].
    - split.
      + by apply inputs_okb_sound.
      + intros o Hino%list_elem_of_In. rewrite forallb_forall in Hout.
        eapply bool_decide_eq_true, Hout, Hino.
      + lia.
      + unfold scale_ok. lia.
    - unfold out_ok. lia.
    - unfold link_ok. destruct (clktree_get_input_clk c) as [p |].
      + destruct (h !! p) as [pc |]; [| done]. exists pc. split; [done | lia].
      + apply orb_prop in Hl as [Hl | Hl]; [left | right; lia].
        apply bool_decide_eq_true in Hl. done. }
  split; intros i c Hi; by destruct (Hsplit i c Hi) as (? & ? & ?).
Qed.

(** ** Bounds on the announced frequencies

    [K i f]: the frequency [f] is acceptable for clock [i].  When the scale of
    every clock maps acceptable inputs to acceptable outputs, every frequency
    announced during a propagation is acceptable. *)
Section Range.
  Context (K : clkptr → Z → Prop).

Definition yields (i : clkptr) (c : Clk) (f : Z) : Prop :=
    K i (if enabled c then u32 (muldiv64 f (multiplier c) (divisor c)) else 0).

Definition in_range (h : heap) : Prop := forall i c, h !! i = Some c ->
    yields i c (input_freq c) /\
    forall o oc, o ∈ output c -> h !! o = Some oc -> clktree_get_input_clk oc = Some i ->
      forall f, K i f -> yields o oc f.

Definition told (h : heap) (t : list clk_event) : Prop := forall u f,
    Notify u f ∈ t -> exists i c, h !! i = Some c /\ u ∈ user c /\ K i f.

Lemma yields_shape i c c' f : shape c = shape c' -> yields i c f -> yields i c' f.
Proof.
  intros Hs. pose proof (shape_fields _ _ Hs) as (He & _ & Hm & Hd & _). unfold yields.
  by rewrite He, Hm, Hd.
Qed.

Lemma in_range_shape h h' :
  shape <$> h = shape <$> h' ->
  (forall i c, h' !! i = Some c -> yields i c (input_freq c)) -> in_range h -> in_range h'.
Proof.
  intros Hs Hin Hr i c' Hc'. split; [by apply Hin |].
  intros o oc' Ho Hoc' Hsel f Hf.
  destruct (shape_lookup h' h i c') as (c & Hc & Hsc); [done.. |].
  destruct (shape_lookup h' h o oc') as (oc & Hoc & Hso); [done.. |].
  apply (yields_shape o oc); [done |]. apply (Hr i c Hc); try done.
  - pose proof (shape_fields _ _ Hsc) as (_ & _ & _ & _ & _ & Hout & _). by rewrite <- Hout.
  - by rewrite <- (shape_get_input _ _ Hso).
Qed.

Lemma told_shape h h' t : shape <$> h = shape <$> h' -> told h' t -> told h t.
Proof.
  intros Hs Ht u f Hin. destruct (Ht u f Hin) as (i & c' & Hc' & Hu & HK).
  destruct (shape_lookup h' h i c') as (c & Hc & Hsc); [done.. |].
  pose proof (shape_fields _ _ Hsc) as (_ & _ & _ & _ & Hus & _).
  exists i, c. by rewrite <- Hus.
Qed.

Lemma told_app h t1 t2 : told h t1 -> told h t2 -> told h (t1 ++ t2).
Proof. intros H1 H2 u f [Hin | Hin]%elem_of_app; auto. Qed.

(** The post-condition of a propagation. *)
Definition ranged (h : heap) : unit → heap → list clk_event → Prop :=
  λ _ h' t, shape <$> h = shape <$> h' /\ in_range h' /\ told h t.

Lemma ranged_trans h h1 a t1 t2 h2 :
  ranged h () h1 t1 -> ranged h1 a h2 t2 -> ranged h a h2 (t1 ++ t2).
Proof.
  intros (Hs1 & _ & Ht1) (Hs2 & Hr2 & Ht2). split; [congruence | split; [done |]].
  apply told_app; [done |]. by eapply told_shape.
Qed.

Lemma for_each_ranged {A} (l : list A) body h :
  in_range h -> (forall x h1, x ∈ l -> shape <$> h = shape <$> h1 -> in_range h1 -> wlp (body x) (ranged h1) h1) ->
  wlp (for_each l body) (ranged h) h.
Proof.
  revert h. induction l as [|x l IH]; intros h Hr Hb; cbn.
  { unfold wlp; cbn. split; [done | split; [done |]]. unfold told. set_solver. }
  apply wlp_bind. eapply wlp_mono; [by apply Hb; [set_solver | ..] |]. cbn.
  intros [] h1 t1 H1. destruct (id H1) as (Hs1 & Hr1 & _). eapply (wlp_mono _ (ranged h1)).
  - apply IH; [done |]. intros y h2 Hy Hs Hr2. apply Hb; [set_solver | congruence | done].
  - intros [] h2 t2 H2. by eapply ranged_trans.
Qed.

Lemma store_output_ranged h n c new t :
  in_range h -> h !! n = Some c -> told h t ->
  ranged h () (<[n := c <| output_freq := new |>]> h) t.
Proof.
  intros Hr Hn Ht.
  assert (Hs : shape <$> h = shape <$> <[n := c <| output_freq := new |>]> h)
    by (symmetry; by eapply shape_insert).
  split; [done | split; [| done]]. eapply in_range_shape; [done | | done].
  intros i ci Hi. destruct (decide (i = n)) as [-> |].
  - rewrite list_lookup_insert_eq in Hi by (by eapply lookup_lt_Some). injection Hi as <-.
    exact (proj1 (Hr n c Hn)).
  - rewrite list_lookup_insert_ne in Hi by done. exact (proj1 (Hr i ci Hi)).
Qed.

Lemma store_input_ranged h n c f :
  in_range h -> h !! n = Some c -> yields n c f ->
  ranged h () (<[n := c <| input_freq := f |>]> h) [].
Proof.
  intros Hr Hn Hy.
  assert (Hs : shape <$> h = shape <$> <[n := c <| input_freq := f |>]> h)
    by (symmetry; by eapply shape_insert).
  split; [done | split; [| unfold told; set_solver]]. eapply in_range_shape; [done | | done].
  intros i ci Hi. destruct (decide (i = n)) as [-> |].
  - rewrite list_lookup_insert_eq in Hi by (by eapply lookup_lt_Some). by injection Hi as <-.
  - rewrite list_lookup_insert_ne in Hi by done. exact (proj1 (Hr i ci Hi)).
Qed.

Lemma wlp_load {A} n (k : Clk → ClkM A) Q h :
  (forall c, h !! n = Some c -> wlp (k c) Q h) -> wlp (load n ≫= k) Q h.
Proof.
  intros Hk. unfold wlp, mbind, M_bind, load. destruct (h !! n) as [c |]; [| done].
  specialize (Hk c eq_refl). unfold wlp in Hk. by destruct (k c h).
Qed.

Lemma ranged_refl h : in_range h -> ranged h () h [].
Proof. intros Hr. split; [done | split; [done |]]. unfold told. set_solver. Qed.

(** Telling a child that has selected [n] about an acceptable frequency. *)
Lemma visit_ranged rec n new c o h :
  (forall m h, in_range h -> wlp (rec m) (ranged h) h) ->
  in_range h -> h !! n = Some c -> o ∈ output c -> K n new ->
  wlp (visit_child rec n new o) (ranged h) h.
Proof.
  intros Hrec Hr Hc Ho HK. apply wlp_load. intros oc Hoc.
  destruct (decide _) as [Hsel |]; [| by apply ranged_refl].
  apply wlp_load. intros oc' Hoc'. assert (oc' = oc) as -> by congruence.
  assert (Hst : ranged h () (<[o := oc <| input_freq := new |>]> h) []).
  { apply store_input_ranged; [done.. |]. by apply (proj2 (Hr n c Hc) o oc). }
  apply wlp_bind. cbn. eapply wlp_mono; [apply Hrec, Hst |]. intros [] h3 t3 H3.
  change t3 with ([] ++ t3). by eapply ranged_trans.
Qed.

Lemma visits_ranged rec n new c h :
  (forall m h, in_range h -> wlp (rec m) (ranged h) h) ->
  in_range h -> h !! n = Some c -> K n new ->
  wlp (for_each (output c) (visit_child rec n new)) (ranged h) h.
Proof.
  intros Hrec Hr Hc HK. apply for_each_ranged; [done |]. intros o h2 Ho Hs2 Hr2.
  destruct (shape_lookup h h2 n c) as (c2 & Hc2 & Hsh); [done.. |].
  pose proof (shape_fields _ _ Hsh) as (_ & _ & _ & _ & _ & Hout & _).
  eapply visit_ranged; try done. by rewrite <- Hout.
Qed.

Lemma recalc_ranged fuel : forall n h,
  in_range h -> wlp (clktree_recalc_output_freq fuel n) (ranged h) h.
Proof.
  induction fuel as [|fuel IH]; intros n h Hr; cbn; [done |].
  apply wlp_load. intros c Hc. pose proof (proj1 (Hr n c Hc)) as Hy. unfold yields in Hy.
  apply wlp_bind. apply (wlp_mono _ (λ new h1 t, h1 = h /\ t = [] /\ K n new)).
  { unfold wlp, new_output_freq. destruct (enabled c); [| done]. by destruct (divisor c =? 0). }
  intros new h1 t1 (-> & -> & HK). cbn [app].
  destruct (new =? output_freq c); [by apply ranged_refl |].
  set (c1 := c <| output_freq := new |>). set (h1 := <[n := c1]> h).
  assert (H1 : forall te, (forall u f, Notify u f ∈ te -> u ∈ user c /\ f = new) -> ranged h () h1 te).
  { intros te Hte. apply store_output_ranged; [done.. |]. intros u f Hin.
    destruct (Hte u f Hin) as (Hu & ->). eauto. }
  assert (Hn1 : h1 !! n = Some c1)
    by (unfold h1; rewrite list_lookup_insert_eq by (by eapply lookup_lt_Some); done).
  apply wlp_bind. cbn [wlp store modify]. fold h1. apply wlp_bind.
  apply (wlp_mono _ (λ _ h2 t, h2 = h1 /\ forall u f, Notify u f ∉ t)).
  { unfold wlp, when, emit. destruct (_ <? _); cbn; set_solver. }
  intros _ h2 tw (-> & Htw). apply wlp_bind. unfold wlp at 1. rewrite for_each_emit.
  eapply wlp_mono; [apply (visits_ranged _ n new c1); [done | | done..] |].
  { apply (H1 []). set_solver. }
  intros [] h3 t3 H3. rewrite !app_assoc. eapply ranged_trans; [| done]. apply H1.
  intros u f [[[]%elem_of_nil | Hin]%elem_of_app | Hin]%elem_of_app; [by destruct (Htw u f) |].
  apply list_elem_of_fmap in Hin as (u' & Heq & Hu). naive_solver.
Qed.

End Range.

(** ** The frequencies of a consistent tree stay in range

    [bound i] is the interval of the non-zero frequencies of clock [i]; the
    scales in [spec] map the interval of every input into that of its
    outputs. *)
Section Closed.
  Context (bound : clkptr → Z * Z).

Definition within (i : clkptr) (f : Z) : Prop :=
    f = 0 \/ fst (bound i) <= f < snd (bound i).

  (** The scale [mul / div] maps the interval of [i] into that of [o]. *)
Definition maps_into (i o : clkptr) (mul div : Z) : Prop :=
    (mul = 0 \/ bound o = (0, 2 ^ 32) \/
     (snd (bound i) * mul <= snd (bound o) * div /\ fst (bound o) * div <= fst (bound i) * mul)).

Record closed_node (spec : list node) (i : clkptr) (nd : node) : Prop := {
    closed_bound : 0 <= fst (bound i) /\ snd (bound i) <= 2 ^ 32;
    closed_inputs : forall p m d, Some p ∈ n_inputs nd -> n_scale nd m d -> maps_into p i m d;
    closed_source : forall f, n_src nd = Some f -> (forall m d, n_scale nd m d -> m = 1 /\ d = 1) /\
      within i f /\ 0 <= f < 2 ^ 32
  }.

Definition closed (spec : list node) : Prop :=
    forall i nd, spec !! i = Some nd ->
      closed_node spec i nd /\ (n_src nd = None -> (1 < length (n_inputs nd))%nat).

Lemma within_zero i : within i 0.
Proof. by left. Qed.

Lemma scaled_within i o m d f :
  0 <= fst (bound i) /\ snd (bound i) <= 2 ^ 32 -> 0 <= fst (bound o) /\ snd (bound o) <= 2 ^ 32 ->
  0 <= m < 2 ^ 16 -> 0 < d < 2 ^ 16 -> maps_into i o m d -> within i f ->
  within o (u32 (muldiv64 f m d)).
Proof.
  intros Hbi Hbo Hm Hd Hmap Hf.
  assert (Hf32 : 0 <= f < 2 ^ 32) by (destruct Hf; lia).
  assert (Hdiv : muldiv64 f m d = f * m / d).
  { apply muldiv64_eq; [lia.. |]. apply Z.div_lt_upper_bound; [lia |]. nia. }
  rewrite Hdiv. destruct (decide (m = 0)) as [-> |].
  { rewrite Z.mul_0_r, Z.div_0_l by lia. by left. }
  destruct Hmap as [? | [Ho | [Hhi Hlo]]]; [done | |].
  - right. rewrite Ho. apply u32_range.
  - destruct Hf as [-> | Hf]; [rewrite Z.mul_0_l, Z.div_0_l by lia; by left | right].
    assert (Hq1 : fst (bound o) <= f * m / d) by (apply Z.div_le_lower_bound; [lia | nia]).
    assert (Hq2 : f * m / d < snd (bound o)) by (apply Z.div_lt_upper_bound; [lia | nia]).
    rewrite u32_small by lia. lia.
Qed.

(** The inputs of a clock that implements [nd]: an oscillator's frequency, or
    an acceptable frequency of one of its input clocks, or nothing. *)
Definition input_fine (nd : node) (f : Z) : Prop :=
  n_src nd = Some f \/ f = 0 \/ exists p, Some p ∈ n_inputs nd /\ within p f.

Lemma input_fine_yields spec i nd c f :
  closed spec -> spec !! i = Some nd -> (forall p, Some p ∈ n_inputs nd -> (p < length spec)%nat) ->
  n_scale nd (multiplier c) (divisor c) -> scale_ok c ->
  input_fine nd f -> yields within i c f.
Proof.
  intros Hcl Hi Hps Hsc [Hm Hd] Hf. destruct (Hcl i nd Hi) as [[Hb Hin Hsrc] _].
  unfold yields. destruct (enabled c); [| apply within_zero].
  destruct Hf as [Hs | [-> | (p & Hp & Hw)]].
  - destruct (Hsrc f Hs) as (H11 & Hw & Hr). destruct (H11 _ _ Hsc) as (-> & ->).
    rewrite muldiv64_eq, Z.mul_1_r, Z.div_1_r, u32_small; try done; try lia.
    rewrite Z.mul_1_r, Z.div_1_r. lia.
  - rewrite muldiv64_eq by (try lia; rewrite Z.mul_0_l, Z.div_0_l; lia).
    rewrite Z.mul_0_l, Z.div_0_l by lia. apply within_zero.
  - destruct (lookup_lt_is_Some_2 spec p (Hps p Hp)) as [ndp Hndp].
    destruct (Hcl p ndp Hndp) as [[Hbp _ _] _].
    eapply (scaled_within p i); try done. by apply Hin.
Qed.

Lemma tracks_input_bound spec h i nd :
  tracks spec h -> spec !! i = Some nd -> forall p, Some p ∈ n_inputs nd -> (p < i < length spec)%nat.
Proof.
  intros Ht Hi p Hp. destruct (tracks_lookup _ _ _ _ Ht Hi) as (c & Hc & Himpl).
  destruct Ht as [Hcons Hf]. destruct (cons_topo _ Hcons i c Hc) as [(ps & Hps & Hall) _ _ _].
  rewrite <- (impl_inputs _ _ Himpl), Hps in Hp.
  apply elem_of_cons in Hp as [? | (q & Heq & Hq)%list_elem_of_fmap]; [done |]. injection Heq as <-.
  destruct (Hall p Hq) as (? & _). pose proof (lookup_lt_Some _ _ _ Hi). lia.
Qed.

Lemma selected_elem c p : clktree_get_input_clk c = Some p -> Some p ∈ input c.
Proof.
  unfold clktree_get_input_clk. destruct (input c !! _) as [o |] eqn:Ho; [| done]. cbn. intros ->.
  by eapply list_elem_of_lookup_2.
Qed.

(** Every frequency of the tree is in range. *)
Lemma tracks_within spec h :
  closed spec -> tracks spec h -> forall i c, h !! i = Some c -> within i (output_freq c).
Proof.
  intros Hcl Ht i. induction i as [i IH] using lt_wf_ind. intros c Hc.
  destruct (id Ht) as [Hcons Hf]. destruct (Forall2_lookup_r _ _ _ _ _ Hf Hc) as (nd & Hnd & Himpl).
  rewrite (cons_out _ Hcons i c Hc). destruct (cons_topo _ Hcons i c Hc) as [_ _ _ Hsc].
  eapply (input_fine_yields spec i nd c); try done.
  - intros p Hp. pose proof (tracks_input_bound spec h i nd Ht Hnd p Hp). lia.
  - apply Himpl.
  - pose proof (cons_link _ Hcons i c Hc) as Hl. unfold link_ok in Hl.
    destruct (clktree_get_input_clk c) as [p |] eqn:Hp.
    + destruct Hl as (pc & Hpc & ->). right; right. exists p.
      apply selected_elem in Hp. rewrite (impl_inputs _ _ Himpl) in Hp. split; [done |].
      apply IH; [| done]. by destruct (tracks_input_bound spec h i nd Ht Hnd p Hp).
    + destruct (n_src nd) as [f |] eqn:Hs.
      * left. destruct (impl_src _ _ Himpl f Hs) as (_ & ->). done.
      * right; left. destruct (Hcl i nd Hnd) as [_ Hlen]. specialize (Hlen Hs).
        rewrite (impl_inputs _ _ Himpl) in Hl. lia.
Qed.

Lemma tracks_input_fine spec h i nd c :
  closed spec -> tracks spec h -> spec !! i = Some nd -> h !! i = Some c -> input_fine nd (input_freq c).
Proof.
  intros Hcl Ht Hnd Hc. destruct (tracks_lookup _ _ _ _ Ht Hnd) as (c0 & Hc0 & Himpl).
  assert (c0 = c) as -> by congruence. destruct (id Ht) as [Hcons _].
  pose proof (cons_link _ Hcons i c Hc) as Hl. unfold link_ok in Hl.
  destruct (clktree_get_input_clk c) as [p |] eqn:Hp.
  - destruct Hl as (pc & Hpc & ->). right; right. exists p. apply selected_elem in Hp.
    rewrite (impl_inputs _ _ Himpl) in Hp. split; [done |]. by eapply tracks_within.
  - destruct (n_src nd) as [f |] eqn:Hs.
    + left. destruct (impl_src _ _ Himpl f Hs) as (_ & ->). done.
    + right; left. destruct (Hcl i nd Hnd) as [_ Hlen]. specialize (Hlen Hs).
      rewrite (impl_inputs _ _ Himpl) in Hl. lia.
Qed.

(** A heap in which clock [n] has been rewritten, before the propagation. *)
Lemma rewritten_in_range spec spec' h h' t n nd' f :
  closed spec -> closed spec' -> tracks spec h -> tracks spec' h' ->
  spec' = <[n := nd']> spec -> (forall c, h !! n = Some c -> input_fine nd' (input_freq (f c))) ->
  propagated n f h h' t -> forall c, h !! n = Some c -> in_range within (<[n := f c]> h).
Proof.
  intros Hcl Hcl' Ht Ht' Hspec Hfine (c & Hc & _ & Hp & _) c0 Hc0. assert (c0 = c) as -> by congruence.
  pose proof (lookup_lt_Some _ _ _ Hc) as Hlt. pose proof (pass_shape _ _ _ _ Hp) as Hs.
  assert (Hgen : forall i ci f0, <[n := f c]> h !! i = Some ci ->
    (forall nd, spec' !! i = Some nd -> input_fine nd f0) -> yields within i ci f0).
  { intros i ci f0 Hi Hf0. destruct (shape_lookup _ _ i ci Hs Hi) as (ci' & Hci' & Hsh).
    destruct Ht' as [Hcons' Hf']. destruct (Forall2_lookup_r _ _ _ _ _ Hf' Hci') as (nd & Hnd & Himpl).
    destruct (cons_topo _ Hcons' i ci' Hci') as [_ _ _ Hsc].
    apply (yields_shape _ i ci'); [done |]. eapply input_fine_yields; try done.
    - intros p Hp'. by destruct (tracks_input_bound spec' h' i nd (conj Hcons' Hf') Hnd p Hp'); lia.
    - apply Himpl.
    - by apply Hf0. }
  intros i ci Hi. split.
  - apply Hgen; [done |]. intros nd Hnd. rewrite Hspec in Hnd. destruct (decide (i = n)) as [-> |].
    + rewrite list_lookup_insert_eq in Hi by done. injection Hi as <-.
      destruct (id Ht) as [_ Hf2]. rewrite list_lookup_insert_eq in Hnd by (by rewrite (Forall2_length _ _ _ Hf2)).
      injection Hnd as <-. by apply Hfine.
    + rewrite list_lookup_insert_ne in Hi by done. rewrite list_lookup_insert_ne in Hnd by done.
      by apply (tracks_input_fine spec h i).
  - intros o oc Ho Hoc Hsel f0 Hw. apply Hgen; [done |]. intros nd Hnd. right; right. exists i.
    split; [| done]. destruct (shape_lookup _ _ o oc Hs Hoc) as (oc' & Hoc' & Hsh).
    destruct (tracks_lookup _ _ _ _ Ht' Hnd) as (oc1 & Hoc1 & Himpl).
    assert (oc1 = oc') as -> by congruence. rewrite <- (impl_inputs _ _ Himpl).
    apply selected_elem. by rewrite <- (shape_get_input _ _ Hsh).
Qed.

(** What a client learns from one operation: the promise it changed, the users,
    and that every announced frequency is in range. *)
Record op_result (spec' : list node) (h h' : heap) (t : list clk_event) : Prop := {
  op_tracks : tracks spec' h';
  op_users : user <$> h' = user <$> h;
  op_told : told within h t
}.

Lemma users_shape (h h' : heap) : shape <$> h = shape <$> h' -> user <$> h' = user <$> h.
Proof.
  intros Hs. change user with (user ∘ shape). by rewrite !list_fmap_compose, Hs.
Qed.

Lemma users_insert (h : heap) n c c' :
  h !! n = Some c -> user c' = user c -> user <$> <[n := c']> h = user <$> h.
Proof.
  intros Hn Hu. rewrite list_fmap_insert, Hu. apply list_insert_id. by rewrite list_lookup_fmap, Hn.
Qed.

Lemma told_users (h h1 : heap) t : user <$> h = user <$> h1 -> told within h1 t -> told within h t.
Proof.
  intros Hu Ht u f Hin. destruct (Ht u f Hin) as (i & c1 & Hc1 & Huc & Hw).
  assert ((user <$> h) !! i = Some (user c1)) as Hl by by rewrite Hu, list_lookup_fmap, Hc1.
  rewrite list_lookup_fmap in Hl. destruct (h !! i) as [c |] eqn:Hc; [| done].
  injection Hl as Hl. exists i, c. by rewrite Hl.
Qed.

Lemma propagated_result spec spec' h h' t n nd' f :
  closed spec -> closed spec' -> tracks spec h -> tracks spec' h' -> spec' = <[n := nd']> spec ->
  (forall c, h !! n = Some c -> user (f c) = user c /\ input_fine nd' (input_freq (f c))) ->
  propagated n f h h' t -> op_result spec' h h' t.
Proof.
  intros Hcl Hcl' Ht Ht' Hspec Hf Hp. destruct (id Hp) as (c & Hc & Hrun & Hpass & _).
  destruct (Hf c Hc) as (Hu & Hfine). split; [done | |].
  - rewrite (users_shape (<[n := f c]> h) h'); [by eapply users_insert | apply Hpass].
  - apply (told_users h (<[n := f c]> h)); [symmetry; by eapply users_insert |].
    pose proof (rewritten_in_range spec spec' h h' t n nd' f Hcl Hcl' Ht Ht' Hspec) as Hr.
    pose proof (recalc_ranged within (length (<[n := f c]> h)) n (<[n := f c]> h)) as Hw.
    unfold wlp in Hw. unfold recalc_top, mbind, M_bind, get in Hrun.
    destruct (clktree_recalc_output_freq _ n _) as [[] h1 t1 |]; [| done].
    injection Hrun as <- <-. destruct Hw as (_ & _ & Htold); [| done].
    apply Hr; [| done | done]. intros c0 Hc0. by apply Hf.
Qed.

(** The three operations of a client, on closed specifications. *)
Section Ops.
  Context (spec spec' : list node) (h : heap) (n : clkptr) (nd : node).
  Hypothesis Hcl : closed spec.
  Hypothesis Hcl' : closed spec'.
  Hypothesis Ht : tracks spec h.
  Hypothesis Hn : spec !! n = Some nd.

Lemma op_enabled en :
  <[n := nd <| n_enabled := eq en |>]> spec = spec' ->
  exists h' t, clktree_set_enabled n en h = Done () h' t /\ op_result spec' h h' t.
Proof using Hcl Hcl' Ht Hn.
  intros Hs. destruct (track_enabled spec h n nd en Ht Hn) as (h' & t & Hrun & Hp & Ht').
  exists h', t. split; [done |]. rewrite Hs in Ht'.
  eapply (propagated_result spec spec'); try done.
  intros c Hc. split; [done |]. by eapply (tracks_input_fine spec h n nd) in Hc.
Qed.

Lemma op_scale mul div :
  0 <= mul < 2 ^ 16 -> 0 < div < 2 ^ 16 ->
  <[n := nd <| n_scale := λ m d, m = mul /\ d = div |>]> spec = spec' ->
  exists h' t, clktree_set_scale n mul div h = Done () h' t /\ op_result spec' h h' t.
Proof using Hcl Hcl' Ht Hn.
  intros Hm Hd Hs. destruct (track_scale spec h n nd mul div Ht Hn Hm Hd) as (h' & t & Hrun & Hp & Ht').
  exists h', t. split; [done |]. rewrite Hs in Ht'.
  eapply (propagated_result spec spec'); try done.
  intros c Hc. split; [done |]. by eapply (tracks_input_fine spec h n nd) in Hc.
Qed.

Lemma op_select sel :
  n_src nd = None -> -1 <= sel -> sel + 1 < Z.of_nat (length (n_inputs nd)) -> sel < 2 ^ 31 ->
  <[n := nd <| n_sel := eq sel |>]> spec = spec' ->
  exists h' t, clktree_set_selected_input n sel h = Done () h' t /\ op_result spec' h h' t.
Proof using Hcl Hcl' Ht Hn.
  intros Hsrc Hlo Hhi H31 Hs.
  destruct (track_select spec h n nd sel Ht Hn Hsrc Hlo Hhi H31) as (h' & t & Hrun & Hp & Ht').
  exists h', t. split; [done |]. rewrite Hs in Ht'.
  eapply (propagated_result spec spec'); try done.
  intros c Hc. split; [done |]. cbn. unfold selected_freq.
  destruct (clktree_get_input_clk (c <| selected_input := sel |>)) as [p |] eqn:Hp'; [| right; by left].
  destruct (tracks_lookup _ _ _ _ Ht Hn) as (c0 & Hc0 & Himpl). assert (c0 = c) as -> by congruence.
  apply selected_elem in Hp'. change (Some p ∈ input c) in Hp'. rewrite (impl_inputs _ _ Himpl) in Hp'.
  destruct (h !! p) as [pc |] eqn:Hpc; [| right; by left]. right; right. exists p.
  split; [done |]. cbn. by apply (tracks_within spec h Hcl Ht).
Qed.

End Ops.

End Closed.
