(* ===== verification/Rcc.v ===== *)
(** * Reset and clock control ([hw/arm/stm32_rcc.c])

    The RCC owns the clock tree: its registers select, scale and enable clocks.
    The state is the structure [Stm32Rcc] together with the heap of clocks
    ([tree]) and the two global SysTick scales, which the RCC alone writes.
    [clk] runs an operation of the clock tree and then delivers the
    notifications it produced: the user [HCLK_UPD] of the clock HCLK is the
    RCC's own [stm32_rcc_hclk_upd_irq_handler], the other users are the
    interrupt lines of the peripherals and appear in the trace. *)

From S2P Require Import Prelude Stm32 Clktree Clkspec.
From stdpp Require Import strings.
Open Scope Z_scope.

(** ** Registers *)

Definition HSI_FREQ : Z := 8000000.
Definition LSI_FREQ : Z := 40000.
Definition RCC_CR_OFFSET : Z := 0x00.
Definition RCC_CR_PLLRDY_BIT : Z := 25.
Definition RCC_CR_PLLON_BIT : Z := 24.
Definition RCC_CR_HSERDY_BIT : Z := 17.
Definition RCC_CR_HSEON_BIT : Z := 16.
Definition RCC_CR_HSIRDY_BIT : Z := 1.
Definition RCC_CR_HSION_BIT : Z := 0.
Definition RCC_CFGR_OFFSET : Z := 0x04.
Definition RCC_CFGR_PLLMUL_START : Z := 18.
Definition RCC_CFGR_PLLMUL_LENGTH : Z := 4.
Definition RCC_CFGR_PLLXTPRE_BIT : Z := 17.
Definition RCC_CFGR_PLLSRC_BIT : Z := 16.
Definition RCC_CFGR_PPRE2_START : Z := 11.
Definition RCC_CFGR_PPRE2_MASK : Z := 0x00003c00.
Definition RCC_CFGR_PPRE1_START : Z := 8.
Definition RCC_CFGR_PPRE1_MASK : Z := 0x00000700.
Definition RCC_CFGR_HPRE_START : Z := 4.
Definition RCC_CFGR_HPRE_MASK : Z := 0x000000f0.
Definition RCC_CFGR_SWS_START : Z := 2.
Definition RCC_CFGR_SW_START : Z := 0.
Definition RCC_CFGR_SW_MASK : Z := 0x00000003.
Definition RCC_CIR_OFFSET : Z := 0x08.
Definition RCC_APB2RSTR_OFFSET : Z := 0x0c.
Definition RCC_APB1RSTR_OFFSET : Z := 0x10.
Definition RCC_AHBENR_OFFSET : Z := 0x14.
Definition RCC_AHBENR_DMA1EN_BIT : Z := 1.
Definition RCC_AHBENR_CRCEN_BIT : Z := 64.
Definition RCC_APB2ENR_OFFSET : Z := 0x18.
Definition RCC_APB2ENR_USART1EN_BIT : Z := 14.
Definition RCC_APB2ENR_TIM8EN_BIT : Z := 13.
Definition RCC_APB2ENR_TIM1EN_BIT : Z := 11.
Definition RCC_APB2ENR_ADC1EN_BIT : Z := 9.
Definition RCC_APB2ENR_IOPGEN_BIT : Z := 8.
Definition RCC_APB2ENR_IOPFEN_BIT : Z := 7.
Definition RCC_APB2ENR_IOPEEN_BIT : Z := 6.
Definition RCC_APB2ENR_IOPDEN_BIT : Z := 5.
Definition RCC_APB2ENR_IOPCEN_BIT : Z := 4.
Definition RCC_APB2ENR_IOPBEN_BIT : Z := 3.
Definition RCC_APB2ENR_IOPAEN_BIT : Z := 2.
Definition RCC_APB2ENR_AFIOEN_BIT : Z := 0.
Definition RCC_APB1ENR_OFFSET : Z := 0x1c.
Definition RCC_APB1ENR_USART5EN_BIT : Z := 20.
Definition RCC_APB1ENR_USART4EN_BIT : Z := 19.
Definition RCC_APB1ENR_USART3EN_BIT : Z := 18.
Definition RCC_APB1ENR_USART2EN_BIT : Z := 17.
Definition RCC_APB1ENR_TIM7EN_BIT : Z := 5.
Definition RCC_APB1ENR_TIM6EN_BIT : Z := 4.
Definition RCC_APB1ENR_TIM5EN_BIT : Z := 3.
Definition RCC_APB1ENR_TIM4EN_BIT : Z := 2.
Definition RCC_APB1ENR_TIM3EN_BIT : Z := 1.
Definition RCC_APB1ENR_TIM2EN_BIT : Z := 0.
Definition RCC_BDCR_OFFSET : Z := 0x20.
Definition RCC_BDCR_RTCEN_BIT : Z := 15.
Definition RCC_BDCR_RTCSEL_START : Z := 8.
Definition RCC_BDCR_RTCSEL_MASK : Z := 0x00000300.
Definition RCC_BDCR_LSERDY_BIT : Z := 1.
Definition RCC_BDCR_LSEON_BIT : Z := 0.
Definition RCC_CSR_OFFSET : Z := 0x24.
Definition RCC_CSR_LPWRRSTF_BIT : Z := 31.
Definition RCC_CSR_WWDGRSTF_BIT : Z := 30.
Definition RCC_CSR_IWDGRSTF_BIT : Z := 29.
Definition RCC_CSR_LSIRDY_BIT : Z := 1.
Definition RCC_CSR_LSION_BIT : Z := 0.
Definition RCC_AHBRSTR : Z := 0x28.
Definition RCC_CFGR2_OFFSET : Z := 0x2c.
Definition PLLSRC_HSI_SELECTED : Z := 0.
Definition PLLSRC_HSE_SELECTED : Z := 1.
Definition SW_HSI_SELECTED : Z := 0.
Definition SW_HSE_SELECTED : Z := 1.
Definition SW_PLL_SELECTED : Z := 2.

(** ** State *)

Record Stm32Rcc : Type := mkRcc {
  osc_freq : Z;
  osc32_freq : Z;
  RCC_APB1ENR : Z;
  RCC_APB2ENR : Z;
  RCC_AHBENR : Z;
  RCC_CFGR_PLLMUL : Z;
  RCC_CFGR_PLLXTPRE : Z;
  RCC_CFGR_PLLSRC : Z;
  RCC_CFGR_PPRE1 : Z;
  RCC_CFGR_PPRE2 : Z;
  RCC_CFGR_HPRE : Z;
  RCC_CFGR_SW : Z;
  RTC_SEL : Z;
  RCC_CSR_LPWRRSTFb : bool;
  RCC_CSR_WWDGRSTFb : bool;
  RCC_CSR_IWDGRSTFb : bool;
  HSICLK : option clkptr;
  HSECLK : option clkptr;
  LSECLK : option clkptr;
  LSICLK : option clkptr;
  SYSCLK : option clkptr;
  PLLXTPRECLK : option clkptr;
  PLLCLK : option clkptr;
  HCLK : option clkptr;
  PCLK1 : option clkptr;
  PCLK2 : option clkptr;
  HSE_DIV128 : option clkptr;
  PERIPHCLK : list (option clkptr);
  tree : heap;
  system_clock_scale : Z;
  external_ref_clock_scale : Z
}.

#[export] Instance Stm32Rcc_settable : Settable Stm32Rcc := λ s,
  mkRcc (osc_freq s) (osc32_freq s) (RCC_APB1ENR s) (RCC_APB2ENR s) (RCC_AHBENR s)
    (RCC_CFGR_PLLMUL s) (RCC_CFGR_PLLXTPRE s) (RCC_CFGR_PLLSRC s) (RCC_CFGR_PPRE1 s)
    (RCC_CFGR_PPRE2 s) (RCC_CFGR_HPRE s) (RCC_CFGR_SW s) (RTC_SEL s)
    (RCC_CSR_LPWRRSTFb s) (RCC_CSR_WWDGRSTFb s) (RCC_CSR_IWDGRSTFb s)
    (HSICLK s) (HSECLK s) (LSECLK s) (LSICLK s) (SYSCLK s) (PLLXTPRECLK s) (PLLCLK s)
    (HCLK s) (PCLK1 s) (PCLK2 s) (HSE_DIV128 s) (PERIPHCLK s) (tree s)
    (system_clock_scale s) (external_ref_clock_scale s).

(** The structure as the object system allocates it: zeroed, with the two
    oscillator frequencies set from the board's properties. *)
Definition rcc_zero (osc osc32 : Z) : Stm32Rcc :=
  mkRcc osc osc32 0 0 0 0 0 0 0 0 0 0 0 false false false
    None None None None None None None None None None None [] [] 0 0.

Inductive rcc_event : Type :=
  | Clock (e : clk_event)
  | Diag (d : diag).

Abbreviation RccM := (M rcc_event Stm32Rcc).

(** ** The clock tree under the RCC *)

(** The user number of the RCC's own handler. *)
Definition HCLK_UPD : Z := -1.

Definition get_ticks_per_sec : Z := 1000000000.

(** The handler reads the output of HCLK, which is the announced frequency. *)
Definition stm32_rcc_hclk_upd_irq_handler (hclk_freq : Z) : RccM unit :=
  if 0 <? hclk_freq then
    let ext_ref_freq := hclk_freq / 8 in
    modify (λ s, s <| system_clock_scale := get_ticks_per_sec / hclk_freq |>) ;;
    if ext_ref_freq =? 0 then halt DivByZero
    else modify (λ s, s <| external_ref_clock_scale := get_ticks_per_sec / ext_ref_freq |>)
  else mret ().

Definition deliver (e : clk_event) : RccM unit :=
  match e with
  | Notify u f => when (u =? HCLK_UPD) (stm32_rcc_hclk_upd_irq_handler f)
  | ExceedsMax _ => mret ()
  end ;;
  emit (Clock e).

Definition clk {A} (m : ClkM A) : RccM A := λ s,
  match m (tree s) with
  | Halt f => Halt f
  | Done a h t => (for_each t deliver ;; mret a) (s <| tree := h |>)
  end.

(** A pointer of the structure, which is not NULL once the tree is built. *)
Definition deref (p : Stm32Rcc → option clkptr) : RccM clkptr :=
  o ← gets p;
  match o with Some c => mret c | None => halt NullPointer end.

Definition periph_clk (periph : Z) (s : Stm32Rcc) : option clkptr :=
  default None (PERIPHCLK s !! Z.to_nat periph).

Definition is_enabled (p : Stm32Rcc → option clkptr) : RccM bool :=
  c ← deref p; clk (clktree_is_enabled c).
Definition set_enabled (p : Stm32Rcc → option clkptr) (en : bool) : RccM unit :=
  c ← deref p; clk (clktree_set_enabled c en).
Definition set_scale (p : Stm32Rcc → option clkptr) (mul div : Z) : RccM unit :=
  c ← deref p; clk (clktree_set_scale c mul div).
Definition set_selected_input (p : Stm32Rcc → option clkptr) (sel : Z) : RccM unit :=
  c ← deref p; clk (clktree_set_selected_input c sel).

Definition hw_warn : RccM unit := emit (Diag HwWarn).

(** ** Register implementation *)

(** [BIT(nr)] shifts an [unsigned long]; at [nr = 64] the shift is undefined
    in C, and [bit64] stands for the value the compiled program yields. *)
Section BitSixtyFour.
  Context (bit64 : Z).

Definition periph_bit (bit_pos : Z) : Z := if bit_pos <? 64 then BIT bit_pos else bit64.

Definition stm32_rcc_periph_enable (new_value : Z) (init : bool) (periph bit_pos : Z) : RccM unit :=
  set_enabled (periph_clk periph) (cbool (new_value .& periph_bit bit_pos)).

Definition stm32_rcc_RCC_CR_read : RccM Z :=
  pll ← is_enabled PLLCLK;
  hse ← is_enabled HSECLK;
  hsi ← is_enabled HSICLK;
  let pllon_bit := b2z pll in
  let hseon_bit := b2z hse in
  let hsion_bit := b2z hsi in
  mret (pllon_bit << RCC_CR_PLLRDY_BIT .|
        pllon_bit << RCC_CR_PLLON_BIT .|
        hseon_bit << RCC_CR_HSERDY_BIT .|
        hseon_bit << RCC_CR_HSEON_BIT .|
        hsion_bit << RCC_CR_HSIRDY_BIT .|
        hsion_bit << RCC_CR_HSION_BIT).

Definition stm32_rcc_RCC_CR_write (new_value : Z) (init : bool) : RccM unit :=
  let new_pllon := cbool (new_value .& BIT RCC_CR_PLLON_BIT) in
  pll ← is_enabled PLLCLK;
  s ← get;
  when (pll && negb new_pllon && (RCC_CFGR_SW s =? SW_PLL_SELECTED)) hw_warn ;;
  set_enabled PLLCLK new_pllon ;;
  let new_hseon := cbool (new_value .& BIT RCC_CR_HSEON_BIT) in
  hse ← is_enabled HSECLK;
  s ← get;
  when (hse && negb new_hseon &&
        ((RCC_CFGR_SW s =? SW_HSE_SELECTED) ||
         ((RCC_CFGR_SW s =? SW_PLL_SELECTED) && (RCC_CFGR_PLLSRC s =? PLLSRC_HSE_SELECTED)))) hw_warn ;;
  set_enabled HSECLK new_hseon ;;
  let new_hsion := cbool (new_value .& BIT RCC_CR_HSION_BIT) in
  hsi ← is_enabled HSICLK;
  s ← get;
  when (hsi && negb new_hsion &&
        ((RCC_CFGR_SW s =? SW_HSI_SELECTED) ||
         ((RCC_CFGR_SW s =? SW_PLL_SELECTED) && (RCC_CFGR_PLLSRC s =? PLLSRC_HSI_SELECTED)))) hw_warn ;;
  set_enabled HSICLK new_hsion.

Definition stm32_rcc_RCC_CFGR_read : RccM Z :=
  s ← get;
  mret (u32 (RCC_CFGR_PLLMUL s << RCC_CFGR_PLLMUL_START) .|
        u32 (RCC_CFGR_PLLXTPRE s << RCC_CFGR_PLLXTPRE_BIT) .|
        u32 (RCC_CFGR_PLLSRC s << RCC_CFGR_PLLSRC_BIT) .|
        u32 (RCC_CFGR_PPRE2 s << RCC_CFGR_PPRE2_START) .|
        u32 (RCC_CFGR_PPRE1 s << RCC_CFGR_PPRE1_START) .|
        u32 (RCC_CFGR_HPRE s << RCC_CFGR_HPRE_START) .|
        u32 (RCC_CFGR_SW s << RCC_CFGR_SW_START) .|
        u32 (RCC_CFGR_SW s << RCC_CFGR_SWS_START)).

(** The warning about a PLL setting that changes while the PLL is enabled. *)
Definition warn_pll (init : bool) (field : Stm32Rcc → Z) (new : Z) : RccM unit :=
  if init then mret () else
  pll ← is_enabled PLLCLK;
  s ← get;
  when (pll && negb (new =? field s)) hw_warn.

(** The PLL fields of CFGR: PLLMUL, PLLXTPRE and PLLSRC. *)
Definition cfgr_write_pll (new_value : Z) (init : bool) : RccM unit :=
  let new_PLLMUL := extract32 new_value RCC_CFGR_PLLMUL_START RCC_CFGR_PLLMUL_LENGTH in
  warn_pll init RCC_CFGR_PLLMUL new_PLLMUL ;;
  assert_ (new_PLLMUL <=? 0xf) ;;
  (if new_PLLMUL =? 0xf then set_scale PLLCLK 16 1
   else set_scale PLLCLK (new_PLLMUL + 2) 1) ;;
  modify (λ s, s <| RCC_CFGR_PLLMUL := new_PLLMUL |>) ;;
  let new_PLLXTPRE := extract32 new_value RCC_CFGR_PLLXTPRE_BIT 1 in
  warn_pll init RCC_CFGR_PLLXTPRE new_PLLXTPRE ;;
  set_selected_input PLLXTPRECLK new_PLLXTPRE ;;
  modify (λ s, s <| RCC_CFGR_PLLXTPRE := new_PLLXTPRE |>) ;;
  let new_PLLSRC := extract32 new_value RCC_CFGR_PLLSRC_BIT 1 in
  warn_pll init RCC_CFGR_PLLSRC new_PLLSRC ;;
  set_selected_input PLLCLK new_PLLSRC ;;
  modify (λ s, s <| RCC_CFGR_PLLSRC := new_PLLSRC |>).

(** The prescaler fields PPRE2, PPRE1 and HPRE. *)
Definition cfgr_write_prescalers (new_value : Z) : RccM unit :=
  let ppre2 := (new_value .& RCC_CFGR_PPRE2_MASK) >> RCC_CFGR_PPRE2_START in
  modify (λ s, s <| RCC_CFGR_PPRE2 := ppre2 |>) ;;
  (if ppre2 <? 4 then set_scale PCLK2 1 1 else set_scale PCLK2 1 (2 * (ppre2 - 3))) ;;
  let ppre1 := (new_value .& RCC_CFGR_PPRE1_MASK) >> RCC_CFGR_PPRE1_START in
  modify (λ s, s <| RCC_CFGR_PPRE1 := ppre1 |>) ;;
  (if ppre1 <? 4 then set_scale PCLK1 1 1 else set_scale PCLK1 1 (2 * (ppre1 - 3))) ;;
  let hpre := (new_value .& RCC_CFGR_HPRE_MASK) >> RCC_CFGR_HPRE_START in
  modify (λ s, s <| RCC_CFGR_HPRE := hpre |>) ;;
  if hpre <? 8 then set_scale HCLK 1 1 else set_scale HCLK 1 (2 * (hpre - 7)).

(** The system clock switch. *)
Definition cfgr_write_sw (new_value : Z) : RccM unit :=
  let sw := (new_value .& RCC_CFGR_SW_MASK) >> RCC_CFGR_SW_START in
  modify (λ s, s <| RCC_CFGR_SW := sw |>) ;;
  if (sw =? 0) || (sw =? 1) || (sw =? 2) then set_selected_input SYSCLK sw
  else halt HwError.

Definition stm32_rcc_RCC_CFGR_write (new_value : Z) (init : bool) : RccM unit :=
  cfgr_write_pll new_value init ;;
  cfgr_write_prescalers new_value ;;
  cfgr_write_sw new_value.

Definition stm32_rcc_RCC_APB2ENR_write (new_value : Z) (init : bool) : RccM unit :=
  stm32_rcc_periph_enable new_value init STM32_ADC1 RCC_APB2ENR_ADC1EN_BIT ;;
  stm32_rcc_periph_enable new_value init STM32_UART1 RCC_APB2ENR_USART1EN_BIT ;;
  stm32_rcc_periph_enable new_value init STM32_GPIOE RCC_APB2ENR_IOPEEN_BIT ;;
  stm32_rcc_periph_enable new_value init STM32_GPIOD RCC_APB2ENR_IOPDEN_BIT ;;
  stm32_rcc_periph_enable new_value init STM32_GPIOC RCC_APB2ENR_IOPCEN_BIT ;;
  stm32_rcc_periph_enable new_value init STM32_GPIOB RCC_APB2ENR_IOPBEN_BIT ;;
  stm32_rcc_periph_enable new_value init STM32_GPIOA RCC_APB2ENR_IOPAEN_BIT ;;
  stm32_rcc_periph_enable new_value init STM32_AFIO_PERIPH RCC_APB2ENR_AFIOEN_BIT ;;
  stm32_rcc_periph_enable new_value init STM32_GPIOG RCC_APB2ENR_IOPGEN_BIT ;;
  stm32_rcc_periph_enable new_value init STM32_GPIOF RCC_APB2ENR_IOPFEN_BIT ;;
  stm32_rcc_periph_enable new_value init STM32_TIM1 RCC_APB2ENR_TIM1EN_BIT ;;
  stm32_rcc_periph_enable new_value init STM32_TIM8 RCC_APB2ENR_TIM8EN_BIT ;;
  modify (λ s, s <| RCC_APB2ENR := new_value .& 0x0000fffd |>).

Definition stm32_rcc_RCC_AHBENR_write (new_value : Z) (init : bool) : RccM unit :=
  stm32_rcc_periph_enable new_value init STM32_CRC RCC_AHBENR_CRCEN_BIT ;;
  stm32_rcc_periph_enable new_value init STM32_DMA1 RCC_AHBENR_DMA1EN_BIT ;;
  modify (λ s, s <| RCC_AHBENR := new_value .& 0x0000fffd |>).

Definition stm32_rcc_RCC_APB1ENR_write (new_value : Z) (init : bool) : RccM unit :=
  stm32_rcc_periph_enable new_value init STM32_UART5 RCC_APB1ENR_USART5EN_BIT ;;
  stm32_rcc_periph_enable new_value init STM32_UART4 RCC_APB1ENR_USART4EN_BIT ;;
  stm32_rcc_periph_enable new_value init STM32_UART3 RCC_APB1ENR_USART3EN_BIT ;;
  stm32_rcc_periph_enable new_value init STM32_UART2 RCC_APB1ENR_USART2EN_BIT ;;
  stm32_rcc_periph_enable new_value init STM32_TIM2 RCC_APB1ENR_TIM2EN_BIT ;;
  stm32_rcc_periph_enable new_value init STM32_TIM3 RCC_APB1ENR_TIM3EN_BIT ;;
  stm32_rcc_periph_enable new_value init STM32_TIM4 RCC_APB1ENR_TIM4EN_BIT ;;
  stm32_rcc_periph_enable new_value init STM32_TIM5 RCC_APB1ENR_TIM5EN_BIT ;;
  stm32_rcc_periph_enable new_value init STM32_TIM6 RCC_APB1ENR_TIM6EN_BIT ;;
  stm32_rcc_periph_enable new_value init STM32_TIM7 RCC_APB1ENR_TIM7EN_BIT ;;
  modify (λ s, s <| RCC_APB1ENR := new_value .& 0x00005e7d |>).

Definition stm32_rcc_RCC_BDCR_read : RccM Z :=
  lse ← is_enabled LSECLK;
  rtc ← is_enabled (periph_clk STM32_RTC);
  s ← get;
  let lseon_bit := b2z lse in
  let RTCEN_bit := b2z rtc in
  mret (lseon_bit << RCC_BDCR_LSERDY_BIT .|
        lseon_bit << RCC_BDCR_LSEON_BIT .|
        u32 (RTC_SEL s << RCC_BDCR_RTCSEL_START) .|
        RTCEN_bit << RCC_BDCR_RTCEN_BIT).

Definition stm32_rcc_RCC_BDCR_write (new_value : Z) (init : bool) : RccM unit :=
  set_enabled LSECLK (cbool (new_value .& BIT RCC_BDCR_LSEON_BIT)) ;;
  let sel := (new_value .& RCC_BDCR_RTCSEL_MASK) >> RCC_BDCR_RTCSEL_START in
  modify (λ s, s <| RTC_SEL := sel |>) ;;
  set_selected_input (periph_clk STM32_RTC) (sel - 1) ;;
  when (cbool sel)
    (set_enabled (periph_clk STM32_RTC) (cbool ((new_value >> RCC_BDCR_RTCEN_BIT) .& 0x01))).

Definition stm32_rcc_RCC_CSR_read : RccM Z :=
  lsi ← is_enabled LSICLK;
  s ← get;
  let lseon_bit := b2z lsi in
  let iwdg_flag := b2z (RCC_CSR_IWDGRSTFb s) in
  mret (lseon_bit << RCC_CSR_LSIRDY_BIT .|
        lseon_bit << RCC_CSR_LSION_BIT .|
        iwdg_flag << RCC_CSR_IWDGRSTF_BIT).

Definition stm32_rcc_RCC_CSR_write (new_value : Z) (init : bool) : RccM unit :=
  set_enabled LSICLK (cbool (new_value .& BIT RCC_CSR_LSION_BIT)).

Definition not_impl_read : RccM Z := emit (Diag NotImplReg) ;; mret 0.

Definition stm32_rcc_readw (offset : Z) : RccM Z :=
  if offset =? RCC_CR_OFFSET then stm32_rcc_RCC_CR_read
  else if offset =? RCC_CFGR_OFFSET then stm32_rcc_RCC_CFGR_read
  else if offset =? RCC_CIR_OFFSET then mret 0
  else if offset =? RCC_APB2RSTR_OFFSET then not_impl_read
  else if offset =? RCC_APB1RSTR_OFFSET then not_impl_read
  else if offset =? RCC_AHBENR_OFFSET then gets RCC_AHBENR
  else if offset =? RCC_APB2ENR_OFFSET then gets RCC_APB2ENR
  else if offset =? RCC_APB1ENR_OFFSET then gets RCC_APB1ENR
  else if offset =? RCC_BDCR_OFFSET then stm32_rcc_RCC_BDCR_read
  else if offset =? RCC_CSR_OFFSET then stm32_rcc_RCC_CSR_read
  else if offset =? RCC_AHBRSTR then not_impl_read
  else if offset =? RCC_CFGR2_OFFSET then not_impl_read
  else emit (Diag BadReg) ;; mret 0.

(** The 64-bit value of the bus is narrowed by the register functions. *)
Definition stm32_rcc_writew (offset value : Z) : RccM unit :=
  if offset =? RCC_CR_OFFSET then stm32_rcc_RCC_CR_write (u32 value) false
  else if offset =? RCC_CFGR_OFFSET then stm32_rcc_RCC_CFGR_write (u32 value) false
  else if offset =? RCC_CIR_OFFSET then mret ()
  else if offset =? RCC_APB2RSTR_OFFSET then emit (Diag NotImplReg)
  else if offset =? RCC_APB1RSTR_OFFSET then emit (Diag NotImplReg)
  else if offset =? RCC_AHBENR_OFFSET then stm32_rcc_RCC_AHBENR_write (u32 value) false
  else if offset =? RCC_APB2ENR_OFFSET then stm32_rcc_RCC_APB2ENR_write (u32 value) false
  else if offset =? RCC_APB1ENR_OFFSET then stm32_rcc_RCC_APB1ENR_write (u32 value) false
  else if offset =? RCC_BDCR_OFFSET then stm32_rcc_RCC_BDCR_write (u32 value) false
  else if offset =? RCC_CSR_OFFSET then stm32_rcc_RCC_CSR_write (u32 value) false
  else if offset =? RCC_AHBRSTR then emit (Diag NotImplReg)
  else if offset =? RCC_CFGR2_OFFSET then emit (Diag NotImplReg)
  else emit (Diag BadReg).

Definition stm32_rcc_read (offset size : Z) : RccM Z :=
  if size =? 4 then stm32_rcc_readw offset else not_impl_read.

Definition stm32_rcc_write (offset value size : Z) : RccM unit :=
  if size =? 4 then stm32_rcc_writew offset value else emit (Diag NotImplReg).

Definition stm32_rcc_reset : RccM unit :=
  stm32_rcc_RCC_CR_write 0x00000083 true ;;
  stm32_rcc_RCC_CFGR_write 0x00000000 true ;;
  stm32_rcc_RCC_APB2ENR_write 0x00000000 true ;;
  stm32_rcc_RCC_APB1ENR_write 0x00000000 true ;;
  stm32_rcc_RCC_AHBENR_write 0x00000000 true ;;
  stm32_rcc_RCC_BDCR_write 0x00000000 true ;;
  stm32_rcc_RCC_CSR_write 0x0c000000 true.

End BitSixtyFour.

(** ** Public functions *)

(** [PERIPHCLK[periph]] with the assertion that the clock exists. *)
Definition periph_clk_checked (periph : Z) : RccM clkptr :=
  o ← gets (periph_clk periph);
  match o with Some c => mret c | None => halt AssertFailed end.

Definition stm32_rcc_check_periph_clk (periph : Z) : RccM unit :=
  c ← periph_clk_checked periph;
  en ← clk (clktree_is_enabled c);
  when (negb en) hw_warn.

Definition stm32_rcc_set_periph_clk_irq (periph periph_irq : Z) : RccM unit :=
  c ← periph_clk_checked periph;
  clk (clktree_adduser c periph_irq).

Definition stm32_rcc_get_periph_freq (periph : Z) : RccM Z :=
  c ← periph_clk_checked periph;
  clk (clktree_get_output_freq c).

Definition stm32_RCC_CSR_write (new_value : Z) (init : bool) : RccM unit :=
  modify (λ s, s <| RCC_CSR_LPWRRSTFb := cbool (new_value >> RCC_CSR_LPWRRSTF_BIT) |>
                 <| RCC_CSR_WWDGRSTFb := cbool (new_value >> RCC_CSR_WWDGRSTF_BIT) |>
                 <| RCC_CSR_IWDGRSTFb := cbool (new_value >> RCC_CSR_IWDGRSTF_BIT) |>).

(** ** Initialisation *)

(** Create a clock with one input and store it in [PERIPHCLK[periph]]. *)
Definition create_periph (periph : Z) (nm : string) (input : clkptr) : RccM unit :=
  c ← clk (clktree_create_clk nm 1 1 false CLKTREE_NO_MAX_FREQ 0 [input]);
  modify (λ s, s <| PERIPHCLK := <[Z.to_nat periph := Some c]> (PERIPHCLK s) |>).

Definition stm32_rcc_init_clk : RccM unit :=
  modify (λ s, s <| PERIPHCLK := replicate (Z.to_nat STM32_PERIPH_COUNT) None |>) ;;
  hsi ← clk (clktree_create_src_clk "HSI" HSI_FREQ false);
  modify (λ s, s <| HSICLK := Some hsi |>) ;;
  lsi ← clk (clktree_create_src_clk "LSI" LSI_FREQ false);
  modify (λ s, s <| LSICLK := Some lsi |>) ;;
  osc ← gets osc_freq;
  hse ← clk (clktree_create_src_clk "HSE" osc false);
  modify (λ s, s <| HSECLK := Some hse |>) ;;
  osc32 ← gets osc32_freq;
  lse ← clk (clktree_create_src_clk "LSE" osc32 false);
  modify (λ s, s <| LSECLK := Some lse |>) ;;
  hse_div128 ← clk (clktree_create_clk "HSE/128" 1 128 true CLKTREE_NO_MAX_FREQ 0 [hse]);
  modify (λ s, s <| HSE_DIV128 := Some hse_div128 |>) ;;
  hsi_div2 ← clk (clktree_create_clk "HSI/2" 1 2 true CLKTREE_NO_MAX_FREQ 0 [hsi]);
  hse_div2 ← clk (clktree_create_clk "HSE/2" 1 2 true CLKTREE_NO_MAX_FREQ 0 [hse]);
  pllxtpre ← clk (clktree_create_clk "PLLXTPRE" 1 1 true CLKTREE_NO_MAX_FREQ CLKTREE_NO_INPUT [hse; hse_div2]);
  modify (λ s, s <| PLLXTPRECLK := Some pllxtpre |>) ;;
  pll ← clk (clktree_create_clk "PLLCLK" 0 1 false 72000000 CLKTREE_NO_INPUT [hsi_div2; pllxtpre]);
  modify (λ s, s <| PLLCLK := Some pll |>) ;;
  sys ← clk (clktree_create_clk "SYSCLK" 1 1 true 72000000 CLKTREE_NO_INPUT [hsi; hse; pll]);
  modify (λ s, s <| SYSCLK := Some sys |>) ;;
  hclk ← clk (clktree_create_clk "HCLK" 0 1 true 72000000 0 [sys]);
  modify (λ s, s <| HCLK := Some hclk |>) ;;
  clk (clktree_adduser hclk HCLK_UPD) ;;
  pclk1 ← clk (clktree_create_clk "PCLK1" 0 1 true 36000000 0 [hclk]);
  modify (λ s, s <| PCLK1 := Some pclk1 |>) ;;
  pclk2 ← clk (clktree_create_clk "PCLK2" 0 1 true 72000000 0 [hclk]);
  modify (λ s, s <| PCLK2 := Some pclk2 |>) ;;
  create_periph STM32_GPIOA "GPIOA" pclk2 ;;
  create_periph STM32_GPIOB "GPIOB" pclk2 ;;
  create_periph STM32_GPIOC "GPIOC" pclk2 ;;
  create_periph STM32_GPIOD "GPIOD" pclk2 ;;
  create_periph STM32_GPIOE "GPIOE" pclk2 ;;
  create_periph STM32_GPIOF "GPIOF" pclk2 ;;
  create_periph STM32_GPIOG "GPIOG" pclk2 ;;
  create_periph STM32_AFIO_PERIPH "AFIO" pclk2 ;;
  create_periph STM32_UART1 "UART1" pclk2 ;;
  create_periph STM32_UART2 "UART2" pclk1 ;;
  create_periph STM32_UART3 "UART3" pclk1 ;;
  create_periph STM32_UART4 "UART4" pclk1 ;;
  create_periph STM32_UART5 "UART5" pclk1 ;;
  create_periph STM32_TIM1 "TIM1" pclk2 ;;
  create_periph STM32_TIM2 "TIM2" pclk1 ;;
  create_periph STM32_TIM3 "TIM3" pclk1 ;;
  create_periph STM32_TIM4 "TIM4" pclk1 ;;
  create_periph STM32_TIM5 "TIM5" pclk1 ;;
  create_periph STM32_TIM6 "TIM6" pclk1 ;;
  create_periph STM32_TIM7 "TIM7" pclk1 ;;
  create_periph STM32_TIM8 "TIM8" pclk2 ;;
  create_periph STM32_ADC1 "ADC1" pclk2 ;;
  rtc ← clk (clktree_create_clk "RTC" 1 1 false CLKTREE_NO_MAX_FREQ (-1) [lse; lsi; hse_div128]);
  modify (λ s, s <| PERIPHCLK := <[Z.to_nat STM32_RTC := Some rtc]> (PERIPHCLK s) |>) ;;
  create_periph STM32_DAC "DAC" pclk1 ;;
  create_periph STM32_CRC "CRC" hclk ;;
  create_periph STM32_DMA1 "DMA1" hclk.

(** The device after [stm32_rcc_init] and the reset that follows it. *)
Definition rcc_start (bit64 osc osc32 : Z) : outcome rcc_event Stm32Rcc unit :=
  (stm32_rcc_init_clk ;; stm32_rcc_reset bit64) (rcc_zero osc osc32).

(** ** The abstract configuration

    What the registers determine about the tree: which clocks are on, the
    scale of the PLL and of the three bus prescalers, and the selections of
    the four multiplexers.  [rcc_spec] is the tree of [stm32_rcc_init_clk]
    in that configuration; the clocks are numbered in order of creation. *)

Record conf : Type := mkConf {
  k_on : clkptr → bool;
  k_pll : Z * Z;
  k_hclk : Z * Z;
  k_pclk1 : Z * Z;
  k_pclk2 : Z * Z;
  k_xtpre : Z;
  k_pllsrc : Z;
  k_sw : Z;
  k_rtcsel : Z
}.

#[export] Instance conf_settable : Settable conf := λ k,
  mkConf (k_on k) (k_pll k) (k_hclk k) (k_pclk1 k) (k_pclk2 k) (k_xtpre k) (k_pllsrc k)
    (k_sw k) (k_rtcsel k).

Definition turn (n : clkptr) (en : bool) (k : conf) : conf :=
  k <| k_on := λ i, if (i =? n)%nat then en else k_on k i |>.

Definition iHSI : clkptr := 0.
Definition iLSI : clkptr := 1.
Definition iHSE : clkptr := 2.
Definition iLSE : clkptr := 3.
Definition iHSE128 : clkptr := 4.
Definition iHSI2 : clkptr := 5.
Definition iHSE2 : clkptr := 6.
Definition iXTPRE : clkptr := 7.
Definition iPLL : clkptr := 8.
Definition iSYS : clkptr := 9.
Definition iHCLK : clkptr := 10.
Definition iPCLK1 : clkptr := 11.
Definition iPCLK2 : clkptr := 12.
Definition iRTC : clkptr := 35.

Definition src_node (on : bool) (outs : list clkptr) (f : Z) : node :=
  mkNode [None] outs (eq on) (λ m d, m = 1 /\ d = 1) (eq (-1)) (Some f).

Definition mux_node (on : bool) (ins outs : list clkptr) (sc : Z * Z) (sel : Z) : node :=
  mkNode (None :: (Some <$> ins)) outs (eq on) (λ m d, m = sc.1 /\ d = sc.2) (eq sel) None.

Definition rcc_spec (osc osc32 : Z) (k : conf) : list node :=
  [ src_node (k_on k 0%nat) [5; 9]%nat HSI_FREQ;
    src_node (k_on k 1%nat) [35]%nat LSI_FREQ;
    src_node (k_on k 2%nat) [4; 6; 7; 9]%nat osc;
    src_node (k_on k 3%nat) [35]%nat osc32;
    mux_node true [2]%nat [35]%nat (1, 128) 0;
    mux_node true [0]%nat [8]%nat (1, 2) 0;
    mux_node true [2]%nat [7]%nat (1, 2) 0;
    mux_node true [2; 6]%nat [8]%nat (1, 1) (k_xtpre k);
    mux_node (k_on k 8%nat) [5; 7]%nat [9]%nat (k_pll k) (k_pllsrc k);
    mux_node true [0; 2; 8]%nat [10]%nat (1, 1) (k_sw k);
    mux_node true [9]%nat [11; 12; 37; 38]%nat (k_hclk k) 0;
    mux_node true [10]%nat [22; 23; 24; 25; 27; 28; 29; 30; 31; 32; 36]%nat (k_pclk1 k) 0;
    mux_node true [10]%nat [13; 14; 15; 16; 17; 18; 19; 20; 21; 26; 33; 34]%nat (k_pclk2 k) 0 ] ++
  ((λ i, mux_node (k_on k i) [12]%nat [] (1, 1) 0) <$> seq 13 9) ++
  ((λ i, mux_node (k_on k i) [11]%nat [] (1, 1) 0) <$> seq 22 4) ++
  [ mux_node (k_on k 26%nat) [12]%nat [] (1, 1) 0 ] ++
  ((λ i, mux_node (k_on k i) [11]%nat [] (1, 1) 0) <$> seq 27 6) ++
  [ mux_node (k_on k 33%nat) [12]%nat [] (1, 1) 0;
    mux_node (k_on k 34%nat) [12]%nat [] (1, 1) 0;
    mux_node (k_on k 35%nat) [3; 1; 4]%nat [] (1, 1) (k_rtcsel k);
    mux_node (k_on k 36%nat) [11]%nat [] (1, 1) 0;
    mux_node (k_on k 37%nat) [10]%nat [] (1, 1) 0;
    mux_node (k_on k 38%nat) [10]%nat [] (1, 1) 0 ].

(** The scales the registers can produce (and the initial multiplier 0). *)
Definition pll_scales : list (Z * Z) := (λ m, (m, 1)) <$> (0 :: zrange 2 15).
Definition hclk_scales : list (Z * Z) := (0, 1) :: (1, 1) :: ((λ i, (1, 2 * i)) <$> zrange 1 8).
Definition pclk_scales : list (Z * Z) := (0, 1) :: (1, 1) :: ((λ i, (1, 2 * i)) <$> zrange 1 4).

Record conf_ok (k : conf) : Prop := {
  ok_pll : k_pll k ∈ pll_scales;
  ok_hclk : k_hclk k ∈ hclk_scales;
  ok_pclk1 : k_pclk1 k ∈ pclk_scales;
  ok_pclk2 : k_pclk2 k ∈ pclk_scales
}.

(** The oscillators of the board: fast enough that no prescaler reduces a
    clock to nothing, slow enough that the PLL stays below [2 ^ 32]. *)
Definition osc_ok (osc osc32 : Z) : Prop := 256 <= osc < 2 ^ 28 /\ 0 <= osc32 < 2 ^ 32.

(** The intervals of the clocks up to HCLK. *)
Definition rcc_bound (i : clkptr) : Z * Z :=
  match i with
  | 0%nat | 2%nat => (256, 2 ^ 28)
  | 5%nat | 6%nat | 7%nat => (128, 2 ^ 28)
  | 8%nat | 9%nat => (128, 2 ^ 32)
  | 10%nat => (8, 2 ^ 32)
  | _ => (0, 2 ^ 32)
  end.

Definition maps_intob (i o : clkptr) (sc : Z * Z) : bool :=
  (sc.1 =? 0) || bool_decide (rcc_bound o = (0, 2 ^ 32)) ||
  ((snd (rcc_bound i) * sc.1 <=? snd (rcc_bound o) * sc.2) &&
   (fst (rcc_bound o) * sc.2 <=? fst (rcc_bound i) * sc.1)).

Lemma maps_intob_sound i o l :
  forallb (maps_intob i o) l = true -> forall sc, sc ∈ l -> maps_into rcc_bound i o sc.1 sc.2.
Proof.
  intros Hl sc Hsc%list_elem_of_In. rewrite forallb_forall in Hl. specialize (Hl sc Hsc).
  unfold maps_intob in Hl. unfold maps_into.
  rewrite !orb_true_iff, andb_true_iff, bool_decide_eq_true, Z.eqb_eq, !Z.leb_le in Hl. tauto.
Qed.

Lemma rcc_bound_ok i : 0 <= fst (rcc_bound i) /\ snd (rcc_bound i) <= 2 ^ 32.
Proof. do 11 (destruct i as [|i]; [cbn; lia |]). cbn. lia. Qed.

Lemma mux_closed spec i on ins outs sc sel l :
  sc ∈ l -> forallb (λ p, forallb (maps_intob p i) l) ins = true -> ins <> [] ->
  closed_node rcc_bound spec i (mux_node on ins outs sc sel) /\
  (n_src (mux_node on ins outs sc sel) = None -> (1 < length (n_inputs (mux_node on ins outs sc sel)))%nat).
Proof.
  intros Hsc Hall Hne. split; [split |].
  - apply rcc_bound_ok.
  - cbn. intros p m d Hp (-> & ->).
    apply elem_of_cons in Hp as [? | (q & Heq & Hq%list_elem_of_In)%list_elem_of_fmap]; [done |].
    injection Heq as <-. rewrite forallb_forall in Hall. by apply (maps_intob_sound p i l); [apply Hall |].
  - done.
  - intros _. cbn. rewrite length_fmap. destruct ins; [done | cbn; lia].
Qed.

Lemma src_closed spec i on outs f :
  within rcc_bound i f -> 0 <= f < 2 ^ 32 ->
  closed_node rcc_bound spec i (src_node on outs f) /\
  (n_src (src_node on outs f) = None -> (1 < length (n_inputs (src_node on outs f)))%nat).
Proof.
  intros Hw Hf. split; [split |]; [apply rcc_bound_ok | | | done].
  - cbn. intros p m d Hp. set_solver.
  - cbn. intros f' [= <-]. split; [done | split; [done | done]].
Qed.

Lemma rcc_spec_closed osc osc32 k :
  osc_ok osc osc32 -> conf_ok k -> closed rcc_bound (rcc_spec osc osc32 k).
Proof.
  intros [Ho Ho32] [Hpll Hh Hp1 Hp2] i nd Hnd. set (spec := rcc_spec osc osc32 k) in *.
  do 39 (destruct i as [|i]; [injection Hnd as <-;
    first [ apply src_closed; [right; cbn; unfold HSI_FREQ, LSI_FREQ; lia | unfold HSI_FREQ, LSI_FREQ; lia]
          | eapply mux_closed; [eassumption | by vm_compute | done]
          | eapply (mux_closed _ _ _ _ _ _ _ [_]); [apply list_elem_of_singleton; reflexivity | by vm_compute | done] ] |]).
  done.
Qed.

(** ** The state of the RCC in a configuration *)

(** The registers and pointers: everything but the clocks and the scales. *)
Definition regs (s : Stm32Rcc) : Stm32Rcc :=
  s <| tree := [] |> <| system_clock_scale := 0 |> <| external_ref_clock_scale := 0 |>.

Definition rcc_built (osc osc32 : Z) : Stm32Rcc :=
  match stm32_rcc_init_clk (rcc_zero osc osc32) with Done _ s _ => s | Halt _ => rcc_zero osc osc32 end.

Definition periph_table : list (option clkptr) :=
  Eval vm_compute in PERIPHCLK (rcc_built 0 0).

Record ptrs_ok (s : Stm32Rcc) : Prop := {
  p_HSI : HSICLK s = Some iHSI;
  p_LSI : LSICLK s = Some iLSI;
  p_HSE : HSECLK s = Some iHSE;
  p_LSE : LSECLK s = Some iLSE;
  p_XTPRE : PLLXTPRECLK s = Some iXTPRE;
  p_PLL : PLLCLK s = Some iPLL;
  p_SYS : SYSCLK s = Some iSYS;
  p_HCLK : HCLK s = Some iHCLK;
  p_PCLK1 : PCLK1 s = Some iPCLK1;
  p_PCLK2 : PCLK2 s = Some iPCLK2;
  p_periph : PERIPHCLK s = periph_table
}.

Record rcc_at (k : conf) (s : Stm32Rcc) : Prop := {
  at_ptrs : ptrs_ok s;
  at_osc : osc_ok (osc_freq s) (osc32_freq s);
  at_conf : conf_ok k;
  at_tracks : tracks (rcc_spec (osc_freq s) (osc32_freq s) k) (tree s);
  at_users : forall i us, (user <$> tree s) !! i = Some us -> HCLK_UPD ∈ us -> i = iHCLK
}.

(** [rcc_at] depends on the registers and the tree only. *)
Lemma regs_inj_fields (s s' : Stm32Rcc) : regs s' = regs s ->
  s' = s <| tree := tree s' |> <| system_clock_scale := system_clock_scale s' |>
         <| external_ref_clock_scale := external_ref_clock_scale s' |>.
Proof. destruct s, s'. unfold regs, set_field. cbn. intros H. injection H. naive_solver. Qed.

Lemma rcc_at_regs k s s' :
  regs s' = regs s -> tracks (rcc_spec (osc_freq s) (osc32_freq s) k) (tree s') ->
  user <$> tree s' = user <$> tree s -> conf_ok k -> forall k0, rcc_at k0 s -> rcc_at k s'.
Proof.
  intros Hr Ht Hu Hk k0 [[] Hosc _ _ Hus]. apply regs_inj_fields in Hr. rewrite Hr. cbn.
  split; [by split | done | done | done |]. cbn. by rewrite Hu.
Qed.

Lemma hclk_handler_ok f s :
  f = 0 \/ 8 <= f ->
  wp (stm32_rcc_hclk_upd_irq_handler f) (λ _ s' _, tree s' = tree s /\ regs s' = regs s) s.
Proof.
  intros Hf. unfold stm32_rcc_hclk_upd_irq_handler. destruct (Z.ltb_spec 0 f); [| done].
  apply wp_bind. cbn. destruct (Z.eqb_spec (f / 8) 0) as [He |]; [| done].
  exfalso. assert (1 <= f / 8) by (apply Z.div_le_lower_bound; lia). lia.
Qed.

Lemma deliver_ok t s :
  (forall f, Notify HCLK_UPD f ∈ t -> f = 0 \/ 8 <= f) ->
  wp (for_each t deliver) (λ _ s' _, tree s' = tree s /\ regs s' = regs s) s.
Proof.
  revert s. induction t as [|e t IH]; intros s Hall; [done |]. cbn. apply wp_bind.
  assert (He : wp (deliver e) (λ _ s' _, tree s' = tree s /\ regs s' = regs s) s).
  { destruct e as [u f | c]; [| done]. unfold deliver. apply wp_bind. unfold when.
    destruct (Z.eqb_spec u HCLK_UPD) as [-> |]; [| done].
    eapply wp_mono; [apply hclk_handler_ok, Hall; set_solver | done]. }
  eapply wp_mono; [apply He |]. intros _ s1 _ (Ht & Hr).
  eapply wp_mono; [apply IH; set_solver |]. intros _ s2 _ (Ht2 & Hr2). split; congruence.
Qed.

Definition step_to (k' : conf) (s : Stm32Rcc) {A} : A → Stm32Rcc → list rcc_event → Prop :=
  λ _ s' _, rcc_at k' s' /\ regs s' = regs s.

Lemma run_clk k k' (m : ClkM unit) s h' t :
  rcc_at k s -> conf_ok k' -> m (tree s) = Done () h' t ->
  op_result rcc_bound (rcc_spec (osc_freq s) (osc32_freq s) k') (tree s) h' t ->
  wp (clk m) (step_to k' s) s.
Proof.
  intros Hat Hk Hm [Htr Hus Htold]. unfold wp, clk. rewrite Hm.
  fold (wp (for_each t deliver ;; mret ()) (step_to k' s) (s <| tree := h' |>)).
  apply wp_bind. eapply wp_mono; [apply deliver_ok |].
  - intros f Hf. destruct (Htold _ _ Hf) as (i & c & Hi & Hu & Hw).
    assert (i = iHCLK) as ->.
    { apply (at_users _ _ Hat i (user c)); [by rewrite list_lookup_fmap, Hi | done]. }
    destruct Hw; [by left | right; cbn in *; lia].
  - cbn. intros _ s' t' (Ht & Hr). split; [| done].
    apply (rcc_at_regs k' s s') with (k0 := k); try done; by rewrite Ht.
Qed.

Lemma deref_ok p s n : p s = Some n -> deref p s = Done n s [].
Proof. intros Hp. unfold deref, mbind, M_bind, gets. by rewrite Hp. Qed.

Lemma wp_deref {B} p s n (f : clkptr → RccM B) Q :
  p s = Some n -> wp (f n) Q s -> wp (deref p ≫= f) Q s.
Proof. intros Hp Hf. apply wp_bind. unfold wp at 1. by rewrite (deref_ok p s n Hp). Qed.

(** The three operations, on configurations: [n] is the clock, [nd] its node. *)
Section Steps.
  Context (k k' : conf) (s : Stm32Rcc) (p : Stm32Rcc → option clkptr) (n : clkptr) (nd : node).
  Hypothesis Hat : rcc_at k s.
  Hypothesis Hk' : conf_ok k'.
  Hypothesis Hp : p s = Some n.
  Hypothesis Hnd : rcc_spec (osc_freq s) (osc32_freq s) k !! n = Some nd.

Lemma set_enabled_step en :
  <[n := nd <| n_enabled := eq en |>]> (rcc_spec (osc_freq s) (osc32_freq s) k)
    = rcc_spec (osc_freq s) (osc32_freq s) k' ->
  wp (set_enabled p en) (step_to k' s) s.
Proof using Hat Hk' Hp Hnd.
  intros Hs. eapply wp_deref; [done |]. destruct Hat as [? Hosc Hk Ht ?].
  destruct (op_enabled rcc_bound _ _ (tree s) n nd (rcc_spec_closed _ _ _ Hosc Hk)
    (rcc_spec_closed _ _ _ Hosc Hk') Ht Hnd en Hs) as (h' & t & Hrun & Hres).
  by eapply run_clk.
Qed.

Lemma set_scale_step mul div :
  0 <= mul < 2 ^ 16 -> 0 < div < 2 ^ 16 ->
  <[n := nd <| n_scale := λ m d, m = mul /\ d = div |>]> (rcc_spec (osc_freq s) (osc32_freq s) k)
    = rcc_spec (osc_freq s) (osc32_freq s) k' ->
  wp (set_scale p mul div) (step_to k' s) s.
Proof using Hat Hk' Hp Hnd.
  intros Hm Hd Hs. eapply wp_deref; [done |]. destruct Hat as [? Hosc Hk Ht ?].
  destruct (op_scale rcc_bound _ _ (tree s) n nd (rcc_spec_closed _ _ _ Hosc Hk)
    (rcc_spec_closed _ _ _ Hosc Hk') Ht Hnd mul div Hm Hd Hs) as (h' & t & Hrun & Hres).
  by eapply run_clk.
Qed.

Lemma set_selected_step sel :
  n_src nd = None -> -1 <= sel -> sel + 1 < Z.of_nat (length (n_inputs nd)) -> sel < 2 ^ 31 ->
  <[n := nd <| n_sel := eq sel |>]> (rcc_spec (osc_freq s) (osc32_freq s) k)
    = rcc_spec (osc_freq s) (osc32_freq s) k' ->
  wp (set_selected_input p sel) (step_to k' s) s.
Proof using Hat Hk' Hp Hnd.
  intros Hsrc H1 H2 H3 Hs. eapply wp_deref; [done |]. destruct Hat as [? Hosc Hk Ht ?].
  destruct (op_select rcc_bound _ _ (tree s) n nd (rcc_spec_closed _ _ _ Hosc Hk)
    (rcc_spec_closed _ _ _ Hosc Hk') Ht Hnd sel Hsrc H1 H2 H3 Hs) as (h' & t & Hrun & Hres).
  by eapply run_clk.
Qed.

End Steps.

Lemma is_enabled_step {B} k s p n (f : bool → RccM B) Q :
  rcc_at k s -> p s = Some n -> (n < 39)%nat ->
  (forall b, b = is_on (tree s) n -> wp (f b) Q s) -> wp (is_enabled p ≫= f) Q s.
Proof.
  intros Hat Hp Hn Hf. apply wp_bind. unfold is_enabled. apply wp_bind. unfold wp at 1.
  rewrite (deref_ok p s n Hp). destruct (at_tracks _ _ Hat) as [_ Hf2].
  destruct (lookup_lt_is_Some_2 (tree s) n) as [c Hc].
  { by rewrite <- (Forall2_length _ _ _ Hf2). }
  unfold wp at 1, clk, clktree_is_enabled, load, mbind, M_bind. rewrite Hc. cbn.
  specialize (Hf (enabled c)). unfold is_on in Hf. rewrite Hc in Hf. specialize (Hf eq_refl).
  assert (Heq : s <| tree := tree s |> = s) by by destruct s. rewrite Heq. exact Hf.
Qed.

(** ** Register writes as changes of the configuration *)

(** The clocks with an enable bit. *)
Definition switchable (n : clkptr) : bool :=
  (n <? 4)%nat || (n =? 8)%nat || ((13 <=? n)%nat && (n <? 39)%nat).

Lemma turn_spec osc osc32 k n nd en :
  switchable n = true -> rcc_spec osc osc32 k !! n = Some nd ->
  <[n := nd <| n_enabled := eq en |>]> (rcc_spec osc osc32 k) = rcc_spec osc osc32 (turn n en k).
Proof.
  intros Hsw Hnd. do 39 (destruct n as [|n]; [first [done | by injection Hnd as <-] |]). done.
Qed.

Lemma switchable_lookup osc osc32 k n :
  switchable n = true -> exists nd, rcc_spec osc osc32 k !! n = Some nd.
Proof.
  intros Hsw. apply lookup_lt_is_Some. unfold switchable in Hsw. cbn [length app]. cbn.
  rewrite !orb_true_iff, andb_true_iff, !Nat.ltb_lt, Nat.eqb_eq, Nat.leb_le in Hsw. lia.
Qed.

Lemma turn_ok n en k : conf_ok k -> conf_ok (turn n en k).
Proof. by intros []. Qed.

Lemma turn_step k s p n en :
  rcc_at k s -> p s = Some n -> switchable n = true ->
  wp (set_enabled p en) (step_to (turn n en k) s) s.
Proof.
  intros Hat Hp Hsw. destruct (switchable_lookup (osc_freq s) (osc32_freq s) k n Hsw) as [nd Hnd].
  eapply set_enabled_step; [done | by apply turn_ok, Hat | done | done |]. by apply turn_spec.
Qed.

(** A chain of enable bits: each entry is a peripheral and its bit. *)
Definition turn_all (bit64 v : Z) (l : list (Z * Z)) (k : conf) : conf :=
  foldl (λ k '(periph, bit), turn (default 0%nat (default None (periph_table !! Z.to_nat periph)))
                               (cbool (v .& periph_bit bit64 bit)) k) k l.

Definition has_clock (periph : Z) : bool :=
  match periph_table !! Z.to_nat periph with Some (Some n) => switchable n | _ => false end.

Lemma periph_step bit64 k s v init periph bit :
  rcc_at k s -> has_clock periph = true ->
  wp (stm32_rcc_periph_enable bit64 v init periph bit)
    (step_to (turn_all bit64 v [(periph, bit)] k) s) s.
Proof.
  intros Hat Hc. unfold has_clock in Hc. destruct (periph_table !! _) as [[n |] |] eqn:Hn; try done.
  unfold turn_all. cbn [foldl]. rewrite Hn. cbn [default]. apply turn_step; try done.
  unfold periph_clk. by rewrite (p_periph _ (at_ptrs _ _ Hat)), Hn.
Qed.

Lemma turn_all_app bit64 v l1 l2 k :
  turn_all bit64 v (l1 ++ l2) k = turn_all bit64 v l2 (turn_all bit64 v l1 k).
Proof. apply foldl_app. Qed.

Lemma turn_all_ok bit64 v l k : conf_ok k -> conf_ok (turn_all bit64 v l k).
Proof. revert k. induction l as [|[p b] l IH]; intros k Hk; [done |]. by apply IH, turn_ok. Qed.

(** The tables of the three enable registers, in the order of the code. *)
Definition apb2_table : list (Z * Z) :=
  [ (STM32_ADC1, RCC_APB2ENR_ADC1EN_BIT); (STM32_UART1, RCC_APB2ENR_USART1EN_BIT);
    (STM32_GPIOE, RCC_APB2ENR_IOPEEN_BIT); (STM32_GPIOD, RCC_APB2ENR_IOPDEN_BIT);
    (STM32_GPIOC, RCC_APB2ENR_IOPCEN_BIT); (STM32_GPIOB, RCC_APB2ENR_IOPBEN_BIT);
    (STM32_GPIOA, RCC_APB2ENR_IOPAEN_BIT); (STM32_AFIO_PERIPH, RCC_APB2ENR_AFIOEN_BIT);
    (STM32_GPIOG, RCC_APB2ENR_IOPGEN_BIT); (STM32_GPIOF, RCC_APB2ENR_IOPFEN_BIT);
    (STM32_TIM1, RCC_APB2ENR_TIM1EN_BIT); (STM32_TIM8, RCC_APB2ENR_TIM8EN_BIT) ].

Definition apb1_table : list (Z * Z) :=
  [ (STM32_UART5, RCC_APB1ENR_USART5EN_BIT); (STM32_UART4, RCC_APB1ENR_USART4EN_BIT);
    (STM32_UART3, RCC_APB1ENR_USART3EN_BIT); (STM32_UART2, RCC_APB1ENR_USART2EN_BIT);
    (STM32_TIM2, RCC_APB1ENR_TIM2EN_BIT); (STM32_TIM3, RCC_APB1ENR_TIM3EN_BIT);
    (STM32_TIM4, RCC_APB1ENR_TIM4EN_BIT); (STM32_TIM5, RCC_APB1ENR_TIM5EN_BIT);
    (STM32_TIM6, RCC_APB1ENR_TIM6EN_BIT); (STM32_TIM7, RCC_APB1ENR_TIM7EN_BIT) ].

Definition ahb_table : list (Z * Z) :=
  [ (STM32_CRC, RCC_AHBENR_CRCEN_BIT); (STM32_DMA1, RCC_AHBENR_DMA1EN_BIT) ].

Fixpoint enable_chain (bit64 v : Z) (init : bool) (l : list (Z * Z)) (r : RccM unit) : RccM unit :=
  match l with
  | [] => r
  | (periph, bit) :: l' => stm32_rcc_periph_enable bit64 v init periph bit ;; enable_chain bit64 v init l' r
  end.

Lemma enable_chain_ok bit64 v init l r k s (Q : unit → Stm32Rcc → Prop) :
  rcc_at k s -> forallb (λ '(periph, _), has_clock periph) l = true ->
  (forall s1, rcc_at (turn_all bit64 v l k) s1 -> regs s1 = regs s -> wp r (λ a s2 _, Q a s2) s1) ->
  wp (enable_chain bit64 v init l r) (λ a s2 _, Q a s2) s.
Proof.
  revert k s. induction l as [|[p b] l IH]; intros k s Hat Hall Hr; cbn [enable_chain]; [by apply Hr |].
  cbn in Hall. apply andb_prop in Hall as [Hp Hall].
  apply wp_bind. eapply wp_mono; [by apply periph_step |]. intros _ s1 _ [Hat1 Hr1].
  apply (IH _ _ Hat1 Hall). intros s2 Hat2 Hr2. apply Hr; [done |]. congruence.
Qed.

(** Changing a register leaves the tree alone. *)
Lemma rcc_at_register k s f :
  (forall s, ptrs_ok s -> ptrs_ok (f s)) ->
  (forall s, osc_freq (f s) = osc_freq s /\ osc32_freq (f s) = osc32_freq s /\ tree (f s) = tree s) ->
  rcc_at k s -> rcc_at k (f s).
Proof.
  intros Hp Hf [? ? ? ? ?]. destruct (Hf s) as (Ho & Ho32 & Ht).
  split; rewrite ?Ho, ?Ho32, ?Ht; auto.
Qed.

Ltac rcc_register :=
  lazymatch goal with
  | |- rcc_at ?k (?f ?s) => apply (rcc_at_register k s f); [by intros ? [] | done | done]
  end.

(** What a register write leaves: the configuration and the registers. *)
Definition writes (k' : conf) (s0 : Stm32Rcc) : unit → Stm32Rcc → list rcc_event → Prop :=
  λ _ s' _, rcc_at k' s' /\ regs s' = regs s0.

Lemma regs_set (f : Stm32Rcc → Stm32Rcc) s s' :
  (forall s, regs (f s) = f (regs s)) -> regs s' = regs s -> regs (f s') = regs (f s).
Proof. intros Hf Hr. by rewrite !Hf, Hr. Qed.

Lemma APB2ENR_write_ok bit64 v init k s :
  rcc_at k s ->
  wp (stm32_rcc_RCC_APB2ENR_write bit64 v init)
    (writes (turn_all bit64 v apb2_table k) (s <| RCC_APB2ENR := v .& 0x0000fffd |>)) s.
Proof.
  intros Hat. eapply (enable_chain_ok bit64 v init apb2_table); [done | by vm_compute |].
  intros s1 Hat1 Hr1. cbn. split; [rcc_register |].
  by apply (regs_set (λ s, s <| RCC_APB2ENR := v .& 0x0000fffd |>)).
Qed.

Lemma APB1ENR_write_ok bit64 v init k s :
  rcc_at k s ->
  wp (stm32_rcc_RCC_APB1ENR_write bit64 v init)
    (writes (turn_all bit64 v apb1_table k) (s <| RCC_APB1ENR := v .& 0x00005e7d |>)) s.
Proof.
  intros Hat. eapply (enable_chain_ok bit64 v init apb1_table); [done | by vm_compute |].
  intros s1 Hat1 Hr1. cbn. split; [rcc_register |].
  by apply (regs_set (λ s, s <| RCC_APB1ENR := v .& 0x00005e7d |>)).
Qed.

Lemma AHBENR_write_ok bit64 v init k s :
  rcc_at k s ->
  wp (stm32_rcc_RCC_AHBENR_write bit64 v init)
    (writes (turn_all bit64 v ahb_table k) (s <| RCC_AHBENR := v .& 0x0000fffd |>)) s.
Proof.
  intros Hat. eapply (enable_chain_ok bit64 v init ahb_table); [done | by vm_compute |].
  intros s1 Hat1 Hr1. cbn. split; [rcc_register |].
  by apply (regs_set (λ s, s <| RCC_AHBENR := v .& 0x0000fffd |>)).
Qed.

Lemma CSR_write_ok v init k s :
  rcc_at k s ->
  wp (stm32_rcc_RCC_CSR_write v init) (writes (turn iLSI (cbool (v .& BIT RCC_CSR_LSION_BIT)) k) s) s.
Proof. intros Hat. apply turn_step; [done | apply Hat | done]. Qed.

(** A step in the middle of a handler. *)
Lemma wp_then {B} k1 s (m : RccM unit) (r : RccM B) Q :
  wp m (step_to k1 s) s ->
  (forall s1, rcc_at k1 s1 -> regs s1 = regs s -> wp r (λ a s2 _, Q a s2) s1) ->
  wp (m ;; r) (λ a s2 _, Q a s2) s.
Proof. intros Hm Hr. apply wp_bind. eapply wp_mono; [apply Hm |]. intros a s1 t1 [H1 H2]. by apply Hr. Qed.

Lemma wp_warn {B} b s (r : RccM B) Q :
  wp r (λ a s2 _, Q a s2) s -> wp (when b hw_warn ;; r) (λ a s2 _, Q a s2) s.
Proof. intros Hr. apply wp_bind. by destruct b. Qed.

Lemma wp_get {B} s (r : Stm32Rcc → RccM B) Q :
  wp (r s) (λ a s2 _, Q a s2) s -> wp (get ≫= r) (λ a s2 _, Q a s2) s.
Proof. intros Hr. by apply wp_bind. Qed.

Lemma wp_modify {B} f s (r : RccM B) Q :
  wp r (λ a s2 _, Q a s2) (f s) -> wp (modify f ;; r) (λ a s2 _, Q a s2) s.
Proof. intros Hr. by apply wp_bind. Qed.

Definition cr_conf (v : Z) (k : conf) : conf :=
  turn iHSI (cbool (v .& BIT RCC_CR_HSION_BIT))
    (turn iHSE (cbool (v .& BIT RCC_CR_HSEON_BIT))
      (turn iPLL (cbool (v .& BIT RCC_CR_PLLON_BIT)) k)).

Lemma CR_write_ok v init k s :
  rcc_at k s -> wp (stm32_rcc_RCC_CR_write v init) (writes (cr_conf v k) s) s.
Proof.
  intros Hat. unfold stm32_rcc_RCC_CR_write.
  eapply is_enabled_step; [done | apply Hat | unfold iPLL; lia |]. intros pll _.
  apply wp_get, wp_warn. eapply wp_then; [apply turn_step; [done | apply Hat | done] |].
  intros s1 Hat1 Hr1. cbn zeta.
  eapply is_enabled_step; [done | apply Hat1 | unfold iHSE; lia |]. intros hse _.
  apply wp_get, wp_warn. eapply wp_then; [apply turn_step; [done | apply Hat1 | done] |].
  intros s2 Hat2 Hr2.
  eapply is_enabled_step; [done | apply Hat2 | unfold iHSI; lia |]. intros hsi _.
  apply wp_get, wp_warn. eapply wp_mono; [apply turn_step; [done | apply Hat2 | done] |].
  intros [] s3 _ [Hat3 Hr3]. split; [done | congruence].
Qed.

Lemma scales_range sc l :
  forallb (λ sc, (0 <=? sc.1) && (sc.1 <? 2 ^ 16) && (0 <? sc.2) && (sc.2 <? 2 ^ 16)) l = true ->
  sc ∈ l -> 0 <= sc.1 < 2 ^ 16 /\ 0 < sc.2 < 2 ^ 16.
Proof.
  intros Hl Hsc%list_elem_of_In. rewrite forallb_forall in Hl. specialize (Hl sc Hsc).
  cbn in Hl. lia.
Qed.

(** Each prescaler and each multiplexer changes its field of the configuration. *)
Lemma pll_scale_step k s sc :
  rcc_at k s -> sc ∈ pll_scales ->
  wp (set_scale PLLCLK sc.1 sc.2) (step_to (k <| k_pll := sc |>) s) s.
Proof.
  intros Hat Hsc. destruct (scales_range sc pll_scales) as [Hm Hd]; [by vm_compute | done |].
  eapply set_scale_step; [done | by destruct (at_conf _ _ Hat) | apply Hat | reflexivity | done | done |].
  reflexivity.
Qed.

Lemma hclk_scale_step k s sc :
  rcc_at k s -> sc ∈ hclk_scales ->
  wp (set_scale HCLK sc.1 sc.2) (step_to (k <| k_hclk := sc |>) s) s.
Proof.
  intros Hat Hsc. destruct (scales_range sc hclk_scales) as [Hm Hd]; [by vm_compute | done |].
  eapply set_scale_step; [done | by destruct (at_conf _ _ Hat) | apply Hat | reflexivity | done | done |].
  reflexivity.
Qed.

Lemma pclk1_scale_step k s sc :
  rcc_at k s -> sc ∈ pclk_scales ->
  wp (set_scale PCLK1 sc.1 sc.2) (step_to (k <| k_pclk1 := sc |>) s) s.
Proof.
  intros Hat Hsc. destruct (scales_range sc pclk_scales) as [Hm Hd]; [by vm_compute | done |].
  eapply set_scale_step; [done | by destruct (at_conf _ _ Hat) | apply Hat | reflexivity | done | done |].
  reflexivity.
Qed.

Lemma pclk2_scale_step k s sc :
  rcc_at k s -> sc ∈ pclk_scales ->
  wp (set_scale PCLK2 sc.1 sc.2) (step_to (k <| k_pclk2 := sc |>) s) s.
Proof.
  intros Hat Hsc. destruct (scales_range sc pclk_scales) as [Hm Hd]; [by vm_compute | done |].
  eapply set_scale_step; [done | by destruct (at_conf _ _ Hat) | apply Hat | reflexivity | done | done |].
  reflexivity.
Qed.

Lemma xtpre_step k s sel :
  rcc_at k s -> -1 <= sel < 2 -> wp (set_selected_input PLLXTPRECLK sel) (step_to (k <| k_xtpre := sel |>) s) s.
Proof.
  intros Hat Hs. eapply set_selected_step;
    [done | by destruct (at_conf _ _ Hat) | apply Hat | reflexivity | done | lia | cbn; lia | lia | reflexivity].
Qed.

Lemma pllsrc_step k s sel :
  rcc_at k s -> -1 <= sel < 2 -> wp (set_selected_input PLLCLK sel) (step_to (k <| k_pllsrc := sel |>) s) s.
Proof.
  intros Hat Hs. eapply set_selected_step;
    [done | by destruct (at_conf _ _ Hat) | apply Hat | reflexivity | done | lia | cbn; lia | lia | reflexivity].
Qed.

Lemma sw_step k s sel :
  rcc_at k s -> -1 <= sel < 3 -> wp (set_selected_input SYSCLK sel) (step_to (k <| k_sw := sel |>) s) s.
Proof.
  intros Hat Hs. eapply set_selected_step;
    [done | by destruct (at_conf _ _ Hat) | apply Hat | reflexivity | done | lia | cbn; lia | lia | reflexivity].
Qed.

Lemma rtcsel_step k s sel :
  rcc_at k s -> -1 <= sel < 3 ->
  wp (set_selected_input (periph_clk STM32_RTC) sel) (step_to (k <| k_rtcsel := sel |>) s) s.
Proof.
  intros Hat Hs. eapply (set_selected_step _ _ _ _ iRTC);
    [done | by destruct (at_conf _ _ Hat) | | reflexivity | done | lia | cbn; lia | lia | reflexivity].
  unfold periph_clk. by rewrite (p_periph _ (at_ptrs _ _ Hat)).
Qed.

(** The scales selected by the register fields. *)
Definition pll_scale (pllmul : Z) : Z * Z := (if pllmul =? 0xf then 16 else pllmul + 2, 1).
Definition pclk_scale (ppre : Z) : Z * Z := (1, if ppre <? 4 then 1 else 2 * (ppre - 3)).
Definition hclk_scale (hpre : Z) : Z * Z := (1, if hpre <? 8 then 1 else 2 * (hpre - 7)).

Lemma pll_scale_ok x : 0 <= x < 16 -> pll_scale x ∈ pll_scales.
Proof. intros Hx. enum_upto x 16; by apply (bool_decide_unpack _); vm_compute. Qed.
Lemma pclk_scale_ok x : 0 <= x < 8 -> pclk_scale x ∈ pclk_scales.
Proof. intros Hx. enum_upto x 8; by apply (bool_decide_unpack _); vm_compute. Qed.
Lemma hclk_scale_ok x : 0 <= x < 16 -> hclk_scale x ∈ hclk_scales.
Proof. intros Hx. enum_upto x 16; by apply (bool_decide_unpack _); vm_compute. Qed.

(** The fields of a value written to CFGR. *)
Definition f_pllmul (v : Z) : Z := extract32 v RCC_CFGR_PLLMUL_START RCC_CFGR_PLLMUL_LENGTH.
Definition f_xtpre (v : Z) : Z := extract32 v RCC_CFGR_PLLXTPRE_BIT 1.
Definition f_pllsrc (v : Z) : Z := extract32 v RCC_CFGR_PLLSRC_BIT 1.
Definition f_ppre2 (v : Z) : Z := (v .& RCC_CFGR_PPRE2_MASK) >> RCC_CFGR_PPRE2_START.
Definition f_ppre1 (v : Z) : Z := (v .& RCC_CFGR_PPRE1_MASK) >> RCC_CFGR_PPRE1_START.
Definition f_hpre (v : Z) : Z := (v .& RCC_CFGR_HPRE_MASK) >> RCC_CFGR_HPRE_START.
Definition f_sw (v : Z) : Z := (v .& RCC_CFGR_SW_MASK) >> RCC_CFGR_SW_START.

Lemma masked_range v m a n : 0 <= a -> 0 <= n -> 0 <= m < 2 ^ (n + a) -> 0 <= (v .& m) >> a < 2 ^ n.
Proof. intros Ha Hn Hm. apply shiftr_bound; [done | done |]. apply land_bound; lia. Qed.

Lemma extract_range v a n : 0 <= n -> 0 <= extract32 v a n < 2 ^ n.
Proof.
  intros Hn. apply land_bound; [done |]. rewrite Z.ones_equiv.
  assert (0 < 2 ^ n) by (apply Z.pow_pos_nonneg; lia). lia.
Qed.

Lemma fields_range v :
  0 <= f_pllmul v < 16 /\ 0 <= f_xtpre v < 2 /\ 0 <= f_pllsrc v < 2 /\ 0 <= f_ppre2 v < 8 /\
  0 <= f_ppre1 v < 8 /\ 0 <= f_hpre v < 16 /\ 0 <= f_sw v < 4.
Proof.
  split; [apply (extract_range v 18 4); lia |]. split; [apply (extract_range v 17 1); lia |].
  split; [apply (extract_range v 16 1); lia |]. split; [apply (masked_range v 0x3c00 11 3); lia |].
  split; [apply (masked_range v 0x700 8 3); lia |]. split; [apply (masked_range v 0xf0 4 4); lia |].
  apply (masked_range v 3 0 2); lia.
Qed.

Definition pll_conf (v : Z) (k : conf) : conf :=
  k <| k_pll := pll_scale (f_pllmul v) |> <| k_xtpre := f_xtpre v |> <| k_pllsrc := f_pllsrc v |>.
Definition prescaler_conf (v : Z) (k : conf) : conf :=
  k <| k_pclk2 := pclk_scale (f_ppre2 v) |> <| k_pclk1 := pclk_scale (f_ppre1 v) |>
    <| k_hclk := hclk_scale (f_hpre v) |>.
Definition cfgr_conf (v : Z) (k : conf) : conf :=
  (prescaler_conf v (pll_conf v k)) <| k_sw := f_sw v |>.

Definition pll_regs (v : Z) (s : Stm32Rcc) : Stm32Rcc :=
  s <| RCC_CFGR_PLLMUL := f_pllmul v |> <| RCC_CFGR_PLLXTPRE := f_xtpre v |>
    <| RCC_CFGR_PLLSRC := f_pllsrc v |>.
Definition prescaler_regs (v : Z) (s : Stm32Rcc) : Stm32Rcc :=
  s <| RCC_CFGR_PPRE2 := f_ppre2 v |> <| RCC_CFGR_PPRE1 := f_ppre1 v |> <| RCC_CFGR_HPRE := f_hpre v |>.
Definition cfgr_regs (v : Z) (s : Stm32Rcc) : Stm32Rcc :=
  (prescaler_regs v (pll_regs v s)) <| RCC_CFGR_SW := f_sw v |>.

Lemma warn_pll_step {B} k s init field new (r : RccM B) Q :
  rcc_at k s -> wp r (λ a s2 _, Q a s2) s -> wp (warn_pll init field new ;; r) (λ a s2 _, Q a s2) s.
Proof.
  intros Hat Hr. apply wp_bind. unfold warn_pll. destruct init; [done |].
  eapply is_enabled_step; [done | apply Hat | unfold iPLL; lia |]. intros pll _.
  apply wp_bind. cbn. by destruct (_ && _).
Qed.

(** Writing a register field in the middle of a handler. *)
Lemma wp_register {B} k s s0 f (r : RccM B) Q :
  rcc_at k s -> regs s = regs s0 ->
  (forall s, ptrs_ok s -> ptrs_ok (f s)) ->
  (forall s, osc_freq (f s) = osc_freq s /\ osc32_freq (f s) = osc32_freq s /\ tree (f s) = tree s) ->
  (forall s, regs (f s) = f (regs s)) ->
  (forall s1, rcc_at k s1 -> regs s1 = regs (f s0) -> wp r (λ a s2 _, Q a s2) s1) ->
  wp (modify f ;; r) (λ a s2 _, Q a s2) s.
Proof.
  intros Hat Hr Hp Ho Hf Hk. apply wp_modify, Hk; [by apply rcc_at_register | by apply regs_set].
Qed.

(** The two ways a field of CFGR reaches the tree. *)
Lemma pllmul_step k s x :
  rcc_at k s -> 0 <= x < 16 ->
  wp (if x =? 0xf then set_scale PLLCLK 16 1 else set_scale PLLCLK (x + 2) 1)
    (step_to (k <| k_pll := pll_scale x |>) s) s.
Proof.
  intros Hat Hx. pose proof (pll_scale_step k s _ Hat (pll_scale_ok x Hx)) as Hp.
  unfold pll_scale in *. by destruct (x =? 15).
Qed.

Lemma ppre2_step k s x :
  rcc_at k s -> 0 <= x < 8 ->
  wp (if x <? 4 then set_scale PCLK2 1 1 else set_scale PCLK2 1 (2 * (x - 3)))
    (step_to (k <| k_pclk2 := pclk_scale x |>) s) s.
Proof.
  intros Hat Hx. pose proof (pclk2_scale_step k s _ Hat (pclk_scale_ok x Hx)) as Hp.
  unfold pclk_scale in *. by destruct (x <? 4).
Qed.

Lemma ppre1_step k s x :
  rcc_at k s -> 0 <= x < 8 ->
  wp (if x <? 4 then set_scale PCLK1 1 1 else set_scale PCLK1 1 (2 * (x - 3)))
    (step_to (k <| k_pclk1 := pclk_scale x |>) s) s.
Proof.
  intros Hat Hx. pose proof (pclk1_scale_step k s _ Hat (pclk_scale_ok x Hx)) as Hp.
  unfold pclk_scale in *. by destruct (x <? 4).
Qed.

Lemma hpre_step k s x :
  rcc_at k s -> 0 <= x < 16 ->
  wp (if x <? 8 then set_scale HCLK 1 1 else set_scale HCLK 1 (2 * (x - 7)))
    (step_to (k <| k_hclk := hclk_scale x |>) s) s.
Proof.
  intros Hat Hx. pose proof (hclk_scale_step k s _ Hat (hclk_scale_ok x Hx)) as Hp.
  unfold hclk_scale in *. by destruct (x <? 8).
Qed.

(** [rcc_tree L]: the next step of the handler is the tree operation of [L];
    [rcc_set]: it is an assignment to a register field. *)
Ltac rcc_tree L :=
  eapply wp_then; [apply L; [eassumption | lia] |];
  let s2 := fresh "s2" in let Hr2 := fresh in
  intros s2 ? Hr2;
  match goal with H : regs ?s1 = regs _ |- _ =>
    match type of Hr2 with regs s2 = regs s1 => rewrite H in Hr2; clear dependent s1 end end.

Ltac rcc_set :=
  eapply wp_register; [eassumption | eassumption | by intros ? [] | done | done |];
  match goal with H : regs ?s1 = regs _ |- _ => clear dependent s1 end;
  let s1 := fresh "s1" in intros s1 ? ?.

Lemma write_pll_ok v init k s :
  rcc_at k s -> wp (cfgr_write_pll v init) (writes (pll_conf v k) (pll_regs v s)) s.
Proof.
  intros Hat. destruct (fields_range v) as (H1 & H2 & H3 & _). unfold cfgr_write_pll.
  fold (f_pllmul v) (f_xtpre v) (f_pllsrc v).
  cbv zeta. eapply warn_pll_step; [done |]. rewrite (proj2 (Z.leb_le _ _)) by lia.
  apply wp_bind. cbn [assert_ wp mret M_ret].
  eapply wp_then; [by apply pllmul_step |]. intros s1 Hat1 Hr1.
  rcc_set. eapply warn_pll_step; [done |]. rcc_tree xtpre_step.
  rcc_set. eapply warn_pll_step; [done |]. rcc_tree pllsrc_step.
  cbn. split; [rcc_register |]. by apply (regs_set (λ s, s <| RCC_CFGR_PLLSRC := f_pllsrc v |>)).
Qed.

Lemma write_prescalers_ok v k s :
  rcc_at k s -> wp (cfgr_write_prescalers v) (writes (prescaler_conf v k) (prescaler_regs v s)) s.
Proof.
  intros Hat. destruct (fields_range v) as (_ & _ & _ & H4 & H5 & H6 & _). unfold cfgr_write_prescalers.
  fold (f_ppre2 v) (f_ppre1 v) (f_hpre v). cbv zeta.
  eapply (wp_register _ s s); [done | done | by intros ? [] | done | done |]. intros s1 Hat1 Hr1.
  rcc_tree ppre2_step. rcc_set. rcc_tree ppre1_step. rcc_set.
  eapply wp_mono; [by apply hpre_step |]. intros [] s2 t2 [Hat2 Hr2]. split; [done | by rewrite Hr2].
Qed.

(** The state in which SW is written. *)
Lemma before_sw v init k s :
  rcc_at k s ->
  wp (cfgr_write_pll v init ;; cfgr_write_prescalers v)
    (writes (prescaler_conf v (pll_conf v k)) (prescaler_regs v (pll_regs v s))) s.
Proof.
  intros Hat. apply wp_bind. eapply wp_mono; [by apply write_pll_ok |]. intros [] s1 t1 [Hat1 Hr1].
  eapply wp_mono; [by apply write_prescalers_ok |]. intros [] s2 t2 [Hat2 Hr2]. split; [done |].
  rewrite Hr2. by apply (regs_set (prescaler_regs v)).
Qed.

Lemma cfgr_write_split v init s :
  stm32_rcc_RCC_CFGR_write v init s =
  ((cfgr_write_pll v init ;; cfgr_write_prescalers v) ;; cfgr_write_sw v) s.
Proof.
  unfold stm32_rcc_RCC_CFGR_write, mbind, M_bind. destruct (cfgr_write_pll v init s) as [[] s1 t1 |]; [| done].
  destruct (cfgr_write_prescalers v s1) as [[] s2 t2 |]; [| done].
  destruct (cfgr_write_sw v s2); [| done]. by rewrite app_assoc.
Qed.

Lemma CFGR_write_ok v init k s :
  rcc_at k s -> f_sw v <> 3 ->
  wp (stm32_rcc_RCC_CFGR_write v init) (writes (cfgr_conf v k) (cfgr_regs v s)) s.
Proof.
  intros Hat Hsw. destruct (fields_range v) as (_ & _ & _ & _ & _ & _ & H7).
  unfold wp. rewrite cfgr_write_split. fold (wp ((cfgr_write_pll v init ;; cfgr_write_prescalers v) ;; cfgr_write_sw v)
    (writes (cfgr_conf v k) (cfgr_regs v s)) s).
  apply wp_bind. eapply wp_mono; [by apply before_sw |]. intros [] s1 t1 [Hat1 Hr1].
  unfold cfgr_write_sw, writes. fold (f_sw v). cbv zeta.
  eapply wp_register; [done | done | by intros ? [] | done | done |]. intros s2 Hat2 Hr2.
  replace ((f_sw v =? 0) || (f_sw v =? 1) || (f_sw v =? 2)) with true by lia.
  eapply wp_mono; [apply sw_step; [done | lia] |]. intros [] s3 _ [Hat3 Hr3].
  split; [done | by rewrite Hr3].
Qed.

(** Selecting the reserved value 3 of SW stops the emulator. *)
Lemma CFGR_write_bad v init k s :
  rcc_at k s -> f_sw v = 3 -> stm32_rcc_RCC_CFGR_write v init s = Halt HwError.
Proof.
  intros Hat Hsw. rewrite cfgr_write_split. pose proof (before_sw v init k s Hat) as Hp.
  unfold mbind at 1, M_bind at 1. unfold wp in Hp.
  destruct ((cfgr_write_pll v init ;; cfgr_write_prescalers v) s) as [[] s1 t1 |]; [| done].
  unfold cfgr_write_sw. fold (f_sw v). by rewrite Hsw.
Qed.

Lemma rtc_ptr k s : rcc_at k s -> periph_clk STM32_RTC s = Some iRTC.
Proof. intros Hat. unfold periph_clk. by rewrite (p_periph _ (at_ptrs _ _ Hat)). Qed.

Definition f_rtcsel (v : Z) : Z := (v .& RCC_BDCR_RTCSEL_MASK) >> RCC_BDCR_RTCSEL_START.

Definition bdcr_conf (v : Z) (k : conf) : conf :=
  let k1 := turn iLSE (cbool (v .& BIT RCC_BDCR_LSEON_BIT)) k <| k_rtcsel := f_rtcsel v - 1 |> in
  if cbool (f_rtcsel v) then turn iRTC (cbool ((v >> RCC_BDCR_RTCEN_BIT) .& 0x01)) k1 else k1.

Lemma BDCR_write_ok v init k s :
  rcc_at k s ->
  wp (stm32_rcc_RCC_BDCR_write v init) (writes (bdcr_conf v k) (s <| RTC_SEL := f_rtcsel v |>)) s.
Proof.
  intros Hat. assert (Hsel : 0 <= f_rtcsel v < 4) by (apply (masked_range v 0x300 8 2); lia).
  unfold stm32_rcc_RCC_BDCR_write. fold (f_rtcsel v). cbv zeta.
  eapply wp_then; [apply turn_step; [done | apply Hat | done] |]. intros s1 Hat1 Hr1.
  rcc_set. rcc_tree rtcsel_step. unfold bdcr_conf, when. destruct (cbool (f_rtcsel v)); [| done].
  eapply wp_mono; [eapply (turn_step _ _ _ iRTC); [eassumption | by eapply rtc_ptr | done] |].
  intros [] s3 _ [Hat3 Hr3]. split; [done | congruence].
Qed.

(** ** Construction of the tree *)

Definition conf0 : conf := mkConf (λ _, false) (0, 1) (0, 1) (0, 1) (0, 1) (-1) (-1) (-1) (-1).

Lemma init_clk_done osc osc32 :
  stm32_rcc_init_clk (rcc_zero osc osc32) = Done () (rcc_built osc osc32) [].
Proof. vm_compute. reflexivity. Qed.

(** The clocks as [stm32_rcc_init_clk] leaves them. *)
Definition built_heap (osc osc32 : Z) : heap :=
  Eval vm_compute in tree (rcc_built osc osc32).

Lemma built_tree osc osc32 : tree (rcc_built osc osc32) = built_heap osc osc32.
Proof. vm_compute. reflexivity. Qed.

Lemma built_inputs osc osc32 :
  osc_ok osc osc32 -> Forall (λ c, 0 <= input_freq c < 2 ^ 32) (built_heap osc osc32).
Proof. intros [Ho Ho32]. unfold built_heap. repeat (apply Forall_cons; split; [cbn; lia |]). done. Qed.

Lemma built_implements osc osc32 : Forall2 implements (rcc_spec osc osc32 conf0) (built_heap osc osc32).
Proof.
  unfold rcc_spec, built_heap. cbn [app fmap list_fmap seq].
  repeat (apply Forall2_cons_2; [split; [done.. | cbn; intros f Hf; by simplify_eq] |]).
  apply Forall2_nil_2.
Qed.

Lemma built_tracks osc osc32 :
  osc_ok osc osc32 -> tracks (rcc_spec osc osc32 conf0) (built_heap osc osc32).
Proof.
  intros Ho. split; [| apply built_implements].
  apply consistentb_sound; [by vm_compute | by apply built_inputs].
Qed.

Lemma built_users osc osc32 i us :
  (user <$> built_heap osc osc32) !! i = Some us -> HCLK_UPD ∈ us -> i = iHCLK.
Proof.
  intros Hi Hu. unfold built_heap in Hi. cbn in Hi.
  do 39 (destruct i as [|i]; [cbn in Hi; injection Hi as <-; first [done | by apply elem_of_nil in Hu] |]).
  done.
Qed.

Lemma built_at osc osc32 : osc_ok osc osc32 -> rcc_at conf0 (rcc_built osc osc32).
Proof.
  intros Ho. split; rewrite ?built_tree.
  - split; vm_compute; reflexivity.
  - done.
  - by split; apply (bool_decide_unpack _); vm_compute.
  - by apply built_tracks.
  - apply built_users.
Qed.

(** ** The invariant *)

(** The registers determine the configuration, but for the enable bits; the
    clock of the DAC (number 36) is never on. *)
Record conf_regs (k : conf) (s : Stm32Rcc) : Prop := {
  cr_pll : k_pll k = pll_scale (RCC_CFGR_PLLMUL s);
  cr_hclk : k_hclk k = hclk_scale (RCC_CFGR_HPRE s);
  cr_pclk1 : k_pclk1 k = pclk_scale (RCC_CFGR_PPRE1 s);
  cr_pclk2 : k_pclk2 k = pclk_scale (RCC_CFGR_PPRE2 s);
  cr_xtpre : k_xtpre k = RCC_CFGR_PLLXTPRE s /\ 0 <= RCC_CFGR_PLLXTPRE s < 2;
  cr_pllsrc : k_pllsrc k = RCC_CFGR_PLLSRC s /\ 0 <= RCC_CFGR_PLLSRC s < 2;
  cr_sw : k_sw k = RCC_CFGR_SW s /\ 0 <= RCC_CFGR_SW s < 3;
  cr_rtcsel : k_rtcsel k = RTC_SEL s - 1 /\ 0 <= RTC_SEL s < 4;
  cr_dac : k_on k 36%nat = false
}.

Definition rcc_inv (s : Stm32Rcc) : Prop := exists k, rcc_at k s /\ conf_regs k s.

Lemma conf_regs_eq k s s' : regs s' = regs s -> conf_regs k s -> conf_regs k s'.
Proof. intros Hr [? ? ? ? ? ? ? ? ?]. apply regs_inj_fields in Hr. by rewrite Hr. Qed.

Lemma writes_inv k' s0 : conf_regs k' s0 -> forall a s' t, writes k' s0 a s' t -> rcc_inv s'.
Proof. intros Hc a s' t [Hat Hr]. exists k'. split; [done |]. by eapply conf_regs_eq. Qed.

Lemma conf_regs_turn n en k s : n <> 36%nat -> conf_regs k s -> conf_regs (turn n en k) s.
Proof.
  intros Hn [? ? ? ? ? ? ? ? ?]. split; try done. cbn. by destruct n as [|n]; [| do 36 (destruct n as [|n]; [done |])].
Qed.

Lemma conf_regs_turn_all bit64 v l k s :
  forallb (λ '(p, _), negb (default 0 (default None (periph_table !! Z.to_nat p)) =? 36)%nat) l = true ->
  conf_regs k s -> conf_regs (turn_all bit64 v l k) s.
Proof.
  revert k. induction l as [|[p b] l IH]; intros k Hall Hc; [done |]. cbn in Hall.
  apply andb_prop in Hall as [Hp Hall]. apply IH; [done |]. apply conf_regs_turn; [| done].
  apply negb_true_iff, Nat.eqb_neq in Hp. done.
Qed.

Lemma CFGR_conf v k s : f_sw v <> 3 -> 0 <= RTC_SEL s < 4 -> k_rtcsel k = RTC_SEL s - 1 ->
  k_on k 36%nat = false -> conf_regs (cfgr_conf v k) (cfgr_regs v s).
Proof.
  intros Hsw Hr Hk Hd. destruct (fields_range v) as (? & ? & ? & ? & ? & ? & ?).
  by split; try done; cbn; split; try done; lia.
Qed.

(** *** Reset *)

Lemma reset_ok bit64 k s :
  rcc_at k s -> k_on k 36%nat = false -> wp (stm32_rcc_reset bit64) (λ _ s' _, rcc_inv s') s.
Proof.
  intros Hat Hd. unfold stm32_rcc_reset.
  apply wp_bind. eapply wp_mono; [by apply CR_write_ok |]. intros _ s1 _ [Hat1 Hr1].
  apply wp_bind. eapply wp_mono; [by apply CFGR_write_ok |]. intros _ s2 _ [Hat2 Hr2].
  apply wp_bind. eapply wp_mono; [by apply APB2ENR_write_ok |]. intros _ s3 _ [Hat3 Hr3].
  apply wp_bind. eapply wp_mono; [by apply APB1ENR_write_ok |]. intros _ s4 _ [Hat4 Hr4].
  apply wp_bind. eapply wp_mono; [by apply AHBENR_write_ok |]. intros _ s5 _ [Hat5 Hr5].
  apply wp_bind. eapply wp_mono; [by apply BDCR_write_ok |]. intros _ s6 _ [Hat6 Hr6].
  eapply wp_mono; [by apply CSR_write_ok |]. intros _ s7 _ [Hat7 Hr7].
  eexists. split; [exact Hat7 |]. apply (conf_regs_eq _ (s6)); [done |].
  apply (conf_regs_eq _ (s5 <| RTC_SEL := 0 |>)); [done |].
  apply conf_regs_turn; [done |].
  apply regs_inj_fields in Hr2, Hr3, Hr4, Hr5. rewrite Hr5, Hr4, Hr3, Hr2. split; done.
Qed.

(** *** Every write *)

Lemma rcc_write_inv bit64 off v size s :
  rcc_inv s -> ~ (off = RCC_CFGR_OFFSET /\ size = 4 /\ f_sw (u32 v) = 3) ->
  wp (stm32_rcc_write bit64 off v size) (λ _ s' _, rcc_inv s') s.
Proof.
  intros (k & Hat & Hc) Hok. unfold stm32_rcc_write. destruct (Z.eqb_spec size 4) as [-> |]; [| by exists k].
  unfold stm32_rcc_writew.
  destruct (Z.eqb_spec off RCC_CR_OFFSET) as [-> |].
  { eapply wp_mono; [by apply CR_write_ok | apply writes_inv]. by do 3 (apply conf_regs_turn; [done |]). }
  destruct (Z.eqb_spec off RCC_CFGR_OFFSET) as [-> |].
  { eapply wp_mono; [apply CFGR_write_ok; naive_solver | apply writes_inv].
    apply CFGR_conf; [naive_solver | apply Hc..]. }
  destruct (off =? RCC_CIR_OFFSET); [by exists k |].
  destruct (off =? RCC_APB2RSTR_OFFSET); [by exists k |].
  destruct (off =? RCC_APB1RSTR_OFFSET); [by exists k |].
  destruct (off =? RCC_AHBENR_OFFSET).
  { eapply wp_mono; [by apply AHBENR_write_ok | apply writes_inv].
    apply conf_regs_turn_all; [by vm_compute |]. by destruct Hc. }
  destruct (off =? RCC_APB2ENR_OFFSET).
  { eapply wp_mono; [by apply APB2ENR_write_ok | apply writes_inv].
    apply conf_regs_turn_all; [by vm_compute |]. by destruct Hc. }
  destruct (off =? RCC_APB1ENR_OFFSET).
  { eapply wp_mono; [by apply APB1ENR_write_ok | apply writes_inv].
    apply conf_regs_turn_all; [by vm_compute |]. by destruct Hc. }
  destruct (off =? RCC_BDCR_OFFSET).
  { eapply wp_mono; [by apply BDCR_write_ok | apply writes_inv].
    assert (0 <= f_rtcsel (u32 v) < 4) by (apply (masked_range (u32 v) 0x300 8 2); lia).
    unfold bdcr_conf. destruct (cbool _); [apply conf_regs_turn; [done |] |];
      destruct Hc; split; try done. }
  destruct (off =? RCC_CSR_OFFSET).
  { eapply wp_mono; [by apply CSR_write_ok | apply writes_inv]. by apply conf_regs_turn. }
  destruct (off =? RCC_AHBRSTR); [by exists k |].
  destruct (off =? RCC_CFGR2_OFFSET); by exists k.
Qed.

(** ** Frequencies as a function of the registers *)

Definition clock_output (p : Stm32Rcc → option clkptr) (s : Stm32Rcc) : Z :=
  match p s with Some n => freq (tree s) n | None => 0 end.
Definition clock_on (p : Stm32Rcc → option clkptr) (s : Stm32Rcc) : bool :=
  match p s with Some n => is_on (tree s) n | None => false end.

(** The clock diagram: oscillators, PLL, system clock switch, prescalers. *)
Definition spec_hsi (s : Stm32Rcc) : Z := if clock_on HSICLK s then HSI_FREQ else 0.
Definition spec_hse (s : Stm32Rcc) : Z := if clock_on HSECLK s then osc_freq s else 0.
Definition spec_pll_input (s : Stm32Rcc) : Z :=
  if RCC_CFGR_PLLSRC s =? PLLSRC_HSI_SELECTED then spec_hsi s / 2
  else if RCC_CFGR_PLLXTPRE s =? 0 then spec_hse s else spec_hse s / 2.
Definition spec_pll (s : Stm32Rcc) : Z :=
  if clock_on PLLCLK s then spec_pll_input s * fst (pll_scale (RCC_CFGR_PLLMUL s)) else 0.
Definition spec_sysclk (s : Stm32Rcc) : Z :=
  if RCC_CFGR_SW s =? SW_HSI_SELECTED then spec_hsi s
  else if RCC_CFGR_SW s =? SW_HSE_SELECTED then spec_hse s else spec_pll s.
Definition spec_hclk (s : Stm32Rcc) : Z := spec_sysclk s / snd (hclk_scale (RCC_CFGR_HPRE s)).
Definition spec_pclk1 (s : Stm32Rcc) : Z := spec_hclk s / snd (pclk_scale (RCC_CFGR_PPRE1 s)).
Definition spec_pclk2 (s : Stm32Rcc) : Z := spec_hclk s / snd (pclk_scale (RCC_CFGR_PPRE2 s)).

Section Frequencies.
  Context (k : conf) (s : Stm32Rcc).
  Hypothesis Hat : rcc_at k s.
  Hypothesis Hc : conf_regs k s.

Lemma on_nodes n : n ∈ [5; 6; 7; 9; 10; 11; 12]%nat -> is_on (tree s) n = true.
Proof using Hat.
  intros Hn. destruct (at_tracks _ _ Hat) as [_ Hf]. unfold is_on.
  assert (Hl : forall nd, rcc_spec (osc_freq s) (osc32_freq s) k !! n = Some nd ->
    n_enabled nd = eq true -> default false (enabled <$> tree s !! n) = true).
  { intros nd Hnd He. destruct (Forall2_lookup_l _ _ _ _ _ Hf Hnd) as (c & -> & Himpl).
    pose proof (impl_enabled _ _ Himpl) as Hen. rewrite He in Hen. cbn. congruence. }
  rewrite !elem_of_cons in Hn.
  destruct Hn as [-> | [-> | [-> | [-> | [-> | [-> | [-> | []%elem_of_nil]]]]]]]; by eapply Hl.
Qed.

Lemma freq_hsi : freq (tree s) iHSI = spec_hsi s.
Proof using Hat.
  unfold spec_hsi, clock_on. rewrite (p_HSI _ (at_ptrs _ _ Hat)).
  eapply source_output; [apply Hat | reflexivity | done | done | unfold HSI_FREQ; lia].
Qed.

Lemma freq_hse : freq (tree s) iHSE = spec_hse s.
Proof using Hat.
  unfold spec_hse, clock_on. rewrite (p_HSE _ (at_ptrs _ _ Hat)).
  eapply source_output; [apply Hat | reflexivity | done | done |].
  destruct (at_osc _ _ Hat). lia.
Qed.

(** The frequency of a multiplexer whose selection is known. *)
Lemma freq_mux n on ins outs sc sel p :
  rcc_spec (osc_freq s) (osc32_freq s) k !! n = Some (mux_node on ins outs sc sel) ->
  0 <= sel -> ins !! Z.to_nat sel = Some p ->
  freq (tree s) n = scaled (is_on (tree s) n) (freq (tree s) p) sc.1 sc.2.
Proof using Hat.
  intros Hn Hs Hp. eapply node_output; [apply Hat | done | by intros ? ? [-> ->] | by intros ? <- |].
  replace (Z.to_nat (sel + 1)) with (S (Z.to_nat sel)) by lia.
  cbn [mux_node n_inputs]. by rewrite lookup_cons, list_lookup_fmap, Hp.
Qed.

Lemma oscillators_range : 0 <= spec_hsi s < 2 ^ 28 /\ 0 <= spec_hse s < 2 ^ 28.
Proof using Hat.
  destruct (at_osc _ _ Hat) as [? _]. unfold spec_hsi, spec_hse, HSI_FREQ.
  destruct (clock_on HSICLK s), (clock_on HSECLK s); lia.
Qed.

Lemma freq_half n p on outs :
  rcc_spec (osc_freq s) (osc32_freq s) k !! n = Some (mux_node on [p] outs (1, 2) 0) ->
  n ∈ [5; 6; 7; 9; 10; 11; 12]%nat -> 0 <= freq (tree s) p < 2 ^ 32 ->
  freq (tree s) n = freq (tree s) p / 2.
Proof using Hat.
  intros Hn Hon Hp. rewrite (freq_mux _ _ _ _ _ _ p Hn) by done. rewrite on_nodes by done. cbn.
  rewrite Z.mul_1_r. apply u32_small. split; [apply Z.div_pos; lia | apply Z.div_lt_upper_bound; lia].
Qed.

Lemma freq_pll_input :
  freq (tree s) (if RCC_CFGR_PLLSRC s =? PLLSRC_HSI_SELECTED then iHSI2 else iXTPRE) = spec_pll_input s.
Proof using Hat Hc.
  pose proof oscillators_range as [Hi He]. unfold spec_pll_input, PLLSRC_HSI_SELECTED.
  assert (H5 : freq (tree s) iHSI2 = spec_hsi s / 2).
  { rewrite <- freq_hsi. eapply freq_half; [reflexivity | set_solver | rewrite freq_hsi; lia]. }
  assert (H6 : freq (tree s) iHSE2 = spec_hse s / 2).
  { rewrite <- freq_hse. eapply freq_half; [reflexivity | set_solver | rewrite freq_hse; lia]. }
  destruct (RCC_CFGR_PLLSRC s =? 0); [done |].
  destruct (cr_xtpre _ _ Hc) as [Hk Hr].
  erewrite (freq_mux iXTPRE _ _ _ _ _ (if RCC_CFGR_PLLXTPRE s =? 0 then iHSE else iHSE2));
    [| reflexivity | lia | rewrite Hk].
  2:{ destruct (Z.eqb_spec (RCC_CFGR_PLLXTPRE s) 0) as [-> |]; [done |].
      by assert (RCC_CFGR_PLLXTPRE s = 1) as -> by lia. }
  rewrite on_nodes by set_solver. cbn. rewrite Z.mul_1_r, Z.div_1_r.
  assert (0 <= spec_hse s / 2 < 2 ^ 32)
    by (split; [apply Z.div_pos; lia | apply Z.div_lt_upper_bound; lia]).
  destruct (RCC_CFGR_PLLXTPRE s =? 0); rewrite ?freq_hse, ?H6; apply u32_small; lia.
Qed.

Lemma pll_input_range : 0 <= spec_pll_input s < 2 ^ 28.
Proof using Hat.
  pose proof oscillators_range. unfold spec_pll_input.
  assert (forall x, 0 <= x < 2 ^ 28 -> 0 <= x / 2 < 2 ^ 28)
    by (intros x ?; split; [apply Z.div_pos; lia | apply Z.div_lt_upper_bound; lia]).
  repeat case_match; naive_solver.
Qed.

Lemma freq_pll : freq (tree s) iPLL = spec_pll s.
Proof using Hat Hc.
  destruct (cr_pllsrc _ _ Hc) as [Hk Hr]. unfold spec_pll, clock_on. rewrite (p_PLL _ (at_ptrs _ _ Hat)).
  erewrite (freq_mux iPLL _ _ _ _ _ (if RCC_CFGR_PLLSRC s =? PLLSRC_HSI_SELECTED then iHSI2 else iXTPRE));
    [| reflexivity | lia | rewrite Hk; unfold PLLSRC_HSI_SELECTED].
  2:{ destruct (Z.eqb_spec (RCC_CFGR_PLLSRC s) 0) as [-> |]; [done |].
      by assert (RCC_CFGR_PLLSRC s = 1) as -> by lia. }
  rewrite freq_pll_input, (cr_pll _ _ Hc). unfold scaled. destruct (is_on _ _); [| done].
  cbn [snd pll_scale]. rewrite Z.div_1_r. apply u32_small.
  pose proof pll_input_range. pose proof (ok_pll _ (at_conf _ _ Hat)) as Hin. rewrite (cr_pll _ _ Hc) in Hin.
  assert (0 <= fst (pll_scale (RCC_CFGR_PLLMUL s)) <= 16).
  { apply list_elem_of_fmap in Hin as (m & Heq & Hm). rewrite Heq. cbn.
    apply elem_of_cons in Hm as [-> | Hm%elem_of_zrange]; lia. }
  nia.
Qed.

Lemma pll_range : 0 <= spec_pll s < 2 ^ 32.
Proof using Hat Hc.
  rewrite <- freq_pll. destruct (at_tracks _ _ Hat) as [Hcons _]. unfold freq.
  destruct (tree s !! iPLL) as [c |] eqn:Hcl; cbn; [by eapply output_freq_range | lia].
Qed.

Lemma freq_sysclk : freq (tree s) iSYS = spec_sysclk s.
Proof using Hat Hc.
  destruct (cr_sw _ _ Hc) as [Hk Hr]. pose proof oscillators_range. pose proof pll_range.
  erewrite (freq_mux iSYS _ _ _ _ _
    (if RCC_CFGR_SW s =? 0 then iHSI else if RCC_CFGR_SW s =? 1 then iHSE else iPLL));
    [| reflexivity | lia | rewrite Hk].
  2:{ destruct (Z.eqb_spec (RCC_CFGR_SW s) 0) as [-> |]; [done |].
      destruct (Z.eqb_spec (RCC_CFGR_SW s) 1) as [-> |]; [done |].
      by assert (RCC_CFGR_SW s = 2) as -> by lia. }
  rewrite on_nodes by set_solver. unfold spec_sysclk, SW_HSI_SELECTED, SW_HSE_SELECTED. cbn.
  rewrite Z.mul_1_r, Z.div_1_r.
  destruct (RCC_CFGR_SW s =? 0); [| destruct (RCC_CFGR_SW s =? 1)];
    rewrite ?freq_hsi, ?freq_hse, ?freq_pll; apply u32_small; lia.
Qed.

(** A prescaler of an enabled bus divides exactly. *)
Lemma freq_prescaled n p outs d :
  rcc_spec (osc_freq s) (osc32_freq s) k !! n = Some (mux_node true [p] outs (1, d) 0) ->
  n ∈ [5; 6; 7; 9; 10; 11; 12]%nat -> 0 < d -> freq (tree s) n = freq (tree s) p / d.
Proof using Hat.
  intros Hn Hon Hd. rewrite (freq_mux _ _ _ _ _ _ p Hn) by done. rewrite on_nodes by done. cbn.
  rewrite Z.mul_1_r. apply u32_small.
  assert (0 <= freq (tree s) p < 2 ^ 32).
  { unfold freq. destruct (at_tracks _ _ Hat) as [Hcons _].
    destruct (tree s !! p) as [c |] eqn:Hcl; cbn; [by eapply output_freq_range | lia]. }
  split; [apply Z.div_pos; lia | apply Z.div_lt_upper_bound; nia].
Qed.

Lemma freq_buses :
  freq (tree s) iHCLK = spec_hclk s /\ freq (tree s) iPCLK1 = spec_pclk1 s /\
  freq (tree s) iPCLK2 = spec_pclk2 s.
Proof using Hat Hc.
  pose proof (ok_hclk _ (at_conf _ _ Hat)) as Hh. pose proof (ok_pclk1 _ (at_conf _ _ Hat)) as H1.
  pose proof (ok_pclk2 _ (at_conf _ _ Hat)) as H2.
  rewrite (cr_hclk _ _ Hc) in Hh. rewrite (cr_pclk1 _ _ Hc) in H1. rewrite (cr_pclk2 _ _ Hc) in H2.
  apply (scales_range _ hclk_scales) in Hh as [_ Hh]; [| by vm_compute].
  apply (scales_range _ pclk_scales) in H1 as [_ H1]; [| by vm_compute].
  apply (scales_range _ pclk_scales) in H2 as [_ H2]; [| by vm_compute].
  assert (E : freq (tree s) iHCLK = spec_hclk s).
  { unfold spec_hclk. rewrite <- freq_sysclk. eapply freq_prescaled; [| set_solver | lia].
    cbn. by rewrite (cr_hclk _ _ Hc). }
  split; [done |]. unfold spec_pclk1, spec_pclk2. rewrite <- E.
  split; (eapply freq_prescaled; [| set_solver | lia]); cbn;
    [by rewrite (cr_pclk1 _ _ Hc) | by rewrite (cr_pclk2 _ _ Hc)].
Qed.

End Frequencies.

(** ** The clock interface of the peripherals *)

#[export] Instance rcc_clocks : PeriphClocks Stm32Rcc := {
  periph_clocked s p := bool_decide (is_Some (periph_clk p s));
  periph_enabled s p := clock_on (periph_clk p) s;
  periph_freq s p := clock_output (periph_clk p) s
}.

#[export] Instance rcc_clocks_laws : PeriphClocksLaws Stm32Rcc rcc_inv.
Proof.
  split; intros s p (k & Hat & _); cbn; unfold clock_on, clock_output;
    (destruct (periph_clk p s) as [n |]; [| done]); destruct (at_tracks _ _ Hat) as [Hcons _];
    unfold freq, is_on; (destruct (tree s !! n) as [c |] eqn:Hcl; [| done]); cbn.
  - by eapply output_freq_range.
  - intros He. rewrite (calc_exact _ _ _ Hcons Hcl). by rewrite He.
Qed.

Lemma periph_table_lt p n : default None (periph_table !! p) = Some n -> (n < 39)%nat.
Proof.
  intros Hp. destruct (periph_table !! p) as [o |] eqn:Ho; [| done]. cbn in Hp. subst o.
  apply list_elem_of_lookup_2 in Ho.
  assert (Hall : Forall (λ o : option clkptr, (default 0 o < 39)%nat) periph_table).
  { apply (bool_decide_unpack _). by vm_compute. }
  rewrite Forall_forall in Hall. by apply (Hall (Some n)).
Qed.

Lemma get_periph_freq_ok s p :
  rcc_inv s -> is_Some (periph_clk p s) ->
  stm32_rcc_get_periph_freq p s = Done (periph_freq s p) s [].
Proof.
  intros (k & Hat & _) [n Hn]. unfold stm32_rcc_get_periph_freq, periph_clk_checked.
  unfold mbind, M_bind, gets. rewrite Hn. cbn. unfold clk, clktree_get_output_freq, mbind, M_bind, load.
  assert ((n < 39)%nat).
  { eapply (periph_table_lt (Z.to_nat p)). by rewrite <- (p_periph _ (at_ptrs _ _ Hat)). }
  destruct (at_tracks _ _ Hat) as [_ Hf].
  destruct (lookup_lt_is_Some_2 (tree s) n) as [c Hcl]; [by rewrite <- (Forall2_length _ _ _ Hf) |].
  rewrite Hcl. cbn. unfold clock_output, freq. rewrite Hn, Hcl. cbn. f_equal. by destruct s.
Qed.

(** The interface functions agree with the functions of the RCC. *)
Lemma rcc_check_agrees s p :
  rcc_inv s -> periph_clocked s p = true ->
  stm32_rcc_check_periph_clk p s =
    Done () s (if periph_enabled s p then [] else [Diag HwWarn]).
Proof.
  intros (k & Hat & _) [n Hn]%bool_decide_eq_true. unfold stm32_rcc_check_periph_clk, periph_clk_checked.
  unfold mbind, M_bind, gets. rewrite Hn. cbn. unfold clk, clktree_is_enabled, mbind, M_bind, load.
  assert ((n < 39)%nat).
  { eapply (periph_table_lt (Z.to_nat p)). by rewrite <- (p_periph _ (at_ptrs _ _ Hat)). }
  destruct (at_tracks _ _ Hat) as [_ Hf].
  destruct (lookup_lt_is_Some_2 (tree s) n) as [c Hcl]; [by rewrite <- (Forall2_length _ _ _ Hf) |].
  rewrite Hcl. cbn. unfold clock_on, is_on. rewrite Hn, Hcl. cbn.
  assert (Heq : s <| tree := tree s |> = s) by by destruct s. rewrite Heq. by destruct (enabled c).
Qed.

(** ** The properties of the RCC *)

Lemma start_ok bit64 osc osc32 :
  osc_ok osc osc32 -> exists s t, rcc_start bit64 osc osc32 = Done () s t /\ rcc_inv s.
Proof.
  intros Ho. assert (Hw : wp (stm32_rcc_init_clk ;; stm32_rcc_reset bit64) (λ _ s' _, rcc_inv s') (rcc_zero osc osc32)).
  { apply wp_bind. unfold wp at 1. rewrite init_clk_done. by eapply reset_ok; [apply built_at |]. }
  apply wp_Done in Hw as ([] & s & t & Hrun & Hinv).
  exists s, t. split; [exact Hrun | exact Hinv].
Qed.

(** The Blue Pill's RCC after reset, for the witnesses. *)
Definition rcc_demo : Stm32Rcc :=
  match rcc_start 0 8000000 32768 with Done _ s _ => s | Halt _ => rcc_zero 8000000 32768 end.

Lemma rcc_demo_inv : rcc_inv rcc_demo.
Proof.
  destruct (start_ok 0 8000000 32768) as (s & t & Hs & Hinv); [unfold osc_ok; lia |].
  unfold rcc_demo. rewrite Hs. exact Hinv.
Qed.

(** With an oscillator between 256 Hz and [2 ^ 28] Hz,
    building the clock tree and resetting the RCC completes (no array of
    links overflows, no assertion fails, no division by zero happens) and
    establishes the invariant: the tree implements the registers. *)
Theorem rcc_start_establishes (bit64 osc osc32 : Z) :
  osc_ok osc osc32 ->
  exists s t, rcc_start bit64 osc osc32 = Done () s t /\ rcc_inv s.
Proof. apply start_ok. Qed.

Lemma rcc_start_establishes_witness :
  exists s t, rcc_start 0 8000000 32768 = Done () s t /\ rcc_inv s.
Proof. apply (rcc_start_establishes 0 8000000 32768). unfold osc_ok. lia. Defined.

(** C28 (rcc.write_total).  From a state that satisfies the invariant, every
    write of any size to any offset completes and keeps the invariant, except
    that selecting the reserved value 3 of the SW field stops the emulator. *)
Theorem rcc_write_total (bit64 off v size : Z) (s : Stm32Rcc) :
  rcc_inv s ->
  if (off =? RCC_CFGR_OFFSET) && (size =? 4) && (f_sw (u32 v) =? 3)
  then stm32_rcc_write bit64 off v size s = Halt HwError
  else exists s' t, stm32_rcc_write bit64 off v size s = Done () s' t /\ rcc_inv s'.
Proof.
  intros Hinv. destruct (_ && _) eqn:Hbad.
  - rewrite !andb_true_iff, !Z.eqb_eq in Hbad. destruct Hbad as ((-> & ->) & Hsw).
    destruct Hinv as (k & Hat & _). by eapply CFGR_write_bad.
  - destruct (wp_Done _ _ _ (rcc_write_inv bit64 off v size s Hinv ltac:(lia))) as ([] & s' & t & Hrun & Hi).
    exists s', t. split; [exact Hrun | exact Hi].
Qed.

(** Switching to the HSE oscillator works; the reserved value does not. *)
Lemma rcc_write_total_witness :
  (exists s' t, stm32_rcc_write 0 RCC_CFGR_OFFSET 1 4 rcc_demo = Done () s' t /\ rcc_inv s') /\
  stm32_rcc_write 0 RCC_CFGR_OFFSET 3 4 rcc_demo = Halt HwError.
Proof.
  split; [apply (rcc_write_total 0 RCC_CFGR_OFFSET 1 4 rcc_demo rcc_demo_inv)
         | apply (rcc_write_total 0 RCC_CFGR_OFFSET 3 4 rcc_demo rcc_demo_inv)].
Defined.

(** *** The clock diagram of the last values written *)

Inductive rcc_op : Type := RccWrite (off v size : Z) | RccReset.

Definition rcc_do (bit64 : Z) (op : rcc_op) : RccM unit :=
  match op with RccWrite off v size => stm32_rcc_write bit64 off v size | RccReset => stm32_rcc_reset bit64 end.

(** The write that stops the emulator. *)
Definition rcc_op_ok (op : rcc_op) : bool :=
  match op with RccWrite off v size => negb ((off =? RCC_CFGR_OFFSET) && (size =? 4) && (f_sw (u32 v) =? 3)) | RccReset => true end.

(** The last values that CR and CFGR have been given. *)
Definition last_written (w : Z * Z) (op : rcc_op) : Z * Z :=
  match op with
  | RccWrite off v size =>
      if negb (size =? 4) then w else if off =? RCC_CR_OFFSET then (u32 v, w.2) else if off =? RCC_CFGR_OFFSET then (w.1, u32 v) else w
  | RccReset => (0x83, 0)
  end.

(** SYSCLK, HCLK, PCLK1 and PCLK2 for values of CR and CFGR: the oscillators that CR turns
    on, the PLL, the system clock switch and the prescalers. *)
Definition clock_diagram (osc cr cfgr : Z) : Z * Z * Z * Z :=
  let hsi := if Z.testbit cr 0 then HSI_FREQ else 0 in
  let hse := if Z.testbit cr 16 then osc else 0 in
  let input := if f_pllsrc cfgr =? 0 then hsi / 2 else if f_xtpre cfgr =? 0 then hse else hse / 2 in
  let pll := if Z.testbit cr 24 then input * (if f_pllmul cfgr =? 15 then 16 else f_pllmul cfgr + 2) else 0 in
  let sysclk := if f_sw cfgr =? 0 then hsi else if f_sw cfgr =? 1 then hse else pll in
  let hclk := sysclk / (if f_hpre cfgr <? 8 then 1 else 2 * (f_hpre cfgr - 7)) in
  (sysclk, hclk, hclk / (if f_ppre1 cfgr <? 4 then 1 else 2 * (f_ppre1 cfgr - 3)),
   hclk / (if f_ppre2 cfgr <? 4 then 1 else 2 * (f_ppre2 cfgr - 3))).

(** The state shows these values. *)
Record shows (osc : Z) (w : Z * Z) (k : conf) (s : Stm32Rcc) : Prop := {
  sh_regs : conf_regs k s;
  sh_osc : osc_freq s = osc;
  sh_on : k_on k iHSI = Z.testbit w.1 0 /\ k_on k iHSE = Z.testbit w.1 16 /\ k_on k iPLL = Z.testbit w.1 24;
  sh_pll : RCC_CFGR_PLLMUL s = f_pllmul w.2 /\ RCC_CFGR_PLLXTPRE s = f_xtpre w.2 /\ RCC_CFGR_PLLSRC s = f_pllsrc w.2;
  sh_bus : RCC_CFGR_PPRE2 s = f_ppre2 w.2 /\ RCC_CFGR_PPRE1 s = f_ppre1 w.2 /\ RCC_CFGR_HPRE s = f_hpre w.2;
  sh_sw : RCC_CFGR_SW s = f_sw w.2
}.

Definition rcc_shows (osc : Z) (w : Z * Z) (s : Stm32Rcc) : Prop := exists k, rcc_at k s /\ shows osc w k s.

Lemma shows_eq osc w k s s' : regs s' = regs s -> shows osc w k s -> shows osc w k s'.
Proof. intros Hr [H0 H1 H2 H3 H4 H5]. pose proof (conf_regs_eq k s s' Hr H0). apply regs_inj_fields in Hr. rewrite Hr in *. by split. Qed.

Lemma writes_shows osc w k' s0 : shows osc w k' s0 -> forall a s' t, writes k' s0 a s' t -> rcc_shows osc w s'.
Proof. intros Hs a s' t [Hat Hr]. exists k'. split; [done |]. by eapply shows_eq. Qed.

Lemma shows_turn osc w n en k s : n ∉ [iHSI; iHSE; iPLL; 36%nat] -> shows osc w k s -> shows osc w (turn n en k) s.
Proof.
  rewrite !not_elem_of_cons. intros (N0 & N2 & N8 & N36 & _) [H0 H1 (H2 & H3 & H4) H5 H6 H7].
  assert (Hother : forall i, i <> n -> k_on (turn n en k) i = k_on k i).
  { intros i Hi. change ((if (i =? n)%nat then en else k_on k i) = k_on k i). by rewrite (proj2 (Nat.eqb_neq i n) Hi). }
  split; try done; [by apply conf_regs_turn |]. by rewrite !Hother by (intros Hn; by symmetry in Hn).
Qed.

Lemma shows_turn_all osc w bit64 v l k s :
  forallb (λ '(p, _), bool_decide (default 0%nat (default None (periph_table !! Z.to_nat p)) ∉ [iHSI; iHSE; iPLL; 36%nat])) l = true ->
  shows osc w k s -> shows osc w (turn_all bit64 v l k) s.
Proof.
  revert k. induction l as [|[p b] l IH]; intros k Hall Hs; [done |]. cbn [forallb] in Hall. apply andb_prop in Hall as [Hp%bool_decide_eq_true Hall].
  apply IH; [done |]. by apply shows_turn.
Qed.

Lemma shows_CR osc w v k s : shows osc w k s -> shows osc (v, w.2) (cr_conf v k) s.
Proof.
  intros [H0 H1 H2 H3 H4 H5]. split; try done.
  - by do 3 (apply conf_regs_turn; [done |]).
  - cbn. by rewrite !cbool_BIT.
Qed.

Lemma shows_CFGR osc w v k s : f_sw v <> 3 -> shows osc w k s -> shows osc (w.1, v) (cfgr_conf v k) (cfgr_regs v s).
Proof. intros Hsw [H0 H1 H2 H3 H4 H5]. split; try done. apply CFGR_conf; [done | apply H0..]. Qed.

Lemma shows_BDCR osc w v k s : shows osc w k s -> shows osc w (bdcr_conf v k) (s <| RTC_SEL := f_rtcsel v |>).
Proof.
  intros Hs. assert (0 <= f_rtcsel v < 4) by (apply (masked_range v 0x300 8 2); lia).
  assert (H1 : shows osc w (turn iLSE (cbool (v .& BIT RCC_BDCR_LSEON_BIT)) k <| k_rtcsel := f_rtcsel v - 1 |>) (s <| RTC_SEL := f_rtcsel v |>)).
  { destruct Hs as [[] H1 H2 H3 H4 H5]. by split; try done; split. }
  unfold bdcr_conf. destruct (cbool (f_rtcsel v)); [| done]. by apply shows_turn; [apply (bool_decide_unpack _); vm_compute |].
Qed.

Lemma reset_shows bit64 osc k s : rcc_at k s -> k_on k 36%nat = false -> osc_freq s = osc -> wp (stm32_rcc_reset bit64) (λ _ s' _, rcc_shows osc (0x83, 0) s') s.
Proof.
  intros Hat Hd Hosc. unfold stm32_rcc_reset.
  apply wp_bind. eapply wp_mono; [by apply CR_write_ok |]. intros _ s1 _ [Hat1 Hr1].
  apply wp_bind. eapply wp_mono; [by apply CFGR_write_ok |]. intros _ s2 _ [Hat2 Hr2].
  apply wp_bind. eapply wp_mono; [by apply APB2ENR_write_ok |]. intros _ s3 _ [Hat3 Hr3].
  apply wp_bind. eapply wp_mono; [by apply APB1ENR_write_ok |]. intros _ s4 _ [Hat4 Hr4].
  apply wp_bind. eapply wp_mono; [by apply AHBENR_write_ok |]. intros _ s5 _ [Hat5 Hr5].
  apply wp_bind. eapply wp_mono; [by apply BDCR_write_ok |]. intros _ s6 _ [Hat6 Hr6].
  eapply wp_mono; [by apply CSR_write_ok |]. intros _ s7 _ [Hat7 Hr7].
  eexists. split; [exact Hat7 |]. apply (shows_eq _ _ _ s6); [done |]. apply (shows_eq _ _ _ (s5 <| RTC_SEL := 0 |>)); [done |].
  apply shows_turn; [apply (bool_decide_unpack _); vm_compute; exact I |]. apply regs_inj_fields in Hr1, Hr2, Hr3, Hr4, Hr5. rewrite Hr5, Hr4, Hr3, Hr2, Hr1. subst osc.
  by split.
Qed.

Lemma write_shows bit64 osc w off v size s : rcc_shows osc w s -> rcc_op_ok (RccWrite off v size) = true ->
  wp (stm32_rcc_write bit64 off v size) (λ _ s' _, rcc_shows osc (last_written w (RccWrite off v size)) s') s.
Proof.
  intros (k & Hat & Hs) Hok. unfold stm32_rcc_write, rcc_op_ok, last_written in *. destruct (Z.eqb_spec size 4) as [-> |]; [| by exists k].
  cbn [negb]. rewrite andb_true_r in Hok. unfold stm32_rcc_writew. destruct (Z.eqb_spec off RCC_CR_OFFSET) as [-> |].
  { eapply wp_mono; [by apply CR_write_ok | apply writes_shows]. by apply shows_CR. }
  destruct (Z.eqb_spec off RCC_CFGR_OFFSET) as [-> |].
  { assert (f_sw (u32 v) <> 3) by (by apply Z.eqb_neq, negb_true_iff). eapply wp_mono; [by apply CFGR_write_ok | apply writes_shows]. by apply shows_CFGR. }
  destruct (off =? RCC_CIR_OFFSET); [by exists k |]. destruct (off =? RCC_APB2RSTR_OFFSET); [by exists k |]. destruct (off =? RCC_APB1RSTR_OFFSET); [by exists k |].
  destruct (off =? RCC_AHBENR_OFFSET).
  { eapply wp_mono; [by apply AHBENR_write_ok | apply writes_shows]. apply shows_turn_all; [by vm_compute |]. by destruct Hs as [[]]. }
  destruct (off =? RCC_APB2ENR_OFFSET).
  { eapply wp_mono; [by apply APB2ENR_write_ok | apply writes_shows]. apply shows_turn_all; [by vm_compute |]. by destruct Hs as [[]]. }
  destruct (off =? RCC_APB1ENR_OFFSET).
  { eapply wp_mono; [by apply APB1ENR_write_ok | apply writes_shows]. apply shows_turn_all; [by vm_compute |]. by destruct Hs as [[]]. }
  destruct (off =? RCC_BDCR_OFFSET). { eapply wp_mono; [by apply BDCR_write_ok | apply writes_shows]. by apply shows_BDCR. }
  destruct (off =? RCC_CSR_OFFSET).
  { eapply wp_mono; [by apply CSR_write_ok | apply writes_shows]. by apply shows_turn; [apply (bool_decide_unpack _); vm_compute |]. }
  destruct (off =? RCC_AHBRSTR); [by exists k |]. destruct (off =? RCC_CFGR2_OFFSET); by exists k.
Qed.

Lemma ops_show bit64 osc ops : forall w s, rcc_shows osc w s -> forallb rcc_op_ok ops = true ->
  wp (for_each ops (rcc_do bit64)) (λ _ s' _, rcc_shows osc (foldl last_written w ops) s') s.
Proof.
  induction ops as [|op ops IH]; intros w s Hs Hok; [done |]. apply andb_prop in Hok as [Hop Hok]. cbn [for_each foldl]. apply wp_bind.
  assert (Hw : wp (rcc_do bit64 op) (λ _ s' _, rcc_shows osc (last_written w op) s') s).
  { destruct op as [off v size |]; [by apply write_shows |]. destruct Hs as (k & Hat & Hs). apply (reset_shows bit64 osc k); [done | apply Hs..]. }
  eapply wp_mono; [exact Hw |]. intros [] s1 t1 Hs1. by apply IH.
Qed.

Lemma on_spec k s n nd on : rcc_at k s -> rcc_spec (osc_freq s) (osc32_freq s) k !! n = Some nd -> n_enabled nd = eq on -> is_on (tree s) n = on.
Proof.
  intros Hat Hn He. destruct (tracks_lookup _ _ _ _ (at_tracks _ _ Hat) Hn) as (c & Hc & Himpl). pose proof (impl_enabled _ _ Himpl) as Hen. rewrite He in Hen.
  unfold is_on. by rewrite Hc.
Qed.

Lemma on_conf k s n on ins outs sc sel :
  rcc_at k s -> rcc_spec (osc_freq s) (osc32_freq s) k !! n = Some (mux_node on ins outs sc sel) ->
  is_on (tree s) n = on.
Proof. intros Hat Hn. by apply (on_spec k s n _ on Hat Hn). Qed.

Lemma shown_frequencies osc w s : rcc_shows osc w s ->
  (clock_output SYSCLK s, clock_output HCLK s, clock_output PCLK1 s, clock_output PCLK2 s) = clock_diagram osc w.1 w.2.
Proof.
  intros (k & Hat & [Hc Hosc (On0 & On2 & On8) (F1 & F2 & F3) (F4 & F5 & F6) F7]). unfold clock_output.
  rewrite (p_SYS _ (at_ptrs _ _ Hat)), (p_HCLK _ (at_ptrs _ _ Hat)), (p_PCLK1 _ (at_ptrs _ _ Hat)), (p_PCLK2 _ (at_ptrs _ _ Hat)).
  rewrite (freq_sysclk k s Hat Hc). destruct (freq_buses k s Hat Hc) as (-> & -> & ->).
  unfold clock_diagram, spec_pclk1, spec_pclk2, spec_hclk, spec_sysclk, spec_pll, spec_pll_input, spec_hsi, spec_hse, clock_on.
  rewrite (p_HSI _ (at_ptrs _ _ Hat)), (p_HSE _ (at_ptrs _ _ Hat)), (p_PLL _ (at_ptrs _ _ Hat)).
  rewrite (on_spec k s iHSI _ (k_on k iHSI) Hat eq_refl eq_refl), (on_spec k s iHSE _ (k_on k iHSE) Hat eq_refl eq_refl),
    (on_spec k s iPLL _ (k_on k iPLL) Hat eq_refl eq_refl).
  by rewrite On0, On2, On8, F1, F2, F3, F4, F5, F6, F7, Hosc.
Qed.

(** C10 (rcc.frequencies).  On a board whose oscillator has between 256 Hz and [2 ^ 28]
    Hz, after the tree is built and reset and any sequence of register writes and resets
    (other than writing the reserved value 3 to the field SW, which stops the emulator),
    the outputs of the tree are the clock diagram of the manual for the last values
    written to CR and CFGR: SYSCLK is the selected oscillator or the PLL output, HCLK is
    SYSCLK and PCLK1 and PCLK2 are HCLK divided by the prescalers as the code has them. *)
Theorem rcc_frequencies (bit64 osc osc32 : Z) (ops : list rcc_op) :
  osc_ok osc osc32 -> forallb rcc_op_ok ops = true ->
  exists s0 t0 s t, rcc_start bit64 osc osc32 = Done () s0 t0 /\ for_each ops (rcc_do bit64) s0 = Done () s t /\
    let w := foldl last_written (0x83, 0) ops in
    (clock_output SYSCLK s, clock_output HCLK s, clock_output PCLK1 s, clock_output PCLK2 s) = clock_diagram osc w.1 w.2.
Proof.
  intros Ho Hok. assert (Hw : wp (stm32_rcc_init_clk ;; stm32_rcc_reset bit64) (λ _ s' _, rcc_shows osc (0x83, 0) s') (rcc_zero osc osc32)).
  { apply wp_bind. unfold wp at 1. rewrite init_clk_done. by eapply reset_shows; [apply built_at | |]. }
  apply wp_Done in Hw as ([] & s0 & t0 & Hrun0 & Hs0). destruct (wp_Done _ _ _ (ops_show bit64 osc ops _ _ Hs0 Hok)) as ([] & s & t & Hrun & Hs).
  exists s0, t0, s, t. split; [exact Hrun0 |]. split; [exact Hrun |]. by apply shown_frequencies.
Qed.

(** HSE on, the PLL times nine from it, SYSCLK from the PLL, PCLK1 halved. *)
Lemma rcc_frequencies_witness :
  let ops := [RccWrite RCC_CR_OFFSET 0x01010083 4; RccWrite RCC_CFGR_OFFSET 0x1d0402 4] in
  exists s0 t0 s t, rcc_start 0 8000000 32768 = Done () s0 t0 /\ for_each ops (rcc_do 0) s0 = Done () s t /\
    (clock_output SYSCLK s, clock_output HCLK s, clock_output PCLK1 s, clock_output PCLK2 s) = (72000000, 72000000, 36000000, 72000000).
Proof.
  intros ops. destruct (rcc_frequencies 0 8000000 32768 ops) as (s0 & t0 & s & t & H0 & H1 & Heq); [unfold osc_ok; lia | reflexivity |].
  exists s0, t0, s, t. split; [exact H0 |]. split; [exact H1 |]. etrans; [exact Heq |]. vm_compute. reflexivity.
Defined.

(** *** Peripheral gates *)

(** A peripheral clock follows its bus when it is on. *)
Lemma gate_freq k s n p on :
  rcc_at k s -> rcc_spec (osc_freq s) (osc32_freq s) k !! n = Some (mux_node on [p] [] (1, 1) 0) ->
  freq (tree s) n = if on then freq (tree s) p else 0.
Proof.
  intros Hat Hn. rewrite (freq_mux k s Hat _ _ _ _ _ _ p Hn) by done.
  rewrite (on_conf k s _ _ _ _ _ _ Hat Hn). unfold scaled. destruct on; [| done]. cbn.
  rewrite Z.mul_1_r, Z.div_1_r. apply u32_small. unfold freq. destruct (at_tracks _ _ Hat) as [Hcons _].
  destruct (tree s !! p) as [c |] eqn:Hcl; cbn; [by eapply output_freq_range | lia].
Qed.

Lemma periph_freq_at k s periph n on p :
  rcc_at k s -> default None (periph_table !! Z.to_nat periph) = Some n ->
  rcc_spec (osc_freq s) (osc32_freq s) k !! n = Some (mux_node on [p] [] (1, 1) 0) ->
  periph_freq s periph = if on then freq (tree s) p else 0.
Proof.
  intros Hat Hp Hn. cbn. unfold clock_output, periph_clk. rewrite (p_periph _ (at_ptrs _ _ Hat)), Hp.
  by eapply gate_freq.
Qed.

(** After a write of [v] to APB2ENR (APB1ENR), every
    peripheral with a bit in the register runs at the frequency of its bus,
    PCLK2 (PCLK1), if the bit is set in [v] and is stopped if it is clear. *)
Theorem apb_gates (bit64 v : Z) (s : Stm32Rcc) :
  rcc_inv s ->
  (exists s' t, stm32_rcc_write bit64 RCC_APB2ENR_OFFSET v 4 s = Done () s' t /\
     forall periph bit, (periph, bit) ∈ apb2_table ->
       periph_freq s' periph = if Z.testbit (u32 v) bit then spec_pclk2 s' else 0) /\
  (exists s' t, stm32_rcc_write bit64 RCC_APB1ENR_OFFSET v 4 s = Done () s' t /\
     forall periph bit, (periph, bit) ∈ apb1_table ->
       periph_freq s' periph = if Z.testbit (u32 v) bit then spec_pclk1 s' else 0).
Proof.
  intros (k & Hat & Hc). split.
  - destruct (wp_Done _ _ _ (APB2ENR_write_ok bit64 (u32 v) false k s Hat)) as ([] & s' & t & Hrun & Hat' & Hr).
    exists s', t. split; [exact Hrun |]. intros periph bit Hin.
    assert (Hc' : conf_regs (turn_all bit64 (u32 v) apb2_table k) s').
    { eapply conf_regs_eq; [exact Hr |]. apply conf_regs_turn_all; [by vm_compute |]. by destruct Hc. }
    rewrite <- (proj2 (proj2 (freq_buses _ s' Hat' Hc'))).
    unfold apb2_table in Hin. rewrite !elem_of_cons in Hin.
    repeat destruct Hin as [[= -> ->] | Hin]; [.. | by apply elem_of_nil in Hin];
      rewrite <- cbool_BIT by done; (eapply periph_freq_at; [exact Hat' | reflexivity | reflexivity]).
  - destruct (wp_Done _ _ _ (APB1ENR_write_ok bit64 (u32 v) false k s Hat)) as ([] & s' & t & Hrun & Hat' & Hr).
    exists s', t. split; [exact Hrun |]. intros periph bit Hin.
    assert (Hc' : conf_regs (turn_all bit64 (u32 v) apb1_table k) s').
    { eapply conf_regs_eq; [exact Hr |]. apply conf_regs_turn_all; [by vm_compute |]. by destruct Hc. }
    rewrite <- (proj1 (proj2 (freq_buses _ s' Hat' Hc'))).
    unfold apb1_table in Hin. rewrite !elem_of_cons in Hin.
    repeat destruct Hin as [[= -> ->] | Hin]; [.. | by apply elem_of_nil in Hin];
      rewrite <- cbool_BIT by done; (eapply periph_freq_at; [exact Hat' | reflexivity | reflexivity]).
Qed.

(** Setting bit 2 of APB2ENR starts GPIOA. *)
Lemma apb_gates_witness :
  exists s' t, stm32_rcc_write 0 RCC_APB2ENR_OFFSET 4 4 rcc_demo = Done () s' t /\
    periph_freq s' STM32_GPIOA = spec_pclk2 s'.
Proof.
  destruct (apb_gates 0 4 rcc_demo rcc_demo_inv) as [(s' & t & Hrun & Hall) _].
  exists s', t. split; [exact Hrun |].
  apply (Hall STM32_GPIOA RCC_APB2ENR_IOPAEN_BIT). apply (bool_decide_unpack _). by vm_compute.
Defined.

Lemma cfgr_fields_merge v :
  u32 (f_pllmul v << RCC_CFGR_PLLMUL_START) .| u32 (f_xtpre v << RCC_CFGR_PLLXTPRE_BIT) .|
  u32 (f_pllsrc v << RCC_CFGR_PLLSRC_BIT) .| u32 (f_ppre2 v << RCC_CFGR_PPRE2_START) .|
  u32 (f_ppre1 v << RCC_CFGR_PPRE1_START) .| u32 (f_hpre v << RCC_CFGR_HPRE_START) .|
  u32 (f_sw v << RCC_CFGR_SW_START) .| u32 (f_sw v << RCC_CFGR_SWS_START)
  = (v .& 0x3f3ff3) .| ((v .& 3) << RCC_CFGR_SWS_START).
Proof.
  unfold f_pllmul, f_xtpre, f_pllsrc, f_ppre2, f_ppre1, f_hpre, f_sw, extract32.
  unfold RCC_CFGR_PLLMUL_START, RCC_CFGR_PLLMUL_LENGTH, RCC_CFGR_PLLXTPRE_BIT, RCC_CFGR_PLLSRC_BIT,
    RCC_CFGR_PPRE2_MASK, RCC_CFGR_PPRE2_START, RCC_CFGR_PPRE1_MASK, RCC_CFGR_PPRE1_START,
    RCC_CFGR_HPRE_MASK, RCC_CFGR_HPRE_START, RCC_CFGR_SW_MASK, RCC_CFGR_SW_START, RCC_CFGR_SWS_START.
  apply (bits_eq_upto 32); [lia | repeat apply lor_bound; auto with zbits; lia | |].
  { pose proof (land_bound 2 v 3 ltac:(lia) ltac:(lia)).
    apply lor_bound; [lia | apply land_bound; lia | rewrite Z.shiftl_mul_pow2 by lia; lia]. }
  intros i Hi. unfold u32. zbit_simp. enum_upto i 32; cbn [Z.ltb Z.leb Z.compare Pos.compare Pos.compare_cont andb orb Z.sub Z.add Z.opp Pos.sub];
    zbit_simp; cbn; rewrite ?andb_false_r, ?andb_true_r, ?orb_false_r; done.
Qed.

(** A completed write of [v] to CFGR is read back
    as the fields of [v] the emulator implements (PLLMUL, PLLXTPRE, PLLSRC,
    PPRE2, PPRE1, HPRE and SW), with SWS equal to SW. *)
Theorem cfgr_roundtrip (bit64 v : Z) (s : Stm32Rcc) :
  rcc_inv s -> f_sw (u32 v) <> 3 ->
  exists s' t, stm32_rcc_write bit64 RCC_CFGR_OFFSET v 4 s = Done () s' t /\
    stm32_rcc_read RCC_CFGR_OFFSET 4 s' =
      Done ((u32 v .& 0x3f3ff3) .| ((u32 v .& 3) << RCC_CFGR_SWS_START)) s' [].
Proof.
  intros (k & Hat & _) Hsw.
  destruct (wp_Done _ _ _ (CFGR_write_ok (u32 v) false k s Hat Hsw)) as ([] & s' & t & Hrun & _ & Hr).
  exists s', t. split; [exact Hrun |]. apply regs_inj_fields in Hr.
  change (stm32_rcc_read RCC_CFGR_OFFSET 4 s') with (stm32_rcc_RCC_CFGR_read s').
  unfold stm32_rcc_RCC_CFGR_read, mbind, M_bind, get. cbn [mret M_ret app]. f_equal.
  rewrite Hr. cbn -[u32]. apply cfgr_fields_merge.
Qed.

(** HSE as PLL source, multiplied by nine, PLL selected: 72 MHz. *)
Lemma cfgr_roundtrip_witness :
  exists s' t, stm32_rcc_write 0 RCC_CFGR_OFFSET 0x1d0002 4 rcc_demo = Done () s' t /\
    stm32_rcc_read RCC_CFGR_OFFSET 4 s' = Done 0x1d000a s' [].
Proof. apply (cfgr_roundtrip 0 0x1d0002 rcc_demo rcc_demo_inv). by vm_compute. Defined.

(** ** Reachable states *)

Inductive rcc_reachable (bit64 osc osc32 : Z) : Stm32Rcc → Prop :=
  | reach_start s t : rcc_start bit64 osc osc32 = Done () s t -> rcc_reachable bit64 osc osc32 s
  | reach_write s off v size s' t :
      rcc_reachable bit64 osc osc32 s ->
      stm32_rcc_write bit64 off v size s = Done () s' t -> rcc_reachable bit64 osc osc32 s'.

Lemma rcc_reachable_inv bit64 osc osc32 s :
  osc_ok osc osc32 -> rcc_reachable bit64 osc osc32 s -> rcc_inv s.
Proof.
  intros Ho Hr. induction Hr as [s t Hs | s off v size s' t Hr IH Hw].
  - destruct (start_ok bit64 osc osc32 Ho) as (s1 & t1 & H1 & Hi). congruence.
  - destruct ((off =? RCC_CFGR_OFFSET) && (size =? 4) && (f_sw (u32 v) =? 3)) eqn:Hbad.
    + rewrite !andb_true_iff, !Z.eqb_eq in Hbad. destruct Hbad as ((-> & ->) & Hsw).
      destruct IH as (k & Hat & _). pose proof (CFGR_write_bad (u32 v) false k s Hat Hsw) as Hb.
      unfold stm32_rcc_write, stm32_rcc_writew in Hw. cbn in Hw, Hb. congruence.
    + pose proof (rcc_write_inv bit64 off v size s IH ltac:(lia)) as Hwp. unfold wp in Hwp.
      by rewrite Hw in Hwp.
Qed.

(** No sequence of register writes starts the clock
    of the DAC: the enable bit of APB1ENR that [RCC_APB1ENR_DACEN_BIT] names
    is not handled, so the DAC always sees the frequency 0. *)
Theorem dac_clock_stuck (bit64 osc osc32 : Z) (s : Stm32Rcc) :
  osc_ok osc osc32 -> rcc_reachable bit64 osc osc32 s ->
  stm32_rcc_get_periph_freq STM32_DAC s = Done 0 s [].
Proof.
  intros Ho Hr. pose proof (rcc_reachable_inv _ _ _ _ Ho Hr) as Hinv.
  assert (Hp : periph_clk STM32_DAC s = Some 36%nat).
  { destruct Hinv as (k & Hat & _). unfold periph_clk. by rewrite (p_periph _ (at_ptrs _ _ Hat)). }
  rewrite get_periph_freq_ok; [| done | by rewrite Hp]. f_equal.
  destruct Hinv as (k & Hat & Hc).
  erewrite periph_freq_at; [| done | reflexivity | reflexivity]. by rewrite (cr_dac _ _ Hc).
Qed.

(** Even with every bit of APB1ENR set. *)
Lemma dac_clock_stuck_witness :
  exists s, rcc_reachable 0 8000000 32768 s /\ stm32_rcc_get_periph_freq STM32_DAC s = Done 0 s [].
Proof.
  destruct (start_ok 0 8000000 32768) as (s0 & t0 & H0 & Hinv); [unfold osc_ok; lia |].
  destruct (wp_Done _ _ _ (rcc_write_inv 0 RCC_APB1ENR_OFFSET 0xffffffff 4 s0 Hinv ltac:(unfold RCC_APB1ENR_OFFSET, RCC_CFGR_OFFSET; lia)))
    as ([] & s1 & t1 & H1 & _).
  assert (Hr : rcc_reachable 0 8000000 32768 s1) by (eapply reach_write; [eapply reach_start, H0 | exact H1]).
  exists s1. split; [exact Hr |]. apply (dac_clock_stuck 0 8000000 32768 s1); [unfold osc_ok; lia | exact Hr].
Defined.
