(* ===== verification/Gpio.v ===== *)
(** * GPIO ports ([hw/gpio/stm32_gpio.c])

    A port has sixteen pins.  Its output lines 0 to 15 are the [out_irq]
    array (the pins as the board sees them); the lines 16 to 31 are the
    [in_irq] array, which relays the input pins to the AFIO and EXTI. *)

From S2P Require Import Prelude Stm32.

Definition GPIOx_CRL_OFFSET : Z := 0x00.
Definition GPIOx_CRH_OFFSET : Z := 0x04.
Definition GPIOx_IDR_OFFSET : Z := 0x08.
Definition GPIOx_ODR_OFFSET : Z := 0x0c.
Definition GPIOx_BSRR_OFFSET : Z := 0x10.
Definition GPIOx_BRR_OFFSET : Z := 0x14.
Definition GPIOx_LCKR_OFFSET : Z := 0x18.

Definition out_line (pin : Z) : Z := pin.
Definition in_line (pin : Z) : Z := 16 + pin.

Record Stm32Gpio : Type := mkGpio {
  periph : Z;
  GPIOx_CRL : Z;        (* GPIOx_CRy[0] *)
  GPIOx_CRH : Z;        (* GPIOx_CRy[1] *)
  GPIOx_ODR : Z;
  in_ : Z;
  dir_mask : Z
}.

#[export] Instance Stm32Gpio_settable : Settable Stm32Gpio := λ s,
  mkGpio (periph s) (GPIOx_CRL s) (GPIOx_CRH s) (GPIOx_ODR s) (in_ s) (dir_mask s).

Abbreviation GpioM := (M dev_event Stm32Gpio).

(** ** Callback *)

Definition stm32_gpio_in_trigger (irq level : Z) : GpioM unit :=
  let pin := u32 irq in
  assert_ (pin <? STM32_GPIO_PIN_COUNT) ;;
  modify (λ s, s <| in_ := u16 (in_ s .& not32 (1 << pin)) |>) ;;
  modify (λ s, s <| in_ := u16 (in_ s .| (b2z (cbool level) << pin)) |>) ;;
  emit (SetIrq (in_line pin) level).

(** ** Pin configuration *)

Definition stm32_gpio_get_pin_config (s : Stm32Gpio) (pin : Z) : Z :=
  let cr_64 := (GPIOx_CRH s << 32) .| GPIOx_CRL s in
  u8 (extract64 cr_64 (pin * 4) 4).

Definition stm32_gpio_get_config_bits (s : Stm32Gpio) (pin : Z) : Z :=
  (stm32_gpio_get_pin_config s pin >> 2) .& 0x3.

Definition stm32_gpio_get_mode_bits (s : Stm32Gpio) (pin : Z) : Z :=
  stm32_gpio_get_pin_config s pin .& 0x3.

(** ** Register implementation *)

(** One iteration: the direction bit of one pin. *)
Definition update_dir_pin (pin : Z) : GpioM unit :=
  pin_dir ← gets (λ s, stm32_gpio_get_mode_bits s pin);
  modify (λ s, s <| dir_mask := u16 (dir_mask s .& not32 (1 << pin)) |>) ;;
  modify (λ s, s <| dir_mask := u16 (dir_mask s .| (b2z (cbool pin_dir) << pin)) |>).

Definition stm32_gpio_update_dir (cr_index : Z) : GpioM unit :=
  assert_ ((cr_index =? 0) || (cr_index =? 1)) ;;
  let start_pin := cr_index * 8 in
  for_each (zrange start_pin 8) update_dir_pin.

Definition stm32_gpio_GPIOx_ODR_write (new_value : Z) : GpioM unit :=
  old_value ← gets GPIOx_ODR;
  modify (λ s, s <| GPIOx_ODR := new_value .& 0x0000ffff |>) ;;
  let changed := u16 (old_value .^ new_value) in
  s ← get;
  let changed_out := changed .& dir_mask s in
  when (cbool changed_out)
    (for_each (zrange 0 16) (λ pin,
       when (cbool (changed_out .& BIT pin))
         (emit (SetIrq (out_line pin) (b2z (cbool (GPIOx_ODR s .& BIT pin))))))).

Definition stm32_gpio_read (offset size : Z) : GpioM Z :=
  assert_ (size =? 4) ;;
  if offset =? GPIOx_CRL_OFFSET then gets GPIOx_CRL
  else if offset =? GPIOx_CRH_OFFSET then gets GPIOx_CRH
  else if offset =? GPIOx_IDR_OFFSET then gets in_
  else if offset =? GPIOx_ODR_OFFSET then gets GPIOx_ODR
  else if offset =? GPIOx_BSRR_OFFSET then emit (Report WriteOnlyReg) ;; mret 0
  else if offset =? GPIOx_BRR_OFFSET then emit (Report WriteOnlyReg) ;; mret 0
  else if offset =? GPIOx_LCKR_OFFSET then mret 0
  else emit (Report BadReg) ;; mret 0.

Section Rcc.
  Context {R : Type} `{PeriphClocks R} (rcc : R).

Definition stm32_gpio_write (offset value size : Z) : GpioM unit :=
  assert_ (size =? 4) ;;
  p ← gets periph;
  check_periph_clk rcc p ;;
  if offset =? GPIOx_CRL_OFFSET then
    modify (λ s, s <| GPIOx_CRL := u32 value |>) ;; stm32_gpio_update_dir 0
  else if offset =? GPIOx_CRH_OFFSET then
    modify (λ s, s <| GPIOx_CRH := u32 value |>) ;; stm32_gpio_update_dir 1
  else if offset =? GPIOx_IDR_OFFSET then emit (Report ReadOnlyReg)
  else if offset =? GPIOx_ODR_OFFSET then stm32_gpio_GPIOx_ODR_write (u32 value)
  else if offset =? GPIOx_BSRR_OFFSET then
    let set_mask := value .& 0x0000ffff in
    let reset_mask := not32 (value >> 16) .& 0x0000ffff in
    odr ← gets GPIOx_ODR;
    stm32_gpio_GPIOx_ODR_write ((odr .& reset_mask) .| set_mask)
  else if offset =? GPIOx_BRR_OFFSET then
    let reset_mask := not32 value .& 0x0000ffff in
    odr ← gets GPIOx_ODR;
    stm32_gpio_GPIOx_ODR_write (odr .& reset_mask)
  else if offset =? GPIOx_LCKR_OFFSET then emit (Report NotImplReg)
  else emit (Report BadReg).

End Rcc.

Definition stm32_gpio_reset : GpioM unit :=
  modify (λ s, s <| GPIOx_CRL := 0x44444444 |> <| GPIOx_CRH := 0x44444444 |>
                 <| GPIOx_ODR := 0 |> <| dir_mask := 0 |>) ;;
  for_each (zrange 0 16) (λ pin, emit (SetIrq (out_line pin) 0)).

(** ** The invariant *)

(** The direction mask has a bit for each pin whose mode is an output. *)
Definition dir_ok (s : Stm32Gpio) (pin : Z) : Prop :=
  Z.testbit (dir_mask s) pin = cbool (stm32_gpio_get_mode_bits s pin).

Record gpio_inv (s : Stm32Gpio) : Prop := {
  g_crl : 0 <= GPIOx_CRL s < 2 ^ 32;
  g_crh : 0 <= GPIOx_CRH s < 2 ^ 32;
  g_odr : 0 <= GPIOx_ODR s < 2 ^ 16;
  g_in : 0 <= in_ s < 2 ^ 16;
  g_dir : 0 <= dir_mask s < 2 ^ 16;
  g_dir_ok : forall pin, 0 <= pin < 16 -> dir_ok s pin
}.

Lemma mode_bits_cr s s' pin :
  GPIOx_CRL s' = GPIOx_CRL s -> GPIOx_CRH s' = GPIOx_CRH s ->
  stm32_gpio_get_mode_bits s' pin = stm32_gpio_get_mode_bits s pin.
Proof.
  intros Hl Hh. unfold stm32_gpio_get_mode_bits, stm32_gpio_get_pin_config. by rewrite Hl, Hh.
Qed.

(** The two assignments of the C idiom are [put_bit]. *)
Lemma put_bit_u16 x pin b :
  0 <= x < 2 ^ 16 -> 0 <= pin < 16 ->
  u16 (u16 (x .& not32 (1 << pin)) .| (b2z b << pin)) = put_bit x pin b.
Proof.
  intros Hx Hp. unfold u16. rewrite (Z.mod_small (x .& _)).
  - apply Z.mod_small, put_bit_range; lia.
  - rewrite Z.land_comm. apply (land_bound 16); lia.
Qed.

(** One iteration of [stm32_gpio_update_dir]. *)
Definition set_dir (s : Stm32Gpio) (pin : Z) : Stm32Gpio :=
  s <| dir_mask := put_bit (dir_mask s) pin (cbool (stm32_gpio_get_mode_bits s pin)) |>.

Lemma update_dir_step pin s :
  0 <= dir_mask s < 2 ^ 16 -> 0 <= pin < 16 ->
  update_dir_pin pin s = Done () (set_dir s pin) [].
Proof.
  intros Hd Hp. unfold mbind, M_bind, gets, modify. cbn. unfold set_dir. f_equal.
  rewrite <- put_bit_u16 by lia. by destruct s.
Qed.

(** What the loop over the pins [lo .. lo + n - 1] does to the mask. *)
Definition dirs_set (lo : Z) (n : nat) (s : Stm32Gpio) :
    unit → Stm32Gpio → list dev_event → Prop := λ _ s' t',
  t' = [] /\ s' = s <| dir_mask := dir_mask s' |> /\ 0 <= dir_mask s' < 2 ^ 16 /\
  forall i, 0 <= i < 16 -> Z.testbit (dir_mask s') i =
    if (lo <=? i) && (i <? lo + Z.of_nat n) then cbool (stm32_gpio_get_mode_bits s i)
    else Z.testbit (dir_mask s) i.

Lemma update_dir_loop lo n s :
  0 <= lo -> lo + Z.of_nat n <= 16 -> 0 <= dir_mask s < 2 ^ 16 ->
  wp (for_each (zrange lo n) update_dir_pin) (dirs_set lo n s) s.
Proof.
  intros Hlo Hhi Hd.
  pose (J := λ (k : nat) (s' : Stm32Gpio) (t' : list dev_event), (k <= n)%nat -> dirs_set lo k s () s' t').
  eapply wp_mono; [apply (wp_for_each _ _ J s []) |].
  - intros _. split; [done | split; [by destruct s | split; [done |]]]. intros i Hi.
    destruct (Z.leb_spec lo i), (Z.ltb_spec i (lo + Z.of_nat 0)); cbn; try done; lia.
  - intros k x s' t' Hx HJ.
    assert (Hk : (k < n)%nat).
    { apply lookup_lt_Some in Hx. unfold zrange in Hx. by rewrite length_fmap, length_seq in Hx. }
    assert (x = lo + Z.of_nat k) as ->.
    { unfold zrange in Hx. rewrite list_lookup_fmap, lookup_seq_lt in Hx by lia. cbn in Hx. by injection Hx. }
    destruct (HJ ltac:(lia)) as (-> & Hs' & Hd' & Hbits).
    unfold wp. rewrite update_dir_step by lia. intros _. split; [done |].
    assert (Hm : forall i, stm32_gpio_get_mode_bits s' i = stm32_gpio_get_mode_bits s i)
      by (intros i; rewrite Hs'; by apply mode_bits_cr).
    split; [rewrite Hs'; by destruct s |]. split; [apply put_bit_range; lia |].
    intros i Hi. cbn. rewrite testbit_put_bit, Hm by lia. rewrite Hbits by lia.
    destruct (Z.eqb_spec (lo + Z.of_nat k) i) as [<- |].
    + destruct (Z.leb_spec lo (lo + Z.of_nat k)), (Z.ltb_spec (lo + Z.of_nat k) (lo + Z.of_nat (S k))); try lia. done.
    + destruct (Z.leb_spec lo i), (Z.ltb_spec i (lo + Z.of_nat k)), (Z.ltb_spec i (lo + Z.of_nat (S k))); try lia; done.
  - intros [] s' t' HJ. cbn in HJ. unfold zrange in HJ. rewrite length_fmap, length_seq in HJ.
    by apply HJ.
Qed.

(** ** The output pins *)

(** The pins whose line an ODR write drives, and the events. *)
Definition driven (s : Stm32Gpio) (v : Z) : list Z :=
  filter (λ pin, Z.testbit (dir_mask s) pin && xorb (Z.testbit (GPIOx_ODR s) pin) (Z.testbit v pin) = true)
    (zrange 0 16).

Definition odr_events (s : Stm32Gpio) (v : Z) : list dev_event :=
  (λ pin, SetIrq (out_line pin) (b2z (Z.testbit v pin))) <$> driven s v.

Lemma land_zero_bits x y i : x .& y = 0 -> 0 <= i -> Z.testbit x i && Z.testbit y i = false.
Proof. intros H Hi. by rewrite <- Z.land_spec, H, Z.testbit_0_l. Qed.

Lemma ODR_write_ok v s :
  stm32_gpio_GPIOx_ODR_write v s = Done () (s <| GPIOx_ODR := v .& 0xffff |>) (odr_events s v).
Proof.
  set (s' := s <| GPIOx_ODR := v .& 0xffff |>).
  set (co := u16 (GPIOx_ODR s .^ v) .& dir_mask s').
  assert (Hco : forall pin, 0 <= pin < 16 ->
    Z.testbit co pin = Z.testbit (dir_mask s) pin && xorb (Z.testbit (GPIOx_ODR s) pin) (Z.testbit v pin)).
  { intros pin Hp. unfold co, u16. rewrite Z.land_spec, testbit_mod_pow2, Z.lxor_spec by lia.
    rewrite (proj2 (Z.ltb_lt pin 16)) by lia. apply andb_comm. }
  assert (Hfilt : driven s v = filter (λ pin, cbool (co .& BIT pin) = true) (zrange 0 16)).
  { apply filter_ext_in. intros pin Hp%elem_of_zrange. by rewrite cbool_BIT, Hco by lia. }
  transitivity (when (cbool co) (for_each (zrange 0 16) (λ pin, when (cbool (co .& BIT pin))
    (emit (SetIrq (out_line pin) (b2z (cbool (GPIOx_ODR s' .& BIT pin))))))) s').
  { unfold stm32_gpio_GPIOx_ODR_write, mbind, M_bind, gets, modify, get. cbn -[u16].
    fold s'. fold co. by destruct (when _ _ s'). }
  unfold when at 1, odr_events. destruct (cbool co) eqn:Hz.
  - rewrite for_each_when_emit, Hfilt. f_equal. apply list_fmap_ext. intros i pin Hi.
    apply list_elem_of_lookup_2, list_elem_of_filter in Hi as [_ Hp%elem_of_zrange].
    rewrite cbool_BIT by lia. cbn. rewrite Z.land_spec.
    change 0xffff with (Z.ones 16). rewrite testbit_ones, (proj2 (Z.ltb_lt pin 16)), andb_true_r by lia. done.
  - apply negb_false_iff, Z.eqb_eq in Hz. rewrite Hfilt, Hz. done.
Qed.

(** ** Preservation of the invariant *)

Lemma gpio_inv_odr v s : gpio_inv s -> gpio_inv (s <| GPIOx_ODR := v .& 0xffff |>).
Proof. intros []. split; try done. cbn. apply (land_bound 16); lia. Qed.

Lemma mode_bits_low s s' pin :
  0 <= pin < 8 -> 0 <= GPIOx_CRL s < 2 ^ 32 -> GPIOx_CRL s' = GPIOx_CRL s ->
  stm32_gpio_get_mode_bits s' pin = stm32_gpio_get_mode_bits s pin.
Proof.
  intros Hp Hr Hl. unfold stm32_gpio_get_mode_bits, stm32_gpio_get_pin_config, extract64, u8. rewrite Hl.
  apply Z.bits_inj'. intros i Hi. zbit_simp. destruct (Z.ltb_spec i 8); [| done]. cbn.
  destruct (Z.ltb_spec i 4); [| by rewrite !andb_false_r].
  by rewrite (proj2 (Z.leb_gt 32 (i + pin * 4))) by lia.
Qed.

Lemma mode_bits_high s s' pin :
  8 <= pin < 16 -> 0 <= GPIOx_CRL s < 2 ^ 32 -> 0 <= GPIOx_CRL s' < 2 ^ 32 -> GPIOx_CRH s' = GPIOx_CRH s ->
  stm32_gpio_get_mode_bits s' pin = stm32_gpio_get_mode_bits s pin.
Proof.
  intros Hp Hr Hr' Hh. unfold stm32_gpio_get_mode_bits, stm32_gpio_get_pin_config, extract64, u8. rewrite Hh.
  apply Z.bits_inj'. intros i Hi. zbit_simp.
  rewrite (testbit_high 32 (GPIOx_CRL s)), (testbit_high 32 (GPIOx_CRL s')) by lia. done.
Qed.

(** A write of CRL (pins 0 to 7) or of CRH (pins 8 to 15) and the update of
    the mask that follows it. *)
Lemma update_dir_inv idx s0 s :
  gpio_inv s0 -> (idx = 0 \/ idx = 1) ->
  s = s0 <| GPIOx_CRL := GPIOx_CRL s |> <| GPIOx_CRH := GPIOx_CRH s |> ->
  0 <= GPIOx_CRL s < 2 ^ 32 -> 0 <= GPIOx_CRH s < 2 ^ 32 ->
  (if idx =? 0 then GPIOx_CRH s = GPIOx_CRH s0 else GPIOx_CRL s = GPIOx_CRL s0) ->
  wp (stm32_gpio_update_dir idx) (λ _ s' t', t' = [] /\ gpio_inv s' /\ s' = s <| dir_mask := dir_mask s' |>) s.
Proof.
  intros [H1 H2 H3 H4 H5 H6] Hidx Hs Hl Hh Hsame.
  assert (Hd : dir_mask s = dir_mask s0) by (rewrite Hs; done).
  unfold stm32_gpio_update_dir. apply wp_bind.
  replace ((idx =? 0) || (idx =? 1)) with true by lia. cbn [assert_ wp mret M_ret].
  eapply wp_mono; [apply (update_dir_loop (idx * 8) 8 s); [lia | lia | by rewrite Hd] |].
  intros _ s' t' (-> & Hs' & Hr & Hbits). split; [done | split; [| done]]. rewrite Hs'.
  split; [done | done | rewrite Hs; done | rewrite Hs; done | done |].
  intros pin Hp. unfold dir_ok. rewrite <- Hs'. rewrite Hbits by lia.
  rewrite (mode_bits_cr s s') by (by rewrite Hs').
  destruct (Z.leb_spec (idx * 8) pin), (Z.ltb_spec pin (idx * 8 + Z.of_nat 8)); cbn [andb]; try done;
    rewrite Hd, H6 by lia; f_equal; symmetry; destruct Hidx as [-> | ->]; cbn in Hsame; try lia.
  - apply mode_bits_high; [lia | done..].
  - apply mode_bits_low; [lia | done..].
Qed.

Lemma in_trigger_ok irq level s :
  0 <= irq < 16 -> gpio_inv s ->
  stm32_gpio_in_trigger irq level s =
    Done () (s <| in_ := put_bit (in_ s) irq (cbool level) |>) [SetIrq (in_line irq) level].
Proof.
  intros Hi [_ _ _ Hin _ _]. unfold stm32_gpio_in_trigger. rewrite u32_small by lia.
  unfold STM32_GPIO_PIN_COUNT. rewrite (proj2 (Z.ltb_lt irq 16)) by lia.
  unfold mbind, M_bind, modify, emit. cbn -[u16]. f_equal. rewrite <- put_bit_u16 by lia. by destruct s.
Qed.

Lemma gpio_in_inv irq level s :
  0 <= irq < 16 -> gpio_inv s -> gpio_inv (s <| in_ := put_bit (in_ s) irq level |>).
Proof. intros Hi []. split; try done. apply put_bit_range; lia. Qed.

Section Write.
  Context {R : Type} `{PeriphClocks R} (rcc : R).

(** A write to an output register is the clock check and an update of ODR. *)
Definition odr_target (s : Stm32Gpio) (off v : Z) : option Z :=
  if off =? GPIOx_ODR_OFFSET then Some (u32 v)
  else if off =? GPIOx_BSRR_OFFSET then
    Some ((GPIOx_ODR s .& (not32 (v >> 16) .& 0x0000ffff)) .| (v .& 0x0000ffff))
  else if off =? GPIOx_BRR_OFFSET then Some (GPIOx_ODR s .& (not32 v .& 0x0000ffff))
  else None.

Lemma write_output off v s w :
  periph_clocked rcc (periph s) = true -> odr_target s off v = Some w ->
  stm32_gpio_write rcc off v 4 s =
    Done () (s <| GPIOx_ODR := w .& 0xffff |>) (clk_warning rcc (periph s) ++ odr_events s w).
Proof.
  intros Hc Hw. unfold odr_target in Hw. unfold stm32_gpio_write, mbind, M_bind, gets, assert_, mret, M_ret.
  change (4 =? 4) with true. cbv beta iota. rewrite check_periph_clk_ok by done.
  assert (Hoff : forall o, o <> GPIOx_ODR_OFFSET -> o <> GPIOx_BSRR_OFFSET -> o <> GPIOx_BRR_OFFSET -> (off =? o) = false).
  { intros o H1 H2 H3. destruct (Z.eqb_spec off o) as [-> |]; [| done].
    by rewrite (proj2 (Z.eqb_neq _ _) H1), (proj2 (Z.eqb_neq _ _) H2), (proj2 (Z.eqb_neq _ _) H3) in Hw. }
  rewrite (Hoff GPIOx_CRL_OFFSET), (Hoff GPIOx_CRH_OFFSET), (Hoff GPIOx_IDR_OFFSET) by done.
  destruct (off =? GPIOx_ODR_OFFSET); [| destruct (off =? GPIOx_BSRR_OFFSET);
    [| destruct (off =? GPIOx_BRR_OFFSET); [| done]]]; injection Hw as <-; by rewrite ODR_write_ok.
Qed.

Lemma gpio_write_inv off v s :
  gpio_inv s -> periph_clocked rcc (periph s) = true ->
  wp (stm32_gpio_write rcc off v 4) (λ _ s' _, gpio_inv s') s.
Proof.
  intros Hinv Hc. unfold stm32_gpio_write. apply wp_bind. cbn [assert_ wp mret M_ret Z.eqb Pos.eqb].
  apply wp_bind. cbn. apply wp_bind. unfold wp at 1. rewrite check_periph_clk_ok by done.
  destruct (off =? GPIOx_CRL_OFFSET).
  { apply wp_bind. cbn. eapply wp_mono; [apply (update_dir_inv 0 s); cbn; [done | by left | by destruct s | apply u32_range | by destruct Hinv | done] |].
    by intros _ s' t' (_ & ? & _). }
  destruct (off =? GPIOx_CRH_OFFSET).
  { apply wp_bind. cbn. eapply wp_mono; [apply (update_dir_inv 1 s); cbn; [done | by right | by destruct s | by destruct Hinv | apply u32_range | done] |].
    by intros _ s' t' (_ & ? & _). }
  destruct (off =? GPIOx_IDR_OFFSET); [done |].
  destruct (off =? GPIOx_ODR_OFFSET); [unfold wp; rewrite ODR_write_ok; by apply gpio_inv_odr |].
  destruct (off =? GPIOx_BSRR_OFFSET).
  { apply wp_bind. cbn -[stm32_gpio_GPIOx_ODR_write]. unfold wp. rewrite ODR_write_ok. by apply gpio_inv_odr. }
  destruct (off =? GPIOx_BRR_OFFSET).
  { apply wp_bind. cbn -[stm32_gpio_GPIOx_ODR_write]. unfold wp. rewrite ODR_write_ok. by apply gpio_inv_odr. }
  by destruct (off =? GPIOx_LCKR_OFFSET).
Qed.

End Write.

Lemma gpio_reset_inv s : 0 <= in_ s < 2 ^ 16 ->
  exists s' t, stm32_gpio_reset s = Done () s' t /\ gpio_inv s' /\ in_ s' = in_ s /\
    t = (λ pin, SetIrq (out_line pin) 0) <$> zrange 0 16.
Proof.
  intros Hin. unfold stm32_gpio_reset, mbind, M_bind, modify. rewrite for_each_emit.
  eexists _, _. split; [done | split; [| done]]. split; cbn; try lia.
  intros pin Hp. unfold dir_ok. cbn. enum_upto pin 16; by vm_compute.
Qed.

(** ** The properties of the ports *)

(** Reset establishes the invariant of a port (the
    registers keep their widths and the direction mask is the set of the pins
    whose mode is an output), and every 32-bit write and every change of an
    input pin completes and keeps it. *)
Theorem gpio_invariant {R : Type} `{PeriphClocks R} (rcc : R) (s : Stm32Gpio) (off v irq level : Z) :
  gpio_inv s -> periph_clocked rcc (periph s) = true -> 0 <= irq < 16 ->
  (exists s' t, stm32_gpio_reset s = Done () s' t /\ gpio_inv s') /\
  (exists s' t, stm32_gpio_write rcc off v 4 s = Done () s' t /\ gpio_inv s') /\
  (exists s' t, stm32_gpio_in_trigger irq level s = Done () s' t /\ gpio_inv s').
Proof.
  intros Hinv Hc Hi. split; [| split].
  - destruct (gpio_reset_inv s) as (s' & t & Hr & Hi' & _); [apply Hinv |]. eauto.
  - destruct (wp_Done _ _ _ (gpio_write_inv rcc off v s Hinv Hc)) as ([] & s' & t & Hr & Hi'). eauto.
  - rewrite in_trigger_ok by done. eexists _, _. split; [done |]. by apply gpio_in_inv.
Qed.

(** Port C of the board after reset. *)
Definition gpio_demo : Stm32Gpio := mkGpio STM32_GPIOC 0x44444444 0x44444444 0 0 0.

Lemma gpio_demo_inv : gpio_inv gpio_demo.
Proof.
  destruct (gpio_reset_inv gpio_demo) as (s' & t & Hr & Hi & _); [cbn; lia |].
  injection Hr as <- <-. exact Hi.
Qed.

(** Configuring pin 13 as an output. *)
Lemma gpio_invariant_witness :
  exists s' t, stm32_gpio_write 8000000 GPIOx_CRH_OFFSET 0x44344444 4 gpio_demo = Done () s' t /\ gpio_inv s'.
Proof. apply (gpio_invariant 8000000 gpio_demo GPIOx_CRH_OFFSET 0x44344444 0 0 gpio_demo_inv); [reflexivity | lia]. Defined.

(** A write of [v] to ODR stores the low 16 bits of
    [v] and drives exactly the output lines of the pins that are configured
    as outputs and whose bit changes, in ascending order, to their new level;
    the lines of input pins are not touched. *)
Theorem gpio_output_events {R : Type} `{PeriphClocks R} (rcc : R) (s : Stm32Gpio) (v : Z) :
  gpio_inv s -> periph_clocked rcc (periph s) = true ->
  stm32_gpio_write rcc GPIOx_ODR_OFFSET v 4 s =
    Done () (s <| GPIOx_ODR := u32 v .& 0xffff |>)
      (clk_warning rcc (periph s) ++
       ((λ pin, SetIrq (out_line pin) (b2z (Z.testbit (u32 v) pin))) <$>
        filter (λ pin, cbool (stm32_gpio_get_mode_bits s pin) &&
                       xorb (Z.testbit (GPIOx_ODR s) pin) (Z.testbit (u32 v) pin) = true) (zrange 0 16))).
Proof.
  intros Hinv Hc.
  rewrite (write_output rcc _ v s (u32 v)) by done. f_equal. unfold odr_events, driven. f_equal. f_equal. apply filter_ext_in.
  intros pin Hp%elem_of_zrange. by rewrite (g_dir_ok _ Hinv) by lia.
Qed.

(** The LED of the board: pin 13 of port C, configured as an output. *)
Lemma gpio_output_events_witness :
  let s := mkGpio STM32_GPIOC 0x44444444 0x44344444 0 0 0x2000 in
  stm32_gpio_write 8000000 GPIOx_ODR_OFFSET 0x2000 4 s =
    Done () (s <| GPIOx_ODR := 0x2000 |>) [SetIrq 13 1].
Proof.
  intros s. rewrite (gpio_output_events 8000000 s 0x2000); [by vm_compute | | reflexivity].
  split; cbn; try lia. intros pin Hp. unfold dir_ok. enum_upto pin 16; reflexivity.
Defined.

(** Writing [v] to BSRR sets the output bits named
    in the low half of [v] and clears those named in the high half, with set
    winning over reset; writing [v] to BRR clears the bits named in the low
    half.  No other output bit changes. *)
Theorem gpio_bit_set_reset {R : Type} `{PeriphClocks R} (rcc : R) (s : Stm32Gpio) (v : Z) :
  gpio_inv s -> periph_clocked rcc (periph s) = true ->
  (exists s' t, stm32_gpio_write rcc GPIOx_BSRR_OFFSET v 4 s = Done () s' t /\
     forall pin, 0 <= pin < 16 -> Z.testbit (GPIOx_ODR s') pin =
       Z.testbit v pin || (Z.testbit (GPIOx_ODR s) pin && negb (Z.testbit v (pin + 16)))) /\
  (exists s' t, stm32_gpio_write rcc GPIOx_BRR_OFFSET v 4 s = Done () s' t /\
     forall pin, 0 <= pin < 16 -> Z.testbit (GPIOx_ODR s') pin =
       Z.testbit (GPIOx_ODR s) pin && negb (Z.testbit v pin)).
Proof.
  intros Hinv Hc.
  assert (Hmask : forall pin, 0 <= pin < 16 -> Z.testbit 0xffff pin = true)
    by (intros pin Hp; change 0xffff with (Z.ones 16); rewrite testbit_ones by lia; apply Z.ltb_lt; lia).
  assert (Hodr : forall x, GPIOx_ODR (s <| GPIOx_ODR := x |>) = x) by done.
  split; (eexists _, _; split; [apply (write_output rcc); [done | reflexivity] |]);
    intros pin Hp; rewrite Hodr.
  - rewrite Z.land_spec, Z.lor_spec, !Z.land_spec, testbit_not32, Z.shiftr_spec, Hmask by lia.
    rewrite (proj2 (Z.ltb_lt pin 32)), !andb_true_r by lia. cbn. apply orb_comm.
  - rewrite !Z.land_spec, testbit_not32, Hmask by lia.
    by rewrite (proj2 (Z.ltb_lt pin 32)), !andb_true_r by lia.
Qed.

(** Bit 13 set through BSRR, then cleared through its high half. *)
Lemma gpio_bit_set_reset_witness :
  exists s' t, stm32_gpio_write 8000000 GPIOx_BSRR_OFFSET 0x2000 4 gpio_demo = Done () s' t /\
    Z.testbit (GPIOx_ODR s') 13 = true.
Proof.
  destruct (gpio_bit_set_reset (H := fixed_clocks) 8000000 gpio_demo 0x2000 gpio_demo_inv eq_refl) as [(s' & t & Hrun & Hbits) _].
  exists s', t. split; [exact Hrun |]. rewrite (Hbits 13) by lia. reflexivity.
Defined.

(** A change of an input pin completes, is visible in IDR
    at that pin and at no other, and is relayed once to the port's input
    line. *)
Theorem gpio_input (s : Stm32Gpio) (pin level : Z) :
  gpio_inv s -> 0 <= pin < 16 ->
  exists s', stm32_gpio_in_trigger pin level s = Done () s' [SetIrq (in_line pin) level] /\
    stm32_gpio_read GPIOx_IDR_OFFSET 4 s' = Done (in_ s') s' [] /\
    forall i, 0 <= i < 16 ->
      Z.testbit (in_ s') i = if pin =? i then cbool level else Z.testbit (in_ s) i.
Proof.
  intros Hinv Hp. eexists. split; [by apply in_trigger_ok |]. split; [done |].
  intros i Hi. cbn. apply testbit_put_bit; lia.
Qed.

Lemma gpio_input_witness :
  exists s', stm32_gpio_in_trigger 0 1 gpio_demo = Done () s' [SetIrq 16 1] /\ Z.testbit (in_ s') 0 = true.
Proof.
  destruct (gpio_input gpio_demo 0 1 gpio_demo_inv ltac:(lia)) as (s' & Hrun & _ & Hbits).
  exists s'. split; [exact Hrun |]. apply (Hbits 0). lia.
Defined.

(** ** The interface of a port *)

#[export] Instance gpio_pins : PinConfig Stm32Gpio := {
  pin_mode := stm32_gpio_get_mode_bits;
  pin_config := stm32_gpio_get_config_bits
}.

#[export] Instance gpio_pins_laws : PinConfigLaws Stm32Gpio gpio_inv.
Proof. split; intros g pin _ _; apply (land_bound 2); lia. Qed.
