(* ===== verification/Exti.v ===== *)
(** * External interrupts ([hw/gpio/stm32_exti.c])

    The output lines 0 to 9 are the [irq] array towards the NVIC: lines 0 to 4
    for the EXTI lines of the same number, 5 and 6 for the shared interrupts
    of EXTI 5-9 and 10-15, 7 to 9 for PVD, RTC alarm and USB wake-up. *)

From S2P Require Import Prelude Stm32.

Definition EXTI_IMR_OFFSET : Z := 0x00.
Definition EXTI_EMR_OFFSET : Z := 0x04.
Definition EXTI_RTSR_OFFSET : Z := 0x08.
Definition EXTI_FTSR_OFFSET : Z := 0x0c.
Definition EXTI_SWIER_OFFSET : Z := 0x10.
Definition EXTI_PR_OFFSET : Z := 0x14.
Definition EXTI_LINE_COUNT : Z := 20.
Definition EXTI_IRQ_COUNT : Z := 10.

Record Stm32Exti : Type := mkExti {
  EXTI_IMR : Z;
  EXTI_RTSR : Z;
  EXTI_FTSR : Z;
  EXTI_SWIER : Z;
  EXTI_PR : Z
}.

#[export] Instance Stm32Exti_settable : Settable Stm32Exti := λ s,
  mkExti (EXTI_IMR s) (EXTI_RTSR s) (EXTI_FTSR s) (EXTI_SWIER s) (EXTI_PR s).

Abbreviation ExtiM := (M dev_event Stm32Exti).

(** ** Register implementation *)

(** The update of the interrupt of an EXTI line; some lines share one. *)
Definition exti_update_irq (pos new_bit_value : Z) : ExtiM unit :=
  if pos <=? 4 then emit (SetIrq pos new_bit_value)
  else if pos <=? 9 then emit (SetIrq 5 new_bit_value)
  else if pos <=? 15 then emit (SetIrq 6 new_bit_value)
  else if pos =? 16 then emit (SetIrq 7 new_bit_value)
  else if pos =? 17 then emit (SetIrq 8 new_bit_value)
  else if pos =? 18 then emit (SetIrq 9 new_bit_value)
  else assert_ false.

Definition stm32_exti_change_EXTI_PR_bit (pos new_bit_value : Z) : ExtiM unit :=
  assert_ ((new_bit_value =? 0) || (new_bit_value =? 1)) ;;
  assert_ (pos <? EXTI_LINE_COUNT) ;;
  old_bit_value ← gets (λ s, extract32 (EXTI_PR s) pos 1);
  if new_bit_value =? old_bit_value then mret () else
  when (new_bit_value =? 0) (modify (λ s, s <| EXTI_SWIER := EXTI_SWIER s .& not32 (BIT pos) |>)) ;;
  exti_update_irq pos new_bit_value ;;
  modify (λ s, s <| EXTI_PR := deposit32 (EXTI_PR s) pos 1 new_bit_value |>).

Definition stm32_exti_trigger (line : Z) : ExtiM unit :=
  imr ← gets EXTI_IMR;
  when (cbool (imr .& BIT line)) (stm32_exti_change_EXTI_PR_bit line 1).

Definition stm32_exti_gpio_in_handler (n level : Z) : ExtiM unit :=
  let pin := u32 n in
  assert_ (pin <? STM32_GPIO_PIN_COUNT) ;;
  s ← get;
  when ((cbool level && cbool (EXTI_RTSR s .& BIT pin)) ||
        (negb (cbool level) && cbool (EXTI_FTSR s .& BIT pin)))
    (stm32_exti_trigger pin).

(** [tsr] and [set_tsr] read and write the register passed by reference. *)
Definition update_TSR_bit (tsr : Stm32Exti → Z) (set_tsr : Z → Stm32Exti → Stm32Exti)
    (pos new_bit_value : Z) : ExtiM unit :=
  assert_ ((new_bit_value =? 0) || (new_bit_value =? 1)) ;;
  assert_ (pos <? EXTI_LINE_COUNT) ;;
  old ← gets (λ s, extract32 (tsr s) pos 1);
  when (negb (new_bit_value =? old)) (stm32_exti_change_EXTI_PR_bit pos 0) ;;
  modify (λ s, set_tsr (deposit32 (tsr s) pos 1 new_bit_value) s).

Definition set_RTSR (x : Z) (s : Stm32Exti) : Stm32Exti := s <| EXTI_RTSR := x |>.
Definition set_FTSR (x : Z) (s : Stm32Exti) : Stm32Exti := s <| EXTI_FTSR := x |>.

Definition stm32_exti_read (offset size : Z) : ExtiM Z :=
  assert_ (size =? 4) ;;
  if offset =? EXTI_IMR_OFFSET then gets EXTI_IMR
  else if offset =? EXTI_EMR_OFFSET then mret 0
  else if offset =? EXTI_RTSR_OFFSET then gets EXTI_RTSR
  else if offset =? EXTI_FTSR_OFFSET then gets EXTI_FTSR
  else if offset =? EXTI_SWIER_OFFSET then gets EXTI_SWIER
  else if offset =? EXTI_PR_OFFSET then gets EXTI_PR
  else emit (Report BadReg) ;; mret 0.

(** The body of the loop over the EXTI lines. *)
Definition exti_write_bit (offset value pos : Z) : ExtiM unit :=
  let bit_value := extract32 value pos 1 in
  if offset =? EXTI_RTSR_OFFSET then update_TSR_bit EXTI_RTSR set_RTSR pos bit_value
  else if offset =? EXTI_FTSR_OFFSET then update_TSR_bit EXTI_FTSR set_FTSR pos bit_value
  else if offset =? EXTI_SWIER_OFFSET then
    when (bit_value =? 1)
      (s ← get;
       when (EXTI_SWIER s .& BIT pos =? 0)
         (modify (λ s, s <| EXTI_SWIER := EXTI_SWIER s .| BIT pos |>) ;;
          stm32_exti_trigger pos))
  else if offset =? EXTI_PR_OFFSET then
    when (bit_value =? 1) (stm32_exti_change_EXTI_PR_bit pos 0)
  else emit (Report BadReg).

Definition stm32_exti_write (offset value size : Z) : ExtiM unit :=
  assert_ (size =? 4) ;;
  if offset <=? EXTI_EMR_OFFSET then
    if offset =? EXTI_IMR_OFFSET then modify (λ s, s <| EXTI_IMR := u32 value |>)
    else if offset =? EXTI_EMR_OFFSET then mret ()
    else emit (Report BadReg)
  else for_each (zrange 0 (Z.to_nat EXTI_LINE_COUNT)) (exti_write_bit offset (u32 value)).

Definition stm32_exti_reset : ExtiM unit :=
  modify (λ s, s <| EXTI_IMR := 0 |> <| EXTI_RTSR := 0 |> <| EXTI_FTSR := 0 |>
                 <| EXTI_SWIER := 0 |> <| EXTI_PR := 0 |>).

(** ** One pending bit *)

(** The NVIC line of an EXTI line. *)
Definition exti_irq (pos : Z) : Z :=
  if pos <=? 4 then pos else if pos <=? 9 then 5 else if pos <=? 15 then 6
  else if pos =? 16 then 7 else if pos =? 17 then 8 else 9.

Definition set_pending (b : bool) (pos : Z) (s : Stm32Exti) : Stm32Exti :=
  (if b then s else s <| EXTI_SWIER := EXTI_SWIER s .& not32 (BIT pos) |>)
    <| EXTI_PR := deposit32 (EXTI_PR s) pos 1 (b2z b) |>.

Lemma change_PR_ok b pos s :
  0 <= pos < 19 ->
  stm32_exti_change_EXTI_PR_bit pos (b2z b) s =
    if Bool.eqb (Z.testbit (EXTI_PR s) pos) b then Done () s []
    else Done () (set_pending b pos s) [SetIrq (exti_irq pos) (b2z b)].
Proof.
  intros Hp. unfold stm32_exti_change_EXTI_PR_bit, mbind, M_bind, gets.
  replace ((b2z b =? 0) || (b2z b =? 1)) with true by (by destruct b).
  unfold EXTI_LINE_COUNT. rewrite (proj2 (Z.ltb_lt pos 20)) by lia. cbn [assert_ mret M_ret].
  rewrite extract32_bit by lia.
  assert (Hirq : forall s1 l, exti_update_irq pos l s1 = Done () s1 [SetIrq (exti_irq pos) l]).
  { intros s1 l. unfold exti_update_irq, exti_irq. repeat (case_match; [done |]). lia. }
  unfold set_pending. destruct b, (Z.testbit (EXTI_PR s) pos); cbn [b2z Z.eqb Bool.eqb when mret M_ret modify];
    rewrite ?Hirq; done.
Qed.

(** EXTI line 19 has no interrupt: making it pending fails an assertion. *)
Lemma change_PR_19 s :
  Z.testbit (EXTI_PR s) 19 = false ->
  stm32_exti_change_EXTI_PR_bit 19 1 s = Halt AssertFailed /\
  stm32_exti_change_EXTI_PR_bit 19 0 s = Done () s [].
Proof.
  intros Hb. unfold stm32_exti_change_EXTI_PR_bit, mbind, M_bind, gets.
  split; cbn -[extract32]; rewrite extract32_bit, Hb by lia; done.
Qed.

(** ** The invariant: line 19 is never pending *)

Record exti_inv (s : Stm32Exti) : Prop := {
  e_imr : 0 <= EXTI_IMR s < 2 ^ 32;
  e_rtsr : 0 <= EXTI_RTSR s < 2 ^ 20;
  e_ftsr : 0 <= EXTI_FTSR s < 2 ^ 20;
  e_swier : 0 <= EXTI_SWIER s < 2 ^ 20;
  e_pr : 0 <= EXTI_PR s < 2 ^ 19
}.

Lemma pending_inv b pos s : 0 <= pos < 19 -> exti_inv s -> exti_inv (set_pending b pos s).
Proof.
  intros Hp [H1 H2 H3 H4 H5]. unfold set_pending.
  pose proof (deposit32_bit_range 19 (EXTI_PR s) pos b ltac:(lia) ltac:(lia)).
  assert (0 <= EXTI_SWIER s .& not32 (BIT pos) < 2 ^ 20)
    by (rewrite Z.land_comm; apply land_bound; lia).
  by destruct b.
Qed.

(** Clearing a pending bit always completes; setting one completes below 19. *)
Lemma clear_safe pos : 0 <= pos < 20 -> safe exti_inv (stm32_exti_change_EXTI_PR_bit pos 0).
Proof.
  intros Hp s Hi. unfold wp. destruct (decide (pos = 19)) as [-> |].
  - rewrite (proj2 (change_PR_19 s (testbit_high 19 _ 19 (e_pr _ Hi) ltac:(lia)))). done.
  - rewrite (change_PR_ok false) by lia. destruct (Bool.eqb _ _); [done |]. apply pending_inv; [lia | done].
Qed.

Lemma trigger_ok pos s :
  0 <= pos < 20 -> exti_inv s -> (pos = 19 -> Z.testbit (EXTI_IMR s) 19 = false) ->
  stm32_exti_trigger pos s =
    if Z.testbit (EXTI_IMR s) pos && negb (Z.testbit (EXTI_PR s) pos)
    then Done () (set_pending true pos s) [SetIrq (exti_irq pos) 1] else Done () s [].
Proof.
  intros Hp Hi H19. unfold stm32_exti_trigger, mbind, M_bind, gets. rewrite cbool_BIT by lia.
  destruct (decide (pos = 19)) as [-> |]; [by rewrite H19 |].
  destruct (Z.testbit (EXTI_IMR s) pos); [| done]. cbn [when andb].
  rewrite (change_PR_ok true) by lia. by destruct (Z.testbit (EXTI_PR s) pos).
Qed.

Lemma tsr_safe (rising : bool) pos b :
  0 <= pos < 20 ->
  safe exti_inv (if rising then update_TSR_bit EXTI_RTSR set_RTSR pos (b2z b)
                 else update_TSR_bit EXTI_FTSR set_FTSR pos (b2z b)).
Proof.
  intros Hp s Hi.
  assert (Hb : (b2z b =? 0) || (b2z b =? 1) = true) by by destruct b.
  assert (Hlt : (pos <? EXTI_LINE_COUNT) = true) by (apply Z.ltb_lt; unfold EXTI_LINE_COUNT; lia).
  destruct rising; unfold update_TSR_bit; rewrite Hb, Hlt; cbn [assert_];
    apply wp_bind; cbn [wp mret M_ret]; apply wp_bind; cbn [wp mret M_ret];
    apply wp_bind; cbn [wp gets]; apply wp_bind;
    apply (wp_mono _ (λ _ s' _, exti_inv s')); try (destruct (negb _); [by apply clear_safe | done]);
    intros _ s' _ [H1 H2 H3 H4 H5]; cbn; split; try done; apply deposit32_bit_range; lia.
Qed.

(** The loop of [stm32_exti_write]. *)
Lemma write_bit_safe off v pos :
  0 <= pos < 20 -> off <> EXTI_SWIER_OFFSET -> safe exti_inv (exti_write_bit off v pos).
Proof.
  intros Hp Hoff. unfold exti_write_bit. rewrite extract32_bit by lia.
  destruct (off =? EXTI_RTSR_OFFSET); [by apply (tsr_safe true) |].
  destruct (off =? EXTI_FTSR_OFFSET); [by apply (tsr_safe false) |].
  rewrite (proj2 (Z.eqb_neq _ _) Hoff).
  destruct (off =? EXTI_PR_OFFSET); [| by intros s].
  destruct (Z.testbit v pos); [by apply clear_safe | by intros s].
Qed.

(** With line 19 masked, a software trigger completes too. *)
Definition exti_inv19 (s : Stm32Exti) : Prop := exti_inv s /\ Z.testbit (EXTI_IMR s) 19 = false.

Lemma trigger_safe pos : 0 <= pos < 20 -> safe exti_inv19 (stm32_exti_trigger pos).
Proof.
  intros Hp s [Hi H19]. unfold wp. rewrite trigger_ok by done.
  destruct (Z.testbit (EXTI_IMR s) pos) eqn:Hm; [| done]. cbn [andb].
  destruct (negb _); [| done]. split; [| done].
  apply pending_inv; [| done]. destruct (decide (pos = 19)) as [-> |]; [congruence | lia].
Qed.

Lemma swier_bit_safe v pos : 0 <= pos < 20 -> safe exti_inv19 (exti_write_bit EXTI_SWIER_OFFSET v pos).
Proof.
  intros Hp s Hs. unfold exti_write_bit. cbn [EXTI_SWIER_OFFSET EXTI_RTSR_OFFSET EXTI_FTSR_OFFSET Z.eqb Pos.eqb].
  change (EXTI_SWIER_OFFSET =? EXTI_RTSR_OFFSET) with false. change (EXTI_SWIER_OFFSET =? EXTI_FTSR_OFFSET) with false.
  change (EXTI_SWIER_OFFSET =? EXTI_SWIER_OFFSET) with true. cbv iota.
  unfold when. destruct (extract32 v pos 1 =? 1); [| done]. apply wp_bind. cbn [wp get].
  destruct (_ =? 0); [| done]. apply wp_bind. cbn [wp modify]. apply trigger_safe; [done |].
  destruct Hs as [[H1 H2 H3 H4 H5] H19]. split; [split; try done | done]. cbn. apply lor_bound; [lia | done |].
  unfold BIT. rewrite Z.shiftl_1_l. split; [apply Z.pow_nonneg; lia | apply Z.pow_lt_mono_r; lia].
Qed.

Lemma exti_write_safe off v s :
  exti_inv s -> (off = EXTI_SWIER_OFFSET -> Z.testbit (EXTI_IMR s) 19 = false) ->
  wp (stm32_exti_write off v 4) (λ _ s' _, exti_inv s') s.
Proof.
  intros Hi H19. unfold stm32_exti_write. apply wp_bind. cbn [assert_ Z.eqb Pos.eqb wp mret M_ret].
  destruct (off <=? EXTI_EMR_OFFSET).
  { destruct (off =? EXTI_IMR_OFFSET); [| by destruct (off =? EXTI_EMR_OFFSET)].
    cbn. destruct Hi. split; try done. apply u32_range. }
  destruct (decide (off = EXTI_SWIER_OFFSET)) as [-> | Hoff].
  - eapply wp_mono; [apply (safe_for_each exti_inv19) |].
    + intros pos Hp%elem_of_zrange. apply swier_bit_safe. unfold EXTI_LINE_COUNT in Hp. lia.
    + by split; [| apply H19].
    + by intros _ s' t' [? _].
  - apply (safe_for_each exti_inv); [| done]. intros pos Hp%elem_of_zrange.
    apply write_bit_safe; [unfold EXTI_LINE_COUNT in Hp; lia | done].
Qed.

(** ** Edge detection *)

Lemma handler_ok n level s :
  0 <= n < 16 -> exti_inv s ->
  stm32_exti_gpio_in_handler n level s =
    if Z.testbit (if cbool level then EXTI_RTSR s else EXTI_FTSR s) n &&
       (Z.testbit (EXTI_IMR s) n && negb (Z.testbit (EXTI_PR s) n))
    then Done () (set_pending true n s) [SetIrq (exti_irq n) 1] else Done () s [].
Proof.
  intros Hn Hi. unfold stm32_exti_gpio_in_handler. rewrite u32_small by lia.
  unfold STM32_GPIO_PIN_COUNT. rewrite (proj2 (Z.ltb_lt n 16)) by lia.
  unfold mbind, M_bind, get. cbn [assert_ mret M_ret app]. rewrite !cbool_BIT by lia.
  pose proof (trigger_ok n s ltac:(lia) Hi ltac:(lia)) as Ht.
  destruct (cbool level); cbn [andb orb negb].
  - rewrite orb_false_r. destruct (Z.testbit (EXTI_RTSR s) n); cbn [when andb]; [| done]. rewrite Ht. by case_match.
  - destruct (Z.testbit (EXTI_FTSR s) n); cbn [when andb]; [| done]. rewrite Ht. by case_match.
Qed.

(** ** Clearing pending bits *)

Definition pr_cleared (s : Stm32Exti) (v : Z) (k : nat) (s' : Stm32Exti) (t : list dev_event) : Prop :=
  s' = s <| EXTI_PR := EXTI_PR s' |> <| EXTI_SWIER := EXTI_SWIER s' |> /\ exti_inv s' /\
  (forall i, 0 <= i -> Z.testbit (EXTI_PR s') i =
     Z.testbit (EXTI_PR s) i && negb ((i <? Z.of_nat k) && Z.testbit v i)) /\
  (forall i, 0 <= i -> Z.testbit (EXTI_SWIER s') i =
     Z.testbit (EXTI_SWIER s) i && negb ((i <? Z.of_nat k) && Z.testbit (EXTI_PR s) i && Z.testbit v i)) /\
  t = (λ pos, SetIrq (exti_irq pos) 0) <$>
      filter (λ pos, Z.testbit (EXTI_PR s) pos && Z.testbit v pos = true) (zrange 0 k).

Lemma testbit_clear x pos i :
  0 <= pos < 32 -> 0 <= i -> 0 <= x < 2 ^ 32 ->
  Z.testbit (x .& not32 (BIT pos)) i = Z.testbit x i && negb (pos =? i).
Proof.
  intros Hp Hi Hx. rewrite Z.land_spec, testbit_not32, testbit_BIT by lia.
  destruct (Z.ltb_spec i 32); [done |]. by rewrite (testbit_high 32 x) by lia.
Qed.

Lemma ltb_S (i : Z) (k : nat) : (i <? Z.of_nat (S k)) = (i <? Z.of_nat k) || (Z.of_nat k =? i).
Proof.
  destruct (Z.ltb_spec i (Z.of_nat (S k))), (Z.ltb_spec i (Z.of_nat k)), (Z.eqb_spec (Z.of_nat k) i); cbn; lia.
Qed.

(** A line that is not pending, or not written, is left alone. *)
Lemma pr_skip v s k s' t :
  Z.testbit (EXTI_PR s) (Z.of_nat k) && Z.testbit v (Z.of_nat k) = false ->
  pr_cleared s v k s' t -> pr_cleared s v (S k) s' (t ++ []).
Proof.
  intros Hno (Hs' & Hi' & Hpr & Hsw & ->). set (p := Z.of_nat k) in *.
  split; [done | split; [done |]]. split; [| split].
  - intros i Hii. rewrite Hpr, ltb_S by lia. fold p. destruct (Z.eqb_spec p i) as [<- |]; [| by rewrite orb_false_r].
    revert Hno. rewrite orb_true_r, Z.ltb_irrefl. by destruct (Z.testbit (EXTI_PR s) p), (Z.testbit v p).
  - intros i Hii. rewrite Hsw, ltb_S by lia. fold p. destruct (Z.eqb_spec p i) as [<- |]; [| by rewrite orb_false_r].
    revert Hno. rewrite orb_true_r, Z.ltb_irrefl.
    by destruct (Z.testbit (EXTI_PR s) p), (Z.testbit v p), (Z.testbit (EXTI_SWIER s) p).
  - rewrite zrange_S, filter_app, fmap_app. f_equal. rewrite filter_cons, Z.add_0_l. fold p. by rewrite Hno.
Qed.

(** A pending line whose bit is written is cleared and its interrupt lowered. *)
Lemma pr_clear v s k s' t :
  exti_inv s -> Z.testbit (EXTI_PR s) (Z.of_nat k) = true -> Z.testbit v (Z.of_nat k) = true ->
  pr_cleared s v k s' t ->
  stm32_exti_change_EXTI_PR_bit (Z.of_nat k) 0 s' =
    Done () (set_pending false (Z.of_nat k) s') [SetIrq (exti_irq (Z.of_nat k)) 0] /\
  pr_cleared s v (S k) (set_pending false (Z.of_nat k) s') (t ++ [SetIrq (exti_irq (Z.of_nat k)) 0]).
Proof.
  intros Hi Hb Hv (Hs' & Hi' & Hpr & Hsw & ->). set (p := Z.of_nat k) in *.
  assert (Hlt : p < 19).
  { destruct (Z.ltb_spec p 19); [done |]. rewrite (testbit_high 19 (EXTI_PR s)) in Hb; [done | apply Hi | done]. }
  split.
  { rewrite (change_PR_ok false) by lia. by rewrite Hpr, Hb, Z.ltb_irrefl by lia. }
  split; [rewrite Hs'; by destruct s |]. split; [apply pending_inv; [lia | done] |]. split; [| split].
  - intros i Hii. cbn. change 0 with (b2z false). rewrite testbit_deposit32_bit, Hpr, ltb_S by lia. fold p.
    destruct (Z.eqb_spec p i) as [<- |]; [by rewrite Hv, orb_true_r, andb_false_r | by rewrite orb_false_r].
  - intros i Hii. cbn -[not32]. destruct Hi'. rewrite testbit_clear, Hsw, ltb_S by lia. fold p.
    destruct (Z.eqb_spec p i) as [<- |]; [by rewrite Hb, Hv, orb_true_r, !andb_false_r |].
    by rewrite orb_false_r, andb_true_r.
  - rewrite zrange_S, filter_app, fmap_app. f_equal. rewrite filter_cons, Z.add_0_l.
    fold p. by rewrite Hb, Hv.
Qed.

Lemma pr_step v s k s' t :
  exti_inv s -> (k < 20)%nat -> pr_cleared s v k s' t ->
  wp (exti_write_bit EXTI_PR_OFFSET v (0 + Z.of_nat k)) (λ _ s2 t2, pr_cleared s v (S k) s2 (t ++ t2)) s'.
Proof.
  intros Hi Hk Hcl. rewrite Z.add_0_l. unfold exti_write_bit. rewrite extract32_bit by lia.
  change (EXTI_PR_OFFSET =? EXTI_RTSR_OFFSET) with false. change (EXTI_PR_OFFSET =? EXTI_FTSR_OFFSET) with false.
  change (EXTI_PR_OFFSET =? EXTI_SWIER_OFFSET) with false. change (EXTI_PR_OFFSET =? EXTI_PR_OFFSET) with true. cbv iota.
  destruct (Z.testbit v (Z.of_nat k)) eqn:Hv; cbn [b2z Z.eqb Pos.eqb when].
  2:{ unfold wp. cbn. apply pr_skip; [by rewrite Hv, andb_false_r | done]. }
  destruct (Z.testbit (EXTI_PR s) (Z.of_nat k)) eqn:Hb.
  { destruct (pr_clear v s k s' t) as (Hrun & Hres); [done.. |]. unfold wp. by rewrite Hrun. }
  assert (Hold : Z.testbit (EXTI_PR s') (Z.of_nat k) = false).
  { destruct Hcl as (_ & _ & Hpr & _). by rewrite Hpr, Hb by lia. }
  unfold wp. destruct (decide (Z.of_nat k = 19)) as [H19 |].
  - rewrite H19 in Hold. rewrite H19, (proj2 (change_PR_19 s' Hold)). apply pr_skip; [by rewrite Hb | done].
  - rewrite (change_PR_ok false) by lia. rewrite Hold. apply pr_skip; [by rewrite Hb | done].
Qed.

Lemma PR_write_ok v s :
  exti_inv s -> wp (stm32_exti_write EXTI_PR_OFFSET v 4) (λ _ s' t, pr_cleared s (u32 v) 20 s' t) s.
Proof.
  intros Hi. unfold stm32_exti_write. apply wp_bind. cbn [assert_ Z.eqb Pos.eqb wp mret M_ret].
  change (EXTI_PR_OFFSET <=? EXTI_EMR_OFFSET) with false. cbv iota.
  change (Z.to_nat EXTI_LINE_COUNT) with 20%nat.
  eapply wp_mono; [apply (wp_for_each _ _ (λ k s' t, pr_cleared s (u32 v) k s' t) s []) |].
  - split; [by destruct s | split; [done |]]. split; [| split; [| done]].
    + intros i Hii. rewrite (proj2 (Z.ltb_ge i (Z.of_nat 0))) by lia. by rewrite andb_true_r.
    + intros i Hii. rewrite (proj2 (Z.ltb_ge i (Z.of_nat 0))) by lia. by rewrite andb_true_r.
  - intros k x s' t Hx HJ. apply zrange_lookup in Hx as [Hk ->]. by apply pr_step.
  - by intros [] s' t'.
Qed.

(** ** The properties of the EXTI *)

Definition exti_zero : Stm32Exti := mkExti 0 0 0 0 0.

Lemma exti_zero_inv : exti_inv exti_zero.
Proof. split; cbn; lia. Qed.

(** The trigger selections stay within the 20 lines and
    line 19, which has no interrupt, is never pending.  Reset establishes
    this; every 32-bit write completes and keeps it, provided line 19 is
    masked when SWIER is written; so does every change of an input pin. *)
Theorem exti_invariant (s : Stm32Exti) (off v n level : Z) :
  exti_inv s -> (off = EXTI_SWIER_OFFSET -> Z.testbit (EXTI_IMR s) 19 = false) -> 0 <= n < 16 ->
  (exists s' t, stm32_exti_reset s = Done () s' t /\ exti_inv s') /\
  (exists s' t, stm32_exti_write off v 4 s = Done () s' t /\ exti_inv s') /\
  (exists s' t, stm32_exti_gpio_in_handler n level s = Done () s' t /\ exti_inv s').
Proof.
  intros Hi H19 Hn. split; [| split].
  - eexists _, _. split; [done |]. apply exti_zero_inv.
  - destruct (wp_Done _ _ _ (exti_write_safe off v s Hi H19)) as ([] & s' & t & Hrun & Hi'). eauto.
  - rewrite handler_ok by done. case_match; eexists _, _; (split; [done |]); [| done].
    apply pending_inv; [lia | done].
Qed.

(** Enabling the falling edge of line 0. *)
Lemma exti_invariant_witness :
  exists s' t, stm32_exti_write EXTI_FTSR_OFFSET 1 4 exti_zero = Done () s' t /\ exti_inv s'.
Proof. apply (exti_invariant exti_zero EXTI_FTSR_OFFSET 1 0 0 exti_zero_inv); [discriminate | lia]. Defined.

(** Writing [v] to PR clears exactly the pending
    lines named in [v], clears their software trigger bits, and lowers the
    interrupt of each of them, in ascending order; nothing else changes. *)
Theorem exti_clear_pending (s : Stm32Exti) (v : Z) :
  exti_inv s ->
  exists s', stm32_exti_write EXTI_PR_OFFSET v 4 s =
    Done () s' ((λ pos, SetIrq (exti_irq pos) 0) <$>
                filter (λ pos, Z.testbit (EXTI_PR s) pos && Z.testbit (u32 v) pos = true) (zrange 0 20)) /\
    EXTI_PR s' = Z.ldiff (EXTI_PR s) (u32 v) /\
    EXTI_SWIER s' = Z.ldiff (EXTI_SWIER s) (EXTI_PR s .& u32 v) /\
    EXTI_IMR s' = EXTI_IMR s /\ EXTI_RTSR s' = EXTI_RTSR s /\ EXTI_FTSR s' = EXTI_FTSR s.
Proof.
  intros Hi. destruct (wp_Done _ _ _ (PR_write_ok v s Hi)) as ([] & s' & t & Hrun & Hs' & Hi' & Hpr & Hsw & ->).
  exists s'. split; [done |].
  assert (Hlow : forall i, 20 <= i -> Z.testbit (EXTI_PR s) i = false)
    by (intros i Hii; apply (testbit_high 19); [apply Hi | lia]).
  split; [| split; [| rewrite Hs'; by destruct s]].
  - apply Z.bits_inj'. intros i Hii. rewrite Hpr, Z.ldiff_spec by lia.
    destruct (Z.ltb_spec i (Z.of_nat 20)); [done |]. by rewrite Hlow by lia.
  - apply Z.bits_inj'. intros i Hii. rewrite Hsw, Z.ldiff_spec, Z.land_spec by lia.
    destruct (Z.ltb_spec i (Z.of_nat 20)); [done |]. by rewrite Hlow by lia.
Qed.

(** Acknowledging line 3 of the pending lines 3 and 4. *)
Lemma exti_clear_pending_witness :
  exists s', stm32_exti_write EXTI_PR_OFFSET 8 4 (mkExti 0x18 0 0 0 0x18) = Done () s' [SetIrq 3 0] /\
    EXTI_PR s' = 0x10.
Proof.
  destruct (exti_clear_pending (mkExti 0x18 0 0 0 0x18) 8) as (s' & Hrun & Hpr & _); [split; cbn; lia |].
  exists s'. split; [exact Hrun | exact Hpr].
Defined.

(** C39 (exti.edge_detection).  A change of pin [n] makes line [n] pending and
    raises its interrupt exactly when the edge is selected (rising edges by
    RTSR, falling edges by FTSR), the line is unmasked and it is not pending
    already; otherwise nothing happens. *)
Theorem exti_edge_detection (s : Stm32Exti) (n level : Z) :
  exti_inv s -> 0 <= n < 16 ->
  exists s' t, stm32_exti_gpio_in_handler n level s = Done () s' t /\
    let fires := Z.testbit (if cbool level then EXTI_RTSR s else EXTI_FTSR s) n &&
                 (Z.testbit (EXTI_IMR s) n && negb (Z.testbit (EXTI_PR s) n)) in
    t = (if fires then [SetIrq (exti_irq n) 1] else []) /\
    (forall i, 0 <= i -> Z.testbit (EXTI_PR s') i = Z.testbit (EXTI_PR s) i || (fires && (n =? i))) /\
    EXTI_SWIER s' = EXTI_SWIER s.
Proof.
  intros Hi Hn. rewrite handler_ok by done.
  set (fires := Z.testbit _ n && _). destruct fires eqn:Hf; cbn [andb].
  - eexists _, _. split; [done | split; [done | split; [| done]]]. intros i Hii. cbn.
    change 1 with (b2z true). rewrite testbit_deposit32_bit by lia.
    destruct (Z.eqb_spec n i) as [<- |]; by rewrite ?orb_true_r, ?orb_false_r.
  - eexists _, _. split; [done | split; [done | split; [| done]]]. intros i Hii. by rewrite orb_false_r.
Qed.

(** A rising edge on the button of the board (pin 0). *)
Lemma exti_edge_detection_witness :
  exists s', stm32_exti_gpio_in_handler 0 1 (mkExti 1 1 0 0 0) = Done () s' [SetIrq 0 1] /\
    Z.testbit (EXTI_PR s') 0 = true.
Proof.
  destruct (exti_edge_detection (mkExti 1 1 0 0 0) 0 1) as (s' & t & Hrun & Ht & Hpr & _);
    [split; cbn; lia | lia |].
  exists s'. rewrite Hrun, Ht, Hpr by lia. split; reflexivity.
Defined.

Lemma trigger_19 s :
  Z.testbit (EXTI_IMR s) 19 = true -> EXTI_PR s = 0 -> stm32_exti_trigger 19 s = Halt AssertFailed.
Proof.
  intros Hm Hp. unfold stm32_exti_trigger, mbind, M_bind, gets. rewrite cbool_BIT, Hm by lia. cbn [when].
  by rewrite (proj1 (change_PR_19 s ltac:(by rewrite Hp))).
Qed.

(** EXTI line 19 is accepted by the
    registers but has no interrupt: when the guest unmasks it and writes its
    bit in SWIER, the emulator stops at an assertion. *)
Theorem exti_line19_stops_emulator (s : Stm32Exti) :
  exti_inv s -> EXTI_SWIER s = 0 -> EXTI_PR s = 0 -> Z.testbit (EXTI_IMR s) 19 = true ->
  stm32_exti_write EXTI_SWIER_OFFSET (BIT 19) 4 s = Halt AssertFailed.
Proof.
  intros Hi Hsw Hpr Himr.
  change (stm32_exti_write EXTI_SWIER_OFFSET (BIT 19) 4 s) with
    (M_bind _ _ (λ _, for_each (zrange 0 20) (exti_write_bit EXTI_SWIER_OFFSET (u32 (BIT 19)))) (assert_ true) s).
  unfold M_bind. cbn [assert_ mret M_ret]. change (u32 (BIT 19)) with (BIT 19).
  rewrite (zrange_S 0 19), for_each_app. unfold mbind, M_bind. rewrite for_each_skip.
  2:{ intros pos Hp%elem_of_zrange. unfold exti_write_bit. rewrite extract32_bit, testbit_BIT by lia.
      by rewrite (proj2 (Z.eqb_neq 19 pos)) by lia. }
  cbn [for_each]. unfold mbind, M_bind.
  assert (Hb : exti_write_bit EXTI_SWIER_OFFSET (BIT 19) (0 + Z.of_nat 19) s = Halt AssertFailed); [| by rewrite Hb].
  change (0 + Z.of_nat 19) with 19. unfold exti_write_bit. rewrite extract32_bit by lia.
  change (Z.testbit (BIT 19) 19) with true. cbn [b2z].
  change (EXTI_SWIER_OFFSET =? EXTI_RTSR_OFFSET) with false. change (EXTI_SWIER_OFFSET =? EXTI_FTSR_OFFSET) with false.
  change (EXTI_SWIER_OFFSET =? EXTI_SWIER_OFFSET) with true. change (1 =? 1) with true. cbv iota.
  unfold when, mbind, M_bind, get. rewrite Hsw. change (0 .& BIT 19 =? 0) with true. cbv beta iota.
  unfold modify. cbv beta iota. by rewrite trigger_19.
Qed.

Lemma exti_line19_stops_emulator_witness :
  stm32_exti_write EXTI_SWIER_OFFSET (BIT 19) 4 (mkExti (BIT 19) 0 0 0 0) = Halt AssertFailed.
Proof. apply (exti_line19_stops_emulator (mkExti (BIT 19) 0 0 0 0)); [split; split; vm_compute; congruence | reflexivity..]. Defined.

(** Lines that share an interrupt (5 to 9)
    do not share it correctly: when two of them are pending and the guest
    acknowledges one, the shared interrupt is lowered although the other line
    is still pending. *)
Theorem exti_shared_interrupt_lost (s : Stm32Exti) (a b : Z) :
  exti_inv s -> 5 <= a <= 9 -> 5 <= b <= 9 -> a <> b ->
  Z.testbit (EXTI_PR s) a = true -> Z.testbit (EXTI_PR s) b = true ->
  exists s' t, stm32_exti_write EXTI_PR_OFFSET (BIT a) 4 s = Done () s' t /\
    SetIrq 5 0 ∈ t /\ (forall l, SetIrq 5 l ∈ t -> l = 0) /\ Z.testbit (EXTI_PR s') b = true.
Proof.
  intros Hi Ha Hb Hab HPa HPb.
  destruct (wp_Done _ _ _ (PR_write_ok (BIT a) s Hi)) as ([] & s' & t & Hrun & _ & _ & Hpr & _ & ->).
  assert (HB : u32 (BIT a) = BIT a).
  { apply u32_small. unfold BIT. rewrite Z.shiftl_1_l. split; [apply Z.pow_nonneg; lia | apply Z.pow_lt_mono_r; lia]. }
  rewrite HB in *. eexists _, _. split; [exact Hrun |]. split; [| split].
  - apply list_elem_of_fmap. exists a. split.
    + unfold exti_irq. rewrite (proj2 (Z.leb_gt a 4)), (proj2 (Z.leb_le a 9)) by lia. done.
    + apply list_elem_of_filter. rewrite elem_of_zrange, HPa, testbit_BIT, Z.eqb_refl by lia. split; [done | lia].
  - intros l (pos & [= _ ->] & _)%list_elem_of_fmap. done.
  - rewrite Hpr, HPb, testbit_BIT, (proj2 (Z.eqb_neq a b)) by lia. by rewrite andb_false_r.
Qed.

Lemma exti_shared_interrupt_lost_witness :
  exists s' t, stm32_exti_write EXTI_PR_OFFSET (BIT 5) 4 (mkExti 0x60 0 0 0 0x60) = Done () s' t /\
    SetIrq 5 0 ∈ t /\ Z.testbit (EXTI_PR s') 6 = true.
Proof.
  destruct (exti_shared_interrupt_lost (mkExti 0x60 0 0 0 0x60) 5 6) as (s' & t & Hrun & Hin & _ & Hb);
    [split; cbn; lia | lia | lia | lia | reflexivity | reflexivity |].
  exists s', t. exact (conj Hrun (conj Hin Hb)).
Defined.
