(* ===== verification/Afio.v ===== *)
(** * Alternate function I/O ([hw/gpio/stm32_afio.c])

    The AFIO maps each EXTI line to a GPIO port by connecting the port's input
    line to the EXTI ([sysbus_connect_irq]).  The connections, which QEMU keeps
    in the device objects of the ports, are the field [wires]: the pin [pin]
    of port [g] drives EXTI line [wires !! (g, pin)].  The array of ports has
    seven entries; the register fields have four bits, and an index beyond the
    array is the fault [OutOfBounds]. *)

From S2P Require Import Prelude Stm32.
From stdpp Require Import gmap.
Open Scope Z_scope.

Definition AFIO_EVCR_OFFSET : Z := 0x00.
Definition AFIO_MAPR_OFFSET : Z := 0x04.
Definition AFIO_MAPR_USART3_REMAP_START : Z := 4.
Definition AFIO_MAPR_USART3_REMAP_MASK : Z := 0x00000030.
Definition AFIO_MAPR_USART2_REMAP_BIT : Z := 3.
Definition AFIO_MAPR_USART1_REMAP_BIT : Z := 2.
Definition AFIO_EXTICR_START : Z := 0x08.
Definition AFIO_EXTICR_COUNT : Z := 4.
Definition AFIO_EXTICR1_OFFSET : Z := 0x08.
Definition AFIO_EXTICR2_OFFSET : Z := 0x0c.
Definition AFIO_EXTICR3_OFFSET : Z := 0x10.
Definition AFIO_EXTICR4_OFFSET : Z := 0x14.
Definition AFIO_EXTI_PER_CR : Z := 4.

Record Stm32Afio : Type := mkAfio {
  USART1_REMAP : Z;
  USART2_REMAP : Z;
  USART3_REMAP : Z;
  AFIO_MAPR : Z;
  AFIO_EXTICR : list Z;
  wires : gmap (Z * Z) Z
}.

#[export] Instance Stm32Afio_settable : Settable Stm32Afio := λ s,
  mkAfio (USART1_REMAP s) (USART2_REMAP s) (USART3_REMAP s) (AFIO_MAPR s) (AFIO_EXTICR s) (wires s).

Abbreviation AfioM := (M dev_event Stm32Afio).

(** ** Connections *)

(** [sysbus_connect_irq(gpio[g], pin, line)]; [None] disconnects. *)
Definition connect (g pin : Z) (line : option Z) : AfioM unit :=
  if g <? STM32_GPIO_COUNT then
    modify (λ s, s <| wires := partial_alter (λ _, line) (g, pin) (wires s) |>)
  else halt OutOfBounds.

(** ** Register implementation *)

Definition stm32_afio_AFIO_MAPR_read : AfioM Z :=
  s ← get;
  mret (u32 (USART1_REMAP s << AFIO_MAPR_USART1_REMAP_BIT) .|
        u32 (USART2_REMAP s << AFIO_MAPR_USART2_REMAP_BIT) .|
        u32 (USART3_REMAP s << AFIO_MAPR_USART3_REMAP_START)).

Definition stm32_afio_AFIO_MAPR_write (new_value : Z) (init : bool) : AfioM unit :=
  modify (λ s, s <| USART1_REMAP := extract32 (AFIO_MAPR s) AFIO_MAPR_USART1_REMAP_BIT 1 |>) ;;
  modify (λ s, s <| USART2_REMAP := extract32 (AFIO_MAPR s) AFIO_MAPR_USART2_REMAP_BIT 1 |>) ;;
  modify (λ s, s <| USART3_REMAP := (new_value .& AFIO_MAPR_USART3_REMAP_MASK) >> AFIO_MAPR_USART3_REMAP_START |>).

(** The array access [AFIO_EXTICR[index]], after the assertion on the index. *)
Definition exticr (s : Stm32Afio) (index : Z) : Z := default 0 (AFIO_EXTICR s !! Z.to_nat index).

(** The field of one EXTI line. *)
Definition exticr_write_line (index new_value : Z) (init : bool) (i : Z) : AfioM unit :=
  let exti_line := index * AFIO_EXTI_PER_CR + i in
  let start := i * 4 in
  (if init then mret () else
     cr ← gets (λ s, exticr s index);
     let old_gpio_index := (cr >> start) .& 0xf in
     connect old_gpio_index exti_line None) ;;
  let new_gpio_index := (new_value >> start) .& 0xf in
  connect new_gpio_index exti_line (Some exti_line).

Definition stm32_afio_AFIO_EXTICR_write (index new_value : Z) (init : bool) : AfioM unit :=
  assert_ (index <? AFIO_EXTICR_COUNT) ;;
  for_each (zrange 0 (Z.to_nat AFIO_EXTI_PER_CR)) (exticr_write_line index new_value init) ;;
  modify (λ s, s <| AFIO_EXTICR := <[Z.to_nat index := new_value]> (AFIO_EXTICR s) |>).

Section Rcc.
  Context {R : Type} `{PeriphClocks R} (rcc : R).

Definition stm32_afio_read (offset size : Z) : AfioM Z :=
  check_periph_clk rcc STM32_AFIO_PERIPH ;;
  if offset =? AFIO_EVCR_OFFSET then emit (Report NotImplReg) ;; mret 0
  else if offset =? AFIO_MAPR_OFFSET then stm32_afio_AFIO_MAPR_read
  else if offset =? AFIO_EXTICR1_OFFSET then gets (λ s, exticr s 0)
  else if offset =? AFIO_EXTICR2_OFFSET then gets (λ s, exticr s 1)
  else if offset =? AFIO_EXTICR3_OFFSET then gets (λ s, exticr s 2)
  else if offset =? AFIO_EXTICR4_OFFSET then gets (λ s, exticr s 3)
  else emit (Report BadReg) ;; mret 0.

Definition stm32_afio_write (offset value size : Z) : AfioM unit :=
  check_periph_clk rcc STM32_AFIO_PERIPH ;;
  if offset =? AFIO_EVCR_OFFSET then emit (Report NotImplReg)
  else if offset =? AFIO_MAPR_OFFSET then stm32_afio_AFIO_MAPR_write (u32 value) false
  else if offset =? AFIO_EXTICR1_OFFSET then stm32_afio_AFIO_EXTICR_write 0 (u32 value) false
  else if offset =? AFIO_EXTICR2_OFFSET then stm32_afio_AFIO_EXTICR_write 1 (u32 value) false
  else if offset =? AFIO_EXTICR3_OFFSET then stm32_afio_AFIO_EXTICR_write 2 (u32 value) false
  else if offset =? AFIO_EXTICR4_OFFSET then stm32_afio_AFIO_EXTICR_write 3 (u32 value) false
  else emit (Report BadReg).

End Rcc.

Definition stm32_afio_reset : AfioM unit :=
  stm32_afio_AFIO_MAPR_write 0x00000000 true ;;
  stm32_afio_AFIO_EXTICR_write 0 0x00000000 true ;;
  stm32_afio_AFIO_EXTICR_write 1 0x00000000 true ;;
  stm32_afio_AFIO_EXTICR_write 2 0x00000000 true ;;
  stm32_afio_AFIO_EXTICR_write 3 0x00000000 true.

Definition stm32_afio_get_periph_map (periph : Z) : AfioM Z :=
  if periph =? STM32_UART1 then gets USART1_REMAP
  else if periph =? STM32_UART2 then gets USART2_REMAP
  else if periph =? STM32_UART3 then gets USART3_REMAP
  else halt HwError.

(** ** The wiring specification *)

(** The port selected for EXTI line [line] by the registers. *)
Definition port_of (s : Stm32Afio) (line : Z) : Z :=
  (exticr s (line / 4) >> (line mod 4 * 4)) .& 0xf.

(** Every EXTI line is driven by the pin of its number of the selected port,
    and by no other. *)
Definition wired (s : Stm32Afio) (line : Z) : Prop :=
  port_of s line < 7 /\
  forall g l, wires s !! (g, line) = Some l <-> g = port_of s line /\ l = line.

Record afio_inv (s : Stm32Afio) : Prop := {
  a_len : length (AFIO_EXTICR s) = 4%nat;
  a_wired : forall line, 0 <= line < 16 -> wired s line;
  a_usart12 : AFIO_MAPR s = 0 /\ USART1_REMAP s = 0 /\ USART2_REMAP s = 0;
  a_usart3 : 0 <= USART3_REMAP s < 4
}.

(** A register value whose four fields name existing ports. *)
Definition ports_ok (v : Z) : Prop := forall i, 0 <= i < 4 -> (v >> (i * 4)) .& 0xf < 7.

Definition afio_zero : Stm32Afio := mkAfio 0 0 0 0 [0; 0; 0; 0] ∅.
Definition afio_demo : Stm32Afio :=
  match stm32_afio_reset afio_zero with Done _ s _ => s | Halt _ => afio_zero end.

Lemma reset_from_zero : stm32_afio_reset afio_zero = Done () afio_demo [].
Proof. vm_compute. reflexivity. Qed.

(** ** Rewiring *)

(** The wires after the fields [0 .. k-1] of register [index] were rewritten. *)
Definition rewired (s : Stm32Afio) (index v : Z) (k : nat) (s' : Stm32Afio) : Prop :=
  s' = s <| wires := wires s' |> /\
  forall g pin, wires s' !! (g, pin) =
    if (index * 4 <=? pin) && (pin <? index * 4 + Z.of_nat k) then
      if g =? (v >> ((pin - index * 4) * 4)) .& 0xf then Some pin
      else if g =? port_of s pin then None else wires s !! (g, pin)
    else wires s !! (g, pin).

Lemma connect_ok g pin l s :
  g < 7 -> connect g pin l s = Done () (s <| wires := partial_alter (λ _, l) (g, pin) (wires s) |>) [].
Proof. intros Hg. unfold connect, STM32_GPIO_COUNT, STM32_GPIOG, STM32_GPIOA. by rewrite (proj2 (Z.ltb_lt g _)) by lia. Qed.

Lemma port_of_field s index i :
  0 <= i < 4 -> 0 <= index -> port_of s (index * 4 + i) = (exticr s index >> (i * 4)) .& 0xf.
Proof.
  intros Hi Hx. unfold port_of. rewrite Z.div_add_l, (Z.div_small i), Z.add_0_r by lia.
  by rewrite Z.add_comm, Z.mod_add, Z.mod_small by lia.
Qed.

Lemma write_line_ok index v s k s' :
  0 <= index < 4 -> (k < 4)%nat -> afio_inv s -> ports_ok v -> rewired s index v k s' ->
  exists s2, exticr_write_line index v false (0 + Z.of_nat k) s' = Done () s2 [] /\ rewired s index v (S k) s2.
Proof.
  intros Hx Hk Hinv Hv [Hs' Hw]. rewrite Z.add_0_l. remember (Z.of_nat k) as i eqn:Hik.
  unfold exticr_write_line, AFIO_EXTI_PER_CR, mbind, M_bind, gets.
  assert (Hcr : exticr s' index = exticr s index) by (rewrite Hs'; done). rewrite Hcr.
  rewrite <- port_of_field by lia. destruct (a_wired _ Hinv (index * 4 + i)) as [Hlt Hwire]; [lia |].
  rewrite (connect_ok (port_of s (index * 4 + i))) by done.
  rewrite connect_ok by (apply Hv; lia). eexists. split; [done |].
  split; [rewrite Hs'; by destruct s |]. intros g pin. cbn [wires set_field].
  change (wires (mkAfio ?a ?b ?c ?d ?e ?w)) with w. cbn.
  destruct (decide (pin = index * 4 + i)) as [-> | Hpin].
  - rewrite between_true by lia.
    replace (index * 4 + i - index * 4) with i by lia.
    destruct (Z.eqb_spec g ((v >> (i * 4)) .& 0xf)) as [-> | Hg]; [by rewrite lookup_partial_alter_eq |].
    rewrite lookup_partial_alter_ne by congruence.
    destruct (Z.eqb_spec g (port_of s (index * 4 + i))) as [-> | Hg']; [by rewrite lookup_partial_alter_eq |].
    rewrite lookup_partial_alter_ne by congruence. rewrite Hw. by rewrite between_false by lia.
  - rewrite !lookup_partial_alter_ne by congruence. rewrite Hw.
    destruct (decide (index * 4 <= pin < index * 4 + i)).
    + by rewrite !between_true by lia.
    + by rewrite !between_false by lia.
Qed.

Lemma rewire_loop index v s :
  0 <= index < 4 -> afio_inv s -> ports_ok v ->
  wp (for_each (zrange 0 4) (exticr_write_line index v false)) (λ _ s' t, t = [] /\ rewired s index v 4 s') s.
Proof.
  intros Hx Hinv Hv.
  eapply wp_mono; [apply (wp_for_each _ _ (λ k s' t, t = [] /\ rewired s index v k s') s []) |].
  - split; [done |]. split; [by destruct s |]. intros g pin.
    by rewrite between_false by lia.
  - intros k x s' t Hl [-> Hr]. apply zrange_lookup in Hl as [Hk ->].
    destruct (write_line_ok index v s k s') as (s2 & Hrun & Hr2); [done.. |]. unfold wp. by rewrite Hrun.
  - by intros [] s' t'.
Qed.

Lemma exticr_insert s index v j :
  length (AFIO_EXTICR s) = 4%nat -> 0 <= index < 4 -> 0 <= j ->
  exticr (s <| AFIO_EXTICR := <[Z.to_nat index := v]> (AFIO_EXTICR s) |>) j =
    if index =? j then v else exticr s j.
Proof.
  intros Hl Hx Hj. unfold exticr. cbn. destruct (Z.eqb_spec index j) as [-> |].
  - by rewrite list_lookup_insert_eq by lia.
  - by rewrite list_lookup_insert_ne by lia.
Qed.

Lemma EXTICR_write_ok index v s :
  0 <= index < 4 -> afio_inv s -> ports_ok v ->
  wp (stm32_afio_AFIO_EXTICR_write index v false)
    (λ _ s' t, t = [] /\ afio_inv s' /\ AFIO_EXTICR s' = <[Z.to_nat index := v]> (AFIO_EXTICR s)) s.
Proof.
  intros Hx Hinv Hv. unfold stm32_afio_AFIO_EXTICR_write, AFIO_EXTICR_COUNT.
  rewrite (proj2 (Z.ltb_lt index 4)) by lia. apply wp_bind. cbn [assert_ wp mret M_ret]. apply wp_bind.
  eapply wp_mono; [by apply rewire_loop |]. intros _ s1 t1 [-> [Hs1 Hw]]. cbn.
  assert (He : AFIO_EXTICR s1 = AFIO_EXTICR s) by (rewrite Hs1; done).
  destruct (id Hinv) as [Hlen Hwired Hu12 Hu3]. split; [done | split; [| by rewrite He]].
  split; [cbn; by rewrite length_insert, He | | rewrite Hs1; done | rewrite Hs1; done].
  intros line Hline. set (s2 := s1 <| AFIO_EXTICR := _ |>).
  assert (Hport : port_of s2 line = if index =? line / 4 then (v >> (line mod 4 * 4)) .& 0xf else port_of s line).
  { unfold port_of, s2. rewrite exticr_insert; [| by rewrite He | done | apply Z.div_pos; lia].
    destruct (index =? line / 4); [done |]. unfold exticr. by rewrite He. }
  pose proof (Z.div_mod line 4 ltac:(lia)) as Hdm. pose proof (Z.mod_pos_bound line 4 ltac:(lia)) as Hm.
  unfold wired. rewrite Hport. change (wires s2) with (wires s1).
  destruct (Z.eqb_spec index (line / 4)) as [Heq | Hne].
  - assert (Hin : (index * 4 <=? line) && (line <? index * 4 + Z.of_nat 4) = true)
      by (apply between_true; lia).
    split; [apply Hv; lia |]. intros g l. rewrite Hw, Hin.
    replace (line - index * 4) with (line mod 4) by lia.
    destruct (Z.eqb_spec g ((v >> (line mod 4 * 4)) .& 0xf)) as [-> | Hg]; [naive_solver |].
    destruct (Z.eqb_spec g (port_of s line)) as [-> | Hg']; [naive_solver |].
    rewrite (proj2 (Hwired line Hline)). naive_solver.
  - assert (Hout : (index * 4 <=? line) && (line <? index * 4 + Z.of_nat 4) = false)
      by (apply between_false; lia).
    split; [by apply Hwired |]. intros g l. rewrite Hw, Hout. by apply Hwired.
Qed.

(** ** The pin mapping interface *)

#[export] Instance afio_map : PeriphMap Stm32Afio := λ s periph,
  match stm32_afio_get_periph_map periph s with Done m _ _ => Some m | Halt _ => None end.

(** ** The properties of the AFIO *)

Lemma afio_demo_port line : 0 <= line < 16 -> port_of afio_demo line = 0.
Proof. intros Hl. enum_upto line 16; by vm_compute. Qed.

Lemma afio_demo_inv : afio_inv afio_demo.
Proof.
  split; [by vm_compute | | by vm_compute | split; by vm_compute].
  intros line Hline. split.
  { enum_upto line 16; by vm_compute. }
  intros g l. assert (Hw : forall n, 0 <= n < 16 -> wires afio_demo !! (g, n) = if g =? 0 then Some n else None).
  { intros n Hn. assert (Hmap : wires afio_demo = list_to_map ((λ i, ((0, i), i)) <$> zrange 0 16)) by by vm_compute.
    rewrite Hmap. destruct (Z.eqb_spec g 0) as [-> | Hg].
    - apply elem_of_list_to_map_1.
      + apply (bool_decide_unpack _). by vm_compute.
      + apply list_elem_of_fmap. exists n. rewrite elem_of_zrange. split; [done | lia].
    - apply not_elem_of_list_to_map_1. rewrite <- list_fmap_compose.
      intros (i & [= ? ?] & _)%list_elem_of_fmap. done. }
  rewrite Hw, afio_demo_port by done. clear Hw. destruct (Z.eqb_spec g 0) as [-> |]; split.
  - by intros [= ->].
  - by intros [_ ->].
  - done.
  - by intros [? _].
Qed.

(** C35 (afio.wiring).  The connections follow the registers.  After the first
    reset every EXTI line is driven by its pin of port A; from a consistent
    wiring, a write of a register value that names existing ports completes,
    stores the value and rewires the four lines of the register, each to the
    selected port and to no other, leaving the other lines connected as they
    were. *)
Theorem afio_wiring {R : Type} `{PeriphClocks R} (rcc : R) (s : Stm32Afio) (index v : Z) :
  afio_inv s -> 0 <= index < 4 -> ports_ok (u32 v) -> periph_clocked rcc STM32_AFIO_PERIPH = true ->
  (exists s0, stm32_afio_reset afio_zero = Done () s0 [] /\ afio_inv s0 /\
     forall line, 0 <= line < 16 -> port_of s0 line = 0) /\
  exists s', stm32_afio_write rcc (AFIO_EXTICR_START + 4 * index) v 4 s =
      Done () s' (clk_warning rcc STM32_AFIO_PERIPH) /\ afio_inv s' /\
    AFIO_EXTICR s' = <[Z.to_nat index := u32 v]> (AFIO_EXTICR s) /\
    forall line g l, 0 <= line < 16 -> wires s' !! (g, line) = Some l <-> g = port_of s' line /\ l = line.
Proof.
  intros Hinv Hx Hv Hc. split.
  { exists afio_demo. split; [exact reset_from_zero | split; [exact afio_demo_inv |]].
    intros line Hl. by apply afio_demo_port. }
  destruct (wp_Done _ _ _ (EXTICR_write_ok index (u32 v) s Hx Hinv Hv)) as ([] & s' & t & Hrun & -> & Hinv' & He).
  exists s'. split; [| split; [done | split; [done |]]].
  - unfold stm32_afio_write, mbind, M_bind. rewrite check_periph_clk_ok by done.
    enum_upto index 4; zcase; rewrite Hrun, app_nil_r; done.
  - intros line g l Hl. by apply (a_wired _ Hinv').
Qed.

(** The button of the board is on port A, pin 0: line 0 moved to port B. *)
Lemma afio_wiring_witness :
  exists s', stm32_afio_write 8000000 AFIO_EXTICR1_OFFSET 1 4 afio_demo = Done () s' [] /\
    AFIO_EXTICR s' = [1; 0; 0; 0].
Proof.
  destruct (afio_wiring (H := fixed_clocks) 8000000 afio_demo 0 1 afio_demo_inv ltac:(lia)) as (_ & s' & Hrun & _ & He & _).
  - intros i Hi. enum_upto i 4; by vm_compute.
  - reflexivity.
  - exists s'. split; [exact Hrun |]. rewrite He. by vm_compute.
Defined.

(** The selection fields have four bits but only
    seven ports exist: a value that names a missing port indexes the array of
    ports out of its bounds. *)
Theorem afio_missing_port {R : Type} `{PeriphClocks R} (rcc : R) (s : Stm32Afio) (v : Z) :
  afio_inv s -> periph_clocked rcc STM32_AFIO_PERIPH = true -> 7 <= u32 v .& 0xf ->
  stm32_afio_write rcc AFIO_EXTICR1_OFFSET v 4 s = Halt OutOfBounds.
Proof.
  intros Hinv Hc Hbad. unfold stm32_afio_write, mbind, M_bind. rewrite check_periph_clk_ok by done.
  zcase.
  assert (Hw : stm32_afio_AFIO_EXTICR_write 0 (u32 v) false s = Halt OutOfBounds); [| by rewrite Hw].
  unfold stm32_afio_AFIO_EXTICR_write, mbind, M_bind, assert_, mret, M_ret. zcase.
  change (zrange 0 (Z.to_nat AFIO_EXTI_PER_CR)) with (0 :: [1; 2; 3]). cbn [for_each]. unfold mbind, M_bind.
  assert (Hl : exticr_write_line 0 (u32 v) false 0 s = Halt OutOfBounds); [| by rewrite Hl].
  unfold exticr_write_line, mbind, M_bind, gets.
  destruct (a_wired _ Hinv 0 ltac:(lia)) as [Hlt _].
  rewrite <- (port_of_field s 0 0) by lia. change (0 * 4 + 0) with 0. rewrite connect_ok by done.
  unfold connect. change (0 * 4) with 0. rewrite Z.shiftr_0_r.
  unfold STM32_GPIO_COUNT, STM32_GPIOG, STM32_GPIOA. by rewrite (proj2 (Z.ltb_ge (u32 v .& 15) _)) by lia.
Qed.

Lemma afio_missing_port_witness :
  stm32_afio_write 8000000 AFIO_EXTICR1_OFFSET 7 4 afio_demo = Halt OutOfBounds.
Proof. apply (afio_missing_port 8000000 afio_demo 7 afio_demo_inv); [reflexivity | by vm_compute]. Defined.

(** A write to MAPR decodes the fields of USART1
    and USART2 from the field [AFIO_MAPR], which no function writes, instead
    of the written value: whatever is written, both stay at zero and only the
    field of USART3 takes effect. *)
Theorem afio_usart_remap_stuck {R : Type} `{PeriphClocks R} (rcc : R) (s : Stm32Afio) (v : Z) :
  afio_inv s -> periph_clocked rcc STM32_AFIO_PERIPH = true ->
  exists s' t, stm32_afio_write rcc AFIO_MAPR_OFFSET v 4 s = Done () s' t /\
    stm32_afio_get_periph_map STM32_UART1 s' = Done 0 s' [] /\
    stm32_afio_get_periph_map STM32_UART2 s' = Done 0 s' [] /\
    stm32_afio_get_periph_map STM32_UART3 s' = Done ((u32 v .& 0x30) >> 4) s' [].
Proof.
  intros [_ _ (Hm & _ & _) _] Hc. unfold stm32_afio_write, mbind, M_bind. rewrite check_periph_clk_ok by done.
  eexists _, _. split; [reflexivity |].
  unfold stm32_afio_get_periph_map, gets. cbn -[u32]. by rewrite Hm.
Qed.

(** The guest asks for both remaps and gets neither. *)
Lemma afio_usart_remap_stuck_witness :
  exists s' t, stm32_afio_write 8000000 AFIO_MAPR_OFFSET 0xc 4 afio_demo = Done () s' t /\
    stm32_afio_get_periph_map STM32_UART1 s' = Done 0 s' [].
Proof.
  destruct (afio_usart_remap_stuck (H := fixed_clocks) 8000000 afio_demo 0xc afio_demo_inv eq_refl) as (s' & t & Hrun & H1 & _).
  exists s', t. exact (conj Hrun H1).
Defined.

(** Only the first reset leaves a clean wiring:
    the reset passes [init = true], which skips the disconnections, so when a
    line was driven by another port before a later reset, two ports drive it
    afterwards. *)
Theorem afio_reset_keeps_wires :
  exists s1 s2, stm32_afio_write 8000000 AFIO_EXTICR1_OFFSET 1 4 afio_demo = Done () s1 [] /\
    stm32_afio_reset s1 = Done () s2 [] /\ port_of s2 0 = 0 /\
    wires s2 !! (0, 0) = Some 0 /\ wires s2 !! (1, 0) = Some 0.
Proof.
  exists (match stm32_afio_write 8000000 AFIO_EXTICR1_OFFSET 1 4 afio_demo with Done _ s _ => s | Halt _ => afio_demo end).
  eexists. split; [by vm_compute |]. split; [by vm_compute |]. by vm_compute.
Qed.
