(* ===== verification/Crc.v ===== *)
(** * CRC calculation unit ([hw/arm/stm32_crc.c])

    The unit computes a CRC-32 with a table of 256 entries, one step per byte.
    The reference is the bitwise algorithm for the polynomial 0x04C11DB7, not
    reflected, that the comment above the table names. *)

From S2P Require Import Prelude Stm32.

Definition R_CRC_DR : Z := 0x00 / 4.
Definition R_CRC_DR_RESET : Z := 0xffffffff.
Definition R_CRC_IDR : Z := 0x04 / 4.
Definition R_CRC_CR : Z := 0x08 / 4.
Definition R_CRC_MAX : Z := 0x0c / 4.

Definition crctable : list Z :=
  [
    0x00000000; 0x04c11db7; 0x09823b6e; 0x0d4326d9; 0x130476dc; 0x17c56b6b; 0x1a864db2; 0x1e475005 ;
    0x2608edb8; 0x22c9f00f; 0x2f8ad6d6; 0x2b4bcb61; 0x350c9b64; 0x31cd86d3; 0x3c8ea00a; 0x384fbdbd ;
    0x4c11db70; 0x48d0c6c7; 0x4593e01e; 0x4152fda9; 0x5f15adac; 0x5bd4b01b; 0x569796c2; 0x52568b75 ;
    0x6a1936c8; 0x6ed82b7f; 0x639b0da6; 0x675a1011; 0x791d4014; 0x7ddc5da3; 0x709f7b7a; 0x745e66cd ;
    0x9823b6e0; 0x9ce2ab57; 0x91a18d8e; 0x95609039; 0x8b27c03c; 0x8fe6dd8b; 0x82a5fb52; 0x8664e6e5 ;
    0xbe2b5b58; 0xbaea46ef; 0xb7a96036; 0xb3687d81; 0xad2f2d84; 0xa9ee3033; 0xa4ad16ea; 0xa06c0b5d ;
    0xd4326d90; 0xd0f37027; 0xddb056fe; 0xd9714b49; 0xc7361b4c; 0xc3f706fb; 0xceb42022; 0xca753d95 ;
    0xf23a8028; 0xf6fb9d9f; 0xfbb8bb46; 0xff79a6f1; 0xe13ef6f4; 0xe5ffeb43; 0xe8bccd9a; 0xec7dd02d ;
    0x34867077; 0x30476dc0; 0x3d044b19; 0x39c556ae; 0x278206ab; 0x23431b1c; 0x2e003dc5; 0x2ac12072 ;
    0x128e9dcf; 0x164f8078; 0x1b0ca6a1; 0x1fcdbb16; 0x018aeb13; 0x054bf6a4; 0x0808d07d; 0x0cc9cdca ;
    0x7897ab07; 0x7c56b6b0; 0x71159069; 0x75d48dde; 0x6b93dddb; 0x6f52c06c; 0x6211e6b5; 0x66d0fb02 ;
    0x5e9f46bf; 0x5a5e5b08; 0x571d7dd1; 0x53dc6066; 0x4d9b3063; 0x495a2dd4; 0x44190b0d; 0x40d816ba ;
    0xaca5c697; 0xa864db20; 0xa527fdf9; 0xa1e6e04e; 0xbfa1b04b; 0xbb60adfc; 0xb6238b25; 0xb2e29692 ;
    0x8aad2b2f; 0x8e6c3698; 0x832f1041; 0x87ee0df6; 0x99a95df3; 0x9d684044; 0x902b669d; 0x94ea7b2a ;
    0xe0b41de7; 0xe4750050; 0xe9362689; 0xedf73b3e; 0xf3b06b3b; 0xf771768c; 0xfa325055; 0xfef34de2 ;
    0xc6bcf05f; 0xc27dede8; 0xcf3ecb31; 0xcbffd686; 0xd5b88683; 0xd1799b34; 0xdc3abded; 0xd8fba05a ;
    0x690ce0ee; 0x6dcdfd59; 0x608edb80; 0x644fc637; 0x7a089632; 0x7ec98b85; 0x738aad5c; 0x774bb0eb ;
    0x4f040d56; 0x4bc510e1; 0x46863638; 0x42472b8f; 0x5c007b8a; 0x58c1663d; 0x558240e4; 0x51435d53 ;
    0x251d3b9e; 0x21dc2629; 0x2c9f00f0; 0x285e1d47; 0x36194d42; 0x32d850f5; 0x3f9b762c; 0x3b5a6b9b ;
    0x0315d626; 0x07d4cb91; 0x0a97ed48; 0x0e56f0ff; 0x1011a0fa; 0x14d0bd4d; 0x19939b94; 0x1d528623 ;
    0xf12f560e; 0xf5ee4bb9; 0xf8ad6d60; 0xfc6c70d7; 0xe22b20d2; 0xe6ea3d65; 0xeba91bbc; 0xef68060b ;
    0xd727bbb6; 0xd3e6a601; 0xdea580d8; 0xda649d6f; 0xc423cd6a; 0xc0e2d0dd; 0xcda1f604; 0xc960ebb3 ;
    0xbd3e8d7e; 0xb9ff90c9; 0xb4bcb610; 0xb07daba7; 0xae3afba2; 0xaafbe615; 0xa7b8c0cc; 0xa379dd7b ;
    0x9b3660c6; 0x9ff77d71; 0x92b45ba8; 0x9675461f; 0x8832161a; 0x8cf30bad; 0x81b02d74; 0x857130c3 ;
    0x5d8a9099; 0x594b8d2e; 0x5408abf7; 0x50c9b640; 0x4e8ee645; 0x4a4ffbf2; 0x470cdd2b; 0x43cdc09c ;
    0x7b827d21; 0x7f436096; 0x7200464f; 0x76c15bf8; 0x68860bfd; 0x6c47164a; 0x61043093; 0x65c52d24 ;
    0x119b4be9; 0x155a565e; 0x18197087; 0x1cd86d30; 0x029f3d35; 0x065e2082; 0x0b1d065b; 0x0fdc1bec ;
    0x3793a651; 0x3352bbe6; 0x3e119d3f; 0x3ad08088; 0x2497d08d; 0x2056cd3a; 0x2d15ebe3; 0x29d4f654 ;
    0xc5a92679; 0xc1683bce; 0xcc2b1d17; 0xc8ea00a0; 0xd6ad50a5; 0xd26c4d12; 0xdf2f6bcb; 0xdbee767c ;
    0xe3a1cbc1; 0xe760d676; 0xea23f0af; 0xeee2ed18; 0xf0a5bd1d; 0xf464a0aa; 0xf9278673; 0xfde69bc4 ;
    0x89b8fd09; 0x8d79e0be; 0x803ac667; 0x84fbdbd0; 0x9abc8bd5; 0x9e7d9662; 0x933eb0bb; 0x97ffad0c ;
    0xafb010b1; 0xab710d06; 0xa6322bdf; 0xa2f33668; 0xbcb4666d; 0xb8757bda; 0xb5365d03; 0xb1f740b4 ].

Definition update_crc (crc byte : Z) : Z :=
  u32 (default 0 (crctable !! Z.to_nat (((crc >> 24) .^ byte) .& 0xff)) .^ u32 (crc << 8)).

Record Stm32crc : Type := mkCrc {
  crc : Z;
  idr : Z
}.

#[export] Instance Stm32crc_settable : Settable Stm32crc := λ s, mkCrc (crc s) (idr s).

Abbreviation CrcM := (M dev_event Stm32crc).

Definition stm32_crc_read (addr size : Z) : CrcM Z :=
  if negb (size =? 4) then emit (Report Message) ;; mret 0 else
  let addr := addr >> 2 in
  if R_CRC_MAX <=? addr then emit (Report Message) ;; mret 0
  else if addr =? R_CRC_DR then gets crc
  else if addr =? R_CRC_IDR then gets idr
  else mret 0.

(** The four byte steps of a write to DR. *)
Definition crc_write_DR (data : Z) : CrcM unit :=
  modify (λ s, s <| crc := update_crc (crc s) ((data >> 24) .& 0xff) |>) ;;
  modify (λ s, s <| crc := update_crc (crc s) ((data >> 16) .& 0xff) |>) ;;
  modify (λ s, s <| crc := update_crc (crc s) ((data >> 8) .& 0xff) |>) ;;
  modify (λ s, s <| crc := update_crc (crc s) (data .& 0xff) |>).

Definition stm32_crc_write (addr data size : Z) : CrcM unit :=
  if negb (size =? 4) then emit (Report Message) else
  let addr := addr >> 2 in
  if R_CRC_MAX <=? addr then emit (Report Message)
  else if addr =? R_CRC_DR then crc_write_DR data
  else if addr =? R_CRC_IDR then modify (λ s, s <| idr := u8 data |>)
  else if addr =? R_CRC_CR then
    when (cbool (data .& 0x1)) (modify (λ s, s <| crc := R_CRC_DR_RESET |>))
  else mret ().

Definition stm32_crc_reset : CrcM unit :=
  modify (λ s, s <| crc := R_CRC_DR_RESET |>).

(** ** The bitwise reference *)

Definition CRC_POLY : Z := 0x04c11db7.

(** One bit: shift left and reduce by the polynomial when a one falls out. *)
Definition crc_bit (x : Z) : Z := u32 (x << 1) .^ (if Z.testbit x 31 then CRC_POLY else 0).

Fixpoint crc_bits (n : nat) (x : Z) : Z :=
  match n with O => x | S n' => crc_bit (crc_bits n' x) end.

(** The register after the word [w] has been fed to it. *)
Definition crc_word (c w : Z) : Z := crc_bits 32 (c .^ w).

Lemma crc_bit_lxor a b : crc_bit (a .^ b) = crc_bit a .^ crc_bit b.
Proof.
  unfold crc_bit. apply Z.bits_inj'. intros i Hi. unfold u32. zbit_simp.
  destruct (Z.ltb_spec i 32), (Z.leb_spec 1 i); cbn [andb];
    rewrite ?Z.lxor_spec; destruct (Z.testbit a 31), (Z.testbit b 31); cbn [xorb];
    rewrite ?Z.testbit_0_l; zbit_simp;
    destruct (Z.testbit CRC_POLY i), (Z.testbit a (i - 1)), (Z.testbit b (i - 1)); done.
Qed.

Lemma crc_bits_lxor n a b : crc_bits n (a .^ b) = crc_bits n a .^ crc_bits n b.
Proof.
  induction n as [|n IH]; [done |]. cbn [crc_bits]. by rewrite IH, crc_bit_lxor.
Qed.

(** A value whose top [n] bits are zero is only shifted. *)
Lemma crc_bits_shift n x :
  (n <= 32)%nat -> 0 <= x < 2 ^ (32 - Z.of_nat n) -> crc_bits n x = x << Z.of_nat n.
Proof.
  induction n as [|n IH]; intros Hn Hx; [by rewrite Z.shiftl_0_r |].
  cbn [crc_bits].
  assert (Hp : 2 ^ (32 - Z.of_nat n) = 2 * 2 ^ (32 - Z.of_nat (S n))).
  { rewrite <- Z.pow_succ_r by lia. f_equal. lia. }
  rewrite IH by lia. unfold crc_bit.
  assert (Hs : 0 <= x << Z.of_nat n < 2 ^ 31).
  { rewrite Z.shiftl_mul_pow2 by lia.
    assert (2 ^ 31 = 2 ^ (32 - Z.of_nat (S n)) * 2 ^ Z.of_nat n) as ->.
    { rewrite <- Z.pow_add_r by lia. f_equal. lia. }
    assert (0 < 2 ^ Z.of_nat n) by (apply Z.pow_pos_nonneg; lia). nia. }
  rewrite (testbit_high 31) by lia. rewrite Z.lxor_0_r, Z.shiftl_shiftl by lia.
  replace (Z.of_nat n + 1) with (Z.of_nat (S n)) by lia. apply u32_small.
  replace (Z.of_nat (S n)) with (Z.of_nat n + 1) by lia. rewrite <- Z.shiftl_shiftl by lia.
  rewrite (Z.shiftl_mul_pow2 _ 1) by lia. lia.
Qed.

(** ** The table *)

Lemma crctable_ok h : 0 <= h < 256 -> crctable !! Z.to_nat h = Some (crc_bits 8 (h << 24)).
Proof.
  intros Hh. assert (Hall : forallb (λ h, bool_decide (crctable !! Z.to_nat h = Some (crc_bits 8 (h << 24)))) (zrange 0 256) = true)
    by by vm_compute.
  rewrite forallb_forall in Hall. eapply bool_decide_eq_true, Hall, list_elem_of_In, elem_of_zrange. lia.
Qed.

(** A 32-bit word is its top byte and the other 24 bits. *)
Lemma split_top x : 0 <= x < 2 ^ 32 -> x = ((x >> 24) << 24) .^ (x .& Z.ones 24).
Proof.
  intros Hx. apply Z.bits_inj'. intros i Hi. rewrite Z.lxor_spec, Z.land_spec, testbit_shiftl, testbit_ones by lia.
  destruct (Z.leb_spec 24 i), (Z.ltb_spec i 24); try lia; cbn [andb].
  - rewrite Z.shiftr_spec by lia. replace (i - 24 + 24) with i by lia. by rewrite andb_false_r, xorb_false_r.
  - by rewrite andb_true_r.
Qed.

Lemma crc_bits8 x :
  0 <= x < 2 ^ 32 -> crc_bits 8 x = crc_bits 8 ((x >> 24) << 24) .^ u32 (x << 8).
Proof.
  intros Hx. rewrite (split_top x) at 1 by done. rewrite crc_bits_lxor. f_equal.
  rewrite crc_bits_shift; [| lia | apply (land_bound 24); [lia | rewrite Z.ones_equiv; lia]].
  unfold u32. apply Z.bits_inj'. intros i Hi. change (Z.of_nat 8) with 8.
  rewrite testbit_mod_pow2, !testbit_shiftl, Z.land_spec by lia.
  destruct (Z.leb_spec 8 i); [| by rewrite andb_false_r]. rewrite testbit_ones by lia.
  destruct (Z.ltb_spec (i - 8) 24), (Z.ltb_spec i 32); try lia; cbn; by rewrite ?andb_true_r, ?andb_false_r.
Qed.

Lemma byte_range x : 0 <= x .& 0xff < 2 ^ 8.
Proof. apply land_bound; lia. Qed.

Lemma update_crc_bitwise c b :
  0 <= c < 2 ^ 32 -> 0 <= b < 256 -> update_crc c b = crc_bits 8 (c .^ (b << 24)).
Proof.
  intros Hc Hb. assert (Hx : 0 <= c .^ (b << 24) < 2 ^ 32).
  { apply lxor_bound; [lia | done |]. rewrite Z.shiftl_mul_pow2 by lia. lia. }
  rewrite crc_bits8 by done. unfold update_crc.
  assert (Hidx : ((c >> 24) .^ b) .& 0xff = (c .^ (b << 24)) >> 24).
  { change 0xff with (Z.ones 8). rewrite Z.shiftr_lxor, Z.shiftr_shiftl_r, Z.sub_diag, Z.shiftr_0_r by lia.
    rewrite Z.land_ones by lia. apply Z.mod_small, lxor_bound; [lia | | lia].
    apply shiftr_bound; lia. }
  rewrite Hidx, crctable_ok by (apply (shiftr_bound 8 24); lia). cbn [default].
  rewrite Z.shiftl_lxor, Z.shiftl_shiftl by lia.
  assert (Hlow : u32 ((c << 8) .^ (b << (24 + 8))) = u32 (c << 8)).
  { unfold u32. apply Z.bits_inj'. intros i Hi. zbit_simp. destruct (Z.ltb_spec i 32); [| done]. cbn [andb].
    rewrite (proj2 (Z.leb_gt (24 + 8) i)) by lia. by rewrite xorb_false_r. }
  rewrite Hlow. apply u32_small, lxor_bound; [lia | | apply u32_range].
  assert (Hr : forall n x, 0 <= x < 2 ^ 32 -> 0 <= crc_bits n x < 2 ^ 32); [| apply Hr].
  { intros n x0 Hx0. induction n as [|n IH]; [done |]. cbn [crc_bits]. unfold crc_bit at 1 2.
    apply lxor_bound; [lia | apply u32_range |]. case_match; unfold CRC_POLY; lia. }
  pose proof (shiftr_bound 8 24 (c .^ (b << 24)) ltac:(lia) ltac:(lia) Hx).
  rewrite (Z.shiftl_mul_pow2 _ 24) by lia. lia.
Qed.

(** ** A word *)

Lemma crc_bits_add n m x : crc_bits (n + m) x = crc_bits n (crc_bits m x).
Proof. induction n as [|n IH]; [done |]. cbn [Nat.add crc_bits]. by rewrite IH. Qed.

Lemma crc_bits_range n x : 0 <= x < 2 ^ 32 -> 0 <= crc_bits n x < 2 ^ 32.
Proof.
  intros Hx. induction n as [|n IH]; [done |]. cbn [crc_bits]. unfold crc_bit at 1 2.
  apply lxor_bound; [lia | apply u32_range |]. case_match; unfold CRC_POLY; lia.
Qed.

(** Feeding a byte after [8 * n] bits is feeding it, shifted down, before them. *)
Lemma update_crc_deferred n c b :
  (n <= 3)%nat -> 0 <= c < 2 ^ 32 -> 0 <= b < 256 ->
  update_crc (crc_bits (8 * n) c) b = crc_bits (8 * S n) (c .^ (b << (24 - 8 * Z.of_nat n))).
Proof.
  intros Hn Hc Hb. rewrite update_crc_bitwise by (try done; by apply crc_bits_range).
  replace (8 * S n)%nat with (8 + 8 * n)%nat by lia. rewrite crc_bits_add. f_equal. rewrite crc_bits_lxor. f_equal.
  rewrite (crc_bits_shift (8 * n)); [| lia |].
  - rewrite Z.shiftl_shiftl by lia. f_equal. lia.
  - rewrite Z.shiftl_mul_pow2 by lia.
    assert (2 ^ (32 - Z.of_nat (8 * n)) = 256 * 2 ^ (24 - 8 * Z.of_nat n)) as ->.
    { change 256 with (2 ^ 8). rewrite <- Z.pow_add_r by lia. f_equal. lia. }
    assert (0 < 2 ^ (24 - 8 * Z.of_nat n)) by (apply Z.pow_pos_nonneg; lia). nia.
Qed.

Lemma word_bytes d :
  (((d >> 24) .& 0xff) << 24) .^ (((d >> 16) .& 0xff) << 16) .^ (((d >> 8) .& 0xff) << 8) .^ (d .& 0xff) = u32 d.
Proof.
  change 0xff with (Z.ones 8). apply Z.bits_inj'. intros i Hi. unfold u32.
  rewrite testbit_mod_pow2, !Z.lxor_spec, !testbit_shiftl, !Z.land_spec by lia.
  rewrite (testbit_ones 8 i) by lia.
  destruct (Z.leb_spec 24 i), (Z.leb_spec 16 i), (Z.leb_spec 8 i); try lia; cbn [andb];
    rewrite ?Z.shiftr_spec, ?testbit_ones by lia; rewrite ?Z.sub_add;
    destruct (Z.ltb_spec i 32); try lia;
    repeat match goal with |- context [?a <? ?b] => destruct (Z.ltb_spec a b); try lia end;
    by rewrite ?andb_true_r, ?andb_false_r, ?xorb_false_r, ?xorb_false_l.
Qed.

Lemma write_DR_word data s :
  0 <= crc s < 2 ^ 32 ->
  crc_write_DR data s = Done () (s <| crc := crc_word (crc s) (u32 data) |>) [].
Proof.
  intros Hc. unfold crc_write_DR, mbind, M_bind, modify. cbn [app]. f_equal.
  unfold set_field. cbn. f_equal.
  pose proof (byte_range (data >> 24)). pose proof (byte_range (data >> 16)).
  pose proof (byte_range (data >> 8)). pose proof (byte_range data).
  assert (Hx : forall b k, 0 <= b < 2 ^ 8 -> 0 <= k <= 24 -> 0 <= b << k < 2 ^ 32).
  { intros b k Hb Hk. rewrite Z.shiftl_mul_pow2 by lia. split; [apply Z.mul_nonneg_nonneg; lia |].
    assert (0 < 2 ^ k <= 2 ^ 24) by (split; [apply Z.pow_pos_nonneg; lia | apply Z.pow_le_mono_r; lia]). nia. }
  change (crc s) with (crc_bits (8 * 0) (crc s)) at 1.
  rewrite (update_crc_deferred 0 (crc s)) by lia.
  do 3 (rewrite update_crc_deferred by first [lia | repeat apply lxor_bound; first [lia | apply Hx; lia]]).
  unfold crc_word. change (8 * 4)%nat with 32%nat. f_equal. rewrite <- word_bytes, !Z.lxor_assoc.
  change (24 - 8 * Z.of_nat 3) with 0. by rewrite Z.shiftl_0_r.
Qed.

Lemma crc_set (s : Stm32crc) (v : Z) : crc (s <| crc := v |>) = v.
Proof. reflexivity. Qed.

(** ** The properties of the CRC unit *)

(** A sequence of words written to DR. *)
Definition feed (ws : list Z) : CrcM unit := for_each ws (λ w, stm32_crc_write 0 w 4).

(** C19 (crc.table_is_bitwise).  For every 32-bit register value and every byte
    the table-driven step is eight steps of the bitwise CRC-32 with polynomial
    0x04C11DB7. *)
Theorem crc_table_is_bitwise (c b : Z) :
  0 <= c < 2 ^ 32 -> 0 <= b < 256 -> update_crc c b = crc_bits 8 (c .^ (b << 24)).
Proof. apply update_crc_bitwise. Qed.

Lemma crc_table_is_bitwise_witness : update_crc 0xffffffff 0x31 = crc_bits 8 (0xffffffff .^ (0x31 << 24)).
Proof. apply (crc_table_is_bitwise 0xffffffff 0x31); lia. Defined.

(** After a reset, writing any sequence of words to DR
    completes and DR reads as the bitwise CRC-32 of the sequence, started from
    0xffffffff. *)
Theorem crc_message (s : Stm32crc) (ws : list Z) :
  exists s', (stm32_crc_reset ;; feed ws) s = Done () s' [] /\
    stm32_crc_read 0 4 s' = Done (foldl (λ c w, crc_word c (u32 w)) 0xffffffff ws) s' [].
Proof.
  assert (Hfeed : forall ws s, 0 <= crc s < 2 ^ 32 -> exists s', feed ws s = Done () s' [] /\
    crc s' = foldl (λ c w, crc_word c (u32 w)) (crc s) ws).
  { clear. induction ws as [|w ws IH]; intros s Hs; [by exists s |].
    destruct (IH (s <| crc := crc_word (crc s) (u32 w) |>)) as (s' & Hrun & Hcrc).
    - cbn [crc set_field]. apply (crc_bits_range 32), lxor_bound; [lia | exact Hs | apply u32_range].
    - exists s'. split; [| cbn [foldl]; rewrite <- (crc_set s (crc_word (crc s) (u32 w))); exact Hcrc]. unfold feed in *. cbn [for_each]. unfold mbind, M_bind.
      assert (Hw : stm32_crc_write 0 w 4 s = Done () (s <| crc := crc_word (crc s) (u32 w) |>) [])
        by (apply (write_DR_word w s Hs)).
      rewrite Hw, Hrun. reflexivity. }
  destruct (Hfeed ws (s <| crc := R_CRC_DR_RESET |>)) as (s' & Hrun & Hcrc); [rewrite crc_set; unfold R_CRC_DR_RESET; lia |].
  rewrite crc_set in Hcrc.
  exists s'. split.
  - unfold stm32_crc_reset, mbind, M_bind, modify. rewrite Hrun. reflexivity.
  - unfold stm32_crc_read, gets. zcase. cbn [negb]. rewrite Hcrc. reflexivity.
Qed.

(** The word 0x00000000 gives 0xc704dd7b, the value of the hardware. *)
Example crc_zero_word : foldl (λ c w, crc_word c (u32 w)) 0xffffffff [0] = 0xc704dd7b.
Proof. reflexivity. Qed.
