(* ===== verification/Iwdg.v ===== *)
(** * Independent watchdog ([hw/arm/stm32_iwdg.c])

    The state and the register handlers of the watchdog, and the watchdog in
    time: a run of guest accesses at increasing virtual times in which QEMU's
    timer fires [iwdg_timer_expired] as soon as its deadline has passed.  The
    virtual time is an argument of the handlers. *)

From S2P Require Import Prelude Stm32 Rcc.

Definition R_IWDG_KR : Z := 0x00.
Definition R_IWDG_PR : Z := 0x04.
Definition R_IWDG_RLR : Z := 0x08.
Definition R_IWDG_SR : Z := 0x0C.

Record Stm32Iwdg : Type := mkIwdg {
  reboot_enabled : Z;
  enabled : Z;
  timer_reload : Z;
  prescaler : Z;
  unlock_state : Z;
  previous_reboot_flag : Z;
  IWDG_KR : Z;
  IWDG_PR : Z;
  IWDG_RLR : Z;
  IWDG_SR : Z
}.

#[export] Instance Stm32Iwdg_settable : Settable Stm32Iwdg := λ s,
  mkIwdg (reboot_enabled s) (enabled s) (timer_reload s) (prescaler s) (unlock_state s)
    (previous_reboot_flag s) (IWDG_KR s) (IWDG_PR s) (IWDG_RLR s) (IWDG_SR s).

(** What the watchdog does to its timer, to the RCC and to the machine. *)
Inductive iwdg_event : Type :=
  | WdTimerMod (expire : Z)
  | WdTimerDel
  | WdCsrWrite (new_value : Z) (init : bool)
  | WdPerformAction.

Abbreviation IwdgM := (M iwdg_event Stm32Iwdg).

(** ** The handlers *)

Definition tim_period (s : Stm32Iwdg) : Z :=
  let period := u32 (1000000 * prescaler s) / 40 in
  u32 (period * IWDG_RLR s).

Definition tim_next_transition (s : Stm32Iwdg) (current_time : Z) : Z :=
  i64 (current_time + tim_period s).

Definition iwdg_restart_timer (now : Z) : IwdgM unit :=
  d ← get;
  if negb (cbool (enabled d)) then mret () else
  emit (WdTimerMod (tim_next_transition d now)).

Definition iwdg_disable_timer : IwdgM unit := emit WdTimerDel.

Definition iwdg_reset : IwdgM unit :=
  iwdg_disable_timer ;;
  modify (λ d, d <| reboot_enabled := 0 |> <| enabled := 0 |> <| prescaler := 4 |>
                 <| timer_reload := 0xfff |> <| IWDG_RLR := 0xfff |> <| unlock_state := 0 |>).

Definition iwdg_timer_expired : IwdgM unit :=
  d ← get;
  when (cbool (reboot_enabled d))
    (modify (λ d, d <| previous_reboot_flag := 1 |>) ;;
     emit (WdCsrWrite (1 << RCC_CSR_IWDGRSTF_BIT) false) ;;
     emit WdPerformAction ;;
     iwdg_reset).

Definition iwdg_read (offset size : Z) : IwdgM Z :=
  d ← get;
  mret (if offset =? R_IWDG_KR then 0
        else if offset =? R_IWDG_PR then IWDG_PR d
        else if offset =? R_IWDG_RLR then IWDG_RLR d
        else 0).

Definition iwdg_write (now offset data size : Z) : IwdgM unit :=
  if offset =? R_IWDG_KR then
    modify (λ s, s <| IWDG_KR := data .& 0xFFFF |>) ;;
    s ← get;
    if IWDG_KR s =? 0xCCCC then
      modify (λ s, s <| enabled := 1 |> <| reboot_enabled := 1 |>) ;;
      s ← get;
      emit (WdTimerMod (tim_next_transition s now))
    else if IWDG_KR s =? 0xAAAA then
      modify (λ s, s <| timer_reload := IWDG_RLR s |>) ;;
      iwdg_restart_timer now
    else if IWDG_KR s =? 0x5555 then
      modify (λ s, s <| unlock_state := 1 |>)
    else mret ()
  else if offset =? R_IWDG_PR then
    s ← get;
    when (unlock_state s =? 1)
      (modify (λ s, s <| IWDG_PR := data .& 0x07 |>) ;;
       modify (λ s, s <| prescaler := 4 << IWDG_PR s |>))
  else if offset =? R_IWDG_RLR then
    s ← get;
    when (unlock_state s =? 1) (modify (λ s, s <| IWDG_RLR := data .& 0x07FF |>))
  else mret ().

Definition iwdg_init : IwdgM unit := modify (λ s, s <| previous_reboot_flag := 0 |>).

(** ** The watchdog in time

    [timer_after d t]: the deadline of the timer after the effects [t], when
    it was [d].  [access now m] is an access of the guest at time [now]: a
    timer whose deadline has passed is taken out of the queue and fires
    first. *)

Definition timer_event (d : option Z) (e : iwdg_event) : option Z :=
  match e with
  | WdTimerMod w => Some w
  | WdTimerDel => None
  | _ => d
  end.
Definition timer_after : option Z → list iwdg_event → option Z := foldl timer_event.

Record wd_sys : Type := mkWd { wd : Stm32Iwdg; deadline : option Z }.

Definition due (now : Z) (d : option Z) : bool :=
  match d with Some w => w <=? now | None => false end.

Definition lift (d : option Z) {A} (m : IwdgM A) : M iwdg_event wd_sys A := λ s,
  match m (wd s) with
  | Done a w t => Done a (mkWd w (timer_after d t)) t
  | Halt f => Halt f
  end.

Definition fire (now : Z) : M iwdg_event wd_sys unit := λ s,
  if due now (deadline s) then lift None iwdg_timer_expired s else Done () s [].

Definition access (now : Z) {A} (m : IwdgM A) : M iwdg_event wd_sys A :=
  fire now ;; s ← get; lift (deadline s) m.

Inductive wd_op : Type :=
  | OpWrite (offset data : Z)
  | OpRead (offset : Z).

Definition run_op (now : Z) (op : wd_op) : M iwdg_event wd_sys unit :=
  match op with
  | OpWrite offset data => access now (iwdg_write now offset data 4)
  | OpRead offset => _ ← access now (iwdg_read offset 4); mret ()
  end.

Definition schedule (l : list (Z * wd_op)) : M iwdg_event wd_sys unit :=
  for_each l (λ '(now, op), run_op now op).

(** The keys that restart the count of a running watchdog. *)
Definition is_refresh (op : wd_op) : bool :=
  match op with
  | OpWrite off v => (off =? R_IWDG_KR) && ((v .& 0xFFFF =? 0xAAAA) || (v .& 0xFFFF =? 0xCCCC))
  | OpRead _ => false
  end.

(** The accesses that change the length of the interval. *)
Definition is_config (op : wd_op) : bool :=
  match op with
  | OpWrite off _ => (off =? R_IWDG_PR) || (off =? R_IWDG_RLR)
  | OpRead _ => false
  end.

(** The schedule serves a deadline [d] when every access comes before the
    deadline, which each refresh at time [t] moves to [t + p]. *)
Fixpoint fedb (p d : Z) (l : list (Z * wd_op)) : bool :=
  match l with
  | [] => true
  | (t, op) :: l' => (t <? d) && fedb p (if is_refresh op then t + p else d) l'
  end.

Definition is_action (e : iwdg_event) : bool :=
  match e with WdPerformAction => true | _ => false end.

Definition performs_action {A} (o : outcome iwdg_event wd_sys A) : bool :=
  match o with Done _ _ t => existsb is_action t | Halt _ => false end.

(** ** Lemmas *)

(** A running watchdog with interval [p]. *)
Definition running (p : Z) (s : Stm32Iwdg) : Prop :=
  enabled s = 1 /\ reboot_enabled s = 1 /\ tim_period s = p.

Lemma running_ext p (s s' : Stm32Iwdg) :
  enabled s' = enabled s -> reboot_enabled s' = reboot_enabled s ->
  prescaler s' = prescaler s -> IWDG_RLR s' = IWDG_RLR s -> running p s -> running p s'.
Proof. unfold running, tim_period. intros -> -> -> ->. done. Qed.

Lemma tim_period_range s : 0 <= tim_period s < 2 ^ 32.
Proof. apply u32_range. Qed.

(** One access of a running watchdog that changes no interval. *)
Lemma write_running p now off v s :
  running p s -> 0 <= now < 2 ^ 62 -> is_config (OpWrite off v) = false ->
  exists s' t, iwdg_write now off v 4 s = Done () s' t /\ running p s' /\
    existsb is_action t = false /\
    forall d, timer_after (Some d) t = Some (if is_refresh (OpWrite off v) then now + p else d).
Proof.
  intros Hrun Hnow. unfold is_config. intros [Hpr Hrlr]%orb_false_iff.
  unfold iwdg_write, is_refresh. rewrite Hpr, Hrlr.
  destruct (off =? R_IWDG_KR); cbn [andb]; [| by eexists s, []].
  assert (Hnext : forall s, running p s -> tim_next_transition s now = now + p).
  { clear -Hnow. intros s (_ & _ & <-). pose proof (tim_period_range s). apply i64_small. lia. }
  unfold mbind, M_bind, modify, get. cbn -[Z.land Z.eqb tim_next_transition].
  destruct (Z.eqb_spec (v .& 0xFFFF) 0xCCCC) as [HC |].
  { rewrite orb_true_r. eexists _, _. cbn -[tim_next_transition]. split; [done |].
    assert (Hr : running p (s <| IWDG_KR := v .& 0xFFFF |> <| enabled := 1 |> <| reboot_enabled := 1 |>))
      by (destruct Hrun as (He & Hre & Hp); by repeat split).
    cbn in Hr. split; [done |]. split; [done |]. intros d. by rewrite Hnext. }
  rewrite orb_false_r. destruct (Z.eqb_spec (v .& 0xFFFF) 0xAAAA) as [HA |].
  - unfold iwdg_restart_timer, mbind, M_bind, get. cbn -[tim_next_transition].
    destruct Hrun as (He & Hre & Hp). rewrite He. cbn -[tim_next_transition].
    eexists _, _. split; [done |]. repeat split; [done .. |]. intros d. unfold timer_after. cbn [foldl timer_event].
    f_equal. by apply Hnext.
  - destruct (v .& 0xFFFF =? 0x5555); eexists _, _; (split; [done |]); repeat split; apply Hrun.
Qed.

Lemma expired_running p s :
  running p s -> exists s' t, iwdg_timer_expired s = Done () s' t /\ existsb is_action t = true.
Proof.
  intros (_ & Hre & _). unfold iwdg_timer_expired, mbind, M_bind, get. cbn. rewrite Hre. cbn.
  by eexists _, _.
Qed.

(** An access served in time. *)
Lemma op_in_time p d now op w :
  running p w -> 0 <= now < 2 ^ 62 -> now < d -> is_config op = false ->
  exists w' t, run_op now op (mkWd w (Some d)) =
      Done () (mkWd w' (Some (if is_refresh op then now + p else d))) t /\
    running p w' /\ existsb is_action t = false.
Proof.
  intros Hrun Hnow Hd Hcfg.
  assert (Hfire : fire now (mkWd w (Some d)) = Done () (mkWd w (Some d)) []).
  { unfold fire. cbn. by rewrite (proj2 (Z.leb_gt d now)) by lia. }
  destruct op as [off v | off]; unfold run_op, access, mbind, M_bind; rewrite Hfire.
  - destruct (write_running p now off v w Hrun Hnow Hcfg) as (w' & t & Hw & Hrun' & Hact & Ht).
    unfold lift, get. cbn [wd deadline]. rewrite Hw, Ht. by exists w', t.
  - by eexists w, [].
Qed.

(** The first access that comes too late meets the reset. *)
Lemma op_too_late p d now op w :
  running p w -> d <= now -> 
  exists s' t, run_op now op (mkWd w (Some d)) = Done () s' t /\ existsb is_action t = true.
Proof.
  intros Hrun Hd. destruct (expired_running p w Hrun) as (w1 & t1 & Hexp & Hact).
  assert (Hfire : fire now (mkWd w (Some d)) = Done () (mkWd w1 (timer_after None t1)) t1).
  { unfold fire. cbn [due deadline]. rewrite (proj2 (Z.leb_le d now)) by lia.
    unfold lift. cbn [wd]. by rewrite Hexp. }
  assert (Hrest : forall s, exists s' t, (match op with
      | OpWrite off v => s0 ← get; lift (deadline s0) (iwdg_write now off v 4)
      | OpRead off => s0 ← get; _ ← lift (deadline s0) (iwdg_read off 4); mret () end) s = Done () s' t).
  { intros s. destruct op as [off v | off]; unfold mbind, M_bind, get, lift.
    - assert (Hw : exists w' t, iwdg_write now off v 4 (wd s) = Done () w' t).
      { unfold iwdg_write, iwdg_restart_timer, when, mbind, M_bind, modify, get, emit.
        repeat (case_match; simplify_eq; eauto). }
      destruct Hw as (w' & t & ->). cbn. eauto.
    - cbn. eauto. }
  destruct (Hrest (mkWd w1 (timer_after None t1))) as (s' & t & Ht).
  exists s', (t1 ++ t). rewrite existsb_app, Hact. split; [| done].
  destruct op as [off v | off]; unfold run_op, access, mbind, M_bind in *; rewrite Hfire.
  - unfold get in *. cbn [app] in *. destruct (lift _ _ _) as [[] |]; by simplify_eq.
  - unfold get in *. cbn [app] in *. destruct (lift _ _ _) as [a s1 t2 |]; [| done].
    cbn in *. simplify_eq. by rewrite !app_nil_r.
Qed.

Lemma schedule_completes l s : exists s' t, schedule l s = Done () s' t.
Proof.
  revert s. induction l as [|[now op] l IH]; intros s; [by eexists _, _ |].
  assert (Hop : exists s' t, run_op now op s = Done () s' t).
  { unfold run_op, access, fire, lift, iwdg_timer_expired, iwdg_reset, iwdg_disable_timer,
      iwdg_write, iwdg_read, iwdg_restart_timer, when, mbind, M_bind, modify, get, emit, mret, M_ret.
    destruct op; repeat (case_match; simplify_eq; eauto). }
  destruct Hop as (s1 & t1 & H1). destruct (IH s1) as (s2 & t2 & H2).
  exists s2, (t1 ++ t2). unfold schedule in *. cbn [for_each]. unfold mbind, M_bind. by rewrite H1, H2.
Qed.

Lemma schedule_fed p l d w :
  running p w -> Forall (λ '(now, op), 0 <= now < 2 ^ 62 /\ is_config op = false) l ->
  performs_action (schedule l (mkWd w (Some d))) = negb (fedb p d l).
Proof.
  revert d w. induction l as [|[now op] l IH]; intros d w Hrun Hl; [done |].
  apply Forall_cons in Hl as [[Hnow Hcfg] Hl]. cbn [fedb].
  unfold schedule in *. cbn [for_each]. unfold mbind, M_bind.
  destruct (Z.ltb_spec now d) as [Hlt | Hge]; cbn [andb].
  - destruct (op_in_time p d now op w Hrun Hnow Hlt Hcfg) as (w' & t & -> & Hrun' & Hact).
    rewrite <- (IH _ w' Hrun' Hl). destruct (for_each _ _ _) as [[] s2 t2 |]; [| done].
    cbn. by rewrite existsb_app, Hact.
  - destruct (op_too_late p d now op w Hrun Hge) as (s1 & t1 & -> & Hact).
    destruct (schedule_completes l s1) as (s2 & t2 & H2). unfold schedule in H2. rewrite H2.
    cbn. by rewrite existsb_app, Hact.
Qed.

(** ** The properties of the watchdog *)

(** The state of the device after its creation and the machine's reset. *)
Definition iwdg_boot : wd_sys :=
  match iwdg_reset (mkIwdg 0 0 0 0 0 0 0 0 0 0) with
  | Done _ s t => mkWd s (timer_after None t)
  | Halt _ => mkWd (mkIwdg 0 0 0 0 0 0 0 0 0 0) None
  end.

(** A running watchdog with the interval [p] and the
    deadline [d], accessed at any times, resets the machine exactly when some
    access comes at or after the deadline, which every refresh (the keys
    0xAAAA and 0xCCCC) moves to [p] after itself: a guest that refreshes in
    time is never reset, and one that misses a deadline always is. *)
Theorem iwdg_kept_alive (p d : Z) (w : Stm32Iwdg) (l : list (Z * wd_op)) :
  running p w ->
  Forall (λ '(now, op), 0 <= now < 2 ^ 62 /\ is_config op = false) l ->
  performs_action (schedule l (mkWd w (Some d))) = negb (fedb p d l).
Proof. apply schedule_fed. Qed.

(** A boot at time 0 that starts the watchdog: the interval is 0xfff * 4 / 40 kHz. *)
Definition iwdg_started : Stm32Iwdg :=
  match iwdg_write 0 R_IWDG_KR 0xCCCC 4 (wd iwdg_boot) with Done _ s _ => s | Halt _ => wd iwdg_boot end.

Lemma iwdg_kept_alive_witness :
  performs_action (schedule [(400000000, OpWrite R_IWDG_KR 0xAAAA); (800000000, OpRead R_IWDG_SR)]
    (mkWd iwdg_started (Some 409500000))) = false.
Proof.
  rewrite (iwdg_kept_alive 409500000 409500000 iwdg_started); [reflexivity | by vm_compute |].
  repeat constructor; lia.
Defined.

(** The states the guest can bring the watchdog to. *)
Inductive iwdg_reachable : wd_sys → Prop :=
  | IwdgBoot : iwdg_reachable iwdg_boot
  | IwdgAccess now op s s' t :
      iwdg_reachable s -> run_op now op s = Done () s' t -> iwdg_reachable s'.

Definition iwdg_ok (s : Stm32Iwdg) : Prop :=
  prescaler s ∈ [4; 8; 16; 32; 64; 128; 256; 512] /\ 0 <= IWDG_RLR s <= 0xfff.

Lemma prescaler_values i : 0 <= i < 8 -> 4 << i ∈ [4; 8; 16; 32; 64; 128; 256; 512].
Proof. intros Hi. enum_upto i 8; vm_compute; set_solver. Qed.

Lemma write_iwdg_ok now off v : preserves iwdg_ok (iwdg_write now off v 4).
Proof.
  intros s Hok. unfold iwdg_write, iwdg_restart_timer, when, wlp, mbind, M_bind, modify, get, emit.
  unfold mret, M_ret. repeat (case_match; simplify_eq; try done); try exact Hok.
  - split; [apply prescaler_values; cbn -[Z.land]; apply (land_bound 3); lia | apply Hok].
  - split; [apply Hok | cbn -[Z.land]; pose proof (land_bound 11 v 0x7ff); lia].
Qed.

Lemma expired_iwdg_ok : preserves iwdg_ok iwdg_timer_expired.
Proof.
  intros s Hok. unfold iwdg_timer_expired, when, wlp, mbind, M_bind, modify, get, emit.
  destruct (cbool (reboot_enabled s)); cbn; [| done]. split; cbn; [set_solver | lia].
Qed.

Lemma lift_ok d {A} (m : IwdgM A) :
  preserves iwdg_ok m -> preserves (λ s, iwdg_ok (wd s)) (lift d m).
Proof.
  intros Hm s Hok. specialize (Hm (wd s) Hok). unfold wlp, lift in *. by destruct (m (wd s)).
Qed.

Lemma access_ok now {A} (m : IwdgM A) :
  preserves iwdg_ok m -> preserves (λ s, iwdg_ok (wd s)) (access now m).
Proof.
  intros Hm. unfold access. apply preserves_bind.
  { intros s Hok. unfold fire. destruct (due now (deadline s)) eqn:Hd.
    - pose proof (lift_ok None _ expired_iwdg_ok s Hok) as Hl. unfold wlp in *. by rewrite Hd.
    - unfold wlp. by rewrite Hd. }
  intros _ s Hok. apply wlp_bind. cbn. eapply wlp_mono; [by apply (lift_ok (deadline s) m Hm) | done].
Qed.

Lemma reachable_iwdg_ok s : iwdg_reachable s -> iwdg_ok (wd s).
Proof.
  induction 1 as [| now op s s' t _ IH Hrun].
  { split; [vm_compute; set_solver | vm_compute; split; discriminate]. }
  assert (Hp : preserves (λ s, iwdg_ok (wd s)) (run_op now op)).
  { destruct op; cbn [run_op]; [apply access_ok, write_iwdg_ok |].
    apply preserves_bind; [apply access_ok; by intros ?? | intros ?; apply preserves_ret]. }
  specialize (Hp s IH). unfold wlp in Hp. by rewrite Hrun in Hp.
Qed.

Lemma tim_period_formula s :
  iwdg_ok s -> tim_period s = u32 (25000 * (prescaler s * IWDG_RLR s)).
Proof.
  intros [Hp _]. unfold tim_period. f_equal.
  rewrite Z.mul_assoc. f_equal.
  repeat (apply elem_of_cons in Hp as [-> | Hp]; [reflexivity |]). by apply elem_of_nil in Hp.
Qed.

(** In every state the guest can bring the watchdog to,
    the interval is the time the prescaler and the reload register stand for,
    25000 ns (one period of the 40 kHz clock) times their product, computed
    modulo 2^32; it is that time exactly when the product is at most 171798,
    and longer times wrap around. *)
Theorem iwdg_interval (s : wd_sys) :
  iwdg_reachable s ->
  tim_period (wd s) = (25000 * (prescaler (wd s) * IWDG_RLR (wd s))) mod 2 ^ 32 /\
  (tim_period (wd s) = 25000 * (prescaler (wd s) * IWDG_RLR (wd s)) <->
   prescaler (wd s) * IWDG_RLR (wd s) <= 171798).
Proof.
  intros Hok%reachable_iwdg_ok. rewrite (tim_period_formula _ Hok). split; [done |].
  destruct Hok as [Hp Hr].
  assert (0 <= prescaler (wd s) * IWDG_RLR (wd s)).
  { apply Z.mul_nonneg_nonneg; [| lia].
    repeat (apply elem_of_cons in Hp as [-> | Hp]; [lia |]). by apply elem_of_nil in Hp. }
  unfold u32. split; [| intros; apply Z.mod_small; lia].
  intros Heq. pose proof (u32_range (25000 * (prescaler (wd s) * IWDG_RLR (wd s)))) as Hu.
  unfold u32 in Hu. lia.
Qed.

(** The guest asks for 13.1 s (prescaler 256, reload 0x7ff) and gets 0.2 s. *)
Definition iwdg_slow_writes : list (Z * wd_op) :=
  [(0, OpWrite R_IWDG_KR 0x5555); (0, OpWrite R_IWDG_PR 6); (0, OpWrite R_IWDG_RLR 0x7ff)].

Definition iwdg_slow : wd_sys :=
  match schedule iwdg_slow_writes iwdg_boot with Done _ s _ => s | Halt _ => iwdg_boot end.

Lemma iwdg_interval_witness :
  prescaler (wd iwdg_slow) * IWDG_RLR (wd iwdg_slow) = 524032 /\
  tim_period (wd iwdg_slow) = (25000 * (prescaler (wd iwdg_slow) * IWDG_RLR (wd iwdg_slow))) mod 2 ^ 32 /\
  tim_period (wd iwdg_slow) = 215898112.
Proof.
  split; [reflexivity |]. split; [| reflexivity].
  apply (iwdg_interval iwdg_slow).
  apply (IwdgAccess 0 (OpWrite R_IWDG_RLR 0x7ff) (mkWd (mkIwdg 0 0 0xfff 256 1 0 0x5555 6 0xfff 0) None) iwdg_slow []);
    [| reflexivity].
  apply (IwdgAccess 0 (OpWrite R_IWDG_PR 6) (mkWd (mkIwdg 0 0 0xfff 4 1 0 0x5555 0 0xfff 0) None) _ []); [| reflexivity].
  apply (IwdgAccess 0 (OpWrite R_IWDG_KR 0x5555) iwdg_boot _ []); [constructor | reflexivity].
Defined.
