(* ===== verification/Uart.v ===== *)
(** * USART ([hw/char/stm32_uart.c])

    The device as it is compiled: with [STM32_UART_NO_BAUD_DELAY] defined
    (a transmission completes at once) and [STM32_UART_ENABLE_OVERRUN] not
    defined.  The RCC, the GPIO ports and the AFIO are seen through their
    interfaces; the virtual time is an argument of the handlers that read it.

    Output line 0 is the interrupt of the USART and output line 1 is the
    request line of the DMA controller ([stm32_DMA1_irq]); timer 0 is
    [rx_timer] and timer 2 is [tx_dma_timer].  [qemu_chr_fe_write] is the
    event [ChrWrite]. *)

From S2P Require Import Prelude Stm32.

Definition USART_SR_OFFSET : Z := 0x00.
Definition USART_SR_TXE_BIT : Z := 7.
Definition USART_SR_TC_BIT : Z := 6.
Definition USART_SR_RXNE_BIT : Z := 5.
Definition USART_SR_ORE_BIT : Z := 3.
Definition USART_DR_OFFSET : Z := 0x04.
Definition USART_BRR_OFFSET : Z := 0x08.
Definition USART_CR1_OFFSET : Z := 0x0c.
Definition USART_CR1_UE_BIT : Z := 13.
Definition USART_CR1_M_BIT : Z := 12.
Definition USART_CR1_PCE_BIT : Z := 10.
Definition USART_CR1_PS_BIT : Z := 9.
Definition USART_CR1_TXEIE_BIT : Z := 7.
Definition USART_CR1_TCIE_BIT : Z := 6.
Definition USART_CR1_RXNEIE_BIT : Z := 5.
Definition USART_CR1_TE_BIT : Z := 3.
Definition USART_CR1_RE_BIT : Z := 2.
Definition USART_CR2_OFFSET : Z := 0x10.
Definition USART_CR2_STOP_START : Z := 12.
Definition USART_CR2_STOP_MASK : Z := 0x00003000.
Definition USART_CR3_OFFSET : Z := 0x14.
Definition USART_CR3_CTSE_BIT : Z := 9.
Definition USART_CR3_RTSE_BIT : Z := 8.
Definition USART_GTPR_OFFSET : Z := 0x18.
Definition USART_CR3_DMAR_BIT : Z := 0x40.
Definition USART_CR3_DMAT_BIT : Z := 0x80.

Record Stm32Uart : Type := mkUart {
  periph : Z;
  bits_per_sec : Z;
  ns_per_char : Z;
  USART_RDR : Z;
  USART_TDR : Z;
  USART_BRR : Z;
  USART_CR1 : Z;
  USART_CR2 : Z;
  USART_CR3 : Z;
  USART_SR_TXE : Z;
  USART_SR_TC : Z;
  USART_SR_RXNE : Z;
  USART_SR_ORE : Z;
  USART_CR1_UE : Z;
  USART_CR1_TXEIE : Z;
  USART_CR1_TCIE : Z;
  USART_CR1_RXNEIE : Z;
  USART_CR1_TE : Z;
  USART_CR1_RE : Z;
  sr_read_since_ore_set : bool;
  receiving : bool;
  chr : bool;
  afio_board_map : Z;
  curr_irq_level : Z
}.

#[export] Instance Stm32Uart_settable : Settable Stm32Uart := λ s,
  mkUart (periph s) (bits_per_sec s) (ns_per_char s) (USART_RDR s) (USART_TDR s) (USART_BRR s)
    (USART_CR1 s) (USART_CR2 s) (USART_CR3 s) (USART_SR_TXE s) (USART_SR_TC s) (USART_SR_RXNE s)
    (USART_SR_ORE s) (USART_CR1_UE s) (USART_CR1_TXEIE s) (USART_CR1_TCIE s) (USART_CR1_RXNEIE s)
    (USART_CR1_TE s) (USART_CR1_RE s) (sr_read_since_ore_set s) (receiving s) (chr s)
    (afio_board_map s) (curr_irq_level s).

Abbreviation UartM := (M dev_event Stm32Uart).

Definition rx_timer : Z := 0.
Definition tx_dma_timer : Z := 2.
Definition uart_irq : Z := 0.
Definition dma1_irq : Z := 1.

(** ** Helper functions *)

Definition irq_level (s : Stm32Uart) : Z :=
  (USART_CR1_TCIE s .& USART_SR_TC s) .|
  (USART_CR1_TXEIE s .& USART_SR_TXE s) .|
  (USART_CR1_RXNEIE s .& (USART_SR_ORE s .| USART_SR_RXNE s)).

Definition stm32_uart_update_irq : UartM unit :=
  s ← get;
  let new_irq_level := irq_level s in
  when (cbool (new_irq_level .^ curr_irq_level s))
    (emit (SetIrq uart_irq new_irq_level) ;;
     modify (λ s, s <| curr_irq_level := new_irq_level |>)).

(** [stm32_uart_start_tx] and [stm32_uart_tx_complete] call each other. *)
Fixpoint stm32_uart_start_tx (fuel : nat) (value : Z) : UartM unit :=
  match fuel with
  | O => halt OutOfFuel
  | S fuel =>
      let ch := u8 value in
      modify (λ s, s <| USART_SR_TC := 0 |>) ;;
      c ← gets chr;
      when c (emit (ChrWrite ch)) ;;
      stm32_uart_tx_complete fuel
  end
with stm32_uart_tx_complete (fuel : nat) : UartM unit :=
  match fuel with
  | O => halt OutOfFuel
  | S fuel =>
      s ← get;
      if USART_SR_TXE s =? 1 then
        modify (λ s, s <| USART_SR_TC := 1 |>) ;;
        stm32_uart_update_irq
      else
        modify (λ s, s <| USART_SR_TXE := 1 |>) ;;
        stm32_uart_update_irq ;;
        tdr ← gets USART_TDR;
        stm32_uart_start_tx fuel tdr
  end.

(** Each of the two functions is entered at most twice. *)
Definition tx_fuel : nat := 4.

(** ** Timer handlers *)

Definition stm32_uart_rx_timer_expire (now : Z) : UartM unit :=
  modify (λ s, s <| receiving := false |>) ;;
  s ← get;
  emit (TimerMod rx_timer (i64 (now + ns_per_char s))).

Definition stm32_uart_tx_timer_expire : UartM unit := stm32_uart_tx_complete tx_fuel.

Definition stm32_uart_tx_dma_timer_expire (now : Z) : UartM unit :=
  s ← get;
  when (cbool (USART_CR3 s .& USART_CR3_DMAT_BIT))
    (emit (SetIrq dma1_irq 0x00000011) ;;
     emit (SetIrq dma1_irq 0x00000000) ;;
     stm32_uart_tx_complete tx_fuel ;;
     s ← get;
     emit (TimerMod tx_dma_timer (i64 (now + ns_per_char s)))).

(** ** Character device handlers *)

Definition stm32_uart_can_receive (s : Stm32Uart) : Z :=
  if cbool (USART_CR1_UE s) && cbool (USART_CR1_RE s) then
    if receiving s then 0
    else if cbool (USART_SR_RXNE s) then 0 else 1
  else 1.

(** With DMAR set the DMA controller answers the first of the two requests before the call of
    [qemu_set_irq] returns, by accesses to DR or by stopping the emulator.  Here the request is
    only an effect; such accesses are operations that follow this one, which does nothing to
    its state after them. *)
Definition stm32_uart_receive (now : Z) (buf : list Z) : UartM unit :=
  assert_ (0 <? Z.of_nat (length buf)) ;;
  s ← get;
  when (cbool (USART_CR1_UE s) && cbool (USART_CR1_RE s))
    (when (cbool (USART_SR_RXNE s))
       (modify (λ s, s <| USART_SR_ORE := 1 |> <| sr_read_since_ore_set := false |>) ;;
        stm32_uart_update_irq) ;;
     modify (λ s, s <| USART_RDR := default 0 (head buf) |> <| USART_SR_RXNE := 1 |>) ;;
     stm32_uart_update_irq) ;;
  s ← get;
  if cbool (USART_CR3 s .& USART_CR3_DMAR_BIT) then
    emit (SetIrq dma1_irq 0x00000010) ;;
    emit (SetIrq dma1_irq 0x00000000)
  else emit (TimerMod rx_timer (i64 (now + ns_per_char s))).

(** ** Register implementation *)

Definition stm32_uart_USART_SR_read : UartM Z :=
  s ← get;
  when (cbool (USART_SR_ORE s)) (modify (λ s, s <| sr_read_since_ore_set := true |>)) ;;
  mret (u32 (USART_SR_TXE s << USART_SR_TXE_BIT) .|
        u32 (USART_SR_TC s << USART_SR_TC_BIT) .|
        u32 (USART_SR_RXNE s << USART_SR_RXNE_BIT) .|
        u32 (USART_SR_ORE s << USART_SR_ORE_BIT)).

Definition stm32_uart_USART_SR_write (new_value : Z) : UartM unit :=
  let new_TC := extract32 new_value USART_SR_TC_BIT 1 in
  (if cbool new_TC then halt HwError else mret ()) ;;
  modify (λ s, s <| USART_SR_TC := new_TC |>) ;;
  let new_RXNE := extract32 new_value USART_SR_RXNE_BIT 1 in
  (if cbool new_RXNE then halt HwError else mret ()) ;;
  modify (λ s, s <| USART_SR_RXNE := new_RXNE |>) ;;
  stm32_uart_update_irq.

Definition stm32_uart_USART_DR_read : UartM Z :=
  s ← get;
  when (cbool (USART_SR_ORE s) && sr_read_since_ore_set s)
    (modify (λ s, s <| USART_SR_ORE := 0 |>)) ;;
  (if negb (cbool (USART_CR1_UE s)) then halt HwError else mret ()) ;;
  (if negb (cbool (USART_CR1_RE s)) then halt HwError else mret ()) ;;
  (if cbool (USART_SR_RXNE s) then modify (λ s, s <| USART_SR_RXNE := 0 |>) else halt HwError) ;;
  stm32_uart_update_irq ;;
  mret (USART_RDR s).

Definition stm32_uart_USART_CR2_write (new_value : Z) (init : bool) : UartM unit :=
  modify (λ s, s <| USART_CR2 := new_value .& 0x00007f7f |>).

Definition stm32_uart_USART_CR3_write (new_value : Z) (init : bool) : UartM unit :=
  modify (λ s, s <| USART_CR3 := new_value .& 0x000007ff |>) ;;
  s ← get;
  when (cbool (USART_CR3 s .& USART_CR3_DMAT_BIT)) (emit (Report Message)).

Definition stm32_uart_connect (c : bool) (board_map : Z) : UartM unit :=
  modify (λ s, s <| chr := c |>) ;;
  modify (λ s, s <| afio_board_map := board_map |>).

(** The interrupt and direction bits of CR1 and the register itself. *)
Definition set_CR1 (v : Z) (s : Stm32Uart) : Stm32Uart :=
  s <| USART_CR1_TXEIE := extract32 v USART_CR1_TXEIE_BIT 1 |>
    <| USART_CR1_TCIE := extract32 v USART_CR1_TCIE_BIT 1 |>
    <| USART_CR1_RXNEIE := extract32 v USART_CR1_RXNEIE_BIT 1 |>
    <| USART_CR1_TE := extract32 v USART_CR1_TE_BIT 1 |>
    <| USART_CR1_RE := extract32 v USART_CR1_RE_BIT 1 |>
    <| USART_CR1 := v .& 0x00003fff |>.

Section Peripherals.
  Context {R G A : Type} `{PeriphClocks R} `{PinConfig G} `{PeriphMap A}.
  Context (rcc : R) (gpio : Z → G) (afio : A).

Definition stm32_uart_baud_update : UartM unit :=
  s ← get;
  clk_freq ← get_periph_freq rcc (periph s);
  if (USART_BRR s =? 0) || (clk_freq =? 0) then
    modify (λ s, s <| bits_per_sec := 0 |>)
  else
    modify (λ s, s <| bits_per_sec := clk_freq / USART_BRR s |>) ;;
    s ← get;
    (if bits_per_sec s =? 0 then halt DivByZero else mret ()) ;;
    let ns_per_bit := 1000000000 / bits_per_sec s in
    modify (λ s, s <| ns_per_char := ns_per_bit * 10 |>).

Definition stm32_uart_clk_irq_handler (n level : Z) : UartM unit :=
  assert_ (n =? 0) ;;
  when (cbool level) stm32_uart_baud_update.

(** [stm32_afio_get_periph_map], which stops the emulator for a peripheral
    that has no mapping. *)
Definition get_periph_map (p : Z) : UartM Z :=
  match periph_map afio p with Some m => mret m | None => halt HwError end.

(** The port and the pin of the transmit line. *)
Definition uart_tx_pin : UartM (Z * Z) :=
  p ← gets periph;
  if p =? STM32_UART1 then
    m ← get_periph_map p;
    if m =? STM32_USART1_NO_REMAP then mret (STM32_GPIOA, 9)
    else if m =? STM32_USART1_REMAP then mret (STM32_GPIOB, 6)
    else halt AssertFailed
  else if p =? STM32_UART2 then
    m ← get_periph_map p;
    if m =? STM32_USART2_NO_REMAP then mret (STM32_GPIOA, 2)
    else if m =? STM32_USART2_REMAP then mret (STM32_GPIOD, 5)
    else halt AssertFailed
  else if p =? STM32_UART3 then
    m ← get_periph_map p;
    if m =? STM32_USART3_NO_REMAP then mret (STM32_GPIOB, 10)
    else if m =? STM32_USART3_PARTIAL_REMAP then mret (STM32_GPIOC, 10)
    else if m =? STM32_USART3_FULL_REMAP then mret (STM32_GPIOD, 8)
    else halt AssertFailed
  else halt AssertFailed.

Definition stm32_uart_check_tx_pin : UartM unit :=
  '(tx_periph, tx_pin) ← uart_tx_pin;
  let gpio_dev := gpio (STM32_GPIO_INDEX_FROM_PERIPH tx_periph) in
  (if pin_mode gpio_dev tx_pin =? STM32_GPIO_MODE_IN then halt HwError else mret ()) ;;
  let config := pin_config gpio_dev tx_pin in
  if negb (config =? STM32_GPIO_OUT_ALT_PUSHPULL) && negb (config =? STM32_GPIO_OUT_ALT_OPEN)
  then halt HwError else mret ().

Definition stm32_uart_USART_DR_write (new_value : Z) : UartM unit :=
  let write_value := new_value .& 0x000001ff in
  s ← get;
  (if negb (cbool (USART_CR1_UE s)) then halt HwError else mret ()) ;;
  (if negb (cbool (USART_CR1_TE s)) then halt HwError else mret ()) ;;
  stm32_uart_check_tx_pin ;;
  (if cbool (USART_SR_TC s) then stm32_uart_start_tx tx_fuel write_value
   else if cbool (USART_SR_TXE s) then
     modify (λ s, s <| USART_TDR := write_value |> <| USART_SR_TXE := 0 |>)
   else halt HwError) ;;
  stm32_uart_update_irq.

Definition stm32_uart_USART_BRR_write (new_value : Z) (init : bool) : UartM unit :=
  modify (λ s, s <| USART_BRR := new_value .& 0x0000ffff |>) ;;
  stm32_uart_baud_update.

Definition stm32_uart_USART_CR1_write (new_value : Z) (init : bool) : UartM unit :=
  modify (λ s, s <| USART_CR1_UE := extract32 new_value USART_CR1_UE_BIT 1 |>) ;;
  s ← get;
  when (cbool (USART_CR1_UE s))
    (m ← get_periph_map (periph s);
     if negb (afio_board_map s =? m) then halt HwError else mret ()) ;;
  modify (set_CR1 new_value) ;;
  stm32_uart_update_irq.

Definition stm32_uart_reset : UartM unit :=
  modify (λ s, s <| USART_SR_TXE := 1 |> <| USART_SR_TC := 1 |>
                 <| USART_SR_RXNE := 0 |> <| USART_SR_ORE := 0 |>) ;;
  stm32_uart_USART_BRR_write 0x00000000 true ;;
  stm32_uart_USART_CR1_write 0x00000000 true ;;
  stm32_uart_USART_CR2_write 0x00000000 true ;;
  stm32_uart_USART_CR3_write 0x00000000 true ;;
  stm32_uart_update_irq.

Definition stm32_uart_read (offset size : Z) : UartM Z :=
  let start := (offset .& 3) * 8 in
  let length := size * 8 in
  let reg := offset .& 0xfffffffc in
  if reg =? USART_SR_OFFSET then
    v ← stm32_uart_USART_SR_read; mret (extract64 v start length)
  else if reg =? USART_DR_OFFSET then
    v ← stm32_uart_USART_DR_read; mret (extract64 v start length)
  else if reg =? USART_BRR_OFFSET then s ← get; mret (extract64 (USART_BRR s) start length)
  else if reg =? USART_CR1_OFFSET then s ← get; mret (extract64 (USART_CR1 s) start length)
  else if reg =? USART_CR2_OFFSET then s ← get; mret (extract64 (USART_CR2 s) start length)
  else if reg =? USART_CR3_OFFSET then s ← get; mret (extract64 (USART_CR3 s) start length)
  else if reg =? USART_GTPR_OFFSET then emit (Report NotImplReg) ;; mret 0
  else emit (Report BadReg) ;; mret 0.

Definition stm32_uart_write (offset value size : Z) : UartM unit :=
  let start := (offset .& 3) * 8 in
  let length := size * 8 in
  let reg := offset .& 0xfffffffc in
  p ← gets periph;
  check_periph_clk rcc p ;;
  s ← get;
  if reg =? USART_SR_OFFSET then
    v ← stm32_uart_USART_SR_read;
    stm32_uart_USART_SR_write (u32 (deposit64 v start length value))
  else if reg =? USART_DR_OFFSET then
    stm32_uart_USART_DR_write (u32 (deposit64 0 start length value))
  else if reg =? USART_BRR_OFFSET then
    stm32_uart_USART_BRR_write (u32 (deposit64 (USART_BRR s) start length value)) false
  else if reg =? USART_CR1_OFFSET then
    stm32_uart_USART_CR1_write (u32 (deposit64 (USART_CR1 s) start length value)) false
  else if reg =? USART_CR2_OFFSET then
    stm32_uart_USART_CR2_write (u32 (deposit64 (USART_CR2 s) start length value)) false
  else if reg =? USART_CR3_OFFSET then
    stm32_uart_USART_CR3_write (u32 (deposit64 (USART_CR3 s) start length value)) false
  else if reg =? USART_GTPR_OFFSET then emit (Report NotImplReg)
  else emit (Report BadReg).

(** [stm32_uart_init] ends with a reset; the device object is zeroed. *)
Definition uart_zero (p : Z) (board_map : Z) : Stm32Uart :=
  mkUart p 0 0 0 0 0 0 0 0 0 0 0 0 0 0 0 0 0 0 false false false board_map 0.

Definition stm32_uart_init (p : Z) : outcome dev_event Stm32Uart unit :=
  stm32_uart_reset (uart_zero p 0).

End Peripherals.

(** ** The interrupt line *)

Definition irq_events (s : Stm32Uart) : list dev_event :=
  if irq_level s =? curr_irq_level s then [] else [SetIrq uart_irq (irq_level s)].

Lemma update_irq_ok s :
  stm32_uart_update_irq s = Done () (s <| curr_irq_level := irq_level s |>) (irq_events s).
Proof.
  unfold stm32_uart_update_irq, irq_events, mbind, M_bind, get, cbool.
  destruct (Z.eqb_spec (irq_level s) (curr_irq_level s)) as [He |].
  - rewrite He, Z.lxor_nilpotent. cbn. by destruct s.
  - destruct (Z.eqb_spec (irq_level s .^ curr_irq_level s) 0) as [H0%Z.lxor_eq |]; [done |].
    done.
Qed.

#[local] Opaque stm32_uart_update_irq.

(** ** Transmission *)

Definition tx_chars (s : Stm32Uart) (value : Z) : list dev_event :=
  if chr s then [ChrWrite (u8 value)] else [].

Lemma start_tx_ok fuel value s :
  USART_SR_TXE s = 1 ->
  stm32_uart_start_tx (S (S fuel)) value s =
    let s1 := s <| USART_SR_TC := 1 |> in
    Done () (s1 <| curr_irq_level := irq_level s1 |>) (tx_chars s value ++ irq_events s1).
Proof.
  intros He. cbn [stm32_uart_start_tx stm32_uart_tx_complete].
  unfold mbind, M_bind, modify, gets, get, when, tx_chars.
  change (chr (s <| USART_SR_TC := 0 |>)) with (chr s).
  assert (He' : (USART_SR_TXE (s <| USART_SR_TC := 0 |>) =? 1) = true) by (by apply Z.eqb_eq).
  destruct (chr s); unfold emit, mret, M_ret; rewrite He', update_irq_ok; done.
Qed.

(** Four calls are enough for a transmission that finds the data register
    full, two for one that finds it empty. *)
Lemma tx_complete_done value s :
  (exists s' t, stm32_uart_start_tx tx_fuel value s = Done () s' t) /\
  (exists s' t, stm32_uart_tx_complete tx_fuel s = Done () s' t).
Proof.
  assert (Hc : forall fuel s, exists s' t, stm32_uart_tx_complete (S (S (S fuel))) s = Done () s' t).
  { clear. intros fuel s. cbn [stm32_uart_tx_complete]. unfold mbind, M_bind, modify, get, gets.
    destruct (USART_SR_TXE s =? 1); rewrite update_irq_ok; [eauto |].
    rewrite start_tx_ok by done. eauto. }
  split; [| apply Hc]. unfold tx_fuel. cbn [stm32_uart_start_tx].
  unfold mbind, M_bind, modify, gets, when.
  destruct (Hc 0%nat (s <| USART_SR_TC := 0 |>)) as (s' & t & Ht).
  cbn [chr set_field]. destruct (chr _); cbn -[stm32_uart_tx_complete]; rewrite Ht; eauto.
Qed.

(** ** The invariant *)

Definition bit (x : Z) : Prop := x = 0 \/ x = 1.

Lemma extract32_is_bit v pos : 0 <= pos -> bit (extract32 v pos 1).
Proof. intros Hp. rewrite extract32_bit by lia. destruct (Z.testbit v pos); [by right | by left]. Qed.

(** The state apart from the interrupt line: the flags are bits, a completed
    transmission leaves the data register empty, the fields of CR1 agree with
    the register, a character is never received on top of another. *)
Record uart_flags (s : Stm32Uart) : Prop := {
  u_txe : bit (USART_SR_TXE s);
  u_tc : bit (USART_SR_TC s);
  u_rxne : bit (USART_SR_RXNE s);
  u_idle : USART_SR_TC s = 1 -> USART_SR_TXE s = 1;
  u_ore : USART_SR_ORE s = 0;
  u_receiving : receiving s = false;
  u_rdr : 0 <= USART_RDR s < 2 ^ 8;
  u_brr : 0 <= USART_BRR s < 2 ^ 16;
  u_cr2 : 0 <= USART_CR2 s < 2 ^ 15;
  u_cr3 : 0 <= USART_CR3 s < 2 ^ 11;
  u_cr1 : 0 <= USART_CR1 s < 2 ^ 14;
  u_ue : USART_CR1_UE s = extract32 (USART_CR1 s) USART_CR1_UE_BIT 1;
  u_txeie : USART_CR1_TXEIE s = extract32 (USART_CR1 s) USART_CR1_TXEIE_BIT 1;
  u_tcie : USART_CR1_TCIE s = extract32 (USART_CR1 s) USART_CR1_TCIE_BIT 1;
  u_rxneie : USART_CR1_RXNEIE s = extract32 (USART_CR1 s) USART_CR1_RXNEIE_BIT 1;
  u_te : USART_CR1_TE s = extract32 (USART_CR1 s) USART_CR1_TE_BIT 1;
  u_re : USART_CR1_RE s = extract32 (USART_CR1 s) USART_CR1_RE_BIT 1
}.

(** The interrupt line is the one the flags and the enable bits ask for. *)
Definition uart_inv (s : Stm32Uart) : Prop := uart_flags s /\ curr_irq_level s = irq_level s.

Lemma flags_irq s l : uart_flags s -> uart_flags (s <| curr_irq_level := l |>).
Proof. intros []. by constructor. Qed.

Lemma inv_irq s : uart_flags s -> uart_inv (s <| curr_irq_level := irq_level s |>).
Proof. intros Hf. split; [by apply flags_irq | reflexivity]. Qed.

Lemma update_irq_inv s : uart_flags s -> wlp stm32_uart_update_irq (λ _ s' _, uart_inv s') s.
Proof. intros Hf. unfold wlp. rewrite update_irq_ok. by apply inv_irq. Qed.

(** [urun] runs a handler: it splits on the conditions and leaves the states
    in which the handler completes. *)
Ltac urun :=
  unfold wlp, mbind, M_bind, modify, get, gets, emit, mret, M_ret, halt, when, assert_;
  rewrite ?update_irq_ok;
  repeat (case_match; unfold mret, M_ret, halt in *; simplify_eq; rewrite ?update_irq_ok in *; simplify_eq);
  try done.

Lemma masked_bit v m pos :
  0 <= pos -> Z.testbit m pos = true -> extract32 (v .& m) pos 1 = extract32 v pos 1.
Proof. intros Hp Hm. rewrite !extract32_bit, Z.land_spec, Hm, andb_true_r by lia. done. Qed.

Lemma baud_state {R} `{PeriphClocks R} (rcc : R) s :
  wlp (stm32_uart_baud_update rcc)
    (λ _ s' _, exists b n, s' = s <| bits_per_sec := b |> <| ns_per_char := n |>) s.
Proof.
  unfold stm32_uart_baud_update, get_periph_freq. urun; cbn in *; simplify_eq;
    first [exists 0, (ns_per_char s); by destruct s | by eexists _, _].
Qed.

Lemma flags_baud s b n :
  uart_inv s -> uart_inv (s <| bits_per_sec := b |> <| ns_per_char := n |>).
Proof. intros [[] Hl]. split; [by constructor | exact Hl]. Qed.

Lemma baud_inv {R} `{PeriphClocks R} (rcc : R) : preserves uart_inv (stm32_uart_baud_update rcc).
Proof.
  intros s Hi. eapply wlp_mono; [apply baud_state |]. intros _ s' _ (b & n & ->). by apply flags_baud.
Qed.

Lemma BRR_write_inv {R} `{PeriphClocks R} (rcc : R) v init :
  preserves uart_inv (stm32_uart_USART_BRR_write rcc v init).
Proof.
  unfold stm32_uart_USART_BRR_write. apply preserves_bind; [| intros _; apply baud_inv].
  apply preserves_modify. intros s [[] Hl]. split; [| exact Hl].
  constructor; try done. apply (land_bound 16); lia.
Qed.

Lemma flags_CR1 v s :
  uart_flags s -> uart_flags (set_CR1 v (s <| USART_CR1_UE := extract32 v USART_CR1_UE_BIT 1 |>)).
Proof.
  intros [].
  pose proof (land_bound 14 v 0x3fff ltac:(lia) ltac:(lia)).
  constructor; cbn -[Z.land extract32]; rewrite ?masked_bit by done; done.
Qed.

Lemma CR1_write_inv {A} `{PeriphMap A} (afio : A) v init s :
  uart_flags s -> wlp (stm32_uart_USART_CR1_write afio v init) (λ _ s' _, uart_inv s') s.
Proof.
  intros Hf%(flags_CR1 v). unfold stm32_uart_USART_CR1_write. apply wlp_modify.
  set (s1 := s <| USART_CR1_UE := _ |>) in *. clearbody s1. clear s. rename s1 into s.
  apply wlp_get, wlp_bind. apply (wlp_mono _ (λ _ s' _, s' = s)).
  { destruct (cbool (USART_CR1_UE s)); [| done]. cbn [when]. apply wlp_bind. unfold get_periph_map.
    destruct (periph_map afio (periph s)) as [m |]; [| done]. unfold wlp, mret, M_ret.
    by destruct (negb (afio_board_map s =? m)). }
  intros [] s' t ->. apply wlp_modify, update_irq_inv, Hf.
Qed.

Lemma SR_write_inv v s :
  uart_flags s -> wlp (stm32_uart_USART_SR_write v) (λ _ s' _, uart_inv s') s.
Proof.
  intros Hf. unfold stm32_uart_USART_SR_write, cbool. set (tc := extract32 v USART_SR_TC_BIT 1).
  set (rxne := extract32 v USART_SR_RXNE_BIT 1).
  destruct (Z.eqb_spec tc 0) as [-> |]; [| done]. destruct (Z.eqb_spec rxne 0) as [-> |]; [| done].
  cbn [negb]. repeat (apply wlp_bind; cbn [wlp mret M_ret modify]). apply update_irq_inv. destruct Hf. constructor; try done; by left.
Qed.

Lemma DR_read_inv s : uart_flags s -> wlp stm32_uart_USART_DR_read (λ _ s' _, uart_inv s') s.
Proof.
  intros Hf. unfold stm32_uart_USART_DR_read.
  apply wlp_bind. cbn [wlp get]. rewrite (u_ore _ Hf). cbn [cbool Z.eqb negb andb when].
  destruct (cbool (USART_CR1_UE s)); [| done]. destruct (cbool (USART_CR1_RE s)); [| done].
  destruct (cbool (USART_SR_RXNE s)); [| done]. cbn [negb].
  repeat (apply wlp_bind; cbn [wlp mret M_ret modify]). apply update_irq_inv. destruct Hf. constructor; try done; by left.
Qed.

Lemma start_tx_inv v s :
  uart_flags s -> USART_SR_TC s = 1 -> wlp (stm32_uart_start_tx tx_fuel v) (λ _ s' _, uart_inv s') s.
Proof.
  intros Hf Htc. unfold wlp, tx_fuel. rewrite start_tx_ok by (by apply u_idle).
  apply inv_irq. destruct Hf. constructor; try done; [by right | by intros _; apply u_idle0].
Qed.

Lemma check_tx_pin_state {G A} `{PinConfig G} `{PeriphMap A} (gpio : Z → G) (afio : A) s :
  wlp (stm32_uart_check_tx_pin gpio afio) (λ _ s' t, s' = s /\ t = []) s.
Proof.
  assert (Hpin : wlp (uart_tx_pin afio) (λ _ s' t, s' = s /\ t = []) s).
  { unfold uart_tx_pin, get_periph_map. urun. }
  unfold stm32_uart_check_tx_pin. apply wlp_bind. eapply wlp_mono; [exact Hpin |].
  intros [p pin] s1 t1 [-> ->]. urun.
Qed.

Lemma DR_write_inv {G A} `{PinConfig G} `{PeriphMap A} (gpio : Z → G) (afio : A) v s :
  uart_flags s -> wlp (stm32_uart_USART_DR_write gpio afio v) (λ _ s' _, uart_inv s') s.
Proof.
  intros Hf. unfold stm32_uart_USART_DR_write. apply wlp_bind. cbn [wlp get].
  destruct (negb (cbool (USART_CR1_UE s))); [done |].
  destruct (negb (cbool (USART_CR1_TE s))); [done |].
  do 3 apply wlp_bind. cbn [wlp mret M_ret]. eapply wlp_mono; [apply check_tx_pin_state |].
  intros _ s1 t1 [-> ->]. apply wlp_bind. unfold cbool.
  destruct (Z.eqb_spec (USART_SR_TC s) 0) as [Htc0 |]; cbn [negb].
  - destruct (Z.eqb_spec (USART_SR_TXE s) 0); cbn [negb]; [done |]. cbn [wlp modify].
    apply update_irq_inv. destruct Hf. constructor; try done; [by left | cbn; lia].
  - assert (Htc : USART_SR_TC s = 1) by (destruct (u_tc _ Hf); [lia | done]).
    eapply wlp_mono; [by apply start_tx_inv |]. intros [] s1 t1 [Hf1 _].
    by apply update_irq_inv.
Qed.

Lemma receive_inv now b s :
  uart_inv s -> stm32_uart_can_receive s = 1 ->
  wlp (stm32_uart_receive now [u8 b]) (λ _ s' _, uart_inv s') s.
Proof.
  intros [Hf Hl]. unfold stm32_uart_can_receive, stm32_uart_receive. rewrite (u_receiving _ Hf).
  intros Hcan. apply wlp_bind. cbn [assert_ length Z.of_nat Z.ltb Z.compare wlp mret M_ret].
  apply wlp_get, wlp_bind. apply (wlp_mono _ (λ _ s' _, uart_inv s')).
  - destruct (cbool (USART_CR1_UE s) && cbool (USART_CR1_RE s)); [| done]. cbn [when].
    destruct (cbool (USART_SR_RXNE s)); [done |]. cbn [when]. apply wlp_bind. cbn [wlp mret M_ret].
    apply wlp_modify, update_irq_inv. cbn [default head]. pose proof (u8_range b).
    destruct Hf. constructor; try done. by right.
  - intros [] s1 t1 Hi. apply wlp_get. destruct (cbool (USART_CR3 s1 .& USART_CR3_DMAR_BIT)); done.
Qed.

Section Steps.
  Context {R G A : Type} `{PeriphClocks R} `{PinConfig G} `{PeriphMap A}.
  Context (rcc : R) (gpio : Z → G) (afio : A).

Lemma uart_reset_inv s :
  uart_flags s -> wlp (stm32_uart_reset rcc afio) (λ _ s' _, uart_inv s') s.
Proof.
  intros Hf. unfold stm32_uart_reset. apply wlp_modify.
  apply wlp_bind. apply (wlp_mono _ (λ _ s' _, uart_flags s')).
  { unfold stm32_uart_USART_BRR_write. apply wlp_modify.
    eapply wlp_mono; [apply baud_state |]. intros _ s' _ (b & n & ->).
    destruct Hf. constructor; try done; [by right | by right | by left]. }
  intros [] s1 t1 Hf1. apply wlp_bind. eapply wlp_mono; [by apply CR1_write_inv |].
  intros [] s2 t2 [Hf2 _]. unfold stm32_uart_USART_CR2_write. apply wlp_modify.
  unfold stm32_uart_USART_CR3_write. apply wlp_bind, wlp_modify, wlp_get.
  cbn [wlp when cbool]. apply update_irq_inv. destruct Hf2. by constructor.
Qed.

(** What can happen to the device: an access of the guest, a character from
    the host (which asks [stm32_uart_can_receive] first), the receive timer, a
    change of the clock and a reset. *)
Inductive uart_op : Type :=
  | URead (offset size : Z)
  | UWrite (offset value size : Z)
  | UReceive (now ch : Z)
  | URxTimer (now : Z)
  | UClk (level : Z)
  | UReset.

Definition uart_do (op : uart_op) : UartM unit :=
  match op with
  | URead offset size => stm32_uart_read offset size ;; mret ()
  | UWrite offset value size => stm32_uart_write rcc gpio afio offset value size
  | UReceive now ch =>
      s ← get;
      when (stm32_uart_can_receive s =? 1) (stm32_uart_receive now [u8 ch])
  | URxTimer now => stm32_uart_rx_timer_expire now
  | UClk level => stm32_uart_clk_irq_handler rcc 0 level
  | UReset => stm32_uart_reset rcc afio
  end.

Lemma SR_read_inv : preserves uart_inv stm32_uart_USART_SR_read.
Proof.
  intros s [Hf Hl]. unfold stm32_uart_USART_SR_read. apply wlp_get. rewrite (u_ore _ Hf). done.
Qed.

Lemma uart_read_inv offset size : preserves uart_inv (stm32_uart_read offset size).
Proof.
  intros s Hi. unfold stm32_uart_read. cbv zeta.
  repeat (case_match; [try done | ]); try done.
  - apply wlp_bind. eapply wlp_mono; [by apply SR_read_inv | done].
  - apply wlp_bind. eapply wlp_mono; [apply DR_read_inv, Hi | done].
Qed.

Lemma check_clk_same p s (Q : unit → Stm32Uart → list dev_event → Prop) :
  (forall t, Q () s t) -> wlp (check_periph_clk rcc p) Q s.
Proof.
  intros HQ. unfold wlp, check_periph_clk, mbind, M_bind. destruct (periph_clocked rcc p); [| done].
  destruct (periph_enabled rcc p); apply HQ.
Qed.

Lemma uart_write_inv offset value size : preserves uart_inv (stm32_uart_write rcc gpio afio offset value size).
Proof.
  intros s Hi. unfold stm32_uart_write. cbv zeta. apply wlp_bind. cbn [wlp gets].
  apply wlp_bind, check_clk_same. intros t. apply wlp_get. pose proof Hi as [Hf Hl].
  set (reg := offset .& 0xfffffffc).
  destruct (reg =? USART_SR_OFFSET).
  { apply wlp_bind. eapply wlp_mono; [by apply SR_read_inv |]. intros v s' t' [Hf' _].
    by apply SR_write_inv. }
  destruct (reg =? USART_DR_OFFSET); [by apply DR_write_inv |].
  destruct (reg =? USART_BRR_OFFSET); [by apply BRR_write_inv |].
  destruct (reg =? USART_CR1_OFFSET); [by apply CR1_write_inv |].
  destruct (reg =? USART_CR2_OFFSET).
  { cbn [wlp stm32_uart_USART_CR2_write modify]. split; [| exact Hl]. destruct Hf.
    constructor; try done. apply (land_bound 15); lia. }
  destruct (reg =? USART_CR3_OFFSET); [| by destruct (reg =? USART_GTPR_OFFSET)].
  unfold stm32_uart_USART_CR3_write. apply wlp_modify, wlp_get.
  set (v := u32 (deposit64 (USART_CR3 s) ((offset .& 3) * 8) (size * 8) value)).
  assert (Hi' : uart_inv (s <| USART_CR3 := v .& 0x7ff |>)).
  { split; [| exact Hl]. destruct Hf. constructor; try done. apply (land_bound 11); lia. }
  destruct (cbool _); exact Hi'.
Qed.

Lemma uart_do_inv op : preserves uart_inv (uart_do op).
Proof.
  intros s Hi. pose proof Hi as [Hf Hl]. destruct op; cbn [uart_do].
  - apply wlp_bind. eapply wlp_mono; [by apply uart_read_inv | done].
  - by apply uart_write_inv.
  - apply wlp_get. destruct (Z.eqb_spec (stm32_uart_can_receive s) 1); [| done]. by apply receive_inv.
  - unfold stm32_uart_rx_timer_expire. apply wlp_modify, wlp_get. cbn. split; [| exact Hl].
    destruct Hf. by constructor.
  - unfold stm32_uart_clk_irq_handler. apply wlp_bind. cbn [assert_ Z.eqb wlp mret M_ret].
    destruct (cbool level); [by apply baud_inv | done].
  - by apply uart_reset_inv.
Qed.

Lemma zero_flags p m : uart_flags (uart_zero p m).
Proof. constructor; cbn; try done; by left. Qed.

Lemma uart_init_inv p s t : stm32_uart_init rcc afio p = Done () s t -> uart_inv s.
Proof.
  intros Hrun. pose proof (uart_reset_inv (uart_zero p 0) (zero_flags p 0)) as Hi.
  unfold stm32_uart_init in Hrun. unfold wlp in Hi. by rewrite Hrun in Hi.
Qed.

End Steps.

(** ** The interrupt line

    Every handler leaves the line with the level that the device remembers. *)

#[local] Transparent stm32_uart_update_irq.

Notation uart_drives := (drives uart_irq curr_irq_level).

Lemma update_drives : uart_drives stm32_uart_update_irq.
Proof.
  intros s. unfold stm32_uart_update_irq, wlp, mbind, M_bind, get. destruct (cbool _); cbn; reflexivity.
Qed.

#[local] Opaque stm32_uart_update_irq.
#[local] Hint Resolve update_drives : drives.

Lemma tx_drives fuel : (forall v, uart_drives (stm32_uart_start_tx fuel v)) /\ uart_drives (stm32_uart_tx_complete fuel).
Proof.
  induction fuel as [|fuel [IH1 IH2]]; cbn [stm32_uart_start_tx stm32_uart_tx_complete]; [split; [intros v |]; drive |].
  split; [intros v |]; drive.
Qed.

Lemma start_tx_drives fuel v : uart_drives (stm32_uart_start_tx fuel v).
Proof. apply tx_drives. Qed.
#[local] Hint Resolve start_tx_drives : drives.

Section Drives.
  Context {R G A : Type} `{PeriphClocks R} `{PinConfig G} `{PeriphMap A}.
  Context (rcc : R) (gpio : Z → G) (afio : A).

Lemma uart_do_drives op : uart_drives (uart_do rcc gpio afio op).
Proof.
  assert (Hbaud : uart_drives (stm32_uart_baud_update rcc)) by (unfold stm32_uart_baud_update, get_periph_freq; drive).
  assert (Hcr1 : forall v i, uart_drives (stm32_uart_USART_CR1_write afio v i)) by (intros v i; unfold stm32_uart_USART_CR1_write, get_periph_map; drive).
  destruct op as [offset size | offset value size | now ch | now | level |]; cbn [uart_do].
  - unfold stm32_uart_read, stm32_uart_USART_SR_read, stm32_uart_USART_DR_read. drive.
  - unfold stm32_uart_write, check_periph_clk, stm32_uart_USART_SR_read, stm32_uart_USART_SR_write, stm32_uart_USART_DR_write, stm32_uart_check_tx_pin,
      uart_tx_pin, get_periph_map, stm32_uart_USART_BRR_write, stm32_uart_USART_CR2_write, stm32_uart_USART_CR3_write. drive.
  - unfold stm32_uart_receive. drive.
  - unfold stm32_uart_rx_timer_expire. drive.
  - unfold stm32_uart_clk_irq_handler. drive.
  - unfold stm32_uart_reset, stm32_uart_USART_BRR_write, stm32_uart_USART_CR2_write, stm32_uart_USART_CR3_write. drive.
Qed.

End Drives.

(** ** The properties of the USART *)

Section Properties.
  Context {R G A : Type} `{PeriphClocks R} `{PinConfig G} `{PeriphMap A}.

(** The states of the device from its creation on, for any states of the RCC, the ports and
    the AFIO at each step, with all that it has done to the outside. *)
Inductive uart_history : list dev_event → Stm32Uart → Prop :=
  | UartInit (rcc : R) (afio : A) p s t :
      stm32_uart_init rcc afio p = Done () s t -> uart_history t s
  | UartConnect c m h s s' t :
      uart_history h s -> stm32_uart_connect c m s = Done () s' t -> uart_history (h ++ t) s'
  | UartStep (rcc : R) (gpio : Z → G) (afio : A) op h s s' t :
      uart_history h s -> uart_do rcc gpio afio op s = Done () s' t -> uart_history (h ++ t) s'.

(** C15 (uart.invariant).  In every state that the device reaches from its creation by
    connecting, register accesses, characters from the host, the receive timer, changes
    of the clock and resets, the output line (as the calls of [qemu_set_irq] so far have
    left it, low at first) has the level that the status flags and the enable bits ask
    for (a DMA request is an effect here; what the DMA controller then does to the device are
    register accesses of their own); the flags are bits, a complete transmission means an empty data register, the
    decoded fields agree with CR1, and there is no overrun. *)
Theorem uart_invariant h (s : Stm32Uart) : uart_history h s -> uart_flags s /\ line_level uart_irq 0 h = irq_level s.
Proof.
  intros Hh. enough (uart_inv s /\ line_level uart_irq 0 h = curr_irq_level s) as [[Hf Hl] Hline] by (split; [done | congruence]).
  induction Hh as [rcc afio p s t Hrun | c m h s s' t _ [[Hf Hl] IH] Hrun | rcc gpio afio op h s s' t _ [Hi IH] Hrun].
  - split; [by eapply uart_init_inv |]. pose proof (uart_do_drives rcc (λ _, inhabitant) afio UReset (uart_zero p 0)) as Hd. unfold wlp in Hd. cbn [uart_do] in Hd.
    unfold stm32_uart_init in Hrun. by rewrite Hrun in Hd.
  - injection Hrun as <- <-. rewrite app_nil_r. split; [| exact IH]. split; [| exact Hl]. destruct Hf. by constructor.
  - pose proof (uart_do_inv rcc gpio afio op s Hi) as Hi'. pose proof (uart_do_drives rcc gpio afio op s) as Hd. unfold wlp in Hi', Hd.
    rewrite Hrun in Hi', Hd. split; [done |]. by rewrite line_level_app, IH.
Qed.

(** A device that can transmit: it is enabled, its pin is an alternate
    function output, the transmitter is idle and a terminal is connected. *)
Record tx_ready (rcc : R) (gpio : Z → G) (afio : A) (s : Stm32Uart) : Prop := {
  tx_inv : uart_inv s;
  tx_ue : USART_CR1_UE s = 1;
  tx_te : USART_CR1_TE s = 1;
  tx_tc : USART_SR_TC s = 1;
  tx_chr : chr s = true;
  tx_clocked : periph_clocked rcc (periph s) = true;
  tx_pin : stm32_uart_check_tx_pin gpio afio s = Done () s []
}.

Lemma DR_write_value v : u8 (u32 (deposit64 0 ((4 .& 3) * 8) (4 * 8) v) .& 0x1ff) = u8 v.
Proof.
  change ((4 .& 3) * 8) with 0. change (4 * 8) with 32. unfold deposit64.
  rewrite !Z.shiftl_0_r, Z.ldiff_0_l, Z.lor_0_l. unfold u8, u32.
  change 0x1ff with (Z.ones 9). apply Z.bits_inj'. intros i Hi.
  rewrite !testbit_mod_pow2, Z.land_spec, testbit_mod_pow2, Z.land_spec, !testbit_ones by lia.
  destruct (Z.ltb_spec i 8); [| done]. rewrite !(proj2 (Z.ltb_lt i _)) by lia. cbn. by rewrite !andb_true_r.
Qed.

Lemma write_DR_enter (rcc : R) (gpio : Z → G) (afio : A) v s :
  periph_clocked rcc (periph s) = true ->
  stm32_uart_write rcc gpio afio USART_DR_OFFSET v 4 s =
    match stm32_uart_USART_DR_write gpio afio (u32 (deposit64 0 ((4 .& 3) * 8) (4 * 8) v)) s with
    | Done a s' t => Done a s' (clk_warning rcc (periph s) ++ t)
    | Halt f => Halt f
    end.
Proof.
  intros Hc. unfold stm32_uart_write. unfold mbind at 1 2 3, M_bind at 1 2 3, gets, get.
  rewrite check_periph_clk_ok by done. zcase. cbn [app].
  by destruct (stm32_uart_USART_DR_write gpio afio _ s).
Qed.

(** The checks of [stm32_uart_USART_DR_write] pass. *)
Lemma DR_write_checks (rcc : R) (gpio : Z → G) (afio : A) v s :
  cbool (USART_CR1_UE s) = true -> cbool (USART_CR1_TE s) = true ->
  stm32_uart_check_tx_pin gpio afio s = Done () s [] ->
  stm32_uart_USART_DR_write gpio afio v s =
    ((if cbool (USART_SR_TC s) then stm32_uart_start_tx tx_fuel (v .& 0x1ff)
      else if cbool (USART_SR_TXE s) then
        modify (λ s, s <| USART_TDR := v .& 0x1ff |> <| USART_SR_TXE := 0 |>)
      else halt HwError) ;; stm32_uart_update_irq) s.
Proof.
  intros Hue Hte Hpin. unfold stm32_uart_USART_DR_write. unfold mbind at 1, M_bind at 1, get at 1.
  rewrite Hue, Hte. cbn [negb]. unfold mbind at 1 2 3, M_bind at 1 2 3. unfold mret, M_ret. rewrite Hpin.
  cbn [app]. by destruct ((_ ;; stm32_uart_update_irq) s).
Qed.

(** The check of the transmit pin depends on the peripheral only. *)
Lemma uart_tx_pin_pure (afio : A) p : exists o : fault + Z * Z, forall s, periph s = p ->
  uart_tx_pin afio s = match o with inl f => Halt f | inr pin => Done pin s [] end.
Proof.
  unfold uart_tx_pin, get_periph_map, mbind, M_bind, gets.
  exists (match uart_tx_pin afio (uart_zero p 0) with Halt f => inl f | Done a _ _ => inr a end).
  intros s ->. unfold uart_tx_pin, get_periph_map, mbind, M_bind, gets, mret, M_ret, halt.
  cbn [periph uart_zero]. destruct (periph_map afio p) as [m |]; cbv beta iota;
    repeat (match goal with |- context [if ?b then _ else _] => destruct b end; cbv beta iota); reflexivity.
Qed.

Lemma check_tx_pin_periph (gpio : Z → G) (afio : A) s s' :
  periph s' = periph s -> stm32_uart_check_tx_pin gpio afio s = Done () s [] ->
  stm32_uart_check_tx_pin gpio afio s' = Done () s' [].
Proof.
  intros Hp. destruct (uart_tx_pin_pure afio (periph s)) as [o Ho].
  unfold stm32_uart_check_tx_pin, mbind, M_bind. rewrite (Ho s eq_refl), (Ho s' Hp).
  destruct o as [f | [q pin]]; [done |].
  destruct (pin_mode _ pin =? _); [done |]. unfold mret, M_ret.
  by destruct (negb (pin_config _ pin =? _) && _).
Qed.

Lemma SR_write_ok (rcc : R) (gpio : Z → G) (afio : A) s :
  uart_inv s -> periph_clocked rcc (periph s) = true ->
  let s1 := s <| USART_SR_TC := 0 |> <| USART_SR_RXNE := 0 |> in
  stm32_uart_write rcc gpio afio USART_SR_OFFSET 0 4 s =
    Done () (s1 <| curr_irq_level := irq_level s1 |>) (clk_warning rcc (periph s) ++ irq_events s1).
Proof.
  intros [Hf Hl] Hc. unfold stm32_uart_write. unfold mbind at 1 2 3, M_bind at 1 2 3, gets, get.
  rewrite check_periph_clk_ok by done. zcase. unfold stm32_uart_USART_SR_read, mbind, M_bind, get.
  rewrite (u_ore _ Hf). cbn [cbool Z.eqb negb when mret M_ret app].
  change ((USART_SR_OFFSET .& 3) * 8) with 0. change (4 * 8) with 32. rewrite deposit64_word.
  unfold stm32_uart_USART_SR_write. change (extract32 (u32 0) USART_SR_TC_BIT 1) with 0.
  change (extract32 (u32 0) USART_SR_RXNE_BIT 1) with 0.
  unfold mbind, M_bind, modify, cbool. cbn [Z.eqb negb mret M_ret]. by rewrite update_irq_ok.
Qed.

(** A word written to DR while TC is clear and the register is empty. *)
Lemma DR_write_waiting (rcc : R) (gpio : Z → G) (afio : A) v s :
  cbool (USART_CR1_UE s) = true -> cbool (USART_CR1_TE s) = true ->
  stm32_uart_check_tx_pin gpio afio s = Done () s [] -> USART_SR_TC s = 0 ->
  stm32_uart_USART_DR_write gpio afio v s =
    if cbool (USART_SR_TXE s) then
      let s1 := s <| USART_TDR := v .& 0x1ff |> <| USART_SR_TXE := 0 |> in
      Done () (s1 <| curr_irq_level := irq_level s1 |>) (irq_events s1)
    else Halt HwError.
Proof.
  intros Hue Hte Hpin Htc. rewrite (DR_write_checks rcc gpio afio) by done. rewrite Htc.
  change (cbool 0) with false. cbv iota. unfold mbind, M_bind.
  destruct (cbool (USART_SR_TXE s)); [| done]. unfold modify. by rewrite update_irq_ok.
Qed.

Lemma irq_not_chr s c : ChrWrite c ∉ irq_events s.
Proof. unfold irq_events. destruct (_ =? _); set_solver. Qed.

Lemma DR_write_idle (rcc : R) (gpio : Z → G) (afio : A) v s :
  tx_ready rcc gpio afio s ->
  stm32_uart_USART_DR_write gpio afio v s = Done () s [ChrWrite (u8 (v .& 0x1ff))].
Proof.
  intros [[Hf Hl] Hue Hte Htc Hchr Hclk Hpin].
  rewrite (DR_write_checks rcc gpio afio) by (rewrite ?Hue, ?Hte; done).
  assert (Hsame : s <| USART_SR_TC := 1 |> = s) by (rewrite <- Htc; by destruct s).
  assert (Hirq : s <| curr_irq_level := irq_level s |> = s) by (rewrite <- Hl; by destruct s).
  unfold mbind, M_bind, tx_fuel. rewrite Htc. change (cbool 1) with true. cbv iota.
  rewrite start_tx_ok by (by apply (u_idle _ Hf)). cbv zeta.
  unfold tx_chars, irq_events. rewrite Hsame, Hirq, update_irq_ok, Hirq, Hchr. unfold irq_events.
  rewrite <- Hl, Z.eqb_refl. done.
Qed.

(** C16 (uart.transmit).  A device that can transmit sends every word written
    to DR, at once and in order, as the character in its low eight bits, and is
    ready again after each: the run has no other effect. *)
Theorem uart_transmit (rcc : R) (gpio : Z → G) (afio : A) (s : Stm32Uart) (vs : list Z) :
  tx_ready rcc gpio afio s -> periph_enabled rcc (periph s) = true ->
  for_each vs (λ v, stm32_uart_write rcc gpio afio USART_DR_OFFSET v 4) s =
    Done () s (ChrWrite ∘ u8 <$> vs).
Proof.
  intros Hr Hen. induction vs as [|v vs IH]; [done |]. cbn [for_each]. unfold mbind, M_bind.
  rewrite write_DR_enter by apply Hr. rewrite (DR_write_idle rcc gpio afio) by done.
  rewrite IH, DR_write_value. unfold clk_warning. by rewrite Hen.
Qed.

(** Writing SR is how the guest clears RXNE; the value
    must have the TC bit clear, so the write also clears TC.  The next word
    written to DR is then stored in the data register and never sent, and the
    word after that stops the emulator. *)
Theorem uart_tc_clear (rcc : R) (gpio : Z → G) (afio : A) (s : Stm32Uart) (v1 v2 : Z) :
  tx_ready rcc gpio afio s -> periph_enabled rcc (periph s) = true ->
  exists s1 s2 t1 t2,
    stm32_uart_write rcc gpio afio USART_SR_OFFSET 0 4 s = Done () s1 t1 /\
    stm32_uart_write rcc gpio afio USART_DR_OFFSET v1 4 s1 = Done () s2 t2 /\
    (forall c, ChrWrite c ∉ t1 ++ t2) /\
    stm32_uart_write rcc gpio afio USART_DR_OFFSET v2 4 s2 = Halt HwError.
Proof.
  intros [Hi Hue Hte Htc Hchr Hclk Hpin] Hen.
  assert (Hue' : cbool (USART_CR1_UE s) = true) by (by rewrite Hue).
  assert (Hte' : cbool (USART_CR1_TE s) = true) by (by rewrite Hte).
  assert (Hw : forall s0 : Stm32Uart, periph s0 = periph s -> clk_warning rcc (periph s0) = []).
  { intros s0 ->. unfold clk_warning. by rewrite Hen. }
  eexists _, _, _, _. split; [by apply SR_write_ok |].
  set (s1 := s <| USART_SR_TC := 0 |> <| USART_SR_RXNE := 0 |>).
  set (s1' := s1 <| curr_irq_level := irq_level s1 |>).
  assert (Hpin1 := check_tx_pin_periph gpio afio s s1' eq_refl Hpin).
  assert (Htxe : USART_SR_TXE s1' = 1) by (apply (u_idle _ (proj1 Hi) Htc)).
  split.
  { rewrite write_DR_enter by exact Hclk.
    rewrite (DR_write_waiting rcc gpio afio _ s1' Hue' Hte' Hpin1 eq_refl), Htxe. reflexivity. }
  split.
  { intros c. rewrite !Hw by reflexivity. cbn [app]. rewrite not_elem_of_app. split; apply irq_not_chr. }
  rewrite write_DR_enter by exact Hclk.
  lazymatch goal with |- context [stm32_uart_USART_DR_write _ _ _ ?st] => set (s3 := st) end.
  assert (Hpin3 := check_tx_pin_periph gpio afio s s3 eq_refl Hpin).
  rewrite (DR_write_waiting rcc gpio afio _ s3 Hue' Hte' Hpin3 eq_refl). reflexivity.
Qed.











(** The baud rate is the clock frequency divided by BRR, and
    a character takes ten bits; with a clock slower than the divisor (and a
    divisor that is not zero) the division by the rate, which is then zero,
    stops the emulator. *)
Theorem uart_baud (rcc : R) (s : Stm32Uart) :
  periph_clocked rcc (periph s) = true ->
  0 <= USART_BRR s < 2 ^ 16 -> 0 <= periph_freq rcc (periph s) < 2 ^ 32 ->
  stm32_uart_baud_update rcc s =
    let f := periph_freq rcc (periph s) in
    if (USART_BRR s =? 0) || (f =? 0) then Done () (s <| bits_per_sec := 0 |>) []
    else if f <? USART_BRR s then Halt DivByZero
    else Done () (s <| bits_per_sec := f / USART_BRR s |>
                    <| ns_per_char := 10 * (1000000000 / (f / USART_BRR s)) |>) [].
Proof.
  intros Hc Hb Hf. cbv zeta. unfold stm32_uart_baud_update, mbind, M_bind, get, modify.
  rewrite get_periph_freq_Done by done. set (f := periph_freq rcc (periph s)) in *.
  destruct (Z.eqb_spec (USART_BRR s) 0); cbn [orb]; [done |].
  destruct (Z.eqb_spec f 0); [done |]. cbn -[Z.div Z.mul].
  destruct (Z.ltb_spec f (USART_BRR s)).
  - by rewrite Z.div_small by lia.
  - assert (1 <= f / USART_BRR s) by (apply Z.div_le_lower_bound; lia).
    rewrite (proj2 (Z.eqb_neq (f / USART_BRR s) 0)) by lia. cbn -[Z.div Z.mul].
    by rewrite (Z.mul_comm 10).
Qed.

End Properties.

(** ** Examples *)

(** USART1 with a clock of 8 MHz, connected to a terminal and enabled. *)
Definition after {A} (m : UartM A) (s : Stm32Uart) : Stm32Uart :=
  match m s with Done _ s' _ => s' | Halt _ => s end.

Definition pins_demo : Z → Z * Z := λ _, (STM32_GPIO_MODE_OUT_50MHZ, STM32_GPIO_OUT_ALT_PUSHPULL).

Definition uart_created : Stm32Uart := Eval vm_compute in after (stm32_uart_reset 8000000 0) (uart_zero STM32_UART1 0).
Definition uart_connected : Stm32Uart := Eval vm_compute in after (stm32_uart_connect true 0) uart_created.
Definition uart_demo : Stm32Uart := Eval vm_compute in
  after (uart_do 8000000 pins_demo 0 (UWrite USART_CR1_OFFSET 0x200c 4)) uart_connected.

Lemma uart_demo_inv : uart_inv uart_demo.
Proof.
  split; [| reflexivity].
  constructor; try reflexivity; try (split; cbn; lia); first [by right | by left | by intros _].
Qed.

Lemma uart_demo_tx : tx_ready 8000000 pins_demo 0 uart_demo.
Proof. split; [apply uart_demo_inv | reflexivity ..]. Qed.


(** The enabled transmitter asks for its interrupt. *)
Definition uart_raised : Stm32Uart :=
  Eval vm_compute in match stm32_uart_write (8000000 : Z) pins_demo (0 : Z) USART_CR1_OFFSET 0x208c 4 uart_demo with Done _ s _ => s | Halt _ => uart_demo end.

Lemma uart_invariant_witness : uart_flags uart_raised /\ line_level uart_irq 0 ([SetIrq uart_irq 1]) = irq_level uart_raised.
Proof.
  apply (uart_invariant (R := Z) (G := Z * Z) (A := Z) ((([] ++ []) ++ []) ++ [SetIrq uart_irq 1]) uart_raised).
  apply (UartStep 8000000 pins_demo 0 (UWrite USART_CR1_OFFSET 0x208c 4) (([] ++ []) ++ []) uart_demo uart_raised [SetIrq uart_irq 1]); [| by vm_compute].
  apply (UartStep 8000000 pins_demo 0 (UWrite USART_CR1_OFFSET 0x200c 4) ([] ++ []) uart_connected uart_demo []); [| by vm_compute].
  apply (UartConnect true 0 [] uart_created uart_connected []); [| by vm_compute].
  by apply (UartInit 8000000 0 STM32_UART1 uart_created []).
Defined.

Lemma uart_transmit_witness :
  for_each [0x48; 0x169] (λ v, stm32_uart_write 8000000 pins_demo 0 USART_DR_OFFSET v 4) uart_demo =
    Done () uart_demo [ChrWrite 0x48; ChrWrite 0x69].
Proof. apply (uart_transmit 8000000 pins_demo 0 uart_demo [0x48; 0x169]); [apply uart_demo_tx | reflexivity]. Defined.

Lemma uart_tc_clear_witness :
  exists s1 s2 t1 t2,
    stm32_uart_write 8000000 pins_demo 0 USART_SR_OFFSET 0 4 uart_demo = Done () s1 t1 /\
    stm32_uart_write 8000000 pins_demo 0 USART_DR_OFFSET 0x48 4 s1 = Done () s2 t2 /\
    (forall c, ChrWrite c ∉ t1 ++ t2) /\
    stm32_uart_write 8000000 pins_demo 0 USART_DR_OFFSET 0x69 4 s2 = Halt HwError.
Proof. apply (uart_tc_clear 8000000 pins_demo 0 uart_demo 0x48 0x69); [apply uart_demo_tx | reflexivity]. Defined.


(** A 50 kHz bus clock and the largest divisor. *)
Lemma uart_baud_witness :
  stm32_uart_baud_update 50000 (uart_demo <| USART_BRR := 0xffff |>) = Halt DivByZero.
Proof.
  etransitivity; [apply (uart_baud 50000 (uart_demo <| USART_BRR := 0xffff |>)) |]; by vm_compute.
Defined.
