(* ===== verification/Ptimer.v ===== *)
(** * The periodic countdown timer ([hw/core/ptimer.c])

    The timer counts [delta] periods of [period + period_frac / 2^32] ns down
    to zero.  The virtual time is an argument; the effects are the scheduling
    of the bottom half and the operations on the underlying QEMU timer. *)

From S2P Require Import Prelude.

Record ptimer_state : Type := mkPtimer {
  enabled : Z;      (* 0 = disabled, 1 = periodic, 2 = oneshot *)
  limit : Z;
  delta : Z;
  period_frac : Z;
  period : Z;
  last_event : Z;
  next_event : Z;
  bh : bool
}.

#[export] Instance ptimer_state_settable : Settable ptimer_state := λ s,
  mkPtimer (enabled s) (limit s) (delta s) (period_frac s) (period s) (last_event s) (next_event s) (bh s).

Inductive pt_event : Type :=
  | BhSchedule
  | PtMod (expire : Z)
  | PtDel
  | PtMessage.

Abbreviation PtM := (M pt_event ptimer_state).

(** [clz64] of [include/qemu/host-utils.h]. *)
Definition clz64 (val : Z) : Z := if val =? 0 then 64 else 63 - Z.log2 val.

Definition ptimer_trigger : PtM unit :=
  b ← gets bh;
  when b (emit BhSchedule).

Definition ptimer_reload : PtM unit :=
  s ← get;
  when (delta s =? 0) (ptimer_trigger ;; modify (λ s, s <| delta := limit s |>)) ;;
  s ← get;
  if (delta s =? 0) || (period s =? 0) then
    emit PtMessage ;; modify (λ s, s <| enabled := 0 |>)
  else
    modify (λ s, s <| last_event := next_event s |>) ;;
    modify (λ s, s <| next_event := i64 (last_event s + delta s * period s) |>) ;;
    s ← get;
    when (cbool (period_frac s))
      (modify (λ s, s <| next_event := i64 (next_event s + (u64 (period_frac s * delta s) >> 32)) |>)) ;;
    s ← get;
    emit (PtMod (next_event s)).

Definition ptimer_tick : PtM unit :=
  ptimer_trigger ;;
  modify (λ s, s <| delta := 0 |>) ;;
  s ← get;
  if enabled s =? 2 then modify (λ s, s <| enabled := 0 |>) else ptimer_reload.

(** The 64-bit divisor that [ptimer_get_count] scales the period to. *)
Definition ptimer_div (s : ptimer_state) (shift : Z) : Z :=
  let div := u64 (u64 (period s) << shift) in
  if 32 <=? shift then div .| u64 (period_frac s << (shift - 32))
  else
    let div := if negb (shift =? 0) then div .| (period_frac s >> (32 - shift)) else div in
    if cbool (u32 (period_frac s << shift)) then u64 (div + 1) else div.

Definition ptimer_get_count (now : Z) : PtM Z :=
  s ← get;
  if cbool (enabled s) then
    if (0 <? i64 (now - next_event s)) || (period s =? 0) then mret 0
    else
      let rem := u64 (next_event s - now) in
      let clz1 := clz64 rem in
      let clz2 := clz64 (u64 (period s)) in
      let shift := if clz1 <? clz2 then clz1 else clz2 in
      let div := ptimer_div s shift in
      if div =? 0 then halt DivByZero else mret (u64 (rem << shift) / div)
  else mret (delta s).

(** [s->next_event = now; ptimer_reload(s)] *)
Definition restart_at (now : Z) : PtM unit :=
  modify (λ s, s <| next_event := now |>) ;; ptimer_reload.

Definition ptimer_set_count (now count : Z) : PtM unit :=
  modify (λ s, s <| delta := count |>) ;;
  s ← get;
  when (cbool (enabled s)) (restart_at now).

Definition ptimer_run (now : Z) (oneshot : bool) : PtM unit :=
  s ← get;
  if cbool (enabled s) then mret ()
  else if period s =? 0 then emit PtMessage
  else
    modify (λ s, s <| enabled := if oneshot then 2 else 1 |>) ;;
    restart_at now.

Definition ptimer_stop (now : Z) : PtM unit :=
  s ← get;
  if negb (cbool (enabled s)) then mret () else
  c ← ptimer_get_count now;
  modify (λ s, s <| delta := c |>) ;;
  emit PtDel ;;
  modify (λ s, s <| enabled := 0 |>).

Definition ptimer_set_period (now p : Z) : PtM unit :=
  modify (λ s, s <| period := p |> <| period_frac := 0 |>) ;;
  s ← get;
  when (cbool (enabled s)) (restart_at now).

Definition ptimer_set_freq (now freq : Z) : PtM unit :=
  (if freq =? 0 then halt DivByZero else mret ()) ;;
  modify (λ s, s <| period := 1000000000 / freq |>
                 <| period_frac := u32 ((1000000000 << 32) / freq) |>) ;;
  s ← get;
  when (cbool (enabled s)) (restart_at now).

Definition ptimer_set_limit (now lim : Z) (reload : bool) : PtM unit :=
  s ← get;
  let lim := if (u64 (lim * period s) <? 10000) && cbool (period s) then 10000 / period s else lim in
  modify (λ s, s <| limit := lim |>) ;;
  when reload (modify (λ s, s <| delta := lim |>)) ;;
  s ← get;
  when (cbool (enabled s) && reload) (restart_at now).

Definition ptimer_init (b : bool) : ptimer_state := mkPtimer 0 0 0 0 0 0 0 b.

(** ** The timer inside a device

    [run_ptimer proj store m] is an operation on the timer [proj s] of a
    device: [store p b s] puts the new timer state back and notes in [b]
    whether the bottom half was scheduled. *)

Definition pt_effect (e : pt_event) : list dev_event :=
  match e with
  | BhSchedule => []
  | PtMod w => [TimerMod 0 w]
  | PtDel => [TimerDel 0]
  | PtMessage => [Report Message]
  end.

Definition is_bh (e : pt_event) : bool := match e with BhSchedule => true | _ => false end.

Definition run_ptimer {S A} (proj : S → ptimer_state) (store : ptimer_state → bool → S → S) (m : PtM A) :
    M dev_event S A := λ s,
  match m (proj s) with
  | Done a p t => Done a (store p (existsb is_bh t) s) (t ≫= pt_effect)
  | Halt f => Halt f
  end.

(** ** Lemmas *)

(** The period in units of 2^-32 ns. *)
Definition fixed_period (s : ptimer_state) : Z := period s * 2 ^ 32 + period_frac s.

Lemma clz64_bound (v : Z) : 0 < v < 2 ^ 64 -> 0 <= clz64 v < 64 /\ v * 2 ^ clz64 v < 2 ^ 64.
Proof.
  intros Hv. unfold clz64. rewrite (proj2 (Z.eqb_neq v 0)) by lia.
  assert (Hl : 2 ^ Z.log2 v <= v < 2 ^ Z.succ (Z.log2 v)) by (apply Z.log2_spec; lia).
  pose proof (Z.log2_nonneg v). assert (Z.log2 v < 64) by (apply Z.log2_lt_pow2; lia).
  split; [lia |]. apply (Z.lt_le_trans _ (2 ^ Z.succ (Z.log2 v) * 2 ^ (63 - Z.log2 v))).
  - apply Z.mul_lt_mono_pos_r; [apply Z.pow_pos_nonneg |]; lia.
  - rewrite <- Z.pow_add_r by lia. replace (Z.succ (Z.log2 v) + (63 - Z.log2 v)) with 64 by lia. lia.
Qed.

Lemma clz64_small (v k : Z) : 0 <= k <= 63 -> 0 <= v < 2 ^ k -> 64 - k <= clz64 v.
Proof.
  intros Hk Hv. unfold clz64. destruct (Z.eqb_spec v 0); [lia |].
  assert (Z.log2 v < k) by (apply Z.log2_lt_pow2; lia). lia.
Qed.

Lemma lor_add (a b n : Z) : 0 <= n -> 0 <= b < 2 ^ n -> (a * 2 ^ n) .| b = a * 2 ^ n + b.
Proof.
  intros Hn Hb. rewrite <- Z.shiftl_mul_pow2 by lia. symmetry.
  rewrite Z.add_nocarry_lxor; [rewrite Z.lxor_lor; [done |] |]; apply Z.bits_inj'; intros i Hi;
    rewrite Z.land_spec, testbit_shiftl, Z.testbit_0_l by lia; destruct (Z.leb_spec n i);
    [rewrite (testbit_high n b) by lia; apply andb_false_r | done | rewrite (testbit_high n b) by lia; apply andb_false_r | done].
Qed.

(** The divisor is the period in units of 2^(shift-32) ns, rounded up. *)
Lemma ptimer_div_exact s sh :
  32 <= sh < 64 -> 0 <= period_frac s < 2 ^ 32 -> 0 < period s -> period s * 2 ^ sh < 2 ^ 64 ->
  ptimer_div s sh = fixed_period s * 2 ^ (sh - 32).
Proof.
  intros Hsh Hf Hp Hps. unfold ptimer_div, fixed_period. rewrite (proj2 (Z.leb_le 32 sh)) by lia.
  assert (0 < 2 ^ sh) by (apply Z.pow_pos_nonneg; lia).
  assert (Hsplit : 2 ^ sh = 2 ^ 32 * 2 ^ (sh - 32)) by (rewrite <- Z.pow_add_r by lia; f_equal; lia).
  assert (0 < 2 ^ (sh - 32)) by (apply Z.pow_pos_nonneg; lia).
  assert (2 ^ sh <= 2 ^ 63) by (apply Z.pow_le_mono_r; lia).
  rewrite !Z.shiftl_mul_pow2 by lia. rewrite (u64_small (period s)) by nia.
  rewrite (u64_small (period s * 2 ^ sh)) by nia. rewrite u64_small by nia.
  rewrite lor_add by nia. rewrite Hsplit. ring.
Qed.

Lemma ceil_split (x : Z) : 0 <= x ->
  (x + (2 ^ 32 - 1)) / 2 ^ 32 = x / 2 ^ 32 + (if x mod 2 ^ 32 =? 0 then 0 else 1).
Proof.
  intros Hx. pose proof (Z.div_mod x (2 ^ 32) ltac:(lia)). pose proof (Z.mod_pos_bound x (2 ^ 32) ltac:(lia)).
  destruct (Z.eqb_spec (x mod 2 ^ 32) 0); symmetry;
    [apply (Z.div_unique _ _ _ (2 ^ 32 - 1)) | apply (Z.div_unique _ _ _ (x mod 2 ^ 32 - 1))]; lia.
Qed.

Lemma ptimer_div_ceil s sh :
  0 <= sh < 32 -> 0 <= period_frac s < 2 ^ 32 -> 0 < period s < 2 ^ 32 -> period s * 2 ^ sh < 2 ^ 63 ->
  ptimer_div s sh = (fixed_period s * 2 ^ sh + (2 ^ 32 - 1)) / 2 ^ 32.
Proof.
  intros Hsh Hf Hp Hps. unfold ptimer_div, fixed_period. rewrite (proj2 (Z.leb_gt 32 sh)) by lia.
  assert (0 < 2 ^ sh) by (apply Z.pow_pos_nonneg; lia).
  assert (Hsplit : 2 ^ 32 = 2 ^ (32 - sh) * 2 ^ sh) by (rewrite <- Z.pow_add_r by lia; f_equal; lia).
  assert (0 < 2 ^ (32 - sh)) by (apply Z.pow_pos_nonneg; lia).
  rewrite Z.shiftl_mul_pow2, Z.shiftr_div_pow2, Z.shiftl_mul_pow2 by lia.
  rewrite (u64_small (period s)) by lia. rewrite (u64_small (period s * 2 ^ sh)) by nia.
  assert (Hq : 0 <= period_frac s / 2 ^ (32 - sh) < 2 ^ sh)
    by (split; [apply Z.div_pos; lia | apply Z.div_lt_upper_bound; nia]).
  assert (Hlor : (if negb (sh =? 0) then period s * 2 ^ sh .| (period_frac s / 2 ^ (32 - sh)) else period s * 2 ^ sh) =
                 period s * 2 ^ sh + period_frac s / 2 ^ (32 - sh)).
  { destruct (Z.eqb_spec sh 0) as [-> |]; cbn [negb]; [| by apply lor_add; lia].
    change (2 ^ (32 - 0)) with (2 ^ 32). rewrite (Z.div_small (period_frac s)) by lia. lia. }
  rewrite Hlor. rewrite ceil_split by nia.
  replace ((period s * 2 ^ 32 + period_frac s) * 2 ^ sh)
    with (period_frac s * 2 ^ sh + (period s * 2 ^ sh) * 2 ^ 32) by ring.
  rewrite Z.div_add, Z.mod_add by lia. unfold cbool, u32.
  assert (Hdiv : period_frac s * 2 ^ sh / 2 ^ 32 = period_frac s / 2 ^ (32 - sh)).
  { rewrite Hsplit. by apply Z.div_mul_cancel_r; lia. }
  assert (2 ^ sh <= 2 ^ 31) by (apply Z.pow_le_mono_r; lia).
  assert (0 <= period s * 2 ^ sh) by (apply Z.mul_nonneg_nonneg; lia).
  rewrite Hdiv. destruct ((period_frac s * 2 ^ sh) mod 2 ^ 32 =? 0); cbn [negb]; [lia |]. rewrite u64_small by lia. lia.
Qed.

(** ** The value of the counter *)

Definition shift_of (s : ptimer_state) (rem : Z) : Z :=
  if clz64 rem <? clz64 (period s) then clz64 rem else clz64 (period s).

(** A running timer that has not expired. *)
Record counting (s : ptimer_state) (now : Z) : Prop := {
  c_enabled : enabled s <> 0;
  c_period : 0 < period s < 2 ^ 31;
  c_frac : 0 <= period_frac s < 2 ^ 32;
  c_rem : 0 <= next_event s - now < 2 ^ 63
}.

Lemma shift_bounds s now :
  counting s now -> let sh := shift_of s (next_event s - now) in
  0 <= sh < 64 /\ period s * 2 ^ sh < 2 ^ 64 /\ (next_event s - now) * 2 ^ sh < 2 ^ 64 /\
  (sh < 32 -> sh = clz64 (next_event s - now) /\ period s * 2 ^ sh < 2 ^ 63).
Proof.
  intros [He Hp Hf Hr]. cbv zeta. unfold shift_of. set (rem := next_event s - now) in *.
  destruct (clz64_bound (period s)) as [Hc Hcb]; [lia |].
  pose proof (clz64_small (period s) 31 ltac:(lia) ltac:(lia)).
  destruct (Z.ltb_spec (clz64 rem) (clz64 (period s))).
  - assert (0 < rem) by (unfold clz64 in *; destruct (Z.eqb_spec rem 0); lia).
    destruct (clz64_bound rem) as [Hr1 Hr2]; [lia |].
    assert (2 * 2 ^ clz64 rem <= 2 ^ clz64 (period s))
      by (rewrite <- Z.pow_succ_r by lia; apply Z.pow_le_mono_r; lia).
    assert (0 < 2 ^ clz64 rem) by (apply Z.pow_pos_nonneg; lia).
    repeat split; try lia; nia.
  - assert (0 < 2 ^ clz64 (period s)) by (apply Z.pow_pos_nonneg; lia).
    repeat split; try lia.
    destruct (decide (rem = 0)) as [-> |]; [lia |]. destruct (clz64_bound rem) as [Hr1 Hr2]; [lia |].
    assert (2 ^ clz64 (period s) <= 2 ^ clz64 rem) by (apply Z.pow_le_mono_r; lia). nia.
Qed.

Lemma fixed_period_pos s : 0 < period s -> 0 <= period_frac s -> 0 < fixed_period s.
Proof. unfold fixed_period. lia. Qed.

Lemma ptimer_div_bounds s now :
  counting s now -> let sh := shift_of s (next_event s - now) in
  0 < ptimer_div s sh /\
  fixed_period s * 2 ^ sh <= ptimer_div s sh * 2 ^ 32 /\
  ptimer_div s sh * 2 ^ 32 <= (fixed_period s + (next_event s - now) / 2 ^ 31) * 2 ^ sh.
Proof.
  intros Hc. destruct (shift_bounds s now Hc) as (Hsh & Hps & Hrs & Hlow).
  destruct Hc as [He Hp Hf Hr]. cbv zeta. set (sh := shift_of _ _) in *. set (rem := next_event s - now) in *.
  pose proof (fixed_period_pos s ltac:(lia) ltac:(lia)).
  assert (0 < 2 ^ sh) by (apply Z.pow_pos_nonneg; lia).
  assert (0 <= rem / 2 ^ 31) by (apply Z.div_pos; lia).
  destruct (Z.leb_spec 32 sh) as [Hge | Hlt].
  - rewrite ptimer_div_exact by lia. rewrite <- Z.mul_assoc, <- Z.pow_add_r by lia.
    replace (sh - 32 + 32) with sh by lia. assert (0 < 2 ^ (sh - 32)) by (apply Z.pow_pos_nonneg; lia). nia.
  - destruct (Hlow Hlt) as [Hclz Hps2]. rewrite ptimer_div_ceil by lia.
    set (x := fixed_period s * 2 ^ sh) in *. assert (0 < x) by (unfold x; nia).
    pose proof (Z.div_mod (x + (2 ^ 32 - 1)) (2 ^ 32) ltac:(lia)).
    pose proof (Z.mod_pos_bound (x + (2 ^ 32 - 1)) (2 ^ 32) ltac:(lia)).
    set (q := (x + (2 ^ 32 - 1)) / 2 ^ 32) in *.
    split; [lia |]. split; [lia |]. rewrite Z.mul_add_distr_r. fold x.
    enough (2 ^ 32 <= rem / 2 ^ 31 * 2 ^ sh) by lia.
    unfold clz64 in Hclz. destruct (Z.eqb_spec rem 0); [lia |].
    assert (Hlog : 2 ^ Z.log2 rem <= rem) by (apply Z.log2_spec; lia).
    assert (2 ^ (Z.log2 rem - 31) <= rem / 2 ^ 31).
    { apply Z.div_le_lower_bound; [lia |]. rewrite <- Z.pow_add_r by lia.
      replace (31 + (Z.log2 rem - 31)) with (Z.log2 rem) by lia. done. }
    assert (Hpow : 2 ^ (Z.log2 rem - 31) * 2 ^ sh = 2 ^ 32) by (rewrite <- Z.pow_add_r by lia; f_equal; lia).
    nia.
Qed.

Lemma get_count_value s now :
  counting s now -> let rem := next_event s - now in
  ptimer_get_count now s = Done (rem * 2 ^ shift_of s rem / ptimer_div s (shift_of s rem)) s [].
Proof.
  intros Hc rem. destruct (shift_bounds s now Hc) as (Hsh & _ & Hrs & _).
  destruct (ptimer_div_bounds s now Hc) as (Hdiv & _ & _). destruct Hc as [He Hp Hf Hr]. fold rem in Hsh, Hrs, Hdiv, Hr.
  unfold ptimer_get_count, mbind, M_bind, get, cbool. rewrite (proj2 (Z.eqb_neq _ _) He). cbn [negb].
  rewrite i64_small by (unfold rem in *; lia).
  rewrite (proj2 (Z.ltb_ge 0 (now - next_event s))) by (unfold rem in *; lia).
  rewrite (proj2 (Z.eqb_neq (period s) 0)) by lia. cbn [orb]. fold rem.
  rewrite (u64_small rem), (u64_small (period s)) by lia. fold (shift_of s rem).
  rewrite (proj2 (Z.eqb_neq _ 0)) by (by intros Heq; rewrite Heq in Hdiv).
  rewrite Z.shiftl_mul_pow2, u64_small by (first [lia | split; [apply Z.mul_nonneg_nonneg; lia | lia]]). done.
Qed.

(** ** The properties of the countdown timer *)

(** The count of a running timer is the number of whole
    periods left until its expiry, rounded down: it is never larger than the
    exact number, and it reaches the number for a period longer by the
    remaining time over 2^31 (in units of 2^-32 ns), so it is exact when fewer
    than 2^31 ns remain. *)
Theorem ptimer_count (s : ptimer_state) (now : Z) :
  counting s now ->
  exists c, ptimer_get_count now s = Done c s [] /\
    c * fixed_period s <= (next_event s - now) * 2 ^ 32 < (c + 1) * (fixed_period s + (next_event s - now) / 2 ^ 31).
Proof.
  intros Hc. eexists. split; [by apply get_count_value |].
  destruct (ptimer_div_bounds s now Hc) as (Hpos & Hlo & Hhi).
  destruct (shift_bounds s now Hc) as (Hsh & _ & _ & _). pose proof (c_rem s now Hc) as Hr.
  set (rem := next_event s - now) in *. set (sh := shift_of s rem) in *. set (d := ptimer_div s sh) in *.
  assert (H2 : 0 < 2 ^ sh) by (apply Z.pow_pos_nonneg; lia).
  pose proof (Z.mul_div_le (rem * 2 ^ sh) d Hpos).
  pose proof (Z.mul_succ_div_gt (rem * 2 ^ sh) d Hpos).
  assert (0 <= rem * 2 ^ sh / d) by (apply Z.div_pos; [apply Z.mul_nonneg_nonneg |]; lia).
  set (c := rem * 2 ^ sh / d) in *. set (P := fixed_period s) in *. set (e := rem / 2 ^ 31) in *.
  split.
  - apply (Z.mul_le_mono_pos_r _ _ (2 ^ sh) H2). nia.
  - apply (Z.mul_lt_mono_pos_r (2 ^ sh) _ _ H2). nia.
Qed.

(** A timer of 72 MHz started at time 0 with a count of three billion. *)
Definition pt_after (m : PtM unit) (s : ptimer_state) : ptimer_state :=
  match m s with Done _ s' _ => s' | Halt _ => s end.

Definition pt_demo : ptimer_state := Eval vm_compute in
  pt_after (ptimer_set_freq 0 72000000 ;; ptimer_set_limit 0 3000000000 true ;; ptimer_run 0 true) (ptimer_init true).

Lemma ptimer_count_witness :
  exists c, ptimer_get_count 41666666000 pt_demo = Done c pt_demo [] /\
    c * fixed_period pt_demo <= (next_event pt_demo - 41666666000) * 2 ^ 32
      < (c + 1) * (fixed_period pt_demo + (next_event pt_demo - 41666666000) / 2 ^ 31).
Proof. apply (ptimer_count pt_demo 41666666000). by split; vm_compute. Defined.

(** [ptimer_get_count] rounds the period up by an
    amount that depends on the remaining time, so the count can go up while
    time advances: a 72 MHz timer shows 2473901161 when 2^35 ns remain and
    2473901162 one nanosecond later. *)
Theorem ptimer_backwards :
  let s := pt_after (ptimer_set_freq 0 72000000 ;; ptimer_set_limit 0 3000000000 true ;;
                     ptimer_run 0 true) (ptimer_init true) in
  let now := next_event s - 2 ^ 35 in
  0 < now /\ ptimer_get_count now s = Done 2473901161 s [] /\
  ptimer_get_count (now + 1) s = Done 2473901162 s [].
Proof. by vm_compute. Qed.
