(* ===== verification/Timer.v ===== *)
(** * General purpose timers ([hw/timer/stm32_timer.c])

    The timer counts with a [ptimer_state]; the bottom half that the countdown
    schedules runs [stm32_timer_tick] when the main loop gets to it, at a time
    of its own ([bh_run]).  Output line 0 is the interrupt. *)

From S2P Require Import Prelude Stm32 Ptimer.

Definition TIMER_CR1_OFFSET : Z := 0x00.
Definition TIMER_CR2_OFFSET : Z := 0x04.
Definition TIMER_SMCR_OFFSET : Z := 0x08.
Definition TIMER_DIER_OFFSET : Z := 0x0c.
Definition TIMER_SR_OFFSET : Z := 0x10.
Definition TIMER_EGR_OFFSET : Z := 0x14.
Definition TIMER_CCMR1_OFFSET : Z := 0x18.
Definition TIMER_CCMR2_OFFSET : Z := 0x1c.
Definition TIMER_CCER_OFFSET : Z := 0x20.
Definition TIMER_CNT_OFFSET : Z := 0x24.
Definition TIMER_PSC_OFFSET : Z := 0x28.
Definition TIMER_ARR_OFFSET : Z := 0x2c.
Definition TIMER_RCR_OFFSET : Z := 0x30.
Definition TIMER_CCR1_OFFSET : Z := 0x34.
Definition TIMER_CCR2_OFFSET : Z := 0x38.
Definition TIMER_CCR3_OFFSET : Z := 0x3c.
Definition TIMER_CCR4_OFFSET : Z := 0x40.
Definition TIMER_BDTR_OFFSET : Z := 0x44.
Definition TIMER_DCR_OFFSET : Z := 0x48.
Definition TIMER_DMAR_OFFSET : Z := 0x4c.

Definition TIMER_UP_COUNT : Z := 0.
Definition TIMER_DOWN_COUNT : Z := 1.

Record Stm32Timer : Type := mkTimer {
  periph : Z;
  running : Z;
  countMode : Z;
  itr : Z;
  cr1 : Z;
  dier : Z;
  sr : Z;
  egr : Z;
  ccmr1 : Z;
  ccmr2 : Z;
  ccer : Z;
  psc : Z;
  arr : Z;
  ccr1 : Z;
  ccr2 : Z;
  ccr3 : Z;
  ccr4 : Z;
  timer : ptimer_state;
  bh_scheduled : bool
}.

#[export] Instance Stm32Timer_settable : Settable Stm32Timer := λ s,
  mkTimer (periph s) (running s) (countMode s) (itr s) (cr1 s) (dier s) (sr s) (egr s) (ccmr1 s)
    (ccmr2 s) (ccer s) (psc s) (arr s) (ccr1 s) (ccr2 s) (ccr3 s) (ccr4 s) (timer s) (bh_scheduled s).

Abbreviation TimerM := (M dev_event Stm32Timer).

(** ** The countdown timer inside the device *)

(** An operation on [s->timer]: a scheduled bottom half stays scheduled until
    the main loop runs it. *)
Definition on_timer {A} (m : PtM A) : TimerM A :=
  run_ptimer timer (λ p b s, s <| timer := p |> <| bh_scheduled := bh_scheduled s || b |>) m.

(** ** The handlers *)

Definition stm32_timer_get_count (now : Z) : TimerM Z :=
  cnt ← on_timer (ptimer_get_count now);
  s ← get;
  if countMode s =? TIMER_UP_COUNT then mret (u32 (arr s - (cnt .& 0xfffff)))
  else mret (cnt .& 0xffff).

Definition stm32_timer_set_count (now cnt : Z) : TimerM unit :=
  s ← get;
  if countMode s =? TIMER_UP_COUNT then on_timer (ptimer_set_count now (u32 (arr s - (cnt .& 0xfffff))))
  else on_timer (ptimer_set_count now (cnt .& 0xffff)).

Definition stm32_timer_update_UIF (value : Z) : TimerM unit :=
  modify (λ s, s <| sr := sr s .& not32 0x1 |>) ;;
  modify (λ s, s <| sr := sr s .| (value .& 0x1) |>) ;;
  emit (SetIrq 0 value).

Section Rcc.
  Context {R : Type} `{PeriphClocks R} (rcc : R).

Definition stm32_timer_freq (now : Z) : TimerM unit :=
  s ← get;
  f ← get_periph_freq rcc (periph s);
  let clk_freq := u32 (2 * f) / (psc s + 1) in
  when (negb (clk_freq =? 0)) (on_timer (ptimer_set_freq now clk_freq)).

Definition stm32_timer_clk_irq_handler (now n level : Z) : TimerM unit :=
  assert_ (n =? 0) ;;
  stm32_timer_freq now.

Definition stm32_timer_update (now : Z) : TimerM unit :=
  stm32_timer_freq now ;;
  s ← get;
  (if cbool (cr1 s .& 0x10) then modify (λ s, s <| countMode := TIMER_DOWN_COUNT |>)
   else modify (λ s, s <| countMode := TIMER_UP_COUNT |>)) ;;
  when (cbool (cr1 s .& 0x060)) (modify (λ s, s <| countMode := TIMER_UP_COUNT |>)) ;;
  if cbool (cr1 s .& 0x01) then on_timer (ptimer_run now (negb (cbool (cr1 s .& 0x04))))
  else on_timer (ptimer_stop now).

Definition stm32_timer_tick (now : Z) : TimerM unit :=
  modify (λ s, s <| itr := 1 |>) ;;
  stm32_timer_update_UIF 1 ;;
  s ← get;
  (if countMode s =? TIMER_UP_COUNT then stm32_timer_set_count now 0
   else stm32_timer_set_count now (arr s)) ;;
  s ← get;
  when (cbool (cr1 s .& 0x0060))
    (if countMode s =? TIMER_UP_COUNT then modify (λ s, s <| countMode := TIMER_DOWN_COUNT |>)
     else modify (λ s, s <| countMode := TIMER_UP_COUNT |>)) ;;
  if cbool (cr1 s .& 0x04) then modify (λ s, s <| cr1 := cr1 s .& 0xFFFE |>)
  else stm32_timer_update now.

Definition stm32_timer_read (now offset size : Z) : TimerM Z :=
  if offset =? TIMER_CR1_OFFSET then gets cr1
  else if offset =? TIMER_CR2_OFFSET then emit (Report Message) ;; mret 0
  else if offset =? TIMER_SMCR_OFFSET then emit (Report Message) ;; mret 0
  else if offset =? TIMER_DIER_OFFSET then gets dier
  else if offset =? TIMER_SR_OFFSET then gets sr
  else if offset =? TIMER_EGR_OFFSET then emit (Report Message) ;; mret 0
  else if offset =? TIMER_CCMR1_OFFSET then gets ccmr1
  else if offset =? TIMER_CCMR2_OFFSET then gets ccmr2
  else if offset =? TIMER_CCER_OFFSET then gets ccer
  else if offset =? TIMER_CNT_OFFSET then stm32_timer_get_count now
  else if offset =? TIMER_PSC_OFFSET then gets psc
  else if offset =? TIMER_ARR_OFFSET then gets arr
  else if offset =? TIMER_RCR_OFFSET then emit (Report Message) ;; mret 0
  else if offset =? TIMER_CCR1_OFFSET then gets ccr1
  else if offset =? TIMER_CCR2_OFFSET then gets ccr2
  else if offset =? TIMER_CCR3_OFFSET then gets ccr3
  else if offset =? TIMER_CCR4_OFFSET then gets ccr4
  else emit (Report Message) ;; mret 0.

Definition stm32_timer_write (now offset value size : Z) : TimerM unit :=
  if offset =? TIMER_CR1_OFFSET then
    modify (λ s, s <| cr1 := value .& 0x3FF |>) ;; stm32_timer_update now
  else if offset =? TIMER_CR2_OFFSET then emit (Report Message)
  else if offset =? TIMER_SMCR_OFFSET then emit (Report Message)
  else if offset =? TIMER_DIER_OFFSET then modify (λ s, s <| dier := value .& 0x5F5F |>)
  else if offset =? TIMER_SR_OFFSET then
    modify (λ s, s <| sr := u32 (sr s .^ (value .^ 0xFFFF)) |>) ;;
    modify (λ s, s <| sr := sr s .& 0x1eFF |>) ;;
    s ← get;
    stm32_timer_update_UIF (sr s .& 0x1)
  else if offset =? TIMER_EGR_OFFSET then
    modify (λ s, s <| egr := value .& 0x1E |>) ;;
    when (cbool (value .& 0x40)) (modify (λ s, s <| sr := sr s .| 0x40 |>)) ;;
    s ← get;
    when (cbool (value .& 0x1)) (on_timer (ptimer_set_limit now (arr s) true))
  else if offset =? TIMER_CCMR1_OFFSET then modify (λ s, s <| ccmr1 := value .& 0xffff |>)
  else if offset =? TIMER_CCMR2_OFFSET then modify (λ s, s <| ccmr2 := value .& 0xffff |>)
  else if offset =? TIMER_CCER_OFFSET then modify (λ s, s <| ccer := value .& 0x3333 |>)
  else if offset =? TIMER_CNT_OFFSET then stm32_timer_set_count now (value .& 0xffff)
  else if offset =? TIMER_PSC_OFFSET then
    modify (λ s, s <| psc := value .& 0xffff |>) ;; stm32_timer_freq now
  else if offset =? TIMER_ARR_OFFSET then
    modify (λ s, s <| arr := value .& 0xffff |>) ;;
    s ← get;
    on_timer (ptimer_set_limit now (arr s) true)
  else if offset =? TIMER_RCR_OFFSET then emit (Report Message)
  else if offset =? TIMER_CCR1_OFFSET then modify (λ s, s <| ccr1 := value .& 0xffff |>)
  else if offset =? TIMER_CCR2_OFFSET then modify (λ s, s <| ccr2 := value .& 0xffff |>)
  else if offset =? TIMER_CCR3_OFFSET then modify (λ s, s <| ccr3 := value .& 0xffff |>)
  else if offset =? TIMER_CCR4_OFFSET then modify (λ s, s <| ccr4 := value .& 0xffff |>)
  else emit (Report Message).

(** The main loop: the expiry of the countdown timer, and the bottom half when
    it is scheduled. *)
Definition bh_run (now : Z) : TimerM unit :=
  b ← gets bh_scheduled;
  when b (modify (λ s, s <| bh_scheduled := false |>) ;; stm32_timer_tick now).

Definition expiry (bh_time : Z) : TimerM unit :=
  on_timer ptimer_tick ;; bh_run bh_time.

End Rcc.

Definition stm32_timer_init (p : Z) : Stm32Timer :=
  mkTimer p 0 0 0 0 0 0 0 0 0 0 0 0 0 0 0 0 (ptimer_init true) false.

(** ** Lemmas *)

(** The bits of SR after a write. *)
Lemma sr_write_bit (old v i : Z) :
  0 <= i < 32 ->
  Z.testbit (u32 (old .^ (v .^ 0xFFFF)) .& 0x1eFF) i =
    Z.testbit 0x1eFF i && xorb (Z.testbit old i) (negb (Z.testbit v i)).
Proof.
  intros Hi. unfold u32. rewrite Z.land_spec, testbit_mod_pow2, !Z.lxor_spec by lia.
  rewrite (proj2 (Z.ltb_lt i 32)) by lia. cbn [andb]. rewrite andb_comm.
  destruct (Z.testbit 0x1eFF i) eqn:Hm; [| done]. cbn [andb]. f_equal.
  assert (Z.testbit 0xFFFF i = true) as ->; [| by rewrite xorb_true_r].
  change 0xFFFF with (Z.ones 16). rewrite testbit_ones by lia. apply Z.ltb_lt.
  destruct (Z.ltb_spec i 16); [done |]. by rewrite (testbit_high 13) in Hm by lia.
Qed.

Lemma land_1 (x : Z) : x .& 0x1 = b2z (Z.testbit x 0).
Proof. change 0x1 with (Z.ones 1). rewrite Z.land_ones by lia. apply (eq_sym (Z.bit0_mod x)). Qed.

(** Rewriting the update flag with itself changes nothing. *)
Lemma uif_bit (x i : Z) :
  0 <= i < 32 -> Z.testbit ((x .& not32 0x1) .| ((x .& 0x1) .& 0x1)) i = Z.testbit x i.
Proof.
  intros Hi. change 0x1 with (BIT 0).
  rewrite Z.lor_spec, !Z.land_spec, testbit_not32, testbit_BIT, (proj2 (Z.ltb_lt i 32)) by lia.
  destruct (0 =? i), (Z.testbit x i); done.
Qed.

(** ** The countdown *)

(** The time between two updates of an up-counting timer, in ns. *)
Definition interval (s : Stm32Timer) : Z :=
  arr s * period (timer s) + ((period_frac (timer s) * arr s) >> 32).

(** [clk_freq] of [stm32_timer_freq]. *)
Definition clk_freq {R} `{PeriphClocks R} (rcc : R) (s : Stm32Timer) : Z :=
  u32 (2 * periph_freq rcc (periph s)) / (psc s + 1).

(** A timer that counts up, with the countdown's period set from its clock. *)
Record programmed {R} `{PeriphClocks R} (rcc : R) (s : Stm32Timer) : Prop := {
  p_clocked : periph_clocked rcc (periph s) = true;
  p_psc : 0 <= psc s < 2 ^ 16;
  p_arr : 0 < arr s < 2 ^ 16;
  p_freq : 0 < clk_freq rcc s <= 1000000000;
  p_period : period (timer s) = 1000000000 / clk_freq rcc s;
  p_frac : period_frac (timer s) = u32 ((1000000000 << 32) / clk_freq rcc s);
  p_bh : bh (timer s) = true;
  p_mode : countMode s = TIMER_UP_COUNT;
  p_dir : cbool (cr1 s .& 0x10) = false;
  p_cms : cbool (cr1 s .& 0x60) = false
}.

Section Countdown.
  Context {R : Type} `{PeriphClocks R} (rcc : R) (s : Stm32Timer) (Hs : programmed rcc s).

Lemma period_range : 0 < period (timer s) <= 1000000000.
Proof.
  destruct Hs. rewrite p_period0. split; [apply Z.div_str_pos; lia | apply Z.div_le_upper_bound; nia].
Qed.

Lemma frac_range : 0 <= period_frac (timer s) < 2 ^ 32.
Proof. rewrite (p_frac _ _ Hs). apply u32_range. Qed.

Lemma interval_range : 0 <= interval s < 2 ^ 47.
Proof.
  pose proof period_range. pose proof frac_range. pose proof (p_arr _ _ Hs). unfold interval.
  rewrite Z.shiftr_div_pow2 by lia.
  assert (0 <= period_frac (timer s) * arr s / 2 ^ 32 < 2 ^ 16)
    by (split; [apply Z.div_pos; nia | apply Z.div_lt_upper_bound; nia]). nia.
Qed.

(** The countdown restarted with [arr] periods. *)
Definition restarted (now : Z) (p : ptimer_state) : ptimer_state :=
  p <| delta := arr s |> <| last_event := now |> <| next_event := now + interval s |>.

Lemma reload_arr now p :
  0 <= now < 2 ^ 62 -> delta p = arr s -> period p = period (timer s) -> period_frac p = period_frac (timer s) ->
  restart_at now p = Done () (restarted now p) [PtMod (now + interval s)].
Proof.
  intros Hn Hd Hp Hf. pose proof period_range. pose proof frac_range. pose proof (p_arr _ _ Hs).
  pose proof interval_range as Hi. unfold interval in Hi.
  set (q := arr s * period (timer s)) in *. assert (0 <= q) by nia.
  assert (Hfr : 0 <= (period_frac (timer s) * arr s) >> 32).
  { apply Z.shiftr_nonneg. nia. }
  assert (Hprod : 0 <= period_frac (timer s) * arr s < 2 ^ 64) by nia.
  assert (Hc : forall f : Z, cbool f = false -> f = 0) by (intros f; unfold cbool; by destruct (Z.eqb_spec f 0)).
  destruct p as [en lim d fr pe la ne b]. cbn in Hd, Hp, Hf. subst d pe fr.
  unfold restart_at, ptimer_reload, restarted, interval, mbind, M_bind, modify, get, emit, when.
  cbn -[Z.mul Z.shiftr Z.eqb i64 u64 cbool]. rewrite (proj2 (Z.eqb_neq (arr s) 0)) by lia.
  cbn -[Z.mul Z.shiftr Z.eqb i64 u64 cbool]. rewrite (proj2 (Z.eqb_neq (arr s) 0)) by lia.
  rewrite (proj2 (Z.eqb_neq (period (timer s)) 0)) by lia. cbn -[Z.mul Z.shiftr Z.eqb i64 u64 cbool].
  fold q. rewrite (i64_small (now + q)) by lia.
  destruct (cbool (period_frac (timer s))) eqn:Hfz; cbn -[Z.mul Z.shiftr Z.eqb i64 u64 cbool].
  - rewrite u64_small by lia. rewrite i64_small by lia. by rewrite Z.add_assoc.
  - rewrite (Hc _ Hfz), Z.mul_0_l, Z.shiftr_0_l, Z.add_0_r. done.
Qed.

Lemma on_timer_Done {A} (m : PtM A) (s0 : Stm32Timer) a p t :
  m (timer s0) = Done a p t ->
  on_timer m s0 = Done a (s0 <| timer := p |> <| bh_scheduled := bh_scheduled s0 || existsb is_bh t |>) (t ≫= pt_effect).
Proof. unfold on_timer, run_ptimer. by intros ->. Qed.

(** Setting the frequency again changes nothing while the countdown is stopped. *)
Lemma freq_stopped now : enabled (timer s) = 0 -> stm32_timer_freq rcc now s = Done () s [].
Proof.
  intros He. pose proof (p_freq _ _ Hs) as Hf. unfold stm32_timer_freq, mbind, M_bind, get.
  rewrite get_periph_freq_Done by apply Hs. fold (clk_freq rcc s).
  rewrite (proj2 (Z.eqb_neq (clk_freq rcc s) 0)) by lia. cbn [negb when].
  rewrite (on_timer_Done _ s () (timer s) []).
  - destruct s. cbn. by rewrite orb_false_r.
  - unfold ptimer_set_freq, mbind, M_bind, modify, get, mret, M_ret.
    rewrite (proj2 (Z.eqb_neq (clk_freq rcc s) 0)) by lia.
    rewrite <- (p_period _ _ Hs), <- (p_frac _ _ Hs). destruct (timer s); cbn in *. by rewrite He.
Qed.

(** The timer enabled in continuous mode. *)
Definition continuous : Prop := cbool (cr1 s .& 0x01) = true /\ cbool (cr1 s .& 0x04) = false.

Lemma update_continuous now :
  0 <= now < 2 ^ 62 -> continuous -> enabled (timer s) = 0 -> delta (timer s) = arr s ->
  stm32_timer_update rcc now s =
    Done () (s <| timer := restarted now (timer s <| enabled := 2 |>) |>) [TimerMod 0 (now + interval s)].
Proof.
  intros Hn [Hcen Hopm] He Hd. unfold stm32_timer_update, mbind, M_bind, get, modify.
  rewrite freq_stopped by done. rewrite (p_dir _ _ Hs), (p_cms _ _ Hs), Hcen, Hopm.
  assert (Hm : s <| countMode := TIMER_UP_COUNT |> = s).
  { pose proof (p_mode _ _ Hs) as Hmode. destruct s. cbn in *. by subst. }
  rewrite Hm. cbn [when mret M_ret negb]. unfold mret, M_ret.
  rewrite (on_timer_Done _ s () (restarted now (timer s <| enabled := 2 |>)) [PtMod (now + interval s)]).
  - destruct s. cbn -[interval]. by rewrite orb_false_r.
  - unfold ptimer_run, mbind, M_bind, get, modify, mret, M_ret. rewrite He. cbn [cbool Z.eqb negb].
    pose proof period_range. rewrite (proj2 (Z.eqb_neq (period (timer s)) 0)) by lia.
    by rewrite (reload_arr now) by done.
Qed.

End Countdown.

Section Expiry.
  Context {R : Type} `{PeriphClocks R} (rcc : R).

(** The device with the update flag set and the countdown in state [p]. *)
Definition updated (p : ptimer_state) (s : Stm32Timer) : Stm32Timer :=
  s <| itr := 1 |> <| sr := (sr s .& not32 0x1) .| (1 .& 0x1) |> <| timer := p |>.

Lemma programmed_updated s p :
  period p = period (timer s) -> period_frac p = period_frac (timer s) -> bh p = bh (timer s) ->
  programmed rcc s -> programmed rcc (updated p s).
Proof.
  intros Hp Hf Hb []. split; try done;
    [exact (eq_trans Hp p_period0) | exact (eq_trans Hf p_frac0) | exact (eq_trans Hb p_bh0)].
Qed.

Lemma interval_updated s p :
  period p = period (timer s) -> period_frac p = period_frac (timer s) -> interval (updated p s) = interval s.
Proof. intros Hp Hf. unfold interval. cbn [updated timer arr set_field]. by rewrite Hp, Hf. Qed.

(** The bottom half of an up-counting timer up to the choice of its mode. *)
Lemma tick_up now s p t :
  countMode s = TIMER_UP_COUNT -> 0 < arr s < 2 ^ 16 -> cbool (cr1 s .& 0x60) = false ->
  ptimer_set_count now (arr s) (timer s) = Done () p t -> existsb is_bh t = false ->
  stm32_timer_tick rcc now s =
    match (if cbool (cr1 s .& 0x04) then modify (λ s, s <| cr1 := cr1 s .& 0xFFFE |>)
           else stm32_timer_update rcc now) (updated p s) with
    | Done a s' t' => Done a s' (SetIrq 0 1 :: (t ≫= pt_effect) ++ t')
    | Halt f => Halt f
    end.
Proof.
  intros Hm Ha Hcms Hset Ht. unfold stm32_timer_tick, stm32_timer_update_UIF.
  set (s2 := s <| itr := 1 |> <| sr := (sr s .& not32 0x1) .| (1 .& 0x1) |>).
  assert (Hcount : stm32_timer_set_count now 0 s2 = Done () (updated p s) (t ≫= pt_effect)).
  { unfold stm32_timer_set_count, mbind, M_bind, get.
    change (countMode s2) with (countMode s). rewrite Hm. change (TIMER_UP_COUNT =? TIMER_UP_COUNT) with true.
    change (arr s2) with (arr s). change (0 .& 0xfffff) with 0. cbv iota. rewrite Z.sub_0_r, u32_small by lia.
    rewrite (on_timer_Done _ s2 () p t) by exact Hset. rewrite Ht. unfold s2, updated. destruct s.
    cbn -[Z.land Z.lor not32]. by rewrite orb_false_r. }
  unfold mbind, M_bind, modify, emit, get. change (set_field sr _ (set_field sr _ (set_field itr _ s))) with s2.
  change (countMode s2) with (countMode s). rewrite Hm. change (TIMER_UP_COUNT =? TIMER_UP_COUNT) with true.
  cbv iota. rewrite Hcount. change (cr1 (updated p s)) with (cr1 s). rewrite Hcms. cbn [when app]. unfold mret, M_ret.
  destruct (cbool (cr1 s .& 0x04)); [reflexivity |].
  by destruct (stm32_timer_update rcc now (updated p s)).
Qed.

(** An expiry in continuous mode. *)
Lemma expiry_continuous now s :
  0 <= now < 2 ^ 62 -> programmed rcc s -> continuous s -> enabled (timer s) = 2 -> bh_scheduled s = false ->
  expiry rcc now s =
    Done () (updated (restarted s now (timer s)) s) [SetIrq 0 1; TimerMod 0 (now + interval s)].
Proof.
  intros Hn Hs Hc He Hb. set (p0 := timer s <| delta := 0 |> <| enabled := 0 |>).
  set (p1 := timer s <| delta := arr s |> <| enabled := 0 |>).
  unfold expiry, mbind, M_bind. rewrite (on_timer_Done _ s () p0 [BhSchedule]).
  2:{ unfold ptimer_tick, ptimer_trigger, mbind, M_bind, gets, modify, get. rewrite (p_bh _ _ Hs).
      cbn [when emit]. change (enabled (timer s <| delta := 0 |>)) with (enabled (timer s)). by rewrite He. }
  rewrite Hb. unfold bh_run, gets, mbind, M_bind, modify. cbn [bh_scheduled set_field existsb is_bh orb when].
  set (s1 := s <| timer := p0 |>).
  replace (set_field bh_scheduled (λ _, false) _) with s1 by (unfold s1; destruct s; cbn in *; by subst).
  rewrite (tick_up now s1 p1 []); [| apply Hs | apply Hs | apply Hs | reflexivity | reflexivity].
  change (cr1 s1) with (cr1 s). rewrite (proj2 Hc).
  assert (Hs1 : programmed rcc (updated p1 s1)) by (destruct Hs; by split).
  rewrite (update_continuous rcc _ Hs1 now) by done.
  change (interval (updated p1 s1)) with (interval s). cbn [app mbind list_bind].
  f_equal. unfold updated, restarted, s1, p1. change (interval _) with (interval s).
  destruct s as [? ? ? ? ? ? ? ? ? ? ? ? ? ? ? ? ? [] ?]. cbn in *. by subst.
Qed.

(** A periodic countdown is armed again when it expires. *)
Lemma ptimer_tick_periodic p :
  bh p = true -> enabled p = 1 -> limit p <> 0 -> period p <> 0 ->
  exists l n, ptimer_tick p =
    Done () (p <| delta := limit p |> <| last_event := l |> <| next_event := n |>) [BhSchedule; BhSchedule; PtMod n].
Proof.
  intros Hb He Hl Hp. destruct p as [en lim d fr pe la ne b]. cbn in *. subst.
  unfold ptimer_tick, ptimer_trigger, ptimer_reload, ptimer_trigger, mbind, M_bind, gets, get, modify, emit, when.
  do 2 (cbn -[i64 u64 cbool Z.eqb Z.mul Z.shiftr]; change (1 =? 2) with false; change (0 =? 0) with true).
  cbn -[i64 u64 cbool Z.eqb Z.mul Z.shiftr]. rewrite (proj2 (Z.eqb_neq lim 0) Hl), (proj2 (Z.eqb_neq pe 0) Hp).
  cbn -[i64 u64 cbool Z.eqb Z.mul Z.shiftr]. destruct (cbool fr); eexists _, _; reflexivity.
Qed.

(** An expiry in one-pulse mode. *)
Lemma expiry_one_pulse now s :
  0 <= now < 2 ^ 62 -> programmed rcc s -> cbool (cr1 s .& 0x04) = true ->
  enabled (timer s) = 1 -> limit (timer s) <> 0 -> bh_scheduled s = false ->
  exists n, expiry rcc now s =
    Done () (updated (restarted s now (timer s)) s <| cr1 := cr1 s .& 0xFFFE |>)
      [TimerMod 0 n; SetIrq 0 1; TimerMod 0 (now + interval s)].
Proof.
  intros Hn Hs Hopm He Hl Hb. pose proof (period_range rcc s Hs) as Hp.
  destruct (ptimer_tick_periodic (timer s)) as (la & n & Htick); [apply Hs | done | done | lia |].
  exists n. set (p0 := timer s <| delta := limit (timer s) |> <| last_event := la |> <| next_event := n |>) in *.
  unfold expiry, mbind, M_bind. rewrite (on_timer_Done _ s () p0 _ Htick).
  rewrite Hb. unfold bh_run, gets, mbind, M_bind, modify. cbn [bh_scheduled set_field existsb is_bh orb when].
  set (s1 := s <| timer := p0 |>).
  replace (set_field bh_scheduled (λ _, false) _) with s1 by (unfold s1; destruct s; cbn in *; by subst).
  rewrite (tick_up now s1 (restarted s now (p0 <| delta := arr s |>)) [PtMod (now + interval s)]);
    [| apply Hs | apply Hs | apply Hs | | reflexivity].
  - change (cr1 s1) with (cr1 s). rewrite Hopm. reflexivity.
  - unfold ptimer_set_count, mbind, M_bind, modify, get. change (arr s1) with (arr s). change (timer s1) with p0.
    change (enabled (p0 <| delta := arr s |>)) with (enabled (timer s)). rewrite He. cbn [cbool Z.eqb negb when].
    by rewrite (reload_arr rcc s Hs now (p0 <| delta := arr s |>)) by done.
Qed.

End Expiry.

(** ** Properties *)

(** The countdown of the timer is running, with no update outstanding. *)
Definition counting_down (mode : Z) (s : Stm32Timer) : Prop :=
  enabled (timer s) = mode /\ bh_scheduled s = false.

(** C30 (timer.updates).  An up-counting timer in continuous mode raises its
    interrupt at every expiry and starts the next countdown of the same
    length, [arr] periods of the prescaled clock, when its bottom half runs:
    the n-th expiry comes the interval after the (n-1)-th bottom half. *)
Theorem timer_updates {R} `{PeriphClocks R} (rcc : R) (s : Stm32Timer) (nows : list Z) :
  programmed rcc s -> continuous s -> counting_down 2 s -> Forall (λ now, 0 <= now < 2 ^ 62) nows ->
  exists s', for_each nows (expiry rcc) s =
      Done () s' (nows ≫= λ now, [SetIrq 0 1; TimerMod 0 (now + interval s)]) /\
    programmed rcc s' /\ continuous s' /\ counting_down 2 s' /\ interval s' = interval s.
Proof.
  intros Hs Hc [He Hb] Hn. revert s Hs Hc He Hb. induction Hn as [| now nows Hnow _ IH]; intros s Hs Hc He Hb.
  { by exists s. }
  set (s1 := updated (restarted s now (timer s)) s).
  assert (Hs1 : programmed rcc s1) by (by apply programmed_updated).
  destruct (IH s1 Hs1) as (s' & Hrun & Hs' & Hc' & Hd' & Hi'); [exact Hc | exact He | exact Hb |].
  change (interval s1) with (interval s) in *. exists s'. split; [| done].
  cbn [for_each]. unfold mbind at 1, M_bind. rewrite expiry_continuous by done. fold s1. rewrite Hrun. done.
Qed.

(** A write to SR does not clear the flags written as 0: it
    inverts them (and keeps those written as 1).  Clearing a flag that is not
    set sets it, and for the update flag raises the interrupt. *)
Theorem timer_status {R} `{PeriphClocks R} (rcc : R) (now v : Z) (s : Stm32Timer) :
  exists s', stm32_timer_write rcc now TIMER_SR_OFFSET v 4 s =
      Done () s' [SetIrq 0 (b2z (xorb (Z.testbit (sr s) 0) (negb (Z.testbit v 0))))] /\
    (forall i, 0 <= i < 16 ->
      Z.testbit (sr s') i = Z.testbit 0x1eFF i && xorb (Z.testbit (sr s) i) (negb (Z.testbit v i))).
Proof.
  assert (Hv : u32 (sr s .^ (v .^ 0xFFFF)) .& 0x1eFF .& 0x1 =
    b2z (xorb (Z.testbit (sr s) 0) (negb (Z.testbit v 0)))) by (by rewrite land_1, sr_write_bit by lia).
  rewrite <- Hv. eexists. split; [reflexivity |]. intros i Hi.
  etransitivity; [| apply sr_write_bit; lia].
  apply (uif_bit (u32 (sr s .^ (v .^ 0xFFFF)) .& 0x1eFF) i). lia.
Qed.

(** In one-pulse mode the first expiry clears the
    enable bit but leaves the countdown running in periodic mode: the
    interrupt comes again at every further expiry, for ever. *)
Theorem timer_one_pulse {R} `{PeriphClocks R} (rcc : R) (s : Stm32Timer) (nows : list Z) :
  programmed rcc s -> cbool (cr1 s .& 0x04) = true -> counting_down 1 s -> limit (timer s) <> 0 ->
  Forall (λ now, 0 <= now < 2 ^ 62) nows ->
  exists s' t, for_each nows (expiry rcc) s = Done () s' t /\
    filter (λ e, is_irq e = true) t = ((λ _, SetIrq 0 1) <$> nows) /\
    counting_down 1 s' /\ (nows <> [] -> Z.testbit (cr1 s') 0 = false).
Proof.
  intros Hs Ho [He Hb] Hl Hn. revert s Hs Ho He Hb Hl.
  induction Hn as [| now nows Hnow _ IH]; intros s Hs Ho He Hb Hl; [by exists s, [] |].
  destruct (expiry_one_pulse rcc now s Hnow Hs Ho He Hl Hb) as [n Hexp].
  set (s1 := updated (restarted s now (timer s)) s <| cr1 := cr1 s .& 0xFFFE |>) in *.
  assert (Hmask : forall m, m .& 0xFFFE = m -> cr1 s1 .& m = cr1 s .& m).
  { intros m Hm. change (cr1 s1) with (cr1 s .& 0xFFFE). by rewrite <- Z.land_assoc, (Z.land_comm 0xFFFE), Hm. }
  assert (Hs1 : programmed rcc s1).
  { destruct Hs. split; try done; rewrite Hmask; done. }
  destruct (IH s1 Hs1) as (s' & t' & Hrun & Hirq & Hd & Hcr); [by rewrite Hmask | exact He | exact Hb | exact Hl |].
  exists s', ([TimerMod 0 n; SetIrq 0 1; TimerMod 0 (now + interval s)] ++ t').
  split; [cbn [for_each]; unfold mbind, M_bind; by rewrite Hexp, Hrun |].
  split; [rewrite filter_app, Hirq; reflexivity |]. split; [done |]. intros _.
  destruct nows as [| now2 nows]; [| by apply Hcr]. injection Hrun as <- _.
  change (cr1 s1) with (cr1 s .& 0xFFFE). by rewrite Z.land_spec, andb_false_r.
Qed.

(** ** Examples *)

(** A timer on a 8 MHz clock with a prescaler of 16000 (one tick per
    millisecond) that counts to 500, started at time 0. *)
Definition tim_after (m : TimerM unit) (s : Stm32Timer) : Stm32Timer :=
  match m s with Done _ s' _ => s' | Halt _ => s end.

Definition tim_programmed (cr1 : Z) : TimerM unit :=
  stm32_timer_write 8000000 0 TIMER_PSC_OFFSET 15999 4 ;;
  stm32_timer_write 8000000 0 TIMER_ARR_OFFSET 500 4 ;;
  stm32_timer_write 8000000 0 TIMER_CR1_OFFSET cr1 4.

Definition tim_demo : Stm32Timer := Eval vm_compute in
  tim_after (tim_programmed 0x01) (stm32_timer_init STM32_TIM2).
Definition tim_pulse : Stm32Timer := Eval vm_compute in
  tim_after (tim_programmed 0x05) (stm32_timer_init STM32_TIM2).

Lemma tim_demo_programmed : programmed 8000000 tim_demo.
Proof. by split; vm_compute. Qed.

Lemma tim_pulse_programmed : programmed 8000000 tim_pulse.
Proof. by split; vm_compute. Qed.

Lemma timer_updates_witness :
  interval tim_demo = 500000000 /\
  exists s', for_each [500000000; 1000000200] (expiry 8000000) tim_demo =
    Done () s' [SetIrq 0 1; TimerMod 0 1000000000; SetIrq 0 1; TimerMod 0 1500000200] /\
    programmed 8000000 s' /\ continuous s' /\ counting_down 2 s' /\ interval s' = interval tim_demo.
Proof.
  split; [reflexivity |]. apply (timer_updates 8000000 tim_demo [500000000; 1000000200]).
  - apply tim_demo_programmed.
  - by split.
  - by split.
  - repeat constructor; lia.
Defined.

Lemma timer_one_pulse_witness :
  exists s' t, for_each [500000000; 1000000200] (expiry 8000000) tim_pulse = Done () s' t /\
    filter (λ e, is_irq e = true) t = [SetIrq 0 1; SetIrq 0 1] /\
    counting_down 1 s' /\ ([500000000; 1000000200] <> [] -> Z.testbit (cr1 s') 0 = false).
Proof.
  apply (timer_one_pulse 8000000 tim_pulse [500000000; 1000000200]).
  - apply tim_pulse_programmed.
  - reflexivity.
  - by split.
  - discriminate.
  - repeat constructor; lia.
Defined.
