(* ===== verification/Rtc.v ===== *)
(** * Real time clock ([hw/timer/stm32_rtc.c])

    The registers are pairs of 16-bit halves.  The tick of the clock is the
    bottom half of a [ptimer_state]; the virtual time is an argument.  Output
    line 0 is the interrupt. *)

From S2P Require Import Prelude Stm32 Ptimer.

Definition RTC_CRH_OFFSET : Z := 0x00.
Definition RTC_CRH_SECIE_BIT : Z := 0.
Definition RTC_CRH_ALRIE_BIT : Z := 1.
Definition RTC_CRH_OWIE_BIT : Z := 2.
Definition RTC_CRL_OFFSET : Z := 0x04.
Definition RTC_CRL_SECF_BIT : Z := 0.
Definition RTC_CRL_ALRF_BIT : Z := 1.
Definition RTC_CRL_OWF_BIT : Z := 2.
Definition RTC_CRL_RSF_BIT : Z := 3.
Definition RTC_CRL_CNF_BIT : Z := 4.
Definition RTC_CRL_RTOFF_BIT : Z := 5.
Definition RTC_PRLH_OFFSET : Z := 0x08.
Definition RTC_PRLL_OFFSET : Z := 0x0c.
Definition RTC_DIVH_OFFSET : Z := 0x10.
Definition RTC_DIVL_OFFSET : Z := 0x14.
Definition RTC_CNTH_OFFSET : Z := 0x18.
Definition RTC_CNTL_OFFSET : Z := 0x1c.
Definition RTC_ALRH_OFFSET : Z := 0x20.
Definition RTC_ALRL_OFFSET : Z := 0x24.

Record Stm32Rtc : Type := mkRtc {
  periph : Z;
  RTC_CRL : Z;     (* RTC_CR[0] *)
  RTC_CRH : Z;     (* RTC_CR[1] *)
  RTC_PRLL : Z;
  RTC_PRLH : Z;
  RTC_CNTL : Z;
  RTC_CNTH : Z;
  RTC_ALRL : Z;
  RTC_ALRH : Z;
  ptimer : ptimer_state;
  bh_scheduled : bool;
  freq : Z;
  prescaler : Z
}.

#[export] Instance Stm32Rtc_settable : Settable Stm32Rtc := λ s,
  mkRtc (periph s) (RTC_CRL s) (RTC_CRH s) (RTC_PRLL s) (RTC_PRLH s) (RTC_CNTL s) (RTC_CNTH s)
    (RTC_ALRL s) (RTC_ALRH s) (ptimer s) (bh_scheduled s) (freq s) (prescaler s).

Abbreviation RtcM := (M dev_event Stm32Rtc).

(** An operation on [s->ptimer]. *)
Definition on_ptimer {A} (m : PtM A) : RtcM A :=
  run_ptimer ptimer (λ p b s, s <| ptimer := p |> <| bh_scheduled := bh_scheduled s || b |>) m.

Definition stm32_rtc_clk_irq_handler {R} `{PeriphClocks R} (rcc : R) (now n level : Z) : RtcM unit :=
  s ← get;
  f ← get_periph_freq rcc (periph s);
  modify (λ s, s <| freq := f |>) ;;
  s ← get;
  when (cbool (freq s))
    (on_ptimer (ptimer_set_freq now (freq s)) ;;
     on_ptimer (ptimer_set_count now (u32 (prescaler s + 1))) ;;
     on_ptimer (ptimer_run now true)).

Definition rtc_irq_level (s : Stm32Rtc) : Z :=
  ((RTC_CRH s >> RTC_CRH_SECIE_BIT) .& (RTC_CRL s >> RTC_CRL_SECF_BIT)) .|
  ((RTC_CRH s >> RTC_CRH_ALRIE_BIT) .& (RTC_CRL s >> RTC_CRL_ALRF_BIT)) .|
  ((RTC_CRH s >> RTC_CRH_OWIE_BIT) .& (RTC_CRL s >> RTC_CRL_OWF_BIT)).

Definition stm32_rtc_update_irq : RtcM unit :=
  s ← get;
  let new_irq_level := rtc_irq_level s in
  when (cbool (new_irq_level .& 0x07))
    (modify (λ s, s <| RTC_CRL := RTC_CRL s .& not32 (RTC_CRL_SECF_BIT .| RTC_CRL_ALRF_BIT .| RTC_CRL_OWF_BIT) |>) ;;
     emit (SetIrq 0 new_irq_level) ;;
     emit (SetIrq 0 0)).

Definition stm32_rtc_check_alarm (s : Stm32Rtc) : bool :=
  (u32 (RTC_CNTH s << 16) .| RTC_CNTL s) =? (u32 (RTC_ALRH s << 16) .| RTC_ALRL s).

Definition stm32_rtc_tick (now : Z) : RtcM unit :=
  s ← get;
  let new_CNT := u32 ((u32 (RTC_CNTH s << 16) .| RTC_CNTL s) + 1) in
  modify (λ s, s <| RTC_CNTL := new_CNT .& 0xffff |> <| RTC_CNTH := new_CNT >> 16 |>) ;;
  when (cbool (RTC_CRH s)) (modify (λ s, s <| RTC_CRL := RTC_CRL s .| (1 << RTC_CRL_SECF_BIT) |>)) ;;
  when (cbool (RTC_CRH s .& (1 << RTC_CRH_ALRIE_BIT)))
    (modify (λ s, s <| RTC_CRL := RTC_CRL s .| (b2z (stm32_rtc_check_alarm s) << RTC_CRL_ALRF_BIT) |>)) ;;
  s ← get;
  when (negb (cbool (RTC_CRL s .& (1 << RTC_CRL_RSF_BIT))))
    (modify (λ s, s <| RTC_CRL := RTC_CRL s .| (1 << RTC_CRL_RSF_BIT) |>)) ;;
  stm32_rtc_update_irq ;;
  s ← get;
  on_ptimer (ptimer_set_count now (u32 (prescaler s + 1))) ;;
  on_ptimer (ptimer_run now true).

(** The prescaler that PRLH and PRLL hold. *)
Definition prl (s : Stm32Rtc) : Z := ((RTC_PRLH s .& 0x000f) << 16) .| RTC_PRLL s.

Definition stm32_rtc_reset : RtcM unit :=
  modify (λ s, s <| RTC_CRL := 0x0020 |> <| RTC_CRH := 0x0000 |> <| RTC_PRLL := 0x8000 |>
                 <| RTC_CNTL := 0x0000 |> <| RTC_ALRL := 0xFFFF |> <| RTC_PRLH := 0x0000 |>
                 <| RTC_CNTH := 0x0000 |> <| RTC_ALRH := 0xFFFF |>) ;;
  modify (λ s, s <| prescaler := prl s |>).

Definition stm32_rtc_read (offset size : Z) : RtcM Z :=
  if offset =? RTC_PRLH_OFFSET then halt HwError
  else if offset =? RTC_PRLL_OFFSET then halt HwError
  else if offset =? RTC_CRH_OFFSET then gets RTC_CRH
  else if offset =? RTC_CRL_OFFSET then gets RTC_CRL
  else if offset =? RTC_DIVH_OFFSET then gets RTC_PRLH
  else if offset =? RTC_DIVL_OFFSET then gets RTC_PRLL
  else if offset =? RTC_CNTH_OFFSET then gets RTC_CNTH
  else if offset =? RTC_CNTL_OFFSET then gets RTC_CNTL
  else if offset =? RTC_ALRH_OFFSET then gets RTC_ALRH
  else if offset =? RTC_ALRL_OFFSET then gets RTC_ALRL
  else emit (Report BadReg) ;; mret 0.

Definition rtc_update_prescaler : RtcM unit :=
  s ← get;
  when (cbool (prescaler s .^ prl s)) (modify (λ s, s <| prescaler := prl s |>)).

Definition stm32_rtc_write (offset value size : Z) : RtcM unit :=
  s ← get;
  (if negb (offset =? RTC_CRH_OFFSET) && negb (offset =? RTC_CRL_OFFSET) &&
      negb (cbool (RTC_CRL s .& (1 << RTC_CRL_CNF_BIT))) then halt HwError else mret ()) ;;
  modify (λ s, s <| RTC_CRL := RTC_CRL s .& not32 (1 << RTC_CRL_RTOFF_BIT) |>) ;;
  let rtoff := modify (λ s, s <| RTC_CRL := RTC_CRL s .| (1 << RTC_CRL_RTOFF_BIT) |>) in
  if offset =? RTC_CRH_OFFSET then modify (λ s, s <| RTC_CRH := value .& 0xffff |>) ;; rtoff
  else if offset =? RTC_CRL_OFFSET then
    modify (λ s, s <| RTC_CRL := RTC_CRL s .& (value .& 0xf) |>) ;;
    modify (λ s, s <| RTC_CRL := RTC_CRL s .| (value .& 0x10) |>) ;; rtoff
  else if offset =? RTC_PRLH_OFFSET then
    modify (λ s, s <| RTC_PRLH := value .& 0x000f |>) ;; rtc_update_prescaler ;; rtoff
  else if offset =? RTC_PRLL_OFFSET then
    modify (λ s, s <| RTC_PRLL := value .& 0xffff |>) ;; rtc_update_prescaler ;; rtoff
  else if offset =? RTC_DIVH_OFFSET then halt HwError
  else if offset =? RTC_DIVL_OFFSET then halt HwError
  else if offset =? RTC_CNTH_OFFSET then modify (λ s, s <| RTC_CNTH := value .& 0xffff |>) ;; rtoff
  else if offset =? RTC_CNTL_OFFSET then modify (λ s, s <| RTC_CNTL := value .& 0xffff |>) ;; rtoff
  else if offset =? RTC_ALRH_OFFSET then modify (λ s, s <| RTC_ALRH := value .& 0xffff |>) ;; rtoff
  else if offset =? RTC_ALRL_OFFSET then modify (λ s, s <| RTC_ALRL := value .& 0xffff |>) ;; rtoff
  else emit (Report BadReg).

Definition stm32_rtc_init (p : Z) : outcome dev_event Stm32Rtc unit :=
  stm32_rtc_reset (mkRtc p 0 0 0 0 0 0 0 0 (ptimer_init true) false 0 0).

(** ** The counter and the alarm *)

Definition count (s : Stm32Rtc) : Z := RTC_CNTH s * 2 ^ 16 + RTC_CNTL s.
Definition alarm (s : Stm32Rtc) : Z := RTC_ALRH s * 2 ^ 16 + RTC_ALRL s.

Record rtc_ok (s : Stm32Rtc) : Prop := {
  r_cntl : 0 <= RTC_CNTL s < 2 ^ 16;
  r_cnth : 0 <= RTC_CNTH s < 2 ^ 16;
  r_alrl : 0 <= RTC_ALRL s < 2 ^ 16;
  r_alrh : 0 <= RTC_ALRH s < 2 ^ 16
}.

Lemma halves (h l : Z) : 0 <= h < 2 ^ 16 -> 0 <= l < 2 ^ 16 -> u32 (h << 16) .| l = h * 2 ^ 16 + l.
Proof.
  intros Hh Hl. rewrite Z.shiftl_mul_pow2, u32_small by lia. by apply lor_add; lia.
Qed.

Lemma split_halves (v : Z) : 0 <= v < 2 ^ 32 ->
  0 <= v .& 0xffff < 2 ^ 16 /\ 0 <= v >> 16 < 2 ^ 16 /\ (v >> 16) * 2 ^ 16 + (v .& 0xffff) = v.
Proof.
  intros Hv. change 0xffff with (Z.ones 16). rewrite Z.land_ones, Z.shiftr_div_pow2 by lia.
  pose proof (Z.mod_pos_bound v (2 ^ 16) ltac:(lia)). pose proof (Z.div_mod v (2 ^ 16) ltac:(lia)).
  split; [lia |]. split; [| lia]. split; [apply Z.div_pos; lia | apply Z.div_lt_upper_bound; lia].
Qed.

(** The countdown operations of a tick complete and raise no interrupt. *)
Lemma ptimer_ops_done p now c :
  (exists p' t, ptimer_set_count now c p = Done () p' t) /\ (exists p' t, ptimer_run now true p = Done () p' t).
Proof.
  assert (Hr : forall p, exists p' t, ptimer_reload p = Done () p' t).
  { clear. intros p. unfold ptimer_reload, ptimer_trigger, mbind, M_bind, get, gets, modify, when, emit, mret, M_ret.
    repeat (case_match; simplify_eq; eauto). }
  unfold ptimer_set_count, ptimer_run, restart_at, mbind, M_bind, get, modify, when, emit, mret, M_ret. split.
  - destruct (cbool _); [| eauto]. destruct (Hr ((p <| delta := c |>) <| next_event := now |>)) as (p' & t & ->). eauto.
  - destruct (cbool _); [eauto |]. destruct (period p =? 0); [eauto |].
    destruct (Hr ((p <| enabled := 2 |>) <| next_event := now |>)) as (p' & t & ->). eauto.
Qed.

Lemma effects_no_irq (t : list pt_event) : filter (λ e, is_irq e = true) (t ≫= pt_effect) = [].
Proof. induction t as [|e t IH]; [done |]. rewrite bind_cons, filter_app, IH. by destruct e. Qed.

Lemma on_ptimer_quiet (m : PtM unit) s :
  (exists p t, m (ptimer s) = Done () p t) ->
  exists p b t, on_ptimer m s = Done () (s <| ptimer := p |> <| bh_scheduled := b |>) t /\
    filter (λ e, is_irq e = true) t = [].
Proof.
  intros (p & t & Hm). unfold on_ptimer, run_ptimer. rewrite Hm. eexists _, _, _. split; [done |]. apply effects_no_irq.
Qed.

(** The interrupt with only the alarm enabled. *)
Lemma level_alarm (crl : Z) :
  ((2 >> RTC_CRH_SECIE_BIT) .& (crl >> RTC_CRL_SECF_BIT)) .| ((2 >> RTC_CRH_ALRIE_BIT) .& (crl >> RTC_CRL_ALRF_BIT)) .|
  ((2 >> RTC_CRH_OWIE_BIT) .& (crl >> RTC_CRL_OWF_BIT)) = if Z.testbit crl 1 then 3 else 0.
Proof.
  change (2 >> RTC_CRH_SECIE_BIT) with (BIT 1). change (2 >> RTC_CRH_ALRIE_BIT) with (BIT 0).
  change (2 >> RTC_CRH_OWIE_BIT) with 0. rewrite Z.land_0_l, Z.lor_0_r. apply Z.bits_inj'. intros i Hi.
  rewrite Z.lor_spec, !Z.land_spec, !Z.shiftr_spec, !testbit_BIT by lia.
  unfold RTC_CRL_SECF_BIT, RTC_CRL_ALRF_BIT. rewrite Z.add_0_r.
  destruct (Z.eqb_spec 1 i) as [<- |].
  - change (0 =? 1) with false. rewrite orb_false_r. by destruct (Z.testbit crl 1).
  - destruct (Z.eqb_spec 0 i) as [<- |]; cbn [andb orb].
    + change (0 + 1) with 1. by destruct (Z.testbit crl 1).
    + destruct (Z.testbit crl 1); [| by rewrite Z.testbit_0_l].
      rewrite (testbit_high 2) by lia. done.
Qed.

(** [CRL] after the flags of a tick, when the alarm is due ([b]) or not. *)
Definition tick_flags (crl : Z) (b : bool) : Z :=
  let c := (crl .| (1 << RTC_CRL_SECF_BIT)) .| (b2z b << RTC_CRL_ALRF_BIT) in
  if negb (cbool (c .& (1 << RTC_CRL_RSF_BIT))) then c .| (1 << RTC_CRL_RSF_BIT) else c.

Lemma tick_flags_alarm crl b : Z.testbit crl 1 = false -> Z.testbit (tick_flags crl b) 1 = b.
Proof.
  intros Hc. unfold tick_flags. destruct (negb _); rewrite !Z.lor_spec, Hc; by destruct b.
Qed.

(** The registers after the counter and the flags are updated. *)
Definition ticked (s : Stm32Rtc) : Stm32Rtc :=
  let v := u32 (count s + 1) in
  let s1 := s <| RTC_CNTL := v .& 0xffff |> <| RTC_CNTH := v >> 16 |> in
  s1 <| RTC_CRL := tick_flags (RTC_CRL s) (stm32_rtc_check_alarm s1) |>.

Lemma tick_enter now s :
  rtc_ok s -> RTC_CRH s = 2 ->
  stm32_rtc_tick now s =
    (stm32_rtc_update_irq ;;
     s ← get;
     on_ptimer (ptimer_set_count now (u32 (prescaler s + 1))) ;;
     on_ptimer (ptimer_run now true)) (ticked s).
Proof.
  intros [Hl Hh _ _] Hcrh. unfold stm32_rtc_tick. rewrite (bind_Done _ _ s s s) by done.
  rewrite halves by done. fold (count s). rewrite Hcrh. set (v := u32 (count s + 1)).
  set (s1 := s <| RTC_CNTL := v .& 0xffff |> <| RTC_CNTH := v >> 16 |>).
  rewrite (bind_Done _ _ s () s1) by done. change (cbool 2) with true.
  change (cbool (2 .& (1 << RTC_CRH_ALRIE_BIT))) with true. cbn [when].
  set (s2 := s1 <| RTC_CRL := RTC_CRL s .| (1 << RTC_CRL_SECF_BIT) |>). rewrite (bind_Done _ _ s1 () s2) by done.
  set (s3 := s2 <| RTC_CRL := (RTC_CRL s .| (1 << RTC_CRL_SECF_BIT)) .| (b2z (stm32_rtc_check_alarm s1) << RTC_CRL_ALRF_BIT) |>).
  rewrite (bind_Done _ _ s2 () s3) by done. rewrite (bind_Done _ _ s3 s3 s3) by done.
  rewrite (bind_Done _ _ s3 () (ticked s)); [reflexivity |]. change (ticked s) with (s1 <| RTC_CRL := tick_flags (RTC_CRL s) (stm32_rtc_check_alarm s1) |>).
  unfold tick_flags. change (RTC_CRL s3) with
    ((RTC_CRL s .| (1 << RTC_CRL_SECF_BIT)) .| (b2z (stm32_rtc_check_alarm s1) << RTC_CRL_ALRF_BIT)).
  destruct (negb _); reflexivity.
Qed.

Lemma ticked_ok s :
  rtc_ok s ->
  rtc_ok (ticked s) /\ count (ticked s) = (count s + 1) mod 2 ^ 32 /\ alarm (ticked s) = alarm s /\
  (Z.testbit (RTC_CRL s) 1 = false ->
   Z.testbit (RTC_CRL (ticked s)) 1 = ((count s + 1) mod 2 ^ 32 =? alarm s)).
Proof.
  intros [Hl Hh Hal Hah]. pose proof (u32_range (count s + 1)) as Hv.
  destruct (split_halves _ Hv) as (Hlo & Hhi & Heq).
  assert (Hok : rtc_ok (ticked s)) by (split; [exact Hlo | exact Hhi | exact Hal | exact Hah]).
  split; [done |]. split; [exact Heq |]. split; [done |]. intros Hc.
  change (RTC_CRL (ticked s)) with (tick_flags (RTC_CRL s)
    ((u32 ((u32 (count s + 1) >> 16) << 16) .| (u32 (count s + 1) .& 0xffff)) =? (u32 (RTC_ALRH s << 16) .| RTC_ALRL s))).
  rewrite tick_flags_alarm by done. rewrite !halves by done. by rewrite Heq.
Qed.

Definition alarm_events (c a : Z) : list dev_event := if c =? a then [SetIrq 0 3; SetIrq 0 0] else [].

Lemma update_irq_alarm s :
  RTC_CRH s = 2 ->
  exists c, stm32_rtc_update_irq s =
      Done () (s <| RTC_CRL := c |>) (if Z.testbit (RTC_CRL s) 1 then [SetIrq 0 3; SetIrq 0 0] else []) /\
    Z.testbit c 1 = false.
Proof.
  intros Hcrh. unfold stm32_rtc_update_irq, rtc_irq_level, mbind, M_bind, get. rewrite Hcrh, level_alarm.
  destruct (Z.testbit (RTC_CRL s) 1) eqn:Hb; cbn [when cbool].
  - exists (RTC_CRL s .& not32 (RTC_CRL_SECF_BIT .| RTC_CRL_ALRF_BIT .| RTC_CRL_OWF_BIT)).
    split; [reflexivity |]. rewrite Z.land_spec. apply andb_false_r.
  - exists (RTC_CRL s). split; [by destruct s | done].
Qed.

(** One tick with only the alarm interrupt enabled. *)
Lemma tick_alarm now s :
  rtc_ok s -> RTC_CRH s = 2 -> Z.testbit (RTC_CRL s) 1 = false ->
  wp (stm32_rtc_tick now) (λ _ s' t, rtc_ok s' /\ RTC_CRH s' = 2 /\ Z.testbit (RTC_CRL s') 1 = false /\
    count s' = (count s + 1) mod 2 ^ 32 /\ alarm s' = alarm s /\
    filter (λ e, is_irq e = true) t = alarm_events ((count s + 1) mod 2 ^ 32) (alarm s)) s.
Proof.
  intros Hok Hcrh Hc. unfold wp. rewrite tick_enter by done.
  destruct (ticked_ok s Hok) as (Hok1 & Hcnt & Hal & Hb).
  destruct (update_irq_alarm (ticked s) Hcrh) as (c & Hrun & Hc1). rewrite (Hb Hc) in Hrun.
  set (s1 := ticked s <| RTC_CRL := c |>) in *.
  destruct (ptimer_ops_done (ptimer s1) now (u32 (prescaler s1 + 1))) as [Hset _].
  destruct (on_ptimer_quiet _ s1 Hset) as (p1 & b1 & t1 & Hop1 & Hq1).
  set (s2 := s1 <| ptimer := p1 |> <| bh_scheduled := b1 |>) in *.
  destruct (ptimer_ops_done (ptimer s2) now 0) as [_ Hgo].
  destruct (on_ptimer_quiet _ s2 Hgo) as (p2 & b2 & t2 & Hop2 & Hq2).
  unfold mbind, M_bind, get. rewrite Hrun, Hop1, Hop2.
  rewrite !filter_app, Hq1, Hq2, app_nil_r. fold (alarm_events ((count s + 1) mod 2 ^ 32) (alarm s)).
  change (count (s2 <| ptimer := p2 |> <| bh_scheduled := b2 |>)) with (count (ticked s)).
  change (alarm (s2 <| ptimer := p2 |> <| bh_scheduled := b2 |>)) with (alarm (ticked s)).
  split; [destruct Hok1; by split |]. split; [done |]. split; [done |].
  split; [done |]. split; [done |]. unfold alarm_events. by destruct (_ =? _).
Qed.

(** ** The properties of the clock *)

(** With only the alarm interrupt enabled, every tick adds one
    to the 32-bit counter, and the interrupt is pulsed at the ticks that bring
    the counter to the alarm value, and at no other. *)
Theorem rtc_alarm (s : Stm32Rtc) (nows : list Z) :
  rtc_ok s -> RTC_CRH s = 2 -> Z.testbit (RTC_CRL s) 1 = false ->
  exists s' t, for_each nows stm32_rtc_tick s = Done () s' t /\
    count s' = (count s + Z.of_nat (length nows)) mod 2 ^ 32 /\ alarm s' = alarm s /\
    filter (λ e, is_irq e = true) t =
      zrange 1 (length nows) ≫= λ k, alarm_events ((count s + k) mod 2 ^ 32) (alarm s).
Proof.
  revert s. induction nows as [|now nows IH]; intros s Hok Hcrh Hc.
  { exists s, []. cbn [for_each length]. rewrite Z.add_0_r, Z.mod_small; [done |].
    destruct Hok. unfold count. lia. }
  destruct (wp_Done _ _ _ (tick_alarm now s Hok Hcrh Hc)) as ([] & s1 & t1 & Hrun & Hok1 & Hcrh1 & Hc1 & Hcnt & Hal & Ht1).
  destruct (IH s1 Hok1 Hcrh1 Hc1) as (s' & t & Hrest & Hcnt' & Hal' & Ht).
  exists s', (t1 ++ t). cbn [for_each length]. split; [by apply (bind_Done_trace _ _ _ () s1) |].
  split; [rewrite Hcnt', Hcnt, Z.add_mod_idemp_l by lia; f_equal; lia |]. split; [congruence |].
  rewrite filter_app, Ht1, Ht, zrange_cons, bind_cons, Hcnt, Hal. f_equal.
  symmetry. apply (zrange_bind_shift 1). intros k. rewrite Z.add_mod_idemp_l by lia. do 2 f_equal. lia.
Qed.

(** A clock whose alarm is set to the second tick. *)
Definition rtc_demo : Stm32Rtc := Eval vm_compute in
  match (stm32_rtc_reset ;; stm32_rtc_write RTC_CRL_OFFSET 0x10 4 ;; stm32_rtc_write RTC_ALRH_OFFSET 0 4 ;;
         stm32_rtc_write RTC_ALRL_OFFSET 2 4 ;; stm32_rtc_write RTC_CRH_OFFSET 2 4)
        (mkRtc STM32_RTC 0 0 0 0 0 0 0 0 (ptimer_init true) false 0 0) with
  | Done _ s _ => s
  | Halt _ => mkRtc 0 0 0 0 0 0 0 0 0 (ptimer_init true) false 0 0
  end.

Lemma rtc_alarm_witness :
  exists s' t, for_each [0; 1; 2] stm32_rtc_tick rtc_demo = Done () s' t /\
    count s' = 3 /\ alarm s' = 2 /\ filter (λ e, is_irq e = true) t = [SetIrq 0 3; SetIrq 0 0].
Proof.
  apply (rtc_alarm rtc_demo [0; 1; 2]); [split; cbn; lia | reflexivity | reflexivity].
Defined.
