(* ===== verification/Memory.v ===== *)
(** * Physical memory as the devices and the processor see it

    The memory layer of the emulator is an interface ([Bus]): an access moves a
    list of bytes.  [ram_bus] is a bus with nothing but memory.  Words are
    stored with the least significant byte first, as the ARM target does. *)

From stdpp Require Import gmap.
From S2P Require Import Prelude.
Open Scope Z_scope.

(** ** The system bus *)

Class Bus (B : Type) : Type := {
  bus_read : B → Z → nat → list Z * B;
  bus_write : B → Z → list Z → B
}.

(** A bus with nothing but memory. *)
Fixpoint ram_write (m : gmap Z Z) (addr : Z) (bs : list Z) : gmap Z Z :=
  match bs with
  | [] => m
  | b :: bs => ram_write (<[addr := b]> m) (addr + 1) bs
  end.

#[export] Instance ram_bus : Bus (gmap Z Z) := {
  bus_read m addr n := ((λ i, default 0 (m !! (addr + Z.of_nat i))) <$> seq 0 n, m);
  bus_write := ram_write
}.

(** ** Words as bytes *)

Fixpoint le_bytes (n : nat) (v : Z) : list Z :=
  match n with O => [] | S n => u8 v :: le_bytes n (v >> 8) end.

Fixpoint of_le (bs : list Z) : Z :=
  match bs with [] => 0 | b :: bs => b .| (of_le bs << 8) end.

(** Accesses of a word in the byte order of the target. *)
Section Words.
  Context {B : Type} `{Bus B}.

Definition lduw_phys (b : B) (addr : Z) : Z * B :=
  let '(bs, b) := bus_read b addr 2 in (of_le bs, b).

Definition ldl_phys (b : B) (addr : Z) : Z * B :=
  let '(bs, b) := bus_read b addr 4 in (of_le bs, b).

Definition stl_phys (b : B) (addr v : Z) : B := bus_write b addr (le_bytes 4 v).

End Words.

Definition is_byte (b : Z) : Prop := 0 <= b < 2 ^ 8.

Lemma le_bytes_length n v : length (le_bytes n v) = n.
Proof. revert v. induction n as [|n IH]; intros v; [done |]. cbn. by rewrite IH. Qed.

Lemma le_bytes_byte n v : Forall is_byte (le_bytes n v).
Proof.
  revert v. induction n as [|n IH]; intros v; constructor; [apply u8_range | apply IH].
Qed.

(** A bit of the first byte or of the others. *)
Lemma of_le_bit b bs i :
  is_byte b -> 0 <= i ->
  Z.testbit (of_le (b :: bs)) i = if i <? 8 then Z.testbit b i else Z.testbit (of_le bs) (i - 8).
Proof.
  intros Hb Hi. cbn [of_le]. rewrite Z.lor_spec, testbit_shiftl by lia. destruct (Z.ltb_spec i 8).
  - rewrite (proj2 (Z.leb_gt 8 i)) by lia. by rewrite orb_false_r.
  - rewrite (proj2 (Z.leb_le 8 i)) by lia. by rewrite (testbit_high 8 b) by (unfold is_byte in Hb; lia).
Qed.

Lemma of_le_le_bytes n v : of_le (le_bytes n v) = v mod 2 ^ (8 * Z.of_nat n).
Proof.
  revert v. induction n as [|n IH]; intros v; [cbn; by rewrite Z.mod_1_r |].
  apply Z.bits_inj'. intros i Hi. cbn [le_bytes].
  rewrite of_le_bit, IH by (lia || apply u8_range). unfold u8.
  rewrite (testbit_mod_pow2 (8 * Z.of_nat (S n))) by lia. destruct (Z.ltb_spec i 8).
  - rewrite testbit_mod_pow2 by lia. by rewrite !(proj2 (Z.ltb_lt i _)) by lia.
  - rewrite testbit_mod_pow2, Z.shiftr_spec, Z.sub_add by lia.
    destruct (Z.ltb_spec (i - 8) (8 * Z.of_nat n)), (Z.ltb_spec i (8 * Z.of_nat (S n))); lia || done.
Qed.

Lemma of_le_app xs ys : of_le (xs ++ ys) = of_le xs .| (of_le ys << (8 * Z.of_nat (length xs))).
Proof.
  induction xs as [|x xs IH]; cbn [app of_le length]; [by rewrite Z.shiftl_0_r |].
  rewrite IH, Z.shiftl_lor, Z.shiftl_shiftl, Z.lor_assoc by lia. do 2 f_equal. lia.
Qed.

Lemma le_bytes_app n k v : le_bytes (n + k) v = le_bytes n v ++ le_bytes k (v >> (8 * Z.of_nat n)).
Proof.
  revert v. induction n as [|n IH]; intros v; cbn [Nat.add le_bytes app]; [by rewrite Z.shiftr_0_r |].
  rewrite IH, Z.shiftr_shiftr by lia. replace (8 + 8 * Z.of_nat n) with (8 * Z.of_nat (S n)) by lia. done.
Qed.

Lemma of_le_nonneg bs : Forall is_byte bs -> 0 <= of_le bs.
Proof.
  induction 1 as [|b bs Hb _ IH]; [done |]. cbn [of_le]. apply Z.lor_nonneg.
  split; [apply Hb | by apply Z.shiftl_nonneg].
Qed.

Lemma le_bytes_of_le bs : Forall is_byte bs -> le_bytes (length bs) (of_le bs) = bs.
Proof.
  induction 1 as [|b bs Hb Hbs IH]; [done |]. cbn [length le_bytes]. f_equal.
  - unfold u8. apply Z.bits_inj'. intros i Hi. rewrite testbit_mod_pow2, of_le_bit by (lia || done).
    destruct (Z.ltb_spec i 8); [done |]. cbn. by rewrite (testbit_high 8 b) by (unfold is_byte in Hb; lia).
  - trans (le_bytes (length bs) (of_le bs)); [f_equal | done]. apply Z.bits_inj'. intros i Hi.
    rewrite Z.shiftr_spec, of_le_bit by (lia || done). rewrite (proj2 (Z.ltb_ge (i + 8) 8)) by lia.
    f_equal. lia.
Qed.

(** Only the low bits of a word are stored. *)
Lemma le_bytes_low n v : le_bytes n (v .& Z.ones (8 * Z.of_nat n)) = le_bytes n v.
Proof.
  rewrite Z.land_ones by lia. rewrite <- of_le_le_bytes.
  pose proof (le_bytes_length n v) as Hl. rewrite <- Hl at 1. apply le_bytes_of_le, le_bytes_byte.
Qed.

Lemma of_le_bound bs : Forall is_byte bs -> 0 <= of_le bs < 2 ^ (8 * Z.of_nat (length bs)).
Proof.
  intros Hbs. rewrite <- (le_bytes_of_le bs Hbs) at 1 2. rewrite of_le_le_bytes.
  apply Z.mod_pos_bound, Z.pow_pos_nonneg; lia.
Qed.

(** ** Memory *)

Definition ram_byte (m : gmap Z Z) (a : Z) : Z := default 0 (m !! a).

(** The bytes of the memory are bytes. *)
Definition ram_ok (m : gmap Z Z) : Prop := forall a, is_byte (ram_byte m a).

Lemma ram_write_before m addr bs a : a < addr -> ram_write m addr bs !! a = m !! a.
Proof.
  revert m addr. induction bs as [|b bs IH]; intros m addr Ha; [done |]. cbn [ram_write].
  rewrite IH by lia. apply lookup_insert_ne. lia.
Qed.

Lemma ram_write_lookup m addr bs a :
  ram_write m addr bs !! a =
    if (addr <=? a) && (a <? addr + Z.of_nat (length bs)) then bs !! Z.to_nat (a - addr) else m !! a.
Proof.
  revert m addr. induction bs as [|b bs IH]; intros m addr; cbn [ram_write length].
  { destruct (Z.leb_spec addr a), (Z.ltb_spec a (addr + Z.of_nat 0)); done || lia. }
  destruct (decide (a < addr)) as [Hlt | Hge].
  { rewrite ram_write_before, lookup_insert_ne by lia. by rewrite (proj2 (Z.leb_gt addr a)) by lia. }
  rewrite IH. rewrite (proj2 (Z.leb_le addr a)) by lia. cbn [andb].
  destruct (decide (a = addr)) as [-> |].
  - rewrite (proj2 (Z.leb_gt (addr + 1) addr)) by lia. cbn [andb].
    rewrite (proj2 (Z.ltb_lt addr _)) by lia. by rewrite lookup_insert_eq, Z.sub_diag.
  - rewrite (proj2 (Z.leb_le (addr + 1) a)) by lia. cbn [andb].
    destruct (Z.ltb_spec a (addr + 1 + Z.of_nat (length bs))), (Z.ltb_spec a (addr + Z.of_nat (S (length bs)))); try lia.
    + replace (Z.to_nat (a - addr)) with (S (Z.to_nat (a - (addr + 1)))) by lia. done.
    + apply lookup_insert_ne. lia.
Qed.

Lemma ram_read_bytes m addr n : fst (bus_read m addr n) = (λ i, ram_byte m (addr + Z.of_nat i)) <$> seq 0 n.
Proof. done. Qed.

Lemma ram_write_ok m addr bs : ram_ok m -> Forall is_byte bs -> ram_ok (ram_write m addr bs).
Proof.
  intros Hm Hbs a. unfold ram_byte. rewrite ram_write_lookup. case_match; [| apply Hm].
  destruct (bs !! Z.to_nat (a - addr)) as [b |] eqn:Hb; cbn; [| unfold is_byte; lia].
  by apply (proj1 (Forall_lookup _ _) Hbs _ _ Hb).
Qed.

(** The bytes of a range. *)
Definition bytes_at (m : gmap Z Z) (addr : Z) (n : nat) : list Z := (λ i, ram_byte m (addr + Z.of_nat i)) <$> seq 0 n.

Lemma bytes_at_byte m addr n : ram_ok m -> Forall is_byte (bytes_at m addr n).
Proof. intros Hm. apply Forall_fmap, Forall_forall. intros i _. apply Hm. Qed.

Lemma bytes_at_length m addr n : length (bytes_at m addr n) = n.
Proof. unfold bytes_at. by rewrite length_fmap, length_seq. Qed.

Lemma bytes_at_lookup m addr n j : (j < n)%nat -> bytes_at m addr n !! j = Some (ram_byte m (addr + Z.of_nat j)).
Proof. intros Hj. unfold bytes_at. by rewrite list_lookup_fmap, lookup_seq_lt by done. Qed.

Lemma bytes_at_app m addr n k :
  bytes_at m addr (n + k) = bytes_at m addr n ++ bytes_at m (addr + Z.of_nat n) k.
Proof.
  apply list_eq. intros i. rewrite lookup_app. unfold bytes_at. rewrite !list_lookup_fmap.
  destruct (decide (i < n)%nat).
  { by rewrite !lookup_seq_lt by lia. }
  rewrite (lookup_seq_ge _ n) by lia. cbn [fmap option_fmap option_map]. rewrite length_fmap, length_seq.
  destruct (decide (i < n + k)%nat).
  - rewrite !lookup_seq_lt by lia. cbn [fmap option_fmap option_map]. apply (f_equal (λ a, Some (ram_byte m a))). lia.
  - by rewrite !lookup_seq_ge by lia.
Qed.

Lemma ram_write_app m addr xs ys :
  ram_write m addr (xs ++ ys) = ram_write (ram_write m addr xs) (addr + Z.of_nat (length xs)) ys.
Proof.
  revert m addr. induction xs as [|x xs IH]; intros m addr; cbn [app ram_write length].
  { by rewrite Z.add_0_r. }
  rewrite IH. f_equal. lia.
Qed.

(** A word reads back what was stored. *)
Lemma ldl_stl m a v : fst (ldl_phys (stl_phys m a v) a) = u32 v.
Proof.
  unfold ldl_phys, stl_phys. cbn [bus_read bus_write ram_bus fst].
  trans (of_le (le_bytes 4 v)); [| by rewrite of_le_le_bytes].
  f_equal. apply list_eq. intros i. rewrite list_lookup_fmap.
  destruct (decide (i < 4)%nat) as [Hi |].
  - rewrite lookup_seq_lt by done. cbn [fmap option_fmap option_map Nat.add].
    rewrite ram_write_lookup, le_bytes_length.
    rewrite (proj2 (Z.leb_le _ _)), (proj2 (Z.ltb_lt _ _)) by lia. cbn [andb].
    replace (Z.to_nat (a + Z.of_nat i - a)) with i by lia.
    destruct (lookup_lt_is_Some_2 (le_bytes 4 v) i) as [b Hb]; [by rewrite le_bytes_length |].
    by rewrite Hb.
  - rewrite lookup_seq_ge by lia. symmetry. apply lookup_ge_None. rewrite le_bytes_length. lia.
Qed.

(** A word depends on its four bytes. *)
Lemma ldl_ext m m' a :
  (forall i, a <= i < a + 4 -> m' !! i = m !! i) -> fst (ldl_phys m' a) = fst (ldl_phys m a).
Proof.
  intros Heq. unfold ldl_phys. cbn [bus_read ram_bus fst]. f_equal. apply list_fmap_ext.
  intros i j Hj%lookup_seq. by rewrite Heq by lia.
Qed.

Lemma stl_outside m a v i : ~ a <= i < a + 4 -> stl_phys m a v !! i = m !! i.
Proof.
  intros Hi. unfold stl_phys. cbn [bus_write ram_bus]. rewrite ram_write_lookup, le_bytes_length.
  destruct (Z.leb_spec a i), (Z.ltb_spec i (a + Z.of_nat 4)); done || lia.
Qed.

Lemma ldl_same (m : gmap Z Z) a : snd (ldl_phys m a) = m.
Proof. done. Qed.
