(* ===== verification/Dma.v ===== *)
(** * DMA controller ([hw/arm/stm32_dma.c])

    The system bus ([cpu_physical_memory_read] and [cpu_physical_memory_write])
    is the interface [Bus]: a read may change the bus, since it may reach a
    device.
    Output line [i] is the interrupt of stream [i + 1]; timer 0 is the timer of
    the circular mode.  [buf] in [stm32_dma_stream_start_once] is not
    initialised: the byte that a transfer from one byte to two sends on is the
    parameter [stale]. *)

From S2P Require Import Prelude Stm32 Memory.
From stdpp Require Import gmap.
Open Scope Z_scope.

Definition R_DMA_ISR : Z := 0x00.
Definition R_DMA_IFCR : Z := 0x04.
Definition DMA_Stream_Count : Z := 8.
Definition DMA_Perstream_Reg_Num : Z := 4.
Definition DMA_Perstream_Reg_Size : Z := 4.
Definition DMA_Perstream_Reg_Total_Size : Z := DMA_Perstream_Reg_Num * DMA_Perstream_Reg_Size.
Definition DMA_Stream_Reg_Total_Size : Z := DMA_Stream_Count * DMA_Perstream_Reg_Total_Size.
Definition DMA_Register_Count : Z := 2.
Definition DMA_Register_Size : Z := 4.
Definition DMA_Total_Size : Z := DMA_Register_Count * DMA_Register_Size.
Definition DMA_Reg_Total_Size : Z := DMA_Stream_Reg_Total_Size + DMA_Total_Size.
Definition DMA_Circular_delay : Z := 1000000.
Definition R_DMA_SxCR : Z := 0x00.
Definition R_DMA_SxNDTR : Z := 0x04.
Definition R_DMA_SxPAR : Z := 0x08.
Definition R_DMA_SxMAR : Z := 0x0c.
Definition R_DMA_MAX : Z := 0xd0 / 4.
Definition DMA_ISR_TCIF : Z := 0x0002.
Definition DMA_CCR_EN : Z := 0x0001.
Definition DMA_CCR_TCIE : Z := 0x0002.
Definition DMA_CCR_DIR : Z := 0x0010.
Definition DMA_CCR_CIRC : Z := 0x0020.
Definition DMA_CCR_PINC : Z := 0x0040.
Definition DMA_CCR_MINC : Z := 0x0080.
Definition DMA_CCR_MEM2MEM : Z := 0x4000.

Record stm32_dma_stream : Type := mkStream {
  cr : Z;
  ndtr : Z;
  par : Z;
  mar : Z;
  circular_par : Z;
  circular_mar : Z;
  circular_ndtr : Z
}.

#[export] Instance stm32_dma_stream_settable : Settable stm32_dma_stream := λ s,
  mkStream (cr s) (ndtr s) (par s) (mar s) (circular_par s) (circular_mar s) (circular_ndtr s).

Definition msize_table : list Z := [1; 0; 2; 0].

Section Dma.
  Context {B : Type} `{Bus B} (stale : Z).

Record stm32_dma : Type := mkDma {
  chan_circular_mode : Z;
  isr : Z;
  ifcr : Z;
  stream : list stm32_dma_stream;
  bus : B
}.

#[export] Instance stm32_dma_settable : Settable stm32_dma := λ s,
  mkDma (chan_circular_mode s) (isr s) (ifcr s) (stream s) (bus s).

Abbreviation DmaM := (M dev_event stm32_dma).

(** [s->stream[i]] *)
Definition get_stream (i : Z) : DmaM stm32_dma_stream :=
  s ← get;
  if (0 <=? i) && (i <? DMA_Stream_Count) then
    match stream s !! Z.to_nat i with Some x => mret x | None => halt OutOfBounds end
  else halt OutOfBounds.

Definition set_stream (i : Z) (f : stm32_dma_stream → stm32_dma_stream) : DmaM unit :=
  modify (λ s, s <| stream := alter f (Z.to_nat i) (stream s) |>).

(** ** Transfers *)

Definition dma_find_channel (s : stm32_dma) (address search_in_dest : Z) : Z :=
  match list_find (λ x, (if cbool search_in_dest then mar x else par x) = address)
          (take (Z.to_nat DMA_Stream_Count) (stream s)) with
  | Some (i, _) => Z.of_nat i + 1
  | None => -1
  end.

(** One access to the bus: [src_size] bytes are read to [buf], [dest_size]
    bytes of [buf] are written. *)
Definition transfer (src src_size dest dest_size : Z) : DmaM unit :=
  s ← get;
  let '(bs, b) := bus_read (bus s) src (Z.to_nat src_size) in
  let buf := take 2 (bs ++ [stale; stale]) in
  put (s <| bus := bus_write b dest (take (Z.to_nat dest_size) buf) |>).

Definition stm32_dma_stream_start_once (stream_no : Z) (skip_enabled_check : bool) : DmaM unit :=
  let n := u32 (stream_no - 1) in
  s_stream ← get_stream n;
  let psize := default 0 (msize_table !! Z.to_nat ((cr s_stream >> 8) .& 0x3)) in
  let msize := default 0 (msize_table !! Z.to_nat ((cr s_stream >> 10) .& 0x3)) in
  (if (psize =? 0) || (msize =? 0) then halt HwError else mret ()) ;;
  if negb skip_enabled_check && negb (cbool (cr s_stream .& DMA_CCR_EN)) then mret () else
  set_stream n (λ x, x <| ndtr := u32 (ndtr x - 1) |>) ;;
  (if cbool (cr s_stream .& DMA_CCR_DIR) then transfer (mar s_stream) msize (par s_stream) psize
   else transfer (par s_stream) psize (mar s_stream) msize) ;;
  when (cbool (cr s_stream .& DMA_CCR_PINC)) (set_stream n (λ x, x <| par := u32 (par x + psize) |>)) ;;
  when (cbool (cr s_stream .& DMA_CCR_MINC)) (set_stream n (λ x, x <| mar := u32 (mar x + msize) |>)) ;;
  s_stream ← get_stream n;
  when (ndtr s_stream =? 0)
    (when (cr s_stream .& DMA_CCR_CIRC =? 0) (set_stream n (λ x, x <| cr := cr x .& not32 DMA_CCR_EN |>)) ;;
     modify (λ s, s <| isr := isr s .| u32 (DMA_ISR_TCIF << (n * 4)) |>) ;;
     when (cbool (cr s_stream .& DMA_CCR_TCIE))
       (if cr s_stream .& DMA_CCR_CIRC =? 0 then emit (SetIrq n 1) ;; emit (SetIrq n 0)
        else emit (Report Message))).

(** The loop; each round with [skip_enabled_check] set decrements the count. *)
Fixpoint stm32_dma_stream_start_whole (fuel : nat) (stream_no : Z) (skip_enabled_check : bool) : DmaM unit :=
  match fuel with
  | O => halt OutOfFuel
  | S fuel =>
      x ← get_stream (stream_no - 1);
      if ndtr x =? 0 then mret ()
      else stm32_dma_stream_start_once stream_no skip_enabled_check ;;
           stm32_dma_stream_start_whole fuel stream_no skip_enabled_check
  end.

Definition stm32_dma_stream_circular_timer (now : Z) : DmaM unit :=
  chan ← gets chan_circular_mode;
  let n := u32 (chan - 1) in
  _ ← get_stream n;
  stm32_dma_stream_start_once chan false ;;
  s_stream ← get_stream n;
  when ((ndtr s_stream =? 0) && cbool (cr s_stream .& DMA_CCR_CIRC))
    (set_stream n (λ x, x <| mar := circular_mar x |> <| par := circular_par x |>
                          <| ndtr := circular_ndtr x |> <| cr := cr x .| DMA_CCR_EN |>)) ;;
  s_stream ← get_stream n;
  when (negb (cr s_stream .& DMA_CCR_EN =? 0)) (emit (TimerMod 0 (now + DMA_Circular_delay))).

(** The request line from USART1. *)
Definition dma_irq_handler (n level : Z) : DmaM unit :=
  s ← get;
  if level =? 0x00 then mret ()
  else if level =? 0x10 then
    let channel := dma_find_channel s (0x40013800 + 0x04) 1 in
    if channel =? -1 then halt HwError else stm32_dma_stream_start_once channel false
  else if level =? 0x11 then
    let channel := dma_find_channel s (0x40013800 + 0x04) 0 in
    if channel =? -1 then halt HwError else stm32_dma_stream_start_once channel false
  else halt HwError.

(** ** Registers *)

Definition stm32_dma_stream_read (x : stm32_dma_stream) (reg : Z) : DmaM Z :=
  if reg =? R_DMA_SxCR then mret (cr x) else emit (Report Message) ;; mret 0.

Definition stm32_dma_read (addr size : Z) : DmaM Z :=
  (if negb (size =? 4) then halt HwError else mret ()) ;;
  (if negb (addr .& 0x3 =? 0) then halt HwError else mret ()) ;;
  let stream_no := (addr - 8) >> 4 in
  if R_DMA_MAX <=? addr then halt HwError
  else if addr =? R_DMA_ISR then gets isr
  else if addr =? R_DMA_IFCR then gets ifcr
  else
    x ← get_stream stream_no;
    stm32_dma_stream_read x ((addr - DMA_Total_Size) mod DMA_Perstream_Reg_Total_Size).

Definition stm32_dma_stream_write (now stream_no addr data : Z) : DmaM unit :=
  x ← get_stream stream_no;
  if addr =? R_DMA_SxCR then
    when ((cr x .& DMA_CCR_EN =? 0) && negb (data .& DMA_CCR_EN =? 0))
      (if negb (data .& DMA_CCR_MEM2MEM =? 0) then
         stm32_dma_stream_start_whole (S (Z.to_nat (ndtr x))) (stream_no + 1) true
       else when (cbool (data .& DMA_CCR_CIRC))
         ((if cbool (data .& DMA_CCR_DIR) then halt HwError else mret ()) ;;
          s ← get;
          (if negb (chan_circular_mode s =? 0) then halt HwError else mret ()) ;;
          modify (λ s, s <| chan_circular_mode := stream_no + 1 |>) ;;
          emit (TimerMod 0 (now + DMA_Circular_delay)))) ;;
    set_stream stream_no (λ x, x <| cr := data |>)
  else if addr =? R_DMA_SxNDTR then
    (if cbool (cr x .& DMA_CCR_EN) then halt HwError else mret ()) ;;
    set_stream stream_no (λ x, x <| circular_ndtr := data |> <| ndtr := data |>)
  else if addr =? R_DMA_SxPAR then
    set_stream stream_no (λ x, x <| circular_par := data |> <| par := data |>)
  else if addr =? R_DMA_SxMAR then
    set_stream stream_no (λ x, x <| circular_mar := data |> <| mar := data |>)
  else mret ().

Definition stm32_dma_write (now addr data size : Z) : DmaM unit :=
  (if negb (size =? 4) then halt HwError else mret ()) ;;
  (if negb (addr .& 0x3 =? 0) then halt HwError else mret ()) ;;
  let stream_no := (addr - 8) >> 4 in
  if addr =? R_DMA_ISR then halt HwError
  else if addr =? R_DMA_IFCR then modify (λ s, s <| ifcr := u32 data |>)
  else if (R_DMA_ISR <=? addr) && (addr <? DMA_Reg_Total_Size) then
    stm32_dma_stream_write now stream_no ((addr - DMA_Total_Size) mod DMA_Perstream_Reg_Total_Size) (u32 data)
  else halt HwError.

Definition stm32_dma_reset : DmaM unit :=
  modify (λ s, s <| ifcr := 0 |>) ;;
  modify (λ s, s <| chan_circular_mode := 0 |>) ;;
  for_each (zrange 0 (Z.to_nat DMA_Stream_Count)) (λ i, set_stream i (λ _, mkStream 0 0 0 0 0 0 0)).

End Dma.

Arguments stm32_dma B : clear implicits.
Abbreviation RamM := (M dev_event (stm32_dma (gmap Z Z))).

(** ** Memory to memory transfers *)

(** A stream set up for bytes, from PAR to MAR, not circular. *)
Record byte_stream (x : stm32_dma_stream) : Prop := {
  bs_psize : (cr x >> 8) .& 0x3 = 0;
  bs_msize : (cr x >> 10) .& 0x3 = 0;
  bs_dir : cbool (cr x .& DMA_CCR_DIR) = false;
  bs_circ : (cr x .& DMA_CCR_CIRC =? 0) = true
}.

Definition pstep (x : stm32_dma_stream) : Z := b2z (cbool (cr x .& DMA_CCR_PINC)).
Definition mstep (x : stm32_dma_stream) : Z := b2z (cbool (cr x .& DMA_CCR_MINC)).

(** The stream after one byte, and the memory. *)
Definition advance (x : stm32_dma_stream) : stm32_dma_stream :=
  x <| ndtr := ndtr x - 1 |> <| par := u32 (par x + pstep x) |> <| mar := u32 (mar x + mstep x) |>.

Definition finish (x : stm32_dma_stream) : stm32_dma_stream := x <| cr := cr x .& not32 DMA_CCR_EN |>.

Definition copy_byte (x : stm32_dma_stream) (m : gmap Z Z) : gmap Z Z :=
  <[mar x := default 0 (m !! par x)]> m.

Record stream_ok (x : stm32_dma_stream) : Prop := {
  so_ndtr : 0 <= ndtr x < 2 ^ 32;
  so_par : 0 <= par x < 2 ^ 32;
  so_mar : 0 <= mar x < 2 ^ 32
}.

Lemma get_stream_Some {B : Type} (s : stm32_dma B) (i : nat) x :
  (i < 8)%nat -> stream s !! i = Some x -> get_stream (Z.of_nat i) s = Done x s [].
Proof.
  intros Hi Hx. unfold get_stream, mbind, M_bind, get, DMA_Stream_Count.
  rewrite between_true by lia. by rewrite Nat2Z.id, Hx.
Qed.

Lemma alter_Some {A} (f : A → A) (l : list A) i x : l !! i = Some x -> alter f i l = <[i := f x]> l.
Proof.
  revert i. induction l as [|y l IH]; intros [|i] Hx; try done; [by injection Hx as -> |].
  change (y :: alter f i l = y :: <[i := f x]> l). f_equal. by apply IH.
Qed.

Definition with_stream {B : Type} (s : stm32_dma B) (i : nat) (x : stm32_dma_stream) : stm32_dma B :=
  s <| stream := <[i := x]> (stream s) |>.

Lemma with_stream_lookup {B : Type} (s : stm32_dma B) i x y :
  stream s !! i = Some y -> stream (with_stream s i x) !! i = Some x.
Proof. intros Hy. apply list_lookup_insert_eq. by eapply lookup_lt_Some. Qed.

Lemma with_stream_twice {B : Type} (s : stm32_dma B) i x y :
  with_stream (with_stream s i x) i y = with_stream s i y.
Proof. unfold with_stream. destruct s. cbn. by rewrite list_insert_insert_eq. Qed.

Lemma set_stream_ok {B : Type} (s : stm32_dma B) i x f :
  stream s !! i = Some x -> set_stream (Z.of_nat i) f s = Done () (with_stream s i (f x)) [].
Proof. intros Hx. unfold set_stream, modify, with_stream. by rewrite Nat2Z.id, (alter_Some f _ i x). Qed.

Lemma with_stream_same {B : Type} (s : stm32_dma B) i x : stream s !! i = Some x -> with_stream s i x = s.
Proof. intros Hx. unfold with_stream. rewrite list_insert_id by done. by destruct s. Qed.

Lemma transfer_byte stale src dst (s : stm32_dma (gmap Z Z)) :
  transfer stale src 1 dst 1 s = Done () (s <| bus := <[dst := default 0 (bus s !! src)]> (bus s) |>) [].
Proof.
  unfold transfer, mbind, M_bind, get, put. cbn [bus_read bus_write ram_bus]. change (Z.to_nat 1) with 1%nat.
  cbn [seq fmap list_fmap app take ram_write Z.of_nat]. by rewrite Z.add_0_r.
Qed.

(** An increment of an address register, when it is enabled. *)
Lemma increment_ok {B : Type} (s : stm32_dma B) (i : nat) x (b : bool) f (y : stm32_dma_stream) :
  stream s !! i = Some x -> y = (if b then f x else x) ->
  when b (set_stream (Z.of_nat i) f) s = Done () (with_stream s i y) [].
Proof.
  intros Hx ->. destruct b; cbn [when]; [by apply set_stream_ok |]. by rewrite with_stream_same.
Qed.

(** The effects of the last byte: the flag and, when enabled, the interrupt. *)
Definition complete_isr (i : nat) (v : Z) : Z := v .| u32 (DMA_ISR_TCIF << (Z.of_nat i * 4)).

Definition complete_events (i : nat) (x : stm32_dma_stream) : list dev_event :=
  if cbool (cr x .& DMA_CCR_TCIE) then [SetIrq (Z.of_nat i) 1; SetIrq (Z.of_nat i) 0] else [].

Definition once_result (s : stm32_dma (gmap Z Z)) (i : nat) (x : stm32_dma_stream) : stm32_dma (gmap Z Z) :=
  let s1 := with_stream s i (advance x) <| bus := copy_byte x (bus s) |> in
  if ndtr x =? 1 then with_stream s1 i (finish (advance x)) <| isr := complete_isr i (isr s) |> else s1.

Lemma once_byte stale (s : stm32_dma (gmap Z Z)) (i : nat) x :
  (i < 8)%nat -> stream s !! i = Some x -> byte_stream x -> stream_ok x -> 0 < ndtr x ->
  stm32_dma_stream_start_once stale (Z.of_nat i + 1) true s =
    Done () (once_result s i x) (if ndtr x =? 1 then complete_events i x else []).
Proof.
  intros Hi Hx [Hps Hms Hdir Hcirc] [Hn Hp Hm] Hpos. unfold stm32_dma_stream_start_once. cbv zeta.
  rewrite Z.add_simpl_r, (u32_small (Z.of_nat i)) by lia.
  rewrite (bind_Done _ _ s x s) by (by apply get_stream_Some). rewrite Hps, Hms, Hdir.
  change (default 0 (msize_table !! Z.to_nat 0)) with 1. cbn [Z.eqb orb negb andb].
  rewrite (bind_Done _ _ s () s) by done.
  rewrite (bind_Done _ _ s () (with_stream s i (x <| ndtr := ndtr x - 1 |>))).
  2:{ rewrite (set_stream_ok s i x) by done. by rewrite (u32_small (ndtr x - 1)) by lia. }
  set (x1 := x <| ndtr := ndtr x - 1 |>). set (s1 := with_stream s i x1).
  set (s2 := s1 <| bus := copy_byte x (bus s) |>).
  rewrite (bind_Done _ _ s1 () s2) by apply transfer_byte.
  assert (Hx1 : stream s2 !! i = Some x1) by (by eapply with_stream_lookup).
  set (x2 := x1 <| par := u32 (par x + pstep x) |>).
  rewrite (bind_Done _ _ s2 () (with_stream s2 i x2)).
  2:{ apply (increment_ok s2 i x1); [done |]. unfold x2, pstep.
      destruct (cbool (cr x .& DMA_CCR_PINC)); cbn [b2z]; [done |].
      rewrite Z.add_0_r, u32_small by lia. by destruct x. }
  set (s3 := with_stream s2 i x2).
  assert (Hx2 : stream s3 !! i = Some x2) by (by eapply with_stream_lookup).
  rewrite (bind_Done _ _ s3 () (with_stream s3 i (advance x))).
  2:{ apply (increment_ok s3 i x2); [done |]. unfold x2, x1, advance, mstep.
      destruct (cbool (cr x .& DMA_CCR_MINC)); cbn [b2z]; [done |].
      rewrite Z.add_0_r, (u32_small (mar x)) by lia. by destruct x. }
  unfold s3. rewrite !with_stream_twice.
  set (s4 := with_stream s2 i (advance x)).
  assert (Hx4 : stream s4 !! i = Some (advance x)) by (by eapply with_stream_lookup).
  rewrite (bind_Done _ _ s4 (advance x) s4) by (by apply get_stream_Some).
  assert (Hs4 : s4 = with_stream s i (advance x) <| bus := copy_byte x (bus s) |>).
  { unfold s4, s2, s1, with_stream. destruct s. cbn. by rewrite list_insert_insert_eq. }
  unfold once_result, complete_events. rewrite <- Hs4.
  change (ndtr (advance x)) with (ndtr x - 1). change (cr (advance x)) with (cr x).
  destruct (Z.eqb_spec (ndtr x) 1) as [H1 |].
  2:{ rewrite (proj2 (Z.eqb_neq (ndtr x - 1) 0)) by lia. done. }
  rewrite H1. change (1 - 1 =? 0) with true. rewrite Hcirc. cbn [when].
  rewrite (bind_Done _ _ s4 () (with_stream s4 i (finish (advance x)))) by (by apply set_stream_ok).
  unfold mbind, M_bind, modify. change (isr (with_stream s4 i (finish (advance x)))) with (isr s).
  destruct (cbool (cr x .& DMA_CCR_TCIE)); reflexivity.
Qed.

Fixpoint advanced (n : nat) (x : stm32_dma_stream) : stm32_dma_stream :=
  match n with O => x | S n => advanced n (advance x) end.

Fixpoint copied (n : nat) (x : stm32_dma_stream) (m : gmap Z Z) : gmap Z Z :=
  match n with O => m | S n => copied n (advance x) (copy_byte x m) end.

Lemma advance_ok x : stream_ok x -> 0 < ndtr x -> stream_ok (advance x).
Proof. intros [Hn Hp Hm] Hpos. split; cbn -[u32]; [lia | apply u32_range | apply u32_range]. Qed.

Lemma advance_byte x : byte_stream x -> byte_stream (advance x).
Proof. intros []. by split. Qed.

Definition whole_result (s : stm32_dma (gmap Z Z)) (i n : nat) (x : stm32_dma_stream) : stm32_dma (gmap Z Z) :=
  with_stream s i (finish (advanced n x)) <| bus := copied n x (bus s) |> <| isr := complete_isr i (isr s) |>.

Lemma whole_step {B : Type} `{Bus B} stale fuel stream_no skip :
  stm32_dma_stream_start_whole stale (S fuel) stream_no skip =
    (x ← get_stream (stream_no - 1);
     if ndtr x =? 0 then mret ()
     else stm32_dma_stream_start_once stale stream_no skip ;;
          stm32_dma_stream_start_whole stale fuel stream_no skip).
Proof. reflexivity. Qed.

Lemma whole_byte stale (i n : nat) x (s : stm32_dma (gmap Z Z)) :
  (i < 8)%nat -> stream s !! i = Some x -> byte_stream x -> stream_ok x -> ndtr x = Z.of_nat (S n) ->
  stm32_dma_stream_start_whole stale (S (S n)) (Z.of_nat i + 1) true s =
    Done () (whole_result s i (S n) x) (complete_events i x).
Proof.
  intros Hi. revert x s. induction n as [|n IH]; intros x s Hx Hb Ho Hn;
    assert (Hpos : 0 < ndtr x) by (rewrite Hn; lia);
    rewrite whole_step, Z.add_simpl_r;
    rewrite (bind_Done _ _ s x s) by (by apply get_stream_Some);
    rewrite (proj2 (Z.eqb_neq (ndtr x) 0)) by (clear -Hpos; lia).
  - assert (H1 : ndtr x = 1) by lia.
    eapply eq_trans; [eapply bind_Done_trace; [exact (once_byte stale s i x Hi Hx Hb Ho Hpos) |] |].
    + unfold once_result. rewrite H1, Z.eqb_refl, whole_step, Z.add_simpl_r.
      erewrite bind_Done by (apply get_stream_Some; [done |]; eapply with_stream_lookup, with_stream_lookup, Hx).
      change (ndtr (finish (advance x))) with (ndtr x - 1). rewrite H1. reflexivity.
    + rewrite H1, Z.eqb_refl, app_nil_r. unfold whole_result. cbn [advanced copied]. f_equal.
      unfold with_stream. destruct s. cbn. by rewrite list_insert_insert_eq.
  - assert (Hne : ndtr x <> 1) by lia.
    rewrite (bind_Done _ _ s () (once_result s i x))
      by (rewrite (once_byte stale s i x Hi Hx Hb Ho Hpos), (proj2 (Z.eqb_neq (ndtr x) 1) Hne); done).
    unfold once_result. rewrite (proj2 (Z.eqb_neq (ndtr x) 1) Hne).
    set (s1 := with_stream s i (advance x) <| bus := copy_byte x (bus s) |>).
    rewrite (IH (advance x) s1); [| by eapply with_stream_lookup | by apply advance_byte | apply advance_ok; [done | lia] | cbn; lia].
    f_equal. unfold whole_result. cbn [advanced copied]. unfold s1, with_stream. destruct s. cbn.
    by rewrite list_insert_insert_eq.
Qed.

(** The address of the CR register of a stream. *)
Definition stream_cr (i : nat) : Z := 8 + 16 * Z.of_nat i.

Definition starts_mem2mem (data : Z) : Prop :=
  0 <= data < 2 ^ 32 /\ (data .& DMA_CCR_EN =? 0) = false /\ (data .& DMA_CCR_MEM2MEM =? 0) = false.

Lemma CR_write_mem2mem stale now data (i : nat) x (s : stm32_dma (gmap Z Z)) :
  (i < 8)%nat -> stream s !! i = Some x -> byte_stream x -> stream_ok x -> 0 < ndtr x ->
  (cr x .& DMA_CCR_EN =? 0) = true -> starts_mem2mem data ->
  let n := Z.to_nat (ndtr x) in
  stm32_dma_write stale now (stream_cr i) data 4 s =
    Done () (with_stream (whole_result s i n x) i (finish (advanced n x) <| cr := data |>)) (complete_events i x).
Proof.
  intros Hi Hx Hb Ho Hpos Hen (Hd & Hden & Hdm) n.
  assert (Haddr : (stream_cr i .& 0x3 =? 0) = true /\ (stream_cr i - 8) >> 4 = Z.of_nat i /\
    (stream_cr i - DMA_Total_Size) mod DMA_Perstream_Reg_Total_Size = 0 /\ (stream_cr i =? R_DMA_ISR) = false /\
    (stream_cr i =? R_DMA_IFCR) = false /\ (R_DMA_ISR <=? stream_cr i) && (stream_cr i <? DMA_Reg_Total_Size) = true).
  { clear -Hi. do 8 (destruct i as [|i]; [by vm_compute |]). lia. }
  destruct Haddr as (H1 & H2 & H3 & H4 & H5 & H6).
  unfold stm32_dma_write. rewrite H1, H2, H3, H4, H5, H6, u32_small by lia. cbn [negb Z.eqb Pos.eqb].
  rewrite !(bind_Done _ _ s () s) by done. unfold stm32_dma_stream_write.
  rewrite (bind_Done _ _ s x s) by (by apply get_stream_Some). change (0 =? R_DMA_SxCR) with true. cbv iota.
  rewrite Hen, Hden, Hdm. cbn [andb negb when]. fold n.
  assert (Hn : exists k, n = S k) by (exists (pred n); lia). destruct Hn as [k Hk].
  eapply eq_trans; [eapply bind_Done_trace |].
  - rewrite Hk. apply whole_byte; try done. lia.
  - apply (set_stream_ok _ i (finish (advanced (S k) x))). by eapply with_stream_lookup.
  - by rewrite app_nil_r, Hk.
Qed.

(** Bytes copied one after the other. *)
Lemma copied_spec (n : nat) x (m : gmap Z Z) (a : Z) :
  pstep x = 1 -> mstep x = 1 -> 0 <= par x -> 0 <= mar x ->
  par x + Z.of_nat n <= 2 ^ 32 -> mar x + Z.of_nat n <= 2 ^ 32 ->
  par x + Z.of_nat n <= mar x \/ mar x + Z.of_nat n <= par x ->
  default 0 (copied n x m !! a) =
    if (mar x <=? a) && (a <? mar x + Z.of_nat n) then default 0 (m !! (par x + (a - mar x)))
    else default 0 (m !! a).
Proof.
  revert x m. induction n as [|n IH]; intros x m Hp Hm Hp0 Hm0 Hpn Hmn Hd; cbn [copied].
  { rewrite between_false by lia. done. }
  destruct (decide (n = 0%nat)) as [-> |].
  { cbn [copied]. unfold copy_byte. destruct (decide (a = mar x)) as [-> | Hne].
    - rewrite between_true by lia. by rewrite lookup_insert_eq, Z.sub_diag, Z.add_0_r.
    - rewrite between_false by lia. by rewrite lookup_insert_ne by done. }
  assert (Hpar : par (advance x) = par x + 1) by (cbn -[u32]; rewrite Hp, u32_small by lia; done).
  assert (Hmar : mar (advance x) = mar x + 1) by (cbn -[u32]; rewrite Hm, u32_small by lia; done).
  rewrite IH; [| exact Hp | exact Hm | lia ..]. rewrite Hpar, Hmar. unfold copy_byte.
  destruct (decide (a = mar x)) as [-> | Hne].
  - rewrite between_false, between_true by lia. by rewrite lookup_insert_eq, Z.sub_diag, Z.add_0_r.
  - rewrite (lookup_insert_ne _ (mar x) a) by done.
    destruct (decide (mar x <= a < mar x + Z.of_nat (S n))).
    + rewrite !between_true by lia. rewrite lookup_insert_ne by lia. do 2 f_equal. lia.
    + rewrite !between_false by lia. done.
Qed.

(** Without increments every byte is the same one. *)
Lemma copied_still (n : nat) x (m : gmap Z Z) :
  pstep x = 0 -> mstep x = 0 -> 0 <= par x < 2 ^ 32 -> 0 <= mar x < 2 ^ 32 -> copied (S n) x m = copy_byte x m.
Proof.
  revert x m. induction n as [|n IH]; intros x m Hp Hm Hpr Hmr; [done |].
  assert (Hpar : par (advance x) = par x) by (cbn -[u32]; by rewrite Hp, Z.add_0_r, u32_small by lia).
  assert (Hmar : mar (advance x) = mar x) by (cbn -[u32]; by rewrite Hm, Z.add_0_r, u32_small by lia).
  change (copied (S (S n)) x m) with (copied (S n) (advance x) (copy_byte x m)).
  rewrite IH by (first [exact Hp | exact Hm | lia]). unfold copy_byte. rewrite Hpar, Hmar.
  destruct (decide (par x = mar x)) as [-> | Hne].
  - by rewrite lookup_insert_eq, insert_insert_eq.
  - by rewrite (lookup_insert_ne _ (mar x) (par x)), insert_insert_eq by done.
Qed.

Lemma complete_isr_bit (i : nat) v : (i < 8)%nat -> Z.testbit (complete_isr i v) (4 * Z.of_nat i + 1) = true.
Proof.
  intros Hi. unfold complete_isr. rewrite Z.lor_spec. apply orb_true_iff. right.
  clear -Hi. do 8 (destruct i as [|i]; [by vm_compute |]). lia.
Qed.

(** ** The properties of the DMA controller *)

(** C33 (dma.copy).  Enabling a memory to memory transfer of [n] bytes on a
    stream whose CR was set up before (bytes, PAR to MAR, both incremented,
    not enabled) copies the [n] bytes when source and destination do not
    overlap, changes no other byte, sets the flag TCIF of the stream and, with
    TCIE, pulses its interrupt. *)
Theorem dma_copy (stale now data : Z) (i : nat) (x : stm32_dma_stream) (s : stm32_dma (gmap Z Z)) :
  (i < 8)%nat -> stream s !! i = Some x -> byte_stream x -> stream_ok x -> 0 < ndtr x ->
  (cr x .& DMA_CCR_EN =? 0) = true -> pstep x = 1 -> mstep x = 1 -> starts_mem2mem data ->
  par x + ndtr x <= 2 ^ 32 -> mar x + ndtr x <= 2 ^ 32 ->
  par x + ndtr x <= mar x \/ mar x + ndtr x <= par x ->
  exists s', stm32_dma_write stale now (stream_cr i) data 4 s = Done () s' (complete_events i x) /\
    (forall a, default 0 (bus s' !! a) =
       if (mar x <=? a) && (a <? mar x + ndtr x) then default 0 (bus s !! (par x + (a - mar x)))
       else default 0 (bus s !! a)) /\
    Z.testbit (isr s') (4 * Z.of_nat i + 1) = true.
Proof.
  intros Hi Hx Hb Ho Hpos Hen Hp Hm Hdata Hpn Hmn Hdis. pose proof Ho as [Hn Hpr Hmr].
  eexists. split; [by apply CR_write_mem2mem |]. split.
  - intros a. change (bus (with_stream (whole_result s i _ x) i _)) with (copied (Z.to_nat (ndtr x)) x (bus s)).
    rewrite copied_spec by (rewrite ?Z2Nat.id; lia). by rewrite Z2Nat.id by lia.
  - by apply (complete_isr_bit i (isr s)).
Qed.

(** The transfer runs with the CR from before the write
    that starts it.  On a fresh stream the increments asked for together with
    the start are not used: whatever the length, the first byte of the source
    goes to the first byte of the destination and nothing else is copied,
    while the stream reports completion. *)
Theorem dma_stale_setup (stale now data : Z) (i : nat) (x : stm32_dma_stream) (s : stm32_dma (gmap Z Z)) :
  (i < 8)%nat -> stream s !! i = Some x -> stream_ok x -> 0 < ndtr x -> cr x = 0 -> starts_mem2mem data ->
  exists s', stm32_dma_write stale now (stream_cr i) data 4 s = Done () s' [] /\
    bus s' = <[mar x := default 0 (bus s !! par x)]> (bus s) /\
    Z.testbit (isr s') (4 * Z.of_nat i + 1) = true.
Proof.
  intros Hi Hx Ho Hpos Hcr Hdata. pose proof Ho as [Hn Hpr Hmr].
  assert (Hb : byte_stream x) by (split; by rewrite Hcr).
  assert (He : complete_events i x = []) by (unfold complete_events; by rewrite Hcr).
  eexists. split; [rewrite <- He; apply CR_write_mem2mem; try done; by rewrite Hcr |]. split.
  - change (bus (with_stream (whole_result s i _ x) i _)) with (copied (Z.to_nat (ndtr x)) x (bus s)).
    replace (Z.to_nat (ndtr x)) with (S (Z.to_nat (ndtr x - 1))) by lia.
    apply copied_still; [unfold pstep | unfold mstep | lia | lia]; by rewrite Hcr.
  - by apply (complete_isr_bit i (isr s)).
Qed.

(** ** Examples *)

Definition ram_demo : gmap Z Z := <[0x20000000 := 11]> (<[0x20000001 := 22]> (<[0x20000002 := 33]> ∅)).

(** A stream that has been told to copy three bytes, with CR as given. *)
Definition dma_demo (cr : Z) : stm32_dma (gmap Z Z) :=
  mkDma 0 0 0 (mkStream cr 3 0x20000000 0x20000100 0x20000000 0x20000100 3 :: replicate 7 (mkStream 0 0 0 0 0 0 0)) ram_demo.

Lemma dma_copy_witness :
  exists s', stm32_dma_write 0 0 (stream_cr 0) 0x40c1 4 (dma_demo 0x40c0) = Done () s' [] /\
    (forall a, default 0 (bus s' !! a) =
       if (0x20000100 <=? a) && (a <? 0x20000103) then default 0 (ram_demo !! (0x20000000 + (a - 0x20000100)))
       else default 0 (ram_demo !! a)) /\
    Z.testbit (isr s') (4 * Z.of_nat 0 + 1) = true.
Proof.
  apply (dma_copy 0 0 0x40c1 0 (mkStream 0x40c0 3 0x20000000 0x20000100 0x20000000 0x20000100 3) (dma_demo 0x40c0));
    cbn [par mar ndtr]; try reflexivity; try lia; by repeat split.
Defined.

Lemma dma_stale_setup_witness :
  exists s', stm32_dma_write 0 0 (stream_cr 0) 0x40c1 4 (dma_demo 0) = Done () s' [] /\
    bus s' = <[0x20000100 := 11]> ram_demo /\ Z.testbit (isr s') (4 * Z.of_nat 0 + 1) = true.
Proof.
  apply (dma_stale_setup 0 0 0x40c1 0 (mkStream 0 3 0x20000000 0x20000100 0x20000000 0x20000100 3) (dma_demo 0));
    try reflexivity; cbn [ndtr]; try lia; by repeat split.
Defined.
