(* ===== verification/Armv7m.v ===== *)
(** * The ARMv7-M system ([hw/arm/armv7m.c])

    The bit-band regions, in which every word stands for one bit of the memory
    below, and the memory map that [armv7m_init] sets up.  The functions load
    memory to variables of the host, so the byte order of the host
    ([host_big]) matters; the target is little endian. *)

From stdpp Require Import gmap.
From S2P Require Import Prelude Memory.
Open Scope Z_scope.

Section Bitband.
  Context {B : Type} `{Bus B} (host_big : bool).

Abbreviation BusM := (M dev_event B).

(** The bytes of a variable of the host. *)
Definition host_order (bs : list Z) : list Z := if host_big then reverse bs else bs.

(** [cpu_physical_memory_read] to a variable of [n] bytes, and
    [cpu_physical_memory_write] from one. *)
Definition read_var (addr : Z) (n : nat) : BusM Z := λ b,
  let '(bs, b') := bus_read b addr n in Done (of_le (host_order bs)) b' [].

Definition write_var (addr : Z) (n : nat) (v : Z) : BusM unit := λ b,
  Done () (bus_write b addr (host_order (le_bytes n v))) [].

(** [tswap16] and [tswap32]: to the byte order of the target. *)
Definition tswap (n : nat) (v : Z) : Z := if host_big then of_le (reverse (le_bytes n v)) else v.

Definition bitband_addr (base addr : Z) : Z := base .| ((addr .& 0x1ffffff) >> 5).

Definition bitband_readb (base offset : Z) : BusM Z :=
  v ← read_var (bitband_addr base offset) 1;
  mret (b2z (cbool (v .& (1 << ((offset >> 2) .& 7))))).

Definition bitband_writeb (base offset value : Z) : BusM unit :=
  let addr := bitband_addr base offset in
  let mask := u8 (1 << ((offset >> 2) .& 7)) in
  v ← read_var addr 1;
  write_var addr 1 (if cbool (value .& 1) then u8 (v .| mask) else u8 (v .& Z.lnot mask)).

Definition bitband_readw (base offset : Z) : BusM Z :=
  let addr := bitband_addr base offset .& 0xfffffffe in
  let mask := tswap 2 (u16 (1 << ((offset >> 2) .& 15))) in
  v ← read_var addr 2;
  mret (b2z (cbool (v .& mask))).

Definition bitband_writew (base offset value : Z) : BusM unit :=
  let addr := bitband_addr base offset .& 0xfffffffe in
  let mask := tswap 2 (u16 (1 << ((offset >> 2) .& 15))) in
  v ← read_var addr 2;
  write_var addr 2 (if cbool (value .& 1) then u16 (v .| mask) else u16 (v .& Z.lnot mask)).

Definition bitband_readl (base offset : Z) : BusM Z :=
  let addr := bitband_addr base offset .& 0xfffffffc in
  let mask := tswap 4 (u32 (1 << ((offset >> 2) .& 31))) in
  v ← read_var addr 4;
  mret (b2z (cbool (v .& mask))).

Definition bitband_writel (base offset value : Z) : BusM unit :=
  let addr := bitband_addr base offset .& 0xfffffffc in
  let mask := tswap 4 (u32 (1 << ((offset >> 2) .& 31))) in
  v ← read_var addr 4;
  write_var addr 4 (if cbool (value .& 1) then u32 (v .| mask) else u32 (v .& not32 mask)).

(** The functions of [bitband_ops] for accesses of 1, 2 and 4 bytes. *)
Definition bitband_read (size : Z) : Z → Z → BusM Z :=
  if size =? 1 then bitband_readb else if size =? 2 then bitband_readw else bitband_readl.

Definition bitband_write (size : Z) : Z → Z → Z → BusM unit :=
  if size =? 1 then bitband_writeb else if size =? 2 then bitband_writew else bitband_writel.

End Bitband.

(** The two regions of [armv7m_bitband_init]: the memory below and the address
    of the alias. *)
Definition armv7m_bitband_init : list (Z * Z) := [(0x20000000, 0x22000000); (0x40000000, 0x42000000)].

(** ** The memory map *)

Record region : Type := mkRegion {
  r_base : Z;
  r_size : Z
}.

(** The regions that [armv7m_init] adds; the sizes of flash and memory are in
    kilobytes. *)
Definition armv7m_regions (flash_size sram_size : Z) : list region :=
  [mkRegion 0 (flash_size * 1024); mkRegion 0x20000000 (sram_size * 1024)] ++
  ((λ p, mkRegion (snd p) 0x02000000) <$> armv7m_bitband_init) ++
  [mkRegion 0xe000e000 0x1000; mkRegion 0xfffff000 0x1000].

Definition meets (a b : region) : bool := (r_base a <? r_base b + r_size b) && (r_base b <? r_base a + r_size a).

(** ** Byte-wise operations *)

Ltac zdiv := Z.to_euclidean_division_equations; lia.

Lemma of_le_map2 (f : Z → Z → Z) (g : bool → bool → bool) xs ys :
  (forall a b i, 0 <= i -> Z.testbit (f a b) i = g (Z.testbit a i) (Z.testbit b i)) ->
  (forall a b, is_byte a -> is_byte b -> is_byte (f a b)) -> g false false = false ->
  length xs = length ys -> Forall is_byte xs -> Forall is_byte ys ->
  of_le (zip_with f xs ys) = f (of_le xs) (of_le ys).
Proof.
  intros Hf Hr Hg. revert ys. induction xs as [|x xs IH]; intros [|y ys] Hlen Hxs Hys; try done.
  { apply Z.bits_inj'. intros i Hi. cbn [zip_with of_le]. by rewrite Hf, Z.testbit_0_l by lia. }
  apply Forall_cons in Hxs as [Hx Hxs]. apply Forall_cons in Hys as [Hy Hys].
  apply Z.bits_inj'. intros i Hi. cbn [zip_with]. rewrite Hf, !of_le_bit by (done || auto).
  rewrite IH by (done || (cbn in Hlen; lia)). destruct (Z.ltb_spec i 8); by rewrite Hf by lia.
Qed.

Lemma of_le_zero xs : Forall is_byte xs -> of_le xs = 0 <-> Forall (λ b, b = 0) xs.
Proof.
  induction 1 as [|x xs Hx Hxs IH]; [done |]. rewrite Forall_cons, <- IH. cbn [of_le].
  rewrite Z.lor_eq_0_iff, Z.shiftl_eq_0_iff by lia. tauto.
Qed.

(** The byte at which a single bit is set. *)
Lemma le_bytes_bit n k j :
  0 <= k -> (j < n)%nat ->
  le_bytes n (1 << k) !! j = Some (if k / 8 =? Z.of_nat j then 1 << (k mod 8) else 0).
Proof.
  revert k j. induction n as [|n IH]; intros k j Hk Hj; [lia |]. cbn [le_bytes].
  destruct j as [|j]; cbn [lookup list_lookup].
  - f_equal. destruct (Z.eqb_spec (k / 8) (Z.of_nat 0)) as [H0 | H0].
    + assert (k < 8) by zdiv. rewrite (Z.mod_small k 8) by lia. unfold u8. apply Z.mod_small.
      rewrite Z.shiftl_1_l. split; [apply Z.pow_nonneg; lia | apply Z.pow_lt_mono_r; lia].
    + assert (8 <= k) by zdiv.
      unfold u8. rewrite Z.shiftl_1_l. apply Z.mod_divide; [lia |]. exists (2 ^ (k - 8)).
      rewrite <- Z.pow_add_r by lia. f_equal. lia.
  - destruct (decide (k < 8)) as [Hs | Hs].
    + rewrite (Z.div_small k 8) by lia. rewrite (proj2 (Z.eqb_neq 0 _)) by lia.
      rewrite !Z.shiftl_1_l, Z.shiftr_div_pow2, Z.div_small by (lia || (split; [apply Z.pow_nonneg; lia | apply Z.pow_lt_mono_r; lia])).
      clear -Hj. revert j Hj. induction n as [|n IH]; intros j Hj; [lia |].
      destruct j as [|j]; [done |]. cbn. rewrite Z.shiftr_0_l. apply IH. lia.
    + replace ((1 << k) >> 8) with (1 << (k - 8)).
      2:{ rewrite Z.shiftr_div_pow2, !Z.shiftl_1_l by lia. replace k with (k - 8 + 8) at 2 by lia.
          rewrite Z.pow_add_r, Z.div_mul by lia. done. }
      rewrite IH by lia. replace (k mod 8) with ((k - 8) mod 8) by zdiv.
      replace (k / 8) with ((k - 8) / 8 + 1) by zdiv.
      do 2 f_equal. destruct (Z.eqb_spec ((k - 8) / 8) (Z.of_nat j)), (Z.eqb_spec ((k - 8) / 8 + 1) (Z.of_nat (S j))); lia || done.
Qed.

(** ** One bit of a variable in memory *)

Lemma reverse_zip_with {X Y C} (f : X → Y → C) xs ys :
  length xs = length ys -> reverse (zip_with f xs ys) = zip_with f (reverse xs) (reverse ys).
Proof.
  revert ys. induction xs as [|x xs IH]; intros [|y ys] Hlen; try done. cbn in Hlen. cbn [zip_with].
  rewrite !reverse_cons, zip_with_app, IH by (rewrite ?length_reverse; lia). done.
Qed.

Section Bits.
  Context (host_big : bool).

  Notation host := (host_order host_big).

Lemma host_length bs : length (host bs) = length bs.
Proof. unfold host_order. destruct host_big; [apply length_reverse | done]. Qed.

Lemma host_Forall (P : Z → Prop) bs : Forall P (host bs) <-> Forall P bs.
Proof. unfold host_order. destruct host_big; [apply Forall_reverse | done]. Qed.

Lemma host_twice bs : host (host bs) = bs.
Proof. unfold host_order. destruct host_big; [apply reverse_involutive | done]. Qed.

Lemma host_zip (f : Z → Z → Z) xs ys :
  length xs = length ys -> host (zip_with f xs ys) = zip_with f (host xs) (host ys).
Proof. unfold host_order. destruct host_big; [apply reverse_zip_with | done]. Qed.

(** A variable of the host with a byte-wise operation is the operation on the
    bytes in memory. *)
Lemma host_op (f : Z → Z → Z) (g : bool → bool → bool) xs ys :
  (forall a b i, 0 <= i -> Z.testbit (f a b) i = g (Z.testbit a i) (Z.testbit b i)) ->
  (forall a b, is_byte a -> is_byte b -> is_byte (f a b)) -> g false false = false ->
  length xs = length ys -> Forall is_byte xs -> Forall is_byte ys ->
  f (of_le (host xs)) (of_le (host ys)) = of_le (host (zip_with f xs ys)).
Proof.
  intros Hf Hr Hg Hlen Hxs Hys. rewrite host_zip by done. symmetry.
  apply (of_le_map2 f g); rewrite ?host_length, ?host_Forall; done.
Qed.

Definition mask_bytes (n : nat) (k : Z) : list Z := le_bytes n (1 << k).

Lemma tswap_mask n k :
  0 <= k < 8 * Z.of_nat n -> tswap host_big n (1 << k) = of_le (host (mask_bytes n k)).
Proof.
  intros Hk. unfold tswap, host_order, mask_bytes. destruct host_big; [done |].
  rewrite of_le_le_bytes, Z.mod_small; [done |]. rewrite Z.shiftl_1_l.
  split; [apply Z.pow_nonneg; lia | apply Z.pow_lt_mono_r; lia].
Qed.

Lemma byte_land a b : is_byte a -> is_byte b -> is_byte (a .& b).
Proof. intros Ha Hb. by apply (land_bound 8). Qed.
Lemma byte_lor a b : is_byte a -> is_byte b -> is_byte (a .| b).
Proof. intros Ha Hb. by apply (lor_bound 8). Qed.
Lemma byte_ldiff a b : is_byte a -> is_byte b -> is_byte (Z.ldiff a b).
Proof. intros Ha Hb. by apply (ldiff_bound 8). Qed.

(** The test of a bit through a variable of the host. *)
Lemma test_bit m addr n k :
  ram_ok m -> 0 <= k < 8 * Z.of_nat n ->
  cbool (of_le (host (bytes_at m addr n)) .& tswap host_big n (1 << k)) =
    Z.testbit (ram_byte m (addr + k / 8)) (k mod 8).
Proof.
  intros Hm Hk. set (xs := bytes_at m addr n). set (ys := mask_bytes n k).
  assert (Hxs : Forall is_byte xs) by by apply bytes_at_byte.
  assert (Hys : Forall is_byte ys) by apply le_bytes_byte.
  assert (Hlen : length xs = length ys) by (unfold xs, ys, mask_bytes; by rewrite bytes_at_length, le_bytes_length).
  rewrite tswap_mask, (host_op Z.land andb) by (done || apply byte_land || (intros; apply Z.land_spec)).
  assert (Hzip : Forall is_byte (zip_with Z.land xs ys)).
  { apply Forall_zip_with_fst with (P := is_byte); [done |]. eapply Forall_impl; [exact Hys |].
    intros y Hy x Hx. by apply byte_land. }
  assert (Hj : (Z.to_nat (k / 8) < n)%nat) by zdiv.
  assert (Hx : xs !! Z.to_nat (k / 8) = Some (ram_byte m (addr + k / 8))).
  { unfold xs. rewrite bytes_at_lookup by done. by rewrite Z2Nat.id by zdiv. }
  assert (Hy : forall j, (j < n)%nat -> ys !! j = Some (if k / 8 =? Z.of_nat j then 1 << (k mod 8) else 0)).
  { intros j Hjn. apply le_bytes_bit; [lia | done]. }
  rewrite <- (cbool_BIT _ (k mod 8)) by zdiv. unfold cbool, BIT. f_equal.
  apply Bool.eq_iff_eq_true. rewrite !Z.eqb_eq, of_le_zero, host_Forall by by apply host_Forall.
  rewrite Forall_lookup. split.
  - intros Hz. apply (Hz (Z.to_nat (k / 8))). rewrite lookup_zip_with_Some. do 2 eexists.
    split; [| split; [exact Hx | exact (Hy _ Hj)]]. rewrite Z2Nat.id by zdiv. by rewrite Z.eqb_refl.
  - intros Hz j b Hb. rewrite lookup_zip_with_Some in Hb. destruct Hb as (x & y & -> & Hxj & Hyj).
    assert (Hjn : (j < n)%nat).
    { apply lookup_lt_Some in Hxj. unfold xs in Hxj. by rewrite bytes_at_length in Hxj. }
    change (mask_bytes n k) with ys in Hyj. rewrite (Hy j Hjn) in Hyj. injection Hyj as <-.
    destruct (Z.eqb_spec (k / 8) (Z.of_nat j)) as [He |]; [| apply Z.land_0_r].
    rewrite He, Nat2Z.id in Hx. rewrite Hx in Hxj. injection Hxj as <-. by rewrite He in Hz.
Qed.

(** The same through an operation that stores the variable. *)
Lemma store_op (f : Z → Z → Z) (g : bool → bool → bool) m addr n k :
  (forall a b i, 0 <= i -> Z.testbit (f a b) i = g (Z.testbit a i) (Z.testbit b i)) ->
  (forall a b, is_byte a -> is_byte b -> is_byte (f a b)) -> g false false = false -> (forall a, f a 0 = a) ->
  ram_ok m -> 0 <= k < 8 * Z.of_nat n ->
  let v := f (of_le (host (bytes_at m addr n))) (tswap host_big n (1 << k)) in
  exists m', write_var host_big addr n (v mod 2 ^ (8 * Z.of_nat n)) m = Done () m' [] /\ ram_ok m' /\
    forall a, ram_byte m' a = if a =? addr + k / 8 then f (ram_byte m a) (1 << (k mod 8)) else ram_byte m a.
Proof.
  intros Hf Hr Hg H0 Hm Hk. set (xs := bytes_at m addr n). set (ys := mask_bytes n k). cbv zeta.
  assert (Hxs : Forall is_byte xs) by by apply bytes_at_byte.
  assert (Hys : Forall is_byte ys) by apply le_bytes_byte.
  assert (Hlen : length xs = length ys) by (unfold xs, ys, mask_bytes; by rewrite bytes_at_length, le_bytes_length).
  assert (Hzip : Forall is_byte (zip_with f xs ys)).
  { apply Forall_zip_with_fst with (P := is_byte); [done |]. eapply Forall_impl; [exact Hys |].
    intros y Hy x Hx. by apply Hr. }
  assert (Hzlen : length (zip_with f xs ys) = n).
  { rewrite length_zip_with, <- Hlen. unfold xs. rewrite bytes_at_length. lia. }
  rewrite tswap_mask, (host_op f g) by done. rewrite <- of_le_le_bytes.
  assert (Hle : le_bytes n (of_le (host (zip_with f xs ys))) = host (zip_with f xs ys)).
  { rewrite <- Hzlen at 1. rewrite <- (host_length (zip_with f xs ys)). by apply le_bytes_of_le, host_Forall. }
  change (mask_bytes n k) with ys. rewrite Hle. exists (ram_write m addr (zip_with f xs ys)). split; [| split].
  - unfold write_var. by rewrite Hle, host_twice.
  - by apply ram_write_ok.
  - intros a. unfold ram_byte at 1. rewrite ram_write_lookup, Hzlen.
    destruct (Z.leb_spec addr a), (Z.ltb_spec a (addr + Z.of_nat n)); cbn [andb];
      try (rewrite (proj2 (Z.eqb_neq a _)) by zdiv; done).
    assert (Hj : (Z.to_nat (a - addr) < n)%nat) by lia.
    erewrite (proj2 (lookup_zip_with_Some f xs ys (Z.to_nat (a - addr)) _)).
    2:{ do 2 eexists. split; [reflexivity |]. split; [by apply bytes_at_lookup | apply le_bytes_bit; [lia | done]]. }
    cbn [default from_option id]. rewrite Z2Nat.id by lia. replace (addr + (a - addr)) with a by lia.
    destruct (Z.eqb_spec (k / 8) (a - addr)), (Z.eqb_spec a (addr + k / 8)); try lia; apply H0.
Qed.

(** [x] with bit [p] replaced. *)
Definition with_bit (x p : Z) (b : bool) : Z := if b then Z.setbit x p else Z.clearbit x p.

Lemma store_bit m addr n k (b : bool) :
  ram_ok m -> 0 <= k < 8 * Z.of_nat n ->
  let v := of_le (host (bytes_at m addr n)) in
  let mask := tswap host_big n (1 << k) in
  exists m', write_var host_big addr n ((if b then v .| mask else Z.ldiff v mask) mod 2 ^ (8 * Z.of_nat n)) m =
      Done () m' [] /\ ram_ok m' /\
    forall a, ram_byte m' a = if a =? addr + k / 8 then with_bit (ram_byte m a) (k mod 8) b else ram_byte m a.
Proof.
  intros Hm Hk. destruct b.
  - apply (store_op Z.lor orb); try done; [intros; apply Z.lor_spec | apply byte_lor | apply Z.lor_0_r].
  - apply (store_op Z.ldiff (λ x y, x && negb y)); try done;
      [intros; apply Z.ldiff_spec | apply byte_ldiff | apply Z.ldiff_0_r].
Qed.

End Bits.

(** ** The alias of a bit *)

Section Alias.
  Context (host_big : bool) (base : Z).

Lemma align_down x n : 0 <= x < 2 ^ 32 -> 0 <= n <= 32 -> x .& (Z.ones 32 - Z.ones n) = x - x mod 2 ^ n.
Proof.
  intros Hx Hn.
  assert (He : Z.ones 32 - Z.ones n = Z.ldiff (Z.ones 32) (Z.ones n)).
  { apply Z.sub_nocarry_ldiff. apply Z.bits_inj'. intros i Hi.
    rewrite Z.ldiff_spec, !testbit_ones, Z.testbit_0_l by lia. zbit_cases; done. }
  rewrite He. replace (x - x mod 2 ^ n) with (x / 2 ^ n * 2 ^ n) by (rewrite (Z.div_mod x (2 ^ n)) at 2; [ring | apply Z.pow_nonzero; lia]).
  rewrite <- Z.shiftr_div_pow2, <- Z.shiftl_mul_pow2, <- Z.ldiff_ones_r by lia.
  apply Z.bits_inj'. intros i Hi. rewrite Z.land_spec, !Z.ldiff_spec, !testbit_ones by lia.
  destruct (Z.ltb_spec i 32); [done |]. by rewrite (testbit_high 32 x) by lia.
Qed.

Lemma bitband_addr_ok offset :
  0 <= base < 2 ^ 32 -> base mod 2 ^ 20 = 0 -> 0 <= offset < 2 ^ 25 ->
  bitband_addr base offset = base + offset / 32.
Proof.
  intros Hb Hm Ho. unfold bitband_addr. change 0x1ffffff with (Z.ones 25).
  rewrite Z.land_ones, Z.mod_small, Z.shiftr_div_pow2 by lia. change (2 ^ 5) with 32.
  assert (H0 : base .& (offset / 32) = 0); [| by rewrite <- Z.lxor_lor, <- Z.add_nocarry_lxor].
  apply Z.bits_inj'. intros i Hi. rewrite Z.land_spec, Z.testbit_0_l.
  destruct (Z.ltb_spec i 20).
  - rewrite <- (Z.mod_pow2_bits_low base 20), Hm, Z.testbit_0_l by lia. done.
  - rewrite (testbit_high 20 (offset / 32)) by (lia || zdiv). apply andb_false_r.
Qed.

(** The address and the bit number of an access of [n] bytes. *)
Definition word_addr (n offset : Z) : Z := base + offset / 32 - (offset / 32) mod n.
Definition word_bit (n offset : Z) : Z := (offset / 4) mod (8 * n).

Lemma word_position n offset :
  0 <= offset -> n = 1 \/ n = 2 \/ n = 4 ->
  word_addr n offset + word_bit n offset / 8 = base + offset / 32 /\
  word_bit n offset mod 8 = (offset / 4) mod 8 /\ 0 <= word_bit n offset < 8 * n.
Proof. intros Ho [-> | [-> | ->]]; unfold word_addr, word_bit; zdiv. Qed.

Lemma bit_number offset n : 0 <= n -> (offset >> 2) .& Z.ones n = (offset / 4) mod 2 ^ n.
Proof. intros Hn. by rewrite Z.land_ones, Z.shiftr_div_pow2 by lia. Qed.

Lemma alias_addr offset n :
  0 <= base < 2 ^ 32 -> base mod 2 ^ 20 = 0 -> 0 <= offset < 2 ^ 25 -> 0 <= n <= 5 ->
  bitband_addr base offset .& (Z.ones 32 - Z.ones n) = word_addr (2 ^ n) offset.
Proof.
  intros Hb Hm Ho Hn. rewrite bitband_addr_ok by done.
  assert (Hd : base = 2 ^ n * (base / 2 ^ 20 * 2 ^ (20 - n))).
  { trans (2 ^ (n + (20 - n)) * (base / 2 ^ 20)); [replace (n + (20 - n)) with 20 by lia; zdiv |].
    rewrite Z.pow_add_r by lia. ring. }
  rewrite align_down by (lia || zdiv). unfold word_addr. f_equal. rewrite Hd at 1.
  rewrite Z.add_comm, (Z.mul_comm (2 ^ n)). apply Z_mod_plus_full.
Qed.

Lemma read_var_run m addr n : read_var host_big addr n m = Done (of_le (host_order host_big (bytes_at m addr n))) m [].
Proof. done. Qed.

Lemma tswap_byte v : is_byte v -> tswap host_big 1 v = v.
Proof.
  intros Hv. unfold tswap. destruct host_big; [| done]. cbn [le_bytes].
  rewrite reverse_singleton. cbn [of_le]. rewrite Z.lor_0_r. by apply Z.mod_small.
Qed.

Lemma land_not32 v x : (v .& not32 x) mod 2 ^ 32 = Z.ldiff v x mod 2 ^ 32.
Proof.
  apply Z.bits_inj'. intros i Hi.
  rewrite !testbit_mod_pow2, Z.land_spec, Z.ldiff_spec, testbit_not32 by lia. by destruct (i <? 32).
Qed.

Lemma mask_small n k : 0 <= k < n -> 0 <= 1 << k < 2 ^ n.
Proof. intros Hk. rewrite Z.shiftl_1_l. split; [apply Z.pow_nonneg; lia | apply Z.pow_lt_mono_r; lia]. Qed.

(** The read and the write of each width, as one test and one store of a
    variable. *)
Lemma bitband_read_var size offset m :
  0 <= base < 2 ^ 32 -> base mod 2 ^ 20 = 0 -> 0 <= offset < 2 ^ 25 -> size = 1 \/ size = 2 \/ size = 4 ->
  bitband_read host_big size base offset m =
    Done (b2z (cbool (of_le (host_order host_big (bytes_at m (word_addr size offset) (Z.to_nat size))) .&
                      tswap host_big (Z.to_nat size) (1 << word_bit size offset)))) m [].
Proof.
  intros Hb Hm Ho Hs. pose proof (word_position size offset ltac:(lia) Hs) as (_ & _ & Hk).
  pose proof (mask_small _ _ Hk) as Hpow.
  destruct Hs as [-> | [-> | ->]]; unfold bitband_read; zcase.
  - unfold bitband_readb. rewrite (bind_Done _ _ _ _ _ (read_var_run _ _ _)). change 7 with (Z.ones 3).
    rewrite bit_number, bitband_addr_ok, tswap_byte by (done || lia).
    unfold word_addr. by rewrite Z.mod_1_r, Z.sub_0_r.
  - unfold bitband_readw. cbv zeta. rewrite (bind_Done _ _ _ _ _ (read_var_run _ _ _)). change 15 with (Z.ones 4).
    change 0xfffffffe with (Z.ones 32 - Z.ones 1).
    rewrite bit_number, (alias_addr offset 1) by (done || lia). unfold u16. by rewrite Z.mod_small.
  - unfold bitband_readl. cbv zeta. rewrite (bind_Done _ _ _ _ _ (read_var_run _ _ _)). change 31 with (Z.ones 5).
    change 0xfffffffc with (Z.ones 32 - Z.ones 2).
    rewrite bit_number, (alias_addr offset 2) by (done || lia). unfold u32. by rewrite Z.mod_small.
Qed.

Lemma bitband_write_var size offset value m :
  0 <= base < 2 ^ 32 -> base mod 2 ^ 20 = 0 -> 0 <= offset < 2 ^ 25 -> size = 1 \/ size = 2 \/ size = 4 ->
  let v := of_le (host_order host_big (bytes_at m (word_addr size offset) (Z.to_nat size))) in
  let mask := tswap host_big (Z.to_nat size) (1 << word_bit size offset) in
  bitband_write host_big size base offset value m =
    write_var host_big (word_addr size offset) (Z.to_nat size)
      ((if Z.testbit value 0 then v .| mask else Z.ldiff v mask) mod 2 ^ (8 * Z.of_nat (Z.to_nat size))) m.
Proof.
  intros Hb Hm Ho Hs. pose proof (word_position size offset ltac:(lia) Hs) as (_ & _ & Hk).
  pose proof (mask_small _ _ Hk) as Hpow. cbv zeta. rewrite <- (cbool_BIT value 0) by lia.
  destruct Hs as [-> | [-> | ->]]; unfold bitband_write; zcase.
  - unfold bitband_writeb. cbv zeta. rewrite (bind_Done _ _ _ _ _ (read_var_run _ _ _)). change 7 with (Z.ones 3).
    rewrite bit_number, bitband_addr_ok, tswap_byte, <- Z.ldiff_land by (done || lia).
    unfold word_addr, u8. rewrite (Z.mod_small (1 << _)) by done. rewrite Z.mod_1_r, Z.sub_0_r.
    change (BIT 0) with 1. by destruct (cbool (value .& 1)).
  - unfold bitband_writew. cbv zeta. rewrite (bind_Done _ _ _ _ _ (read_var_run _ _ _)). change 15 with (Z.ones 4).
    change 0xfffffffe with (Z.ones 32 - Z.ones 1).
    rewrite bit_number, (alias_addr offset 1), <- Z.ldiff_land by (done || lia).
    unfold u16. rewrite (Z.mod_small (1 << _)) by done. change (BIT 0) with 1. by destruct (cbool (value .& 1)).
  - unfold bitband_writel. cbv zeta. rewrite (bind_Done _ _ _ _ _ (read_var_run _ _ _)). change 31 with (Z.ones 5).
    change 0xfffffffc with (Z.ones 32 - Z.ones 2).
    rewrite bit_number, (alias_addr offset 2) by (done || lia).
    unfold u32. rewrite (Z.mod_small (1 << _)) by done. change (BIT 0) with 1.
    rewrite land_not32. by destruct (cbool (value .& 1)).
Qed.

(** C34 (bitband_bit).  For every width of the access and both byte orders of the host, an
    access to the alias region reads or writes exactly one bit: the word at
    [offset] stands for bit [offset / 4 mod 8] of the byte at
    [base + offset / 32], and no other bit of the memory changes. *)
Theorem bitband_bit size offset value m :
  0 <= base < 2 ^ 32 -> base mod 2 ^ 20 = 0 -> 0 <= offset < 2 ^ 25 -> size = 1 \/ size = 2 \/ size = 4 -> ram_ok m ->
  let addr := base + offset / 32 in
  let bit := (offset / 4) mod 8 in
  bitband_read host_big size base offset m = Done (b2z (Z.testbit (ram_byte m addr) bit)) m [] /\
  exists m', bitband_write host_big size base offset value m = Done () m' [] /\ ram_ok m' /\
    forall a, ram_byte m' a = if a =? addr then with_bit (ram_byte m a) bit (Z.testbit value 0) else ram_byte m a.
Proof.
  intros Hb Hm Ho Hs Hram. pose proof (word_position size offset ltac:(lia) Hs) as (Haddr & Hbit & Hk).
  assert (Hn : Z.of_nat (Z.to_nat size) = size) by lia. cbv zeta. rewrite <- Haddr, <- Hbit. split.
  - rewrite bitband_read_var by done. by rewrite test_bit by (done || lia).
  - rewrite bitband_write_var by done. apply store_bit; [done | lia].
Qed.

End Alias.

(** The regions do not overlap as long as the flash ends below the memory and
    the memory below its alias. *)
Lemma regions_apart flash_size sram_size i j a b :
  flash_size * 1024 <= 0x20000000 -> sram_size * 1024 <= 0x02000000 ->
  armv7m_regions flash_size sram_size !! i = Some a -> armv7m_regions flash_size sram_size !! j = Some b ->
  meets a b = true -> i = j.
Proof.
  intros Hf Hs Ha Hb Hmeet. unfold armv7m_regions, armv7m_bitband_init in *. cbn [fmap list_fmap app snd] in *.
  apply andb_true_iff in Hmeet as [H1%Z.ltb_lt H2%Z.ltb_lt].
  do 6 (destruct i as [|i]; [injection Ha as <-; do 6 (destruct j as [|j]; [injection Hb as <-; cbn in H1, H2; lia |]); done |]).
  done.
Qed.

(** The first region of the board, a memory of two bytes, a host of each byte order. *)
Lemma bitband_bit_witness :
  (forall big size, size = 1 \/ size = 4 ->
     bitband_read big size 0x20000000 0x34 (<[0x20000000 := 0x01]> (<[0x20000001 := 0x20]> ∅)) =
       Done 1 (<[0x20000000 := 0x01]> (<[0x20000001 := 0x20]> ∅)) []) /\
  exists m', bitband_write true 2 0x20000000 0x34 0 (<[0x20000000 := 0x01]> (<[0x20000001 := 0x20]> ∅)) = Done () m' [] /\
    ram_byte m' 0x20000000 = 0x01 /\ ram_byte m' 0x20000001 = 0.
Proof.
  set (m := <[0x20000000 := 0x01]> (<[0x20000001 := 0x20]> ∅) : gmap Z Z).
  assert (Hm : ram_ok m).
  { intros a. unfold ram_byte, m, is_byte. destruct (decide (a = 0x20000000)) as [-> |]; [by vm_compute |].
    rewrite lookup_insert_ne by lia. destruct (decide (a = 0x20000001)) as [-> |]; [by vm_compute |].
    rewrite lookup_insert_ne by lia. by vm_compute. }
  split.
  - intros big size Hs. destruct (bitband_bit big 0x20000000 size 0x34 0 m) as [Hr _]; try (done || lia).
  - destruct (bitband_bit true 0x20000000 2 0x34 0 m) as (_ & m' & Hw & _ & Ha); try (done || lia).
    exists m'. split; [done |]. by rewrite !Ha.
Defined.
