(* ===== verification/Adc.v ===== *)
(** * The analog to digital converter ([hw/arm/stm32_adc.c])

    The results of [rand] and the samples of the sine wave come from the C
    library: [rand] results are arguments of the operations that call it, and
    [sine now] is [(int)(1024.*(sin(2*M_PI*now/1e9)+1.))].  The fields
    [sr_read_since_ore_set], [converting], [chr] and [afio_board_map] are never
    used by the source and are left out.  Timer 0 is [conv_timer], line 0 is
    the interrupt. *)

From S2P Require Import Prelude Stm32.
Open Scope Z_scope.

(** ** Registers *)

Definition oADC_SR : Z := 0x00.
Definition oADC_CR1 : Z := 0x04.
Definition oADC_CR2 : Z := 0x08.
Definition oADC_SMPR1 : Z := 0x0c.
Definition oADC_SMPR2 : Z := 0x10.
Definition oADC_JOFR1 : Z := 0x14.
Definition oADC_JOFR2 : Z := 0x18.
Definition oADC_JOFR3 : Z := 0x1c.
Definition oADC_JOFR4 : Z := 0x20.
Definition oADC_HTR : Z := 0x24.
Definition oADC_LTR : Z := 0x28.
Definition oADC_SQR1 : Z := 0x2c.
Definition oADC_SQR2 : Z := 0x30.
Definition oADC_SQR3 : Z := 0x34.
Definition oADC_JSQR : Z := 0x38.
Definition oADC_JDR1 : Z := 0x3c.
Definition oADC_JDR2 : Z := 0x40.
Definition oADC_JDR3 : Z := 0x44.
Definition oADC_JDR4 : Z := 0x48.
Definition oADC_DR : Z := 0x4c.

Definition ADC_SR_STRT : Z := 1 << 4.
Definition ADC_SR_JSTRT : Z := 1 << 3.
Definition ADC_SR_JEOC : Z := 1 << 2.
Definition ADC_SR_EOC : Z := 1 << 1.
Definition ADC_SR_AWD : Z := 1 << 0.

Definition ADC_CR1_JEOCIE : Z := 1 << 7.
Definition ADC_CR1_AWDIE : Z := 1 << 6.
Definition ADC_CR1_EOCIE : Z := 1 << 5.

Definition ADC_CR2_SWSTART : Z := 1 << 22.
Definition ADC_CR2_RSTCAL : Z := 1 << 3.
Definition ADC_CR2_CAL : Z := 1 << 2.
Definition ADC_CR2_ADON : Z := 1 << 0.

Record Stm32Adc : Type := mkAdc {
  adc_periph : Z;
  ns_per_sample : list Z;
  ADC_SR : Z; ADC_CR1 : Z; ADC_CR2 : Z; ADC_SMPR1 : Z; ADC_SMPR2 : Z;
  ADC_JOFR1 : Z; ADC_JOFR2 : Z; ADC_JOFR3 : Z; ADC_JOFR4 : Z;
  ADC_HTR : Z; ADC_LTR : Z;
  ADC_SQR1 : Z; ADC_SQR2 : Z; ADC_SQR3 : Z; ADC_JSQR : Z;
  ADC_JDR1 : Z; ADC_JDR2 : Z; ADC_JDR3 : Z; ADC_JDR4 : Z; ADC_DR : Z;
  adc_irq_level : Z;
  adc_Vref : Z;
  adc_Vdda : Z
}.

#[export] Instance Stm32Adc_settable : Settable Stm32Adc := λ s,
  mkAdc (adc_periph s) (ns_per_sample s) (ADC_SR s) (ADC_CR1 s) (ADC_CR2 s) (ADC_SMPR1 s) (ADC_SMPR2 s)
    (ADC_JOFR1 s) (ADC_JOFR2 s) (ADC_JOFR3 s) (ADC_JOFR4 s) (ADC_HTR s) (ADC_LTR s)
    (ADC_SQR1 s) (ADC_SQR2 s) (ADC_SQR3 s) (ADC_JSQR s)
    (ADC_JDR1 s) (ADC_JDR2 s) (ADC_JDR3 s) (ADC_JDR4 s) (ADC_DR s)
    (adc_irq_level s) (adc_Vref s) (adc_Vdda s).

Abbreviation AdcM := (M dev_event Stm32Adc).

(** ** The interrupt *)

Definition new_irq_level (s : Stm32Adc) : Z :=
  ((ADC_CR1 s >> 5) .& (ADC_SR s >> 1)) .|
  ((ADC_CR1 s >> 7) .& (ADC_SR s >> 2)) .|
  ((ADC_CR1 s >> 6) .& (ADC_SR s >> 0)).

Definition stm32_ADC_update_irq : AdcM unit :=
  s ← get;
  let level := new_irq_level s in
  when (cbool ((level .& 1) .^ adc_irq_level s))
    (emit (SetIrq 0 level) ;; modify (λ s, s <| adc_irq_level := level |>)).

Definition stm32_adc_conv_complete : AdcM unit :=
  modify (λ s, s <| ADC_SR := ADC_SR s .| ADC_SR_EOC |>) ;;
  stm32_ADC_update_irq.

Definition stm32_adc_conv_timer_expire : AdcM unit := stm32_adc_conv_complete.

(** ** Channels *)

Definition stm32_ADC_get_channel_number (convert_number : Z) : AdcM Z :=
  assert_ ((1 <=? convert_number) && (convert_number <=? 16)) ;;
  s ← get;
  if (1 <=? convert_number) && (convert_number <=? 6) then
    mret ((ADC_SQR3 s >> (5 * (convert_number - 1))) .& 0x1f)
  else if (7 <=? convert_number) && (convert_number <=? 12) then
    mret ((ADC_SQR2 s >> (5 * (convert_number - 7))) .& 0x1f)
  else mret ((ADC_SQR1 s >> (5 * (convert_number - 13))) .& 0x1f).

Definition index_cycle (s : Stm32Adc) (channel : Z) : Z :=
  if (channel <=? 17) && (10 <=? channel) then (ADC_SMPR1 s >> (3 * (channel - 10))) .& 7
  else (ADC_SMPR2 s >> (3 * channel)) .& 7.

Definition stm32_ADC_get_nbr_cycle_per_sample (channel : Z) : AdcM Z :=
  assert_ ((channel <=? 17) && (0 <=? channel)) ;;
  s ← get;
  match ns_per_sample s !! Z.to_nat (index_cycle s channel) with
  | Some ns => mret ns
  | None => halt OutOfBounds
  end.

(** The port and the pin of an external channel. *)
Definition adc_pin (channel : Z) : Z * Z :=
  if (channel <=? 15) && (10 <=? channel) then (STM32_GPIOC, channel - 10)
  else if (channel =? 9) || (channel =? 8) then (STM32_GPIOB, channel - 8)
  else (STM32_GPIOA, channel).

(** [rand()%(x+1) + 2400], where [x + 1] is not zero. *)
Definition rand_volts (r x : Z) : AdcM Z :=
  if x + 1 =? 0 then halt DivByZero else mret (Z.rem r (x + 1) + 2400).

Section Device.
  Context {R G : Type} `{PeriphClocks R} `{PinConfig G}.
  Context (rcc : R) (gpio : Z → G) (sine : Z → Z).

Definition stm32_ADC_GPIO_check (channel : Z) : AdcM unit :=
  if channel <? 16 then
    let '(port, pin) := adc_pin channel in
    let gpio_dev := gpio (STM32_GPIO_INDEX_FROM_PERIPH port) in
    (if negb (pin_mode gpio_dev pin =? STM32_GPIO_MODE_IN) then halt HwError else mret ()) ;;
    if negb (pin_config gpio_dev pin =? STM32_GPIO_IN_ANALOG) then halt HwError else mret ()
  else mret ().

Definition stm32_adc_start_conv (now r1 r2 : Z) : AdcM unit :=
  channel_number ← stm32_ADC_get_channel_number 1;
  (if channel_number =? 16 then
     vdda ← rand_volts r1 1200;
     modify (λ s, s <| adc_Vdda := vdda |>) ;;
     vref ← rand_volts r2 (vdda - 2400);
     modify (λ s, s <| adc_Vref := vref |>) ;;
     modify (λ s, s <| ADC_DR := u32 (adc_Vdda s - adc_Vref s) |>)
   else if channel_number =? 17 then
     s ← get;
     vref ← rand_volts r1 (adc_Vdda s - 2400);
     modify (λ s, s <| adc_Vref := vref |>) ;;
     modify (λ s, s <| ADC_DR := u32 vref |>)
   else modify (λ s, s <| ADC_DR := sine now .& 0xfff |>)) ;;
  modify (λ s, s <| ADC_SR := ADC_SR s .& not32 ADC_SR_EOC |>) ;;
  modify (λ s, s <| ADC_CR2 := ADC_CR2 s .& not32 ADC_CR2_SWSTART |>) ;;
  ns ← stm32_ADC_get_nbr_cycle_per_sample channel_number;
  emit (TimerMod 0 (i64 (u64 (now + ns)))).

(** ** Registers *)

Definition stm32_ADC_SR_write (new_value : Z) : AdcM unit :=
  (if cbool (new_value .& ADC_SR_EOC) then halt HwError else mret ()) ;;
  (if cbool (new_value .& ADC_SR_JEOC) then halt HwError else mret ()) ;;
  (if cbool (new_value .& ADC_SR_AWD) then halt HwError else mret ()) ;;
  (if cbool (new_value .& ADC_SR_JSTRT) then halt HwError else mret ()) ;;
  (if cbool (new_value .& ADC_SR_STRT) then halt HwError else mret ()) ;;
  modify (λ s, s <| ADC_SR := new_value .& 0x0000001f |>) ;;
  stm32_ADC_update_irq.

Definition stm32_ADC_SQR1_write (new_value : Z) : AdcM unit :=
  (if 1 <? ((new_value >> 20) .& 0xf) then halt HwError else mret ()) ;;
  modify (λ s, s <| ADC_SQR1 := new_value .& 0x00ffffff |>).

Definition stm32_ADC_CR2_write (now r1 r2 new_value : Z) : AdcM unit :=
  modify (λ s, s <| ADC_CR2 := new_value .& 0x00fef90f |>) ;;
  s ← get;
  when (cbool (ADC_CR2 s .& ADC_CR2_SWSTART))
    ((if negb (cbool (ADC_CR2 s .& ADC_CR2_ADON)) then halt HwError else mret ()) ;;
     channel ← stm32_ADC_get_channel_number 1;
     stm32_ADC_GPIO_check channel ;;
     stm32_adc_start_conv now r1 r2).

Definition stm32_ADC_DR_read : AdcM Z :=
  s ← get;
  (if negb (cbool (ADC_CR2 s .& ADC_CR2_ADON)) then halt HwError else mret ()) ;;
  if cbool (ADC_SR s .& ADC_SR_EOC) then
    modify (λ s, s <| ADC_SR := ADC_SR s .& not32 ADC_SR_EOC |>) ;;
    stm32_ADC_update_irq ;;
    gets ADC_DR
  else halt HwError.

Definition stm32_adc_reset : AdcM unit :=
  modify (λ s, s <| ADC_SR := 0 |> <| ADC_CR1 := 0 |> <| ADC_CR2 := 0 |> <| ADC_SMPR1 := 0 |> <| ADC_SMPR2 := 0 |>
    <| ADC_JOFR1 := 0 |> <| ADC_JOFR2 := 0 |> <| ADC_JOFR3 := 0 |> <| ADC_JOFR4 := 0 |>
    <| ADC_HTR := 0 |> <| ADC_LTR := 0 |> <| ADC_SQR1 := 0 |> <| ADC_SQR2 := 0 |> <| ADC_SQR3 := 0 |>
    <| ADC_JSQR := 0 |> <| ADC_JDR1 := 0 |> <| ADC_JDR2 := 0 |> <| ADC_JDR3 := 0 |> <| ADC_JDR4 := 0 |>
    <| ADC_DR := 0 |>) ;;
  stm32_ADC_update_irq.

Definition stm32_adc_read (offset size : Z) : AdcM Z :=
  let start := (offset .& 3) * 8 in
  let length := size * 8 in
  let reg := offset .& 0xfffffffc in
  let field f := s ← get; mret (extract64 (f s) start length) in
  if reg =? oADC_SR then field ADC_SR
  else if reg =? oADC_CR1 then field ADC_CR1
  else if reg =? oADC_CR2 then
    v ← field ADC_CR2; mret (Z.ldiff (Z.ldiff v ADC_CR2_RSTCAL) ADC_CR2_CAL)
  else if reg =? oADC_SMPR1 then field ADC_SMPR1
  else if reg =? oADC_SMPR2 then field ADC_SMPR2
  else if reg =? oADC_JOFR1 then field ADC_JOFR1
  else if reg =? oADC_JOFR2 then field ADC_JOFR2
  else if reg =? oADC_JOFR3 then field ADC_JOFR3
  else if reg =? oADC_JOFR4 then field ADC_JOFR4
  else if reg =? oADC_HTR then field ADC_HTR
  else if reg =? oADC_LTR then field ADC_LTR
  else if reg =? oADC_SQR1 then field ADC_SQR1
  else if reg =? oADC_SQR2 then field ADC_SQR2
  else if reg =? oADC_SQR3 then field ADC_SQR3
  else if reg =? oADC_JSQR then field ADC_JSQR
  else if reg =? oADC_JDR1 then field ADC_JDR1
  else if reg =? oADC_JDR2 then field ADC_JDR2
  else if reg =? oADC_JDR3 then field ADC_JDR3
  else if reg =? oADC_JDR4 then field ADC_JDR4
  else if reg =? oADC_DR then v ← stm32_ADC_DR_read; mret (extract64 v start length)
  else emit (Report Message) ;; emit (Report BadReg) ;; mret 0.

Definition stm32_adc_write (now r1 r2 offset value size : Z) : AdcM unit :=
  p ← gets adc_periph;
  check_periph_clk rcc p ;;
  let reg := offset .& 0xfffffffc in
  if reg =? oADC_SR then stm32_ADC_SR_write (u32 value)
  else if reg =? oADC_CR1 then
    modify (λ s, s <| ADC_CR1 := value .& 0x00cfffff |>) ;; stm32_ADC_update_irq
  else if reg =? oADC_CR2 then stm32_ADC_CR2_write now r1 r2 (u32 value)
  else if reg =? oADC_SMPR1 then modify (λ s, s <| ADC_SMPR1 := value .& 0x00ffffff |>)
  else if reg =? oADC_SMPR2 then modify (λ s, s <| ADC_SMPR2 := value .& 0x3fffffff |>)
  else if reg =? oADC_JOFR1 then modify (λ s, s <| ADC_JOFR1 := value .& 0x00000fff |>)
  else if reg =? oADC_JOFR2 then modify (λ s, s <| ADC_JOFR2 := value .& 0x00000fff |>)
  else if reg =? oADC_JOFR3 then modify (λ s, s <| ADC_JOFR3 := value .& 0x00000fff |>)
  else if reg =? oADC_JOFR4 then modify (λ s, s <| ADC_JOFR4 := value .& 0x00000fff |>)
  else if reg =? oADC_HTR then modify (λ s, s <| ADC_HTR := value .& 0x00000fff |>)
  else if reg =? oADC_LTR then modify (λ s, s <| ADC_LTR := value .& 0x00000fff |>)
  else if reg =? oADC_SQR1 then stm32_ADC_SQR1_write (u32 value)
  else if reg =? oADC_SQR2 then modify (λ s, s <| ADC_SQR2 := value .& 0x3fffffff |>)
  else if reg =? oADC_SQR3 then modify (λ s, s <| ADC_SQR3 := value .& 0x3fffffff |>)
  else if reg =? oADC_JSQR then modify (λ s, s <| ADC_JSQR := value .& 0x003fffff |>)
  else emit (Report Message) ;; emit (Report BadReg).

(** ** The clock *)

(** The sampling times in half cycles: 1.5, 7.5, ..., 239.5 cycles. *)
Definition half_cycles : list Z := [3; 15; 27; 57; 83; 111; 143; 479].

(** [(1000000000LL*c)/clk_freq] is a division of doubles.  The dividend is an
    exact integer below 2^38, so the quotient is rounded by less than its
    distance to the next integer, and the conversion to [uint64_t] gives the
    floor of the exact quotient. *)
Definition stm32_ADC_update_ns_per_sample : AdcM unit :=
  p ← gets adc_periph;
  clk_freq ← get_periph_freq rcc p;
  if cbool clk_freq then
    modify (λ s, s <| ns_per_sample := (λ h, (h * 500000000) / clk_freq) <$> half_cycles |>)
  else modify (λ s, s <| ns_per_sample := replicate 8 0 |>).

Definition stm32_adc_clk_irq_handler (n level : Z) : AdcM unit :=
  assert_ (n =? 0) ;;
  when (cbool level) stm32_ADC_update_ns_per_sample.

Definition stm32_adc_init (r1 r2 : Z) : AdcM unit :=
  stm32_adc_reset ;;
  vdda ← rand_volts r1 1200;
  modify (λ s, s <| adc_Vdda := vdda |>) ;;
  vref ← rand_volts r2 (vdda - 2400);
  modify (λ s, s <| adc_Vref := vref |>).

End Device.

(** The device object before its initialisation. *)
Definition adc_zero (p : Z) : Stm32Adc :=
  mkAdc p (replicate 8 0) 0 0 0 0 0 0 0 0 0 0 0 0 0 0 0 0 0 0 0 0 0 0 0.

(** ** The interrupt line *)

Definition EOC (s : Stm32Adc) : bool := Z.testbit (ADC_SR s) 1.
Definition EOCIE (s : Stm32Adc) : bool := Z.testbit (ADC_CR1 s) 5.
Definition JEOCIE (s : Stm32Adc) : bool := Z.testbit (ADC_CR1 s) 7.

(** The status register only ever holds EOC. *)
Definition sr_ok (s : Stm32Adc) : Prop := ADC_SR s = 0 \/ ADC_SR s = ADC_SR_EOC.

Lemma irq_level_value s :
  sr_ok s -> new_irq_level s = if EOC s then b2z (EOCIE s) + 2 * b2z (JEOCIE s) else 0.
Proof.
  unfold new_irq_level, EOC, EOCIE, JEOCIE. intros [-> | ->].
  - change (0 >> 1) with 0. change (0 >> 2) with 0. change (0 >> 0) with 0. by rewrite !Z.land_0_r.
  - change (ADC_SR_EOC >> 1) with 1. change (ADC_SR_EOC >> 2) with 0. change (ADC_SR_EOC >> 0) with 2.
    change (Z.testbit ADC_SR_EOC 1) with true. cbv iota. rewrite Z.land_0_r, Z.lor_0_r.
    assert (H5 : (ADC_CR1 s >> 5) .& 1 = b2z (Z.testbit (ADC_CR1 s) 5)).
    { rewrite <- (extract32_bit _ 5) by lia. reflexivity. }
    assert (H7 : (ADC_CR1 s >> 6) .& 2 = 2 * b2z (Z.testbit (ADC_CR1 s) 7)).
    { change 2 with (BIT 1) at 1. apply Z.bits_inj'. intros i Hi.
      rewrite Z.land_spec, Z.shiftr_spec, testbit_BIT by lia. destruct (Z.eqb_spec 1 i) as [<- |].
      - change (1 + 6) with 7. by destruct (Z.testbit (ADC_CR1 s) 7).
      - rewrite andb_false_r. symmetry. destruct (Z.testbit (ADC_CR1 s) 7); [| apply Z.bits_0].
        change (2 * b2z true) with (BIT 1). rewrite testbit_BIT by lia. by apply Z.eqb_neq. }
    rewrite H5, H7. by destruct (Z.testbit (ADC_CR1 s) 5), (Z.testbit (ADC_CR1 s) 7).
Qed.

(** The level that the guest expects: end of conversion, when enabled. *)
Definition wanted (s : Stm32Adc) : Z := b2z (EOC s && EOCIE s).

(** The effect of an update: the line is set when the remembered level changes. *)
Definition line_change (s s' : Stm32Adc) : list dev_event :=
  if cbool ((new_irq_level s .& 1) .^ adc_irq_level s) then [SetIrq 0 (adc_irq_level s')] else [].

Definition updated (s : Stm32Adc) : Stm32Adc :=
  if cbool ((new_irq_level s .& 1) .^ adc_irq_level s) then s <| adc_irq_level := new_irq_level s |> else s.

Lemma update_irq_run s : stm32_ADC_update_irq s = Done () (updated s) (line_change s (updated s)).
Proof.
  unfold stm32_ADC_update_irq, updated, line_change. rewrite bind_get. cbv zeta. by destruct (cbool _).
Qed.

(** The update of a line from the level [l] to the level [l']. *)
Definition line_to (l l' : Z) : list dev_event := if l =? l' then [] else [SetIrq 0 l'].

Lemma wanted_level s : sr_ok s -> JEOCIE s = false -> new_irq_level s = wanted s /\ new_irq_level s .& 1 = wanted s.
Proof.
  intros Hs Hj. unfold wanted. rewrite (irq_level_value s Hs), Hj. by destruct (EOC s), (EOCIE s).
Qed.

Lemma cbool_lxor a b : cbool (a .^ b) = negb (b =? a).
Proof.
  unfold cbool. f_equal. apply eq_iff_eq_true. rewrite !Z.eqb_eq, Z.lxor_eq_0_iff. done.
Qed.

Lemma updated_line s : sr_ok s -> JEOCIE s = false -> adc_irq_level (updated s) = wanted s.
Proof.
  intros Hs Hj. destruct (wanted_level s Hs Hj) as [H1 H2]. unfold updated. rewrite H2, cbool_lxor.
  by destruct (Z.eqb_spec (adc_irq_level s) (wanted s)).
Qed.

Lemma updated_events s : sr_ok s -> JEOCIE s = false -> line_change s (updated s) = line_to (adc_irq_level s) (wanted s).
Proof.
  intros Hs Hj. unfold line_change, line_to. rewrite (updated_line s Hs Hj), (proj2 (wanted_level s Hs Hj)), cbool_lxor.
  by destruct (Z.eqb_spec (adc_irq_level s) (wanted s)).
Qed.

(** The line follows the level that the device remembers. *)
Lemma adc_update_drives : drives 0 adc_irq_level stm32_ADC_update_irq.
Proof.
  intros s. unfold wlp. rewrite update_irq_run. unfold line_change, updated. by destruct (cbool _).
Qed.
#[local] Hint Resolve adc_update_drives : drives.

Ltac adc_drive :=
  unfold stm32_adc_write, check_periph_clk, stm32_ADC_SR_write, stm32_ADC_CR2_write, stm32_ADC_SQR1_write,
    stm32_ADC_get_channel_number, stm32_ADC_GPIO_check, stm32_adc_start_conv, rand_volts, stm32_ADC_get_nbr_cycle_per_sample,
    stm32_adc_read, stm32_ADC_DR_read, stm32_adc_conv_timer_expire, stm32_adc_conv_complete,
    stm32_adc_clk_irq_handler, stm32_ADC_update_ns_per_sample, get_periph_freq, stm32_adc_reset;
  cbv zeta; drive.


(** ** The invariant *)

(** As long as JEOCIE is off, a wanted interrupt is on the line, and the line
    is only high when EOCIE is set.  It may be high without EOC: starting a
    conversion clears EOC and leaves the line. *)
Record adc_inv (s : Stm32Adc) : Prop := {
  a_sr : sr_ok s;
  a_len : length (ns_per_sample s) = 8%nat;
  a_vdda : 2400 <= adc_Vdda s <= 3600;
  a_vref : 2400 <= adc_Vref s <= adc_Vdda s;
  a_dr : 0 <= ADC_DR s < 4096;
  a_line : JEOCIE s = false -> wanted s <= adc_irq_level s <= b2z (EOCIE s)
}.

Lemma updated_fields s : updated s = s <| adc_irq_level := adc_irq_level (updated s) |>.
Proof. unfold updated. destruct (cbool _); by destruct s. Qed.

(** An update restores what the invariant says of the line. *)
Lemma update_inv s :
  sr_ok s -> length (ns_per_sample s) = 8%nat -> 2400 <= adc_Vdda s <= 3600 -> 2400 <= adc_Vref s <= adc_Vdda s ->
  0 <= ADC_DR s < 4096 -> wlp stm32_ADC_update_irq (λ _ s' _, adc_inv s') s.
Proof.
  intros Hs Hl Hd Hr Hdr. unfold wlp. rewrite update_irq_run, updated_fields.
  split; try done. intros Hj. change (wanted s <= adc_irq_level (updated s) <= b2z (EOCIE s)).
  rewrite (updated_line s Hs Hj). unfold wanted. destruct (EOC s), (EOCIE s); cbn; lia.
Qed.

Lemma land_not_EOC s : sr_ok s -> ADC_SR s .& not32 ADC_SR_EOC = 0.
Proof. intros [-> | ->]; reflexivity. Qed.

(** The invariant only reads these fields. *)
Lemma inv_ext s s' :
  ADC_SR s' = ADC_SR s -> ADC_CR1 s' = ADC_CR1 s -> adc_irq_level s' = adc_irq_level s ->
  length (ns_per_sample s') = length (ns_per_sample s) -> 2400 <= adc_Vdda s' <= 3600 ->
  2400 <= adc_Vref s' <= adc_Vdda s' -> 0 <= ADC_DR s' < 4096 -> adc_inv s -> adc_inv s'.
Proof.
  intros E1 E2 E3 E4 ? ? ? [Hs Hl _ _ _ Hline]. unfold sr_ok, JEOCIE, wanted, EOC, EOCIE in *.
  split; unfold sr_ok, JEOCIE, wanted, EOC, EOCIE; rewrite ?E1, ?E2, ?E3, ?E4; done.
Qed.

(** ** A conversion *)

(** The channel of the first conversion of the sequence. *)
Definition first_channel (s : Stm32Adc) : Z := ADC_SQR3 s .& 0x1f.

Lemma first_channel_range s : 0 <= first_channel s < 32.
Proof. exact (land_bound 5 (ADC_SQR3 s) 0x1f ltac:(lia) ltac:(lia)). Qed.

Lemma channel_run s : stm32_ADC_get_channel_number 1 s = Done (first_channel s) s [].
Proof. unfold stm32_ADC_get_channel_number, first_channel. reflexivity. Qed.

(** The time that the conversion of a channel takes. *)
Definition sample_ns (s : Stm32Adc) (channel : Z) : Z :=
  default 0 (ns_per_sample s !! Z.to_nat (index_cycle s channel)).

Lemma index_cycle_range s channel : 0 <= index_cycle s channel < 8.
Proof. unfold index_cycle. destruct (_ && _); by apply (land_bound 3). Qed.

Lemma cycles_run s channel :
  length (ns_per_sample s) = 8%nat -> 0 <= channel ->
  stm32_ADC_get_nbr_cycle_per_sample channel s =
    if channel <=? 17 then Done (sample_ns s channel) s [] else Halt AssertFailed.
Proof.
  intros Hl Hc. unfold stm32_ADC_get_nbr_cycle_per_sample. rewrite (proj2 (Z.leb_le 0 channel) Hc), andb_true_r.
  destruct (channel <=? 17); [| done]. unfold sample_ns, mbind, M_bind. cbn.
  pose proof (index_cycle_range s channel) as Hi.
  destruct (lookup_lt_is_Some_2 (ns_per_sample s) (Z.to_nat (index_cycle s channel)) ltac:(lia)) as [ns Hns].
  by rewrite Hns.
Qed.

Lemma rand_volts_run r x s : 0 <= x -> rand_volts r x s = Done (Z.rem r (x + 1) + 2400) s [].
Proof. intros Hx. unfold rand_volts. by rewrite (proj2 (Z.eqb_neq (x + 1) 0)) by lia. Qed.

Lemma rand_volts_range r x : 0 <= r -> 0 <= x -> 2400 <= Z.rem r (x + 1) + 2400 <= x + 2400.
Proof. intros Hr Hx. pose proof (Z.rem_bound_pos r (x + 1) Hr ltac:(lia)). lia. Qed.

Section Conversion.
  Context (sine : Z → Z) (now r1 r2 : Z).

(** The supply voltage, the reference voltage and the result of a conversion. *)
Definition sampled (s : Stm32Adc) : Z * Z * Z :=
  if first_channel s =? 16 then
    let vdda := Z.rem r1 1201 + 2400 in
    let vref := Z.rem r2 (vdda - 2400 + 1) + 2400 in
    (vdda, vref, vdda - vref)
  else if first_channel s =? 17 then
    let vref := Z.rem r1 (adc_Vdda s - 2400 + 1) + 2400 in
    (adc_Vdda s, vref, vref)
  else (adc_Vdda s, adc_Vref s, sine now .& 0xfff).

Definition result (s : Stm32Adc) : Z := snd (sampled s).

(** The state while the conversion runs. *)
Definition started (s : Stm32Adc) : Stm32Adc :=
  s <| adc_Vdda := fst (fst (sampled s)) |> <| adc_Vref := snd (fst (sampled s)) |> <| ADC_DR := result s |>
    <| ADC_SR := 0 |> <| ADC_CR2 := ADC_CR2 s .& not32 ADC_CR2_SWSTART |>.

Lemma sampled_range s :
  adc_inv s -> 0 <= r1 -> 0 <= r2 ->
  let '(vdda, vref, v) := sampled s in 2400 <= vdda <= 3600 /\ 2400 <= vref <= vdda /\ 0 <= v < 4096.
Proof.
  intros [_ _ Hd Hr _ _] H1 H2. unfold sampled. destruct (_ =? 16); [| destruct (_ =? 17)].
  - cbv zeta. set (vdda := Z.rem r1 1201 + 2400). pose proof (rand_volts_range r1 1200 H1 ltac:(lia)) as Hvd.
    change (1200 + 1) with 1201 in Hvd. fold vdda in Hvd.
    pose proof (rand_volts_range r2 (vdda - 2400) H2 ltac:(lia)) as Hvr. lia.
  - pose proof (rand_volts_range r1 (adc_Vdda s - 2400) H1 ltac:(lia)). lia.
  - pose proof (land_bound 12 (sine now) 0xfff ltac:(lia) ltac:(lia)). lia.
Qed.

Lemma start_conv_run s :
  adc_inv s -> 0 <= r1 -> 0 <= r2 ->
  stm32_adc_start_conv sine now r1 r2 s =
    if first_channel s <=? 17
    then Done () (started s) [TimerMod 0 (i64 (u64 (now + sample_ns s (first_channel s))))]
    else Halt AssertFailed.
Proof.
  intros Hinv H1 H2. pose proof (sampled_range s Hinv H1 H2) as Hsam. pose proof (a_vdda _ Hinv) as Hvd.
  pose proof (land_not_EOC s (a_sr _ Hinv)) as Heoc.
  unfold stm32_adc_start_conv. rewrite (bind_Done _ _ _ _ _ (channel_run s)). set (c := first_channel s) in *.
  assert (Hc : 0 <= c) by apply first_channel_range.
  set (s1 := s <| adc_Vdda := fst (fst (sampled s)) |> <| adc_Vref := snd (fst (sampled s)) |> <| ADC_DR := result s |>).
  set (sample := if c =? 16 then _ else _).
  assert (Hs : sample s = Done () s1 []).
  { subst sample. unfold s1, result. unfold sampled in *. fold c in Hsam |- *. destruct (c =? 16); [| destruct (c =? 17)].
    - rewrite (bind_Done _ _ _ _ _ (rand_volts_run r1 1200 s ltac:(lia))), bind_modify.
      change (1200 + 1) with 1201. set (vdda := Z.rem r1 1201 + 2400) in *.
      rewrite (bind_Done _ _ _ _ _ (rand_volts_run r2 (vdda - 2400) _ ltac:(lia))), bind_modify.
      unfold modify. cbn [fst snd] in *. rewrite u32_small by (cbn in *; lia). by destruct s.
    - rewrite bind_get, (bind_Done _ _ _ _ _ (rand_volts_run r1 (adc_Vdda s - 2400) s ltac:(lia))), bind_modify.
      unfold modify. cbn [fst snd] in *. rewrite u32_small by lia. by destruct s.
    - unfold modify. by destruct s. }
  rewrite (bind_Done _ _ _ _ _ Hs), !bind_modify. set (s3 := s1 <| ADC_SR := _ |> <| ADC_CR2 := _ |>).
  assert (Hs3 : s3 = started s) by (subst s3 s1; unfold started; cbn [ADC_SR ADC_CR2 set_field Stm32Adc_settable]; by rewrite Heoc).
  pose proof (cycles_run s3 c (a_len _ Hinv) Hc) as Hcyc. unfold mbind, M_bind. rewrite Hcyc.
  destruct (c <=? 17); [| done]. rewrite Hs3. done.
Qed.

Lemma started_inv s : adc_inv s -> 0 <= r1 -> 0 <= r2 -> adc_inv (started s).
Proof.
  intros Hinv H1 H2. pose proof (sampled_range s Hinv H1 H2) as Hsam.
  unfold started, result. destruct (sampled s) as [[vdda vref] v]. cbn [fst snd]. destruct Hsam as (? & ? & ?), Hinv.
  split; try done; [by left |]. intros Hj. destruct (a_line0 Hj) as [Hw Hl]. split; [| exact Hl].
  unfold wanted, EOC. change (0 <= adc_irq_level s). etransitivity; [| exact Hw].
  unfold wanted. by destruct (EOC s && EOCIE s).
Qed.

End Conversion.

(** ** The operations keep the invariant *)

Section Invariant.
  Context {R G : Type} `{PeriphClocks R} `{PinConfig G}.
  Context (rcc : R) (gpio : Z → G) (sine : Z → Z).

(** The pin of the channel, when it has one, is an analog input. *)
Definition pin_analog (c : Z) : bool :=
  let '(port, pin) := adc_pin c in
  let g := gpio (STM32_GPIO_INDEX_FROM_PERIPH port) in
  (16 <=? c) || ((pin_mode g pin =? STM32_GPIO_MODE_IN) && (pin_config g pin =? STM32_GPIO_IN_ANALOG)).

Lemma gpio_check_run c s :
  stm32_ADC_GPIO_check gpio c s = if pin_analog c then Done () s [] else Halt HwError.
Proof.
  unfold stm32_ADC_GPIO_check, pin_analog. destruct (adc_pin c) as [port pin].
  destruct (Z.ltb_spec c 16); [rewrite (proj2 (Z.leb_gt 16 c)) by done | by rewrite (proj2 (Z.leb_le 16 c)) by done]. unfold mbind, M_bind.
  by destruct (pin_mode _ _ =? _), (pin_config _ _ =? _).
Qed.

(** A write to a register that the invariant does not mention. *)
Ltac other_register s Hinv := unfold wlp, modify; apply (inv_ext s); try reflexivity; try apply Hinv; done.

Lemma adc_DR_read_inv s : adc_inv s -> wlp stm32_ADC_DR_read (λ _ s' _, adc_inv s') s.
Proof.
  intros Hinv. unfold stm32_ADC_DR_read. apply wlp_get. destruct (negb _); [done |].
  apply wlp_ret. destruct (cbool (ADC_SR s .& _)); [| done].
  apply wlp_modify. rewrite (land_not_EOC s (a_sr _ Hinv)).
  assert (Hup : wlp stm32_ADC_update_irq (λ _ s' _, adc_inv s') (s <| ADC_SR := 0 |>)).
  { apply update_inv; try apply Hinv. by left. }
  apply wlp_bind. eapply wlp_mono; [exact Hup |]. intros [] s' t Hs'. exact Hs'.
Qed.

Lemma read_inv offset size : preserves adc_inv (stm32_adc_read offset size).
Proof.
  intros s Hinv. unfold stm32_adc_read. cbv zeta.
  repeat match goal with |- wlp (if ?b then _ else _) _ _ => destruct b end; try exact Hinv.
  apply wlp_bind. eapply wlp_mono; [exact (adc_DR_read_inv s Hinv) |]. intros v s' t Hs'. exact Hs'.
Qed.

Lemma adc_SR_write_inv v s : adc_inv s -> wlp (stm32_ADC_SR_write v) (λ _ s' _, adc_inv s') s.
Proof.
  intros Hinv. unfold stm32_ADC_SR_write.
  destruct (cbool (v .& ADC_SR_EOC)) eqn:H1; [done |]. destruct (cbool (v .& ADC_SR_JEOC)) eqn:H2; [done |].
  destruct (cbool (v .& ADC_SR_AWD)) eqn:H3; [done |]. destruct (cbool (v .& ADC_SR_JSTRT)) eqn:H4; [done |].
  destruct (cbool (v .& ADC_SR_STRT)) eqn:H5; [done |].
  change ADC_SR_EOC with (BIT 1) in H1. change ADC_SR_JEOC with (BIT 2) in H2. change ADC_SR_AWD with (BIT 0) in H3.
  change ADC_SR_JSTRT with (BIT 3) in H4. change ADC_SR_STRT with (BIT 4) in H5.
  rewrite cbool_BIT in H1, H2, H3, H4, H5 by lia.
  assert (Hv : v .& 0x1f = 0).
  { apply (bits_eq_upto 5); [lia | by apply (land_bound 5) | lia |]. intros i Hi. change 0x1f with (Z.ones 5).
    rewrite Z.bits_0, Z.land_spec, testbit_ones by lia.
    assert (i = 0 \/ i = 1 \/ i = 2 \/ i = 3 \/ i = 4) as [-> | [-> | [-> | [-> | ->]]]] by lia; by rewrite ?H1, ?H2, ?H3, ?H4, ?H5. }
  do 5 apply wlp_ret. apply wlp_modify. rewrite Hv. apply update_inv; try apply Hinv. by left.
Qed.

Lemma CR2_write_inv now r1 r2 v s :
  0 <= r1 -> 0 <= r2 -> adc_inv s -> wlp (stm32_ADC_CR2_write gpio sine now r1 r2 v) (λ _ s' _, adc_inv s') s.
Proof.
  intros H1 H2 Hinv. unfold stm32_ADC_CR2_write. apply wlp_modify, wlp_get. set (s1 := s <| ADC_CR2 := _ |>).
  assert (Hs1 : adc_inv s1) by (apply (inv_ext s); try reflexivity; try apply Hinv; done).
  destruct (cbool (ADC_CR2 s1 .& ADC_CR2_SWSTART)); [| exact Hs1]. cbn [when].
  destruct (negb _); [done |]. apply wlp_ret.
  unfold wlp. rewrite (bind_Done _ _ _ _ _ (channel_run s1)). unfold mbind, M_bind. rewrite gpio_check_run.
  destruct (pin_analog _); [| done]. rewrite start_conv_run by done.
  destruct (_ <=? 17); [by apply started_inv | done].
Qed.

Lemma write_inv now r1 r2 offset value size :
  0 <= r1 -> 0 <= r2 -> preserves adc_inv (stm32_adc_write rcc gpio sine now r1 r2 offset value size).
Proof.
  intros H1 H2 s Hinv. unfold stm32_adc_write. apply wlp_bind. unfold wlp at 1. cbn [gets].
  apply wlp_bind. unfold wlp at 1, check_periph_clk, assert_. destruct (periph_clocked _ _); [| done]. cbn.
  assert (Hgo : forall m : AdcM unit, (wlp m (λ _ s' _, adc_inv s') s) ->
    match when (negb (periph_enabled rcc (adc_periph s))) (emit (Report HwWarn)) s with
    | Done _ s' t => wlp m (λ _ s'' _, adc_inv s'') s' | Halt _ => True end).
  { intros m Hm. by destruct (negb _). }
  match goal with |- context [if offset .& 4294967292 =? oADC_SR then ?a else ?b] =>
    assert (Hm : wlp (if offset .& 4294967292 =? oADC_SR then a else b) (λ _ s' _, adc_inv s') s) end.
  { repeat match goal with |- wlp (if ?b then _ else _) _ _ => destruct b end; try other_register s Hinv.
    - by apply adc_SR_write_inv.
    - apply wlp_modify. apply update_inv; apply Hinv.
    - by apply CR2_write_inv.
    - unfold stm32_ADC_SQR1_write. destruct (1 <? _); [done |]. apply wlp_ret.
      other_register s Hinv. }
  destruct (negb (periph_enabled rcc (adc_periph s))); exact Hm.
Qed.

Lemma expire_inv : preserves adc_inv stm32_adc_conv_timer_expire.
Proof.
  intros s Hinv. unfold stm32_adc_conv_timer_expire, stm32_adc_conv_complete. apply wlp_modify.
  apply update_inv; try apply Hinv. right. unfold ADC_SR_EOC. cbn. by destruct (a_sr _ Hinv) as [-> | ->].
Qed.

Lemma reset_inv : preserves adc_inv stm32_adc_reset.
Proof.
  intros s Hinv. unfold stm32_adc_reset. apply wlp_modify. apply update_inv; try apply Hinv; [by left | cbn; lia].
Qed.

Lemma clk_handler_inv n level : preserves adc_inv (stm32_adc_clk_irq_handler rcc n level).
Proof.
  intros s Hinv. unfold stm32_adc_clk_irq_handler, assert_. destruct (n =? 0); [| done]. apply wlp_ret.
  destruct (cbool level); [| exact Hinv]. cbn [when]. unfold stm32_ADC_update_ns_per_sample, get_periph_freq, assert_.
  apply wlp_bind. unfold wlp at 1. cbn [gets]. apply wlp_bind. unfold wlp at 1.
  destruct (periph_clocked _ _); [| done]. unfold mbind, M_bind. cbn [mret M_ret]. pose proof (a_len _ Hinv) as Hl.
  match goal with |- wlp (if ?b then _ else _) _ _ => destruct b end.
  all: unfold wlp, modify; apply (inv_ext s); try reflexivity; try apply Hinv; try done; by rewrite Hl.
Qed.

(** Creation establishes the invariant. *)
Lemma init_ok p r1 r2 :
  0 <= r1 -> 0 <= r2 ->
  exists s, stm32_adc_init r1 r2 (adc_zero p) = Done () s [] /\ adc_inv s /\ adc_periph s = p /\ adc_irq_level s = 0.
Proof.
  intros H1 H2. pose proof (rand_volts_range r1 1200 H1 ltac:(lia)) as Hd. unfold stm32_adc_init.
  rewrite (bind_Done _ _ (adc_zero p) () (adc_zero p) eq_refl).
  rewrite (bind_Done _ _ _ _ _ (rand_volts_run r1 1200 _ ltac:(lia))), bind_modify.
  set (vdda := Z.rem r1 (1200 + 1) + 2400) in *.
  rewrite (bind_Done _ _ _ _ _ (rand_volts_run r2 (vdda - 2400) _ ltac:(lia))).
  pose proof (rand_volts_range r2 (vdda - 2400) H2 ltac:(lia)) as Hr.
  eexists. split; [reflexivity |]. split; [| done].
  split; try done; [by left | cbn; lia].
Qed.

(** What can happen to the device, with what it does to the outside; [rand] results are
    not negative. *)
Inductive adc_step : Stm32Adc → list dev_event → Stm32Adc → Prop :=
  | step_write now r1 r2 offset value size s s' t :
      0 <= r1 -> 0 <= r2 ->
      stm32_adc_write rcc gpio sine now r1 r2 offset value size s = Done () s' t -> adc_step s t s'
  | step_read offset size s v s' t : stm32_adc_read offset size s = Done v s' t -> adc_step s t s'
  | step_expire s s' t : stm32_adc_conv_timer_expire s = Done () s' t -> adc_step s t s'
  | step_clk n level s s' t : stm32_adc_clk_irq_handler rcc n level s = Done () s' t -> adc_step s t s'
  | step_reset s s' t : stm32_adc_reset s = Done () s' t -> adc_step s t s'.

(** The states from the creation on, with all the effects so far. *)
Inductive adc_history : list dev_event → Stm32Adc → Prop :=
  | history_init p r1 r2 s t :
      0 <= r1 -> 0 <= r2 -> stm32_adc_init r1 r2 (adc_zero p) = Done () s t -> adc_history t s
  | history_step h s t s' : adc_history h s -> adc_step s t s' -> adc_history (h ++ t) s'.

Lemma adc_step_inv s t s' : adc_step s t s' -> adc_inv s -> adc_inv s'.
Proof.
  assert (Hp : forall A (m : AdcM A) s a s' t, preserves adc_inv m -> m s = Done a s' t -> adc_inv s -> adc_inv s').
  { intros A m s0 a s1 t0 Hm Hrun Hinv. specialize (Hm s0 Hinv). unfold wlp in Hm. by rewrite Hrun in Hm. }
  intros Hstep. destruct Hstep; eapply Hp; try eassumption.
  - by apply write_inv.
  - apply read_inv.
  - apply expire_inv.
  - apply clk_handler_inv.
  - apply reset_inv.
Qed.

(** Every step leaves the line with the level that the device remembers. *)
Lemma adc_step_drives s t s' : adc_step s t s' -> line_level 0 (adc_irq_level s) t = adc_irq_level s'.
Proof.
  assert (Hp : forall A (m : AdcM A) s a s' t, drives 0 adc_irq_level m -> m s = Done a s' t ->
    line_level 0 (adc_irq_level s) t = adc_irq_level s').
  { intros A m s0 a s1 t0 Hm Hrun. specialize (Hm s0). unfold wlp in Hm. by rewrite Hrun in Hm. }
  intros Hstep. destruct Hstep; eapply Hp; try eassumption; adc_drive.
Qed.

(** C38 (adc_invariant).  In every state that the converter reaches from its creation the
    status register holds at most EOC, the voltages and the result are in their ranges (the
    result has twelve bits) and, as long as JEOCIE is off, a completed
    conversion with EOCIE has its interrupt on the output line (as the calls of
    [qemu_set_irq] so far have left it, low at first) and the line is only
    high when EOCIE is set. *)
Theorem adc_invariant h s :
  adc_history h s ->
  (ADC_SR s = 0 \/ ADC_SR s = ADC_SR_EOC) /\ 2400 <= adc_Vref s <= adc_Vdda s /\ adc_Vdda s <= 3600 /\
  0 <= ADC_DR s < 4096 /\
  (JEOCIE s = false -> b2z (EOC s && EOCIE s) <= line_level 0 0 h <= b2z (EOCIE s)).
Proof.
  intros Hr. assert (adc_inv s /\ line_level 0 0 h = adc_irq_level s) as [Hinv ->].
  { induction Hr as [p r1 r2 s t H1 H2 Hi | h s t s' _ [IH Hl] Hstep].
    - destruct (init_ok p r1 r2 H1 H2) as (s1 & Hrun & Hinv & _ & Hl). rewrite Hrun in Hi. by injection Hi as <- <-.
    - split; [exact (adc_step_inv s t s' Hstep IH) |]. rewrite line_level_app, Hl. by apply adc_step_drives. }
  destruct Hinv. by split_and!; try lia.
Qed.

(** ** Runs of the operations *)

Lemma write_run now r1 r2 reg v size s (m : AdcM unit) s' t :
  periph_clocked rcc (adc_periph s) = true ->
  (forall s, stm32_adc_write rcc gpio sine now r1 r2 reg v size s =
     (p ← gets adc_periph; check_periph_clk rcc p ;; m) s) ->
  m s = Done () s' t ->
  stm32_adc_write rcc gpio sine now r1 r2 reg v size s = Done () s' (clk_warning rcc (adc_periph s) ++ t).
Proof.
  intros Hc Hw Hm. rewrite Hw, bind_gets. apply (bind_Done_trace _ _ _ _ _ _ _ _ _ (check_periph_clk_ok rcc _ s Hc) Hm).
Qed.

Lemma start_bits v s :
  Z.testbit v 22 = true -> cbool (ADC_CR2 (s <| ADC_CR2 := v .& 0x00fef90f |>) .& ADC_CR2_SWSTART) = true /\
  cbool (ADC_CR2 (s <| ADC_CR2 := v .& 0x00fef90f |>) .& ADC_CR2_ADON) = Z.testbit v 0.
Proof.
  intros H22. cbn [ADC_CR2 set_field Stm32Adc_settable]. change ADC_CR2_SWSTART with (BIT 22). change ADC_CR2_ADON with (BIT 0).
  rewrite !cbool_BIT, !Z.land_spec, H22 by lia. split; [done |].
  change (Z.testbit 0x00fef90f 0) with true. by rewrite andb_true_r.
Qed.

(** Writing SWSTART: what has to hold, in the order of the checks. *)
Lemma CR2_start_run now r1 r2 v s :
  adc_inv s -> 0 <= r1 -> 0 <= r2 -> Z.testbit v 22 = true ->
  let s0 := s <| ADC_CR2 := v .& 0x00fef90f |> in
  stm32_ADC_CR2_write gpio sine now r1 r2 v s =
    if Z.testbit v 0 then
      if pin_analog (first_channel s) then
        if first_channel s <=? 17
        then Done () (started sine now r1 r2 s0) [TimerMod 0 (i64 (u64 (now + sample_ns s (first_channel s))))]
        else Halt AssertFailed
      else Halt HwError
    else Halt HwError.
Proof.
  intros Hinv H1 H2 Hv s0. unfold stm32_ADC_CR2_write. rewrite bind_modify, bind_get. fold s0.
  destruct (start_bits v s Hv) as [Hsw Hon]. fold s0 in Hsw, Hon. rewrite Hsw, Hon. cbn [when].
  destruct (Z.testbit v 0); [| done]. cbn [negb]. rewrite (bind_Done _ _ s0 () s0 eq_refl).
  rewrite (bind_Done _ _ _ _ _ (channel_run s0)). change (first_channel s0) with (first_channel s).
  pose proof (gpio_check_run (first_channel s) s0) as Hg. destruct (pin_analog (first_channel s)).
  - rewrite (bind_Done _ _ _ _ _ Hg). apply (start_conv_run sine now r1 r2 s0); try done.
    apply (inv_ext s); try reflexivity; try apply Hinv; done.
  - unfold mbind, M_bind. by rewrite Hg.
Qed.

Lemma DR_word_read s :
  adc_inv s -> stm32_adc_read oADC_DR 4 s =
    if Z.testbit (ADC_CR2 s) 0 && EOC s
    then Done (ADC_DR s) (updated (s <| ADC_SR := 0 |>)) (line_change (s <| ADC_SR := 0 |>) (updated (s <| ADC_SR := 0 |>)))
    else Halt HwError.
Proof.
  intros Hinv. change (stm32_adc_read oADC_DR 4 s) with ((v ← stm32_ADC_DR_read; mret (extract64 v 0 32)) s).
  unfold stm32_ADC_DR_read. change ADC_CR2_ADON with (BIT 0).
  assert (He : cbool (ADC_SR s .& ADC_SR_EOC) = EOC s) by (change ADC_SR_EOC with (BIT 1); by rewrite cbool_BIT).
  unfold mbind at 1, M_bind at 1. rewrite bind_get, cbool_BIT, He by lia.
  destruct (Z.testbit (ADC_CR2 s) 0); [| done]. cbn [negb andb]. rewrite (bind_Done _ _ s () s eq_refl).
  destruct (EOC s); [| done]. rewrite bind_modify, (land_not_EOC s (a_sr _ Hinv)).
  set (s1 := s <| ADC_SR := 0 |>). rewrite (bind_Done_trace _ _ _ _ _ _ _ _ _ (update_irq_run s1) (eq_refl : gets ADC_DR (updated s1) = _)).
  cbn [mret M_ret]. rewrite !app_nil_r. f_equal.
  assert (Hdr : ADC_DR (updated s1) = ADC_DR s) by by rewrite updated_fields. rewrite Hdr.
  unfold extract64. change (0xffffffff) with (Z.ones 32). rewrite Z.shiftr_0_r, Z.land_ones by lia.
  apply Z.mod_small. pose proof (a_dr _ Hinv). lia.
Qed.

Lemma expire_run s :
  adc_inv s -> let s1 := s <| ADC_SR := ADC_SR_EOC |> in
  stm32_adc_conv_timer_expire s = Done () (updated s1) (line_change s1 (updated s1)).
Proof.
  intros Hinv s1. unfold stm32_adc_conv_timer_expire, stm32_adc_conv_complete. rewrite bind_modify.
  assert (He : ADC_SR s .| ADC_SR_EOC = ADC_SR_EOC) by by destruct (a_sr _ Hinv) as [-> | ->].
  rewrite He. apply update_irq_run.
Qed.

(** C37 (adc_conversion).  On a clocked converter with JEOCIE off whose first channel
    exists and whose pin is an analog input, a conversion that the guest starts with a
    write of ADON and SWSTART completes: the timer is programmed with the sampling time of
    the channel (which must end before the virtual clock overflows) and nothing else
    happens to the outside, its expiry sets EOC and sets the output line to EOCIE (with one
    [qemu_set_irq] when its level changes), the data register then reads the sample taken
    at the start, the read clears EOC and sets the line low (again by [qemu_set_irq], when
    it was high), and a second read stops the emulator. *)
Theorem adc_conversion now r1 r2 v s :
  adc_inv s -> periph_clocked rcc (adc_periph s) = true -> JEOCIE s = false ->
  0 <= r1 -> 0 <= r2 -> 0 <= v < 2 ^ 32 -> Z.testbit v 22 = true -> Z.testbit v 0 = true ->
  first_channel s <= 17 -> pin_analog (first_channel s) = true ->
  0 <= now + sample_ns s (first_channel s) < 2 ^ 63 ->
  exists s1 s2 s3,
    stm32_adc_write rcc gpio sine now r1 r2 oADC_CR2 v 4 s =
      Done () s1 (clk_warning rcc (adc_periph s) ++ [TimerMod 0 (now + sample_ns s (first_channel s))]) /\
    EOC s1 = false /\
    stm32_adc_conv_timer_expire s1 = Done () s2 (line_to (adc_irq_level s) (b2z (EOCIE s))) /\
    EOC s2 = true /\ adc_irq_level s2 = b2z (EOCIE s) /\
    stm32_adc_read oADC_DR 4 s2 = Done (result sine now r1 r2 s) s3 (line_to (b2z (EOCIE s)) 0) /\
    EOC s3 = false /\ adc_irq_level s3 = 0 /\
    stm32_adc_read oADC_DR 4 s3 = Halt HwError.
Proof.
  intros Hinv Hclk Hj H1 H2 Hv H22 H0' Hch Hpin Hfit. set (s0 := s <| ADC_CR2 := v .& 0x00fef90f |>).
  assert (Hinv0 : adc_inv s0) by (apply (inv_ext s); try reflexivity; try apply Hinv; done).
  set (s1 := started sine now r1 r2 s0). assert (Hinv1 : adc_inv s1) by by apply started_inv.
  pose proof (expire_run s1 Hinv1) as Hexp. cbv zeta in Hexp. set (s1e := s1 <| ADC_SR := ADC_SR_EOC |>) in Hexp.
  set (s2 := updated s1e) in *. assert (Hinv2 : adc_inv s2).
  { pose proof (expire_inv s1 Hinv1) as Hw. unfold wlp in Hw. by rewrite Hexp in Hw. }
  assert (Hs2 : s2 = s1e <| adc_irq_level := adc_irq_level s2 |>) by apply updated_fields.
  assert (HE : EOC s2 = true) by by rewrite Hs2.
  assert (Hon : Z.testbit (ADC_CR2 s2) 0 = true).
  { rewrite Hs2. change (ADC_CR2 _) with ((v .& 0x00fef90f) .& not32 ADC_CR2_SWSTART).
    rewrite !Z.land_spec, H0'. reflexivity. }
  pose proof (DR_word_read s2 Hinv2) as Hrd. rewrite HE, Hon in Hrd. cbn [andb] in Hrd.
  set (s2r := s2 <| ADC_SR := 0 |>) in Hrd. set (s3 := updated s2r) in *.
  assert (Hinv3 : adc_inv s3).
  { pose proof (read_inv oADC_DR 4 s2 Hinv2) as Hw. unfold wlp in Hw. by rewrite Hrd in Hw. }
  assert (Hs3 : EOC s3 = false) by (subst s3; by rewrite updated_fields).
  assert (Hl2 : adc_irq_level s2 = b2z (EOCIE s)).
  { change (adc_irq_level (updated s1e) = b2z (EOCIE s)). rewrite (updated_line s1e); [done | by right | exact Hj]. }
  assert (Hj2 : JEOCIE s2r = false) by (change (JEOCIE s2 = false); rewrite Hs2; exact Hj).
  exists s1, s2, s3. split_and!; try done.
  - apply (write_run now r1 r2 oADC_CR2 v 4 s (stm32_ADC_CR2_write gpio sine now r1 r2 (u32 v))); [done | done |].
    rewrite u32_small, CR2_start_run, H0', Hpin, (proj2 (Z.leb_le _ _) Hch) by done.
    rewrite u64_small, i64_small by lia. done.
  - rewrite Hexp. f_equal. apply (updated_events s1e); [by right | exact Hj].
  - rewrite Hrd. f_equal; [by rewrite Hs2 |]. rewrite <- Hl2. apply (updated_events s2r); [by left | exact Hj2].
  - change (adc_irq_level (updated s2r) = 0). rewrite (updated_line s2r); [done | by left | exact Hj2].
  - rewrite DR_word_read, Hs3, andb_false_r by done. done.
Qed.

(** What a word write to the register [reg] is checked for. *)
Definition write_fault (s : Stm32Adc) (reg v : Z) : option fault :=
  if reg =? oADC_SR then if cbool (v .& 0x1f) then Some HwError else None
  else if reg =? oADC_SQR1 then if 1 <? ((v >> 20) .& 0xf) then Some HwError else None
  else if (reg =? oADC_CR2) && Z.testbit v 22 then
    if negb (Z.testbit v 0) || negb (pin_analog (first_channel s)) then Some HwError
    else if 17 <? first_channel s then Some AssertFailed else None
  else None.

Lemma land31_zero v :
  v .& 0x1f = 0 <-> Z.testbit v 0 = false /\ Z.testbit v 1 = false /\ Z.testbit v 2 = false /\
    Z.testbit v 3 = false /\ Z.testbit v 4 = false.
Proof.
  split.
  - intros Hz. assert (Hb : forall i, 0 <= i < 5 -> Z.testbit v i = false).
    { intros i Hi. pose proof (f_equal (λ x, Z.testbit x i) Hz) as Hx. cbv beta in Hx. change 0x1f with (Z.ones 5) in Hx.
      rewrite Z.land_spec, testbit_ones, Z.bits_0 in Hx by lia. rewrite (proj2 (Z.ltb_lt i 5)) in Hx by lia.
      by rewrite andb_true_r in Hx. }
    split_and!; by apply Hb.
  - intros (B0 & B1 & B2 & B3 & B4). apply (bits_eq_upto 5); [lia | by apply (land_bound 5) | lia |].
    intros i Hi. change 0x1f with (Z.ones 5). rewrite Z.bits_0, Z.land_spec, testbit_ones by lia.
    assert (i = 0 \/ i = 1 \/ i = 2 \/ i = 3 \/ i = 4) as [-> | [-> | [-> | [-> | ->]]]] by lia;
      by rewrite ?B0, ?B1, ?B2, ?B3, ?B4.
Qed.

Lemma SR_write_run v s :
  stm32_ADC_SR_write v s =
    if cbool (v .& 0x1f) then Halt HwError
    else Done () (updated (s <| ADC_SR := 0 |>)) (line_change (s <| ADC_SR := 0 |>) (updated (s <| ADC_SR := 0 |>))).
Proof.
  unfold stm32_ADC_SR_write. change ADC_SR_EOC with (BIT 1). change ADC_SR_JEOC with (BIT 2).
  change ADC_SR_AWD with (BIT 0). change ADC_SR_JSTRT with (BIT 3). change ADC_SR_STRT with (BIT 4).
  rewrite !cbool_BIT by lia. pose proof (land31_zero v) as Hz. unfold cbool.
  destruct (Z.eqb_spec (v .& 0x1f) 0) as [H0' | Hne]; cbn [negb].
  - destruct (proj1 Hz H0') as (-> & -> & -> & -> & ->). do 5 rewrite (bind_Done _ _ s () s eq_refl).
    rewrite bind_modify, H0'. apply update_irq_run.
  - unfold mbind, M_bind. destruct (Z.testbit v 1) eqn:B1; [done |]. destruct (Z.testbit v 2) eqn:B2; [done |].
    destruct (Z.testbit v 0) eqn:B0; [done |]. destruct (Z.testbit v 3) eqn:B3; [done |].
    destruct (Z.testbit v 4) eqn:B4; [done |]. destruct Hne. by apply Hz.
Qed.

Definition stops (m : AdcM unit) (s : Stm32Adc) (f : option fault) : Prop :=
  match f with Some f => m s = Halt f | None => exists s' t, m s = Done () s' t end.

Lemma CR2_write_stops now r1 r2 v s :
  adc_inv s -> 0 <= r1 -> 0 <= r2 ->
  stops (stm32_ADC_CR2_write gpio sine now r1 r2 v) s (write_fault s oADC_CR2 v).
Proof.
  intros Hinv H1 H2. unfold write_fault. change (oADC_CR2 =? oADC_SR) with false. change (oADC_CR2 =? oADC_SQR1) with false.
  change (oADC_CR2 =? oADC_CR2) with true. cbn [andb]. destruct (Z.testbit v 22) eqn:H22.
  - pose proof (CR2_start_run now r1 r2 v s Hinv H1 H2 H22) as Hr. cbv zeta in Hr.
    destruct (Z.testbit v 0), (pin_analog (first_channel s)); cbn [negb orb]; unfold stops; try exact Hr.
    destruct (Z.leb_spec (first_channel s) 17); [rewrite (proj2 (Z.ltb_ge 17 _)) by done | rewrite (proj2 (Z.ltb_lt 17 _)) by done].
    + eexists _, _. exact Hr.
    + exact Hr.
  - unfold stops, stm32_ADC_CR2_write. rewrite bind_modify, bind_get. cbn [ADC_CR2 set_field Stm32Adc_settable].
    change ADC_CR2_SWSTART with (BIT 22). rewrite cbool_BIT, Z.land_spec, H22 by lia. by eexists _, _.
Qed.

(** Decide the comparisons of register numbers. *)
Ltac closed_if :=
  repeat match goal with
    | |- context [if ?a =? ?b then _ else _] =>
        first [change (a =? b) with true | change (a =? b) with false]; cbv iota
    end.

(** A word write stops the emulator exactly when it sets a bit of
    the status register, asks for a sequence of more than two conversions, or
    starts a conversion on a disabled converter, on a pin that is no analog
    input or on a channel beyond 17; every other write succeeds. *)
Theorem adc_write_stops now r1 r2 reg v s :
  adc_inv s -> periph_clocked rcc (adc_periph s) = true -> 0 <= r1 -> 0 <= r2 -> 0 <= v < 2 ^ 32 ->
  reg .& 0xfffffffc = reg ->
  match write_fault s reg v with
  | Some f => stm32_adc_write rcc gpio sine now r1 r2 reg v 4 s = Halt f
  | None => exists s' t, stm32_adc_write rcc gpio sine now r1 r2 reg v 4 s = Done () s' t
  end.
Proof.
  intros Hinv Hclk H1 H2 Hv Hreg. change (stops (stm32_adc_write rcc gpio sine now r1 r2 reg v 4) s (write_fault s reg v)).
  assert (Hpre : forall m : AdcM unit, stops m s (write_fault s reg v) ->
    stops (p ← gets adc_periph; check_periph_clk rcc p ;; m) s (write_fault s reg v)).
  { intros m. unfold stops. rewrite bind_gets. unfold mbind, M_bind. rewrite check_periph_clk_ok by done.
    destruct (write_fault s reg v); [by intros -> | intros (s' & t & ->); by eexists _, _]. }
  apply Hpre. clear Hpre. rewrite Hreg, u32_small by done.
  destruct (Z.eqb_spec reg oADC_SR) as [-> |]; [| destruct (Z.eqb_spec reg oADC_CR1) as [-> |];
    [| destruct (Z.eqb_spec reg oADC_CR2) as [-> | Hcr2]]].
  - unfold stops, write_fault. closed_if. rewrite SR_write_run. destruct (cbool _); [done | by eexists _, _].
  - change (write_fault s oADC_CR1 v) with (None : option fault). unfold stops. closed_if.
    rewrite bind_modify, update_irq_run. by eexists _, _.
  - closed_if. by apply CR2_write_stops.
  - unfold stops, write_fault. rewrite (proj2 (Z.eqb_neq reg oADC_SR)), (proj2 (Z.eqb_neq reg oADC_CR2)) by done.
    cbn [andb]. destruct (Z.eqb_spec reg oADC_SQR1) as [-> |].
    + closed_if. unfold stm32_ADC_SQR1_write. destruct (1 <? _); [done | by eexists _, _].
    + repeat match goal with |- context [(if ?b then _ else _) s] => destruct b end;
        rewrite ?bind_modify, ?update_irq_run; by eexists _, _.
Qed.

End Invariant.

(** ** Examples *)

(** The converter after its creation, with a clock of 8 MHz; the ports have
    analog inputs. *)
Definition demo_adc : Stm32Adc :=
  Eval vm_compute in
  match (stm32_adc_init 0 0 ;; stm32_adc_clk_irq_handler (8000000 : Z) 0 1) (adc_zero STM32_ADC1) with
  | Done _ s _ => s | Halt _ => adc_zero STM32_ADC1
  end.

Definition demo_ports (_ : Z) : Z * Z := (STM32_GPIO_MODE_IN, STM32_GPIO_IN_ANALOG).

Lemma demo_adc_inv : adc_inv demo_adc.
Proof. split; try done; by left. Qed.

(** The converter with EOCIE set, before, during and after its first conversion. *)
Definition demo_eocie : Stm32Adc := demo_adc <| ADC_CR1 := ADC_CR1_EOCIE |>.
Definition demo_started : Stm32Adc := demo_eocie <| ADC_CR2 := 1 |> <| ADC_DR := 1024 |>.
Definition demo_converted : Stm32Adc := demo_started <| ADC_SR := ADC_SR_EOC |> <| adc_irq_level := 1 |>.

Lemma adc_invariant_witness :
  let h := [TimerMod 0 1187; SetIrq 0 1] in
  line_level 0 0 h = 1 /\
  ((ADC_SR demo_converted = 0 \/ ADC_SR demo_converted = ADC_SR_EOC) /\
   2400 <= adc_Vref demo_converted <= adc_Vdda demo_converted /\ adc_Vdda demo_converted <= 3600 /\
   0 <= ADC_DR demo_converted < 4096 /\
   (JEOCIE demo_converted = false ->
    b2z (EOC demo_converted && EOCIE demo_converted) <= line_level 0 0 h <= b2z (EOCIE demo_converted))).
Proof.
  pose (step := adc_step (8000000 : Z) demo_ports (λ _, 1024)).
  pose (history := adc_history (8000000 : Z) demo_ports (λ _, 1024)).
  assert (H0 : history [] demo_adc).
  { eapply (history_step _ _ _ [] _ []).
    - apply (history_init _ _ _ STM32_ADC1 0 0 _ []); [done | done | vm_compute; reflexivity].
    - apply (step_clk _ _ _ 0 1). vm_compute. reflexivity. }
  assert (H1 : step demo_adc [] demo_eocie).
  { apply (step_write _ _ _ 0 0 0 oADC_CR1 ADC_CR1_EOCIE 4); [done | done | vm_compute; reflexivity]. }
  assert (H2 : step demo_eocie [TimerMod 0 1187] demo_started).
  { apply (step_write _ _ _ 1000 0 0 oADC_CR2 0x400001 4); [done | done | vm_compute; reflexivity]. }
  assert (H3 : step demo_started [SetIrq 0 1] demo_converted) by (apply step_expire; vm_compute; reflexivity).
  intros h. split; [reflexivity |]. apply (adc_invariant (8000000 : Z) demo_ports (λ _, 1024) h).
  exact (history_step _ _ _ _ _ _ _ (history_step _ _ _ _ _ _ _ (history_step _ _ _ _ _ _ _ H0 H1) H2) H3).
Defined.

Lemma adc_conversion_witness :
  exists s1 s2 s3,
    stm32_adc_write (8000000 : Z) demo_ports (λ _, 1024) 1000 0 0 oADC_CR2 0x400001 4 demo_eocie =
      Done () s1 [TimerMod 0 1187] /\
    EOC s1 = false /\
    stm32_adc_conv_timer_expire s1 = Done () s2 [SetIrq 0 1] /\ EOC s2 = true /\ adc_irq_level s2 = 1 /\
    stm32_adc_read oADC_DR 4 s2 = Done 1024 s3 [SetIrq 0 0] /\ EOC s3 = false /\ adc_irq_level s3 = 0 /\
    stm32_adc_read oADC_DR 4 s3 = Halt HwError.
Proof.
  assert (E1 : clk_warning (8000000 : Z) (adc_periph demo_eocie) = []) by (vm_compute; reflexivity).
  assert (E2 : sample_ns demo_eocie (first_channel demo_eocie) = 187) by (vm_compute; reflexivity).
  assert (E3 : b2z (EOCIE demo_eocie) = 1) by (vm_compute; reflexivity).
  assert (E4 : result (λ _, 1024) 1000 0 0 demo_eocie = 1024) by (vm_compute; reflexivity).
  assert (Hinv : adc_inv demo_eocie) by (split; try done; by left).
  pose proof (adc_conversion (8000000 : Z) demo_ports (λ _, 1024) 1000 0 0 0x400001 demo_eocie Hinv
    eq_refl eq_refl ltac:(lia) ltac:(lia) ltac:(lia) eq_refl eq_refl) as Hc.
  rewrite E1, E2, E3, E4 in Hc. apply Hc; [vm_compute; discriminate | reflexivity | lia].
Defined.

Lemma adc_write_stops_witness :
  write_fault demo_ports demo_adc oADC_SR 0x2 = Some HwError /\
  stm32_adc_write (8000000 : Z) demo_ports (λ _, 1024) 1000 0 0 oADC_SR 0x2 4 demo_adc = Halt HwError.
Proof.
  split; [reflexivity |].
  apply (adc_write_stops (8000000 : Z) demo_ports (λ _, 1024) 1000 0 0 oADC_SR 0x2 demo_adc demo_adc_inv); done || lia.
Defined.

(** With JEOCIE the computed level is 2, and the line stays high although no
    enabled flag is set. *)
Example jeocie_keeps_line :
  let s := demo_adc <| ADC_SR := ADC_SR_EOC |> <| ADC_CR1 := ADC_CR1_EOCIE |> <| adc_irq_level := 1 |> in
  stm32_adc_write (8000000 : Z) demo_ports (λ _, 0) 0 0 0 oADC_CR1 ADC_CR1_JEOCIE 4 s =
    Done () (s <| ADC_CR1 := ADC_CR1_JEOCIE |> <| adc_irq_level := 2 |>) [SetIrq 0 2].
Proof. vm_compute. reflexivity. Qed.
