(* ===== verification/Dac.v ===== *)
(** * The digital to analog converter ([hw/arm/stm32_dac.c])

    A write to a data holding register reaches the output register one clock
    cycle later and the analog output three cycles after that.  The timers are
    numbered in the order of [stm32_dac_init]: 0 and 1 load the output
    registers, 2 and 3 update the triangle counters, 4 and 5 convert, 6 updates
    the noise register.  [Output c v] is the line that a conversion prints and
    appends to the output file of the channel; failures of the host's file
    system are not modelled. *)

From S2P Require Import Prelude Stm32.
Open Scope Z_scope.

Definition DAC_CR_OFFSET : Z := 0x00.
Definition DAC_CR_WAVE1_START : Z := 6.
Definition DAC_CR_WAVE2_START : Z := 22.
Definition DAC_CR_MAMP1_START : Z := 8.
Definition DAC_CR_MAMP2_START : Z := 24.
Definition DAC_CR_TEN1_BIT : Z := 2.
Definition DAC_CR_TEN2_BIT : Z := 18.
Definition DAC_CR_TSEL1_START : Z := 3.
Definition DAC_CR_TSEL2_START : Z := 19.
Definition DAC_SWTRIGR1_MASK : Z := 0x00000001.
Definition DAC_SWTRIGR2_MASK : Z := 0x00000002.
Definition DAC_SWTRIGR_OFFSET : Z := 0x04.
Definition DAC_DHR12R1_OFFSET : Z := 0x08.
Definition DAC_DHR12L1_OFFSET : Z := 0x0c.
Definition DAC_DHR8R1_OFFSET : Z := 0x10.
Definition DAC_DHR12R2_OFFSET : Z := 0x14.
Definition DAC_DHR12L2_OFFSET : Z := 0x18.
Definition DAC_DHR8R2_OFFSET : Z := 0x1c.
Definition DAC_DHR12RD_OFFSET : Z := 0x20.
Definition DAC_DHR12LD_OFFSET : Z := 0x24.
Definition DAC_DHR8RD_OFFSET : Z := 0x28.
Definition DAC_DOR1_OFFSET : Z := 0x2c.
Definition DAC_DOR2_OFFSET : Z := 0x30.

Record Stm32Dac : Type := mkDac {
  dac_periph : Z;
  ns_per_cycle : Z;
  DAC_CR : Z; DAC_SWTRIGR : Z; DAC_DOR1 : Z; DAC_DOR2 : Z;
  DAC_DHR12R1 : Z; DAC_DHR12L1 : Z; DAC_DHR8R1 : Z;
  DAC_DHR12R2 : Z; DAC_DHR12L2 : Z; DAC_DHR8R2 : Z;
  DAC_DHR12RD : Z; DAC_DHR12LD : Z; DAC_DHR8RD : Z;
  LFSR_VALUE : Z; DACC1_DHR : Z; DACC2_DHR : Z; TRI_CNT1 : Z; TRI_CNT2 : Z;
  inc_cnt1 : bool; inc_cnt2 : bool;
  dac_Vref : Z
}.

#[export] Instance Stm32Dac_settable : Settable Stm32Dac := λ s,
  mkDac (dac_periph s) (ns_per_cycle s) (DAC_CR s) (DAC_SWTRIGR s) (DAC_DOR1 s) (DAC_DOR2 s)
    (DAC_DHR12R1 s) (DAC_DHR12L1 s) (DAC_DHR8R1 s) (DAC_DHR12R2 s) (DAC_DHR12L2 s) (DAC_DHR8R2 s)
    (DAC_DHR12RD s) (DAC_DHR12LD s) (DAC_DHR8RD s)
    (LFSR_VALUE s) (DACC1_DHR s) (DACC2_DHR s) (TRI_CNT1 s) (TRI_CNT2 s) (inc_cnt1 s) (inc_cnt2 s) (dac_Vref s).

Abbreviation DacM := (M dev_event Stm32Dac).

Definition DOR1_timer : Z := 0.
Definition DOR2_timer : Z := 1.
Definition TRI_CNT1_timer : Z := 2.
Definition TRI_CNT2_timer : Z := 3.
Definition CONV1_timer : Z := 4.
Definition CONV2_timer : Z := 5.
Definition LFSR_timer : Z := 6.

(** [timer_mod(timer, curr_time + n*s->ns_per_cycle)]. *)
Definition timer_in (timer now n : Z) : DacM unit :=
  s ← get; emit (TimerMod timer (i64 (u64 (now + n * ns_per_cycle s)))).

(** ** Noise and triangle generators *)

(** The loop that computes [nor]. *)
Definition lfsr_nor (v : Z) : Z :=
  foldl (λ nor i, b2z (negb (cbool (nor .| extract32 v i 1)))) (extract32 v 0 1) (zrange 1 11).

Definition stm32_dac_LFSR_update : DacM unit :=
  s ← get;
  let v := LFSR_VALUE s in
  let xor := extract32 v 0 1 .^ extract32 v 1 1 .^ extract32 v 4 1 .^ extract32 v 6 1 .^ lfsr_nor v in
  modify (λ s, s <| LFSR_VALUE := u16 ((v >> 1) .| (xor << 11)) |>).

(** The amplitude field, at most 11. *)
Definition mamp (cr start : Z) : Z :=
  let MAMP := extract32 cr start 4 in if 11 <? MAMP then 11 else MAMP.

Definition stm32_dac_triangular_cnt1_update : DacM unit :=
  s ← get;
  let max_amplitude := u16 ((1 << (mamp (DAC_CR s) DAC_CR_MAMP1_START + 1)) - 1) in
  (if inc_cnt1 s then modify (λ s, s <| TRI_CNT1 := u16 (TRI_CNT1 s + 1) |>)
   else modify (λ s, s <| TRI_CNT1 := u16 (TRI_CNT1 s - 1) |>)) ;;
  s ← get;
  when (max_amplitude <=? TRI_CNT1 s) (modify (λ s, s <| inc_cnt1 := false |>)) ;;
  when (TRI_CNT1 s <=? 0) (modify (λ s, s <| inc_cnt1 := true |>)).

Definition stm32_dac_triangular_cnt2_update : DacM unit :=
  s ← get;
  let max_amplitude := u16 ((1 << (mamp (DAC_CR s) DAC_CR_MAMP2_START + 1)) - 1) in
  (if inc_cnt2 s then modify (λ s, s <| TRI_CNT2 := u16 (TRI_CNT2 s + 1) |>)
   else modify (λ s, s <| TRI_CNT2 := u16 (TRI_CNT2 s - 1) |>)) ;;
  s ← get;
  when (max_amplitude <=? TRI_CNT2 s) (modify (λ s, s <| inc_cnt2 := false |>)) ;;
  when (TRI_CNT2 s <=? 0) (modify (λ s, s <| inc_cnt2 := true |>)).

(** ** Loading the output registers *)

Definition stm32_dac_load_DOR1_registre (now : Z) : DacM unit :=
  modify (λ s, s <| DAC_DOR1 := DACC1_DHR s |>) ;;
  s ← get;
  when (cbool (extract32 (DAC_CR s) DAC_CR_TEN1_BIT 1) && cbool (extract32 (DAC_SWTRIGR s) 0 1))
    (let WAVE1 := extract32 (DAC_CR s) DAC_CR_WAVE1_START 2 in
     let MAMP1 := mamp (DAC_CR s) DAC_CR_MAMP1_START in
     when (1 <? WAVE1)
       (modify (λ s, s <| DAC_DOR1 := u32 (DAC_DOR1 s + TRI_CNT1 s) |>) ;; timer_in TRI_CNT1_timer now 3) ;;
     when (WAVE1 =? 1)
       (let MASK_LFSR := (1 << (MAMP1 + 1)) - 1 in
        modify (λ s, s <| DAC_DOR1 := u32 (DAC_DOR1 s + (LFSR_VALUE s .& MASK_LFSR)) |>) ;;
        timer_in LFSR_timer now 3) ;;
     modify (λ s, s <| DAC_SWTRIGR := DAC_SWTRIGR s .& not32 DAC_SWTRIGR1_MASK |>)) ;;
  timer_in CONV1_timer now 3.

Definition stm32_dac_load_DOR2_registre (now : Z) : DacM unit :=
  modify (λ s, s <| DAC_DOR2 := DACC2_DHR s |>) ;;
  s ← get;
  when (cbool (extract32 (DAC_CR s) DAC_CR_TEN2_BIT 1) && cbool (extract32 (DAC_SWTRIGR s) 1 1))
    (let WAVE2 := extract32 (DAC_CR s) DAC_CR_WAVE2_START 2 in
     let MAMP2 := mamp (DAC_CR s) DAC_CR_MAMP2_START in
     when (1 <? WAVE2)
       (modify (λ s, s <| DAC_DOR2 := u32 (DAC_DOR2 s + TRI_CNT2 s) |>) ;; timer_in TRI_CNT2_timer now 3) ;;
     when (WAVE2 =? 1)
       (let MASK_LFSR := (1 << (MAMP2 + 1)) - 1 in
        modify (λ s, s <| DAC_DOR2 := u32 (DAC_DOR2 s + (LFSR_VALUE s .& MASK_LFSR)) |>) ;;
        timer_in LFSR_timer now 3) ;;
     modify (λ s, s <| DAC_SWTRIGR := DAC_SWTRIGR s .& not32 DAC_SWTRIGR2_MASK |>)) ;;
  timer_in CONV2_timer now 3.

(** ** Register writes *)

Definition stm32_dac_write_DACC1_DHR (now value : Z) : DacM unit :=
  modify (λ s, s <| DACC1_DHR := u16 value |>) ;;
  s ← get;
  when (negb (cbool (extract32 (DAC_CR s) DAC_CR_TEN1_BIT 1))) (timer_in DOR1_timer now 1).

Definition stm32_dac_write_DACC2_DHR (now value : Z) : DacM unit :=
  modify (λ s, s <| DACC2_DHR := u16 value |>) ;;
  s ← get;
  when (negb (cbool (extract32 (DAC_CR s) DAC_CR_TEN2_BIT 1))) (timer_in DOR2_timer now 1).

Definition stm32_dac_write_DAC_SWTRIGR (now value : Z) : DacM unit :=
  modify (λ s, s <| DAC_SWTRIGR := value .& 3 |>) ;;
  when (cbool (value .& DAC_SWTRIGR1_MASK)) (timer_in DOR1_timer now 1) ;;
  when (cbool (value .& DAC_SWTRIGR2_MASK)) (timer_in DOR2_timer now 1).

(** A trigger selection other than 0 and 7 is refused. *)
Definition tsel_refused (cr start : Z) : bool :=
  negb (((cr >> start) .& 7) =? 0) && negb (((cr >> start) .& 7) =? 7).

Section Device.
  Context {R G : Type} `{PeriphClocks R} `{PinConfig G}.
  Context (rcc : R) (gpio : Z → G).

Definition stm32_dac_clk_irq_handler (n level : Z) : DacM unit :=
  p ← gets dac_periph;
  clk_freq ← get_periph_freq rcc p;
  if clk_freq =? 0 then halt DivByZero
  else modify (λ s, s <| ns_per_cycle := 1000000000 / clk_freq |>).

Definition stm32_dac_check_pin (pin : Z) : DacM unit :=
  let gpio_dev := gpio (STM32_GPIO_INDEX_FROM_PERIPH STM32_GPIOA) in
  (if negb (pin_mode gpio_dev pin =? STM32_GPIO_MODE_IN) then halt HwError else mret ()) ;;
  if negb (pin_config gpio_dev pin =? STM32_GPIO_IN_ANALOG) then halt HwError else mret ().

(** The voltage of an output register, in millivolts. *)
Definition dac_volts (vref dor : Z) : Z := u32 (vref * (dor .& 0xfff)) / 4095.

Definition stm32_dac_conv_DACC1 : DacM unit :=
  stm32_dac_check_pin 4 ;;
  s ← get;
  emit (Output 1 (dac_volts (dac_Vref s) (DAC_DOR1 s))).

Definition stm32_dac_conv_DACC2 : DacM unit :=
  stm32_dac_check_pin 5 ;;
  s ← get;
  emit (Output 2 (dac_volts (dac_Vref s) (DAC_DOR2 s))).

Definition stm32_dac_reset : DacM unit :=
  modify (λ s, s <| LFSR_VALUE := 0xAAA |> <| dac_Vref := 2400 |> <| inc_cnt2 := true |> <| inc_cnt1 := true |>) ;;
  emit (OutputStart 1) ;;
  emit (OutputStart 2).

Definition stm32_dac_read (offset size : Z) : DacM Z :=
  let reg := offset .& 0xffffffff in
  s ← get;
  if reg =? DAC_CR_OFFSET then mret (DAC_CR s)
  else if reg =? DAC_SWTRIGR_OFFSET then mret (DAC_SWTRIGR s)
  else if reg =? DAC_DHR12R1_OFFSET then mret (DAC_DHR12R1 s)
  else if reg =? DAC_DHR12L1_OFFSET then mret (DAC_DHR12L1 s)
  else if reg =? DAC_DHR8R1_OFFSET then mret (DAC_DHR8R1 s)
  else if reg =? DAC_DHR12R2_OFFSET then mret (DAC_DHR12R2 s)
  else if reg =? DAC_DHR12L2_OFFSET then mret (DAC_DHR12L2 s)
  else if reg =? DAC_DHR8R2_OFFSET then mret (DAC_DHR8R2 s)
  else if reg =? DAC_DHR12RD_OFFSET then mret (DAC_DHR12RD s)
  else if reg =? DAC_DHR12LD_OFFSET then mret (DAC_DHR12LD s)
  else if reg =? DAC_DHR8RD_OFFSET then mret (DAC_DHR8RD s)
  else if reg =? DAC_DOR1_OFFSET then mret (DAC_DOR1 s)
  else if reg =? DAC_DOR2_OFFSET then mret (DAC_DOR2 s)
  else emit (Report BadReg) ;; mret 0.

Definition stm32_dac_write (now offset value size : Z) : DacM unit :=
  let reg := offset .& 0xffffffff in
  let v := u32 value in
  if reg =? DAC_CR_OFFSET then
    modify (λ s, s <| DAC_CR := v |>) ;;
    (if tsel_refused v DAC_CR_TSEL1_START then halt HwError else mret ()) ;;
    (if tsel_refused v DAC_CR_TSEL2_START then halt HwError else mret ())
  else if reg =? DAC_SWTRIGR_OFFSET then stm32_dac_write_DAC_SWTRIGR now v
  else if reg =? DAC_DHR12R1_OFFSET then
    modify (λ s, s <| DAC_DHR12R1 := v |>) ;; stm32_dac_write_DACC1_DHR now (v .& 0xfff)
  else if reg =? DAC_DHR12L1_OFFSET then
    modify (λ s, s <| DAC_DHR12L1 := v |>) ;; stm32_dac_write_DACC1_DHR now ((v >> 4) .& 0xfff)
  else if reg =? DAC_DHR8R1_OFFSET then
    modify (λ s, s <| DAC_DHR8R1 := v |>) ;; stm32_dac_write_DACC1_DHR now (v .& 0xff)
  else if reg =? DAC_DHR12R2_OFFSET then
    modify (λ s, s <| DAC_DHR12R2 := v |>) ;; stm32_dac_write_DACC2_DHR now (v .& 0xfff)
  else if reg =? DAC_DHR12L2_OFFSET then
    modify (λ s, s <| DAC_DHR12L2 := v |>) ;; stm32_dac_write_DACC2_DHR now ((v >> 4) .& 0xfff)
  else if reg =? DAC_DHR8R2_OFFSET then
    modify (λ s, s <| DAC_DHR8R2 := v |>) ;; stm32_dac_write_DACC2_DHR now (v .& 0xff)
  else if reg =? DAC_DHR12RD_OFFSET then
    modify (λ s, s <| DAC_DHR12RD := v |>) ;;
    stm32_dac_write_DACC1_DHR now (v .& 0xfff) ;;
    stm32_dac_write_DACC2_DHR now ((v >> 16) .& 0xfff)
  else if reg =? DAC_DHR12LD_OFFSET then
    modify (λ s, s <| DAC_DHR12LD := v |>) ;;
    stm32_dac_write_DACC1_DHR now ((v >> 4) .& 0xfff) ;;
    stm32_dac_write_DACC2_DHR now ((v >> 20) .& 0xfff)
  else if reg =? DAC_DHR8RD_OFFSET then
    modify (λ s, s <| DAC_DHR8RD := v |>) ;;
    stm32_dac_write_DACC1_DHR now (v .& 0xff) ;;
    stm32_dac_write_DACC2_DHR now ((v >> 8) .& 0xff)
  else if (reg =? DAC_DOR1_OFFSET) || (reg =? DAC_DOR2_OFFSET) then halt HwError
  else emit (Report BadReg).

End Device.

(** The device object before its initialisation, which ends with a reset. *)
Definition dac_zero (p : Z) : Stm32Dac :=
  mkDac p 0 0 0 0 0 0 0 0 0 0 0 0 0 0 0 0 0 0 0 false false 0.

(** ** The path of a value to the analog output *)

Lemma timer_in_run timer now n s :
  0 <= now + n * ns_per_cycle s < 2 ^ 63 ->
  timer_in timer now n s = Done () s [TimerMod timer (now + n * ns_per_cycle s)].
Proof. intros Hfit. unfold timer_in. by rewrite bind_get, u64_small, i64_small by lia. Qed.

Lemma u16_field v k m : 0 <= m <= 16 -> u16 ((v >> k) .& Z.ones m) = (v >> k) .& Z.ones m.
Proof.
  intros Hm. apply Z.mod_small. rewrite Z.land_ones by lia.
  pose proof (Z.mod_pos_bound (v >> k) (2 ^ m) ltac:(lia)). pose proof (Z.pow_le_mono_r 2 m 16 ltac:(lia) ltac:(lia)). lia.
Qed.

(** Channel [ch] is not triggered: its holding register goes straight to the
    output register. *)
Definition untriggered (s : Stm32Dac) : Prop :=
  extract32 (DAC_CR s) DAC_CR_TEN1_BIT 1 = 0 /\ extract32 (DAC_CR s) DAC_CR_TEN2_BIT 1 = 0.

Lemma write_DHR1_run now v s :
  extract32 (DAC_CR s) DAC_CR_TEN1_BIT 1 = 0 -> 0 <= now + ns_per_cycle s < 2 ^ 63 ->
  stm32_dac_write_DACC1_DHR now v s =
    Done () (s <| DACC1_DHR := u16 v |>) [TimerMod DOR1_timer (now + ns_per_cycle s)].
Proof.
  intros Ht Hfit. unfold stm32_dac_write_DACC1_DHR. rewrite bind_modify, bind_get.
  change (DAC_CR (s <| DACC1_DHR := u16 v |>)) with (DAC_CR s). rewrite Ht. cbn [cbool negb Z.eqb when].
  rewrite timer_in_run; change (ns_per_cycle (s <| DACC1_DHR := u16 v |>)) with (ns_per_cycle s); by rewrite Z.mul_1_l.
Qed.

Lemma write_DHR2_run now v s :
  extract32 (DAC_CR s) DAC_CR_TEN2_BIT 1 = 0 -> 0 <= now + ns_per_cycle s < 2 ^ 63 ->
  stm32_dac_write_DACC2_DHR now v s =
    Done () (s <| DACC2_DHR := u16 v |>) [TimerMod DOR2_timer (now + ns_per_cycle s)].
Proof.
  intros Ht Hfit. unfold stm32_dac_write_DACC2_DHR. rewrite bind_modify, bind_get.
  change (DAC_CR (s <| DACC2_DHR := u16 v |>)) with (DAC_CR s). rewrite Ht. cbn [cbool negb Z.eqb when].
  rewrite timer_in_run; change (ns_per_cycle (s <| DACC2_DHR := u16 v |>)) with (ns_per_cycle s); by rewrite Z.mul_1_l.
Qed.

Lemma load_DOR1_run now s :
  extract32 (DAC_CR s) DAC_CR_TEN1_BIT 1 = 0 -> 0 <= now + 3 * ns_per_cycle s < 2 ^ 63 ->
  stm32_dac_load_DOR1_registre now s =
    Done () (s <| DAC_DOR1 := DACC1_DHR s |>) [TimerMod CONV1_timer (now + 3 * ns_per_cycle s)].
Proof.
  intros Ht Hfit. unfold stm32_dac_load_DOR1_registre. rewrite bind_modify, bind_get. set (s1 := s <| DAC_DOR1 := _ |>).
  change (DAC_CR s1) with (DAC_CR s). rewrite Ht. change (cbool 0) with false. cbn [andb when].
  rewrite (bind_Done _ _ s1 () s1 eq_refl). by apply (timer_in_run _ _ 3 s1).
Qed.

Lemma load_DOR2_run now s :
  extract32 (DAC_CR s) DAC_CR_TEN2_BIT 1 = 0 -> 0 <= now + 3 * ns_per_cycle s < 2 ^ 63 ->
  stm32_dac_load_DOR2_registre now s =
    Done () (s <| DAC_DOR2 := DACC2_DHR s |>) [TimerMod CONV2_timer (now + 3 * ns_per_cycle s)].
Proof.
  intros Ht Hfit. unfold stm32_dac_load_DOR2_registre. rewrite bind_modify, bind_get. set (s1 := s <| DAC_DOR2 := _ |>).
  change (DAC_CR s1) with (DAC_CR s). rewrite Ht. change (cbool 0) with false. cbn [andb when].
  rewrite (bind_Done _ _ s1 () s1 eq_refl). by apply (timer_in_run _ _ 3 s1).
Qed.

(** Zero gives no voltage, full scale the reference, and the output grows with
    the value. *)
Lemma dac_volts_exact vref d : 0 <= vref < 2 ^ 20 -> 0 <= d < 4096 -> dac_volts vref d = vref * d / 4095.
Proof.
  intros Hv Hd. unfold dac_volts. change 0xfff with (Z.ones 12). rewrite Z.land_ones, Z.mod_small by lia.
  by rewrite u32_small by nia.
Qed.

Section Output.
  Context {R G : Type} `{PeriphClocks R} `{PinConfig G}.
  Context (rcc : R) (gpio : Z → G).

Definition analog_pin (pin : Z) : bool :=
  let g := gpio (STM32_GPIO_INDEX_FROM_PERIPH STM32_GPIOA) in
  (pin_mode g pin =? STM32_GPIO_MODE_IN) && (pin_config g pin =? STM32_GPIO_IN_ANALOG).

Lemma check_pin_run pin s : stm32_dac_check_pin gpio pin s = if analog_pin pin then Done () s [] else Halt HwError.
Proof.
  unfold stm32_dac_check_pin, analog_pin, mbind, M_bind. by destruct (pin_mode _ _ =? _), (pin_config _ _ =? _).
Qed.

(** The guest writes both channels with the dual register, without
    triggers: both output registers are loaded one cycle later with the two
    12-bit fields, and three cycles after that each channel gives the reference
    voltage times its value over 4095, which lies between 0 and the
    reference; a pin that is no analog input stops the emulator. *)
Theorem dac_output now v s :
  untriggered s -> 0 <= v < 2 ^ 32 -> 0 <= dac_Vref s < 2 ^ 20 -> 0 <= ns_per_cycle s -> 0 <= now ->
  now + 4 * ns_per_cycle s < 2 ^ 63 ->
  let d1 := v .& 0xfff in
  let d2 := (v >> 16) .& 0xfff in
  let t1 := now + ns_per_cycle s in
  exists s1 s2 s3,
    stm32_dac_write now DAC_DHR12RD_OFFSET v 4 s = Done () s1 [TimerMod DOR1_timer t1; TimerMod DOR2_timer t1] /\
    stm32_dac_load_DOR1_registre t1 s1 = Done () s2 [TimerMod CONV1_timer (t1 + 3 * ns_per_cycle s)] /\
    stm32_dac_load_DOR2_registre t1 s2 = Done () s3 [TimerMod CONV2_timer (t1 + 3 * ns_per_cycle s)] /\
    stm32_dac_read DAC_DOR1_OFFSET 4 s3 = Done d1 s3 [] /\ stm32_dac_read DAC_DOR2_OFFSET 4 s3 = Done d2 s3 [] /\
    stm32_dac_conv_DACC1 gpio s3 =
      (if analog_pin 4 then Done () s3 [Output 1 (dac_Vref s * d1 / 4095)] else Halt HwError) /\
    stm32_dac_conv_DACC2 gpio s3 =
      (if analog_pin 5 then Done () s3 [Output 2 (dac_Vref s * d2 / 4095)] else Halt HwError) /\
    0 <= dac_Vref s * d1 / 4095 <= dac_Vref s /\ 0 <= dac_Vref s * d2 / 4095 <= dac_Vref s.
Proof.
  intros [Ht1 Ht2] Hv Hvref Hns Hnow Hfit d1 d2 t1.
  assert (Hd1 : 0 <= d1 < 4096) by exact (land_bound 12 v 0xfff ltac:(lia) ltac:(lia)).
  assert (Hd2 : 0 <= d2 < 4096) by exact (land_bound 12 (v >> 16) 0xfff ltac:(lia) ltac:(lia)).
  assert (Hf1 : 0 <= now + ns_per_cycle s < 2 ^ 63) by lia.
  assert (Hf3 : 0 <= now + ns_per_cycle s + 3 * ns_per_cycle s < 2 ^ 63) by lia.
  set (sw := s <| DAC_DHR12RD := v |>). set (s1 := sw <| DACC1_DHR := d1 |> <| DACC2_DHR := d2 |>).
  set (s2 := s1 <| DAC_DOR1 := d1 |>). set (s3 := s2 <| DAC_DOR2 := d2 |>). exists s1, s2, s3.
  assert (Hw : stm32_dac_write now DAC_DHR12RD_OFFSET v 4 s = Done () s1 [TimerMod DOR1_timer t1; TimerMod DOR2_timer t1]).
  { change (stm32_dac_write now DAC_DHR12RD_OFFSET v 4 s) with
      ((modify (λ s, s <| DAC_DHR12RD := u32 v |>) ;; stm32_dac_write_DACC1_DHR now (u32 v .& 0xfff) ;;
        stm32_dac_write_DACC2_DHR now ((u32 v >> 16) .& 0xfff)) s).
    rewrite bind_modify, (u32_small v) by done. fold sw d1 d2.
    assert (E1 : u16 d1 = d1) by (apply Z.mod_small; lia). assert (E2 : u16 d2 = d2) by (apply Z.mod_small; lia).
    pose proof (write_DHR1_run now d1 sw Ht1 Hf1) as H1. rewrite E1 in H1.
    set (sw1 := sw <| DACC1_DHR := d1 |>) in H1.
    pose proof (write_DHR2_run now d2 sw1 Ht2 Hf1) as H2. rewrite E2 in H2.
    apply (bind_Done_trace _ (λ _, stm32_dac_write_DACC2_DHR now d2) sw () _ _ () s1 _ H1 H2). }
  split; [exact Hw |]. subst t1.
  split; [exact (load_DOR1_run _ s1 Ht1 Hf3) |].
  split; [exact (load_DOR2_run _ s2 Ht2 Hf3) |].
  split; [done |]. split; [done |].
  assert (Hc : forall d, 0 <= d < 4096 -> 0 <= dac_Vref s * d / 4095 <= dac_Vref s).
  { intros d Hd. split; [apply Z.div_pos; nia |]. apply Z.div_le_upper_bound; [lia |].
    rewrite (Z.mul_comm 4095). apply Z.mul_le_mono_nonneg_l; lia. }
  unfold stm32_dac_conv_DACC1, stm32_dac_conv_DACC2, mbind, M_bind. rewrite !check_pin_run.
  split; [destruct (analog_pin 4); [| done]; cbn [get]; by rewrite <- (dac_volts_exact _ d1) by lia |].
  split; [destruct (analog_pin 5); [| done]; cbn [get]; by rewrite <- (dac_volts_exact _ d2) by lia |].
  split; by apply Hc.
Qed.

End Output.

(** ** The triangle generator *)

(** [n] expiries of a timer whose callback is [m]. *)
Fixpoint expiries (m : DacM unit) (n : nat) : DacM unit :=
  match n with O => mret () | S n => expiries m n ;; m end.

Lemma expiries_inv m (I : nat → Stm32Dac → Prop) s n :
  I 0%nat s -> (forall n s, I n s -> exists s', m s = Done () s' [] /\ I (S n) s') ->
  exists s', expiries m n s = Done () s' [] /\ I n s'.
Proof.
  intros H0 Hstep. induction n as [|n (s1 & Hrun & Hi)]; [by exists s |].
  destruct (Hstep n s1 Hi) as (s2 & Hm & Hi2). exists s2. split; [| done].
  cbn [expiries]. by rewrite (bind_Done _ _ _ _ _ Hrun).
Qed.

(** The largest value of the triangle, which the field MAMP of the control
    register selects. *)
Definition amplitude (cr start : Z) : Z := 2 ^ (mamp cr start + 1) - 1.

Lemma mamp_range cr start : 0 <= mamp cr start <= 11.
Proof.
  unfold mamp. pose proof (land_bound 4 (cr >> start) 15 ltac:(lia) ltac:(lia)) as Hb.
  change (extract32 cr start 4) with ((cr >> start) .& 15). destruct (Z.ltb_spec 11 ((cr >> start) .& 15)); lia.
Qed.

Lemma amplitude_range cr start : 1 <= amplitude cr start <= 4095.
Proof.
  pose proof (mamp_range cr start) as Hm. unfold amplitude.
  pose proof (Z.pow_le_mono_r 2 1 (mamp cr start + 1) ltac:(lia) ltac:(lia)).
  pose proof (Z.pow_le_mono_r 2 (mamp cr start + 1) 12 ltac:(lia) ltac:(lia)). lia.
Qed.

Lemma amplitude_u16 cr start : u16 ((1 << (mamp cr start + 1)) - 1) = amplitude cr start.
Proof.
  pose proof (mamp_range cr start). rewrite Z.shiftl_mul_pow2, Z.mul_1_l by lia.
  pose proof (amplitude_range cr start). apply Z.mod_small. unfold amplitude in *. lia.
Qed.

(** The triangle wave with peak [A] and period [2 * A]. *)
Definition triangle (A n : Z) : Z := let r := n mod (2 * A) in if r <=? A then r else 2 * A - r.

(** The direction after [n] steps. *)
Definition rising (A n : Z) : bool := n mod (2 * A) <? A.

Lemma triangle_step A n :
  1 <= A -> 0 <= n ->
  let c := if rising A n then triangle A n + 1 else triangle A n - 1 in
  c = triangle A (n + 1) /\ 0 <= c <= A /\
  (if c <=? 0 then true else if A <=? c then false else rising A n) = rising A (n + 1).
Proof.
  intros HA Hn. unfold triangle, rising. pose proof (Z.mod_pos_bound n (2 * A) ltac:(lia)) as Hr.
  set (r := n mod (2 * A)) in *.
  assert (Hs : (n + 1) mod (2 * A) = if r =? 2 * A - 1 then 0 else r + 1).
  { rewrite <- Z.add_mod_idemp_l by lia. fold r. destruct (Z.eqb_spec r (2 * A - 1)) as [-> |].
    - replace (2 * A - 1 + 1) with (2 * A) by lia. by apply Z_mod_same_full.
    - by rewrite Z.mod_small by lia. }
  rewrite Hs. destruct (Z.eqb_spec r (2 * A - 1)), (Z.ltb_spec r A), (Z.leb_spec r A); cbv zeta; try lia.
  all: repeat match goal with
    | |- context [?a <=? ?b] => destruct (Z.leb_spec a b); try lia
    | |- context [?a <? ?b] => destruct (Z.ltb_spec a b); try lia end; split_and!; done || lia.
Qed.

(** One step of a counter: its value and its direction. *)
Definition tri_next (A c : Z) (up : bool) : Z * bool :=
  let c := u16 (if up then c + 1 else c - 1) in
  (c, if c <=? 0 then true else if A <=? c then false else up).

Lemma cnt1_run s :
  let p := tri_next (amplitude (DAC_CR s) DAC_CR_MAMP1_START) (TRI_CNT1 s) (inc_cnt1 s) in
  stm32_dac_triangular_cnt1_update s = Done () (s <| TRI_CNT1 := fst p |> <| inc_cnt1 := snd p |>) [].
Proof.
  unfold stm32_dac_triangular_cnt1_update. rewrite bind_get, amplitude_u16. unfold tri_next. cbv zeta. cbn [fst snd].
  generalize (amplitude (DAC_CR s) DAC_CR_MAMP1_START). intros A.
  destruct s as [? ? ? ? ? ? ? ? ? ? ? ? ? ? ? ? ? ? c ? up ? ?]. cbn [inc_cnt1 TRI_CNT1].
  destruct up; rewrite bind_modify, bind_get; cbn [TRI_CNT1 set_field Stm32Dac_settable];
    destruct (A <=? u16 _), (u16 _ <=? 0); reflexivity.
Qed.

Lemma cnt2_run s :
  let p := tri_next (amplitude (DAC_CR s) DAC_CR_MAMP2_START) (TRI_CNT2 s) (inc_cnt2 s) in
  stm32_dac_triangular_cnt2_update s = Done () (s <| TRI_CNT2 := fst p |> <| inc_cnt2 := snd p |>) [].
Proof.
  unfold stm32_dac_triangular_cnt2_update. rewrite bind_get, amplitude_u16. unfold tri_next. cbv zeta. cbn [fst snd].
  generalize (amplitude (DAC_CR s) DAC_CR_MAMP2_START). intros A.
  destruct s as [? ? ? ? ? ? ? ? ? ? ? ? ? ? ? ? ? ? ? c ? up ?]. cbn [inc_cnt2 TRI_CNT2].
  destruct up; rewrite bind_modify, bind_get; cbn [TRI_CNT2 set_field Stm32Dac_settable];
    destruct (A <=? u16 _), (u16 _ <=? 0); reflexivity.
Qed.

Lemma tri_next_ok A n :
  1 <= A <= 4095 -> 0 <= n -> tri_next A (triangle A n) (rising A n) = (triangle A (n + 1), rising A (n + 1)).
Proof.
  intros HA Hn. destruct (triangle_step A n ltac:(lia) Hn) as (Hc & Hr & Hd). unfold tri_next.
  rewrite <- Hc, <- Hd. unfold u16. by rewrite Z.mod_small by lia.
Qed.

(** From rest, each counter runs through a triangle wave: after [n]
    updates it holds the value at [n] of the wave that rises to the amplitude
    of the control register in as many steps and falls back to 0. *)
Theorem dac_triangle s n :
  TRI_CNT1 s = 0 -> TRI_CNT2 s = 0 -> inc_cnt1 s = true -> inc_cnt2 s = true ->
  exists s1 s2,
    expiries stm32_dac_triangular_cnt1_update n s = Done () s1 [] /\
    TRI_CNT1 s1 = triangle (amplitude (DAC_CR s) DAC_CR_MAMP1_START) (Z.of_nat n) /\
    expiries stm32_dac_triangular_cnt2_update n s = Done () s2 [] /\
    TRI_CNT2 s2 = triangle (amplitude (DAC_CR s) DAC_CR_MAMP2_START) (Z.of_nat n).
Proof.
  intros H1 H2 U1 U2. pose proof (amplitude_range (DAC_CR s) DAC_CR_MAMP1_START) as A1.
  pose proof (amplitude_range (DAC_CR s) DAC_CR_MAMP2_START) as A2.
  destruct (expiries_inv stm32_dac_triangular_cnt1_update (λ k s', DAC_CR s' = DAC_CR s /\
      TRI_CNT1 s' = triangle (amplitude (DAC_CR s) DAC_CR_MAMP1_START) (Z.of_nat k) /\
      inc_cnt1 s' = rising (amplitude (DAC_CR s) DAC_CR_MAMP1_START) (Z.of_nat k)) s n) as (s1 & R1 & _ & C1 & _).
  { unfold triangle, rising. rewrite Z.mod_0_l by lia. split_and!; [done | |]; rewrite ?H1, ?U1; symmetry;
      [by destruct (Z.leb_spec 0 (amplitude (DAC_CR s) DAC_CR_MAMP1_START)); [| lia] | by apply Z.ltb_lt; lia]. }
  { intros k s' (E & C & U). rewrite cnt1_run, E, C, U, tri_next_ok by lia. eexists. split; [reflexivity |].
    rewrite Nat2Z.inj_succ, <- Z.add_1_r. done. }
  destruct (expiries_inv stm32_dac_triangular_cnt2_update (λ k s', DAC_CR s' = DAC_CR s /\
      TRI_CNT2 s' = triangle (amplitude (DAC_CR s) DAC_CR_MAMP2_START) (Z.of_nat k) /\
      inc_cnt2 s' = rising (amplitude (DAC_CR s) DAC_CR_MAMP2_START) (Z.of_nat k)) s n) as (s2 & R2 & _ & C2 & _).
  { unfold triangle, rising. rewrite Z.mod_0_l by lia. split_and!; [done | |]; rewrite ?H2, ?U2; symmetry;
      [by destruct (Z.leb_spec 0 (amplitude (DAC_CR s) DAC_CR_MAMP2_START)); [| lia] | by apply Z.ltb_lt; lia]. }
  { intros k s' (E & C & U). rewrite cnt2_run, E, C, U, tri_next_ok by lia. eexists. split; [reflexivity |].
    rewrite Nat2Z.inj_succ, <- Z.add_1_r. done. }
  by exists s1, s2.
Qed.

(** ** The noise generator *)

Definition lfsr_next (v : Z) : Z :=
  u16 ((v >> 1) .| ((extract32 v 0 1 .^ extract32 v 1 1 .^ extract32 v 4 1 .^ extract32 v 6 1 .^ lfsr_nor v) << 11)).

Lemma lfsr_run s : stm32_dac_LFSR_update s = Done () (s <| LFSR_VALUE := lfsr_next (LFSR_VALUE s) |>) [].
Proof. done. Qed.

(** The first [n] iterates of [f] after [v]. *)
Fixpoint orbit (f : Z → Z) (v : Z) (n : nat) : list Z :=
  match n with O => [] | S n => f v :: orbit f (f v) n end.

Lemma orbit_lookup f n : forall v k, (k < n)%nat -> orbit f v n !! k = Some (Nat.iter (S k) f v).
Proof.
  induction n as [|n IH]; intros v k Hk; [lia |]. destruct k as [|k]; [done |].
  cbn [orbit lookup list_lookup]. rewrite IH by lia. f_equal.
  change (Nat.iter (S (S k)) f v) with (f (Nat.iter (S k) f v)). by rewrite Nat.iter_swap.
Qed.

(** The number of values of the noise register after a reset. *)
Definition noise_period : nat := Eval vm_compute in Z.to_nat 3461.

Lemma noise_orbit :
  forallb (λ v, negb (v =? 0xAAA)) (orbit lfsr_next 0xAAA (pred noise_period)) = true /\
  Nat.iter noise_period lfsr_next 0xAAA = 0xAAA /\
  forallb (λ v, (0 <=? v) && (v <? 4096)) (orbit lfsr_next 0xAAA noise_period) = true.
Proof. vm_compute. done. Qed.
#[local] Opaque lfsr_next.

Lemma iter_mod (f : Z → Z) v (P n : nat) : P <> 0%nat -> Nat.iter P f v = v -> Nat.iter n f v = Nat.iter (n mod P) f v.
Proof.
  intros HP Hper. transitivity (Nat.iter (n mod P + P * (n / P)) f v).
  { f_equal. pose proof (Nat.div_mod_eq n P). lia. }
  rewrite Nat.iter_add. f_equal.
  induction (n / P)%nat as [|q IH]; [by rewrite Nat.mul_0_r |].
  by rewrite Nat.mul_succ_r, Nat.iter_add, Hper.
Qed.

Lemma orbit_forallb f v n k p :
  forallb p (orbit f v n) = true -> (k < n)%nat -> p (Nat.iter (S k) f v) = true.
Proof.
  intros Hall Hk. rewrite forallb_forall in Hall. apply Hall, list_elem_of_In.
  apply list_elem_of_lookup. exists k. by apply orbit_lookup.
Qed.

(** A cycle of [P] values below 4096, found by running through it. *)
Lemma orbit_period f v (P : nat) :
  P <> 0%nat -> 0 <= v < 4096 -> forallb (λ x, negb (x =? v)) (orbit f v (pred P)) = true -> Nat.iter P f v = v ->
  forallb (λ x, (0 <=? x) && (x <? 4096)) (orbit f v P) = true ->
  forall n, 0 <= Nat.iter n f v < 4096 /\ (Nat.iter n f v = v <-> (n mod P)%nat = 0%nat).
Proof.
  intros HP Hv Hne Hper Hrange n. rewrite (iter_mod f v P n HP Hper). pose proof (Nat.mod_upper_bound n P HP) as Hr.
  destruct (n mod P)%nat as [|k]; [done |]. split.
  - pose proof (orbit_forallb _ _ _ k _ Hrange ltac:(lia)) as Hk. cbv beta in Hk. apply andb_true_iff in Hk as [? ?]. lia.
  - split; [| done]. intros Heq. pose proof (orbit_forallb _ _ _ k _ Hne ltac:(lia)) as Hk. cbv beta in Hk.
    by rewrite Heq, Z.eqb_refl in Hk.
Qed.

Lemma noise_cycle n :
  0 <= Nat.iter n lfsr_next 0xAAA < 4096 /\ (Nat.iter n lfsr_next 0xAAA = 0xAAA <-> (n mod noise_period)%nat = 0%nat).
Proof.
  destruct noise_orbit as (Hne & Hper & Hrange). revert n.
  apply (orbit_period lfsr_next 0xAAA noise_period); [discriminate | lia | exact Hne | exact Hper | exact Hrange].
Qed.

(** From its reset value the noise register runs through 3461
    different 12-bit values before it returns: the chain of negations that
    the code computes is no NOR of the twelve bits, with which the period
    would be 4095. *)
Theorem dac_noise_period s n :
  LFSR_VALUE s = 0xAAA ->
  exists s', expiries stm32_dac_LFSR_update n s = Done () s' [] /\ 0 <= LFSR_VALUE s' < 4096 /\
    (LFSR_VALUE s' = 0xAAA <-> (n mod noise_period)%nat = 0%nat).
Proof.
  intros H0.
  destruct (expiries_inv stm32_dac_LFSR_update (λ k s', LFSR_VALUE s' = Nat.iter k lfsr_next 0xAAA) s n) as (s' & Hrun & Hv).
  { done. }
  { intros k s1 H1. rewrite lfsr_run. eexists. split; [reflexivity |]. cbn. by rewrite H1. }
  exists s'. split; [done |]. rewrite Hv. apply noise_cycle.
Qed.

(** With the NOR of all bits the register has the full period. *)
Example true_nor_period :
  let f v := (v >> 1) .| ((extract32 v 0 1 .^ extract32 v 1 1 .^ extract32 v 4 1 .^ extract32 v 6 1 .^ b2z (v =? 0)) << 11) in
  forallb (λ v, negb (v =? 0xAAA)) (orbit f 0xAAA (Z.to_nat 4094)) = true /\ Nat.iter (Z.to_nat 4095) f 0xAAA = 0xAAA.
Proof. vm_compute. done. Qed.

(** ** Examples *)

Definition demo_dac : Stm32Dac :=
  Eval vm_compute in
  match (stm32_dac_reset ;; stm32_dac_clk_irq_handler (8000000 : Z) 0 1) (dac_zero STM32_DAC) with
  | Done _ s _ => s | Halt _ => dac_zero STM32_DAC
  end.

Definition demo_analog (_ : Z) : Z * Z := (STM32_GPIO_MODE_IN, STM32_GPIO_IN_ANALOG).

Lemma dac_output_witness :
  exists s1 s2 s3,
    stm32_dac_write 1000 DAC_DHR12RD_OFFSET 0x0fff0800 4 demo_dac = Done () s1 [TimerMod DOR1_timer 1125; TimerMod DOR2_timer 1125] /\
    stm32_dac_load_DOR1_registre 1125 s1 = Done () s2 [TimerMod CONV1_timer 1500] /\
    stm32_dac_load_DOR2_registre 1125 s2 = Done () s3 [TimerMod CONV2_timer 1500] /\
    stm32_dac_read DAC_DOR1_OFFSET 4 s3 = Done 0x800 s3 [] /\ stm32_dac_read DAC_DOR2_OFFSET 4 s3 = Done 0xfff s3 [] /\
    stm32_dac_conv_DACC1 demo_analog s3 = Done () s3 [Output 1 1200] /\
    stm32_dac_conv_DACC2 demo_analog s3 = Done () s3 [Output 2 2400] /\
    0 <= 1200 <= 2400 /\ 0 <= 2400 <= 2400.
Proof.
  assert (E1 : ns_per_cycle demo_dac = 125) by reflexivity. assert (E2 : dac_Vref demo_dac = 2400) by reflexivity.
  assert (E3 : analog_pin demo_analog 4 = true) by reflexivity. assert (E4 : analog_pin demo_analog 5 = true) by reflexivity.
  pose proof (dac_output demo_analog 1000 0x0fff0800 demo_dac) as Ho. cbv zeta in Ho. rewrite E1, E2, E3, E4 in Ho.
  change (0x0fff0800 .& 0xfff) with 0x800 in Ho. change ((0x0fff0800 >> 16) .& 0xfff) with 0xfff in Ho.
  apply Ho; try lia. split; reflexivity.
Defined.

Lemma dac_triangle_witness :
  exists s1 s2,
    expiries stm32_dac_triangular_cnt1_update 3 demo_dac = Done () s1 [] /\ TRI_CNT1 s1 = triangle 1 3 /\
    expiries stm32_dac_triangular_cnt2_update 3 demo_dac = Done () s2 [] /\ TRI_CNT2 s2 = triangle 1 3.
Proof. apply (dac_triangle demo_dac 3); reflexivity. Defined.

Lemma dac_noise_period_witness :
  exists s', expiries stm32_dac_LFSR_update 3 demo_dac = Done () s' [] /\ 0 <= LFSR_VALUE s' < 4096 /\
    (LFSR_VALUE s' = 0xAAA <-> (3 mod noise_period)%nat = 0%nat).
Proof. apply (dac_noise_period demo_dac 3). reflexivity. Defined.

(** A clock change to 0 is a division by zero. *)
Example clk_stopped : stm32_dac_clk_irq_handler (0 : Z) 0 1 demo_dac = Halt DivByZero.
Proof. reflexivity. Qed.
