(* ===== verification/Gic.v ===== *)
(** * The interrupt controller core ([hw/intc/arm_gic.c],
    [hw/intc/arm_gic_common.c], [hw/intc/gic_internal.h])

    The core serves both the multiprocessor GIC and the NVIC of a Cortex-M3;
    the fields [revision], [num_cpu] and [num_irq] say which.  Output line
    [cpu] is [parent_irq[cpu]].  The arrays of the structure are lists; every
    index is below [num_irq], below [num_cpu] or a constant, except the number
    of a software interrupt, which the guest writes and which is checked.  The
    index of the CPU that performs an access ([current_cpu->cpu_index]) is the
    parameter [current_cpu]. *)

From S2P Require Import Prelude.
Open Scope Z_scope.

(** ** State *)

Definition GIC_MAXIRQ : Z := 1020.
Definition GIC_INTERNAL : Z := 32.
Definition GIC_NR_SGIS : Z := 16.
Definition GIC_NCPU : Z := 8.
Definition GIC_NR_APRS : Z := 4.
Definition ALL_CPU_MASK : Z := (1 << GIC_NCPU) - 1.
Definition REV_11MPCORE : Z := 0.
Definition REV_NVIC : Z := 0xffffffff.

Record gic_irq_state : Type := mkIrq {
  irq_enabled : Z;
  irq_pending : Z;
  irq_active : Z;
  irq_level : Z;
  irq_model : bool;
  irq_edge_trigger : bool
}.

#[export] Instance gic_irq_state_settable : Settable gic_irq_state := λ x,
  mkIrq (irq_enabled x) (irq_pending x) (irq_active x) (irq_level x) (irq_model x) (irq_edge_trigger x).

Definition irq_zero : gic_irq_state := mkIrq 0 0 0 0 false false.

Record GICState : Type := mkGic {
  gic_enabled : bool;
  cpu_enabled : list bool;
  irq_state : list gic_irq_state;
  irq_target : list Z;
  priority1 : list (list Z);
  priority2 : list Z;
  last_active : list (list Z);
  sgi_pending : list (list Z);
  priority_mask : list Z;
  running_irq : list Z;
  running_priority : list Z;
  current_pending : list Z;
  bpr : list Z;
  abpr : list Z;
  apr : list (list Z);
  num_cpu : Z;
  num_irq : Z;
  revision : Z
}.

#[export] Instance GICState_settable : Settable GICState := λ s,
  mkGic (gic_enabled s) (cpu_enabled s) (irq_state s) (irq_target s) (priority1 s) (priority2 s)
    (last_active s) (sgi_pending s) (priority_mask s) (running_irq s) (running_priority s)
    (current_pending s) (bpr s) (abpr s) (apr s) (num_cpu s) (num_irq s) (revision s).

Abbreviation GicM := (M dev_event GICState).

(** Array access: [a[i]], [a[i] = v], [a[i][j]] and [a[i][j] = v]. *)
Definition idx (a : list Z) (i : Z) : Z := default 0 (a !! Z.to_nat i).
Definition upd {A} (a : list A) (i : Z) (v : A) : list A := <[Z.to_nat i := v]> a.
Definition idx2 (a : list (list Z)) (i j : Z) : Z := idx (default [] (a !! Z.to_nat i)) j.
Definition upd2 (a : list (list Z)) (i j v : Z) : list (list Z) :=
  alter (λ row, upd row j v) (Z.to_nat i) a.
Definition flag (a : list bool) (i : Z) : bool := default false (a !! Z.to_nat i).

Definition irq_st (s : GICState) (irq : Z) : gic_irq_state :=
  default irq_zero (irq_state s !! Z.to_nat irq).

Definition set_irq_st (irq : Z) (f : gic_irq_state → gic_irq_state) (s : GICState) : GICState :=
  s <| irq_state := alter f (Z.to_nat irq) (irq_state s) |>.

(** ** The macros of [gic_internal.h] *)

Definition GIC_BASE_IRQ (s : GICState) : Z := if revision s =? REV_NVIC then 32 else 0.

Definition GIC_SET_ENABLED (irq cm : Z) : GicM unit :=
  modify (set_irq_st irq (λ x, x <| irq_enabled := u8 (irq_enabled x .| cm) |>)).
Definition GIC_CLEAR_ENABLED (irq cm : Z) : GicM unit :=
  modify (set_irq_st irq (λ x, x <| irq_enabled := Z.ldiff (irq_enabled x) cm |>)).
Definition GIC_TEST_ENABLED (s : GICState) (irq cm : Z) : bool := cbool (irq_enabled (irq_st s irq) .& cm).
Definition GIC_SET_PENDING (irq cm : Z) : GicM unit :=
  modify (set_irq_st irq (λ x, x <| irq_pending := u8 (irq_pending x .| cm) |>)).
Definition GIC_CLEAR_PENDING (irq cm : Z) : GicM unit :=
  modify (set_irq_st irq (λ x, x <| irq_pending := Z.ldiff (irq_pending x) cm |>)).
Definition GIC_TEST_ACTIVE (s : GICState) (irq cm : Z) : bool := cbool (irq_active (irq_st s irq) .& cm).
Definition GIC_SET_MODEL (irq : Z) : GicM unit := modify (set_irq_st irq (λ x, x <| irq_model := true |>)).
Definition GIC_CLEAR_MODEL (irq : Z) : GicM unit := modify (set_irq_st irq (λ x, x <| irq_model := false |>)).
Definition GIC_TEST_MODEL (s : GICState) (irq : Z) : bool := irq_model (irq_st s irq).
Definition GIC_SET_LEVEL (irq cm : Z) : GicM unit :=
  modify (set_irq_st irq (λ x, x <| irq_level := u8 (irq_level x .| cm) |>)).
Definition GIC_CLEAR_LEVEL (irq cm : Z) : GicM unit :=
  modify (set_irq_st irq (λ x, x <| irq_level := Z.ldiff (irq_level x) cm |>)).
Definition GIC_TEST_LEVEL (s : GICState) (irq cm : Z) : bool := cbool (irq_level (irq_st s irq) .& cm).
Definition GIC_SET_EDGE_TRIGGER (irq : Z) : GicM unit :=
  modify (set_irq_st irq (λ x, x <| irq_edge_trigger := true |>)).
Definition GIC_CLEAR_EDGE_TRIGGER (irq : Z) : GicM unit :=
  modify (set_irq_st irq (λ x, x <| irq_edge_trigger := false |>)).
Definition GIC_TEST_EDGE_TRIGGER (s : GICState) (irq : Z) : bool := irq_edge_trigger (irq_st s irq).
Definition GIC_GET_PRIORITY (s : GICState) (irq cpu : Z) : Z :=
  if irq <? GIC_INTERNAL then idx2 (priority1 s) irq cpu else idx (priority2 s) (irq - GIC_INTERNAL).
Definition GIC_TARGET (s : GICState) (irq : Z) : Z := idx (irq_target s) irq.

(** The condition of the 11MPCore and NVIC variants. *)
Definition legacy (s : GICState) : bool := (revision s =? REV_11MPCORE) || (revision s =? REV_NVIC).

Definition gic_test_pending (s : GICState) (irq cm : Z) : bool :=
  if legacy s then cbool (irq_pending (irq_st s irq) .& cm)
  else cbool (irq_pending (irq_st s irq) .& cm) ||
       (negb (GIC_TEST_EDGE_TRIGGER s irq) && GIC_TEST_LEVEL s irq cm).

(** ** Update of the outputs *)

(** The scan for the best pending interrupt: its priority and its number. *)
Definition best_step (s : GICState) (cpu : Z) (best : Z * Z) (irq : Z) : Z * Z :=
  if GIC_TEST_ENABLED s irq (1 << cpu) && gic_test_pending s irq (1 << cpu) &&
     (GIC_GET_PRIORITY s irq cpu <? fst best)
  then (GIC_GET_PRIORITY s irq cpu, irq) else best.

Definition gic_best (s : GICState) (cpu : Z) : Z * Z :=
  foldl (best_step s cpu) (0x100, 1023) (zrange 0 (Z.to_nat (num_irq s))).

(** The loop over the CPUs; a disabled interface ends it, with the [return]
    of the source. *)
Fixpoint update_cpus (cpus : list Z) : GicM unit :=
  match cpus with
  | [] => mret ()
  | cpu :: cpus =>
      modify (λ s, s <| current_pending := upd (current_pending s) cpu 1023 |>) ;;
      s ← get;
      if negb (gic_enabled s) || negb (flag (cpu_enabled s) cpu) then emit (SetIrq cpu 0)
      else
        let '(best_prio, best_irq) := gic_best s cpu in
        (if best_prio <? idx (priority_mask s) cpu then
           modify (λ s, s <| current_pending := upd (current_pending s) cpu best_irq |>) ;;
           emit (SetIrq cpu (b2z (best_prio <? idx (running_priority s) cpu)))
         else emit (SetIrq cpu 0)) ;;
        update_cpus cpus
  end.

Definition gic_update : GicM unit :=
  n ← gets num_cpu; update_cpus (zrange 0 (Z.to_nat n)).

(** ** Inputs *)

Definition gic_set_pending_private (cpu irq : Z) : GicM unit :=
  let cm := 1 << cpu in
  s ← get;
  if gic_test_pending s irq cm then mret () else
  GIC_SET_PENDING irq cm ;;
  gic_update.

Definition gic_set_irq_11mpcore (irq level cm target : Z) : GicM unit :=
  if cbool level then
    GIC_SET_LEVEL irq cm ;;
    s ← get;
    when (GIC_TEST_EDGE_TRIGGER s irq || GIC_TEST_ENABLED s irq cm) (GIC_SET_PENDING irq target)
  else GIC_CLEAR_LEVEL irq cm.

Definition gic_set_irq_generic (irq level cm target : Z) : GicM unit :=
  if cbool level then
    GIC_SET_LEVEL irq cm ;;
    s ← get;
    when (GIC_TEST_EDGE_TRIGGER s irq) (GIC_SET_PENDING irq target)
  else GIC_CLEAR_LEVEL irq cm.

Definition gic_set_irq (irq level : Z) : GicM unit :=
  s ← get;
  let '(irq, cm, target) :=
    if irq <? u32 (num_irq s - GIC_INTERNAL) then
      (irq + GIC_INTERNAL, ALL_CPU_MASK, GIC_TARGET s (irq + GIC_INTERNAL))
    else
      let irq := irq - (num_irq s - GIC_INTERNAL) in
      let cpu := irq / GIC_INTERNAL in
      (irq mod GIC_INTERNAL, 1 << cpu, 1 << cpu) in
  assert_ (GIC_NR_SGIS <=? irq) ;;
  if level =? b2z (GIC_TEST_LEVEL s irq cm) then mret () else
  (if legacy s then gic_set_irq_11mpcore irq level cm target
   else gic_set_irq_generic irq level cm target) ;;
  gic_update.

(** ** Acknowledge and complete *)

Definition gic_set_running_irq (cpu irq : Z) : GicM unit :=
  modify (λ s, s <| running_irq := upd (running_irq s) cpu irq |>) ;;
  modify (λ s, s <| running_priority := upd (running_priority s) cpu
    (if irq =? 1023 then 0x100 else GIC_GET_PRIORITY s irq cpu) |>) ;;
  gic_update.

(** [ctz32] of [include/qemu/host-utils.h]. *)
Definition ctz32 (val : Z) : Z := if val =? 0 then 32 else Z.log2 (val .& (- val)).

Definition clear_acked (irq cm : Z) : GicM unit :=
  s ← get; GIC_CLEAR_PENDING irq (if GIC_TEST_MODEL s irq then ALL_CPU_MASK else cm).

Definition gic_acknowledge_irq (cpu : Z) : GicM Z :=
  let cm := 1 << cpu in
  s ← get;
  let irq := idx (current_pending s) cpu in
  if (irq =? 1023) || (idx (running_priority s) cpu <=? GIC_GET_PRIORITY s irq cpu) then mret 1023 else
  modify (λ s, s <| last_active := upd2 (last_active s) irq cpu (idx (running_irq s) cpu) |>) ;;
  ret ← (if legacy s then clear_acked irq cm ;; mret irq
         else if irq <? GIC_NR_SGIS then
           assert_ (negb (idx2 (sgi_pending s) irq cpu =? 0)) ;;
           let src := ctz32 (idx2 (sgi_pending s) irq cpu) in
           let left := Z.ldiff (idx2 (sgi_pending s) irq cpu) (1 << src) in
           modify (λ s, s <| sgi_pending := upd2 (sgi_pending s) irq cpu left |>) ;;
           when (left =? 0) (clear_acked irq cm) ;;
           mret (irq .| ((src .& 0x7) << 10))
         else clear_acked irq cm ;; mret irq);
  gic_set_running_irq cpu irq ;;
  mret ret.

Definition gic_set_priority (cpu irq val : Z) : GicM unit :=
  if irq <? GIC_INTERNAL then modify (λ s, s <| priority1 := upd2 (priority1 s) irq cpu (u8 val) |>)
  else modify (λ s, s <| priority2 := upd (priority2 s) (irq - GIC_INTERNAL) (u8 val) |>).

(** The walk to the interrupt that was preempted by the completed one. *)
Fixpoint complete_walk (fuel : nat) (cpu irq tmp : Z) : GicM unit :=
  match fuel with
  | O => halt OutOfFuel
  | S fuel =>
      s ← get;
      let next := idx2 (last_active s) tmp cpu in
      if next =? 1023 then mret ()
      else if next =? irq then
        modify (λ s, s <| last_active := upd2 (last_active s) tmp cpu (idx2 (last_active s) irq cpu) |>)
      else complete_walk fuel cpu irq next
  end.

Definition gic_complete_irq (cpu irq : Z) : GicM unit :=
  let cm := 1 << cpu in
  s ← get;
  if num_irq s <=? irq then mret () else
  if idx (running_irq s) cpu =? 1023 then mret () else
  let update := legacy s && negb (GIC_TEST_EDGE_TRIGGER s irq) && GIC_TEST_ENABLED s irq cm &&
                GIC_TEST_LEVEL s irq cm && cbool (GIC_TARGET s irq .& cm) in
  when update (GIC_SET_PENDING irq cm) ;;
  if negb (irq =? idx (running_irq s) cpu) then
    complete_walk (Z.to_nat GIC_MAXIRQ) cpu irq (idx (running_irq s) cpu) ;;
    when update gic_update
  else gic_set_running_irq cpu (idx2 (last_active s) (idx (running_irq s) cpu) cpu).

(** ** The distributor *)

Section Distributor.
  Context (current_cpu : Z).

Definition gic_get_current_cpu (s : GICState) : Z := if 1 <? num_cpu s then current_cpu else 0.

Definition gic_id : list Z := [0x90; 0x13; 0x04; 0x00; 0x0d; 0xf0; 0x05; 0xb1].

Definition gic_bad_reg : GicM Z := emit (Report Message) ;; mret 0.

(** The loops that collect one bit per interrupt. *)
Definition collect (n : nat) (bit : Z → Z) : Z :=
  foldl (λ res i, res .| bit i) 0 (zrange 0 n).

Definition gic_dist_readb (offset : Z) : GicM Z :=
  s ← get;
  let cpu := gic_get_current_cpu s in
  let cm := 1 << cpu in
  if offset <? 0x100 then
    if offset =? 0 then mret (b2z (gic_enabled s))
    else if offset =? 4 then mret (u32 (num_irq s / 32 - 1) .| (u32 (num_cpu s - 1) << 5))
    else if offset <? 0x08 then mret 0
    else if 0x80 <=? offset then mret 0
    else gic_bad_reg
  else if offset <? 0x200 then
    let irq := (if offset <? 0x180 then (offset - 0x100) * 8 else (offset - 0x180) * 8) + GIC_BASE_IRQ s in
    if num_irq s <=? irq then gic_bad_reg
    else mret (collect 8 (λ i, if GIC_TEST_ENABLED s (irq + i) cm then 1 << i else 0))
  else if offset <? 0x300 then
    let irq := (if offset <? 0x280 then (offset - 0x200) * 8 else (offset - 0x280) * 8) + GIC_BASE_IRQ s in
    if num_irq s <=? irq then gic_bad_reg
    else
      let mask := if irq <? GIC_INTERNAL then cm else ALL_CPU_MASK in
      mret (collect 8 (λ i, if gic_test_pending s (irq + i) mask then 1 << i else 0))
  else if offset <? 0x400 then
    let irq := (offset - 0x300) * 8 + GIC_BASE_IRQ s in
    if num_irq s <=? irq then gic_bad_reg
    else
      let mask := if irq <? GIC_INTERNAL then cm else ALL_CPU_MASK in
      mret (collect 8 (λ i, if GIC_TEST_ACTIVE s (irq + i) mask then 1 << i else 0))
  else if offset <? 0x800 then
    let irq := offset - 0x400 + GIC_BASE_IRQ s in
    if num_irq s <=? irq then gic_bad_reg else mret (GIC_GET_PRIORITY s irq cpu)
  else if offset <? 0xc00 then
    if (num_cpu s =? 1) && negb (revision s =? REV_11MPCORE) then mret 0
    else
      let irq := offset - 0x800 + GIC_BASE_IRQ s in
      if num_irq s <=? irq then gic_bad_reg
      else if (29 <=? irq) && (irq <=? 31) then mret cm
      else mret (GIC_TARGET s irq)
  else if offset <? 0xf00 then
    let irq := (offset - 0xc00) * 2 + GIC_BASE_IRQ s in
    if num_irq s <=? irq then gic_bad_reg
    else mret (collect 4 (λ i, (if GIC_TEST_MODEL s (irq + i) then 1 << (i * 2) else 0) .|
                               (if GIC_TEST_EDGE_TRIGGER s (irq + i) then 2 << (i * 2) else 0)))
  else if offset <? 0xf10 then gic_bad_reg
  else if offset <? 0xf30 then
    if legacy s then gic_bad_reg
    else mret (idx2 (sgi_pending s) (if offset <? 0xf20 then offset - 0xf10 else offset - 0xf20) cpu)
  else if offset <? 0xfe0 then gic_bad_reg
  else if cbool (offset .& 3) then mret 0
  else mret (idx gic_id ((offset - 0xfe0) >> 2)).

Definition gic_dist_readw (offset : Z) : GicM Z :=
  val ← gic_dist_readb offset;
  hi ← gic_dist_readb (offset + 1);
  mret (val .| (hi << 8)).

Definition gic_dist_readl (offset : Z) : GicM Z :=
  val ← gic_dist_readw offset;
  hi ← gic_dist_readw (offset + 2);
  mret (val .| u32 (hi << 16)).

Definition gic_bad_write : GicM unit := emit (Report Message).

(** One bit of a write to the enable registers. *)
Definition set_enable_bit (cpu irq i : Z) : GicM unit :=
  s ← get;
  let mask := if irq <? GIC_INTERNAL then 1 << cpu else GIC_TARGET s (irq + i) in
  let cm := if irq <? GIC_INTERNAL then 1 << cpu else ALL_CPU_MASK in
  GIC_SET_ENABLED (irq + i) cm ;;
  when (GIC_TEST_LEVEL s (irq + i) mask && negb (GIC_TEST_EDGE_TRIGGER s (irq + i)))
    (GIC_SET_PENDING (irq + i) mask).

Definition clear_enable_bit (cpu irq i : Z) : GicM unit :=
  GIC_CLEAR_ENABLED (irq + i) (if irq <? GIC_INTERNAL then 1 << cpu else ALL_CPU_MASK).

Definition set_pending_bit (irq i : Z) : GicM unit :=
  s ← get; GIC_SET_PENDING (irq + i) (GIC_TARGET s (irq + i)).

Definition set_config_bits (irq value i : Z) : GicM unit :=
  (if cbool (value .& (1 << (i * 2))) then GIC_SET_MODEL (irq + i) else GIC_CLEAR_MODEL (irq + i)) ;;
  (if cbool (value .& (2 << (i * 2))) then GIC_SET_EDGE_TRIGGER (irq + i)
   else GIC_CLEAR_EDGE_TRIGGER (irq + i)).

(** The loops over the bits of the written value. *)
Definition for_bits (value : Z) (body : Z → GicM unit) : GicM unit :=
  for_each (zrange 0 8) (λ i, when (cbool (value .& (1 << i))) (body i)).

Definition gic_dist_writeb (offset value : Z) : GicM unit :=
  s ← get;
  let cpu := gic_get_current_cpu s in
  if offset <? 0x100 then
    if offset =? 0 then modify (λ s, s <| gic_enabled := cbool (value .& 1) |>) ;; gic_update
    else if offset <? 4 then gic_update
    else if 0x80 <=? offset then gic_update
    else gic_bad_write
  else if offset <? 0x180 then
    let irq := (offset - 0x100) * 8 + GIC_BASE_IRQ s in
    if num_irq s <=? irq then gic_bad_write
    else
      let value := if irq <? GIC_NR_SGIS then 0xff else value in
      for_bits value (set_enable_bit cpu irq) ;; gic_update
  else if offset <? 0x200 then
    let irq := (offset - 0x180) * 8 + GIC_BASE_IRQ s in
    if num_irq s <=? irq then gic_bad_write
    else
      let value := if irq <? GIC_NR_SGIS then 0 else value in
      for_bits value (clear_enable_bit cpu irq) ;; gic_update
  else if offset <? 0x280 then
    let irq := (offset - 0x200) * 8 + GIC_BASE_IRQ s in
    if num_irq s <=? irq then gic_bad_write
    else
      let value := if irq <? GIC_NR_SGIS then 0 else value in
      for_bits value (set_pending_bit irq) ;; gic_update
  else if offset <? 0x300 then
    let irq := (offset - 0x280) * 8 + GIC_BASE_IRQ s in
    if num_irq s <=? irq then gic_bad_write
    else
      let value := if irq <? GIC_NR_SGIS then 0 else value in
      for_bits value (λ i, GIC_CLEAR_PENDING (irq + i) ALL_CPU_MASK) ;; gic_update
  else if offset <? 0x400 then gic_bad_write
  else if offset <? 0x800 then
    let irq := offset - 0x400 + GIC_BASE_IRQ s in
    if num_irq s <=? irq then gic_bad_write
    else gic_set_priority cpu irq value ;; gic_update
  else if offset <? 0xc00 then
    if negb (num_cpu s =? 1) || (revision s =? REV_11MPCORE) then
      let irq := offset - 0x800 + GIC_BASE_IRQ s in
      if num_irq s <=? irq then gic_bad_write
      else
        let value := if irq <? 29 then 0 else if irq <? GIC_INTERNAL then ALL_CPU_MASK else value in
        modify (λ s, s <| irq_target := upd (irq_target s) irq (value .& ALL_CPU_MASK) |>) ;; gic_update
    else gic_update
  else if offset <? 0xf00 then
    let irq := (offset - 0xc00) * 4 + GIC_BASE_IRQ s in
    if num_irq s <=? irq then gic_bad_write
    else
      let value := if irq <? GIC_INTERNAL then value .| 0xaa else value in
      for_each (zrange 0 4) (set_config_bits irq value) ;; gic_update
  else if offset <? 0xf10 then gic_bad_write
  else if offset <? 0xf20 then
    if legacy s then gic_bad_write
    else
      let irq := offset - 0xf10 in
      let left := Z.ldiff (idx2 (sgi_pending s) irq cpu) value in
      modify (λ s, s <| sgi_pending := upd2 (sgi_pending s) irq cpu left |>) ;;
      when (left =? 0) (GIC_CLEAR_PENDING irq (1 << cpu)) ;; gic_update
  else if offset <? 0xf30 then
    if legacy s then gic_bad_write
    else
      let irq := offset - 0xf20 in
      GIC_SET_PENDING irq (1 << cpu) ;;
      modify (λ s, s <| sgi_pending := upd2 (sgi_pending s) irq cpu (u8 (idx2 (sgi_pending s) irq cpu .| value)) |>) ;;
      gic_update
  else gic_bad_write.

Definition gic_dist_writew (offset value : Z) : GicM unit :=
  gic_dist_writeb offset (value .& 0xff) ;;
  gic_dist_writeb (offset + 1) (value >> 8).

(** The loop over the targets of a software interrupt. *)
Fixpoint sgi_targets (fuel : nat) (cpu irq mask : Z) : GicM unit :=
  match fuel with
  | O => halt OutOfFuel
  | S fuel =>
      let target_cpu := ctz32 mask in
      if target_cpu <? GIC_NCPU then
        (if irq <? GIC_NR_SGIS then mret () else halt OutOfBounds) ;;
        modify (λ s, s <| sgi_pending := upd2 (sgi_pending s) irq target_cpu
          (u8 (idx2 (sgi_pending s) irq target_cpu .| (1 << cpu))) |>) ;;
        sgi_targets fuel cpu irq (Z.ldiff mask (1 << target_cpu))
      else mret ()
  end.

Definition gic_dist_writel (offset value : Z) : GicM unit :=
  if offset =? 0xf00 then
    s ← get;
    let cpu := gic_get_current_cpu s in
    let irq := value .& 0x3ff in
    let filter := (value >> 24) .& 3 in
    let mask := if filter =? 0 then (value >> 16) .& ALL_CPU_MASK
                else if filter =? 1 then ALL_CPU_MASK .^ (1 << cpu)
                else if filter =? 2 then 1 << cpu
                else ALL_CPU_MASK in
    (if irq <? GIC_MAXIRQ then mret () else halt OutOfBounds) ;;
    GIC_SET_PENDING irq mask ;;
    sgi_targets 9 cpu irq mask ;;
    gic_update
  else
    gic_dist_writew offset (value .& 0xffff) ;;
    gic_dist_writew (offset + 2) (value >> 16).

(** ** The CPU interfaces *)

Definition gic_cpu_read (cpu offset : Z) : GicM Z :=
  s ← get;
  if offset =? 0x00 then mret (b2z (flag (cpu_enabled s) cpu))
  else if offset =? 0x04 then mret (idx (priority_mask s) cpu)
  else if offset =? 0x08 then mret (idx (bpr s) cpu)
  else if offset =? 0x0c then gic_acknowledge_irq cpu
  else if offset =? 0x14 then mret (idx (running_priority s) cpu)
  else if offset =? 0x18 then mret (idx (current_pending s) cpu)
  else if offset =? 0x1c then mret (idx (abpr s) cpu)
  else if (offset =? 0xd0) || (offset =? 0xd4) || (offset =? 0xd8) || (offset =? 0xdc) then
    mret (idx2 (apr s) ((offset - 0xd0) / 4) cpu)
  else gic_bad_reg.

Definition gic_cpu_write (cpu offset value : Z) : GicM unit :=
  if offset =? 0x00 then
    modify (λ s, s <| cpu_enabled := upd (cpu_enabled s) cpu (cbool (value .& 1)) |>) ;; gic_update
  else if offset =? 0x04 then
    modify (λ s, s <| priority_mask := upd (priority_mask s) cpu (value .& 0xff) |>) ;; gic_update
  else if offset =? 0x08 then
    modify (λ s, s <| bpr := upd (bpr s) cpu (value .& 0x7) |>) ;; gic_update
  else if offset =? 0x10 then gic_complete_irq cpu (value .& 0x3ff)
  else if offset =? 0x1c then
    s ← get;
    when (2 <=? revision s) (modify (λ s, s <| abpr := upd (abpr s) cpu (value .& 0x7) |>)) ;; gic_update
  else if (offset =? 0xd0) || (offset =? 0xd4) || (offset =? 0xd8) || (offset =? 0xdc) then
    emit (Report Message) ;; gic_update
  else gic_bad_write.

Definition gic_thiscpu_read (addr size : Z) : GicM Z :=
  s ← get; gic_cpu_read (gic_get_current_cpu s) addr.

Definition gic_thiscpu_write (addr value size : Z) : GicM unit :=
  s ← get; gic_cpu_write (gic_get_current_cpu s) addr (u32 value).

End Distributor.

(** [gic_do_cpu_read] and [gic_do_cpu_write]: [id] is the CPU whose entry of
    [backref] is the opaque pointer. *)
Definition gic_do_cpu_read (id addr size : Z) : GicM Z := gic_cpu_read id addr.
Definition gic_do_cpu_write (id addr value size : Z) : GicM unit := gic_cpu_write id addr (u32 value).

(** ** Creation and reset *)

Inductive gic_error : Type := TooManyCpus | TooManyIrqs | NotDivisible.

Definition arm_gic_common_realize : GicM (option gic_error) :=
  s ← get;
  if GIC_NCPU <? num_cpu s then mret (Some TooManyCpus) else
  modify (λ s, s <| num_irq := u32 (num_irq s + GIC_BASE_IRQ s) |>) ;;
  s ← get;
  if GIC_MAXIRQ <? num_irq s then mret (Some TooManyIrqs)
  else if (num_irq s <? 32) || cbool (num_irq s mod 32) then mret (Some NotDivisible)
  else mret None.

Definition reset_cpu (i : Z) : GicM unit :=
  modify (λ s, s <| priority_mask := upd (priority_mask s) i (if revision s =? REV_11MPCORE then 0xf0 else 0) |>) ;;
  modify (λ s, s <| current_pending := upd (current_pending s) i 1023 |>) ;;
  modify (λ s, s <| running_irq := upd (running_irq s) i 1023 |>) ;;
  modify (λ s, s <| running_priority := upd (running_priority s) i 0x100 |>) ;;
  modify (λ s, s <| cpu_enabled := upd (cpu_enabled s) i false |>).

Definition arm_gic_common_reset : GicM unit :=
  modify (λ s, s <| irq_state := replicate (Z.to_nat GIC_MAXIRQ) irq_zero |>) ;;
  n ← gets num_cpu;
  for_each (zrange 0 (Z.to_nat n)) reset_cpu ;;
  for_each (zrange 0 16) (λ i, GIC_SET_ENABLED i ALL_CPU_MASK ;; GIC_SET_EDGE_TRIGGER i) ;;
  (if n =? 1 then
     for_each (zrange 0 (Z.to_nat GIC_MAXIRQ)) (λ i, modify (λ s, s <| irq_target := upd (irq_target s) i 1 |>))
   else mret ()) ;;
  modify (λ s, s <| gic_enabled := false |>).

(** The structure as the object system creates it, zero but for the properties. *)
Definition gic_zero (cpus irqs rev : Z) : GICState :=
  let row := replicate (Z.to_nat GIC_NCPU) 0 in
  mkGic false (replicate (Z.to_nat GIC_NCPU) false) (replicate (Z.to_nat GIC_MAXIRQ) irq_zero)
    (replicate (Z.to_nat GIC_MAXIRQ) 0) (replicate (Z.to_nat GIC_INTERNAL) row)
    (replicate (Z.to_nat (GIC_MAXIRQ - GIC_INTERNAL)) 0) (replicate (Z.to_nat GIC_MAXIRQ) row)
    (replicate (Z.to_nat GIC_NR_SGIS) row) row row row row row row
    (replicate (Z.to_nat GIC_NR_APRS) row) cpus irqs rev.
