(* ===== verification/Gicspec.v ===== *)
(** * What the interrupt controller promises

    An abstract interrupt controller for one processor: per interrupt an
    enable, a pending and a level flag, a trigger mode and a priority, and the
    stack of the active interrupts, the running one first.  The model of
    [Gic], configured as an NVIC, refines it: every operation of the abstract
    controller is what the C function does, the output line has the level that
    the abstract state asks for, and the chain of [last_active] links is the
    stack. *)

From Stdlib Require Import Sorting.Sorted.
From S2P Require Import Prelude Gic.
Open Scope Z_scope.

(** ** The abstract controller *)

Record gspec : Type := mkSpec {
  g_num : Z;
  g_en : Z → bool;
  g_pend : Z → bool;
  g_level : Z → bool;
  g_edge : Z → bool;
  g_prio : Z → Z;
  g_stack : list Z
}.

#[export] Instance gspec_settable : Settable gspec := λ a,
  mkSpec (g_num a) (g_en a) (g_pend a) (g_level a) (g_edge a) (g_prio a) (g_stack a).

Definition fupd {A} (f : Z → A) (i : Z) (v : A) : Z → A := λ j, if j =? i then v else f j.

(** The best interrupt that is enabled and pending: the smallest priority
    value, and among equals the smallest number. *)
Definition spec_step (a : gspec) (best : Z * Z) (irq : Z) : Z * Z :=
  if g_en a irq && g_pend a irq && (g_prio a irq <? fst best) then (g_prio a irq, irq) else best.

Definition spec_best (a : gspec) : Z * Z :=
  foldl (spec_step a) (0x100, 1023) (zrange 0 (Z.to_nat (g_num a))).

Definition spec_running (a : gspec) : Z :=
  match g_stack a with [] => 0x100 | i :: _ => g_prio a i end.

(** The level of the line to the processor. *)
Definition spec_line (a : gspec) : bool := fst (spec_best a) <? spec_running a.

Definition spec_set_pending (irq : Z) (a : gspec) : gspec := a <| g_pend := fupd (g_pend a) irq true |>.

(** An input line changes to [level]. *)
Definition spec_set_irq (irq : Z) (level : bool) (a : gspec) : gspec :=
  if eqb level (g_level a irq) then a
  else
    let a' := a <| g_level := fupd (g_level a) irq level |> in
    if level && (g_edge a irq || g_en a irq) then spec_set_pending irq a' else a'.

Definition spec_ack (a : gspec) : Z * gspec :=
  if spec_line a then
    let irq := snd (spec_best a) in
    (irq, a <| g_pend := fupd (g_pend a) irq false |> <| g_stack := irq :: g_stack a |>)
  else (1023, a).

(** A completed interrupt leaves the stack wherever it is; when its line is
    still high it is pending again. *)
Definition spec_complete (irq : Z) (a : gspec) : gspec :=
  if bool_decide (g_stack a = []) || (g_num a <=? irq) then a
  else
    let a' := a <| g_stack := filter (λ j, j ≠ irq) (g_stack a) |> in
    if negb (g_edge a irq) && g_en a irq && g_level a irq then spec_set_pending irq a' else a'.

(** ** Facts of the abstract controller *)

Definition spec_ready (a : gspec) (irq : Z) : bool := g_en a irq && g_pend a irq.

(** [spec_best] finds the best interrupt. *)
Definition best_ok (a : gspec) (n : Z) (b : Z * Z) : Prop :=
  (b = (0x100, 1023) /\ forall j, 0 <= j < n -> spec_ready a j = true -> 0x100 <= g_prio a j) \/
  (0 <= snd b < n /\ spec_ready a (snd b) = true /\ fst b = g_prio a (snd b) /\ fst b < 0x100 /\
   forall j, 0 <= j < n -> spec_ready a j = true ->
     fst b < g_prio a j \/ (fst b = g_prio a j /\ snd b <= j)).

Lemma best_ok_step a n b :
  0 <= n -> best_ok a n b -> best_ok a (n + 1) (spec_step a b n).
Proof.
  intros Hn Hb. unfold spec_step. change (g_en a n && g_pend a n) with (spec_ready a n).
  destruct (spec_ready a n) eqn:Hr; cbn [andb].
  - destruct (Z.ltb_spec (g_prio a n) (fst b)) as [Hlt | Hge].
    + right. cbn. destruct Hb as [[-> Hall] | (Hi & Hri & Hp & H256 & Hall)].
      * repeat split; try done; try lia. intros j Hj Hrj.
        destruct (Z.eq_dec j n) as [-> |]; [right; lia | left]. cbn in Hlt.
        specialize (Hall j ltac:(lia) Hrj). lia.
      * repeat split; try done; try lia. intros j Hj Hrj.
        destruct (Z.eq_dec j n) as [-> |]; [right; lia | left].
        specialize (Hall j ltac:(lia) Hrj). lia.
    + destruct Hb as [[-> Hall] | (Hi & Hri & Hp & H256 & Hall)].
      * left. split; [done |]. intros j Hj Hrj. cbn in Hge.
        destruct (Z.eq_dec j n) as [-> |]; [done | apply Hall; [lia | done]].
      * right. repeat split; try done; try lia. intros j Hj Hrj.
        destruct (Z.eq_dec j n) as [-> |]; [lia | apply Hall; [lia | done]].
  - destruct Hb as [[-> Hall] | (Hi & Hri & Hp & H256 & Hall)]; [left | right].
    + split; [done |]. intros j Hj Hrj. destruct (Z.eq_dec j n) as [-> |]; [congruence |].
      apply Hall; [lia | done].
    + repeat split; try done; try lia. intros j Hj Hrj. destruct (Z.eq_dec j n) as [-> |]; [congruence |].
      apply Hall; [lia | done].
Qed.

Lemma spec_best_ok a : 0 <= g_num a -> best_ok a (g_num a) (spec_best a).
Proof.
  intros Hn. unfold spec_best. rewrite <- (Z2Nat.id (g_num a)) at 1 by done.
  induction (Z.to_nat (g_num a)) as [|n IH]; [left; split; [done | lia] |].
  rewrite zrange_S, foldl_app, Nat2Z.inj_succ, <- Z.add_1_r. cbn [foldl]. rewrite Z.add_0_l.
  apply best_ok_step; [lia | done].
Qed.

(** The priorities are bytes and each active interrupt has preempted the one
    below it. *)
Record spec_wf (a : gspec) : Prop := {
  w_num : 32 <= g_num a <= GIC_MAXIRQ;
  w_prio irq : 0 <= irq < g_num a -> 0 <= g_prio a irq < 0x100;
  w_range : Forall (λ i, 0 <= i < g_num a) (g_stack a);
  w_sorted : StronglySorted (λ i j, g_prio a i < g_prio a j) (g_stack a)
}.

Lemma sorted_filter {A} (R : A → A → Prop) (P : A → Prop) `{!forall x, Decision (P x)} (l : list A) :
  StronglySorted R l -> StronglySorted R (filter P l).
Proof.
  induction 1 as [|x l Hs IH Hall]; [constructor |]. rewrite filter_cons. case_decide; [| done].
  constructor; [done |]. rewrite Forall_forall in *. intros y [_ Hy]%list_elem_of_filter. by apply Hall.
Qed.

Lemma sorted_nodup (f : Z → Z) (l : list Z) : StronglySorted (λ i j, f i < f j) l -> NoDup l.
Proof.
  induction 1 as [|x l Hs IH Hall]; constructor; [| done].
  intros Hx. rewrite Forall_forall in Hall. specialize (Hall x Hx). lia.
Qed.

Lemma spec_running_range a : spec_wf a -> 0 <= spec_running a <= 0x100.
Proof.
  intros [_ Hp Hr _]. unfold spec_running. destruct (g_stack a) as [|i l]; [lia |].
  apply Forall_cons in Hr as [Hi _]. specialize (Hp i Hi). lia.
Qed.

(** When the line is high there is a best interrupt, better than all others
    and than the running one. *)
Lemma spec_line_best a :
  spec_wf a -> spec_line a = true ->
  let i := snd (spec_best a) in
  0 <= i < g_num a /\ spec_ready a i = true /\ fst (spec_best a) = g_prio a i /\
  g_prio a i < spec_running a /\
  forall j, 0 <= j < g_num a -> spec_ready a j = true ->
    g_prio a i < g_prio a j \/ (g_prio a i = g_prio a j /\ i <= j).
Proof.
  intros Hw Hl. pose proof (spec_running_range a Hw) as Hr. destruct Hw as [Hn _ _ _].
  apply Z.ltb_lt in Hl.
  destruct (spec_best_ok a ltac:(lia)) as [[Hb _] | (Hi & Hri & Hp & _ & Hall)]; [rewrite Hb in Hl; cbn in Hl; lia |].
  cbv zeta. rewrite <- Hp. split_and!; [lia | lia | done | done | lia | done].
Qed.

(** When the line is low, nothing that is ready has a better priority than the
    running interrupt. *)
Lemma spec_line_low a irq :
  spec_wf a -> spec_line a = false -> 0 <= irq < g_num a -> spec_ready a irq = true ->
  spec_running a <= g_prio a irq.
Proof.
  intros Hw Hl Hi Hr. apply Z.ltb_ge in Hl. destruct (id Hw) as [Hn Hp _ _].
  destruct (spec_best_ok a ltac:(lia)) as [[Hb Hall] | (_ & _ & _ & _ & Hall)].
  - specialize (Hall irq Hi Hr). specialize (Hp irq Hi). lia.
  - specialize (Hall irq Hi Hr). lia.
Qed.

Lemma spec_ack_wf a : spec_wf a -> spec_wf (snd (spec_ack a)).
Proof.
  intros Hw. unfold spec_ack. destruct (spec_line a) eqn:Hl; [| done].
  destruct (spec_line_best a Hw Hl) as (Hi & _ & _ & Hlt & _). destruct Hw as [Hn Hp Hr Hs].
  split; cbn; try done; [by constructor |]. constructor; [done |].
  unfold spec_running in Hlt. destruct (g_stack a) as [|i l]; [constructor |].
  inversion_clear Hs as [|? ? Hs' Hall]. constructor; [done |].
  eapply Forall_impl; [exact Hall | cbn]. intros. lia.
Qed.

Lemma spec_complete_wf irq a : spec_wf a -> spec_wf (spec_complete irq a).
Proof.
  intros Hw. unfold spec_complete. destruct (bool_decide _ || _); [done |].
  assert (Hw' : spec_wf (a <| g_stack := filter (λ j, j ≠ irq) (g_stack a) |>)).
  { destruct Hw as [Hn Hp Hr Hs]. split; cbn; try done; [| by apply sorted_filter].
    rewrite Forall_forall in *. intros i [_ Hi]%list_elem_of_filter. by apply Hr. }
  by destruct (_ && _ && _); [destruct Hw'; split |].
Qed.

Lemma spec_set_irq_wf irq level a : spec_wf a -> spec_wf (spec_set_irq irq level a).
Proof. intros Hw. unfold spec_set_irq. destruct (eqb _ _); [done |]. by destruct (_ && _), Hw; split. Qed.

(** ** Arrays *)

Lemma idx_upd a i v j :
  0 <= i -> (Z.to_nat i < length a)%nat -> 0 <= j -> idx (upd a i v) j = if j =? i then v else idx a j.
Proof.
  intros Hi Hl Hj. unfold idx, upd. destruct (Z.eqb_spec j i) as [-> |].
  - by rewrite list_lookup_insert_eq.
  - by rewrite list_lookup_insert_ne by lia.
Qed.

Definition rows (n : nat) (a : list (list Z)) : Prop := length a = n /\ Forall (λ r, length r = 8%nat) a.

Lemma idx2_upd2 n a i v j :
  rows n a -> 0 <= i < Z.of_nat n -> 0 <= j ->
  idx2 (upd2 a i 0 v) j 0 = if j =? i then v else idx2 a j 0.
Proof.
  intros [Hl Hr] Hi Hj. unfold idx2, upd2. destruct (Z.eqb_spec j i) as [-> |].
  - destruct (lookup_lt_is_Some_2 a (Z.to_nat i)) as [r Hrow]; [lia |].
    rewrite list_lookup_alter_eq, Hrow. cbn. rewrite Forall_lookup in Hr. specialize (Hr _ _ Hrow).
    rewrite idx_upd by (cbn; lia). done.
  - by rewrite list_lookup_alter_ne by lia.
Qed.

Lemma rows_upd2 n a i j v : rows n a -> rows n (upd2 a i j v).
Proof.
  intros [Hl Hr]. split; [unfold upd2; by rewrite length_alter |]. apply Forall_alter; [done |].
  intros r Hrow Hlen. unfold upd. by rewrite length_insert.
Qed.

Lemma irq_st_set irq f s j :
  length (irq_state s) = 1020%nat -> 0 <= irq < GIC_MAXIRQ -> 0 <= j ->
  irq_st (set_irq_st irq f s) j = if j =? irq then f (irq_st s irq) else irq_st s j.
Proof.
  intros Hl Hi Hj. unfold irq_st, set_irq_st, GIC_MAXIRQ in *. cbn. destruct (Z.eqb_spec j irq) as [-> |].
  - destruct (lookup_lt_is_Some_2 (irq_state s) (Z.to_nat irq)) as [x Hx]; [lia |].
    by rewrite list_lookup_alter_eq, Hx.
  - by rewrite list_lookup_alter_ne by lia.
Qed.

(** ** The representation *)

(** The flags of an interrupt on a controller with one processor: the masks
    are those of the private and of the shared interrupts. *)
Record irq_fine (x : gic_irq_state) : Prop := {
  f_en : irq_enabled x = 0 \/ irq_enabled x = 1 \/ irq_enabled x = 255;
  f_pend : irq_pending x = 0 \/ irq_pending x = 1;
  f_level : irq_level x = 0 \/ irq_level x = 255
}.

(** The first interrupt of a stack; 1023 stands for none. *)
Definition top (l : list Z) : Z := match l with [] => 1023 | i :: _ => i end.

(** The links lead from each active interrupt to the one it has preempted. *)
Fixpoint links (la : Z → Z) (l : list Z) : Prop :=
  match l with [] => True | i :: l' => la i = top l' /\ links la l' end.

Definition preempted (s : GICState) (irq : Z) : Z := idx2 (last_active s) irq 0.

(** The configuration of an NVIC and the sizes of the arrays. *)
Record nvic_conf (s : GICState) : Prop := {
  n_cpu : num_cpu s = 1;
  n_rev : revision s = REV_NVIC;
  n_on : gic_enabled s = true;
  n_cpu_on : flag (cpu_enabled s) 0 = true;
  n_mask : idx (priority_mask s) 0 = 0x100;
  n_target irq : 0 <= irq < GIC_MAXIRQ -> GIC_TARGET s irq = 1;
  n_irqs : length (irq_state s) = 1020%nat;
  n_prio1 : rows 32 (priority1 s);
  n_prio2 : length (priority2 s) = 988%nat;
  n_last : rows 1020 (last_active s);
  n_pend : length (current_pending s) = 8%nat;
  n_run : length (running_irq s) = 8%nat;
  n_runp : length (running_priority s) = 8%nat;
  n_mult : num_irq s mod 32 = 0
}.

Record irq_rep (x : gic_irq_state) (en pend level edge : bool) : Prop := {
  i_fine : irq_fine x;
  i_en : cbool (irq_enabled x) = en;
  i_pend : cbool (irq_pending x) = pend;
  i_level : cbool (irq_level x) = level;
  i_edge : irq_edge_trigger x = edge
}.

(** All but the cached best interrupt, which [gic_update] computes. *)
Record represents_but (s : GICState) (a : gspec) : Prop := {
  r_conf : nvic_conf s;
  r_wf : spec_wf a;
  r_num : num_irq s = g_num a;
  r_irq irq : 0 <= irq < g_num a ->
    irq_rep (irq_st s irq) (g_en a irq) (g_pend a irq) (g_level a irq) (g_edge a irq);
  r_prio irq : 0 <= irq < g_num a -> GIC_GET_PRIORITY s irq 0 = g_prio a irq;
  r_top : idx (running_irq s) 0 = top (g_stack a);
  r_runp : idx (running_priority s) 0 = spec_running a;
  r_links : links (preempted s) (g_stack a)
}.

Definition represents (s : GICState) (a : gspec) : Prop :=
  represents_but s a /\ idx (current_pending s) 0 = snd (spec_best a).

(** ** Reading the flags *)

Definition is_mask (m : Z) : Prop := m = 1 \/ m = 255.

Lemma fine_tests x m :
  irq_fine x -> is_mask m ->
  cbool (irq_enabled x .& m) = cbool (irq_enabled x) /\
  cbool (irq_pending x .& m) = cbool (irq_pending x) /\
  cbool (irq_level x .& m) = cbool (irq_level x).
Proof.
  intros [He Hp Hl] [-> | ->]; split_and!;
    first [by destruct He as [-> | [-> | ->]] | by destruct Hp as [-> | ->] | by destruct Hl as [-> | ->]].
Qed.

Section Represented.
  Context (s : GICState) (a : gspec) (Hrep : represents_but s a).

Lemma rep_legacy : legacy s = true.
Proof. unfold legacy. by rewrite (n_rev _ (r_conf _ _ Hrep)). Qed.

Lemma rep_enabled irq m : 0 <= irq < g_num a -> is_mask m -> GIC_TEST_ENABLED s irq m = g_en a irq.
Proof.
  intros Hi Hm. destruct (r_irq _ _ Hrep irq Hi) as [Hf <- _ _ _]. by apply (fine_tests _ m Hf Hm).
Qed.

Lemma rep_level irq m : 0 <= irq < g_num a -> is_mask m -> GIC_TEST_LEVEL s irq m = g_level a irq.
Proof.
  intros Hi Hm. destruct (r_irq _ _ Hrep irq Hi) as [Hf _ _ <- _]. by apply (fine_tests _ m Hf Hm).
Qed.

Lemma rep_pending irq m : 0 <= irq < g_num a -> is_mask m -> gic_test_pending s irq m = g_pend a irq.
Proof.
  intros Hi Hm. unfold gic_test_pending. rewrite rep_legacy.
  destruct (r_irq _ _ Hrep irq Hi) as [Hf _ <- _ _]. by apply (fine_tests _ m Hf Hm).
Qed.

Lemma rep_edge irq : 0 <= irq < g_num a -> GIC_TEST_EDGE_TRIGGER s irq = g_edge a irq.
Proof. intros Hi. by destruct (r_irq _ _ Hrep irq Hi). Qed.

Lemma rep_num : 32 <= g_num a <= GIC_MAXIRQ.
Proof. exact (w_num _ (r_wf _ _ Hrep)). Qed.

Lemma rep_best : gic_best s 0 = spec_best a.
Proof.
  unfold gic_best, spec_best. rewrite (r_num _ _ Hrep). pose proof rep_num as Hn.
  apply foldl_ext_in. intros b irq Hirq%elem_of_zrange.
  assert (Hi : 0 <= irq < g_num a) by lia.
  unfold best_step, spec_step. change (1 << 0) with 1.
  rewrite rep_enabled, rep_pending, (r_prio _ _ Hrep) by (done || by left). done.
Qed.

End Represented.

(** [represents_but] does not look at the cached best interrupt. *)
Lemma represents_cache s a v :
  represents_but s a -> represents_but (s <| current_pending := upd (current_pending s) 0 v |>) a.
Proof.
  intros [Hc Hw Hn Hi Hp Ht Hr Hl]. split; try done. destruct Hc. split; try done.
  cbn. unfold upd. by rewrite length_insert.
Qed.

Definition cached (s : GICState) (a : gspec) : GICState :=
  s <| current_pending := upd (current_pending s) 0 (snd (spec_best a)) |>.

Lemma update_ok s a :
  represents_but s a ->
  gic_update s = Done () (cached s a) [SetIrq 0 (b2z (spec_line a))] /\ represents (cached s a) a.
Proof.
  intros Hrep. split.
  2: { split; [by apply represents_cache |]. cbn. rewrite idx_upd; [done | done | | done].
       rewrite (n_pend _ (r_conf _ _ Hrep)). cbn. lia. }
  unfold gic_update, mbind, M_bind, gets. rewrite (n_cpu _ (r_conf _ _ Hrep)).
  change (zrange 0 (Z.to_nat 1)) with [0]. cbn [update_cpus]. unfold mbind, M_bind, modify, get.
  set (s1 := s <| current_pending := upd (current_pending s) 0 1023 |>).
  assert (Hrep1 : represents_but s1 a) by by apply represents_cache.
  destruct (r_conf _ _ Hrep1) as [_ _ -> -> Hmask _ _ _ _ _ _ _ _ _]. cbn [negb orb].
  rewrite (rep_best _ _ Hrep1), Hmask, (r_runp _ _ Hrep1). unfold spec_line, cached.
  pose proof (w_num _ (r_wf _ _ Hrep)) as Hn.
  pose proof (spec_running_range a (r_wf _ _ Hrep)) as Hrun.
  destruct (spec_best_ok a ltac:(lia)) as [[Hb _] | (_ & _ & _ & Hlt & _)].
  - rewrite Hb. cbn [fst snd]. change (256 <? 256) with false. cbn iota.
    rewrite (proj2 (Z.ltb_ge 256 (spec_running a))) by lia. done.
  - destruct (spec_best a) as [p i]. cbn [fst snd] in *. rewrite (proj2 (Z.ltb_lt p 0x100)) by done.
    unfold mret, M_ret, emit. rewrite !app_nil_r. cbn [app]. f_equal. unfold s1, upd.
    cbn. by rewrite list_insert_insert_eq.
Qed.

(** ** Equality of abstract states on the existing interrupts *)

Record spec_eq (a b : gspec) : Prop := {
  e_num : g_num a = g_num b;
  e_stack : g_stack a = g_stack b;
  e_flags irq : 0 <= irq < g_num a ->
    g_en a irq = g_en b irq /\ g_pend a irq = g_pend b irq /\ g_level a irq = g_level b irq /\
    g_edge a irq = g_edge b irq;
  e_prio irq : 0 <= irq < g_num a -> g_prio a irq = g_prio b irq
}.

#[export] Instance spec_equiv : Equiv gspec := spec_eq.

#[export] Instance spec_equivalence : Equivalence (≡@{gspec}).
Proof.
  split.
  - intros a. by split.
  - intros a b [Hn Hs Hf Hp]. split; [done | done | |]; intros irq Hi; rewrite <- Hn in Hi.
    + destruct (Hf irq Hi) as (? & ? & ? & ?). by split_and!.
    + by rewrite Hp.
  - intros a b c [Hn Hs Hf Hp] [Hn' Hs' Hf' Hp']. split; [congruence | congruence | |]; intros irq Hi.
    + destruct (Hf irq Hi) as (-> & -> & -> & ->). apply Hf'. by rewrite <- Hn.
    + rewrite Hp by done. apply Hp'. by rewrite <- Hn.
Qed.

#[export] Instance spec_best_proper : Proper ((≡) ==> (=)) spec_best.
Proof.
  intros a b [Hn _ Hf Hp]. unfold spec_best. rewrite <- Hn. apply foldl_ext_in.
  intros acc irq Hi%elem_of_zrange. unfold spec_step. destruct (Z_le_gt_dec 0 (g_num a)); [| lia].
  destruct (Hf irq ltac:(lia)) as (-> & -> & _ & _). by rewrite Hp by lia.
Qed.

Lemma spec_running_equiv a b : spec_wf a -> a ≡ b -> spec_running a = spec_running b.
Proof.
  intros Hw [_ Hs _ Hp]. unfold spec_running. rewrite <- Hs. destruct (g_stack a) as [|i l] eqn:Hl; [done |].
  apply Hp. pose proof (w_range _ Hw) as Hr. rewrite Hl in Hr. by apply Forall_cons in Hr as [? _].
Qed.

Lemma spec_line_equiv a b : spec_wf a -> a ≡ b -> spec_line a = spec_line b.
Proof. intros Hw Heq. unfold spec_line. by rewrite (spec_running_equiv a b Hw Heq), Heq. Qed.

Lemma spec_wf_equiv a b : a ≡ b -> spec_wf a -> spec_wf b.
Proof.
  intros [Hn Hs Hf Hp] [Hw1 Hw2 Hw3 Hw4]. split; rewrite <- ?Hn, <- ?Hs; try done.
  - intros irq Hi. rewrite <- Hp by done. by apply Hw2.
  - clear Hs. induction Hw4 as [|i l Hsl IH Hall]; constructor.
    + apply IH. by inversion Hw3.
    + apply Forall_cons in Hw3 as [Hi Hr]. rewrite Forall_forall in *. intros j Hj.
      rewrite <- !Hp by auto. by apply Hall.
Qed.

Lemma represents_but_equiv s a b : a ≡ b -> represents_but s a -> represents_but s b.
Proof.
  intros Heq [Hc Hw Hn Hi Hp Ht Hr Hl]. pose proof (spec_running_equiv a b Hw Heq) as Hrun.
  pose proof (spec_wf_equiv a b Heq Hw) as Hwb.
  destruct Heq as [Hnum Hs Hf Hprio]. split; rewrite <- ?Hnum, <- ?Hs, <- ?Hrun; try done.
  - intros irq Hirq. destruct (Hf irq Hirq) as (<- & <- & <- & <-). by apply Hi.
  - intros irq Hirq. rewrite <- Hprio by done. by apply Hp.
Qed.

#[export] Instance represents_proper s : Proper ((≡) ==> iff) (represents s).
Proof.
  assert (Hone : forall a b, a ≡ b -> represents s a -> represents s b).
  { intros a b Heq [Hr Hc]. split; [by apply (represents_but_equiv s a b) |]. by rewrite <- Heq. }
  intros a b Heq. split; by apply Hone.
Qed.

(** ** Changing one interrupt *)

(** The abstract states agree but for the flags of [irq]. *)
Record same_but (irq : Z) (a a' : gspec) : Prop := {
  s_num : g_num a' = g_num a;
  s_prio : g_prio a' = g_prio a;
  s_stack : g_stack a' = g_stack a;
  s_flags j : j <> irq -> g_en a' j = g_en a j /\ g_pend a' j = g_pend a j /\
    g_level a' j = g_level a j /\ g_edge a' j = g_edge a j
}.

Lemma represents_irq s a a' irq f :
  represents_but s a -> 0 <= irq < g_num a -> same_but irq a a' ->
  irq_rep (f (irq_st s irq)) (g_en a' irq) (g_pend a' irq) (g_level a' irq) (g_edge a' irq) ->
  represents_but (set_irq_st irq f s) a'.
Proof.
  intros [Hc Hw Hn Hi Hp Ht Hr Hl] Hirq [Sn Sp Ss Sf] Hf.
  pose proof (w_num _ Hw) as Hnum. pose proof (n_irqs _ Hc) as Hlen.
  assert (Hrun : spec_running a' = spec_running a) by (unfold spec_running; by rewrite Ss, Sp).
  split; rewrite ?Sn, ?Sp, ?Ss, ?Hrun; try done.
  - destruct Hc. split; try done. cbn. by rewrite length_alter.
  - destruct Hw. split; rewrite ?Sn, ?Sp, ?Ss; done.
  - intros j Hj. rewrite irq_st_set by lia. destruct (Z.eqb_spec j irq) as [-> | Hne]; [done |].
    destruct (Sf j Hne) as (-> & -> & -> & ->). by apply Hi.
Qed.

Lemma fupd_eq {A} (f : Z → A) i v : fupd f i v i = v.
Proof. unfold fupd. by rewrite Z.eqb_refl. Qed.

Lemma fupd_ne {A} (f : Z → A) i v j : j <> i -> fupd f i v j = f j.
Proof. unfold fupd. intros. by destruct (Z.eqb_spec j i). Qed.

Ltac same_but_tac :=
  split; [done | done | done |]; intros ? ?; cbn; rewrite ?fupd_ne by done; by split_and!.

Lemma rep_set_pending s a irq :
  represents_but s a -> 0 <= irq < g_num a ->
  represents_but (set_irq_st irq (λ x, x <| irq_pending := u8 (irq_pending x .| 1) |>) s) (spec_set_pending irq a).
Proof.
  intros Hrep Hi. eapply represents_irq; [done | done | same_but_tac |]. cbn. rewrite fupd_eq.
  destruct (r_irq _ _ Hrep irq Hi) as [[He Hp Hl] ? ? ? ?].
  split; try done; [split; try done; cbn; by destruct Hp as [-> | ->]; right |].
  cbn. by destruct Hp as [-> | ->].
Qed.

Lemma rep_clear_pending s a irq m :
  represents_but s a -> 0 <= irq < g_num a -> is_mask m ->
  represents_but (set_irq_st irq (λ x, x <| irq_pending := Z.ldiff (irq_pending x) m |>) s)
    (a <| g_pend := fupd (g_pend a) irq false |>).
Proof.
  intros Hrep Hi Hm. eapply represents_irq; [done | done | same_but_tac |]. cbn. rewrite fupd_eq.
  destruct (r_irq _ _ Hrep irq Hi) as [[He Hp Hl] ? ? ? ?].
  assert (Hz : Z.ldiff (irq_pending (irq_st s irq)) m = 0) by by destruct Hm as [-> | ->], Hp as [-> | ->].
  split; try done; [split; try done; left | cbn]; cbn; by rewrite Hz.
Qed.

(** ** The operations refine the abstract ones *)

(** The level of the line to the processor after the events [t]. *)
Definition line_after (l : bool) (t : list dev_event) : bool :=
  foldl (λ l e, match e with SetIrq _ v => cbool v | _ => l end) l t.

(** [m] does to [s] what changes the abstract state [a] to [a'] and returns
    [r], and leaves the line as [a'] asks for. *)
Definition performs {R} (m : GicM R) (s : GICState) (a : gspec) (r : R) (a' : gspec) : Prop :=
  exists s' t, m s = Done r s' t /\ represents s' a' /\ line_after (spec_line a) t = spec_line a'.

Lemma performs_nothing {R} (m : GicM R) s a r a' :
  represents s a -> a ≡ a' -> m s = Done r s [] -> performs m s a r a'.
Proof.
  intros Hrep Heq Hm. exists s, []. split; [done |]. split; [by rewrite <- Heq |].
  apply spec_line_equiv; [by apply Hrep | done].
Qed.

Lemma performs_update {R} (m : GicM R) s a r a' s1 :
  represents_but s1 a' -> m s = (gic_update ;; mret r) s1 -> performs m s a r a'.
Proof.
  intros Hrep Hm. destruct (update_ok s1 a' Hrep) as [Hup Hrep'].
  exists (cached s1 a'), [SetIrq 0 (b2z (spec_line a'))]. split.
  - rewrite Hm. unfold mbind, M_bind. by rewrite Hup.
  - split; [done |]. cbn. by destruct (spec_line a').
Qed.

Lemma bind_ret {E S} (m : M E S unit) s : (m ;; mret ()) s = m s.
Proof. unfold mbind, M_bind. destruct (m s) as [[] s1 t |]; [by cbn; rewrite app_nil_r | done]. Qed.

Lemma spec_set_pending_same irq a : g_pend a irq = true -> a ≡ spec_set_pending irq a.
Proof.
  intros Hp. split; try done. intros j Hj. cbn. split_and!; try done.
  unfold fupd. by destruct (Z.eqb_spec j irq) as [-> |].
Qed.

Lemma set_pending_private_ok s a irq :
  represents s a -> 0 <= irq < g_num a ->
  performs (gic_set_pending_private 0 irq) s a () (spec_set_pending irq a).
Proof.
  intros Hrep Hi. pose proof (rep_pending s a (proj1 Hrep) irq 1 Hi (or_introl eq_refl)) as Hp.
  destruct (g_pend a irq) eqn:Hg.
  - apply performs_nothing; [done | by apply spec_set_pending_same |].
    unfold gic_set_pending_private, mbind, M_bind, get. change (1 << 0) with 1. by rewrite Hp.
  - eapply performs_update; [by apply rep_set_pending; [apply Hrep |] |]. rewrite bind_ret.
    unfold gic_set_pending_private, mbind, M_bind, get. change (1 << 0) with 1. rewrite Hp. cbn.
    by run_cases.
Qed.

(** *** Input lines *)

Lemma rep_level_set s a irq (level : bool) :
  represents_but s a -> 0 <= irq < g_num a ->
  represents_but
    (set_irq_st irq (λ x, x <| irq_level := if level then u8 (irq_level x .| 255) else Z.ldiff (irq_level x) 255 |>) s)
    (a <| g_level := fupd (g_level a) irq level |>).
Proof.
  intros Hrep Hi. eapply represents_irq; [done | done | same_but_tac |]. cbn. rewrite fupd_eq.
  destruct (r_irq _ _ Hrep irq Hi) as [[He Hp Hl] ? ? ? ?].
  assert (Hv : (if level then u8 (irq_level (irq_st s irq) .| 255) else Z.ldiff (irq_level (irq_st s irq)) 255) =
               if level then 255 else 0) by by destruct level, Hl as [-> | ->].
  split; try done; [split; try done; cbn; rewrite Hv | cbn; rewrite Hv]; destruct level; auto.
Qed.

Lemma set_irq_ok s a n level :
  represents s a -> 0 <= n < g_num a - 32 ->
  performs (gic_set_irq n (b2z level)) s a () (spec_set_irq (n + 32) level a).
Proof.
  intros [Hrep Hc] Hn. pose proof (rep_num s a Hrep) as Hnum. unfold GIC_MAXIRQ in Hnum.
  assert (Hi : 0 <= n + 32 < g_num a) by lia. assert (H255 : is_mask 255) by by right.
  assert (Hstart : gic_set_irq n (b2z level) s =
    (if b2z level =? b2z (g_level a (n + 32)) then mret ()
     else gic_set_irq_11mpcore (n + 32) (b2z level) 255 1 ;; gic_update) s).
  { unfold gic_set_irq, mbind at 1, M_bind at 1, get. rewrite (r_num _ _ Hrep). unfold GIC_INTERNAL.
    rewrite u32_small, (proj2 (Z.ltb_lt n (g_num a - 32))) by lia.
    change ALL_CPU_MASK with 255. rewrite (n_target _ (r_conf _ _ Hrep)) by (unfold GIC_MAXIRQ; lia).
    unfold GIC_NR_SGIS. rewrite (proj2 (Z.leb_le 16 (n + 32))) by lia.
    rewrite (rep_level s a Hrep _ _ Hi H255), (rep_legacy s a Hrep).
    unfold mbind at 1, M_bind at 1, assert_, mret, M_ret.
    destruct (b2z level =? _); [done |]. by run_cases. }
  unfold spec_set_irq. destruct (eqb level (g_level a (n + 32))) eqn:He.
  { apply eqb_prop in He as ->. apply performs_nothing; [done | done |]. rewrite Hstart. by rewrite Z.eqb_refl. }
  assert (Hneq : (b2z level =? b2z (g_level a (n + 32))) = false) by by destruct level, (g_level a (n + 32)).
  rewrite Hneq in Hstart. pose proof (rep_level_set s a (n + 32) level Hrep Hi) as Hrep1.
  destruct level; cbn [andb].
  - set (s1 := set_irq_st _ _ s) in Hrep1.
    assert (Hedge : GIC_TEST_EDGE_TRIGGER s1 (n + 32) = g_edge a (n + 32)) by exact (rep_edge s1 _ Hrep1 _ Hi).
    assert (Hen : GIC_TEST_ENABLED s1 (n + 32) 255 = g_en a (n + 32)) by exact (rep_enabled s1 _ Hrep1 _ _ Hi H255).
    assert (H11 : gic_set_irq_11mpcore (n + 32) (b2z true) 255 1 s =
      when (g_edge a (n + 32) || g_en a (n + 32)) (GIC_SET_PENDING (n + 32) 1) s1).
    { unfold gic_set_irq_11mpcore, mbind, M_bind, get. cbn [b2z]. change (cbool 1) with true. cbn iota.
      unfold GIC_SET_LEVEL, modify. fold s1. rewrite Hedge, Hen. by run_cases. }
    destruct (g_edge a (n + 32) || g_en a (n + 32)).
    + eapply performs_update; [by apply (rep_set_pending s1 _ (n + 32) Hrep1) |].
      rewrite bind_ret, Hstart. unfold mbind, M_bind. rewrite H11. cbn. by run_cases.
    + eapply performs_update; [exact Hrep1 |].
      rewrite bind_ret, Hstart. unfold mbind, M_bind. rewrite H11. cbn. by run_cases.
  - eapply performs_update; [exact Hrep1 |]. rewrite bind_ret, Hstart. unfold mbind, M_bind.
    cbn. by run_cases.
Qed.

(** *** Acknowledge *)

Lemma links_ext (la la' : Z → Z) (l : list Z) :
  (forall i, i ∈ l -> la' i = la i) -> links la l -> links la' l.
Proof.
  induction l as [|i l IH]; [done |]. intros Hext [Hi Hl]. split; [by rewrite Hext by set_solver |].
  apply IH; [set_solver | done].
Qed.

(** The state after an interrupt of better priority has been entered. *)
Definition entered (s : GICState) (irq p : Z) : GICState :=
  s <| last_active := upd2 (last_active s) irq 0 (idx (running_irq s) 0) |>
    <| running_irq := upd (running_irq s) 0 irq |>
    <| running_priority := upd (running_priority s) 0 p |>.

Lemma rep_entered s a irq :
  represents_but s a -> 0 <= irq < g_num a -> g_prio a irq < spec_running a ->
  represents_but (entered s irq (g_prio a irq)) (a <| g_stack := irq :: g_stack a |>).
Proof.
  intros [Hc Hw Hn Hi Hp Ht Hr Hl] Hirq Hlt. pose proof (w_num _ Hw) as Hnum. unfold GIC_MAXIRQ in Hnum.
  assert (Hsort : StronglySorted (λ i j, g_prio a i < g_prio a j) (irq :: g_stack a)).
  { constructor; [by apply w_sorted |]. pose proof (w_sorted _ Hw) as Hs. unfold spec_running in Hlt.
    destruct (g_stack a) as [|i l]; [constructor |]. inversion_clear Hs as [|? ? _ Hall].
    constructor; [done |]. eapply Forall_impl; [exact Hall | cbn]. intros. lia. }
  split; try done.
  - destruct Hc. split; try done; cbn; [by apply rows_upd2 | |]; unfold upd; by rewrite length_insert.
  - destruct Hw. split; try done. by constructor.
  - cbn. rewrite idx_upd; [done | done | | done]. rewrite (n_run _ Hc). cbn. lia.
  - cbn. rewrite idx_upd; [done | done | | done]. rewrite (n_runp _ Hc). cbn. lia.
  - assert (Hprem : forall j, 0 <= j -> preempted (entered s irq (g_prio a irq)) j =
      if j =? irq then top (g_stack a) else preempted s j).
    { intros j Hj. unfold preempted. cbn. rewrite <- Ht. apply (idx2_upd2 1020); [by apply n_last | lia | done]. }
    split; [by rewrite Hprem, Z.eqb_refl by lia |]. eapply links_ext; [| exact Hl].
    intros i Hin. pose proof (w_range _ Hw) as Hrange. rewrite Forall_forall in Hrange.
    rewrite Hprem by (apply Hrange; done). destruct (Z.eqb_spec i irq) as [-> |]; [| done].
    apply sorted_nodup, NoDup_cons in Hsort as [Hnot _]. done.
Qed.

(** With nothing to deliver nothing happens. *)
Lemma acknowledge_none s a : represents s a -> spec_line a = false -> gic_acknowledge_irq 0 s = Done 1023 s [].
Proof.
  intros [Hrep Hc] Hline. pose proof (rep_num s a Hrep) as Hnum. unfold GIC_MAXIRQ in Hnum.
  unfold gic_acknowledge_irq, mbind, M_bind, get. rewrite Hc, (r_runp _ _ Hrep).
  destruct (spec_best_ok a ltac:(lia)) as [[Hb _] | (Hi & _ & Hp & _)]; [by rewrite Hb |].
  rewrite (r_prio _ _ Hrep), <- Hp by done. apply Z.ltb_ge in Hline.
  by rewrite (proj2 (Z.leb_le _ _) Hline), orb_true_r.
Qed.

Lemma acknowledge_ok s a :
  represents s a -> performs (gic_acknowledge_irq 0) s a (fst (spec_ack a)) (snd (spec_ack a)).
Proof.
  intros [Hrep Hc]. pose proof (rep_num s a Hrep) as Hnum. unfold GIC_MAXIRQ in Hnum.
  pose proof (r_wf _ _ Hrep) as Hw. unfold spec_ack. destruct (spec_line a) eqn:Hline.
  2: { apply performs_nothing; [done | done | by apply (acknowledge_none s a)]. }
  destruct (spec_line_best a Hw Hline) as (Hi & _ & _ & Hlt & _). cbn [fst snd].
  set (irq := snd (spec_best a)) in *.
  set (m := if GIC_TEST_MODEL s irq then ALL_CPU_MASK else 1).
  assert (Hm : is_mask m) by (unfold m; destruct (GIC_TEST_MODEL s irq); [by right | by left]).
  pose proof (rep_clear_pending _ _ irq m Hrep Hi Hm) as Hrep1.
  assert (Hlt1 : g_prio (a <| g_pend := fupd (g_pend a) irq false |>) irq <
                 spec_running (a <| g_pend := fupd (g_pend a) irq false |>)) by done.
  pose proof (rep_entered _ _ irq Hrep1 Hi Hlt1) as Hrep2.
  eapply performs_update; [exact Hrep2 |].
  unfold gic_acknowledge_irq, mbind at 1, M_bind at 1, get. rewrite Hc. fold irq.
  rewrite (r_runp _ _ Hrep), (r_prio _ _ Hrep) by done.
  assert (Hneq : (irq =? 1023) || (spec_running a <=? g_prio a irq) = false).
  { apply orb_false_iff. split; [apply Z.eqb_neq; lia | apply Z.leb_gt; lia]. }
  rewrite Hneq, (rep_legacy s a Hrep).
  unfold gic_set_running_irq, clear_acked, mbind, M_bind, modify, get, mret, M_ret.
  rewrite (proj2 (Z.eqb_neq irq 1023)) by lia.
  unfold GIC_CLEAR_PENDING, modify.
  match goal with |- context [gic_update ?x] => set (s2 := x) end.
  match goal with |- _ = match gic_update ?x with _ => _ end => assert (Hs2 : s2 = x) end.
  { replace (g_prio (a <| g_pend := _ |>) irq) with (GIC_GET_PRIORITY s irq 0) by exact (r_prio _ _ Hrep irq Hi).
    done. }
  rewrite <- Hs2. by run_cases.
Qed.

(** *** Complete *)

Lemma filter_absent (irq : Z) (l : list Z) : irq ∉ l -> filter (λ j, j ≠ irq) l = l.
Proof.
  induction l as [|i l IH]; intros Hn; [done |]. rewrite filter_cons_True by set_solver.
  by rewrite IH by set_solver.
Qed.

Lemma stack_length (n : Z) (l : list Z) :
  NoDup l -> Forall (λ i, 0 <= i < n) l -> (length l <= Z.to_nat n)%nat.
Proof.
  intros Hd Hr. rewrite <- (zrange_length 0 (Z.to_nat n)). apply submseteq_length, NoDup_submseteq; [done |].
  intros i Hi. rewrite Forall_forall in Hr. specialize (Hr i Hi). apply elem_of_zrange. lia.
Qed.

(** The walk removes the completed interrupt from the stack below [tmp]. *)
Lemma walk_ok fuel irq : forall tmp r s,
  rows 1020 (last_active s) -> Forall (λ i, 0 <= i < 1020) (tmp :: r) -> NoDup (tmp :: r) ->
  links (preempted s) (tmp :: r) -> (length r < fuel)%nat ->
  exists la, complete_walk fuel 0 irq tmp s = Done () (s <| last_active := la |>) [] /\ rows 1020 la /\
    links (λ i, idx2 la i 0) (tmp :: filter (λ j, j ≠ irq) r) /\
    forall i, 0 <= i -> i ∉ tmp :: r -> idx2 la i 0 = preempted s i.
Proof.
  induction fuel as [|fuel IH]; intros tmp r s Hrows Hrange Hd [Htmp Hl] Hf; [lia |].
  apply Forall_cons in Hrange as [Ht Hrange]. apply NoDup_cons in Hd as [Hnot Hd].
  cbn [complete_walk]. unfold mbind, M_bind, get. change (idx2 (last_active s) tmp 0) with (preempted s tmp).
  rewrite Htmp. destruct r as [|j r]; cbn [top].
  { exists (last_active s). split; [by destruct s |]. done. }
  apply Forall_cons in Hrange as [Hj Hrange]. apply NoDup_cons in Hd as [Hnot' Hd]. destruct Hl as [Hlj Hl].
  rewrite (proj2 (Z.eqb_neq j 1023)) by lia. destruct (Z.eqb_spec j irq) as [-> | Hne].
  - exists (upd2 (last_active s) tmp 0 (preempted s irq)). split; [done |].
    split; [by apply rows_upd2 |]. rewrite filter_cons_False by (intros Hx; by apply Hx). rewrite filter_absent by done.
    split.
    + split; [by rewrite (idx2_upd2 1020), Z.eqb_refl by (done || lia) |].
      eapply links_ext; [| exact Hl]. intros i Hi. cbn. rewrite Forall_forall in Hrange. specialize (Hrange i Hi).
      rewrite (idx2_upd2 1020) by (done || lia). destruct (Z.eqb_spec i tmp) as [-> |]; [| done].
      destruct Hnot. by apply list_elem_of_further.
    + intros i Hi Hni. rewrite (idx2_upd2 1020) by (done || lia).
      destruct (Z.eqb_spec i tmp) as [-> |]; [| done]. destruct Hni. by apply list_elem_of_here.
  - destruct (IH j r s) as (la & Hrun & Hrows' & [Hlj' Hl'] & Hrest).
    { done. } { by constructor. } { by constructor. } { done. } { cbn in Hf. lia. }
    exists la. rewrite Hrun. split; [done |]. split; [done |]. split.
    + rewrite filter_cons_True by done. split; [| done]. cbn. by rewrite Hrest by (done || lia).
    + intros i Hi Hni. apply Hrest; [done |]. intros Hin. destruct Hni. by apply list_elem_of_further.
Qed.

(** Removing an interrupt below the running one. *)
Lemma rep_removed s a irq la tmp r :
  represents_but s a -> g_stack a = tmp :: r -> irq <> tmp -> rows 1020 la ->
  links (λ i, idx2 la i 0) (tmp :: filter (λ j, j ≠ irq) r) ->
  represents_but (s <| last_active := la |>) (a <| g_stack := filter (λ j, j ≠ irq) (g_stack a) |>).
Proof.
  intros [Hc Hw Hn Hi Hp Ht Hr Hl] Hstack Hne Hrows Hlinks.
  assert (Hfilter : filter (λ j, j ≠ irq) (g_stack a) = tmp :: filter (λ j, j ≠ irq) r)
    by (rewrite Hstack; by rewrite filter_cons_True).
  split; try done.
  - by destruct Hc; split.
  - destruct Hw as [? ? Hrange Hs]. split; try done; cbn; [| by apply sorted_filter].
    rewrite Forall_forall in *. intros i [_ Hin]%list_elem_of_filter. by apply Hrange.
  - cbn. rewrite Hfilter. by rewrite Hstack in Ht.
  - cbn. unfold spec_running in *. cbn. rewrite Hfilter. by rewrite Hstack in Hr.
  - cbn. by rewrite Hfilter.
Qed.

(** Returning from the running interrupt. *)
Lemma rep_returned s a tmp r :
  represents_but s a -> g_stack a = tmp :: r ->
  represents_but (s <| running_irq := upd (running_irq s) 0 (top r) |>
                    <| running_priority := upd (running_priority s) 0 (spec_running (a <| g_stack := r |>)) |>)
    (a <| g_stack := r |>).
Proof.
  intros [Hc Hw Hn Hi Hp Ht Hr Hl] Hstack. rewrite Hstack in Hl. destruct Hl as [_ Hl].
  split; try done.
  - destruct Hc. split; try done; cbn; unfold upd; by rewrite length_insert.
  - destruct Hw as [? ? Hrange Hs]. rewrite Hstack in Hrange, Hs. split; try done; cbn.
    + by apply Forall_cons in Hrange as [_ ?].
    + by inversion Hs.
  - cbn. rewrite idx_upd; [done | done | | done]. rewrite (n_run _ Hc). cbn. lia.
  - cbn. rewrite idx_upd; [done | done | | done]. rewrite (n_runp _ Hc). cbn. lia.
Qed.

(** The interrupt is marked pending again when its line is still high. *)
Definition held (irq : Z) (a : gspec) : bool := negb (g_edge a irq) && g_en a irq && g_level a irq.

Definition repend (irq : Z) (a : gspec) : gspec := if held irq a then spec_set_pending irq a else a.

Lemma repend_stack irq a : g_stack (repend irq a) = g_stack a.
Proof. unfold repend. by destruct (held irq a). Qed.

Lemma repend_prio irq a : g_prio (repend irq a) = g_prio a /\ g_num (repend irq a) = g_num a.
Proof. unfold repend. by destruct (held irq a). Qed.

Lemma rep_repend s a irq :
  represents_but s a -> 0 <= irq < g_num a ->
  exists s1, when (held irq a) (GIC_SET_PENDING irq 1) s = Done () s1 [] /\ represents_but s1 (repend irq a) /\
    (held irq a = false -> s1 = s).
Proof.
  intros Hrep Hi. unfold repend. destruct (held irq a).
  - eexists. split; [reflexivity |]. split; [by apply rep_set_pending | done].
  - by exists s.
Qed.

Lemma spec_complete_repend irq a :
  g_stack a <> [] -> irq < g_num a ->
  spec_complete irq a = repend irq a <| g_stack := filter (λ j, j ≠ irq) (g_stack a) |>.
Proof.
  intros Hne Hlt. unfold spec_complete, repend, held. rewrite bool_decide_false by done.
  rewrite (proj2 (Z.leb_gt (g_num a) irq)) by lia. cbn [orb].
  by destruct (negb (g_edge a irq) && g_en a irq && g_level a irq).
Qed.

(** Which of the two ways [gic_complete_irq] goes. *)
Lemma complete_enter s a irq tmp r :
  represents_but s a -> 0 <= irq < g_num a -> g_stack a = tmp :: r ->
  gic_complete_irq 0 irq s =
    (when (held irq a) (GIC_SET_PENDING irq 1) ;;
     if negb (irq =? tmp) then
       complete_walk (Z.to_nat GIC_MAXIRQ) 0 irq tmp ;; when (held irq a) gic_update
     else gic_set_running_irq 0 (top r)) s.
Proof.
  intros Hrep Hi Hstack. pose proof (rep_num s a Hrep) as Hn. assert (H1 : is_mask 1) by by left.
  pose proof (r_top _ _ Hrep) as Htop. pose proof (r_links _ _ Hrep) as Hl.
  pose proof (w_range _ (r_wf _ _ Hrep)) as Hrange. rewrite Hstack in Htop, Hl, Hrange.
  apply Forall_cons in Hrange as [Htmp _]. destruct Hl as [Hprev _]. cbn [top] in Htop.
  unfold gic_complete_irq, GIC_MAXIRQ in *. unfold mbind at 1, M_bind at 1, get.
  rewrite (r_num _ _ Hrep), (proj2 (Z.leb_gt (g_num a) irq)) by lia. rewrite Htop.
  rewrite (proj2 (Z.eqb_neq tmp 1023)) by lia. change (1 << 0) with 1.
  rewrite (rep_legacy s a Hrep), (rep_edge s a Hrep), (rep_enabled s a Hrep), (rep_level s a Hrep) by done.
  rewrite (n_target _ (r_conf _ _ Hrep)) by (unfold GIC_MAXIRQ; lia).
  change (cbool (1 .& 1)) with true. rewrite andb_true_r. cbn [andb]. fold (held irq a).
  change (idx2 (last_active s) tmp 0) with (preempted s tmp). rewrite Hprev.
  by run_cases.
Qed.

Lemma complete_running_ok s a tmp r :
  represents s a -> g_stack a = tmp :: r ->
  performs (gic_complete_irq 0 tmp) s a () (repend tmp a <| g_stack := r |>).
Proof.
  intros [Hrep _] Hstack. pose proof (rep_num s a Hrep) as Hn. unfold GIC_MAXIRQ in Hn.
  pose proof (w_range _ (r_wf _ _ Hrep)) as Hrange. rewrite Hstack in Hrange.
  apply Forall_cons in Hrange as [Htmp Hrange].
  destruct (rep_repend s a tmp Hrep Htmp) as (s1 & Hs1 & Hrep1 & _).
  pose proof (rep_returned s1 _ tmp r Hrep1 (eq_trans (repend_stack tmp a) Hstack)) as Hrep2.
  apply (performs_update _ s a () _ _ Hrep2). rewrite bind_ret, (complete_enter s a tmp tmp r) by done.
  rewrite Z.eqb_refl. cbn [negb]. rewrite (bind_Done _ _ _ _ _ Hs1).
  unfold gic_set_running_irq, mbind, M_bind, modify.
  match goal with |- _ = gic_update ?x => set (s2 := x) end.
  match goal with |- context [gic_update ?x] => assert (Hs2 : x = s2); [| rewrite Hs2; by run_cases] end.
  unfold s2. destruct r as [|j r']; [done |]. cbn [top].
  apply Forall_cons in Hrange as [Hj _]. rewrite (proj2 (Z.eqb_neq j 1023)) by lia.
  assert (Hp : spec_running (repend tmp a <| g_stack := j :: r' |>) = GIC_GET_PRIORITY s1 j 0).
  { symmetry. pose proof (repend_prio tmp a) as [_ Hnum]. apply (r_prio _ _ Hrep1). by rewrite Hnum. }
  by rewrite Hp.
Qed.

Lemma complete_below_ok s a irq tmp r :
  represents s a -> 0 <= irq < g_num a -> g_stack a = tmp :: r -> irq <> tmp ->
  performs (gic_complete_irq 0 irq) s a () (repend irq a <| g_stack := filter (λ j, j ≠ irq) (tmp :: r) |>).
Proof.
  intros [Hrep Hc] Hi Hstack Hne. pose proof (rep_num s a Hrep) as Hn. unfold GIC_MAXIRQ in Hn.
  pose proof (sorted_nodup _ _ (w_sorted _ (r_wf _ _ Hrep))) as Hd.
  pose proof (w_range _ (r_wf _ _ Hrep)) as Hrange. rewrite Hstack in Hrange, Hd.
  assert (Hrange' : Forall (λ i, 0 <= i < 1020) (tmp :: r)).
  { eapply Forall_impl; [exact Hrange |]. intros i [? ?]. lia. }
  destruct (rep_repend s a irq Hrep Hi) as (s1 & Hs1 & Hrep1 & Hsame).
  pose proof (eq_trans (repend_stack irq a) Hstack) as Hstack1.
  assert (Hl1 : links (preempted s1) (tmp :: r)) by (rewrite <- Hstack1; exact (r_links _ _ Hrep1)).
  destruct (walk_ok (Z.to_nat GIC_MAXIRQ) irq tmp r s1) as (la & Hwalk & Hrows & Hlinks & _);
    [exact (n_last _ (r_conf _ _ Hrep1)) | done | done | done | |].
  { pose proof (stack_length 1020 _ Hd Hrange') as Hlen. cbn [length] in Hlen. unfold GIC_MAXIRQ. lia. }
  pose proof (rep_removed s1 _ irq la tmp r Hrep1 Hstack1 Hne Hrows Hlinks) as Hrep2. rewrite Hstack1 in Hrep2.
  pose proof (complete_enter s a irq tmp r Hrep Hi Hstack) as Henter.
  rewrite (proj2 (Z.eqb_neq irq tmp) Hne), (bind_Done _ _ _ _ _ Hs1) in Henter. cbn [negb] in Henter.
  rewrite (bind_Done _ _ _ _ _ Hwalk) in Henter. unfold repend in *. destruct (held irq a).
  - apply (performs_update _ s a () _ _ Hrep2). by rewrite bind_ret, Henter.
  - specialize (Hsame eq_refl). subst s1. exists (s <| last_active := la |>), []. split; [exact Henter |].
    split; [by split |]. rewrite filter_cons_True in * by done.
    change (spec_line a = (fst (spec_best a) <? g_prio a tmp)). unfold spec_line, spec_running. by rewrite Hstack.
Qed.

Lemma complete_ok s a irq :
  represents s a -> 0 <= irq -> performs (gic_complete_irq 0 irq) s a () (spec_complete irq a).
Proof.
  intros Hr Hirq. pose proof Hr as [Hrep _]. destruct (Z_le_gt_dec (g_num a) irq) as [Hbig | Hlt].
  { apply performs_nothing; [done | |].
    - unfold spec_complete. by rewrite (proj2 (Z.leb_le _ _) Hbig), orb_true_r.
    - unfold gic_complete_irq, mbind, M_bind, get. by rewrite (r_num _ _ Hrep), (proj2 (Z.leb_le _ _) Hbig). }
  destruct (g_stack a) as [|tmp r] eqn:Hstack.
  { apply performs_nothing; [done | |].
    - unfold spec_complete. by rewrite bool_decide_true.
    - unfold gic_complete_irq, mbind, M_bind, get. rewrite (r_num _ _ Hrep), (proj2 (Z.leb_gt (g_num a) irq)) by lia.
      by rewrite (r_top _ _ Hrep), Hstack. }
  rewrite spec_complete_repend, Hstack by (congruence || lia).
  destruct (Z.eq_dec irq tmp) as [-> | Hne]; [| apply complete_below_ok; [done | lia | done | done]].
  assert (Hfil : filter (λ j, j ≠ tmp) (tmp :: r) = r).
  { pose proof (sorted_nodup _ _ (w_sorted _ (r_wf _ _ Hrep))) as Hd. rewrite Hstack in Hd.
    apply NoDup_cons in Hd as [Hnot _]. rewrite filter_cons_False by (intros Hx; by apply Hx).
    by apply filter_absent. }
  rewrite Hfil. by apply complete_running_ok.
Qed.

(** *** The registers of the distributor *)

Definition spec_enable (irq : Z) (a : gspec) : gspec :=
  let a' := a <| g_en := fupd (g_en a) irq true |> in
  if g_level a irq && negb (g_edge a irq) then spec_set_pending irq a' else a'.
Definition spec_disable (irq : Z) (a : gspec) : gspec := a <| g_en := fupd (g_en a) irq false |>.
Definition spec_clear_pending (irq : Z) (a : gspec) : gspec := a <| g_pend := fupd (g_pend a) irq false |>.
Definition spec_set_priority (irq v : Z) (a : gspec) : gspec := a <| g_prio := fupd (g_prio a) irq v |>.

(** The change [f] for each interrupt from [base] on whose bit is set in the
    byte [value]. *)
Definition spec_bits (value base : Z) (f : Z → gspec → gspec) (a : gspec) : gspec :=
  foldl (λ a i, if Z.testbit value i then f (base + i) a else a) a (zrange 0 8).

(** The changes of the registers keep the number of interrupts. *)
Class KeepsNum (f : Z → gspec → gspec) : Prop := keeps_num irq a : g_num (f irq a) = g_num a.

#[export] Instance keeps_enable : KeepsNum spec_enable.
Proof. intros irq a. unfold spec_enable. by destruct (_ && _). Qed.
#[export] Instance keeps_disable : KeepsNum spec_disable.
Proof. done. Qed.
#[export] Instance keeps_set_pending : KeepsNum spec_set_pending.
Proof. done. Qed.
#[export] Instance keeps_clear_pending : KeepsNum spec_clear_pending.
Proof. done. Qed.

Lemma for_bits_ok value base f `{!KeepsNum f} (body : Z → GicM unit) s a :
  (forall i s a, 0 <= i < 8 -> 0 <= base + i < g_num a -> represents_but s a ->
     exists s', body i s = Done () s' [] /\ represents_but s' (f (base + i) a)) ->
  0 <= base -> base + 8 <= g_num a -> represents_but s a ->
  exists s', for_bits value body s = Done () s' [] /\ represents_but s' (spec_bits value base f a).
Proof.
  intros Hbody Hbase Hnum Hrep. unfold for_bits, spec_bits.
  assert (Hl : forall i, i ∈ zrange 0 8 -> 0 <= i < 8) by (intros i Hi%elem_of_zrange; lia).
  revert s a Hnum Hrep. induction (zrange 0 8) as [|i l IH]; intros s a Hnum Hrep; [by exists s |].
  cbn [for_each foldl]. change (1 << i) with (BIT i).
  assert (Hi : 0 <= i < 8) by (apply Hl, list_elem_of_here). rewrite cbool_BIT by lia.
  assert (Hl' : forall j, j ∈ l -> 0 <= j < 8) by (intros j Hj; by apply Hl, list_elem_of_further).
  destruct (Z.testbit value i); cbn [when].
  - destruct (Hbody i s a Hi ltac:(lia) Hrep) as (s1 & Hs1 & Hrep1). rewrite (bind_Done _ _ _ _ _ Hs1).
    apply IH; [done | by rewrite keeps_num | done].
  - rewrite (bind_Done _ _ s () s eq_refl). by apply IH.
Qed.

Lemma rep_enable s a irq :
  represents_but s a -> 0 <= irq < g_num a ->
  represents_but (set_irq_st irq (λ x, x <| irq_enabled := u8 (irq_enabled x .| 255) |>) s)
    (a <| g_en := fupd (g_en a) irq true |>).
Proof.
  intros Hrep Hi. eapply represents_irq; [done | done | same_but_tac |]. cbn. rewrite fupd_eq.
  destruct (r_irq _ _ Hrep irq Hi) as [[He Hp Hl] ? ? ? ?].
  assert (Hv : u8 (irq_enabled (irq_st s irq) .| 255) = 255) by by destruct He as [-> | [-> | ->]].
  split; try done; [split; try done; cbn; rewrite Hv; auto | cbn; by rewrite Hv].
Qed.

Lemma rep_disable s a irq :
  represents_but s a -> 0 <= irq < g_num a ->
  represents_but (set_irq_st irq (λ x, x <| irq_enabled := Z.ldiff (irq_enabled x) 255 |>) s) (spec_disable irq a).
Proof.
  intros Hrep Hi. eapply represents_irq; [done | done | same_but_tac |]. cbn. rewrite fupd_eq.
  destruct (r_irq _ _ Hrep irq Hi) as [[He Hp Hl] ? ? ? ?].
  assert (Hv : Z.ldiff (irq_enabled (irq_st s irq)) 255 = 0) by by destruct He as [-> | [-> | ->]].
  split; try done; [split; try done; cbn; rewrite Hv; auto | cbn; by rewrite Hv].
Qed.

Section Bits.
  Context (base i : Z) (s : GICState) (a : gspec).
  Context (Hbase : 32 <= base) (Hbit : 0 <= i < 8) (Hirq : 0 <= base + i < g_num a).
  Context (Hrep : represents_but s a).

Lemma bit_private : (base <? GIC_INTERNAL) = false.
Proof. apply Z.ltb_ge. done. Qed.

Lemma bit_target : GIC_TARGET s (base + i) = 1.
Proof. pose proof (rep_num s a Hrep). apply (n_target _ (r_conf _ _ Hrep)). lia. Qed.

Lemma enable_bit_ok :
  exists s', set_enable_bit 0 base i s = Done () s' [] /\ represents_but s' (spec_enable (base + i) a).
Proof.
  unfold set_enable_bit, mbind, M_bind, get. rewrite bit_private, bit_target.
  assert (H1 : is_mask 1) by by left.
  rewrite (rep_level s a Hrep), (rep_edge s a Hrep) by done. unfold spec_enable.
  pose proof (rep_enable s a (base + i) Hrep Hirq) as Hrep1.
  destruct (g_level a (base + i) && negb (g_edge a (base + i))).
  - eexists. split; [reflexivity |]. by apply (rep_set_pending _ _ (base + i) Hrep1).
  - eexists. split; [reflexivity |]. exact Hrep1.
Qed.

Lemma disable_bit_ok :
  exists s', clear_enable_bit 0 base i s = Done () s' [] /\ represents_but s' (spec_disable (base + i) a).
Proof.
  unfold clear_enable_bit. rewrite bit_private. eexists. split; [reflexivity |]. by apply rep_disable.
Qed.

Lemma set_pending_bit_ok :
  exists s', set_pending_bit base i s = Done () s' [] /\ represents_but s' (spec_set_pending (base + i) a).
Proof.
  unfold set_pending_bit, mbind, M_bind, get. rewrite bit_target. eexists. split; [reflexivity |].
  by apply rep_set_pending.
Qed.

Lemma clear_pending_bit_ok :
  exists s', GIC_CLEAR_PENDING (base + i) ALL_CPU_MASK s = Done () s' [] /\
    represents_but s' (spec_clear_pending (base + i) a).
Proof. eexists. split; [reflexivity |]. apply rep_clear_pending; [done | done | by right]. Qed.

End Bits.

(** A new priority of an interrupt that is not active. *)
Lemma rep_priority s a irq v :
  represents_but s a -> 32 <= irq < g_num a -> irq ∉ g_stack a -> 0 <= v < 0x100 ->
  represents_but (s <| priority2 := upd (priority2 s) (irq - GIC_INTERNAL) v |>) (spec_set_priority irq v a).
Proof.
  intros [Hc Hw Hn Hi Hp Ht Hr Hl] Hirq Hnot Hv. pose proof (w_num _ Hw) as Hnum. unfold GIC_MAXIRQ in Hnum.
  assert (Hrun : spec_running (spec_set_priority irq v a) = spec_running a).
  { unfold spec_running, spec_set_priority. cbn. destruct (g_stack a) as [|i l]; [done |].
    apply fupd_ne. intros ->. by apply Hnot, list_elem_of_here. }
  split; rewrite ?Hrun; try done.
  - destruct Hc. split; try done. cbn. unfold upd. by rewrite length_insert.
  - destruct Hw as [? Hwp ? Hs]. split; try done; cbn.
    + intros j Hj. unfold fupd. destruct (Z.eqb_spec j irq); [done | by apply Hwp].
    + clear Hr Hl Ht Hrun. induction Hs as [|i l Hs IH Hall]; constructor.
      * apply IH; [by apply Forall_cons in w_range0 as [_ ?] |]. intros Hin. by apply Hnot, list_elem_of_further.
      * rewrite Forall_forall in *. intros j Hj. rewrite !fupd_ne; [by apply Hall | |].
        -- intros ->. by apply Hnot, list_elem_of_further.
        -- intros ->. by apply Hnot, list_elem_of_here.
  - intros j Hj. unfold GIC_GET_PRIORITY, spec_set_priority. cbn. unfold fupd. specialize (Hp j Hj).
    unfold GIC_GET_PRIORITY, GIC_INTERNAL in *. destruct (Z.ltb_spec j 32).
    + by rewrite (proj2 (Z.eqb_neq j irq)) by lia.
    + rewrite idx_upd by (rewrite ?(n_prio2 _ Hc); lia).
      destruct (Z.eqb_spec j irq) as [-> |]; [by rewrite Z.eqb_refl |].
      by rewrite (proj2 (Z.eqb_neq (j - 32) (irq - 32))) by lia.
Qed.

(** ** Runs *)

(** The operations: a change of the external line [n], a system exception, an
    acknowledgement and a completion by the processor, and byte writes to the
    enable, disable, set pending, clear pending and priority registers. *)
Inductive gop : Type :=
  | Line (n : Z) (level : bool)
  | Exception (irq : Z)
  | Acknowledge
  | Complete (irq : Z)
  | Enable (k v : Z)
  | Disable (k v : Z)
  | SetPending (k v : Z)
  | ClearPending (k v : Z)
  | Priority (k v : Z).

Definition run_gop (current_cpu : Z) (op : gop) : GicM Z :=
  match op with
  | Line n level => gic_set_irq n (b2z level) ;; mret 0
  | Exception irq => gic_set_pending_private 0 irq ;; mret 0
  | Acknowledge => gic_acknowledge_irq 0
  | Complete irq => gic_complete_irq 0 irq ;; mret 0
  | Enable k v => gic_dist_writeb current_cpu (0x100 + k) v ;; mret 0
  | Disable k v => gic_dist_writeb current_cpu (0x180 + k) v ;; mret 0
  | SetPending k v => gic_dist_writeb current_cpu (0x200 + k) v ;; mret 0
  | ClearPending k v => gic_dist_writeb current_cpu (0x280 + k) v ;; mret 0
  | Priority k v => gic_dist_writeb current_cpu (0x400 + k) v ;; mret 0
  end.

(** A register beyond the last interrupt is ignored. *)
Definition spec_byte (k v : Z) (f : Z → gspec → gspec) (a : gspec) : gspec :=
  if 8 * k + 32 <? g_num a then spec_bits v (8 * k + 32) f a else a.

Definition spec_gop (op : gop) (a : gspec) : Z * gspec :=
  match op with
  | Line n level => (0, spec_set_irq (n + 32) level a)
  | Exception irq => (0, spec_set_pending irq a)
  | Acknowledge => spec_ack a
  | Complete irq => (0, spec_complete irq a)
  | Enable k v => (0, spec_byte k v spec_enable a)
  | Disable k v => (0, spec_byte k v spec_disable a)
  | SetPending k v => (0, spec_byte k v spec_set_pending a)
  | ClearPending k v => (0, spec_byte k v spec_clear_pending a)
  | Priority k v => (0, if k + 32 <? g_num a then spec_set_priority (k + 32) (u8 v) a else a)
  end.

(** The lines and exceptions exist, the offsets are in their registers, and no
    priority of an active interrupt is changed. *)
Definition gop_ok (op : gop) (a : gspec) : Prop :=
  match op with
  | Line n _ => 0 <= n < g_num a - 32
  | Exception irq => 0 <= irq < g_num a
  | Acknowledge => True
  | Complete irq => 0 <= irq
  | Enable k _ | Disable k _ | SetPending k _ | ClearPending k _ => 0 <= k < 0x80
  | Priority k _ => 0 <= k < 0x400 /\ k + 32 ∉ g_stack a
  end.

Lemma performs_ret m s a a' : performs m s a () a' -> performs (m ;; mret 0) s a 0 a'.
Proof.
  intros (s' & t & Hm & Hrep & Hl). exists s', t. split; [| done].
  unfold mbind, M_bind. rewrite Hm. cbn. by rewrite app_nil_r.
Qed.

Lemma performs_report m s a :
  represents s a -> m s = Done () s [Report Message] -> performs m s a () a.
Proof. intros Hrep Hm. by exists s, [Report Message]. Qed.

Ltac zdecide :=
  repeat match goal with
    | |- context [?a <? ?b] =>
        first [rewrite (proj2 (Z.ltb_lt a b)) by lia | rewrite (proj2 (Z.ltb_ge a b)) by lia]
    | |- context [?a <=? ?b] =>
        first [rewrite (proj2 (Z.leb_le a b)) by lia | rewrite (proj2 (Z.leb_gt a b)) by lia]
    end.

(** The byte registers whose bits act on eight interrupts. *)
Lemma byte_write_ok c reg k v f `{!KeepsNum f} (body : Z → Z → GicM unit) s a :
  represents s a ->
  (forall base i s a, 32 <= base -> 0 <= i < 8 -> 0 <= base + i < g_num a -> represents_but s a ->
     exists s', body base i s = Done () s' [] /\ represents_but s' (f (base + i) a)) ->
  gic_dist_writeb c (reg + k) v s =
    (if g_num a <=? 8 * k + 32 then gic_bad_write
     else for_bits v (body (8 * k + 32)) ;; gic_update) s ->
  0 <= k ->
  performs (gic_dist_writeb c (reg + k) v) s a () (spec_byte k v f a).
Proof.
  intros Hrep Hbody Hw Hk. unfold spec_byte. destruct (Z.ltb_spec (8 * k + 32) (g_num a)) as [Hlt | Hge].
  - rewrite (proj2 (Z.leb_gt (g_num a) (8 * k + 32))) in Hw by lia.
    pose proof (n_mult _ (r_conf _ _ (proj1 Hrep))) as Hmult. rewrite (r_num _ _ (proj1 Hrep)) in Hmult.
    pose proof (Z.div_mod (g_num a) 32 ltac:(lia)) as Hdiv.
    destruct (for_bits_ok v (8 * k + 32) f (body (8 * k + 32)) s a) as (s1 & Hs1 & Hrep1).
    + intros i s0 a0 Hi Hirq Hrep0. apply Hbody; [lia | done | done | done].
    + lia.
    + lia.
    + exact (proj1 Hrep).
    + apply (performs_update _ s a () _ _ Hrep1). by rewrite bind_ret, Hw, (bind_Done _ _ _ _ _ Hs1).
  - apply performs_report; [done |]. by rewrite Hw, (proj2 (Z.leb_le _ _) Hge).
Qed.

Section Writes.
  Context (c : Z) (s : GICState) (a : gspec) (Hrep : represents s a).

Lemma writeb_cpu : gic_get_current_cpu c s = 0.
Proof. unfold gic_get_current_cpu. by rewrite (n_cpu _ (r_conf _ _ (proj1 Hrep))). Qed.

Lemma writeb_base : GIC_BASE_IRQ s = 32.
Proof. unfold GIC_BASE_IRQ. by rewrite (n_rev _ (r_conf _ _ (proj1 Hrep))). Qed.

Ltac enter_writeb :=
  unfold gic_dist_writeb; rewrite (bind_Done _ _ s s s eq_refl), writeb_cpu, writeb_base, (r_num _ _ (proj1 Hrep));
  pose proof (rep_num s a (proj1 Hrep)); unfold GIC_NR_SGIS, GIC_MAXIRQ in *; zdecide.

Lemma enable_ok k v :
  0 <= k < 0x80 -> performs (gic_dist_writeb c (0x100 + k) v) s a () (spec_byte k v spec_enable a).
Proof.
  intros Hk. apply (byte_write_ok _ _ _ _ _ (set_enable_bit 0)); [done | intros; by apply enable_bit_ok | | lia].
  enter_writeb. by replace ((0x100 + k - 0x100) * 8 + 32) with (8 * k + 32) by lia.
Qed.

Lemma disable_ok k v :
  0 <= k < 0x80 -> performs (gic_dist_writeb c (0x180 + k) v) s a () (spec_byte k v spec_disable a).
Proof.
  intros Hk. apply (byte_write_ok _ _ _ _ _ (clear_enable_bit 0)); [done | intros; by apply disable_bit_ok | | lia].
  enter_writeb. by replace ((0x180 + k - 0x180) * 8 + 32) with (8 * k + 32) by lia.
Qed.

Lemma set_pending_ok k v :
  0 <= k < 0x80 -> performs (gic_dist_writeb c (0x200 + k) v) s a () (spec_byte k v spec_set_pending a).
Proof.
  intros Hk. apply (byte_write_ok _ _ _ _ _ set_pending_bit); [done | intros; by apply set_pending_bit_ok | | lia].
  enter_writeb. by replace ((0x200 + k - 0x200) * 8 + 32) with (8 * k + 32) by lia.
Qed.

Lemma clear_pending_ok k v :
  0 <= k < 0x80 -> performs (gic_dist_writeb c (0x280 + k) v) s a () (spec_byte k v spec_clear_pending a).
Proof.
  intros Hk. apply (byte_write_ok _ _ _ _ _ (λ base i, GIC_CLEAR_PENDING (base + i) ALL_CPU_MASK));
    [done | intros; by apply clear_pending_bit_ok | | lia].
  enter_writeb. by replace ((0x280 + k - 0x280) * 8 + 32) with (8 * k + 32) by lia.
Qed.

Lemma priority_ok k v :
  0 <= k < 0x400 -> k + 32 ∉ g_stack a ->
  performs (gic_dist_writeb c (0x400 + k) v) s a ()
    (if k + 32 <? g_num a then spec_set_priority (k + 32) (u8 v) a else a).
Proof.
  intros Hk Hnot. destruct (Z.ltb_spec (k + 32) (g_num a)) as [Hlt | Hge].
  - pose proof (rep_priority s a (k + 32) (u8 v) (proj1 Hrep) ltac:(lia) Hnot (u8_range v)) as Hrep1.
    apply (performs_update _ s a () _ _ Hrep1). rewrite bind_ret. enter_writeb.
    replace (0x400 + k - 0x400 + 32) with (k + 32) by lia.
    unfold gic_set_priority, GIC_INTERNAL. zdecide.
    unfold mbind, M_bind, modify. by run_cases.
  - apply performs_report; [done |]. enter_writeb. done.
Qed.

End Writes.

(** Every operation refines its abstract counterpart. *)
Lemma gop_performs c op s a :
  represents s a -> gop_ok op a ->
  performs (run_gop c op) s a (fst (spec_gop op a)) (snd (spec_gop op a)).
Proof.
  intros Hrep Hok. destruct op; cbn [run_gop spec_gop fst snd] in *; try apply performs_ret.
  - by apply set_irq_ok.
  - by apply set_pending_private_ok.
  - by apply acknowledge_ok.
  - by apply complete_ok.
  - by apply enable_ok.
  - by apply disable_ok.
  - by apply set_pending_ok.
  - by apply clear_pending_ok.
  - destruct Hok. by apply priority_ok.
Qed.

Fixpoint run_gops (c : Z) (ops : list gop) : GicM (list Z) :=
  match ops with
  | [] => mret []
  | op :: ops => r ← run_gop c op; rs ← run_gops c ops; mret (r :: rs)
  end.

Fixpoint spec_gops (ops : list gop) (a : gspec) : list Z * gspec :=
  match ops with
  | [] => ([], a)
  | op :: ops =>
      let '(r, a1) := spec_gop op a in
      let '(rs, a2) := spec_gops ops a1 in (r :: rs, a2)
  end.

Fixpoint gops_ok (ops : list gop) (a : gspec) : Prop :=
  match ops with
  | [] => True
  | op :: ops => gop_ok op a /\ gops_ok ops (snd (spec_gop op a))
  end.

Lemma line_after_app l t1 t2 : line_after l (t1 ++ t2) = line_after (line_after l t1) t2.
Proof. unfold line_after. apply foldl_app. Qed.

Lemma gops_perform c ops s a :
  represents s a -> gops_ok ops a ->
  performs (run_gops c ops) s a (fst (spec_gops ops a)) (snd (spec_gops ops a)).
Proof.
  revert s a. induction ops as [|op ops IH]; intros s a Hrep Hok; [by exists s, [] |].
  destruct Hok as [Hop Hok]. destruct (gop_performs c op s a Hrep Hop) as (s1 & t1 & Hrun1 & Hrep1 & Hl1).
  destruct (IH s1 _ Hrep1 Hok) as (s2 & t2 & Hrun2 & Hrep2 & Hl2).
  cbn [run_gops spec_gops] in *. destruct (spec_gop op a) as [r a1]. cbn [fst snd] in *.
  destruct (spec_gops ops a1) as [rs a2]. cbn [fst snd] in *.
  exists s2, (t1 ++ t2). split; [| split; [done |]].
  - apply (bind_Done_trace _ _ _ _ _ _ _ _ _ Hrun1). unfold mbind, M_bind. rewrite Hrun2. cbn. by rewrite app_nil_r.
  - rewrite line_after_app, Hl1. exact Hl2.
Qed.
