(* ===== verification/Nvic.v ===== *)
(** * The NVIC and the SysTick timer ([hw/intc/armv7m_nvic.c])

    The NVIC is the core of [Gic] for one processor, with the system control
    registers and the SysTick timer.  Output line 0 is the interrupt line of
    the processor; timer 0 is the SysTick timer.  The two clock scales are
    global variables that the RCC writes: they are parameters here, as is the
    identification register of the CPU ([midr]).  The vector table base, which
    the C code keeps in the CPU, is a field of the state. *)

From Stdlib Require Import Sorting.Sorted.
From S2P Require Import Prelude Gic Gicspec.
Open Scope Z_scope.

(** ** State *)

Record nvic_state : Type := mkNvic {
  gic : GICState;
  systick_control : Z;
  systick_reload_value : Z;
  systick_tick : Z;
  nvic_num_irq : Z;
  vecbase : Z
}.

#[export] Instance nvic_state_settable : Settable nvic_state := λ s,
  mkNvic (gic s) (systick_control s) (systick_reload_value s) (systick_tick s) (nvic_num_irq s) (vecbase s).

Abbreviation NvicM := (M dev_event nvic_state).

Definition ARMV7M_EXCP_NMI : Z := 2.
Definition ARMV7M_EXCP_HARD : Z := 3.
Definition ARMV7M_EXCP_MEM : Z := 4.
Definition ARMV7M_EXCP_BUS : Z := 5.
Definition ARMV7M_EXCP_USAGE : Z := 6.
Definition ARMV7M_EXCP_SVC : Z := 11.
Definition ARMV7M_EXCP_DEBUG : Z := 12.
Definition ARMV7M_EXCP_PENDSV : Z := 14.
Definition ARMV7M_EXCP_SYSTICK : Z := 15.

Definition nvic_id : list Z := [0x00; 0xb0; 0x1b; 0x00; 0x0d; 0xe0; 0x05; 0xb1].

Definition SYSTICK_ENABLE : Z := 1 << 0.
Definition SYSTICK_TICKINT : Z := 1 << 1.
Definition SYSTICK_CLKSOURCE : Z := 1 << 2.
Definition SYSTICK_COUNTFLAG : Z := 1 << 16.

(** An operation of the GIC core on [s->gic]. *)
Definition on_gic {A} (m : GicM A) : NvicM A := λ s,
  match m (gic s) with
  | Done a g t => Done a (s <| gic := g |>) t
  | Halt f => Halt f
  end.

(** ** Interface to the processor *)

Definition armv7m_nvic_set_pending (irq : Z) : NvicM unit :=
  on_gic (gic_set_pending_private 0 (if 16 <=? irq then irq + 16 else irq)).

Definition armv7m_nvic_acknowledge_irq : NvicM Z :=
  irq ← on_gic (gic_acknowledge_irq 0);
  if irq =? 1023 then halt HwError
  else mret (if 32 <=? irq then irq - 16 else irq).

Definition armv7m_nvic_complete_irq (irq : Z) : NvicM unit :=
  on_gic (gic_complete_irq 0 (if 16 <=? irq then irq + 16 else irq)).

Section Clocks.
  Context (system_clock_scale external_ref_clock_scale midr : Z).

(** ** SysTick *)

Definition systick_scale (s : nvic_state) : Z :=
  if cbool (systick_control s .& SYSTICK_CLKSOURCE) then system_clock_scale else external_ref_clock_scale.

Definition systick_reload (now : Z) (reset : bool) : NvicM unit :=
  s ← get;
  if systick_control s .& SYSTICK_ENABLE =? 0 then mret () else
  when reset (modify (λ s, s <| systick_tick := now |>)) ;;
  modify (λ s, s <| systick_tick := i64 (systick_tick s + u32 (systick_reload_value s + 1) * systick_scale s) |>) ;;
  s ← get;
  emit (TimerMod 0 (systick_tick s)).

Definition systick_timer_tick (now : Z) : NvicM unit :=
  modify (λ s, s <| systick_control := systick_control s .| SYSTICK_COUNTFLAG |>) ;;
  s ← get;
  when (cbool (systick_control s .& SYSTICK_TICKINT)) (armv7m_nvic_set_pending ARMV7M_EXCP_SYSTICK) ;;
  if systick_reload_value s =? 0 then
    modify (λ s, s <| systick_control := systick_control s .& not32 SYSTICK_ENABLE |>)
  else systick_reload now false.

Definition systick_reset : NvicM unit :=
  modify (λ s, s <| systick_control := 0 |> <| systick_reload_value := 0 |> <| systick_tick := 0 |>) ;;
  emit (TimerDel 0).

(** ** The system control registers *)

Definition nvic_bad : NvicM Z := emit (Report Message) ;; mret 0.

(** [b] as the bit [n] of a register. *)
Definition bit_if (b : bool) (n : Z) : Z := if b then 1 << n else 0.

Definition systick_current (now : Z) (s : nvic_state) : NvicM Z :=
  if systick_control s .& SYSTICK_ENABLE =? 0 then mret 0
  else if systick_tick s <=? now then mret 0
  else if systick_scale s =? 0 then halt DivByZero
  else
    let val := u32 (Z.quot (systick_tick s - (now + 1)) (systick_scale s) + 1) in
    mret (if systick_reload_value s <? val then 0 else val).

(** The Interrupt Control State register. *)
Definition nvic_read_icsr (s : nvic_state) : Z :=
  let g := gic s in
  let running := idx (running_irq g) 0 in
  let val := if running =? 1023 then 0 else if 32 <=? running then running - 16 else running in
  let pending irq := cbool (irq_pending (irq_st g irq)) in
  val .| bit_if ((running =? 1023) || (idx2 (last_active g) running 0 =? 1023)) 11
      .| (if idx (current_pending g) 0 =? 1023 then 0 else idx (current_pending g) 0 << 12)
      .| bit_if (existsb pending (zrange 32 (Z.to_nat (nvic_num_irq s - 32)))) 22
      .| bit_if (pending ARMV7M_EXCP_SYSTICK) 26
      .| bit_if (pending ARMV7M_EXCP_PENDSV) 28
      .| bit_if (pending ARMV7M_EXCP_NMI) 31.

(** The System Handler Control and State register. *)
Definition nvic_read_shcsr (s : nvic_state) : Z :=
  let active irq := cbool (irq_active (irq_st (gic s) irq)) in
  let pending irq := cbool (irq_pending (irq_st (gic s) irq)) in
  let enabled irq := cbool (irq_enabled (irq_st (gic s) irq)) in
  bit_if (active ARMV7M_EXCP_MEM) 0 .| bit_if (active ARMV7M_EXCP_BUS) 1 .|
  bit_if (active ARMV7M_EXCP_USAGE) 3 .| bit_if (active ARMV7M_EXCP_SVC) 7 .|
  bit_if (active ARMV7M_EXCP_DEBUG) 8 .| bit_if (active ARMV7M_EXCP_PENDSV) 10 .|
  bit_if (active ARMV7M_EXCP_SYSTICK) 11 .| bit_if (pending ARMV7M_EXCP_USAGE) 12 .|
  bit_if (pending ARMV7M_EXCP_MEM) 13 .| bit_if (pending ARMV7M_EXCP_BUS) 14 .|
  bit_if (pending ARMV7M_EXCP_SVC) 15 .| bit_if (enabled ARMV7M_EXCP_MEM) 16 .|
  bit_if (enabled ARMV7M_EXCP_BUS) 17 .| bit_if (enabled ARMV7M_EXCP_USAGE) 18.

Definition nvic_readl (now offset : Z) : NvicM Z :=
  s ← get;
  if offset =? 4 then mret (u32 (nvic_num_irq s / 32 - 1))
  else if offset =? 0x10 then
    modify (λ s, s <| systick_control := systick_control s .& not32 SYSTICK_COUNTFLAG |>) ;;
    mret (systick_control s)
  else if offset =? 0x14 then mret (systick_reload_value s)
  else if offset =? 0x18 then systick_current now s
  else if offset =? 0x1c then mret 10000
  else if offset =? 0xd00 then mret midr
  else if offset =? 0xd04 then mret (nvic_read_icsr s)
  else if offset =? 0xd08 then mret (vecbase s)
  else if offset =? 0xd0c then mret 0xfa050000
  else if offset =? 0xd10 then mret 0
  else if offset =? 0xd14 then mret 0
  else if offset =? 0xd24 then mret (nvic_read_shcsr s)
  else if offset =? 0xd28 then nvic_bad
  else if (offset =? 0xd2c) || (offset =? 0xd30) || (offset =? 0xd34) || (offset =? 0xd38) || (offset =? 0xd3c)
  then nvic_bad
  else if offset =? 0xd40 then mret 0x00000030
  else if offset =? 0xd44 then mret 0x00000200
  else if offset =? 0xd48 then mret 0x00100000
  else if offset =? 0xd4c then mret 0x00000000
  else if offset =? 0xd50 then mret 0x00000030
  else if offset =? 0xd54 then mret 0x00000000
  else if offset =? 0xd58 then mret 0x00000000
  else if offset =? 0xd5c then mret 0x00000000
  else if offset =? 0xd60 then mret 0x01141110
  else if offset =? 0xd64 then mret 0x02111000
  else if offset =? 0xd68 then mret 0x21112231
  else if offset =? 0xd6c then mret 0x01111110
  else if offset =? 0xd70 then mret 0x01310102
  else nvic_bad.

(** A write to SysTick Control and Status. *)
Definition systick_write_control (now value : Z) : NvicM unit :=
  s ← get;
  let oldval := systick_control s in
  modify (λ s, s <| systick_control := (systick_control s .& 0xfffffff8) .| (value .& 7) |>) ;;
  if cbool ((oldval .^ value) .& SYSTICK_ENABLE) then
    if cbool (value .& SYSTICK_ENABLE) then
      if negb (systick_tick s =? 0) then
        modify (λ s, s <| systick_tick := i64 (systick_tick s + now) |>) ;;
        s ← get;
        emit (TimerMod 0 (systick_tick s))
      else systick_reload now true
    else
      emit (TimerDel 0) ;;
      modify (λ s, s <| systick_tick := Z.max 0 (i64 (systick_tick s - now)) |>)
  else when (cbool ((oldval .^ value) .& SYSTICK_CLKSOURCE)) (systick_reload now true).

(** [s->gic.irq_state[irq].pending = 0] and the update. *)
Definition nvic_clear_pending (irq : Z) : NvicM unit :=
  on_gic (modify (set_irq_st irq (λ x, x <| irq_pending := 0 |>)) ;; gic_update).

Definition nvic_write_icsr (value : Z) : NvicM unit :=
  when (cbool (value .& (1 << 31))) (armv7m_nvic_set_pending ARMV7M_EXCP_NMI) ;;
  (if cbool (value .& (1 << 28)) then armv7m_nvic_set_pending ARMV7M_EXCP_PENDSV
   else when (cbool (value .& (1 << 27))) (nvic_clear_pending ARMV7M_EXCP_PENDSV)) ;;
  (if cbool (value .& (1 << 26)) then armv7m_nvic_set_pending ARMV7M_EXCP_SYSTICK
   else when (cbool (value .& (1 << 25))) (nvic_clear_pending ARMV7M_EXCP_SYSTICK)).

Definition set_exc_enabled (irq value bit : Z) : GicM unit :=
  modify (set_irq_st irq (λ x, x <| irq_enabled := b2z (cbool (value .& (1 << bit))) |>)).

Definition nvic_writel (now offset value : Z) : NvicM unit :=
  s ← get;
  if offset =? 0x10 then systick_write_control now value
  else if offset =? 0x14 then modify (λ s, s <| systick_reload_value := value |>)
  else if offset =? 0x18 then
    systick_reload now true ;;
    modify (λ s, s <| systick_control := systick_control s .& not32 SYSTICK_COUNTFLAG |>)
  else if offset =? 0xd04 then nvic_write_icsr value
  else if offset =? 0xd08 then modify (λ s, s <| vecbase := value .& 0xffffff80 |>)
  else if offset =? 0xd0c then
    when (value >> 16 =? 0x05fa)
      (when (cbool (value .& 2)) (emit (Report Message)) ;;
       when (cbool (value .& 5)) (emit (Report Message)) ;;
       when (cbool (value .& 0x700)) (emit (Report Message)))
  else if (offset =? 0xd10) || (offset =? 0xd14) then emit (Report Message)
  else if offset =? 0xd24 then
    on_gic (set_exc_enabled ARMV7M_EXCP_MEM value 16 ;; set_exc_enabled ARMV7M_EXCP_BUS value 17 ;;
            set_exc_enabled ARMV7M_EXCP_USAGE value 18)
  else if (offset =? 0xd28) || (offset =? 0xd2c) || (offset =? 0xd30) || (offset =? 0xd34) ||
          (offset =? 0xd38) || (offset =? 0xd3c) then emit (Report Message)
  else if offset =? 0xf00 then
    when ((value .& 0x1ff) <? nvic_num_irq s) (on_gic (gic_set_pending_private 0 (value .& 0x1ff)))
  else emit (Report Message).

Definition nvic_sysreg_read (now addr size : Z) : NvicM Z :=
  let offset := u32 addr in
  if (0xd18 <=? offset) && (offset <=? 0xd23) then
    s ← get;
    mret (foldl (λ val i, val .| u32 (idx2 (priority1 (gic s)) (offset - 0xd14 + i) 0 << (i * 8)))
      0 (zrange 0 (Z.to_nat size)))
  else if (0xfe0 <=? offset) && (offset <=? 0xfff) then
    mret (if cbool (offset .& 3) then 0 else idx nvic_id ((offset - 0xfe0) >> 2))
  else if size =? 4 then nvic_readl now offset
  else nvic_bad.

Definition nvic_sysreg_write (now addr value size : Z) : NvicM unit :=
  let offset := u32 addr in
  if (0xd18 <=? offset) && (offset <=? 0xd23) then
    on_gic
      (for_each (zrange 0 (Z.to_nat size)) (λ i, modify (λ g, g <| priority1 :=
         upd2 (priority1 g) (offset - 0xd14 + i) 0 ((value >> (i * 8)) .& 0xff) |>)) ;;
       gic_update)
  else if size =? 4 then nvic_writel now offset (u32 value)
  else emit (Report Message).

(** The container region that [armv7m_nvic_realize] builds: the registers of
    the distributor from 0x100 to 0xcff lie over the system control registers. *)
Definition nvic_read (now addr size : Z) : NvicM Z :=
  if (0x100 <=? addr) && (addr <? 0xd00) then
    on_gic (if size =? 1 then gic_dist_readb 0 addr
            else if size =? 2 then gic_dist_readw 0 addr else gic_dist_readl 0 addr)
  else nvic_sysreg_read now addr size.

Definition nvic_write (now addr value size : Z) : NvicM unit :=
  if (0x100 <=? addr) && (addr <? 0xd00) then
    on_gic (if size =? 1 then gic_dist_writeb 0 addr (u32 value)
            else if size =? 2 then gic_dist_writew 0 addr (u32 value) else gic_dist_writel 0 addr (u32 value))
  else nvic_sysreg_write now addr value size.

End Clocks.

(** ** Creation and reset *)

(** The default of the property [num-irq]. *)
Definition armv7m_nvic_instance_init : NvicM unit := on_gic (modify (λ g, g <| num_irq := 64 |>)).

Definition armv7m_nvic_realize : NvicM (option gic_error) :=
  modify (λ s, s <| gic := gic s <| num_cpu := 1 |> |>) ;;
  modify (λ s, s <| gic := gic s <| revision := 0xffffffff |> |>) ;;
  modify (λ s, s <| nvic_num_irq := num_irq (gic s) |>) ;;
  on_gic arm_gic_common_realize.

Definition armv7m_nvic_reset : NvicM unit :=
  on_gic arm_gic_common_reset ;;
  on_gic (modify (λ g, g <| cpu_enabled := upd (cpu_enabled g) 0 true |>) ;;
          modify (λ g, g <| priority_mask := upd (priority_mask g) 0 0x100 |>) ;;
          modify (λ g, g <| gic_enabled := true |>)) ;;
  systick_reset.

(** ** Reset *)

(** The sizes of the arrays and the variant, which nothing changes. *)
Record nvic_shape (s : GICState) : Prop := {
  h_cpu : num_cpu s = 1;
  h_rev : revision s = REV_NVIC;
  h_irq : 32 <= num_irq s <= GIC_MAXIRQ /\ num_irq s mod 32 = 0;
  h_cpu_on : length (cpu_enabled s) = 8%nat;
  h_mask : length (priority_mask s) = 8%nat;
  h_target : length (irq_target s) = 1020%nat;
  h_prio1 : rows 32 (priority1 s);
  h_prio2 : length (priority2 s) = 988%nat;
  h_last : rows 1020 (last_active s);
  h_pend : length (current_pending s) = 8%nat;
  h_run : length (running_irq s) = 8%nat;
  h_runp : length (running_priority s) = 8%nat;
  h_prio irq : 0 <= irq < num_irq s -> 0 <= GIC_GET_PRIORITY s irq 0 < 0x100
}.

(** The abstract controller after a reset: only the exceptions below 16 are
    enabled, and they are edge triggered; the priorities are kept. *)
Definition spec_reset (n : Z) (prio : Z → Z) : gspec :=
  mkSpec n (λ irq, irq <? 16) (λ _, false) (λ _, false) (λ irq, irq <? 16) prio [].

Definition irq_init : gic_irq_state := mkIrq 255 0 0 0 false true.

Definition reset_irq (i : Z) : GicM unit := GIC_SET_ENABLED i ALL_CPU_MASK ;; GIC_SET_EDGE_TRIGGER i.
Definition reset_target (i : Z) : GicM unit := modify (λ s, s <| irq_target := upd (irq_target s) i 1 |>).

Lemma irq_st_zero s j : irq_state s = replicate 1020 irq_zero -> irq_st s j = irq_zero.
Proof.
  intros Hs. unfold irq_st. rewrite Hs. destruct (replicate 1020 irq_zero !! Z.to_nat j) eqn:Hj; [| done].
  by apply lookup_replicate in Hj as [-> _].
Qed.

Lemma reset_irqs_ok s :
  irq_state s = replicate 1020 irq_zero ->
  exists st, for_each (zrange 0 16) reset_irq s = Done () (s <| irq_state := st |>) [] /\ length st = 1020%nat /\
    forall j, 0 <= j -> irq_st (s <| irq_state := st |>) j = if j <? 16 then irq_init else irq_zero.
Proof.
  intros Hs. pose (J := λ (k : nat) s' (t : list dev_event), t = [] /\
    s' = s <| irq_state := irq_state s' |> /\ length (irq_state s') = 1020%nat /\
    forall j, 0 <= j -> irq_st s' j = if j <? Z.of_nat k then irq_init else irq_zero).
  assert (Hwp : wp (for_each (zrange 0 16) reset_irq) (λ _ s' t, J (length (zrange 0 16)) s' ([] ++ t)) s);
    [apply (wp_for_each _ _ J) | destruct (wp_Done _ _ _ Hwp) as ([] & s' & t & Hrun & Ht & Hs' & Hlen & Hj); cbn in Ht; subst t].
  - split; [done |]. split; [by destruct s |]. rewrite Hs. split; [done |]. intros j Hj.
    rewrite irq_st_zero by done. by rewrite (proj2 (Z.ltb_ge j (Z.of_nat 0))) by lia.
  - intros k i s1 t1 [Hk ->]%zrange_lookup (-> & Hs1 & Hlen & Hj). rewrite Z.add_0_l.
    unfold wp, reset_irq, mbind, M_bind, GIC_SET_ENABLED, GIC_SET_EDGE_TRIGGER, modify.
    assert (Hmax : 0 <= Z.of_nat k < GIC_MAXIRQ) by (unfold GIC_MAXIRQ; lia).
    split; [done |]. split; [rewrite Hs1; by destruct s |]. split; [cbn; by rewrite !length_alter |].
    intros j Hj0. rewrite irq_st_set by (cbn; rewrite ?length_alter; done).
    destruct (Z.eqb_spec j (Z.of_nat k)) as [-> | Hne]; rewrite irq_st_set by (done || lia).
    + rewrite Z.eqb_refl, Hj by lia. by zdecide.
    + rewrite (proj2 (Z.eqb_neq j (Z.of_nat k)) Hne), Hj by lia.
      destruct (Z.ltb_spec j (Z.of_nat k)); by zdecide.
  - rewrite zrange_length in Hj. exists (irq_state s'). rewrite <- Hs'. by split_and!.
Qed.

Lemma reset_targets_ok s :
  length (irq_target s) = 1020%nat ->
  exists tg, for_each (zrange 0 (Z.to_nat GIC_MAXIRQ)) reset_target s = Done () (s <| irq_target := tg |>) [] /\
    forall j, 0 <= j < GIC_MAXIRQ -> idx tg j = 1.
Proof.
  intros Hs. pose (J := λ (k : nat) s' (t : list dev_event), t = [] /\
    s' = s <| irq_target := irq_target s' |> /\ length (irq_target s') = 1020%nat /\
    forall j, 0 <= j < Z.of_nat k -> idx (irq_target s') j = 1).
  assert (Hwp : wp (for_each (zrange 0 (Z.to_nat GIC_MAXIRQ)) reset_target) (λ _ s' t, J (length (zrange 0 (Z.to_nat GIC_MAXIRQ))) s' ([] ++ t)) s);
    [apply (wp_for_each _ _ J) | destruct (wp_Done _ _ _ Hwp) as ([] & s' & t & Hrun & Ht & Hs' & Hlen & Hj); cbn in Ht; subst t].
  - split; [done |]. split; [by destruct s |]. split; [done | lia].
  - intros k i s1 t1 [Hk ->]%zrange_lookup (-> & Hs1 & Hlen & Hj). rewrite Z.add_0_l.
    unfold GIC_MAXIRQ in Hk. unfold wp, reset_target, modify.
    split; [done |]. split; [rewrite Hs1; by destruct s |]. cbn. split; [unfold upd; by rewrite length_insert |].
    intros j Hj0. rewrite idx_upd by lia. destruct (Z.eqb_spec j (Z.of_nat k)); [done | apply Hj; lia].
  - rewrite zrange_length in Hj. exists (irq_target s'). rewrite <- Hs'. split; [done |].
    intros j Hj0. apply Hj. unfold GIC_MAXIRQ in *. lia.
Qed.

Definition cpu_reset (g : GICState) : GICState :=
  g <| priority_mask := upd (priority_mask g) 0 0 |> <| current_pending := upd (current_pending g) 0 1023 |>
    <| running_irq := upd (running_irq g) 0 1023 |> <| running_priority := upd (running_priority g) 0 0x100 |>
    <| cpu_enabled := upd (cpu_enabled g) 0 false |>.

Lemma reset_cpu_ok g : revision g = REV_NVIC -> for_each [0] reset_cpu g = Done () (cpu_reset g) [].
Proof. destruct g. cbn. intros ->. done. Qed.

Lemma common_reset_ok g :
  nvic_shape g ->
  exists st tg, arm_gic_common_reset g =
      Done () (g <| irq_state := st |> <| irq_target := tg |>
                 <| priority_mask := upd (priority_mask g) 0 0 |>
                 <| current_pending := upd (current_pending g) 0 1023 |>
                 <| running_irq := upd (running_irq g) 0 1023 |>
                 <| running_priority := upd (running_priority g) 0 0x100 |>
                 <| cpu_enabled := upd (cpu_enabled g) 0 false |> <| gic_enabled := false |>) [] /\
    length st = 1020%nat /\ (forall j, 0 <= j < GIC_MAXIRQ -> idx tg j = 1) /\
    forall j, 0 <= j -> irq_st (g <| irq_state := st |>) j = if j <? 16 then irq_init else irq_zero.
Proof.
  intros Hsh. unfold arm_gic_common_reset.
  set (g1 := g <| irq_state := replicate (Z.to_nat GIC_MAXIRQ) irq_zero |>).
  rewrite bind_modify. fold g1. rewrite bind_gets.
  change (num_cpu g1) with (num_cpu g). rewrite (h_cpu _ Hsh). change (zrange 0 (Z.to_nat 1)) with [0].
  pose proof (reset_cpu_ok g1 (h_rev _ Hsh)) as Hcpu. set (g2 := cpu_reset g1) in Hcpu.
  rewrite (bind_Done _ _ _ _ _ Hcpu).
  destruct (reset_irqs_ok g2 eq_refl) as (st & Hirqs & Hlen & Hst).
  change (λ i, GIC_SET_ENABLED i ALL_CPU_MASK ;; GIC_SET_EDGE_TRIGGER i) with reset_irq.
  rewrite (bind_Done _ _ _ _ _ Hirqs). change (1 =? 1) with true. cbn iota.
  destruct (reset_targets_ok (g2 <| irq_state := st |>)) as (tg & Htg & Htarget); [exact (h_target _ Hsh) |].
  change (λ i, modify (λ s, s <| irq_target := upd (irq_target s) i 1 |>)) with reset_target.
  rewrite (bind_Done _ _ _ _ _ Htg). exists st, tg. split; [done |]. split; [done |]. split; [done |].
  intros j Hj. exact (Hst j Hj).
Qed.

Definition nvic_on (g : GICState) : GICState :=
  g <| cpu_enabled := upd (cpu_enabled g) 0 true |> <| priority_mask := upd (priority_mask g) 0 0x100 |>
    <| gic_enabled := true |>.

Lemma nvic_reset_run s g :
  arm_gic_common_reset (gic s) = Done () g [] ->
  armv7m_nvic_reset s = Done () (mkNvic (nvic_on g) 0 0 0 (nvic_num_irq s) (vecbase s)) [TimerDel 0].
Proof. intros Hreset. unfold armv7m_nvic_reset, mbind, M_bind, on_gic. by rewrite Hreset. Qed.

(** A reset puts the controller in the abstract reset state, whatever the
    guest did before; the priorities are kept. *)
Lemma nvic_reset_ok s :
  nvic_shape (gic s) ->
  exists s', armv7m_nvic_reset s = Done () s' [TimerDel 0] /\
    represents (gic s') (spec_reset (num_irq (gic s)) (λ irq, GIC_GET_PRIORITY (gic s) irq 0)) /\
    systick_control s' = 0 /\ systick_reload_value s' = 0 /\ systick_tick s' = 0.
Proof.
  intros Hsh. destruct (common_reset_ok (gic s) Hsh) as (st & tg & Hreset & Hlen & Htg & Hst).
  set (g1 := gic s <| irq_state := st |> <| irq_target := tg |> <| priority_mask := _ |> <| current_pending := _ |>
                   <| running_irq := _ |> <| running_priority := _ |> <| cpu_enabled := _ |> <| gic_enabled := _ |>) in Hreset.
  exists (mkNvic (nvic_on g1) 0 0 0 (nvic_num_irq s) (vecbase s)).
  split; [exact (nvic_reset_run s g1 Hreset) |]. set (g2 := nvic_on g1).
  split; [| done]. set (a := spec_reset _ _).
  assert (H0 : forall (l : list Z) v, length l = 8%nat -> idx (upd l 0 v) 0 = v).
  { intros l v Hl. rewrite idx_upd; [done | done | cbn; lia | done]. }
  assert (Hirq : forall irq, 0 <= irq < g_num a ->
    irq_rep (irq_st g2 irq) (g_en a irq) (g_pend a irq) (g_level a irq) (g_edge a irq)).
  { intros irq Hirq. change (irq_st g2 irq) with (irq_st (gic s <| irq_state := st |>) irq). rewrite Hst by lia.
    cbn. destruct (irq <? 16); split; try done; split; auto. }
  destruct Hsh as [? ? [Hn Hmod] ? ? ? ? ? ? ? ? ? Hprio].
  assert (Hwf : spec_wf a) by (split; [done | done | constructor | constructor]).
  assert (Hbest : spec_best a = (0x100, 1023)).
  { destruct (spec_best_ok a ltac:(cbn; lia)) as [[Hb _] | (_ & Hr & _)]; [done |].
    unfold spec_ready in Hr. cbn in Hr. by rewrite andb_false_r in Hr. }
  split; [split; try done | rewrite Hbest; by apply H0].
  - split; try done; try (cbn; unfold upd; by rewrite !length_insert).
    + cbn. unfold flag, upd. by rewrite list_lookup_insert_eq by (rewrite length_insert; lia).
    + cbn. apply H0. unfold upd. by rewrite length_insert.
  - cbn. by apply H0.
  - cbn. by apply H0.
Qed.

(** The device as the board creates it. *)
Definition nvic_zero : nvic_state := mkNvic (gic_zero 1 32 1) 0 0 0 0 0.

Definition nvic_start : NvicM unit :=
  armv7m_nvic_instance_init ;;
  err ← armv7m_nvic_realize;
  match err with None => armv7m_nvic_reset | Some _ => halt HwError end.

Definition nvic_created : nvic_state :=
  Eval vm_compute in
  match (armv7m_nvic_instance_init ;; armv7m_nvic_realize) nvic_zero with Done _ s _ => s | Halt _ => nvic_zero end.

Lemma nvic_created_run :
  (armv7m_nvic_instance_init ;; armv7m_nvic_realize) nvic_zero = Done None nvic_created [].
Proof. vm_compute. reflexivity. Qed.

Lemma created_prio irq : 0 <= irq < 96 -> GIC_GET_PRIORITY (gic nvic_created) irq 0 = 0.
Proof.
  intros Hi. assert (Hall : forallb (λ i, GIC_GET_PRIORITY (gic nvic_created) i 0 =? 0) (zrange 0 96) = true)
    by by vm_compute.
  rewrite forallb_forall in Hall. apply Z.eqb_eq, Hall, list_elem_of_In, elem_of_zrange. lia.
Qed.

Lemma created_shape : nvic_shape (gic nvic_created).
Proof.
  split; try by vm_compute.
  all: try (intros irq Hi; rewrite created_prio; [lia | exact Hi]).
  all: split; [by vm_compute |]; apply (bool_decide_unpack _); by vm_compute.
Qed.
