(* ===== verification/Interrupts.v ===== *)
(** * The NVIC as the processor and the guest see it

    The theorems about the interrupt controller from power-on: it refines the
    abstract controller of [Gicspec] over every sequence of operations, it
    hands out the best interrupt, nested handlers return to what they have
    preempted, the processor sees vector numbers, and the words of the enable
    registers are sets of bits. *)

From Stdlib Require Import Sorting.Sorted.
From S2P Require Import Prelude Gic Gicspec Nvic.
Open Scope Z_scope.

(** ** The state after power-on *)

(** The device as the board creates it, reset. *)
Definition nvic_ready : nvic_state :=
  Eval vm_compute in match nvic_start nvic_zero with Done _ s _ => s | Halt _ => nvic_zero end.

Definition spec_start : gspec := spec_reset 96 (λ _, 0).

Lemma spec_start_line : spec_line spec_start = false.
Proof. vm_compute. reflexivity. Qed.

Lemma nvic_start_run : nvic_start nvic_zero = Done () nvic_ready [TimerDel 0].
Proof. vm_compute. reflexivity. Qed.

Lemma nvic_reset_created : armv7m_nvic_reset nvic_created = Done () nvic_ready [TimerDel 0].
Proof. vm_compute. reflexivity. Qed.

Lemma nvic_ready_ok : represents (gic nvic_ready) spec_start.
Proof.
  destruct (nvic_reset_ok nvic_created created_shape) as (s' & Hreset & Hrep & _).
  rewrite nvic_reset_created in Hreset. injection Hreset as <-.
  revert Hrep. apply represents_proper. split; [done | done | done |].
  intros irq Hi. symmetry. apply created_prio. exact Hi.
Qed.

(** ** The processor's view *)

(** The vector number of an interrupt of the core: the interrupts from 32 on
    follow the exceptions. *)
Definition vector (irq : Z) : Z := if 32 <=? irq then irq - 16 else irq.

(** The represented state, in which the unused interrupts 16 to 31 are off. *)
Definition nvic_ok (s : nvic_state) (a : gspec) : Prop :=
  represents (gic s) a /\ forall irq, 16 <= irq < 32 -> g_en a irq = false.

Lemma vector_inverse irq : 0 <= irq -> ~ 16 <= irq < 32 -> (if 16 <=? vector irq then vector irq + 16 else vector irq) = irq.
Proof. intros H0 Hi. unfold vector. destruct (Z.leb_spec 32 irq); zdecide; lia. Qed.

Lemma on_gic_performs {R} (m : GicM R) s a r a' :
  performs m (gic s) a r a' ->
  exists s' t, on_gic m s = Done r s' t /\ represents (gic s') a' /\ line_after (spec_line a) t = spec_line a' /\
    s' = s <| gic := gic s' |>.
Proof.
  intros (g & t & Hm & Hrep & Hl). exists (s <| gic := g |>), t. unfold on_gic. rewrite Hm. done.
Qed.

(** [m] does to the controller what changes the abstract state from [a] to [a'],
    leaves the line as [a'] asks for, and changes nothing else of the NVIC. *)
Definition nperforms {R} (m : NvicM R) (s : nvic_state) (a : gspec) (r : R) (a' : gspec) : Prop :=
  exists s' t, m s = Done r s' t /\ represents (gic s') a' /\ line_after (spec_line a) t = spec_line a' /\
    s' = s <| gic := gic s' |>.

Lemma ack_performs s a :
  represents (gic s) a -> spec_line a = true ->
  nperforms armv7m_nvic_acknowledge_irq s a (vector (snd (spec_best a))) (snd (spec_ack a)).
Proof.
  intros Hrep Hl. pose proof (r_wf _ _ (proj1 Hrep)) as Hw. pose proof (w_num _ Hw) as Hn. unfold GIC_MAXIRQ in Hn.
  destruct (spec_line_best a Hw Hl) as (Hi & _).
  destruct (on_gic_performs _ s a _ _ (acknowledge_ok (gic s) a Hrep)) as (s1 & t1 & Hack & Hafter).
  exists s1, t1. split; [| done]. unfold armv7m_nvic_acknowledge_irq, mbind, M_bind. rewrite Hack.
  assert (Hfst : fst (spec_ack a) = snd (spec_best a)) by (unfold spec_ack; by rewrite Hl).
  rewrite Hfst, (proj2 (Z.eqb_neq _ 1023)) by lia. unfold mret, M_ret. by rewrite app_nil_r.
Qed.

Lemma complete_performs s a irq :
  represents (gic s) a -> 0 <= irq -> ~ 16 <= irq < 32 ->
  nperforms (armv7m_nvic_complete_irq (vector irq)) s a () (spec_complete irq a).
Proof.
  intros Hrep Hi Hu. unfold armv7m_nvic_complete_irq. rewrite vector_inverse by done.
  by apply on_gic_performs, complete_ok.
Qed.

(** The interrupt to deliver is in use. *)
Lemma best_used s a :
  nvic_ok s a -> spec_line a = true -> 0 <= snd (spec_best a) < g_num a /\ ~ 16 <= snd (spec_best a) < 32.
Proof.
  intros [Hrep Hoff] Hl. destruct (spec_line_best a (r_wf _ _ (proj1 Hrep)) Hl) as (Hi & Hready & _).
  split; [done |]. intros Hu. unfold spec_ready in Hready. by rewrite (Hoff _ Hu) in Hready.
Qed.

Lemma nvic_spurious s a :
  represents (gic s) a -> spec_line a = false -> armv7m_nvic_acknowledge_irq s = Halt HwError.
Proof.
  intros Hrep Hl. destruct (on_gic_performs _ s a _ _ (acknowledge_ok (gic s) a Hrep)) as (s1 & t1 & Hack & _).
  unfold armv7m_nvic_acknowledge_irq, mbind, M_bind. rewrite Hack. unfold spec_ack. by rewrite Hl.
Qed.

(** ** Acknowledging *)

(** [irq] is enabled and pending. *)
Definition ready (s : GICState) (irq : Z) : bool :=
  GIC_TEST_ENABLED s irq 1 && gic_test_pending s irq 1.

Lemma ready_spec s a irq : represents s a -> 0 <= irq < num_irq s -> ready s irq = spec_ready a irq.
Proof.
  intros [Hrep _] Hi. rewrite (r_num _ _ Hrep) in Hi. unfold ready, spec_ready.
  rewrite (rep_enabled s a Hrep irq 1), (rep_pending s a Hrep irq 1); try done; by left.
Qed.

Definition better (s : GICState) (i j : Z) : Prop :=
  GIC_GET_PRIORITY s i 0 < GIC_GET_PRIORITY s j 0 \/ (GIC_GET_PRIORITY s i 0 = GIC_GET_PRIORITY s j 0 /\ i <= j).

(** An acknowledgement gives the ready interrupt with the best priority if it beats the
    running one, and makes it the running one; else it gives 1023 and does nothing. *)
Definition acknowledges (s : GICState) (irq : Z) (s' : GICState) (t : list dev_event) : Prop :=
  (irq <> 1023 -> 0 <= irq < num_irq s /\ ready s irq = true /\
     GIC_GET_PRIORITY s irq 0 < idx (running_priority s) 0 /\
     (forall j, 0 <= j < num_irq s -> ready s j = true -> better s irq j) /\
     idx (running_irq s') 0 = irq /\ idx (running_priority s') 0 = GIC_GET_PRIORITY s irq 0 /\
     preempted s' irq = idx (running_irq s) 0) /\
  (irq = 1023 -> s' = s /\ t = [] /\
     forall j, 0 <= j < num_irq s -> ready s j = true -> idx (running_priority s) 0 <= GIC_GET_PRIORITY s j 0).

Lemma acknowledge_choice s a :
  represents s a -> exists irq s' t, gic_acknowledge_irq 0 s = Done irq s' t /\ acknowledges s irq s' t.
Proof.
  intros Hrep. destruct (id Hrep) as [Hbut _]. pose proof (r_wf _ _ Hbut) as Hw. pose proof (w_num _ Hw) as Hn.
  destruct (acknowledge_ok s a Hrep) as (s' & t & Hack & Hrep' & _). exists (fst (spec_ack a)), s', t.
  split; [done |]. unfold acknowledges, spec_ack in *. rewrite (r_runp _ _ Hbut). destruct (spec_line a) eqn:Hl; cbn [fst snd] in *.
  - destruct (spec_line_best a Hw Hl) as (Hi & Hri & _ & Hlt & Hbest). set (i := snd (spec_best a)) in *.
    split; [intros _ | unfold GIC_MAXIRQ in Hn; lia]. rewrite (r_num _ _ Hbut).
    rewrite (ready_spec s a) by (done || by rewrite (r_num _ _ Hbut)).
    rewrite (r_prio _ _ Hbut i Hi). split_and!; try done; try lia.
    + intros j Hj. rewrite (ready_spec s a) by (done || by rewrite (r_num _ _ Hbut)). intros Hrj.
      unfold better. rewrite (r_prio _ _ Hbut i Hi), (r_prio _ _ Hbut j Hj). by apply Hbest.
    + by rewrite (r_top _ _ (proj1 Hrep')).
    + by rewrite (r_runp _ _ (proj1 Hrep')).
    + rewrite (r_top _ _ Hbut). by destruct (r_links _ _ (proj1 Hrep')) as [? _].
  - split; [done |]. intros _. rewrite (acknowledge_none s a Hrep Hl) in Hack. injection Hack as <- <-. split; [done |]. split; [done |].
    intros j Hj. rewrite (ready_spec s a) by done. intros Hrj. rewrite (r_num _ _ Hbut) in Hj. rewrite (r_prio _ _ Hbut j Hj). by apply spec_line_low.
Qed.

(** ** Nested handlers *)

(** [op] neither completes an interrupt of [l] nor changes its priority. *)
Definition leaves (l : list Z) (op : gop) : Prop :=
  match op with Priority k _ => k + 32 ∉ l | Complete irq => irq ∉ l | _ => True end.

(** The parts of the abstract state that a register change keeps. *)
Definition same_active (a b : gspec) : Prop := g_prio b = g_prio a /\ g_stack b = g_stack a.

Lemma spec_byte_active k v f a :
  (forall irq b, same_active b (f irq b)) -> same_active a (spec_byte k v f a).
Proof.
  intros Hf. unfold spec_byte, spec_bits. destruct (_ <? _); [| done].
  generalize (zrange 0 8). intros l. revert a. induction l as [|i l IH]; intros a; [done |]. cbn.
  destruct (Z.testbit v i); [| apply IH]. destruct (IH (f (8 * k + 32 + i) a)) as [H1 H2].
  destruct (Hf (8 * k + 32 + i) a) as [H3 H4]. split; congruence.
Qed.

Lemma spec_set_irq_active irq level a : same_active a (spec_set_irq irq level a).
Proof. unfold spec_set_irq. destruct (eqb _ _); [done |]. by destruct (level && _). Qed.

Lemma spec_enable_active irq a : same_active a (spec_enable irq a).
Proof. unfold spec_enable. by destruct (_ && _). Qed.

Lemma spec_complete_active irq a :
  g_prio (spec_complete irq a) = g_prio a /\
  (g_stack (spec_complete irq a) = g_stack a \/ g_stack (spec_complete irq a) = filter (λ j, j ≠ irq) (g_stack a)).
Proof.
  unfold spec_complete. destruct (bool_decide _ || _); [auto |]. destruct (negb _ && _ && _); auto.
Qed.

(** An operation that leaves [l] keeps it at the bottom of the stack, with its
    priorities. *)
Lemma spec_gop_leaves l op a :
  leaves l op -> l `suffix_of` g_stack a ->
  l `suffix_of` g_stack (snd (spec_gop op a)) /\ forall i, i ∈ l -> g_prio (snd (spec_gop op a)) i = g_prio a i.
Proof.
  intros Hop Hl. assert (Hsame : forall b, same_active a b -> l `suffix_of` g_stack b /\ forall i, i ∈ l -> g_prio b i = g_prio a i).
  { intros b [-> ->]. done. }
  destruct op as [n level | irq | | irq | k v | k v | k v | k v | k v]; cbn [spec_gop snd].
  - apply Hsame, spec_set_irq_active.
  - by apply Hsame.
  - unfold spec_ack. destruct (spec_line a); [| by apply Hsame]. split; [| done]. cbn. by apply suffix_cons_r.
  - destruct (spec_complete_active irq a) as [-> [-> | ->]]; [done |]. split; [| done].
    destruct Hl as [l' ->]. exists (filter (λ j, j ≠ irq) l'). by rewrite filter_app, (filter_absent irq l).
  - apply Hsame, spec_byte_active, spec_enable_active.
  - by apply Hsame, spec_byte_active.
  - by apply Hsame, spec_byte_active.
  - by apply Hsame, spec_byte_active.
  - destruct (_ <? _); [| by apply Hsame]. split; [done |]. intros i Hi. cbn. apply fupd_ne. intros ->. by apply Hop.
Qed.

Lemma spec_gops_leaves l ops a :
  Forall (leaves l) ops -> l `suffix_of` g_stack a ->
  l `suffix_of` g_stack (snd (spec_gops ops a)) /\ forall i, i ∈ l -> g_prio (snd (spec_gops ops a)) i = g_prio a i.
Proof.
  intros Hops. revert a. induction Hops as [|op ops Hop _ IH]; intros a Hl; [done |].
  destruct (spec_gop_leaves l op a Hop Hl) as [Hl1 Hp1]. cbn [spec_gops].
  destruct (spec_gop op a) as [r a1]. cbn [snd] in *. destruct (IH a1 Hl1) as [Hl2 Hp2].
  destruct (spec_gops ops a1) as [rs a2]. cbn [snd] in *. split; [done |].
  intros i Hi. rewrite Hp2 by done. by apply Hp1.
Qed.

Lemma suffix_top (irq : Z) (l l' : list Z) :
  irq :: l `suffix_of` l' -> NoDup l' -> top l' = irq -> l' = irq :: l.
Proof.
  intros [[|j p] ->] Hnd Htop; [done |]. cbn in Htop. subst j.
  apply NoDup_cons in Hnd as [Hnot _]. destruct Hnot. apply elem_of_app. right. apply list_elem_of_here.
Qed.

Lemma spec_complete_top irq l a :
  spec_wf a -> g_stack a = irq :: l -> g_stack (spec_complete irq a) = l.
Proof.
  intros Hw Hs. pose proof (sorted_nodup _ _ (w_sorted _ Hw)) as Hnd. pose proof (w_range _ Hw) as Hr.
  rewrite Hs in Hnd, Hr. apply NoDup_cons in Hnd as [Hnot _]. apply Forall_cons in Hr as [Hi _].
  unfold spec_complete. rewrite Hs, bool_decide_eq_false_2 by done. cbn [orb]. zdecide.
  assert (Hf : filter (λ j, j ≠ irq) (irq :: l) = l).
  { rewrite filter_cons_False by (intros Hne; by apply Hne). by apply filter_absent. }
  destruct (negb _ && _ && _); exact Hf.
Qed.

(** C14 (nested_return).  While a handler runs, lines may change, exceptions may be
    raised, the enable, disable and pending registers may be written byte by byte, and
    other interrupts may be taken and completed in any order.  The priority bytes of
    interrupts that are neither running nor preempted may be written too; those of
    running and preempted ones may not (the walk of the completion would not end).
    As long as the interrupt and those it has preempted are not completed in the
    meantime and it is itself the running one again at its end, its completion returns
    to the interrupt and the priority that were running before it was taken. *)
Theorem nested_return c s a ops irq s1 t1 rs s2 t2 :
  represents s a ->
  gic_acknowledge_irq 0 s = Done irq s1 t1 -> irq <> 1023 ->
  gops_ok ops (snd (spec_ack a)) -> Forall (leaves (irq :: g_stack a)) ops ->
  run_gops c ops s1 = Done rs s2 t2 -> idx (running_irq s2) 0 = irq ->
  exists s3 t3, gic_complete_irq 0 irq s2 = Done () s3 t3 /\
    idx (running_irq s3) 0 = idx (running_irq s) 0 /\
    idx (running_priority s3) 0 = idx (running_priority s) 0.
Proof.
  intros Hrep Hack Hirq Hok Hops Hrun Htop.
  destruct (acknowledge_ok s a Hrep) as (s1' & t1' & Hack' & Hrep1 & _). rewrite Hack in Hack'.
  injection Hack' as -> <- <-. set (a1 := snd (spec_ack a)) in *.
  destruct (gops_perform c ops s1 a1 Hrep1 Hok) as (s2' & t2' & Hrun' & Hrep2 & _). rewrite Hrun in Hrun'.
  injection Hrun' as -> <- <-. set (a2 := snd (spec_gops ops a1)) in *.
  assert (Hl : spec_line a = true) by (unfold spec_ack in Hirq; by destruct (spec_line a)).
  set (irq := fst (spec_ack a)) in *.
  assert (Hs1 : g_stack a1 = irq :: g_stack a /\ g_prio a1 = g_prio a).
  { subst a1 irq. unfold spec_ack. by rewrite Hl. }
  destruct Hs1 as [Hs1 Hp1]. destruct (spec_gops_leaves (irq :: g_stack a) ops a1 Hops) as [Hsuf Hp2]; [by rewrite Hs1 |].
  fold a2 in Hsuf, Hp2. pose proof (r_wf _ _ (proj1 Hrep2)) as Hw2.
  assert (Hs2 : g_stack a2 = irq :: g_stack a).
  { apply suffix_top; [done | exact (sorted_nodup _ _ (w_sorted _ Hw2)) |]. by rewrite <- (r_top _ _ (proj1 Hrep2)). }
  assert (Hi : 0 <= irq) by (pose proof (w_range _ Hw2) as Hr; rewrite Hs2 in Hr; apply Forall_cons in Hr; lia).
  destruct (complete_ok s2 a2 irq Hrep2 Hi) as (s3 & t3 & Hcomp & Hrep3 & _). exists s3, t3. split; [done |].
  pose proof (spec_complete_top irq (g_stack a) a2 Hw2 Hs2) as Hs3.
  rewrite (r_top _ _ (proj1 Hrep3)), (r_top _ _ (proj1 Hrep)), Hs3. split; [done |].
  rewrite (r_runp _ _ (proj1 Hrep3)), (r_runp _ _ (proj1 Hrep)). unfold spec_running. rewrite Hs3.
  destruct (g_stack a) as [|i l]; [done |]. rewrite (proj1 (spec_complete_active irq a2)), <- Hp1.
  apply Hp2. apply list_elem_of_further, list_elem_of_here.
Qed.

(** ** Runs from power-on *)

#[export] Instance gop_ok_dec op a : Decision (gop_ok op a).
Proof. destruct op; cbn; apply _. Defined.

#[export] Instance gops_ok_dec ops a : Decision (gops_ok ops a).
Proof.
  revert a. induction ops as [|op ops IH]; intros a; [left; exact I |].
  exact (and_dec (gop_ok_dec op a) (IH (snd (spec_gop op a)))).
Defined.

#[export] Instance leaves_dec l op : Decision (leaves l op).
Proof. destruct op; cbn; apply _. Defined.

(** C1 (nvic_refines).  From power-on (creation, realize and reset of the device) the
    controller does what the abstract controller does for every sequence of changes of
    existing lines, exceptions, acknowledgements, completions and writes of bytes of the
    enable, disable, pending and priority registers, as long as no priority is written
    of an interrupt that is running or preempted at that time (after such a write a
    completion may loop for ever): it never stops, it returns the same results, it
    represents the abstract state at the end, and the line to the processor is high
    exactly when the abstract state has an interrupt to deliver. *)
Theorem nvic_refines c ops :
  gops_ok ops spec_start ->
  exists s g t, nvic_start nvic_zero = Done () s [TimerDel 0] /\
    run_gops c ops (gic s) = Done (fst (spec_gops ops spec_start)) g t /\
    represents g (snd (spec_gops ops spec_start)) /\
    line_after false t = spec_line (snd (spec_gops ops spec_start)).
Proof.
  intros Hok. destruct (gops_perform c ops (gic nvic_ready) spec_start nvic_ready_ok Hok) as (g & t & Hrun & Hrep & Hl).
  exists nvic_ready, g, t. rewrite nvic_start_run. split; [done |]. split; [done |]. split; [done |].
  rewrite <- Hl. by rewrite spec_start_line.
Qed.

(** C20 (acknowledge_best).  After the controller has been created, realized and reset and
    after any sequence of changes of existing lines, exceptions, acknowledgements, completions
    and writes of bytes of the enable, disable, pending and priority registers (but of no
    priority of an interrupt that is running or preempted at that time), the processor that
    asks gets the interrupt with the best priority among those that are enabled and
    pending, the lowest number among equals, and only when it beats the running one; it
    is then the running one and remembers what it has preempted.  Otherwise the
    processor gets 1023 and nothing changes. *)
Theorem acknowledge_best c ops :
  gops_ok ops spec_start ->
  exists s0 rs s t irq s' t', nvic_start nvic_zero = Done () s0 [TimerDel 0] /\ run_gops c ops (gic s0) = Done rs s t /\
    gic_acknowledge_irq 0 s = Done irq s' t' /\ acknowledges s irq s' t'.
Proof.
  intros Hok. destruct (gops_perform c ops (gic nvic_ready) spec_start nvic_ready_ok Hok) as (s & t & Hrun & Hrep & _).
  destruct (acknowledge_choice s _ Hrep) as (irq & s' & t' & Hack & Hbest).
  exists nvic_ready, (fst (spec_gops ops spec_start)), s, t, irq, s', t'. rewrite nvic_start_run. done.
Qed.

(** Two interrupts with different priorities; the first is pending. *)
Definition demo_setup : list gop := [Priority 0 0x80; Priority 1 0x40; Enable 0 3; Line 0 true].
Definition demo_handler : list gop := [Line 1 true; Acknowledge; Line 1 false; Complete 33; Line 0 false].

Lemma nvic_refines_witness :
  let ops := demo_setup ++ [Acknowledge] ++ demo_handler in
  fst (spec_gops ops spec_start) = [0; 0; 0; 0; 32; 0; 33; 0; 0; 0] /\
  exists s g t, nvic_start nvic_zero = Done () s [TimerDel 0] /\
    run_gops 0 ops (gic s) = Done (fst (spec_gops ops spec_start)) g t /\
    represents g (snd (spec_gops ops spec_start)) /\
    line_after false t = spec_line (snd (spec_gops ops spec_start)).
Proof.
  intros ops. split; [vm_compute; reflexivity |].
  apply (nvic_refines 0 ops). apply (bool_decide_unpack _). vm_compute. exact I.
Defined.

Definition gic_after (ops : list gop) : GICState :=
  match run_gops 0 ops (gic nvic_ready) with Done _ g _ => g | Halt _ => gic nvic_ready end.

Lemma gic_after_ok ops :
  gops_ok ops spec_start -> represents (gic_after ops) (snd (spec_gops ops spec_start)).
Proof.
  intros Hok. destruct (gops_perform 0 ops _ spec_start nvic_ready_ok Hok) as (g & t & Hrun & Hrep & _).
  unfold gic_after. by rewrite Hrun.
Qed.

Ltac by_decide := apply (bool_decide_unpack _); vm_compute; exact I.

Definition demo_pending : GICState := Eval vm_compute in gic_after demo_setup.
Definition demo_taken : GICState :=
  Eval vm_compute in match gic_acknowledge_irq 0 demo_pending with Done _ g _ => g | Halt _ => demo_pending end.
Definition demo_back : GICState :=
  Eval vm_compute in match run_gops 0 demo_handler demo_taken with Done _ g _ => g | Halt _ => demo_taken end.

Definition demo_events : list dev_event :=
  Eval vm_compute in match run_gops 0 demo_handler demo_taken with Done _ _ t => t | Halt _ => [] end.

Lemma demo_pending_ok : represents demo_pending (snd (spec_gops demo_setup spec_start)).
Proof.
  change demo_pending with (id demo_pending). assert (Hd : id demo_pending = gic_after demo_setup) by (vm_compute; reflexivity).
  rewrite Hd. apply gic_after_ok. by_decide.
Qed.

Lemma demo_nvic_ok : nvic_ok (nvic_ready <| gic := demo_pending |>) (snd (spec_gops demo_setup spec_start)).
Proof.
  split; [exact demo_pending_ok |]. intros irq Hi.
  assert (Hall : Forall (λ i, g_en (snd (spec_gops demo_setup spec_start)) i = false) (zrange 16 16)) by by_decide.
  rewrite Forall_forall in Hall. apply Hall, elem_of_zrange. lia.
Qed.

Lemma nested_return_witness :
  exists s3 t3, gic_complete_irq 0 32 demo_back = Done () s3 t3 /\
    idx (running_irq s3) 0 = idx (running_irq demo_pending) 0 /\
    idx (running_priority s3) 0 = idx (running_priority demo_pending) 0.
Proof.
  apply (nested_return 0 demo_pending (snd (spec_gops demo_setup spec_start)) demo_handler 32 demo_taken
    [SetIrq 0 0] [0; 33; 0; 0; 0] demo_back demo_events).
  - exact demo_pending_ok.
  - vm_compute. reflexivity.
  - discriminate.
  - by_decide.
  - by_decide.
  - vm_compute. reflexivity.
  - vm_compute. reflexivity.
Defined.

Lemma acknowledge_best_witness :
  exists s0 rs s t irq s' t', nvic_start nvic_zero = Done () s0 [TimerDel 0] /\ run_gops 0 (demo_setup ++ [Line 1 true]) (gic s0) = Done rs s t /\
    gic_acknowledge_irq 0 s = Done irq s' t' /\ acknowledges s irq s' t'.
Proof. apply (acknowledge_best 0 (demo_setup ++ [Line 1 true])). by_decide. Defined.

(** ** Vector numbers *)

(** The processor that takes an interrupt gets its vector number
    (the number of the line plus 16 for an external interrupt) and names that
    number at the end of the handler, which completes the same interrupt; when
    nothing is to be delivered the emulator stops with an error. *)
Theorem nvic_vector s a :
  nvic_ok s a ->
  if spec_line a then
    let irq := snd (spec_best a) in
    exists s1 s2 t1 t2,
      armv7m_nvic_acknowledge_irq s = Done (vector irq) s1 t1 /\ represents (gic s1) (snd (spec_ack a)) /\
      armv7m_nvic_complete_irq (vector irq) s1 = Done () s2 t2 /\
      represents (gic s2) (spec_complete irq (snd (spec_ack a)))
  else armv7m_nvic_acknowledge_irq s = Halt HwError.
Proof.
  intros Hs. destruct (spec_line a) eqn:Hl; [| by apply (nvic_spurious s a); [apply Hs |]].
  destruct (best_used s a Hs Hl) as [Hi Hu].
  destruct (ack_performs s a (proj1 Hs) Hl) as (s1 & t1 & Hack & Hrep1 & _).
  destruct (complete_performs s1 _ _ Hrep1 (proj1 Hi) Hu) as (s2 & t2 & Hcomp & Hrep2 & _).
  by exists s1, s2, t1, t2.
Qed.

Lemma nvic_vector_witness :
  let a := snd (spec_gops demo_setup spec_start) in
  let s := nvic_ready <| gic := demo_pending |> in
  exists s1 s2 t1 t2,
    armv7m_nvic_acknowledge_irq s = Done 16 s1 t1 /\ represents (gic s1) (snd (spec_ack a)) /\
    armv7m_nvic_complete_irq 16 s1 = Done () s2 t2 /\
    represents (gic s2) (spec_complete 32 (snd (spec_ack a))).
Proof.
  intros a s. assert (Hb : spec_best a = (0x80, 32)) by (vm_compute; reflexivity).
  assert (Hl : spec_line a = true) by (vm_compute; reflexivity).
  pose proof (nvic_vector s a demo_nvic_ok) as H. rewrite Hl, Hb in H. exact H.
Defined.

(** ** Word accesses to the bit registers *)

(** [f] sets the flag [proj] of one interrupt to [b] and keeps the others. *)
Class SetsFlag (proj : gspec → Z → bool) (b : bool) (f : Z → gspec → gspec) : Prop :=
  sets_flag irq a j : proj (f irq a) j = if j =? irq then b else proj a j.

#[export] Instance sets_enable : SetsFlag g_en true spec_enable.
Proof. intros irq a j. unfold spec_enable. by destruct (_ && _). Qed.
#[export] Instance sets_disable : SetsFlag g_en false spec_disable.
Proof. done. Qed.

Lemma spec_bits_flag proj b f `{!SetsFlag proj b f} v base a irq :
  proj (spec_bits v base f a) irq =
  if (base <=? irq) && (irq <? base + 8) && Z.testbit v (irq - base) then b else proj a irq.
Proof.
  unfold spec_bits. change (base + 8) with (base + Z.of_nat 8). generalize 8%nat. intros m. induction m as [|k IH].
  - cbn. rewrite Z.add_0_r. destruct (Z.leb_spec base irq), (Z.ltb_spec irq base); done || lia.
  - rewrite zrange_S, foldl_app. cbn [foldl]. rewrite Z.add_0_l. set (a' := foldl _ _ _) in *.
    assert (Hstep : proj (if Z.testbit v (Z.of_nat k) then f (base + Z.of_nat k) a' else a') irq =
      if (irq =? base + Z.of_nat k) && Z.testbit v (Z.of_nat k) then b else proj a' irq).
    { destruct (Z.testbit v (Z.of_nat k)); [rewrite sets_flag, andb_true_r | rewrite andb_false_r]; done. }
    rewrite Hstep, IH, Nat2Z.inj_succ. destruct (Z.eqb_spec irq (base + Z.of_nat k)) as [-> | Hne].
    + replace (base + Z.of_nat k - base) with (Z.of_nat k) by lia. zdecide. cbn [andb]. by destruct (Z.testbit _ _).
    + destruct (Z.leb_spec base irq), (Z.ltb_spec irq (base + Z.of_nat k)); cbn [andb]; zdecide; done.
Qed.

(** The bytes of a word that [gic_dist_writel] writes. *)
Definition word_byte (v j : Z) : Z :=
  if j =? 0 then (v .& 0xffff) .& 0xff
  else if j =? 1 then (v .& 0xffff) >> 8
  else if j =? 2 then (v >> 16) .& 0xff
  else (v >> 16) >> 8.

Lemma word_byte_bit v j i :
  0 <= j < 4 -> 0 <= i < 8 -> Z.testbit (word_byte v j) i = Z.testbit v (8 * j + i).
Proof.
  intros Hj Hi. assert (j = 0 \/ j = 1 \/ j = 2 \/ j = 3) as [-> | [-> | [-> | ->]]] by lia; unfold word_byte; cbn [Z.eqb Pos.eqb].
  all: change 0xffff with (Z.ones 16); change 0xff with (Z.ones 8).
  all: rewrite ?Z.land_spec, ?Z.shiftr_spec, ?Z.land_spec, ?testbit_ones, ?Z.shiftr_spec by lia.
  all: zdecide; rewrite ?andb_true_r; f_equal; lia.
Qed.

Definition spec_word (n v : Z) (f : Z → gspec → gspec) (a : gspec) : gspec :=
  foldl (λ a j, spec_byte (4 * n + j) (word_byte v j) f a) a (zrange 0 4).

Lemma spec_byte_num k v f `{!KeepsNum f} a : g_num (spec_byte k v f a) = g_num a.
Proof.
  unfold spec_byte, spec_bits. destruct (_ <? _); [| done]. generalize (zrange 0 8). intros l. revert a.
  induction l as [|i l IH]; intros a; [done |]. cbn. rewrite IH. by destruct (Z.testbit v i); [rewrite keeps_num |].
Qed.

Lemma spec_word_flag proj b f `{!SetsFlag proj b f, !KeepsNum f} n v a irq :
  0 <= n -> 32 * n + 64 <= g_num a ->
  proj (spec_word n v f a) irq =
  if (32 * n + 32 <=? irq) && (irq <? 32 * n + 64) && Z.testbit v (irq - (32 * n + 32)) then b else proj a irq.
Proof.
  intros Hn Hnum. unfold spec_word. change (zrange 0 4) with [0; 1; 2; 3]. cbn [foldl].
  assert (Hbyte : forall j a', 0 <= j < 4 -> g_num a' = g_num a ->
    proj (spec_byte (4 * n + j) (word_byte v j) f a') irq =
    if (32 * n + 32 + 8 * j <=? irq) && (irq <? 32 * n + 40 + 8 * j) && Z.testbit v (irq - (32 * n + 32))
    then b else proj a' irq).
  { intros j a' Hj Ha. unfold spec_byte. rewrite Ha. zdecide. rewrite (spec_bits_flag proj b f).
    replace (8 * (4 * n + j) + 32) with (32 * n + 32 + 8 * j) by lia.
    replace (32 * n + 32 + 8 * j + 8) with (32 * n + 40 + 8 * j) by lia.
    destruct (Z.leb_spec (32 * n + 32 + 8 * j) irq), (Z.ltb_spec irq (32 * n + 40 + 8 * j)); cbn [andb]; try done.
    rewrite word_byte_bit by lia. by replace (8 * j + (irq - (32 * n + 32 + 8 * j))) with (irq - (32 * n + 32)) by lia. }
  rewrite !Hbyte by (rewrite ?spec_byte_num; done || lia).
  destruct (Z.testbit v (irq - (32 * n + 32))); [rewrite !andb_true_r | by rewrite !andb_false_r].
  destruct (Z.lt_ge_cases irq (32 * n + 32)); [zdecide; done |].
  destruct (Z.lt_ge_cases irq (32 * n + 40)); [zdecide; done |].
  destruct (Z.lt_ge_cases irq (32 * n + 48)); [zdecide; done |].
  destruct (Z.lt_ge_cases irq (32 * n + 56)); [zdecide; done |].
  destruct (Z.lt_ge_cases irq (32 * n + 64)); zdecide; done.
Qed.

(** A word write to a bit register is the four byte writes. *)
Lemma word_write_ok c reg n v f `{!KeepsNum f} s a :
  (forall k v s a, 0 <= k < 0x80 -> represents s a ->
     performs (gic_dist_writeb c (reg + k) v) s a () (spec_byte k v f a)) ->
  reg + 4 * n < 0xf00 -> 0 <= n < 0x20 -> represents s a ->
  performs (gic_dist_writel c (reg + 4 * n) v) s a () (spec_word n v f a).
Proof.
  intros Hbyte Hreg Hn Hrep.
  destruct (Hbyte (4 * n + 0) (word_byte v 0) s a) as (s1 & t1 & H1 & Hr1 & L1); [lia | done |].
  destruct (Hbyte (4 * n + 1) (word_byte v 1) s1 _ ltac:(lia) Hr1) as (s2 & t2 & H2 & Hr2 & L2).
  destruct (Hbyte (4 * n + 2) (word_byte v 2) s2 _ ltac:(lia) Hr2) as (s3 & t3 & H3 & Hr3 & L3).
  destruct (Hbyte (4 * n + 3) (word_byte v 3) s3 _ ltac:(lia) Hr3) as (s4 & t4 & H4 & Hr4 & L4).
  exists s4, ((t1 ++ t2) ++ (t3 ++ t4)). split; [| split; [done |]].
  - unfold gic_dist_writel. rewrite (proj2 (Z.eqb_neq _ 0xf00)) by lia.
    apply (bind_Done_trace _ _ s () s2 _ () s4); unfold gic_dist_writew.
    + apply (bind_Done_trace _ _ s () s1 _ () s2); [by rewrite Z.add_0_r in H1 |].
      by replace (reg + 4 * n + 1) with (reg + (4 * n + 1)) by lia.
    + apply (bind_Done_trace _ _ s2 () s3 _ () s4); [by replace (reg + 4 * n + 2) with (reg + (4 * n + 2)) by lia |].
      by replace (reg + 4 * n + 2 + 1) with (reg + (4 * n + 3)) by lia.
  - by rewrite !line_after_app, L1, L2, L3, L4.
Qed.

Lemma collect_bit (n : nat) (p : Z → bool) i :
  0 <= i -> Z.testbit (collect n (λ i, if p i then 1 << i else 0)) i = (i <? Z.of_nat n) && p i.
Proof.
  intros Hi. unfold collect. induction n as [|n IH]; [cbn; rewrite Z.bits_0; by zdecide |].
  rewrite zrange_S, foldl_app. cbn [foldl]. rewrite Z.add_0_l, Z.lor_spec, IH, Nat2Z.inj_succ.
  assert (Hb : Z.testbit (if p (Z.of_nat n) then 1 << Z.of_nat n else 0) i = (i =? Z.of_nat n) && p (Z.of_nat n)).
  { destruct (p (Z.of_nat n)); [| by rewrite Z.bits_0, andb_false_r].
    change (1 << Z.of_nat n) with (BIT (Z.of_nat n)). rewrite testbit_BIT by lia. by rewrite Z.eqb_sym, andb_true_r. }
  rewrite Hb. destruct (Z.eqb_spec i (Z.of_nat n)) as [-> |]; zdecide; [done |].
  destruct (Z.ltb_spec i (Z.of_nat n)); zdecide; by rewrite orb_false_r.
Qed.

(** A byte of the enable registers. *)
Lemma read_enable_byte c s a k :
  represents s a -> 0 <= k < 0x80 -> 8 * k + 40 <= g_num a ->
  exists r, gic_dist_readb c (0x100 + k) s = Done r s [] /\
    forall i, 0 <= i -> Z.testbit r i = (i <? 8) && g_en a (8 * k + 32 + i).
Proof.
  intros Hrep Hk Hn. unfold gic_dist_readb. rewrite bind_get.
  rewrite (writeb_cpu c s a Hrep), (writeb_base s a Hrep), (r_num _ _ (proj1 Hrep)). zdecide.
  eexists. split; [reflexivity |]. intros i Hi. rewrite collect_bit by done.
  change (Z.of_nat 8) with 8. destruct (Z.ltb_spec i 8); [| done].
  replace ((0x100 + k - 0x100) * 8 + 32 + i) with (8 * k + 32 + i) by lia.
  cbn [andb]. apply (rep_enabled s a (proj1 Hrep)); [lia | by left].
Qed.

Lemma read_enable_word c s a n :
  represents s a -> 0 <= n < 0x20 -> 32 * n + 64 <= g_num a ->
  exists r, gic_dist_readl c (0x100 + 4 * n) s = Done r s [] /\
    forall i, 0 <= i < 32 -> Z.testbit r i = g_en a (32 * n + 32 + i).
Proof.
  intros Hrep Hn Hnum.
  destruct (read_enable_byte c s a (4 * n + 0) Hrep ltac:(lia) ltac:(lia)) as (r0 & H0 & B0).
  destruct (read_enable_byte c s a (4 * n + 1) Hrep ltac:(lia) ltac:(lia)) as (r1 & H1 & B1).
  destruct (read_enable_byte c s a (4 * n + 2) Hrep ltac:(lia) ltac:(lia)) as (r2 & H2 & B2).
  destruct (read_enable_byte c s a (4 * n + 3) Hrep ltac:(lia) ltac:(lia)) as (r3 & H3 & B3).
  exists ((r0 .| (r1 << 8)) .| u32 ((r2 .| (r3 << 8)) << 16)). split.
  - unfold gic_dist_readl, gic_dist_readw.
    replace (0x100 + 4 * n + 1) with (0x100 + (4 * n + 1)) by lia.
    replace (0x100 + 4 * n + 2 + 1) with (0x100 + (4 * n + 3)) by lia.
    replace (0x100 + 4 * n + 2) with (0x100 + (4 * n + 2)) by lia.
    rewrite Z.add_0_r in H0. unfold mbind, M_bind. rewrite H0; cbn iota beta. rewrite H1; cbn iota beta.
    cbn [mret M_ret app]. rewrite H2; cbn iota beta. rewrite H3. done.
  - intros i Hi. unfold u32. rewrite !Z.lor_spec, testbit_mod_pow2, !testbit_shiftl by lia.
    destruct (Z.lt_ge_cases i 8); [| destruct (Z.lt_ge_cases i 16); [| destruct (Z.lt_ge_cases i 24)]].
    all: zdecide; rewrite ?Z.lor_spec, ?testbit_shiftl by lia; rewrite ?B0, ?B1, ?B2, ?B3 by lia.
    all: zdecide; cbn [andb orb]; rewrite ?orb_false_r; f_equal; lia.
Qed.

Section EnableRegisters.
  Context (sys ext midr : Z).

(** A word access of the guest to the part of the region that belongs to the
    distributor. *)
Lemma nvic_write_dist now addr v s :
  0x100 <= addr < 0xd00 -> 0 <= v < 2 ^ 32 ->
  nvic_write sys ext now addr v 4 s = on_gic (gic_dist_writel 0 addr v) s.
Proof. intros Ha Hv. unfold nvic_write. rewrite between_true by done. cbn. by rewrite u32_small. Qed.

Lemma nvic_read_dist now addr s :
  0x100 <= addr < 0xd00 -> nvic_read sys ext midr now addr 4 s = on_gic (gic_dist_readl 0 addr) s.
Proof. intros Ha. unfold nvic_read. by rewrite between_true by done. Qed.

Lemma write_flag_word now reg n v b f `{!SetsFlag g_en b f, !KeepsNum f} s a :
  (forall k v s a, 0 <= k < 0x80 -> represents s a ->
     performs (gic_dist_writeb 0 (reg + k) v) s a () (spec_byte k v f a)) ->
  0x100 <= reg < 0x200 -> represents (gic s) a -> 0 <= n -> 32 * n + 64 <= g_num a -> 0 <= v < 2 ^ 32 ->
  exists s' t a', nvic_write sys ext now (reg + 4 * n) v 4 s = Done () s' t /\ represents (gic s') a' /\ g_num a' = g_num a /\
    forall irq, g_en a' irq =
      if (32 * n + 32 <=? irq) && (irq <? 32 * n + 64) && Z.testbit v (irq - (32 * n + 32)) then b else g_en a irq.
Proof.
  intros Hbyte Hreg Hrep Hn Hnum Hv. pose proof (rep_num _ _ (proj1 Hrep)) as Hmax. unfold GIC_MAXIRQ in Hmax.
  destruct (on_gic_performs _ s a () _ (word_write_ok 0 reg n v f (gic s) a Hbyte ltac:(lia) ltac:(lia) Hrep))
    as (s' & t & Hw & Hrep' & _ & _).
  exists s', t, (spec_word n v f a). rewrite nvic_write_dist by lia. split; [done |]. split; [done |].
  split; [unfold spec_word; change (zrange 0 4) with [0; 1; 2; 3]; cbn [foldl]; by rewrite !spec_byte_num |].
  intros irq. by apply spec_word_flag.
Qed.

(** The addresses of the words of the two registers. *)
Definition ISER (n : Z) : Z := 0x100 + 4 * n.
Definition ICER (n : Z) : Z := 0x180 + 4 * n.

(** For each of the words of ISER and ICER: after the guest has
    set the bits [v] in ISER and cleared the bits [w] in ICER, ISER reads the
    bits that were set before or are in [v], without those in [w]. *)
Theorem enable_registers now s a n v w :
  represents (gic s) a -> 0 <= n -> 32 * n + 64 <= num_irq (gic s) -> 0 <= v < 2 ^ 32 -> 0 <= w < 2 ^ 32 ->
  exists r0 r1 s1 t1 s2 t2,
    nvic_read sys ext midr now (ISER n) 4 s = Done r0 s [] /\
    nvic_write sys ext now (ISER n) v 4 s = Done () s1 t1 /\
    nvic_write sys ext now (ICER n) w 4 s1 = Done () s2 t2 /\
    nvic_read sys ext midr now (ISER n) 4 s2 = Done r1 s2 [] /\
    forall i, 0 <= i < 32 -> Z.testbit r1 i = (Z.testbit r0 i || Z.testbit v i) && negb (Z.testbit w i).
Proof.
  unfold ISER, ICER.
  intros Hrep Hn Hnum Hv Hw. rewrite (r_num _ _ (proj1 Hrep)) in Hnum.
  pose proof (rep_num _ _ (proj1 Hrep)) as Hmax. unfold GIC_MAXIRQ in Hmax.
  destruct (read_enable_word 0 (gic s) a n Hrep ltac:(lia) Hnum) as (r0 & Hr0 & B0).
  destruct (write_flag_word now 0x100 n v true spec_enable s a) as (s1 & t1 & a1 & Hw1 & Hrep1 & Hn1 & E1);
    [intros; by apply enable_ok | lia | done | done | done | done |].
  destruct (write_flag_word now 0x180 n w false spec_disable s1 a1) as (s2 & t2 & a2 & Hw2 & Hrep2 & Hn2 & E2);
    [intros; by apply disable_ok | lia | done | done | by rewrite Hn1 | done |].
  destruct (read_enable_word 0 (gic s2) a2 n Hrep2 ltac:(lia) ltac:(lia)) as (r1 & Hr1 & B1).
  exists r0, r1, s1, t1, s2, t2. rewrite !nvic_read_dist by lia. unfold on_gic. rewrite Hr0, Hr1.
  split; [by destruct s |]. split; [done |]. split; [done |]. split; [by destruct s2 |].
  intros i Hi. rewrite B1, B0, E2, E1 by lia. zdecide. cbn [andb].
  replace (32 * n + 32 + i - (32 * n + 32)) with i by lia.
  by destruct (Z.testbit v i), (Z.testbit w i), (g_en a (32 * n + 32 + i)).
Qed.

End EnableRegisters.

Lemma enable_registers_witness :
  exists r0 r1 s1 t1 s2 t2,
    nvic_read 0 0 0 0 0x104 4 nvic_ready = Done r0 nvic_ready [] /\
    nvic_write 0 0 0 0x104 0x80000003 4 nvic_ready = Done () s1 t1 /\
    nvic_write 0 0 0 0x184 0x1 4 s1 = Done () s2 t2 /\
    nvic_read 0 0 0 0 0x104 4 s2 = Done r1 s2 [] /\
    forall i, 0 <= i < 32 -> Z.testbit r1 i = (Z.testbit r0 i || Z.testbit 0x80000003 i) && negb (Z.testbit 0x1 i).
Proof.
  apply (enable_registers 0 0 0 0 nvic_ready spec_start 1 0x80000003 0x1); [exact nvic_ready_ok | lia | | lia | lia].
  vm_compute. discriminate.
Defined.
