(* ===== verification/Systick.v ===== *)
(** * The SysTick timer

    The timer of [hw/intc/armv7m_nvic.c]: the deadlines it programs lie on a
    grid that late callbacks do not shift, each expiry makes exception 15
    pending when the guest has asked for it, and the current value register
    counts down between the deadlines. *)

From S2P Require Import Prelude Gic Gicspec Nvic Interrupts.
Open Scope Z_scope.

(** ** The controller does not touch the timer *)

Definition deadline (e : dev_event) : option Z := match e with TimerMod 0 d => Some d | _ => None end.
Definition deadlines (t : list dev_event) : list Z := omap deadline t.

(** [m] programs no deadline. *)
Definition quiet {S A} (m : M dev_event S A) : Prop :=
  forall s a s' t, m s = Done a s' t -> deadlines t = [].

Lemma deadlines_app t1 t2 : deadlines (t1 ++ t2) = deadlines t1 ++ deadlines t2.
Proof. apply omap_app. Qed.

Lemma quiet_bind {S A B} (m : M dev_event S A) (k : A → M dev_event S B) :
  quiet m -> (forall a, quiet (k a)) -> quiet (m ≫= k).
Proof.
  intros Hm Hk s b s' t. unfold mbind, M_bind. destruct (m s) as [a s1 t1 |] eqn:H1; [| done].
  destruct (k a s1) as [b' s2 t2 |] eqn:H2; [| done]. intros [= _ _ <-].
  by rewrite deadlines_app, (Hm _ _ _ _ H1), (Hk _ _ _ _ _ H2).
Qed.

Lemma quiet_ret {S A} (a : A) : quiet (mret a : M dev_event S A).
Proof. by intros s b s' t [= _ _ <-]. Qed.
Lemma quiet_get {S} : quiet (get : M dev_event S S).
Proof. by intros s b s' t [= _ _ <-]. Qed.
Lemma quiet_gets {S A} (f : S → A) : quiet (gets f).
Proof. by intros s b s' t [= _ _ <-]. Qed.
Lemma quiet_modify {S} (f : S → S) : quiet (modify f).
Proof. by intros s b s' t [= _ _ <-]. Qed.
Lemma quiet_halt {S A} f : quiet (halt f : M dev_event S A).
Proof. by intros s b s' t H. Qed.
Lemma quiet_emit {S} e : deadline e = None -> quiet (emit e : M dev_event S unit).
Proof. intros He s b s' t [= _ _ <-]. cbn. by rewrite He. Qed.
Lemma quiet_when {S} (b : bool) (m : M dev_event S unit) : quiet m -> quiet (when b m).
Proof. intros Hm. destruct b; [done | apply quiet_ret]. Qed.
Lemma quiet_assert {S} (b : bool) : quiet (assert_ b : M dev_event S unit).
Proof. destruct b; [apply quiet_ret | apply quiet_halt]. Qed.
Lemma quiet_for_each {S A} (l : list A) (body : A → M dev_event S unit) :
  (forall x, quiet (body x)) -> quiet (for_each l body).
Proof. intros Hb. induction l as [|x l IH]; [apply quiet_ret | cbn; by apply quiet_bind]. Qed.

Create HintDb quiet.
#[export] Hint Resolve quiet_ret quiet_get quiet_gets quiet_modify quiet_halt quiet_when quiet_assert quiet_for_each : quiet.
#[export] Hint Extern 1 (quiet (emit _)) => (apply quiet_emit; reflexivity) : quiet.

#[export] Hint Extern 2 (quiet _) => (apply quiet_modify) : quiet.
#[export] Hint Extern 2 (quiet gic_bad_write) => (apply quiet_emit; reflexivity) : quiet.

Ltac quiet_step :=
  match goal with
  | |- quiet (_ ≫= _) => apply quiet_bind; [| intros ?]
  | |- quiet (if ?b then _ else _) => destruct b
  | |- quiet (let '(_, _) := ?p in _) => destruct p
  | |- quiet (match ?p with pair _ _ => _ end) => destruct p
  | |- quiet (when _ _) => apply quiet_when
  | |- quiet (for_each _ _) => apply quiet_for_each; intros ?
  | |- _ => solve [auto with quiet]
  end.
Ltac quiet_tac := cbv zeta; repeat quiet_step.

Lemma quiet_update_cpus l : quiet (update_cpus l).
Proof. induction l as [|cpu l IH]; cbn [update_cpus]; quiet_tac. Qed.
Lemma quiet_update : quiet gic_update.
Proof. unfold gic_update. quiet_tac. apply quiet_update_cpus. Qed.
#[export] Hint Resolve quiet_update : quiet.

Lemma quiet_walk fuel cpu irq : forall tmp, quiet (complete_walk fuel cpu irq tmp).
Proof. induction fuel as [|fuel IH]; intros tmp; cbn [complete_walk]; quiet_tac. Qed.
Lemma quiet_running cpu irq : quiet (gic_set_running_irq cpu irq).
Proof. unfold gic_set_running_irq. quiet_tac. Qed.
#[export] Hint Resolve quiet_walk quiet_running : quiet.

Lemma quiet_set_irq irq level : quiet (gic_set_irq irq level).
Proof. unfold gic_set_irq, gic_set_irq_11mpcore, gic_set_irq_generic. quiet_tac. Qed.
Lemma quiet_pend cpu irq : quiet (gic_set_pending_private cpu irq).
Proof. unfold gic_set_pending_private. quiet_tac. Qed.
Lemma quiet_ack cpu : quiet (gic_acknowledge_irq cpu).
Proof. unfold gic_acknowledge_irq, clear_acked. quiet_tac. Qed.
Lemma quiet_complete cpu irq : quiet (gic_complete_irq cpu irq).
Proof. unfold gic_complete_irq. quiet_tac. Qed.
Lemma quiet_writeb c offset v : quiet (gic_dist_writeb c offset v).
Proof.
  unfold gic_dist_writeb, for_bits, set_enable_bit, clear_enable_bit, set_pending_bit, set_config_bits,
    gic_set_priority. quiet_tac.
Qed.
#[export] Hint Resolve quiet_set_irq quiet_pend quiet_ack quiet_complete quiet_writeb : quiet.

Lemma quiet_gop c op : quiet (run_gop c op).
Proof. destruct op; unfold run_gop; quiet_tac. Qed.

Lemma quiet_on_gic {A} (m : GicM A) : quiet m -> quiet (on_gic m).
Proof.
  intros Hm s a s' t. unfold on_gic. destruct (m (gic s)) as [r g t' |] eqn:Hr; [| done].
  intros [= _ _ <-]. by apply (Hm _ _ _ _ Hr).
Qed.

Section Systick.
  Context (sys ext midr : Z).

(** ** Bits of the control register *)

Lemma control_flag c n : 0 <= n < 16 -> (c .| SYSTICK_COUNTFLAG) .& (1 << n) = c .& (1 << n).
Proof.
  intros Hn. apply Z.bits_inj'. intros i Hi. rewrite !Z.land_spec, Z.lor_spec.
  change SYSTICK_COUNTFLAG with (BIT 16). change (1 << n) with (BIT n). rewrite !testbit_BIT by lia.
  destruct (Z.eqb_spec n i) as [<- |]; [| by rewrite !andb_false_r].
  rewrite (proj2 (Z.eqb_neq 16 n)) by lia. by rewrite orb_false_r.
Qed.

Lemma scale_flag s g :
  systick_scale sys ext (s <| gic := g |> <| systick_control := systick_control s .| SYSTICK_COUNTFLAG |>) =
  systick_scale sys ext s.
Proof.
  unfold systick_scale. cbn [systick_control set_field nvic_state_settable].
  change SYSTICK_CLKSOURCE with (1 << 2). by rewrite control_flag.
Qed.

Definition enabled (s : nvic_state) : bool := cbool (systick_control s .& SYSTICK_ENABLE).
Definition interrupts (s : nvic_state) : bool := cbool (systick_control s .& SYSTICK_TICKINT).

(** The length of a period: the number of cycles is one more than the reload value. *)
Definition period (s : nvic_state) : Z := (systick_reload_value s + 1) * systick_scale sys ext s.

(** ** One expiry *)

(** A period of the running timer fits the types. *)
Record running (s : nvic_state) : Prop := {
  t_on : enabled s = true;
  t_reload : 0 < systick_reload_value s < 2 ^ 32 - 1
}.

(** The settings and the abstract controller that an expiry leaves. *)
Record ticked (s s' : nvic_state) (tick : Z) (a : gspec) : Prop := {
  k_tick : systick_tick s' = tick;
  k_rep : represents (gic s') a;
  k_reload : systick_reload_value s' = systick_reload_value s;
  k_scale : systick_scale sys ext s' = systick_scale sys ext s;
  k_on : enabled s' = enabled s;
  k_int : interrupts s' = interrupts s;
  k_count : cbool (systick_control s' .& SYSTICK_COUNTFLAG) = true
}.

Lemma countflag_set c : cbool ((c .| SYSTICK_COUNTFLAG) .& SYSTICK_COUNTFLAG) = true.
Proof.
  change SYSTICK_COUNTFLAG with (BIT 16). rewrite cbool_BIT by lia. rewrite Z.lor_spec.
  rewrite testbit_BIT by lia. by rewrite orb_true_r.
Qed.

Definition counted (s : nvic_state) : nvic_state :=
  s <| systick_control := systick_control s .| SYSTICK_COUNTFLAG |>.

Lemma counted_ok s a tick :
  represents (gic s) a -> systick_tick s = tick -> ticked s (counted s) tick a.
Proof.
  intros Hrep Ht. split; try done.
  - exact (scale_flag s (gic s)).
  - unfold enabled. cbn. change SYSTICK_ENABLE with (1 << 0). by rewrite control_flag.
  - unfold interrupts. cbn. change SYSTICK_TICKINT with (1 << 1). by rewrite control_flag.
  - cbn. apply countflag_set.
Qed.

Lemma reload_run s now :
  running s -> 0 <= systick_scale sys ext s -> 0 <= systick_tick s -> systick_tick s + period s < 2 ^ 63 ->
  systick_reload sys ext now false s =
    Done () (s <| systick_tick := systick_tick s + period s |>) [TimerMod 0 (systick_tick s + period s)].
Proof.
  intros [Hon Hr] Hsc Ht Hfit. unfold systick_reload. rewrite bind_get.
  assert (He : (systick_control s .& SYSTICK_ENABLE =? 0) = false).
  { unfold enabled, cbool in Hon. by apply negb_true_iff in Hon. }
  rewrite He. cbn [when]. rewrite (bind_Done _ _ s () s eq_refl), bind_modify, bind_get.
  assert (Hi : i64 (systick_tick s + u32 (systick_reload_value s + 1) * systick_scale sys ext s) = systick_tick s + period s).
  { unfold period in *. rewrite u32_small by lia. apply i64_small. nia. }
  rewrite Hi. done.
Qed.

(** ** Runs of the timer and the controller *)

(** An expiry at the time [now], which may be later than the deadline, or an
    operation of the controller. *)
Inductive nop : Type :=
  | Tick (now : Z)
  | Op (op : gop).

Definition run_nop (c : Z) (x : nop) : NvicM unit :=
  match x with
  | Tick now => systick_timer_tick sys ext now
  | Op op => on_gic (run_gop c op) ;; mret ()
  end.

(** What the controller sees. *)
Definition nop_gops (int : bool) (x : nop) : list gop :=
  match x with
  | Tick _ => if int then [Exception ARMV7M_EXCP_SYSTICK] else []
  | Op op => [op]
  end.

Definition ticks (l : list nop) : list Z := omap (λ x, match x with Tick now => Some now | Op _ => None end) l.

Lemma tick_ok s a now :
  running s -> represents (gic s) a -> 0 <= systick_scale sys ext s ->
  0 <= systick_tick s -> systick_tick s + period s < 2 ^ 63 ->
  exists s' t, systick_timer_tick sys ext now s = Done () s' t /\
    deadlines t = [systick_tick s + period s] /\
    ticked s s' (systick_tick s + period s) (snd (spec_gops (nop_gops (interrupts s) (Tick now)) a)).
Proof.
  intros Hrun Hrep Hsc Ht Hfit. unfold systick_timer_tick. rewrite bind_modify. fold (counted s). rewrite bind_get.
  destruct (counted_ok s a _ Hrep eq_refl) as [K1 K2 K3 K4 K5 K6 K7].
  change (cbool (systick_control (counted s) .& SYSTICK_TICKINT)) with (interrupts (counted s)). rewrite K6, K3.
  rewrite (proj2 (Z.eqb_neq (systick_reload_value s) 0)) by (destruct Hrun; lia).
  assert (Hpend : exists s1 t1, when (interrupts s) (armv7m_nvic_set_pending ARMV7M_EXCP_SYSTICK) (counted s) = Done () s1 t1 /\
    deadlines t1 = [] /\ s1 = counted s <| gic := gic s1 |> /\
    represents (gic s1) (snd (spec_gops (nop_gops (interrupts s) (Tick now)) a))).
  { destruct (interrupts s); cbn [when nop_gops].
    - pose proof (rep_num _ _ (proj1 K2)) as Hn.
      destruct (on_gic_performs _ (counted s) a () _ (set_pending_private_ok _ a 15 K2 ltac:(lia)))
        as (s1 & t1 & H1 & Hrep1 & _ & Hs1).
      exists s1, t1. split; [done |]. split; [| done].
      exact (quiet_on_gic _ (quiet_pend 0 15) _ _ _ _ H1).
    - by exists (counted s), []. }
  destruct Hpend as (s1 & t1 & H1 & Hd1 & Hs1 & Hrep1).
  set (a1 := snd (spec_gops _ a)) in *. clearbody a1.
  assert (Hrun1 : running s1).
  { rewrite Hs1. destruct Hrun as [Hon Hr]. split; [| done]. exact (eq_trans K5 Hon). }
  assert (Hp1 : period s1 = period s) by (unfold period; rewrite Hs1; cbn; f_equal; exact K4).
  assert (Ht1 : systick_tick s1 = systick_tick s) by by rewrite Hs1.
  assert (Hr : systick_reload sys ext now false s1 =
    Done () (s1 <| systick_tick := systick_tick s + period s |>) [TimerMod 0 (systick_tick s + period s)]).
  { rewrite <- Hp1, <- Ht1. apply reload_run; [done | | lia | lia]. rewrite Hs1. cbn. exact (eq_ind_r _ Hsc K4). }
  eexists _, _. split; [exact (bind_Done_trace _ _ _ _ _ _ _ _ _ H1 Hr) |].
  split; [by rewrite deadlines_app, Hd1 |]. split; try done.
  all: rewrite Hs1; cbn; try done.
Qed.

Fixpoint run_nops (c : Z) (l : list nop) : NvicM unit :=
  match l with [] => mret () | x :: l => run_nop c x ;; run_nops c l end.

Lemma spec_gops_app l1 l2 a : snd (spec_gops (l1 ++ l2) a) = snd (spec_gops l2 (snd (spec_gops l1 a))).
Proof.
  revert a. induction l1 as [|op l1 IH]; intros a; [done |]. cbn [app spec_gops].
  destruct (spec_gop op a) as [r a1]. specialize (IH a1).
  destruct (spec_gops (l1 ++ l2) a1), (spec_gops l1 a1). exact IH.
Qed.

Lemma gops_ok_app l1 l2 a : gops_ok (l1 ++ l2) a -> gops_ok l1 a /\ gops_ok l2 (snd (spec_gops l1 a)).
Proof.
  revert a. induction l1 as [|op l1 IH]; intros a; [done |]. cbn [app gops_ok spec_gops]. intros [H1 H2].
  destruct (IH _ H2) as [H3 H4]. split; [done |].
  destruct (spec_gop op a) as [r a1]. cbn [snd] in *. by destruct (spec_gops l1 a1).
Qed.

(** What neither an expiry nor the controller changes. *)
Definition kept (s s' : nvic_state) : Prop :=
  running s' /\ period s' = period s /\ systick_scale sys ext s' = systick_scale sys ext s /\ interrupts s' = interrupts s.

(** The deadlines that [n] expiries program. *)
Definition grid (tick p : Z) (n : nat) : list Z := (λ k, tick + (k + 1) * p) <$> zrange 0 n.

Lemma grid_S tick p n : grid tick p (S n) = (tick + p) :: grid (tick + p) p n.
Proof.
  unfold grid. rewrite zrange_cons. cbn [fmap list_fmap]. f_equal; [lia |].
  unfold zrange. rewrite <- !list_fmap_compose. apply list_fmap_ext. intros i x _. cbn. lia.
Qed.

Lemma grid_app1 tick p m n :
  m = 0%nat \/ m = 1%nat -> grid tick p m ++ grid (tick + Z.of_nat m * p) p n = grid tick p (m + n).
Proof.
  intros [-> | ->]; [by rewrite Z.mul_0_l, Z.add_0_r |].
  change (1 + n)%nat with (S n). by rewrite !grid_S, Z.mul_1_l.
Qed.

Lemma nop_ok c x s a :
  running s -> represents (gic s) a -> 0 <= systick_scale sys ext s -> 0 <= systick_tick s ->
  systick_tick s + Z.of_nat (length (ticks [x])) * period s < 2 ^ 63 ->
  gops_ok (nop_gops (interrupts s) x) a ->
  exists s' t, run_nop c x s = Done () s' t /\
    deadlines t = grid (systick_tick s) (period s) (length (ticks [x])) /\
    systick_tick s' = systick_tick s + Z.of_nat (length (ticks [x])) * period s /\
    represents (gic s') (snd (spec_gops (nop_gops (interrupts s) x) a)) /\ kept s s'.
Proof.
  intros Hrun Hrep Hsc Ht Hfit Hok. destruct x as [now | op].
  - change (length (ticks [Tick now])) with 1%nat in *. rewrite Z.mul_1_l in *.
    destruct (tick_ok s a now Hrun Hrep Hsc Ht Hfit) as (s' & t & H & Hd & [K1 K2 K3 K4 K5 K6 _]).
    exists s', t. split; [done |]. split; [rewrite Hd, grid_S; done |]. split; [done |]. split; [done |].
    destruct Hrun as [Hon Hr]. split; [by split; rewrite ?K3, ?K5 |]. unfold period. by rewrite K3, K4.
  - destruct Hok as [Hok _]. destruct (on_gic_performs _ s a _ _ (gop_performs c op (gic s) a Hrep Hok))
      as (s' & t & H & Hrep' & _ & Hs').
    exists s', t. cbn [run_nop]. unfold mbind, M_bind. rewrite H. cbn [mret M_ret].
    split; [by rewrite app_nil_r |]. split; [exact (quiet_on_gic _ (quiet_gop c op) _ _ _ _ H) |].
    cbn [nop_gops spec_gops]. destruct (spec_gop op a) as [r a1]. rewrite Hs'. cbn in *.
    split; [lia |]. split; [done |]. destruct Hrun as [Hon Hr]. split; [by split | done].
Qed.

(** C29 (systick_no_drift).  In every run in which expiries of the timer, however late
    their callbacks, are mixed with interrupts being raised, taken and
    completed, the timer programs exactly the deadlines of a grid of one
    period (reload value plus one cycles), and each expiry makes exception 15
    pending when TICKINT is set. *)
Theorem systick_no_drift c l s a :
  running s -> represents (gic s) a -> 0 <= systick_scale sys ext s -> 0 <= systick_tick s ->
  systick_tick s + Z.of_nat (length (ticks l)) * period s < 2 ^ 63 ->
  gops_ok (l ≫= nop_gops (interrupts s)) a ->
  exists s' t, run_nops c l s = Done () s' t /\
    deadlines t = grid (systick_tick s) (period s) (length (ticks l)) /\
    systick_tick s' = systick_tick s + Z.of_nat (length (ticks l)) * period s /\
    represents (gic s') (snd (spec_gops (l ≫= nop_gops (interrupts s)) a)).
Proof.
  revert s a. induction l as [|x l IH]; intros s a Hrun Hrep Hsc Ht Hfit Hok.
  - exists s, []. cbn. split; [done |]. split; [done |]. split; [lia | done].
  - cbn [mbind list_bind] in Hok. apply gops_ok_app in Hok as [Hok1 Hok2].
    assert (Hp : 0 <= period s) by (unfold period; destruct Hrun; nia).
    assert (Hlen : length (ticks (x :: l)) = (length (ticks [x]) + length (ticks l))%nat) by by destruct x.
    rewrite Hlen in *. destruct (nop_ok c x s a Hrun Hrep Hsc Ht ltac:(nia) Hok1) as (s1 & t1 & H1 & D1 & T1 & R1 & (K1 & K2 & K3 & K4)).
    destruct (IH s1 _ K1 R1) as (s2 & t2 & H2 & D2 & T2 & R2); [lia | nia | rewrite K2; nia | by rewrite K4 |].
    exists s2, (t1 ++ t2). split; [exact (bind_Done_trace _ _ _ _ _ _ _ _ _ H1 H2) |].
    rewrite K2, K4, T1 in *. split; [rewrite deadlines_app, D1, D2 |].
    + apply grid_app1. by destruct x; [right | left].
    + split; [lia |]. cbn [mbind list_bind]. by rewrite spec_gops_app.
Qed.

(** ** The current value *)

Lemma count_left n sc e :
  0 < sc -> 0 <= e < n * sc -> Z.quot (n * sc - e - 1) sc + 1 = n - e / sc.
Proof.
  intros Hsc He. rewrite Z.quot_div_nonneg by lia.
  assert (Hd : (n * sc - e - 1) / sc = n - e / sc - 1); [| lia].
  pose proof (Z.div_mod e sc ltac:(lia)). pose proof (Z.mod_pos_bound e sc Hsc).
  symmetry. apply (Z.div_unique _ _ _ (sc - e mod sc - 1)); [left; lia | nia].
Qed.

Lemma elapsed_bound n sc e : 0 < sc -> 0 <= e < n * sc -> 0 <= e / sc < n.
Proof.
  intros Hsc He. split; [apply Z.div_pos; lia |]. apply Z.div_lt_upper_bound; lia.
Qed.

(** The scale that the control value [v] selects. *)
Definition scale_of (v : Z) : Z := if cbool (v .& SYSTICK_CLKSOURCE) then sys else ext.

(** The timer after the guest has set the reload value and enabled it. *)
Definition counting (s : nvic_state) (now R v : Z) : nvic_state :=
  s <| systick_reload_value := R |> <| systick_control := v .& 7 |> <| systick_tick := now + (R + 1) * scale_of v |>.

Lemma land7 v n : 0 <= n < 3 -> (v .& 7) .& (1 << n) = v .& (1 << n).
Proof.
  intros Hn. rewrite <- Z.land_assoc. f_equal.
  assert (n = 0 \/ n = 1 \/ n = 2) as [-> | [-> | ->]] by lia; reflexivity.
Qed.

Lemma enable_run s now R v :
  systick_control s = 0 -> systick_tick s = 0 -> 0 <= R < 2 ^ 32 - 1 -> 0 <= v < 2 ^ 32 ->
  cbool (v .& SYSTICK_ENABLE) = true -> 0 <= now -> 0 <= scale_of v -> now + (R + 1) * scale_of v < 2 ^ 63 ->
  (nvic_write sys ext now 0x14 R 4 ;; nvic_write sys ext now 0x10 v 4) s =
    Done () (counting s now R v) [TimerMod 0 (now + (R + 1) * scale_of v)].
Proof.
  intros Hc Ht HR Hv Hen Hnow Hsc Hfit.
  assert (H1 : nvic_write sys ext now 0x14 R 4 s = Done () (s <| systick_reload_value := R |>) []).
  { unfold nvic_write, nvic_sysreg_write. change (u32 0x14) with 0x14. rewrite (u32_small R) by lia. reflexivity. }
  rewrite (bind_Done _ _ _ _ _ H1). set (s1 := s <| systick_reload_value := R |>).
  assert (H2 : nvic_write sys ext now 0x10 v 4 s1 = systick_write_control sys ext now v s1).
  { unfold nvic_write, nvic_sysreg_write. change (u32 0x10) with 0x10. rewrite (u32_small v) by lia.
    change (nvic_writel sys ext now 0x10 v s1 = systick_write_control sys ext now v s1).
    unfold nvic_writel. by rewrite bind_get. }
  rewrite H2. unfold systick_write_control. rewrite bind_get. change (systick_control s1) with (systick_control s).
  change (systick_tick s1) with (systick_tick s). rewrite Hc, Ht, bind_modify. change (0 .^ v) with v. rewrite Hen.
  cbn [Z.eqb negb]. set (s2 := s1 <| systick_control := _ |>).
  assert (Hs2 : systick_control s2 = v .& 7) by (subst s2; cbn; by rewrite Hc).
  unfold systick_reload. rewrite bind_get, Hs2.
  assert (He : ((v .& 7) .& SYSTICK_ENABLE =? 0) = false).
  { change SYSTICK_ENABLE with (1 << 0) in *. rewrite land7 by lia. unfold cbool in Hen. by apply negb_true_iff in Hen. }
  rewrite He. cbn [when]. rewrite !bind_modify, bind_get. set (s3 := s2 <| systick_tick := now |>).
  assert (Hsc3 : systick_scale sys ext s3 = scale_of v).
  { unfold systick_scale. change (systick_control s3) with (systick_control s2). rewrite Hs2.
    change SYSTICK_CLKSOURCE with (1 << 2). by rewrite land7. }
  assert (Hi : i64 (systick_tick s3 + u32 (systick_reload_value s3 + 1) * systick_scale sys ext s3) =
    now + (R + 1) * scale_of v).
  { rewrite Hsc3. change (systick_tick s3) with now. change (systick_reload_value s3) with R.
    rewrite u32_small by lia. apply i64_small. nia. }
  rewrite Hi. unfold emit, counting. subst s3 s2 s1. cbn. by rewrite Hc.
Qed.

(** After a reset the guest writes the reload value [R] and
    enables the timer: the current value reads 0 during the first cycle and
    then counts down from [R] to 1, one step per cycle, until the deadline
    [R + 1] cycles after the enabling. *)
Theorem systick_countdown s now R v e :
  systick_control s = 0 -> systick_tick s = 0 -> 0 <= R < 2 ^ 32 - 1 -> 0 <= v < 2 ^ 32 ->
  cbool (v .& SYSTICK_ENABLE) = true -> 0 <= now -> 0 < scale_of v -> now + (R + 1) * scale_of v < 2 ^ 63 ->
  0 <= e < (R + 1) * scale_of v ->
  exists s', (nvic_write sys ext now 0x14 R 4 ;; nvic_write sys ext now 0x10 v 4) s =
      Done () s' [TimerMod 0 (now + (R + 1) * scale_of v)] /\
    nvic_read sys ext midr (now + e) 0x18 4 s' =
      Done (if e / scale_of v =? 0 then 0 else R + 1 - e / scale_of v) s' [].
Proof.
  intros Hc Ht HR Hv Hen Hnow Hsc Hfit He. exists (counting s now R v).
  split; [apply enable_run; done || lia |]. set (s' := counting s now R v).
  assert (Hrd : nvic_read sys ext midr (now + e) 0x18 4 s' = systick_current sys ext (now + e) s' s').
  { unfold nvic_read, nvic_sysreg_read. change (u32 0x18) with 0x18.
    change (nvic_readl sys ext midr (now + e) 0x18 s' = systick_current sys ext (now + e) s' s').
    unfold nvic_readl. by rewrite bind_get. }
  rewrite Hrd. unfold systick_current. change (systick_control s') with (v .& 7).
  change SYSTICK_ENABLE with (1 << 0) in *. rewrite land7 by lia.
  unfold cbool in Hen. apply negb_true_iff in Hen. rewrite Hen.
  assert (Hs : systick_scale sys ext s' = scale_of v).
  { unfold systick_scale. change (systick_control s') with (v .& 7). change SYSTICK_CLKSOURCE with (1 << 2). by rewrite land7. }
  change (systick_tick s') with (now + (R + 1) * scale_of v). rewrite Hs.
  rewrite (proj2 (Z.leb_gt _ (now + e))) by lia. rewrite (proj2 (Z.eqb_neq (scale_of v) 0)) by lia.
  replace (now + (R + 1) * scale_of v - (now + e + 1)) with ((R + 1) * scale_of v - e - 1) by lia.
  rewrite count_left by done. pose proof (elapsed_bound _ _ _ Hsc He) as Hq.
  rewrite u32_small by lia. change (systick_reload_value s') with R. unfold mret, M_ret.
  destruct (Z.eqb_spec (e / scale_of v) 0) as [-> | Hne]; zdecide; done.
Qed.

End Systick.

Lemma systick_countdown_witness :
  exists s', (nvic_write 10 80 1000 0x14 99 4 ;; nvic_write 10 80 1000 0x10 7 4) nvic_ready =
      Done () s' [TimerMod 0 2000] /\
    nvic_read 10 80 0 (1000 + 25) 0x18 4 s' = Done 98 s' [].
Proof.
  apply (systick_countdown 10 80 0 nvic_ready 1000 99 7 25); try (vm_compute; done).
  all: split; vm_compute; done.
Defined.

(** The running timer of the example: a period of 1000, with interrupts. *)
Definition demo_timer : nvic_state :=
  nvic_ready <| systick_control := 7 |> <| systick_reload_value := 99 |> <| systick_tick := 2000 |>.

Lemma systick_no_drift_witness :
  let l := [Tick 2000; Op Acknowledge; Tick 3700; Op (Complete 15); Tick 4001] in
  exists s' t, run_nops 10 80 0 l demo_timer = Done () s' t /\
    deadlines t = [3000; 4000; 5000] /\
    systick_tick s' = 2000 + 3 * 1000 /\
    represents (gic s') (snd (spec_gops (l ≫= nop_gops true) spec_start)).
Proof.
  intros l. apply (systick_no_drift 10 80 0 l demo_timer spec_start).
  - split; [reflexivity | cbn; lia].
  - exact nvic_ready_ok.
  - vm_compute. discriminate.
  - vm_compute. discriminate.
  - vm_compute. reflexivity.
  - by_decide.
Defined.
