(* ===== verification/Cpu.v ===== *)
(** * Exceptions of the processor ([target-arm/helper.c], [cpu.h], [cpu.c],
    [cpu-exec.c])

    The part of the Cortex-M3 that meets the interrupt controller: the
    interrupt request that the NVIC drives, exception entry and exit, the
    program status register and the special registers.  The instructions
    themselves are not modelled; theorems speak of the state in which a handler
    starts and of the state in which it returns.  The processor is an M-profile
    core ([IS_M] holds), [vecbase] is a field of the NVIC model, memory is a
    [Bus], and [semihosting] is the call of [do_arm_semihosting], if semihosting
    is enabled. *)

From stdpp Require Import gmap.
From S2P Require Import Prelude Memory Gic Gicspec Nvic Interrupts.
Open Scope Z_scope.

(** ** State *)

Record CPUARMState : Type := mkEnv {
  regs : list Z;
  CF : Z;
  VF : Z;
  NF : Z;
  ZF : Z;
  QF : Z;
  thumb : Z;
  condexec_bits : Z;
  daif : Z;
  other_sp : Z;
  basepri : Z;
  control : Z;
  current_sp : Z;
  exception : Z
}.

#[export] Instance CPUARMState_settable : Settable CPUARMState := λ e,
  mkEnv (regs e) (CF e) (VF e) (NF e) (ZF e) (QF e) (thumb e) (condexec_bits e) (daif e)
    (other_sp e) (basepri e) (control e) (current_sp e) (exception e).

Definition reg (e : CPUARMState) (i : Z) : Z := idx (regs e) i.
Definition set_reg (i v : Z) (e : CPUARMState) : CPUARMState := e <| regs := upd (regs e) i v |>.

Definition CPSR_IT_2_7 : Z := 0xfc00.
Definition CPSR_IT_0_1 : Z := 3 << 25.
Definition CPSR_Q : Z := 1 << 27.
Definition CPSR_V : Z := 1 << 28.
Definition CPSR_C : Z := 1 << 29.
Definition CPSR_Z : Z := 1 << 30.
Definition CPSR_N : Z := 1 << 31.
Definition CPSR_NZCV : Z := CPSR_N .| CPSR_Z .| CPSR_C .| CPSR_V.
Definition PSTATE_F : Z := 1 << 6.
Definition PSTATE_I : Z := 1 << 7.
Definition PSTATE_A : Z := 1 << 8.
Definition PSTATE_D : Z := 1 << 9.

(** ** The program status register *)

Definition xpsr_read (e : CPUARMState) : Z :=
  (NF e .& 0x80000000) .| (b2z (ZF e =? 0) << 30)
  .| u32 (CF e << 29) .| ((VF e .& 0x80000000) >> 3) .| u32 (QF e << 27)
  .| u32 (thumb e << 24) .| ((condexec_bits e .& 3) << 25)
  .| ((condexec_bits e .& 0xfc) << 8)
  .| u32 (exception e).

Definition xpsr_write (val mask : Z) (e : CPUARMState) : CPUARMState :=
  let e := if cbool (mask .& CPSR_NZCV) then
             e <| ZF := not32 val .& CPSR_Z |> <| NF := val |> <| CF := (val >> 29) .& 1 |>
               <| VF := u32 (val << 3) .& 0x80000000 |>
           else e in
  let e := if cbool (mask .& CPSR_Q) then e <| QF := b2z (cbool (val .& CPSR_Q)) |> else e in
  let e := if cbool (mask .& (1 << 24)) then e <| thumb := b2z (cbool (val .& (1 << 24))) |> else e in
  let e := if cbool (mask .& CPSR_IT_0_1) then
             e <| condexec_bits := (condexec_bits e .& not32 3) .| ((val >> 25) .& 3) |> else e in
  let e := if cbool (mask .& CPSR_IT_2_7) then
             e <| condexec_bits := (condexec_bits e .& 3) .| ((val >> 8) .& 0xfc) |> else e in
  if cbool (mask .& 0x1ff) then e <| exception := val .& 0x1ff |> else e.

(** Switch to the main or the process stack pointer. *)
Definition switch_v7m_sp (process : Z) (e : CPUARMState) : CPUARMState :=
  if negb (current_sp e =? process) then
    let tmp := other_sp e in
    let e := e <| other_sp := reg e 13 |> in
    let e := set_reg 13 tmp e in
    e <| current_sp := process |>
  else e.

(** ** Special registers *)

Abbreviation EnvM := (M dev_event CPUARMState).

Definition v7m_mrs (r : Z) : EnvM Z :=
  e ← get;
  if r =? 0 then mret (xpsr_read e .& 0xf8000000)
  else if r =? 1 then mret (xpsr_read e .& 0xf80001ff)
  else if r =? 2 then mret (xpsr_read e .& 0xff00fc00)
  else if r =? 3 then mret (xpsr_read e .& 0xff00fdff)
  else if r =? 5 then mret (xpsr_read e .& 0x000001ff)
  else if r =? 6 then mret (xpsr_read e .& 0x0700fc00)
  else if r =? 7 then mret (xpsr_read e .& 0x0700edff)
  else if r =? 8 then mret (if cbool (current_sp e) then other_sp e else reg e 13)
  else if r =? 9 then mret (if cbool (current_sp e) then reg e 13 else other_sp e)
  else if r =? 16 then mret (b2z (cbool (daif e .& PSTATE_I)))
  else if r =? 17 then mret (basepri e)
  else if r =? 18 then mret (basepri e)
  else if r =? 19 then mret (b2z (cbool (daif e .& PSTATE_F)))
  else if r =? 20 then mret (control e)
  else halt HwError.

Definition v7m_msr (r val : Z) : EnvM unit :=
  if r =? 0 then modify (xpsr_write val 0xf8000000)
  else if r =? 1 then modify (xpsr_write val 0xf8000000)
  else if r =? 2 then modify (xpsr_write val 0xfe00fc00)
  else if r =? 3 then modify (xpsr_write val 0xfe00fc00)
  else if r =? 5 then mret ()
  else if r =? 6 then modify (xpsr_write val 0x0600fc00)
  else if r =? 7 then modify (xpsr_write val 0x0600fc00)
  else if r =? 8 then modify (λ e, if cbool (current_sp e) then e <| other_sp := val |> else set_reg 13 val e)
  else if r =? 9 then modify (λ e, if cbool (current_sp e) then set_reg 13 val e else e <| other_sp := val |>)
  else if r =? 16 then
    modify (λ e, e <| daif := if cbool (val .& 1) then daif e .| PSTATE_I else daif e .& Z.lnot PSTATE_I |>)
  else if r =? 17 then modify (λ e, e <| basepri := val .& 0xff |>)
  else if r =? 18 then
    modify (λ e, let val := val .& 0xff in
      if negb (val =? 0) && ((val <? basepri e) || (basepri e =? 0)) then e <| basepri := val |> else e)
  else if r =? 19 then
    modify (λ e, e <| daif := if cbool (val .& 1) then daif e .| PSTATE_F else daif e .& Z.lnot PSTATE_F |>)
  else if r =? 20 then
    modify (λ e, switch_v7m_sp (b2z (cbool (val .& 2))) (e <| control := val .& 3 |>))
  else halt HwError.

(** ** The processor with its memory and its interrupt controller *)

Definition EXCP_UDEF : Z := 1.
Definition EXCP_SWI : Z := 2.
Definition EXCP_PREFETCH_ABORT : Z := 3.
Definition EXCP_DATA_ABORT : Z := 4.
Definition EXCP_IRQ : Z := 5.
Definition EXCP_FIQ : Z := 6.
Definition EXCP_BKPT : Z := 7.
Definition EXCP_EXCEPTION_EXIT : Z := 8.
Definition CPU_INTERRUPT_HARD : Z := 0x0002.
Definition CPU_INTERRUPT_FIQ : Z := 0x0010.
Definition ARM_CPU_IRQ : Z := 0.
Definition ARM_CPU_FIQ : Z := 1.

Section Processor.
  Context {B : Type} `{Bus B}.

Record ARMCPU : Type := mkCpu {
  env : CPUARMState;
  interrupt_request : Z;
  nvic : nvic_state;
  mem : B
}.

#[export] Instance ARMCPU_settable : Settable ARMCPU := λ s,
  mkCpu (env s) (interrupt_request s) (nvic s) (mem s).

Abbreviation CpuM := (M dev_event ARMCPU).

Definition modify_env (f : CPUARMState → CPUARMState) : CpuM unit := modify (λ s, s <| env := f (env s) |>).

Definition cpu_interrupt (mask : Z) : CpuM unit :=
  modify (λ s, s <| interrupt_request := interrupt_request s .| mask |>).
Definition cpu_reset_interrupt (mask : Z) : CpuM unit :=
  modify (λ s, s <| interrupt_request := interrupt_request s .& not32 mask |>).

Definition arm_cpu_set_irq (irq level : Z) : CpuM unit :=
  if irq =? ARM_CPU_IRQ then
    if cbool level then cpu_interrupt CPU_INTERRUPT_HARD else cpu_reset_interrupt CPU_INTERRUPT_HARD
  else if irq =? ARM_CPU_FIQ then
    if cbool level then cpu_interrupt CPU_INTERRUPT_FIQ else cpu_reset_interrupt CPU_INTERRUPT_FIQ
  else halt HwError.

(** The output line of the NVIC is the interrupt input of the processor. *)
Definition nvic_output (e : dev_event) : CpuM unit :=
  match e with SetIrq _ level => arm_cpu_set_irq ARM_CPU_IRQ level | e => emit e end.

Definition on_nvic {A} (m : NvicM A) : CpuM A := λ s,
  match m (nvic s) with
  | Done a n t => (for_each t nvic_output ;; mret a) (s <| nvic := n |>)
  | Halt f => Halt f
  end.

Definition v7m_push (val : Z) : CpuM unit :=
  modify_env (λ e, set_reg 13 (u32 (reg e 13 - 4)) e) ;;
  modify (λ s, s <| mem := stl_phys (mem s) (reg (env s) 13) val |>).

Definition v7m_pop : CpuM Z :=
  s ← get;
  let '(val, m) := ldl_phys (mem s) (reg (env s) 13) in
  put (s <| mem := m |>) ;;
  modify_env (λ e, set_reg 13 (u32 (reg e 13 + 4)) e) ;;
  mret val.

(** [v7m_push(env, env->regs[i])] and [env->regs[i] = v7m_pop(env)] *)
Definition push_reg (i : Z) : CpuM unit := r ← gets (λ s, reg (env s) i); v7m_push r.
Definition pop_reg (i : Z) : CpuM unit := v ← v7m_pop; modify_env (set_reg i v).

Definition do_v7m_exception_exit : CpuM unit :=
  s ← get;
  let type := reg (env s) 15 in
  when (negb (exception (env s) =? 0)) (on_nvic (armv7m_nvic_complete_irq (exception (env s)))) ;;
  modify_env (switch_v7m_sp (b2z (cbool (type .& 4)))) ;;
  pop_reg 0 ;; pop_reg 1 ;; pop_reg 2 ;; pop_reg 3 ;; pop_reg 12 ;; pop_reg 14 ;;
  pc ← v7m_pop;
  modify_env (set_reg 15 (pc .& 0xfffffffe)) ;;
  xpsr ← v7m_pop;
  modify_env (xpsr_write xpsr 0xfffffdff) ;;
  when (cbool (xpsr .& 0x200)) (modify_env (λ e, set_reg 13 (reg e 13 .| 4) e)).

Context (semihosting : option (CpuM Z)).

(** The entry of an exception, once its number is known. *)
Definition v7m_exception_entry (xpsr lr : Z) : CpuM unit :=
  s ← get;
  let unaligned := cbool (reg (env s) 13 .& 4) in
  when unaligned (modify_env (λ e, set_reg 13 (u32 (reg e 13 - 4)) e)) ;;
  v7m_push (if unaligned then xpsr .| 0x200 else xpsr) ;;
  push_reg 15 ;; push_reg 14 ;; push_reg 12 ;; push_reg 3 ;; push_reg 2 ;; push_reg 1 ;; push_reg 0 ;;
  modify_env (switch_v7m_sp 0) ;;
  modify_env (λ e, e <| condexec_bits := 0 |>) ;;
  modify_env (set_reg 14 lr) ;;
  s ← get;
  let '(addr, m) := ldl_phys (mem s) (u32 (vecbase (nvic s) + exception (env s) * 4)) in
  put (s <| mem := m |>) ;;
  modify_env (set_reg 15 (addr .& 0xfffffffe)) ;;
  modify_env (λ e, e <| thumb := addr .& 1 |>).

Definition arm_v7m_cpu_do_interrupt (exception_index : Z) : CpuM unit :=
  s ← get;
  let xpsr := xpsr_read (env s) in
  let lr := 0xfffffff1 in
  let lr := if cbool (current_sp (env s)) then lr .| 4 else lr in
  let lr := if exception (env s) =? 0 then lr .| 8 else lr in
  if exception_index =? EXCP_UDEF then on_nvic (armv7m_nvic_set_pending ARMV7M_EXCP_USAGE)
  else if exception_index =? EXCP_SWI then on_nvic (armv7m_nvic_set_pending ARMV7M_EXCP_SVC)
  else if (exception_index =? EXCP_PREFETCH_ABORT) || (exception_index =? EXCP_DATA_ABORT) then
    on_nvic (armv7m_nvic_set_pending ARMV7M_EXCP_MEM)
  else if exception_index =? EXCP_BKPT then
    let '(code, m) := lduw_phys (mem s) (reg (env s) 15) in
    match semihosting with
    | Some do_arm_semihosting =>
        put (s <| mem := m |>) ;;
        if code .& 0xff =? 0xab then
          modify_env (λ e, set_reg 15 (u32 (reg e 15 + 2)) e) ;;
          r ← do_arm_semihosting;
          modify_env (set_reg 0 r)
        else on_nvic (armv7m_nvic_set_pending ARMV7M_EXCP_DEBUG)
    | None => on_nvic (armv7m_nvic_set_pending ARMV7M_EXCP_DEBUG)
    end
  else if exception_index =? EXCP_IRQ then
    number ← on_nvic armv7m_nvic_acknowledge_irq;
    modify_env (λ e, e <| exception := number |>) ;;
    v7m_exception_entry xpsr lr
  else if exception_index =? EXCP_EXCEPTION_EXIT then do_v7m_exception_exit
  else halt HwError.

(** The check for interrupts of [cpu_exec] before each block of code, for the
    requests of the interrupt lines. *)
Definition cpu_exec_interrupts : CpuM unit :=
  s ← get;
  let request := interrupt_request s in
  when (cbool (request .& CPU_INTERRUPT_FIQ) && negb (cbool (daif (env s) .& PSTATE_F)))
    (arm_v7m_cpu_do_interrupt EXCP_FIQ) ;;
  s ← get;
  when (cbool (request .& CPU_INTERRUPT_HARD) &&
        ((reg (env s) 15 <? 0xfffffff0) || negb (cbool (daif (env s) .& PSTATE_I))))
    (arm_v7m_cpu_do_interrupt EXCP_IRQ).

End Processor.
#[global] Arguments ARMCPU B : clear implicits.
#[global] Arguments mkCpu {B}.

(** [arm_cpu_reset] of an M-profile core; [rom] holds the first two words of
    the loaded image, if there is one. *)
Definition arm_cpu_reset (rom : option (Z * Z)) : CPUARMState :=
  let e := mkEnv (replicate 16 0) 0 0 0 0 0 0 0 0 0 0 0 0 0 in
  let e := e <| daif := PSTATE_D .| PSTATE_A .| PSTATE_I .| PSTATE_F |> in
  let e := e <| daif := daif e .& Z.lnot PSTATE_I |> in
  match rom with
  | Some (sp, pc) =>
      let e := set_reg 13 (sp .& 0xFFFFFFFC) e in
      let e := e <| thumb := pc .& 1 |> in
      set_reg 15 (pc .& not32 1) e
  | None => e
  end.

(** ** The program status register is restored *)

(** The bits that the register implements. *)
Definition XPSR_BITS : Z := 0xff00fdff.

Lemma testbit_b2z_any b k : Z.testbit (b2z b) k = (k =? 0) && b.
Proof.
  destruct b; cbn [b2z]; [| by rewrite Z.testbit_0_l, andb_false_r].
  rewrite andb_true_r. by destruct k as [|[]|].
Qed.

(** Evaluate the tests of constant bits at constant positions. *)
Ltac const_bits :=
  repeat match goal with
    | |- context [Z.testbit ?c ?k] =>
        let r := eval vm_compute in (Z.testbit c k) in
        match r with true => idtac | false => idtac end;
        change (Z.testbit c k) with r
    end; cbv beta iota.

(** Prove an equation between bits below 32, position by position. *)
Ltac bit_by_bit i :=
  enum_upto i 32; zcase; cbn [andb orb]; const_bits; cbn [andb orb];
  repeat rewrite Z.shiftr_spec by lia; rewrite ?testbit_b2z_any; zcase; cbn [andb orb];
  rewrite ?andb_true_r, ?andb_false_r, ?orb_false_r; cbn [andb orb Z.add Z.sub]; try done.

Lemma eqb_land_BIT v b : 0 <= b < 32 -> (not32 v .& BIT b =? 0) = Z.testbit v b.
Proof.
  intros Hb. pose proof (cbool_BIT (not32 v) b ltac:(lia)) as H. unfold cbool in H.
  rewrite testbit_not32, (proj2 (Z.ltb_lt b 32)) in H by lia. by destruct (_ =? 0), (Z.testbit v b).
Qed.

(** The write of the whole register at the end of an exception. *)
Lemma xpsr_write_all v e :
  xpsr_write v 0xfffffdff e =
    mkEnv (regs e) ((v >> 29) .& 1) (u32 (v << 3) .& 0x80000000) v (not32 v .& CPSR_Z) (b2z (cbool (v .& CPSR_Q)))
      (b2z (cbool (v .& (1 << 24)))) ((((condexec_bits e .& not32 3) .| ((v >> 25) .& 3)) .& 3) .| ((v >> 8) .& 0xfc))
      (daif e) (other_sp e) (basepri e) (control e) (current_sp e) (v .& 0x1ff).
Proof. reflexivity. Qed.

Lemma xpsr_write_read v e :
  0 <= v < 2 ^ 32 -> xpsr_read (xpsr_write v 0xfffffdff e) = v .& XPSR_BITS.
Proof.
  intros Hv. rewrite xpsr_write_all. unfold xpsr_read.
  cbn [NF ZF CF VF QF thumb condexec_bits exception].
  change CPSR_Z with (BIT 30). rewrite eqb_land_BIT by lia.
  change CPSR_Q with (BIT 27). change (1 << 24) with (BIT 24). rewrite !cbool_BIT by lia.
  apply Z.bits_inj'. intros i Hi. unfold u32, XPSR_BITS. zbit_simp.
  destruct (Z.ltb_spec i 32).
  - bit_by_bit i.
  - rewrite (testbit_high 32 v i), !testbit_b2z_any, !(testbit_high 32 0x80000000), (testbit_high 2 3 (i - 25)),
      (testbit_high 8 252 (i - 8)) by lia.
    rewrite (proj2 (Z.eqb_neq (i - 30) 0)) by lia. by rewrite !andb_false_r.
Qed.

(** The ranges of the fields. *)
Record env_ok (e : CPUARMState) : Prop := {
  e_regs : length (regs e) = 16%nat;
  e_range : Forall (λ r, 0 <= r < 2 ^ 32) (regs e);
  e_CF : 0 <= CF e < 2;
  e_QF : 0 <= QF e < 2;
  e_thumb : 0 <= thumb e < 2;
  e_it : 0 <= condexec_bits e < 2 ^ 8;
  e_exc : 0 <= exception e < 2 ^ 9;
  e_cur : 0 <= current_sp e < 2;
  e_other : 0 <= other_sp e < 2 ^ 32
}.

Lemma as_b2z x : 0 <= x < 2 -> x = b2z (x =? 1).
Proof. intros Hx. destruct (Z.eqb_spec x 1); cbn; lia. Qed.

Lemma xpsr_bits e i : env_ok e -> 0 <= i -> Z.testbit XPSR_BITS i = false -> Z.testbit (xpsr_read e) i = false.
Proof.
  intros He Hi Hm. destruct He as [_ _ HC HQ HT HIT HX _ _]. unfold xpsr_read.
  rewrite (as_b2z _ HC), (as_b2z _ HQ), (as_b2z _ HT). rewrite (u32_small (exception e)) by lia.
  unfold u32. zbit_simp. rewrite !testbit_b2z_any. destruct (Z.ltb_spec i 32).
  - enum_upto i 32; try discriminate Hm; zcase; cbn [andb orb]; const_bits; cbn [andb orb];
      rewrite ?andb_false_r, ?orb_false_r; apply (testbit_high 9); lia.
  - rewrite !(testbit_high 32 0x80000000), (testbit_high 2 3 (i - 25)),
      (testbit_high 8 252 (i - 8)), (testbit_high 9 (exception e)) by lia.
    rewrite (proj2 (Z.eqb_neq (i - 30) 0)) by lia. by rewrite !andb_false_r.
Qed.

Lemma xpsr_range e : env_ok e -> 0 <= xpsr_read e < 2 ^ 32.
Proof.
  intros He. assert (H0 : 0 <= xpsr_read e).
  { unfold xpsr_read. destruct He as [_ _ HC HQ HT HIT HX _ _].
    rewrite !Z.lor_nonneg, !Z.land_nonneg, !Z.shiftl_nonneg, Z.shiftr_nonneg, !Z.land_nonneg.
    pose proof (u32_range (CF e << 29)). pose proof (u32_range (QF e << 27)). pose proof (u32_range (thumb e << 24)).
    pose proof (u32_range (exception e)). destruct (ZF e =? 0); cbn [b2z]; lia. }
  split; [done |]. apply bits_bound; [lia | done |]. intros i Hi. apply xpsr_bits; [done | lia |].
  apply (testbit_high 32); [unfold XPSR_BITS |]; lia.
Qed.

(** A status register that was pushed, with or without the alignment flag, is
    restored. *)
Lemma xpsr_restored e e' (unaligned : bool) :
  env_ok e ->
  xpsr_read (xpsr_write (if unaligned then xpsr_read e .| 0x200 else xpsr_read e) 0xfffffdff e') = xpsr_read e.
Proof.
  intros He. pose proof (xpsr_range e He) as Hr. rewrite xpsr_write_read.
  2: { destruct unaligned; [| done]. apply (lor_bound 32); lia. }
  apply Z.bits_inj'. intros i Hi. rewrite Z.land_spec. destruct (Z.testbit XPSR_BITS i) eqn:Hb.
  - rewrite andb_true_r. destruct unaligned; [| done]. rewrite Z.lor_spec. change 0x200 with (BIT 9).
    rewrite testbit_BIT by lia. destruct (Z.eqb_spec 9 i) as [<- |]; [done | apply orb_false_r].
  - rewrite andb_false_r. symmetry. by apply xpsr_bits.
Qed.

(** ** Registers *)

Lemma reg_set i v e j :
  length (regs e) = 16%nat -> 0 <= i < 16 -> 0 <= j -> reg (set_reg i v e) j = if j =? i then v else reg e j.
Proof.
  intros Hlen Hi Hj. unfold reg, set_reg. cbn [regs set_field CPUARMState_settable].
  rewrite idx_upd by (rewrite ?Hlen; lia). done.
Qed.

Lemma regs_set_length i v e : length (regs (set_reg i v e)) = length (regs e).
Proof. apply length_insert. Qed.

Lemma reg_range e i : env_ok e -> 0 <= reg e i < 2 ^ 32.
Proof.
  intros He. unfold reg, idx. destruct (regs e !! Z.to_nat i) as [r |] eqn:Hr; cbn; [| lia].
  exact (proj1 (Forall_lookup _ _) (e_range e He) _ _ Hr).
Qed.

Lemma env_ok_set i v e : env_ok e -> 0 <= v < 2 ^ 32 -> env_ok (set_reg i v e).
Proof.
  intros He Hv. destruct He. constructor; cbn; unfold upd; try done;
    [by rewrite length_insert | by apply Forall_insert].
Qed.

Lemma env_ok_switch p e : env_ok e -> 0 <= p < 2 -> env_ok (switch_v7m_sp p e).
Proof.
  intros He Hp. unfold switch_v7m_sp. destruct (negb _); [| done]. pose proof (reg_range e 13 He).
  pose proof (env_ok_set 13 (other_sp e) e He ltac:(apply He)) as Hs. destruct He, Hs. by constructor.
Qed.

Lemma env_ok_xpsr v e : env_ok e -> 0 <= v < 2 ^ 32 -> env_ok (xpsr_write v 0xfffffdff e).
Proof.
  intros He Hv. rewrite xpsr_write_all. destruct He.
  constructor; cbn [regs CF QF thumb condexec_bits exception current_sp other_sp]; try done;
    try (destruct (cbool _); cbn; lia).
  - by apply (land_bound 1).
  - apply (lor_bound 8); [lia | |]; apply (land_bound 8); lia.
  - by apply (land_bound 9).
Qed.

(** ** The interrupt request follows the NVIC *)

Section Request.
  Context {B : Type} `{Bus B}.

(** The request of the interrupt line. *)
Definition hard (s : ARMCPU B) : bool := Z.testbit (interrupt_request s) 1.
Definition fiq (s : ARMCPU B) : bool := Z.testbit (interrupt_request s) 4.

Lemma nvic_outputs t (s : ARMCPU B) :
  exists q t', for_each t nvic_output s = Done () (s <| interrupt_request := q |>) t' /\
    Z.testbit q 1 = line_after (hard s) t /\ Z.testbit q 4 = fiq s.
Proof.
  revert s. induction t as [|e t IH]; intros s.
  { exists (interrupt_request s), []. split; [by destruct s | done]. }
  assert (He : exists q1 t1, nvic_output e s = Done () (s <| interrupt_request := q1 |>) t1 /\
            Z.testbit q1 1 = line_after (hard s) [e] /\ Z.testbit q1 4 = fiq s).
  { destruct e as [n level | | | | | | ]; try (eexists (interrupt_request s), _; split; [by destruct s | done]).
    unfold nvic_output, arm_cpu_set_irq. cbn [line_after foldl]. change (ARM_CPU_IRQ =? ARM_CPU_IRQ) with true. cbv iota.
    destruct (cbool level).
    - exists (interrupt_request s .| CPU_INTERRUPT_HARD), []. split; [done |]. unfold fiq.
      rewrite !Z.lor_spec. change (Z.testbit CPU_INTERRUPT_HARD 1) with true.
      change (Z.testbit CPU_INTERRUPT_HARD 4) with false. by rewrite orb_true_r, orb_false_r.
    - exists (interrupt_request s .& not32 CPU_INTERRUPT_HARD), []. split; [done |]. unfold fiq.
      rewrite !Z.land_spec. change (Z.testbit (not32 CPU_INTERRUPT_HARD) 1) with false.
      change (Z.testbit (not32 CPU_INTERRUPT_HARD) 4) with true. by rewrite andb_false_r, andb_true_r. }
  destruct He as (q1 & t1 & Hrun & Hh & Hf). set (s1 := s <| interrupt_request := q1 |>) in *.
  destruct (IH s1) as (q & t' & Hrest & Hh' & Hf'). exists q, (t1 ++ t'). split; [| split].
  - cbn [for_each]. unfold mbind, M_bind. rewrite Hrun, Hrest. by destruct s.
  - rewrite Hh'. change (hard s1) with (Z.testbit q1 1). rewrite Hh. done.
  - rewrite Hf'. exact Hf.
Qed.

(** The processor and the abstract controller agree: the request is there
    exactly when there is an interrupt to deliver. *)
Definition cpu_ok (s : ARMCPU B) (a : gspec) : Prop :=
  nvic_ok (nvic s) a /\ hard s = spec_line a /\ fiq s = false.

Lemma on_nvic_ok {A} (m : NvicM A) (s : ARMCPU B) a r a' :
  nperforms m (nvic s) a r a' -> cpu_ok s a -> g_en a' = g_en a ->
  exists n q t, on_nvic m s = Done r (s <| nvic := n |> <| interrupt_request := q |>) t /\
    cpu_ok (s <| nvic := n |> <| interrupt_request := q |>) a' /\ vecbase n = vecbase (nvic s).
Proof.
  intros (n & t & Hrun & Hrep & Hline & Hn) ([_ Hoff] & Hh & Hf) Hen. set (s1 := s <| nvic := n |>).
  destruct (nvic_outputs t s1) as (q & t' & Hout & Hq1 & Hq4). exists n, q, (t' ++ []). split; [| split].
  - unfold on_nvic. rewrite Hrun. fold s1. unfold mbind, M_bind. by rewrite Hout.
  - split; [split; [exact Hrep | by rewrite Hen] |]. change (hard _) with (Z.testbit q 1).
    change (fiq _) with (Z.testbit q 4). rewrite Hq1, Hq4. change (hard s1) with (hard s). rewrite Hh. done.
  - by rewrite Hn.
Qed.

Lemma spec_ack_en a : g_en (snd (spec_ack a)) = g_en a.
Proof. unfold spec_ack. by destruct (spec_line a). Qed.

Lemma spec_complete_en irq a : g_en (spec_complete irq a) = g_en a.
Proof. unfold spec_complete. destruct (bool_decide _ || _); [done |]. by destruct (_ && _ && _). Qed.

End Request.

(** ** The stack frame *)

Definition word (m : gmap Z Z) (a : Z) : Z := fst (ldl_phys m a).

(** The processor with another stack pointer and memory. *)
Definition at_sp (s : ARMCPU (gmap Z Z)) (p : Z) (m : gmap Z Z) : ARMCPU (gmap Z Z) :=
  mkCpu (set_reg 13 p (env s)) (interrupt_request s) (nvic s) m.

Lemma set_reg_twice i v w e : set_reg i w (set_reg i v e) = set_reg i w e.
Proof.
  unfold set_reg. cbn [regs set_field CPUARMState_settable]. unfold upd. by rewrite list_insert_insert_eq.
Qed.

Lemma set_reg_same i e : 0 <= i < 16 -> length (regs e) = 16%nat -> set_reg i (reg e i) e = e.
Proof.
  intros Hi Hlen. unfold set_reg. assert (Hr : upd (regs e) i (reg e i) = regs e); [| rewrite Hr; by destruct e].
  unfold upd, reg, idx. apply list_insert_id.
  destruct (lookup_lt_is_Some_2 (regs e) (Z.to_nat i)) as [x Hx]; [lia |]. by rewrite Hx.
Qed.

Lemma push_run s p m v :
  length (regs (env s)) = 16%nat -> 4 <= p < 2 ^ 32 ->
  v7m_push v (at_sp s p m) = Done () (at_sp s (p - 4) (stl_phys m (p - 4) v)) [].
Proof.
  intros Hlen Hp. unfold v7m_push, modify_env. rewrite bind_modify. unfold modify, at_sp.
  cbn [env interrupt_request nvic mem set_field ARMCPU_settable].
  rewrite (reg_set 13 p) by (done || lia). change (13 =? 13) with true. cbv iota.
  rewrite set_reg_twice, u32_small, reg_set by (done || lia). done.
Qed.

Lemma push_reg_run s p m i :
  length (regs (env s)) = 16%nat -> 4 <= p < 2 ^ 32 -> 0 <= i < 16 -> i <> 13 ->
  push_reg i (at_sp s p m) = Done () (at_sp s (p - 4) (stl_phys m (p - 4) (reg (env s) i))) [].
Proof.
  intros Hlen Hp Hi Hne. unfold push_reg. rewrite bind_gets. change (env (at_sp s p m)) with (set_reg 13 p (env s)).
  rewrite reg_set, (proj2 (Z.eqb_neq i 13)) by (done || lia). by apply push_run.
Qed.

(** The memory after words have been pushed from [p] down. *)
Fixpoint pushed (vs : list Z) (m : gmap Z Z) (p : Z) : gmap Z Z :=
  match vs with [] => m | v :: vs => pushed vs (stl_phys m (p - 4) v) (p - 4) end.

Lemma pushed_outside vs m p a :
  ~ p - 4 * Z.of_nat (length vs) <= a < p -> pushed vs m p !! a = m !! a.
Proof.
  revert m p. induction vs as [|v vs IH]; intros m p Ha; [done |]. cbn [pushed]. cbn [length] in Ha.
  rewrite IH, stl_outside by lia. done.
Qed.

Lemma pushed_word vs m p j v :
  vs !! j = Some v -> word (pushed vs m p) (p - 4 * (Z.of_nat j + 1)) = u32 v.
Proof.
  revert m p j. induction vs as [|x vs IH]; intros m p [|j] Hj; [done | done | |].
  - injection Hj as ->. cbn [pushed]. replace (p - 4 * (Z.of_nat 0 + 1)) with (p - 4) by lia.
    unfold word. rewrite (ldl_ext (stl_phys m (p - 4) v)); [apply ldl_stl |].
    intros i Hi. apply pushed_outside. lia.
  - cbn [pushed]. replace (p - 4 * (Z.of_nat (S j) + 1)) with (p - 4 - 4 * (Z.of_nat j + 1)) by lia. by apply IH.
Qed.

(** The registers that the entry saves, in the order in which it pushes them. *)
Definition frame (e : CPUARMState) (xpsr : Z) : list Z :=
  [xpsr; reg e 15; reg e 14; reg e 12; reg e 3; reg e 2; reg e 1; reg e 0].

Lemma pushes_run s p m xpsr {A} (k : unit → M dev_event (ARMCPU (gmap Z Z)) A) :
  length (regs (env s)) = 16%nat -> 32 <= p < 2 ^ 32 ->
  (v7m_push xpsr ;; push_reg 15 ;; push_reg 14 ;; push_reg 12 ;; push_reg 3 ;; push_reg 2 ;; push_reg 1 ;;
   push_reg 0 ≫= k) (at_sp s p m) = k () (at_sp s (p - 32) (pushed (frame (env s) xpsr) m p)).
Proof.
  intros Hlen Hp. rewrite (bind_Done _ _ _ _ _ (push_run s p m xpsr Hlen ltac:(lia))).
  do 7 (erewrite bind_Done; [| apply push_reg_run; (done || lia)]).
  cbn [pushed frame]. by replace (p - 4 - 4 - 4 - 4 - 4 - 4 - 4 - 4) with (p - 32) by lia.
Qed.

(** ** Entry *)

Lemma at_sp_same s : length (regs (env s)) = 16%nat -> at_sp s (reg (env s) 13) (mem s) = s.
Proof. intros Hlen. unfold at_sp. rewrite set_reg_same by (done || lia). by destruct s. Qed.

(** The aligned stack pointer and the flag in the saved status register. *)
Definition unaligned (e : CPUARMState) : bool := cbool (reg e 13 .& 4).
Definition aligned (e : CPUARMState) : Z := if unaligned e then reg e 13 - 4 else reg e 13.
Definition saved_xpsr (e : CPUARMState) (xpsr : Z) : Z := if unaligned e then xpsr .| 0x200 else xpsr.

(** The memory and the registers in which the handler starts. *)
Definition entry_mem (e : CPUARMState) (xpsr : Z) (m : gmap Z Z) : gmap Z Z :=
  pushed (frame e (saved_xpsr e xpsr)) m (aligned e).

Definition entry_env (e : CPUARMState) (lr addr : Z) : CPUARMState :=
  let e := switch_v7m_sp 0 (set_reg 13 (aligned e - 32) e) <| condexec_bits := 0 |> in
  set_reg 15 (addr .& 0xfffffffe) (set_reg 14 lr e) <| thumb := addr .& 1 |>.

Lemma entry_run s xpsr lr :
  length (regs (env s)) = 16%nat -> 36 <= reg (env s) 13 < 2 ^ 32 ->
  let m := entry_mem (env s) xpsr (mem s) in
  let addr := word m (u32 (vecbase (nvic s) + exception (env s) * 4)) in
  v7m_exception_entry xpsr lr s = Done () (mkCpu (entry_env (env s) lr addr) (interrupt_request s) (nvic s) m) [].
Proof.
  intros Hlen Hsp. cbv zeta. unfold v7m_exception_entry. rewrite bind_get. fold (unaligned (env s)).
  assert (Halign : when (unaligned (env s)) (modify_env (λ e, set_reg 13 (u32 (reg e 13 - 4)) e)) s =
            Done () (at_sp s (aligned (env s)) (mem s)) []).
  { unfold aligned. destruct (unaligned (env s)); cbn [when]; [| by rewrite at_sp_same].
    unfold modify_env, modify. rewrite u32_small by lia. by destruct s. }
  rewrite (bind_Done _ _ _ _ _ Halign). fold (saved_xpsr (env s) xpsr).
  rewrite pushes_run by (done || (unfold aligned; destruct (unaligned _); lia)).
  fold (entry_mem (env s) xpsr (mem s)). set (m := entry_mem (env s) xpsr (mem s)).
  unfold modify_env. rewrite !bind_modify, bind_get.
  unfold at_sp. cbn [env interrupt_request nvic mem set_field ARMCPU_settable].
  assert (Hexc : exception (set_reg 14 lr (switch_v7m_sp 0 (set_reg 13 (aligned (env s) - 32) (env s))
                   <| condexec_bits := 0 |>)) = exception (env s)).
  { unfold switch_v7m_sp. by destruct (negb _). }
  rewrite Hexc. reflexivity.
Qed.

(** ** Exit *)

Lemma set_reg_comm i v w e : i <> 13 -> 0 <= i -> set_reg i v (set_reg 13 w e) = set_reg 13 w (set_reg i v e).
Proof.
  intros Hi H0. unfold set_reg. cbn [regs set_field CPUARMState_settable]. unfold upd.
  by rewrite list_insert_insert_ne by lia.
Qed.

Section Pops.
  Context (q : Z) (n : nvic_state) (m : gmap Z Z).

Lemma pop_run e a :
  length (regs e) = 16%nat -> 0 <= a < 2 ^ 32 - 4 ->
  v7m_pop (mkCpu (set_reg 13 a e) q n m) = Done (word m a) (mkCpu (set_reg 13 (a + 4) e) q n m) [].
Proof.
  intros Hlen Ha. unfold v7m_pop. rewrite bind_get. cbn [env mem]. rewrite (reg_set 13 a e 13) by (done || lia).
  change (13 =? 13) with true. cbv iota.
  replace (mkCpu (set_reg 13 (a + 4) e) q n m)
    with (mkCpu (set_reg 13 (u32 (reg (set_reg 13 a e) 13 + 4)) (set_reg 13 a e)) q n m); [done |].
  rewrite reg_set, set_reg_twice by (done || lia). change (13 =? 13) with true. by rewrite u32_small by lia.
Qed.

Lemma pop_reg_run e a i :
  length (regs e) = 16%nat -> 0 <= a < 2 ^ 32 - 4 -> 0 <= i < 16 -> i <> 13 ->
  pop_reg i (mkCpu (set_reg 13 a e) q n m) = Done () (mkCpu (set_reg 13 (a + 4) (set_reg i (word m a) e)) q n m) [].
Proof.
  intros Hlen Ha Hi Hne. unfold pop_reg. rewrite (bind_Done _ _ _ _ _ (pop_run e a Hlen Ha)).
  unfold modify_env, modify. cbn [env set_field ARMCPU_settable interrupt_request nvic mem].
  by rewrite set_reg_comm by lia.
Qed.

(** The registers with the frame at [p] loaded. *)
Definition restored (p : Z) (e : CPUARMState) : CPUARMState :=
  set_reg 15 (word m (p + 24) .& 0xfffffffe) (set_reg 14 (word m (p + 20)) (set_reg 12 (word m (p + 16))
    (set_reg 3 (word m (p + 12)) (set_reg 2 (word m (p + 8)) (set_reg 1 (word m (p + 4)) (set_reg 0 (word m p) e)))))).

Definition exit_env (p : Z) (e : CPUARMState) : CPUARMState :=
  let xpsr := word m (p + 28) in
  let e := xpsr_write xpsr 0xfffffdff (set_reg 13 (p + 32) (restored p e)) in
  if cbool (xpsr .& 0x200) then set_reg 13 (reg e 13 .| 4) e else e.

Lemma pops_run e p :
  length (regs e) = 16%nat -> 0 <= p < 2 ^ 32 - 32 ->
  (pop_reg 0 ;; pop_reg 1 ;; pop_reg 2 ;; pop_reg 3 ;; pop_reg 12 ;; pop_reg 14 ;;
   pc ← v7m_pop;
   modify_env (set_reg 15 (pc .& 0xfffffffe)) ;;
   xpsr ← v7m_pop;
   modify_env (xpsr_write xpsr 0xfffffdff) ;;
   when (cbool (xpsr .& 0x200)) (modify_env (λ e, set_reg 13 (reg e 13 .| 4) e)))
    (mkCpu (set_reg 13 p e) q n m) = Done () (mkCpu (exit_env p e) q n m) [].
Proof.
  intros Hlen Hp.
  do 6 (erewrite bind_Done; [| apply pop_reg_run; (lia || by rewrite ?regs_set_length)]).
  erewrite bind_Done; [| apply pop_run; (lia || by rewrite ?regs_set_length)].
  unfold modify_env. rewrite bind_modify. cbn [env set_field ARMCPU_settable interrupt_request nvic mem].
  rewrite set_reg_comm by lia.
  erewrite bind_Done; [| apply pop_run; (lia || by rewrite ?regs_set_length)].
  unfold modify_env. rewrite bind_modify. cbn [env set_field ARMCPU_settable interrupt_request nvic mem].
  replace (p + 4 + 4) with (p + 8) by lia. replace (p + 8 + 4) with (p + 12) by lia.
  replace (p + 12 + 4) with (p + 16) by lia. replace (p + 16 + 4) with (p + 20) by lia.
  replace (p + 20 + 4) with (p + 24) by lia. replace (p + 24 + 4) with (p + 28) by lia.
  replace (p + 28 + 4) with (p + 32) by lia. unfold exit_env. cbv zeta. fold (restored p e).
  by destruct (cbool (word m (p + 28) .& 0x200)).
Qed.

End Pops.

(** ** An exception and its return *)

(** The value that the entry leaves in the link register. *)
Definition exc_return (e : CPUARMState) : Z :=
  let lr := if cbool (current_sp e) then 0xfffffff1 .| 4 else 0xfffffff1 in
  if exception e =? 0 then lr .| 8 else lr.

Lemma exc_return_stack e : Z.testbit (exc_return e) 2 = cbool (current_sp e).
Proof. unfold exc_return. by destruct (cbool (current_sp e)), (exception e =? 0). Qed.

(** What a handler leaves alone: both stack pointers are back where they were
    at its start, its frame is intact, and it jumps to the value it found in the
    link register (the jump clears bit 0). *)
Record returns (p : Z) (s1 s2 : ARMCPU (gmap Z Z)) : Prop := {
  v_ok : env_ok (env s2);
  v_sp : reg (env s2) 13 = reg (env s1) 13;
  v_other : other_sp (env s2) = other_sp (env s1);
  v_current : current_sp (env s2) = current_sp (env s1);
  v_exception : exception (env s2) = exception (env s1);
  v_pc : reg (env s2) 15 .& 0xfffffffe = reg (env s1) 14 .& 0xfffffffe;
  v_frame : forall x, p <= x < p + 32 -> mem s2 !! x = mem s1 !! x
}.

(** The switch to the main stack at the entry. *)
Lemma switch_entry e p :
  length (regs e) = 16%nat ->
  let e0 := switch_v7m_sp 0 (set_reg 13 p e) in
  length (regs e0) = 16%nat /\ current_sp e0 = 0 /\ exception e0 = exception e /\
  (if cbool (current_sp e) then other_sp e0 = p /\ reg e0 13 = other_sp e else other_sp e0 = other_sp e /\ reg e0 13 = p) /\
  forall i, 0 <= i -> i <> 13 -> reg e0 i = reg e i.
Proof.
  intros Hlen. cbv zeta. unfold switch_v7m_sp, cbool. change (current_sp (set_reg 13 p e)) with (current_sp e).
  assert (Hl1 : length (regs (set_reg 13 p e)) = 16%nat) by by rewrite regs_set_length.
  destruct (Z.eqb_spec (current_sp e) 0) as [Hc | Hc]; cbn [negb]; cbv iota zeta.
  - split; [done |]. split; [done |]. split; [done |]. rewrite reg_set by (done || lia). split; [done |].
    intros i Hi Hne. by rewrite reg_set, (proj2 (Z.eqb_neq i 13)) by (done || lia).
  - rewrite reg_set by (done || lia). change (13 =? 13) with true. cbv iota.
    set (e1 := set_reg 13 p e <| other_sp := p |>).
    change (reg (set_reg 13 (other_sp (set_reg 13 p e)) e1 <| current_sp := 0 |>)) with (reg (set_reg 13 (other_sp e) e1)).
    split; [cbn; unfold upd; by rewrite !length_insert |]. split; [done |]. split; [done |].
    rewrite reg_set by (done || lia). split; [done |].
    intros i Hi Hne. rewrite reg_set, (proj2 (Z.eqb_neq i 13)) by (done || lia).
    change (reg e1 i) with (reg (set_reg 13 p e) i). by rewrite reg_set, (proj2 (Z.eqb_neq i 13)) by (done || lia).
Qed.

Lemma entry_env_fields e lr addr :
  length (regs e) = 16%nat -> 0 <= current_sp e < 2 ->
  let e1 := entry_env e lr addr in
  let p := aligned e - 32 in
  reg e1 14 = lr /\ reg e1 15 = addr .& 0xfffffffe /\ thumb e1 = addr .& 1 /\ current_sp e1 = 0 /\
  exception e1 = exception e /\ condexec_bits e1 = 0 /\
  (if cbool (current_sp e) then other_sp e1 = p /\ reg e1 13 = other_sp e else other_sp e1 = other_sp e /\ reg e1 13 = p) /\
  forall i, 0 <= i < 13 -> reg e1 i = reg e i.
Proof.
  intros Hlen Hc. cbv zeta. unfold entry_env. set (p := aligned e - 32).
  destruct (switch_entry e p Hlen) as (Hl0 & Hcur & Hexc & Hsp & Hregs).
  set (e0 := switch_v7m_sp 0 (set_reg 13 p e)) in *. set (e1 := e0 <| condexec_bits := 0 |>).
  assert (Hl2 : length (regs (set_reg 14 lr e1)) = 16%nat) by by rewrite regs_set_length.
  change (reg (set_reg 15 (addr .& 0xfffffffe) (set_reg 14 lr e1) <| thumb := addr .& 1 |>))
    with (reg (set_reg 15 (addr .& 0xfffffffe) (set_reg 14 lr e1))).
  assert (Hr : forall i, 0 <= i -> reg (set_reg 15 (addr .& 0xfffffffe) (set_reg 14 lr e1)) i =
                 if i =? 15 then addr .& 0xfffffffe else if i =? 14 then lr else reg e0 i).
  { intros i Hi. by rewrite !reg_set by (done || lia). }
  rewrite !Hr by lia. split; [done |]. split; [done |]. split; [done |]. split; [exact Hcur |].
  split; [exact Hexc |]. split; [done |]. split; [exact Hsp |]. intros i Hi.
  rewrite Hr, (proj2 (Z.eqb_neq i 15)), (proj2 (Z.eqb_neq i 14)) by lia. apply Hregs; lia.
Qed.

(** The switch back at the exit. *)
Lemma switch_exit e e2 p :
  length (regs e2) = 16%nat -> 0 <= current_sp e < 2 -> current_sp e2 = 0 ->
  (if cbool (current_sp e) then other_sp e2 = p /\ reg e2 13 = other_sp e else other_sp e2 = other_sp e /\ reg e2 13 = p) ->
  switch_v7m_sp (b2z (cbool (current_sp e))) e2 =
    set_reg 13 p (e2 <| other_sp := other_sp e |> <| current_sp := current_sp e |>).
Proof.
  intros Hlen Hc Hcur Hsp. unfold switch_v7m_sp. rewrite Hcur.
  assert (Hcc : current_sp e = 0 \/ current_sp e = 1) by lia.
  destruct Hcc as [Hcc | Hcc]; rewrite Hcc in *; cbn in Hsp |- *; destruct Hsp as [Ho H13].
  - assert (He : e2 <| other_sp := other_sp e |> <| current_sp := 0 |> = e2) by (destruct e2; cbn in *; by subst).
    by rewrite He, <- H13, set_reg_same by (done || lia).
  - rewrite H13, Ho. done.
Qed.

Lemma xpsr_exception e : env_ok e -> xpsr_read e .& 0x1ff = exception e.
Proof.
  intros He. apply (bits_eq_upto 9); [lia | by apply (land_bound 9) | apply He |]. intros i Hi.
  destruct He as [_ _ HC HQ HT HIT HX _ _]. unfold xpsr_read.
  rewrite (as_b2z _ HC), (as_b2z _ HQ), (as_b2z _ HT). rewrite (u32_small (exception e)) by lia.
  unfold u32. zbit_simp. rewrite !testbit_b2z_any.
  enum_upto i 9; zcase; cbn [andb orb]; const_bits; cbn [andb orb]; by rewrite ?andb_false_r, ?andb_true_r.
Qed.

(** Aligning the stack pointer is undone. *)
Lemma unalign e : 0 <= reg e 13 < 2 ^ 32 -> (if unaligned e then aligned e .| 4 else aligned e) = reg e 13.
Proof.
  intros Hr. unfold aligned. destruct (unaligned e) eqn:Hu; [| done]. unfold unaligned in Hu.
  change 4 with (BIT 2) in Hu. rewrite cbool_BIT in Hu by lia. change 4 with (BIT 2) at 2.
  replace (reg e 13 - 4) with (Z.ldiff (reg e 13) (BIT 2)).
  - apply Z.bits_inj'. intros i Hi. rewrite Z.lor_spec, Z.ldiff_spec, testbit_BIT by lia.
    destruct (Z.eqb_spec 2 i) as [<- |]; [by rewrite Hu | by rewrite andb_true_r, orb_false_r].
  - symmetry. apply Z.sub_nocarry_ldiff. apply Z.bits_inj'. intros i Hi.
    rewrite Z.ldiff_spec, testbit_BIT, Z.testbit_0_l by lia. destruct (Z.eqb_spec 2 i) as [<- |]; [by rewrite Hu | done].
Qed.

(** Bit 9 of the saved register tells whether the pointer was aligned. *)
Lemma saved_flag e : env_ok e -> cbool (saved_xpsr e (xpsr_read e) .& 0x200) = unaligned e.
Proof.
  intros He. change 0x200 with (BIT 9). rewrite cbool_BIT by lia. unfold saved_xpsr.
  pose proof (xpsr_bits e 9 He ltac:(lia) eq_refl) as H9.
  destruct (unaligned e); [| done]. by rewrite Z.lor_spec, H9.
Qed.

(** The frame of [e] lies at [p]. *)
Definition frame_at (e : CPUARMState) (m : gmap Z Z) (p : Z) : Prop :=
  word m p = reg e 0 /\ word m (p + 4) = reg e 1 /\ word m (p + 8) = reg e 2 /\ word m (p + 12) = reg e 3 /\
  word m (p + 16) = reg e 12 /\ word m (p + 20) = reg e 14 /\ word m (p + 24) = reg e 15 /\
  word m (p + 28) = saved_xpsr e (xpsr_read e).

Lemma entry_frame e m m' :
  env_ok e -> let p := aligned e - 32 in
  (forall x, p <= x < p + 32 -> m' !! x = entry_mem e (xpsr_read e) m !! x) -> frame_at e m' p.
Proof.
  intros He p Hm. pose proof (xpsr_range e He) as Hx.
  assert (Hword : forall j v k, frame e (saved_xpsr e (xpsr_read e)) !! j = Some v -> 0 <= v < 2 ^ 32 ->
            k = 28 - 4 * Z.of_nat j -> 0 <= k -> word m' (p + k) = v).
  { intros j v k Hj Hv -> Hk. pose proof (pushed_word _ m (aligned e) j v Hj) as Hw. rewrite u32_small in Hw by done.
    rewrite <- Hw. replace (aligned e - 4 * (Z.of_nat j + 1)) with (p + (28 - 4 * Z.of_nat j)) by (unfold p; lia).
    apply ldl_ext. intros i Hi. apply Hm. lia. }
  pose proof (reg_range e) as Hr. unfold frame_at. rewrite <- (Z.add_0_r p) at 1.
  split; [by apply (Hword 7%nat); auto; lia |]. split; [by apply (Hword 6%nat); auto; lia |].
  split; [by apply (Hword 5%nat); auto; lia |]. split; [by apply (Hword 4%nat); auto; lia |].
  split; [by apply (Hword 3%nat); auto; lia |]. split; [by apply (Hword 2%nat); auto; lia |].
  split; [by apply (Hword 1%nat); auto; lia |]. apply (Hword 0%nat); [done | | lia | lia].
  unfold saved_xpsr. destruct (unaligned e); [apply (lor_bound 32); lia | done].
Qed.

Lemma even_pc x : 0 <= x < 2 ^ 32 -> Z.testbit x 0 = false -> x .& 0xfffffffe = x.
Proof.
  intros Hx H0. apply Z.bits_inj'. intros i Hi. change 0xfffffffe with (Z.ldiff (Z.ones 32) (BIT 0)).
  rewrite Z.land_spec, Z.ldiff_spec, testbit_ones, testbit_BIT by lia. destruct (Z.eqb_spec 0 i) as [<- |].
  - by rewrite H0.
  - destruct (Z.ltb_spec i 32); [apply andb_true_r | by rewrite (testbit_high 32 x) by lia].
Qed.

Lemma xpsr_keeps v e :
  let e' := xpsr_write v 0xfffffdff e in
  (forall i, reg e' i = reg e i) /\ other_sp e' = other_sp e /\ current_sp e' = current_sp e.
Proof. cbv zeta. by rewrite xpsr_write_all. Qed.

(** The registers that the frame holds. *)
Definition saved_regs : list Z := [0; 1; 2; 3; 12; 13; 14; 15].

(** The stack pointer after the alignment is undone. *)
Lemma exit_sp e E1 E2 :
  env_ok e -> env_ok E1 -> env_ok E2 -> (forall i, reg E2 i = reg (set_reg 13 (aligned e) E1) i) ->
  let e3 := if unaligned e then set_reg 13 (reg E2 13 .| 4) E2 else E2 in
  e3 = set_reg 13 (reg e 13) E2 /\ env_ok e3 /\
  forall i, 0 <= i < 16 -> reg e3 i = if i =? 13 then reg e 13 else reg E1 i.
Proof.
  intros He HE1 HE2 Hkeep. cbv zeta. pose proof (reg_range e 13 He) as Hr.
  assert (H2 : reg E2 13 = aligned e) by (rewrite Hkeep; by rewrite reg_set by (apply HE1 || lia)).
  assert (Hfix : (if unaligned e then set_reg 13 (reg E2 13 .| 4) E2 else E2) = set_reg 13 (reg e 13) E2).
  { rewrite H2, <- (unalign e Hr). destruct (unaligned e); [done |].
    rewrite <- H2 at 1. by rewrite set_reg_same by (apply HE2 || lia). }
  rewrite Hfix. split; [done |]. split; [by apply env_ok_set |].
  intros i Hi. rewrite reg_set by (apply HE2 || lia). destruct (Z.eqb_spec i 13) as [| Hne]; [done |].
  by rewrite Hkeep, reg_set, (proj2 (Z.eqb_neq i 13)) by (apply HE1 || lia).
Qed.

(** The registers loaded from the frame of [e]. *)
Definition reloaded (e E : CPUARMState) : CPUARMState :=
  set_reg 15 (reg e 15) (set_reg 14 (reg e 14) (set_reg 12 (reg e 12) (set_reg 3 (reg e 3)
    (set_reg 2 (reg e 2) (set_reg 1 (reg e 1) (set_reg 0 (reg e 0) E)))))).

Lemma reloaded_ok e E :
  env_ok e -> env_ok E -> env_ok (reloaded e E) /\
  (forall i, i ∈ saved_regs -> i <> 13 -> reg (reloaded e E) i = reg e i) /\
  (forall i, 4 <= i < 12 -> reg (reloaded e E) i = reg E i).
Proof.
  intros He HE. pose proof (reg_range e) as Hr. split; [unfold reloaded; repeat apply env_ok_set; auto |].
  assert (Hreg : forall i, 0 <= i -> reg (reloaded e E) i =
            if (i <? 4) || (i =? 12) || (i =? 14) || (i =? 15) then reg e i else reg E i).
  { intros i Hi. unfold reloaded. rewrite !reg_set by (rewrite ?regs_set_length; done || lia || apply HE).
    do 7 (match goal with |- context [i =? ?k] => destruct (Z.eqb_spec i k) as [-> |]; [done |] end).
    by rewrite (proj2 (Z.ltb_ge i 4)) by lia. }
  split.
  - intros i Hi Hne. unfold saved_regs in Hi. rewrite !elem_of_cons, elem_of_nil in Hi.
    destruct Hi as [-> | [-> | [-> | [-> | [-> | [-> | [-> | [-> | []]]]]]]]]; by rewrite Hreg by lia.
  - intros i Hi. rewrite Hreg by lia.
    rewrite (proj2 (Z.ltb_ge i 4)), (proj2 (Z.eqb_neq i 12)), (proj2 (Z.eqb_neq i 14)), (proj2 (Z.eqb_neq i 15)) by lia. done.
Qed.

Lemma exit_env_fields e E m :
  env_ok e -> env_ok E -> frame_at e m (aligned e - 32) -> Z.testbit (reg e 15) 0 = false -> 0 <= aligned e < 2 ^ 32 ->
  let e3 := exit_env m (aligned e - 32) E in
  env_ok e3 /\ (forall i, i ∈ saved_regs -> reg e3 i = reg e i) /\ (forall i, 4 <= i < 12 -> reg e3 i = reg E i) /\
  xpsr_read e3 = xpsr_read e /\ exception e3 = exception e /\ other_sp e3 = other_sp E /\ current_sp e3 = current_sp E.
Proof.
  intros He HE (F0 & F1 & F2 & F3 & F12 & F14 & F15 & Fx) Hpc Hal. cbv zeta. unfold exit_env, restored. cbv zeta.
  rewrite F0, F1, F2, F3, F12, F14, F15, Fx, even_pc, saved_flag by (done || by apply reg_range).
  replace (aligned e - 32 + 32) with (aligned e) by lia. fold (reloaded e E).
  pose proof (xpsr_range e He) as Hx.
  assert (Hsx : 0 <= saved_xpsr e (xpsr_read e) < 2 ^ 32).
  { unfold saved_xpsr. destruct (unaligned e); [apply (lor_bound 32); lia | done]. }
  destruct (reloaded_ok e E He HE) as (HE1 & Hsaved & Hkept). set (E0 := set_reg 13 (aligned e) (reloaded e E)).
  assert (HE0 : env_ok E0) by by apply env_ok_set.
  destruct (xpsr_keeps (saved_xpsr e (xpsr_read e)) E0) as (Hkeep & Hother & Hcur).
  pose proof (xpsr_restored e E0 (unaligned e) He) as Hxp. fold (saved_xpsr e (xpsr_read e)) in Hxp.
  pose proof (env_ok_xpsr _ E0 HE0 Hsx) as HE2.
  revert Hkeep Hother Hcur Hxp HE2. generalize (xpsr_write (saved_xpsr e (xpsr_read e)) 0xfffffdff E0).
  intros E2 Hkeep Hother Hcur Hxp HE2.
  destruct (exit_sp e _ E2 He HE1 HE2 Hkeep) as (Hfix & Hok & Hall). rewrite Hfix in *. split; [done |].
  split; [| split; [| split; [| split; [| split]]]].
  - intros i Hi. destruct (decide (i = 13)) as [-> | Hne]; [by rewrite Hall by lia |].
    assert (Hr : 0 <= i < 16) by (unfold saved_regs in Hi; set_solver by lia).
    rewrite Hall, (proj2 (Z.eqb_neq i 13)) by done. by apply Hsaved.
  - intros i Hi. rewrite Hall, (proj2 (Z.eqb_neq i 13)) by lia. by apply Hkept.
  - exact Hxp.
  - rewrite <- (xpsr_exception e He), <- Hxp. symmetry. apply (xpsr_exception E2 HE2).
  - exact Hother.
  - exact Hcur.
Qed.

Section Exceptions.
  Context (semihosting : option (M dev_event (ARMCPU (gmap Z Z)) Z)).

(** The case of [arm_v7m_cpu_do_interrupt] for the exception [x]. *)
Ltac pick_exception x :=
  repeat match goal with
    | |- context [x =? ?y] => let r := eval vm_compute in (x =? y) in change (x =? y) with r
    end; cbv iota zeta; cbn [orb].

(** The state in which the handler of [number] starts. *)
Definition handler_start (s : ARMCPU (gmap Z Z)) (number : Z) (q : Z) (n : nvic_state) : ARMCPU (gmap Z Z) :=
  let m := entry_mem (env s) (xpsr_read (env s)) (mem s) in
  let addr := word m (u32 (vecbase (nvic s) + number * 4)) in
  mkCpu (entry_env (env s <| exception := number |>) (exc_return (env s)) addr) q n m.

Lemma irq_run s a :
  env_ok (env s) -> 36 <= reg (env s) 13 -> cpu_ok s a -> spec_line a = true ->
  exists q n t, arm_v7m_cpu_do_interrupt semihosting EXCP_IRQ s =
      Done () (handler_start s (vector (snd (spec_best a))) q n) t /\
    cpu_ok (handler_start s (vector (snd (spec_best a))) q n) (snd (spec_ack a)).
Proof.
  intros He Hsp Hok Hl. pose proof (reg_range _ 13 He) as Hr. set (number := vector (snd (spec_best a))).
  destruct (on_nvic_ok _ s a _ _ (ack_performs (nvic s) a (proj1 (proj1 Hok)) Hl) Hok (spec_ack_en a))
    as (n & q & t & Hack & Hok' & Hvec). fold number in Hack. exists q, n, t. split; [| exact Hok'].
  unfold arm_v7m_cpu_do_interrupt. rewrite bind_get.
  pick_exception EXCP_IRQ.
  rewrite <- (app_nil_r t). eapply bind_Done_trace; [exact Hack |].
  unfold modify_env. rewrite bind_modify.
  set (s1 := s <| nvic := n |> <| interrupt_request := q |>
               <| env := env (s <| nvic := n |> <| interrupt_request := q |>) <| exception := number |> |>).
  fold (exc_return (env s)).
  rewrite (entry_run s1 (xpsr_read (env s)) (exc_return (env s))); [| apply He | exact (conj Hsp (proj2 Hr))].
  unfold handler_start. rewrite <- Hvec. done.
Qed.

Lemma exit_run s2 a2 irq E p :
  env_ok (env s2) -> cpu_ok s2 a2 -> 0 <= irq -> ~ 16 <= irq < 32 -> irq <> 0 -> exception (env s2) = vector irq ->
  switch_v7m_sp (b2z (cbool (reg (env s2) 15 .& 4))) (env s2) = set_reg 13 p E -> length (regs E) = 16%nat ->
  0 <= p < 2 ^ 32 - 32 ->
  exists q n t, arm_v7m_cpu_do_interrupt semihosting EXCP_EXCEPTION_EXIT s2 =
      Done () (mkCpu (exit_env (mem s2) p E) q n (mem s2)) t /\
    cpu_ok (mkCpu (exit_env (mem s2) p E) q n (mem s2)) (spec_complete irq a2).
Proof.
  intros He Hok Hi Hu H0 Hexc Hsw Hlen Hp.
  destruct (on_nvic_ok _ s2 a2 _ _ (complete_performs (nvic s2) a2 irq (proj1 (proj1 Hok)) Hi Hu) Hok (spec_complete_en irq a2))
    as (n & q & t & Hcomp & Hok' & _). exists q, n, t. split; [| exact Hok'].
  unfold arm_v7m_cpu_do_interrupt. rewrite bind_get. pick_exception EXCP_EXCEPTION_EXIT.
  unfold do_v7m_exception_exit. rewrite bind_get, Hexc.
  assert (Hn0 : vector irq <> 0) by (unfold vector; destruct (Z.leb_spec 32 irq); lia).
  rewrite (proj2 (Z.eqb_neq _ _) Hn0). cbn [negb when]. rewrite <- (app_nil_r t).
  eapply bind_Done_trace; [exact Hcomp |]. erewrite bind_Done by reflexivity.
  change (env (s2 <| nvic := n |> <| interrupt_request := q |>)) with (env s2). rewrite Hsw.
  exact (pops_run q n (mem s2) E p Hlen Hp).
Qed.

(** What the return from an exception gives back to the interrupted code: the
    registers of the frame with the stack pointer and the program counter, the
    flags, the stack in use and the other stack pointer; the registers that the
    frame does not hold are those of the handler. *)
Record resumed (e e2 e3 : CPUARMState) : Prop := {
  d_ok : env_ok e3;
  d_saved : forall i, i ∈ saved_regs -> reg e3 i = reg e i;
  d_kept : forall i, 4 <= i < 12 -> reg e3 i = reg e2 i;
  d_xpsr : xpsr_read e3 = xpsr_read e;
  d_exception : exception e3 = exception e;
  d_other : other_sp e3 = other_sp e;
  d_current : current_sp e3 = current_sp e
}.

(** The interrupt check takes a pending interrupt. *)
Lemma exec_irq s a :
  cpu_ok s a -> spec_line a = true -> reg (env s) 15 < 0xfffffff0 ->
  cpu_exec_interrupts semihosting s = arm_v7m_cpu_do_interrupt semihosting EXCP_IRQ s.
Proof.
  intros (_ & Hh & Hf) Hl Hpc. unfold cpu_exec_interrupts. rewrite bind_get.
  change CPU_INTERRUPT_FIQ with (BIT 4). change CPU_INTERRUPT_HARD with (BIT 1). rewrite !cbool_BIT by lia.
  fold (hard s) (fiq s). rewrite Hf, Hh, Hl. cbn [andb when].
  rewrite (bind_Done (mret ()) _ s () s eq_refl), bind_get. rewrite (proj2 (Z.ltb_lt _ _) Hpc). done.
Qed.

Lemma handler_exception s number q n : env_ok (env s) -> exception (env (handler_start s number q n)) = number.
Proof.
  intros He. set (e' := env s <| exception := number |>).
  assert (Hlen : length (regs e') = 16%nat) by exact (e_regs _ He).
  assert (Hc : 0 <= current_sp e' < 2) by exact (e_cur _ He).
  destruct (entry_env_fields e' (exc_return (env s)) (word (entry_mem (env s) (xpsr_read (env s)) (mem s))
    (u32 (vecbase (nvic s) + number * 4))) Hlen Hc) as (_ & _ & _ & _ & Hexc & _). exact Hexc.
Qed.

(** The return of a handler that was entered from [s]. *)
Lemma handler_return s irq q n s2 a2 :
  env_ok (env s) -> 36 <= reg (env s) 13 -> Z.testbit (reg (env s) 15) 0 = false ->
  0 <= irq -> ~ 16 <= irq < 32 -> irq <> 0 ->
  returns (aligned (env s) - 32) (handler_start s (vector irq) q n) s2 -> cpu_ok s2 a2 ->
  exists s3 t3, arm_v7m_cpu_do_interrupt semihosting EXCP_EXCEPTION_EXIT s2 = Done () s3 t3 /\
    cpu_ok s3 (spec_complete irq a2) /\ resumed (env s) (env s2) (env s3).
Proof.
  intros He Hsp Hpc Hi Hu H0 Hret Hok2. pose proof (reg_range _ 13 He) as Hr. set (e := env s) in *.
  assert (Hal : 32 <= aligned e < 2 ^ 32) by (unfold aligned; destruct (unaligned e); lia).
  set (e' := e <| exception := vector irq |>).
  assert (Hlen : length (regs e') = 16%nat) by exact (e_regs e He).
  assert (Hc' : 0 <= current_sp e' < 2) by exact (e_cur e He).
  destruct (entry_env_fields e' (exc_return e)
    (word (entry_mem e (xpsr_read e) (mem s)) (u32 (vecbase (nvic s) + vector irq * 4))) Hlen Hc')
    as (Hlr & _ & _ & Hcur & Hexc & _ & Hstack & _).
  destruct Hret as [V1 V2 V3 V4 V5 V6 V7].
  assert (Htype : cbool (reg (env s2) 15 .& 4) = cbool (current_sp e)).
  { change 4 with (BIT 2). rewrite cbool_BIT, <- exc_return_stack by lia.
    apply (f_equal (λ x, Z.testbit x 2)) in V6. rewrite !Z.land_spec in V6.
    change (Z.testbit 0xfffffffe 2) with true in V6. rewrite !andb_true_r in V6. rewrite V6. by f_equal. }
  set (E := env s2 <| other_sp := other_sp e |> <| current_sp := current_sp e |>).
  assert (HE : env_ok E) by (destruct V1, He; by constructor).
  destruct (exit_run s2 a2 irq E (aligned e - 32)) as (q3 & n3 & t3 & Hrun & Hok3);
    try done; [by rewrite V5 | | apply HE | lia |].
  - rewrite Htype. apply switch_exit; [apply V1 | apply He | by rewrite V4 |].
    change (current_sp e') with (current_sp e) in Hstack.
    destruct (cbool (current_sp e)); (split; [rewrite V3 | rewrite V2]; apply Hstack).
  - eexists _, t3. split; [exact Hrun |]. split; [exact Hok3 |].
    assert (Hframe : frame_at e (mem s2) (aligned e - 32)) by (apply (entry_frame e (mem s)); [done | exact V7]).
    destruct (exit_env_fields e E (mem s2) He HE Hframe Hpc ltac:(lia)) as (K1 & K2 & K3 & K4 & K5 & K6 & K7).
    by constructor.
Qed.

Lemma entry_env_ok e lr addr :
  env_ok e -> 0 <= lr < 2 ^ 32 -> 32 <= aligned e < 2 ^ 32 -> env_ok (entry_env e lr addr).
Proof.
  intros He Hlr Hal. unfold entry_env. set (e0 := switch_v7m_sp 0 (set_reg 13 (aligned e - 32) e)).
  assert (H0 : env_ok e0) by (apply env_ok_switch; [apply env_ok_set; [done | lia] | lia]).
  assert (H1 : env_ok (e0 <| condexec_bits := 0 |>)) by (destruct H0; by constructor).
  pose proof (env_ok_set 14 lr _ H1 Hlr) as H2.
  pose proof (env_ok_set 15 (addr .& 0xfffffffe) _ H2 (land_bound 32 addr 0xfffffffe ltac:(lia) ltac:(lia))) as H3.
  pose proof (land_bound 1 addr 1 ltac:(lia) ltac:(lia)) as Ht. destruct H3. by constructor.
Qed.

Lemma exc_return_range e : 0 <= exc_return e < 2 ^ 32.
Proof. unfold exc_return. destruct (cbool (current_sp e)), (exception e =? 0); vm_compute; split; discriminate || reflexivity. Qed.

(** C2 (exception_roundtrip).  When the NVIC has an interrupt to deliver, the processor enters the
    handler of its vector on the main stack, with the interrupted registers in
    a frame below the aligned stack pointer and the rest of the memory
    untouched.  Whatever the handler does, nested exceptions included, if it
    leaves the stack pointers and its frame as it found them and jumps to the
    value in the link register, its return completes the interrupt and gives
    the interrupted code its registers, flags and stack back. *)
Theorem exception_roundtrip s a :
  env_ok (env s) -> cpu_ok s a -> spec_line a = true -> snd (spec_best a) <> 0 -> g_num a <= 512 ->
  36 <= reg (env s) 13 -> reg (env s) 15 < 0xfffffff0 -> Z.testbit (reg (env s) 15) 0 = false ->
  let irq := snd (spec_best a) in
  let p := aligned (env s) - 32 in
  exists s1 t1, cpu_exec_interrupts semihosting s = Done () s1 t1 /\ env_ok (env s1) /\ cpu_ok s1 (snd (spec_ack a)) /\
    exception (env s1) = vector irq /\ current_sp (env s1) = 0 /\
    reg (env s1) 15 = word (mem s1) (u32 (vecbase (nvic s) + vector irq * 4)) .& 0xfffffffe /\
    (forall x, ~ p <= x < p + 32 -> mem s1 !! x = mem s !! x) /\
    forall s2 a2, returns p s1 s2 -> cpu_ok s2 a2 ->
      exists s3 t3, arm_v7m_cpu_do_interrupt semihosting EXCP_EXCEPTION_EXIT s2 = Done () s3 t3 /\
        cpu_ok s3 (spec_complete irq a2) /\ resumed (env s) (env s2) (env s3).
Proof.
  intros He Hok Hl H0 Hnum Hsp Hpc Heven irq p. destruct (best_used _ a (proj1 Hok) Hl) as [Hi Hu].
  pose proof (reg_range _ 13 He) as Hr.
  assert (Hal : 32 <= aligned (env s) < 2 ^ 32) by (unfold aligned; destruct (unaligned (env s)); lia).
  destruct (irq_run s a He Hsp Hok Hl) as (q & n & t & Hrun & Hok1). fold irq in Hrun, Hok1.
  set (e' := env s <| exception := vector irq |>).
  assert (He' : env_ok e').
  { assert (0 <= vector irq < 2 ^ 9) by (unfold vector, irq; destruct (Z.leb_spec 32 (snd (spec_best a))); lia).
    destruct He. by constructor. }
  exists (handler_start s (vector irq) q n), t. rewrite (exec_irq s a Hok Hl Hpc). split; [exact Hrun |].
  destruct (entry_env_fields e' (exc_return (env s)) (word (entry_mem (env s) (xpsr_read (env s)) (mem s))
    (u32 (vecbase (nvic s) + vector irq * 4))) (e_regs _ He') (e_cur _ He')) as (_ & H15 & _ & Hcur & Hexc & _ & _ & _).
  split; [by apply entry_env_ok; [| apply exc_return_range |] |]. split; [exact Hok1 |]. split; [exact Hexc |].
  split; [exact Hcur |]. split; [exact H15 |]. split.
  - intros x Hx. apply pushed_outside. cbn [length frame]. unfold p in Hx. lia.
  - intros s2 a2 Hret Hok2. by apply (handler_return s irq q n); try lia.
Qed.

(** The exception that a fault of the processor makes pending (without
    semihosting). *)
Definition fault_exception (index : Z) : option Z :=
  if index =? EXCP_UDEF then Some ARMV7M_EXCP_USAGE
  else if index =? EXCP_SWI then Some ARMV7M_EXCP_SVC
  else if (index =? EXCP_PREFETCH_ABORT) || (index =? EXCP_DATA_ABORT) then Some ARMV7M_EXCP_MEM
  else if index =? EXCP_BKPT then Some ARMV7M_EXCP_DEBUG
  else None.

Lemma pend_ok (s : ARMCPU (gmap Z Z)) a number :
  cpu_ok s a -> 0 <= number < 16 ->
  exists s' t, on_nvic (armv7m_nvic_set_pending number) s = Done () s' t /\ cpu_ok s' (spec_set_pending number a) /\
    env s' = env s /\ mem s' = mem s.
Proof.
  intros Hok Hn. pose proof (w_num _ (r_wf _ _ (proj1 (proj1 (proj1 Hok))))) as Hnum.
  assert (Hp : nperforms (armv7m_nvic_set_pending number) (nvic s) a () (spec_set_pending number a)).
  { unfold armv7m_nvic_set_pending. rewrite (proj2 (Z.leb_gt 16 number)) by lia.
    apply on_gic_performs, set_pending_private_ok; [apply Hok | lia]. }
  destruct (on_nvic_ok _ s a _ _ Hp Hok eq_refl) as (n & q & t & Hrun & Hok' & _). eexists _, t. split; [exact Hrun |].
  split; [exact Hok' |]. done.
Qed.

(** C40 (faults_pend).  An undefined instruction, a supervisor call, an abort or, with
    semihosting off, a breakpoint (with semihosting on, BKPT 0xab is served as a call instead)
    does not enter a handler at once: it makes its exception pending in the
    NVIC, from where it is taken by priority, and changes neither registers nor
    memory; an exception that the core does not know stops the emulator, with semihosting on
    or off. *)
Theorem faults_pend s a index :
  (index = EXCP_BKPT -> semihosting = None) -> cpu_ok s a -> index <> EXCP_IRQ -> index <> EXCP_EXCEPTION_EXIT ->
  match fault_exception index with
  | Some number => exists s' t, arm_v7m_cpu_do_interrupt semihosting index s = Done () s' t /\
      cpu_ok s' (spec_set_pending number a) /\ env s' = env s /\ mem s' = mem s
  | None => arm_v7m_cpu_do_interrupt semihosting index s = Halt HwError
  end.
Proof.
  intros Hsemi Hok H1 H2. unfold fault_exception, arm_v7m_cpu_do_interrupt. rewrite bind_get. cbv zeta.
  destruct (index =? EXCP_UDEF); [by apply (pend_ok s a 6) |]. destruct (index =? EXCP_SWI); [by apply (pend_ok s a 11) |].
  destruct ((index =? EXCP_PREFETCH_ABORT) || (index =? EXCP_DATA_ABORT)); [by apply (pend_ok s a 4) |].
  destruct (Z.eqb_spec index EXCP_BKPT) as [Hb |]; [rewrite (Hsemi Hb); by apply (pend_ok s a 12) |].
  by rewrite (proj2 (Z.eqb_neq _ _) H1), (proj2 (Z.eqb_neq _ _) H2).
Qed.

(** The masks of the processor are not consulted: neither PRIMASK nor BASEPRI
    keeps an interrupt from being taken. *)
Lemma masks_ignored s a r v e' t :
  cpu_ok s a -> spec_line a = true -> reg (env s) 15 < 0xfffffff0 -> r = 16 \/ r = 17 \/ r = 19 ->
  v7m_msr r v (env s) = Done () e' t ->
  let s' := s <| env := e' |> in
  cpu_exec_interrupts semihosting s' = arm_v7m_cpu_do_interrupt semihosting EXCP_IRQ s'.
Proof.
  intros Hok Hl Hpc Hr Hmsr. apply (exec_irq _ a); [exact Hok | done |].
  destruct Hr as [-> | [-> | ->]]; injection Hmsr as <- _; exact Hpc.
Qed.

(** At the magic address of an exception return an interrupt is taken as long
    as PRIMASK is clear. *)
Lemma magic_interrupted s a :
  cpu_ok s a -> spec_line a = true -> cbool (daif (env s) .& PSTATE_I) = false ->
  cpu_exec_interrupts semihosting s = arm_v7m_cpu_do_interrupt semihosting EXCP_IRQ s.
Proof.
  intros (_ & Hh & Hf) Hl Hi. unfold cpu_exec_interrupts. rewrite bind_get.
  change CPU_INTERRUPT_FIQ with (BIT 4). change CPU_INTERRUPT_HARD with (BIT 1). rewrite !cbool_BIT by lia.
  fold (hard s) (fiq s). rewrite Hf, Hh, Hl. cbn [andb when].
  rewrite (bind_Done (mret ()) _ s () s eq_refl), bind_get, Hi. cbn [negb]. by rewrite orb_true_r.
Qed.

End Exceptions.

(** ** Special registers *)

Definition msp (e : CPUARMState) : Z := if cbool (current_sp e) then other_sp e else reg e 13.
Definition psp (e : CPUARMState) : Z := if cbool (current_sp e) then reg e 13 else other_sp e.

(** The bits of [v] that register [r] keeps. *)
Definition readback (r v : Z) : Z :=
  if r =? 0 then v .& 0xf8000000
  else if (r =? 8) || (r =? 9) then v
  else if (r =? 16) || (r =? 19) then v .& 1
  else if r =? 17 then v .& 0xff
  else v .& 3.

Lemma switch_banks p e :
  env_ok e -> p = 0 \/ p = 1 ->
  let e' := switch_v7m_sp p e in msp e' = msp e /\ psp e' = psp e /\ current_sp e' = p /\ control e' = control e.
Proof.
  intros He Hp. cbv zeta. unfold switch_v7m_sp. pose proof (e_cur e He) as Hc.
  destruct (Z.eqb_spec (current_sp e) p) as [<- | Hne]; cbn [negb]; [done |]. cbv zeta iota.
  set (e1 := e <| other_sp := reg e 13 |>).
  assert (H13 : reg (set_reg 13 (other_sp e) e1) 13 = other_sp e) by by rewrite reg_set by (apply He || lia).
  unfold msp, psp. cbn [current_sp other_sp set_field CPUARMState_settable].
  change (reg (?x <| current_sp := p |>)) with (reg x). rewrite H13.
  assert (Hcc : current_sp e = 0 \/ current_sp e = 1) by lia.
  destruct Hcc as [Hcc | Hcc], Hp as [-> | ->]; try (by rewrite Hcc in Hne); by rewrite Hcc.
Qed.

Lemma apsr_readback v e :
  env_ok e -> xpsr_read (xpsr_write v 0xf8000000 e) .& 0xf8000000 = v .& 0xf8000000.
Proof.
  intros He.
  assert (Hw : xpsr_write v 0xf8000000 e =
            e <| ZF := not32 v .& CPSR_Z |> <| NF := v |> <| CF := (v >> 29) .& 1 |>
              <| VF := u32 (v << 3) .& 0x80000000 |> <| QF := b2z (cbool (v .& CPSR_Q)) |>) by reflexivity.
  rewrite Hw. destruct He as [_ _ _ _ HT _ HX _ _]. unfold xpsr_read.
  cbn [NF ZF CF VF QF thumb condexec_bits exception set_field CPUARMState_settable].
  change CPSR_Z with (BIT 30). rewrite eqb_land_BIT by lia. change CPSR_Q with (BIT 27).
  rewrite cbool_BIT, (as_b2z _ HT), (u32_small (exception e)) by lia.
  apply Z.bits_inj'. intros i Hi. unfold u32. zbit_simp. destruct (Z.ltb_spec i 32).
  - rewrite !testbit_b2z_any. enum_upto i 32; zcase; const_bits;
      rewrite ?andb_false_r, ?andb_true_r; cbn [andb orb]; try done;
      repeat rewrite Z.shiftr_spec by lia; zcase; rewrite ?andb_false_r, ?andb_true_r, ?orb_false_r; cbn [andb orb];
      rewrite ?(testbit_high 9 (exception e)) by lia; cbn [andb orb]; rewrite ?orb_false_r; try done.
  - rewrite (testbit_high 32 0xf8000000) by lia. by rewrite !andb_false_r.
Qed.

Lemma land_one v : v .& 1 = b2z (Z.testbit v 0).
Proof. rewrite <- (extract32_bit v 0) by lia. unfold extract32. by rewrite Z.shiftr_0_r. Qed.

(** A mask bit of [daif] reads back. *)
Lemma daif_readback d v b :
  0 <= b -> b2z (cbool ((if cbool (v .& 1) then d .| BIT b else d .& Z.lnot (BIT b)) .& BIT b)) = v .& 1.
Proof.
  intros Hb. rewrite cbool_BIT, land_one by lia. unfold cbool.
  destruct (Z.testbit v 0); cbn [b2z Z.eqb negb].
  - by rewrite Z.lor_spec, testbit_BIT, Z.eqb_refl, orb_true_r by lia.
  - by rewrite Z.land_spec, Z.lnot_spec, testbit_BIT, Z.eqb_refl, andb_false_r by lia.
Qed.

(** A special register (APSR, the two stack pointers, PRIMASK, BASEPRI,
    FAULTMASK, CONTROL) reads back the bits of the value written to it, and no
    write but that of a stack pointer itself changes what the guest reads as
    main and process stack pointer, although a write of CONTROL exchanges the
    register that holds them. *)
Theorem special_registers e r v :
  env_ok e -> 0 <= v < 2 ^ 32 -> r ∈ [0; 8; 9; 16; 17; 19; 20] ->
  exists e', v7m_msr r v e = Done () e' [] /\ v7m_mrs r e' = Done (readback r v) e' [] /\
    (r <> 8 -> v7m_mrs 8 e' = Done (msp e) e' []) /\ (r <> 9 -> v7m_mrs 9 e' = Done (psp e) e' []) /\
    (r = 20 -> reg e' 13 = if Z.testbit v 1 then psp e else msp e).
Proof.
  intros He Hv Hr. rewrite !elem_of_cons, elem_of_nil in Hr.
  assert (Hset : reg (set_reg 13 v e) 13 = v) by by rewrite reg_set by (apply He || lia).
  assert (Hmsp : forall x, v7m_mrs 8 x = Done (msp x) x []) by done.
  assert (Hpsp : forall x, v7m_mrs 9 x = Done (psp x) x []) by done.
  destruct Hr as [-> | [-> | [-> | [-> | [-> | [-> | [-> | []]]]]]]]; eexists; (split; [reflexivity |]);
    rewrite Hmsp, Hpsp.
  - split; [| done]. unfold v7m_mrs. rewrite bind_get. zcase. by rewrite apsr_readback.
  - unfold msp, psp. destruct (cbool (current_sp e)) eqn:Hc; (split; [| split; [done | split; [| done]]]).
    + unfold msp. cbn [current_sp other_sp set_field CPUARMState_settable]. by rewrite Hc.
    + cbn [current_sp other_sp set_field CPUARMState_settable]. by rewrite Hc.
    + unfold msp. change (current_sp (set_reg 13 v e)) with (current_sp e). by rewrite Hc, Hset.
    + change (current_sp (set_reg 13 v e)) with (current_sp e). by rewrite Hc.
  - unfold msp, psp. destruct (cbool (current_sp e)) eqn:Hc; (split; [| split; [| split; done]]).
    + unfold psp. change (current_sp (set_reg 13 v e)) with (current_sp e). by rewrite Hc, Hset.
    + change (current_sp (set_reg 13 v e)) with (current_sp e). by rewrite Hc.
    + unfold psp. cbn [current_sp other_sp set_field CPUARMState_settable]. by rewrite Hc.
    + cbn [current_sp other_sp set_field CPUARMState_settable]. by rewrite Hc.
  - split; [| done]. unfold v7m_mrs. rewrite bind_get. zcase. unfold mret, M_ret. f_equal.
    exact (daif_readback (daif e) v 7 ltac:(lia)).
  - done.
  - split; [| done]. unfold v7m_mrs. rewrite bind_get. zcase. unfold mret, M_ret. f_equal.
    exact (daif_readback (daif e) v 6 ltac:(lia)).
  - change 2 with (BIT 1). rewrite cbool_BIT by lia. set (e1 := e <| control := v .& 3 |>).
    assert (He1 : env_ok e1) by (destruct He; by constructor).
    destruct (switch_banks (b2z (Z.testbit v 1)) e1 He1) as (Hm & Hp & Hc & Hctl); [destruct (Z.testbit v 1); auto |].
    rewrite Hm, Hp. split; [| split; [done | split; [done |]]].
    + unfold v7m_mrs. rewrite bind_get. zcase. by rewrite Hctl.
    + intros _. change (msp e1) with (msp e) in Hm. change (psp e1) with (psp e) in Hp. unfold msp at 1 in Hm. unfold psp at 1 in Hp.
      rewrite Hc in Hm, Hp. by destruct (Z.testbit v 1).
Qed.

(** ** From reset *)

Lemma reset_env_ok rom : env_ok (arm_cpu_reset rom).
Proof.
  assert (H0 : forall t d, 0 <= t < 2 -> env_ok (mkEnv (replicate 16 0) 0 0 0 0 0 t 0 d 0 0 0 0 0)).
  { intros t d Ht. constructor; cbn; try done; try lia. repeat (constructor; [lia |]). constructor. }
  destruct rom as [[sp pc] |]; [| by apply H0]. unfold arm_cpu_reset. cbv zeta.
  apply env_ok_set; [| apply (land_bound 32); [lia | apply not32_range]].
  pose proof (land_bound 1 pc 1 ltac:(lia) ltac:(lia)) as Ht.
  match goal with |- env_ok (set_reg 13 ?v ?e <| thumb := ?x |>) => change (env_ok (set_reg 13 v (e <| thumb := x |>))) end.
  apply env_ok_set; [by apply H0 | apply (land_bound 32); lia].
Qed.

(** A processor after reset whose NVIC has an interrupt to deliver. *)
Definition demo_cpu : ARMCPU (gmap Z Z) :=
  mkCpu (arm_cpu_reset (Some (0x20005004, 0x08000101))) 2 (nvic_ready <| gic := demo_pending |>) ∅.

Definition demo_spec : gspec := snd (spec_gops demo_setup spec_start).

Lemma demo_cpu_ok : cpu_ok demo_cpu demo_spec.
Proof. split; [exact demo_nvic_ok |]. vm_compute. done. Qed.

(** The handler of the example: it only returns. *)
Definition return_now (s : ARMCPU (gmap Z Z)) : ARMCPU (gmap Z Z) :=
  mkCpu (set_reg 15 (reg (env s) 14) (env s)) (interrupt_request s) (nvic s) (mem s).

Lemma return_now_returns p s : env_ok (env s) -> returns p s (return_now s).
Proof.
  intros He. pose proof (reg_range (env s) 14 He) as Hr.
  constructor; try done; cbn [env return_now]; [by apply env_ok_set | |]; by rewrite reg_set by (apply He || lia).
Qed.

Lemma exception_roundtrip_witness :
  exists s1 t1 s3 t3, cpu_exec_interrupts None demo_cpu = Done () s1 t1 /\ exception (env s1) = 16 /\
    arm_v7m_cpu_do_interrupt None EXCP_EXCEPTION_EXIT (return_now s1) = Done () s3 t3 /\
    reg (env s3) 13 = 0x20005004 /\ reg (env s3) 15 = 0x08000100 /\ xpsr_read (env s3) = xpsr_read (env demo_cpu).
Proof.
  assert (H13 : 13 ∈ saved_regs) by (unfold saved_regs; set_solver).
  assert (H15 : 15 ∈ saved_regs) by (unfold saved_regs; set_solver).
  assert (Hb : snd (spec_best demo_spec) = 32) by (vm_compute; reflexivity).
  assert (Hl : spec_line demo_spec = true) by (vm_compute; reflexivity).
  assert (Hn : g_num demo_spec <= 512) by (vm_compute; discriminate).
  assert (H0 : snd (spec_best demo_spec) <> 0) by (rewrite Hb; discriminate).
  assert (Hsp : 36 <= reg (env demo_cpu) 13) by (vm_compute; discriminate).
  assert (Hpc : reg (env demo_cpu) 15 < 0xfffffff0) by (vm_compute; reflexivity).
  destruct (exception_roundtrip None demo_cpu demo_spec (reset_env_ok _) demo_cpu_ok Hl H0 Hn Hsp Hpc eq_refl) as
    (s1 & t1 & Hrun & He1 & Hok1 & Hexc & _ & _ & _ & Hret).
  destruct (Hret _ _ (return_now_returns _ s1 He1) Hok1) as (s3 & t3 & Hrun3 & _ & Hres).
  exists s1, t1, s3, t3. rewrite Hexc, Hb. split; [done |]. split; [done |]. split; [done |].
  split; [exact (d_saved _ _ _ Hres 13 H13) |]. split; [exact (d_saved _ _ _ Hres 15 H15) | exact (d_xpsr _ _ _ Hres)].
Defined.

Lemma special_registers_witness :
  exists e', v7m_msr 20 2 (arm_cpu_reset (Some (0x20005004, 0x08000101))) = Done () e' [] /\
    v7m_mrs 20 e' = Done 2 e' [] /\ v7m_mrs 8 e' = Done 0x20005004 e' [] /\ reg e' 13 = 0.
Proof.
  destruct (special_registers (arm_cpu_reset (Some (0x20005004, 0x08000101))) 20 2 (reset_env_ok _))
    as (e' & Hw & Hr & Hm & _ & Hsp); [lia | set_solver |].
  exists e'. split; [exact Hw |]. split; [exact Hr |]. split; [by apply Hm |]. by apply Hsp.
Defined.

Lemma faults_pend_witness :
  exists s' t, arm_v7m_cpu_do_interrupt None EXCP_SWI demo_cpu = Done () s' t /\
    cpu_ok s' (spec_set_pending 11 demo_spec) /\ env s' = env demo_cpu /\ mem s' = mem demo_cpu.
Proof. apply (faults_pend None demo_cpu demo_spec EXCP_SWI (fun _ => eq_refl) demo_cpu_ok); discriminate. Defined.
