(* ===== verification/Soc.v ===== *)
(** * The system on chip ([hw/arm/stm32.c])

    The names of the peripherals and the table of the devices that
    [stm32_init] creates: the peripheral, its base address, and the NVIC
    input of its first interrupt line when the creation connects one. *)

From S2P Require Import Prelude Stm32.
From Stdlib Require Import String.
Open Scope string_scope.

(** ** Names of the peripherals *)


(** The array literal, in which "IWDG" and "WWDG" are not separated by a comma
    and so are one string. *)
Definition stm32_periph_name_arr : list string :=
  ["RCC"; "GPIOA"; "GPIOB"; "GPIOC"; "GPIOD"; "GPIOE"; "GPIOF"; "GPIOG"; "AFIO";
   "UART1"; "UART2"; "UART3"; "UART4"; "UART5"; "ADC1"; "ADC2"; "ADC3"; "DAC";
   "TIM1"; "TIM2"; "TIM3"; "TIM4"; "TIM5"; "TIM6"; "TIM7"; "TIM8"; "BKP"; "PWR";
   "I2C1"; "I2C2"; "I2S1"; "I2S2"; "IWDGWWDG"; "CAN1"; "CAN2"; "CAN"; "USB";
   "SPI1"; "SPI2"; "SPI3"; "EXTI"; "SDIO"; "FSMC"; "RTC"].

Definition stm32_periph_name (periph : Z) : fault + string :=
  if (periph <? STM32_PERIPH_COUNT)%Z then
    match stm32_periph_name_arr !! Z.to_nat periph with
    | Some name => inr name
    | None => inl OutOfBounds
    end
  else inl AssertFailed.

Local Close Scope string_scope.

(** ** The devices *)

Record device : Type := mkDevice {
  dev_periph : Z;
  dev_addr : Z;
  dev_irq : option Z
}.

(** The size of the region of a device ([memory_region_init_io] of each). *)
Definition region_size (periph : Z) : Z :=
  if periph =? STM32_CRC then 0x400 else if periph =? STM32_DMA1 then 0x400 else 0x3ff.

Definition gpio_devices : list device :=
  (λ i, mkDevice (STM32_GPIOA + i) (0x40010800 + i * 0x400) None) <$> zrange 0 7.

Definition stm32_init_devices : list device :=
  [mkDevice STM32_RCC_PERIPH 0x40021000 (Some STM32_RCC_IRQ)] ++
  gpio_devices ++
  [mkDevice STM32_EXTI_PERIPH 0x40010400 None;
   mkDevice STM32_AFIO_PERIPH 0x40010000 None;
   mkDevice STM32_UART1 0x40013800 (Some STM32_UART1_IRQ);
   mkDevice STM32_UART2 0x40004400 (Some STM32_UART2_IRQ);
   mkDevice STM32_UART3 0x40004800 (Some STM32_UART3_IRQ);
   mkDevice STM32_UART4 0x40004c00 (Some STM32_UART4_IRQ);
   mkDevice STM32_UART5 0x40005000 (Some STM32_UART5_IRQ);
   mkDevice STM32_TIM1 0x40012C00 (Some TIM1_UP_IRQn);
   mkDevice STM32_TIM2 0x40000000 (Some TIM2_IRQn);
   mkDevice STM32_TIM3 0x40000400 (Some TIM3_IRQn);
   mkDevice STM32_TIM4 0x40000800 (Some TIM4_IRQn);
   mkDevice STM32_TIM5 0x40000C00 (Some TIM5_IRQn);
   mkDevice STM32_ADC1 0x40012400 None;
   mkDevice STM32_RTC 0x40002800 (Some STM32_RTC_IRQ);
   mkDevice STM32_RTC 0x40002800 (Some STM32_RTCAlarm_IRQ);
   mkDevice STM32_DAC 0x40007400 None;
   mkDevice STM32_IWDG 0x40003000 None;
   mkDevice STM32_CRC 0x40023000 None;
   mkDevice STM32_DMA1 0x40020000 (Some STM32_DMA1_STREAM0_IRQ)].

(** The name table does not follow the peripheral identifiers: it has no entries
    for ports H to K and SYSCFG, so from the AFIO on every name is that of
    another peripheral, and identifiers from 44 on are beyond its end. *)
Lemma periph_names_shifted :
  stm32_periph_name STM32_AFIO_PERIPH = inr "UART5"%string /\
  stm32_periph_name STM32_UART1 = inr "ADC1"%string /\
  (forall p, 44 <= p < STM32_PERIPH_COUNT -> stm32_periph_name p = inl OutOfBounds).
Proof.
  split; [reflexivity | split; [reflexivity |]]. intros p [Hlo Hhi]. unfold stm32_periph_name.
  rewrite (proj2 (Z.ltb_lt p _) Hhi), lookup_ge_None_2; [done |].
  change (Datatypes.length stm32_periph_name_arr) with 44%nat. lia.
Qed.

Definition overlap (a b : device) : bool :=
  (dev_addr a <? dev_addr b + region_size (dev_periph b)) && (dev_addr b <? dev_addr a + region_size (dev_periph a)).

(** The regions of the devices do not overlap, except that the real time clock
    is created twice at the same address. *)
Lemma device_regions :
  (forall i j a b, stm32_init_devices !! i = Some a -> stm32_init_devices !! j = Some b ->
     overlap a b = true -> i = j \/ (dev_periph a = STM32_RTC /\ dev_periph b = STM32_RTC)).
Proof.
  assert (Hall : forallb (λ i, forallb (λ j,
      match stm32_init_devices !! i, stm32_init_devices !! j with
      | Some a, Some b => implb (overlap a b)
          (Nat.eqb i j || ((dev_periph a =? STM32_RTC) && (dev_periph b =? STM32_RTC)))
      | _, _ => true end) (seq 0 27)) (seq 0 27) = true) by (vm_compute; reflexivity).
  intros i j a b Ha Hb Ho. rewrite forallb_forall in Hall.
  assert (Hlen : Datatypes.length stm32_init_devices = 27%nat) by reflexivity.
  pose proof (lookup_lt_Some _ _ _ Ha). pose proof (lookup_lt_Some _ _ _ Hb).
  assert (Hi := Hall i ltac:(apply in_seq; lia)). rewrite forallb_forall in Hi.
  assert (Hj := Hi j ltac:(apply in_seq; lia)). rewrite Ha, Hb, Ho in Hj. cbn [implb] in Hj.
  apply orb_true_iff in Hj as [Hj%Nat.eqb_eq | [H1%Z.eqb_eq H2%Z.eqb_eq]%andb_true_iff]; [by left | by right].
Qed.
