(* ===== verification/Board.v ===== *)
(** * The interrupt wiring and the Blue Pill board ([hw/arm/stm32.c],
    [hw/arm/stm32_f103c8.c])

    The path of a pin: the board drives an input of a port, the port relays it
    to the line that the AFIO has connected, the EXTI detects the edge and
    raises an input of the NVIC; an output of port C drives the LED.  A
    handler's effects are delivered when it returns; the handlers that receive
    them do not touch the state of the device that caused them, so the order
    of the calls in the program gives the same states. *)

From S2P Require Import Prelude Stm32 Gpio Exti Afio.
From stdpp Require Import gmap.
Open Scope Z_scope.

(** ** The state and its effects *)

Record Stm32f103 : Type := mkBoard {
  gpio_dev : list Stm32Gpio;
  exti_dev : Stm32Exti;
  afio_dev : Stm32Afio;
  last_button_pressed : bool
}.

#[export] Instance Stm32f103_settable : Settable Stm32f103 := λ s,
  mkBoard (gpio_dev s) (exti_dev s) (afio_dev s) (last_button_pressed s).

Inductive board_event : Type :=
  | Nvic (irq level : Z)       (* qemu_set_irq(pic[irq], level) *)
  | Led (on : bool)            (* printf of "LED On" and "LED Off" *)
  | ErrLed (on : bool)         (* printf of "ERR LED On" and "ERR LED Off" *)
  | Diagnostic (d : diag).

Abbreviation BoardM := (M board_event Stm32f103).

(** ** Connections made by [stm32_init] *)

(** The input of the NVIC that an output of the EXTI is connected to. *)
Definition exti_pic (n : Z) : option Z :=
  if n =? 0 then Some STM32_EXTI0_IRQ
  else if n =? 1 then Some STM32_EXTI1_IRQ
  else if n =? 2 then Some STM32_EXTI2_IRQ
  else if n =? 3 then Some STM32_EXTI3_IRQ
  else if n =? 4 then Some STM32_EXTI4_IRQ
  else if n =? 5 then Some STM32_EXTI9_5_IRQ
  else if n =? 6 then Some STM32_EXTI15_10_IRQ
  else if n =? 7 then Some STM32_PVD_IRQ
  else if n =? 9 then Some STM32_OTG_FS_WKUP_IRQ
  else None.

Definition exti_effect (e : dev_event) : list board_event :=
  match e with
  | SetIrq n level => match exti_pic n with Some irq => [Nvic irq level] | None => [] end
  | Report d => [Diagnostic d]
  | _ => []
  end.

Definition on_exti {A} (m : ExtiM A) : BoardM A := λ s,
  match m (exti_dev s) with
  | Done a x t => Done a (s <| exti_dev := x |>) (t ≫= exti_effect)
  | Halt f => Halt f
  end.

(** ** The board *)

Definition led_irq_handler (n level : Z) : BoardM unit :=
  assert_ (n =? 0) ;;
  if level =? 0 then emit (Led false)
  else if level =? 1 then emit (Led true)
  else mret ().

Section Wiring.
  (** What a board has connected to an output pin of a port. *)
  Context (leds : Z → Z → option (Z → BoardM unit)).

(** An effect of port [g]: the outputs 0 to 15 are the pins; the outputs 16 to
    31 go where the AFIO has connected them. *)
Definition port_effect (g : Z) (e : dev_event) : BoardM unit :=
  match e with
  | SetIrq n level =>
      if n <? 16 then
        match leds g n with Some handler => handler level | None => mret () end
      else
        s ← get;
        match wires (afio_dev s) !! (g, n - 16) with
        | Some line => on_exti (stm32_exti_gpio_in_handler line level)
        | None => mret ()
        end
  | Report d => emit (Diagnostic d)
  | _ => mret ()
  end.

Definition on_port (g : Z) {A} (m : GpioM A) : BoardM A := λ s,
  match gpio_dev s !! Z.to_nat g with
  | None => Halt OutOfBounds
  | Some port =>
      match m port with
      | Done a port' t =>
          (for_each t (port_effect g) ;; mret a) (s <| gpio_dev := <[Z.to_nat g := port']> (gpio_dev s) |>)
      | Halt f => Halt f
      end
  end.

(** [qemu_set_irq(s->button_irq, level)]: the button is on pin 0 of port A. *)
Definition button (level : Z) : BoardM unit := on_port STM32_GPIOA_INDEX (stm32_gpio_in_trigger 0 level).

End Wiring.

(** The LED of the Blue Pill is on pin 13 of port C. *)
Definition f103_leds (g n : Z) : option (Z → BoardM unit) :=
  if (g =? STM32_GPIOC_INDEX) && (n =? 13) then Some (led_irq_handler 0) else None.

Definition stm32_f103_key_event (keycode : Z) : BoardM unit :=
  let make := keycode .& 0x80 =? 0 in
  let core_keycode := if make then keycode else keycode .& 0x7f in
  s ← get;
  when (core_keycode =? 0x30)
    (if make then
       when (negb (last_button_pressed s))
         (button f103_leds 1 ;; modify (λ s, s <| last_button_pressed := true |>))
     else
       when (last_button_pressed s)
         (button f103_leds 0 ;; modify (λ s, s <| last_button_pressed := false |>))).

(** ** Lemmas *)

Record board_ok (s : Stm32f103) (port : Stm32Gpio) : Prop := {
  b_port : gpio_dev s !! 0%nat = Some port;
  b_gpio : gpio_inv port;
  b_exti : exti_inv (exti_dev s);
  b_afio : afio_inv (afio_dev s);
  b_line : port_of (afio_dev s) 0 = STM32_GPIOA_INDEX
}.

(** The EXTI sees an edge on line 0. *)
Definition edge (x : Stm32Exti) (level : bool) : bool :=
  Z.testbit (if level then EXTI_RTSR x else EXTI_FTSR x) 0 &&
  (Z.testbit (EXTI_IMR x) 0 && negb (Z.testbit (EXTI_PR x) 0)).

Definition after_edge (x : Stm32Exti) (level : bool) : Stm32Exti :=
  if edge x level then set_pending true 0 x else x.

Definition press (s : Stm32f103) (port : Stm32Gpio) (level : bool) : Stm32f103 :=
  s <| gpio_dev := <[0%nat := port <| in_ := put_bit (in_ port) 0 level |>]> (gpio_dev s) |>
    <| exti_dev := after_edge (exti_dev s) level |>.

Lemma wire_line0 s : afio_inv s -> port_of s 0 = STM32_GPIOA_INDEX -> wires s !! (STM32_GPIOA_INDEX, 0) = Some 0.
Proof. intros Hi Hp. apply (proj2 (a_wired _ Hi 0 ltac:(lia))). by rewrite Hp. Qed.

Lemma button_ok leds s port (level : bool) :
  board_ok s port ->
  button leds (b2z level) s = Done () (press s port level) (if edge (exti_dev s) level then [Nvic STM32_EXTI0_IRQ 1] else []).
Proof.
  intros [Hport Hg Hx Ha Hl]. unfold button, on_port. change (Z.to_nat STM32_GPIOA_INDEX) with 0%nat.
  rewrite Hport, in_trigger_ok by (done || lia).
  replace (cbool (b2z level)) with level by (by destruct level).
  set (s1 := s <| gpio_dev := _ |>). cbn [for_each].
  assert (Heff : port_effect leds STM32_GPIOA_INDEX (SetIrq (in_line 0) (b2z level)) s1 =
    Done () (press s port level) (if edge (exti_dev s) level then [Nvic STM32_EXTI0_IRQ 1] else [])).
  { unfold port_effect, mbind, M_bind, get. change (in_line 0 <? 16) with false. cbv beta iota.
    change (afio_dev s1) with (afio_dev s). change (in_line 0 - 16) with 0.
    rewrite (wire_line0 _ Ha Hl). unfold on_exti. change (exti_dev s1) with (exti_dev s).
    rewrite handler_ok by (done || lia). replace (cbool (b2z level)) with level by (by destruct level).
    fold (edge (exti_dev s) level). unfold press, after_edge. destruct (edge (exti_dev s) level); reflexivity. }
  unfold mbind, M_bind. rewrite Heff. unfold mret, M_ret. by rewrite !app_nil_r.
Qed.

Lemma press_ok s port level :
  board_ok s port -> board_ok (press s port level) (port <| in_ := put_bit (in_ port) 0 level |>).
Proof.
  intros [Hport Hg Hx Ha Hl]. split; try done.
  - apply list_lookup_insert_eq. by eapply lookup_lt_Some.
  - by apply gpio_in_inv.
  - cbn. unfold after_edge. destruct (edge _ _); [apply pending_inv; [lia | done] | done].
Qed.

Definition pressed (s : Stm32f103) (port : Stm32Gpio) (b : bool) : Stm32f103 :=
  press s port b <| last_button_pressed := b |>.

Lemma key_down s port :
  board_ok s port -> last_button_pressed s = false ->
  stm32_f103_key_event 0x30 s =
    Done () (pressed s port true) (if edge (exti_dev s) true then [Nvic STM32_EXTI0_IRQ 1] else []).
Proof.
  intros Hok Hlast. unfold stm32_f103_key_event. rewrite bind_get. zcase. rewrite Hlast. cbn [negb when].
  change 1 with (b2z true). rewrite (bind_Done_trace _ _ _ _ _ _ _ _ _ (button_ok f103_leds s port true Hok) eq_refl).
  by rewrite app_nil_r.
Qed.

Lemma key_up s port :
  board_ok s port -> last_button_pressed s = true ->
  stm32_f103_key_event 0xb0 s =
    Done () (pressed s port false) (if edge (exti_dev s) false then [Nvic STM32_EXTI0_IRQ 1] else []).
Proof.
  intros Hok Hlast. unfold stm32_f103_key_event. rewrite bind_get. zcase. rewrite Hlast. cbn [when].
  change 0 with (b2z false) at 1. rewrite (bind_Done_trace _ _ _ _ _ _ _ _ _ (button_ok f103_leds s port false Hok) eq_refl).
  by rewrite app_nil_r.
Qed.

(** ** The properties of the board *)

(** With line 0 of the EXTI mapped to port A, pressing the
    button makes pin 0 of port A read as 1 and raises interrupt 6 of the NVIC
    (EXTI0) exactly when line 0 is unmasked, has its rising edge selected and
    is not pending; holding the key (a repeated make code) does nothing more;
    releasing it makes the pin read as 0, and raises the interrupt under the
    same conditions for the falling edge. *)
Theorem board_button (s : Stm32f103) (port : Stm32Gpio) :
  board_ok s port -> last_button_pressed s = false ->
  exists s1 s2 p1 p2,
    stm32_f103_key_event 0x30 s = Done () s1 (if edge (exti_dev s) true then [Nvic STM32_EXTI0_IRQ 1] else []) /\
    gpio_dev s1 !! 0%nat = Some p1 /\ Z.testbit (in_ p1) 0 = true /\
    stm32_f103_key_event 0x30 s1 = Done () s1 [] /\
    stm32_f103_key_event 0xb0 s1 = Done () s2 (if edge (exti_dev s1) false then [Nvic STM32_EXTI0_IRQ 1] else []) /\
    gpio_dev s2 !! 0%nat = Some p2 /\ Z.testbit (in_ p2) 0 = false /\
    (edge (exti_dev s) true = true -> edge (exti_dev s1) false = false).
Proof.
  intros Hok Hlast. set (s1 := pressed s port true). set (port1 := port <| in_ := put_bit (in_ port) 0 true |>).
  assert (Hok1 : board_ok s1 port1) by (destruct (press_ok s port true Hok); by split).
  set (s2 := pressed s1 port1 false). set (port2 := port1 <| in_ := put_bit (in_ port1) 0 false |>).
  exists s1, s2, port1, port2. split; [by apply key_down |].
  split; [apply Hok1 |]. split; [by apply testbit_put_bit |].
  split; [reflexivity |]. split; [by apply key_up |].
  split; [apply (b_port _ _ (press_ok s1 port1 false Hok1)) |]. split; [by apply testbit_put_bit |].
  intros He. change (exti_dev s1) with (after_edge (exti_dev s) true). unfold after_edge. rewrite He.
  unfold edge. change (EXTI_PR (set_pending true 0 (exti_dev s))) with (deposit32 (EXTI_PR (exti_dev s)) 0 1 (b2z true)).
  rewrite testbit_deposit32_bit by lia. by rewrite !andb_false_r.
Qed.

(** The board after a reset, with line 0 of the EXTI enabled for both edges. *)
Definition board_demo : Stm32f103 :=
  mkBoard (replicate 7 gpio_demo) (mkExti 1 1 1 0 0) afio_demo false.

Lemma board_demo_ok : board_ok board_demo gpio_demo.
Proof.
  split; [reflexivity | apply gpio_demo_inv | | apply afio_demo_inv | by vm_compute].
  split; cbn; lia.
Qed.

Lemma board_button_witness :
  exists s1 s2, stm32_f103_key_event 0x30 board_demo = Done () s1 [Nvic 6 1] /\
    stm32_f103_key_event 0xb0 s1 = Done () s2 [].
Proof.
  destruct (board_button board_demo gpio_demo board_demo_ok eq_refl)
    as (s1 & s2 & p1 & p2 & H1 & _ & _ & _ & H2 & _ & _ & H3).
  exists s1, s2. split; [exact H1 |]. rewrite (H3 eq_refl) in H2. exact H2.
Defined.
