(* ===== verification/Boards.v ===== *)
(** * The other boards ([hw/arm/stm32_p103.c], [hw/arm/stm32_maple.c])

    The Olimex P103 and the Maple differ from the Blue Pill in the pins of
    their LEDs and in messages; the button is on pin 0 of port A on all three.
    The LED of each board follows the output register of its port. *)

From S2P Require Import Prelude Stm32 Gpio Exti Afio Board.
Open Scope Z_scope.

(** ** The P103 *)

(** The LED is on pin 12 of port C. *)
Definition p103_leds (g n : Z) : option (Z → BoardM unit) :=
  if (g =? STM32_GPIOC_INDEX) && (n =? 12) then Some (led_irq_handler 0) else None.

Definition stm32_p103_key_event (keycode : Z) : BoardM unit :=
  let make := keycode .& 0x80 =? 0 in
  let core_keycode := if make then keycode else keycode .& 0x7f in
  s ← get;
  when (core_keycode =? 0x30)
    (if make then
       when (negb (last_button_pressed s))
         (button p103_leds 1 ;; modify (λ s, s <| last_button_pressed := true |>))
     else
       when (last_button_pressed s)
         (button p103_leds 0 ;; modify (λ s, s <| last_button_pressed := false |>))).

(** ** The Maple *)

Definition led_err_irq_handler (n level : Z) : BoardM unit :=
  assert_ (n =? 0) ;;
  if level =? 0 then emit (ErrLed false)
  else if level =? 1 then emit (ErrLed true)
  else mret ().

(** The LED is on pin 5 of port A, the error LED on pin 1. *)
Definition maple_leds (g n : Z) : option (Z → BoardM unit) :=
  if (g =? STM32_GPIOA_INDEX) && (n =? 5) then Some (led_irq_handler 0)
  else if (g =? STM32_GPIOA_INDEX) && (n =? 1) then Some (led_err_irq_handler 0)
  else None.

Definition stm32_maple_key_event (keycode : Z) : BoardM unit :=
  let make := keycode .& 0x80 =? 0 in
  let core_keycode := if make then keycode else keycode .& 0x7f in
  s ← get;
  when (core_keycode =? 0x30)
    (if make then
       when (negb (last_button_pressed s))
         (emit (Diagnostic Message) ;; button maple_leds 1 ;; modify (λ s, s <| last_button_pressed := true |>))
     else
       when (last_button_pressed s)
         (emit (Diagnostic Message) ;; button maple_leds 0 ;; modify (λ s, s <| last_button_pressed := false |>))).

(** ** The LEDs follow the output register *)

(** What a board shows when an output pin changes. *)
Definition shows (leds : Z → Z → option (Z → BoardM unit)) (ev : Z → Z → bool → list board_event) : Prop :=
  forall g n (b : bool) s, 0 <= n < 16 -> port_effect leds g (SetIrq n (b2z b)) s = Done () s (ev g n b).

Definition f103_shows (g n : Z) (b : bool) : list board_event :=
  if (g =? STM32_GPIOC_INDEX) && (n =? 13) then [Led b] else [].
Definition p103_shows (g n : Z) (b : bool) : list board_event :=
  if (g =? STM32_GPIOC_INDEX) && (n =? 12) then [Led b] else [].
Definition maple_shows (g n : Z) (b : bool) : list board_event :=
  if (g =? STM32_GPIOA_INDEX) && (n =? 5) then [Led b]
  else if (g =? STM32_GPIOA_INDEX) && (n =? 1) then [ErrLed b] else [].

Lemma f103_shows_ok : shows f103_leds f103_shows.
Proof.
  intros g n b s Hn. unfold port_effect, f103_leds, f103_shows. rewrite (proj2 (Z.ltb_lt n 16)) by lia.
  destruct (_ && _); [by destruct b | done].
Qed.

Lemma p103_shows_ok : shows p103_leds p103_shows.
Proof.
  intros g n b s Hn. unfold port_effect, p103_leds, p103_shows. rewrite (proj2 (Z.ltb_lt n 16)) by lia.
  destruct (_ && _); [by destruct b | done].
Qed.

Lemma maple_shows_ok : shows maple_leds maple_shows.
Proof.
  intros g n b s Hn. unfold port_effect, maple_leds, maple_shows. rewrite (proj2 (Z.ltb_lt n 16)) by lia.
  destruct (_ && (n =? 5)); [by destruct b |]. destruct (_ && (n =? 1)); [by destruct b | done].
Qed.

Lemma for_each_shows leds ev g (f : Z → bool) (l : list Z) s :
  shows leds ev -> (forall pin, pin ∈ l -> 0 <= pin < 16) ->
  for_each ((λ pin, SetIrq (out_line pin) (b2z (f pin))) <$> l) (port_effect leds g) s =
    Done () s (l ≫= λ pin, ev g pin (f pin)).
Proof.
  intros Hs. induction l as [|pin l IH]; intros Hl; [done |]. cbn [fmap list_fmap for_each].
  assert (Hp : 0 <= pin < 16) by (apply Hl, list_elem_of_here).
  assert (Ho : out_line pin = pin) by done. rewrite Ho.
  apply (bind_Done_trace _ _ _ _ _ _ _ _ _ (Hs g pin (f pin) s Hp)).
  apply IH. intros j Hj. by apply Hl, list_elem_of_further.
Qed.

(** The output of [pin] is driven and changes with a write of [v]. *)
Definition toggles (port : Stm32Gpio) (v pin : Z) : bool :=
  cbool (stm32_gpio_get_mode_bits port pin) && xorb (Z.testbit (GPIOx_ODR port) pin) (Z.testbit v pin).

Lemma driven_toggles port v : gpio_inv port -> driven port v = filter (λ pin, toggles port v pin = true) (zrange 0 16).
Proof.
  intros Hinv. unfold driven, toggles. apply filter_ext_in. intros pin Hp%elem_of_zrange.
  by rewrite (g_dir_ok _ Hinv) by lia.
Qed.

Lemma filter_bind {A B} (P : A → bool) (f : A → list B) (l : list A) :
  (filter (λ x, P x = true) l ≫= f) = (l ≫= λ x, if P x then f x else []).
Proof.
  induction l as [|x l IH]; [done |]. rewrite filter_cons.
  change ((x :: l) ≫= λ x, if P x then f x else []) with ((if P x then f x else []) ++ (l ≫= λ x, if P x then f x else [])).
  rewrite <- IH. by destruct (P x).
Qed.

Section Leds.
  Context {R : Type} `{PeriphClocks R} (rcc : R).

Definition warned (port : Stm32Gpio) : list board_event :=
  if periph_enabled rcc (periph port) then [] else [Diagnostic HwWarn].

Lemma port_write leds ev g v s port :
  shows leds ev -> gpio_dev s !! Z.to_nat g = Some port -> gpio_inv port ->
  periph_clocked rcc (periph port) = true ->
  on_port leds g (stm32_gpio_write rcc GPIOx_ODR_OFFSET v 4) s =
    Done () (s <| gpio_dev := <[Z.to_nat g := port <| GPIOx_ODR := u32 v .& 0xffff |>]> (gpio_dev s) |>)
      (warned port ++ (zrange 0 16 ≫= λ pin, if toggles port (u32 v) pin then ev g pin (Z.testbit (u32 v) pin) else [])).
Proof.
  intros Hs Hport Hinv Hc. unfold on_port. rewrite Hport, (write_output rcc _ v port (u32 v)) by done.
  unfold odr_events. rewrite (driven_toggles port (u32 v) Hinv).
  set (s1 := s <| gpio_dev := _ |>). rewrite <- filter_bind.
  assert (Hev : for_each ((λ pin, SetIrq (out_line pin) (b2z (Z.testbit (u32 v) pin))) <$>
      filter (λ pin, toggles port (u32 v) pin = true) (zrange 0 16)) (port_effect leds g) s1 =
    Done () s1 (filter (λ pin, toggles port (u32 v) pin = true) (zrange 0 16) ≫= λ pin, ev g pin (Z.testbit (u32 v) pin))).
  { apply for_each_shows; [done |]. intros pin [_ Hp%elem_of_zrange]%list_elem_of_filter. lia. }
  assert (Hall : for_each (clk_warning rcc (periph port) ++ ((λ pin, SetIrq (out_line pin) (b2z (Z.testbit (u32 v) pin))) <$>
      filter (λ pin, toggles port (u32 v) pin = true) (zrange 0 16))) (port_effect leds g) s1 =
    Done () s1 (warned port ++ (filter (λ pin, toggles port (u32 v) pin = true) (zrange 0 16) ≫= λ pin, ev g pin (Z.testbit (u32 v) pin)))).
  { unfold clk_warning, warned. destruct (periph_enabled rcc (periph port)); [exact Hev |].
    cbn [app for_each]. exact (bind_Done_trace _ _ _ _ _ _ _ _ _ (eq_refl : port_effect leds g (Report HwWarn) s1 = _) Hev). }
  unfold mbind at 1, M_bind at 1. rewrite Hall. unfold mret, M_ret. by rewrite app_nil_r.
Qed.

Lemma nothing_either {A} (b : bool) : (if b then [] else []) = ([] : list A).
Proof. by destruct b. Qed.

(** On each board a write of [v] to the output register of
    the port of its LEDs prints the new state of an LED exactly when the pin
    is an output and its bit changes: pin 13 of port C on the Blue Pill, pin
    12 of port C on the P103, pins 1 (error LED) and 5 of port A on the Maple. *)
Theorem led_follows_output s portA portC v :
  gpio_dev s !! 0%nat = Some portA -> gpio_dev s !! 2%nat = Some portC -> gpio_inv portA -> gpio_inv portC ->
  periph_clocked rcc (periph portA) = true -> periph_clocked rcc (periph portC) = true -> 0 <= v < 2 ^ 32 ->
  let led port pin (e : bool → board_event) := if toggles port v pin then [e (Z.testbit v pin)] else [] in
  let write leds g := on_port leds g (stm32_gpio_write rcc GPIOx_ODR_OFFSET v 4) s in
  (exists s', write f103_leds STM32_GPIOC_INDEX = Done () s' (warned portC ++ led portC 13 Led)) /\
  (exists s', write p103_leds STM32_GPIOC_INDEX = Done () s' (warned portC ++ led portC 12 Led)) /\
  (exists s', write maple_leds STM32_GPIOA_INDEX = Done () s' (warned portA ++ led portA 1 ErrLed ++ led portA 5 Led)).
Proof.
  intros HA HC IA IC CA CC Hv led write. subst led write. cbv beta. rewrite <- (u32_small v Hv). split_and!; eexists.
  - rewrite (port_write f103_leds f103_shows _ _ _ portC f103_shows_ok) by done. rewrite (u32_small (u32 v)) by apply u32_range.
    f_equal. f_equal. change (zrange 0 16) with [0; 1; 2; 3; 4; 5; 6; 7; 8; 9; 10; 11; 12; 13; 14; 15].
    cbn [mbind list_bind app f103_shows andb Z.eqb Pos.eqb]. cbn -[toggles Z.testbit u32]. by rewrite !nothing_either, app_nil_r.
  - rewrite (port_write p103_leds p103_shows _ _ _ portC p103_shows_ok) by done. rewrite (u32_small (u32 v)) by apply u32_range.
    f_equal. f_equal. change (zrange 0 16) with [0; 1; 2; 3; 4; 5; 6; 7; 8; 9; 10; 11; 12; 13; 14; 15].
    cbn -[toggles Z.testbit u32]. by rewrite !nothing_either, app_nil_r.
  - rewrite (port_write maple_leds maple_shows _ _ _ portA maple_shows_ok) by done. rewrite (u32_small (u32 v)) by apply u32_range.
    f_equal. f_equal. change (zrange 0 16) with [0; 1; 2; 3; 4; 5; 6; 7; 8; 9; 10; 11; 12; 13; 14; 15].
    cbn -[toggles Z.testbit u32]. by rewrite !nothing_either, app_nil_r.
Qed.

End Leds.

(** A port whose pins are all outputs, and a board made of such ports. *)
Definition led_port (p : Z) : Stm32Gpio := mkGpio p 0x33333333 0x33333333 0 0 0xffff.

Lemma led_port_inv p : gpio_inv (led_port p).
Proof. split; cbn; try lia. intros pin Hp. unfold dir_ok. enum_upto pin 16; reflexivity. Qed.

Definition led_board : Stm32f103 := board_demo <| gpio_dev := led_port <$> zrange STM32_GPIOA 7 |>.

Lemma led_follows_output_witness :
  let write leds g := on_port leds g (stm32_gpio_write (8000000 : Z) GPIOx_ODR_OFFSET 0x2022 4) led_board in
  (exists s', write f103_leds STM32_GPIOC_INDEX = Done () s' [Led true]) /\
  (exists s', write p103_leds STM32_GPIOC_INDEX = Done () s' []) /\
  (exists s', write maple_leds STM32_GPIOA_INDEX = Done () s' [ErrLed true; Led true]).
Proof.
  pose proof (led_follows_output (8000000 : Z) led_board (led_port STM32_GPIOA) (led_port STM32_GPIOC) 0x2022
    eq_refl eq_refl (led_port_inv _) (led_port_inv _) eq_refl eq_refl ltac:(lia)) as Hl. cbv beta zeta in Hl.
  assert (T : toggles (led_port STM32_GPIOC) 0x2022 13 = true /\ toggles (led_port STM32_GPIOC) 0x2022 12 = false /\
    toggles (led_port STM32_GPIOA) 0x2022 1 = true /\ toggles (led_port STM32_GPIOA) 0x2022 5 = true) by (vm_compute; done).
  destruct T as (T1 & T2 & T3 & T4). rewrite T1, T2, T3, T4 in Hl. exact Hl.
Defined.
