(* ===== verification/Machine.v ===== *)
(** * The board with its processor

    The composition of [Board], [Nvic] and [Cpu]: the inputs of the NVIC are the
    lines that the EXTI drives, and the NVIC drives the interrupt request of the
    processor.  The theorem follows a button press from the keyboard event into
    the handler of the processor and back to the interrupted code. *)

From stdpp Require Import gmap.
From S2P Require Import Prelude Stm32 Gpio Exti Afio Board Memory Gic Gicspec Nvic Interrupts Cpu.
Open Scope Z_scope.

Record machine : Type := mkMachine {
  m_board : Stm32f103;
  m_cpu : ARMCPU (gmap Z Z)
}.

#[export] Instance machine_settable : Settable machine := λ s, mkMachine (m_board s) (m_cpu s).

(** The effects that leave the machine: LEDs and diagnostics of the board,
    timers and diagnostics of the NVIC. *)
Inductive machine_event : Type :=
  | FromBoard (e : board_event)
  | FromNvic (e : dev_event).

Abbreviation MachineM := (M machine_event machine).
Abbreviation CpuM := (M dev_event (ARMCPU (gmap Z Z))).

Definition on_cpu {A} (m : CpuM A) : MachineM A := λ s,
  match m (m_cpu s) with
  | Done a c t => Done a (s <| m_cpu := c |>) (FromNvic <$> t)
  | Halt f => Halt f
  end.

(** The NVIC input of an effect of the board ([pic[irq]] of [stm32_init]). *)
Definition board_effect (e : board_event) : MachineM unit :=
  match e with
  | Board.Nvic irq level => on_cpu (on_nvic (on_gic (gic_set_irq irq level)))
  | e => emit (FromBoard e)
  end.

Definition on_board {A} (m : BoardM A) : MachineM A := λ s,
  match m (m_board s) with
  | Done a b t => (for_each t board_effect ;; mret a) (s <| m_board := b |>)
  | Halt f => Halt f
  end.

(** ** Operations *)

Definition key (keycode : Z) : MachineM unit := on_board (stm32_f103_key_event keycode).

(** The processor checks for interrupts; it returns from a handler. *)
Definition interrupts_of_cpu : CpuM unit := cpu_exec_interrupts None.
Definition exception_return : CpuM unit := arm_v7m_cpu_do_interrupt None EXCP_EXCEPTION_EXIT.

(** The guest clears the pending bit of line 0 of the EXTI. *)
Definition clear_exti0 : MachineM unit := on_board (on_exti (stm32_exti_write EXTI_PR_OFFSET 1 4)).

(** ** One pending interrupt *)

(** Nothing but possibly [irq] is enabled and pending, and no handler runs. *)
Definition only (irq : Z) (a : gspec) : Prop :=
  forall j, 0 <= j < g_num a -> j <> irq -> spec_ready a j = false.

Lemma only_best irq a :
  spec_wf a -> 0 <= irq < g_num a -> only irq a ->
  spec_best a = if spec_ready a irq then (g_prio a irq, irq) else (0x100, 1023).
Proof.
  intros Hw Hi Ho. pose proof (w_num _ Hw) as Hn. pose proof (w_prio _ Hw irq Hi) as Hp.
  destruct (spec_best_ok a ltac:(lia)) as [[Hb Hall] | (Hj & Hr & Hf & _ & _)].
  - destruct (spec_ready a irq) eqn:Hr; [| done]. specialize (Hall irq Hi Hr). lia.
  - destruct (Z.eq_dec (snd (spec_best a)) irq) as [He | Hne].
    + rewrite He in *. rewrite Hr. destruct (spec_best a) as [p i]. cbn in *. by subst.
    + rewrite (Ho _ Hj Hne) in Hr. done.
Qed.

Lemma only_line irq a :
  spec_wf a -> 0 <= irq < g_num a -> only irq a -> g_stack a = [] -> spec_line a = spec_ready a irq.
Proof.
  intros Hw Hi Ho Hs. unfold spec_line, spec_running. rewrite (only_best irq a Hw Hi Ho), Hs.
  pose proof (w_prio _ Hw irq Hi). destruct (spec_ready a irq); [apply Z.ltb_lt; cbn; lia | done].
Qed.

(** ** From the button to the processor *)

(** Input 6 of the NVIC, as the core numbers it. *)
Definition exti0 : Z := STM32_EXTI0_IRQ + 32.

Lemma clear_exti0_run s :
  exti_inv s -> Z.testbit (EXTI_PR s) 0 = true ->
  exists s', stm32_exti_write EXTI_PR_OFFSET 1 4 s = Done () s' [SetIrq 0 0].
Proof.
  intros Hi H0. destruct (wp_Done _ _ _ (PR_write_ok 1 s Hi)) as ([] & s' & t & Hrun & _ & _ & _ & _ & Ht).
  exists s'. rewrite Hrun, Ht. f_equal. change (u32 1) with 1.
  assert (Hf : filter (λ pos, Z.testbit (EXTI_PR s) pos && Z.testbit 1 pos = true) (zrange 0 20) = [0]); [| by rewrite Hf].
  rewrite zrange_cons, filter_cons_True by by rewrite H0. f_equal.
  rewrite (filter_ext_in _ (λ _, false)); [by vm_compute |].
  intros pos Hp%elem_of_zrange. change 1 with (BIT 0) at 1. rewrite testbit_BIT by lia.
  by rewrite (proj2 (Z.eqb_neq 0 pos)) by lia; rewrite andb_false_r.
Qed.

Lemma spec_set_irq_en irq level a : g_en (spec_set_irq irq level a) = g_en a.
Proof. unfold spec_set_irq. repeat case_match; done. Qed.

(** The effect of the board on the processor, for one event. *)
Lemma on_board_irq {A} (m : BoardM A) s r b a (level : bool) :
  m (m_board s) = Done r b [Board.Nvic STM32_EXTI0_IRQ (b2z level)] ->
  cpu_ok (m_cpu s) a -> exti0 < g_num a ->
  exists c t, on_board m s = Done r (mkMachine b c) t /\ cpu_ok c (spec_set_irq exti0 level a) /\
    env c = env (m_cpu s) /\ mem c = mem (m_cpu s).
Proof.
  intros Hm Hok Hn. unfold exti0, STM32_EXTI0_IRQ in *.
  pose proof (set_irq_ok _ a 6 level (proj1 (proj1 Hok)) ltac:(lia)) as Hset.
  destruct (on_nvic_ok _ (m_cpu s) a () _ (on_gic_performs _ _ _ _ _ Hset) Hok (spec_set_irq_en _ _ a)) as (n & q & t & Hrun & Hok' & _).
  eexists _, ((FromNvic <$> t) ++ []). split; [| split; [exact Hok' | done]].
  unfold on_board. rewrite Hm. cbn [for_each board_effect]. unfold mbind at 1, M_bind at 1. unfold mbind at 1, M_bind at 1.
  unfold on_cpu. change (m_cpu (s <| m_board := b |>)) with (m_cpu s). rewrite Hrun. cbn [mret M_ret]. by rewrite app_nil_r.
Qed.

(** The abstract states of the story. *)
Section Story.
  Context (a : gspec) (Hw : spec_wf a) (Hnum : exti0 < g_num a).
  Context (Hen : g_en a exti0 = true) (Hlev : g_level a exti0 = false) (Hedge : g_edge a exti0 = false).
  Context (Hquiet : only exti0 a) (Hstack : g_stack a = []).

Definition raised : gspec := spec_set_irq exti0 true a.
Definition taken : gspec := snd (spec_ack raised).
Definition lowered : gspec := spec_set_irq exti0 false taken.

Lemma raised_eq : raised = a <| g_level := fupd (g_level a) exti0 true |> <| g_pend := fupd (g_pend a) exti0 true |>.
Proof. unfold raised, spec_set_irq. by rewrite Hlev, Hedge, Hen. Qed.

Lemma raised_only : only exti0 raised.
Proof.
  rewrite raised_eq. intros j Hj Hne. unfold spec_ready. cbn. rewrite fupd_ne by done. by apply Hquiet.
Qed.

Lemma raised_ready : spec_ready raised exti0 = true.
Proof. rewrite raised_eq. unfold spec_ready. cbn. by rewrite fupd_eq, Hen. Qed.

Lemma raised_wf : spec_wf raised.
Proof. by apply spec_set_irq_wf. Qed.

Lemma exti0_range : 0 <= exti0 < g_num raised.
Proof. rewrite raised_eq. unfold exti0, STM32_EXTI0_IRQ in *. cbn. lia. Qed.

Lemma raised_line : spec_line raised = true.
Proof.
  rewrite (only_line exti0 raised raised_wf exti0_range raised_only), raised_ready; [done |]. by rewrite raised_eq.
Qed.

Lemma raised_best : snd (spec_best raised) = exti0.
Proof. by rewrite (only_best exti0 raised raised_wf exti0_range raised_only), raised_ready. Qed.

Lemma taken_eq : taken = raised <| g_pend := fupd (g_pend raised) exti0 false |> <| g_stack := [exti0] |>.
Proof.
  unfold taken, spec_ack. rewrite raised_line, raised_best. cbn [snd].
  assert (Hs : g_stack raised = []) by by rewrite raised_eq. by rewrite Hs.
Qed.

(** After the handler the interrupt is ready again exactly when its line is
    still high. *)
Lemma finished_ok b :
  g_num b = g_num raised -> g_prio b = g_prio raised -> g_edge b = g_edge raised -> g_en b = g_en raised ->
  g_pend b = g_pend taken -> g_stack b = [exti0] ->
  let c := spec_complete exti0 b in
  g_stack c = [] /\ only exti0 c /\ spec_ready c exti0 = g_level b exti0.
Proof.
  intros En Ep Ee Ene Epd Es. pose proof exti0_range as Hr. unfold spec_complete. rewrite Es, En.
  rewrite bool_decide_eq_false_2 by done. cbn [orb]. rewrite (proj2 (Z.leb_gt (g_num raised) exti0)) by lia.
  rewrite Ee, Ene. assert (E1 : g_edge raised exti0 = false) by by rewrite raised_eq.
  assert (E2 : g_en raised exti0 = true) by by rewrite raised_eq. rewrite E1, E2. cbn [negb andb].
  assert (Hf : filter (λ j, j ≠ exti0) [exti0] = []) by done. rewrite Hf.
  assert (Hp : forall j, g_pend b j = fupd (g_pend raised) exti0 false j) by (intros j; by rewrite Epd, taken_eq).
  destruct (g_level b exti0) eqn:Hl; cbn; split_and!; try done.
  - intros j Hj Hne. unfold spec_ready. cbn. rewrite fupd_ne, Hp, fupd_ne, Ene by done.
    apply raised_only; [| done]. by rewrite <- En.
  - unfold spec_ready. cbn. by rewrite Ene, fupd_eq, E2.
  - intros j Hj Hne. unfold spec_ready. cbn. rewrite Hp, fupd_ne, Ene by done. apply raised_only; [| done]. by rewrite <- En.
  - unfold spec_ready. cbn. by rewrite Hp, fupd_eq, andb_false_r.
Qed.

End Story.

(** The NVIC is ready for the button: interrupt 6 is enabled and level
    triggered, its line is low, and nothing else is to be handled. *)
Record awaits (a : gspec) : Prop := {
  w_n : exti0 < g_num a;
  w_en : g_en a exti0 = true;
  w_level : g_level a exti0 = false;
  w_edge : g_edge a exti0 = false;
  w_pend : g_pend a exti0 = false;
  w_only : only exti0 a;
  w_stack : g_stack a = []
}.

Lemma taken_range a c : awaits a -> g_num c = g_num a -> 0 <= exti0 < g_num c.
Proof. intros [Wn _ _ _ _ _ _] ->. unfold exti0, STM32_EXTI0_IRQ in *. lia. Qed.

Lemma spec_complete_num irq a : g_num (spec_complete irq a) = g_num a.
Proof. unfold spec_complete. destruct (bool_decide _ || _); [done |]. by destruct (_ && _ && _). Qed.


(** ** The processor between handlers *)

(** The interrupted code can be interrupted: there is room on its stack and its
    program counter is the address of an instruction. *)
Record interruptible (e : CPUARMState) : Prop := {
  i_ok : env_ok e;
  i_sp : 36 <= reg e 13;
  i_pc : reg e 15 < 0xfffffff0;
  i_even : Z.testbit (reg e 15) 0 = false
}.

Lemma resumed_interruptible e e2 e3 : interruptible e -> resumed e e2 e3 -> interruptible e3.
Proof.
  intros [H1 H2 H3 H4] Hres. assert (H13 : 13 ∈ saved_regs) by (unfold saved_regs; set_solver).
  assert (H15 : 15 ∈ saved_regs) by (unfold saved_regs; set_solver).
  pose proof (d_saved _ _ _ Hres 13 H13) as E13. pose proof (d_saved _ _ _ Hres 15 H15) as E15.
  constructor; rewrite ?E13, ?E15; [apply Hres | done ..].
Qed.

(** The interrupt 6 is taken. *)
Lemma takes_exti0 c a :
  cpu_ok c a -> spec_line a = true -> snd (spec_best a) = exti0 -> interruptible (env c) ->
  exists q n t, interrupts_of_cpu c = Done () (handler_start c 22 q n) t /\
    cpu_ok (handler_start c 22 q n) (snd (spec_ack a)) /\ exception (env (handler_start c 22 q n)) = 22.
Proof.
  intros Hok Hl Hb [H1 H2 H3 H4]. destruct (irq_run None c a H1 H2 Hok Hl) as (q & n & t & Hrun & Hok1).
  rewrite Hb in Hrun, Hok1. change (vector exti0) with 22 in Hrun, Hok1. exists q, n, t.
  split; [by rewrite <- Hrun; apply (exec_irq None c a) |]. split; [exact Hok1 |].
  by apply handler_exception.
Qed.

(** With nothing to deliver the code goes on. *)
Lemma idle c a : cpu_ok c a -> spec_line a = false -> interrupts_of_cpu c = Done () c [].
Proof.
  intros (_ & Hh & Hf) Hl. unfold interrupts_of_cpu, cpu_exec_interrupts. rewrite bind_get.
  change CPU_INTERRUPT_FIQ with (BIT 4). change CPU_INTERRUPT_HARD with (BIT 1). rewrite !cbool_BIT by lia.
  fold (hard c) (fiq c). rewrite Hf, Hh, Hl. done.
Qed.

(** The end of a handler: the processor [c] has the NVIC of [c1], and the
    registers and the frame with which a handler entered at [c0] returns. *)
Definition at_return (e : CPUARMState) (c0 c1 c : ARMCPU (gmap Z Z)) : Prop :=
  returns (aligned e - 32) c0 c /\ nvic c = nvic c1 /\ interrupt_request c = interrupt_request c1.

Lemma cpu_ok_ext (c c1 : ARMCPU (gmap Z Z)) a :
  nvic c = nvic c1 -> interrupt_request c = interrupt_request c1 -> cpu_ok c1 a -> cpu_ok c a.
Proof. unfold cpu_ok, hard, fiq. by intros -> ->. Qed.

Lemma returns_exti0 s0 q n c1 c b :
  interruptible (env s0) -> at_return (env s0) (handler_start s0 22 q n) c1 c -> cpu_ok c1 b ->
  exists c4 t4, exception_return c = Done () c4 t4 /\ cpu_ok c4 (spec_complete exti0 b) /\ resumed (env s0) (env c) (env c4).
Proof.
  intros [H1 H2 H3 H4] (Hret & Hn & Hq) Hok. change 22 with (vector exti0) in Hret.
  assert (H38 : exti0 = 38) by reflexivity.
  apply (handler_return None s0 exti0 q n c b H1 H2 H4); [lia | lia | lia | exact Hret |].
  by apply (cpu_ok_ext c c1).
Qed.

(** ** The story of a button press *)

Section Press.
  Context (a : gspec) (Ha : awaits a) (Hw : spec_wf a).

Lemma raised_facts : spec_line (raised a) = true /\ snd (spec_best (raised a)) = exti0.
Proof. destruct Ha as [Wn We Wl Wd Wp Wo Ws]. split; [by apply raised_line | by apply raised_best]. Qed.

Lemma taken_num : g_num (taken a) = g_num a.
Proof.
  destruct Ha as [Wn We Wl Wd Wp Wo Ws]. by rewrite (taken_eq a Hw Wn We Wl Wd Wo Ws), (raised_eq a We Wl Wd).
Qed.

(** After a handler that has cleared the pending bit nothing is left. *)
Lemma lowered_done :
  spec_wf (spec_complete exti0 (lowered a)) -> spec_line (spec_complete exti0 (lowered a)) = false.
Proof.
  intros Hwc. destruct Ha as [Wn We Wl Wd Wp Wo Ws]. pose proof (taken_eq a Hw Wn We Wl Wd Wo Ws) as Ht.
  pose proof (raised_eq a We Wl Wd) as Hra.
  assert (Hlo : lowered a = taken a <| g_level := fupd (g_level (taken a)) exti0 false |>).
  { unfold lowered, spec_set_irq. rewrite Ht, Hra. cbn. by rewrite fupd_eq. }
  destruct (finished_ok a Hw Wn We Wl Wd Wo Ws (lowered a)) as (F1 & F2 & F3); [by rewrite Hlo, Ht .. |].
  rewrite (only_line exti0), F3; [by rewrite Hlo; cbn; rewrite fupd_eq | done | | done | done].
  apply (taken_range a _ Ha). rewrite spec_complete_num, Hlo. exact taken_num.
Qed.

(** After one that has not, the interrupt is to be delivered again. *)
Lemma taken_again :
  let c := spec_complete exti0 (taken a) in spec_wf c -> spec_line c = true /\ snd (spec_best c) = exti0.
Proof.
  intros c Hwc. destruct Ha as [Wn We Wl Wd Wp Wo Ws]. pose proof (taken_eq a Hw Wn We Wl Wd Wo Ws) as Ht.
  pose proof (raised_eq a We Wl Wd) as Hra.
  destruct (finished_ok a Hw Wn We Wl Wd Wo Ws (taken a)) as (F1 & F2 & F3); [by rewrite Ht .. |].
  assert (Hc : 0 <= exti0 < g_num c) by (apply (taken_range a _ Ha); unfold c; rewrite spec_complete_num; exact taken_num).
  assert (Hup : spec_ready c exti0 = true) by (unfold c; rewrite F3, Ht, Hra; cbn; by rewrite fupd_eq).
  split; [by rewrite (only_line exti0 c Hwc Hc F2 F1) | by rewrite (only_best exti0 c Hwc Hc F2), Hup].
Qed.

End Press.

(** C11 (button_interrupt).  A board on which the guest has set up the interrupt of the
    button: line 0 of the EXTI is unmasked, sensitive to the rising edge and not pending, the
    AFIO connects it to port A, and in the NVIC its interrupt (6) is enabled, level-triggered,
    low and not pending, no other interrupt is ready to be delivered and no handler runs. The
    button is up, and the processor is at an instruction at which it can take an exception (an
    even address that is no return value, room for a frame on the stack).  Then pressing the
    button makes the processor enter the handler of vector 22.  A handler that jumps to
    its return value with its frame intact and both stack pointers as at its start, and that
    has done nothing else to the NVIC, returns: when it has cleared the pending bit of the EXTI, the interrupted code gets its
    registers back and goes on undisturbed; when it has not, the interrupted registers are
    restored and the handler is entered again at once. *)
Theorem button_interrupt s port a :
  board_ok (m_board s) port -> last_button_pressed (m_board s) = false -> edge (exti_dev (m_board s)) true = true ->
  cpu_ok (m_cpu s) a -> awaits a -> interruptible (env (m_cpu s)) ->
  let e := env (m_cpu s) in
  exists s1 t1 s2 t2,
    key 0x30 s = Done () s1 t1 /\ on_cpu interrupts_of_cpu s1 = Done () s2 t2 /\ exception (env (m_cpu s2)) = 22 /\
    (exists s3 t3, clear_exti0 s2 = Done () s3 t3 /\
       forall c, at_return e (m_cpu s2) (m_cpu s3) c ->
         exists c' t, exception_return c = Done () c' t /\ resumed e (env c) (env c') /\
           interrupts_of_cpu c' = Done () c' []) /\
    (forall c, at_return e (m_cpu s2) (m_cpu s2) c ->
       exists c' t c'' t', exception_return c = Done () c' t /\ resumed e (env c) (env c') /\
         interrupts_of_cpu c' = Done () c'' t' /\ exception (env c'') = 22).
Proof.
  intros Hb Hlast Hedge Hok Ha Hint e. pose proof Ha as [Wn We Wl Wd Wp Wo Ws].
  pose proof (r_wf _ _ (proj1 (proj1 (proj1 Hok)))) as Hw.
  pose proof (key_down (m_board s) port Hb Hlast) as Hkey. rewrite Hedge in Hkey.
  destruct (on_board_irq _ s () _ a true Hkey Hok Wn) as (c1 & t1 & H1 & K1 & E1 & _).
  fold (raised a) in K1. destruct (raised_facts a Ha Hw) as [Hline Hbest].
  assert (Hint1 : interruptible (env c1)) by by rewrite E1.
  destruct (takes_exti0 c1 (raised a) K1 Hline Hbest Hint1) as (q & n & t2 & H2 & K2 & X2). fold (taken a) in K2.
  set (s1 := mkMachine _ c1) in H1. set (s2 := mkMachine (m_board s1) (handler_start c1 22 q n)).
  exists s1, t1, s2, (FromNvic <$> t2). split; [exact H1 |].
  split; [unfold on_cpu; change (m_cpu s1) with c1; by rewrite H2 |]. split; [exact X2 |].
  change (m_cpu s2) with (handler_start c1 22 q n). unfold e. rewrite <- E1. split.
  - assert (Hx : exti_inv (exti_dev (m_board s1))) by exact (b_exti _ _ (press_ok _ _ true Hb)).
    assert (Hp : Z.testbit (EXTI_PR (exti_dev (m_board s1))) 0 = true).
    { change (exti_dev _) with (after_edge (exti_dev (m_board s)) true). unfold after_edge. rewrite Hedge.
      change (EXTI_PR _) with (deposit32 (EXTI_PR (exti_dev (m_board s))) 0 1 (b2z true)).
      by rewrite testbit_deposit32_bit by lia. }
    destruct (clear_exti0_run _ Hx Hp) as (x & Hrun).
    assert (Hm : on_exti (stm32_exti_write EXTI_PR_OFFSET 1 4) (m_board s2) =
      Done () (m_board s1 <| exti_dev := x |>) [Board.Nvic STM32_EXTI0_IRQ (b2z false)]).
    { unfold on_exti. change (m_board s2) with (m_board s1). by rewrite Hrun. }
    destruct (on_board_irq _ s2 () _ _ false Hm K2) as (c3 & t3 & H3 & K3 & _); [by rewrite taken_num |].
    fold (lowered a) in K3. exists (mkMachine (m_board s1 <| exti_dev := x |>) c3), t3. split; [exact H3 |].
    intros c Hret. destruct (returns_exti0 c1 q n c3 c _ Hint1 Hret K3) as (c4 & t4 & H4 & K4 & Hres).
    exists c4, t4. split; [exact H4 |]. split; [exact Hres |]. apply (idle c4 _ K4).
    apply (lowered_done a Ha Hw). exact (r_wf _ _ (proj1 (proj1 (proj1 K4)))).
  - intros c Hret. destruct (returns_exti0 c1 q n _ c _ Hint1 Hret K2) as (c4 & t4 & H4 & K4 & Hres).
    destruct (taken_again a Ha Hw (r_wf _ _ (proj1 (proj1 (proj1 K4))))) as [L4 B4].
    destruct (takes_exti0 c4 _ K4 L4 B4 (resumed_interruptible _ _ _ Hint1 Hres)) as (q5 & n5 & t5 & H5 & _ & X5).
    by exists c4, t4, (handler_start c4 22 q5 n5), t5.
Qed.

(** ** Example *)

(** The board after reset, with interrupt 6 enabled. *)
Definition demo_machine : machine :=
  mkMachine board_demo
    (mkCpu (arm_cpu_reset (Some (0x20005000, 0x08000101))) 0 (nvic_ready <| gic := gic_after [Enable 0 0x40] |>) ∅).
Definition demo_waiting : gspec := snd (spec_gops [Enable 0 0x40] spec_start).

Lemma demo_machine_ok : cpu_ok (m_cpu demo_machine) demo_waiting /\ awaits demo_waiting.
Proof.
  assert (Hoff : Forall (λ i, g_en demo_waiting i = false) (zrange 16 16)) by by_decide.
  assert (Hall : Forall (λ j, spec_ready demo_waiting j = false) (zrange 0 96)) by by_decide.
  rewrite Forall_forall in Hoff, Hall. split.
  - split; [split; [apply gic_after_ok; by_decide |] |].
    + intros irq Hi. apply Hoff, elem_of_zrange. lia.
    + split; [| done]. unfold hard. vm_compute. done.
  - split; try reflexivity. intros j Hj _. by apply Hall, elem_of_zrange.
Qed.

Lemma button_interrupt_witness :
  exists s1 t1 s2 t2, key 0x30 demo_machine = Done () s1 t1 /\ on_cpu interrupts_of_cpu s1 = Done () s2 t2 /\
    exception (env (m_cpu s2)) = 22.
Proof.
  assert (Hint : interruptible (env (m_cpu demo_machine))).
  { split; [apply reset_env_ok | vm_compute; discriminate | vm_compute; reflexivity | reflexivity]. }
  destruct (button_interrupt demo_machine gpio_demo demo_waiting board_demo_ok eq_refl eq_refl
    (proj1 demo_machine_ok) (proj2 demo_machine_ok) Hint) as (s1 & t1 & s2 & t2 & H1 & H2 & H3 & _).
  exists s1, t1, s2, t2. exact (conj H1 (conj H2 H3)).
Defined.
