(* ===== verification/Qtimer.v ===== *)
(** * Clocks and timers of the emulator ([qemu-timer.c])

    Every device that measures time does so with a [QEMUTimer]: a structure
    that [timer_mod] links into the list of its clock, sorted by expiry, and
    whose callback [timerlist_run_timers] calls once the clock has reached the
    deadline.  The lists are modelled as the code has them, a heap of timers
    with [next] pointers and a walk along the addresses of these pointers;
    [Timerqueue] shows that they are sorted queues.

    The host's clocks and the [-icount] setting are the argument [h]; a call of
    [qemu_clock_warp] ([cpus.c]), which returns at once without [-icount], and
    calls of notifiers are events.  A signed overflow is read as wrapping. *)

From stdpp Require Import gmap.
From S2P Require Import Prelude.
Open Scope Z_scope.

(** ** Data ([include/qemu/timer.h] and [qemu-timer.c]) *)

Inductive QEMUClockType : Type :=
  | QEMU_CLOCK_REALTIME
  | QEMU_CLOCK_VIRTUAL
  | QEMU_CLOCK_HOST.

#[export] Instance QEMUClockType_eq_dec : EqDecision QEMUClockType.
Proof. solve_decision. Defined.

(** The values of the type in the order of the loops up to [QEMU_CLOCK_MAX]. *)
Definition clock_types : list QEMUClockType :=
  [QEMU_CLOCK_REALTIME; QEMU_CLOCK_VIRTUAL; QEMU_CLOCK_HOST].

Definition SCALE_MS : Z := 1000000.
Definition SCALE_US : Z := 1000.
Definition SCALE_NS : Z := 1.

(** A pointer to a timer or to a timer list is a [nat]; [None] is [NULL]. *)
Record QEMUTimer : Type := mkTimer {
  expire_time : Z;
  timer_list : nat;
  cb : nat;
  opaque : nat;
  next : option nat;
  scale : Z
}.
#[export] Instance QEMUTimer_settable : Settable QEMUTimer :=
  λ t, mkTimer (expire_time t) (timer_list t) (cb t) (opaque t) (next t) (scale t).

Record QEMUTimerList : Type := mkTimerList {
  tl_clock : QEMUClockType;
  active_timers : option nat;
  notify_cb : option nat;
  notify_opaque : nat;
  timers_done_ev : bool
}.
#[export] Instance QEMUTimerList_settable : Settable QEMUTimerList :=
  λ l, mkTimerList (tl_clock l) (active_timers l) (notify_cb l) (notify_opaque l)
         (timers_done_ev l).

Record QEMUClock : Type := mkClock {
  timerlists : list nat;
  reset_notifiers : list nat;
  clock_last : Z;
  clock_type : QEMUClockType;
  enabled : bool
}.
#[export] Instance QEMUClock_settable : Settable QEMUClock :=
  λ c, mkClock (timerlists c) (reset_notifiers c) (clock_last c) (clock_type c) (enabled c).

(** The globals: [qemu_clocks], [main_loop_tlg] and the heap; [brk] is an
    address that no timer list has had yet. *)
Record tstate : Type := mkState {
  qemu_clocks : QEMUClockType → QEMUClock;
  main_loop_tlg : QEMUClockType → option nat;
  tlists : gmap nat QEMUTimerList;
  timers : gmap nat QEMUTimer;
  brk : nat
}.
#[export] Instance tstate_settable : Settable tstate :=
  λ s, mkState (qemu_clocks s) (main_loop_tlg s) (tlists s) (timers s) (brk s).

(** What the outside sees. *)
Inductive tevent : Type :=
  | NotifyCb (f opaque : nat)
  | NotifyEvent
  | ClockWarp (type : QEMUClockType)
  | Callback (f opaque : nat)
  | ResetNotify (notifier : nat) (now : Z).

(** The host's clocks when they are read, and [use_icount]. *)
Record host : Type := mkHost {
  get_clock : Z;
  get_clock_realtime : Z;
  cpu_get_clock : Z;
  cpu_get_icount : Z;
  use_icount : bool
}.

Notation TM := (M tevent tstate).

(** ** Access to the heap *)

Definition get_timer (p : nat) : TM QEMUTimer :=
  s ← get; match timers s !! p with Some t => mret t | None => halt NullPointer end.

Definition get_tlist (k : nat) : TM QEMUTimerList :=
  s ← get; match tlists s !! k with Some l => mret l | None => halt NullPointer end.

Definition upd_timer (p : nat) (f : QEMUTimer → QEMUTimer) : TM unit :=
  t ← get_timer p; modify (λ s, s <| timers := <[p := f t]> (timers s) |>).

Definition upd_tlist (k : nat) (f : QEMUTimerList → QEMUTimerList) : TM unit :=
  l ← get_tlist k; modify (λ s, s <| tlists := <[k := f l]> (tlists s) |>).

Definition upd_clock (c : QEMUClockType) (f : QEMUClock → QEMUClock) : TM unit :=
  modify (λ s, s <| qemu_clocks :=
    λ c', if decide (c' = c) then f (qemu_clocks s c) else qemu_clocks s c' |>).

Definition qemu_clock_ptr (c : QEMUClockType) : TM QEMUClock := gets (λ s, qemu_clocks s c).

(** [pt] points at the list's [active_timers] ([None]) or at the [next] field
    of a timer. *)
Definition load_pt (k : nat) (pt : option nat) : TM (option nat) :=
  match pt with
  | None => l ← get_tlist k; mret (active_timers l)
  | Some p => t ← get_timer p; mret (next t)
  end.

Definition store_pt (k : nat) (pt v : option nat) : TM unit :=
  match pt with
  | None => upd_tlist k (λ l, l <| active_timers := v |>)
  | Some p => upd_timer p (λ t, t <| next := v |>)
  end.

(** The walk of a list visits each timer at most once. *)
Definition walk_fuel (s : tstate) : nat := S (size (timers s)).

(** ** Timer lists *)

Definition timer_expired_ns (timer_head : option QEMUTimer) (current_time : Z) : bool :=
  match timer_head with Some t => expire_time t <=? current_time | None => false end.

Definition timerlist_new (type : QEMUClockType) (f : option nat) (opq : nat) : TM nat :=
  k ← gets brk;
  modify (λ s, s <| tlists := <[k := mkTimerList type None f opq false]> (tlists s) |>
                 <| brk := S k |>) ;;
  upd_clock type (λ c, c <| timerlists := k :: timerlists c |>) ;;
  mret k.

Definition timerlist_has_timers (k : nat) : TM bool :=
  l ← get_tlist k;
  mret (match active_timers l with Some _ => true | None => false end).

Definition timerlist_free (k : nat) : TM unit :=
  b ← timerlist_has_timers k;
  assert_ (negb b) ;;
  l ← get_tlist k;
  upd_clock (tl_clock l) (λ c, c <| timerlists := filter (λ j, j ≠ k) (timerlists c) |>) ;;
  modify (λ s, s <| tlists := delete k (tlists s) |>).

Definition main_tl (type : QEMUClockType) : TM nat :=
  s ← get; match main_loop_tlg s type with Some k => mret k | None => halt NullPointer end.

Definition INT64_MIN : Z := - 2 ^ 63.

Definition qemu_clock_init (type : QEMUClockType) : TM unit :=
  s ← get;
  assert_ (match main_loop_tlg s type with None => true | Some _ => false end) ;;
  upd_clock type (λ _, mkClock [] [] INT64_MIN type true) ;;
  k ← timerlist_new type None 0%nat;
  modify (λ s, s <| main_loop_tlg :=
    λ c, if decide (c = type) then Some k else main_loop_tlg s c |>).

Definition init_clocks : TM unit := for_each clock_types qemu_clock_init.

Definition timerlist_notify (k : nat) : TM unit :=
  l ← get_tlist k;
  match notify_cb l with
  | Some f => emit (NotifyCb f (notify_opaque l))
  | None => emit NotifyEvent
  end.

Definition qemu_clock_notify (type : QEMUClockType) : TM unit :=
  c ← qemu_clock_ptr type; for_each (timerlists c) timerlist_notify.

(** A wait for an event that is not set does not return. *)
Definition qemu_event_wait (k : nat) : TM unit :=
  l ← get_tlist k; if timers_done_ev l then mret () else halt Blocked.

Definition qemu_clock_enable (type : QEMUClockType) (en : bool) : TM unit :=
  c ← qemu_clock_ptr type;
  let old := enabled c in
  upd_clock type (λ c, c <| enabled := en |>) ;;
  if en && negb old then qemu_clock_notify type
  else if negb en && old then for_each (timerlists c) qemu_event_wait
  else mret ().

Definition qemu_clock_has_timers (type : QEMUClockType) : TM bool :=
  k ← main_tl type; timerlist_has_timers k.

Definition notifier_list_notify (l : list nat) (now : Z) : TM unit :=
  for_each l (λ n, emit (ResetNotify n now)).

Definition qemu_clock_get_ns (h : host) (type : QEMUClockType) : TM Z :=
  match type with
  | QEMU_CLOCK_REALTIME => mret (get_clock h)
  | QEMU_CLOCK_VIRTUAL => mret (if use_icount h then cpu_get_icount h else cpu_get_clock h)
  | QEMU_CLOCK_HOST =>
      c ← qemu_clock_ptr type;
      let now := get_clock_realtime h in
      upd_clock type (λ c, c <| clock_last := now |>) ;;
      when (now <? clock_last c) (notifier_list_notify (reset_notifiers c) now) ;;
      mret now
  end.

Definition qemu_clock_register_reset_notifier (type : QEMUClockType) (n : nat) : TM unit :=
  upd_clock type (λ c, c <| reset_notifiers := n :: reset_notifiers c |>).

(** [notifier_remove] unlinks the notifier from the list it is in, whatever
    the clock. *)
Definition qemu_clock_unregister_reset_notifier (type : QEMUClockType) (n : nat) : TM unit :=
  for_each clock_types (λ c,
    upd_clock c (λ c, c <| reset_notifiers := filter (λ m, m ≠ n) (reset_notifiers c) |>)).

Definition timerlist_get_clock (k : nat) : TM QEMUClockType :=
  l ← get_tlist k; c ← qemu_clock_ptr (tl_clock l); mret (clock_type c).

Definition timerlist_expired (h : host) (k : nat) : TM bool :=
  l ← get_tlist k;
  match active_timers l with
  | None => mret false
  | Some p =>
      t ← get_timer p;
      type ← timerlist_get_clock k;
      now ← qemu_clock_get_ns h type;
      mret (expire_time t <? now)
  end.

Definition qemu_clock_expired (h : host) (type : QEMUClockType) : TM bool :=
  k ← main_tl type; timerlist_expired h k.

Definition timerlist_deadline_ns (h : host) (k : nat) : TM Z :=
  l ← get_tlist k;
  c ← qemu_clock_ptr (tl_clock l);
  if negb (enabled c) then mret (-1) else
  match active_timers l with
  | None => mret (-1)
  | Some p =>
      t ← get_timer p;
      now ← qemu_clock_get_ns h (clock_type c);
      let delta := i64 (expire_time t - now) in
      mret (if delta <=? 0 then 0 else delta)
  end.

Definition qemu_soonest_timeout (timeout1 timeout2 : Z) : Z :=
  if u64 timeout1 <? u64 timeout2 then timeout1 else timeout2.

(** A loop [for (...) deadline = f(deadline, x)] over a list. *)
Fixpoint for_fold {A} (l : list A) (acc : Z) (body : Z → A → TM Z) : TM Z :=
  match l with
  | [] => mret acc
  | x :: l => acc ← body acc x; for_fold l acc body
  end.

Definition qemu_clock_deadline_ns_all (h : host) (type : QEMUClockType) : TM Z :=
  c ← qemu_clock_ptr type;
  for_fold (timerlists c) (-1) (λ deadline k,
    d ← timerlist_deadline_ns h k; mret (qemu_soonest_timeout deadline d)).

Definition qemu_clock_use_for_deadline (h : host) (type : QEMUClockType) : bool :=
  negb (use_icount h && bool_decide (type = QEMU_CLOCK_VIRTUAL)).

Definition INT32_MAX : Z := 2 ^ 31 - 1.

(** Two's complement reading of a 32-bit pattern ([int]). *)
Definition i32 (x : Z) : Z :=
  let y := u32 x in if y <? 2 ^ 31 then y else y - 2 ^ 32.

Definition qemu_timeout_ns_to_ms (ns : Z) : Z :=
  if ns <? 0 then -1
  else if ns =? 0 then 0
  else
    let ms := Z.quot (i64 (ns + SCALE_MS - 1)) SCALE_MS in
    i32 (if ms >? INT32_MAX then INT32_MAX else ms).

(** ** Timers *)

Definition timer_init (ts k : nat) (sc : Z) (f opq : nat) : TM unit :=
  modify (λ s, s <| timers :=
    <[ts := mkTimer (-1) k f opq
              (match timers s !! ts with Some t => next t | None => None end) sc]>
      (timers s) |>).

Definition timer_free (ts : nat) : TM unit :=
  modify (λ s, s <| timers := delete ts (timers s) |>).

Fixpoint timer_del_loop (fuel : nat) (k ts : nat) (pt : option nat) : TM unit :=
  match fuel with
  | O => halt OutOfFuel
  | S fuel =>
      t ← load_pt k pt;
      match t with
      | None => mret ()
      | Some p =>
          if decide (p = ts) then tm ← get_timer p; store_pt k pt (next tm)
          else timer_del_loop fuel k ts (Some p)
      end
  end.

Definition timer_del_locked (k ts : nat) : TM unit :=
  upd_timer ts (λ t, t <| expire_time := -1 |>) ;;
  fuel ← gets walk_fuel;
  timer_del_loop fuel k ts None.

(** The place of a timer with deadline [e]: before the first timer that
    expires later. *)
Fixpoint timer_mod_loop (fuel : nat) (k : nat) (e : Z) (pt : option nat) : TM (option nat) :=
  match fuel with
  | O => halt OutOfFuel
  | S fuel =>
      t ← load_pt k pt;
      match t with
      | None => mret pt
      | Some p =>
          tm ← get_timer p;
          if timer_expired_ns (Some tm) e then timer_mod_loop fuel k e (Some p) else mret pt
      end
  end.

Definition timer_mod_ns_locked (k ts : nat) (e : Z) : TM bool :=
  fuel ← gets walk_fuel;
  pt ← timer_mod_loop fuel k e None;
  upd_timer ts (λ t, t <| expire_time := Z.max e 0 |>) ;;
  nx ← load_pt k pt;
  upd_timer ts (λ t, t <| next := nx |>) ;;
  store_pt k pt (Some ts) ;;
  mret (match pt with None => true | Some _ => false end).

Definition timerlist_rearm (k : nat) : TM unit :=
  type ← timerlist_get_clock k;
  emit (ClockWarp type) ;;
  timerlist_notify k.

Definition timer_del (ts : nat) : TM unit :=
  t ← get_timer ts; timer_del_locked (timer_list t) ts.

Definition timer_mod_ns (ts : nat) (e : Z) : TM unit :=
  t ← get_timer ts;
  let k := timer_list t in
  timer_del_locked k ts ;;
  rearm ← timer_mod_ns_locked k ts e;
  when rearm (timerlist_rearm k).

Definition timer_mod_anticipate_ns (ts : nat) (e : Z) : TM unit :=
  t ← get_timer ts;
  let k := timer_list t in
  rearm ←
    (if (expire_time t =? -1) || (expire_time t >? e) then
       when (negb (expire_time t =? -1)) (timer_del_locked k ts) ;;
       timer_mod_ns_locked k ts e
     else mret false);
  when rearm (timerlist_rearm k).

Definition timer_mod (ts : nat) (e : Z) : TM unit :=
  t ← get_timer ts; timer_mod_ns ts (i64 (e * scale t)).

Definition timer_mod_anticipate (ts : nat) (e : Z) : TM unit :=
  t ← get_timer ts; timer_mod_anticipate_ns ts (i64 (e * scale t)).

Definition timer_pending (t : QEMUTimer) : bool := expire_time t >=? 0.

Definition timer_expired (t : QEMUTimer) (current_time : Z) : bool :=
  timer_expired_ns (Some t) (i64 (current_time * scale t)).

Definition timer_expire_time_ns (t : QEMUTimer) : Z :=
  u64 (if timer_pending t then expire_time t else -1).

(** ** Running timers

    [run_cb f opaque] is the call of a callback. *)
Section Run.
  Context (run_cb : nat → nat → TM unit) (h : host).

Fixpoint timerlist_run_loop (fuel : nat) (k : nat) (current_time : Z) (progress : bool)
    : TM bool :=
  match fuel with
  | O => halt OutOfFuel
  | S fuel =>
      l ← get_tlist k;
      match active_timers l with
      | None => mret progress
      | Some ts =>
          t ← get_timer ts;
          if negb (timer_expired_ns (Some t) current_time) then mret progress
          else
            upd_tlist k (λ l, l <| active_timers := next t |>) ;;
            upd_timer ts (λ t, t <| next := None |> <| expire_time := -1 |>) ;;
            emit (Callback (cb t) (opaque t)) ;;
            run_cb (cb t) (opaque t) ;;
            timerlist_run_loop fuel k current_time true
      end
  end.

Definition timerlist_run_timers (fuel : nat) (k : nat) : TM bool :=
  upd_tlist k (λ l, l <| timers_done_ev := false |>) ;;
  l ← get_tlist k;
  c ← qemu_clock_ptr (tl_clock l);
  progress ←
    (if negb (enabled c) then mret false
     else
       now ← qemu_clock_get_ns h (clock_type c);
       timerlist_run_loop fuel k now false);
  upd_tlist k (λ l, l <| timers_done_ev := true |>) ;;
  mret progress.

Definition qemu_clock_run_timers (fuel : nat) (type : QEMUClockType) : TM bool :=
  k ← main_tl type; timerlist_run_timers fuel k.

(** [progress |= f(x)] for each [x]. *)
Fixpoint any_progress {A} (l : list A) (f : A → TM bool) (progress : bool) : TM bool :=
  match l with
  | [] => mret progress
  | x :: l => b ← f x; any_progress l f (progress || b)
  end.

Definition qemu_clock_run_all_timers (fuel : nat) : TM bool :=
  any_progress clock_types (qemu_clock_run_timers fuel) false.

(** ** Timer list groups: one list per clock *)

Definition QEMUTimerListGroup : Type := QEMUClockType → nat.

Definition timerlistgroup_run_timers (fuel : nat) (tlg : QEMUTimerListGroup) : TM bool :=
  any_progress clock_types (λ c, timerlist_run_timers fuel (tlg c)) false.

End Run.

Definition timerlistgroup_init (f : option nat) (opq : nat) : TM QEMUTimerListGroup :=
  k0 ← timerlist_new QEMU_CLOCK_REALTIME f opq;
  k1 ← timerlist_new QEMU_CLOCK_VIRTUAL f opq;
  k2 ← timerlist_new QEMU_CLOCK_HOST f opq;
  mret (λ c, match c with
             | QEMU_CLOCK_REALTIME => k0 | QEMU_CLOCK_VIRTUAL => k1 | QEMU_CLOCK_HOST => k2
             end).

Definition timerlistgroup_deinit (tlg : QEMUTimerListGroup) : TM unit :=
  for_each clock_types (λ c, timerlist_free (tlg c)).

Definition timerlistgroup_deadline_ns (h : host) (tlg : QEMUTimerListGroup) : TM Z :=
  for_fold clock_types (-1) (λ deadline c,
    type ← timerlist_get_clock (tlg c);
    if qemu_clock_use_for_deadline h type then
      d ← timerlist_deadline_ns h (tlg c); mret (qemu_soonest_timeout deadline d)
    else mret deadline).
