(* ===== verification/Timerqueue.v ===== *)
(** * Timer lists as queues of deadlines

    [aqueues] is the abstract view of the timer lists of [Qtimer]: a sorted
    list of deadlines per timer list.  The operations on the heap refine those
    on the queues; running the timers of a list fires the due part of its
    queue, and the deadline of a group is the soonest of its queues. *)

From stdpp Require Import gmap sorting.
From S2P Require Import Prelude Qtimer.
Open Scope Z_scope.

(** ** Lists of the heap

    [chain tm hd ps]: following [next] from [hd] visits the timers [ps]. *)

Fixpoint chain (tm : gmap nat QEMUTimer) (hd : option nat) (ps : list nat) : Prop :=
  match ps with
  | [] => hd = None
  | p :: ps => hd = Some p /\ exists t, tm !! p = Some t /\ chain tm (next t) ps
  end.

Definition linked (s : tstate) (k : nat) (ps : list nat) : Prop :=
  exists l, tlists s !! k = Some l /\ chain (timers s) (active_timers l) ps.

Lemma chain_ext tm tm' hd ps :
  (forall p, p ∈ ps -> next <$> tm !! p = next <$> tm' !! p) ->
  chain tm hd ps -> chain tm' hd ps.
Proof.
  revert hd. induction ps as [|p ps IH]; intros hd Hn; [done |].
  intros (-> & t & Ht & Hc). split; [done |].
  specialize (Hn p ltac:(set_solver)) as Hp. rewrite Ht in Hp.
  destruct (tm' !! p) as [t' |]; [| done]. injection Hp as Hp. exists t'. split; [done |].
  rewrite <- Hp. apply IH; [| done]. intros; apply Hn; set_solver.
Qed.

Lemma chain_head tm hd ps : chain tm hd ps -> hd = head ps.
Proof. destruct ps; [done |]. by intros [-> _]. Qed.

Lemma chain_dom tm hd ps : chain tm hd ps -> Forall (λ p, is_Some (tm !! p)) ps.
Proof.
  revert hd. induction ps as [|p ps IH]; intros hd; [done |].
  intros (-> & t & Ht & Hc). constructor; [by exists t | by eapply IH].
Qed.

(** A chain ends in its last timer's [next]. *)
Lemma chain_at tm hd a p b :
  chain tm hd (a ++ p :: b) -> exists t, tm !! p = Some t /\ chain tm (next t) b.
Proof.
  revert hd. induction a as [|x a IH]; intros hd.
  - intros (_ & t & Ht & Hc). by exists t.
  - intros (_ & t & _ & Hc). by apply (IH (next t)).
Qed.

(** Storing into the [next] field of the last timer of [a] replaces what
    follows [a]. *)
Lemma chain_store tm tm' hd a p b b' t v :
  chain tm hd (a ++ p :: b) -> p ∉ a -> (forall x, x ∈ a -> tm' !! x = tm !! x) ->
  tm' !! p = Some t -> next t = v -> chain tm' v b' -> chain tm' hd (a ++ p :: b').
Proof.
  intros Hc Hp Ha Ht <- Hb'. revert hd Hc. induction a as [|x a IH]; intros hd.
  - intros (-> & _). split; [done |]. by exists t.
  - intros (-> & t' & Ht' & Hc). split; [done |]. exists t'.
    rewrite Ha by set_solver. split; [done |].
    apply IH; [set_solver | intros; apply Ha; set_solver | done].
Qed.

Lemma linked_bound s k ps : linked s k ps -> NoDup ps -> (length ps < walk_fuel s)%nat.
Proof.
  intros (l & _ & Hc) Hnd. unfold walk_fuel. apply Nat.lt_succ_r.
  rewrite <- (size_dom (D := gset nat)), <- (size_list_to_set (C := gset nat)) by done.
  apply subseteq_size. intros p Hp%elem_of_list_to_set.
  apply chain_dom in Hc. rewrite Forall_forall in Hc. by apply elem_of_dom, Hc.
Qed.

Lemma get_timer_ok s p t : timers s !! p = Some t -> get_timer p s = Done t s [].
Proof. intros Ht. unfold get_timer. rewrite bind_get, Ht. done. Qed.

Lemma get_tlist_ok s k l : tlists s !! k = Some l -> get_tlist k s = Done l s [].
Proof. intros Hl. unfold get_tlist. rewrite bind_get, Hl. done. Qed.

Lemma upd_timer_ok s p t f :
  timers s !! p = Some t ->
  upd_timer p f s = Done () (s <| timers := <[p := f t]> (timers s) |>) [].
Proof. intros Ht. unfold upd_timer. by erewrite bind_Done by by apply get_timer_ok. Qed.

Lemma upd_tlist_ok s k l f :
  tlists s !! k = Some l ->
  upd_tlist k f s = Done () (s <| tlists := <[k := f l]> (tlists s) |>) [].
Proof. intros Hl. unfold upd_tlist. by erewrite bind_Done by by apply get_tlist_ok. Qed.

Lemma load_at s k a b : linked s k (a ++ b) -> load_pt k (last a) s = Done (head b) s [].
Proof.
  intros (l & Hl & Hc). destruct a as [|p a _] using rev_ind.
  - cbn. erewrite bind_Done by by apply get_tlist_ok. cbn in Hc. by rewrite (chain_head _ _ _ Hc).
  - rewrite last_snoc. cbn. rewrite <- app_assoc in Hc. apply chain_at in Hc as (t & Ht & Hc).
    erewrite bind_Done by by apply get_timer_ok. by rewrite (chain_head _ _ _ Hc).
Qed.

(** ** What an operation on a list leaves alone *)

Definition tmeta (t : QEMUTimer) : QEMUTimer := t <| next := None |> <| expire_time := 0 |>.
Definition lmeta (l : QEMUTimerList) : QEMUTimerList := l <| active_timers := None |>.

Record framed (s s' : tstate) : Prop := {
  fr_clocks : qemu_clocks s' = qemu_clocks s;
  fr_main : main_loop_tlg s' = main_loop_tlg s;
  fr_brk : brk s' = brk s;
  fr_lists : lmeta <$> tlists s' = lmeta <$> tlists s;
  fr_timers : tmeta <$> timers s' = tmeta <$> timers s
}.

#[export] Instance framed_preorder : PreOrder framed.
Proof. split; [by constructor |]. intros ??? [] []. split; congruence. Qed.

(** Nothing but the links of the list [k] after the timers [a] changes. *)
Record relinked (k : nat) (a : list nat) (s s' : tstate) : Prop := {
  rl_framed : framed s s';
  rl_expire : expire_time <$> timers s' = expire_time <$> timers s;
  rl_timers : forall p, p ∉ a -> timers s' !! p = timers s !! p;
  rl_lists : forall j, j ≠ k -> tlists s' !! j = tlists s !! j
}.

Lemma fmap_insert_same {A B} (f : A → B) (m : gmap nat A) k x y :
  m !! k = Some x -> f y = f x -> f <$> <[k := y]> m = f <$> m.
Proof.
  intros Hk Hf. apply map_eq. intros j. rewrite !lookup_fmap.
  destruct (decide (j = k)) as [-> |].
  - rewrite lookup_insert_eq, Hk. cbn. by rewrite Hf.
  - by rewrite lookup_insert_ne.
Qed.

Lemma store_at s k a b b' v :
  linked s k (a ++ b) -> NoDup a -> chain (timers s) v b' -> (forall x, x ∈ b' -> x ∉ a) ->
  exists s', store_pt k (last a) v s = Done () s' [] /\ linked s' k (a ++ b') /\
    relinked k a s s'.
Proof.
  intros (l & Hl & Hc) Hnd Hv Hb'. destruct a as [|p a _] using rev_ind.
  - cbn. rewrite (upd_tlist_ok _ _ _ _ Hl). eexists. split; [done |]. split.
    + eexists. cbn. split; [apply lookup_insert_eq | done].
    + split; cbn; try done.
      * split; cbn; try done. by eapply fmap_insert_same.
      * intros j Hj. by rewrite lookup_insert_ne.
  - rewrite last_snoc. cbn. rewrite <- app_assoc in Hc. cbn in Hc.
    destruct (chain_at _ _ _ _ _ Hc) as (t & Ht & _).
    apply NoDup_app in Hnd as (_ & Hpa & _).
    rewrite (upd_timer_ok _ _ _ _ Ht). eexists. split; [done |]. split.
    + exists l. cbn. split; [done |]. rewrite <- app_assoc. cbn.
      eapply chain_store; [exact Hc | set_solver | | apply lookup_insert_eq | done |].
      * intros x Hx. rewrite lookup_insert_ne; [done |]. set_solver.
      * eapply chain_ext; [| exact Hv]. intros x Hx. rewrite lookup_insert_ne; [done |].
        specialize (Hb' x Hx). set_solver.
    + split; cbn; try done.
      * split; cbn; try done. by eapply fmap_insert_same.
      * by eapply fmap_insert_same.
      * intros x Hx. rewrite lookup_insert_ne; [done |]. set_solver.
Qed.

(** ** The abstract queues

    A queue is the list of the deadlines and timers in the order in which the
    timers fire. *)

Notation queue := (list (Z * nat)).

(** A timer goes after those that expire at the same time; the stored
    deadline is not negative. *)
Fixpoint q_insert (e : Z) (ts : nat) (q : queue) : queue :=
  match q with
  | [] => [(Z.max e 0, ts)]
  | x :: q' => if x.1 <=? e then x :: q_insert e ts q' else (Z.max e 0, ts) :: q
  end.

Definition q_del (ts : nat) (q : queue) : queue := filter (λ x, x.2 ≠ ts) q.

Definition earlier (x y : Z * nat) : Prop := x.1 <= y.1.

(** The queues [q] describe the heap: every list is linked in the order of
    its queue, the queues are sorted, a timer is in the queue of its list with
    its deadline or it is idle and in none. *)
Record rep (s : tstate) (q : gmap nat queue) : Prop := {
  rep_dom : forall k, is_Some (tlists s !! k) <-> is_Some (q !! k);
  rep_linked : forall k l, q !! k = Some l -> linked s k (snd <$> l);
  rep_nodup : forall k l, q !! k = Some l -> NoDup (snd <$> l);
  rep_sorted : forall k l, q !! k = Some l -> StronglySorted earlier l;
  rep_entry : forall k l e p, q !! k = Some l -> (e, p) ∈ l ->
    0 <= e /\ exists t, timers s !! p = Some t /\ timer_list t = k /\ expire_time t = e;
  rep_timer : forall p t, timers s !! p = Some t ->
    exists l, q !! timer_list t = Some l /\ (expire_time t = -1 \/ (expire_time t, p) ∈ l)
}.

Lemma elem_of_q_del ts x q : x ∈ q_del ts q <-> x ∈ q /\ x.2 ≠ ts.
Proof. unfold q_del. rewrite list_elem_of_filter. tauto. Qed.

Lemma q_del_absent ts q : ts ∉ (snd <$> q) -> q_del ts q = q.
Proof.
  unfold q_del. induction q as [|x q IH]; intros Hts; [done |]. rewrite fmap_cons in Hts.
  rewrite filter_cons_True, IH by set_solver. done.
Qed.

Lemma snd_q_del ts q : snd <$> q_del ts q = filter (λ p, p ≠ ts) (snd <$> q).
Proof.
  unfold q_del. induction q as [|x q IH]; [done |]. rewrite fmap_cons, !filter_cons.
  destruct (decide (x.2 ≠ ts)); [| done]. by rewrite fmap_cons, IH.
Qed.

Lemma q_del_sorted ts q : StronglySorted earlier q -> StronglySorted earlier (q_del ts q).
Proof.
  unfold q_del. induction 1 as [|x q Hs IH Hx]; [constructor |]. rewrite filter_cons.
  destruct (decide (x.2 ≠ ts)); [| done]. constructor; [done |].
  rewrite Forall_forall in *. intros y [_ Hy]%list_elem_of_filter. by apply Hx.
Qed.

Lemma elem_of_q_insert e ts x q :
  x ∈ q_insert e ts q <-> x = (Z.max e 0, ts) \/ x ∈ q.
Proof.
  induction q as [|y q IH]; cbn; [set_solver |].
  destruct (y.1 <=? e); rewrite ?elem_of_cons, ?IH; set_solver.
Qed.

Lemma q_insert_perm e ts q : q_insert e ts q ≡ₚ (Z.max e 0, ts) :: q.
Proof.
  induction q as [|y q IH]; cbn; [done |]. destruct (y.1 <=? e); [| done].
  rewrite IH. apply Permutation_swap.
Qed.

Lemma q_insert_sorted e ts q :
  Forall (λ x, 0 <= x.1) q -> StronglySorted earlier q ->
  StronglySorted earlier (q_insert e ts q).
Proof.
  intros Hpos Hs. induction Hs as [|y q Hs IH Hy]; cbn.
  { by repeat constructor. }
  apply Forall_cons in Hpos as [Hy0 Hpos].
  rewrite Forall_forall in Hy. destruct (Z.leb_spec y.1 e) as [Hle | Hlt].
  - constructor; [by apply IH |]. rewrite Forall_forall. intros x [-> | Hx]%elem_of_q_insert.
    + unfold earlier; cbn. lia.
    + by apply Hy.
  - constructor; [by constructor; [| rewrite Forall_forall] |].
    constructor; [unfold earlier; cbn; lia |]. rewrite Forall_forall. intros x Hx%Hy.
    unfold earlier in *; cbn. lia.
Qed.

(** ** The loops over a list *)

Lemma relinked_mono k a b s s' : a ⊆ b -> relinked k a s s' -> relinked k b s s'.
Proof. intros Hab [Hf He Ht Hl]. split; [done | done | | done]. intros p Hp. apply Ht. set_solver. Qed.

Lemma filter_ne_all (ts : nat) (l : list nat) : ts ∉ l -> filter (λ p, p ≠ ts) l = l.
Proof.
  induction l as [|p l IH]; intros Hl; [done |].
  rewrite filter_cons_True, IH by set_solver. done.
Qed.

Lemma del_loop_ok s k ts b : forall a fuel,
  linked s k (a ++ b) -> NoDup (a ++ b) -> (length b < fuel)%nat ->
  exists s', timer_del_loop fuel k ts (last a) s = Done () s' [] /\
    linked s' k (a ++ filter (λ p, p ≠ ts) b) /\ relinked k (a ++ b) s s'.
Proof.
  induction b as [|p b IH]; intros a fuel Hk Hnd Hf; destruct fuel as [|fuel]; cbn in Hf; try lia;
    cbn [timer_del_loop]; erewrite bind_Done by by eapply load_at.
  - exists s. split; [done |]. split; [done |]. by split.
  - cbn [head]. destruct (decide (p = ts)) as [-> | Hp].
    + destruct Hk as (l & Hl & Hc). destruct (chain_at _ _ _ _ _ Hc) as (t & Ht & Hb).
      erewrite bind_Done by by apply get_timer_ok.
      apply NoDup_app in Hnd as (Ha & Hab & Htsb%NoDup_cons).
      destruct (store_at s k a (ts :: b) b (next t)) as (s' & Hs' & Hl' & Hr);
        [by exists l | done | done | set_solver |].
      exists s'. split; [done |]. split.
      * rewrite filter_cons_False by (by intros []). rewrite filter_ne_all; tauto.
      * eapply relinked_mono; [| done]. set_solver.
    + destruct (IH (a ++ [p]) fuel) as (s' & Hs' & Hl' & Hr);
        [by rewrite <- app_assoc | by rewrite <- app_assoc | lia |].
      rewrite last_snoc in Hs'. exists s'. split; [done |].
      rewrite filter_cons_True by done. by rewrite <- app_assoc in Hl', Hr.
Qed.

Definition timed (s : tstate) (q : queue) : Prop :=
  Forall (λ x, exists t, timers s !! x.2 = Some t /\ expire_time t = x.1) q.

Lemma mod_loop_ok s k ts e q : forall a fuel,
  linked s k (a ++ (snd <$> q)) -> timed s q -> (length q < fuel)%nat ->
  exists pre post, q = pre ++ post /\ q_insert e ts q = pre ++ (Z.max e 0, ts) :: post /\
    timer_mod_loop fuel k e (last a) s = Done (last (a ++ (snd <$> pre))) s [].
Proof.
  induction q as [|[d p] q IH]; intros a fuel Hk Ht Hf; destruct fuel as [|fuel]; cbn in Hf; try lia;
    cbn [timer_mod_loop]; erewrite bind_Done by by eapply load_at.
  - exists [], []. cbn. by rewrite app_nil_r.
  - apply Forall_cons in Ht as [(t & Ht & He) Hq]. cbn in Ht, He. cbn [fmap list_fmap snd head].
    erewrite bind_Done by by apply get_timer_ok. cbn [timer_expired_ns q_insert fst].
    rewrite He. destruct (d <=? e).
    + destruct (IH (a ++ [p]) fuel) as (pre & post & -> & Hq' & Hr);
        [by rewrite <- app_assoc | done | lia |].
      exists ((d, p) :: pre), post. split; [done |]. split; [by rewrite Hq' |].
      rewrite last_snoc in Hr. rewrite Hr. by rewrite <- app_assoc.
    + exists [], ((d, p) :: q). cbn. by rewrite app_nil_r.
Qed.

(** ** The operations on the heap refine those on the queues *)

Lemma fmap_lookup_l {A B} (f : A → B) (m m' : gmap nat A) k x :
  f <$> m' = f <$> m -> m !! k = Some x -> exists y, m' !! k = Some y /\ f y = f x.
Proof.
  intros Hm Hk. apply (f_equal (.!! k)) in Hm. rewrite !lookup_fmap, Hk in Hm.
  destruct (m' !! k) as [y |]; [| done]. exists y. split; [done |]. cbn in Hm. congruence.
Qed.

Lemma tmeta_list t t' : tmeta t = tmeta t' -> timer_list t = timer_list t'.
Proof. intros Hm. by apply (f_equal timer_list) in Hm. Qed.

Lemma framed_timer s s' p t :
  framed s s' -> timers s !! p = Some t ->
  exists t', timers s' !! p = Some t' /\ tmeta t' = tmeta t.
Proof. intros Hf. apply fmap_lookup_l, Hf. Qed.

Lemma framed_timer' s s' p t' :
  framed s s' -> timers s' !! p = Some t' ->
  exists t, timers s !! p = Some t /\ tmeta t' = tmeta t.
Proof.
  intros Hf Ht. destruct (fmap_lookup_l tmeta (timers s') (timers s) p t') as (t & Ht' & Hm);
    [symmetry; apply Hf | done |]. by exists t.
Qed.

Lemma framed_list s s' k l :
  framed s s' -> tlists s !! k = Some l ->
  exists l', tlists s' !! k = Some l' /\ lmeta l' = lmeta l.
Proof. intros Hf. apply fmap_lookup_l, Hf. Qed.

Lemma framed_dom s s' k : framed s s' -> is_Some (tlists s' !! k) <-> is_Some (tlists s !! k).
Proof.
  intros Hf. pose proof (f_equal (.!! k) (fr_lists _ _ Hf)) as Hk. rewrite !lookup_fmap in Hk.
  by rewrite <- (fmap_is_Some lmeta (tlists s' !! k)), Hk, fmap_is_Some.
Qed.

(** A change of the list [k] and of timers of this list only. *)
Lemma rep_update s q k l' s' :
  rep s q -> is_Some (q !! k) -> framed s s' ->
  (forall j, j ≠ k -> tlists s' !! j = tlists s !! j) ->
  (forall p t, timers s !! p = Some t -> timer_list t ≠ k -> timers s' !! p = Some t) ->
  linked s' k (snd <$> l') -> NoDup (snd <$> l') -> StronglySorted earlier l' ->
  (forall e p, (e, p) ∈ l' ->
     0 <= e /\ exists t, timers s' !! p = Some t /\ timer_list t = k /\ expire_time t = e) ->
  (forall p t, timers s' !! p = Some t -> timer_list t = k ->
     expire_time t = -1 \/ (expire_time t, p) ∈ l') ->
  rep s' (<[k := l']> q).
Proof.
  intros Hrep Hk Hfr Hlists Htimers Hlk Hnd Hsort Hentry Htimer.
  assert (Hq : forall (P : nat → queue → Prop), P k l' -> (forall j l, j ≠ k -> q !! j = Some l -> P j l) ->
    forall j l, <[k := l']> q !! j = Some l -> P j l).
  { intros P Hp Hother j l [[<- <-] | [Hj Hl]]%lookup_insert_Some; [done |].
    apply Hother; [| done]. by intros ->. }
  split.
  - intros j. rewrite framed_dom, (rep_dom _ _ Hrep) by done.
    destruct (decide (j = k)) as [-> |]; [rewrite lookup_insert_eq | by rewrite lookup_insert_ne].
    by split; intros; [eexists |].
  - apply Hq; [done |]. intros j l Hj Hl. destruct (rep_linked _ _ Hrep j l Hl) as (L & HL & Hc).
    exists L. rewrite Hlists by done. split; [done |]. eapply chain_ext; [| done].
    intros p ([e ?] & -> & Hp)%list_elem_of_fmap. cbn.
    destruct (rep_entry _ _ Hrep j l _ _ Hl Hp) as (_ & t & Ht & Htl & _).
    rewrite (Htimers _ _ Ht) by (by rewrite Htl). by rewrite Ht.
  - apply Hq; [done |]. intros j l _. apply (rep_nodup _ _ Hrep).
  - apply Hq; [done |]. intros j l _. apply (rep_sorted _ _ Hrep).
  - intros j l e p Hl. revert e p. pattern j, l. revert j l Hl. apply Hq; [done |].
    intros j l Hj Hl e p Hp. destruct (rep_entry _ _ Hrep j l e p Hl Hp) as (He & t & Ht & Htl & Hte).
    split; [done |]. exists t. split; [| done]. apply Htimers; [done |]. by rewrite Htl.
  - intros p t' Ht'. destruct (framed_timer' _ _ _ _ Hfr Ht') as (t & Ht & Hm%tmeta_list).
    destruct (rep_timer _ _ Hrep p t Ht) as (l & Hl & Hin).
    destruct (decide (timer_list t = k)) as [Htk | Htk].
    + rewrite Hm, Htk, lookup_insert_eq. exists l'. split; [done |]. apply Htimer; congruence.
    + rewrite (Htimers _ _ Ht Htk) in Ht'. injection Ht' as <-. exists l.
      by rewrite lookup_insert_ne.
Qed.

Lemma rep_list_entry s q k l p :
  rep s q -> q !! k = Some l -> p ∈ (snd <$> l) ->
  exists t, timers s !! p = Some t /\ timer_list t = k /\ (expire_time t, p) ∈ l /\ 0 <= expire_time t.
Proof.
  intros Hrep Hl ([e ?] & -> & Hp)%list_elem_of_fmap. cbn.
  destruct (rep_entry _ _ Hrep k l e _ Hl Hp) as (He & t & Ht & Htl & <-). by exists t.
Qed.

Lemma set_timer_framed s p t t' :
  timers s !! p = Some t -> tmeta t' = tmeta t ->
  framed s (s <| timers := <[p := t']> (timers s) |>).
Proof. intros Ht Hm. split; cbn; try done. by eapply fmap_insert_same. Qed.

Lemma del_locked_rep s q k l ts t :
  rep s q -> timers s !! ts = Some t -> timer_list t = k -> q !! k = Some l ->
  exists s', timer_del_locked k ts s = Done () s' [] /\ rep s' (<[k := q_del ts l]> q) /\
    framed s s' /\ (exists t', timers s' !! ts = Some t' /\ expire_time t' = -1).
Proof.
  intros Hrep Ht Htl Hl. unfold timer_del_locked.
  erewrite bind_Done by by apply upd_timer_ok. rewrite bind_gets.
  set (t1 := t <| expire_time := -1 |>). set (s1 := s <| timers := <[ts := t1]> (timers s) |>).
  assert (Hl1 : linked s1 k ([] ++ (snd <$> l))).
  { destruct (rep_linked _ _ Hrep k l Hl) as (L & HL & Hc). exists L. split; [done |].
    eapply chain_ext; [| done]. intros p _. cbn. destruct (decide (p = ts)) as [-> |].
    - by rewrite lookup_insert_eq, Ht.
    - by rewrite lookup_insert_ne. }
  pose proof (rep_nodup _ _ Hrep k l Hl) as Hnd.
  destruct (del_loop_ok s1 k ts (snd <$> l) [] (walk_fuel s1)) as (s' & Hs' & Hl' & [Hfr He Htm Hls]);
    [done | done | by apply (linked_bound _ k) |].
  assert (Hf1 : framed s s1) by by apply (set_timer_framed _ _ t).
  assert (Hexp : forall p t', timers s' !! p = Some t' ->
    expire_time t' = if decide (p = ts) then -1 else default 0 (expire_time <$> timers s !! p)).
  { intros p t' Ht'. destruct (fmap_lookup_l expire_time _ _ p t' (eq_sym He) Ht') as (t2 & Ht2 & <-).
    revert Ht2. cbn. destruct (decide (p = ts)) as [-> |].
    - rewrite lookup_insert_eq. by intros [= <-].
    - rewrite lookup_insert_ne by done. by intros ->. }
  destruct (framed_timer s s' ts t) as (t' & Ht' & Hm'); [by etrans | done |].
  exists s'. split; [done |]. split; [| split; [by etrans |]]; cycle 1.
  { exists t'. split; [done |]. rewrite (Hexp _ _ Ht'). by case_decide. }
  assert (Hfr' : framed s s') by by etrans.
  apply (rep_update s); try done.
  - intros p t2 Ht2 Hk. rewrite Htm; cbn.
    + rewrite lookup_insert_ne; [done |]. intros <-. congruence.
    + intros Hp. destruct (rep_list_entry _ _ _ _ _ Hrep Hl Hp) as (t3 & Ht3 & ? & _). congruence.
  - by rewrite snd_q_del.
  - rewrite snd_q_del. by apply NoDup_filter.
  - by apply q_del_sorted, (rep_sorted _ _ Hrep k).
  - intros e p [Hin Hne]%elem_of_q_del. cbn in Hne.
    destruct (rep_entry _ _ Hrep k l e p Hl Hin) as (Hpos & t2 & Ht2 & Htl2 & Hte). split; [done |].
    destruct (framed_timer s s' p t2 Hfr' Ht2) as (t3 & Ht3 & Hm3%tmeta_list). exists t3.
    split; [done |]. split; [congruence |]. rewrite (Hexp _ _ Ht3), Ht2. by case_decide.
  - intros p t3 Ht3 Htl3. rewrite (Hexp _ _ Ht3). case_decide; [by left |].
    destruct (framed_timer' s s' p t3 Hfr' Ht3) as (t2 & Ht2 & Hm2%tmeta_list).
    destruct (rep_timer _ _ Hrep p t2 Ht2) as (l2 & Hl2 & Hin). rewrite Ht2. cbn.
    destruct Hin as [? | Hin]; [by left | right]. apply elem_of_q_del. split; [| done].
    assert (l2 = l) as -> by congruence. done.
Qed.

Lemma chain_suffix tm hd a b : chain tm hd (a ++ b) -> chain tm (head b) b.
Proof.
  revert hd. induction a as [|p a IH]; intros hd.
  - intros Hc. cbn in Hc. by rewrite <- (chain_head _ _ _ Hc).
  - intros (_ & t & _ & Hc). by apply (IH (next t)).
Qed.

Lemma idle_absent s q k l ts t :
  rep s q -> timers s !! ts = Some t -> expire_time t = -1 -> q !! k = Some l -> ts ∉ (snd <$> l).
Proof.
  intros Hrep Ht He Hl Hin. destruct (rep_list_entry _ _ _ _ _ Hrep Hl Hin) as (t' & Ht' & _ & _ & Hp).
  assert (t' = t) as -> by congruence. lia.
Qed.

(** A change of an idle timer keeps the lists. *)
Lemma linked_idle s k ps ts t' :
  linked s k ps -> ts ∉ ps -> linked (s <| timers := <[ts := t']> (timers s) |>) k ps.
Proof.
  intros (l & Hl & Hc) Hts. exists l. split; [done |]. eapply chain_ext; [| done].
  intros p Hp. cbn. rewrite lookup_insert_ne; [done |]. by intros ->.
Qed.

Lemma rep_timed s q k l : rep s q -> q !! k = Some l -> timed s l.
Proof.
  intros Hrep Hl. apply Forall_forall. intros [e p] Hin.
  destruct (rep_entry _ _ Hrep k l e p Hl Hin) as (_ & t & Ht & _ & He). by exists t.
Qed.

(** Linking an idle timer into the list. *)
Lemma mod_locked_run s q k l ts t e :
  rep s q -> timers s !! ts = Some t -> q !! k = Some l -> ts ∉ (snd <$> l) ->
  exists s' pre post, l = pre ++ post /\ q_insert e ts l = pre ++ (Z.max e 0, ts) :: post /\
    timer_mod_ns_locked k ts e s = Done (bool_decide (pre = [])) s' [] /\
    linked s' k (snd <$> q_insert e ts l) /\
    let t' := t <| expire_time := Z.max e 0 |> <| next := head (snd <$> post) |> in
    relinked k (snd <$> pre) (s <| timers := <[ts := t']> (timers s) |>) s'.
Proof.
  intros Hrep Ht Hl Hts. pose proof (rep_linked _ _ Hrep k l Hl) as Hk.
  destruct (mod_loop_ok s k ts e l [] (walk_fuel s)) as (pre & post & -> & Hq & Hloop);
    [done | by eapply rep_timed | |].
  { rewrite <- (length_fmap snd). apply (linked_bound _ k); [done | by apply (rep_nodup _ _ Hrep k)]. }
  rewrite fmap_app in Hk, Hts. cbn [app] in Hloop.
  unfold timer_mod_ns_locked. rewrite bind_gets. erewrite bind_Done by exact Hloop.
  erewrite bind_Done by by apply upd_timer_ok.
  set (t1 := t <| expire_time := Z.max e 0 |>). set (s1 := s <| timers := <[ts := t1]> (timers s) |>).
  erewrite bind_Done by (apply (load_at s1 k _ (snd <$> post)); by apply linked_idle).
  erewrite bind_Done by (apply upd_timer_ok; apply lookup_insert_eq).
  set (t2 := t1 <| next := head (snd <$> post) |>). cbn [s1 timers].
  set (s2 := set_field timers _ s1).
  assert (Hs2 : s2 = s <| timers := <[ts := t2]> (timers s) |>).
  { unfold s2, s1. cbn. unfold set_field. cbn. by rewrite insert_insert_eq. }
  rewrite Hs2.
  assert (Hnd : NoDup ((snd <$> pre) ++ (snd <$> post)))
    by (rewrite <- fmap_app; by apply (rep_nodup _ _ Hrep k)).
  assert (Hk2 : linked (s <| timers := <[ts := t2]> (timers s) |>) k ((snd <$> pre) ++ (snd <$> post)))
    by by apply linked_idle.
  apply NoDup_app in Hnd as (Hndp & Hdis & _).
  destruct (store_at _ k (snd <$> pre) (snd <$> post) (ts :: (snd <$> post)) (Some ts) Hk2)
    as (s' & Hs' & Hlk & Hr); [done | | set_solver |].
  { destruct Hk2 as (L & _ & Hc%chain_suffix). split; [done |]. exists t2. cbn.
    split; [apply lookup_insert_eq | exact Hc]. }
  exists s', pre, post. split; [done |]. split; [done |].
  split; [| split; [by rewrite Hq, fmap_app | done]].
  erewrite bind_Done by exact Hs'. unfold mret, M_ret. f_equal. clear.
  destruct pre as [|x pre _] using rev_ind; [done |]. rewrite fmap_app, last_app. cbn.
  symmetry. apply bool_decide_eq_false. by destruct pre.
Qed.

Lemma mod_locked_rep s q k l ts t e :
  rep s q -> timers s !! ts = Some t -> timer_list t = k -> expire_time t = -1 -> q !! k = Some l ->
  exists s', timer_mod_ns_locked k ts e s = Done (bool_decide (head (q_insert e ts l) = Some (Z.max e 0, ts))) s' [] /\
    rep s' (<[k := q_insert e ts l]> q) /\ framed s s'.
Proof.
  intros Hrep Ht Htl Hidle Hl. pose proof (idle_absent _ _ _ _ _ _ Hrep Ht Hidle Hl) as Hts.
  destruct (mod_locked_run s q k l ts t e Hrep Ht Hl Hts)
    as (s' & pre & post & Hsplit & Hq & Hrun & Hlk & [Hfr He Htm Hls]).
  exists s'. cbn in Htm, Hls, He. set (t' := set_field next _ _) in *.
  assert (Hfr' : framed s s') by (etrans; [by apply (set_timer_framed s ts t t') | done]).
  split; [| split; [| done]].
  { rewrite Hrun. f_equal. rewrite Hq. apply bool_decide_ext. subst l. destruct pre as [|x pre]; [done |].
    cbn. split; [done |]. intros [= ->]. exfalso. apply Hts. set_solver. }
  assert (Hexp : forall p t3, timers s' !! p = Some t3 ->
    expire_time t3 = if decide (p = ts) then Z.max e 0 else default 0 (expire_time <$> timers s !! p)).
  { intros p t3 Ht3. destruct (fmap_lookup_l expire_time _ _ p t3 (eq_sym He) Ht3) as (t2 & Ht2 & <-).
    revert Ht2. cbn. destruct (decide (p = ts)) as [-> |].
    - rewrite lookup_insert_eq. by intros [= <-].
    - rewrite lookup_insert_ne by done. by intros ->. }
  pose proof (q_insert_perm e ts l) as Hperm.
  apply (rep_update s); try done.
  - intros p t2 Ht2 Hk. rewrite Htm.
    + rewrite lookup_insert_ne; [done |]. intros <-. congruence.
    + intros Hp. destruct (rep_list_entry _ _ _ _ p Hrep Hl) as (t3 & Ht3 & ? & _); [| congruence].
      subst l. rewrite fmap_app. set_solver.
  - rewrite Hperm, fmap_cons. constructor; [done | by apply (rep_nodup _ _ Hrep k)].
  - apply q_insert_sorted; [| by apply (rep_sorted _ _ Hrep k)].
    apply Forall_forall. intros [d p] Hin. by apply (rep_entry _ _ Hrep k l d p).
  - intros d p [[= -> ->] | Hin]%elem_of_q_insert.
    + split; [lia |]. destruct (framed_timer s s' ts t Hfr' Ht) as (t3 & Ht3 & Hm3%tmeta_list).
      exists t3. split; [done |]. split; [congruence |]. rewrite (Hexp _ _ Ht3). by case_decide.
    + destruct (rep_entry _ _ Hrep k l d p Hl Hin) as (Hpos & t2 & Ht2 & Htl2 & Hte). split; [done |].
      destruct (framed_timer s s' p t2 Hfr' Ht2) as (t3 & Ht3 & Hm3%tmeta_list). exists t3.
      split; [done |]. split; [congruence |]. rewrite (Hexp _ _ Ht3), Ht2. case_decide; [| done].
      subst p. exfalso. apply Hts. apply list_elem_of_fmap. by exists (d, ts).
  - intros p t3 Ht3 Htl3. rewrite (Hexp _ _ Ht3). case_decide as Hp.
    { right. apply elem_of_q_insert. left. congruence. }
    destruct (framed_timer' s s' p t3 Hfr' Ht3) as (t2 & Ht2 & Hm2%tmeta_list).
    destruct (rep_timer _ _ Hrep p t2 Ht2) as (l2 & Hl2 & Hin). rewrite Ht2. cbn.
    destruct Hin as [? | Hin]; [by left | right]. apply elem_of_q_insert. right.
    assert (l2 = l) as -> by congruence. done.
Qed.

(** Interrupting the wait of a list's thread, when its first timer changes. *)
Definition wakes (s : tstate) (k : nat) : list tevent :=
  match tlists s !! k with
  | Some l => [ClockWarp (clock_type (qemu_clocks s (tl_clock l)));
               match notify_cb l with Some f => NotifyCb f (notify_opaque l) | None => NotifyEvent end]
  | None => []
  end.

Lemma framed_wakes s s' k : framed s s' -> wakes s' k = wakes s k.
Proof.
  intros Hf. unfold wakes. pose proof (f_equal (.!! k) (fr_lists _ _ Hf)) as Hk.
  rewrite !lookup_fmap in Hk. rewrite (fr_clocks _ _ Hf).
  destruct (tlists s' !! k) as [[] |], (tlists s !! k) as [[] |]; try done.
  unfold lmeta, set_field in Hk. cbn in Hk. by simplify_eq.
Qed.

Lemma notify_run s k l :
  tlists s !! k = Some l ->
  timerlist_notify k s =
    Done () s [match notify_cb l with Some f => NotifyCb f (notify_opaque l) | None => NotifyEvent end].
Proof.
  intros Hl. unfold timerlist_notify. erewrite bind_Done by by apply get_tlist_ok.
  by destruct (notify_cb l).
Qed.

Lemma get_clock_run s k l :
  tlists s !! k = Some l ->
  timerlist_get_clock k s = Done (clock_type (qemu_clocks s (tl_clock l))) s [].
Proof.
  intros Hl. unfold timerlist_get_clock. erewrite bind_Done by by apply get_tlist_ok. done.
Qed.

Lemma rearm_run s k : is_Some (tlists s !! k) -> timerlist_rearm k s = Done () s (wakes s k).
Proof.
  intros [l Hl]. unfold timerlist_rearm, wakes. rewrite Hl.
  erewrite bind_Done by by apply get_clock_run. unfold mbind, M_bind. cbn.
  by rewrite (notify_run _ _ _ Hl).
Qed.

Lemma when_rearm s s0 q k (b : bool) :
  rep s q -> is_Some (q !! k) -> framed s0 s ->
  when b (timerlist_rearm k) s = Done () s (if b then wakes s0 k else []).
Proof.
  intros Hrep Hk Hf. destruct b; [| done]. cbn. rewrite <- (framed_wakes _ _ _ Hf).
  apply rearm_run. by apply (rep_dom _ _ Hrep).
Qed.

(** The abstract operations: the list of each timer and the queues. *)
Record aqueues : Type := mkQueues {
  own : gmap nat nat;
  qs : gmap nat queue
}.

Inductive timer_op : Type :=
  | TInit (ts k : nat) (sc : Z) (f opq : nat)
  | TMod (ts : nat) (e : Z)
  | TAnticipate (ts : nat) (e : Z)
  | TDel (ts : nat).

Fixpoint q_deadline (ts : nat) (q : queue) : option Z :=
  match q with
  | [] => None
  | x :: q => if decide (x.2 = ts) then Some x.1 else q_deadline ts q
  end.

Lemma q_deadline_in e ts q : NoDup (snd <$> q) -> (e, ts) ∈ q -> q_deadline ts q = Some e.
Proof.
  induction q as [|x q IH]; intros Hnd Hin; [set_solver |]. cbn in *.
  apply NoDup_cons in Hnd as [Hx Hnd]. apply elem_of_cons in Hin as [<- | Hin].
  - by rewrite decide_True.
  - rewrite decide_False by (intros Hx2; apply Hx; rewrite Hx2; apply list_elem_of_fmap; by exists (e, ts)).
    by apply IH.
Qed.

Lemma q_deadline_absent ts q : ts ∉ (snd <$> q) -> q_deadline ts q = None.
Proof.
  induction q as [|x q IH]; intros Hts; [done |]. rewrite fmap_cons in Hts. cbn.
  rewrite decide_False, IH by set_solver. done.
Qed.

(** A new queue of the list [k], and the list if its first timer is [ts]. *)
Definition a_arm (a : aqueues) (k ts : nat) (e : Z) (l : queue) : aqueues * list nat :=
  (mkQueues (own a) (<[k := q_insert e ts l]> (qs a)),
   if bool_decide (head (q_insert e ts l) = Some (Z.max e 0, ts)) then [k] else []).

(** [None]: a timer or a list that does not exist, or [timer_init] of a timer
    that is in a list. *)
Definition a_step (a : aqueues) (o : timer_op) : option (aqueues * list nat) :=
  match o with
  | TInit ts k _ _ _ =>
      _ ← qs a !! k;
      if decide (map_Forall (λ _ l, ts ∉ (snd <$> l)) (qs a))
      then Some (mkQueues (<[ts := k]> (own a)) (qs a), []) else None
  | TMod ts e =>
      k ← own a !! ts; l ← qs a !! k;
      Some (a_arm a k ts e (q_del ts l))
  | TAnticipate ts e =>
      k ← own a !! ts; l ← qs a !! k;
      match q_deadline ts l with
      | Some d => if d <=? e then Some (a, []) else Some (a_arm a k ts e (q_del ts l))
      | None => Some (a_arm a k ts e l)
      end
  | TDel ts =>
      k ← own a !! ts; l ← qs a !! k;
      Some (mkQueues (own a) (<[k := q_del ts l]> (qs a)), [])
  end.

Fixpoint a_run (a : aqueues) (os : list timer_op) : option (aqueues * list nat) :=
  match os with
  | [] => Some (a, [])
  | o :: os => '(a1, k1) ← a_step a o; '(a2, k2) ← a_run a1 os; Some (a2, k1 ++ k2)
  end.

Definition do_op (o : timer_op) : TM unit :=
  match o with
  | TInit ts k sc f opq => timer_init ts k sc f opq
  | TMod ts e => timer_mod_ns ts e
  | TAnticipate ts e => timer_mod_anticipate_ns ts e
  | TDel ts => timer_del ts
  end.

Definition represents (s : tstate) (a : aqueues) : Prop :=
  rep s (qs a) /\ timer_list <$> timers s = own a.

Lemma framed_own s s' : framed s s' -> timer_list <$> timers s' = timer_list <$> timers s.
Proof.
  intros Hf. apply map_eq. intros p. rewrite !lookup_fmap.
  pose proof (f_equal (.!! p) (fr_timers _ _ Hf)) as Hp. rewrite !lookup_fmap in Hp.
  destruct (timers s' !! p) as [t' |], (timers s !! p) as [t |]; try done.
  cbn in *. injection Hp as Hp. congruence.
Qed.

Lemma represents_timer s a ts k :
  represents s a -> own a !! ts = Some k ->
  exists t, timers s !! ts = Some t /\ timer_list t = k.
Proof.
  intros [_ <-]. rewrite lookup_fmap. destruct (timers s !! ts) as [t |]; [| done].
  intros [= <-]. by exists t.
Qed.

Lemma mod_run s a k l ts e :
  represents s a -> own a !! ts = Some k -> qs a !! k = Some l ->
  let '(a', ks) := a_arm a k ts e (q_del ts l) in
  exists s', timer_mod_ns ts e s = Done () s' (ks ≫= wakes s) /\ represents s' a' /\ framed s s'.
Proof.
  intros Ha Hk Hl. destruct (represents_timer _ _ _ _ Ha Hk) as (t & Ht & Htl).
  destruct Ha as [Hrep Hown]. unfold timer_mod_ns.
  erewrite bind_Done by by apply get_timer_ok. cbn zeta. rewrite Htl.
  destruct (del_locked_rep s _ k l ts t Hrep Ht Htl Hl) as (s1 & Hs1 & Hrep1 & Hf1 & t1 & Ht1 & He1).
  erewrite bind_Done by exact Hs1.
  destruct (framed_timer _ _ _ _ Hf1 Ht) as (t1' & Ht1' & Hm%tmeta_list).
  destruct (mod_locked_rep s1 _ k (q_del ts l) ts t1 e Hrep1 Ht1) as (s2 & Hs2 & Hrep2 & Hf2);
    [congruence | done | apply lookup_insert_eq |].
  rewrite insert_insert_eq in Hrep2. assert (Hf : framed s s2) by by etrans.
  cbn [a_arm]. exists s2. split; [| split; [| done]].
  - erewrite bind_Done by exact Hs2. erewrite when_rearm; [| exact Hrep2 | | exact Hf].
    + case_bool_decide; cbn; by rewrite ?app_nil_r.
    + rewrite lookup_insert_eq. by eexists.
  - split; [done |]. cbn. by rewrite (framed_own _ _ Hf).
Qed.

Lemma del_run s a k l ts :
  represents s a -> own a !! ts = Some k -> qs a !! k = Some l ->
  exists s', timer_del ts s = Done () s' [] /\
    represents s' (mkQueues (own a) (<[k := q_del ts l]> (qs a))) /\ framed s s'.
Proof.
  intros Ha Hk Hl. destruct (represents_timer _ _ _ _ Ha Hk) as (t & Ht & Htl).
  destruct Ha as [Hrep Hown]. unfold timer_del. erewrite bind_Done by by apply get_timer_ok.
  rewrite Htl. destruct (del_locked_rep s _ k l ts t Hrep Ht Htl Hl) as (s1 & Hs1 & Hrep1 & Hf1 & _).
  exists s1. split; [done |]. split; [| done]. split; [done |]. cbn. by rewrite (framed_own _ _ Hf1).
Qed.

Lemma anticipate_run s a k l ts e a' ks :
  represents s a -> own a !! ts = Some k -> qs a !! k = Some l ->
  a_step a (TAnticipate ts e) = Some (a', ks) ->
  exists s', timer_mod_anticipate_ns ts e s = Done () s' (ks ≫= wakes s) /\ represents s' a' /\ framed s s'.
Proof.
  intros Ha Hk Hl Hstep. destruct (represents_timer _ _ _ _ Ha Hk) as (t & Ht & Htl).
  pose proof Ha as [Hrep Hown]. unfold timer_mod_anticipate_ns.
  cbn [a_step] in Hstep. rewrite Hk in Hstep. cbn [mbind option_bind] in Hstep. rewrite Hl in Hstep.
  cbn [mbind option_bind] in Hstep.
  erewrite bind_Done by by apply get_timer_ok. cbn zeta. rewrite Htl.
  destruct (rep_timer _ _ Hrep ts t Ht) as (l' & Hl' & Hin). rewrite Htl, Hl in Hl'.
  injection Hl' as <-. destruct Hin as [Hidle | Hin].
  - (* idle *)
    rewrite (q_deadline_absent ts l) in Hstep by by eapply idle_absent. injection Hstep as <- <-.
    rewrite Hidle. cbn [Z.eqb orb negb when].
    destruct (mod_locked_rep s _ k l ts t e Hrep Ht Htl Hidle Hl) as (s2 & Hs2 & Hrep2 & Hf2).
    exists s2. split; [| split; [split; [done |]; cbn; by rewrite (framed_own _ _ Hf2) | done]].
    assert (Hm : (mret () ;; timer_mod_ns_locked k ts e) s = timer_mod_ns_locked k ts e s)
      by exact (bind_Done (mret ()) (λ _, timer_mod_ns_locked k ts e) s () s eq_refl).
    rewrite Hs2 in Hm. erewrite bind_Done by exact Hm.
    erewrite when_rearm; [| exact Hrep2 | | exact Hf2].
    + case_bool_decide; cbn; by rewrite ?app_nil_r.
    + rewrite lookup_insert_eq. by eexists.
  - destruct (rep_entry _ _ Hrep k l _ _ Hl Hin) as (Hpos & _).
    rewrite (q_deadline_in _ _ _ (rep_nodup _ _ Hrep k l Hl) Hin) in Hstep.
    rewrite (proj2 (Z.eqb_neq _ _)) by lia. cbn [orb negb when].
    destruct (Z.leb_spec (expire_time t) e) as [Hle | Hlt].
    + injection Hstep as <- <-. rewrite Z.gtb_ltb, (proj2 (Z.ltb_ge _ _)) by lia.
      exists s. split; [done |]. split; [done |]. reflexivity.
    + injection Hstep as <- <-. rewrite Z.gtb_ltb, (proj2 (Z.ltb_lt _ _)) by lia.
      destruct (mod_run s a k l ts e Ha Hk Hl) as (s2 & Hs2 & Hr). exists s2.
      split; [| done]. cbn [a_arm snd fst] in Hs2. rewrite <- Hs2. unfold timer_mod_ns.
      erewrite (bind_Done (get_timer ts)) by by apply get_timer_ok. cbn zeta. rewrite Htl.
      destruct (del_locked_rep s _ k l ts t Hrep Ht Htl Hl) as (s1 & Hs1 & _).
      erewrite (bind_Done (timer_del_locked k ts)) by exact Hs1.
      assert (Hm : (timer_del_locked k ts ;; timer_mod_ns_locked k ts e) s = timer_mod_ns_locked k ts e s1)
        by exact (bind_Done _ (λ _, timer_mod_ns_locked k ts e) _ _ _ Hs1).
      unfold mbind at 1, M_bind at 1. rewrite Hm. done.
Qed.

Lemma init_run s a ts k sc f opq a' ks :
  represents s a -> a_step a (TInit ts k sc f opq) = Some (a', ks) ->
  exists s', timer_init ts k sc f opq s = Done () s' (ks ≫= wakes s) /\ represents s' a' /\
    forall j, wakes s' j = wakes s j.
Proof.
  intros [Hrep Hown] Hstep. cbn in Hstep. destruct (qs a !! k) as [l |] eqn:Hl; [| done]. cbn in Hstep.
  case_decide as Habs; [| done]. injection Hstep as <- <-. eexists. split; [done |].
  split; [| done]. set (t := mkTimer _ _ _ _ _ _). split; cbn; [| by rewrite fmap_insert, Hown].
  destruct Hrep as [Hdom Hlk Hnd Hs He Ht]. split; cbn; try done.
  - intros j l' Hl'. apply linked_idle; [by apply Hlk | by apply (Habs j)].
  - intros j l' e p Hl' Hin. destruct (He j l' e p Hl' Hin) as (Hpos & t' & Ht' & Htl & Hte).
    split; [done |]. exists t'. rewrite lookup_insert_ne; [done |]. intros ->.
    apply (Habs j l' Hl'). apply list_elem_of_fmap. by exists (e, p).
  - intros p t' [[<- <-] | [Hne Ht']]%lookup_insert_Some; [| by apply Ht].
    exists l. split; [done |]. by left.
Qed.

Lemma step_refines s a o a' ks :
  represents s a -> a_step a o = Some (a', ks) ->
  exists s', do_op o s = Done () s' (ks ≫= wakes s) /\ represents s' a' /\
    forall j, wakes s' j = wakes s j.
Proof.
  intros Ha Hstep. destruct o as [ts k sc f opq | ts e | ts e | ts]; [by eapply init_run | | |];
    pose proof Hstep as Hstep0; cbn in Hstep; destruct (own a !! ts) as [k |] eqn:Hk; try done;
    cbn in Hstep; destruct (qs a !! k) as [l |] eqn:Hl; try done; cbn in Hstep.
  - injection Hstep as <- <-. destruct (mod_run s a k l ts e Ha Hk Hl) as (s' & Hs' & Hr & Hf).
    exists s'. split; [exact Hs' |]. split; [exact Hr |]. intros j. by apply framed_wakes.
  - destruct (anticipate_run s a k l ts e a' ks Ha Hk Hl Hstep0) as (s' & Hs' & Hr & Hf).
    exists s'. split; [exact Hs' |]. split; [exact Hr |]. intros j. by apply framed_wakes.
  - injection Hstep as <- <-. destruct (del_run s a k l ts Ha Hk Hl) as (s' & Hs' & Hr & Hf).
    exists s'. split; [exact Hs' |]. split; [exact Hr |]. intros j. by apply framed_wakes.
Qed.

Lemma run_refines os s a a' ks :
  represents s a -> a_run a os = Some (a', ks) ->
  exists s', for_each os do_op s = Done () s' (ks ≫= wakes s) /\ represents s' a'.
Proof.
  revert s a ks. induction os as [|o os IH]; intros s a ks Ha Hrun; cbn in Hrun.
  { injection Hrun as <- <-. by exists s. }
  destruct (a_step a o) as [[a1 k1] |] eqn:H1; [| done]. cbn in Hrun.
  destruct (a_run a1 os) as [[a2 k2] |] eqn:H2; [| done]. cbn in Hrun. injection Hrun as <- <-.
  destruct (step_refines _ _ _ _ _ Ha H1) as (s1 & Hs1 & Ha1 & Hw).
  destruct (IH s1 a1 k2 Ha1 H2) as (s2 & Hs2 & Ha2). exists s2. split; [| done]. cbn [for_each].
  erewrite bind_Done_trace by (exact Hs1 || exact Hs2). f_equal.
  rewrite bind_app. f_equal. apply list_bind_ext; [| done]. intros j. by rewrite Hw.
Qed.

(** C4 (timers_refine).  The linked timer lists of [qemu-timer.c] implement
    sorted queues of deadlines: a sequence of [timer_init], [timer_mod_ns],
    [timer_mod_anticipate_ns] and [timer_del] calls on existing timers
    completes (every walk along the [next] pointers ends), the lists of the
    heap are again the queues of the abstract sequence (sorted by deadline,
    equal deadlines in the order of arming, every pending timer in the queue of
    its list exactly once, every other timer in none), and the thread of a list
    is woken exactly when a call has made its timer the first of the list. *)
Theorem timers_refine s a os a' ks :
  represents s a -> a_run a os = Some (a', ks) ->
  exists s', for_each os do_op s = Done () s' (ks ≫= wakes s) /\ represents s' a'.
Proof. apply run_refines. Qed.

(** The state before [init_clocks] and after it. *)
Definition tstate0 : tstate :=
  mkState (λ _, mkClock [] [] 0 QEMU_CLOCK_REALTIME false) (λ _, None) ∅ ∅ 0.

Definition tstate1 : tstate :=
  match init_clocks tstate0 with Done _ s _ => s | Halt _ => tstate0 end.

Definition queues0 : aqueues := mkQueues ∅ {[0%nat := []; 1%nat := []; 2%nat := []]}.

(** [init_clocks] creates three enabled clocks with an empty list each. *)
Lemma init_clocks_ok :
  init_clocks tstate0 = Done () tstate1 [] /\ represents tstate1 queues0.
Proof.
  split; [vm_compute; reflexivity |]. split; [| vm_compute; reflexivity].
  assert (Hq : forall k l, qs queues0 !! k = Some l -> l = [] /\ (k = 0 \/ k = 1 \/ k = 2)%nat).
  { intros k l. cbn. rewrite !lookup_insert_Some, lookup_singleton_Some. naive_solver. }
  split.
  - intros k. rewrite <- !(elem_of_dom (D := gset nat)).
    assert (Hd : dom (tlists tstate1) =@{gset nat} dom (qs queues0)) by (vm_compute; reflexivity).
    by rewrite Hd.
  - intros k l [-> [-> | [-> | ->]]]%Hq; eexists; (split; [vm_compute; reflexivity | done]).
  - intros k l [-> _]%Hq. constructor.
  - intros k l [-> _]%Hq. constructor.
  - intros k l e p [-> _]%Hq Hin. set_solver.
  - intros p t Ht. assert (Htm : timers tstate1 = ∅) by (vm_compute; reflexivity).
    by rewrite Htm, lookup_empty in Ht.
Qed.

(** ** Running the timers of a list *)

(** The timers of a queue whose deadline has passed. *)
Definition due (now : Z) (q : queue) : queue := filter (λ x, x.1 <= now) q.

Definition is_callback (e : tevent) : bool := match e with Callback _ _ => true | _ => false end.
Definition callbacks (t : list tevent) : list tevent := filter (λ e, is_callback e = true) t.

(** The calls of the callbacks of the timers of a queue. *)
Definition calls_of (s : tstate) (q : queue) : list tevent :=
  omap (λ x, (λ t, Callback (cb t) (opaque t)) <$> timers s !! x.2) q.

Lemma framed_calls s s' q : framed s s' -> calls_of s' q = calls_of s q.
Proof.
  intros Hf. unfold calls_of. induction q as [|x q IH]; [done |]. cbn. rewrite IH.
  pose proof (f_equal (.!! x.2) (fr_timers _ _ Hf)) as Hp. rewrite !lookup_fmap in Hp.
  destruct (timers s' !! x.2) as [[] |], (timers s !! x.2) as [[] |]; try done.
  unfold tmeta, set_field in Hp. cbn in Hp. by simplify_eq.
Qed.

Lemma callbacks_app t1 t2 : callbacks (t1 ++ t2) = callbacks t1 ++ callbacks t2.
Proof. apply filter_app. Qed.

(** Nothing is due in a sorted queue whose first timer is not. *)
Lemma due_none now q : StronglySorted earlier q -> (forall x, head q = Some x -> now < x.1) -> due now q = [].
Proof.
  intros Hs Hh. destruct Hs as [|x q Hs Hx]; [done |]. specialize (Hh x eq_refl).
  unfold due. rewrite filter_cons_False by lia. induction Hx as [|y q Hy Hx IH]; [done |].
  unfold earlier in Hy. rewrite filter_cons_False by lia. apply IH. by inversion Hs.
Qed.

(** [s2]: the first timer has been taken off the list. *)
Lemma pop_rep s q k l e ts t L :
  rep s q -> q !! k = Some ((e, ts) :: l) -> timers s !! ts = Some t -> tlists s !! k = Some L ->
  let s1 := s <| tlists := <[k := L <| active_timers := next t |>]> (tlists s) |> in
  let s2 := s1 <| timers := <[ts := t <| next := None |> <| expire_time := -1 |>]> (timers s1) |> in
  rep s2 (<[k := l]> q) /\ framed s s2.
Proof.
  intros Hrep Hl Ht HL s1 s2.
  assert (Hf : framed s s2) by (split; cbn; try done; by eapply fmap_insert_same).
  split; [| done].
  destruct (rep_list_entry _ _ _ _ ts Hrep Hl) as (t' & Ht' & Htl & _); [set_solver |].
  assert (t' = t) as -> by congruence. pose proof (rep_nodup _ _ Hrep k _ Hl) as Hnd.
  rewrite fmap_cons in Hnd. apply NoDup_cons in Hnd as [Hts Hnd]. cbn in Hts.
  assert (Hother : forall p, p ≠ ts -> timers s2 !! p = timers s !! p)
    by (intros p Hp; cbn; by rewrite lookup_insert_ne).
  apply (rep_update s); try done.
  - intros j Hj. cbn. by rewrite lookup_insert_ne.
  - intros p t2 Ht2 Hk. rewrite Hother; [done |]. intros ->. congruence.
  - destruct (rep_linked _ _ Hrep k _ Hl) as (L' & HL' & Hc).
    assert (L' = L) as -> by congruence. destruct Hc as (_ & t3 & Ht3 & Hc). cbn in Ht3.
    assert (t3 = t) as -> by congruence.
    exists (L <| active_timers := next t |>). split; [apply lookup_insert_eq |].
    eapply chain_ext; [| exact Hc]. intros p Hp. rewrite Hother; [done |]. by intros ->.
  - pose proof (rep_sorted _ _ Hrep k _ Hl) as Hs. by inversion Hs.
  - intros d p Hin. destruct (rep_entry _ _ Hrep k _ d p Hl) as (Hpos & t2 & Ht2 & ? & ?); [set_solver |].
    split; [done |]. exists t2. rewrite Hother; [done |]. intros ->. apply Hts.
    apply list_elem_of_fmap. by exists (d, ts).
  - intros p t2 Ht2 Htl2. destruct (decide (p = ts)) as [-> | Hp].
    + cbn in Ht2. rewrite lookup_insert_eq in Ht2. injection Ht2 as <-. by left.
    + rewrite Hother in Ht2 by done. destruct (rep_timer _ _ Hrep p t2 Ht2) as (l' & Hl' & Hin).
      rewrite Htl2, Hl in Hl'. injection Hl' as <-. destruct Hin as [? | Hin]; [by left | right].
      apply elem_of_cons in Hin as [[= _ ->] | ?]; done.
Qed.

Section Firing.
  Context (run_cb : nat → nat → TM unit) (k : nat) (now : Z).

(** A callback may arm and cancel timers, but none of those of the list [k]
    that are due. *)
Definition callback_ok : Prop :=
  forall f opq s q l, rep s q -> q !! k = Some l ->
    exists s' t q' l', run_cb f opq s = Done () s' t /\ rep s' q' /\ q' !! k = Some l' /\
      due now l' = due now l /\ framed s s' /\ callbacks t = [].

Lemma run_loop_ok (Hcb : callback_ok) d : forall s q l fuel progress,
  rep s q -> q !! k = Some l -> due now l = d -> (length d < fuel)%nat ->
  exists s' t q' l',
    timerlist_run_loop run_cb fuel k now progress s =
      Done (progress || negb (bool_decide (d = []))) s' t /\
    rep s' q' /\ q' !! k = Some l' /\ due now l' = [] /\ framed s s' /\
    callbacks t = calls_of s d.
Proof.
  induction d as [|x d IH]; intros s q l fuel progress Hrep Hl Hd Hfuel;
    (destruct fuel as [|fuel]; cbn in Hfuel; [lia |]); cbn [timerlist_run_loop];
    destruct (rep_linked _ _ Hrep k l Hl) as (L & HL & Hc);
    pose proof (chain_head _ _ _ Hc) as Hh;
    rewrite (bind_Done _ _ _ _ _ (get_tlist_ok _ _ _ HL)), Hh.
  - (* nothing is due *)
    exists s, [], q, l. rewrite orb_false_r. split; [| done].
    destruct l as [|[e ts] l]; [done |]. cbn [fmap list_fmap head snd].
    destruct (rep_entry _ _ Hrep k _ e ts Hl) as (_ & t & Ht & _ & He); [set_solver |].
    erewrite bind_Done by by apply get_timer_ok. cbn [timer_expired_ns]. rewrite He.
    destruct (Z.leb_spec e now); [| done]. unfold due in Hd. rewrite filter_cons_True in Hd by done. done.
  - assert (exists l2, l = x :: l2 /\ due now l2 = d /\ x.1 <= now) as (l2 & -> & Hd2 & Hx).
    { destruct l as [|y l2]; [done |]. destruct (decide (y.1 <= now)) as [Hy | Hy].
      - unfold due in Hd. rewrite filter_cons_True in Hd by done. simplify_eq. eauto.
      - rewrite due_none in Hd; [done | by apply (rep_sorted _ _ Hrep k) |]. cbn. intros ? [= <-]. lia. }
    destruct x as [e ts]. cbn [fst] in Hx. cbn [fmap list_fmap head snd].
    destruct (rep_entry _ _ Hrep k _ e ts Hl) as (_ & t & Ht & _ & He); [set_solver |].
    erewrite bind_Done by by apply get_timer_ok. cbn [timer_expired_ns]. rewrite He.
    rewrite (proj2 (Z.leb_le _ _)) by done. cbn [negb].
    erewrite bind_Done by by apply upd_tlist_ok. erewrite bind_Done by by apply upd_timer_ok.
    destruct (pop_rep _ _ _ _ _ _ _ _ Hrep Hl Ht HL) as [Hrep2 Hf2]. set (s2 := set_field timers _ _) in *.
    destruct (Hcb (cb t) (opaque t) s2 _ l2 Hrep2) as (s3 & t3 & q3 & l3 & Hs3 & Hrep3 & Hl3 & Hd3 & Hf3 & Ht3);
      [apply lookup_insert_eq |].
    destruct (IH s3 q3 l3 fuel true Hrep3 Hl3) as (s4 & t4 & q4 & l4 & Hs4 & Hrep4 & Hl4 & Hd4 & Hf4 & Ht4);
      [congruence | lia |].
    assert (Hf03 : framed s s3) by by etrans.
    exists s4, (Callback (cb t) (opaque t) :: t3 ++ t4), q4, l4.
    split; [| split; [done |]; split; [done |]; split; [done |]; split; [by etrans |]].
    + unfold mbind at 1, M_bind at 1. cbn [emit]. erewrite bind_Done_trace by (exact Hs3 || exact Hs4).
      by rewrite orb_true_r.
    + change (Callback (cb t) (opaque t) :: t3 ++ t4) with ([Callback (cb t) (opaque t)] ++ t3 ++ t4).
      rewrite !callbacks_app, Ht3, Ht4, (framed_calls _ _ _ Hf03). cbn. by rewrite Ht.
Qed.

End Firing.

(** The time of a clock. *)
Definition clock_ns (h : host) (c : QEMUClockType) : Z :=
  match c with
  | QEMU_CLOCK_REALTIME => get_clock h
  | QEMU_CLOCK_VIRTUAL => if use_icount h then cpu_get_icount h else cpu_get_clock h
  | QEMU_CLOCK_HOST => get_clock_realtime h
  end.

(** [rep] does not speak about the clocks. *)
Lemma rep_ext s s' q : rep s q -> timers s' = timers s ->
  active_timers <$> tlists s' = active_timers <$> tlists s -> rep s' q.
Proof.
  intros [Hd Hl Hn Hs He Ht] Htm Hls. split; rewrite ?Htm; try done.
  - intros k. rewrite <- Hd. pose proof (f_equal (.!! k) Hls) as Hk. rewrite !lookup_fmap in Hk.
    by rewrite <- (fmap_is_Some active_timers (tlists s' !! k)), Hk, fmap_is_Some.
  - intros k l (L & HL & Hc)%Hl. destruct (fmap_lookup_l active_timers _ _ k L Hls HL) as (L' & HL' & Ha).
    exists L'. split; [done |]. by rewrite Htm, Ha.
Qed.

(** Reading a clock notifies the reset notifiers if the host's time of day has
    gone back, and changes only the last time read. *)
Lemma clock_get_run h c s :
  exists s' t, qemu_clock_get_ns h c s = Done (clock_ns h c) s' t /\
    timers s' = timers s /\ tlists s' = tlists s /\ callbacks t = [] /\
    (forall c', enabled (qemu_clocks s' c') = enabled (qemu_clocks s c') /\
       clock_type (qemu_clocks s' c') = clock_type (qemu_clocks s c') /\
       timerlists (qemu_clocks s' c') = timerlists (qemu_clocks s c')).
Proof.
  destruct c; [by exists s, [] | by exists s, [] |]. cbn [qemu_clock_get_ns].
  unfold qemu_clock_ptr. rewrite bind_gets. cbn zeta. unfold upd_clock. rewrite bind_modify.
  set (s1 := set_field qemu_clocks _ s).
  assert (Hc : forall c', enabled (qemu_clocks s1 c') = enabled (qemu_clocks s c') /\
    clock_type (qemu_clocks s1 c') = clock_type (qemu_clocks s c') /\
    timerlists (qemu_clocks s1 c') = timerlists (qemu_clocks s c'))
    by (intros c'; cbn; case_decide; by subst).
  set (ns := reset_notifiers _). destruct (_ <? _).
  - exists s1. eexists. cbn [when]. split; [| split; [done |]; split; [done |]; split; [| done]].
    + unfold notifier_list_notify. eapply bind_Done_trace; [apply for_each_emit | done].
    + rewrite callbacks_app. cbn. rewrite app_nil_r. by induction ns as [|n ns IH].
  - by exists s1, [].
Qed.

Definition done_ev (k : nat) (L : QEMUTimerList) (b : bool) (s : tstate) : tstate :=
  s <| tlists := <[k := L <| timers_done_ev := b |>]> (tlists s) |>.

Lemma done_ev_rep s q k L b : rep s q -> tlists s !! k = Some L -> rep (done_ev k L b s) q.
Proof. intros Hrep HL. eapply rep_ext; [done | done |]. cbn. by eapply fmap_insert_same. Qed.

(** C12 (run_timers_fires).  [timerlist_run_timers] on a list of an enabled
    clock calls exactly the callbacks of the timers whose deadline has passed,
    each once, in the order of their deadlines (equal deadlines in the order of
    arming), and no other; afterwards no timer of the list is due.  Callbacks
    may arm timers, also their own, for later times and cancel others. *)
Theorem run_timers_fires run_cb h fuel s q k l L now :
  rep s q -> q !! k = Some l -> tlists s !! k = Some L ->
  enabled (qemu_clocks s (tl_clock L)) = true ->
  clock_ns h (clock_type (qemu_clocks s (tl_clock L))) = now ->
  callback_ok run_cb k now -> (length (due now l) < fuel)%nat ->
  exists s' t q' l',
    timerlist_run_timers run_cb h fuel k s = Done (negb (bool_decide (due now l = []))) s' t /\
    rep s' q' /\ q' !! k = Some l' /\ due now l' = [] /\
    callbacks t = calls_of s (due now l).
Proof.
  intros Hrep Hl HL Hen Hnow Hcb Hfuel. unfold timerlist_run_timers.
  erewrite bind_Done by by apply upd_tlist_ok. set (s1 := set_field tlists _ s).
  assert (Hrep1 : rep s1 q) by by apply done_ev_rep.
  assert (HL1 : tlists s1 !! k = Some (L <| timers_done_ev := false |>)) by apply lookup_insert_eq.
  rewrite (bind_Done _ _ _ _ _ (get_tlist_ok _ _ _ HL1)). cbn [tl_clock].
  unfold qemu_clock_ptr. rewrite bind_gets. change (tl_clock (set_field _ _ L)) with (tl_clock L).
  change (qemu_clocks s1) with (qemu_clocks s). rewrite Hen. cbn [negb].
  destruct (clock_get_run h (clock_type (qemu_clocks s (tl_clock L))) s1)
    as (s2 & t2 & Hs2 & Htm2 & Hls2 & Ht2 & _). rewrite Hnow in Hs2.
  assert (Hrep2 : rep s2 q) by (eapply rep_ext; [exact Hrep1 | done | by rewrite Hls2]).
  destruct (run_loop_ok run_cb k now Hcb _ s2 q l fuel false Hrep2 Hl eq_refl Hfuel)
    as (s3 & t3 & q3 & l3 & Hs3 & Hrep3 & Hl3 & Hd3 & Hf3 & Ht3).
  rewrite <- Hls2 in HL1. destruct (framed_list _ _ _ _ Hf3 HL1) as (L3 & HL3 & _).
  eexists _, (t2 ++ t3), q3, l3. split; [| split; [| split; [done |]; split; [done |]]].
  - unfold mbind at 1, M_bind at 1. rewrite (bind_Done_trace _ _ _ _ _ _ _ _ _ Hs2 Hs3).
    rewrite (bind_Done _ _ _ _ _ (upd_tlist_ok _ _ _ _ HL3)). cbn. by rewrite app_nil_r.
  - by apply done_ev_rep.
  - rewrite callbacks_app, Ht2, Ht3. unfold calls_of. by rewrite Htm2.
Qed.

(** A disabled clock runs nothing. *)
Lemma disabled_runs_nothing run_cb h fuel s q k L :
  rep s q -> tlists s !! k = Some L -> enabled (qemu_clocks s (tl_clock L)) = false ->
  exists s', timerlist_run_timers run_cb h fuel k s = Done false s' [] /\ rep s' q.
Proof.
  intros Hrep HL Hen. unfold timerlist_run_timers. erewrite bind_Done by by apply upd_tlist_ok.
  set (s1 := set_field tlists _ s).
  assert (HL1 : tlists s1 !! k = Some (L <| timers_done_ev := false |>)) by apply lookup_insert_eq.
  rewrite (bind_Done _ _ _ _ _ (get_tlist_ok _ _ _ HL1)). unfold qemu_clock_ptr. rewrite bind_gets.
  change (tl_clock (set_field _ _ L)) with (tl_clock L). change (qemu_clocks s1) with (qemu_clocks s).
  rewrite Hen. cbn [negb]. erewrite bind_Done by done.
  rewrite (bind_Done _ _ _ _ _ (upd_tlist_ok _ _ _ _ HL1)). eexists. split; [done |].
  apply done_ev_rep; [by apply done_ev_rep | done].
Qed.

(** ** Deadlines *)

(** The time until the first timer of a list, [-1] for none. *)
Definition list_wait (h : host) (s : tstate) (q : gmap nat queue) (k : nat) : Z :=
  match tlists s !! k, q !! k with
  | Some L, Some ((e, _) :: _) =>
      let c := qemu_clocks s (tl_clock L) in
      if enabled c then Z.max 0 (e - clock_ns h (clock_type c)) else -1
  | _, _ => -1
  end.

(** Times and deadlines below [2 ^ 63], whose difference fits. *)
Definition times_fit (h : host) (q : gmap nat queue) : Prop :=
  (forall c, 0 <= clock_ns h c < 2 ^ 63) /\
  (forall k l e p, q !! k = Some l -> (e, p) ∈ l -> e < 2 ^ 63).

(** Reading clocks does not change what deadlines depend on. *)
Record same_view (s s' : tstate) : Prop := {
  sv_timers : timers s' = timers s;
  sv_lists : tlists s' = tlists s;
  sv_enabled : forall c, enabled (qemu_clocks s' c) = enabled (qemu_clocks s c);
  sv_type : forall c, clock_type (qemu_clocks s' c) = clock_type (qemu_clocks s c);
  sv_timerlists : forall c, timerlists (qemu_clocks s' c) = timerlists (qemu_clocks s c)
}.

Lemma same_view_trans s s1 s2 : same_view s s1 -> same_view s1 s2 -> same_view s s2.
Proof. intros [] []. split; congruence. Qed.

Lemma same_view_rep s s' q : same_view s s' -> rep s q -> rep s' q.
Proof. intros [Ht Hl _ _ _] Hrep. eapply rep_ext; [done | done |]. by rewrite Hl. Qed.

Lemma same_view_wait h s s' q k : same_view s s' -> list_wait h s' q k = list_wait h s q k.
Proof.
  intros [Ht Hl He Hty _]. unfold list_wait. rewrite Hl. destruct (tlists s !! k); [| done].
  cbn. by rewrite He, Hty.
Qed.

Lemma deadline_run h s q k :
  rep s q -> times_fit h q -> is_Some (tlists s !! k) ->
  exists s' t, timerlist_deadline_ns h k s = Done (list_wait h s q k) s' t /\ same_view s s'.
Proof.
  intros Hrep [Hnow Hq] [L HL]. unfold timerlist_deadline_ns, list_wait. rewrite HL.
  rewrite (bind_Done _ _ _ _ _ (get_tlist_ok _ _ _ HL)). unfold qemu_clock_ptr. rewrite bind_gets.
  set (c := qemu_clocks s (tl_clock L)).
  destruct (proj1 (rep_dom _ _ Hrep k) ltac:(by eexists)) as [l Hl]. rewrite Hl.
  destruct (enabled c); cbn [negb]; [| exists s, []; split; [by destruct l as [|[]] | by split]].
  destruct (rep_linked _ _ Hrep k l Hl) as (L' & HL' & Hc). assert (L' = L) as -> by congruence.
  rewrite (chain_head _ _ _ Hc). destruct l as [|[e ts] l]; [by exists s, [] |]. cbn [fmap list_fmap head snd].
  destruct (rep_entry _ _ Hrep k _ e ts Hl) as (He0 & t & Ht & _ & He); [set_solver |].
  rewrite (bind_Done _ _ _ _ _ (get_timer_ok _ _ _ Ht)). rewrite He.
  destruct (clock_get_run h (clock_type c) s) as (s' & t' & Hs' & Htm & Hls & _ & Hcl).
  exists s', (t' ++ []). split; [| split; [done | done | apply Hcl | apply Hcl | apply Hcl]].
  eapply bind_Done_trace; [exact Hs' |]. unfold mret, M_ret. f_equal.
  specialize (Hnow (clock_type c)). specialize (Hq k _ e ts Hl ltac:(set_solver)).
  rewrite i64_small by lia. destruct (Z.leb_spec (e - clock_ns h (clock_type c)) 0); lia.
Qed.

(** A timeout: [-1] for none. *)
Definition is_timeout (d : Z) : Prop := -1 <= d < 2 ^ 63.

(** [-1] counts as later than every other timeout. *)
Lemma soonest_spec a b :
  is_timeout a -> is_timeout b ->
  qemu_soonest_timeout a b = if a =? -1 then b else if b =? -1 then a else Z.min a b.
Proof.
  unfold is_timeout, qemu_soonest_timeout. intros Ha Hb.
  assert (Hu : forall x, is_timeout x -> u64 x = if x =? -1 then 2 ^ 64 - 1 else x).
  { intros x Hx. unfold is_timeout in Hx. destruct (Z.eqb_spec x (-1)) as [-> |]; [done |]. apply u64_small. lia. }
  rewrite !Hu by done. destruct (Z.eqb_spec a (-1)), (Z.eqb_spec b (-1)); subst;
    match goal with |- context [?x <? ?y] => destruct (Z.ltb_spec x y) end; lia.
Qed.

Lemma list_wait_timeout h s q k : times_fit h q -> is_timeout (list_wait h s q k).
Proof.
  intros [Hnow Hq]. unfold list_wait, is_timeout. destruct (tlists s !! k) as [L |]; [| lia].
  destruct (q !! k) as [[|[e p] l] |] eqn:Hk; [lia | | lia].
  specialize (Hq k _ e p Hk ltac:(set_solver)). destruct (enabled _); [| lia].
  specialize (Hnow (clock_type (qemu_clocks s (tl_clock L)))). lia.
Qed.

(** [d] is the soonest of the timeouts [ds]. *)
Definition soonest_of (ds : list Z) (d : Z) : Prop :=
  (d = -1 /\ Forall (λ x, x = -1) ds) \/ (0 <= d /\ d ∈ ds /\ Forall (λ x, x = -1 \/ d <= x) ds).

Lemma soonest_snoc ds d x :
  Forall is_timeout ds -> is_timeout x -> soonest_of ds d ->
  soonest_of (ds ++ [x]) (qemu_soonest_timeout d x).
Proof.
  intros Hds Hx Hd. assert (Hd' : is_timeout d).
  { destruct Hd as [[-> _] | (_ & Hin & _)]; [unfold is_timeout; lia |]. by rewrite Forall_forall in Hds; apply Hds. }
  rewrite soonest_spec by done. unfold is_timeout in *. unfold soonest_of.
  rewrite !Forall_app, !Forall_singleton, elem_of_app, list_elem_of_singleton.
  destruct Hd as [[-> Hall] | (Hd0 & Hin & Hall)]; cbn.
  - destruct (decide (x = -1)) as [-> |]; [by left | right]. split; [lia |]. split; [by right |].
    split; [| by right]. eapply Forall_impl; [done |]. intros y ->. by left.
  - right. rewrite (proj2 (Z.eqb_neq d (-1))) by lia. destruct (Z.eqb_spec x (-1)) as [-> |].
    + split; [done |]. split; [by left |]. split; [done | by left].
    + split; [lia |]. destruct (Z.min_spec d x) as [[? ->] | [? ->]].
      * split; [by left |]. split; [done | right; lia].
      * split; [by right |]. split; [| right; lia]. eapply Forall_impl; [done |]. cbn. lia.
Qed.

(** The lists of a group that count for its deadline. *)
Definition used (h : host) (c : QEMUClockType) : bool := qemu_clock_use_for_deadline h c.

Lemma group_fold h q tlg (s0 : tstate) cs : forall s ds d,
  rep s q -> same_view s0 s -> times_fit h q ->
  (forall c, exists L, tlists s0 !! tlg c = Some L /\ clock_type (qemu_clocks s0 (tl_clock L)) = c) ->
  Forall is_timeout ds -> soonest_of ds d ->
  exists d' s' t,
    for_fold cs d (λ deadline c,
      type ← timerlist_get_clock (tlg c);
      if qemu_clock_use_for_deadline h type then
        d ← timerlist_deadline_ns h (tlg c); mret (qemu_soonest_timeout deadline d)
      else mret deadline) s = Done d' s' t /\ same_view s0 s' /\
    soonest_of (ds ++ ((λ c, list_wait h s0 q (tlg c)) <$> filter (λ c, used h c = true) cs)) d'.
Proof.
  induction cs as [|c cs IH]; intros s ds d Hrep Hsv Hfit Hg Hds Hd; cbn [for_fold].
  { exists d, s, []. by rewrite app_nil_r. }
  destruct (Hg c) as (L & HL & Hty). pose proof HL as HLs. rewrite <- (sv_lists _ _ Hsv) in HLs.
  assert (Hgc : timerlist_get_clock (tlg c) s = Done c s [])
    by (rewrite (get_clock_run _ _ _ HLs), (sv_type _ _ Hsv), Hty; done).
  destruct (qemu_clock_use_for_deadline h c) eqn:Hu.
  - rewrite filter_cons_True by exact Hu.
    destruct (deadline_run h s q (tlg c) Hrep Hfit) as (s1 & t1 & Hs1 & Hsv1); [by eexists |].
    pose proof (same_view_trans _ _ _ Hsv Hsv1) as Hsv01.
    destruct (IH s1 (ds ++ [list_wait h s q (tlg c)]) (qemu_soonest_timeout d (list_wait h s q (tlg c))))
      as (d' & s' & t & Hrun & Hsv' & Hsoon); try done.
    + apply (same_view_rep s); done.
    + apply Forall_app. split; [done |]. apply Forall_singleton. by apply list_wait_timeout.
    + apply soonest_snoc; [done | by apply list_wait_timeout | done].
    + exists d', s', ((t1 ++ []) ++ t). split; [| split; [done |]].
      * eapply bind_Done_trace; [| exact Hrun].
        rewrite (bind_Done _ _ _ _ _ Hgc), Hu. eapply bind_Done_trace; [exact Hs1 | done].
      * rewrite <- app_assoc in Hsoon. cbn in Hsoon.
        by rewrite (same_view_wait _ _ _ _ _ Hsv) in Hsoon.
  - rewrite filter_cons_False by (unfold used; by rewrite Hu).
    destruct (IH s ds d) as (d' & s' & t & Hrun & Hsv' & Hsoon); try done.
    exists d', s', ([] ++ t). split; [| done].
    eapply bind_Done_trace; [| exact Hrun]. rewrite (bind_Done _ _ _ _ _ Hgc), Hu. done.
Qed.

(** What a deadline says about the timers of a list. *)
Lemma list_wait_none h s q k L l :
  tlists s !! k = Some L -> q !! k = Some l -> times_fit h q ->
  enabled (qemu_clocks s (tl_clock L)) = true -> list_wait h s q k = -1 -> l = [].
Proof.
  intros HL Hl [Hnow Hq] Hen. unfold list_wait. rewrite HL, Hl, Hen. destruct l as [|[e p] l]; [done | lia].
Qed.

Lemma list_wait_due h s q k L l d :
  rep s q -> tlists s !! k = Some L -> q !! k = Some l ->
  enabled (qemu_clocks s (tl_clock L)) = true ->
  list_wait h s q k = -1 \/ d <= list_wait h s q k ->
  0 < d -> due (clock_ns h (clock_type (qemu_clocks s (tl_clock L))) + d - 1) l = [].
Proof.
  intros Hrep HL Hl Hen Hw Hd. apply due_none; [by apply (rep_sorted _ _ Hrep k) |].
  intros [e p] Hh. destruct l as [|[e' p'] l]; [done |]. injection Hh as -> ->. cbn.
  unfold list_wait in Hw. rewrite HL, Hl, Hen in Hw. lia.
Qed.

(** C32 (deadline_is_exact).  [timerlistgroup_deadline_ns] says how long the
    event loop may sleep: with the result [-1] no clock that counts has a timer;
    with a result [d] some timer is due when [d] nanoseconds have passed, and
    none is due earlier, so that no timer is late and no wakeup is wasted. *)
Theorem deadline_is_exact h s q tlg :
  rep s q -> times_fit h q ->
  (forall c, exists L, tlists s !! tlg c = Some L /\ clock_type (qemu_clocks s (tl_clock L)) = c) ->
  exists d s' t, timerlistgroup_deadline_ns h tlg s = Done d s' t /\ -1 <= d /\
    (forall c L l, qemu_clock_use_for_deadline h c = true -> tlists s !! tlg c = Some L ->
       enabled (qemu_clocks s (tl_clock L)) = true -> q !! tlg c = Some l ->
       (d = -1 -> l = []) /\ (0 < d -> due (clock_ns h c + d - 1) l = [])) /\
    (0 <= d -> exists c L l, qemu_clock_use_for_deadline h c = true /\ tlists s !! tlg c = Some L /\
       enabled (qemu_clocks s (tl_clock L)) = true /\ q !! tlg c = Some l /\
       due (clock_ns h c + d) l <> []).
Proof.
  intros Hrep Hfit Hg. destruct (group_fold h q tlg s clock_types s [] (-1))
    as (d & s' & t & Hrun & _ & Hsoon); try done; [by left |].
  cbn [app] in Hsoon.
  assert (Hin : forall c, qemu_clock_use_for_deadline h c = true ->
    list_wait h s q (tlg c) ∈ ((λ c, list_wait h s q (tlg c)) <$> filter (λ c, used h c = true) clock_types)).
  { intros c Hc. apply list_elem_of_fmap. exists c. split; [done |]. apply list_elem_of_filter.
    split; [done |]. unfold clock_types. destruct c; set_solver. }
  exists d, s', t. split; [done |]. split; [destruct Hsoon as [[-> _] | [? _]]; lia |]. split.
  - intros c L l Hc HL Hen Hl. specialize (Hin c Hc). destruct (Hg c) as (L' & HL' & Hty).
    assert (L' = L) as -> by congruence. split.
    + intros ->. destruct Hsoon as [[_ Hall] | [? _]]; [| lia]. rewrite Forall_forall in Hall.
      by eapply list_wait_none; [| | | | apply Hall].
    + intros Hd. destruct Hsoon as [[-> _] | (_ & _ & Hall)]; [lia |]. rewrite Forall_forall in Hall.
      rewrite <- Hty. eapply list_wait_due; [done | done | done | done | by apply Hall | done].
  - intros Hd. destruct Hsoon as [[-> _] | (_ & Hd' & _)]; [lia |].
    apply list_elem_of_fmap in Hd' as (c & Hw & [Hc _]%list_elem_of_filter).
    destruct (Hg c) as (L & HL & Hty). unfold list_wait in Hw. rewrite HL in Hw.
    destruct (q !! tlg c) as [[|[e p] l] |] eqn:Hl; [lia | | lia].
    destruct (enabled (qemu_clocks s (tl_clock L))) eqn:Hen; [| lia]. rewrite Hty in Hw.
    exists c, L, ((e, p) :: l). repeat (split; [done |]). unfold due. rewrite filter_cons_True; [done |].
    cbn. lia.
Qed.

(** The conversion for hosts without [ppoll] never wakes early and at most a
    millisecond late, up to the limit of 2^31 - 1 milliseconds. *)
Lemma timeout_ms_rounds_up ns :
  0 <= ns <= 2 ^ 63 - SCALE_MS ->
  let ms := qemu_timeout_ns_to_ms ns in
  if ns <=? INT32_MAX * SCALE_MS then (ms - 1) * SCALE_MS < ns <= ms * SCALE_MS
  else ms = INT32_MAX.
Proof.
  intros Hns. unfold qemu_timeout_ns_to_ms, SCALE_MS, INT32_MAX in *. cbv zeta.
  rewrite (proj2 (Z.ltb_ge _ _)) by lia. destruct (Z.eqb_spec ns 0) as [-> |]; [by vm_compute |].
  rewrite i64_small by lia. rewrite Z.quot_div_nonneg by lia.
  set (ms := (ns + 1000000 - 1) / 1000000).
  assert (Hms : (ms - 1) * 1000000 < ns <= ms * 1000000)
    by (subst ms; Z.to_euclidean_division_equations; lia).
  assert (Hi : forall x, 0 <= x < 2 ^ 31 -> i32 x = x).
  { intros x Hx. unfold i32. rewrite u32_small by lia. by rewrite (proj2 (Z.ltb_lt _ _)) by lia. }
  rewrite Z.gtb_ltb. destruct (Z.ltb_spec (2 ^ 31 - 1) ms); rewrite Hi by lia;
    destruct (Z.leb_spec ns ((2 ^ 31 - 1) * 1000000)); lia.
Qed.

(** Just below [2 ^ 63] the rounding overflows; the result is negative, which
    means a wait without end. *)
Lemma timeout_ms_overflow : qemu_timeout_ns_to_ms (2 ^ 63 - 1) = -2077252341.
Proof. vm_compute. reflexivity. Qed.

(** ** Callbacks that arm their timer again *)

(** A periodic timer: the callback arms the idle timer [opq] a period later. *)
Definition rearm_cb (when_ns : Z) (f opq : nat) : TM unit :=
  s ← get;
  match timers s !! opq with
  | Some t => when (expire_time t =? -1) (timer_mod_ns opq when_ns)
  | None => mret ()
  end.

Lemma due_insert now e ts l : now < e -> due now (q_insert e ts l) = due now l.
Proof.
  intros He. unfold due. induction l as [|x l IH]; cbn [q_insert].
  - by rewrite filter_cons_False by (cbn; lia).
  - destruct (x.1 <=? e); [| by rewrite filter_cons_False by (cbn; lia)].
    by rewrite !filter_cons, IH.
Qed.

Lemma callbacks_wakes s k : callbacks (wakes s k) = [].
Proof. unfold wakes. destruct (tlists s !! k) as [l |]; [| done]. by destruct (notify_cb l). Qed.

Lemma rearm_cb_ok k now e : now < e -> callback_ok (rearm_cb e) k now.
Proof.
  intros He f opq s q l Hrep Hl. unfold rearm_cb. rewrite bind_get.
  destruct (timers s !! opq) as [t |] eqn:Ht; [| by exists s, [], q, l].
  destruct (Z.eqb_spec (expire_time t) (-1)) as [Hidle |]; [| by exists s, [], q, l]. cbn [when].
  destruct (rep_timer _ _ Hrep opq t Ht) as (l0 & Hl0 & _).
  destruct (mod_run s (mkQueues (timer_list <$> timers s) q) (timer_list t) l0 opq e)
    as (s' & Hs' & [Hrep' _] & Hf); [done | cbn; by rewrite lookup_fmap, Ht | done |].
  pose proof (idle_absent _ _ _ _ _ _ Hrep Ht Hidle Hl0) as Habs.
  rewrite (q_del_absent opq l0 Habs) in Hs', Hrep'. cbn in Hrep'.
  assert (Hcalls : forall b : bool, callbacks ((if b then [timer_list t] else []) ≫= wakes s) = [])
    by (intros []; cbn; by rewrite ?app_nil_r, ?callbacks_wakes).
  destruct (decide (timer_list t = k)) as [Hk | Hk].
  - rewrite Hk in *. rewrite Hl in Hl0. injection Hl0 as <-. eexists s', _, _, (q_insert e opq l).
    split; [exact Hs' |]. split; [exact Hrep' |]. split; [apply lookup_insert_eq |].
    split; [by apply due_insert |]. split; [done | apply Hcalls].
  - eexists s', _, _, l. split; [exact Hs' |]. split; [exact Hrep' |].
    split; [by rewrite lookup_insert_ne |]. split; [done |]. split; [done | apply Hcalls].
Qed.

(** ** Disabling a clock

    [qemu_clock_enable] with [false] waits for [timers_done_ev] of every list of
    the clock, and [timerlist_new] creates the event unset: a list whose timers
    have never been run blocks the caller. *)
Lemma disable_needs_run s type k ls L :
  timerlists (qemu_clocks s type) = k :: ls -> enabled (qemu_clocks s type) = true ->
  tlists s !! k = Some L -> timers_done_ev L = false ->
  qemu_clock_enable type false s = Halt Blocked.
Proof.
  intros Hls Hen HL Hev. unfold qemu_clock_enable, qemu_clock_ptr. rewrite bind_gets. cbn zeta.
  unfold upd_clock. rewrite bind_modify, Hen, Hls. cbn [negb andb for_each].
  unfold mbind at 1, M_bind at 1. unfold qemu_event_wait, get_tlist, mbind, M_bind. cbn.
  unfold set_field. cbn. rewrite HL. cbn. rewrite Hev. done.
Qed.

Lemma disable_after_init : qemu_clock_enable QEMU_CLOCK_VIRTUAL false tstate1 = Halt Blocked.
Proof. vm_compute. reflexivity. Qed.

(** Once the timers have been run, disabling a clock with one list returns. *)
Lemma disable_after_run s type k L :
  timerlists (qemu_clocks s type) = [k] -> tlists s !! k = Some L -> timers_done_ev L = true ->
  exists s', qemu_clock_enable type false s = Done () s' [] /\ enabled (qemu_clocks s' type) = false.
Proof.
  intros Hls HL Hev. unfold qemu_clock_enable, qemu_clock_ptr. rewrite bind_gets. cbn zeta.
  unfold upd_clock. rewrite bind_modify, Hls. set (s1 := set_field qemu_clocks _ s).
  exists s1. split; [| cbn; by case_decide].
  destruct (enabled (qemu_clocks s type)); [| done]. cbn [negb andb for_each].
  unfold qemu_event_wait, mbind, M_bind. by rewrite (get_tlist_ok s1 k L HL), Hev.
Qed.

(** ** A concrete run: three timers of the virtual clock *)

Definition demo_ops : list timer_op :=
  [TInit 10 1 1 7 10; TInit 11 1 1 8 11; TInit 12 1 1 9 12;
   TMod 10 500; TMod 11 300; TMod 12 500; TAnticipate 11 400; TMod 10 900; TAnticipate 10 500]%nat.

Definition demo_queues : aqueues :=
  mkQueues {[10%nat := 1%nat; 11%nat := 1%nat; 12%nat := 1%nat]}
    {[0%nat := []; 1%nat := [(300, 11%nat); (500, 12%nat); (500, 10%nat)]; 2%nat := []]}.

Definition demo_state : tstate :=
  match for_each demo_ops do_op tstate1 with Done _ s _ => s | Halt _ => tstate1 end.

Definition demo_host : host := mkHost 0 0 500 0 false.

Lemma timers_refine_witness :
  exists s', for_each demo_ops do_op tstate1 =
    Done () s' [ClockWarp QEMU_CLOCK_VIRTUAL; NotifyEvent; ClockWarp QEMU_CLOCK_VIRTUAL; NotifyEvent] /\
    represents s' demo_queues.
Proof.
  apply (timers_refine tstate1 queues0 demo_ops demo_queues [1; 1]%nat).
  - apply init_clocks_ok.
  - vm_compute. reflexivity.
Defined.

Lemma demo_represents : represents demo_state demo_queues.
Proof.
  destruct (run_refines demo_ops tstate1 queues0 demo_queues [1; 1]%nat) as (s' & Hs' & Hr);
    [apply init_clocks_ok | vm_compute; reflexivity |]. unfold demo_state. by rewrite Hs'.
Qed.

Lemma run_timers_fires_witness :
  exists s' t q' l',
    timerlist_run_timers (rearm_cb 1500) demo_host 10 1 demo_state = Done true s' t /\
    rep s' q' /\ q' !! 1%nat = Some l' /\ due 500 l' = [] /\
    callbacks t = [Callback 8 11; Callback 9 12; Callback 7 10]%nat.
Proof.
  destruct (run_timers_fires (rearm_cb 1500) demo_host 10 demo_state (qs demo_queues) 1
    [(300, 11%nat); (500, 12%nat); (500, 10%nat)]
    (default (mkTimerList QEMU_CLOCK_VIRTUAL None None 0 false) (tlists demo_state !! 1%nat)) 500)
    as (s' & t & q' & l' & Hrun & Hrep & Hl & Hd & Ht).
  - apply demo_represents.
  - vm_compute. reflexivity.
  - vm_compute. reflexivity.
  - vm_compute. reflexivity.
  - vm_compute. reflexivity.
  - apply rearm_cb_ok. vm_compute. reflexivity.
  - vm_compute. lia.
  - exists s', t, q', l'. split; [exact Hrun |]. split; [exact Hrep |]. split; [exact Hl |].
    split; [exact Hd |]. rewrite Ht. vm_compute. reflexivity.
Defined.

Lemma deadline_is_exact_witness :
  exists d s' t, timerlistgroup_deadline_ns (mkHost 0 0 100 0 false)
      (λ c, match c with QEMU_CLOCK_REALTIME => 0 | QEMU_CLOCK_VIRTUAL => 1 | QEMU_CLOCK_HOST => 2 end%nat)
      demo_state = Done d s' t /\ d = 200.
Proof.
  destruct (deadline_is_exact (mkHost 0 0 100 0 false) demo_state (qs demo_queues)
    (λ c, match c with QEMU_CLOCK_REALTIME => 0 | QEMU_CLOCK_VIRTUAL => 1 | QEMU_CLOCK_HOST => 2 end%nat))
    as (d & s' & t & Hrun & _).
  - apply demo_represents.
  - split; [intros []; vm_compute; intuition congruence |]. intros k l e p. cbn.
    rewrite !lookup_insert_Some, lookup_singleton_Some. intros Hl Hin.
    assert (Hin' : (e, p) ∈ [(300, 11%nat); (500, 12%nat); (500, 10%nat)]).
    { destruct Hl as [[_ <-] | [_ [[_ <-] | [_ [_ <-]]]]]; [set_solver | done | set_solver]. }
    rewrite !elem_of_cons, elem_of_nil in Hin'. naive_solver lia.
  - intros []; eexists; (split; [vm_compute; reflexivity | reflexivity]).
  - exists d, s', t. split; [exact Hrun |].
    assert (Hd : match timerlistgroup_deadline_ns (mkHost 0 0 100 0 false)
      (λ c, match c with QEMU_CLOCK_REALTIME => 0 | QEMU_CLOCK_VIRTUAL => 1 | QEMU_CLOCK_HOST => 2 end%nat)
      demo_state with Done d _ _ => d | Halt _ => 0 end = 200) by (vm_compute; reflexivity).
    rewrite Hrun in Hd. exact Hd.
Defined.
