(* ===== verification/Vmclock.v ===== *)
(** * The virtual clock of the machine ([cpus.c])

    Virtual time is the host's monotonic clock less the time the machine was
    stopped ([cpu_get_clock]) or, with [-icount], the number of executed
    instructions scaled by a shift and corrected by a bias
    ([cpu_get_icount]); while all processors sleep, [qemu_clock_warp] lets the
    bias follow real time.  The sequence locks protect readers in other threads
    and are left out.  Times are integers: nanoseconds since the start of the
    host stay below [2 ^ 63]. *)

From stdpp Require Import gmap sorting.
From S2P Require Import Prelude Qtimer Timerqueue.
Open Scope Z_scope.

(** ** State *)

Record TimersState : Type := mkTimersState {
  cpu_ticks_prev : Z;
  cpu_ticks_offset : Z;
  cpu_clock_offset : Z;
  cpu_ticks_enabled : bool
}.
#[export] Instance TimersState_settable : Settable TimersState :=
  λ v, mkTimersState (cpu_ticks_prev v) (cpu_ticks_offset v) (cpu_clock_offset v)
         (cpu_ticks_enabled v).

(** The other globals of the file; [icount_pending] is
    [icount_decr.u16.low + icount_extra] of [current_cpu], if there is one. *)
Record vmclock : Type := mkVmclock {
  timers_state : TimersState;
  qemu_icount_bias : Z;
  vm_clock_warp_start : Z;
  icount_time_shift : Z;
  qemu_icount : Z;
  last_delta : Z;
  use_icount_mode : Z;
  icount_pending : option Z;
  icount_rt_timer : nat;
  icount_vm_timer : nat;
  icount_warp_timer : nat;
  vm_timers : tstate
}.
#[export] Instance vmclock_settable : Settable vmclock :=
  λ v, mkVmclock (timers_state v) (qemu_icount_bias v) (vm_clock_warp_start v)
         (icount_time_shift v) (qemu_icount v) (last_delta v) (use_icount_mode v)
         (icount_pending v) (icount_rt_timer v) (icount_vm_timer v) (icount_warp_timer v)
         (vm_timers v).

(** What the functions ask the rest of the emulator and the host. *)
Record env : Type := mkEnv {
  env_get_clock : Z;
  env_realtime : Z;
  runstate_is_running : bool;
  all_cpu_threads_idle : bool;
  qtest_enabled : bool
}.

Notation VM := (M tevent vmclock).

(** ** The clock without [-icount] *)

Definition cpu_get_clock_locked (v : TimersState) (get_clock : Z) : Z :=
  cpu_clock_offset v + (if cpu_ticks_enabled v then get_clock else 0).

Definition cpu_get_clock (v : TimersState) (get_clock : Z) : Z := cpu_get_clock_locked v get_clock.

Definition cpu_enable_ticks (v : TimersState) (real_ticks get_clock : Z) : TimersState :=
  if cpu_ticks_enabled v then v
  else v <| cpu_ticks_offset := cpu_ticks_offset v - real_ticks |>
         <| cpu_clock_offset := cpu_clock_offset v - get_clock |>
         <| cpu_ticks_enabled := true |>.

Definition cpu_disable_ticks (v : TimersState) (real_ticks get_clock : Z) : TimersState :=
  if cpu_ticks_enabled v then
    v <| cpu_ticks_offset := cpu_ticks_offset v + real_ticks |>
      <| cpu_clock_offset := cpu_get_clock_locked v get_clock |>
      <| cpu_ticks_enabled := false |>
  else v.

(** The branch of [cpu_get_ticks] without [-icount]. *)
Definition cpu_get_ticks (v : TimersState) (real_ticks : Z) : Z * TimersState :=
  let ticks := cpu_ticks_offset v + (if cpu_ticks_enabled v then real_ticks else 0) in
  let '(ticks, v) :=
    if cpu_ticks_prev v >? ticks then
      (cpu_ticks_prev v,
       v <| cpu_ticks_offset := cpu_ticks_offset v + (cpu_ticks_prev v - ticks) |>)
    else (ticks, v) in
  (ticks, v <| cpu_ticks_prev := ticks |>).

(** ** The clock with [-icount] *)

Definition MAX_ICOUNT_SHIFT : Z := 10.
Definition get_ticks_per_sec : Z := 1000000000.
Definition ICOUNT_WOBBLE : Z := get_ticks_per_sec / 10.

Definition cpu_get_icount_locked (v : vmclock) : Z :=
  let icount := qemu_icount v - default 0 (icount_pending v) in
  qemu_icount_bias v + (icount << icount_time_shift v).

Definition cpu_get_icount (v : vmclock) : Z := cpu_get_icount_locked v.

Definition icount_adjust (e : env) (v : vmclock) : vmclock :=
  if negb (runstate_is_running e) then v else
  let cur_time := cpu_get_clock_locked (timers_state v) (env_get_clock e) in
  let cur_icount := cpu_get_icount_locked v in
  let delta := cur_icount - cur_time in
  let v :=
    if (delta >? 0) && (last_delta v + ICOUNT_WOBBLE <? delta * 2) && (icount_time_shift v >? 0)
    then v <| icount_time_shift := icount_time_shift v - 1 |> else v in
  let v :=
    if (delta <? 0) && (last_delta v - ICOUNT_WOBBLE >? delta * 2)
       && (icount_time_shift v <? MAX_ICOUNT_SHIFT)
    then v <| icount_time_shift := icount_time_shift v + 1 |> else v in
  v <| last_delta := delta |>
    <| qemu_icount_bias := cur_icount - (qemu_icount v << icount_time_shift v) |>.

Definition qemu_icount_round (v : vmclock) (count : Z) : Z :=
  (count + (1 << icount_time_shift v) - 1) >> icount_time_shift v.

(** The clocks as [qemu-timer.c] reads them. *)
Definition host_of (e : env) (v : vmclock) : host :=
  mkHost (env_get_clock e) (env_realtime e)
    (cpu_get_clock (timers_state v) (env_get_clock e)) (cpu_get_icount v)
    (negb (use_icount_mode v =? 0)).

(** An operation on timers. *)
Definition lift {A} (m : TM A) : VM A := λ v,
  match m (vm_timers v) with
  | Done a s t => Done a (v <| vm_timers := s |>) t
  | Halt f => Halt f
  end.

Definition icount_adjust_rt (e : env) : VM unit :=
  v ← get;
  now ← lift (qemu_clock_get_ns (host_of e v) QEMU_CLOCK_REALTIME);
  lift (timer_mod (icount_rt_timer v) (Z.quot now SCALE_MS + 1000)) ;;
  modify (icount_adjust e).

Definition icount_adjust_vm (e : env) : VM unit :=
  v ← get;
  now ← lift (qemu_clock_get_ns (host_of e v) QEMU_CLOCK_VIRTUAL);
  lift (timer_mod (icount_vm_timer v) (now + get_ticks_per_sec / 10)) ;;
  modify (icount_adjust e).

Definition icount_warp_rt (e : env) : VM unit :=
  v ← get;
  if vm_clock_warp_start v =? -1 then mret ()
  else
    when (runstate_is_running e)
      (let warp_delta := env_get_clock e - vm_clock_warp_start v in
       let warp_delta :=
         if use_icount_mode v =? 2 then
           let cur_time := cpu_get_clock_locked (timers_state v) (env_get_clock e) in
           let cur_icount := cpu_get_icount_locked v in
           Z.min warp_delta (cur_time - cur_icount)
         else warp_delta in
       modify (λ v, v <| qemu_icount_bias := qemu_icount_bias v + warp_delta |>)) ;;
    modify (λ v, v <| vm_clock_warp_start := -1 |>) ;;
    v ← get;
    expired ← lift (qemu_clock_expired (host_of e v) QEMU_CLOCK_VIRTUAL);
    when expired (lift (qemu_clock_notify QEMU_CLOCK_VIRTUAL)).

Definition qemu_clock_warp (e : env) (type : QEMUClockType) : VM unit :=
  v ← get;
  if negb (bool_decide (type = QEMU_CLOCK_VIRTUAL)) || (use_icount_mode v =? 0) then mret ()
  else
    icount_warp_rt e ;;
    lift (timer_del (icount_warp_timer v)) ;;
    if negb (all_cpu_threads_idle e) then mret ()
    else if qtest_enabled e then mret ()
    else
      v ← get;
      clock ← lift (qemu_clock_get_ns (host_of e v) QEMU_CLOCK_REALTIME);
      deadline ← lift (qemu_clock_deadline_ns_all (host_of e v) QEMU_CLOCK_VIRTUAL);
      if deadline <? 0 then mret ()
      else if deadline >? 0 then
        when ((vm_clock_warp_start v =? -1) || (vm_clock_warp_start v >? clock))
          (modify (λ v, v <| vm_clock_warp_start := clock |>)) ;;
        lift (timer_mod_anticipate (icount_warp_timer v) (clock + deadline))
      else lift (qemu_clock_notify QEMU_CLOCK_VIRTUAL).

(** [qtest_clock_warp]: advance virtual time to [dest], timer by timer. *)
Section Qtest.
  Context (run_cb : nat → nat → TM unit) (e : env).

Fixpoint qtest_clock_loop (fuel run_fuel : nat) (dest clock : Z) : VM unit :=
  if dest <=? clock then mret () else
  match fuel with
  | O => halt OutOfFuel
  | S fuel =>
      v ← get;
      deadline ← lift (qemu_clock_deadline_ns_all (host_of e v) QEMU_CLOCK_VIRTUAL);
      let warp := qemu_soonest_timeout (dest - clock) deadline in
      modify (λ v, v <| qemu_icount_bias := qemu_icount_bias v + warp |>) ;;
      v ← get;
      _ ← lift (qemu_clock_run_timers run_cb (host_of e v) run_fuel QEMU_CLOCK_VIRTUAL);
      v ← get;
      clock ← lift (qemu_clock_get_ns (host_of e v) QEMU_CLOCK_VIRTUAL);
      qtest_clock_loop fuel run_fuel dest clock
  end.

Definition qtest_clock_warp (fuel run_fuel : nat) (dest : Z) : VM unit :=
  v ← get;
  clock ← lift (qemu_clock_get_ns (host_of e v) QEMU_CLOCK_VIRTUAL);
  assert_ (qtest_enabled e) ;;
  qtest_clock_loop fuel run_fuel dest clock ;;
  lift (qemu_clock_notify QEMU_CLOCK_VIRTUAL).

End Qtest.

(** ** Stopping and continuing the machine *)

Inductive vm_op : Type :=
  | VmStart          (* cpu_enable_ticks *)
  | VmStop           (* cpu_disable_ticks *)
  | ReadTicks.       (* cpu_get_ticks *)

(** An operation with the host's cycle counter and clock when it is called. *)
Definition vm_step (v : TimersState) (o : vm_op * (Z * Z)) : TimersState :=
  match o with
  | (VmStart, (r, c)) => cpu_enable_ticks v r c
  | (VmStop, (r, c)) => cpu_disable_ticks v r c
  | (ReadTicks, (r, c)) => (cpu_get_ticks v r).2
  end.

Definition runs_after (on : bool) (o : vm_op) : bool :=
  match o with VmStart => true | VmStop => false | ReadTicks => on end.

(** The time the machine has run from [t0] to [t], from the sequence of the
    operations alone. *)
Fixpoint running_time (on : bool) (t0 : Z) (os : list (vm_op * (Z * Z))) (t : Z) : Z :=
  match os with
  | [] => if on then t - t0 else 0
  | (o, (_, c)) :: os => (if on then c - t0 else 0) + running_time (runs_after on o) c os t
  end.

Lemma get_ticks_fields v r :
  cpu_clock_offset (cpu_get_ticks v r).2 = cpu_clock_offset v /\
  cpu_ticks_enabled (cpu_get_ticks v r).2 = cpu_ticks_enabled v.
Proof. unfold cpu_get_ticks. destruct (_ >? _); done. Qed.

Lemma vm_step_clock v o r c :
  cpu_get_clock (vm_step v (o, (r, c))) c = cpu_get_clock v c /\
  cpu_ticks_enabled (vm_step v (o, (r, c))) = runs_after (cpu_ticks_enabled v) o.
Proof.
  destruct o; cbn.
  - unfold cpu_enable_ticks, cpu_get_clock, cpu_get_clock_locked.
    destruct (cpu_ticks_enabled v) eqn:He; cbn; rewrite ?He; split; try done; lia.
  - unfold cpu_disable_ticks, cpu_get_clock, cpu_get_clock_locked.
    destruct (cpu_ticks_enabled v) eqn:He; cbn; rewrite ?He; split; try done; lia.
  - destruct (get_ticks_fields v r) as [Ho He]. unfold cpu_get_clock, cpu_get_clock_locked.
    by rewrite Ho, He.
Qed.

(** Virtual time advances exactly while the machine runs:
    after any sequence of stops, continuations and cycle counter reads, the
    clock has advanced by the total time between each continuation and the next
    stop, whatever the host's cycle counter shows. *)
Theorem virtual_time v os t0 t :
  cpu_get_clock (foldl vm_step v os) t =
  cpu_get_clock v t0 + running_time (cpu_ticks_enabled v) t0 os t.
Proof.
  revert v t0. induction os as [|[o [r c]] os IH]; intros v t0; cbn [foldl running_time].
  - unfold cpu_get_clock, cpu_get_clock_locked. destruct (cpu_ticks_enabled v); lia.
  - destruct (vm_step_clock v o r c) as [Hc He]. rewrite (IH _ c), Hc, He.
    unfold cpu_get_clock, cpu_get_clock_locked. destruct (cpu_ticks_enabled v); lia.
Qed.

(** The cycle counter never runs backwards, even if the host's does. *)
Fixpoint ticks_read (v : TimersState) (os : list (vm_op * (Z * Z))) : list Z :=
  match os with
  | [] => []
  | o :: os =>
      match o with (ReadTicks, (r, _)) => [(cpu_get_ticks v r).1] | _ => [] end
      ++ ticks_read (vm_step v o) os
  end.

Lemma ticks_prev_step v o :
  cpu_ticks_prev v <= cpu_ticks_prev (vm_step v o).
Proof.
  destruct o as [[] [r c]]; cbn.
  - unfold cpu_enable_ticks. destruct (cpu_ticks_enabled v); cbn; lia.
  - unfold cpu_disable_ticks. destruct (cpu_ticks_enabled v); cbn; lia.
  - unfold cpu_get_ticks. rewrite Z.gtb_ltb.
    destruct (Z.ltb_spec (cpu_ticks_offset v + (if cpu_ticks_enabled v then r else 0)) (cpu_ticks_prev v)); cbn; lia.
Qed.

Lemma ticks_read_bound os v : Forall (Z.le (cpu_ticks_prev v)) (ticks_read v os).
Proof.
  revert v. induction os as [|o os IH]; intros v; [constructor |]. cbn [ticks_read].
  apply Forall_app. split.
  - destruct o as [[] [r c]]; try constructor; [| constructor].
    pose proof (ticks_prev_step v (ReadTicks, (r, c))) as Hp. cbn in Hp.
    replace ((cpu_get_ticks v r).1) with (cpu_ticks_prev (cpu_get_ticks v r).2); [done |].
    unfold cpu_get_ticks. by destruct (_ >? _).
  - eapply Forall_impl; [apply IH |]. intros x Hx. pose proof (ticks_prev_step v o). lia.
Qed.

Theorem ticks_monotone v os : StronglySorted Z.le (ticks_read v os).
Proof.
  revert v. induction os as [|o os IH]; intros v; [constructor |]. cbn [ticks_read].
  destruct o as [[] [r c]]; try apply IH. cbn [app]. constructor; [apply IH |].
  replace ((cpu_get_ticks v r).1) with (cpu_ticks_prev (vm_step v (ReadTicks, (r, c)))).
  - apply ticks_read_bound.
  - cbn. unfold cpu_get_ticks. by destruct (_ >? _).
Qed.

(** ** Instruction counting *)

(** Adjusting the speed does not move the clock, and the shift stays in its
    range.  ([current_cpu] is null in a timer callback.) *)
Theorem icount_adjust_continuous e v :
  icount_pending v = None -> 0 <= icount_time_shift v <= MAX_ICOUNT_SHIFT ->
  cpu_get_icount (icount_adjust e v) = cpu_get_icount v /\
  0 <= icount_time_shift (icount_adjust e v) <= MAX_ICOUNT_SHIFT /\
  Z.abs (icount_time_shift (icount_adjust e v) - icount_time_shift v) <= 1.
Proof.
  unfold icount_adjust, MAX_ICOUNT_SHIFT. intros Hp Hs.
  destruct (runstate_is_running e); cbn [negb]; [| split; [done | lia]]. cbv zeta.
  set (delta := cpu_get_icount_locked v - cpu_get_clock_locked (timers_state v) (env_get_clock e)).
  clearbody delta.
  split.
  - assert (Hw : forall w, icount_pending w = None ->
      cpu_get_icount (w <| last_delta := delta |>
        <| qemu_icount_bias := cpu_get_icount_locked v - (qemu_icount w << icount_time_shift w) |>) =
      cpu_get_icount v).
    { intros w Hpw. unfold cpu_get_icount at 1, cpu_get_icount_locked at 1. cbn. rewrite Hpw. cbn.
      rewrite Z.sub_0_r. unfold cpu_get_icount. lia. }
    apply Hw. repeat (match goal with |- context [if ?b then _ else _] => destruct b end); done.
  - rewrite !Z.gtb_ltb. destruct (Z.ltb_spec 0 delta), (Z.ltb_spec delta 0); try lia; cbn [andb].
    + destruct (_ <? _); cbn [andb]; [| cbn; lia].
      destruct (Z.ltb_spec 0 (icount_time_shift v)); cbn; lia.
    + destruct (_ <? _); cbn [andb]; [| cbn; lia].
      destruct (Z.ltb_spec (icount_time_shift v) 10); cbn; lia.
    + cbn. lia.
Qed.

(** [qemu_icount_round]: the least number of instructions that takes at least
    [count] nanoseconds. *)
Lemma icount_round_spec v count :
  0 <= icount_time_shift v ->
  let n := qemu_icount_round v count in
  (n - 1) << icount_time_shift v < count <= n << icount_time_shift v.
Proof.
  intros Hs. unfold qemu_icount_round. rewrite !Z.shiftl_mul_pow2, Z.shiftr_div_pow2 by done.
  set (p := 2 ^ icount_time_shift v). assert (0 < p) by (apply Z.pow_pos_nonneg; lia).
  pose proof (Z.div_mod (count + 1 * p - 1) p ltac:(lia)) as Hd.
  pose proof (Z.mod_pos_bound (count + 1 * p - 1) p ltac:(lia)) as Hm. nia.
Qed.

(** ** Sleeping processors *)

Lemma deadline_all_fold h q (s0 : tstate) ks : forall s ds d,
  rep s q -> same_view s0 s -> times_fit h q -> Forall (λ k, is_Some (tlists s0 !! k)) ks ->
  Forall is_timeout ds -> soonest_of ds d ->
  exists d' s' t,
    for_fold ks d (λ deadline k,
      d ← timerlist_deadline_ns h k; mret (qemu_soonest_timeout deadline d)) s = Done d' s' t /\
    same_view s0 s' /\ soonest_of (ds ++ (list_wait h s0 q <$> ks)) d'.
Proof.
  induction ks as [|k ks IH]; intros s ds d Hrep Hsv Hfit Hks Hds Hd; cbn [for_fold].
  { exists d, s, []. by rewrite app_nil_r. }
  apply Forall_cons in Hks as [Hk Hks].
  destruct (deadline_run h s q k Hrep Hfit) as (s1 & t1 & Hs1 & Hsv1); [by rewrite (sv_lists _ _ Hsv) |].
  destruct (IH s1 (ds ++ [list_wait h s q k]) (qemu_soonest_timeout d (list_wait h s q k)))
    as (d' & s' & t & Hrun & Hsv' & Hsoon); try done.
  - by apply (same_view_rep s).
  - by eapply same_view_trans.
  - apply Forall_app. split; [done |]. apply Forall_singleton. by apply list_wait_timeout.
  - apply soonest_snoc; [done | by apply list_wait_timeout | done].
  - exists d', s', ((t1 ++ []) ++ t). split; [| split; [done |]].
    + eapply bind_Done_trace; [| exact Hrun]. eapply bind_Done_trace; [exact Hs1 | done].
    + rewrite <- app_assoc in Hsoon. cbn in Hsoon.
      by rewrite (same_view_wait _ _ _ _ _ Hsv) in Hsoon.
Qed.

Lemma deadline_all_run h q s type :
  rep s q -> times_fit h q ->
  Forall (λ k, is_Some (tlists s !! k)) (timerlists (qemu_clocks s type)) ->
  exists d s' t, qemu_clock_deadline_ns_all h type s = Done d s' t /\ same_view s s' /\
    soonest_of (list_wait h s q <$> timerlists (qemu_clocks s type)) d.
Proof.
  intros Hrep Hfit Hls. unfold qemu_clock_deadline_ns_all, qemu_clock_ptr. rewrite bind_gets.
  apply (deadline_all_fold h q s _ s []); try done. by left.
Qed.

Lemma lift_run {A} (m : TM A) v a s t :
  m (vm_timers v) = Done a s t -> lift m v = Done a (v <| vm_timers := s |>) t.
Proof. unfold lift. by intros ->. Qed.

Lemma wp_lift {A} (m : TM A) v Q :
  wp m (λ a s t, Q a (v <| vm_timers := s |>) t) (vm_timers v) -> wp (lift m) Q v.
Proof. unfold wp, lift. by destruct (m (vm_timers v)). Qed.

Lemma expired_run h k s q :
  rep s q -> is_Some (tlists s !! k) -> wp (timerlist_expired h k) (λ _ s' _, same_view s s') s.
Proof.
  intros Hrep [L HL]. unfold wp, timerlist_expired.
  rewrite (bind_Done _ _ _ _ _ (get_tlist_ok _ _ _ HL)).
  destruct (proj1 (rep_dom _ _ Hrep k) ltac:(by eexists)) as [l Hl].
  destruct (rep_linked _ _ Hrep k l Hl) as (L' & HL' & Hc). assert (L' = L) as -> by congruence.
  rewrite (chain_head _ _ _ Hc). destruct l as [|[e ts] l]; [by split |]. cbn [fmap list_fmap head snd].
  destruct (rep_entry _ _ Hrep k _ e ts Hl) as (_ & t & Ht & _); [set_solver |].
  rewrite (bind_Done _ _ _ _ _ (get_timer_ok _ _ _ Ht)), (bind_Done _ _ _ _ _ (get_clock_run _ _ _ HL)).
  destruct (clock_get_run h (clock_type (qemu_clocks s (tl_clock L))) s) as (s' & t' & Hs' & Htm & Hls & _ & Hcl).
  unfold mbind, M_bind. rewrite Hs'. cbn. split; [done | done | apply Hcl | apply Hcl | apply Hcl].
Qed.

Lemma notify_all_run s ks :
  Forall (λ k, is_Some (tlists s !! k)) ks -> wp (for_each ks timerlist_notify) (λ _ s' _, s' = s) s.
Proof.
  induction 1 as [|k ks [L HL] Hks IH]; [done |]. cbn [for_each]. apply wp_bind. unfold wp at 1.
  rewrite (notify_run _ _ _ HL). eapply wp_mono; [exact IH | done].
Qed.

(** All processors sleep, and the machine counts instructions; [kr] is the list
    of the warp timer. *)
Record asleep (e : env) (v : vmclock) (a : aqueues) (kr : nat) : Prop := {
  as_mode : use_icount_mode v = 1;
  as_start : vm_clock_warp_start v = -1;
  as_idle : all_cpu_threads_idle e = true;
  as_qtest : qtest_enabled e = false;
  as_rep : represents (vm_timers v) a;
  as_own : own a !! icount_warp_timer v = Some kr;
  as_scale : exists t, timers (vm_timers v) !! icount_warp_timer v = Some t /\ scale t = 1;
  as_lists : Forall (λ k, k ≠ kr /\ is_Some (tlists (vm_timers v) !! k))
    (timerlists (qemu_clocks (vm_timers v) QEMU_CLOCK_VIRTUAL));
  as_fit : times_fit (host_of e v) (qs a)
}.

(** The deadlines of the lists of the virtual clock. *)
Definition virtual_waits (e : env) (v : vmclock) (a : aqueues) : list Z :=
  list_wait (host_of e v) (vm_timers v) (qs a)
    <$> timerlists (qemu_clocks (vm_timers v) QEMU_CLOCK_VIRTUAL).

Lemma framed_wait h s s' q k kr l :
  framed s s' -> k ≠ kr -> list_wait h s' (<[kr := l]> q) k = list_wait h s q k.
Proof.
  intros Hf Hk. unfold list_wait. rewrite lookup_insert_ne by done. rewrite (fr_clocks _ _ Hf).
  pose proof (f_equal (.!! k) (fr_lists _ _ Hf)) as Hm. rewrite !lookup_fmap in Hm.
  destruct (tlists s' !! k) as [L' |], (tlists s !! k) as [L |]; try done.
  apply (f_equal (fmap tl_clock)) in Hm. cbn in Hm. injection Hm as Hm. by rewrite Hm.
Qed.

(** Cancelling the warp timer and asking for the deadline. *)
Lemma warp_deadline e v a kr :
  asleep e v a kr ->
  exists s1 s2 d t2 l, qs a !! kr = Some l /\
    timer_del (icount_warp_timer v) (vm_timers v) = Done () s1 [] /\
    qemu_clock_deadline_ns_all (host_of e v) QEMU_CLOCK_VIRTUAL s1 = Done d s2 t2 /\
    soonest_of (virtual_waits e v a) d /\ framed (vm_timers v) s1 /\ same_view s1 s2 /\
    represents s2 (mkQueues (own a) (<[kr := q_del (icount_warp_timer v) l]> (qs a))).
Proof.
  intros [Hmode Hstart Hidle Hqt Hrep Hown Hsc Hls Hfit].
  destruct (represents_timer _ _ _ _ Hrep Hown) as (t & Ht & Htl).
  destruct (rep_timer _ _ (proj1 Hrep) _ _ Ht) as (l & Hl & _). rewrite Htl in Hl.
  destruct (del_run _ _ _ _ _ Hrep Hown Hl) as (s1 & Hs1 & Hrep1 & Hf1).
  assert (Hfit1 : times_fit (host_of e v) (<[kr := q_del (icount_warp_timer v) l]> (qs a))).
  { destruct Hfit as [Hnow Hq]. split; [done |].
    intros k l' d p [[<- <-] | [_ Hl']]%lookup_insert_Some Hin; [| by eapply Hq].
    apply elem_of_q_del in Hin as [Hin _]. by eapply Hq. }
  destruct (deadline_all_run (host_of e v) _ s1 QEMU_CLOCK_VIRTUAL (proj1 Hrep1) Hfit1)
    as (d & s2 & t2 & Hs2 & Hsv & Hd).
  { rewrite (fr_clocks _ _ Hf1). eapply Forall_impl; [exact Hls |]. intros k [_ Hk]. by apply (framed_dom _ _ _ Hf1). }
  exists s1, s2, d, t2, l. split; [done |]. split; [done |]. split; [done |]. split.
  - rewrite (fr_clocks _ _ Hf1) in Hd. unfold virtual_waits.
    erewrite list_fmap_ext; [exact Hd |]. intros i k Hk%list_elem_of_lookup_2. cbn.
    rewrite Forall_forall in Hls. symmetry. by apply framed_wait; [| apply Hls].
  - split; [done |]. split; [done |]. destruct Hrep1 as [Hr1 Ho1]. split.
    + by apply (same_view_rep s1).
    + by rewrite (sv_timers _ _ Hsv).
Qed.

(** [timer_mod_anticipate] of the cancelled warp timer. *)
Lemma warp_arm s a kr l w e t :
  represents s (mkQueues (own a) (<[kr := q_del w l]> (qs a))) -> own a !! w = Some kr ->
  timers s !! w = Some t -> scale t = 1 ->
  exists s' t', timer_mod_anticipate w e s = Done () s' t' /\ framed s s' /\
    represents s' (mkQueues (own a) (<[kr := q_insert (i64 e) w (q_del w l)]> (qs a))).
Proof.
  intros Hrep Hown Ht Hsc. unfold timer_mod_anticipate.
  rewrite (bind_Done _ _ _ _ _ (get_timer_ok _ _ _ Ht)), Hsc, Z.mul_1_r.
  set (a1 := mkQueues _ _) in *.
  assert (Hl1 : qs a1 !! kr = Some (q_del w l)) by apply lookup_insert_eq.
  destruct (anticipate_run s a1 kr (q_del w l) w (i64 e) (a_arm a1 kr w (i64 e) (q_del w l)).1
    (a_arm a1 kr w (i64 e) (q_del w l)).2 Hrep Hown Hl1) as (s' & Hs' & Hr' & Hf').
  { cbn [a_step]. change (own a1) with (own a). rewrite Hown. cbn [mbind option_bind]. rewrite Hl1. cbn [mbind option_bind].
    rewrite q_deadline_absent; [done |]. rewrite snd_q_del. intros [Hw _]%list_elem_of_filter. done. }
  eexists s', _. split; [exact Hs' |]. split; [done |]. cbn in Hr'. by rewrite insert_insert_eq in Hr'.
Qed.

(** When the warp timer fires, virtual time makes up for the sleep. *)
Lemma warp_rt_advances e v q k :
  vm_clock_warp_start v <> -1 -> use_icount_mode v = 1 -> runstate_is_running e = true ->
  rep (vm_timers v) q -> main_loop_tlg (vm_timers v) QEMU_CLOCK_VIRTUAL = Some k ->
  is_Some (tlists (vm_timers v) !! k) ->
  Forall (λ k, is_Some (tlists (vm_timers v) !! k)) (timerlists (qemu_clocks (vm_timers v) QEMU_CLOCK_VIRTUAL)) ->
  exists v2 t2, icount_warp_rt e v = Done () v2 t2 /\
    cpu_get_icount v2 = cpu_get_icount v + (env_get_clock e - vm_clock_warp_start v).
Proof.
  intros Hst Hmode Hrun Hrep Hmain Hk Hls.
  enough (wp (icount_warp_rt e) (λ _ v2 _, cpu_get_icount v2 =
    cpu_get_icount v + (env_get_clock e - vm_clock_warp_start v)) v) as ([] & v2 & t2 & H2 & Hv2)%wp_Done by eauto.
  unfold icount_warp_rt, wp. rewrite bind_get, (proj2 (Z.eqb_neq _ _)), Hrun, Hmode by done.
  cbn [when]. change (1 =? 2) with false. cbv iota zeta. rewrite bind_modify, bind_modify, bind_get.
  set (v1 := set_field vm_clock_warp_start _ _).
  assert (Hv1 : forall s, cpu_get_icount (v1 <| vm_timers := s |>) =
    cpu_get_icount v + (env_get_clock e - vm_clock_warp_start v))
    by (intros s; unfold cpu_get_icount, cpu_get_icount_locked; cbn; lia).
  assert (Hmt : main_tl QEMU_CLOCK_VIRTUAL (vm_timers v) = Done k (vm_timers v) [])
    by (unfold main_tl; rewrite bind_get, Hmain; done).
  apply wp_bind, wp_lift. unfold wp, qemu_clock_expired. change (vm_timers v1) with (vm_timers v).
  rewrite (bind_Done _ _ _ _ _ Hmt).
  pose proof (expired_run (host_of e v1) k (vm_timers v) q Hrep Hk) as Hexp. unfold wp in Hexp.
  destruct (timerlist_expired _ k (vm_timers v)) as [b s' t' |] eqn:Hb; [| done].
  destruct b; cbn [when]; [| apply Hv1].
  apply wp_lift. unfold wp, qemu_clock_notify, qemu_clock_ptr. rewrite bind_gets.
  change (vm_timers (v1 <| vm_timers := s' |>)) with s'. rewrite (sv_timerlists _ _ Hexp).
  pose proof (notify_all_run s' (timerlists (qemu_clocks (vm_timers v) QEMU_CLOCK_VIRTUAL))) as Hn.
  unfold wp in Hn. rewrite (sv_lists _ _ Hexp) in Hn. specialize (Hn Hls).
  destruct (for_each _ timerlist_notify s') as [[] s2 t2 |]; [| done]. apply (Hv1 s2).
Qed.

(** What [qemu_clock_warp] does with the deadline. *)
Lemma warp_unfold e v a kr s1 s2 d t2 :
  asleep e v a kr -> timer_del (icount_warp_timer v) (vm_timers v) = Done () s1 [] ->
  qemu_clock_deadline_ns_all (host_of e v) QEMU_CLOCK_VIRTUAL s1 = Done d s2 t2 ->
  forall v1 t1,
    (if d <? 0 then mret ()
     else if d >? 0 then
       when true (modify (λ v, v <| vm_clock_warp_start := env_get_clock e |>)) ;;
       lift (timer_mod_anticipate (icount_warp_timer v) (env_get_clock e + d))
     else lift (qemu_clock_notify QEMU_CLOCK_VIRTUAL)) (v <| vm_timers := s2 |>) = Done () v1 t1 ->
    qemu_clock_warp e QEMU_CLOCK_VIRTUAL v = Done () v1 (t2 ++ t1).
Proof.
  intros [Hmode Hstart Hidle Hqt _ _ _ _ _] Hs1 Hs2 v1 t1 Hv1.
  unfold qemu_clock_warp. rewrite bind_get, Hmode, bool_decide_true by done.
  cbn [negb orb]. change (1 =? 0) with false. cbv iota.
  assert (Hrt : icount_warp_rt e v = Done () v []).
  { unfold icount_warp_rt. rewrite bind_get, Hstart. done. }
  rewrite (bind_Done _ _ _ _ _ Hrt), (bind_Done _ _ _ _ _ (lift_run _ _ _ _ _ Hs1)), Hidle, Hqt.
  cbn [negb]. rewrite bind_get. erewrite bind_Done by (by apply lift_run).
  change (vm_clock_warp_start (v <| vm_timers := s1 |>)) with (vm_clock_warp_start v). rewrite Hstart.
  eapply bind_Done_trace; [by apply lift_run |]. exact Hv1.
Qed.

(** Until the first warp [vm_clock_warp_start] has the value 0 of a static variable instead of
    the -1 that says that no warp is under way: that warp moves virtual time by the whole value
    of the host's clock. *)
Lemma first_warp_jumps e v q k :
  vm_clock_warp_start v = 0 -> use_icount_mode v = 1 -> runstate_is_running e = true ->
  rep (vm_timers v) q -> main_loop_tlg (vm_timers v) QEMU_CLOCK_VIRTUAL = Some k ->
  is_Some (tlists (vm_timers v) !! k) ->
  Forall (λ k, is_Some (tlists (vm_timers v) !! k)) (timerlists (qemu_clocks (vm_timers v) QEMU_CLOCK_VIRTUAL)) ->
  exists v2 t2, icount_warp_rt e v = Done () v2 t2 /\ cpu_get_icount v2 = cpu_get_icount v + env_get_clock e.
Proof.
  intros H0 Hmode Hrun Hrep Hmain Hk Hls.
  destruct (warp_rt_advances e v q k) as (v2 & t2 & H2 & Hv2); try done; [lia |].
  exists v2, t2. split; [done | lia].
Qed.

(** C31 (warp_reaches_deadline).  With [-icount] and a fixed speed ([use_icount] is 1; with
    [-icount auto] the warp is also limited by real time) virtual time would stand still while
    all processors sleep.  When no warp is under way ([vm_clock_warp_start] is -1, as every
    warp leaves it, but not before the first one), [qemu_clock_warp] arms the warp timer in
    real time for the soonest deadline [d] of the virtual clock, without moving virtual time,
    and when that timer fires on time, at exactly [d] after it was armed, in a running machine,
    [icount_warp_rt] advances virtual time by exactly [d], so that the timer the processors
    wait for is due. *)
Theorem warp_reaches_deadline e v a kr :
  asleep e v a kr ->
  exists d v1 t1, qemu_clock_warp e QEMU_CLOCK_VIRTUAL v = Done () v1 t1 /\
    soonest_of (virtual_waits e v a) d /\ cpu_get_icount v1 = cpu_get_icount v /\
    (0 < d -> env_get_clock e + d < 2 ^ 63 ->
     (exists a1 l1, represents (vm_timers v1) a1 /\ qs a1 !! kr = Some l1 /\
        (env_get_clock e + d, icount_warp_timer v) ∈ l1) /\
     forall e2 k, runstate_is_running e2 = true -> env_get_clock e2 = env_get_clock e + d ->
       main_loop_tlg (vm_timers v1) QEMU_CLOCK_VIRTUAL = Some k ->
       k ∈ timerlists (qemu_clocks (vm_timers v1) QEMU_CLOCK_VIRTUAL) ->
       exists v2 t2, icount_warp_rt e2 v1 = Done () v2 t2 /\ cpu_get_icount v2 = cpu_get_icount v + d).
Proof.
  intros Has. pose proof Has as [Hmode Hstart Hidle Hqt Hrep Hown (tw & Htw & Hsc) Hls Hfit].
  destruct (warp_deadline _ _ _ _ Has) as (s1 & s2 & d & t2 & l & Hl & Hs1 & Hs2 & Hd & Hf1 & Hsv & Hrep2).
  set (w := icount_warp_timer v) in *. set (clk := env_get_clock e) in *.
  pose proof (warp_unfold e v a kr s1 s2 d t2 Has Hs1 Hs2) as Hstep. fold w clk in Hstep.
  assert (Hdom : Forall (λ k, is_Some (tlists s2 !! k)) (timerlists (qemu_clocks s2 QEMU_CLOCK_VIRTUAL))).
  { rewrite (sv_timerlists _ _ Hsv), (fr_clocks _ _ Hf1), (sv_lists _ _ Hsv). eapply Forall_impl; [exact Hls |].
    intros k [_ Hk]. by apply (framed_dom _ _ _ Hf1). }
  destruct (Z.lt_trichotomy d 0) as [Hneg | [Hz | Hpos]].
  - eexists d, _, _. split; [apply Hstep; rewrite (proj2 (Z.ltb_lt d 0)) by done; done |].
    split; [done |]. split; [done | lia].
  - pose proof (notify_all_run s2 _ Hdom) as Hn. unfold wp in Hn.
    destruct (for_each _ timerlist_notify s2) as [[] s3 t3 |] eqn:Hfe; [| done].
    assert (Hnt : qemu_clock_notify QEMU_CLOCK_VIRTUAL s2 = Done () s3 t3)
      by (unfold qemu_clock_notify, qemu_clock_ptr; by rewrite bind_gets).
    subst d. eexists 0, _, _. split; [apply Hstep; cbn; apply lift_run; cbn; exact Hnt |].
    split; [done |]. split; [done | lia].
  - destruct (framed_timer _ _ _ _ Hf1 Htw) as (t' & Ht' & Hm).
    apply (f_equal scale) in Hm. change (scale t' = scale tw) in Hm. rewrite <- (sv_timers _ _ Hsv) in Ht'.
    destruct (warp_arm s2 a kr l w (clk + d) t' Hrep2 Hown Ht' ltac:(congruence))
      as (s3 & t3 & Hs3 & Hf3 & Hrep3).
    set (v1 := v <| vm_clock_warp_start := clk |> <| vm_timers := s3 |>).
    exists d, v1, (t2 ++ t3). split; [| split; [done |]; split; [done |]].
    { apply Hstep. rewrite (proj2 (Z.ltb_ge d 0)), Z.gtb_ltb, (proj2 (Z.ltb_lt 0 d)) by lia. cbn [when].
      rewrite bind_modify.
      exact (lift_run (timer_mod_anticipate w (clk + d))
        (v <| vm_timers := s2 |> <| vm_clock_warp_start := clk |>) () s3 t3 Hs3). }
    intros _ Hfits. pose proof (proj1 Hfit QEMU_CLOCK_REALTIME) as Hclk. cbn in Hclk. fold clk in Hclk. split.
    { eexists _, _. split; [exact Hrep3 |]. split; [apply lookup_insert_eq |].
      apply elem_of_q_insert. left. rewrite i64_small by lia. f_equal. lia. }
    intros e2 k Hrun He2 Hmain Hk.
    assert (Hdom3 : Forall (λ k, is_Some (tlists s3 !! k)) (timerlists (qemu_clocks s3 QEMU_CLOCK_VIRTUAL))).
    { rewrite (fr_clocks _ _ Hf3). eapply Forall_impl; [exact Hdom |]. intros j Hj. by apply (framed_dom _ _ _ Hf3). }
    destruct (warp_rt_advances e2 v1 (<[kr := q_insert (i64 (clk + d)) w (q_del w l)]> (qs a)) k) as (v2 & t4 & Hv2 & Hi2); cbn; try done; [lia | apply Hrep3 | |].
    + rewrite Forall_forall in Hdom3. by apply Hdom3.
    + exists v2, t4. split; [done |]. rewrite Hi2, He2. cbn. unfold cpu_get_icount, cpu_get_icount_locked. cbn. lia.
Qed.

(** A machine that sleeps at virtual time 100 with a timer for 500. *)
Definition sleep_ops : list timer_op := [TInit 20 0 1 3 0; TInit 10 1 1 7 10; TMod 10 500]%nat.

Definition sleep_queues : aqueues :=
  mkQueues {[20%nat := 0%nat; 10%nat := 1%nat]} {[0%nat := []; 1%nat := [(500, 10%nat)]; 2%nat := []]}.

Definition sleep_timers : tstate :=
  match for_each sleep_ops do_op tstate1 with Done _ s _ => s | Halt _ => tstate1 end.

Definition sleep_vm : vmclock :=
  mkVmclock (mkTimersState 0 0 0 true) 60 (-1) 3 5 0 1 None 0 0 20 sleep_timers.

Definition sleep_env (clock : Z) : env := mkEnv clock 0 true true false.

Lemma sleep_represents : represents sleep_timers sleep_queues.
Proof.
  destruct (run_refines sleep_ops tstate1 queues0 sleep_queues [1]%nat) as (s' & Hs' & Hr);
    [apply init_clocks_ok | vm_compute; reflexivity |]. unfold sleep_timers. by rewrite Hs'.
Qed.

Lemma sleep_asleep : asleep (sleep_env 1000) sleep_vm sleep_queues 0.
Proof.
  split; try reflexivity.
  - apply sleep_represents.
  - eexists. split; vm_compute; reflexivity.
  - assert (Ht : timerlists (qemu_clocks (vm_timers sleep_vm) QEMU_CLOCK_VIRTUAL) = [1%nat])
      by (vm_compute; reflexivity).
    rewrite Ht. repeat constructor; [discriminate |]. eexists. vm_compute. reflexivity.
  - split; [intros []; vm_compute; intuition congruence |]. intros k l e p. cbn.
    rewrite !lookup_insert_Some, lookup_singleton_Some. intros Hl Hin.
    assert (Hin' : (e, p) ∈ [(500, 10%nat)]).
    { destruct Hl as [[_ <-] | [_ [[_ <-] | [_ [_ <-]]]]]; [set_solver | done | set_solver]. }
    apply list_elem_of_singleton in Hin'. naive_solver lia.
Qed.

Lemma warp_reaches_deadline_witness :
  exists d v1 t1, qemu_clock_warp (sleep_env 1000) QEMU_CLOCK_VIRTUAL sleep_vm = Done () v1 t1 /\
    soonest_of [400] d /\ cpu_get_icount v1 = 100.
Proof.
  destruct (warp_reaches_deadline (sleep_env 1000) sleep_vm sleep_queues 0 sleep_asleep)
    as (d & v1 & t1 & Hrun & Hd & Hi & _).
  exists d, v1, t1. split; [exact Hrun |]. split.
  - assert (Hw : virtual_waits (sleep_env 1000) sleep_vm sleep_queues = [400]) by (vm_compute; reflexivity).
    rewrite <- Hw. exact Hd.
  - rewrite Hi. vm_compute. reflexivity.
Defined.
