(* ===== verification/Int128.v ===== *)
(** * 128-bit integers ([include/qemu/int128.h])

    The memory layer computes with addresses and sizes up to [2 ^ 64] inclusive
    and with negative offsets of aliases, as pairs of 64-bit words.  The
    theorems say that the operations are those of the integers, wrapped to 128
    bits; [Flatview] uses integers in their place. *)

From S2P Require Import Prelude.
Open Scope Z_scope.

Record Int128 : Type := mkInt128 {
  lo : Z;   (* uint64_t *)
  hi : Z    (* int64_t *)
}.

Definition int128_make64 (a : Z) : Int128 := mkInt128 a 0.

(** [None]: the assertion fails. *)
Definition int128_get64 (a : Int128) : option Z := if hi a =? 0 then Some (lo a) else None.

Definition int128_zero : Int128 := int128_make64 0.
Definition int128_one : Int128 := int128_make64 1.
Definition int128_2_64 : Int128 := mkInt128 0 1.

Definition int128_exts64 (a : Z) : Int128 := mkInt128 (u64 a) (if a <? 0 then -1 else 0).

Definition int128_and (a b : Int128) : Int128 := mkInt128 (lo a .& lo b) (hi a .& hi b).

Definition int128_rshift (a : Int128) (n : Z) : Int128 :=
  if n =? 0 then a else
  let h := hi a >> (n .& 63) in
  if n >=? 64 then mkInt128 (u64 h) (h >> 63)
  else mkInt128 ((lo a >> n) .| u64 (u64 (hi a) << (64 - n))) h.

Definition int128_add (a b : Int128) : Int128 :=
  let l := u64 (lo a + lo b) in
  mkInt128 l (i64 (u64 (hi a) + hi b + b2z (l <? lo a))).

Definition int128_neg (a : Int128) : Int128 :=
  let l := u64 (- lo a) in
  mkInt128 l (i64 (u64 (- u64 (hi a) - 1) + b2z (l =? 0))).

Definition int128_sub (a b : Int128) : Int128 :=
  mkInt128 (u64 (lo a - lo b)) (i64 (u64 (hi a) - hi b - b2z (lo a <? lo b))).

Definition int128_nonneg (a : Int128) : bool := hi a >=? 0.
Definition int128_eq (a b : Int128) : bool := (lo a =? lo b) && (hi a =? hi b).
Definition int128_ne (a b : Int128) : bool := negb (int128_eq a b).
Definition int128_ge (a b : Int128) : bool :=
  (hi a >? hi b) || ((hi a =? hi b) && (lo a >=? lo b)).
Definition int128_lt (a b : Int128) : bool := negb (int128_ge a b).
Definition int128_le (a b : Int128) : bool := int128_ge b a.
Definition int128_gt (a b : Int128) : bool := negb (int128_le a b).
Definition int128_nz (a : Int128) : bool := cbool (lo a) || cbool (hi a).
Definition int128_min (a b : Int128) : Int128 := if int128_le a b then a else b.
Definition int128_max (a b : Int128) : Int128 := if int128_ge a b then a else b.
Definition int128_addto (a b : Int128) : Int128 := int128_add a b.
Definition int128_subfrom (a b : Int128) : Int128 := int128_sub a b.

(** ** The integer of a pair of words *)

Definition val (a : Int128) : Z := hi a * 2 ^ 64 + lo a.

Definition int128_wf (a : Int128) : Prop := 0 <= lo a < 2 ^ 64 /\ - 2 ^ 63 <= hi a < 2 ^ 63.

(** Wrapping to 128 bits, two's complement. *)
Definition i128 (x : Z) : Z := (x + 2 ^ 127) mod 2 ^ 128 - 2 ^ 127.

Lemma i64_mod (x : Z) : i64 x = (x + 2 ^ 63) mod 2 ^ 64 - 2 ^ 63.
Proof.
  unfold i64, u64. destruct (Z.ltb_spec (x mod 2 ^ 64) (2 ^ 63));
    Z.to_euclidean_division_equations; lia.
Qed.

Lemma i64_range (x : Z) : - 2 ^ 63 <= i64 x < 2 ^ 63.
Proof. rewrite i64_mod. pose proof (Z.mod_pos_bound (x + 2 ^ 63) (2 ^ 64)). lia. Qed.

(** The value of a low word and a wrapped high word. *)
Lemma val_wrap (l h x : Z) : (exists k, x = (h + 2 ^ 64 * k) * 2 ^ 64 + l) -> 0 <= l < 2 ^ 64 ->
  val (mkInt128 l (i64 h)) = i128 x.
Proof.
  intros [k ->] Hl. unfold val, i128. cbn [lo hi]. rewrite i64_mod.
  set (y := (h + 2 ^ 63) mod 2 ^ 64). set (q := (h + 2 ^ 63) / 2 ^ 64).
  assert (Hy : h + 2 ^ 63 = 2 ^ 64 * q + y) by (apply Z.div_mod; lia).
  assert (Hyb : 0 <= y < 2 ^ 64) by (apply Z.mod_pos_bound; lia).
  replace ((h + 2 ^ 64 * k) * 2 ^ 64 + l + 2 ^ 127) with (y * 2 ^ 64 + l + (q + k) * 2 ^ 128) by lia.
  rewrite Z.mod_add, Z.mod_small by lia. lia.
Qed.

Lemma i128_small x : - 2 ^ 127 <= x < 2 ^ 127 -> i128 x = x.
Proof. intros Hx. unfold i128. rewrite Z.mod_small; lia. Qed.

Lemma u64_decomp x : exists k, u64 x = x + 2 ^ 64 * k.
Proof. exists (- (x / 2 ^ 64)). unfold u64. rewrite Z.mod_eq by lia. lia. Qed.

Lemma u64_sum a b : 0 <= a < 2 ^ 64 -> 0 <= b < 2 ^ 64 ->
  a + b = u64 (a + b) + b2z (u64 (a + b) <? a) * 2 ^ 64.
Proof.
  intros Ha Hb. destruct (Z.ltb_spec (a + b) (2 ^ 64)).
  - rewrite u64_small by lia. rewrite (proj2 (Z.ltb_ge _ _)) by lia. cbn. lia.
  - assert (Hu : u64 (a + b) = a + b - 2 ^ 64)
      by (unfold u64; symmetry; apply (Z.mod_unique _ _ 1); lia).
    rewrite Hu, (proj2 (Z.ltb_lt _ _)) by lia. cbn [b2z]. lia.
Qed.

Lemma u64_diff a b : 0 <= a < 2 ^ 64 -> 0 <= b < 2 ^ 64 ->
  a - b = u64 (a - b) - b2z (a <? b) * 2 ^ 64.
Proof.
  intros Ha Hb. destruct (Z.ltb_spec a b); cbn [b2z].
  - assert (Hu : u64 (a - b) = a - b + 2 ^ 64)
      by (unfold u64; symmetry; apply (Z.mod_unique _ _ (-1)); lia). lia.
  - rewrite u64_small by lia. lia.
Qed.

Lemma add_val a b : int128_wf a -> int128_wf b -> val (int128_add a b) = i128 (val a + val b).
Proof.
  intros [Hla Hha] [Hlb Hhb]. apply val_wrap; [| apply u64_range].
  destruct (u64_decomp (hi a)) as [k Hk]. exists (- k). rewrite Hk.
  pose proof (u64_sum (lo a) (lo b) Hla Hlb). unfold val. lia.
Qed.

Lemma sub_val a b : int128_wf a -> int128_wf b -> val (int128_sub a b) = i128 (val a - val b).
Proof.
  intros [Hla Hha] [Hlb Hhb]. apply val_wrap; [| apply u64_range].
  destruct (u64_decomp (hi a)) as [k Hk]. exists (- k). rewrite Hk.
  pose proof (u64_diff (lo a) (lo b) Hla Hlb). unfold val. lia.
Qed.

Lemma neg_val a : int128_wf a -> val (int128_neg a) = i128 (- val a).
Proof.
  intros [Hla Hha]. apply val_wrap; [| apply u64_range].
  destruct (u64_decomp (hi a)) as [k Hk], (u64_decomp (- u64 (hi a) - 1)) as [k2 Hk2].
  exists (k - k2). rewrite Hk2, Hk.
  destruct (Z.eqb_spec (u64 (- lo a)) 0) as [H0 | H0]; cbn [b2z].
  - assert (lo a = 0).
    { destruct (decide (lo a = 0)); [done |]. exfalso. revert H0. unfold u64.
      rewrite Z.mod_opp_l_nz; rewrite ?Z.mod_small; lia. }
    unfold val. lia.
  - assert (lo a <> 0) by (intros H; apply H0; by rewrite H).
    assert (u64 (- lo a) = 2 ^ 64 - lo a)
      by (unfold u64; rewrite Z.mod_opp_l_nz; rewrite ?Z.mod_small; lia).
    unfold val. lia.
Qed.

(** Comparisons. *)
Lemma ge_val a b : int128_wf a -> int128_wf b -> int128_ge a b = (val a >=? val b).
Proof.
  intros [Hla Hha] [Hlb Hhb]. unfold int128_ge, val. rewrite !Z.gtb_ltb, !Z.geb_leb.
  destruct (Z.ltb_spec (hi b) (hi a)); cbn [orb].
  - symmetry. apply Z.leb_le. nia.
  - destruct (Z.eqb_spec (hi a) (hi b)) as [-> |]; cbn [andb].
    + destruct (Z.leb_spec (lo b) (lo a)); symmetry; [apply Z.leb_le | apply Z.leb_gt]; lia.
    + symmetry. apply Z.leb_gt. nia.
Qed.

Lemma eq_val a b : int128_wf a -> int128_wf b -> int128_eq a b = (val a =? val b).
Proof.
  intros [Hla Hha] [Hlb Hhb]. unfold int128_eq, val.
  destruct (Z.eqb_spec (lo a) (lo b)), (Z.eqb_spec (hi a) (hi b)); cbn; symmetry;
    first [apply Z.eqb_eq; lia | apply Z.eqb_neq; nia].
Qed.

Lemma nz_val a : int128_wf a -> int128_nz a = negb (val a =? 0).
Proof.
  intros [Hla Hha]. unfold int128_nz, cbool, val.
  destruct (Z.eqb_spec (lo a) 0), (Z.eqb_spec (hi a) 0); cbn; symmetry;
    first [apply negb_true_iff, Z.eqb_neq; nia | apply negb_false_iff, Z.eqb_eq; lia].
Qed.

Lemma get64_val a : int128_wf a ->
  int128_get64 a = if (0 <=? val a) && (val a <? 2 ^ 64) then Some (val a) else None.
Proof.
  intros [Hla Hha]. unfold int128_get64, val. destruct (Z.eqb_spec (hi a) 0) as [-> |].
  - rewrite between_true by lia. f_equal.
  - rewrite between_false; [done | nia].
Qed.

(** Arithmetic shift to the right. *)
Lemma rshift_val a n : int128_wf a -> 0 <= n < 128 -> val (int128_rshift a n) = val a >> n.
Proof.
  intros [Hla Hha] Hn. unfold int128_rshift.
  destruct (Z.eqb_spec n 0) as [-> |]; [by rewrite Z.shiftr_0_r |].
  assert (Hand : n .& 63 = n mod 64) by (change 63 with (Z.ones 6); by rewrite Z.land_ones by lia).
  rewrite Hand, Z.geb_leb. destruct (Z.leb_spec 64 n).
  - assert (Hnm : n mod 64 = n - 64) by (symmetry; apply (Z.mod_unique _ _ 1); lia).
    rewrite Hnm. unfold val. cbn [lo hi]. set (h := hi a >> (n - 64)).
    assert (Hv : (hi a * 2 ^ 64 + lo a) >> n = h).
    { unfold h. replace n with (64 + (n - 64)) at 1 by lia. rewrite <- Z.shiftr_shiftr by lia. f_equal.
      rewrite Z.shiftr_div_pow2 by lia. rewrite Z.div_add_l, Z.div_small by lia. lia. }
    rewrite Hv. assert (Hh : - 2 ^ 63 <= h < 2 ^ 63).
    { unfold h. rewrite Z.shiftr_div_pow2 by lia. assert (0 < 2 ^ (n - 64)) by (apply Z.pow_pos_nonneg; lia).
      split; [apply Z.div_le_lower_bound; nia | apply Z.div_lt_upper_bound; nia]. }
    rewrite (Z.shiftr_div_pow2 h) by lia. unfold u64. Z.to_euclidean_division_equations. lia.
  - rewrite (Z.mod_small n 64) by lia. set (x := val a).
    assert (Hlo : lo a = u64 x) by (unfold x, val, u64; rewrite Z.add_comm, Z.mod_add, Z.mod_small; lia).
    assert (Hhi : hi a = x >> 64)
      by (unfold x, val; rewrite Z.shiftr_div_pow2, Z.div_add_l, Z.div_small by lia; lia).
    assert (Hlow : (u64 x >> n) .| u64 (u64 (x >> 64) << (64 - n)) = u64 (x >> n)).
    { apply Z.bits_inj'. intros i Hi. unfold u64.
      rewrite (testbit_mod_pow2 64 (x >> n) i) by lia. zbit_simp. destruct (Z.ltb_spec i 64); cbn [andb].
      - destruct (Z.leb_spec (64 - n) i); zbit_simp; zbit_cases; cbn [andb orb];
          rewrite ?orb_false_r; f_equal; lia.
      - zbit_simp; zbit_cases; done. }
    unfold val. cbn [lo hi]. rewrite Hlo, Hhi, Hlow.
    rewrite Z.shiftr_shiftr by lia. rewrite (Z.add_comm 64 n), <- Z.shiftr_shiftr by lia.
    rewrite (Z.shiftr_div_pow2 (x >> n) 64) by lia. unfold u64. Z.to_euclidean_division_equations. lia.
Qed.

Lemma int128_op_wf a b :
  int128_wf a -> int128_wf b ->
  int128_wf (int128_add a b) /\ int128_wf (int128_sub a b) /\ int128_wf (int128_neg a).
Proof. intros _ _. repeat split; cbn; try apply u64_range; apply i64_range. Qed.

Lemma min_val a b : int128_wf a -> int128_wf b -> val (int128_min a b) = Z.min (val a) (val b).
Proof.
  intros Ha Hb. unfold int128_min, int128_le. rewrite ge_val, Z.geb_leb by done.
  destruct (Z.leb_spec (val a) (val b)); lia.
Qed.

Lemma max_val a b : int128_wf a -> int128_wf b -> val (int128_max a b) = Z.max (val a) (val b).
Proof.
  intros Ha Hb. unfold int128_max. rewrite ge_val, Z.geb_leb by done.
  destruct (Z.leb_spec (val b) (val a)); lia.
Qed.

(** The two-word operations are the integer
    operations: sum, difference and negation wrap at 128 bits, the order, the
    equality and the test for zero are those of the integers, a shift to the
    right divides, rounding down, and [int128_get64] gives the value exactly
    when it fits in 64 bits. *)
Theorem int128_is_arithmetic a b n :
  int128_wf a -> int128_wf b -> 0 <= n < 128 ->
  val (int128_add a b) = i128 (val a + val b) /\
  val (int128_sub a b) = i128 (val a - val b) /\
  val (int128_neg a) = i128 (- val a) /\
  int128_ge a b = (val a >=? val b) /\ int128_lt a b = (val a <? val b) /\
  int128_eq a b = (val a =? val b) /\ int128_nz a = negb (val a =? 0) /\
  val (int128_min a b) = Z.min (val a) (val b) /\ val (int128_max a b) = Z.max (val a) (val b) /\
  val (int128_rshift a n) = val a / 2 ^ n /\
  int128_get64 a = (if (0 <=? val a) && (val a <? 2 ^ 64) then Some (val a) else None).
Proof.
  intros Ha Hb Hn. split; [by apply add_val |]. split; [by apply sub_val |].
  split; [by apply neg_val |]. split; [by apply ge_val |]. split.
  { unfold int128_lt. rewrite ge_val, Z.geb_leb by done. apply Z.leb_antisym || by rewrite Z.ltb_antisym. }
  split; [by apply eq_val |]. split; [by apply nz_val |]. split; [by apply min_val |].
  split; [by apply max_val |]. split; [| by apply get64_val].
  rewrite rshift_val by done. apply Z.shiftr_div_pow2. lia.
Qed.

Lemma int128_is_arithmetic_witness :
  val (int128_sub (mkInt128 5 0) int128_2_64) = 5 - 2 ^ 64 /\
  val (int128_rshift (mkInt128 0 (-3)) 65) = -2.
Proof.
  split.
  - exact (proj1 (proj2 (int128_is_arithmetic (mkInt128 5 0) int128_2_64 0
      ltac:(split; cbn; lia) ltac:(split; cbn; lia) ltac:(lia)))).
  - vm_compute. reflexivity.
Defined.
