(* ===== verification/Flatview.v ===== *)
(** * The flat view of a memory topology ([memory.c])

    Memory regions form a tree (with aliases, a graph); what an access at an
    address reaches is decided by the tree: regions are looked at in the order
    of their priority, and a region hides what lies below it.
    [generate_memory_topology] flattens the tree into a sorted array of
    ranges.  [resolve] is the meaning of the tree, an address at a time, and the
    theorems say that the array is a correct and well-formed index of it.

    Regions live in a heap ([gmap]) and refer to each other by address.  128-bit
    integers are integers ([Int128] shows that their operations are). *)

From stdpp Require Import gmap.
From S2P Require Import Prelude.
Open Scope Z_scope.

(** ** Address ranges *)

Record AddrRange : Type := mkRange { ar_start : Z; ar_size : Z }.

#[export] Instance AddrRange_eq_dec : EqDecision AddrRange.
Proof. solve_decision. Defined.

Definition addrrange_make (start size : Z) : AddrRange := mkRange start size.

Definition addrrange_equal (r1 r2 : AddrRange) : bool :=
  (ar_start r1 =? ar_start r2) && (ar_size r1 =? ar_size r2).

Definition addrrange_end (r : AddrRange) : Z := ar_start r + ar_size r.

Definition addrrange_shift (range : AddrRange) (delta : Z) : AddrRange :=
  mkRange (ar_start range + delta) (ar_size range).

Definition addrrange_contains (range : AddrRange) (addr : Z) : bool :=
  (addr >=? ar_start range) && (addr <? addrrange_end range).

Definition addrrange_intersects (r1 r2 : AddrRange) : bool :=
  addrrange_contains r1 (ar_start r2) || addrrange_contains r2 (ar_start r1).

Definition addrrange_intersection (r1 r2 : AddrRange) : AddrRange :=
  let start := Z.max (ar_start r1) (ar_start r2) in
  let end_ := Z.min (addrrange_end r1) (addrrange_end r2) in
  addrrange_make start (end_ - start).

(** ** Memory regions

    The fields that the topology depends on; [mr_subregions] is the queue in
    priority order. *)

Record MemoryRegion : Type := mkRegion {
  mr_size : Z;
  mr_addr : Z;
  mr_container : option nat;
  mr_subregions : list nat;
  mr_alias : option nat;
  mr_alias_offset : Z;
  mr_priority : Z;
  mr_may_overlap : bool;
  mr_enabled : bool;
  mr_terminates : bool;
  mr_readonly : bool;
  mr_romd_mode : bool;
  mr_ram : bool;
  mr_rom_device : bool;
  mr_dirty_log_mask : Z
}.
#[export] Instance MemoryRegion_settable : Settable MemoryRegion :=
  λ m, mkRegion (mr_size m) (mr_addr m) (mr_container m) (mr_subregions m) (mr_alias m)
         (mr_alias_offset m) (mr_priority m) (mr_may_overlap m) (mr_enabled m)
         (mr_terminates m) (mr_readonly m) (mr_romd_mode m) (mr_ram m) (mr_rom_device m)
         (mr_dirty_log_mask m).

Notation regions := (gmap nat MemoryRegion).

(** ** Flat ranges and views *)

Record FlatRange : Type := mkFlat {
  fr_mr : nat;
  fr_offset_in_region : Z;
  fr_addr : AddrRange;
  fr_dirty_log_mask : Z;
  fr_romd_mode : bool;
  fr_readonly : bool
}.
#[export] Instance FlatRange_settable : Settable FlatRange :=
  λ f, mkFlat (fr_mr f) (fr_offset_in_region f) (fr_addr f) (fr_dirty_log_mask f)
         (fr_romd_mode f) (fr_readonly f).

(** The array [ranges] with its length [nr]; the state of the functions that
    build it. *)
Notation FlatView := (list FlatRange).
Notation FV := (M Empty_set FlatView).

Definition flatrange_equal (a b : FlatRange) : bool :=
  bool_decide (fr_mr a = fr_mr b)
  && addrrange_equal (fr_addr a) (fr_addr b)
  && (fr_offset_in_region a =? fr_offset_in_region b)
  && eqb (fr_romd_mode a) (fr_romd_mode b)
  && eqb (fr_readonly a) (fr_readonly b).

(** [memmove] of the tail and assignment at [pos]. *)
Definition flatview_insert (pos : nat) (range : FlatRange) : FV unit :=
  modify (λ view, take pos view ++ range :: drop pos view).

Definition get_range (i : nat) : FV FlatRange :=
  view ← get; match view !! i with Some r => mret r | None => halt OutOfBounds end.

Definition int128_get64 (x : Z) : FV Z :=
  assert_ ((0 <=? x) && (x <? 2 ^ 64)) ;; mret x.

Definition can_merge (r1 r2 : FlatRange) : bool :=
  (addrrange_end (fr_addr r1) =? ar_start (fr_addr r2))
  && bool_decide (fr_mr r1 = fr_mr r2)
  && (fr_offset_in_region r1 + ar_size (fr_addr r1) =? fr_offset_in_region r2)
  && (fr_dirty_log_mask r1 =? fr_dirty_log_mask r2)
  && eqb (fr_romd_mode r1) (fr_romd_mode r2)
  && eqb (fr_readonly r1) (fr_readonly r2).

(** The inner loop of [flatview_simplify]: from [j] on, ranges that continue
    their predecessor are added to range [i]; the result is [j]. *)
Fixpoint merge_loop (fuel : nat) (i j : nat) : FV nat :=
  match fuel with
  | O => halt OutOfFuel
  | S fuel =>
      view ← get;
      if negb (j <? length view)%nat then mret j
      else
        r1 ← get_range (j - 1);
        r2 ← get_range j;
        if negb (can_merge r1 r2) then mret j
        else
          r ← get_range i;
          modify (λ view, <[i := r <| fr_addr := mkRange (ar_start (fr_addr r))
            (ar_size (fr_addr r) + ar_size (fr_addr r2)) |>]> view) ;;
          merge_loop fuel i (S j)
  end.

Fixpoint simplify_loop (fuel : nat) (i : nat) : FV unit :=
  match fuel with
  | O => halt OutOfFuel
  | S fuel =>
      view ← get;
      if negb (i <? length view)%nat then mret ()
      else
        j ← merge_loop (S (length view)) i (S i);
        modify (λ view, take (S i) view ++ drop j view) ;;
        simplify_loop fuel (S i)
  end.

Definition flatview_simplify : FV unit :=
  view ← get; simplify_loop (S (length view)) 0.

(** ** Rendering a region *)

(** The ranges for the gaps that the view leaves in [base, base + remain). *)
Fixpoint gap_loop (fuel : nat) (fr : FlatRange) (i : nat) (base offset_in_region remain : Z)
    : FV (nat * Z * Z * Z) :=
  match fuel with
  | O => halt OutOfFuel
  | S fuel =>
      view ← get;
      if negb ((i <? length view)%nat && negb (remain =? 0)) then
        mret (i, base, offset_in_region, remain)
      else
        r ← get_range i;
        if base >=? addrrange_end (fr_addr r) then
          gap_loop fuel fr (S i) base offset_in_region remain
        else
          '(i, base, offset_in_region, remain) ←
            (if base <? ar_start (fr_addr r) then
               let now := Z.min remain (ar_start (fr_addr r) - base) in
               flatview_insert i (fr <| fr_offset_in_region := offset_in_region |>
                                     <| fr_addr := addrrange_make base now |>) ;;
               n ← int128_get64 now;
               mret (S i, base + now, u64 (offset_in_region + n), remain - now)
             else mret (i, base, offset_in_region, remain));
          r ← get_range i;
          let now := Z.min (base + remain) (addrrange_end (fr_addr r)) - base in
          n ← int128_get64 now;
          gap_loop fuel fr (S i) (base + now) (u64 (offset_in_region + n)) (remain - now)
  end.

Definition render_gaps (fr : FlatRange) (base offset_in_region remain : Z) : FV unit :=
  view ← get;
  '(i, base, offset_in_region, remain) ←
    gap_loop (S (length view)) fr 0 base offset_in_region remain;
  when (negb (remain =? 0))
    (flatview_insert i (fr <| fr_offset_in_region := offset_in_region |>
                           <| fr_addr := addrrange_make base remain |>)).

Section Render.
  Context (h : regions).

Definition get_region (p : nat) : FV MemoryRegion :=
  match h !! p with Some m => mret m | None => halt NullPointer end.

(** The recursion follows subregions and aliases; [fuel] is the depth. *)
Fixpoint render_memory_region (fuel : nat) (mr : nat) (base : Z) (clip : AddrRange)
    (readonly : bool) : FV unit :=
  match fuel with
  | O => halt OutOfFuel
  | S fuel =>
      m ← get_region mr;
      if negb (mr_enabled m) then mret ()
      else
        let base := base + mr_addr m in
        let readonly := readonly || mr_readonly m in
        let tmp := addrrange_make base (mr_size m) in
        if negb (addrrange_intersects tmp clip) then mret ()
        else
          let clip := addrrange_intersection tmp clip in
          match mr_alias m with
          | Some a =>
              al ← get_region a;
              render_memory_region fuel a (base - mr_addr al - mr_alias_offset m) clip readonly
          | None =>
              for_each (mr_subregions m) (λ sub, render_memory_region fuel sub base clip readonly) ;;
              if negb (mr_terminates m) then mret ()
              else
                offset_in_region ← int128_get64 (ar_start clip - base);
                render_gaps
                  (mkFlat mr 0 (mkRange 0 0) (mr_dirty_log_mask m) (mr_romd_mode m) readonly)
                  (ar_start clip) offset_in_region (ar_size clip)
          end
  end.

(** The view is built from the empty one. *)
Definition generate_memory_topology (fuel : nat) (mr : option nat) : FV unit :=
  put [] ;;
  match mr with
  | Some mr => render_memory_region fuel mr 0 (addrrange_make 0 (2 ^ 64)) false
  | None => mret ()
  end ;;
  flatview_simplify.

End Render.

(** ** Lookup *)

Definition cmp_flatrange_addr (addr : AddrRange) (fr : FlatRange) : Z :=
  if addrrange_end addr <=? ar_start (fr_addr fr) then -1
  else if ar_start addr >=? addrrange_end (fr_addr fr) then 1
  else 0.

(** [bsearch] of the C library, as glibc has it. *)
Fixpoint bsearch_loop (fuel : nat) (key : AddrRange) (view : FlatView) (l u : nat) : option nat :=
  match fuel with
  | O => None
  | S fuel =>
      if (l <? u)%nat then
        let idx := Nat.div2 (l + u) in
        match view !! idx with
        | None => None
        | Some r =>
            let c := cmp_flatrange_addr key r in
            if c <? 0 then bsearch_loop fuel key view l idx
            else if c >? 0 then bsearch_loop fuel key view (S idx) u
            else Some idx
        end
      else None
  end.

Definition flatview_lookup (view : FlatView) (addr : AddrRange) : option nat :=
  bsearch_loop (S (length view)) addr view 0 (length view).

(** The loop [while (fr > view->ranges && addrrange_intersects(fr[-1].addr, range)) --fr]. *)
Fixpoint step_back (view : FlatView) (range : AddrRange) (i : nat) : nat :=
  match i with
  | O => O
  | S j =>
      match view !! j with
      | Some r => if addrrange_intersects (fr_addr r) range then step_back view range j else i
      | None => i
      end
  end.

Record MemoryRegionSection : Type := mkSection {
  sec_mr : nat;
  sec_offset_within_region : Z;
  sec_size : Z;
  sec_offset_within_address_space : Z;
  sec_readonly : bool
}.

(** The part of [memory_region_find] after the address space is known. *)
Definition find_in_view (view : FlatView) (addr size : Z) : option MemoryRegionSection :=
  let range := addrrange_make addr size in
  i ← flatview_lookup view range;
  fr ← view !! step_back view range i;
  let range := addrrange_intersection range (fr_addr fr) in
  Some (mkSection (fr_mr fr)
    (u64 (fr_offset_in_region fr + (ar_start range - ar_start (fr_addr fr))))
    (ar_size range) (ar_start range) (fr_readonly fr)).

(** ** What a view and a tree say about an address *)

(** The target of an access: region, offset and attributes. *)
Record hit : Type := mkHit {
  hit_mr : nat;
  hit_offset : Z;
  hit_dirty_log_mask : Z;
  hit_romd_mode : bool;
  hit_readonly : bool
}.

Definition range_hit (r : FlatRange) (a : Z) : hit :=
  mkHit (fr_mr r) (fr_offset_in_region r + (a - ar_start (fr_addr r))) (fr_dirty_log_mask r)
    (fr_romd_mode r) (fr_readonly r).

Definition in_range (r : FlatRange) (a : Z) : bool := addrrange_contains (fr_addr r) a.

Fixpoint view_at (view : FlatView) (a : Z) : option hit :=
  match view with
  | [] => None
  | r :: view => if in_range r a then Some (range_hit r a) else view_at view a
  end.

(** Ranges that are not empty, in order and apart, from [l] on and below
    [2 ^ 64]. *)
Fixpoint view_ok (l : Z) (view : FlatView) : Prop :=
  match view with
  | [] => True
  | r :: view =>
      l <= ar_start (fr_addr r) /\ 0 < ar_size (fr_addr r) /\
      addrrange_end (fr_addr r) <= 2 ^ 64 /\
      0 <= fr_offset_in_region r /\ fr_offset_in_region r + ar_size (fr_addr r) <= 2 ^ 64 /\
      view_ok (addrrange_end (fr_addr r)) view
  end.

Fixpoint view_okb (l : Z) (view : FlatView) : bool :=
  match view with
  | [] => true
  | r :: view =>
      (l <=? ar_start (fr_addr r)) && (0 <? ar_size (fr_addr r))
      && (addrrange_end (fr_addr r) <=? 2 ^ 64) && (0 <=? fr_offset_in_region r)
      && (fr_offset_in_region r + ar_size (fr_addr r) <=? 2 ^ 64)
      && view_okb (addrrange_end (fr_addr r)) view
  end.

Lemma view_okb_ok l view : view_okb l view = true -> view_ok l view.
Proof.
  revert l. induction view as [|r view IH]; intros l; [done |]. cbn [view_okb view_ok].
  rewrite !andb_true_iff, !Z.leb_le, Z.ltb_lt. intros [[[[[H1 H2] H3] H4] H5] H6].
  repeat (split; [done |]). by apply IH.
Qed.

Lemma contains_spec r a :
  addrrange_contains r a = true <-> ar_start r <= a < ar_start r + ar_size r.
Proof.
  unfold addrrange_contains, addrrange_end. rewrite Z.geb_leb, andb_true_iff, Z.leb_le, Z.ltb_lt. done.
Qed.

Lemma contains_false r a :
  addrrange_contains r a = false <-> ~ (ar_start r <= a < ar_start r + ar_size r).
Proof. rewrite <- contains_spec. by destruct (addrrange_contains r a). Qed.

(** Case analysis on whether a range contains an address. *)
Ltac range_cases :=
  repeat match goal with
    | |- context [addrrange_contains ?r ?a] =>
        let H := fresh "Hc" in
        destruct (addrrange_contains r a) eqn:H;
        [apply contains_spec in H | apply contains_false in H]
    | |- context [in_range ?r ?a] => unfold in_range
    end.

Lemma view_ok_mono l l' view : l' <= l -> view_ok l view -> view_ok l' view.
Proof. destruct view; [done |]. cbn. intuition lia. Qed.

Lemma view_at_cons r view a :
  view_at (r :: view) a = if in_range r a then Some (range_hit r a) else view_at view a.
Proof. done. Qed.

Lemma view_at_below l view a : view_ok l view -> a < l -> view_at view a = None.
Proof.
  revert l. induction view as [|r view IH]; intros l; [done |]. cbn.
  intros (Hl & Hs & _ & _ & _ & Hv) Ha. unfold addrrange_end in Hv. range_cases; [lia |].
  apply (IH _ Hv). lia.
Qed.

(** ** Filling the gaps, as a recursion on the ranges *)

Fixpoint fill (fr : FlatRange) (view : FlatView) (base off remain : Z) : FlatView :=
  match view with
  | [] =>
      if remain =? 0 then []
      else [fr <| fr_offset_in_region := off |> <| fr_addr := addrrange_make base remain |>]
  | r :: rest =>
      if remain =? 0 then view
      else if base >=? addrrange_end (fr_addr r) then r :: fill fr rest base off remain
      else
        let gap := if base <? ar_start (fr_addr r)
                   then Z.min remain (ar_start (fr_addr r) - base) else 0 in
        let new := if base <? ar_start (fr_addr r)
                   then [fr <| fr_offset_in_region := off |> <| fr_addr := addrrange_make base gap |>]
                   else [] in
        let base := base + gap in
        let now := Z.min (base + (remain - gap)) (addrrange_end (fr_addr r)) - base in
        new ++ r :: fill fr rest (base + now) (off + gap + now) (remain - gap - now)
  end.

(** The room that is left: everything fits in 64 bits. *)
Definition room (base off remain : Z) : Prop :=
  0 <= base /\ 0 <= off /\ 0 <= remain < 2 ^ 64 /\ base + remain <= 2 ^ 64 /\ off + remain <= 2 ^ 64.

Lemma get_range_at (pre rest : FlatView) r i :
  i = length pre -> get_range i (pre ++ r :: rest) = Done r (pre ++ r :: rest) [].
Proof. intros ->. unfold get_range. rewrite bind_get, list_lookup_middle by done. done. Qed.

Lemma insert_at (pre rest : FlatView) r i :
  i = length pre -> flatview_insert i r (pre ++ rest) = Done () (pre ++ r :: rest) [].
Proof. intros ->. unfold flatview_insert, modify. by rewrite take_app_length, drop_app_length. Qed.

Lemma get64_run x (view : FlatView) : 0 <= x < 2 ^ 64 -> int128_get64 x view = Done x view [].
Proof. intros Hx. unfold int128_get64. rewrite between_true by lia. done. Qed.

(** The rest of [render_gaps] after the loop. *)
Definition gaps_end (fr : FlatRange) (x : nat * Z * Z * Z) : FV unit :=
  let '(i, base, off, remain) := x in
  when (negb (remain =? 0))
    (flatview_insert i (fr <| fr_offset_in_region := off |>
                           <| fr_addr := addrrange_make base remain |>)).

Lemma fill_zero fr view base off : fill fr view base off 0 = view.
Proof. by destruct view. Qed.

(** Nothing remains: the loop ends. *)
Lemma gap_loop_zero fr view i base off fuel :
  (0 < fuel)%nat -> (gap_loop fuel fr i base off 0 ≫= gaps_end fr) view = Done () view [].
Proof.
  intros Hf. destruct fuel as [|fuel]; [lia |]. cbn [gap_loop]. rewrite bind_assoc, bind_get.
  cbn [negb Z.eqb]. rewrite andb_false_r. cbn [negb]. by erewrite bind_Done by done.
Qed.

(** The rest of an iteration, at the range [r]. *)
Lemma gap_step fr pre r rest base off remain fuel (k : nat * Z * Z * Z → FV unit) :
  let now := Z.min (base + remain) (addrrange_end (fr_addr r)) - base in
  0 <= now < 2 ^ 64 ->
  ((r ← get_range (length pre);
    let now := Z.min (base + remain) (addrrange_end (fr_addr r)) - base in
    n ← int128_get64 now;
    gap_loop fuel fr (S (length pre)) (base + now) (u64 (off + n)) (remain - now)) ≫= k)
    (pre ++ r :: rest) =
  (gap_loop fuel fr (length (pre ++ [r])) (base + now) (u64 (off + now)) (remain - now) ≫= k)
    ((pre ++ [r]) ++ rest).
Proof.
  intros now Hnow. rewrite bind_assoc. erewrite bind_Done by by apply get_range_at.
  cbv zeta. fold now. rewrite bind_assoc. erewrite bind_Done by by apply get64_run.
  rewrite length_app, Nat.add_1_r, <- app_assoc. done.
Qed.

Lemma gap_loop_fill fr rest : forall pre l base off remain fuel,
  view_ok l rest -> 0 <= l -> room base off remain -> (length rest < fuel)%nat ->
  (gap_loop fuel fr (length pre) base off remain ≫= gaps_end fr) (pre ++ rest) =
  Done () (pre ++ fill fr rest base off remain) [].
Proof.
  induction rest as [|r rest IH]; intros pre l base off remain fuel Hok Hl0 Hroom Hfuel;
    (destruct (decide (remain = 0)) as [-> | Hrem];
     [rewrite fill_zero; apply gap_loop_zero; cbn in Hfuel; lia |]);
    (destruct fuel as [|fuel]; [cbn in Hfuel; lia |]); cbn [gap_loop fill];
    rewrite (proj2 (Z.eqb_neq remain 0)) by done; rewrite bind_assoc, bind_get.
  - rewrite app_nil_r, (proj2 (Nat.ltb_ge _ _)) by lia. cbn [andb negb]. erewrite bind_Done by done.
    unfold gaps_end. rewrite (proj2 (Z.eqb_neq remain 0)) by done. cbn [negb when].
    pose proof (insert_at pre [] (fr <| fr_offset_in_region := off |>
      <| fr_addr := addrrange_make base remain |>) _ eq_refl) as Hi. by rewrite app_nil_r in Hi.
  - cbn in Hok. destruct Hok as (Hl & Hsz & Hend & Ho & Hoz & Hok). unfold room in Hroom. unfold addrrange_end in *.
    rewrite length_app. cbn [length]. rewrite (proj2 (Nat.ltb_lt _ _)) by lia. cbn [andb negb].
    rewrite bind_assoc. erewrite bind_Done by by apply get_range_at.
    rewrite Z.geb_leb. destruct (Z.leb_spec (ar_start (fr_addr r) + ar_size (fr_addr r)) base).
    { specialize (IH (pre ++ [r]) _ base off remain fuel Hok ltac:(lia) Hroom ltac:(cbn in Hfuel; lia)).
      rewrite length_app, Nat.add_1_r, <- !app_assoc in IH. exact IH. }
    destruct (Z.ltb_spec base (ar_start (fr_addr r))) as [Hb | Hb].
    + set (gap := Z.min remain (ar_start (fr_addr r) - base)). set (new := set_field fr_addr _ _).
      assert (Hins : flatview_insert (length pre) new (pre ++ r :: rest) = Done () ((pre ++ [new]) ++ r :: rest) [])
        by (rewrite <- app_assoc; by apply insert_at).
      rewrite !bind_assoc, (bind_Done _ _ _ _ _ Hins), !bind_assoc.
      erewrite bind_Done by (apply get64_run; lia). erewrite bind_Done by done.
      pose proof (gap_step fr (pre ++ [new]) r rest (base + gap) (u64 (off + gap)) (remain - gap) fuel
        (gaps_end fr)) as Hst. cbv zeta in Hst. unfold addrrange_end in Hst.
      set (now := Z.min _ _ - (base + gap)) in *. rewrite length_app, Nat.add_1_r in Hst.
      etrans; [apply Hst; lia |]. clear Hst Hins.
      destruct (decide (remain - gap - now = 0)) as [Hz | Hz].
      { rewrite Hz, fill_zero, <- !app_assoc. rewrite gap_loop_zero by (cbn in Hfuel; lia). done. }
      rewrite !u64_small by (rewrite ?u64_small; lia).
      rewrite (IH ((pre ++ [new]) ++ [r]) _ (base + gap + now) (off + gap + now) (remain - gap - now) fuel Hok).
      * by rewrite <- !app_assoc.
      * lia.
      * unfold room. lia.
      * cbn in Hfuel. lia.
    + rewrite bind_assoc. erewrite bind_Done by done.
      pose proof (gap_step fr pre r rest base off remain fuel (gaps_end fr)) as Hst. cbv zeta in Hst.
      unfold addrrange_end in Hst. rewrite !Z.add_0_r, Z.sub_0_r. cbn [app].
      set (now := Z.min _ _ - base) in *. etrans; [apply Hst; lia |]. clear Hst.
      destruct (decide (remain - now = 0)) as [Hz | Hz].
      { rewrite Hz, fill_zero, <- !app_assoc. rewrite gap_loop_zero by (cbn in Hfuel; lia). done. }
      rewrite !u64_small by (rewrite ?u64_small; lia).
      rewrite (IH (pre ++ [r]) _ (base + now) (off + now) (remain - now) fuel Hok).
      * by rewrite <- !app_assoc.
      * lia.
      * unfold room. lia.
      * cbn in Hfuel. lia.
Qed.

(** What the new ranges add to a view. *)
Definition add_hit (fr : FlatRange) (base off remain : Z) (a : Z) (old : option hit) : option hit :=
  match old with
  | Some x => Some x
  | None =>
      if (base <=? a) && (a <? base + remain)
      then Some (mkHit (fr_mr fr) (off + (a - base)) (fr_dirty_log_mask fr) (fr_romd_mode fr)
                   (fr_readonly fr))
      else None
  end.

Lemma add_hit_outside fr base off remain a old :
  ~ (base <= a < base + remain) -> add_hit fr base off remain a old = old.
Proof. intros Ha. unfold add_hit. by rewrite between_false; destruct old. Qed.

(** Dropping an initial part that an address is not in. *)
Lemma add_hit_shift fr base off remain d a old :
  0 <= d <= remain -> ~ (base <= a < base + d) ->
  add_hit fr (base + d) (off + d) (remain - d) a old = add_hit fr base off remain a old.
Proof.
  intros Hd Ha. unfold add_hit. destruct old; [done |].
  destruct (decide (base + d <= a < base + remain)).
  - rewrite !between_true by lia. do 2 f_equal. lia.
  - rewrite !between_false by lia. done.
Qed.

Lemma fill_spec fr view : forall l base off remain,
  view_ok l view -> 0 <= l -> room base off remain -> (remain = 0 \/ l <= base) ->
  view_ok l (fill fr view base off remain) /\
  forall a, view_at (fill fr view base off remain) a = add_hit fr base off remain a (view_at view a).
Proof.
  induction view as [|r view IH]; intros l base off remain Hok Hl0 Hroom Hb;
    (destruct (Z.eq_dec remain 0) as [-> | Hrem];
     [rewrite fill_zero; split; [done |]; intros a; by rewrite add_hit_outside by lia |]);
    cbn [fill]; rewrite (proj2 (Z.eqb_neq remain 0)) by done; unfold room in Hroom.
  - split; [cbn; unfold addrrange_end; cbn; intuition lia |]. intros a. cbn [view_at]. unfold add_hit.
    range_cases; cbn in *; [by rewrite between_true by lia | by rewrite between_false by lia].
  - cbn in Hok. destruct Hok as (Hl & Hsz & Hend & Ho & Hoz & Hok). unfold addrrange_end in *.
    rewrite Z.geb_leb. destruct (Z.leb_spec (ar_start (fr_addr r) + ar_size (fr_addr r)) base) as [Hge | Hlt].
    { destruct (IH _ base off remain Hok) as [IH1 IH2]; [lia | done | lia |].
      split; [by repeat (split; [done |]) |]. intros a. cbn [view_at]. rewrite IH2.
      range_cases; [by rewrite add_hit_outside by lia | done]. }
    set (gap := if base <? _ then _ else 0). set (now := Z.min _ _ - _).
    assert (Hgap : gap = Z.max 0 (Z.min remain (ar_start (fr_addr r) - base)))
      by (subst gap; destruct (Z.ltb_spec base (ar_start (fr_addr r))); lia).
    destruct (IH _ (base + gap + now) (off + gap + now) (remain - gap - now) Hok) as [IH1 IH2];
      [lia | unfold room; lia | lia |].
    assert (Htail : view_ok (ar_start (fr_addr r)) (r :: fill fr view (base + gap + now) (off + gap + now) (remain - gap - now)))
      by (cbn; unfold addrrange_end; by repeat (split; [lia |])).
    assert (Hat : forall a, ~ (base <= a < base + gap) ->
      view_at (r :: fill fr view (base + gap + now) (off + gap + now) (remain - gap - now)) a =
      add_hit fr base off remain a (view_at (r :: view) a)).
    { intros a Ha. cbn [view_at]. rewrite IH2. replace (remain - gap - now) with (remain - (gap + now)) by lia.
      rewrite <- !Z.add_assoc. range_cases.
      - done.
      - rewrite add_hit_shift; [done | lia | lia]. }
    destruct (Z.ltb_spec base (ar_start (fr_addr r))) as [Hbs | Hbs]; cbn [app].
    + split.
      * cbn. unfold addrrange_end. cbn. repeat (split; [lia |]). exact IH1.
      * intros a. rewrite view_at_cons at 1. unfold in_range. cbn [fr_addr].
        destruct (addrrange_contains _ a) eqn:Hc; [apply contains_spec in Hc | apply contains_false in Hc]; cbn in Hc.
        -- rewrite (view_at_below (ar_start (fr_addr r)) (r :: view) a);
             [| cbn; unfold addrrange_end; by repeat (split; [lia |]) | lia].
           unfold add_hit. by rewrite between_true by lia.
        -- by apply Hat.
    + split; [by eapply view_ok_mono |]. intros a. apply Hat. lia.
Qed.

Lemma render_gaps_spec fr view base off remain :
  view_ok 0 view -> room base off remain ->
  exists view', render_gaps fr base off remain view = Done () view' [] /\ view_ok 0 view' /\
    forall a, view_at view' a = add_hit fr base off remain a (view_at view a).
Proof.
  intros Hok Hroom. exists (fill fr view base off remain). split.
  - unfold render_gaps. rewrite bind_get.
    apply (gap_loop_fill fr view [] 0 base off remain (S (length view)) Hok); [lia | done | lia].
  - apply fill_spec; [done | lia | done |]. unfold room in Hroom. lia.
Qed.

(** ** Merging adjacent ranges *)

(** [cur] is a range that has been extended up to the end of [prev]. *)
Definition extends (cur prev : FlatRange) : Prop :=
  addrrange_end (fr_addr cur) = addrrange_end (fr_addr prev) /\
  fr_offset_in_region cur + ar_size (fr_addr cur) = fr_offset_in_region prev + ar_size (fr_addr prev) /\
  fr_mr cur = fr_mr prev /\ fr_dirty_log_mask cur = fr_dirty_log_mask prev /\
  fr_romd_mode cur = fr_romd_mode prev /\ fr_readonly cur = fr_readonly prev.

Definition grow (cur r : FlatRange) : FlatRange :=
  cur <| fr_addr := mkRange (ar_start (fr_addr cur)) (ar_size (fr_addr cur) + ar_size (fr_addr r)) |>.

Lemma can_merge_spec r1 r2 :
  can_merge r1 r2 = true <->
  addrrange_end (fr_addr r1) = ar_start (fr_addr r2) /\ fr_mr r1 = fr_mr r2 /\
  fr_offset_in_region r1 + ar_size (fr_addr r1) = fr_offset_in_region r2 /\
  fr_dirty_log_mask r1 = fr_dirty_log_mask r2 /\ fr_romd_mode r1 = fr_romd_mode r2 /\
  fr_readonly r1 = fr_readonly r2.
Proof.
  unfold can_merge. rewrite !andb_true_iff, !Z.eqb_eq, !eqb_true_iff, bool_decide_eq_true. tauto.
Qed.

Lemma grow_ok l cur prev r rest :
  extends cur prev -> can_merge prev r = true -> view_ok l (cur :: r :: rest) ->
  extends (grow cur r) r /\ view_ok l (grow cur r :: rest) /\
  forall a, view_at (grow cur r :: rest) a = view_at (cur :: r :: rest) a.
Proof.
  intros (He & Ho & Hm & Hd & Hro & Hr) (H1 & H2 & H3 & H4 & H5 & H6)%can_merge_spec Hok.
  unfold addrrange_end in *. cbn in Hok. unfold addrrange_end in Hok.
  destruct Hok as (Hl & Hs & Hend & Ho1 & Ho2 & Hl2 & Hs2 & Hend2 & Ho3 & Ho4 & Hok).
  unfold extends, grow, addrrange_end. cbn. unfold addrrange_end. cbn. split; [repeat split; (lia || congruence) |]. split.
  - repeat (split; [lia |]). replace (ar_start (fr_addr cur) + (ar_size (fr_addr cur) + ar_size (fr_addr r)))
      with (ar_start (fr_addr r) + ar_size (fr_addr r)) by lia. done.
  - intros a. range_cases; cbn in *; unfold range_hit; cbn; try lia; try done; f_equal; f_equal;
      first [congruence | lia].
Qed.

Lemma lookup_last_mid (pre mid rest : FlatView) cur prev :
  (mid = [] /\ prev = cur \/ exists mid', mid = mid' ++ [prev]) ->
  (pre ++ cur :: mid ++ rest) !! (length pre + length mid)%nat = Some prev.
Proof.
  intros [[-> ->] | [mid' ->]].
  - rewrite Nat.add_0_r. by rewrite list_lookup_middle.
  - rewrite length_app. cbn [length]. rewrite <- app_assoc, app_comm_cons, app_assoc. cbn [app].
    apply list_lookup_middle. rewrite length_app. cbn. lia.
Qed.

Lemma get_range_run i view r : view !! i = Some r -> get_range i view = Done r view [].
Proof. intros Hr. unfold get_range. by rewrite bind_get, Hr. Qed.

Lemma merge_loop_ok pre rest : forall l cur prev mid fuel,
  (mid = [] /\ prev = cur \/ exists mid', mid = mid' ++ [prev]) ->
  extends cur prev -> view_ok l (cur :: rest) -> (length rest < fuel)%nat ->
  exists cur' taken rest', rest = taken ++ rest' /\
    merge_loop fuel (length pre) (S (length pre + length mid)) (pre ++ cur :: mid ++ rest) =
      Done (S (length pre + length mid + length taken)) (pre ++ cur' :: mid ++ rest) [] /\
    view_ok l (cur' :: rest') /\
    forall a, view_at (cur' :: rest') a = view_at (cur :: rest) a.
Proof.
  induction rest as [|r rest IH]; intros l cur prev mid fuel Hmid Hext Hok Hfuel;
    (destruct fuel as [|fuel]; cbn in Hfuel; [lia |]); cbn [merge_loop]; rewrite bind_get.
  - exists cur, [], []. rewrite length_app. cbn [length]. rewrite (app_nil_r mid).
    rewrite (proj2 (Nat.ltb_ge _ _)) by lia. cbn [negb length]. rewrite Nat.add_0_r. done.
  - rewrite length_app. cbn [length]. rewrite length_app. cbn [length].
    rewrite (proj2 (Nat.ltb_lt _ _)) by lia. cbn [negb].
    replace (S (length pre + length mid) - 1)%nat with (length pre + length mid)%nat by lia.
    erewrite bind_Done by (apply get_range_run; by apply lookup_last_mid).
    assert (Hr : (pre ++ cur :: mid ++ r :: rest) !! S (length pre + length mid) = Some r).
    { rewrite app_comm_cons, app_assoc. apply list_lookup_middle. rewrite length_app. cbn. lia. }
    erewrite bind_Done by (apply get_range_run; exact Hr).
    destruct (can_merge prev r) eqn:Hm; cbn [negb].
    + erewrite bind_Done by by apply get_range_at.
      destruct (grow_ok l cur prev r rest Hext Hm Hok) as (Hext' & Hok' & Hat').
      destruct (IH l (grow cur r) r (mid ++ [r]) fuel) as (cur' & taken & rest' & -> & Hrun & Hokr & Hatr);
        [right; by exists mid | done | done | lia |].
      exists cur', (r :: taken), rest'. split; [done |]. split; [| split; [done |]].
      * rewrite bind_modify. rewrite length_app in Hrun. cbn [length] in Hrun.
        rewrite <- !app_assoc in Hrun. cbn [app] in Hrun.
        rewrite insert_app_r_alt by lia. rewrite Nat.sub_diag. cbn [insert list_insert].
        replace (S (length pre + length mid)) with (length pre + (length mid + 1))%nat by lia.
        unfold grow in Hrun. etrans; [exact Hrun |]. f_equal. cbn. lia.
      * intros a. rewrite Hatr. apply Hat'.
    + exists cur, [], (r :: rest). cbn [length]. rewrite Nat.add_0_r. done.
Qed.

Lemma simplify_loop_ok fuel : forall pre rest l,
  view_ok l rest -> (length rest < fuel)%nat ->
  exists rest', simplify_loop fuel (length pre) (pre ++ rest) = Done () (pre ++ rest') [] /\
    view_ok l rest' /\ forall a, view_at rest' a = view_at rest a.
Proof.
  induction fuel as [|fuel IH]; intros pre rest l Hok Hfuel; [lia |]. cbn [simplify_loop]. rewrite bind_get.
  destruct rest as [|r rest].
  - exists []. rewrite app_nil_r, (proj2 (Nat.ltb_ge _ _)) by lia. done.
  - rewrite (proj2 (Nat.ltb_lt _ _)) by (rewrite length_app; cbn; lia). cbn [negb].
    destruct (merge_loop_ok pre rest l r r [] (S (length (pre ++ r :: rest))))
      as (cur' & taken & rest' & -> & Hrun & Hok' & Hat');
      [by left | by repeat split | done | rewrite length_app; cbn; lia |].
    cbn [length app] in Hrun. rewrite Nat.add_0_r in Hrun.
    rewrite (bind_Done _ _ _ _ _ Hrun), bind_modify.
    assert (Hcut : take (S (length pre)) (pre ++ cur' :: taken ++ rest')
      ++ drop (S (length pre + length taken)) (pre ++ cur' :: taken ++ rest') = (pre ++ [cur']) ++ rest').
    { replace (pre ++ cur' :: taken ++ rest') with ((pre ++ [cur']) ++ taken ++ rest') by by rewrite <- app_assoc.
      rewrite take_app_length' by (rewrite length_app; cbn; lia). f_equal.
      rewrite app_assoc, drop_app_length'; [done |]. rewrite !length_app. cbn. lia. }
    rewrite Hcut. cbn in Hok'. destruct Hok' as (H1 & H2 & H3 & H4 & H5 & Hokr).
    destruct (IH (pre ++ [cur']) rest' _ Hokr) as (rest2 & Hrun2 & Hok2 & Hat2).
    { cbn in Hfuel. rewrite length_app in Hfuel. lia. }
    rewrite length_app, Nat.add_1_r, <- (app_assoc pre [cur'] rest2) in Hrun2.
    exists (cur' :: rest2). split; [exact Hrun2 |]. split; [by repeat (split; [done |]) |].
    intros a. rewrite <- Hat'. cbn [view_at]. by rewrite Hat2.
Qed.

Lemma simplify_spec view :
  view_ok 0 view ->
  exists view', flatview_simplify view = Done () view' [] /\ view_ok 0 view' /\
    forall a, view_at view' a = view_at view a.
Proof.
  intros Hok. unfold flatview_simplify. rewrite bind_get.
  apply (simplify_loop_ok (S (length view)) [] view 0 Hok). lia.
Qed.

(** ** The meaning of a tree *)

Definition orelse (x y : option hit) : option hit := match x with Some _ => x | None => y end.

Section Topology.
  Context (h : regions).

(** What an access at the absolute address [a] reaches in the tree at [mr],
    whose container starts at [base]: nothing in a disabled region or outside of
    the region; an alias shows a part of another region; otherwise the first
    subregion in priority order that answers, then the region itself. *)
Fixpoint resolve (fuel : nat) (mr : nat) (base : Z) (ro : bool) (a : Z) : option hit :=
  match fuel with
  | O => None
  | S fuel =>
      m ← h !! mr;
      let start := base + mr_addr m in
      let ro := ro || mr_readonly m in
      if negb (mr_enabled m) || negb ((start <=? a) && (a <? start + mr_size m)) then None
      else
        match mr_alias m with
        | Some al =>
            am ← h !! al;
            resolve fuel al (start - mr_addr am - mr_alias_offset m) ro a
        | None =>
            orelse (foldr (λ sub r, orelse (resolve fuel sub start ro a) r) None (mr_subregions m))
              (if mr_terminates m
               then Some (mkHit mr (a - start) (mr_dirty_log_mask m) (mr_romd_mode m) ro) else None)
        end
  end.

(** The recursion of [render_memory_region] ends within [fuel]: the pointers
    that it follows are valid, the sizes are in range, and a cycle (a container
    with an alias of itself) leaves the clipped range before the fuel ends. *)
Fixpoint tree_ok (fuel : nat) (mr : nat) (base : Z) (clip : AddrRange) : bool :=
  match fuel with
  | O => false
  | S fuel =>
      match h !! mr with
      | None => false
      | Some m =>
          let base := base + mr_addr m in
          let tmp := addrrange_make base (mr_size m) in
          if negb (mr_enabled m) || negb (addrrange_intersects tmp clip) then true
          else
            let clip := addrrange_intersection tmp clip in
            (0 <=? mr_size m)
            && (if mr_terminates m then mr_size m <? 2 ^ 64 else mr_size m <=? 2 ^ 64)
            && match mr_alias m with
               | Some al =>
                   match h !! al with
                   | Some am => tree_ok fuel al (base - mr_addr am - mr_alias_offset m) clip
                   | None => false
                   end
               | None => forallb (λ sub, tree_ok fuel sub base clip) (mr_subregions m)
               end
      end
  end.

(** The whole address space. *)
Definition all_addresses : AddrRange := addrrange_make 0 (2 ^ 64).

Lemma orelse_assoc x y z : orelse (orelse x y) z = orelse x (orelse y z).
Proof. by destruct x. Qed.

(** What a rendered region adds at an address inside [clip]. *)
Definition render_adds (clip : AddrRange) (f : Z → option hit) (view view' : FlatView) : Prop :=
  view_ok 0 view' /\
  forall a, view_at view' a = orelse (view_at view a) (if addrrange_contains clip a then f a else None).

Definition in_space (clip : AddrRange) : Prop :=
  0 <= ar_start clip /\ 0 <= ar_size clip /\ addrrange_end clip <= 2 ^ 64.

Lemma intersects_false r1 r2 a :
  addrrange_intersects r1 r2 = false -> addrrange_contains r2 a = true ->
  addrrange_contains r1 a = false.
Proof.
  unfold addrrange_intersects. rewrite orb_false_iff, !contains_false, contains_spec. lia.
Qed.

Lemma intersection_ok r1 r2 :
  addrrange_intersects r1 r2 = true -> in_space r2 -> 0 <= ar_size r1 ->
  in_space (addrrange_intersection r1 r2) /\
  (forall a, addrrange_contains (addrrange_intersection r1 r2) a =
    addrrange_contains r1 a && addrrange_contains r2 a) /\
  ar_start r1 <= ar_start (addrrange_intersection r1 r2) /\
  addrrange_end (addrrange_intersection r1 r2) <= addrrange_end r1.
Proof.
  unfold addrrange_intersects, in_space, addrrange_intersection, addrrange_end.
  rewrite orb_true_iff, !contains_spec. cbn. intros Hi H2 H1. split; [lia |]. split; [| lia].
  intros a. range_cases; cbn in *; done || lia.
Qed.

Lemma render_subs_ok (render : nat → FV unit) (f : nat → Z → option hit) clip subs :
  (forall sub view, sub ∈ subs -> view_ok 0 view ->
     exists view', render sub view = Done () view' [] /\ render_adds clip (f sub) view view') ->
  forall view, view_ok 0 view ->
  exists view', for_each subs render view = Done () view' [] /\
    render_adds clip (λ a, foldr (λ sub r, orelse (f sub a) r) None subs) view view'.
Proof.
  induction subs as [|sub subs IH]; intros Hr view Hok; cbn [for_each foldr].
  { exists view. split; [done |]. split; [done |]. intros a. by destruct (view_at view a), (addrrange_contains clip a). }
  destruct (Hr sub view) as (v1 & Hv1 & Hok1 & Hat1); [set_solver | done |].
  destruct (IH ltac:(intros; apply Hr; set_solver) v1 Hok1) as (v2 & Hv2 & Hok2 & Hat2).
  exists v2. split; [by rewrite (bind_Done _ _ _ _ _ Hv1) |]. split; [done |].
  intros a. rewrite Hat2, Hat1. destruct (view_at view a), (addrrange_contains clip a); done.
Qed.

(** The region itself goes into the gaps that its subregions leave. *)
Lemma render_self mr m start clip ro view v1 f :
  in_space clip -> render_adds clip f view v1 -> 0 <= mr_size m -> mr_size m < 2 ^ 64 ->
  start <= ar_start clip -> addrrange_end clip <= start + mr_size m ->
  exists v2,
    (offset_in_region ← int128_get64 (ar_start clip - start);
     render_gaps (mkFlat mr 0 (mkRange 0 0) (mr_dirty_log_mask m) (mr_romd_mode m) ro)
       (ar_start clip) offset_in_region (ar_size clip)) v1 = Done () v2 [] /\
    render_adds clip (λ a, orelse (f a)
      (Some (mkHit mr (a - start) (mr_dirty_log_mask m) (mr_romd_mode m) ro))) view v2.
Proof.
  unfold in_space, addrrange_end. intros Hclip [Hok1 Hat1] Hs0 Hs Hlo Hhi.
  erewrite bind_Done by (apply get64_run; lia).
  destruct (render_gaps_spec (mkFlat mr 0 (mkRange 0 0) (mr_dirty_log_mask m) (mr_romd_mode m) ro)
    v1 (ar_start clip) (ar_start clip - start) (ar_size clip) Hok1) as (v2 & Hv2 & Hok2 & Hat2).
  { unfold room. lia. }
  exists v2. split; [exact Hv2 |]. split; [done |]. intros a. rewrite Hat2, Hat1.
  unfold add_hit. destruct (view_at view a); [done |]. cbn [orelse].
  unfold addrrange_contains, addrrange_end. rewrite Z.geb_leb.
  destruct ((ar_start clip <=? a) && (a <? ar_start clip + ar_size clip)); [| done].
  destruct (f a); [done |]. cbn. do 2 f_equal. lia.
Qed.

Lemma render_ok fuel : forall mr base clip ro view,
  tree_ok fuel mr base clip = true -> in_space clip -> view_ok 0 view ->
  exists view', render_memory_region h fuel mr base clip ro view = Done () view' [] /\
    render_adds clip (resolve fuel mr base ro) view view'.
Proof.
  induction fuel as [|fuel IH]; intros mr base clip ro view Htree Hclip Hok; [done |].
  cbn [tree_ok] in Htree. cbn [render_memory_region resolve].
  destruct (h !! mr) as [m |] eqn:Hm; [| done].
  assert (Hget : get_region h mr view = Done m view []) by (unfold get_region; by rewrite Hm).
  rewrite (bind_Done _ _ _ _ _ Hget). cbn [mbind option_bind].
  assert (Hskip : forall f, (forall a, addrrange_contains clip a = true -> f a = None) ->
    render_adds clip f view view).
  { intros f Hf. split; [done |]. intros a. destruct (view_at view a); [done |].
    destruct (addrrange_contains clip a) eqn:Hc; [by rewrite Hf | done]. }
  destruct (mr_enabled m); cbn [negb orb] in *; [| exists view; split; [done | by apply Hskip]].
  set (start := base + mr_addr m) in *. set (ro' := ro || mr_readonly m).
  set (tmp := addrrange_make start (mr_size m)) in *.
  assert (Htmp : forall a, (start <=? a) && (a <? start + mr_size m) = addrrange_contains tmp a)
    by (intros a; unfold addrrange_contains, addrrange_end; cbn; by rewrite Z.geb_leb).
  destruct (addrrange_intersects tmp clip) eqn:Hint; cbn [negb] in *.
  2: { exists view. split; [done |]. apply Hskip. intros a Ha. rewrite Htmp.
       by rewrite (intersects_false _ _ _ Hint Ha). }
  apply andb_true_iff in Htree as [[Hs0 Hs]%andb_true_iff Htree]. apply Z.leb_le in Hs0.
  destruct (intersection_ok tmp clip Hint Hclip Hs0) as (Hclip' & Hin & Hlo & Hhi).
  set (clip' := addrrange_intersection tmp clip) in *. clearbody clip'.
  assert (Hwiden : forall f view', render_adds clip' f view view' ->
    render_adds clip (λ a, if negb ((start <=? a) && (a <? start + mr_size m)) then None else f a) view view').
  { intros f view' [Hok' Hat]. split; [done |]. intros a. rewrite Hat, Hin, Htmp.
    by destruct (addrrange_contains tmp a), (addrrange_contains clip a). }
  destruct (mr_alias m) as [al |].
  - destruct (h !! al) as [am |] eqn:Ham; [| done].
    assert (Hgeta : get_region h al view = Done am view []) by (unfold get_region; by rewrite Ham).
    rewrite (bind_Done _ _ _ _ _ Hgeta). cbn [mbind option_bind].
    destruct (IH al (start - mr_addr am - mr_alias_offset m) clip' ro' view Htree Hclip' Hok) as (v & Hv & Hadds).
    exists v. split; [exact Hv |]. by apply Hwiden.
  - destruct (render_subs_ok (λ sub, render_memory_region h fuel sub start clip' ro')
      (λ sub, resolve fuel sub start ro') clip' (mr_subregions m)) with (view := view)
      as (v1 & Hv1 & Hadd1); [| done |].
    { intros sub v Hsub Hv. apply IH; [| done | done]. rewrite forallb_forall in Htree.
      apply Htree. by apply list_elem_of_In. }
    rewrite (bind_Done _ _ _ _ _ Hv1). destruct (mr_terminates m); cbn [negb].
    + apply Z.ltb_lt in Hs.
      destruct (render_self mr m start clip' ro' view v1 _ Hclip' Hadd1 Hs0 Hs Hlo Hhi) as (v2 & Hv2 & Hadd2).
      exists v2. split; [exact Hv2 |]. by apply Hwiden.
    + exists v1. split; [done |]. apply Hwiden. destruct Hadd1 as [Hok1 Hat1]. split; [done |].
      intros a. rewrite Hat1. destruct (view_at view a); [done |].
      destruct (addrrange_contains clip' a); [| done]. by destruct (foldr _ _ _).
Qed.

Lemma topology_ok fuel root view0 :
  tree_ok fuel root 0 all_addresses = true ->
  exists view, generate_memory_topology h fuel (Some root) view0 = Done () view [] /\
    view_ok 0 view /\
    forall a, 0 <= a < 2 ^ 64 -> view_at view a = resolve fuel root 0 false a.
Proof.
  intros Htree. unfold generate_memory_topology.
  erewrite bind_Done by done.
  destruct (render_ok fuel root 0 all_addresses false [] Htree) as (v1 & Hv1 & Hok1 & Hat1);
    [unfold in_space, addrrange_end; cbn; lia | done |].
  rewrite (bind_Done _ _ _ _ _ Hv1). destruct (simplify_spec v1 Hok1) as (v2 & Hv2 & Hok2 & Hat2).
  exists v2. split; [exact Hv2 |]. split; [done |]. intros a Ha. rewrite Hat2, Hat1. cbn [view_at orelse].
  range_cases; cbn in *; [done | lia].
Qed.

(** C5 (topology_resolves).  Flattening a memory tree is correct: the array
    that [generate_memory_topology] builds is sorted, its ranges are not empty
    and do not overlap, and for every address of the 64-bit space it names the
    region, the offset in it and the attributes that the tree gives for this
    address (priorities, containers, aliases and disabled regions considered),
    and nothing where the tree has nothing. *)
Theorem topology_resolves fuel root view0 :
  tree_ok fuel root 0 all_addresses = true ->
  exists view, generate_memory_topology h fuel (Some root) view0 = Done () view [] /\
    view_ok 0 view /\
    forall a, 0 <= a < 2 ^ 64 -> view_at view a = resolve fuel root 0 false a.
Proof. apply topology_ok. Qed.

End Topology.

(** ** Searching a view *)

Lemma view_ok_lookup l view i r :
  view_ok l view -> view !! i = Some r -> l <= ar_start (fr_addr r) /\ 0 < ar_size (fr_addr r) /\
    addrrange_end (fr_addr r) <= 2 ^ 64 /\ 0 <= fr_offset_in_region r /\
    fr_offset_in_region r + ar_size (fr_addr r) <= 2 ^ 64.
Proof.
  revert l i. induction view as [|x view IH]; intros l i; [done |]. cbn.
  intros (Hl & Hs & He & Ho & Hos & Hok) Hi. destruct i as [|i]; [injection Hi as <-; done |].
  destruct (IH _ _ Hok Hi) as (Hl' & Hrest). unfold addrrange_end in *. split; [lia | done].
Qed.

Lemma view_ok_order l view i j r1 r2 :
  view_ok l view -> (i < j)%nat -> view !! i = Some r1 -> view !! j = Some r2 ->
  addrrange_end (fr_addr r1) <= ar_start (fr_addr r2).
Proof.
  revert l i j. induction view as [|x view IH]; intros l i j Hok Hij H1 H2; [done |].
  destruct j as [|j]; [lia |]. cbn in Hok, H2. destruct Hok as (_ & _ & _ & _ & _ & Hok). destruct i as [|i].
  - injection H1 as <-. by destruct (view_ok_lookup _ _ _ _ Hok H2).
  - apply (IH _ i j Hok); [lia | done | done].
Qed.

(** Where a range that is not hit lies. *)
Lemma cmp_cases key r :
  0 < ar_size key -> 0 < ar_size (fr_addr r) ->
  (cmp_flatrange_addr key r = -1 /\ addrrange_end key <= ar_start (fr_addr r)) \/
  (cmp_flatrange_addr key r = 1 /\ addrrange_end (fr_addr r) <= ar_start key) \/
  (cmp_flatrange_addr key r = 0 /\ ar_start (fr_addr r) < addrrange_end key /\
   ar_start key < addrrange_end (fr_addr r)).
Proof.
  intros Hk Hr. unfold cmp_flatrange_addr. rewrite Z.geb_leb.
  destruct (Z.leb_spec (addrrange_end key) (ar_start (fr_addr r))); [by left | right].
  destruct (Z.leb_spec (addrrange_end (fr_addr r)) (ar_start key)); [by left | by right].
Qed.

Lemma intersects_iff r1 r2 :
  0 < ar_size r1 -> 0 < ar_size r2 ->
  addrrange_intersects r1 r2 = true <-> ar_start r1 < addrrange_end r2 /\ ar_start r2 < addrrange_end r1.
Proof.
  intros H1 H2. unfold addrrange_intersects, addrrange_end. rewrite orb_true_iff, !contains_spec. lia.
Qed.

Definition overlaps (key : AddrRange) (r : FlatRange) : bool := addrrange_intersects (fr_addr r) key.

Lemma bsearch_ok view key fuel : forall l u,
  view_ok 0 view -> 0 < ar_size key -> (u <= length view)%nat -> (u - l < fuel)%nat ->
  (forall i r, view !! i = Some r -> (i < l \/ u <= i)%nat -> overlaps key r = false) ->
  match bsearch_loop fuel key view l u with
  | Some i => exists r, view !! i = Some r /\ overlaps key r = true
  | None => forall i r, view !! i = Some r -> overlaps key r = false
  end.
Proof.
  induction fuel as [|fuel IH]; intros l u Hok Hk Hu Hf Hout; [lia |]. cbn [bsearch_loop].
  destruct (Nat.ltb_spec l u) as [Hlu | Hlu].
  2: { intros i r Hi. apply (Hout i r Hi). lia. }
  pose proof (Nat.div2_div (l + u)) as Hd2. rewrite Hd2.
  set (idx := ((l + u) / 2)%nat). assert (Hidx : (l <= idx < u)%nat)
    by (unfold idx; split; [apply Nat.div_le_lower_bound | apply Nat.div_lt_upper_bound]; lia).
  clearbody idx. destruct (lookup_lt_is_Some_2 view idx) as [r Hr]; [lia |]. rewrite Hr.
  assert (Hpos : forall i x, view !! i = Some x -> 0 < ar_size (fr_addr x))
    by (intros i x Hx; by apply (view_ok_lookup _ _ _ _ Hok Hx)).
  assert (Hno : forall x, 0 < ar_size (fr_addr x) ->
    addrrange_end key <= ar_start (fr_addr x) \/ addrrange_end (fr_addr x) <= ar_start key -> overlaps key x = false).
  { intros x Hx Hor. apply not_true_is_false. unfold overlaps. rewrite intersects_iff by done. lia. }
  destruct (cmp_cases key r Hk (Hpos _ _ Hr)) as [[-> Hc] | [[-> Hc] | [-> Hc]]]; cbn -[bsearch_loop].
  - apply IH; [done | done | lia | lia |]. intros i x Hx [Hi | Hi]; [apply (Hout i x Hx); lia |].
    apply Hno; [by eapply Hpos |]. left. destruct (decide (i = idx)) as [-> |]; [congruence |].
    pose proof (view_ok_order _ _ idx i r x Hok ltac:(lia) Hr Hx). pose proof (Hpos _ _ Hr).
    unfold addrrange_end in *. lia.
  - apply IH; [done | done | lia | lia |]. intros i x Hx [Hi | Hi]; [| apply (Hout i x Hx); lia].
    apply Hno; [by eapply Hpos |]. right. destruct (decide (i = idx)) as [-> |]; [congruence |].
    pose proof (view_ok_order _ _ i idx x r Hok ltac:(lia) Hx Hr). pose proof (Hpos _ _ Hr).
    unfold addrrange_end in *. lia.
  - exists r. split; [done |]. unfold overlaps. apply intersects_iff; [by eapply Hpos | done | lia].
Qed.

Lemma lookup_ok view key :
  view_ok 0 view -> 0 < ar_size key ->
  match flatview_lookup view key with
  | Some i => exists r, view !! i = Some r /\ overlaps key r = true
  | None => forall i r, view !! i = Some r -> overlaps key r = false
  end.
Proof.
  intros Hok Hk. apply bsearch_ok; [done | done | lia | lia |].
  intros i r Hi. apply lookup_lt_Some in Hi. lia.
Qed.

(** Walking back ends at the first range that overlaps. *)
Lemma step_back_ok view key i r :
  view_ok 0 view -> 0 < ar_size key -> view !! i = Some r -> overlaps key r = true ->
  exists r', view !! step_back view key i = Some r' /\ overlaps key r' = true /\
    forall j x, (j < step_back view key i)%nat -> view !! j = Some x -> addrrange_end (fr_addr x) <= ar_start key.
Proof.
  intros Hok Hk. revert r. induction i as [|i IH]; intros r Hr Ho; cbn [step_back].
  { exists r. split; [done |]. split; [done |]. lia. }
  destruct (lookup_lt_is_Some_2 view i) as [y Hy]; [apply lookup_lt_Some in Hr; lia |]. rewrite Hy.
  change (addrrange_intersects (fr_addr y) key) with (overlaps key y).
  destruct (overlaps key y) eqn:Hoy; [by apply (IH y) |].
  exists r. split; [done |]. split; [done |]. intros j x Hj Hx.
  destruct (view_ok_lookup _ _ _ _ Hok Hy) as (_ & Hys & _), (view_ok_lookup _ _ _ _ Hok Hr) as (_ & Hrs & _).
  unfold overlaps in Hoy. apply not_true_iff_false in Hoy. rewrite intersects_iff in Hoy by done.
  apply intersects_iff in Ho; [| done | done].
  pose proof (view_ok_order _ _ i (S i) y r Hok ltac:(lia) Hy Hr).
  destruct (decide (j = i)) as [-> |]; [assert (x = y) as -> by congruence; unfold addrrange_end in *; lia |].
  pose proof (view_ok_order _ _ j i x y Hok ltac:(lia) Hx Hy). unfold addrrange_end in *. lia.
Qed.

Lemma view_at_lookup l view i r a :
  view_ok l view -> view !! i = Some r -> in_range r a = true -> view_at view a = Some (range_hit r a).
Proof.
  revert l i. induction view as [|x view IH]; intros l i Hok Hi Ha; [done |]. destruct i as [|i].
  - injection Hi as ->. cbn. by rewrite Ha.
  - pose proof (view_ok_order _ _ 0 (S i) x r Hok ltac:(lia) eq_refl Hi) as Ho.
    cbn in Hok. destruct Hok as (_ & _ & _ & _ & _ & Hok). cbn in Hi |- *.
    unfold in_range in Ha |- *. pose proof Ha as Ha'. apply contains_spec in Ha'.
    destruct (addrrange_contains (fr_addr x) a) eqn:Hx; [apply contains_spec in Hx; unfold addrrange_end in Ho; lia |].
    by apply (IH _ _ Hok Hi).
Qed.

Lemma view_at_none view a :
  (forall i r, view !! i = Some r -> in_range r a = false) -> view_at view a = None.
Proof.
  induction view as [|x view IH]; intros Hn; [done |]. cbn. rewrite (Hn 0%nat x eq_refl).
  apply IH. intros i r Hi. by apply (Hn (S i)).
Qed.

(** [memory_region_find] on a well-formed view: if it finds
    nothing, no address of the request is mapped.  Otherwise the section starts
    at the first mapped address of the request, and at each address of the
    section the view has the section's region at the corresponding offset.  (The
    binary search ends, wherever it hits.) *)
Theorem find_spec view addr size :
  view_ok 0 view -> 0 <= addr -> 0 < size -> addr + size <= 2 ^ 64 ->
  match find_in_view view addr size with
  | None => forall a, addr <= a < addr + size -> view_at view a = None
  | Some s =>
      let x := sec_offset_within_address_space s in
      addr <= x /\ 0 < sec_size s /\ x + sec_size s <= addr + size /\
      (forall a, addr <= a < x -> view_at view a = None) /\
      (forall a, x <= a < x + sec_size s -> exists hh, view_at view a = Some hh /\
         hit_mr hh = sec_mr s /\ hit_offset hh = sec_offset_within_region s + (a - x) /\
         hit_readonly hh = sec_readonly s)
  end.
Proof.
  intros Hok Ha0 Hs Hend. unfold find_in_view. set (key := addrrange_make addr size).
  pose proof (lookup_ok view key Hok Hs) as Hl. destruct (flatview_lookup view key) as [i |]; cbn [mbind option_bind].
  - destruct Hl as (r & Hr & Ho). destruct (step_back_ok view key i r Hok Hs Hr Ho) as (r' & Hr' & Ho' & Hbefore).
    rewrite Hr'. cbn [mbind option_bind]. destruct (view_ok_lookup _ _ _ _ Hok Hr') as (H0 & Hrs & Hre & Hoff & Hoffs).
    apply intersects_iff in Ho'; [| done | done]. unfold addrrange_end in *.
    unfold addrrange_intersection, addrrange_end. cbn in Ho' |- *.
    rewrite u64_small by lia. repeat (split; [lia |]). split.
    + intros a Ha. apply view_at_none. intros j y Hj. apply contains_false.
      destruct (lt_eq_lt_dec j (step_back view key i)) as [[Hlt | ->] | Hgt].
      * specialize (Hbefore j y Hlt Hj). cbn in Hbefore. lia.
      * assert (y = r') as -> by congruence. lia.
      * pose proof (view_ok_order _ _ _ _ _ _ Hok Hgt Hr' Hj). unfold addrrange_end in *. lia.
    + intros a Ha. exists (range_hit r' a). split; [eapply view_at_lookup; [done | done |]; apply contains_spec; lia |].
      cbn. split; [done |]. split; [lia | done].
  - intros a Ha. apply view_at_none. intros j y Hj. specialize (Hl j y Hj). apply contains_false. intros Hc.
    apply not_true_iff_false in Hl. apply Hl. destruct (view_ok_lookup _ _ _ _ Hok Hj) as (_ & Hys & _).
    apply intersects_iff; [done | done |]. unfold addrrange_end. cbn. lia.
Qed.

(** ** A concrete topology: a container with a memory, a device on top of a part
    of it, and an alias of the container *)

Definition small_region (size addr : Z) (c : option nat) (subs : list nat) (al : option nat) (aoff : Z)
    (term : bool) : MemoryRegion :=
  mkRegion size addr c subs al aoff 0 false true term false true false false 0.

Definition small_heap : regions :=
  {[ 0%nat := small_region (2 ^ 64) 0 None [3; 2; 1]%nat None 0 false;
     1%nat := small_region 0x100 0x100 (Some 0%nat) [] None 0 true;
     2%nat := small_region 0x10 0x180 (Some 0%nat) [] None 0 true;
     3%nat := small_region 0x80 0x1000 (Some 0%nat) [] (Some 0%nat) 0x140 false ]}.

Definition small_view : FlatView :=
  match generate_memory_topology small_heap 5 (Some 0%nat) [] with Done _ v _ => v | Halt _ => [] end.

Example small_view_ranges :
  (λ r, (fr_mr r, ar_start (fr_addr r), ar_size (fr_addr r), fr_offset_in_region r)) <$> small_view =
  [(1%nat, 0x100, 0x80, 0); (2%nat, 0x180, 0x10, 0); (1%nat, 0x190, 0x70, 0x90);
   (1%nat, 0x1000, 0x40, 0x40); (2%nat, 0x1040, 0x10, 0); (1%nat, 0x1050, 0x30, 0x90)].
Proof. vm_compute. reflexivity. Qed.

Lemma topology_resolves_witness :
  exists view, generate_memory_topology small_heap 5 (Some 0%nat) [] = Done () view [] /\ view_ok 0 view /\
    view_at view 0x1044 = resolve small_heap 5 0 0 false 0x1044.
Proof.
  destruct (topology_resolves small_heap 5 0 [] ltac:(vm_compute; reflexivity)) as (view & Hv & Hok & Hat).
  exists view. split; [exact Hv |]. split; [exact Hok |]. apply Hat. lia.
Defined.

Lemma small_view_ok : view_ok 0 small_view.
Proof. apply view_okb_ok. vm_compute. reflexivity. Qed.

Lemma find_spec_witness :
  exists sec, find_in_view small_view 0x200 0x1000 = Some sec /\ sec_offset_within_address_space sec = 0x1000 /\
    forall a, 0x200 <= a < 0x1000 -> view_at small_view a = None.
Proof.
  pose proof (find_spec small_view 0x200 0x1000 small_view_ok ltac:(lia) ltac:(lia) ltac:(lia)) as Hf.
  assert (Hs : sec_offset_within_address_space <$> find_in_view small_view 0x200 0x1000 = Some 0x1000)
    by (vm_compute; reflexivity).
  destruct (find_in_view small_view 0x200 0x1000) as [sec |]; [| discriminate Hs].
  injection Hs as Hs. exists sec. split; [reflexivity |]. split; [exact Hs |].
  intros a Ha. apply Hf. rewrite Hs. exact Ha.
Defined.
