(* ===== verification/Memregion.v ===== *)
(** * Memory regions, transactions and address spaces ([memory.c])

    The operations that build and change the tree of regions, and the
    transactions that recompute the flat view of each address space and tell
    the listeners what has changed.  Reference counts belong to the object
    model and are left out, as are event notifiers and coalesced ranges, which
    no device of the boards uses. *)

From stdpp Require Import gmap.
From S2P Require Import Prelude Flatview.
Open Scope Z_scope.

(** ** State *)

Record AddressSpace : Type := mkSpace {
  as_root : option nat;
  current_map : FlatView
}.

Record mstate : Type := mkMstate {
  mrs : regions;
  address_spaces : list nat;
  spaces : gmap nat AddressSpace;
  memory_region_transaction_depth : Z;
  memory_region_update_pending : bool
}.
#[export] Instance mstate_settable : Settable mstate :=
  λ s, mkMstate (mrs s) (address_spaces s) (spaces s) (memory_region_transaction_depth s)
         (memory_region_update_pending s).

(** The calls of the listeners, with the section they are about. *)
Inductive mevent : Type :=
  | ListenBegin
  | ListenCommit
  | RegionAdd (as_ : nat) (fr : FlatRange)
  | RegionDel (as_ : nat) (fr : FlatRange)
  | RegionNop (as_ : nat) (fr : FlatRange)
  | LogStart (as_ : nat) (fr : FlatRange)
  | LogStop (as_ : nat) (fr : FlatRange).

Notation MM := (M mevent mstate).

Definition get_mr (p : nat) : MM MemoryRegion :=
  s ← get; match mrs s !! p with Some m => mret m | None => halt NullPointer end.

Definition upd_mr (p : nat) (f : MemoryRegion → MemoryRegion) : MM unit :=
  m ← get_mr p; modify (λ s, s <| mrs := <[p := f m]> (mrs s) |>).

Definition get_space (k : nat) : MM AddressSpace :=
  s ← get; match spaces s !! k with Some a => mret a | None => halt NullPointer end.

(** ** Telling the listeners *)

(** The symmetric difference of two views, as a walk along both. *)
Fixpoint update_pass (fuel : nat) (as_ : nat) (adding : bool) (old new : FlatView) : MM unit :=
  match fuel with
  | O => halt OutOfFuel
  | S fuel =>
      match old, new with
      | [], [] => mret ()
      | frold :: old', [] =>
          when (negb adding) (emit (RegionDel as_ frold)) ;;
          update_pass fuel as_ adding old' new
      | [], frnew :: new' =>
          when adding (emit (RegionAdd as_ frnew)) ;;
          update_pass fuel as_ adding old new'
      | frold :: old', frnew :: new' =>
          if (ar_start (fr_addr frold) <? ar_start (fr_addr frnew))
             || ((ar_start (fr_addr frold) =? ar_start (fr_addr frnew))
                 && negb (flatrange_equal frold frnew)) then
            when (negb adding) (emit (RegionDel as_ frold)) ;;
            update_pass fuel as_ adding old' new
          else if flatrange_equal frold frnew then
            when adding
              (emit (RegionNop as_ frnew) ;;
               if cbool (fr_dirty_log_mask frold) && negb (cbool (fr_dirty_log_mask frnew))
               then emit (LogStop as_ frnew)
               else when (cbool (fr_dirty_log_mask frnew) && negb (cbool (fr_dirty_log_mask frold)))
                      (emit (LogStart as_ frnew))) ;;
            update_pass fuel as_ adding old' new'
          else
            when adding (emit (RegionAdd as_ frnew)) ;;
            update_pass fuel as_ adding old new'
      end
  end.

Definition address_space_update_topology_pass (as_ : nat) (old new : FlatView) (adding : bool) : MM unit :=
  update_pass (S (length old + length new)) as_ adding old new.

(** The depth of a tree is at most the number of regions, and an alias of a
    container in itself adds one level. *)
Definition topology (s : mstate) (root : option nat) : outcome Empty_set FlatView unit :=
  generate_memory_topology (mrs s) (S (size (mrs s))) root [].

Definition address_space_update_topology (k : nat) : MM unit :=
  a ← get_space k;
  s ← get;
  match topology s (as_root a) with
  | Halt f => halt f
  | Done _ new_view _ =>
      address_space_update_topology_pass k (current_map a) new_view false ;;
      address_space_update_topology_pass k (current_map a) new_view true ;;
      modify (λ s, s <| spaces := <[k := mkSpace (as_root a) new_view]> (spaces s) |>)
  end.

(** ** Transactions *)

Definition memory_region_transaction_begin : MM unit :=
  modify (λ s, s <| memory_region_transaction_depth := memory_region_transaction_depth s + 1 |>).

Definition memory_region_clear_pending : MM unit :=
  modify (λ s, s <| memory_region_update_pending := false |>).

Definition memory_region_transaction_commit : MM unit :=
  s ← get;
  assert_ (negb (memory_region_transaction_depth s =? 0)) ;;
  modify (λ s, s <| memory_region_transaction_depth := memory_region_transaction_depth s - 1 |>) ;;
  s ← get;
  when (memory_region_transaction_depth s =? 0)
    (when (memory_region_update_pending s)
       (emit ListenBegin ;;
        for_each (address_spaces s) address_space_update_topology ;;
        emit ListenCommit) ;;
     memory_region_clear_pending).

(** [memory_region_update_pending |= b] *)
Definition set_pending (b : bool) : MM unit :=
  modify (λ s, s <| memory_region_update_pending := memory_region_update_pending s || b |>).

(** ** Creating regions *)

Definition UINT64_MAX : Z := 2 ^ 64 - 1.

(** The fields that [memory_region_initfn] and [memory_region_init] set. *)
Definition memory_region_init (mr : nat) (size : Z) : MM unit :=
  modify (λ s, s <| mrs := <[mr :=
    mkRegion (if size =? UINT64_MAX then 2 ^ 64 else size) 0 None [] None 0 0 false
      true false false true false false 0]> (mrs s) |>).

Definition memory_region_init_io (mr : nat) (size : Z) : MM unit :=
  memory_region_init mr size ;;
  upd_mr mr (λ m, m <| mr_terminates := true |>).

Definition memory_region_init_ram (mr : nat) (size : Z) : MM unit :=
  memory_region_init mr size ;;
  upd_mr mr (λ m, m <| mr_ram := true |> <| mr_terminates := true |>).

Definition memory_region_init_alias (mr orig : nat) (offset size : Z) : MM unit :=
  memory_region_init mr size ;;
  upd_mr mr (λ m, m <| mr_alias := Some orig |> <| mr_alias_offset := offset |>).

Definition memory_region_init_rom_device (mr : nat) (size : Z) : MM unit :=
  memory_region_init mr size ;;
  upd_mr mr (λ m, m <| mr_terminates := true |> <| mr_rom_device := true |>).

Definition memory_region_init_reservation (mr : nat) (size : Z) : MM unit :=
  memory_region_init_io mr size.

Definition memory_region_size (m : MemoryRegion) : Z :=
  if mr_size m =? 2 ^ 64 then UINT64_MAX else mr_size m.

Definition memory_region_is_ram (m : MemoryRegion) : bool := mr_ram m.
Definition memory_region_is_logging (m : MemoryRegion) : bool := cbool (mr_dirty_log_mask m).
Definition memory_region_is_rom (m : MemoryRegion) : bool := mr_ram m && mr_readonly m.
Definition memory_region_is_mapped (m : MemoryRegion) : bool :=
  match mr_container m with Some _ => true | None => false end.

(** ** Changing the tree *)

(** The place of a subregion: before the first one whose priority is not
    higher. *)
Fixpoint insert_subregion (h : regions) (prio : Z) (sub : nat) (l : list nat) : option (list nat) :=
  match l with
  | [] => Some [sub]
  | other :: l' =>
      m ← h !! other;
      if prio >=? mr_priority m then Some (sub :: l)
      else (other ::.) <$> insert_subregion h prio sub l'
  end.

(** The first loop of the function has no effect: its warning is disabled. *)
Definition memory_region_update_container_subregions (sub : nat) : MM unit :=
  sm ← get_mr sub;
  match mr_container sm with
  | None => halt NullPointer
  | Some mr =>
      memory_region_transaction_begin ;;
      m ← get_mr mr;
      s ← get;
      match insert_subregion (mrs s) (mr_priority sm) sub (mr_subregions m) with
      | None => halt NullPointer
      | Some l =>
          upd_mr mr (λ m, m <| mr_subregions := l |>) ;;
          set_pending (mr_enabled m && mr_enabled sm) ;;
          memory_region_transaction_commit
      end
  end.

Definition memory_region_add_subregion_common (mr : nat) (offset : Z) (sub : nat) : MM unit :=
  sm ← get_mr sub;
  assert_ (match mr_container sm with None => true | Some _ => false end) ;;
  upd_mr sub (λ m, m <| mr_container := Some mr |> <| mr_addr := offset |>) ;;
  memory_region_update_container_subregions sub.

Definition memory_region_add_subregion (mr : nat) (offset : Z) (sub : nat) : MM unit :=
  upd_mr sub (λ m, m <| mr_may_overlap := false |> <| mr_priority := 0 |>) ;;
  memory_region_add_subregion_common mr offset sub.

Definition memory_region_add_subregion_overlap (mr : nat) (offset : Z) (sub : nat) (prio : Z) : MM unit :=
  upd_mr sub (λ m, m <| mr_may_overlap := true |> <| mr_priority := prio |>) ;;
  memory_region_add_subregion_common mr offset sub.

Definition memory_region_del_subregion (mr sub : nat) : MM unit :=
  memory_region_transaction_begin ;;
  sm ← get_mr sub;
  assert_ (bool_decide (mr_container sm = Some mr)) ;;
  upd_mr sub (λ m, m <| mr_container := None |>) ;;
  upd_mr mr (λ m, m <| mr_subregions := filter (λ x, x ≠ sub) (mr_subregions m) |>) ;;
  m ← get_mr mr;
  set_pending (mr_enabled m && mr_enabled sm) ;;
  memory_region_transaction_commit.

Definition memory_region_set_enabled (mr : nat) (enabled : bool) : MM unit :=
  m ← get_mr mr;
  if eqb enabled (mr_enabled m) then mret ()
  else
    memory_region_transaction_begin ;;
    upd_mr mr (λ m, m <| mr_enabled := enabled |>) ;;
    modify (λ s, s <| memory_region_update_pending := true |>) ;;
    memory_region_transaction_commit.

Definition memory_region_set_readonly (mr : nat) (readonly : bool) : MM unit :=
  m ← get_mr mr;
  when (negb (eqb (mr_readonly m) readonly))
    (memory_region_transaction_begin ;;
     upd_mr mr (λ m, m <| mr_readonly := readonly |>) ;;
     set_pending (mr_enabled m) ;;
     memory_region_transaction_commit).

Definition memory_region_rom_device_set_romd (mr : nat) (romd_mode : bool) : MM unit :=
  m ← get_mr mr;
  when (negb (eqb (mr_romd_mode m) romd_mode))
    (memory_region_transaction_begin ;;
     upd_mr mr (λ m, m <| mr_romd_mode := romd_mode |>) ;;
     set_pending (mr_enabled m) ;;
     memory_region_transaction_commit).

Definition memory_region_set_log (mr : nat) (log : bool) (client : Z) : MM unit :=
  let mask := u8 (1 << client) in
  memory_region_transaction_begin ;;
  m ← get_mr mr;
  upd_mr mr (λ m, m <| mr_dirty_log_mask :=
    u8 (Z.ldiff (mr_dirty_log_mask m) mask .| (b2z log * mask)) |>) ;;
  set_pending (mr_enabled m) ;;
  memory_region_transaction_commit.

Definition memory_region_set_alias_offset (mr : nat) (offset : Z) : MM unit :=
  m ← get_mr mr;
  assert_ (match mr_alias m with Some _ => true | None => false end) ;;
  if offset =? mr_alias_offset m then mret ()
  else
    memory_region_transaction_begin ;;
    upd_mr mr (λ m, m <| mr_alias_offset := offset |>) ;;
    set_pending (mr_enabled m) ;;
    memory_region_transaction_commit.

Definition memory_region_readd_subregion (mr : nat) : MM unit :=
  m ← get_mr mr;
  match mr_container m with
  | None => mret ()
  | Some container =>
      memory_region_transaction_begin ;;
      memory_region_del_subregion container mr ;;
      upd_mr mr (λ m, m <| mr_container := Some container |>) ;;
      memory_region_update_container_subregions mr ;;
      memory_region_transaction_commit
  end.

Definition memory_region_set_address (mr : nat) (addr : Z) : MM unit :=
  m ← get_mr mr;
  when (negb (addr =? mr_addr m))
    (upd_mr mr (λ m, m <| mr_addr := addr |>) ;;
     memory_region_readd_subregion mr).

(** ** Address spaces *)

Definition address_space_init (k root : nat) : MM unit :=
  memory_region_transaction_begin ;;
  m ← get_mr root;
  modify (λ s, s <| spaces := <[k := mkSpace (Some root) []]> (spaces s) |>
                 <| address_spaces := address_spaces s ++ [k] |>) ;;
  set_pending (mr_enabled m) ;;
  memory_region_transaction_commit.

(** [address_space_destroy]: the root is cleared without marking an update as
    pending. *)
Definition address_space_destroy (k : nat) : MM unit :=
  memory_region_transaction_begin ;;
  a ← get_space k;
  modify (λ s, s <| spaces := <[k := mkSpace None (current_map a)]> (spaces s) |>) ;;
  memory_region_transaction_commit ;;
  modify (λ s, s <| address_spaces := filter (λ j, j ≠ k) (address_spaces s) |>
                 <| spaces := delete k (spaces s) |>).

(** ** Finding a region *)

(** The root of the tree that [mr] is in, and the address in it. *)
Fixpoint find_root (fuel : nat) (mr : nat) (addr : Z) : MM (nat * Z) :=
  match fuel with
  | O => halt OutOfFuel
  | S fuel =>
      m ← get_mr mr;
      match mr_container m with
      | None => mret (mr, addr)
      | Some c => cm ← get_mr c; find_root fuel c (u64 (addr + mr_addr cm))
      end
  end.

Definition memory_region_to_address_space (root : nat) : MM (option nat) :=
  s ← get;
  mret (head (filter (λ k, (a ← spaces s !! k; as_root a) = Some root) (address_spaces s))).

Definition memory_region_find (mr : nat) (addr len : Z) : MM (option MemoryRegionSection) :=
  m ← get_mr mr;
  s ← get;
  '(root, addr) ← find_root (S (size (mrs s))) mr (u64 (addr + mr_addr m));
  k ← memory_region_to_address_space root;
  match k with
  | None => mret None
  | Some k => a ← get_space k; mret (find_in_view (current_map a) addr len)
  end.

Definition memory_region_present (container : nat) (addr : Z) : MM bool :=
  r ← memory_region_find container addr 1;
  mret (match r with Some sec => negb (bool_decide (sec_mr sec = container)) | None => false end).

(** ** What the listeners are told

    A listener that keeps the ranges it has been given; the dirty log mask is
    announced on its own. *)

Definition fkey (fr : FlatRange) : FlatRange := fr <| fr_dirty_log_mask := 0 |>.

#[export] Instance FlatRange_eq_dec : EqDecision FlatRange.
Proof. solve_decision. Defined.

Definition listen (k : nat) (known : list FlatRange) (e : mevent) : list FlatRange :=
  match e with
  | RegionAdd j fr => if decide (j = k) then fkey fr :: known else known
  | RegionDel j fr => if decide (j = k) then filter (λ x, x ≠ fkey fr) known else known
  | _ => known
  end.

Lemma flatrange_equal_spec a b : flatrange_equal a b = true <-> fkey a = fkey b.
Proof.
  unfold flatrange_equal, addrrange_equal, fkey, set_field. cbn.
  rewrite !andb_true_iff, !Z.eqb_eq, !eqb_true_iff, bool_decide_eq_true.
  destruct a as [? ? [] ? ? ?], b as [? ? [] ? ? ?]; cbn. split; [intuition congruence |].
  intros [=]. subst. tauto.
Qed.

Lemma view_ok_start l view x : view_ok l view -> x ∈ view -> l <= ar_start (fr_addr x).
Proof. intros Hok [i Hi]%list_elem_of_lookup. by destruct (view_ok_lookup _ _ _ _ Hok Hi). Qed.

(** A range of a view starts after the first. *)
Lemma view_ok_after l r view x : view_ok l (r :: view) -> x ∈ view -> ar_start (fr_addr r) < ar_start (fr_addr x).
Proof.
  cbn. intros (_ & Hs & _ & _ & _ & Hok) Hx. pose proof (view_ok_start _ _ _ Hok Hx). unfold addrrange_end in *. lia.
Qed.

Lemma fkey_start a b : fkey a = fkey b -> ar_start (fr_addr a) = ar_start (fr_addr b).
Proof. intros Hk. by apply (f_equal (λ x, ar_start (fr_addr x))) in Hk. Qed.

Lemma fkey_in_after l r view x :
  view_ok l (r :: view) -> ar_start (fr_addr x) <= ar_start (fr_addr r) -> fkey x ∉ (fkey <$> view).
Proof.
  intros Hok Hx (y & Hk%fkey_start & Hy)%list_elem_of_fmap.
  pose proof (view_ok_after _ _ _ _ Hok Hy). lia.
Qed.

(** The ranges of [a] that are not in [b]. *)
Definition missing (a b : FlatView) : FlatView := filter (λ x, fkey x ∉ (fkey <$> b)) a.

Lemma missing_skip a n b : fkey n ∉ (fkey <$> a) -> missing a (n :: b) = missing a b.
Proof.
  intros Ha. unfold missing. induction a as [|x a IH]; [done |].
  rewrite fmap_cons, not_elem_of_cons in Ha. destruct Ha as [Hx Ha].
  rewrite !filter_cons, IH by done.
  destruct (decide (fkey x ∉ (fkey <$> n :: b))) as [H1 | H1], (decide (fkey x ∉ (fkey <$> b))) as [H2 | H2];
    rewrite fmap_cons, elem_of_cons in H1; (done || exfalso; naive_solver).
Qed.

Definition changes (e : mevent) : bool :=
  match e with RegionAdd _ _ | RegionDel _ _ => true | _ => false end.

Definition changed (t : list mevent) : list mevent := filter (λ e, changes e = true) t.

Lemma missing_in x a b : fkey x ∈ (fkey <$> b) -> missing (x :: a) b = missing a b.
Proof. intros Hx. unfold missing. by rewrite filter_cons_False by tauto. Qed.

Lemma missing_out x a b : fkey x ∉ (fkey <$> b) -> missing (x :: a) b = x :: missing a b.
Proof. intros Hx. unfold missing. by rewrite filter_cons_True by done. Qed.

Lemma pass_step (m rest : MM unit) s u g :
  m s = Done () s u -> (exists t, rest s = Done () s t /\ changed t = g) ->
  exists t, (m ;; rest) s = Done () s t /\ changed t = changed u ++ g.
Proof.
  intros Hm (t & Ht & <-). exists (u ++ t). split; [by eapply bind_Done_trace | apply filter_app].
Qed.

(** The events of one step. *)
Lemma when_emit (b : bool) (e : mevent) (s : mstate) : when b (emit e) s = Done () s (if b then [e] else []).
Proof. by destruct b. Qed.

(** The events for a range of both views, none of which says that it changed. *)
Lemma kept_events k (adding start stop : bool) n (s : mstate) :
  exists u, when adding (emit (RegionNop k n) ;; if stop then emit (LogStop k n) else when start (emit (LogStart k n))) s
    = Done () s u /\ changed u = [].
Proof. destruct adding, stop, start; by eexists. Qed.

Lemma update_pass_ok k adding fuel : forall old new l1 l2 s,
  view_ok l1 old -> view_ok l2 new -> (length old + length new < fuel)%nat ->
  exists t, update_pass fuel k adding old new s = Done () s t /\
    changed t = if adding then RegionAdd k <$> missing new old else RegionDel k <$> missing old new.
Proof.
  induction fuel as [|fuel IH]; intros old new l1 l2 s H1 H2 Hf; [lia |].
  assert (Htail : forall l r v, view_ok l (r :: v) -> view_ok (addrrange_end (fr_addr r)) v) by (cbn; tauto).
  destruct old as [|o old], new as [|n new]; cbn [update_pass length] in *.
  - exists []. by destruct adding.
  - rewrite missing_out by apply not_elem_of_nil.
    destruct (pass_step _ (update_pass fuel k adding [] new) s _ _ (when_emit adding (RegionAdd k n) s)
      (IH [] new _ _ s H1 (Htail _ _ _ H2) ltac:(cbn; lia))) as (t & Ht & Hc).
    exists t. split; [exact Ht |]. rewrite Hc. by destruct adding.
  - rewrite missing_out by apply not_elem_of_nil.
    destruct (pass_step _ (update_pass fuel k adding old []) s _ _ (when_emit (negb adding) (RegionDel k o) s)
      (IH old [] _ _ s (Htail _ _ _ H1) H2 ltac:(cbn; lia))) as (t & Ht & Hc).
    exists t. split; [exact Ht |]. rewrite Hc. by destruct adding.
  - destruct (flatrange_equal o n) eqn:Heq.
    + apply flatrange_equal_spec in Heq. pose proof (fkey_start _ _ Heq) as Hst.
      rewrite Hst, Z.ltb_irrefl, Z.eqb_refl. cbn [orb andb negb].
      assert (Hno : fkey o ∈ (fkey <$> n :: new)) by (rewrite fmap_cons, Heq; by left).
      assert (Hon : fkey n ∈ (fkey <$> o :: old)) by (rewrite fmap_cons, Heq; by left).
      rewrite (missing_in _ _ _ Hno), (missing_in _ _ _ Hon).
      rewrite (missing_skip old n) by (apply (fkey_in_after _ _ _ _ H1); lia).
      rewrite (missing_skip new o) by (apply (fkey_in_after _ _ _ _ H2); lia).
      destruct (IH old new _ _ s (Htail _ _ _ H1) (Htail _ _ _ H2) ltac:(lia)) as (t & Ht & Hc).
      edestruct kept_events as (u & Hu & Hcu). destruct (pass_step _ (update_pass fuel k adding old new) s u (changed t) Hu) as (t' & Ht' & Hc');
        [by exists t |].
      exists t'. split; [exact Ht' |]. by rewrite Hc', Hcu, Hc.
    + assert (Hne : fkey o <> fkey n) by (rewrite <- flatrange_equal_spec; by rewrite Heq).
      cbn [negb]. rewrite andb_true_r.
      destruct (Z.leb_spec (ar_start (fr_addr o)) (ar_start (fr_addr n))) as [Hle | Hgt].
      * assert (Hb : (ar_start (fr_addr o) <? ar_start (fr_addr n)) || (ar_start (fr_addr o) =? ar_start (fr_addr n)) = true).
        { destruct (Z.ltb_spec (ar_start (fr_addr o)) (ar_start (fr_addr n))); [done |]. cbn. apply Z.eqb_eq. lia. }
        rewrite Hb. assert (Ho : fkey o ∉ (fkey <$> n :: new)).
        { rewrite fmap_cons, elem_of_cons. intros [? | Hin]; [done |].
          by apply (fkey_in_after _ _ _ o H2) in Hin. }
        destruct (pass_step _ (update_pass fuel k adding old (n :: new)) s _ _ (when_emit (negb adding) (RegionDel k o) s)
          (IH old (n :: new) _ _ s (Htail _ _ _ H1) H2 ltac:(cbn; lia))) as (t & Ht & Hc).
        exists t. split; [exact Ht |]. rewrite Hc, (missing_out o) by done.
        rewrite (missing_skip (n :: new) o) by done. by destruct adding.
      * rewrite (proj2 (Z.ltb_ge _ _)), (proj2 (Z.eqb_neq (ar_start (fr_addr o)) _)) by lia. cbn [orb].
        assert (Hn : fkey n ∉ (fkey <$> o :: old)).
        { rewrite fmap_cons, elem_of_cons. intros [? | Hin]; [done |].
          apply (fkey_in_after _ _ _ n H1) in Hin; [done | lia]. }
        destruct (pass_step _ (update_pass fuel k adding (o :: old) new) s _ _ (when_emit adding (RegionAdd k n) s)
          (IH (o :: old) new _ _ s H1 (Htail _ _ _ H2) ltac:(cbn; lia))) as (t & Ht & Hc).
        exists t. split; [exact Ht |]. rewrite Hc, (missing_out n), (missing_skip (o :: old) n) by done.
        by destruct adding.
Qed.

(** ** The listeners follow the view *)

Lemma listen_dels k dels known x :
  x ∈ foldl (listen k) known (RegionDel k <$> dels) <-> x ∈ known /\ x ∉ (fkey <$> dels).
Proof.
  revert known. induction dels as [|d dels IH]; intros known; [set_solver |].
  cbn. rewrite decide_True by done. rewrite IH, list_elem_of_filter, elem_of_cons. tauto.
Qed.

Lemma listen_adds k adds known x :
  x ∈ foldl (listen k) known (RegionAdd k <$> adds) <-> x ∈ known \/ x ∈ (fkey <$> adds).
Proof.
  revert known. induction adds as [|d adds IH]; intros known; [set_solver |].
  cbn. rewrite decide_True by done. rewrite IH, !elem_of_cons. tauto.
Qed.

Lemma listen_changed k t known : foldl (listen k) known t = foldl (listen k) known (changed t).
Proof.
  revert known. induction t as [|e t IH]; intros known; [done |]. unfold changed. rewrite filter_cons.
  destruct (decide (changes e = true)) as [Hc | Hc]; cbn; rewrite IH; [done |].
  by destruct e.
Qed.

(** When an address space gets a new view, a listener
    that knew exactly the ranges of the old view knows exactly those of the new
    one afterwards: what is deleted and added is the difference of the views. *)
Theorem listeners_follow k old new s known l1 l2 :
  view_ok l1 old -> view_ok l2 new -> (forall x, x ∈ known <-> x ∈ (fkey <$> old)) ->
  exists t, (address_space_update_topology_pass k old new false ;;
             address_space_update_topology_pass k old new true) s = Done () s t /\
    forall x, x ∈ foldl (listen k) known t <-> x ∈ (fkey <$> new).
Proof.
  intros H1 H2 Hk. unfold address_space_update_topology_pass.
  destruct (update_pass_ok k false (S (length old + length new)) old new l1 l2 s H1 H2 ltac:(lia)) as (t1 & Ht1 & Hc1).
  destruct (update_pass_ok k true (S (length old + length new)) old new l1 l2 s H1 H2 ltac:(lia)) as (t2 & Ht2 & Hc2).
  exists (t1 ++ t2). split; [by eapply bind_Done_trace |]. intros x.
  rewrite foldl_app, (listen_changed k t1), (listen_changed k t2), Hc1, Hc2, listen_adds, listen_dels, Hk.
  unfold missing. rewrite !list_elem_of_fmap. setoid_rewrite list_elem_of_filter. split.
  - intros [[(y & -> & Hy) Hn] | (y & -> & _ & Hy)]; [| by exists y].
    destruct (decide (fkey y ∈ (fkey <$> new))) as [Hin | Hin]; [by apply list_elem_of_fmap in Hin |].
    exfalso. apply Hn. by exists y.
  - intros (y & -> & Hy). destruct (decide (fkey y ∈ (fkey <$> old))) as [Hin | Hin].
    + left. split; [by apply list_elem_of_fmap in Hin |]. intros (z & Hz & Hno & _). apply Hno. rewrite <- Hz.
      apply list_elem_of_fmap. by exists y.
    + right. by exists y.
Qed.

(** ** Changes that are not visible

    Two heaps that differ only inside of disabled regions, in disabled
    subregions, or in the address of a region that is in no enabled container,
    resolve every address alike. *)

Definition visible (h : regions) (p : nat) : bool :=
  match h !! p with Some m => mr_enabled m | None => true end.

Definition maddr (h : regions) (p : nat) : Z := match h !! p with Some m => mr_addr m | None => 0 end.

Definition visible_subs (h : regions) (m : MemoryRegion) : list nat :=
  filter (λ x, visible h x = true) (mr_subregions m).

Definition looks (m : MemoryRegion) : Z * option nat * Z * bool * bool * bool * Z :=
  (mr_size m, mr_alias m, mr_alias_offset m, mr_terminates m, mr_readonly m, mr_romd_mode m, mr_dirty_log_mask m).

Definition same_region (h h' : regions) (m m' : MemoryRegion) : Prop :=
  mr_enabled m = mr_enabled m' /\
  (mr_enabled m = true ->
     looks m = looks m' /\ visible_subs h m = visible_subs h' m' /\
     forall x, x ∈ visible_subs h m -> maddr h x = maddr h' x).

Definition same_tree (h h' : regions) : Prop :=
  forall p, match h !! p, h' !! p with
    | Some m, Some m' => same_region h h' m m'
    | None, None => True
    | _, _ => False
    end.

Lemma same_tree_visible h h' p : same_tree h h' -> visible h p = visible h' p.
Proof.
  intros Hs. specialize (Hs p). unfold visible. destruct (h !! p), (h' !! p); try done. apply Hs.
Qed.

Lemma resolve_invisible h fuel p base ro a : visible h p = false -> resolve h fuel p base ro a = None.
Proof.
  intros Hv. destruct fuel as [|fuel]; [done |]. unfold visible in Hv. cbn.
  destruct (h !! p) as [m |]; [| done]. cbn. by rewrite Hv.
Qed.

Lemma first_hit_visible h fuel base ro a l :
  foldr (λ sub r, orelse (resolve h fuel sub base ro a) r) None l =
  foldr (λ sub r, orelse (resolve h fuel sub base ro a) r) None (filter (λ x, visible h x = true) l).
Proof.
  induction l as [|x l IH]; [done |]. rewrite filter_cons. cbn [foldr]. rewrite IH.
  destruct (decide (visible h x = true)) as [Hv | Hv]; [done |].
  apply not_true_is_false in Hv. by rewrite (resolve_invisible h fuel x) by done.
Qed.

Lemma resolve_same h h' fuel : forall p base base' ro a,
  same_tree h h' -> base + maddr h p = base' + maddr h' p ->
  resolve h fuel p base ro a = resolve h' fuel p base' ro a.
Proof.
  induction fuel as [|fuel IH]; intros p base base' ro a Hs Hb; [done |]. cbn [resolve].
  pose proof (Hs p) as Hp. unfold maddr in Hb. destruct (h !! p) as [m |], (h' !! p) as [m' |]; try done.
  cbn [mbind option_bind]. destruct Hp as [He Hp]. rewrite Hb, <- He.
  destruct (mr_enabled m); [| done]. destruct (Hp eq_refl) as (Hl & Hsub & Haddr).
  unfold looks in Hl. injection Hl as Hsz Hal Hao Ht Hr Hro Hd. cbn [negb orb]. rewrite <- Hsz, <- Hr.
  set (inside := _ && _). destruct inside; cbn [negb]; [| done]. rewrite <- Hal.
  destruct (mr_alias m) as [al |].
  - pose proof (Hs al) as Hsal. destruct (h !! al) as [am |] eqn:Ham, (h' !! al) as [am' |] eqn:Ham'; try done.
    cbn [mbind option_bind]. rewrite <- Hao. apply IH; [done |]. unfold maddr. rewrite Ham, Ham'. lia.
  - rewrite Ht, Hd, Hro. f_equal.
    rewrite (first_hit_visible h), (first_hit_visible h').
    change (filter (λ x, visible h x = true) (mr_subregions m)) with (visible_subs h m).
    change (filter (λ x, visible h' x = true) (mr_subregions m')) with (visible_subs h' m'). rewrite <- Hsub.
    revert Haddr. clear Hsub. generalize (visible_subs h m). intros l.
    induction l as [|x l IHl]; intros Haddr; [done |]. cbn [foldr].
    rewrite IHl by (intros y Hy; apply Haddr; by right).
    rewrite (IH x _ (base' + mr_addr m')); [done | done |].
    f_equal. apply Haddr. by left.
Qed.

(** ** Operations on the heap *)

Inductive mem_op : Type :=
  | MEnable (p : nat) (b : bool)
  | MReadonly (p : nat) (b : bool)
  | MRomd (p : nat) (b : bool)
  | MLog (p : nat) (b : bool) (client : Z)
  | MAdd (mr : nat) (offset : Z) (sub : nat) (overlap : option Z)
  | MDel (mr sub : nat)
  | MAliasOffset (p : nat) (offset : Z)
  | MAddress (p : nat) (addr : Z).

Definition do_mem (o : mem_op) : MM unit :=
  match o with
  | MEnable p b => memory_region_set_enabled p b
  | MReadonly p b => memory_region_set_readonly p b
  | MRomd p b => memory_region_rom_device_set_romd p b
  | MLog p b c => memory_region_set_log p b c
  | MAdd mr off sub (Some prio) => memory_region_add_subregion_overlap mr off sub prio
  | MAdd mr off sub None => memory_region_add_subregion mr off sub
  | MDel mr sub => memory_region_del_subregion mr sub
  | MAliasOffset p off => memory_region_set_alias_offset p off
  | MAddress p a => memory_region_set_address p a
  end.

(** A subregion with its new place. *)
Definition placed (mr : nat) (off : Z) (overlap : option Z) (m : MemoryRegion) : MemoryRegion :=
  m <| mr_may_overlap := match overlap with Some _ => true | None => false end |>
    <| mr_priority := default 0 overlap |>
    <| mr_container := Some mr |> <| mr_addr := off |>.

Definition log_mask (old : Z) (log : bool) (client : Z) : Z :=
  u8 (Z.ldiff old (u8 (1 << client)) .| (b2z log * u8 (1 << client))).

(** [sub] becomes a subregion of [mr], with the contents [sm]. *)
Definition link_step (h : regions) (mr sub : nat) (sm : MemoryRegion) : option (regions * bool) :=
  let h1 := <[sub := sm]> h in
  m ← h1 !! mr;
  l ← insert_subregion h1 (mr_priority sm) sub (mr_subregions m);
  Some (<[mr := m <| mr_subregions := l |>]> h1, mr_enabled m && mr_enabled sm).

(** [sub] is taken out of [mr]. *)
Definition unlink_step (h : regions) (mr sub : nat) : option (regions * bool) :=
  sm ← h !! sub;
  if decide (mr_container sm = Some mr) then
    let h1 := <[sub := sm <| mr_container := None |>]> h in
    m ← h1 !! mr;
    Some (<[mr := m <| mr_subregions := filter (λ x, x ≠ sub) (mr_subregions m) |>]> h1, mr_enabled m && mr_enabled sm)
  else None.

(** The heap after an operation ([None]: it stops the emulator), and whether
    the topology has to be recomputed. *)
Definition mem_step (h : regions) (o : mem_op) : option (regions * bool) :=
  match o with
  | MEnable p b => m ← h !! p; Some (<[p := m <| mr_enabled := b |>]> h, negb (eqb b (mr_enabled m)))
  | MReadonly p b =>
      m ← h !! p;
      Some (<[p := m <| mr_readonly := b |>]> h, mr_enabled m && negb (eqb (mr_readonly m) b))
  | MRomd p b =>
      m ← h !! p;
      Some (<[p := m <| mr_romd_mode := b |>]> h, mr_enabled m && negb (eqb (mr_romd_mode m) b))
  | MLog p b c =>
      m ← h !! p;
      Some (<[p := m <| mr_dirty_log_mask := log_mask (mr_dirty_log_mask m) b c |>]> h, mr_enabled m)
  | MAdd mr off sub overlap =>
      sm ← h !! sub;
      match mr_container sm with Some _ => None | None => link_step h mr sub (placed mr off overlap sm) end
  | MDel mr sub => unlink_step h mr sub
  | MAliasOffset p off =>
      m ← h !! p;
      match mr_alias m with
      | Some _ => Some (<[p := m <| mr_alias_offset := off |>]> h, mr_enabled m && negb (off =? mr_alias_offset m))
      | None => None
      end
  | MAddress p a =>
      m ← h !! p;
      if a =? mr_addr m then Some (h, false)
      else
        c ← mr_container m;
        if decide (c = p) then None
        else
          '(h1, b1) ← unlink_step h c p;
          '(h2, b2) ← link_step h1 c p (m <| mr_addr := a |>);
          Some (h2, b1 || b2)
  end.

(** A region is a subregion of its container only. *)
Definition heap_wf (h : regions) : Prop :=
  forall p m x, h !! p = Some m -> x ∈ mr_subregions m ->
    exists mx, h !! x = Some mx /\ mr_container mx = Some p.

Lemma insert_subregion_elem h prio sub l l' x :
  insert_subregion h prio sub l = Some l' -> x ∈ l' <-> x = sub \/ x ∈ l.
Proof.
  revert l'. induction l as [|y l IH]; intros l'; cbn; [intros [= <-]; set_solver |].
  destruct (h !! y) as [m |]; [| done]. cbn. destruct (_ >=? _); [intros [= <-]; set_solver |].
  destruct (insert_subregion h prio sub l) as [l2 |]; [| done]. cbn. intros [= <-].
  specialize (IH l2 eq_refl). set_solver.
Qed.

Lemma insert_subregion_filter h prio sub l l' (P : nat → bool) :
  insert_subregion h prio sub l = Some l' -> P sub = false ->
  filter (λ x, P x = true) l' = filter (λ x, P x = true) l.
Proof.
  intros Hi HP. revert l' Hi. induction l as [|y l IH]; intros l'; cbn.
  { intros [= <-]. by rewrite filter_cons_False by congruence. }
  destruct (h !! y) as [m |]; [| done]. cbn. destruct (_ >=? _).
  { intros [= <-]. by rewrite filter_cons_False by congruence. }
  destruct (insert_subregion h prio sub l) as [l2 |]; [| done]. cbn. intros [= <-].
  rewrite !filter_cons. by rewrite (IH l2 eq_refl).
Qed.

#[export] Instance same_tree_refl : Reflexive same_tree.
Proof. intros h p. by destruct (h !! p). Qed.

#[export] Instance same_tree_trans : Transitive same_tree.
Proof.
  intros h1 h2 h3 H12 H23 p. specialize (H12 p). specialize (H23 p).
  destruct (h1 !! p) as [m1 |], (h2 !! p) as [m2 |], (h3 !! p) as [m3 |]; try done.
  destruct H12 as [He12 H12], H23 as [He23 H23]. split; [congruence |]. intros Hen.
  destruct (H12 Hen) as (Hl12 & Hs12 & Ha12). destruct H23 as (Hl23 & Hs23 & Ha23); [congruence |].
  split; [congruence |]. split; [congruence |]. intros x Hx. rewrite Ha12 by done. apply Ha23. by rewrite <- Hs12.
Qed.

Lemma visible_insert h p m m' x :
  h !! p = Some m -> mr_enabled m' = mr_enabled m -> visible (<[p := m']> h) x = visible h x.
Proof.
  intros Hp He. unfold visible. destruct (decide (x = p)) as [-> |].
  - by rewrite lookup_insert_eq, Hp.
  - by rewrite lookup_insert_ne.
Qed.

Lemma visible_subs_insert h p m m' r :
  h !! p = Some m -> mr_enabled m' = mr_enabled m -> visible_subs (<[p := m']> h) r = visible_subs h r.
Proof.
  intros Hp He. unfold visible_subs. apply filter_ext_in. intros x _. by eapply visible_insert.
Qed.

(** A region gets other contents; [P] says where its address is looked at. *)
Lemma same_tree_insert h p m m' :
  h !! p = Some m -> mr_enabled m' = mr_enabled m ->
  (mr_addr m' = mr_addr m \/ forall q mq, h !! q = Some mq -> p ∉ mr_subregions mq) ->
  (mr_enabled m = true -> looks m = looks m' /\ visible_subs h m = visible_subs h m') ->
  same_tree h (<[p := m']> h).
Proof.
  intros Hp He Ha Hl.
  assert (Haddr : forall q mq x, h !! q = Some mq -> x ∈ visible_subs h mq -> maddr h x = maddr (<[p := m']> h) x).
  { intros q mq x Hq Hx. unfold maddr. destruct (decide (x = p)) as [-> |]; [| by rewrite lookup_insert_ne].
    rewrite lookup_insert_eq, Hp. destruct Ha as [Ha | Ha]; [done |]. exfalso. apply (Ha q mq Hq).
    by apply list_elem_of_filter in Hx as [_ ?]. }
  intros q. destruct (decide (q = p)) as [-> |].
  - rewrite Hp, lookup_insert_eq. split; [done |]. intros Hen. destruct (Hl Hen) as [Hl1 Hl2].
    split; [done |]. rewrite (visible_subs_insert _ _ m) by done. split; [done |]. intros x Hx. by apply (Haddr p m).
  - rewrite lookup_insert_ne by done. destruct (h !! q) as [mq |] eqn:Hq; [| done]. split; [done |]. intros _.
    split; [done |]. rewrite (visible_subs_insert _ _ m) by done. split; [done |]. intros x Hx. by apply (Haddr q mq).
Qed.

Lemma unlink_invisible h mr sub h' : unlink_step h mr sub = Some (h', false) -> same_tree h h'.
Proof.
  unfold unlink_step. intros Hstep. destruct (h !! sub) as [sm |] eqn:Hsub; [| done]. cbn in Hstep. case_decide as Hct; [| done].
  set (h1 := <[sub := sm <| mr_container := None |>]> h) in *.
  destruct (h1 !! mr) as [m |] eqn:Hmr; [| done]. cbn in Hstep. injection Hstep as <- Hb.
  assert (H1 : same_tree h h1) by (eapply same_tree_insert; [done | done | by left | done]).
  etrans; [exact H1 |]. eapply same_tree_insert; [done | done | by left |].
  intros He. split; [done |]. unfold visible_subs. cbn. rewrite He in Hb. cbn in Hb.
  induction (mr_subregions m) as [|x l IH]; [done |]. rewrite !(filter_cons _ x).
  destruct (decide (x ≠ sub)) as [Hx | Hx].
  + rewrite filter_cons. by destruct (decide (visible h1 x = true)); rewrite IH.
  + assert (x = sub) as -> by (destruct (decide (x = sub)); tauto).
    rewrite <- IH. rewrite decide_False; [done |]. unfold visible, h1. rewrite lookup_insert_eq. cbn. congruence.
Qed.

Lemma link_invisible h mr sub sm sm' h' :
  heap_wf h -> h !! sub = Some sm -> mr_container sm = None -> looks sm' = looks sm -> mr_enabled sm' = mr_enabled sm -> mr_subregions sm' = mr_subregions sm ->
  link_step h mr sub sm' = Some (h', false) -> same_tree h h'.
Proof.
  intros Hwf Hsub Hct Hlk Hen Hss. unfold link_step. set (h1 := <[sub := sm']> h). intros Hstep.
  destruct (h1 !! mr) as [m |] eqn:Hmr; [| done]. cbn in Hstep.
  destruct (insert_subregion h1 (mr_priority sm') sub (mr_subregions m)) as [l |] eqn:Hl; [| done].
  cbn in Hstep. injection Hstep as <- Hb.
  assert (H1 : same_tree h h1).
  { eapply same_tree_insert; [done | done | right |]; [| unfold visible_subs; by rewrite Hlk, Hss]. intros q mq Hq Hin.
    destruct (Hwf q mq sub Hq Hin) as (mx & Hmx & Hc). congruence. }
  etrans; [exact H1 |]. eapply same_tree_insert; [done | done | by left |].
  intros He. split; [done |]. unfold visible_subs. symmetry. cbn.
  eapply insert_subregion_filter; [exact Hl |]. unfold visible, h1. rewrite lookup_insert_eq. cbn.
  by rewrite He in Hb.
Qed.

(** What taking out leaves. *)
Lemma unlink_sub h mr sub h1 b m : unlink_step h mr sub = Some (h1, b) -> h !! sub = Some m -> mr <> sub ->
  h1 !! sub = Some (m <| mr_container := None |>) /\ mr_container m = Some mr.
Proof.
  unfold unlink_step. intros Hstep Hm Hne. rewrite Hm in Hstep. cbn in Hstep. case_decide as Hc; [| done].
  destruct (<[sub := m <| mr_container := None |>]> h !! mr) as [cm |]; [| done]. cbn in Hstep. injection Hstep as <- <-.
  rewrite lookup_insert_ne, lookup_insert_eq by done. done.
Qed.

(** ** Running the operations *)

Definition recompute (b : bool) : MM unit :=
  s ← get;
  when b (emit ListenBegin ;; for_each (address_spaces s) address_space_update_topology ;; emit ListenCommit) ;;
  memory_region_clear_pending.

Lemma get_mr_ok s p m : mrs s !! p = Some m -> get_mr p s = Done m s [].
Proof. intros Hp. unfold get_mr. by rewrite bind_get, Hp. Qed.

Lemma upd_mr_ok s p m f : mrs s !! p = Some m -> upd_mr p f s = Done () (s <| mrs := <[p := f m]> (mrs s) |>) [].
Proof. intros Hp. unfold upd_mr. by erewrite bind_Done by by apply get_mr_ok. Qed.

Lemma commit_run h l sp b : memory_region_transaction_commit (mkMstate h l sp 1 b) = recompute b (mkMstate h l sp 0 b).
Proof.
  unfold memory_region_transaction_commit. rewrite bind_get.
  rewrite (bind_Done _ _ _ () (mkMstate h l sp 1 b) eq_refl), bind_modify, bind_get.
  unfold recompute. rewrite bind_get. done.
Qed.

(** Marking an update as pending and committing the outermost transaction. *)
Lemma pending_commit h l sp b :
  (set_pending b ;; memory_region_transaction_commit) (mkMstate h l sp 1 false) = recompute b (mkMstate h l sp 0 b).
Proof. unfold set_pending. rewrite bind_modify. apply commit_run. Qed.

Lemma recompute_nothing h l sp : recompute false (mkMstate h l sp 0 false) = Done () (mkMstate h l sp 0 false) [].
Proof. done. Qed.

(** A transaction that changes one region. *)
Lemma change_run (h : regions) l sp p m f b :
  h !! p = Some m ->
  (memory_region_transaction_begin ;; upd_mr p f ;; set_pending b ;; memory_region_transaction_commit)
    (mkMstate h l sp 0 false) = recompute b (mkMstate (<[p := f m]> h) l sp 0 b).
Proof.
  intros Hp. unfold memory_region_transaction_begin. rewrite bind_modify.
  erewrite bind_Done by by apply upd_mr_ok. apply pending_commit.
Qed.

Lemma insert_same_region (h : regions) p (m m' : MemoryRegion) : h !! p = Some m -> m' = m -> <[p := m']> h = h.
Proof. intros Hp ->. by apply insert_id. Qed.

Lemma container_run (h : regions) l sp sub sm mr m ls :
  h !! sub = Some sm -> mr_container sm = Some mr -> h !! mr = Some m ->
  insert_subregion h (mr_priority sm) sub (mr_subregions m) = Some ls ->
  memory_region_update_container_subregions sub (mkMstate h l sp 0 false) =
  recompute (mr_enabled m && mr_enabled sm)
    (mkMstate (<[mr := m <| mr_subregions := ls |>]> h) l sp 0 (mr_enabled m && mr_enabled sm)).
Proof.
  intros Hsub Hc Hmr Hls. unfold memory_region_update_container_subregions, memory_region_transaction_begin.
  erewrite bind_Done by by apply get_mr_ok. rewrite Hc, bind_modify.
  erewrite bind_Done by by apply get_mr_ok. rewrite bind_get.
  match goal with |- context [insert_subregion (mrs ?x) _ _ _] => change (mrs x) with h end. rewrite Hls.
  erewrite bind_Done by by apply upd_mr_ok. apply pending_commit.
Qed.

Lemma add_common_run (h : regions) l sp sub sm mr off m ls :
  h !! sub = Some sm -> mr_container sm = None ->
  let sm' := sm <| mr_container := Some mr |> <| mr_addr := off |> in
  let h1 := <[sub := sm']> h in
  h1 !! mr = Some m -> insert_subregion h1 (mr_priority sm) sub (mr_subregions m) = Some ls ->
  memory_region_add_subregion_common mr off sub (mkMstate h l sp 0 false) =
  recompute (mr_enabled m && mr_enabled sm)
    (mkMstate (<[mr := m <| mr_subregions := ls |>]> h1) l sp 0 (mr_enabled m && mr_enabled sm)).
Proof.
  intros Hsub Hc sm' h1 Hmr Hls. unfold memory_region_add_subregion_common.
  erewrite bind_Done by by apply get_mr_ok. rewrite Hc. erewrite bind_Done by done.
  erewrite bind_Done by by apply upd_mr_ok.
  apply (container_run h1 l sp sub sm' mr m ls); [apply lookup_insert_eq | done | done | done].
Qed.

(** Adding a region whose priority is set already, in terms of [placed]. *)
Lemma place_run h l sp sub sm mr off ov m ls sm1 :
  let h1 := <[sub := placed mr off ov sm]> h in
  h1 !! mr = Some m -> insert_subregion h1 (default 0 ov) sub (mr_subregions m) = Some ls ->
  mr_container sm1 = None -> mr_enabled sm1 = mr_enabled sm -> mr_priority sm1 = default 0 ov ->
  sm1 <| mr_container := Some mr |> <| mr_addr := off |> = placed mr off ov sm ->
  memory_region_add_subregion_common mr off sub (mkMstate (<[sub := sm1]> h) l sp 0 false) =
  recompute (mr_enabled m && mr_enabled sm)
    (mkMstate (<[mr := m <| mr_subregions := ls |>]> h1) l sp 0 (mr_enabled m && mr_enabled sm)).
Proof.
  intros h1 Hmr Hls Hc1 He1 Hp1 Hpl. pose proof (add_common_run (<[sub := sm1]> h) l sp sub sm1 mr off m ls) as Hrun.
  cbv zeta in Hrun. rewrite insert_insert_eq, Hpl, He1, Hp1 in Hrun.
  apply Hrun; [apply lookup_insert_eq | done | done | done].
Qed.

(** The two halves of a change of address. *)
Lemma address_step h p a h' b m : mem_step h (MAddress p a) = Some (h', b) -> h !! p = Some m ->
  (a = mr_addr m /\ h' = h /\ b = false) \/
  exists c h1 b1 b2, mr_container m = Some c /\ c <> p /\ a <> mr_addr m /\ unlink_step h c p = Some (h1, b1) /\
    h1 !! p = Some (m <| mr_container := None |>) /\ link_step h1 c p (m <| mr_addr := a |>) = Some (h', b2) /\ b = b1 || b2.
Proof.
  cbn. intros Hstep Hm. rewrite Hm in Hstep. cbn in Hstep. destruct (Z.eqb_spec a (mr_addr m)) as [-> | Hne]; [left; by injection Hstep as <- <- |].
  right. destruct (mr_container m) as [c |] eqn:Hc; [| done]. cbn in Hstep. case_decide as Hcp; [done |].
  destruct (unlink_step h c p) as [[h1 b1] |] eqn:Hun; [| done]. cbn in Hstep. destruct (link_step h1 c p _) as [[h2 b2] |] eqn:Hl; [| done].
  cbn in Hstep. injection Hstep as <- <-. destruct (unlink_sub _ _ _ _ _ _ Hun Hm Hcp) as [H1 _]. by exists c, h1, b1, b2.
Qed.

(** An inner transaction leaves the topology to the outer one. *)
Lemma inner_commit h l sp b b' :
  (set_pending b ;; memory_region_transaction_commit) (mkMstate h l sp 2 b') = Done () (mkMstate h l sp 1 (b' || b)) [].
Proof. unfold set_pending. rewrite bind_modify. done. Qed.

Lemma del_inner h l sp mr sub sm m b :
  h !! sub = Some sm -> mr_container sm = Some mr -> <[sub := sm <| mr_container := None |>]> h !! mr = Some m ->
  memory_region_del_subregion mr sub (mkMstate h l sp 1 b) =
  Done () (mkMstate (<[mr := m <| mr_subregions := filter (λ x, x ≠ sub) (mr_subregions m) |>]> (<[sub := sm <| mr_container := None |>]> h)) l sp 1
    (b || (mr_enabled m && mr_enabled sm))) [].
Proof.
  intros Hsub Hc Hm. unfold memory_region_del_subregion, memory_region_transaction_begin. rewrite bind_modify.
  erewrite bind_Done by by apply get_mr_ok. rewrite bool_decide_true by done. erewrite bind_Done by done.
  erewrite bind_Done by by apply upd_mr_ok. erewrite bind_Done by (apply upd_mr_ok; exact Hm).
  erewrite bind_Done by (apply get_mr_ok; apply lookup_insert_eq). apply inner_commit.
Qed.

Lemma container_inner h l sp mr sub sm m ls b :
  h !! sub = Some sm -> mr_container sm = Some mr -> h !! mr = Some m -> insert_subregion h (mr_priority sm) sub (mr_subregions m) = Some ls ->
  memory_region_update_container_subregions sub (mkMstate h l sp 1 b) =
  Done () (mkMstate (<[mr := m <| mr_subregions := ls |>]> h) l sp 1 (b || (mr_enabled m && mr_enabled sm))) [].
Proof.
  intros Hsub Hc Hmr Hls. unfold memory_region_update_container_subregions, memory_region_transaction_begin.
  erewrite bind_Done by by apply get_mr_ok. rewrite Hc, bind_modify. erewrite bind_Done by by apply get_mr_ok. rewrite bind_get.
  match goal with |- context [insert_subregion (mrs ?x) _ _ _] => change (mrs x) with h end. rewrite Hls.
  erewrite bind_Done by by apply upd_mr_ok. apply inner_commit.
Qed.

Lemma address_run h l sp p a h' b :
  mem_step h (MAddress p a) = Some (h', b) ->
  memory_region_set_address p a (mkMstate h l sp 0 false) = recompute b (mkMstate h' l sp 0 b).
Proof.
  intros Hstep. destruct (h !! p) as [m |] eqn:Hp; [| cbn in Hstep; by rewrite Hp in Hstep].
  unfold memory_region_set_address. erewrite bind_Done by by apply get_mr_ok.
  destruct (address_step _ _ _ _ _ _ Hstep Hp) as [(-> & -> & ->) | (c & h1 & b1 & b2 & Hc & Hcp & Hne & Hun & H1 & Hl & ->)].
  { by rewrite Z.eqb_refl. }
  rewrite (proj2 (Z.eqb_neq a (mr_addr m)) Hne). cbn [negb when]. clear Hstep. set (m1 := m <| mr_addr := a |>).
  unfold unlink_step in Hun. rewrite Hp in Hun. cbn in Hun. rewrite decide_True in Hun by done. rewrite lookup_insert_ne in Hun by done.
  destruct (h !! c) as [cm |] eqn:Hcm; [| done]. cbn in Hun. injection Hun as <- <-. set (cm1 := cm <| mr_subregions := filter (λ x, x ≠ p) (mr_subregions cm) |>) in *.
  unfold link_step in Hl. cbv zeta in Hl. fold m1 in Hl. rewrite lookup_insert_ne, lookup_insert_eq in Hl by done. cbn [mbind option_bind] in Hl.
  set (h3 := <[p := m1]> (<[c := cm1]> (<[p := m <| mr_container := None |>]> h))) in *.
  destruct (insert_subregion h3 (mr_priority m1) p (mr_subregions cm1)) as [ls |] eqn:Hls; [| done]. injection Hl as <- <-.
  erewrite bind_Done by by apply upd_mr_ok. unfold memory_region_readd_subregion. erewrite bind_Done by (apply get_mr_ok; apply lookup_insert_eq).
  change (mr_container (m <| mr_addr := a |>)) with (mr_container m). rewrite Hc. unfold memory_region_transaction_begin at 1. rewrite bind_modify. fold m1.
  set (g1 := <[p := m1 <| mr_container := None |>]> (<[p := m1]> h)). set (g2 := <[c := cm1]> g1).
  assert (Hg1 : g1 !! c = Some cm) by (unfold g1; by rewrite !lookup_insert_ne by done).
  rewrite (bind_Done _ _ _ _ _ (del_inner (<[p := m1]> h) l sp c p m1 cm false (lookup_insert_eq _ _ _) Hc Hg1)). fold g1 cm1 g2.
  assert (Hg2 : g2 !! p = Some (m1 <| mr_container := None |>)) by (unfold g2, g1; by rewrite lookup_insert_ne, lookup_insert_eq by done).
  assert (Hm1 : m1 <| mr_container := None |> <| mr_container := Some c |> = m1) by (unfold m1; destruct m; cbn in Hc; by subst).
  assert (Hg3 : <[p := m1 <| mr_container := None |> <| mr_container := Some c |>]> g2 = h3).
  { rewrite Hm1. unfold h3, g2, g1. rewrite insert_insert_eq. apply map_eq. intros x.
    destruct (decide (x = p)) as [-> |]; [by rewrite !lookup_insert_eq |]. rewrite !(lookup_insert_ne _ p) by done.
    destruct (decide (x = c)) as [-> |]; [by rewrite !lookup_insert_eq | by rewrite !lookup_insert_ne by done]. }
  set (b1 := false || (mr_enabled cm && mr_enabled m1)).
  assert (Hupd : upd_mr p (λ m, m <| mr_container := Some c |>) (mkMstate g2 l sp 1 b1) = Done () (mkMstate h3 l sp 1 b1) []).
  { rewrite (upd_mr_ok (mkMstate g2 l sp 1 b1) p _ _ Hg2). by rewrite <- Hg3. }
  rewrite (bind_Done _ _ _ _ _ Hupd).
  assert (Hc3 : h3 !! c = Some cm1) by (unfold h3; by rewrite lookup_insert_ne, lookup_insert_eq by done).
  rewrite (bind_Done _ _ _ _ _ (container_inner h3 l sp c p m1 cm1 ls _ (lookup_insert_eq _ _ _) Hc Hc3 Hls)). apply commit_run.
Qed.

Lemma do_mem_run h l sp o h' b :
  mem_step h o = Some (h', b) ->
  do_mem o (mkMstate h l sp 0 false) = recompute b (mkMstate h' l sp 0 b).
Proof.
  intros Hstep. destruct o as [p v | p v | p v | p v c | mr off sub ov | mr sub | p off | p a]; cbn [do_mem].
  - cbn in Hstep. destruct (h !! p) as [m |] eqn:Hp; [| done]. cbn in Hstep. injection Hstep as <- <-.
    unfold memory_region_set_enabled. erewrite bind_Done by by apply get_mr_ok.
    destruct (eqb v (mr_enabled m)) eqn:He; cbn [negb].
    + apply eqb_prop in He. rewrite (insert_same_region _ _ m) by (done || by destruct m; subst v). done.
    + unfold memory_region_transaction_begin. rewrite bind_modify.
      erewrite bind_Done by by apply upd_mr_ok. rewrite bind_modify. apply commit_run.
  - cbn in Hstep. destruct (h !! p) as [m |] eqn:Hp; [| done]. cbn in Hstep. injection Hstep as <- <-.
    unfold memory_region_set_readonly. erewrite bind_Done by by apply get_mr_ok.
    destruct (eqb (mr_readonly m) v) eqn:He; cbn [negb when]; rewrite ?andb_false_r, ?andb_true_r.
    + apply eqb_prop in He. rewrite (insert_same_region _ _ m) by (done || by destruct m; subst v). done.
    + by apply (change_run h l sp p m (λ m, m <| mr_readonly := v |>) (mr_enabled m)).
  - cbn in Hstep. destruct (h !! p) as [m |] eqn:Hp; [| done]. cbn in Hstep. injection Hstep as <- <-.
    unfold memory_region_rom_device_set_romd. erewrite bind_Done by by apply get_mr_ok.
    destruct (eqb (mr_romd_mode m) v) eqn:He; cbn [negb when]; rewrite ?andb_false_r, ?andb_true_r.
    + apply eqb_prop in He. rewrite (insert_same_region _ _ m) by (done || by destruct m; subst v). done.
    + by apply (change_run h l sp p m (λ m, m <| mr_romd_mode := v |>) (mr_enabled m)).
  - cbn in Hstep. destruct (h !! p) as [m |] eqn:Hp; [| done]. cbn in Hstep. injection Hstep as <- <-.
    unfold memory_region_set_log, memory_region_transaction_begin. rewrite bind_modify.
    erewrite bind_Done by by apply get_mr_ok. erewrite bind_Done by by apply upd_mr_ok. apply pending_commit.
  - cbn in Hstep. destruct (h !! sub) as [sm |] eqn:Hsub; [| done]. cbn in Hstep.
    destruct (mr_container sm) eqn:Hct; [done |]. unfold link_step in Hstep. cbv zeta in Hstep. set (h1 := <[sub := placed mr off ov sm]> h) in *.
    destruct (h1 !! mr) as [m |] eqn:Hmr; [| done]. cbn in Hstep.
    change (mr_priority (placed mr off ov sm)) with (default 0 ov) in Hstep.
    destruct (insert_subregion h1 (default 0 ov) sub (mr_subregions m)) as [ls |] eqn:Hls; [| done].
    cbn in Hstep. injection Hstep as <- <-.
    destruct ov as [prio |]; [unfold memory_region_add_subregion_overlap | unfold memory_region_add_subregion];
      (erewrite bind_Done by by apply upd_mr_ok); by apply (place_run h l sp sub sm).
  - cbn in Hstep. unfold unlink_step in Hstep. destruct (h !! sub) as [sm |] eqn:Hsub; [| done]. cbn in Hstep. case_decide as Hct; [| done].
    set (h1 := <[sub := sm <| mr_container := None |>]> h) in *.
    destruct (h1 !! mr) as [m |] eqn:Hmr; [| done]. cbn in Hstep. injection Hstep as <- <-.
    unfold memory_region_del_subregion, memory_region_transaction_begin. rewrite bind_modify.
    erewrite bind_Done by by apply get_mr_ok. rewrite bool_decide_true by done. erewrite bind_Done by done.
    erewrite bind_Done by by apply upd_mr_ok.
    erewrite bind_Done by (apply upd_mr_ok; exact Hmr).
    erewrite bind_Done by (apply get_mr_ok; apply lookup_insert_eq).
    apply pending_commit.
  - cbn in Hstep. destruct (h !! p) as [m |] eqn:Hp; [| done]. cbn in Hstep. destruct (mr_alias m) eqn:Hal; [| done]. injection Hstep as <- <-.
    unfold memory_region_set_alias_offset. erewrite bind_Done by by apply get_mr_ok. rewrite Hal. erewrite bind_Done by done.
    destruct (Z.eqb_spec off (mr_alias_offset m)) as [He |]; cbn [negb]; rewrite ?andb_false_r, ?andb_true_r.
    + rewrite (insert_same_region _ _ m) by (done || by destruct m; subst off). done.
    + by apply (change_run h l sp p m (λ m, m <| mr_alias_offset := off |>) (mr_enabled m)).
  - by apply address_run.
Qed.

(** ** The flat views stay current *)

(** What the tree of an address space says about an address. *)
Definition root_at (h : regions) (root : option nat) (x : Z) : option hit :=
  match root with Some r => resolve h (S (size h)) r 0 false x | None => None end.

Definition shows (h : regions) (root : option nat) (view : FlatView) : Prop :=
  view_ok 0 view /\ forall x, 0 <= x < 2 ^ 64 -> view_at view x = root_at h root x.

Definition current_at (s : mstate) (k : nat) : Prop :=
  forall a, spaces s !! k = Some a -> shows (mrs s) (as_root a) (current_map a).

(** Between transactions: nothing pending, every address space exists, has its
    root among [roots] and a well-formed view. *)
Record settled (roots : list nat) (s : mstate) : Prop := {
  se_depth : memory_region_transaction_depth s = 0;
  se_pending : memory_region_update_pending s = false;
  se_heap : heap_wf (mrs s);
  se_spaces : forall k, k ∈ address_spaces s -> is_Some (spaces s !! k);
  se_roots : forall k a r, spaces s !! k = Some a -> as_root a = Some r -> r ∈ roots;
  se_current : forall k, current_at s k;
  se_known : forall k a, spaces s !! k = Some a -> k ∈ address_spaces s
}.

Definition roots_ok (roots : list nat) (h : regions) : bool := forallb (λ r, tree_ok h (S (size h)) r 0 all_addresses) roots.

Lemma topology_shows s root :
  (forall r, root = Some r -> tree_ok (mrs s) (S (size (mrs s))) r 0 all_addresses = true) ->
  exists view, topology s root = Done () view [] /\ shows (mrs s) root view.
Proof.
  intros Hr. unfold topology. destruct root as [r |].
  - destruct (topology_ok (mrs s) (S (size (mrs s))) r [] (Hr r eq_refl)) as (view & Hv & Hok & Hat).
    by exists view.
  - exists []. by split.
Qed.

Lemma update_topology_run k s a :
  spaces s !! k = Some a -> view_ok 0 (current_map a) ->
  (forall r, as_root a = Some r -> tree_ok (mrs s) (S (size (mrs s))) r 0 all_addresses = true) ->
  exists view t, address_space_update_topology k s =
      Done () (s <| spaces := <[k := mkSpace (as_root a) view]> (spaces s) |>) t /\
    shows (mrs s) (as_root a) view.
Proof.
  intros Hk Hok Hr. unfold address_space_update_topology.
  assert (Hget : get_space k s = Done a s []) by (unfold get_space; by rewrite bind_get, Hk).
  rewrite (bind_Done _ _ _ _ _ Hget), bind_get.
  destruct (topology_shows s (as_root a) Hr) as (view & Ht & Hv). rewrite Ht.
  unfold address_space_update_topology_pass.
  destruct (update_pass_ok k false (S (length (current_map a) + length view)) (current_map a) view 0 0 s Hok
    (proj1 Hv) ltac:(lia)) as (t1 & Ht1 & _).
  destruct (update_pass_ok k true (S (length (current_map a) + length view)) (current_map a) view 0 0 s Hok
    (proj1 Hv) ltac:(lia)) as (t2 & Ht2 & _).
  exists view, (t1 ++ t2 ++ []). split; [| done].
  eapply bind_Done_trace; [exact Ht1 |]. eapply bind_Done_trace; [exact Ht2 | done].
Qed.

Lemma update_all_run roots ks : forall s,
  (forall k, k ∈ ks -> is_Some (spaces s !! k)) ->
  (forall k a, spaces s !! k = Some a -> view_ok 0 (current_map a)) ->
  (forall k a r, spaces s !! k = Some a -> as_root a = Some r -> r ∈ roots) ->
  roots_ok roots (mrs s) = true ->
  exists sp t, for_each ks address_space_update_topology s = Done () (s <| spaces := sp |>) t /\
    as_root <$> sp = as_root <$> spaces s /\
    forall k, (k ∈ ks \/ current_at s k) -> current_at (s <| spaces := sp |>) k.
Proof.
  induction ks as [|k ks IH]; intros s Hex Hok Hroots Hall.
  { exists (spaces s), []. split; [by destruct s |]. split; [done |]. intros k [Hk | Hk]; [set_solver |]. by destruct s. }
  destruct (Hex k) as [a Ha]; [by left |].
  destruct (update_topology_run k s a Ha (Hok k a Ha)) as (view & t1 & Ht1 & Hv).
  { intros r Hr. unfold roots_ok in Hall. rewrite forallb_forall in Hall. apply (Hall r), list_elem_of_In.
    by apply (Hroots k a). }
  set (s1 := s <| spaces := <[k := mkSpace (as_root a) view]> (spaces s) |>) in *.
  assert (Hroot1 : as_root <$> spaces s1 = as_root <$> spaces s).
  { cbn. apply map_eq. intros j. rewrite !lookup_fmap. destruct (decide (j = k)) as [-> |].
    - by rewrite lookup_insert_eq, Ha.
    - by rewrite lookup_insert_ne. }
  assert (Hsp1 : forall j b, spaces s1 !! j = Some b ->
    (j = k /\ b = mkSpace (as_root a) view) \/ (j <> k /\ spaces s !! j = Some b)).
  { intros j b. cbn. rewrite lookup_insert_Some. intuition congruence. }
  destruct (IH s1) as (sp & t2 & Ht2 & Hr2 & Hc2).
  - intros j Hj. cbn. destruct (decide (j = k)) as [-> |]; [rewrite lookup_insert_eq; by eexists |].
    rewrite lookup_insert_ne by done. apply Hex. by right.
  - intros j b [[-> ->] | [_ Hb]]%Hsp1; [apply Hv | by apply (Hok j)].
  - intros j b r [[-> ->] | [_ Hb]]%Hsp1 Hr; [by apply (Hroots k a) | by apply (Hroots j b)].
  - done.
  - exists sp, (t1 ++ t2). split; [by eapply bind_Done_trace |]. split; [congruence |].
    intros j Hj. apply (Hc2 j). destruct (decide (j = k)) as [-> |].
    + right. intros b [[_ ->] | [? _]]%Hsp1; [exact Hv | done].
    + destruct Hj as [[? | ?]%elem_of_cons | Hj]; [done | by left |]. right.
      intros b [[? _] | [_ Hb]]%Hsp1; [done |]. by apply Hj.
Qed.

Lemma size_insert (h : regions) p m m' : h !! p = Some m -> size (<[p := m']> h) = size h.
Proof. intros Hp. rewrite map_size_insert_Some; [done |]. by eexists. Qed.

Lemma unlink_size h mr sub h' b : unlink_step h mr sub = Some (h', b) -> size h' = size h.
Proof.
  unfold unlink_step. intros Hstep. destruct (h !! sub) as [sm |] eqn:Hsub; [| done]. cbn in Hstep. case_decide; [| done].
  destruct (<[sub := sm <| mr_container := None |>]> h !! mr) as [m |] eqn:Hq; [| done]. cbn in Hstep.
  injection Hstep as <- <-. rewrite (size_insert _ _ _ _ Hq). by eapply size_insert.
Qed.

Lemma link_size h mr sub sm sm' h' b : h !! sub = Some sm -> link_step h mr sub sm' = Some (h', b) -> size h' = size h.
Proof.
  unfold link_step. intros Hsub Hstep. destruct (<[sub := sm']> h !! mr) as [m |] eqn:Hq; [| done]. cbn in Hstep.
  destruct (insert_subregion _ _ _ _); [| done]. cbn in Hstep. injection Hstep as <- <-. rewrite (size_insert _ _ _ _ Hq). by eapply size_insert.
Qed.

Lemma step_size h o h' b : mem_step h o = Some (h', b) -> size h' = size h.
Proof.
  intros Hstep. destruct o as [p v | p v | p v | p v c | mr off sub ov | mr sub | p off | p a]; try (cbn in Hstep;
    destruct (h !! p) as [m |] eqn:Hq; [| done]; cbn in Hstep; injection Hstep as <- <-; by eapply size_insert).
  - cbn in Hstep. destruct (h !! sub) as [sm |] eqn:Hsub; [| done]. cbn in Hstep. destruct (mr_container sm); [done |]. by eapply link_size.
  - by eapply unlink_size.
  - cbn in Hstep. destruct (h !! p) as [m |] eqn:Hq; [| done]. cbn in Hstep. destruct (mr_alias m); [| done]. injection Hstep as <- <-. by eapply size_insert.
  - destruct (h !! p) as [m |] eqn:Hp; [| cbn in Hstep; by rewrite Hp in Hstep].
    destruct (address_step _ _ _ _ _ _ Hstep Hp) as [(_ & -> & _) | (c & h1 & b1 & b2 & _ & _ & _ & Hun & H1 & Hl & _)]; [done |].
    rewrite (link_size _ _ _ _ _ _ _ H1 Hl). by eapply unlink_size.
Qed.

Lemma heap_wf_insert h p m m' :
  heap_wf h -> h !! p = Some m -> mr_subregions m' = mr_subregions m -> mr_container m' = mr_container m ->
  heap_wf (<[p := m']> h).
Proof.
  intros Hwf Hp Hs Hc q mq x Hq Hx.
  assert (Hold : exists mx, h !! x = Some mx /\ mr_container mx = Some q).
  { destruct (decide (q = p)) as [-> |].
    - rewrite lookup_insert_eq in Hq. injection Hq as <-. apply (Hwf p m); [done | congruence].
    - rewrite lookup_insert_ne in Hq by done. by apply (Hwf q mq). }
  destruct Hold as (mx & Hmx & Hcx). destruct (decide (x = p)) as [-> |].
  - exists m'. rewrite lookup_insert_eq. split; [done |]. congruence.
  - exists mx. by rewrite lookup_insert_ne.
Qed.

(** Two updates of a tree: the container of [sub] changes to [c], and the
    subregions of [mr] to [l]. *)
Lemma heap_wf_link h sub sm sm' mr m l :
  heap_wf h -> h !! sub = Some sm -> mr_subregions sm' = mr_subregions sm ->
  <[sub := sm']> h !! mr = Some m ->
  (forall q, mr_container sm = Some q -> q = mr) ->
  (forall x, x ∈ l -> (x = sub /\ mr_container sm' = Some mr) \/ (x <> sub /\ x ∈ mr_subregions m)) ->
  heap_wf (<[mr := m <| mr_subregions := l |>]> (<[sub := sm']> h)).
Proof.
  intros Hwf Hsub Hss Hmr Hc Hl q mq x Hq Hx. set (h1 := <[sub := sm']> h) in *.
  assert (Hsub1 : forall y my, h1 !! y = Some my -> exists my0, h !! y = Some my0 /\ mr_subregions my = mr_subregions my0).
  { intros y my. unfold h1. rewrite lookup_insert_Some. intros [[<- <-] | [_ Hy]]; eauto. }
  assert (Hlook : forall y my, h1 !! y = Some my ->
    exists my', <[mr := m <| mr_subregions := l |>]> h1 !! y = Some my' /\ mr_container my' = mr_container my).
  { intros y my Hy. destruct (decide (y = mr)) as [-> |].
    - rewrite lookup_insert_eq. eexists. split; [done |]. cbn. congruence.
    - rewrite lookup_insert_ne by done. by exists my. }
  assert (Hgoal : exists mx, h1 !! x = Some mx /\ mr_container mx = Some q).
  { destruct (decide (q = mr)) as [-> | Hqm].
    - rewrite lookup_insert_eq in Hq. injection Hq as <-. cbn in Hx.
      destruct (Hl x Hx) as [[-> Hcs] | [Hne Hin]].
      + exists sm'. unfold h1. by rewrite lookup_insert_eq.
      + destruct (Hsub1 mr m Hmr) as (m0 & Hm0 & Hms). rewrite Hms in Hin.
        destruct (Hwf mr m0 x Hm0 Hin) as (mx & Hmx & Hcx). exists mx. unfold h1. by rewrite lookup_insert_ne.
    - rewrite lookup_insert_ne in Hq by done. destruct (Hsub1 q mq Hq) as (m0 & Hm0 & Hms). rewrite Hms in Hx.
      destruct (Hwf q m0 x Hm0 Hx) as (mx & Hmx & Hcx). destruct (decide (x = sub)) as [-> |].
      + exfalso. apply Hqm, Hc. congruence.
      + exists mx. unfold h1. by rewrite lookup_insert_ne. }
  destruct Hgoal as (mx & Hmx & Hcx). destruct (Hlook x mx Hmx) as (mx' & Hmx' & Hcx'). exists mx'. split; [done |]. congruence.
Qed.

Lemma unlink_wf h mr sub h' b : heap_wf h -> unlink_step h mr sub = Some (h', b) -> heap_wf h'.
Proof.
  unfold unlink_step. intros Hwf Hstep. destruct (h !! sub) as [sm |] eqn:Hsub; [| done]. cbn in Hstep. case_decide as Hct; [| done].
  destruct (<[sub := sm <| mr_container := None |>]> h !! mr) as [m |] eqn:Hmr; [| done]. cbn in Hstep.
  injection Hstep as <- <-. eapply (heap_wf_link h sub sm); try done.
  - intros q Hq. congruence.
  - intros x [Hne Hx]%list_elem_of_filter. by right.
Qed.

Lemma link_wf h mr sub sm sm' h' b : heap_wf h -> h !! sub = Some sm -> mr_container sm = None -> mr_subregions sm' = mr_subregions sm ->
  mr_container sm' = Some mr -> link_step h mr sub sm' = Some (h', b) -> heap_wf h'.
Proof.
  unfold link_step. intros Hwf Hsub Hct Hss Hc' Hstep. destruct (<[sub := sm']> h !! mr) as [m |] eqn:Hmr; [| done]. cbn in Hstep.
  destruct (insert_subregion _ _ _ _) as [l |] eqn:Hl; [| done]. cbn in Hstep. injection Hstep as <- <-.
  eapply (heap_wf_link h sub sm); try done.
  - intros q Hq. congruence.
  - intros x Hx. apply (insert_subregion_elem _ _ _ _ _ x Hl) in Hx. destruct (decide (x = sub)) as [-> | Hne]; [by left |].
    right. split; [done |]. by destruct Hx.
Qed.

Lemma step_wf h o h' b : heap_wf h -> mem_step h o = Some (h', b) -> heap_wf h'.
Proof.
  intros Hwf Hstep. destruct o as [p v | p v | p v | p v c | mr off sub ov | mr sub | p off | p a];
    try (cbn in Hstep; destruct (h !! p) as [m |] eqn:Hp; [| done]; cbn in Hstep; injection Hstep as <- <-;
         by eapply heap_wf_insert).
  - cbn in Hstep. destruct (h !! sub) as [sm |] eqn:Hsub; [| done]. cbn in Hstep. destruct (mr_container sm) eqn:Hct; [done |].
    by apply (link_wf h mr sub sm (placed mr off ov sm) h' b).
  - by apply (unlink_wf h mr sub h' b).
  - cbn in Hstep. destruct (h !! p) as [m |] eqn:Hp; [| done]. cbn in Hstep. destruct (mr_alias m); [| done]. injection Hstep as <- <-. by eapply heap_wf_insert.
  - destruct (h !! p) as [m |] eqn:Hp; [| cbn in Hstep; by rewrite Hp in Hstep].
    destruct (address_step _ _ _ _ _ _ Hstep Hp) as [(_ & -> & _) | (c & h1 & b1 & b2 & Hc & _ & _ & Hun & H1 & Hl & _)]; [done |].
    apply (link_wf h1 c p (m <| mr_container := None |>) (m <| mr_addr := a |>) h' b2); [by apply (unlink_wf h c p h1 b1) | done | done | done | done | done].
Qed.

(** A step that does not ask for a new topology does not change what the tree
    means. *)
Lemma invisible_step h o h' :
  heap_wf h -> mem_step h o = Some (h', false) -> same_tree h h'.
Proof.
  intros Hwf Hstep. destruct o as [p b | p b | p b | p b c | mr off sub ov | mr sub | p off | p a].
  - cbn in Hstep. destruct (h !! p) as [m |] eqn:Hp; [| done]. cbn in Hstep. injection Hstep as <- Hb.
    apply negb_false_iff, eqb_prop in Hb. subst b. eapply same_tree_insert; [done | done | by left | done].
  - cbn in Hstep. destruct (h !! p) as [m |] eqn:Hp; [| done]. cbn in Hstep. injection Hstep as <- Hb.
    eapply same_tree_insert; [done | done | by left |]. intros He. rewrite He in Hb. cbn in Hb.
    apply negb_false_iff, eqb_prop in Hb. subst b. done.
  - cbn in Hstep. destruct (h !! p) as [m |] eqn:Hp; [| done]. cbn in Hstep. injection Hstep as <- Hb.
    eapply same_tree_insert; [done | done | by left |]. intros He. rewrite He in Hb. cbn in Hb.
    apply negb_false_iff, eqb_prop in Hb. subst b. done.
  - cbn in Hstep. destruct (h !! p) as [m |] eqn:Hp; [| done]. cbn in Hstep. injection Hstep as <- Hb.
    eapply same_tree_insert; [done | done | by left |]. congruence.
  - cbn in Hstep. destruct (h !! sub) as [sm |] eqn:Hsub; [| done]. cbn in Hstep. destruct (mr_container sm) eqn:Hct; [done |].
    by apply (link_invisible h mr sub sm (placed mr off ov sm)).
  - by apply (unlink_invisible h mr sub).
  - cbn in Hstep. destruct (h !! p) as [m |] eqn:Hp; [| done]. cbn in Hstep. destruct (mr_alias m) eqn:Hal; [| done]. injection Hstep as <- Hb.
    eapply same_tree_insert; [done | done | by left |]. intros He. rewrite He in Hb. cbn in Hb. apply negb_false_iff, Z.eqb_eq in Hb. subst off. done.
  - destruct (h !! p) as [m |] eqn:Hp; [| cbn in Hstep; by rewrite Hp in Hstep].
    destruct (address_step _ _ _ _ _ _ Hstep Hp) as [(_ & -> & _) | (c & h1 & b1 & b2 & Hc & Hcp & _ & Hun & H1 & Hl & Hb)]; [reflexivity |].
    symmetry in Hb. apply orb_false_iff in Hb as [-> ->]. transitivity h1; [by apply (unlink_invisible h c p) |].
    apply (link_invisible h1 c p (m <| mr_container := None |>) (m <| mr_addr := a |>)); try done. by apply (unlink_wf h c p h1 false).
Qed.

(** The region that gets a place. *)
Definition placed_by (o : mem_op) : option nat := match o with MAdd _ _ sub _ => Some sub | MAddress p _ => Some p | _ => None end.

Lemma maddr_insert (h : regions) p m m' r :
  h !! p = Some m -> (r = p -> mr_addr m' = mr_addr m) -> maddr (<[p := m']> h) r = maddr h r.
Proof.
  intros Hp Ha. unfold maddr. destruct (decide (r = p)) as [-> |].
  - rewrite lookup_insert_eq, Hp. by apply Ha.
  - by rewrite lookup_insert_ne.
Qed.

Lemma unlink_maddr h mr sub h' b r : unlink_step h mr sub = Some (h', b) -> maddr h' r = maddr h r.
Proof.
  unfold unlink_step. intros Hstep. destruct (h !! sub) as [sm |] eqn:Hsub; [| done]. cbn in Hstep. case_decide; [| done].
  destruct (<[sub := sm <| mr_container := None |>]> h !! mr) as [m |] eqn:Hmr; [| done]. cbn in Hstep.
  injection Hstep as <- <-. rewrite (maddr_insert _ _ m) by done. by apply (maddr_insert _ _ sm).
Qed.

Lemma link_maddr h mr sub sm sm' h' b r : h !! sub = Some sm -> r <> sub -> link_step h mr sub sm' = Some (h', b) -> maddr h' r = maddr h r.
Proof.
  unfold link_step. intros Hsub Hr Hstep. destruct (<[sub := sm']> h !! mr) as [m |] eqn:Hmr; [| done]. cbn in Hstep.
  destruct (insert_subregion _ _ _ _) as [l |]; [| done]. cbn in Hstep. injection Hstep as <- <-.
  rewrite (maddr_insert _ _ m) by done. by apply (maddr_insert _ _ sm).
Qed.

Lemma step_maddr h o h' b r : mem_step h o = Some (h', b) -> placed_by o <> Some r -> maddr h' r = maddr h r.
Proof.
  intros Hstep Hr. destruct o as [p v | p v | p v | p v c | mr off sub ov | mr sub | p off | p a]; cbn [placed_by] in Hr;
    try (cbn in Hstep; destruct (h !! p) as [m |] eqn:Hp; [| done]; cbn in Hstep; injection Hstep as <- <-;
         by apply (maddr_insert _ _ m)).
  - cbn in Hstep. destruct (h !! sub) as [sm |] eqn:Hsub; [| done]. cbn in Hstep. destruct (mr_container sm); [done |].
    apply (link_maddr h mr sub sm (placed mr off ov sm) h' b); [done | congruence | done].
  - by apply (unlink_maddr h mr sub h' b).
  - cbn in Hstep. destruct (h !! p) as [m |] eqn:Hp; [| done]. cbn in Hstep. destruct (mr_alias m); [| done]. injection Hstep as <- <-. by apply (maddr_insert _ _ m).
  - destruct (h !! p) as [m |] eqn:Hp; [| cbn in Hstep; by rewrite Hp in Hstep].
    destruct (address_step _ _ _ _ _ _ Hstep Hp) as [(_ & -> & _) | (c & h1 & b1 & b2 & _ & _ & _ & Hun & H1 & Hl & _)]; [done |].
    rewrite (link_maddr h1 c p _ _ h' b2 r H1 ltac:(congruence) Hl). by apply (unlink_maddr h c p h1 b1).
Qed.

(** A sequence of operations in which every tree stays one that can be rendered
    and no root is placed in a container. *)
Fixpoint mem_run (roots : list nat) (h : regions) (os : list mem_op) : option regions :=
  match os with
  | [] => Some h
  | o :: os =>
      '(h', _) ← mem_step h o;
      if roots_ok roots h' && bool_decide (Forall (λ r, placed_by o <> Some r) roots)
      then mem_run roots h' os else None
  end.

Lemma step_settled roots s o h' b :
  settled roots s -> mem_step (mrs s) o = Some (h', b) -> roots_ok roots h' = true ->
  Forall (λ r, placed_by o <> Some r) roots ->
  exists s' t, do_mem o s = Done () s' t /\ mrs s' = h' /\ settled roots s' /\ address_spaces s' = address_spaces s.
Proof.
  intros [Hd Hp Hwf Hsp Hro Hcur Hkn] Hstep Hall Hpl. destruct s as [h l sp d pe]. cbn in *. subst d pe.
  rewrite (do_mem_run h l sp o h' b Hstep). unfold recompute. rewrite bind_get.
  pose proof (step_wf _ _ _ _ Hwf Hstep) as Hwf'. destruct b; cbn [when].
  - destruct (update_all_run roots l (mkMstate h' l sp 0 true)) as (sp' & t & Ht & Hr & Hc); try done.
    { intros k a Ha. by destruct (Hcur k a Ha). }
    set (s1 := mkMstate h' l sp' 0 true).
    exists (mkMstate h' l sp' 0 false), (([ListenBegin] ++ t ++ [ListenCommit]) ++ []). split; [| split; [done | split; [| done]]].
    { eapply bind_Done_trace with (s1 := s1); [| reflexivity].
      eapply bind_Done_trace; [reflexivity |]. eapply bind_Done_trace; [exact Ht | reflexivity]. }
    assert (Hdom : forall k, is_Some (sp' !! k) <-> is_Some (sp !! k)).
    { intros k. pose proof (f_equal (.!! k) Hr) as Hk. rewrite !lookup_fmap in Hk. cbn in Hk.
      by rewrite <- (fmap_is_Some as_root (sp' !! k)), Hk, fmap_is_Some. }
    assert (Hroot : forall k a, sp' !! k = Some a -> exists a0, sp !! k = Some a0 /\ as_root a0 = as_root a).
    { intros k a Ha. pose proof (f_equal (.!! k) Hr) as Hk. rewrite !lookup_fmap, Ha in Hk. cbn in Hk.
      destruct (sp !! k) as [a0 |]; [| done]. exists a0. split; [done |]. cbn in Hk. congruence. }
    split; cbn; try done.
    + intros k Hk. by apply Hdom, Hsp.
    + intros k a r Ha Hr'. destruct (Hroot k a Ha) as (a0 & Ha0 & Heq). apply (Hro k a0); [done | congruence].
    + intros k a Ha. destruct (Hroot k a Ha) as (a0 & Ha0 & _). apply (Hc k (or_introl (Hkn k a0 Ha0)) a Ha).
    + intros k a Ha. destruct (Hroot k a Ha) as (a0 & Ha0 & _). by apply (Hkn k a0).
  - exists (mkMstate h' l sp 0 false), []. split; [done |]. split; [done |]. split; [| done]. split; cbn; try done.
    intros k a Ha. destruct (Hcur k a Ha) as [Hok Hat]. split; [done |]. intros x Hx. rewrite Hat by done.
    destruct (as_root a) as [r |] eqn:Hr; [| done]. unfold root_at. cbn [mrs].
    rewrite <- (step_size _ _ _ _ Hstep). apply resolve_same; [by apply (invisible_step _ o) |]. f_equal. symmetry.
    apply (step_maddr _ _ _ _ _ Hstep). rewrite Forall_forall in Hpl. apply Hpl. by apply (Hro k a).
Qed.

(** C13 (views_stay_current).  From a settled state (between transactions, with nothing
    pending), after any sequence of the operations that change the memory tree (adding
    and removing subregions, enabling and disabling regions, changing their attributes,
    the offset of an alias and the address in the container), the flat view of every
    address space is well-formed and shows for every address what the tree says: an
    operation that skips the recomputation, because a region is disabled, has not
    changed what is visible.  The operations are those that the code does not stop at,
    each leaves below the roots of the address spaces a tree that can be rendered (no
    cycles, ranges of 64 bits), none places a root in a container or moves it, and a
    region whose address changes has a container. *)
Theorem views_stay_current roots os : forall s h',
  settled roots s -> mem_run roots (mrs s) os = Some h' ->
  exists s' t, for_each os do_mem s = Done () s' t /\ mrs s' = h' /\ settled roots s'.
Proof.
  induction os as [|o os IH]; intros s h' Hs Hrun; cbn in Hrun.
  { injection Hrun as <-. by exists s, []. }
  destruct (mem_step (mrs s) o) as [[h1 b] |] eqn:Hstep; [| done]. cbn in Hrun.
  destruct (roots_ok roots h1) eqn:Hok; [| done]. cbn in Hrun.
  destruct (bool_decide _) eqn:Hpl; [| done]. apply bool_decide_eq_true in Hpl.
  destruct (step_settled roots s o h1 b Hs Hstep Hok Hpl) as (s1 & t1 & H1 & <- & Hs1 & _).
  destruct (IH s1 h' Hs1 Hrun) as (s2 & t2 & H2 & Hh & Hs2). exists s2, (t1 ++ t2).
  split; [by eapply bind_Done_trace | done].
Qed.

(** ** Creating an address space *)

Lemma space_init_settled h k root m :
  heap_wf h -> h !! root = Some m -> roots_ok [root] h = true ->
  exists s t, address_space_init k root (mkMstate h [] ∅ 0 false) = Done () s t /\ mrs s = h /\ settled [root] s.
Proof.
  intros Hwf Hr Hall. unfold address_space_init, memory_region_transaction_begin. rewrite bind_modify.
  erewrite bind_Done by by apply get_mr_ok. rewrite bind_modify.
  set (sp := <[k := mkSpace (Some root) []]> (∅ : gmap nat AddressSpace)).
  change (exists s t, (set_pending (mr_enabled m) ;; memory_region_transaction_commit)
    (mkMstate h [k] sp 1 false) = Done () s t /\ mrs s = h /\ settled [root] s).
  rewrite pending_commit. unfold recompute. rewrite bind_get.
  assert (Hsp : forall j a, sp !! j = Some a -> j = k /\ a = mkSpace (Some root) []).
  { intros j a. unfold sp. rewrite lookup_insert_Some, lookup_empty. intuition congruence. }
  destruct (mr_enabled m) eqn:He; cbn [when].
  - destruct (update_all_run [root] [k] (mkMstate h [k] sp 0 true)) as (sp' & t & Ht & Hroot & Hc); try done.
    { intros j Hj%list_elem_of_singleton. subst j. cbn. unfold sp. rewrite lookup_insert_eq. by eexists. }
    { intros j a [-> ->]%Hsp. done. }
    { intros j a r [-> ->]%Hsp [= <-]. by left. }
    exists (mkMstate h [k] sp' 0 false), (([ListenBegin] ++ t ++ [ListenCommit]) ++ []). split; [| split; [done |]].
    { eapply bind_Done_trace with (s1 := mkMstate h [k] sp' 0 true); [| reflexivity].
      eapply bind_Done_trace; [reflexivity |]. eapply bind_Done_trace; [exact Ht | reflexivity]. }
    assert (Hsp' : forall j a, sp' !! j = Some a -> j = k /\ as_root a = Some root).
    { intros j a Ha. pose proof (f_equal (.!! j) Hroot) as Hj. rewrite !lookup_fmap, Ha in Hj. cbn in Hj.
      destruct (sp !! j) as [a0 |] eqn:Hj0; [| done]. destruct (Hsp j a0 Hj0) as [-> ->]. cbn in Hj. split; [done |]. congruence. }
    split; cbn; try done.
    + intros j Hj%list_elem_of_singleton. subst j. pose proof (f_equal (.!! k) Hroot) as Hj.
      rewrite !lookup_fmap in Hj. cbn in Hj. unfold sp in Hj. rewrite lookup_insert_eq in Hj.
      destruct (sp' !! k); [by eexists | done].
    + intros j a r Ha Hr'. destruct (Hsp' j a Ha) as [_ Hr2]. assert (r = root) as -> by congruence. by left.
    + intros j a Ha. destruct (Hsp' j a Ha) as [-> _]. apply (Hc k); [left; by apply list_elem_of_singleton | done].
    + intros j a Ha. destruct (Hsp' j a Ha) as [-> _]. by left.
  - exists (mkMstate h [k] sp 0 false), []. split; [done |]. split; [done |]. split; cbn; try done.
    + intros j Hj%list_elem_of_singleton. subst j. unfold sp. rewrite lookup_insert_eq. by eexists.
    + intros j a r [-> ->]%Hsp [= <-]. by left.
    + intros j a [-> ->]%Hsp. split; [done |]. intros x Hx. cbn [view_at root_at as_root mrs].
      symmetry. apply resolve_invisible. unfold visible. by rewrite Hr.
    + intros j a [-> _]%Hsp. by left.
Qed.

(** Destroying an address space does not tell the listeners that its ranges are
    gone, unless an update happens to be pending. *)
Lemma destroy_silent roots s k a :
  settled roots s -> spaces s !! k = Some a ->
  exists s', address_space_destroy k s = Done () s' [] /\ spaces s' !! k = None.
Proof.
  intros [Hd Hp _ _ _ _ _] Hk. destruct s as [h l sp d pe]. cbn in *. subst d pe.
  unfold address_space_destroy, memory_region_transaction_begin. rewrite bind_modify.
  match goal with |- context [_ ?x = Done _ _ _] =>
    assert (Hget : get_space k x = Done a x []) by (unfold get_space; rewrite bind_get; cbn; by rewrite Hk) end.
  rewrite (bind_Done _ _ _ _ _ Hget), bind_modify.
  eexists. split.
  - erewrite bind_Done; [reflexivity |]. cbn. apply (commit_run h l _ false).
  - cbn. apply lookup_delete_eq.
Qed.

(** ** A concrete run *)

Lemma small_heap_wf : heap_wf small_heap.
Proof.
  intros p m x Hp Hx. unfold small_heap in Hp. rewrite !lookup_insert_Some, lookup_singleton_Some in Hp.
  destruct Hp as [[<- <-] | [_ [[<- <-] | [_ [[<- <-] | [_ [<- <-]]]]]]]; cbn in Hx; try (by apply elem_of_nil in Hx).
  rewrite !elem_of_cons, elem_of_nil in Hx. destruct Hx as [-> | [-> | [-> | []]]]; eexists; (split; [reflexivity | done]).
Qed.

Definition small_ops : list mem_op :=
  [MEnable 2 false; MReadonly 2 true; MDel 0 2; MEnable 2 true; MAdd 0 0x1f0 2 (Some 5); MLog 1 true 0;
   MAddress 2 0x180; MAliasOffset 3 0x80].

Definition small_state : mstate :=
  match address_space_init 0 0 (mkMstate small_heap [] ∅ 0 false) with Done _ s _ => s | Halt _ => mkMstate ∅ [] ∅ 0 false end.

Lemma small_settled : settled [0%nat] small_state /\ mrs small_state = small_heap.
Proof.
  destruct (space_init_settled small_heap 0 0 (small_region (2 ^ 64) 0 None [3; 2; 1]%nat None 0 false) small_heap_wf)
    as (s & t & Hs & Hm & Hset); [reflexivity | vm_compute; reflexivity |].
  unfold small_state. rewrite Hs. split; [exact Hset | exact Hm].
Qed.

Lemma views_stay_current_witness :
  exists s' t, for_each small_ops do_mem small_state = Done () s' t /\ settled [0%nat] s'.
Proof.
  destruct (mem_run [0%nat] (mrs small_state) small_ops) as [h' |] eqn:Hrun.
  - destruct (views_stay_current [0%nat] small_ops small_state h' (proj1 small_settled) Hrun) as (s' & t & H1 & _ & H2).
    exists s', t. split; [exact H1 | exact H2].
  - exfalso. assert (Hc : match mem_run [0%nat] (mrs small_state) small_ops with Some _ => true | None => false end = true)
      by (vm_compute; reflexivity). rewrite Hrun in Hc. discriminate Hc.
Defined.

Lemma listeners_follow_witness :
  exists t, (address_space_update_topology_pass 0 [] small_view false ;;
             address_space_update_topology_pass 0 [] small_view true) small_state = Done () small_state t /\
    forall x, x ∈ foldl (listen 0) [] t <-> x ∈ (fkey <$> small_view).
Proof.
  apply (listeners_follow 0 [] small_view small_state [] 0 0).
  - exact I.
  - exact small_view_ok.
  - intros x. reflexivity.
Defined.
