(* ===== verification/Memaccess.v ===== *)
(** * Accesses to device regions ([memory.c])

    An access of the guest to a device region is checked
    ([memory_region_access_valid]), split into accesses of the sizes that the
    device implements ([access_with_adjusted_size]) and converted to the byte
    order of the device.  The target is little-endian, as the ARM one is.
    [unassigned] stands for [cpu_unassigned_access], which raises a fault in the
    processor. *)

From stdpp Require Import gmap.
From S2P Require Import Prelude Memory.
Open Scope Z_scope.

Inductive device_endian : Type :=
  | DEVICE_NATIVE_ENDIAN
  | DEVICE_BIG_ENDIAN
  | DEVICE_LITTLE_ENDIAN.

#[export] Instance device_endian_eq_dec : EqDecision device_endian.
Proof. solve_decision. Defined.

Section Access.
  Context {E S : Type} (unassigned : Z → bool → Z → M E S unit).

(** The callbacks of a region; [old_read] and [old_write] are the tables of
    functions for 1, 2 and 4 bytes. *)
Record MemoryRegionOps : Type := mkOps {
  ops_read : option (Z → Z → M E S Z);
  ops_write : option (Z → Z → Z → M E S unit);
  ops_endianness : device_endian;
  valid_min_access_size : Z;
  valid_max_access_size : Z;
  valid_unaligned : bool;
  valid_accepts : option (S → Z → Z → bool → bool);
  impl_min_access_size : Z;
  impl_max_access_size : Z;
  old_read : list (Z → M E S Z);
  old_write : list (Z → Z → M E S unit)
}.

Definition memory_region_big_endian (o : MemoryRegionOps) : bool :=
  bool_decide (ops_endianness o = DEVICE_BIG_ENDIAN).

Definition memory_region_wrong_endianness (o : MemoryRegionOps) : bool :=
  bool_decide (ops_endianness o = DEVICE_BIG_ENDIAN).

(** [bswap16], [bswap32] and [bswap64]. *)
Definition bswap (n : nat) (v : Z) : Z := of_le (reverse (le_bytes n v)).

Definition adjust_endianness (o : MemoryRegionOps) (data size : Z) : M E S Z :=
  if memory_region_wrong_endianness o then
    if size =? 1 then mret data
    else if size =? 2 then mret (bswap 2 data)
    else if size =? 4 then mret (bswap 4 data)
    else if size =? 8 then mret (bswap 8 data)
    else halt AssertFailed
  else mret data.

(** A shift by 64 or more is undefined. *)
Definition shl64 (x shift : Z) : M E S Z := if shift <? 64 then mret (u64 (x << shift)) else halt OutOfBounds.
Definition shr64 (x shift : Z) : M E S Z := if shift <? 64 then mret (x >> shift) else halt OutOfBounds.

(** [ctz32] of an access size. *)
Definition size_index (size : Z) : nat := if size =? 1 then 0 else if size =? 2 then 1 else if size =? 4 then 2 else 3.

Definition memory_region_oldmmio_read_accessor (o : MemoryRegionOps) (addr value size shift mask : Z) : M E S Z :=
  match old_read o !! size_index size with
  | None => halt OutOfBounds
  | Some f => tmp ← f addr; x ← shl64 (tmp .& mask) shift; mret (value .| x)
  end.

Definition memory_region_read_accessor (rd : Z → Z → M E S Z) (addr value size shift mask : Z) : M E S Z :=
  tmp ← rd addr size; x ← shl64 (tmp .& mask) shift; mret (value .| x).

Definition memory_region_oldmmio_write_accessor (o : MemoryRegionOps) (addr value size shift mask : Z) : M E S Z :=
  match old_write o !! size_index size with
  | None => halt OutOfBounds
  | Some f => x ← shr64 value shift; f addr (x .& mask) ;; mret value
  end.

Definition memory_region_write_accessor (wr : Z → Z → Z → M E S unit) (addr value size shift mask : Z) : M E S Z :=
  x ← shr64 value shift; wr addr (x .& mask) size ;; mret value.

(** The loop over the pieces; the result is [*value]. *)
Fixpoint access_loop (fuel : nat) (big : bool) (addr value size access_size mask i : Z)
    (access : Z → Z → Z → Z → Z → M E S Z) : M E S Z :=
  if i <? size then
    match fuel with
    | O => halt OutOfFuel
    | Datatypes.S fuel =>
        value ← access (u64 (addr + i)) value access_size
                  (if big then u32 (u32 (size - access_size - i) * 8) else u32 (i * 8)) mask;
        access_loop fuel big addr value size access_size mask (i + access_size) access
    end
  else mret value.

(** The size of a piece. *)
Definition piece_size (size access_size_min access_size_max : Z) : Z :=
  let access_size_min := if access_size_min =? 0 then 1 else access_size_min in
  let access_size_max := if access_size_max =? 0 then 4 else access_size_max in
  Z.max (Z.min size access_size_max) access_size_min.

Definition access_with_adjusted_size (o : MemoryRegionOps) (addr value size access_size_min access_size_max : Z)
    (access : Z → Z → Z → Z → Z → M E S Z) : M E S Z :=
  let access_size := piece_size size access_size_min access_size_max in
  let access_mask := (2 ^ 64 - 1) >> (64 - access_size * 8) in
  access_loop (Z.to_nat size) (memory_region_big_endian o) addr value size access_size access_mask 0 access.

(** The loop over the pieces that [accepts] is asked about. *)
Fixpoint accepts_loop (fuel : nat) (s : S) (acc : S → Z → Z → bool → bool) (addr size access_size i : Z)
    (is_write : bool) : bool :=
  match fuel with
  | O => true
  | Datatypes.S fuel =>
      if i <? size then
        if acc s (u64 (addr + i)) access_size is_write
        then accepts_loop fuel s acc addr size access_size (i + access_size) is_write
        else false
      else true
  end.

Definition memory_region_access_valid (o : MemoryRegionOps) (s : S) (addr size : Z) (is_write : bool) : bool :=
  if negb (valid_unaligned o) && cbool (addr .& (size - 1)) then false
  else
    match valid_accepts o with
    | None => true
    | Some acc =>
        accepts_loop (Datatypes.S (Z.to_nat size)) s acc addr size
          (piece_size size (valid_min_access_size o) (valid_max_access_size o)) 0 is_write
    end.

Definition memory_region_dispatch_read1 (o : MemoryRegionOps) (addr size : Z) : M E S Z :=
  match ops_read o with
  | Some rd =>
      access_with_adjusted_size o addr 0 size (impl_min_access_size o) (impl_max_access_size o)
        (memory_region_read_accessor rd)
  | None => access_with_adjusted_size o addr 0 size 1 4 (memory_region_oldmmio_read_accessor o)
  end.

(** The result: whether the access failed, and the value. *)
Definition memory_region_dispatch_read (o : MemoryRegionOps) (addr size : Z) : M E S (bool * Z) :=
  s ← get;
  if negb (memory_region_access_valid o s addr size false) then
    unassigned addr false size ;; mret (true, 0)
  else
    v ← memory_region_dispatch_read1 o addr size;
    v ← adjust_endianness o v size;
    mret (false, v).

Definition memory_region_dispatch_write (o : MemoryRegionOps) (addr data size : Z) : M E S bool :=
  s ← get;
  if negb (memory_region_access_valid o s addr size true) then
    unassigned addr true size ;; mret true
  else
    data ← adjust_endianness o data size;
    _ ← match ops_write o with
        | Some wr =>
            access_with_adjusted_size o addr data size (impl_min_access_size o) (impl_max_access_size o)
              (memory_region_write_accessor wr)
        | None => access_with_adjusted_size o addr data size 1 4 (memory_region_oldmmio_write_accessor o)
        end;
    mret false.

Definition io_mem_read (o : MemoryRegionOps) (addr size : Z) : M E S (bool * Z) := memory_region_dispatch_read o addr size.
Definition io_mem_write (o : MemoryRegionOps) (addr val size : Z) : M E S bool := memory_region_dispatch_write o addr val size.

(** ** Which accesses are rejected *)

(** Without an [accepts] callback the bounds on the access size
    ([valid.min_access_size] and [valid.max_access_size]) are not looked at: only
    the alignment counts. *)
Lemma access_valid_bounds_ignored o s addr size is_write :
  valid_accepts o = None ->
  memory_region_access_valid o s addr size is_write = valid_unaligned o || negb (cbool (addr .& (size - 1))).
Proof.
  intros Ha. unfold memory_region_access_valid. rewrite Ha.
  destruct (valid_unaligned o), (cbool (addr .& (size - 1))); done.
Qed.

End Access.
Arguments MemoryRegionOps : clear implicits.

(** ** One access, one call

    A device whose pieces are as large as the access, in the byte order of the
    target, gets the access as a single call; of what it returns the bytes of the
    access are kept. *)

Section Single.
  Context {E S : Type} (unassigned : Z → bool → Z → M E S unit).

Lemma access_mask_ones p : 1 <= p <= 8 -> (2 ^ 64 - 1) >> (64 - p * 8) = Z.ones (8 * p).
Proof.
  intros Hp. assert (Hc : p = 1 \/ p = 2 \/ p = 3 \/ p = 4 \/ p = 5 \/ p = 6 \/ p = 7 \/ p = 8) by lia.
  by destruct Hc as [-> | [-> | [-> | [-> | [-> | [-> | [-> | ->]]]]]]].
Qed.

Lemma masked_u64 v p : 1 <= p <= 8 -> u64 (v .& Z.ones (8 * p)) = v .& Z.ones (8 * p).
Proof.
  intros Hp. unfold u64. apply Z.mod_small. rewrite Z.land_ones by lia.
  pose proof (Z.mod_pos_bound v (2 ^ (8 * p)) ltac:(apply Z.pow_pos_nonneg; lia)) as Hb.
  pose proof (Z.pow_le_mono_r 2 (8 * p) 64 ltac:(lia) ltac:(lia)). lia.
Qed.

(** What an access of one piece does. *)
Lemma access_once (o : MemoryRegionOps E S) addr value size lo hi access s :
  1 <= size <= 8 -> 0 <= addr < 2 ^ 64 -> piece_size size lo hi = size ->
  access_with_adjusted_size o addr value size lo hi access s =
    (access addr value size 0 (Z.ones (8 * size)) : M E S Z) s.
Proof.
  intros Hs Ha Hp. unfold access_with_adjusted_size. rewrite Hp, access_mask_ones by done.
  destruct (Z.to_nat size) as [|f] eqn:Hf; [lia |]. cbn [access_loop].
  rewrite (proj2 (Z.ltb_lt 0 size)) by lia. rewrite Z.add_0_r, Z.sub_diag. unfold u64. rewrite (Z.mod_small addr) by done.
  replace (if memory_region_big_endian o then u32 (u32 (0 - 0) * 8) else u32 (0 * 8)) with 0 by (by destruct memory_region_big_endian).
  unfold mbind, M_bind. destruct (access addr value size 0 (Z.ones (8 * size)) s) as [v s' t | fl]; [| done].
  destruct f; cbn [access_loop]; rewrite (proj2 (Z.ltb_ge (0 + size) size)) by lia; cbn; by rewrite app_nil_r.
Qed.

Lemma single_read o rd addr size s :
  ops_read o = Some rd -> memory_region_wrong_endianness o = false ->
  memory_region_access_valid o s addr size false = true ->
  1 <= size <= 8 -> 0 <= addr < 2 ^ 64 -> piece_size size (impl_min_access_size o) (impl_max_access_size o) = size ->
  io_mem_read unassigned o addr size s =
    (v ← rd addr size; mret (false, v .& Z.ones (8 * size)) : M E S (bool * Z)) s.
Proof.
  intros Hrd Hwe Hv Hs Ha Hp. unfold io_mem_read, memory_region_dispatch_read. rewrite bind_get, Hv. cbn [negb].
  unfold memory_region_dispatch_read1. rewrite Hrd.
  unfold mbind at 1. unfold M_bind at 1. rewrite access_once by done.
  unfold memory_region_read_accessor, shl64, adjust_endianness. rewrite Hwe. change (0 <? 64) with true.
  unfold mbind, M_bind. destruct (rd addr size s) as [v s' t | fl]; [| done]. cbn.
  by rewrite Z.shiftl_0_r, masked_u64, ?app_nil_r by done.
Qed.

Lemma single_write o wr addr data size s :
  ops_write o = Some wr -> memory_region_wrong_endianness o = false ->
  memory_region_access_valid o s addr size true = true ->
  1 <= size <= 8 -> 0 <= addr < 2 ^ 64 -> piece_size size (impl_min_access_size o) (impl_max_access_size o) = size ->
  io_mem_write unassigned o addr data size s =
    (wr addr (data .& Z.ones (8 * size)) size ;; mret false : M E S bool) s.
Proof.
  intros Hwr Hwe Hv Hs Ha Hp. unfold io_mem_write, memory_region_dispatch_write. rewrite bind_get, Hv. cbn [negb].
  unfold adjust_endianness. rewrite Hwe, Hwr, (bind_Done (mret data) _ s data s eq_refl).
  unfold mbind at 1. unfold M_bind at 1. rewrite access_once by done.
  unfold memory_region_write_accessor, shr64. change (0 <? 64) with true.
  unfold mbind, M_bind. cbn. rewrite Z.shiftr_0_r. destruct (wr _ _ size s) as [v s' t | fl]; [| done].
  by rewrite ?app_nil_r.
Qed.

(** An access that is not valid does not reach the device. *)
Lemma invalid_read o addr size s :
  memory_region_access_valid o s addr size false = false ->
  io_mem_read unassigned o addr size s = (unassigned addr false size ;; mret (true, 0) : M E S (bool * Z)) s.
Proof. intros Hv. unfold io_mem_read, memory_region_dispatch_read. by rewrite bind_get, Hv. Qed.

Lemma invalid_write o addr data size s :
  memory_region_access_valid o s addr size true = false ->
  io_mem_write unassigned o addr data size s = (unassigned addr true size ;; mret true : M E S bool) s.
Proof. intros Hv. unfold io_mem_write, memory_region_dispatch_write. by rewrite bind_get, Hv. Qed.

End Single.

(** ** Splitting is invisible

    A device that stores bytes, and whose callbacks read and write the bytes of
    a piece in its own byte order. *)

Section Split.
  Context {E : Type} (unassigned : Z → bool → Z → M E (gmap Z Z) unit).
  Implicit Types (m : gmap Z Z) (o : MemoryRegionOps E (gmap Z Z)).

Definition dev_order (big : bool) (bs : list Z) : list Z := if big then reverse bs else bs.

Definition stores_bytes o : Prop :=
  let order := dev_order (memory_region_big_endian o) in
  exists rd wr, ops_read o = Some rd /\ ops_write o = Some wr /\
    (forall a n m, rd a n m = Done (of_le (order (bytes_at m a (Z.to_nat n)))) m []) /\
    (forall a v n m, wr a v n m = Done () (ram_write m a (order (le_bytes (Z.to_nat n) v))) []).

Lemma dev_order_length big bs : length (dev_order big bs) = length bs.
Proof. destruct big; [apply length_reverse | done]. Qed.

Lemma dev_order_bytes big bs : Forall is_byte bs -> Forall is_byte (dev_order big bs).
Proof. destruct big; [apply Forall_reverse | done]. Qed.

Lemma dev_order_bound big m a n :
  ram_ok m -> 0 <= of_le (dev_order big (bytes_at m a n)) < 2 ^ (8 * Z.of_nat n).
Proof.
  intros Hm. rewrite <- (bytes_at_length m a n) at 3. rewrite <- (dev_order_length big).
  by apply of_le_bound, dev_order_bytes, bytes_at_byte.
Qed.

(** The value that has been read after [i] of [n] bytes. *)
Definition read_so_far (big : bool) m (addr : Z) (n i : nat) : Z :=
  of_le (dev_order big (bytes_at m addr i)) << (if big then 8 * (Z.of_nat n - Z.of_nat i) else 0).

(** What is in memory after [i] of the [n] bytes of [v] have been stored. *)
Definition stored_so_far (big : bool) m (addr v : Z) (n i : nat) : gmap Z Z :=
  ram_write m addr (dev_order big (le_bytes i (v >> (if big then 8 * (Z.of_nat n - Z.of_nat i) else 0)))).

(** The shift of a piece of [p] bytes at [i]. *)
Definition piece_shift (big : bool) (n p i : nat) : Z :=
  if big then 8 * (Z.of_nat n - Z.of_nat p - Z.of_nat i) else 8 * Z.of_nat i.

Lemma read_step big m addr n p i :
  (i + p <= n)%nat ->
  read_so_far big m addr n i .|
    (of_le (dev_order big (bytes_at m (addr + Z.of_nat i) p)) << piece_shift big n p i) =
  read_so_far big m addr n (i + p).
Proof.
  intros Hi. unfold read_so_far, piece_shift. rewrite bytes_at_app. destruct big; cbn [dev_order].
  - rewrite reverse_app, of_le_app, length_reverse, bytes_at_length, Z.shiftl_lor, Z.shiftl_shiftl by lia.
    rewrite Z.lor_comm. f_equal; f_equal; lia.
  - by rewrite !Z.shiftl_0_r, of_le_app, bytes_at_length.
Qed.

Lemma write_step big m addr v n p i :
  (i + p <= n)%nat ->
  ram_write (stored_so_far big m addr v n i) (addr + Z.of_nat i)
    (dev_order big (le_bytes p (v >> piece_shift big n p i))) =
  stored_so_far big m addr v n (i + p).
Proof.
  intros Hi. unfold stored_so_far, piece_shift. destruct big; cbn [dev_order].
  - rewrite (Nat.add_comm i p), le_bytes_app, reverse_app, ram_write_app, length_reverse, le_bytes_length.
    replace (Z.of_nat n - Z.of_nat (p + i)) with (Z.of_nat n - Z.of_nat p - Z.of_nat i) by lia.
    rewrite Z.shiftr_shiftr by lia.
    by replace (8 * (Z.of_nat n - Z.of_nat p - Z.of_nat i) + 8 * Z.of_nat p) with (8 * (Z.of_nat n - Z.of_nat i)) by lia.
  - rewrite le_bytes_app, ram_write_app, le_bytes_length, Z.shiftr_shiftr by lia. done.
Qed.

(** The shift that the loop computes. *)
Lemma loop_shift (big : bool) n p i :
  (i + p <= n)%nat -> (n <= 8)%nat ->
  (if big then u32 (u32 (Z.of_nat n - Z.of_nat p - Z.of_nat i) * 8) else u32 (Z.of_nat i * 8)) = piece_shift big n p i.
Proof.
  intros Hi Hn. unfold piece_shift, u32. destruct big; [rewrite (Z.mod_small (_ - _)) by lia |];
    rewrite Z.mod_small by lia; lia.
Qed.

Lemma piece_shift_range big n p i :
  (i + p <= n)%nat -> (n <= 8)%nat -> 0 <= piece_shift big n p i /\ piece_shift big n p i + 8 * Z.of_nat p <= 64.
Proof. intros Hi Hn. unfold piece_shift. destruct big; lia. Qed.

Lemma shifted_u64 x shift k :
  0 <= shift -> 0 <= k -> shift + k <= 64 -> 0 <= x < 2 ^ k -> u64 (x << shift) = x << shift.
Proof.
  intros Hs Hk Hle Hx. unfold u64. rewrite Z.shiftl_mul_pow2 by done. apply Z.mod_small.
  pose proof (Z.pow_pos_nonneg 2 shift ltac:(lia) Hs). split; [nia |].
  apply (Z.lt_le_trans _ (2 ^ k * 2 ^ shift)); [nia |].
  rewrite <- Z.pow_add_r by lia. apply Z.pow_le_mono_r; lia.
Qed.

Lemma read_piece big rd m addr n p i :
  (forall a k m, rd a k m = Done (of_le (dev_order big (bytes_at m a (Z.to_nat k)))) m []) ->
  ram_ok m -> (0 < p)%nat -> (i + p <= n)%nat -> (n <= 8)%nat ->
  (memory_region_read_accessor rd (addr + Z.of_nat i) (read_so_far big m addr n i) (Z.of_nat p) (piece_shift big n p i)
     (Z.ones (8 * Z.of_nat p)) : M E _ Z) m = Done (read_so_far big m addr n (i + p)) m [].
Proof.
  intros Hrd Hm Hp Hi Hn. unfold memory_region_read_accessor, shl64.
  rewrite (bind_Done _ _ _ _ _ (Hrd _ _ _)), Nat2Z.id.
  pose proof (piece_shift_range big n p i Hi Hn) as [Hs0 Hs].
  rewrite (proj2 (Z.ltb_lt _ 64)) by lia.
  pose proof (dev_order_bound big m (addr + Z.of_nat i) p Hm) as Hb.
  rewrite Z.land_ones, Z.mod_small by lia.
  rewrite (shifted_u64 _ _ (8 * Z.of_nat p)) by lia.
  rewrite (bind_Done (mret _) _ m _ m eq_refl), read_step by done. done.
Qed.

Lemma read_loop big rd m addr n p k fuel i :
  (forall a k m, rd a k m = Done (of_le (dev_order big (bytes_at m a (Z.to_nat k)))) m []) ->
  ram_ok m -> 0 <= addr -> addr + Z.of_nat n <= 2 ^ 64 -> (0 < p)%nat -> (n <= 8)%nat ->
  n = (i + k * p)%nat -> (k <= fuel)%nat ->
  (access_loop fuel big addr (read_so_far big m addr n i) (Z.of_nat n) (Z.of_nat p) (Z.ones (8 * Z.of_nat p)) (Z.of_nat i)
     (memory_region_read_accessor rd) : M E _ Z) m = Done (read_so_far big m addr n n) m [].
Proof.
  intros Hrd Hm Ha Han Hp Hn. revert fuel i. induction k as [|k IH]; intros fuel i Hni Hf.
  { replace i with n by lia. destruct fuel; cbn [access_loop]; by rewrite Z.ltb_irrefl. }
  destruct fuel as [|fuel]; [lia |]. cbn [access_loop]. rewrite (proj2 (Z.ltb_lt _ _)) by nia.
  rewrite loop_shift by lia. unfold u64 at 1. rewrite Z.mod_small by nia.
  rewrite (bind_Done _ _ _ _ _ (read_piece big rd m addr n p i Hrd Hm Hp ltac:(nia) Hn)).
  rewrite <- Nat2Z.inj_add. apply IH; lia.
Qed.

Lemma write_piece big wr m addr v n p i :
  (forall a v k m, wr a v k m = Done () (ram_write m a (dev_order big (le_bytes (Z.to_nat k) v))) []) ->
  (0 < p)%nat -> (i + p <= n)%nat -> (n <= 8)%nat ->
  (memory_region_write_accessor wr (addr + Z.of_nat i) v (Z.of_nat p) (piece_shift big n p i)
     (Z.ones (8 * Z.of_nat p)) : M E _ Z) (stored_so_far big m addr v n i) =
  Done v (stored_so_far big m addr v n (i + p)) [].
Proof.
  intros Hwr Hp Hi Hn. unfold memory_region_write_accessor, shr64.
  pose proof (piece_shift_range big n p i Hi Hn) as [Hs0 Hs].
  rewrite (proj2 (Z.ltb_lt _ 64)) by lia.
  rewrite (bind_Done (mret _) _ _ _ _ eq_refl), (bind_Done _ _ _ _ _ (Hwr _ _ _ _)), Nat2Z.id, le_bytes_low, write_step by done.
  done.
Qed.

Lemma write_loop big wr m addr v n p k fuel i :
  (forall a v k m, wr a v k m = Done () (ram_write m a (dev_order big (le_bytes (Z.to_nat k) v))) []) ->
  0 <= addr -> addr + Z.of_nat n <= 2 ^ 64 -> (0 < p)%nat -> (n <= 8)%nat ->
  n = (i + k * p)%nat -> (k <= fuel)%nat ->
  (access_loop fuel big addr v (Z.of_nat n) (Z.of_nat p) (Z.ones (8 * Z.of_nat p)) (Z.of_nat i)
     (memory_region_write_accessor wr) : M E _ Z) (stored_so_far big m addr v n i) =
  Done v (stored_so_far big m addr v n n) [].
Proof.
  intros Hwr Ha Han Hp Hn. revert fuel i. induction k as [|k IH]; intros fuel i Hni Hf.
  { replace i with n by lia. destruct fuel; cbn [access_loop]; by rewrite Z.ltb_irrefl. }
  destruct fuel as [|fuel]; [lia |]. cbn [access_loop]. rewrite (proj2 (Z.ltb_lt _ _)) by nia.
  rewrite loop_shift by lia. unfold u64 at 1. rewrite Z.mod_small by nia.
  rewrite (bind_Done _ _ _ _ _ (write_piece big wr m addr v n p i Hwr Hp ltac:(nia) Hn)).
  rewrite <- Nat2Z.inj_add. apply IH; lia.
Qed.

(** *** The whole access *)

Lemma swapped_back big bs n :
  length bs = n -> Forall is_byte bs -> dev_order big (le_bytes n (of_le (dev_order big bs))) = bs.
Proof.
  intros <- Hbs. rewrite <- (dev_order_length big). rewrite le_bytes_of_le by by apply dev_order_bytes.
  destruct big; [apply reverse_involutive | done].
Qed.

(** The swap of [adjust_endianness] undoes the byte order of the device. *)
Lemma adjust_run o (v : Z) size m :
  In size [1; 2; 4; 8] -> 0 <= v < 2 ^ (8 * size) ->
  (adjust_endianness o v size : M E _ Z) m =
    Done (of_le (dev_order (memory_region_big_endian o) (le_bytes (Z.to_nat size) v))) m [].
Proof.
  intros Hsz Hv. unfold adjust_endianness, memory_region_wrong_endianness, memory_region_big_endian, bswap.
  assert (H1 : 0 <= v < 2 ^ 8 -> of_le (reverse (le_bytes 1 v)) = v).
  { intros H8. cbn [le_bytes]. rewrite reverse_singleton. cbn [of_le]. rewrite Z.lor_0_r. by apply Z.mod_small. }
  destruct (bool_decide (ops_endianness o = DEVICE_BIG_ENDIAN)); cbn [dev_order].
  - destruct Hsz as [<- | [<- | [<- | [<- | []]]]]; [| done | done | done].
    change (Z.to_nat 1) with 1%nat. by rewrite H1.
  - rewrite of_le_le_bytes, Z2Nat.id, Z.mod_small; [done | done |].
    destruct Hsz as [<- | [<- | [<- | [<- | []]]]]; lia.
Qed.

(** C22 (split_access_transparent).  A device that stores bytes looks the same to
    the guest whatever the sizes of its pieces and its byte order are: a valid
    read of 1, 2, 4 or 8 bytes, split into pieces that divide it, gives the
    bytes in memory order and changes nothing, and a valid write stores exactly
    the bytes of the value, in memory order. *)
Theorem split_access_transparent o m addr data size :
  stores_bytes o -> In size [1; 2; 4; 8] -> 0 <= impl_min_access_size o ->
  (piece_size size (impl_min_access_size o) (impl_max_access_size o) | size) ->
  ram_ok m -> 0 <= addr -> addr + size <= 2 ^ 64 -> 0 <= data < 2 ^ (8 * size) ->
  (forall w, memory_region_access_valid o m addr size w = true) ->
  io_mem_read unassigned o addr size m = Done (false, of_le (bytes_at m addr (Z.to_nat size))) m [] /\
  io_mem_write unassigned o addr data size m = Done false (ram_write m addr (le_bytes (Z.to_nat size) data)) [].
Proof.
  intros (rd & wr & Hrd & Hwr & Hrds & Hwrs) Hsz Hmin [k Hk] Hm Ha Has Hd Hv.
  set (big := memory_region_big_endian o) in *.
  remember (piece_size size (impl_min_access_size o) (impl_max_access_size o)) as pz eqn:Hpz.
  assert (Hs8 : 1 <= size <= 8) by (repeat (destruct Hsz as [<- | Hsz]); lia || done).
  assert (Hp0 : 0 < pz /\ 0 < k).
  { assert (0 < pz); [| nia]. rewrite Hpz. unfold piece_size. destruct (Z.eqb_spec (impl_min_access_size o) 0); lia. }
  set (n := Z.to_nat size) in *. set (p := Z.to_nat pz).
  assert (Hn : size = Z.of_nat n) by lia. assert (Hp : pz = Z.of_nat p) by lia.
  assert (Hkp : n = (0 + Z.to_nat k * p)%nat) by nia.
  assert (Hpn : (p <= n)%nat) by nia.
  unfold io_mem_read, io_mem_write, memory_region_dispatch_read, memory_region_dispatch_write, memory_region_dispatch_read1.
  rewrite !bind_get, !Hv, Hrd, Hwr. cbn [negb]. unfold access_with_adjusted_size.
  rewrite <- Hpz, Hp, access_mask_ones by lia. fold big. fold n. split.
  - pose proof (read_loop big rd m addr n p (Z.to_nat k) n 0 Hrds Hm Ha ltac:(lia) ltac:(lia) ltac:(lia) Hkp ltac:(nia)) as Hl.
    rewrite <- Hn in Hl. change (Z.of_nat 0) with 0 in Hl.
    replace (read_so_far big m addr n 0) with 0 in Hl.
    2:{ unfold read_so_far. cbn. destruct big; cbn; by rewrite Z.shiftl_0_l. }
    rewrite (bind_Done _ _ _ _ _ Hl). pose proof (dev_order_bound big m addr n Hm) as Hb.
    replace (read_so_far big m addr n n) with (of_le (dev_order big (bytes_at m addr n))).
    2:{ unfold read_so_far. rewrite Z.sub_diag, Z.mul_0_r. by destruct big; rewrite Z.shiftl_0_r. }
    rewrite (bind_Done _ _ _ _ _ (adjust_run o _ size m Hsz ltac:(by rewrite Hn))). fold big n.
    rewrite swapped_back; [done | apply bytes_at_length | by apply bytes_at_byte].
  - rewrite (bind_Done _ _ _ _ _ (adjust_run o _ size m Hsz Hd)). fold big n.
    set (v := of_le (dev_order big (le_bytes n data))).
    pose proof (write_loop big wr m addr v n p (Z.to_nat k) n 0 Hwrs Ha ltac:(lia) ltac:(lia) ltac:(lia) Hkp ltac:(nia)) as Hl.
    rewrite <- Hn in Hl. change (Z.of_nat 0) with 0 in Hl.
    replace (stored_so_far big m addr v n 0) with m in Hl by (by unfold stored_so_far; destruct big).
    rewrite (bind_Done _ _ _ _ _ Hl). unfold mret, M_ret. f_equal.
    unfold stored_so_far. rewrite Z.sub_diag, Z.mul_0_r.
    replace (v >> (if big then 0 else 0)) with v by (by destruct big; rewrite Z.shiftr_0_r).
    unfold v. f_equal. apply swapped_back; [apply le_bytes_length | apply le_bytes_byte].
Qed.

End Split.

(** A big-endian device that implements accesses of one and two bytes. *)
Definition be_device : MemoryRegionOps unit (gmap Z Z) := {|
  ops_read := Some (λ a n m, Done (of_le (reverse (bytes_at m a (Z.to_nat n)))) m []);
  ops_write := Some (λ a v n m, Done () (ram_write m a (reverse (le_bytes (Z.to_nat n) v))) []);
  ops_endianness := DEVICE_BIG_ENDIAN;
  valid_min_access_size := 0; valid_max_access_size := 0; valid_unaligned := false; valid_accepts := None;
  impl_min_access_size := 1; impl_max_access_size := 2; old_read := []; old_write := []
|}.

Definition be_memory : gmap Z Z := ram_write ∅ 0 [1; 2; 3; 4; 5; 6; 7; 8].

Lemma split_access_transparent_witness :
  io_mem_read (λ _ _ _, mret ()) be_device 0 8 be_memory = Done (false, 0x0807060504030201) be_memory [] /\
  io_mem_write (λ _ _ _, mret ()) be_device 0 0x0102030405060708 8 be_memory =
    Done false (ram_write be_memory 0 [8; 7; 6; 5; 4; 3; 2; 1]) [].
Proof.
  apply (split_access_transparent (λ _ _ _, mret ()) be_device be_memory 0 0x0102030405060708 8).
  - do 2 eexists. do 3 (split; [reflexivity |]). reflexivity.
  - cbn. tauto.
  - cbn. lia.
  - exists 4. reflexivity.
  - apply ram_write_ok; [| repeat constructor; by vm_compute].
    intros a. unfold ram_byte. rewrite lookup_empty. by vm_compute.
  - lia.
  - lia.
  - lia.
  - intros w. reflexivity.
Defined.
