(* ===== verification/Physmap.v ===== *)
(** * The radix tree of the memory dispatcher ([exec.c])

    Physical addresses are dispatched through a tree with 512-way nodes over the
    page number.  The tree is an array of nodes that refer to each other by
    index; [phys_page_set] enters a range of pages, [phys_page_compact] lets
    entries skip nodes with a single child, and [phys_page_find] looks an address
    up.  The theorems say that the tree is a map from pages to sections: setting a
    range changes exactly that range and needs no more nodes than are reserved, and
    compaction changes no lookup.

    The used part of [map->nodes] is the list [nodes], so [nodes_nb] is its length;
    the same holds of [map->sections]. *)

From stdpp Require Import list.
From S2P Require Import Prelude.
Open Scope Z_scope.

Definition TARGET_PAGE_BITS : Z := 10.
Definition TARGET_PAGE_SIZE : Z := 1 << TARGET_PAGE_BITS.
Definition ADDR_SPACE_BITS : Z := 64.
Definition P_L2_BITS : Z := 9.
Definition P_L2_SIZE : Z := 1 << P_L2_BITS.
Definition P_L2_LEVELS : Z := (ADDR_SPACE_BITS - TARGET_PAGE_BITS - 1) / P_L2_BITS + 1.
Definition PHYS_MAP_NODE_NIL : Z := 0xffffffff >> 6.

Definition PHYS_SECTION_UNASSIGNED : Z := 0.
Definition PHYS_SECTION_NOTDIRTY : Z := 1.
Definition PHYS_SECTION_ROM : Z := 2.
Definition PHYS_SECTION_WATCH : Z := 3.

(** An entry: the number of levels down to what it refers to (0: a section). *)
Record PhysPageEntry : Type := mkEntry { skip : Z; ptr : Z }.
#[export] Instance eta_PhysPageEntry : Settable PhysPageEntry := λ e, mkEntry (skip e) (ptr e).

#[export] Instance PhysPageEntry_eq_dec : EqDecision PhysPageEntry.
Proof. solve_decision. Defined.

Notation Node := (list PhysPageEntry).

(** The regions of a section: those of [exec.c], a page with several sections, or a
    region of the guest. *)
Inductive phys_mr : Type :=
  | io_mem_unassigned
  | io_mem_notdirty
  | io_mem_rom
  | io_mem_watch
  | SubpageMr (k : nat)
  | RegionMr (mr : nat).

#[export] Instance phys_mr_eq_dec : EqDecision phys_mr.
Proof. solve_decision. Defined.

(** [MemoryRegionSection]; a size is at most [2 ^ 64]. *)
Record PhysSection : Type := mkPhysSection {
  ps_mr : phys_mr;
  ps_offset_within_region : Z;
  ps_size : Z;
  ps_offset_within_address_space : Z;
  ps_readonly : bool
}.
#[export] Instance eta_PhysSection : Settable PhysSection := λ s,
  mkPhysSection (ps_mr s) (ps_offset_within_region s) (ps_size s) (ps_offset_within_address_space s) (ps_readonly s).

(** A page that is shared by several sections. *)
Record subpage_t : Type := mkSubpage { sp_base : Z; sub_section : list Z }.
#[export] Instance eta_subpage_t : Settable subpage_t := λ s, mkSubpage (sp_base s) (sub_section s).

Record AddressSpaceDispatch : Type := mkDispatch {
  phys_map : PhysPageEntry;
  nodes_nb_alloc : Z;
  nodes : list Node;
  sections_nb_alloc : Z;
  sections : list PhysSection;
  subpages : list subpage_t
}.
#[export] Instance eta_AddressSpaceDispatch : Settable AddressSpaceDispatch := λ d,
  mkDispatch (phys_map d) (nodes_nb_alloc d) (nodes d) (sections_nb_alloc d) (sections d) (subpages d).

Notation PM := (M Empty_set AddressSpaceDispatch).

(** ** Setting a range of pages *)

Definition phys_map_node_reserve (n : Z) : PM unit :=
  d ← get;
  let nb := Z.of_nat (length (nodes d)) in
  when (nodes_nb_alloc d <? u32 (nb + n))
    (let a := Z.max (u32 (nodes_nb_alloc d * 2)) 16 in
     modify (λ d, d <| nodes_nb_alloc := Z.max a (u32 (nb + n)) |>)).

Definition phys_map_node_alloc : PM nat :=
  d ← get;
  let ret := length (nodes d) in
  assert_ (negb (Z.of_nat ret =? PHYS_MAP_NODE_NIL)) ;;
  assert_ (negb (Z.of_nat ret =? nodes_nb_alloc d)) ;;
  modify (λ d, d <| nodes := nodes d ++ [replicate (Z.to_nat P_L2_SIZE) (mkEntry 1 PHYS_MAP_NODE_NIL)] |>) ;;
  mret ret.

(** Where an entry is: the root of the tree or a place in a node. *)
Inductive lpos : Type := Root | At (n i : nat).

#[export] Instance lpos_eq_dec : EqDecision lpos.
Proof. solve_decision. Defined.

Definition entry_at (d : AddressSpaceDispatch) (lp : lpos) : option PhysPageEntry :=
  match lp with
  | Root => Some (phys_map d)
  | At n i => nd ← nodes d !! n; nd !! i
  end.

Definition load (lp : lpos) : PM PhysPageEntry :=
  d ← get;
  match entry_at d lp with Some e => mret e | None => halt OutOfBounds end.

Definition set_entry (lp : lpos) (e : PhysPageEntry) (d : AddressSpaceDispatch) : AddressSpaceDispatch :=
  match lp with
  | Root => d <| phys_map := e |>
  | At n i => d <| nodes := alter (λ nd : Node, <[i := e]> nd) n (nodes d) |>
  end.

Definition store (lp : lpos) (e : PhysPageEntry) : PM unit :=
  d ← get;
  match entry_at d lp with Some _ => modify (set_entry lp e) | None => halt OutOfBounds end.

(** The loop over the entries of the node [p]; [rec] sets a part of what an entry
    covers. *)
Fixpoint set_loop (rec : lpos → Z → Z → PM (Z * Z)) (step leaf : Z) (p k i : nat) (index nb : Z) : PM (Z * Z) :=
  match k with
  | O => mret (index, nb)
  | S k =>
      if nb =? 0 then mret (index, nb)
      else if (index .& (step - 1) =? 0) && (step <=? nb) then
        store (At p i) (mkEntry 0 leaf) ;;
        set_loop rec step leaf p k (S i) (u64 (index + step)) (u64 (nb - step))
      else
        '(index, nb) ← rec (At p i) index nb;
        set_loop rec step leaf p k (S i) index nb
  end.

Definition enter_node (lp : lpos) (level : nat) : PM nat :=
  e ← load lp;
  if cbool (skip e) && (ptr e =? PHYS_MAP_NODE_NIL) then
    n ← phys_map_node_alloc;
    store lp (e <| ptr := Z.of_nat n |>) ;;
    when (Nat.eqb level 0)
      (modify (λ d, d <| nodes := <[n := replicate (Z.to_nat P_L2_SIZE) (mkEntry 0 PHYS_SECTION_UNASSIGNED)]> (nodes d) |>)) ;;
    mret n
  else mret (Z.to_nat (ptr e)).

Fixpoint phys_page_set_level (level : nat) (leaf : Z) (lp : lpos) (index nb : Z) : PM (Z * Z) :=
  let step := 1 << (Z.of_nat level * P_L2_BITS) in
  p ← enter_node lp level;
  let i := Z.to_nat ((index >> (Z.of_nat level * P_L2_BITS)) .& (P_L2_SIZE - 1)) in
  set_loop
    (match level with
     | O => λ _ _ _, halt OutOfBounds
     | S l => phys_page_set_level l leaf
     end) step leaf p (Z.to_nat P_L2_SIZE - i) i index nb.

Definition phys_page_set (index nb leaf : Z) : PM unit :=
  phys_map_node_reserve (3 * P_L2_LEVELS) ;;
  _ ← phys_page_set_level (Z.to_nat (P_L2_LEVELS - 1)) leaf Root index nb;
  mret ().

(** ** Compaction *)

(** The loop over the entries [i, ...] of the node [p], with the number of valid
    entries so far and the last of them. *)
Fixpoint compact_loop (rec : lpos → PM unit) (p k i : nat) (valid : Z) (valid_ptr : nat) : PM (Z * nat) :=
  match k with
  | O => mret (valid, valid_ptr)
  | S k =>
      e ← load (At p i);
      if ptr e =? PHYS_MAP_NODE_NIL then compact_loop rec p k (S i) valid valid_ptr
      else
        when (cbool (skip e)) (rec (At p i)) ;;
        compact_loop rec p k (S i) (valid + 1) i
  end.

Fixpoint phys_page_compact (fuel : nat) (lp : lpos) : PM unit :=
  match fuel with
  | O => halt OutOfFuel
  | S fuel =>
      e ← load lp;
      if ptr e =? PHYS_MAP_NODE_NIL then mret ()
      else
        let p := Z.to_nat (ptr e) in
        '(valid, valid_ptr) ← compact_loop (phys_page_compact fuel) p (Z.to_nat P_L2_SIZE) 0 0 (Z.to_nat P_L2_SIZE);
        if negb (valid =? 1) then mret ()
        else
          assert_ (Z.of_nat valid_ptr <? P_L2_SIZE) ;;
          e ← load lp;
          c ← load (At p valid_ptr);
          if 1 << 3 <=? skip e + skip c then mret ()
          else if negb (cbool (skip c)) then store lp (mkEntry 0 (ptr c))
          else store lp (mkEntry ((skip e + skip c) mod 2 ^ 6) (ptr c))
  end.

Definition phys_page_compact_all : PM unit :=
  d ← get;
  when (cbool (skip (phys_map d))) (phys_page_compact (S (Z.to_nat P_L2_LEVELS)) Root).

(** ** Lookup *)

(** The walk down the tree: the last pointer, or [None] at an empty entry; the
    outer [None] is an access outside the array of nodes. *)
Fixpoint find_loop (fuel : nat) (ns : list Node) (lp : PhysPageEntry) (i index : Z) : option (option Z) :=
  if cbool (skip lp) && (0 <=? i - skip lp) then
    match fuel with
    | O => None
    | S fuel =>
        if ptr lp =? PHYS_MAP_NODE_NIL then Some None
        else
          let i := i - skip lp in
          nd ← ns !! Z.to_nat (ptr lp);
          lp ← nd !! Z.to_nat ((index >> (i * P_L2_BITS)) .& (P_L2_SIZE - 1));
          find_loop fuel ns lp i index
    end
  else Some (Some (ptr lp)).

Definition range_get_last (offset len : Z) : Z := u64 (offset + len - 1).
Definition range_covers_byte (offset len byte : Z) : bool := (offset <=? byte) && (byte <=? range_get_last offset len).

(** The number of the section. *)
Definition phys_page_find (addr : Z) : PM Z :=
  d ← get;
  let index := addr >> TARGET_PAGE_BITS in
  match find_loop (Z.to_nat P_L2_LEVELS) (nodes d) (phys_map d) P_L2_LEVELS index with
  | None => halt OutOfBounds
  | Some None => mret PHYS_SECTION_UNASSIGNED
  | Some (Some p) =>
      match sections d !! Z.to_nat p with
      | None => halt OutOfBounds
      | Some s =>
          if cbool (ps_size s >> 64) || range_covers_byte (ps_offset_within_address_space s) (u64 (ps_size s)) addr
          then mret p
          else mret PHYS_SECTION_UNASSIGNED
      end
  end.

(** ** The shape of the tree

    [pw l] is the number of pages that an entry of a node at level [l] covers. *)

Definition pw (l : nat) : Z := 2 ^ (9 * Z.of_nat l).

Lemma pw_pos l : 0 < pw l.
Proof. apply Z.pow_pos_nonneg; lia. Qed.

Lemma pw_S l : pw (S l) = 512 * pw l.
Proof. unfold pw. rewrite Nat2Z.inj_succ, Z.mul_succ_r, Z.add_comm, Z.pow_add_r by lia. done. Qed.

Lemma pw_add l k : pw (l + k) = pw l * pw k.
Proof. unfold pw. rewrite <- Z.pow_add_r by lia. f_equal. lia. Qed.

(** The place of a page in a node at level [l]. *)
Definition slot (l : nat) (idx : Z) : nat := Z.to_nat ((idx / pw l) mod 512).

Lemma slot_spec l idx : Z.to_nat ((idx >> (Z.of_nat l * P_L2_BITS)) .& (P_L2_SIZE - 1)) = slot l idx.
Proof.
  unfold slot, pw. rewrite Z.shiftr_div_pow2 by (unfold P_L2_BITS; lia). change (P_L2_SIZE - 1) with (Z.ones 9).
  rewrite Z.land_ones by lia. unfold P_L2_BITS. by rewrite (Z.mul_comm (Z.of_nat l)).
Qed.

Lemma slot_prefix l idx q : idx / pw (S l) = q -> idx / pw l = q * 512 + Z.of_nat (slot l idx).
Proof.
  intros <-. unfold slot. pose proof (Z.mod_pos_bound (idx / pw l) 512). rewrite Z2Nat.id by lia.
  pose proof (pw_pos l). rewrite pw_S, (Z.mul_comm 512), <- Z.div_div by lia.
  pose proof (Z.div_mod (idx / pw l) 512). lia.
Qed.

Lemma slot_lt l idx : (slot l idx < 512)%nat.
Proof. unfold slot. pose proof (Z.mod_pos_bound (idx / pw l) 512). lia. Qed.

Lemma div_pw_iff l idx k : idx / pw l = k <-> k * pw l <= idx < (k + 1) * pw l.
Proof.
  pose proof (pw_pos l). split.
  - intros <-. pose proof (Z.div_mod idx (pw l)). pose proof (Z.mod_pos_bound idx (pw l)). nia.
  - intros Hk. symmetry. apply (Z.div_unique idx (pw l) k (idx - k * pw l)); [left; nia | nia].
Qed.

Lemma slot_of l idx q i : (i < 512)%nat -> idx / pw l = q * 512 + Z.of_nat i -> slot l idx = i /\ idx / pw (S l) = q.
Proof.
  intros Hi Hd. pose proof (pw_pos l). split.
  - unfold slot. rewrite Hd, Z.add_comm, Z_mod_plus_full, Z.mod_small by lia. lia.
  - rewrite pw_S, (Z.mul_comm 512), <- Z.div_div, Hd by lia.
    symmetry. apply (Z.div_unique _ 512 q (Z.of_nat i)); lia.
Qed.

(** The section number that a page gets at an entry with [l] levels below it. *)
Definition look (l : nat) (ns : list Node) (e : PhysPageEntry) (idx : Z) : option Z :=
  match find_loop l ns e (Z.of_nat l) idx with
  | None => None
  | Some None => Some PHYS_SECTION_UNASSIGNED
  | Some (Some p) => Some p
  end.

Lemma look_leaf l ns e idx : skip e = 0 -> look l ns e idx = Some (ptr e).
Proof. intros He. unfold look. destruct l; cbn [find_loop]; by rewrite He. Qed.

Lemma look_nil l ns e idx : skip e = 1 -> ptr e = PHYS_MAP_NODE_NIL -> look (S l) ns e idx = Some 0.
Proof.
  intros Hs Hp. unfold look. cbn [find_loop]. rewrite Hs, (proj2 (Z.leb_le 0 _)) by lia. by rewrite Hp.
Qed.

Lemma look_node l ns e c nd e' idx :
  skip e = 1 -> ptr e = Z.of_nat c -> Z.of_nat c < PHYS_MAP_NODE_NIL -> ns !! c = Some nd -> nd !! slot l idx = Some e' ->
  look (S l) ns e idx = look l ns e' idx.
Proof.
  intros Hs Hp Hc Hn He'. unfold look. cbn [find_loop]. rewrite Hs, (proj2 (Z.leb_le 0 _)) by lia. cbn [cbool Z.eqb negb andb].
  rewrite Hp, (proj2 (Z.eqb_neq _ _)) by lia. rewrite Nat2Z.id, Hn. cbn [mbind option_bind].
  replace (Z.of_nat (S l) - 1) with (Z.of_nat l) by lia. rewrite slot_spec, He'. done.
Qed.

Section Typed.

(** The numbers of the sections that the leaves refer to. *)
  Context (P : Z → Prop) (HP0 : P PHYS_SECTION_UNASSIGNED).

(** The level and the page prefix of every node: the node [(l, q)] covers the pages
    [idx] with [idx / pw (l + 1) = q].  An entry with [l] levels below it, for
    the pages with [idx / pw l = q]: *)
Definition entry_ok (lv : list (nat * Z)) (l : nat) (q : Z) (e : PhysPageEntry) : Prop :=
  (skip e = 0 /\ P (ptr e) /\ (l = 0%nat \/ ptr e <> 0)) \/
  (skip e = 1 /\ exists l', l = S l' /\
     (ptr e = PHYS_MAP_NODE_NIL \/
      exists c, ptr e = Z.of_nat c /\ Z.of_nat c < PHYS_MAP_NODE_NIL /\ lv !! c = Some (l', q))).

Definition node_ok (lv : list (nat * Z)) (x : nat * Z) (nd : Node) : Prop :=
  length nd = 512%nat /\ forall i e, nd !! i = Some e -> entry_ok lv (fst x) (snd x * 512 + Z.of_nat i) e.

Record typed (d : AddressSpaceDispatch) (lv : list (nat * Z)) : Prop := {
  typed_root : entry_ok lv 6 0 (phys_map d);
  typed_nodes : Forall2 (node_ok lv) lv (nodes d)
}.

Lemma typed_length d lv : typed d lv -> length lv = length (nodes d).
Proof. intros [_ H]. by apply Forall2_length in H. Qed.

Lemma typed_node d lv n x : typed d lv -> lv !! n = Some x -> exists nd, nodes d !! n = Some nd /\ node_ok lv x nd.
Proof. intros [_ H] Hn. by apply (Forall2_lookup_l _ _ _ _ _ H). Qed.

Lemma entry_ok_mono lv lv' l q e : entry_ok lv l q e -> entry_ok (lv ++ lv') l q e.
Proof.
  intros [He | (Hs & l' & -> & [Hn | (c & Hp & Hc & Hl)])]; [by left | right | right]; split; try done; exists l'.
  - auto.
  - split; [done |]. right. exists c. by rewrite (lookup_app_l_Some _ _ _ _ Hl).
Qed.

Lemma node_ok_mono lv lv' x nd : node_ok lv x nd -> node_ok (lv ++ lv') x nd.
Proof. intros [Hl He]. split; [done |]. intros i e Hi. by apply entry_ok_mono, He. Qed.

(** A lookup visits only nodes that cover the page. *)
Lemma look_frame d lv ns' l : forall q e idx,
  typed d lv -> entry_ok lv l q e -> idx / pw l = q ->
  (forall n l', (l' < l)%nat -> lv !! n = Some (l', idx / pw (S l')) -> ns' !! n = nodes d !! n) ->
  look l ns' e idx = look l (nodes d) e idx /\ is_Some (look l (nodes d) e idx).
Proof.
  induction l as [|l IH]; intros q e idx Ht He Hq Hns;
    (destruct He as [(Hs & _) | (Hs & l' & Hl & [Hn | (c & Hp & Hc & Hlv)])]; [by rewrite !look_leaf by done; eauto | |]);
    try lia; injection Hl as <-.
  - rewrite !look_nil by done; eauto.
  - destruct (typed_node d lv c (l, q) Ht Hlv) as (nd & Hnd & Hlen & Hok).
    destruct (lookup_lt_is_Some_2 nd (slot l idx)) as [e' He']; [rewrite Hlen; apply slot_lt |].
    assert (Hc' : ns' !! c = Some nd) by (rewrite (Hns c l), Hnd; [done | lia | by rewrite Hq]).
    rewrite !(look_node l _ e c nd e' idx) by done.
    apply (IH (q * 512 + Z.of_nat (slot l idx))); [done | by apply Hok | by apply slot_prefix |].
    intros n l' Hl' Hn. apply (Hns n l'); [lia | done].
Qed.

Lemma look_Some d lv l q e idx : typed d lv -> entry_ok lv l q e -> idx / pw l = q -> is_Some (look l (nodes d) e idx).
Proof. intros Ht He Hq. by apply (look_frame d lv (nodes d) l q e idx Ht He Hq). Qed.

(** ** Changing an entry *)

(** The place [lp] holds an entry with [l] levels below it, for the prefix [q]. *)
Definition pos_ok (lv : list (nat * Z)) (lp : lpos) (l : nat) (q : Z) : Prop :=
  match lp with
  | Root => l = 6%nat /\ q = 0
  | At n i => exists qn, lv !! n = Some (l, qn) /\ q = qn * 512 + Z.of_nat i
  end.

Lemma pos_entry d lv lp l q e : typed d lv -> pos_ok lv lp l q -> entry_at d lp = Some e -> entry_ok lv l q e.
Proof.
  intros Ht Hp He. destruct lp as [|n i]; cbn in *.
  - destruct Hp as [-> ->]. injection He as <-. apply Ht.
  - destruct Hp as (qn & Hn & ->). destruct (typed_node d lv n _ Ht Hn) as (nd & Hnd & _ & Hok).
    rewrite Hnd in He. by apply Hok.
Qed.

Lemma pos_mono lv lv' lp l q : pos_ok lv lp l q -> pos_ok (lv ++ lv') lp l q.
Proof.
  destruct lp as [|n i]; [done |]. intros (qn & Hn & ->). exists qn. by rewrite (lookup_app_l_Some _ _ _ _ Hn).
Qed.

Lemma set_entry_typed d lv lp l q e : typed d lv -> pos_ok lv lp l q -> entry_ok lv l q e -> typed (set_entry lp e d) lv.
Proof.
  intros Ht Hp He. destruct lp as [|n i]; cbn in *.
  - destruct Hp as [-> ->]. destruct Ht. by constructor.
  - destruct Hp as (qn & Hn & ->). destruct Ht as [Hr Hns]. constructor; [done |]. cbn.
    apply Forall2_alter_r; [done |]. intros x nd Hx Hnd [Hlen Hok]. rewrite Hn in Hx. injection Hx as <-.
    cbv beta. split; [by rewrite length_insert |]. intros j e' [(<- & <- & _) | [_ Hj]]%list_lookup_insert_Some; [done | by apply Hok].
Qed.

Lemma entry_set d lp e e' : entry_at d lp = Some e' -> entry_at (set_entry lp e d) lp = Some e.
Proof.
  destruct lp as [|n i]; [done |]. cbn. rewrite list_lookup_alter_eq.
  destruct (nodes d !! n) as [nd |]; [| done]. cbn. intros Hi. apply list_lookup_insert_eq. by apply lookup_lt_Some in Hi.
Qed.

Lemma set_entry_nodes d lp e n nd :
  nodes d !! n = Some nd ->
  nodes (set_entry lp e d) !! n =
    Some match lp with At m i => if decide (m = n) then <[i := e]> nd else nd | Root => nd end.
Proof.
  intros Hn. destruct lp as [|m i]; [done |]. cbn. rewrite list_lookup_alter. destruct (decide (m = n)) as [-> |]; [by rewrite Hn | done].
Qed.

Lemma set_entry_length d lp e : length (nodes (set_entry lp e d)) = length (nodes d).
Proof. destruct lp; [done |]. apply length_alter. Qed.

(** The parts of the dispatcher that the tree does not use. *)
Definition rest (d : AddressSpaceDispatch) : Z * Z * list PhysSection * list subpage_t :=
  (nodes_nb_alloc d, sections_nb_alloc d, sections d, subpages d).

Lemma set_entry_rest d lp e : rest (set_entry lp e d) = rest d.
Proof. by destruct lp. Qed.

Lemma store_run d lp e e' : entry_at d lp = Some e' -> store lp e d = Done () (set_entry lp e d) [].
Proof. intros He. unfold store. by rewrite bind_get, He. Qed.

Lemma load_run d lp e : entry_at d lp = Some e -> load lp d = Done e d [].
Proof. intros He. unfold load. by rewrite bind_get, He. Qed.

(** What changes outside of the nodes in [P] when the entry at [lp] becomes [e]. *)
Definition framed (P : nat → Prop) (lp : lpos) (e : PhysPageEntry) (d d' : AddressSpaceDispatch) : Prop :=
  rest d' = rest d /\
  phys_map d' = match lp with Root => e | At _ _ => phys_map d end /\
  forall n nd, nodes d !! n = Some nd -> ~ P n ->
    nodes d' !! n = Some match lp with At m i => if decide (m = n) then <[i := e]> nd else nd | Root => nd end.

(** *** A new node *)

Definition fresh (l : nat) : Node :=
  replicate (Z.to_nat P_L2_SIZE) (if Nat.eqb l 0 then mkEntry 0 PHYS_SECTION_UNASSIGNED else mkEntry 1 PHYS_MAP_NODE_NIL).

Definition push (nd : Node) (d : AddressSpaceDispatch) : AddressSpaceDispatch := d <| nodes := nodes d ++ [nd] |>.

Lemma fresh_ok lv l q : node_ok lv (l, q) (fresh l).
Proof.
  unfold fresh. split; [by rewrite length_replicate |]. intros i e [-> _]%lookup_replicate. destruct l as [|l]; cbn.
  - left. auto.
  - right. split; [done |]. exists l. auto.
Qed.

Lemma push_typed d lv l q : typed d lv -> typed (push (fresh l) d) (lv ++ [(l, q)]).
Proof.
  intros [Hr Hn]. constructor; cbn; [by apply entry_ok_mono |].
  apply Forall2_app; [| constructor; [apply fresh_ok | constructor]].
  eapply Forall2_impl; [exact Hn |]. intros x nd. apply node_ok_mono.
Qed.

Lemma push_entry nd d lp e : entry_at d lp = Some e -> entry_at (push nd d) lp = Some e.
Proof.
  destruct lp as [|n i]; [done |]. cbn. destruct (nodes d !! n) as [x |] eqn:Hn; [| done].
  by rewrite (lookup_app_l_Some _ _ _ _ Hn).
Qed.

Lemma enter_new d lp l e :
  entry_at d lp = Some e -> skip e = 1 -> ptr e = PHYS_MAP_NODE_NIL ->
  Z.of_nat (length (nodes d)) < nodes_nb_alloc d -> Z.of_nat (length (nodes d)) < PHYS_MAP_NODE_NIL ->
  enter_node lp l d =
    Done (length (nodes d)) (set_entry lp (mkEntry 1 (Z.of_nat (length (nodes d)))) (push (fresh l) d)) [].
Proof.
  intros He Hs Hp Ha Hn. unfold enter_node. rewrite (bind_Done _ _ _ _ _ (load_run _ _ _ He)), Hs, Hp. cbn [cbool Z.eqb negb andb].
  rewrite Z.eqb_refl.
  assert (Hal : phys_map_node_alloc d =
    Done (length (nodes d)) (push (replicate (Z.to_nat P_L2_SIZE) (mkEntry 1 PHYS_MAP_NODE_NIL)) d) []).
  { unfold phys_map_node_alloc. rewrite bind_get. cbv zeta. rewrite !(proj2 (Z.eqb_neq _ _)) by lia. done. }
  rewrite (bind_Done _ _ _ _ _ Hal), (bind_Done _ _ _ _ _ (store_run _ _ _ _ (push_entry _ d lp e He))).
  destruct e as [s x]. cbn in Hs, Hp. subst s x. unfold fresh. destruct l as [|l]; cbn [Nat.eqb when]; [| done].
  rewrite bind_modify. unfold mret, M_ret. f_equal. destruct lp as [|m i]; cbn.
  - unfold push, set_field; cbn. f_equal. by rewrite <- (Nat.add_0_r (length _)) at 1; rewrite insert_app_r.
  - destruct (nodes d !! m) as [nd |] eqn:Hm; [| cbn in He; by rewrite Hm in He]. apply lookup_lt_Some in Hm.
    unfold push, set_field; cbn. f_equal. rewrite !alter_app_l by done.
    rewrite <- (length_alter (λ nd : Node, <[i := mkEntry 1 (Z.of_nat (length (nodes d)))]> nd) (nodes d) m) at 1.
    by rewrite <- (Nat.add_0_r (length _)) at 1; rewrite insert_app_r.
Qed.

(** Entering the node of an entry that is not a leaf does not change what the pages
    of the entry get. *)
Lemma enter_ok d lv lp l q e :
  typed d lv -> pos_ok lv lp (S l) q -> entry_at d lp = Some e -> skip e = 1 ->
  Z.of_nat (length (nodes d)) < nodes_nb_alloc d -> Z.of_nat (length (nodes d)) < PHYS_MAP_NODE_NIL ->
  exists p d' lvx e' nd, enter_node lp l d = Done p d' [] /\ typed d' (lv ++ lvx) /\
    (lv ++ lvx) !! p = Some (l, q) /\ nodes d' !! p = Some nd /\ (length lvx <= 1)%nat /\
    entry_at d' lp = Some e' /\ skip e' = 1 /\ ptr e' = Z.of_nat p /\ Z.of_nat p < PHYS_MAP_NODE_NIL /\
    framed (λ _, False) lp e' d d' /\
    (forall idx, idx / pw (S l) = q -> look (S l) (nodes d') e' idx = look (S l) (nodes d) e idx).
Proof.
  intros Ht Hpos He Hs Ha Hnil. pose proof (pos_entry _ _ _ _ _ _ Ht Hpos He) as Hok.
  destruct Hok as [(Hs0 & _) | (_ & l' & Hl & [Hn | (c & Hp & Hc & Hlv)])]; [lia | |]; injection Hl as <-.
  - set (n := length (nodes d)). set (e' := mkEntry 1 (Z.of_nat n)).
    pose proof (typed_length _ _ Ht) as Hlen. fold n in Hlen.
    assert (Hlvn : (lv ++ [(l, q)]) !! n = Some (l, q)) by (by apply list_lookup_middle).
    assert (Hpn : nodes (push (fresh l) d) !! n = Some (fresh l)).
    { cbn. by apply list_lookup_middle. }
    assert (Hln : match lp with Root => True | At m _ => m <> n end).
    { destruct lp as [|m i]; [done |]. destruct Hpos as (qn & Hm & _). apply lookup_lt_Some in Hm. lia. }
    assert (Hdn : nodes (set_entry lp e' (push (fresh l) d)) !! n = Some (fresh l)).
    { rewrite (set_entry_nodes _ lp e' n (fresh l) Hpn). destruct lp as [|m i]; [done |]. by rewrite decide_False. }
    exists n, (set_entry lp e' (push (fresh l) d)), [(l, q)], e', (fresh l).
    split; [by apply (enter_new d lp l e) |]. split.
    { apply (set_entry_typed _ _ _ (S l) q); [by apply push_typed | by apply pos_mono |].
      right. split; [done |]. exists l. split; [done |]. right. exists n. done. }
    split; [done |]. split; [done |]. split; [done |].
    split; [by apply (entry_set _ _ _ e), push_entry |]. do 3 (split; [done |]). split.
    { split; [by destruct lp |]. split; [by destruct lp |]. intros m nd Hm _.
      apply set_entry_nodes. cbn. by apply lookup_app_l_Some. }
    intros idx Hq. rewrite (look_nil l _ e) by done.
    pose proof (slot_lt l idx) as Hsl.
    rewrite (look_node l _ e' n (fresh l) (if Nat.eqb l 0 then mkEntry 0 0 else mkEntry 1 PHYS_MAP_NODE_NIL)) by
      (done || (apply lookup_replicate; split; [done | exact Hsl])).
    destruct l as [|l]; [by rewrite look_leaf | by rewrite look_nil].
  - destruct (typed_node d lv c (l, q) Ht Hlv) as (nd & Hnd & Hndok).
    exists c, d, [], e, nd. rewrite app_nil_r. split.
    { unfold enter_node. rewrite (bind_Done _ _ _ _ _ (load_run _ _ _ He)), Hs, Hp.
      rewrite (proj2 (Z.eqb_neq _ _)) by lia. cbn. by rewrite Nat2Z.id. }
    do 3 (split; [done |]). split; [cbn; lia |]. do 4 (split; [done |]). split; [| done].
    split; [done |]. split; [destruct lp; [by injection He | done] |]. intros m x Hm _.
    destruct lp as [|m' i]; [done |]. destruct (decide (m' = m)) as [-> |]; [| done].
    cbn in He. rewrite Hm in He. cbn in He. by rewrite list_insert_id.
Qed.

(** ** Setting a range *)

(** The node [n] covers some of the pages with [idx / pw l = q]. *)
Definition below (lv : list (nat * Z)) (l : nat) (q : Z) (n : nat) : Prop :=
  exists l' q', lv !! n = Some (l', q') /\ (l' < l)%nat /\ q' / pw (l - S l') = q.

Lemma div_below l l' idx : (l' < l)%nat -> idx / pw (S l') / pw (l - S l') = idx / pw l.
Proof.
  intros Hl. pose proof (pw_pos (S l')). pose proof (pw_pos (l - S l')).
  rewrite Z.div_div, <- pw_add by lia. do 2 f_equal. lia.
Qed.

Lemma below_sub lv l q i n : (i < 512)%nat -> below lv l (q * 512 + Z.of_nat i) n -> below lv (S l) q n.
Proof.
  intros Hi (l' & q' & Hn & Hl & Hq). exists l', q'. do 2 (split; [done || lia |]).
  replace (S l - S l')%nat with (S (l - S l')) by lia.
  pose proof (pw_pos (l - S l')). rewrite pw_S, (Z.mul_comm 512), <- Z.div_div, Hq by lia.
  symmetry. apply (Z.div_unique _ 512 q (Z.of_nat i)); lia.
Qed.

Section SetRange.
  Context (T leaf : Z) (Hleaf : 0 < leaf) (HPleaf : P leaf) (HT : T <= 2 ^ 54).

(** The end of the part of the range up to [T] that the pages with the prefix [q]
    hold. *)
Definition part_end (l : nat) (q : Z) : Z := Z.min T ((q + 1) * pw l).

(** An entry that covers a page without a section is not a leaf above the last level. *)
Lemma open_entry d lv l q e idx :
  entry_ok lv (S l) q e -> look (S l) (nodes d) e idx = Some 0 -> skip e = 1.
Proof.
  intros [(Hs & _ & [H0 | H0]) | (Hs & _)] Hl; [done | | done]. rewrite look_leaf in Hl by done. congruence.
Qed.

(** Bounds on the number of new nodes: below an entry of which the range holds the
    start or the end one node per level, otherwise two. *)
Definition budget (l : nat) (q index : Z) : Z :=
  if (index mod pw l =? 0) || ((q + 1) * pw l <=? T) then Z.of_nat l else 2 * Z.of_nat l - 1.

Definition loop_budget (l : nat) (q index : Z) : Z :=
  if T <=? index then 0
  else (if index mod pw l =? 0 then 0 else Z.of_nat l) + (if (q + 1) * pw (S l) <=? T then 0 else Z.of_nat l).

(** Room for [n] new nodes. *)
Definition room_for (n : Z) (d : AddressSpaceDispatch) : Prop :=
  Z.of_nat (length (nodes d)) + n <= nodes_nb_alloc d /\ Z.of_nat (length (nodes d)) + n <= PHYS_MAP_NODE_NIL.

Definition set_to (index stop : Z) (old : option Z) (idx : Z) : option Z :=
  if (index <=? idx) && (idx <? stop) then Some leaf else old.

(** What setting the part of the range below an entry does. *)
Definition set_spec (l : nat) (f : lpos → Z → Z → PM (Z * Z)) : Prop :=
  forall d lv lp q e index,
  typed d lv -> pos_ok lv lp l q -> entry_at d lp = Some e -> 0 <= index < T -> index / pw l = q ->
  room_for (budget l q index) d ->
  (forall idx, index <= idx < part_end l q -> look l (nodes d) e idx = Some 0) ->
  exists d' lvx e', f lp index (T - index) d = Done (part_end l q, T - part_end l q) d' [] /\
    typed d' (lv ++ lvx) /\ Z.of_nat (length lvx) <= budget l q index /\ entry_at d' lp = Some e' /\
    framed (below lv l q) lp e' d d' /\
    (forall idx, idx / pw l = q -> look l (nodes d') e' idx = set_to index (part_end l q) (look l (nodes d) e idx) idx).

(** One entry [i] of the node [p] at level [l]. *)
Definition slot_done (l p i : nat) (q index : Z) (d : AddressSpaceDispatch) (lv : list (nat * Z)) (e : PhysPageEntry)
    (d1 : AddressSpaceDispatch) (lvx : list (nat * Z)) (e1 : PhysPageEntry) : Prop :=
  let j := q * 512 + Z.of_nat i in
  typed d1 (lv ++ lvx) /\ Z.of_nat (length lvx) + loop_budget l q (part_end l j) <= loop_budget l q index /\
  framed (below lv l j) (At p i) e1 d d1 /\
  (forall idx, idx / pw l = j -> look l (nodes d1) e1 idx = set_to index (part_end l j) (look l (nodes d) e idx) idx).

Lemma slot_leaf l p i q index d lv e nd :
  typed d lv -> lv !! p = Some (l, q) -> nodes d !! p = Some nd -> nd !! i = Some e ->
  let j := q * 512 + Z.of_nat i in
  index = j * pw l -> pw l <= T - index ->
  store (At p i) (mkEntry 0 leaf) d = Done () (set_entry (At p i) (mkEntry 0 leaf) d) [] /\ part_end l j = index + pw l /\
  slot_done l p i q index d lv e (set_entry (At p i) (mkEntry 0 leaf) d) [] (mkEntry 0 leaf).
Proof.
  intros Ht Hp Hnd He j Hi Hstep. pose proof (pw_pos l) as Hpw.
  assert (HE : part_end l j = index + pw l) by (unfold part_end; lia).
  assert (He' : entry_at d (At p i) = Some e) by (cbn; by rewrite Hnd).
  split; [by apply (store_run _ _ _ e) |]. split; [done |]. unfold slot_done. fold j. rewrite app_nil_r. split; [| split; [| split]].
  - apply (set_entry_typed _ _ _ l j); [done | by exists q |]. left. cbn. split; [done |]. split; [done | lia].
  - rewrite HE. unfold loop_budget. cbn [length]. replace (index + pw l) with ((j + 1) * pw l) by lia.
    rewrite Z_mod_mult, Hi, Z_mod_mult, (proj2 (Z.leb_gt T (j * pw l))) by lia.
    destruct (T <=? (j + 1) * pw l), ((q + 1) * pw (S l) <=? T); cbn; lia.
  - split; [done |]. split; [done |]. intros n x Hn _. exact (set_entry_nodes d (At p i) _ n x Hn).
  - intros idx Hidx. rewrite look_leaf by done. unfold set_to. apply div_pw_iff in Hidx.
    by rewrite (proj2 (Z.leb_le _ _)), (proj2 (Z.ltb_lt _ _)) by lia.
Qed.

Lemma budget_sub l q i index :
  let j := q * 512 + Z.of_nat i in
  (i < 512)%nat -> 0 <= index < T -> index / pw l = j ->
  ~ (index = j * pw l /\ pw l <= T - index) ->
  budget l j index + loop_budget l q (part_end l j) <= loop_budget l q index.
Proof.
  intros j Hi HiT Hj Hns. pose proof (pw_pos l) as Hpw. unfold budget, loop_budget, part_end. rewrite pw_S.
  rewrite (proj2 (Z.leb_gt T index)) by lia.
  apply div_pw_iff in Hj as Hj'.
  assert (Hq : (q + 1) * (512 * pw l) = j * pw l + (512 - Z.of_nat i) * pw l) by (unfold j; lia).
  destruct (Z.eqb_spec (index mod pw l) 0) as [Hm | Hm].
  - assert (Hix : index = j * pw l) by (rewrite (Z.div_mod index (pw l)) by lia; rewrite Hm, Hj; lia).
    rewrite (proj2 (Z.leb_le T (Z.min _ _))) by lia. cbn [orb]. rewrite (proj2 (Z.leb_gt _ T)) by nia. lia.
  - cbn [orb]. destruct (Z.leb_spec ((j + 1) * pw l) T).
    + rewrite Z.min_r, Z_mod_mult by lia. cbn [Z.eqb]. destruct (T <=? (j + 1) * pw l), ((q + 1) * (512 * pw l) <=? T); lia.
    + rewrite (proj2 (Z.leb_le T (Z.min _ _))) by lia. rewrite (proj2 (Z.leb_gt ((q + 1) * _) T)) by nia. lia.
Qed.

Lemma loop_budget_nonneg l q index : 0 <= loop_budget l q index.
Proof. unfold loop_budget. repeat case_match; lia. Qed.

Lemma room_less n n' d : n' <= n -> room_for n d -> room_for n' d.
Proof. unfold room_for. lia. Qed.

(** After an entry is done, there is room for the rest. *)
Lemma room_after n k lv lvx d d1 :
  typed d lv -> typed d1 (lv ++ lvx) -> rest d1 = rest d -> Z.of_nat (length lvx) + k <= n -> room_for n d -> room_for k d1.
Proof.
  intros Ht Ht1 Hr Hk Hn. apply typed_length in Ht, Ht1. rewrite length_app in Ht1.
  unfold rest in Hr. injection Hr as Ha _ _ _. unfold room_for in *. rewrite Ha. lia.
Qed.

Lemma slot_rec l p i q index d lv e nd rec :
  set_spec l rec ->
  typed d lv -> lv !! p = Some (l, q) -> nodes d !! p = Some nd -> nd !! i = Some e ->
  let j := q * 512 + Z.of_nat i in
  (i < 512)%nat -> 0 <= index < T -> index / pw l = j -> ~ (index = j * pw l /\ pw l <= T - index) ->
  room_for (loop_budget l q index) d ->
  (forall idx, index <= idx < part_end l j -> look l (nodes d) e idx = Some 0) ->
  exists d1 lvx e1, rec (At p i) index (T - index) d = Done (part_end l j, T - part_end l j) d1 [] /\
    slot_done l p i q index d lv e d1 lvx e1.
Proof.
  intros Hrec Ht Hp Hnd He j Hi HiT Hj Hns Hroom Hz.
  pose proof (budget_sub l q i index Hi HiT Hj Hns) as Hb. fold j in Hb.
  pose proof (loop_budget_nonneg l q (part_end l j)) as Hlb.
  destruct (Hrec d lv (At p i) j e index) as (d' & lvx & e' & Hrun & Ht' & Hlen & _ & Hfr & Hlook); try done.
  - by exists q.
  - cbn. by rewrite Hnd.
  - eapply room_less; [| exact Hroom]. lia.
  - exists d', lvx, e'. split; [done |]. unfold slot_done. fold j. do 2 (split; [done || lia |]). done.
Qed.

(** Pages of the other entries of the node are not affected. *)
Lemma slot_others l p i q index d lv nd e d1 lvx e1 idx e2 :
  typed d lv -> lv !! p = Some (l, q) -> nodes d !! p = Some nd -> (i < 512)%nat ->
  slot_done l p i q index d lv e d1 lvx e1 -> idx / pw (S l) = q -> slot l idx <> i -> nd !! slot l idx = Some e2 ->
  look l (nodes d1) e2 idx = look l (nodes d) e2 idx.
Proof.
  intros Ht Hp Hnd Hi (_ & _ & (_ & _ & Hfr) & _) Hq Hs He2.
  pose proof (slot_prefix l idx q Hq) as Hpre.
  destruct (typed_node d lv p _ Ht Hp) as (nd' & Hnd' & _ & Hok). rewrite Hnd in Hnd'. injection Hnd' as <-.
  apply (look_frame d lv (nodes d1) l (q * 512 + Z.of_nat (slot l idx))); [done | by apply Hok | done |].
  intros n l' Hl' Hn. destruct (typed_node d lv n _ Ht Hn) as (x & Hx & _). rewrite (Hfr n x Hx).
  - rewrite decide_False; [done |]. intros ->. rewrite Hp in Hn. injection Hn as Hll _. lia.
  - intros (l2 & q2 & Hn2 & Hl2 & Hq2). rewrite Hn in Hn2. injection Hn2 as <- <-.
    rewrite div_below, Hpre in Hq2 by lia. lia.
Qed.

(** The node [p] while its entries are set: outside of it and of the nodes below
    it nothing changes, and its pages from [index] to the end of the range get the
    section. *)
Definition loop_done (l p : nat) (q index : Z) (d : AddressSpaceDispatch) (lv : list (nat * Z)) (nd : Node)
    (d' : AddressSpaceDispatch) (lvx : list (nat * Z)) (nd' : Node) : Prop :=
  typed d' (lv ++ lvx) /\ Z.of_nat (length lvx) <= loop_budget l q index /\ nodes d' !! p = Some nd' /\
  rest d' = rest d /\ phys_map d' = phys_map d /\
  (forall n x, n <> p -> nodes d !! n = Some x -> ~ below lv (S l) q n -> nodes d' !! n = Some x) /\
  (forall idx e, idx / pw (S l) = q -> nd !! slot l idx = Some e ->
     exists e', nd' !! slot l idx = Some e' /\
       look l (nodes d') e' idx = set_to index (part_end (S l) q) (look l (nodes d) e idx) idx).

Lemma loop_done_end l p q d lv nd index :
  typed d lv -> nodes d !! p = Some nd -> part_end (S l) q <= index -> loop_done l p q index d lv nd d [] nd.
Proof.
  intros Ht Hnd HE. unfold loop_done. rewrite app_nil_r. split; [done |]. split; [apply loop_budget_nonneg |].
  do 4 (split; [done |]). intros idx e _ He. exists e. split; [done |]. unfold set_to.
  destruct (Z.leb_spec index idx), (Z.ltb_spec idx (part_end (S l) q)); done || lia.
Qed.

(** An entry followed by the rest of the node. *)
Lemma loop_done_cons l p i q index d lv nd e d1 lvx1 e1 d2 lvx2 nd2 :
  let j := q * 512 + Z.of_nat i in
  typed d lv -> lv !! p = Some (l, q) -> nodes d !! p = Some nd -> nd !! i = Some e -> (i < 512)%nat ->
  index / pw l = j -> index < T ->
  slot_done l p i q index d lv e d1 lvx1 e1 ->
  loop_done l p q (part_end l j) d1 (lv ++ lvx1) (<[i := e1]> nd) d2 lvx2 nd2 ->
  loop_done l p q index d lv nd d2 (lvx1 ++ lvx2) nd2.
Proof.
  intros j Ht Hp Hnd He Hi Hj HiT Hs (Ht2 & Hlen2 & Hp2 & Hr2 & Hm2 & Hfr2 & Hlook2).
  pose proof Hs as (Ht1 & Hlen1 & (Hr1 & Hm1 & Hfr1) & Hlook1). cbv zeta in Hlen1, Hfr1, Hlook1. fold j in Hlen1, Hfr1, Hlook1.
  unfold loop_done. rewrite app_assoc. split; [done |]. split; [rewrite length_app; lia |]. split; [done |].
  split; [congruence |]. split; [congruence |]. split.
  - intros n x Hne Hx Hb. apply Hfr2; [done | |].
    + rewrite (Hfr1 n x Hx); [by rewrite decide_False | intros Hbl; by apply Hb, (below_sub _ _ _ i)].
    + intros (l' & q' & Hn & Hl' & Hq'). apply Hb. exists l', q'. split; [| done].
      pose proof (typed_length _ _ Ht) as Hlen. apply lookup_lt_Some in Hx. by rewrite lookup_app_l in Hn by lia.
  - intros idx e0 Hq He0. pose proof (pw_pos l) as Hpw.
    pose proof (slot_prefix l idx q Hq) as Hpre. apply div_pw_iff in Hpre as Hrng. apply div_pw_iff in Hj as Hjr.
    assert (HE : part_end l j <= part_end (S l) q) by (unfold part_end; rewrite pw_S; nia).
    assert (HE' : part_end l j = T \/ part_end l j = (j + 1) * pw l) by (unfold part_end; lia).
    assert (HET : part_end (S l) q <= T /\ index < part_end l j /\ part_end l j <= (j + 1) * pw l) by (unfold part_end; lia).
    destruct (decide (slot l idx = i)) as [Hsi | Hsi].
    + rewrite Hsi in He0, Hrng |- *. assert (e0 = e) as -> by congruence. fold j in Hrng.
      destruct (Hlook2 idx e1 Hq) as (e2 & He2 & Hl2).
      { rewrite Hsi. apply list_lookup_insert_eq. by apply lookup_lt_Some in He. }
      rewrite Hsi in He2. exists e2. split; [done |]. rewrite Hl2, Hlook1 by (rewrite (slot_prefix l idx q Hq), Hsi; done).
      unfold set_to.
      destruct (Z.leb_spec (part_end l j) idx), (Z.ltb_spec idx (part_end (S l) q)), (Z.leb_spec index idx),
        (Z.ltb_spec idx (part_end l j)); done || lia.
    + destruct (Hlook2 idx e0 Hq) as (e2 & He2 & Hl2); [by rewrite list_lookup_insert_ne |].
      exists e2. split; [done |]. rewrite Hl2, (slot_others l p i q index d lv nd e d1 lvx1 e1 idx e0) by done.
      unfold set_to.
      assert (Hcase : idx < j * pw l \/ (j + 1) * pw l <= idx).
      { assert (q * 512 + Z.of_nat (slot l idx) < j \/ j + 1 <= q * 512 + Z.of_nat (slot l idx)) as [] by (unfold j; lia); nia. }
      destruct (Z.leb_spec (part_end l j) idx), (Z.ltb_spec idx (part_end (S l) q)), (Z.leb_spec index idx); done || lia.
Qed.

(** After an entry is set, the rest of the node is as the loop expects it. *)
Lemma slot_next l p i q index d lv nd e d1 lvx1 e1 :
  let j := q * 512 + Z.of_nat i in
  typed d lv -> lv !! p = Some (l, q) -> nodes d !! p = Some nd -> nd !! i = Some e -> (i < 512)%nat ->
  0 <= index < T -> index / pw l = j -> room_for (loop_budget l q index) d ->
  (forall idx e, index <= idx < part_end (S l) q -> nd !! slot l idx = Some e -> look l (nodes d) e idx = Some 0) ->
  slot_done l p i q index d lv e d1 lvx1 e1 ->
  nodes d1 !! p = Some (<[i := e1]> nd) /\ 0 <= part_end l j /\
  (part_end l j < T -> part_end l j / pw l = q * 512 + Z.of_nat (S i)) /\
  room_for (loop_budget l q (part_end l j)) d1 /\
  (forall idx e, part_end l j <= idx < part_end (S l) q -> <[i := e1]> nd !! slot l idx = Some e ->
     look l (nodes d1) e idx = Some 0).
Proof.
  intros j Ht Hp Hnd He Hi HiT Hslot Hroom Hz Hs. pose proof Hs as (Ht1 & Hlen1 & (Hr1 & _ & Hfr1) & _).
  cbv zeta in Hlen1, Hfr1. fold j in Hlen1, Hfr1. destruct (slot_of l index q i Hi Hslot) as [Hsi Hsq].
  apply div_pw_iff in Hslot as Hsr. split; [| split; [unfold part_end; lia | split; [| split]]].
  - rewrite (Hfr1 p nd Hnd); [by rewrite decide_True |]. intros (l' & q' & Hn & Hl' & _). rewrite Hp in Hn.
    injection Hn as <- _. lia.
  - intros HeT. apply div_pw_iff. assert (HeE : part_end l j = (j + 1) * pw l) by (unfold part_end in *; lia).
    rewrite HeE. unfold j. pose proof (pw_pos l). lia.
  - eapply room_after; [exact Ht | exact Ht1 | exact Hr1 | exact Hlen1 | exact Hroom].
  - intros idx e2 Hidx He2.
    assert (Hq : idx / pw (S l) = q).
    { apply div_pw_iff. apply div_pw_iff in Hsq. unfold part_end in *. lia. }
    assert (Hne : slot l idx <> i).
    { intros Hs'. pose proof (slot_prefix l idx q Hq) as Hpre. rewrite Hs' in Hpre. apply div_pw_iff in Hpre. unfold part_end in *. fold j in Hpre. lia. }
    rewrite list_lookup_insert_ne in He2 by done.
    rewrite (slot_others l p i q index d lv nd e d1 lvx1 e1 idx e2) by (done || lia).
    apply Hz; [| done]. unfold part_end in *. lia.
Qed.

(** The condition of the loop for making a leaf. *)
Lemma leaf_test l index j :
  index / pw l = j ->
  (index .& (pw l - 1) =? 0) && (pw l <=? T - index) = bool_decide (index = j * pw l /\ pw l <= T - index).
Proof.
  intros Hj. pose proof (pw_pos l) as Hpw.
  replace (pw l - 1) with (Z.ones (9 * Z.of_nat l)) by (rewrite Z.ones_equiv; unfold pw; lia).
  rewrite Z.land_ones by lia. change (2 ^ (9 * Z.of_nat l)) with (pw l).
  pose proof (Z.div_mod index (pw l)) as Hdm. rewrite Hj in Hdm.
  destruct (Z.eqb_spec (index mod pw l) 0), (Z.leb_spec (pw l) (T - index)); cbn [andb]; symmetry;
    (apply bool_decide_eq_true_2 || apply bool_decide_eq_false_2); lia.
Qed.

Lemma set_loop_ok l rec :
  (l <> 0%nat -> set_spec l rec) ->
  forall k i d lv p q nd index,
  (k + i = 512)%nat -> typed d lv -> lv !! p = Some (l, q) -> nodes d !! p = Some nd ->
  0 <= index <= part_end (S l) q -> (index < T -> index / pw l = q * 512 + Z.of_nat i) ->
  room_for (loop_budget l q index) d ->
  (forall idx e, index <= idx < part_end (S l) q -> nd !! slot l idx = Some e -> look l (nodes d) e idx = Some 0) ->
  exists d' lvx nd',
    set_loop rec (pw l) leaf p k i index (T - index) d = Done (part_end (S l) q, T - part_end (S l) q) d' [] /\
    loop_done l p q index d lv nd d' lvx nd'.
Proof.
  intros Hrec. induction k as [|k IH]; intros i d lv p q nd index Hki Ht Hp Hnd Hix Hslot Hroom Hz; pose proof (pw_pos l) as Hpw.
  { assert (HE : index = part_end (S l) q).
    { unfold part_end in *. rewrite pw_S in *. destruct (decide (index < T)) as [Hlt |]; [| lia].
      specialize (Hslot Hlt). apply div_pw_iff in Hslot. nia. }
    exists d, [], nd. cbn [set_loop]. rewrite <- HE. split; [done |]. apply loop_done_end; [done | done | lia]. }
  cbn [set_loop]. destruct (Z.eqb_spec (T - index) 0) as [H0 | H0].
  { assert (HE : index = part_end (S l) q) by (unfold part_end in *; lia).
    exists d, [], nd. rewrite <- HE. split; [done |]. apply loop_done_end; [done | done | lia]. }
  assert (HiT : index < T) by (unfold part_end in *; lia). specialize (Hslot HiT).
  set (j := q * 512 + Z.of_nat i) in *.
  destruct (slot_of l index q i ltac:(lia) Hslot) as [Hsi Hsq].
  destruct (typed_node d lv p _ Ht Hp) as (nd' & Hnd' & Hlen & _). rewrite Hnd in Hnd'. injection Hnd' as <-.
  destruct (lookup_lt_is_Some_2 nd i) as [e He]; [lia |].
  assert (HE : part_end l j <= part_end (S l) q) by (unfold part_end, j; rewrite pw_S; nia).
  assert (Hstep : forall d1 lvx e1, slot_done l p i q index d lv e d1 lvx e1 ->
    exists d' lvx nd',
      set_loop rec (pw l) leaf p k (S i) (part_end l j) (T - part_end l j) d1 =
        Done (part_end (S l) q, T - part_end (S l) q) d' [] /\
      loop_done l p q index d lv nd d' lvx nd').
  { intros d1 lvx1 e1 Hs.
    destruct (slot_next l p i q index d lv nd e d1 lvx1 e1) as (Hnd1 & H0' & Hsl & Hro & Hze); try (done || lia).
    destruct (IH (S i) d1 (lv ++ lvx1) p q (<[i := e1]> nd) (part_end l j)) as (d' & lvx2 & nd' & Hrun & Hdone);
      [lia | by destruct Hs | by apply lookup_app_l_Some | done | done | done | done | done |].
    exists d', (lvx1 ++ lvx2), nd'. split; [done |]. by apply (loop_done_cons l p i q index d lv nd e d1 lvx1 e1); try lia. }
  rewrite (leaf_test l index j Hslot). case_bool_decide as Hns; [destruct Hns as [Hal Hfull] |].
  - destruct (slot_leaf l p i q index d lv e nd Ht Hp Hnd He Hal Hfull) as (Hst & Hpe & Hs). fold j in Hpe.
    rewrite (bind_Done _ _ _ _ _ Hst). unfold u64. rewrite !Z.mod_small by lia.
    destruct (Hstep _ _ _ Hs) as (d' & lvx & nd' & Hrun & Hdone). exists d', lvx, nd'. split; [| done].
    rewrite Hpe in Hrun. by replace (T - (index + pw l)) with (T - index - pw l) in Hrun by lia.
  - destruct l as [|l].
    { exfalso. apply Hns. change (pw 0) with 1 in *. rewrite Z.div_1_r in Hslot. lia. }
    destruct (slot_rec (S l) p i q index d lv e nd rec (Hrec ltac:(lia)) Ht Hp Hnd He) as (d1 & lvx & e1 & Hrun & Hs);
      try (done || lia).
    { intros idx Hidx. apply Hz; [fold j in Hidx; lia |]. apply div_pw_iff in Hslot as Hsr.
      destruct (slot_of (S l) idx q i) as [-> _]; [lia | | done]. apply div_pw_iff. unfold part_end in Hidx. fold j in Hidx |- *. lia. }
    destruct (Hstep _ _ _ Hs) as (d' & lvx' & nd' & Hrun' & Hdone). exists d', lvx', nd'. split; [| done].
    fold j in Hrun. by rewrite (bind_Done _ _ _ _ _ Hrun).
Qed.

Lemma budget_node l q index : 1 + loop_budget l q index <= budget (S l) q index.
Proof.
  pose proof (pw_pos l). unfold loop_budget, budget.
  assert (Hm : index mod pw (S l) = 0 -> index mod pw l = 0).
  { intros [k Hk]%Z.mod_divide; [| pose proof (pw_pos (S l)); lia]. rewrite Hk, pw_S.
    replace (k * (512 * pw l)) with (k * 512 * pw l) by lia. apply Z_mod_mult. }
  destruct (T <=? index), (Z.eqb_spec (index mod pw (S l)) 0) as [H0 |], ((q + 1) * pw (S l) <=? T); cbn [orb];
    try rewrite (Hm H0); cbn [Z.eqb]; try case_match; lia.
Qed.

Lemma set_level_ok l : set_spec (S l) (phys_page_set_level l leaf).
Proof.
  induction l as [l IHl] using lt_wf_ind. intros d lv lp q e index Ht Hpos He HiT Hq Hroom Hz.
  pose proof (pw_pos l) as Hpw. apply div_pw_iff in Hq as Hqr.
  pose proof (budget_node l q index) as Hbn. pose proof (loop_budget_nonneg l q index) as Hlb.
  pose proof (pos_entry _ _ _ _ _ _ Ht Hpos He) as Hok.
  assert (Hs : skip e = 1) by (apply (open_entry d lv l q e index Hok), Hz; unfold part_end; lia).
  destruct (enter_ok d lv lp l q e Ht Hpos He Hs) as
    (p & d1 & lvx0 & e1 & nd & Hent & Ht1 & Hp & Hnd & Hl0 & He1 & Hs1 & Hp1 & Hpn & (Hr1 & Hm1 & Hfr1) & Hlook1);
    [unfold room_for in Hroom; lia | unfold room_for in Hroom; lia |].
  assert (Hlk : forall d' nd' idx e', nodes d' !! p = Some nd' -> nd' !! slot l idx = Some e' ->
    look (S l) (nodes d') e1 idx = look l (nodes d') e' idx).
  { intros d' nd' idx e' Hd' He'. by apply (look_node l _ e1 p nd'). }
  destruct (typed_node d1 _ p _ Ht1 Hp) as (x & Hx & Hlen & _). rewrite Hnd in Hx. injection Hx as <-.
  destruct (set_loop_ok l (match l with O => λ _ _ _, halt OutOfBounds | S l0 => phys_page_set_level l0 leaf end)) with
    (k := (512 - slot l index)%nat) (i := slot l index) (d := d1) (lv := lv ++ lvx0) (p := p) (q := q) (nd := nd) (index := index)
    as (d2 & lvx & nd2 & Hrun & Ht2 & Hl2 & Hp2 & Hr2 & Hm2 & Hfr2 & Hlook2); try done.
  { intros Hl. destruct l as [|l]; [done |]. apply IHl. lia. }
  { pose proof (slot_lt l index). lia. }
  { unfold part_end. lia. }
  { intros _. by apply slot_prefix. }
  { apply (room_after (budget (S l) q index) _ lv lvx0 d); try done. lia. }
  { intros idx e' Hidx He'. rewrite <- (Hlk d1 nd idx e' Hnd He').
    rewrite Hlook1 by (apply div_pw_iff; unfold part_end in Hidx; lia). by apply Hz. }
  assert (Hlp : match lp with Root => True | At m _ => m <> p /\ ~ below (lv ++ lvx0) (S l) q m end).
  { destruct lp as [|m i]; [done |]. destruct Hpos as (qn & Hm & _). apply (lookup_app_l_Some _ lvx0) in Hm. split.
    - intros ->. rewrite Hp in Hm. injection Hm as Hll _. lia.
    - intros (l' & q' & Hm' & Hl' & _). rewrite Hm in Hm'. injection Hm' as <- _. lia. }
  exists d2, (lvx0 ++ lvx), e1. rewrite app_assoc. split; [| split; [| split; [| split; [| split]]]].
  - destruct l as [|l]; cbn [phys_page_set_level]; rewrite (bind_Done _ _ _ _ _ Hent); cbv zeta; rewrite slot_spec, Z.shiftl_1_l;
      (replace (2 ^ (_ * P_L2_BITS)) with (pw 0) by done) || (replace (2 ^ (_ * P_L2_BITS)) with (pw (S l)) by (unfold pw, P_L2_BITS; f_equal; lia)); exact Hrun.
  - done.
  - rewrite length_app. lia.
  - destruct lp as [|m i]; cbn in He1 |- *; [congruence |]. destruct Hlp as [Hmp Hmb].
    destruct (nodes d1 !! m) as [x |] eqn:Hx; [| done]. by rewrite (Hfr2 m x).
  - split; [congruence |]. split; [destruct lp; congruence |]. intros n x Hx Hb.
    pose proof (typed_length _ _ Ht) as Hlen'. apply lookup_lt_Some in Hx as Hxl.
    apply Hfr2; [| apply (Hfr1 n x Hx); cbv beta; tauto |].
    + intros ->. apply Hb. exists l, q. rewrite lookup_app_l in Hp by lia. split; [done |]. split; [lia |].
      rewrite Nat.sub_diag. apply Z.div_1_r.
    + intros (l' & q' & Hn & Hl' & Hq'). apply Hb. exists l', q'. by rewrite lookup_app_l in Hn by lia.
  - intros idx Hidx. destruct (lookup_lt_is_Some_2 nd (slot l idx)) as [e' He']; [rewrite Hlen; apply slot_lt |].
    destruct (Hlook2 idx e' Hidx He') as (e2 & He2 & Hl). rewrite (Hlk d2 nd2 idx e2 Hp2 He2), Hl.
    by rewrite <- (Hlk d1 nd idx e' Hnd He'), Hlook1.
Qed.

End SetRange.

(** ** The tree as a map from pages to sections *)

Definition page_section (d : AddressSpaceDispatch) (idx : Z) : option Z := look 6 (nodes d) (phys_map d) idx.

(** The array of nodes is small enough for its counters. *)
Definition counters_ok (d : AddressSpaceDispatch) : Prop :=
  Z.of_nat (length (nodes d)) + 3 * P_L2_LEVELS <= 2 ^ 25 /\ 0 <= nodes_nb_alloc d <= 2 ^ 26.

Lemma reserve_run d :
  counters_ok d ->
  exists a, phys_map_node_reserve (3 * P_L2_LEVELS) d = Done () (d <| nodes_nb_alloc := a |>) [] /\
    Z.of_nat (length (nodes d)) + 18 <= a /\ 0 <= a <= 2 ^ 26.
Proof.
  intros [Hn Ha]. change (3 * P_L2_LEVELS) with 18 in *. unfold phys_map_node_reserve. rewrite bind_get. cbv zeta.
  unfold u32. rewrite !(Z.mod_small (_ + 18)), (Z.mod_small (_ * 2)) by lia.
  destruct (Z.ltb_spec (nodes_nb_alloc d) (Z.of_nat (length (nodes d)) + 18)); cbn [when].
  - eexists. split; [reflexivity |]. lia.
  - exists (nodes_nb_alloc d). split; [by destruct d | lia].
Qed.

(** Entering a range of pages that have no section yet: the pages of the range and no
    others get the section, without stopping, with the nodes that have been
    reserved. *)
Lemma page_set_ok d lv index nb leaf :
  typed d lv -> counters_ok d -> 0 < leaf -> P leaf -> 0 <= index -> 0 < nb -> index + nb <= 2 ^ 54 ->
  (forall idx, index <= idx < index + nb -> page_section d idx = Some 0) ->
  exists d' lv', phys_page_set index nb leaf d = Done () d' [] /\ typed d' lv' /\
    (length (nodes d') <= length (nodes d) + 11)%nat /\ 0 <= nodes_nb_alloc d' <= 2 ^ 26 /\
    sections_nb_alloc d' = sections_nb_alloc d /\ sections d' = sections d /\ subpages d' = subpages d /\
    (forall idx, 0 <= idx < 2 ^ 54 ->
       page_section d' idx = if (index <=? idx) && (idx <? index + nb) then Some leaf else page_section d idx).
Proof.
  intros Ht Hc Hleaf HPl Hi Hnb HT Hz. destruct (reserve_run d Hc) as (a & Hres & Ha & Haw).
  set (d0 := d <| nodes_nb_alloc := a |>) in *.
  assert (Ht0 : typed d0 lv) by (destruct Ht; by constructor).
  assert (Hdiv : forall idx, 0 <= idx < 2 ^ 54 -> idx / pw 6 = 0) by (intros idx Hidx; apply Z.div_small; exact Hidx).
  assert (HE : part_end (index + nb) 6 0 = index + nb) by (unfold part_end; change (pw 6) with (2 ^ 54); lia).
  assert (Hb : budget (index + nb) 6 0 index <= 11) by (unfold budget; case_match; lia).
  destruct (set_level_ok (index + nb) leaf Hleaf HPl HT 5 d0 lv Root 0 (phys_map d) index) as
    (d' & lvx & e' & Hrun & Ht' & Hlen & He' & (Hr & _) & Hlook); try done.
  - lia.
  - apply Hdiv. lia.
  - unfold room_for. change (nodes_nb_alloc d0) with a. change (nodes d0) with (nodes d).
    destruct Hc as [Hc _]. change (3 * P_L2_LEVELS) with 18 in Hc. change PHYS_MAP_NODE_NIL with (2 ^ 26 - 1). lia.
  - intros idx Hidx. apply Hz. lia.
  - injection He' as <-. unfold rest in Hr. injection Hr as Hr1 Hr2 Hr3 Hr4.
    exists d', (lv ++ lvx). split.
    { unfold phys_page_set. rewrite (bind_Done _ _ _ _ _ Hres). replace (index + nb - index) with nb in Hrun by lia.
      change (Z.to_nat (P_L2_LEVELS - 1)) with 5%nat. by rewrite (bind_Done _ _ _ _ _ Hrun). }
    split; [done |]. split.
    { apply typed_length in Ht', Ht0. rewrite length_app in Ht'. change (nodes d0) with (nodes d) in Ht0. lia. }
    split; [rewrite Hr1; exact Haw |]. do 3 (split; [done |]).
    intros idx Hidx. unfold page_section. rewrite Hlook by by apply Hdiv. unfold set_to. by rewrite HE.
Qed.

End Typed.

(** ** Compaction changes no lookup

    With skips the nodes keep their levels ([rk]); an entry leads to a node as many
    levels down as it says. *)

Section Compact.
  Context (P : Z → Prop) (HP0 : P PHYS_SECTION_UNASSIGNED) (HPnil : forall v, P v -> v <> PHYS_MAP_NODE_NIL).

Definition ranked_entry (rk : list nat) (l : nat) (e : PhysPageEntry) : Prop :=
  (skip e = 0 /\ P (ptr e)) \/
  (1 <= skip e <= Z.of_nat l /\
     (ptr e = PHYS_MAP_NODE_NIL \/
      exists c r, ptr e = Z.of_nat c /\ Z.of_nat c < PHYS_MAP_NODE_NIL /\ rk !! c = Some r /\ Z.of_nat r + skip e = Z.of_nat l)).

Definition rank_of (rk : list nat) (lp : lpos) (l : nat) : Prop :=
  match lp with Root => l = 6%nat | At n _ => rk !! n = Some l end.

Record ranked (d : AddressSpaceDispatch) (rk : list nat) : Prop := {
  ranked_entries : forall lp l e, rank_of rk lp l -> entry_at d lp = Some e -> ranked_entry rk l e;
  ranked_length : Forall (λ nd : Node, length nd = 512%nat) (nodes d);
  ranked_nodes : length rk = length (nodes d)
}.

Lemma typed_ranked d lv : typed P d lv -> ranked d (fst <$> lv).
Proof.
  intros Ht. assert (Hent : forall l q e, entry_ok P lv l q e -> ranked_entry (fst <$> lv) l e).
  { intros l q e [(Hs & Hp & _) | (Hs & l' & -> & [Hn | (c & Hp & Hc & Hl)])]; [by left | right | right];
      (split; [lia |]); [by left |]. right. exists c, l'. rewrite list_lookup_fmap, Hl. do 3 (split; [done |]). lia. }
  constructor.
  - intros [|n i] l e Hr He; cbn in Hr.
    + subst l. apply (Hent 6%nat 0), (pos_entry P d lv Root); done.
    + rewrite list_lookup_fmap in Hr. destruct (lv !! n) as [[l' q] |] eqn:Hn; [| done]. injection Hr as <-.
      apply (Hent l' (q * 512 + Z.of_nat i)), (pos_entry P d lv (At n i)); [done | by exists q | done].
  - apply Forall_lookup. intros n nd Hnd. destruct Ht as [_ Hn].
    destruct (Forall2_lookup_r _ _ _ _ _ Hn Hnd) as (x & _ & Hok & _). done.
  - rewrite length_fmap. by apply (typed_length P).
Qed.

Lemma node_entry d rk c r idx :
  ranked d rk -> rk !! c = Some r ->
  exists e, entry_at d (At c (slot r idx)) = Some e.
Proof.
  intros Hr Hc. pose proof (ranked_nodes _ _ Hr) as Hlen. apply lookup_lt_Some in Hc as Hlt. rewrite Hlen in Hlt.
  destruct (lookup_lt_is_Some_2 _ _ Hlt) as [nd Hnd]. cbn. rewrite Hnd. cbn. apply lookup_lt_is_Some_2.
  rewrite (proj1 (Forall_lookup _ _) (ranked_length _ _ Hr) _ _ Hnd). apply slot_lt.
Qed.

(** Fuel beyond what is needed does not matter. *)
Lemma find_more ns idx f : forall e i f' x,
  find_loop f ns e i idx = Some x -> (f <= f')%nat -> find_loop f' ns e i idx = Some x.
Proof.
  induction f as [|f IH]; intros e i f' x; cbn [find_loop].
  - destruct (cbool (skip e) && (0 <=? i - skip e)) eqn:Hc; [done |]. intros Hx _.
    destruct f'; cbn [find_loop]; by rewrite Hc.
  - intros Hx Hf. destruct f' as [|f']; [lia |]. cbn [find_loop].
    destruct (cbool (skip e) && (0 <=? i - skip e)); [| done]. case_match; [done |].
    destruct (ns !! Z.to_nat (ptr e)) as [nd |]; [| done]. cbn [mbind option_bind] in Hx |- *.
    destruct (nd !! _) as [e' |]; [| done]. cbn [mbind option_bind] in Hx |- *. apply IH; [done | lia].
Qed.

(** A step of the walk. *)
Lemma look_step d rk l e c r e' idx v :
  ranked d rk -> 1 <= skip e -> ptr e = Z.of_nat c -> Z.of_nat c < PHYS_MAP_NODE_NIL -> rk !! c = Some r ->
  Z.of_nat r + skip e = Z.of_nat l -> entry_at d (At c (slot r idx)) = Some e' ->
  look r (nodes d) e' idx = Some v -> look l (nodes d) e idx = Some v.
Proof.
  intros Hr Hs Hp Hc Hrk Hl He' Hv. unfold look in *. destruct l as [|l]; [lia |]. cbn [find_loop].
  replace (cbool (skip e)) with true by (symmetry; apply negb_true_iff, Z.eqb_neq; lia).
  rewrite (proj2 (Z.leb_le 0 _)) by lia. cbn [andb]. rewrite Hp, (proj2 (Z.eqb_neq _ _)) by lia. rewrite Nat2Z.id.
  cbn [entry_at] in He'. destruct (nodes d !! c) as [nd |]; [| done]. cbn [mbind option_bind] in He' |- *.
  replace (Z.of_nat (S l) - skip e) with (Z.of_nat r) by lia. rewrite slot_spec, He'. cbn [mbind option_bind].
  destruct (find_loop r (nodes d) e' (Z.of_nat r) idx) as [x |] eqn:Hx; [| done].
  by rewrite (find_more _ _ _ _ _ l x Hx) by lia.
Qed.

Lemma look_nil_entry l ns e idx : 1 <= skip e <= Z.of_nat l -> ptr e = PHYS_MAP_NODE_NIL -> look l ns e idx = Some 0.
Proof.
  intros Hs Hp. unfold look. destruct l as [|l]; [lia |]. cbn [find_loop].
  replace (cbool (skip e)) with true by (symmetry; apply negb_true_iff, Z.eqb_neq; lia).
  rewrite (proj2 (Z.leb_le 0 _)) by lia. by rewrite Hp.
Qed.

(** Every lookup ends at a section. *)
Lemma look_ranked d rk idx : ranked d rk -> forall l lp e,
  rank_of rk lp l -> entry_at d lp = Some e -> exists v, look l (nodes d) e idx = Some v /\ P v.
Proof.
  intros Hr l. induction l as [l IH] using lt_wf_ind. intros lp e Hl He.
  destruct (ranked_entries _ _ Hr lp l e Hl He) as [[Hs Hp] | [Hs [Hn | (c & r & Hp & Hc & Hrk & Hlr)]]].
  - exists (ptr e). by rewrite look_leaf.
  - exists 0. by rewrite look_nil_entry.
  - destruct (node_entry d rk c r idx Hr Hrk) as [e' He'].
    destruct (IH r ltac:(lia) (At c (slot r idx)) e') as (v & Hv & HPv); [done | done |].
    exists v. split; [| done]. eapply look_step; done || lia.
Qed.

(** *** One entry that skips a node *)

Definition collapsed (e c : PhysPageEntry) : PhysPageEntry :=
  if cbool (skip c) then mkEntry ((skip e + skip c) mod 2 ^ 6) (ptr c) else mkEntry 0 (ptr c).

Lemma entry_set_ne d lp e x : lp <> x -> entry_at (set_entry lp e d) x = entry_at d x.
Proof.
  intros Hne. destruct lp as [|n i], x as [|m j]; try done. cbn. rewrite list_lookup_alter.
  destruct (decide (n = m)) as [-> |]; [| done]. destruct (nodes d !! m) as [nd |]; [| done]. cbn.
  apply list_lookup_insert_ne. congruence.
Qed.

Lemma set_entry_ranked d rk lp l e e0 :
  ranked d rk -> rank_of rk lp l -> entry_at d lp = Some e0 -> ranked_entry rk l e -> ranked (set_entry lp e d) rk.
Proof.
  intros Hr Hl He0 He. constructor.
  - intros x lx ex Hlx Hex. destruct (decide (lp = x)) as [<- | Hne].
    + rewrite (entry_set _ _ _ e0) in Hex by done. injection Hex as <-.
      assert (lx = l) as -> by (destruct lp; cbn in *; congruence). done.
    + rewrite entry_set_ne in Hex by done. by apply (ranked_entries _ _ Hr x).
  - destruct lp as [|n i]; [apply Hr |]. cbn. apply Forall_alter; [apply Hr |]. intros nd _ Hlen. by rewrite length_insert.
  - rewrite set_entry_length. apply Hr.
Qed.

(** The entry [e] at [lp] leads to a node with one child only. *)
Record single_child (d : AddressSpaceDispatch) (rk : list nat) (lp : lpos) (l : nat) (e : PhysPageEntry) (c r v : nat)
    (ce : PhysPageEntry) : Prop := {
  sc_rank : rank_of rk lp l;
  sc_entry : entry_at d lp = Some e;
  sc_skip : 1 <= skip e;
  sc_ptr : ptr e = Z.of_nat c;
  sc_lt : Z.of_nat c < PHYS_MAP_NODE_NIL;
  sc_node : rk !! c = Some r;
  sc_level : Z.of_nat r + skip e = Z.of_nat l;
  sc_child : entry_at d (At c v) = Some ce;
  sc_valid : ptr ce <> PHYS_MAP_NODE_NIL;
  sc_others : forall i e', i <> v -> entry_at d (At c i) = Some e' -> ptr e' = PHYS_MAP_NODE_NIL;
  sc_fits : skip e + skip ce < 8
}.

Lemma collapsed_ranked d rk lp l e c r v ce :
  ranked d rk -> single_child d rk lp l e c r v ce -> ranked_entry rk l (collapsed e ce).
Proof.
  intros Hr [Hl He Hs Hp Hc Hrk Hlev Hce Hv _ Hfit]. unfold collapsed.
  destruct (ranked_entries _ _ Hr (At c v) r ce Hrk Hce) as [[Hs0 HP] | [Hsc [Hn | (c' & r' & Hp' & Hc' & Hrk' & Hlev')]]].
  - rewrite Hs0. left. done.
  - done.
  - replace (cbool (skip ce)) with true by (symmetry; apply negb_true_iff, Z.eqb_neq; lia).
    rewrite Z.mod_small by lia. right. cbn. split; [lia |]. right. exists c', r'. do 3 (split; [done |]). lia.
Qed.

(** A lookup after the change: the same section, or a section of the tree instead of
    none. *)
Lemma collapse_look d rk lp l e c r v ce idx :
  ranked d rk -> single_child d rk lp l e c r v ce ->
  let d2 := set_entry lp (collapsed e ce) d in
  forall lx x ex ex2, rank_of rk x lx -> entry_at d x = Some ex -> entry_at d2 x = Some ex2 ->
  exists w, look lx (nodes d2) ex2 idx = Some w /\ P w /\
    (look lx (nodes d) ex idx = Some w \/ look lx (nodes d) ex idx = Some 0).
Proof.
  intros Hr Hsc d2. pose proof (collapsed_ranked _ _ _ _ _ _ _ _ _ Hr Hsc) as Hcr.
  pose proof Hsc as [Hl He Hs Hp Hc Hrk Hlev Hce Hv Hoth Hfit].
  assert (Hr2 : ranked d2 rk) by by apply (set_entry_ranked d rk lp l _ e).
  intros lx. induction lx as [lx IH] using lt_wf_ind. intros x ex ex2 Hlx Hex Hex2.
  destruct (look_ranked d2 rk idx Hr2 lx x ex2 Hlx Hex2) as (w & Hw & HPw). exists w. split; [done |]. split; [done |].
  assert (Hgo : forall e0 c0 r0 d0 e0', ranked d0 rk -> 1 <= skip e0 -> ptr e0 = Z.of_nat c0 -> Z.of_nat c0 < PHYS_MAP_NODE_NIL ->
    rk !! c0 = Some r0 -> Z.of_nat r0 + skip e0 = Z.of_nat lx -> entry_at d0 (At c0 (slot r0 idx)) = Some e0' ->
    look lx (nodes d0) e0 idx = look r0 (nodes d0) e0' idx).
  { intros e0 c0 r0 d0 e0' Hr0 Hs0 Hp0 Hc0 Hrk0 Hlev0 He0.
    destruct (look_ranked d0 rk idx Hr0 r0 (At c0 (slot r0 idx)) e0' Hrk0 He0) as (u & Hu & _). rewrite Hu.
    by apply (look_step d0 rk lx e0 c0 r0 e0' idx u). }
  destruct (decide (lp = x)) as [<- | Hne].
  - assert (lx = l) as -> by (destruct lp; cbn in *; congruence). rewrite He in Hex. injection Hex as <-.
    unfold d2 in Hex2. rewrite (entry_set _ _ _ e) in Hex2 by done. injection Hex2 as <-.
    destruct (decide (slot r idx = v)) as [Hsv | Hsv].
    + rewrite (Hgo e c r d ce) by (done || by rewrite Hsv).
      destruct (ranked_entries _ _ Hr (At c v) r ce Hrk Hce) as [[Hs0 HP] | [Hsc' [Hn | (c' & r' & Hp' & Hc' & Hrk' & Hlev')]]].
      * left. rewrite <- Hw. unfold collapsed. rewrite Hs0. by rewrite !look_leaf.
      * done.
      * destruct (node_entry d rk c' r' idx Hr Hrk') as [e1 He1]. destruct (node_entry d2 rk c' r' idx Hr2 Hrk') as [e2 He2].
        assert (Hce2 : collapsed e ce = mkEntry (skip e + skip ce) (ptr ce)).
        { unfold collapsed. replace (cbool (skip ce)) with true by (symmetry; apply negb_true_iff, Z.eqb_neq; lia).
          by rewrite Z.mod_small by lia. }
        rewrite (Hgo _ c' r' d2 e2) in Hw by (rewrite ?Hce2; cbn [skip ptr]; done || lia).
        destruct (look_ranked d rk idx Hr r' (At c' (slot r' idx)) e1 Hrk' He1) as (u & Hu & _).
        rewrite (look_step d rk r ce c' r' e1 idx u) by (done || lia).
        destruct (IH r' ltac:(lia) (At c' (slot r' idx)) e1 e2 Hrk' He1 He2) as (w' & Hw' & _ & Hor). rewrite Hw in Hw'.
        injection Hw' as <-. by rewrite <- Hu.
    + right. destruct (node_entry d rk c r idx Hr Hrk) as [e' He'].
      rewrite (Hgo e c r d e') by done. apply look_nil_entry; [| by apply (Hoth (slot r idx))].
      destruct (ranked_entries _ _ Hr (At c (slot r idx)) r e' Hrk He') as [[_ HPe] | [Hs' _]]; [| done].
      by apply HPnil in HPe; rewrite (Hoth _ _ Hsv He') in HPe.
  - unfold d2 in Hex2. rewrite entry_set_ne, Hex in Hex2 by done. injection Hex2 as <-.
    destruct (ranked_entries _ _ Hr x lx ex Hlx Hex) as [[Hs0 HP] | [Hs0 [Hn | (c0 & r0 & Hp0 & Hc0 & Hrk0 & Hlev0)]]].
    + left. rewrite <- Hw. by rewrite !look_leaf.
    + left. rewrite <- Hw. by rewrite !look_nil_entry.
    + destruct (node_entry d rk c0 r0 idx Hr Hrk0) as [e1 He1]. destruct (node_entry d2 rk c0 r0 idx Hr2 Hrk0) as [e2 He2].
      rewrite (Hgo ex c0 r0 d e1) by (done || lia). rewrite (Hgo ex c0 r0 d2 e2) in Hw by (done || lia).
      destruct (IH r0 ltac:(lia) (At c0 (slot r0 idx)) e1 e2 Hrk0 He1 He2) as (w' & Hw' & _ & Hor). rewrite Hw in Hw'.
      by injection Hw' as <-.
Qed.

(** *** The whole tree *)

(** What lookups should find: [f] gives the section of an address, and a section that
    covers an address is the one that [f] gives. *)
  Context (f : Z → Z) (cov : Z → Z → bool).
  Hypothesis Hcov : forall v addr, P v -> v <> 0 -> 0 <= addr < 2 ^ 64 -> cov v addr = true -> f addr = v.

Definition checked (v addr : Z) : Z := if (v =? 0) || cov v addr then v else 0.

Definition resolves (d : AddressSpaceDispatch) : Prop :=
  forall addr, 0 <= addr < 2 ^ 64 ->
  exists v, page_section d (addr >> TARGET_PAGE_BITS) = Some v /\ checked v addr = f addr.

Lemma collapse_resolves d rk lp l e c r v ce :
  ranked d rk -> resolves d -> single_child d rk lp l e c r v ce -> resolves (set_entry lp (collapsed e ce) d).
Proof.
  intros Hr Hres Hsc addr Ha. destruct (Hres addr Ha) as (v0 & Hv0 & Hf).
  destruct (collapse_look d rk lp l e c r v ce (addr >> TARGET_PAGE_BITS) Hr Hsc 6 Root (phys_map d)
    (phys_map (set_entry lp (collapsed e ce) d))) as (w & Hw & HPw & Hor); try done.
  exists w. split; [done |]. unfold page_section in Hv0. destruct Hor as [Hw' | Hw']; rewrite Hv0 in Hw'; injection Hw' as ->; [done |].
  cbn in Hf. unfold checked. destruct (Z.eqb_spec w 0) as [-> | Hw0]; [done |]. cbn [orb].
  destruct (cov w addr) eqn:Hc; [| done]. by rewrite (Hcov w addr HPw Hw0 Ha Hc) in Hf.
Qed.

Definition empty_entry (d : AddressSpaceDispatch) (p j : nat) : Prop :=
  forall e, entry_at d (At p j) = Some e -> ptr e = PHYS_MAP_NODE_NIL.

Definition same_nil (d d' : AddressSpaceDispatch) (lp : lpos) : Prop :=
  forall e, entry_at d lp = Some e ->
  exists e', entry_at d' lp = Some e' /\ (ptr e' = PHYS_MAP_NODE_NIL <-> ptr e = PHYS_MAP_NODE_NIL).

(** What a step of the compaction keeps: the entries at level [l] and above, except
    those in [S]. *)
Definition compacted (rk : list nat) (l : nat) (S : lpos → Prop) (d d' : AddressSpaceDispatch) : Prop :=
  ranked d' rk /\ resolves d' /\ rest d' = rest d /\
  (forall x lx, rank_of rk x lx -> (l <= lx)%nat -> ~ S x -> entry_at d' x = entry_at d x) /\
  (forall x, S x -> same_nil d d' x).

Lemma compacted_refl rk l S d : ranked d rk -> resolves d -> compacted rk l S d d.
Proof. intros Hr Hd. do 3 (split; [done |]). split; [done |]. intros x _ e He. by exists e. Qed.

Lemma compacted_trans rk l (S1 S2 S : lpos → Prop) d d1 d2 :
  (forall x, S1 x \/ S2 x -> S x) -> (forall x, S x -> S1 x \/ S2 x) -> (forall x, S x -> exists lx, rank_of rk x lx /\ (l <= lx)%nat) ->
  (forall x, Decision (S1 x)) -> (forall x, Decision (S2 x)) ->
  compacted rk l S1 d d1 -> compacted rk l S2 d1 d2 -> compacted rk l S d d2.
Proof.
  intros HS HS' Hrk Hd1 Hd2 (_ & _ & Hrest1 & Hk1 & Hn1) (Hr2 & Hres2 & Hrest2 & Hk2 & Hn2).
  do 2 (split; [done |]). split; [congruence |]. split.
  - intros x lx Hx Hl Hns. rewrite (Hk2 x lx), (Hk1 x lx); [done | done | done | | done | done |]; intros H; apply Hns, HS; tauto.
  - intros x Hx e He. destruct (Hrk x Hx) as (lx & Hlx & Hl).
    assert (exists e1, entry_at d1 x = Some e1 /\ (ptr e1 = PHYS_MAP_NODE_NIL <-> ptr e = PHYS_MAP_NODE_NIL)) as (e1 & He1 & Hi1).
    { destruct (decide (S1 x)) as [H1 | H1]; [by apply Hn1 |]. exists e. by rewrite (Hk1 x lx). }
    assert (exists e2, entry_at d2 x = Some e2 /\ (ptr e2 = PHYS_MAP_NODE_NIL <-> ptr e1 = PHYS_MAP_NODE_NIL)) as (e2 & He2 & Hi2).
    { destruct (decide (S2 x)) as [H2 | H2]; [by apply Hn2 |]. exists e1. by rewrite (Hk2 x lx). }
    exists e2. split; [done |]. tauto.
Qed.

(** The entries [i], [i + 1], ... of a node. *)
Definition entries_from (p i : nat) (x : lpos) : Prop := match x with Root => False | At n j => n = p /\ (i <= j)%nat end.

#[local] Instance entries_from_dec p i x : Decision (entries_from p i x).
Proof. destruct x; cbn; apply _. Defined.

(** How many entries from [i] on are in use. *)
Definition counted (d : AddressSpaceDispatch) (p i : nat) (valid : Z) (vp : nat) (valid' : Z) (vp' : nat) : Prop :=
  (valid' = valid /\ vp' = vp /\ forall j, (i <= j)%nat -> empty_entry d p j) \/
  (valid' = valid + 1 /\ (i <= vp' < 512)%nat /\ ~ empty_entry d p vp' /\
     forall j, (i <= j)%nat -> j <> vp' -> empty_entry d p j) \/
  valid + 2 <= valid'.

Lemma same_nil_empty d d' p j : same_nil d d' (At p j) -> is_Some (entry_at d (At p j)) -> empty_entry d' p j <-> empty_entry d p j.
Proof.
  intros Hs [e He]. destruct (Hs e He) as (e' & He' & Hiff). split; intros Hemp x Hx.
  - rewrite He in Hx. injection Hx as <-. by apply Hiff, Hemp.
  - rewrite He' in Hx. injection Hx as <-. by apply Hiff, Hemp.
Qed.

Lemma entry_in_node d rk p r j : ranked d rk -> rk !! p = Some r -> (j < 512)%nat -> is_Some (entry_at d (At p j)).
Proof.
  intros Hr Hp Hj. pose proof (ranked_nodes _ _ Hr) as Hlen. apply lookup_lt_Some in Hp. rewrite Hlen in Hp.
  destruct (lookup_lt_is_Some_2 _ _ Hp) as [nd Hnd]. cbn. rewrite Hnd. cbn. apply lookup_lt_is_Some_2.
  by rewrite (proj1 (Forall_lookup _ _) (ranked_length _ _ Hr) _ _ Hnd).
Qed.

(** What compacting an entry of the level [l] does. *)
Definition compact_spec (rk : list nat) (l : nat) (g : lpos → PM unit) : Prop :=
  forall d lp e, ranked d rk -> resolves d -> rank_of rk lp l -> entry_at d lp = Some e -> 1 <= skip e ->
  exists d', g lp d = Done () d' [] /\ compacted rk l (λ x, x = lp) d d'.

Lemma compact_loop_ok rk p r g : rk !! p = Some r -> compact_spec rk r g ->
  forall k i d valid vp, (k + i = 512)%nat -> ranked d rk -> resolves d ->
  exists d' valid' vp', compact_loop g p k i valid vp d = Done (valid', vp') d' [] /\
    compacted rk r (entries_from p i) d d' /\ counted d p i valid vp valid' vp'.
Proof.
  intros Hp Hg. induction k as [|k IH]; intros i d valid vp Hk Hr Hres; cbn [compact_loop].
  { exists d, valid, vp. split; [done |]. split; [by apply compacted_refl |]. left. do 2 (split; [done |]).
    intros j Hj e He. exfalso. cbn in He. destruct (nodes d !! p) as [nd |] eqn:Hnd; [| done]. cbn in He.
    apply lookup_lt_Some in He. rewrite (proj1 (Forall_lookup _ _) (ranked_length _ _ Hr) _ _ Hnd) in He. lia. }
  destruct (entry_in_node d rk p r i Hr Hp ltac:(lia)) as [e He].
  rewrite (bind_Done _ _ _ _ _ (load_run _ _ _ He)).
  assert (Hsplit : forall x, entries_from p i x <-> x = At p i \/ entries_from p (S i) x).
  { intros [|n j]; cbn; [naive_solver |]. split.
    - intros [-> Hj]. destruct (decide (j = i)) as [-> |]; [by left | right; lia].
    - intros [Hx | Hx]; [injection Hx as -> ->; lia | lia]. }
  assert (Hranks : forall x, entries_from p i x -> exists lx, rank_of rk x lx /\ (r <= lx)%nat).
  { intros [|n j] Hx; [done |]. destruct Hx as [-> _]. by exists r. }
  destruct (Z.eqb_spec (ptr e) PHYS_MAP_NODE_NIL) as [Hnil | Hnil].
  - destruct (IH (S i) d valid vp ltac:(lia) Hr Hres) as (d' & valid' & vp' & Hrun & Hc & Hcnt).
    assert (Hei : empty_entry d p i) by (intros x Hx; congruence).
    exists d', valid', vp'. split; [done |]. split.
    + apply (compacted_trans rk r (λ x, x = At p i) (entries_from p (S i)) _ d d d'); try done.
      * intros x. by rewrite Hsplit.
      * intros x. by rewrite <- Hsplit.
      * intros x. apply _.
      * intros x. apply _.
      * by apply compacted_refl.
    + destruct Hcnt as [(-> & -> & Hemp) | [(-> & Hv & Hn & Hemp) | Hge]]; [left | right; left | right; right; lia].
      * do 2 (split; [done |]). intros j Hj. destruct (decide (j = i)) as [-> |]; [done | apply Hemp; lia].
      * do 2 (split; [done || lia |]). split; [done |]. intros j Hj Hne.
        destruct (decide (j = i)) as [-> |]; [done | apply Hemp; [lia | done]].
  - assert (Hone : exists d1, when (cbool (skip e)) (g (At p i)) d = Done () d1 [] /\ compacted rk r (λ x, x = At p i) d d1).
    { destruct (ranked_entries _ _ Hr (At p i) r e Hp He) as [[Hs _] | [Hs _]].
      - exists d. rewrite Hs. split; [done |]. by apply compacted_refl.
      - replace (cbool (skip e)) with true by (symmetry; apply negb_true_iff, Z.eqb_neq; lia).
        apply (Hg d (At p i) e); try done. lia. }
    destruct Hone as (d1 & Hrun1 & Hc1). rewrite (bind_Done _ _ _ _ _ Hrun1).
    pose proof Hc1 as (Hr1 & Hres1 & _ & Hkeep1 & _).
    destruct (IH (S i) d1 (valid + 1) i ltac:(lia) Hr1 Hres1) as (d' & valid' & vp' & Hrun & Hc & Hcnt).
    exists d', valid', vp'. split; [done |]. split.
    + apply (compacted_trans rk r (λ x, x = At p i) (entries_from p (S i)) _ d d1 d'); try done.
      * intros x. by rewrite Hsplit.
      * intros x. by rewrite <- Hsplit.
      * intros x. apply _.
      * intros x. apply _.
    + assert (Hsame : forall j, (S i <= j)%nat -> empty_entry d1 p j <-> empty_entry d p j).
      { intros j Hj. unfold empty_entry. rewrite (Hkeep1 (At p j) r); [done | done | done |]. injection 1. lia. }
      assert (Hne : ~ empty_entry d p i) by (intros H; by apply Hnil, H).
      destruct Hcnt as [(-> & -> & Hemp) | [(-> & _) | Hge]]; [right; left | right; right; lia | right; right; lia].
      do 2 (split; [done || lia |]). split; [done |]. intros j Hj Hji. apply Hsame, Hemp; lia.
Qed.

Lemma compact_ok rk fuel : forall l, (l <= fuel)%nat -> compact_spec rk l (phys_page_compact fuel).
Proof.
  induction fuel as [|fuel IH]; intros l Hf d lp e Hr Hres Hl He Hs.
  { destruct (ranked_entries _ _ Hr lp l e Hl He) as [[Hs0 _] | [Hs0 _]]; lia. }
  cbn [phys_page_compact]. rewrite (bind_Done _ _ _ _ _ (load_run _ _ _ He)).
  destruct (ranked_entries _ _ Hr lp l e Hl He) as [[Hs0 _] | [Hs0 [Hn | (c & r & Hp & Hc & Hrk & Hlev)]]]; [lia | |].
  { rewrite Hn, Z.eqb_refl. exists d. split; [done |]. by apply compacted_refl. }
  rewrite Hp, (proj2 (Z.eqb_neq _ _)) by lia. rewrite Nat2Z.id.
  destruct (compact_loop_ok rk c r (phys_page_compact fuel) Hrk (IH r ltac:(lia)) (Z.to_nat P_L2_SIZE) 0 d 0 (Z.to_nat P_L2_SIZE))
    as (d1 & valid & vp & Hrun & Hcd & Hcnt); [done | done | done |].
  rewrite (bind_Done _ _ _ _ _ Hrun). pose proof Hcd as (Hr1 & Hres1 & Hrest1 & Hkeep1 & Hnil1).
  assert (Hne : forall j, lp <> At c j).
  { intros j ->. cbn in Hl. rewrite Hrk in Hl. injection Hl as ->. lia. }
  assert (Hnf : ~ entries_from c 0 lp) by (destruct lp as [|n j]; cbn; [tauto |]; intros [-> _]; by apply (Hne j)).
  assert (He1 : entry_at d1 lp = Some e) by (rewrite (Hkeep1 lp l); [done | done | lia | done]).
  assert (Hdone : compacted rk l (λ x, x = lp) d d1).
  { do 3 (split; [done |]). split.
    - intros x lx Hx Hlx _. apply (Hkeep1 x lx); [done | lia |]. destruct x as [|n j]; cbn; [tauto |].
      intros [-> _]. cbn in Hx. rewrite Hrk in Hx. injection Hx as <-. lia.
    - intros x -> e0 He0. exists e. rewrite He in He0. by injection He0 as <-. }
  destruct (Z.eqb_spec valid 1) as [-> | Hv1]; cbn [negb]; [| by exists d1].
  destruct Hcnt as [[? _] | [(_ & Hvp & Hvne & Hemp) | ?]]; [lia | | lia].
  rewrite (proj2 (Z.ltb_lt _ _)) by (change P_L2_SIZE with 512; lia). cbn [assert_].
  rewrite (bind_Done (mret ()) _ _ _ _ eq_refl), (bind_Done _ _ _ _ _ (load_run _ _ _ He1)).
  assert (Hst : forall j, (j < 512)%nat -> empty_entry d1 c j <-> empty_entry d c j).
  { intros j Hj. apply same_nil_empty; [apply Hnil1; split; [done | lia] | by apply (entry_in_node d rk c r)]. }
  destruct (entry_in_node d1 rk c r vp Hr1 Hrk ltac:(lia)) as [ce Hce].
  rewrite (bind_Done _ _ _ _ _ (load_run _ _ _ Hce)). change (1 << 3) with 8.
  destruct (Z.leb_spec 8 (skip e + skip ce)) as [_ | Hfit]; [by exists d1 |].
  assert (Hsc : single_child d1 rk lp l e c r vp ce).
  { constructor; try done.
    - intros Hn. apply Hvne, (Hst vp ltac:(lia)). intros x Hx. congruence.
    - intros i e' Hi He'. assert (Hi5 : (i < 512)%nat).
      { cbn in He'. destruct (nodes d1 !! c) as [nd |] eqn:Hnd; [| done]. cbn in He'. apply lookup_lt_Some in He'.
        by rewrite (proj1 (Forall_lookup _ _) (ranked_length _ _ Hr1) _ _ Hnd) in He'. }
      assert (Hei : empty_entry d1 c i) by (apply (Hst i Hi5), Hemp; [lia | done]). by apply Hei. }
  exists (set_entry lp (collapsed e ce) d1). split.
  { unfold collapsed. destruct (cbool (skip ce)); cbn [negb]; by apply (store_run _ _ _ e). }
  split; [by apply (set_entry_ranked d1 rk lp l _ e), (collapsed_ranked d1 rk lp l e c r vp ce) |].
  split; [by apply (collapse_resolves d1 rk lp l e c r vp ce) |]. split; [by rewrite set_entry_rest |].
  destruct Hdone as (_ & _ & _ & Hkd & _). split.
  - intros x lx Hx Hlx Hxl. rewrite entry_set_ne by congruence. by apply (Hkd x lx).
  - intros x -> e0 He0. exists (collapsed e ce). split; [by apply (entry_set _ _ _ e) |].
    rewrite He in He0. injection He0 as <-. rewrite Hp. pose proof (sc_valid _ _ _ _ _ _ _ _ _ Hsc) as Hval.
    unfold collapsed. destruct (cbool (skip ce)); cbn; split; intros; congruence || lia.
Qed.

Lemma compact_all_ok d rk :
  ranked d rk -> resolves d ->
  exists d', phys_page_compact_all d = Done () d' [] /\ ranked d' rk /\ resolves d' /\ rest d' = rest d.
Proof.
  intros Hr Hres. unfold phys_page_compact_all. rewrite bind_get.
  destruct (ranked_entries _ _ Hr Root 6 (phys_map d)) as [[Hs _] | [Hs _]]; [done | done | |].
  - rewrite Hs. by exists d.
  - replace (cbool (skip (phys_map d))) with true by (symmetry; apply negb_true_iff, Z.eqb_neq; lia). cbn [when].
    destruct (compact_ok rk (S (Z.to_nat P_L2_LEVELS)) 6 (proj1 (Nat.leb_le 6 7) eq_refl) d Root (phys_map d)) as (d' & Hrun & Hr' & Hres' & Hrest & _);
      try (done || lia).
    by exists d'.
Qed.

End Compact.

Lemma typed_weaken (P Q : Z → Prop) d lv : (forall v, P v -> Q v) -> typed P d lv -> typed Q d lv.
Proof.
  intros HPQ [Hr Hn]. assert (Hent : forall l q e, entry_ok P lv l q e -> entry_ok Q lv l q e).
  { intros l q e [(Hs & Hp & Hl) | He]; [left; auto | by right]. }
  constructor; [by apply Hent |]. eapply Forall2_impl; [exact Hn |]. intros x nd [Hl He]. split; [done |]. auto.
Qed.

(** *** The lookup of an address *)

Definition covers (d : AddressSpaceDispatch) (v addr : Z) : bool :=
  match sections d !! Z.to_nat v with
  | None => false
  | Some s => cbool (ps_size s >> 64) || range_covers_byte (ps_offset_within_address_space s) (u64 (ps_size s)) addr
  end.

Lemma covers_rest d d' v addr : rest d' = rest d -> covers d' v addr = covers d v addr.
Proof. unfold rest, covers. intros Hr. injection Hr as _ _ Hs _. by rewrite Hs. Qed.

Lemma find_run d addr v :
  page_section d (addr >> TARGET_PAGE_BITS) = Some v -> is_Some (sections d !! Z.to_nat v) ->
  phys_page_find addr d = Done (checked (covers d) v addr) d [].
Proof.
  intros Hv [s Hs]. unfold phys_page_find, checked, covers. rewrite bind_get. unfold page_section, look in Hv.
  change (Z.to_nat P_L2_LEVELS) with 6%nat. change P_L2_LEVELS with (Z.of_nat 6).
  destruct (find_loop 6 (nodes d) (phys_map d) (Z.of_nat 6) (addr >> TARGET_PAGE_BITS)) as [[p |] |]; [| | done]; injection Hv as <-.
  - rewrite Hs. case_match; [by rewrite orb_true_r |]. rewrite orb_false_r. by destruct (Z.eqb_spec p 0) as [-> |].
  - done.
Qed.

(** The leaves of a tree refer to existing sections, and a section is found on
    every page that it covers. *)
Record sections_ok (P : Z → Prop) (d : AddressSpaceDispatch) : Prop := {
  so_zero : P PHYS_SECTION_UNASSIGNED;
  so_range : forall v, P v -> 0 <= v < 2 ^ 16 /\ is_Some (sections d !! Z.to_nat v);
  so_cover : forall v addr, P v -> v <> 0 -> 0 <= addr < 2 ^ 64 -> covers d v addr = true ->
    page_section d (addr >> TARGET_PAGE_BITS) = Some v
}.

Lemma page_section_P P d lv addr :
  typed P d lv -> sections_ok P d -> 0 <= addr < 2 ^ 64 -> exists v, page_section d (addr >> TARGET_PAGE_BITS) = Some v /\ P v.
Proof.
  intros Ht Hso Ha. apply (look_ranked P (so_zero P d Hso) d (fst <$> lv)) with (lp := Root); [by apply typed_ranked | done | done].
Qed.

Lemma compact_lookup P d lv :
  typed P d lv -> sections_ok P d ->
  exists d' rk, phys_page_compact_all d = Done () d' [] /\ rest d' = rest d /\ ranked P d' rk /\
    forall addr, 0 <= addr < 2 ^ 64 ->
      exists v, P v /\ phys_page_find addr d = Done v d [] /\ phys_page_find addr d' = Done v d' [].
Proof.
  intros Ht Hso. pose proof (typed_ranked P d lv Ht) as Hr.
  set (f := λ addr, match page_section d (addr >> TARGET_PAGE_BITS) with Some v => checked (covers d) v addr | None => 0 end).
  destruct (compact_all_ok P (so_zero P d Hso)) with (f := f) (cov := covers d) (d := d) (rk := fst <$> lv) as (d' & Hrun & Hr' & Hres & Hrest).
  - intros v [Hv _]%(so_range P d Hso). change PHYS_MAP_NODE_NIL with (2 ^ 26 - 1). lia.
  - intros v addr HP Hv0 Ha Hc. unfold f. rewrite (so_cover P d Hso v addr) by done. unfold checked. by rewrite Hc, orb_true_r.
  - done.
  - intros addr Ha. destruct (page_section_P P d lv addr Ht Hso Ha) as (v & Hv & _). exists v. split; [done |]. unfold f. by rewrite Hv.
  - exists d', (fst <$> lv). do 3 (split; [done |]). intros addr Ha.
    destruct (page_section_P P d lv addr Ht Hso Ha) as (v & Hv & HPv).
    destruct (Hres addr Ha) as (v' & Hv' & Hc).
    destruct (look_ranked P (so_zero P d Hso) d' (fst <$> lv) (addr >> TARGET_PAGE_BITS) Hr' 6 Root (phys_map d') eq_refl eq_refl) as (v2 & Hv2 & HPv').
    unfold page_section in Hv'. rewrite Hv' in Hv2. injection Hv2 as <-.
    destruct (so_range P d Hso v HPv) as [_ Hsv]. destruct (so_range P d Hso v' HPv') as [_ Hsv'].
    assert (Hs : sections d' = sections d) by (unfold rest in Hrest; by injection Hrest).
    exists (checked (covers d) v addr). split; [| split].
    + unfold checked. case_match; [done | apply Hso].
    + by apply find_run.
    + rewrite (find_run d' addr v'); [| done | by rewrite Hs].
      unfold f in Hc. rewrite Hv in Hc. rewrite <- Hc. unfold checked. by rewrite (covers_rest d d').
Qed.

(** Compacting the tree never stops and changes no
    lookup: whenever the leaves of the tree refer to existing sections and each of
    them is found on every page that its section covers, [phys_page_find] gives the
    same section for every address before and after [phys_page_compact_all]. *)
Theorem compaction_invisible P d lv :
  typed P d lv -> sections_ok P d ->
  exists d', phys_page_compact_all d = Done () d' [] /\ rest d' = rest d /\
    forall addr, 0 <= addr < 2 ^ 64 ->
      exists v, phys_page_find addr d = Done v d [] /\ phys_page_find addr d' = Done v d' [].
Proof.
  intros Ht Hso. destruct (compact_lookup P d lv Ht Hso) as (d' & rk & Hc & Hr & _ & Hf). exists d'.
  split; [done |]. split; [done |]. intros addr Ha. destruct (Hf addr Ha) as (v & _ & H1 & H2). by exists v.
Qed.

(** A dispatcher with one page. *)
Definition one_page : AddressSpaceDispatch :=
  mkDispatch (mkEntry 1 PHYS_MAP_NODE_NIL) 0 [] 16
    [mkPhysSection io_mem_unassigned 0 (2 ^ 64) 0 false; mkPhysSection (RegionMr 7) 0 1024 (5 * 1024) false] [].

Lemma one_page_set :
  exists d lv, phys_page_set 5 1 1 one_page = Done () d [] /\ typed (λ v, v = 0 \/ v = 1) d lv /\
    sections_ok (λ v, v = 0 \/ v = 1) d.
Proof.
  assert (Ht : typed (λ v, v = 0 \/ v = 1) one_page []).
  { constructor; [| constructor]. right. split; [done |]. exists 5%nat. auto. }
  destruct (page_set_ok (λ v, v = 0 \/ v = 1) (or_introl eq_refl) one_page [] 5 1 1 Ht) as
    (d & lv & Hrun & Ht' & _ & _ & _ & Hs & _ & Hpg); try lia.
  - unfold counters_ok. change (3 * P_L2_LEVELS) with 18. cbn. lia.
  - intros idx _. by apply look_nil.
  - exists d, lv. split; [done |]. split; [done |]. constructor.
    + by left.
    + intros v [-> | ->]; (split; [lia |]); rewrite Hs; by eexists.
    + intros v addr [-> | ->] Hv0 Ha; [done |].
      assert (Hc : covers d 1 addr = (5 * 1024 <=? addr) && (addr <=? 6 * 1024 - 1)) by (unfold covers; rewrite Hs; reflexivity).
      rewrite Hc. intros [H1%Z.leb_le H2%Z.leb_le]%andb_prop.
      unfold TARGET_PAGE_BITS. rewrite Z.shiftr_div_pow2 by lia. change (2 ^ 10) with 1024.
      assert (Hd : addr / 1024 = 5) by (symmetry; apply (Z.div_unique _ 1024 5 (addr - 5 * 1024)); lia).
      rewrite Hd, Hpg by lia. done.
Qed.

Lemma compaction_invisible_witness :
  exists d d', phys_page_set 5 1 1 one_page = Done () d [] /\ phys_page_compact_all d = Done () d' [] /\
    forall addr, 0 <= addr < 2 ^ 64 ->
      exists v, phys_page_find addr d = Done v d [] /\ phys_page_find addr d' = Done v d' [].
Proof.
  destruct one_page_set as (d & lv & Hrun & Ht & Hso).
  destruct (compaction_invisible (λ v, v = 0 \/ v = 1) d lv Ht Hso) as (d' & Hc & _ & Hf).
  exists d, d'. split; [exact Hrun |]. split; [exact Hc | exact Hf].
Defined.
