(* ===== verification/Dispatch.v ===== *)
(** * The memory dispatcher ([exec.c])

    For every address space a dispatcher maps physical addresses to sections of
    memory regions.  It is built anew whenever the flat view changes: [mem_begin]
    makes an empty one, [mem_add] enters a range of the view, split into whole pages
    and parts of pages, and [mem_commit] compacts the tree of [Physmap].  Pages that
    hold parts of several ranges go through a [subpage_t] with a section number per
    byte.  The theorems say that the dispatcher finds at every address what the flat
    view has there.

    The state of the functions is [as->next_dispatch].  References to regions are not
    counted. *)

From stdpp Require Import gmap.
From S2P Require Import Prelude Flatview Physmap.
Open Scope Z_scope.

(** [~TARGET_PAGE_MASK] as a [hwaddr] selects the offset in the page. *)
Definition TARGET_PAGE_MASK : Z := 2 ^ 64 - TARGET_PAGE_SIZE.
Definition TARGET_PAGE_ALIGN (addr : Z) : Z := u64 (addr + TARGET_PAGE_SIZE - 1) .& TARGET_PAGE_MASK.
Definition SUBPAGE_IDX (addr : Z) : Z := addr .& (TARGET_PAGE_SIZE - 1).

(** [int128_get64] of a size. *)
Definition get64 (x : Z) : PM Z := if (0 <=? x) && (x <? 2 ^ 64) then mret x else halt AssertFailed.

Definition get_section (v : Z) : PM PhysSection :=
  d ← get;
  match sections d !! Z.to_nat v with Some s => mret s | None => halt OutOfBounds end.

Definition phys_section_add (section : PhysSection) : PM Z :=
  d ← get;
  let nb := Z.of_nat (length (sections d)) in
  assert_ (nb <? TARGET_PAGE_SIZE) ;;
  when (nb =? sections_nb_alloc d)
    (modify (λ d, d <| sections_nb_alloc := Z.max (u32 (sections_nb_alloc d * 2)) 16 |>)) ;;
  d ← get;
  (if nb <? sections_nb_alloc d then modify (λ d, d <| sections := sections d ++ [section] |>) else halt OutOfBounds) ;;
  mret (u16 nb).

(** ** Pages with several sections *)

Fixpoint register_loop (n idx : nat) (section : Z) (l : list Z) : list Z :=
  match n with
  | O => l
  | S n => register_loop n (S idx) section (<[idx := section]> l)
  end.

Definition subpage_register (k : nat) (start end_ section : Z) : PM Z :=
  let start := u32 start in
  let end_ := u32 end_ in
  if (TARGET_PAGE_SIZE <=? start) || (TARGET_PAGE_SIZE <=? end_) then mret (-1)
  else
    let idx := SUBPAGE_IDX start in
    let eidx := SUBPAGE_IDX end_ in
    modify (λ d, d <| subpages :=
      alter (λ sp, sp <| sub_section := register_loop (Z.to_nat (eidx - idx + 1)) (Z.to_nat idx) section (sub_section sp) |>) k
        (subpages d) |>) ;;
    mret 0.

Definition subpage_init (base : Z) : PM nat :=
  d ← get;
  let k := length (subpages d) in
  modify (λ d, d <| subpages := subpages d ++ [mkSubpage base (replicate (Z.to_nat TARGET_PAGE_SIZE) 0)] |>) ;;
  _ ← subpage_register k 0 (TARGET_PAGE_SIZE - 1) PHYS_SECTION_UNASSIGNED;
  mret k.

Definition subpage_of (mr : phys_mr) : option nat := match mr with SubpageMr k => Some k | _ => None end.

Definition register_subpage (section : PhysSection) : PM unit :=
  let base := ps_offset_within_address_space section .& TARGET_PAGE_MASK in
  v ← phys_page_find base;
  existing ← get_section v;
  assert_ (bool_decide (is_Some (subpage_of (ps_mr existing))) || bool_decide (ps_mr existing = io_mem_unassigned)) ;;
  k ← match subpage_of (ps_mr existing) with
      | None =>
          k ← subpage_init base;
          n ← phys_section_add (mkPhysSection (SubpageMr k) 0 TARGET_PAGE_SIZE base false);
          phys_page_set (base >> TARGET_PAGE_BITS) 1 n ;;
          mret k
      | Some k => mret k
      end;
  let start := SUBPAGE_IDX (ps_offset_within_address_space section) in
  size ← get64 (ps_size section);
  let end_ := u64 (start + size - 1) in
  n ← phys_section_add section;
  _ ← subpage_register k start end_ n;
  mret ().

Definition register_multipage (section : PhysSection) : PM unit :=
  let start_addr := ps_offset_within_address_space section in
  section_index ← phys_section_add section;
  num_pages ← get64 (ps_size section >> TARGET_PAGE_BITS);
  assert_ (cbool num_pages) ;;
  phys_page_set (start_addr >> TARGET_PAGE_BITS) num_pages section_index.

(** ** The listener *)

(** The loop of [mem_add]; [done_] is the size of the part entered last. *)
Fixpoint mem_add_loop (fuel : nat) (remain : PhysSection) (done_ : Z) : PM unit :=
  if ps_size remain =? done_ then mret ()
  else
    match fuel with
    | O => halt OutOfFuel
    | S fuel =>
        n ← get64 done_;
        let remain := remain <| ps_size := ps_size remain - done_ |>
                        <| ps_offset_within_address_space := u64 (ps_offset_within_address_space remain + n) |>
                        <| ps_offset_within_region := u64 (ps_offset_within_region remain + n) |> in
        if ps_size remain <? TARGET_PAGE_SIZE then
          register_subpage remain ;; mem_add_loop fuel remain (ps_size remain)
        else if cbool (SUBPAGE_IDX (ps_offset_within_address_space remain)) then
          register_subpage (remain <| ps_size := TARGET_PAGE_SIZE |>) ;; mem_add_loop fuel remain TARGET_PAGE_SIZE
        else
          let size := ps_size remain .& - TARGET_PAGE_SIZE in
          register_multipage (remain <| ps_size := size |>) ;; mem_add_loop fuel remain size
    end.

Definition mem_add (section : PhysSection) : PM unit :=
  let off := ps_offset_within_address_space section in
  done_ ← (if cbool (SUBPAGE_IDX off) then
             let left := u64 (TARGET_PAGE_ALIGN off - off) in
             let now := section <| ps_size := Z.min left (ps_size section) |> in
             register_subpage now ;; mret (ps_size now)
           else mret 0);
  mem_add_loop 3 section done_.

Definition dummy_section (mr : phys_mr) : PM Z := phys_section_add (mkPhysSection mr 0 (2 ^ 64) 0 false).

Definition mem_begin : PM unit :=
  put (mkDispatch (mkEntry 0 0) 0 [] 0 [] []) ;;
  n ← dummy_section io_mem_unassigned;
  assert_ (n =? PHYS_SECTION_UNASSIGNED) ;;
  n ← dummy_section io_mem_notdirty;
  assert_ (n =? PHYS_SECTION_NOTDIRTY) ;;
  n ← dummy_section io_mem_rom;
  assert_ (n =? PHYS_SECTION_ROM) ;;
  n ← dummy_section io_mem_watch;
  assert_ (n =? PHYS_SECTION_WATCH) ;;
  modify (λ d, d <| phys_map := mkEntry 1 PHYS_MAP_NODE_NIL |>).

(** The dispatcher in use becomes the one that was built. *)
Definition mem_commit : PM unit := phys_page_compact_all.

(** What a listener is told about a range of a flat view. *)
Definition MEMORY_LISTENER_UPDATE_REGION (fr : FlatRange) : PhysSection :=
  mkPhysSection (RegionMr (fr_mr fr)) (fr_offset_in_region fr) (ar_size (fr_addr fr)) (ar_start (fr_addr fr)) (fr_readonly fr).

(** ** Lookup *)

Definition address_space_lookup_region (addr : Z) (resolve_subpage : bool) : PM Z :=
  v ← phys_page_find addr;
  section ← get_section v;
  match (if resolve_subpage then subpage_of (ps_mr section) else None) with
  | None => mret v
  | Some k =>
      d ← get;
      match (sp ← subpages d !! k; sub_section sp !! Z.to_nat (SUBPAGE_IDX addr)) with
      | Some w => mret w
      | None => halt OutOfBounds
      end
  end.

(** The section, the offset in its region and the length that can be accessed;
    [region_size] gives [mr->size] of the regions of the guest. *)
Definition mr_size_of (region_size : nat → Z) (mr : phys_mr) : Z :=
  match mr with
  | SubpageMr _ => TARGET_PAGE_SIZE
  | RegionMr r => region_size r
  | _ => 2 ^ 64
  end.

Definition address_space_translate_internal (region_size : nat → Z) (addr plen : Z) (resolve_subpage : bool) :
    PM (PhysSection * Z * Z) :=
  v ← address_space_lookup_region addr resolve_subpage;
  section ← get_section v;
  let addr := u64 (addr - ps_offset_within_address_space section) in
  let xlat := u64 (addr + ps_offset_within_region section) in
  let diff := mr_size_of region_size (ps_mr section) - addr in
  plen ← get64 (Z.min diff plen);
  mret (section, xlat, plen).

(** ** What the dispatcher says about an address *)

(** The target of an access through a section. *)
Definition reach (s : PhysSection) (addr : Z) : option (nat * Z * bool) :=
  match ps_mr s with
  | RegionMr r => Some (r, addr - ps_offset_within_address_space s + ps_offset_within_region s, ps_readonly s)
  | _ => None
  end.

Definition section_at (d : AddressSpaceDispatch) (addr : Z) : option PhysSection :=
  v ← page_section d (addr >> TARGET_PAGE_BITS);
  s ← sections d !! Z.to_nat v;
  match subpage_of (ps_mr s) with
  | None => Some s
  | Some k => sp ← subpages d !! k; w ← sub_section sp !! Z.to_nat (SUBPAGE_IDX addr); sections d !! Z.to_nat w
  end.

Notation target := (Z → option (nat * Z * bool)).

(** A byte of the section. *)
Definition within (s : PhysSection) (addr : Z) : bool :=
  (ps_offset_within_address_space s <=? addr) && (addr <? ps_offset_within_address_space s + ps_size s).

Definition enter (m : target) (s : PhysSection) : target := λ addr, if within s addr then reach s addr else m addr.

Definition is_region (s : PhysSection) : Prop := exists r, ps_mr s = RegionMr r.

(** A section that consists of whole pages. *)
Definition whole_pages (s : PhysSection) : Prop :=
  0 <= ps_offset_within_address_space s /\ ps_offset_within_address_space s mod 1024 = 0 /\
  0 < ps_size s /\ ps_size s mod 1024 = 0 /\ ps_offset_within_address_space s + ps_size s <= 2 ^ 64.

(** A section for whole pages: of a region, or a page with several sections.  Pages of
    the second kind are in use, except for [x]. *)
Definition page_sec (m : target) (x : Z) (d : AddressSpaceDispatch) (v : Z) (s : PhysSection) : Prop :=
  is_region s \/
  exists k sp, ps_mr s = SubpageMr k /\ subpages d !! k = Some sp /\ ps_size s = TARGET_PAGE_SIZE /\
    sp_base sp = ps_offset_within_address_space s /\ whole_pages s /\ length (sub_section sp) = 1024%nat /\
    (forall w, w ∈ sub_section sp -> w = 0 \/ exists s', sections d !! Z.to_nat w = Some s' /\ is_region s') /\
    (v <> x -> exists addr, 0 <= addr < 2 ^ 64 /\ addr >> TARGET_PAGE_BITS = sp_base sp >> TARGET_PAGE_BITS /\ m addr <> None).

Definition capacity (d : AddressSpaceDispatch) : Prop :=
  (4 <= length (sections d))%nat /\ (length (nodes d) <= 11 * length (sections d))%nat /\
  0 <= nodes_nb_alloc d <= 2 ^ 26 /\ Z.of_nat (length (sections d)) <= sections_nb_alloc d <= 2 ^ 11.

Record built (P : Z → Prop) (m : target) (x : Z) (d : AddressSpaceDispatch) : Prop := {
  built_typed : exists lv, typed P d lv;
  built_sections : sections_ok P d;
  built_found : forall v addr, P v -> v <> 0 -> 0 <= addr < 2 ^ 64 ->
    page_section d (addr >> TARGET_PAGE_BITS) = Some v -> covers d v addr = true;
  built_pages : forall v, P v -> v <> 0 -> exists s, sections d !! Z.to_nat v = Some s /\ page_sec m x d v s;
  built_zero : exists s, sections d !! 0%nat = Some s /\ ps_mr s = io_mem_unassigned;
  built_target : forall addr, 0 <= addr < 2 ^ 64 -> exists s, section_at d addr = Some s /\ reach s addr = m addr;
  built_capacity : capacity d
}.

(** *** Arithmetic of pages *)

Lemma page_div addr : addr >> TARGET_PAGE_BITS = addr / 1024.
Proof. unfold TARGET_PAGE_BITS. by rewrite Z.shiftr_div_pow2. Qed.

Lemma subpage_idx addr : SUBPAGE_IDX addr = addr mod 1024.
Proof. unfold SUBPAGE_IDX. change (TARGET_PAGE_SIZE - 1) with (Z.ones 10). by rewrite Z.land_ones. Qed.

Lemma page_base addr : 0 <= addr < 2 ^ 64 -> addr .& TARGET_PAGE_MASK = addr / 1024 * 1024.
Proof.
  intros Ha. change TARGET_PAGE_MASK with (Z.ldiff (Z.ones 64) (Z.ones 10)).
  trans (Z.ldiff addr (Z.ones 10)).
  - apply Z.bits_inj'. intros i Hi. rewrite Z.land_spec, !Z.ldiff_spec, !testbit_ones by lia.
    destruct (Z.ltb_spec i 64); [by rewrite andb_true_l |]. rewrite (testbit_high 64 addr) by lia. done.
  - rewrite Z.ldiff_ones_r, Z.shiftl_mul_pow2, Z.shiftr_div_pow2 by lia. done.
Qed.

Lemma covers_run d v s addr :
  sections d !! Z.to_nat v = Some s -> 0 <= addr < 2 ^ 64 -> 0 <= ps_offset_within_address_space s -> 0 < ps_size s ->
  ps_offset_within_address_space s + ps_size s <= 2 ^ 64 -> covers d v addr = within s addr.
Proof.
  intros Hs Ha Ho Hz He. unfold covers, within, range_covers_byte, range_get_last. rewrite Hs.
  rewrite Z.shiftr_div_pow2 by lia. destruct (decide (ps_size s = 2 ^ 64)) as [Hfull | Hne].
  - rewrite Hfull. change (cbool (2 ^ 64 / 2 ^ 64)) with true. cbn [orb].
    rewrite (proj2 (Z.leb_le _ _)), (proj2 (Z.ltb_lt _ _)) by lia. done.
  - rewrite Z.div_small by lia. change (cbool 0) with false. cbn [orb]. unfold u64.
    rewrite (Z.mod_small (ps_size s)), (Z.mod_small (_ - 1)) by lia.
    f_equal. destruct (Z.leb_spec addr (ps_offset_within_address_space s + ps_size s - 1)),
      (Z.ltb_spec addr (ps_offset_within_address_space s + ps_size s)); done || lia.
Qed.

(** *** Adding a section *)

Definition push_section (s : PhysSection) (d : AddressSpaceDispatch) (a : Z) : AddressSpaceDispatch :=
  d <| sections_nb_alloc := a |> <| sections := sections d ++ [s] |>.

Lemma section_add_run s d :
  capacity d -> (length (sections d) < 1024)%nat ->
  exists a, phys_section_add s d = Done (Z.of_nat (length (sections d))) (push_section s d a) [] /\
    Z.of_nat (length (sections d)) + 1 <= a <= 2 ^ 11.
Proof.
  intros (Hc & _ & _ & Hsa) Hlt. unfold phys_section_add. rewrite bind_get. cbv zeta.
  rewrite (proj2 (Z.ltb_lt _ TARGET_PAGE_SIZE)) by (change TARGET_PAGE_SIZE with 1024; lia). cbn [assert_].
  rewrite (bind_Done (mret ()) _ _ _ _ eq_refl).
  assert (Hu : u16 (Z.of_nat (length (sections d))) = Z.of_nat (length (sections d))) by (apply Z.mod_small; lia). rewrite Hu.
  destruct (Z.eqb_spec (Z.of_nat (length (sections d))) (sections_nb_alloc d)) as [Heq | Hne]; cbn [when].
  - assert (Ha : Z.max (u32 (sections_nb_alloc d * 2)) 16 = Z.max (sections_nb_alloc d * 2) 16)
      by (unfold u32; by rewrite Z.mod_small by lia).
    rewrite bind_modify, bind_get. set (a := Z.max (u32 _) 16) in *. clearbody a. exists a.
    change (sections_nb_alloc (d <| sections_nb_alloc := a |>)) with a. rewrite (proj2 (Z.ltb_lt _ _)) by lia.
    split; [done | lia].
  - exists (sections_nb_alloc d). rewrite (bind_Done (mret ()) _ _ _ _ eq_refl), bind_get.
    rewrite (proj2 (Z.ltb_lt _ _)) by lia. split; [| lia]. by destruct d.
Qed.

Lemma push_typed_section P d lv s a : typed P d lv -> typed P (push_section s d a) lv.
Proof. intros [H1 H2]. by constructor. Qed.

Lemma push_capacity d s a :
  capacity d -> Z.of_nat (length (sections d)) + 1 <= a <= 2 ^ 11 -> capacity (push_section s d a).
Proof. intros (H1 & H2 & H3 & H4) Ha. unfold capacity. cbn. rewrite length_app. cbn. lia. Qed.

Lemma section_old d s a v s0 : sections d !! v = Some s0 -> sections (push_section s d a) !! v = Some s0.
Proof. intros Hv. cbn. by apply lookup_app_l_Some. Qed.

Lemma section_new d s a : sections (push_section s d a) !! length (sections d) = Some s.
Proof. cbn. by apply list_lookup_middle. Qed.

(** [d'] has at least the sections and the pages with several sections of [d]. *)
Definition grown (d d' : AddressSpaceDispatch) : Prop :=
  forall v s, sections d !! v = Some s -> sections d' !! v = Some s.

Lemma covers_grown P d d' v addr : grown d d' -> sections_ok P d -> P v -> covers d' v addr = covers d v addr.
Proof.
  intros Hg Hso HP. destruct (so_range _ _ Hso v HP) as [_ [s Hs]]. unfold covers. by rewrite Hs, (Hg _ _ Hs).
Qed.

(** *** Entering whole pages *)

Definition page_in (s : PhysSection) (idx : Z) : bool :=
  (ps_offset_within_address_space s / 1024 <=? idx) && (idx <? (ps_offset_within_address_space s + ps_size s) / 1024).

Lemma whole_within s addr : whole_pages s -> within s addr = page_in s (addr / 1024).
Proof.
  intros (Ho & Hoa & Hs & Hsa & He). unfold within, page_in.
  pose proof (Z.div_mod (ps_offset_within_address_space s) 1024). pose proof (Z.div_mod (ps_size s) 1024).
  pose proof (Z.div_mod addr 1024). pose proof (Z.mod_pos_bound addr 1024).
  assert ((ps_offset_within_address_space s + ps_size s) / 1024 = ps_offset_within_address_space s / 1024 + ps_size s / 1024).
  { symmetry. apply (Z.div_unique _ 1024 _ 0); lia. }
  destruct (Z.leb_spec (ps_offset_within_address_space s) addr), (Z.ltb_spec addr (ps_offset_within_address_space s + ps_size s)),
    (Z.leb_spec (ps_offset_within_address_space s / 1024) (addr / 1024)),
    (Z.ltb_spec (addr / 1024) ((ps_offset_within_address_space s + ps_size s) / 1024)); done || lia.
Qed.

(** The new section [v] has been entered for its pages. *)
Record pages_set (P : Z → Prop) (s : PhysSection) (d d' : AddressSpaceDispatch) : Prop := {
  pst_typed : exists lv, typed (λ w, P w \/ w = Z.of_nat (length (sections d))) d' lv;
  pst_pages : forall idx, 0 <= idx < 2 ^ 54 ->
    page_section d' idx = if page_in s idx then Some (Z.of_nat (length (sections d))) else page_section d idx;
  pst_sections : sections d' = sections d ++ [s];
  pst_subpages : subpages d' = subpages d;
  pst_capacity : capacity d'
}.

Lemma set_pages_run P d lv s a :
  typed P d lv -> P 0 -> capacity d -> (length (sections d) < 1024)%nat ->
  Z.of_nat (length (sections d)) + 1 <= a <= 2 ^ 11 -> whole_pages s ->
  (forall idx, page_in s idx = true -> page_section d idx = Some 0) ->
  exists d', phys_page_set (ps_offset_within_address_space s >> TARGET_PAGE_BITS) (ps_size s / 1024)
               (Z.of_nat (length (sections d))) (push_section s d a) = Done () d' [] /\ pages_set P s d d'.
Proof.
  intros Ht HP0 Hc Hlt Ha (Ho & Hoa & Hs & Hsa & He) Hz.
  set (v := Z.of_nat (length (sections d))). set (Q := λ w, P w \/ w = v).
  pose proof Hc as (Hc1 & Hc2 & Hc3 & Hc4).
  pose proof (Z.div_mod (ps_offset_within_address_space s) 1024) as Hdo. pose proof (Z.div_mod (ps_size s) 1024) as Hds.
  assert (Hend : (ps_offset_within_address_space s + ps_size s) / 1024 =
    ps_offset_within_address_space s / 1024 + ps_size s / 1024) by (symmetry; apply (Z.div_unique _ 1024 _ 0); lia).
  destruct (page_set_ok Q (or_introl HP0) (push_section s d a) lv (ps_offset_within_address_space s >> TARGET_PAGE_BITS)
    (ps_size s / 1024) v) as (d' & lv' & Hrun & Ht' & Hlen & Hna & Hsa' & Hsec & Hsub & Hpg); rewrite ?page_div; try lia.
  - apply (typed_weaken P); [by left | by apply push_typed_section].
  - unfold counters_ok. cbn. change (3 * P_L2_LEVELS) with 18. lia.
  - by right.
  - intros idx Hidx. apply Hz. unfold page_in. rewrite (proj2 (Z.leb_le _ _)), (proj2 (Z.ltb_lt _ _)) by lia. done.
  - exists d'. rewrite page_div in Hrun. split; [done |]. constructor.
    + by exists lv'.
    + intros idx Hidx. rewrite Hpg, page_div by done. unfold page_in. by rewrite Hend.
    + done.
    + done.
    + unfold capacity. rewrite Hsec, Hsa'. cbn in Hlen |- *. rewrite length_app. cbn. lia.
Qed.

Lemma page_range addr : 0 <= addr < 2 ^ 64 -> 0 <= addr / 1024 < 2 ^ 54.
Proof. intros Ha. split; [apply Z.div_pos; lia | apply Z.div_lt_upper_bound; lia]. Qed.

Lemma built_enter P m m' x x' s d d' :
  built P m x d -> pages_set P s d d' -> whole_pages s -> (length (sections d) < 1024)%nat ->
  (forall idx, page_in s idx = true -> page_section d idx = Some 0) ->
  page_sec m' x' d' (Z.of_nat (length (sections d))) s ->
  (forall v s0, P v -> v <> 0 -> sections d !! Z.to_nat v = Some s0 -> page_sec m x d v s0 -> page_sec m' x' d' v s0) ->
  (forall addr, 0 <= addr < 2 ^ 64 -> exists s0, section_at d' addr = Some s0 /\ reach s0 addr = m' addr) ->
  built (λ w, P w \/ w = Z.of_nat (length (sections d))) m' x' d'.
Proof.
  intros Hb [Ht' Hpg Hsec Hsub Hcap] Hw Hlt Hz Hnew Hold Htgt. set (v := Z.of_nat (length (sections d))) in *.
  pose proof (built_sections _ _ _ _ Hb) as Hso.
  assert (Hg : grown d d') by (intros w s0 Hs0; rewrite Hsec; by apply lookup_app_l_Some).
  assert (Hsv : sections d' !! Z.to_nat v = Some s) by (rewrite Hsec; unfold v; rewrite Nat2Z.id; by apply list_lookup_middle).
  assert (Hpv : ~ P v).
  { intros [_ [s0 Hs0]]%(so_range _ _ Hso). unfold v in Hs0. rewrite Nat2Z.id in Hs0. apply lookup_lt_Some in Hs0. lia. }
  assert (Hv0 : v <> 0) by (destruct (built_capacity _ _ _ _ Hb); lia).
  assert (Hcv : forall addr, 0 <= addr < 2 ^ 64 -> covers d' v addr = page_in s (addr / 1024)).
  { intros addr Ha. rewrite (covers_run d' v s), whole_within; try done; apply Hw. }
  constructor; try done.
  - constructor.
    + left. apply Hso.
    + intros w [Hw' | ->].
      * destruct (so_range _ _ Hso w Hw') as [Hr [s0 Hs0]]. split; [done |]. exists s0. by apply Hg.
      * split; [lia | by exists s].
    + intros w addr [Hw' | ->] Hw0 Ha Hc; rewrite page_div, Hpg by by apply page_range.
      * rewrite (covers_grown P d) in Hc by done. pose proof (so_cover _ _ Hso w addr Hw' Hw0 Ha Hc) as Hps. rewrite page_div in Hps.
        destruct (page_in s (addr / 1024)) eqn:Hin; [| done]. rewrite (Hz _ Hin) in Hps. congruence.
      * rewrite Hcv in Hc by done. by rewrite Hc.
  - intros w addr HPw Hw0 Ha. rewrite page_div, Hpg by by apply page_range.
    destruct (page_in s (addr / 1024)) eqn:Hin; intros Hps.
    + injection Hps as <-. by rewrite Hcv.
    + destruct HPw as [HPw | ->].
      * rewrite (covers_grown P d) by done. apply (built_found _ _ _ _ Hb w addr HPw Hw0 Ha). rewrite page_div. exact Hps.
      * destruct (built_typed _ _ _ _ Hb) as [lv Ht]. destruct (page_section_P P d lv addr Ht Hso Ha) as (u & Hu & HPu).
        rewrite page_div in Hu. congruence.
  - intros w [HPw | ->] Hw0; [| by exists s].
    destruct (built_pages _ _ _ _ Hb w HPw Hw0) as (s0 & Hs0 & Hps). exists s0. split; [by apply Hg |]. by apply Hold.
  - destruct (built_zero _ _ _ _ Hb) as (s0 & Hs0 & Hmr). exists s0. split; [by apply Hg | done].
Qed.

(** *** Sections of whole pages *)

Lemma enter_some m s addr : is_region s -> m addr <> None -> enter m s addr <> None.
Proof. intros [r Hr] Hm. unfold enter, reach. rewrite Hr. by case_match. Qed.

Lemma page_sec_grown m m' x d d' v s :
  page_sec m x d v s -> grown d d' -> (forall k sp, subpages d !! k = Some sp -> subpages d' !! k = Some sp) ->
  (forall addr, m addr <> None -> m' addr <> None) -> page_sec m' x d' v s.
Proof.
  intros [Hr | (k & sp & H1 & H2 & H3 & H4 & H5 & H6 & H7 & H8)] Hg Hsp Hm; [by left | right].
  exists k, sp. split; [done |]. split; [by apply Hsp |]. do 4 (split; [done |]). split.
  - intros w Hw. destruct (H7 w Hw) as [-> | (s' & Hs' & Hr')]; [by left | right; exists s'; split; [by apply Hg | done]].
  - intros Hv. destruct (H8 Hv) as (addr & Ha & Hp & Hma). exists addr. auto.
Qed.

Lemma section_at_grown d d' addr s :
  section_at d addr = Some s -> grown d d' -> (forall k sp, subpages d !! k = Some sp -> subpages d' !! k = Some sp) ->
  page_section d' (addr >> TARGET_PAGE_BITS) = page_section d (addr >> TARGET_PAGE_BITS) -> section_at d' addr = Some s.
Proof.
  unfold section_at. intros Hs Hg Hsp ->. destruct (page_section d (addr >> TARGET_PAGE_BITS)) as [v |]; [| done].
  cbn [mbind option_bind] in Hs |- *. destruct (sections d !! Z.to_nat v) as [s0 |] eqn:Hs0; [| done]. rewrite (Hg _ _ Hs0).
  cbn [mbind option_bind] in Hs |- *. destruct (subpage_of (ps_mr s0)) as [k |]; [| done].
  destruct (subpages d !! k) as [sp |] eqn:Hk; [| done]. rewrite (Hsp _ _ Hk). cbn [mbind option_bind] in Hs |- *.
  destruct (sub_section sp !! _) as [w |]; [| done]. cbn [mbind option_bind] in Hs |- *. by apply Hg.
Qed.

Lemma section_at_region d addr v s :
  page_section d (addr >> TARGET_PAGE_BITS) = Some v -> sections d !! Z.to_nat v = Some s -> subpage_of (ps_mr s) = None ->
  section_at d addr = Some s.
Proof. intros Hv Hs Hn. unfold section_at. rewrite Hv. cbn. rewrite Hs. cbn. by rewrite Hn. Qed.

(** The page of a section for parts of a page. *)
Lemma subpage_page P m x d addr v s :
  built P m x d -> P v -> v <> 0 -> 0 <= addr < 2 ^ 64 -> page_section d (addr >> TARGET_PAGE_BITS) = Some v ->
  sections d !! Z.to_nat v = Some s -> whole_pages s -> ps_size s = TARGET_PAGE_SIZE ->
  addr / 1024 = ps_offset_within_address_space s / 1024.
Proof.
  intros Hb HPv Hv0 Ha Hv Hs (Hw1 & Hw2 & Hw3 & Hw4 & Hw5) Hsz.
  pose proof (built_found _ _ _ _ Hb v addr HPv Hv0 Ha Hv) as Hc.
  rewrite (covers_run d v s addr Hs Ha Hw1 Hw3 Hw5) in Hc. unfold within in Hc. apply andb_prop in Hc as [Hc1%Z.leb_le Hc2%Z.ltb_lt].
  rewrite Hsz in Hc2. change TARGET_PAGE_SIZE with 1024 in Hc2.
  pose proof (Z.div_mod (ps_offset_within_address_space s) 1024).
  symmetry. apply (Z.div_unique _ 1024 _ (addr - ps_offset_within_address_space s)); lia.
Qed.

(** A page of which no byte has a target has no section. *)
Lemma pages_free P m d idx :
  built P m 0 d -> 0 <= idx < 2 ^ 54 -> (forall addr, addr / 1024 = idx -> m addr = None) -> page_section d idx = Some 0.
Proof.
  intros Hb Hidx Hm. set (addr := idx * 1024). assert (Ha : 0 <= addr < 2 ^ 64) by lia.
  assert (Hp : addr / 1024 = idx) by (apply Z.div_mul; lia).
  pose proof (built_sections _ _ _ _ Hb) as Hso. destruct (built_typed _ _ _ _ Hb) as [lv Ht].
  destruct (page_section_P P d lv addr Ht Hso Ha) as (v & Hv & HPv).
  destruct (decide (v = 0)) as [-> | Hv0]; [by rewrite page_div, Hp in Hv |]. exfalso.
  destruct (built_pages _ _ _ _ Hb v HPv Hv0) as (s & Hs & [[r Hr] | (k & sp & Hk & Hsp & Hsz & Hbase & Hw & _ & _ & Hbusy)]).
  - destruct (built_target _ _ _ _ Hb addr Ha) as (s' & Hs' & Hreach).
    rewrite (section_at_region d addr v s) in Hs' by (done || by rewrite Hr). injection Hs' as <-.
    unfold reach in Hreach. rewrite Hr, Hm in Hreach by done. done.
  - destruct (Hbusy Hv0) as (a' & Ha' & Hp' & Hma). apply Hma, Hm. rewrite !page_div in Hp'. rewrite Hp', Hbase.
    by rewrite <- (subpage_page P m 0 d addr v s).
Qed.

Lemma region_no_subpage s : is_region s -> subpage_of (ps_mr s) = None.
Proof. intros [r ->]. done. Qed.

Lemma whole_pages_free P m d s :
  built P m 0 d -> whole_pages s -> (forall addr, within s addr = true -> m addr = None) ->
  forall idx, page_in s idx = true -> page_section d idx = Some 0.
Proof.
  intros Hb Hw Hfree idx Hin. pose proof Hw as (Ho & Hoa & Hs & Hsa & He). pose proof Hin as Hin'.
  unfold page_in in Hin'. apply andb_prop in Hin' as [H1%Z.leb_le H2%Z.ltb_lt]. apply (pages_free P m d idx Hb).
  - split; [pose proof (Z.div_pos (ps_offset_within_address_space s) 1024); lia |].
    apply (Z.lt_le_trans _ _ _ H2). apply Z.div_le_upper_bound; lia.
  - intros addr Ha. apply Hfree. rewrite whole_within by done. by rewrite Ha.
Qed.

Lemma register_multipage_ok P m d s :
  built P m 0 d -> is_region s -> whole_pages s -> (forall addr, within s addr = true -> m addr = None) ->
  (length (sections d) < 1024)%nat ->
  exists P' d', register_multipage s d = Done () d' [] /\ built P' (enter m s) 0 d' /\
    length (sections d') = S (length (sections d)).
Proof.
  intros Hb Hr Hw Hfree Hlt. destruct (built_typed _ _ _ _ Hb) as [lv Ht]. pose proof (built_sections _ _ _ _ Hb) as Hso.
  pose proof (whole_pages_free P m d s Hb Hw Hfree) as Hz.
  destruct (section_add_run s d (built_capacity _ _ _ _ Hb) Hlt) as (a & Hadd & Ha).
  destruct (set_pages_run P d lv s a Ht (so_zero _ _ Hso) (built_capacity _ _ _ _ Hb) Hlt Ha Hw Hz) as (d' & Hset & Hps).
  pose proof Hps as [_ Hpg Hsec Hsub _]. pose proof Hw as (Ho & Hoa & Hs & Hsa & He).
  assert (Hg : grown d d') by (intros w s0 Hs0; rewrite Hsec; by apply lookup_app_l_Some).
  assert (Hsp : forall k sp, subpages d !! k = Some sp -> subpages d' !! k = Some sp) by (by rewrite Hsub).
  assert (Hsv : sections d' !! Z.to_nat (Z.of_nat (length (sections d))) = Some s)
    by (rewrite Hsec, Nat2Z.id; by apply list_lookup_middle).
  exists (λ w, P w \/ w = Z.of_nat (length (sections d))), d'. split; [| split].
  - unfold register_multipage. rewrite (bind_Done _ _ _ _ _ Hadd), (page_div (ps_size s)). unfold get64.
    assert (Hn : 0 < ps_size s / 1024 <= 2 ^ 54).
    { split; [apply Z.div_str_pos; pose proof (Z.div_mod (ps_size s) 1024); lia |]. apply Z.div_le_upper_bound; lia. }
    rewrite (proj2 (Z.leb_le 0 (ps_size s / 1024))), (proj2 (Z.ltb_lt (ps_size s / 1024) (2 ^ 64))) by lia. cbn [andb].
    rewrite (bind_Done (mret _) _ _ _ _ eq_refl).
    replace (cbool (ps_size s / 1024)) with true by (symmetry; apply negb_true_iff, Z.eqb_neq; lia). cbn [assert_].
    by rewrite (bind_Done (mret ()) _ _ _ _ eq_refl).
  - apply (built_enter P m (enter m s) 0 0 s d d' Hb Hps Hw Hlt Hz).
    + by left.
    + intros v s0 _ _ _ Hp. apply (page_sec_grown m _ 0 d); try done. intros addr. by apply enter_some.
    + intros addr Haddr. unfold enter. rewrite whole_within by done. destruct (page_in s (addr / 1024)) eqn:Hin.
      * exists s. split; [| done]. eapply section_at_region; [| exact Hsv | by apply region_no_subpage].
        rewrite page_div, Hpg, Hin by by apply page_range. done.
      * destruct (built_target _ _ _ _ Hb addr Haddr) as (s0 & Hs0 & Hreach). exists s0. split; [| done].
        apply (section_at_grown d); try done. rewrite page_div, Hpg, Hin by by apply page_range. done.
  - rewrite Hsec, length_app. cbn. lia.
Qed.

(** *** Sections of parts of a page *)

Lemma register_loop_length n v : forall i l, length (register_loop n i v l) = length l.
Proof. induction n as [|n IH]; intros i l; [done |]. cbn [register_loop]. by rewrite IH, length_insert. Qed.

Lemma register_loop_lookup n v : forall i l j,
  (i + n <= length l)%nat ->
  register_loop n i v l !! j = if decide (i <= j < i + n)%nat then Some v else l !! j.
Proof.
  induction n as [|n IH]; intros i l j Hl; cbn [register_loop].
  { by rewrite decide_False by lia. }
  rewrite IH by (rewrite length_insert; lia). destruct (decide (j = i)) as [-> | Hne].
  - rewrite decide_False, decide_True, list_lookup_insert_eq by lia. done.
  - rewrite list_lookup_insert_ne by done.
    destruct (decide (S i <= j < S i + n)%nat), (decide (i <= j < i + S n)%nat); done || lia.
Qed.

Lemma register_loop_elem n v i l w : w ∈ register_loop n i v l -> w = v \/ w ∈ l.
Proof.
  revert i l. induction n as [|n IH]; intros i l Hw; [by right |]. cbn [register_loop] in Hw.
  destruct (IH _ _ Hw) as [-> | Hw']; [by left |]. apply list_elem_of_lookup in Hw' as (j & [(_ & -> & _) | [_ Hj]]%list_lookup_insert_Some);
    [by left | right; by apply list_elem_of_lookup_2 in Hj].
Qed.

Definition empty_page (base : Z) : subpage_t :=
  mkSubpage base (register_loop 1024 0 PHYS_SECTION_UNASSIGNED (replicate 1024 0)).

#[global] Arguments empty_page : simpl never.

Lemma empty_page_lookup base j : (j < 1024)%nat -> sub_section (empty_page base) !! j = Some 0.
Proof.
  intros Hj. unfold empty_page. cbn [sub_section]. rewrite register_loop_lookup by (by rewrite length_replicate).
  by rewrite decide_True by lia.
Qed.

Definition push_subpage (sp : subpage_t) (d : AddressSpaceDispatch) : AddressSpaceDispatch := d <| subpages := subpages d ++ [sp] |>.

Lemma subpage_init_run base d : subpage_init base d = Done (length (subpages d)) (push_subpage (empty_page base) d) [].
Proof.
  unfold subpage_init. rewrite bind_get. cbv zeta. rewrite bind_modify. unfold subpage_register. cbv zeta.
  change (u32 0) with 0. change (u32 (TARGET_PAGE_SIZE - 1)) with 1023.
  change ((TARGET_PAGE_SIZE <=? 0) || (TARGET_PAGE_SIZE <=? 1023)) with false. cbv iota.
  change (Z.to_nat (SUBPAGE_IDX 1023 - SUBPAGE_IDX 0 + 1)) with 1024%nat. change (Z.to_nat (SUBPAGE_IDX 0)) with 0%nat.
  change (Z.to_nat TARGET_PAGE_SIZE) with 1024%nat. rewrite bind_assoc, bind_modify. unfold mret, M_ret, mbind, M_bind. cbn [app].
  f_equal. unfold push_subpage, empty_page, set_field. cbn [subpages]. f_equal.
  rewrite <- (Nat.add_0_r (length (subpages d))) at 1. by rewrite alter_app_r.
Qed.

Lemma built_push_subpage P m d sp : built P m 0 d -> built P m 0 (push_subpage sp d).
Proof.
  intros Hb. assert (Hsp : forall k sp0, subpages d !! k = Some sp0 -> subpages (push_subpage sp d) !! k = Some sp0).
  { intros k sp0 Hk. cbn. by apply lookup_app_l_Some. }
  constructor; try apply Hb.
  - destruct (built_typed _ _ _ _ Hb) as [lv [H1 H2]]. exists lv. by constructor.
  - destruct (built_sections _ _ _ _ Hb) as [H1 H2 H3]. by constructor.
  - intros v HPv Hv0. destruct (built_pages _ _ _ _ Hb v HPv Hv0) as (s & Hs & Hps). exists s. split; [done |].
    apply (page_sec_grown m m 0 d); [done | intros ? ? H; exact H | exact Hsp | done].
  - intros addr Ha. destruct (built_target _ _ _ _ Hb addr Ha) as (s & Hs & Hr). exists s. split; [| done].
    apply (section_at_grown d); [done | intros ? ? H; exact H | exact Hsp | done].
Qed.

(** The section of a new page. *)
Definition subpage_section (k : nat) (base : Z) : PhysSection := mkPhysSection (SubpageMr k) 0 TARGET_PAGE_SIZE base false.

Lemma subpage_section_whole k base :
  0 <= base -> base mod 1024 = 0 -> base + 1024 <= 2 ^ 64 -> whole_pages (subpage_section k base).
Proof. intros H1 H2 H3. unfold whole_pages. cbn. change TARGET_PAGE_SIZE with 1024. done. Qed.

Lemma subpage_section_in k base idx : base mod 1024 = 0 -> page_in (subpage_section k base) idx = (idx =? base / 1024).
Proof.
  intros Hb. unfold page_in. cbn. change TARGET_PAGE_SIZE with (1 * 1024). rewrite Z.div_add by lia.
  destruct (Z.leb_spec (base / 1024) idx), (Z.ltb_spec idx (base / 1024 + 1)), (Z.eqb_spec idx (base / 1024)); done || lia.
Qed.

Lemma free_page_target P m d addr :
  built P m 0 d -> 0 <= addr < 2 ^ 64 -> page_section d (addr / 1024) = Some 0 -> m addr = None.
Proof.
  intros Hb Ha Hp. destruct (built_zero _ _ _ _ Hb) as (s0 & Hs0 & Hmr).
  destruct (built_target _ _ _ _ Hb addr Ha) as (s & Hs & <-).
  rewrite (section_at_region d addr 0 s0) in Hs; [| by rewrite page_div | done | by rewrite Hmr].
  injection Hs as <-. unfold reach. by rewrite Hmr.
Qed.

(** A page for parts of sections is made: no byte gets a target by that. *)
Lemma new_page_ok P m d base :
  built P m 0 d -> 0 <= base -> base mod 1024 = 0 -> base + 1024 <= 2 ^ 64 -> page_section d (base / 1024) = Some 0 ->
  (length (sections d) < 1024)%nat ->
  let k := length (subpages d) in
  let v := Z.of_nat (length (sections d)) in
  exists P' d', (k ← subpage_init base;
                 n ← phys_section_add (mkPhysSection (SubpageMr k) 0 TARGET_PAGE_SIZE base false);
                 phys_page_set (base >> TARGET_PAGE_BITS) 1 n ;; mret k) d = Done k d' [] /\
    built P' m v d' /\ P' v /\ page_section d' (base / 1024) = Some v /\
    sections d' = sections d ++ [subpage_section k base].
Proof.
  intros Hb Hb0 Hba Hbe Hfree Hlt k v. set (d0 := push_subpage (empty_page base) d). set (s := subpage_section k base).
  pose proof (built_push_subpage P m d (empty_page base) Hb) as Hb1. fold d0 in Hb1.
  pose proof (subpage_section_whole k base Hb0 Hba Hbe) as Hw. fold s in Hw.
  destruct (built_typed _ _ _ _ Hb1) as [lv Ht]. pose proof (built_sections _ _ _ _ Hb1) as Hso.
  assert (Hz : forall idx, page_in s idx = true -> page_section d0 idx = Some 0).
  { intros idx. unfold s. rewrite subpage_section_in by done. intros ->%Z.eqb_eq. exact Hfree. }
  destruct (section_add_run s d0 (built_capacity _ _ _ _ Hb1) Hlt) as (a & Hadd & Ha).
  destruct (set_pages_run P d0 lv s a Ht (so_zero _ _ Hso) (built_capacity _ _ _ _ Hb1) Hlt Ha Hw Hz) as (d' & Hset & Hps).
  pose proof Hps as [_ Hpg Hsec Hsub _].
  change (length (sections d0)) with (length (sections d)) in Hadd, Hset, Hpg. fold v in Hadd, Hset, Hpg.
  change (sections d0) with (sections d) in Hsec.
  assert (Hg : grown d0 d') by (intros w s0 Hs0; rewrite Hsec; by apply lookup_app_l_Some).
  assert (Hsp : forall j sp, subpages d0 !! j = Some sp -> subpages d' !! j = Some sp) by (by rewrite Hsub).
  assert (Hsv : sections d' !! Z.to_nat v = Some s) by (rewrite Hsec; unfold v; rewrite Nat2Z.id; by apply list_lookup_middle).
  assert (Hk : subpages d' !! k = Some (empty_page base)) 
    by (rewrite Hsub; change (subpages d0) with (subpages d ++ [empty_page base]); by apply list_lookup_middle).
  assert (Hlen : length (sub_section (empty_page base)) = 1024%nat)
    by (unfold empty_page; cbn [sub_section]; rewrite register_loop_length; apply length_replicate).
  assert (Hbr : 0 <= base / 1024 < 2 ^ 54) by (apply page_range; lia).
  exists (λ w, P w \/ w = v), d'. split; [| split; [| split; [by right | split; [| done]]]].
  - rewrite (bind_Done _ _ _ _ _ (subpage_init_run base d)). fold d0 k. fold (subpage_section k base). fold s.
    rewrite (bind_Done _ _ _ _ _ Hadd). change (ps_size s / 1024) with 1 in Hset.
    change (ps_offset_within_address_space s) with base in Hset. by rewrite (bind_Done _ _ _ _ _ Hset).
  - apply (built_enter P m m 0 v s d0 d' Hb1 Hps Hw Hlt Hz).
    + right. exists k, (empty_page base). split; [reflexivity |]. split; [exact Hk |]. split; [reflexivity |].
      split; [reflexivity |]. split; [exact Hw |]. split; [exact Hlen |]. split; [| intros Hvv; by destruct Hvv].
      intros w [j Hj]%list_elem_of_lookup. left. apply lookup_lt_Some in Hj as Hjl. rewrite Hlen in Hjl.
      rewrite empty_page_lookup in Hj by done. by injection Hj.
    + intros w s0 _ Hw0 _ Hpw. destruct (page_sec_grown m m 0 d0 d' w s0 Hpw Hg Hsp ltac:(done)) as
        [Hr | (k' & sp & H1 & H2 & H3 & H4 & H5 & H6 & H7 & H8)]; [by left | right].
      exists k', sp. do 7 (split; [done |]). intros _. by apply H8.
    + intros addr Haddr. destruct (built_target _ _ _ _ Hb1 addr Haddr) as (s0 & Hs0 & Hreach).
      destruct (page_in s (addr / 1024)) eqn:Hin.
      * destruct (built_zero _ _ _ _ Hb1) as (sz & Hsz & Hmr). exists sz. split.
        -- unfold section_at. rewrite page_div, Hpg, Hin by by apply page_range. cbn [mbind option_bind]. rewrite Hsv.
           cbn [mbind option_bind s subpage_section ps_mr subpage_of]. rewrite Hk. cbn [mbind option_bind].
           rewrite subpage_idx, empty_page_lookup by (pose proof (Z.mod_pos_bound addr 1024); lia). cbn [mbind option_bind]. by apply Hg.
        -- unfold reach. rewrite Hmr. symmetry. exact (free_page_target P m d0 addr Hb1 Haddr (Hz _ Hin)).
      * exists s0. split; [| exact Hreach]. apply (section_at_grown d0 d' addr s0 Hs0 Hg Hsp).
        rewrite page_div, Hpg, Hin by by apply page_range. reflexivity.
  - rewrite Hpg by done. unfold s. rewrite subpage_section_in, Z.eqb_refl by done. done.
Qed.

(** A section within one page. *)
Definition in_page (s : PhysSection) : Prop :=
  0 <= ps_offset_within_address_space s < 2 ^ 64 /\ 0 < ps_size s /\
  ps_offset_within_address_space s mod 1024 + ps_size s <= 1024.

Lemma in_page_within s addr :
  in_page s ->
  within s addr = bool_decide (addr / 1024 = ps_offset_within_address_space s / 1024) &&
    (ps_offset_within_address_space s mod 1024 <=? addr mod 1024) &&
    (addr mod 1024 <? ps_offset_within_address_space s mod 1024 + ps_size s).
Proof.
  intros (Ho & Hs & Hle). unfold within. set (o := ps_offset_within_address_space s) in *.
  pose proof (Z.div_mod addr 1024). pose proof (Z.mod_pos_bound addr 1024).
  pose proof (Z.div_mod o 1024). pose proof (Z.mod_pos_bound o 1024).
  destruct (bool_decide_reflect (addr / 1024 = o / 1024)); cbn [andb];
    destruct (Z.leb_spec o addr), (Z.ltb_spec addr (o + ps_size s)); cbn [andb];
    destruct (Z.leb_spec (o mod 1024) (addr mod 1024)), (Z.ltb_spec (addr mod 1024) (o mod 1024 + ps_size s)); done || lia.
Qed.

(** The page [k] after the bytes of [s] have been given to the section [n]. *)
Definition fill_page (s : PhysSection) (n : Z) (sp : subpage_t) : subpage_t :=
  sp <| sub_section := register_loop (Z.to_nat (ps_size s)) (Z.to_nat (ps_offset_within_address_space s mod 1024)) n (sub_section sp) |>.

Lemma subpage_register_run k s n d :
  in_page s ->
  subpage_register k (SUBPAGE_IDX (ps_offset_within_address_space s))
    (u64 (SUBPAGE_IDX (ps_offset_within_address_space s) + ps_size s - 1)) n d =
  Done 0 (d <| subpages := alter (fill_page s n) k (subpages d) |>) [].
Proof.
  intros (Ho & Hs & Hle). rewrite subpage_idx. set (o := ps_offset_within_address_space s mod 1024).
  assert (Hom : 0 <= o < 1024) by (apply Z.mod_pos_bound; lia). fold o in Hle.
  unfold subpage_register, u64, u32. rewrite (Z.mod_small (_ - 1) (2 ^ 64)), !(Z.mod_small _ (2 ^ 32)) by lia.
  change TARGET_PAGE_SIZE with 1024. rewrite !(proj2 (Z.leb_gt 1024 _)) by lia. cbn [orb]. cbv zeta.
  rewrite !subpage_idx, (Z.mod_small (_ - 1) 1024), (Z.mod_small o 1024) by lia.
  replace (o + ps_size s - 1 - o + 1) with (ps_size s) by lia. by rewrite bind_modify.
Qed.

Lemma fill_page_lookup s n sp j :
  in_page s -> length (sub_section sp) = 1024%nat ->
  sub_section (fill_page s n sp) !! j =
    if decide (ps_offset_within_address_space s mod 1024 <= Z.of_nat j < ps_offset_within_address_space s mod 1024 + ps_size s)
    then Some n else sub_section sp !! j.
Proof.
  intros (Ho & Hs & Hle) Hlen. unfold fill_page. cbn [sub_section set_field].
  pose proof (Z.mod_pos_bound (ps_offset_within_address_space s) 1024).
  rewrite register_loop_lookup by lia.
  destruct (decide (Z.to_nat (ps_offset_within_address_space s mod 1024) <= j < _)%nat), (decide (_ <= Z.of_nat j < _)); done || lia.
Qed.

(** The bytes of a section are entered in a page. *)
Section FillPage.
  Context (P : Z → Prop) (m : target) (x : Z) (d : AddressSpaceDispatch) (v : Z) (sv : PhysSection) (k : nat) (base : Z)
    (s : PhysSection) (a : Z).
  Hypotheses (Hb : built P m x d) (Hx : x = 0 \/ x = v) (HPv : P v) (Hv0 : v <> 0)
    (Hbase : base = ps_offset_within_address_space s / 1024 * 1024)
    (Hv : page_section d (base / 1024) = Some v) (Hsv : sections d !! Z.to_nat v = Some sv)
    (Hsvk : ps_mr sv = SubpageMr k) (Hsvb : ps_offset_within_address_space sv = base)
    (Hr : is_region s) (Hin : in_page s) (Ha : Z.of_nat (length (sections d)) + 1 <= a <= 2 ^ 11).

#[local] Notation n := (Z.of_nat (length (sections d))).

Definition filled : AddressSpaceDispatch :=
  push_section s d a <| subpages := alter (fill_page s n) k (subpages d) |>.

Lemma fill_grown : grown d filled.
Proof. intros w s0 Hs0. cbn. by apply lookup_app_l_Some. Qed.

Lemma fill_new : sections filled !! Z.to_nat n = Some s.
Proof. rewrite Nat2Z.id. cbn. by apply list_lookup_middle. Qed.

Lemma fill_base : base / 1024 = ps_offset_within_address_space s / 1024.
Proof. rewrite Hbase. apply Z.div_mul. lia. Qed.

(** The page [k] is the one of the section. *)
Lemma fill_subpage : exists sp, subpages d !! k = Some sp /\ sp_base sp = base /\ length (sub_section sp) = 1024%nat.
Proof.
  destruct (built_pages _ _ _ _ Hb v HPv Hv0) as (s1 & Hs1 & Hps1). rewrite Hsv in Hs1. injection Hs1 as <-.
  destruct Hps1 as [[r Hr'] | (k1 & sp & K1 & K2 & _ & K4 & _ & K6 & _)]; [congruence |].
  rewrite Hsvk in K1. injection K1 as <-. exists sp. split; [done |]. split; [congruence | done].
Qed.

Lemma fill_page_sec w s0 :
  P w -> w <> 0 -> sections d !! Z.to_nat w = Some s0 -> page_sec m x d w s0 -> page_sec (enter m s) 0 filled w s0.
Proof.
  intros Hw Hw0 Hs0 [Hreg | (k' & sp & H1 & H2 & H3 & H4 & H5 & H6 & H7 & H8)]; [by left | right].
  destruct fill_subpage as (spk & Hk1 & Hk2 & Hk3). pose proof Hin as (Ho & Hs & Hle).
  destruct (decide (k' = k)) as [-> | Hk].
  - rewrite Hk1 in H2. injection H2 as <-.
    exists k, (fill_page s n spk). split; [done |]. split; [cbn; by rewrite list_lookup_alter_eq, Hk1 |].
    do 3 (split; [done |]). split; [unfold fill_page; cbn [sub_section set_field]; by rewrite register_loop_length |]. split.
    + intros w' [-> | Hw']%register_loop_elem; [right; exists s; split; [apply fill_new | done] |].
      destruct (H7 w' Hw') as [-> | (s' & Hs' & Hr')]; [by left | right; exists s'; split; [by apply fill_grown | done]].
    + intros _. exists (ps_offset_within_address_space s). split; [done |].
      change (sp_base (fill_page s n spk)) with (sp_base spk). rewrite Hk2, !page_div. split; [symmetry; apply fill_base |].
      unfold enter, within. rewrite (proj2 (Z.leb_le _ _)), (proj2 (Z.ltb_lt _ _)) by lia. cbn [andb].
      unfold reach. by destruct Hr as [r ->].
  - exists k', sp. split; [done |]. split; [cbn; by rewrite list_lookup_alter_ne |]. do 4 (split; [done |]). split.
    + intros w' Hw'. destruct (H7 w' Hw') as [-> | (s' & Hs' & Hr')]; [by left | right; exists s'; split; [by apply fill_grown | done]].
    + intros _. destruct H8 as (addr & Haddr & Hp & Hm).
      { destruct Hx as [-> | ->]; [done |]. intros ->. rewrite Hsv in Hs0. injection Hs0 as <-. congruence. }
      exists addr. split; [done |]. split; [done |]. by apply enter_some.
Qed.

(** An address of the page. *)
Lemma fill_same_page addr s0 :
  0 <= addr < 2 ^ 64 -> addr / 1024 = ps_offset_within_address_space s / 1024 -> section_at d addr = Some s0 ->
  section_at filled addr = Some (if within s addr then s else s0).
Proof.
  intros Haddr Hpg Hs0. destruct fill_subpage as (sp & K2 & _ & K6). rewrite (in_page_within s addr Hin).
  rewrite bool_decide_eq_true_2 by done. cbn [andb].
  assert (Hva : page_section d (addr >> TARGET_PAGE_BITS) = Some v) by (by rewrite page_div, Hpg, <- fill_base).
  assert (Hat : forall d0 sp0, page_section d0 (addr >> TARGET_PAGE_BITS) = Some v ->
    sections d0 !! Z.to_nat v = Some sv -> subpages d0 !! k = Some sp0 ->
    section_at d0 addr = w ← sub_section sp0 !! Z.to_nat (addr mod 1024); sections d0 !! Z.to_nat w).
  { intros d0 sp0 E1 E2 E3. unfold section_at. rewrite E1. cbn [mbind option_bind]. rewrite E2.
    cbn [mbind option_bind]. rewrite Hsvk. cbn [subpage_of]. rewrite E3. cbn [mbind option_bind]. by rewrite subpage_idx. }
  rewrite (Hat filled (fill_page s n sp)); [| done | by apply fill_grown | cbn; by rewrite list_lookup_alter_eq, K2].
  rewrite (Hat d sp) in Hs0 by done. pose proof (Z.mod_pos_bound addr 1024).
  rewrite fill_page_lookup, Z2Nat.id by (done || lia).
  destruct (Z.leb_spec (ps_offset_within_address_space s mod 1024) (addr mod 1024)),
    (Z.ltb_spec (addr mod 1024) (ps_offset_within_address_space s mod 1024 + ps_size s)); cbn [andb];
    [rewrite decide_True by lia; apply fill_new | rewrite decide_False by lia ..];
    (destruct (sub_section sp !! _) as [w |]; [| done]; cbn [mbind option_bind] in Hs0 |- *; by apply fill_grown).
Qed.

(** An address of another page. *)
Lemma fill_other_page addr s0 :
  0 <= addr < 2 ^ 64 -> addr / 1024 <> ps_offset_within_address_space s / 1024 -> section_at d addr = Some s0 ->
  section_at filled addr = Some s0.
Proof.
  intros Haddr Hpg Hs0. unfold section_at in *.
  change (page_section filled (addr >> TARGET_PAGE_BITS)) with (page_section d (addr >> TARGET_PAGE_BITS)).
  destruct (page_section d (addr >> TARGET_PAGE_BITS)) as [v' |] eqn:Hv'; [| done].
  cbn [mbind option_bind] in Hs0 |- *. destruct (sections d !! Z.to_nat v') as [s' |] eqn:Hs'; [| done]. rewrite (fill_grown _ _ Hs').
  cbn [mbind option_bind] in Hs0 |- *. destruct (subpage_of (ps_mr s')) as [k' |] eqn:Hk'; [| done].
  assert (Hmr : ps_mr s' = SubpageMr k') by (destruct (ps_mr s'); try done; by injection Hk' as ->).
  destruct (built_typed _ _ _ _ Hb) as [lv Ht]. pose proof (built_sections _ _ _ _ Hb) as Hso.
  destruct (page_section_P P d lv addr Ht Hso Haddr) as (u & Hu & HPu). rewrite Hv' in Hu. injection Hu as <-.
  assert (Hv0' : v' <> 0).
  { intros ->. destruct (built_zero _ _ _ _ Hb) as (sz & Hsz & Hmz). change (Z.to_nat 0) with 0%nat in Hs'. congruence. }
  destruct (built_pages _ _ _ _ Hb v' HPu Hv0') as (s2 & Hs2 & Hps2). rewrite Hs' in Hs2. injection Hs2 as <-.
  destruct Hps2 as [[r Hr'] | (k2 & sp & K1 & K2 & K3 & K4 & K5 & _)]; [congruence |].
  rewrite Hmr in K1. injection K1 as <-.
  assert (Hkk : k' <> k).
  { intros ->. destruct fill_subpage as (spk & Hk1 & Hk2 & _). rewrite K2 in Hk1. injection Hk1 as <-.
    apply Hpg. rewrite <- fill_base, <- Hk2, K4. by apply (subpage_page P m x d addr v' s'). }
  rewrite K2 in Hs0. cbn [filled subpages set_field push_section]. rewrite list_lookup_alter_ne, K2 by done.
  cbn [mbind option_bind] in Hs0 |- *. destruct (sub_section sp !! _) as [w |]; [| done].
  cbn [mbind option_bind] in Hs0 |- *. by apply fill_grown.
Qed.

Lemma fill_ok : built P (enter m s) 0 filled.
Proof.
  pose proof (built_sections _ _ _ _ Hb) as Hso. constructor.
  - destruct (built_typed _ _ _ _ Hb) as [lv [H1 H2]]. exists lv. by constructor.
  - destruct Hso as [H1 H2 H3]. constructor; [done | |].
    + intros w Hw. destruct (H2 w Hw) as [Hrg [s0 Hs0]]. split; [done |]. exists s0. by apply fill_grown.
    + intros w addr Hw Hw0 Haddr. rewrite (covers_grown P d) by (done || apply fill_grown). by apply H3.
  - intros w addr Hw Hw0 Haddr Hps. rewrite (covers_grown P d) by (done || apply fill_grown). by apply (built_found _ _ _ _ Hb).
  - intros w Hw Hw0. destruct (built_pages _ _ _ _ Hb w Hw Hw0) as (s0 & Hs0 & Hps). exists s0.
    split; [by apply fill_grown | by apply fill_page_sec].
  - destruct (built_zero _ _ _ _ Hb) as (s0 & Hs0 & Hmr). exists s0. split; [by apply fill_grown | done].
  - intros addr Haddr. destruct (built_target _ _ _ _ Hb addr Haddr) as (s0 & Hs0 & Hreach).
    destruct (decide (addr / 1024 = ps_offset_within_address_space s / 1024)) as [Hpg | Hpg].
    + eexists. split; [by apply fill_same_page |]. unfold enter. by case_match.
    + exists s0. split; [by apply fill_other_page |]. unfold enter.
      by rewrite (in_page_within s addr Hin), bool_decide_eq_false_2.
  - destruct (built_capacity _ _ _ _ Hb) as (H1 & H2 & H3 & H4). unfold capacity. cbn. rewrite length_app. cbn. lia.
Qed.

End FillPage.

Lemma find_built P m x d addr :
  built P m x d -> 0 <= addr < 2 ^ 64 ->
  exists v, P v /\ page_section d (addr / 1024) = Some v /\ phys_page_find addr d = Done v d [].
Proof.
  intros Hb Ha. pose proof (built_sections _ _ _ _ Hb) as Hso. destruct (built_typed _ _ _ _ Hb) as [lv Ht].
  destruct (page_section_P P d lv addr Ht Hso Ha) as (v & Hv & HPv). exists v. rewrite page_div in Hv.
  split; [done |]. split; [done |]. rewrite (find_run d addr v); [| by rewrite page_div | by apply (so_range _ _ Hso)].
  unfold checked. destruct (Z.eqb_spec v 0) as [-> | Hv0]; [done |].
  rewrite (built_found _ _ _ _ Hb v addr HPv Hv0 Ha) by by rewrite page_div. done.
Qed.

Lemma get_section_run v s d : sections d !! Z.to_nat v = Some s -> get_section v d = Done s d [].
Proof. intros Hs. unfold get_section. by rewrite bind_get, Hs. Qed.

(** The end of [register_subpage]. *)
Lemma fill_run P m x d v sv k base s :
  built P m x d -> (x = 0 \/ x = v) -> P v -> v <> 0 -> base = ps_offset_within_address_space s / 1024 * 1024 ->
  page_section d (base / 1024) = Some v -> sections d !! Z.to_nat v = Some sv -> ps_mr sv = SubpageMr k ->
  ps_offset_within_address_space sv = base ->
  is_region s -> in_page s -> (length (sections d) < 1024)%nat ->
  exists d', (size ← get64 (ps_size s);
              n ← phys_section_add s;
              _ ← subpage_register k (SUBPAGE_IDX (ps_offset_within_address_space s))
                    (u64 (SUBPAGE_IDX (ps_offset_within_address_space s) + size - 1)) n;
              mret ()) d = Done () d' [] /\
    built P (enter m s) 0 d' /\ length (sections d') = S (length (sections d)).
Proof.
  intros Hb Hx HPv Hv0 Hbase Hv Hsv Hsvk Hsvb Hr Hin Hlt. pose proof Hin as (Ho & Hs & Hle).
  pose proof (Z.mod_pos_bound (ps_offset_within_address_space s) 1024).
  destruct (section_add_run s d (built_capacity _ _ _ _ Hb) Hlt) as (a & Hadd & Ha).
  eexists. split; [| split; [by apply (fill_ok P m x d v sv k base s a) | cbn; rewrite length_app; cbn; lia]].
  unfold get64. rewrite (proj2 (Z.leb_le 0 (ps_size s))), (proj2 (Z.ltb_lt (ps_size s) (2 ^ 64))) by lia. cbn [andb].
  rewrite (bind_Done (mret _) _ _ _ _ eq_refl), (bind_Done _ _ _ _ _ Hadd).
  by rewrite (bind_Done _ _ _ _ _ (subpage_register_run k s _ _ Hin)).
Qed.

Lemma register_subpage_ok P m d s :
  built P m 0 d -> is_region s -> in_page s -> (forall addr, within s addr = true -> m addr = None) ->
  (length (sections d) + 2 <= 1024)%nat ->
  exists P' d', register_subpage s d = Done () d' [] /\ built P' (enter m s) 0 d' /\
    (length (sections d') <= length (sections d) + 2)%nat.
Proof.
  intros Hb Hr Hin Hfree Hlt. pose proof Hin as (Ho & Hs & Hle).
  set (off := ps_offset_within_address_space s) in *. set (base := off / 1024 * 1024).
  pose proof (Z.div_mod off 1024) as Hdm. pose proof (Z.mod_pos_bound off 1024) as Hmb.
  assert (Hbase : 0 <= base < 2 ^ 64) by lia. assert (Hbm : base mod 1024 = 0) by (apply Z_mod_mult).
  assert (Hbd : base / 1024 = off / 1024) by (apply Z.div_mul; lia).
  assert (Hbe : base + 1024 <= 2 ^ 64).
  { pose proof (Z.div_mod base 1024). assert (base / 1024 < 2 ^ 54) by (apply Z.div_lt_upper_bound; lia). lia. }
  unfold register_subpage. fold off. rewrite page_base by done. fold base.
  destruct (find_built P m 0 d base Hb Hbase) as (v & HPv & Hv & Hfind). rewrite (bind_Done _ _ _ _ _ Hfind).
  destruct (decide (v = 0)) as [-> | Hv0].
  - destruct (built_zero _ _ _ _ Hb) as (sz & Hsz & Hmz).
    rewrite (bind_Done _ _ _ _ _ (get_section_run 0 sz d Hsz)), Hmz. cbn [subpage_of].
    rewrite (bool_decide_eq_true_2 (io_mem_unassigned = _)), orb_true_r by done. cbn [assert_].
    rewrite (bind_Done (mret ()) _ _ _ _ eq_refl).
    destruct (new_page_ok P m d base Hb ltac:(lia) Hbm Hbe Hv ltac:(lia)) as (P1 & d1 & Hrun & Hb1 & HP1 & Hv1 & Hsec1).
    rewrite (bind_Done _ _ _ _ _ Hrun).
    destruct (fill_run P1 m (Z.of_nat (length (sections d))) d1 (Z.of_nat (length (sections d)))
      (subpage_section (length (subpages d)) base) (length (subpages d)) base s) as (d2 & Hrun2 & Hb2 & Hlen2); try done.
    + by right.
    + destruct (built_capacity _ _ _ _ Hb); lia.
    + rewrite Hsec1, Nat2Z.id. by apply list_lookup_middle.
    + rewrite Hsec1, length_app. cbn. lia.
    + exists P1, d2. split; [exact Hrun2 |]. split; [done |]. rewrite Hlen2, Hsec1, length_app. cbn. lia.
  - destruct (built_pages _ _ _ _ Hb v HPv Hv0) as (s0 & Hs0 & Hps). rewrite (bind_Done _ _ _ _ _ (get_section_run v s0 d Hs0)).
    assert (Hwo : within s off = true) by (unfold within; fold off; rewrite (proj2 (Z.leb_le _ _)), (proj2 (Z.ltb_lt _ _)) by lia; done).
    destruct Hps as [[r Hr0] | (k & sp & K1 & K2 & K3 & K4 & K5 & _)].
    { exfalso. destruct (built_target _ _ _ _ Hb off Ho) as (s' & Hs' & Hreach).
      rewrite (section_at_region d off v s0) in Hs'; [| by rewrite page_div, <- Hbd | done | by rewrite Hr0].
      injection Hs' as <-. unfold reach in Hreach. by rewrite Hr0, Hfree in Hreach. }
    rewrite K1. cbn [subpage_of]. rewrite (bool_decide_eq_true_2 (is_Some _)) by eauto. cbn [orb assert_].
    rewrite (bind_Done (mret ()) _ _ _ _ eq_refl), (bind_Done (mret k) _ _ _ _ eq_refl).
    destruct (fill_run P m 0 d v s0 k base s) as (d2 & Hrun2 & Hb2 & Hlen2); try done.
    + by left.
    + assert (Hd0 : base / 1024 = ps_offset_within_address_space s0 / 1024)
        by (apply (subpage_page P m 0 d base v s0); rewrite ?page_div; done).
      destruct K5 as (W1 & W2 & _). pose proof (Z.div_mod (ps_offset_within_address_space s0) 1024). lia.
    + lia.
    + exists P, d2. split; [exact Hrun2 |]. split; [done |]. lia.
Qed.

(** *** A range of the flat view *)

Lemma built_ext P m m' d :
  built P m 0 d -> (forall addr, 0 <= addr < 2 ^ 64 -> m addr = m' addr) -> built P m' 0 d.
Proof.
  intros [H1 H2 H3 H4 H5 H6 H7] Hm. constructor; try done.
  - intros v HP Hv0. destruct (H4 v HP Hv0) as (s & Hs & Hps). exists s. split; [done |].
    destruct Hps as [Hr | (k & sp & K1 & K2 & K3 & K4 & K5 & K6 & K7 & K8)]; [by left | right]. exists k, sp.
    do 7 (split; [done |]). intros Hv. destruct (K8 Hv) as (addr & Ha & Hp & Hma). exists addr. rewrite <- Hm by done. done.
  - intros addr Ha. destruct (H6 addr Ha) as (s & Hs & Hr). exists s. by rewrite <- Hm.
Qed.

(** The first [k] bytes of a section and the others. *)
Definition cut (s : PhysSection) (k : Z) : PhysSection := s <| ps_size := k |>.

Definition shift (s : PhysSection) (k : Z) : PhysSection :=
  s <| ps_size := ps_size s - k |>
    <| ps_offset_within_address_space := u64 (ps_offset_within_address_space s + k) |>
    <| ps_offset_within_region := u64 (ps_offset_within_region s + k) |>.

Definition section_ok (s : PhysSection) : Prop :=
  is_region s /\ 0 <= ps_offset_within_address_space s /\ 0 < ps_size s /\
  ps_offset_within_address_space s + ps_size s <= 2 ^ 64 /\
  0 <= ps_offset_within_region s /\ ps_offset_within_region s + ps_size s <= 2 ^ 64.

Lemma shift_fields s k :
  section_ok s -> 0 <= k < ps_size s ->
  ps_offset_within_address_space (shift s k) = ps_offset_within_address_space s + k /\
  ps_offset_within_region (shift s k) = ps_offset_within_region s + k /\
  ps_size (shift s k) = ps_size s - k /\ ps_readonly (shift s k) = ps_readonly s /\ ps_mr (shift s k) = ps_mr s.
Proof.
  intros (_ & Ho & Hs & He & Hr & Hre) Hk. unfold shift, u64, set_field. cbn. rewrite !Z.mod_small by lia. done.
Qed.

Lemma shift_ok s k : section_ok s -> 0 <= k < ps_size s -> section_ok (shift s k).
Proof.
  intros Hs Hk. destruct (shift_fields s k Hs Hk) as (H1 & H2 & H3 & H4 & H5). destruct Hs as (Hr & Ho & Hz & He & Hor & Hre).
  unfold section_ok, is_region. rewrite H1, H2, H3, H5. split; [done | lia].
Qed.

Lemma enter_split m s k addr :
  section_ok s -> 0 <= k < ps_size s -> enter (enter m (cut s k)) (shift s k) addr = enter m s addr.
Proof.
  intros Hs Hk. destruct (shift_fields s k Hs Hk) as (H1 & H2 & H3 & H4 & H5).
  unfold enter, within, reach. rewrite H1, H2, H3, H4, H5. cbn.
  set (o := ps_offset_within_address_space s).
  destruct (Z.leb_spec (o + k) addr), (Z.ltb_spec addr (o + k + (ps_size s - k))), (Z.leb_spec o addr), (Z.ltb_spec addr (o + k)),
    (Z.ltb_spec addr (o + ps_size s)); cbn [andb]; try lia; try done. destruct (ps_mr s); try done. do 3 f_equal. lia.
Qed.

Lemma enter_none m s addr : ps_size s <= 0 -> enter m s addr = m addr.
Proof.
  intros Hs. unfold enter, within. destruct (Z.leb_spec (ps_offset_within_address_space s) addr),
    (Z.ltb_spec addr (ps_offset_within_address_space s + ps_size s)); done || lia.
Qed.

Lemma within_shift s k addr :
  section_ok s -> 0 <= k < ps_size s -> within (shift s k) addr = true ->
  within s addr = true /\ within (cut s k) addr = false.
Proof.
  intros Hs Hk. destruct (shift_fields s k Hs Hk) as (H1 & _ & H3 & _). unfold within. rewrite H1, H3. cbn.
  intros [Ha%Z.leb_le Hb%Z.ltb_lt]%andb_prop. split.
  - apply andb_true_intro. split; [apply Z.leb_le; lia | apply Z.ltb_lt; lia].
  - apply andb_false_intro2, Z.ltb_ge. lia.
Qed.

(** The part of a section after its first [k] bytes is free when the section was. *)
Lemma free_shift m s k :
  section_ok s -> 0 <= k < ps_size s -> (forall addr, within s addr = true -> m addr = None) ->
  forall addr, within (shift s k) addr = true -> enter m (cut s k) addr = None.
Proof.
  intros Hs Hk Hf addr Ha. destruct (within_shift s k addr Hs Hk Ha) as [H1 H2]. unfold enter. rewrite H2. by apply Hf.
Qed.

(** The last part, less than a page, at the start of a page. *)
Lemma add_tail P m d r k fuel :
  built P m 0 d -> section_ok r -> 0 <= k < ps_size r -> ps_size r - k < 1024 ->
  (ps_offset_within_address_space r + k) mod 1024 = 0 ->
  (forall addr, within (shift r k) addr = true -> m addr = None) -> (length (sections d) + 2 <= 1024)%nat ->
  exists P' d', mem_add_loop (S fuel) r k d = Done () d' [] /\ built P' (enter m (shift r k)) 0 d' /\
    (length (sections d') <= length (sections d) + 2)%nat.
Proof.
  intros Hb Hr Hk Hsm Hal Hf Hlen. destruct (shift_fields r k Hr Hk) as (H1 & H2 & H3 & H4 & H5).
  pose proof (shift_ok r k Hr Hk) as Hok. pose proof Hr as (_ & Ho & Hz & He & Hor & Hre).
  destruct (register_subpage_ok P m d (shift r k) Hb) as (P' & d' & Hrun & Hb' & Hl'); [apply Hok | | done | done |].
  { unfold in_page. rewrite H1, H3, Hal. lia. }
  exists P', d'. split; [| done]. cbn [mem_add_loop]. rewrite (proj2 (Z.eqb_neq _ _)) by lia.
  unfold get64. rewrite (proj2 (Z.leb_le 0 k)), (proj2 (Z.ltb_lt k (2 ^ 64))) by lia. cbn [andb].
  rewrite (bind_Done (mret k) _ _ _ _ eq_refl). fold (shift r k). cbv zeta.
  rewrite (proj2 (Z.ltb_lt (ps_size (shift r k)) TARGET_PAGE_SIZE)) by (change TARGET_PAGE_SIZE with 1024; lia).
  rewrite (bind_Done _ _ _ _ _ Hrun). destruct fuel; cbn [mem_add_loop]; by rewrite Z.eqb_refl.
Qed.

Lemma page_floor x : x .& - TARGET_PAGE_SIZE = x / 1024 * 1024.
Proof.
  change (- TARGET_PAGE_SIZE) with (Z.lnot (Z.ones 10)). rewrite <- Z.ldiff_land, Z.ldiff_ones_r by lia.
  by rewrite Z.shiftl_mul_pow2, Z.shiftr_div_pow2 by lia.
Qed.

(** What remains from the start of a page on: whole pages, then the last part. *)
Lemma add_rest P m d r k fuel :
  built P m 0 d -> section_ok r -> 0 <= k < ps_size r -> (ps_offset_within_address_space r + k) mod 1024 = 0 ->
  (forall addr, within (shift r k) addr = true -> m addr = None) -> (length (sections d) + 3 <= 1024)%nat ->
  exists P' d', mem_add_loop (S (S fuel)) r k d = Done () d' [] /\ built P' (enter m (shift r k)) 0 d' /\
    (length (sections d') <= length (sections d) + 3)%nat.
Proof.
  intros Hb Hr Hk Hal Hf Hlen. destruct (shift_fields r k Hr Hk) as (H1 & H2 & H3 & H4 & H5).
  destruct (decide (ps_size r - k < 1024)) as [Hsm | Hbig].
  { destruct (add_tail P m d r k (S fuel) Hb Hr Hk Hsm Hal Hf ltac:(lia)) as (P' & d' & Hrun & Hb' & Hl'). exists P', d'.
    split; [done |]. split; [done | lia]. }
  pose proof (shift_ok r k Hr Hk) as Hok1. remember (shift r k) as r1 eqn:Hr1. pose proof Hok1 as (R1 & R2 & R3 & R4 & R5 & R6).
  remember (ps_size r1 / 1024 * 1024) as w eqn:Hwe. pose proof (Z.div_mod (ps_size r1) 1024) as Hdm. pose proof (Z.mod_pos_bound (ps_size r1) 1024).
  assert (Hw : whole_pages (cut r1 w)).
  { unfold whole_pages. cbn. rewrite H1, Hal. assert (w mod 1024 = 0) by (rewrite Hwe; apply Z_mod_mult). lia. }
  destruct (register_multipage_ok P m d (cut r1 w) Hb) as (P1 & d1 & Hrun1 & Hb1 & Hl1); [done | done | | lia |].
  { intros addr Ha. apply Hf. unfold within in *. cbn in Ha. apply andb_prop in Ha as [Ha1 Ha2%Z.ltb_lt]. rewrite Ha1.
    apply Z.ltb_lt. lia. }
  assert (Hstep : forall P' d', mem_add_loop (S fuel) r1 w d1 = Done () d' [] -> built P' (enter m r1) 0 d' ->
    (length (sections d') <= length (sections d1) + 2)%nat ->
    exists P' d', mem_add_loop (S (S fuel)) r k d = Done () d' [] /\ built P' (enter m r1) 0 d' /\
      (length (sections d') <= length (sections d) + 3)%nat).
  { intros P' d' Hrun Hb' Hl. exists P', d'. split; [| split; [done | lia]].
    remember (S fuel) as g. cbn [mem_add_loop]. rewrite (proj2 (Z.eqb_neq (ps_size r) k)) by lia.
    unfold get64. rewrite (proj2 (Z.leb_le 0 k)), (proj2 (Z.ltb_lt k (2 ^ 64))) by (destruct Hr as (_ & ? & ? & ? & _); lia). cbn [andb].
    rewrite (bind_Done (mret k) _ _ _ _ eq_refl). fold (shift r k). rewrite <- Hr1. cbv zeta.
    rewrite (proj2 (Z.ltb_ge (ps_size r1) TARGET_PAGE_SIZE)) by (change TARGET_PAGE_SIZE with 1024; lia).
    rewrite subpage_idx, H1, Hal. change (cbool 0) with false. cbv iota. rewrite page_floor, <- Hwe. fold (cut r1 w).
    by rewrite (bind_Done _ _ _ _ _ Hrun1). }
  destruct (decide (ps_size r1 = w)) as [Heq | Hne].
  - apply (Hstep P1 d1); [cbn [mem_add_loop]; by rewrite Heq, Z.eqb_refl | | lia].
    apply (built_ext _ _ _ _ Hb1). intros addr _. unfold enter, within, reach. cbn. by rewrite <- Heq.
  - destruct (add_tail P1 (enter m (cut r1 w)) d1 r1 w fuel Hb1 Hok1) as (P2 & d2 & Hrun2 & Hb2 & Hl2); try lia.
    + rewrite H1, Z.add_mod, Hal, Hwe, Z_mod_mult by lia. done.
    + apply free_shift; [done | lia | done].
    + apply (Hstep P2 d2); [done | | lia]. apply (built_ext _ _ _ _ Hb2). intros addr _. apply enter_split; [done | lia].
Qed.

Lemma align_left off : 0 <= off < 2 ^ 64 -> off mod 1024 <> 0 -> u64 (TARGET_PAGE_ALIGN off - off) = 1024 - off mod 1024.
Proof.
  intros Ho Hm. unfold TARGET_PAGE_ALIGN. change TARGET_PAGE_SIZE with 1024.
  pose proof (Z.div_mod off 1024) as Hdm. pose proof (Z.mod_pos_bound off 1024).
  assert (Hd : off / 1024 < 2 ^ 54) by (apply Z.div_lt_upper_bound; lia).
  rewrite page_base by (apply Z.mod_pos_bound; lia). unfold u64.
  assert (Hup : (off + 1024 - 1) / 1024 = off / 1024 + 1) by (symmetry; apply (Z.div_unique _ 1024 _ (off mod 1024 - 1)); lia).
  destruct (decide (off + 1024 - 1 < 2 ^ 64)).
  - rewrite (Z.mod_small (off + 1024 - 1)), Hup, Z.mod_small by lia. lia.
  - assert (Hlast : off / 1024 = 2 ^ 54 - 1) by lia.
    rewrite <- (Z.mod_unique (off + 1024 - 1) (2 ^ 64) 1 (off + 1024 - 1 - 2 ^ 64)) by lia.
    rewrite (Z.div_small (_ - 2 ^ 64)) by lia. symmetry. apply (Z.mod_unique _ _ (-1)); lia.
Qed.

Lemma mem_add_ok P m d s :
  built P m 0 d -> section_ok s -> (forall addr, within s addr = true -> m addr = None) ->
  (length (sections d) + 5 <= 1024)%nat ->
  exists P' d', mem_add s d = Done () d' [] /\ built P' (enter m s) 0 d' /\ (length (sections d') <= length (sections d) + 5)%nat.
Proof.
  intros Hb Hs Hf Hlen. pose proof Hs as (S1 & S2 & S3 & S4 & S5 & S6). unfold mem_add. cbv zeta. rewrite subpage_idx.
  set (off := ps_offset_within_address_space s) in *.
  destruct (decide (off mod 1024 = 0)) as [Hal | Hal].
  - rewrite Hal. change (cbool 0) with false. cbv iota. rewrite (bind_Done (mret 0) _ _ _ _ eq_refl).
    destruct (add_rest P m d s 0 1 Hb Hs) as (P' & d' & Hrun & Hb' & Hl'); try lia.
    + fold off. by rewrite Z.add_0_r.
    + intros addr Ha. apply Hf, (within_shift s 0 addr Hs ltac:(lia) Ha).
    + exists P', d'. split; [done |]. split; [| lia]. apply (built_ext _ _ _ _ Hb'). intros addr _.
      rewrite <- (enter_split m s 0 addr) by (done || lia). unfold enter at 1 2. case_match; [done |]. symmetry. by apply enter_none.
  - replace (cbool (off mod 1024)) with true by (symmetry; apply negb_true_iff, Z.eqb_neq; lia).
    rewrite align_left by (done || lia). set (h := Z.min (1024 - off mod 1024) (ps_size s)). fold (cut s h).
    pose proof (Z.mod_pos_bound off 1024).
    destruct (register_subpage_ok P m d (cut s h) Hb) as (P1 & d1 & Hrun1 & Hb1 & Hl1); [done | | | lia |].
    + unfold in_page. cbn. fold off. lia.
    + intros addr Ha. apply Hf. unfold within in *. cbn in Ha. fold off in Ha. fold off.
      apply andb_prop in Ha as [Ha1 Ha2%Z.ltb_lt]. rewrite Ha1. apply Z.ltb_lt. lia.
    + rewrite bind_assoc, (bind_Done _ _ _ _ _ Hrun1), (bind_Done (mret _) _ _ _ _ eq_refl). change (ps_size (cut s h)) with h.
      destruct (decide (ps_size s = h)) as [Heq | Hne].
      * exists P1, d1. split; [cbn [mem_add_loop]; by rewrite Heq, Z.eqb_refl |]. split; [| lia].
        apply (built_ext _ _ _ _ Hb1). intros addr _. unfold enter, within, reach. cbn. by rewrite <- Heq.
      * destruct (add_rest P1 (enter m (cut s h)) d1 s h 1 Hb1 Hs) as (P2 & d2 & Hrun2 & Hb2 & Hl2); try lia.
        -- fold off. replace (off + h) with ((off / 1024 + 1) * 1024) by (pose proof (Z.div_mod off 1024); lia). apply Z_mod_mult.
        -- apply free_shift; [done | lia | done].
        -- exists P2, d2. split; [done |]. split; [| lia]. apply (built_ext _ _ _ _ Hb2). intros addr _. apply enter_split; [done | lia].
Qed.

(** ** The dispatcher of a flat view *)

(** [address_space_translate] for regions without an IOMMU, which no device of the
    boards has: the length is the one asked for, since the limit that
    [address_space_translate_internal] computes is stored in [plen] and overwritten at
    the end with the initial value. *)
Definition address_space_translate (region_size : nat → Z) (addr plen : Z) : PM (phys_mr * Z * Z) :=
  let len := plen in
  '(section, addr, _) ← address_space_translate_internal region_size addr plen true;
  mret (ps_mr section, addr, len).

Definition build (view : FlatView) : PM unit :=
  mem_begin ;; for_each (MEMORY_LISTENER_UPDATE_REGION <$> view) mem_add ;; mem_commit.

(** What a view says about an address, as far as sections tell it. *)
Definition view_target (view : FlatView) : target := λ addr,
  match view_at view addr with Some h => Some (hit_mr h, hit_offset h, hit_readonly h) | None => None end.

Definition empty_dispatch : AddressSpaceDispatch :=
  mkDispatch (mkEntry 1 PHYS_MAP_NODE_NIL) 0 [] 16
    ((λ mr, mkPhysSection mr 0 (2 ^ 64) 0 false) <$> [io_mem_unassigned; io_mem_notdirty; io_mem_rom; io_mem_watch]) [].

Lemma mem_begin_run d : mem_begin d = Done () empty_dispatch [].
Proof. reflexivity. Qed.

Lemma empty_built : built (λ v, v = 0) (λ _, None) 0 empty_dispatch.
Proof.
  assert (Hpg : forall idx, page_section empty_dispatch idx = Some 0) by (intros idx; by apply look_nil).
  constructor.
  - exists []. constructor; [| constructor]. right. split; [done |]. exists 5%nat. auto.
  - constructor; [done | | done]. intros v ->. split; [lia | by eexists].
  - done.
  - done.
  - by eexists.
  - intros addr _. eexists. split; [eapply section_at_region; [apply Hpg | reflexivity | reflexivity] | done].
  - unfold capacity. cbn. lia.
Qed.

Lemma range_section_ok r l view : view_ok l (r :: view) -> 0 <= l -> section_ok (MEMORY_LISTENER_UPDATE_REGION r).
Proof.
  intros (H1 & H2 & H3 & H4 & H5 & _) Hl. unfold section_ok, addrrange_end in *. cbn. split; [by eexists | lia].
Qed.

Lemma view_target_cons r view addr :
  view_target (r :: view) addr =
    enter (view_target view) (MEMORY_LISTENER_UPDATE_REGION r) addr.
Proof.
  unfold view_target, enter, within, reach. cbn [view_at]. unfold in_range, addrrange_contains, addrrange_end. cbn.
  rewrite Z.geb_leb. destruct ((ar_start (fr_addr r) <=? addr) && (addr <? ar_start (fr_addr r) + ar_size (fr_addr r))); [| done].
  cbn. do 3 f_equal. lia.
Qed.

Lemma add_view P view : forall m d l,
  built P m 0 d -> view_ok l view -> 0 <= l -> (forall addr, l <= addr -> m addr = None) ->
  (length (sections d) + 5 * length view <= 1024)%nat ->
  exists P' d', for_each (MEMORY_LISTENER_UPDATE_REGION <$> view) mem_add d = Done () d' [] /\
    built P' (λ addr, match view_target view addr with Some t => Some t | None => m addr end) 0 d'.
Proof.
  revert P. induction view as [|r view IH]; intros P m d l Hb Hv Hl Hm Hlen.
  { exists P, d. split; [done |]. by apply (built_ext P m). }
  set (s := MEMORY_LISTENER_UPDATE_REGION r). pose proof (range_section_ok r l view Hv Hl) as Hs. fold s in Hs.
  destruct Hv as (H1 & H2 & H3 & H4 & H5 & Hv'). unfold addrrange_end in *.
  destruct (mem_add_ok P m d s Hb Hs) as (P1 & d1 & Hrun1 & Hb1 & Hl1).
  { intros addr [Ha%Z.leb_le _]%andb_prop. apply Hm. cbn in Ha. lia. }
  { cbn in Hlen. lia. }
  destruct (IH P1 (enter m s) d1 (ar_start (fr_addr r) + ar_size (fr_addr r)) Hb1 Hv') as (P2 & d2 & Hrun2 & Hb2).
  - lia.
  - intros addr Ha. unfold enter, within. cbn. rewrite (proj2 (Z.ltb_ge addr _)), andb_false_r by lia. apply Hm. lia.
  - cbn in Hlen. lia.
  - exists P2, d2. split.
    { change (MEMORY_LISTENER_UPDATE_REGION <$> r :: view) with (s :: (MEMORY_LISTENER_UPDATE_REGION <$> view)).
      cbn [for_each]. by rewrite (bind_Done _ _ _ _ _ Hrun1). }
    apply (built_ext _ _ _ _ Hb2). intros addr _. rewrite view_target_cons. fold s. unfold enter.
    destruct (within s addr) eqn:Hin; [| done]. apply andb_prop in Hin as [Hi1%Z.leb_le Hi2%Z.ltb_lt]. cbn in Hi1, Hi2.
    unfold view_target. rewrite (view_at_below _ view addr Hv') by (unfold addrrange_end; lia). done.
Qed.

(** A lookup in a dispatcher with these sections. *)
Lemma lookup_region_run d0 d addr v s :
  sections d = sections d0 -> subpages d = subpages d0 -> page_section d0 (addr >> TARGET_PAGE_BITS) = Some v ->
  phys_page_find addr d = Done v d [] -> section_at d0 addr = Some s ->
  exists w, address_space_lookup_region addr true d = Done w d [] /\ sections d !! Z.to_nat w = Some s.
Proof.
  intros Hsec Hsub Hp Hf Hs. unfold section_at in Hs. rewrite Hp in Hs. cbn [mbind option_bind] in Hs.
  unfold address_space_lookup_region. rewrite (bind_Done _ _ _ _ _ Hf), Hsec.
  destruct (sections d0 !! Z.to_nat v) as [s0 |] eqn:Hs0; [| done]. cbn [mbind option_bind] in Hs.
  rewrite (bind_Done _ _ _ _ _ (get_section_run v s0 d ltac:(by rewrite Hsec))).
  destruct (subpage_of (ps_mr s0)) as [k |]; [| exists v; split; [done | congruence]].
  rewrite bind_get, Hsub. destruct (subpages d0 !! k) as [sp |]; [| done]. cbn [mbind option_bind] in Hs |- *.
  destruct (sub_section sp !! _) as [w |]; [| done]. cbn [mbind option_bind] in Hs. by exists w.
Qed.

Lemma build_ok view d0 :
  view_ok 0 view -> (5 * length view <= 1020)%nat ->
  exists d, build view d0 = Done () d [] /\
    forall addr, 0 <= addr < 2 ^ 64 ->
    exists v s, address_space_lookup_region addr true d = Done v d [] /\ sections d !! Z.to_nat v = Some s /\
      reach s addr = view_target view addr.
Proof.
  intros Hv Hlen. destruct (add_view _ view _ _ 0 empty_built Hv ltac:(lia)) as (P & d1 & Hrun & Hb); [done | cbn; lia |].
  destruct (built_typed _ _ _ _ Hb) as [lv Ht]. pose proof (built_sections _ _ _ _ Hb) as Hso.
  destruct (compact_lookup P d1 lv Ht Hso) as (d & rk & Hc & Hrest & _ & Hfind).
  unfold rest in Hrest. injection Hrest as _ _ Hsec Hsub.
  exists d. split.
  - unfold build. rewrite (bind_Done _ _ _ _ _ (mem_begin_run d0)), (bind_Done _ _ _ _ _ Hrun). exact Hc.
  - intros addr Ha. destruct (Hfind addr Ha) as (v & HPv & Hf1 & Hf). destruct (find_built P _ 0 d1 addr Hb Ha) as (v' & _ & Hp & Hf').
    rewrite Hf1 in Hf'. injection Hf' as <-. destruct (built_target _ _ _ _ Hb addr Ha) as (s & Hs & Hr).
    destruct (lookup_region_run d1 d addr v s Hsec Hsub) as (w & Hw & Hsw); [by rewrite page_div | done | done |].
    exists w, s. split; [done |]. split; [done |]. rewrite Hr. by destruct (view_target view addr).
Qed.

(** The target of an address in a tree of regions, as far as sections tell it. *)
Definition hit_target (x : option hit) : option (nat * Z * bool) :=
  match x with Some h => Some (hit_mr h, hit_offset h, hit_readonly h) | None => None end.

(** C3 (dispatch_correct).  The dispatcher implements the tree of memory regions: the
    flat view of a tree, entered range by range and compacted, is built without
    stopping (for up to 204 ranges), and a lookup of any 64-bit address leads to the
    section of the region, at the offset in it and with the write protection that the
    tree gives for the address, or to unassigned memory where the tree has nothing. *)
Theorem dispatch_correct h fuel root d0 :
  tree_ok h fuel root 0 all_addresses = true ->
  exists view, generate_memory_topology h fuel (Some root) [] = Done () view [] /\
    ((5 * length view <= 1020)%nat ->
     exists d, build view d0 = Done () d [] /\
       forall addr, 0 <= addr < 2 ^ 64 ->
       exists v s, address_space_lookup_region addr true d = Done v d [] /\ sections d !! Z.to_nat v = Some s /\
         reach s addr = hit_target (resolve h fuel root 0 false addr)).
Proof.
  intros Htree. destruct (topology_ok h fuel root [] Htree) as (view & Hgen & Hok & Hat). exists view. split; [done |].
  intros Hlen. destruct (build_ok view d0 Hok Hlen) as (d & Hb & Hl). exists d. split; [done |].
  intros addr Ha. destruct (Hl addr Ha) as (v & s & H1 & H2 & H3). exists v, s. split; [done |]. split; [done |].
  rewrite H3. unfold view_target. by rewrite Hat.
Qed.

Lemma dispatch_correct_witness :
  exists d, build small_view empty_dispatch = Done () d [] /\
    exists v s, address_space_lookup_region 0x1044 true d = Done v d [] /\ sections d !! Z.to_nat v = Some s /\
      reach s 0x1044 = hit_target (resolve small_heap 5 0 0 false 0x1044).
Proof.
  destruct (dispatch_correct small_heap 5 0 empty_dispatch ltac:(vm_compute; reflexivity)) as (view & Hg & Hd).
  assert (Hv : small_view = view) by (unfold small_view; rewrite Hg; reflexivity). rewrite <- Hv in Hd.
  destruct (Hd ltac:(vm_compute; lia)) as (d & Hb & Hl). exists d. split; [exact Hb |]. apply Hl. lia.
Defined.

(** The length that [address_space_translate] reports is never limited to the
    region. *)
Lemma translate_unclamped region_size addr plen d mr xlat len d' t :
  address_space_translate region_size addr plen d = Done (mr, xlat, len) d' t -> len = plen.
Proof.
  unfold address_space_translate, mbind, M_bind. destruct (address_space_translate_internal region_size addr plen true d) as [[[s x] l] s1 t1 |];
    [| done]. cbn. by intros [= _ _ <-].
Qed.

(** The offset that a translation gives is the one of the target. *)
Lemma translate_target region_size addr plen d v s r off ro :
  address_space_lookup_region addr true d = Done v d [] -> sections d !! Z.to_nat v = Some s ->
  reach s addr = Some (r, off, ro) -> 0 <= off < 2 ^ 64 -> 0 <= plen ->
  u64 (addr - ps_offset_within_address_space s) <= region_size r ->
  plen < 2 ^ 64 ->
  address_space_translate region_size addr plen d = Done (RegionMr r, off, plen) d [].
Proof.
  intros Hl Hs Hreach Hoff Hpl Hsz Hp64. unfold reach in Hreach. destruct (ps_mr s) as [| | | | | r'] eqn:Hmr; try done.
  injection Hreach as <- <- <-. unfold address_space_translate, address_space_translate_internal.
  rewrite bind_assoc, (bind_Done _ _ _ _ _ Hl), bind_assoc, (bind_Done _ _ _ _ _ (get_section_run v s d Hs)), Hmr. cbv zeta.
  cbn [mr_size_of]. unfold get64.
  set (a := u64 (addr - ps_offset_within_address_space s)) in *.
  rewrite (proj2 (Z.leb_le 0 (Z.min _ plen))), (proj2 (Z.ltb_lt (Z.min _ plen) (2 ^ 64))) by lia. cbn [andb].
  rewrite bind_assoc, (bind_Done (mret _) _ _ _ _ eq_refl), (bind_Done (mret _) _ _ _ _ eq_refl), Hmr. unfold mret, M_ret.
  do 3 f_equal. unfold a, u64. rewrite Zplus_mod_idemp_l. by apply Z.mod_small.
Qed.
