(* ===== verification/Listener.v ===== *)
(** * The dispatcher as a listener ([exec.c], [memory.c])

    The dispatcher of an address space is a listener of the memory layer: at the end
    of a transaction it is told to begin, about every range of the new flat view of
    its address space (as new or as unchanged), and to commit.  The theorem puts
    [Memregion] and [Dispatch] together: over any sequence of operations the dispatcher
    answers for the tree of regions as it is now. *)

From stdpp Require Import gmap.
From S2P Require Import Prelude Flatview Memregion Physmap Dispatch.
Open Scope Z_scope.

(** The callbacks that [address_space_init_dispatch] registers for the address
    space [k]. *)
Definition dispatch_listener (k : nat) (e : mevent) : PM unit :=
  match e with
  | ListenBegin => mem_begin
  | ListenCommit => mem_commit
  | RegionAdd j fr | RegionNop j fr => when (bool_decide (j = k)) (mem_add (MEMORY_LISTENER_UPDATE_REGION fr))
  | RegionDel _ _ | LogStart _ _ | LogStop _ _ => mret ()
  end.

(** ** What the listener is told *)

(** The ranges that the calls enter. *)
Definition told_ranges (k : nat) (t : list mevent) : list FlatRange :=
  omap (λ e, match e with
             | RegionAdd j fr | RegionNop j fr => if decide (j = k) then Some fr else None
             | _ => None
             end) t.

(** Calls about ranges. *)
Definition about_range (e : mevent) : Prop := match e with ListenBegin | ListenCommit => False | _ => True end.

Lemma bind_inv {E S A B} (m : M E S A) (f : A → M E S B) s b s2 t :
  (m ≫= f) s = Done b s2 t ->
  exists a s1 t1 t2, m s = Done a s1 t1 /\ f a s1 = Done b s2 t2 /\ t = t1 ++ t2.
Proof.
  unfold mbind, M_bind. destruct (m s) as [a s1 t1 |]; [| done]. destruct (f a s1) as [b' s' t2 |] eqn:Hf; [| done].
  intros [= -> -> <-]. by exists a, s1, t1, t2.
Qed.

Lemma told_ranges_app k t1 t2 : told_ranges k (t1 ++ t2) = told_ranges k t1 ++ told_ranges k t2.
Proof. apply omap_app. Qed.

(** A pass over the views: the ranges of the new view in order when ranges are added,
    nothing otherwise. *)
Definition pass_told (k j : nat) (adding : bool) (new : FlatView) (t : list mevent) : Prop :=
  told_ranges k t = (if adding && bool_decide (j = k) then new else []) /\ Forall about_range t.

Lemma pass_told_cons k j adding new new' t1 t2 :
  pass_told k j adding new t2 -> Forall about_range t1 ->
  told_ranges k t1 ++ (if adding && bool_decide (j = k) then new else []) = (if adding && bool_decide (j = k) then new' else []) ->
  pass_told k j adding new' (t1 ++ t2).
Proof.
  intros [H1 H2] Hq Heq. split; [by rewrite told_ranges_app, H1 | by apply Forall_app].
Qed.

Lemma update_pass_told k j adding fuel : forall old new s s' t,
  update_pass fuel j adding old new s = Done () s' t -> s' = s /\ pass_told k j adding new t.
Proof.
  induction fuel as [|fuel IH]; intros old new s s' t; [done |].
  destruct old as [|o old], new as [|n new]; cbn [update_pass].
  - intros [= <- <-]. split; [done |]. split; [by case_match | constructor].
  - intros ([] & s1 & t1 & t2 & H1 & H2 & ->)%bind_inv. rewrite when_emit in H1. injection H1 as <- <-.
    destruct (IH _ _ _ _ _ H2) as [-> Hp]. split; [done |]. apply (pass_told_cons _ _ _ new); [done | by destruct adding; repeat constructor |].
    destruct adding; [| done]. cbn. by destruct (decide (j = k)), (bool_decide_reflect (j = k)).
  - intros ([] & s1 & t1 & t2 & H1 & H2 & ->)%bind_inv. rewrite when_emit in H1. injection H1 as <- <-.
    destruct (IH _ _ _ _ _ H2) as [-> Hp]. split; [done |]. apply (pass_told_cons _ _ _ []); [done | by destruct adding; repeat constructor |].
    by destruct adding.
  - case_match; [| case_match].
    + intros ([] & s1 & t1 & t2 & H1 & H2 & ->)%bind_inv. rewrite when_emit in H1. injection H1 as <- <-.
      destruct (IH _ _ _ _ _ H2) as [-> Hp]. split; [done |].
      apply (pass_told_cons _ _ _ (n :: new)); [done | by destruct adding; repeat constructor | by destruct adding].
    + intros ([] & s1 & t1 & t2 & H1 & H2 & ->)%bind_inv. destruct (IH _ _ _ _ _ H2) as [-> Hp].
      assert (Ht1 : s1 = s /\ Forall about_range t1 /\ told_ranges k t1 = if adding && bool_decide (j = k) then [n] else []).
      { destruct adding; cbn [when] in H1; [| by injection H1 as <- <-].
        apply bind_inv in H1 as ([] & s2 & u1 & u2 & E1 & E2 & ->). injection E1 as <- <-.
        assert (Hu : s1 = s /\ Forall about_range u2 /\ told_ranges k u2 = []).
        { case_match; [by injection E2 as <- <-; repeat constructor |]. rewrite when_emit in E2. injection E2 as <- <-.
          case_match; repeat constructor. }
        destruct Hu as (-> & Hq & Hu). split; [done |]. split; [by repeat constructor |].
        rewrite told_ranges_app, Hu. cbn. by destruct (decide (j = k)), (bool_decide_reflect (j = k)). }
      destruct Ht1 as (-> & Hq & Ht1). split; [done |]. apply (pass_told_cons _ _ _ new); [done | done |]. rewrite Ht1. by case_match.
    + intros ([] & s1 & t1 & t2 & H1 & H2 & ->)%bind_inv. rewrite when_emit in H1. injection H1 as <- <-.
      destruct (IH _ _ _ _ _ H2) as [-> Hp]. split; [done |]. apply (pass_told_cons _ _ _ new); [done | by destruct adding; repeat constructor |].
      destruct adding; [| done]. cbn. by destruct (decide (j = k)), (bool_decide_reflect (j = k)).
Qed.

(** The update of one address space. *)
Lemma update_topology_told k j s s' t :
  address_space_update_topology j s = Done () s' t ->
  Forall about_range t /\
  (j <> k -> told_ranges k t = [] /\ spaces s' !! k = spaces s !! k) /\
  (j = k -> exists a, spaces s' !! k = Some a /\ told_ranges k t = current_map a).
Proof.
  unfold address_space_update_topology. intros (a & s1 & t1 & t2 & H1 & H2 & ->)%bind_inv.
  assert (Hs1 : s1 = s /\ t1 = []).
  { unfold get_space in H1. rewrite bind_get in H1. case_match; [| done]. by injection H1 as _ <- <-. }
  destruct Hs1 as [-> ->]. rewrite bind_get in H2. destruct (topology s (as_root a)) as [[] view u |]; [| done].
  apply bind_inv in H2 as ([] & s2 & u1 & u2 & E1 & E2 & ->). apply bind_inv in E2 as ([] & s3 & u3 & u4 & E2 & E3 & ->).
  injection E3 as <- <-.
  destruct (update_pass_told k j false _ _ _ _ _ _ E1) as [-> [Hn1 Hq1]].
  destruct (update_pass_told k j true _ _ _ _ _ _ E2) as [-> [Hn2 Hq2]].
  cbn [app]. rewrite app_nil_r, told_ranges_app, Hn1, Hn2. cbn. split; [by apply Forall_app |]. split.
  - intros Hne. rewrite bool_decide_eq_false_2 by done. by rewrite lookup_insert_ne.
  - intros <-. rewrite bool_decide_eq_true_2 by done. eexists. by rewrite lookup_insert_eq.
Qed.

(** The update of all address spaces. *)
Lemma update_all_told k ks : forall s s' t,
  for_each ks address_space_update_topology s = Done () s' t -> NoDup ks ->
  Forall about_range t /\
  (k ∉ ks -> told_ranges k t = [] /\ spaces s' !! k = spaces s !! k) /\
  (k ∈ ks -> exists a, spaces s' !! k = Some a /\ told_ranges k t = current_map a).
Proof.
  induction ks as [|j ks IH]; intros s s' t; cbn [for_each].
  { intros [= <- <-] _. split; [constructor |]. split; [done |]. intros H. by apply not_elem_of_nil in H. }
  intros ([] & s1 & t1 & t2 & H1 & H2 & ->)%bind_inv [Hj Hnd]%NoDup_cons.
  destruct (update_topology_told k j s s1 t1 H1) as (Hq1 & Hne & Heq). destruct (IH s1 s' t2 H2 Hnd) as (Hq2 & Hout & Hin).
  split; [by apply Forall_app |]. rewrite told_ranges_app. split.
  - intros Hk. destruct (Hne ltac:(set_solver)) as [-> E1]. destruct (Hout ltac:(set_solver)) as [-> E2]. split; [done | congruence].
  - destruct (decide (j = k)) as [-> |].
    + intros _. destruct (Heq eq_refl) as (a & Ha & ->). destruct (Hout Hj) as [-> E2]. exists a. rewrite app_nil_r. split; [congruence | done].
    + intros Hk. destruct (Hne ltac:(done)) as [-> _]. destruct (Hin ltac:(set_solver)) as (a & Ha & ->). by exists a.
Qed.

(** ** The calls of a transaction *)

Lemma listener_ranges k t rest_ :
  Forall about_range t -> forall d,
  for_each (t ++ rest_) (dispatch_listener k) d =
    (for_each (MEMORY_LISTENER_UPDATE_REGION <$> told_ranges k t) mem_add ;; for_each rest_ (dispatch_listener k)) d.
Proof.
  induction 1 as [|e t He Ht IH]; intros d; cbn [app for_each told_ranges omap list_omap fmap list_fmap].
  { unfold mbind, M_bind. cbn. by destruct (for_each rest_ _ d). }
  assert (Hskip : for_each (t ++ rest_) (dispatch_listener k) d =
    (mret () ;; for_each (t ++ rest_) (dispatch_listener k)) d).
  { unfold mbind, M_bind. cbn. by destruct (for_each _ _ d). }
  assert (Hgo : forall fr, (mem_add (MEMORY_LISTENER_UPDATE_REGION fr) ;; for_each (t ++ rest_) (dispatch_listener k)) d =
    ((mem_add (MEMORY_LISTENER_UPDATE_REGION fr) ;; for_each (MEMORY_LISTENER_UPDATE_REGION <$> told_ranges k t) mem_add) ;;
      for_each rest_ (dispatch_listener k)) d).
  { intros fr. rewrite bind_assoc. unfold mbind at 1 2. unfold M_bind at 1 2.
    destruct (mem_add (MEMORY_LISTENER_UPDATE_REGION fr) d) as [[] d1 t1 |]; [| done]. by rewrite IH. }
  destruct e as [| | j fr | j fr | j fr | j fr | j fr]; try done; cbn [dispatch_listener];
    try (rewrite <- Hskip, IH; done);
    destruct (decide (j = k)), (bool_decide_reflect (j = k)); try done; cbn [when];
    [apply Hgo | rewrite <- Hskip, IH; done | apply Hgo | rewrite <- Hskip, IH; done].
Qed.

(** The calls of an update. *)
Lemma recompute_inv s s' t : recompute true s = Done () s' t ->
  exists s1 u, for_each (address_spaces s) address_space_update_topology s = Done () s1 u /\
    t = ListenBegin :: u ++ [ListenCommit] /\ spaces s' = spaces s1.
Proof.
  unfold recompute. rewrite bind_get. cbn [when]. intros Hrun.
  apply bind_inv in Hrun as ([] & s1 & t1 & t2 & H1 & H2 & ->). injection H2 as <- <-.
  apply bind_inv in H1 as ([] & s2 & u1 & u2 & E1 & E2 & ->). injection E1 as <- <-.
  apply bind_inv in E2 as ([] & s3 & u3 & u4 & E3 & E4 & ->). injection E4 as <- <-.
  exists s3, u3. split; [exact E3 |]. split; [by rewrite app_nil_r | done].
Qed.

(** The dispatcher of an address space finds for every 64-bit address the region, the
    offset and the write protection that the tree gives for it, or unassigned memory
    where the tree has nothing. *)
Definition follows (k : nat) (s : mstate) (d : AddressSpaceDispatch) : Prop :=
  forall a addr, spaces s !! k = Some a -> 0 <= addr < 2 ^ 64 ->
  exists v sec, address_space_lookup_region addr true d = Done v d [] /\ sections d !! Z.to_nat v = Some sec /\
    reach sec addr = hit_target (root_at (mrs s) (as_root a) addr).

(** The flat view has room in the dispatcher. *)
Definition view_fits (k : nat) (s : mstate) : bool :=
  match spaces s !! k with Some a => (length (current_map a) <=? 204)%nat | None => true end.

(** So have the views after every operation. *)
Fixpoint views_fit (k : nat) (os : list mem_op) (s : mstate) : bool :=
  match os with
  | [] => true
  | o :: os => match do_mem o s with Done _ s1 _ => view_fits k s1 && views_fit k os s1 | Halt _ => true end
  end.

Lemma step_followed roots s o h' b k d s' t :
  settled roots s -> NoDup (address_spaces s) -> k ∈ address_spaces s -> follows k s d -> mem_step (mrs s) o = Some (h', b) ->
  do_mem o s = Done () s' t -> mrs s' = h' -> settled roots s' -> view_fits k s' = true ->
  exists d', for_each t (dispatch_listener k) d = Done () d' [] /\ follows k s' d'.
Proof.
  intros Hs Hnd Hk Hf Hstep Hrun Hm Hs' Hfit. destruct s as [h l sp dp pe]. pose proof (se_depth _ _ Hs) as Hd. pose proof (se_pending _ _ Hs) as Hp.
  cbn in Hd, Hp, Hnd, Hk, Hstep. subst dp pe. rewrite (do_mem_run h l sp o h' b Hstep) in Hrun. destruct b.
  - destruct (recompute_inv _ _ _ Hrun) as (s1 & u & Hall & -> & Hsp). destruct (update_all_told k _ _ _ _ Hall Hnd) as (Hq & Hout & Hin).
    destruct (Hin Hk) as (a & Ha & Htold). unfold view_fits in Hfit. rewrite Hsp, Ha in Hfit. apply Nat.leb_le in Hfit.
      destruct (se_current _ _ Hs' k a) as [Hok Hat]; [by rewrite Hsp |].
      destruct (build_ok (current_map a) d Hok ltac:(lia)) as (d' & Hb & Hl). exists d'. split.
    + unfold build in Hb. cbn [for_each dispatch_listener].
        apply bind_inv in Hb as ([] & d1 & b1 & b2 & B1 & B2 & Hbt). apply bind_inv in B2 as ([] & d2 & b3 & b4 & B3 & B4 & ->).
        symmetry in Hbt. apply app_eq_nil in Hbt as [-> Hbt]. apply app_eq_nil in Hbt as [-> ->].
        rewrite (bind_Done _ _ _ _ _ B1), (listener_ranges k u [ListenCommit] Hq), Htold, (bind_Done _ _ _ _ _ B3).
        cbn [for_each dispatch_listener]. by rewrite (bind_Done _ _ _ _ _ B4).
    + intros a' addr Ha' Haddr. assert (a' = a) as -> by congruence. destruct (Hl addr Haddr) as (v & sec & H1 & H2 & H3).
        exists v, sec. split; [done |]. split; [done |]. rewrite H3. unfold view_target. by rewrite Hat.
  - unfold recompute in Hrun. rewrite bind_get in Hrun. injection Hrun as <- <-. exists d. split; [done |]. intros a addr Ha Haddr.
    destruct (Hf a addr Ha Haddr) as (v & sec & H1 & H2 & H3). exists v, sec. split; [done |]. split; [done |]. rewrite H3. f_equal.
    destruct (se_current _ _ Hs k a Ha) as [_ Hat]. destruct (se_current _ _ Hs' k a Ha) as [_ Hat']. by rewrite <- Hat, <- Hat'.
Qed.

(** C21 (dispatcher_follows).  A dispatcher that is right for an address space stays right
    over any sequence of the operations that change the memory tree (adding and removing
    subregions, enabling and disabling regions, changing their attributes, the offset of an
    alias and the address in the container), started in a settled state, under the conditions
    that the code does not stop at an operation, that each leaves below the roots a tree that
    can be rendered, that none places or moves a root, that a region whose address changes
    has a container, and as long as the flat view has at most 204 ranges after each operation, so that the
    tables of the dispatcher have room: no call that the memory layer makes stops, and
    after them the dispatcher finds for every 64-bit address the region, the offset and
    the write protection that the tree of regions gives for the address now, or
    unassigned memory where the tree has nothing.  When an operation makes no calls, the
    dispatcher that there was is still right. *)
Theorem dispatcher_follows roots os k : forall s h' d,
  settled roots s -> NoDup (address_spaces s) -> k ∈ address_spaces s -> follows k s d ->
  mem_run roots (mrs s) os = Some h' -> views_fit k os s = true ->
  exists s' t d', for_each os do_mem s = Done () s' t /\ mrs s' = h' /\ for_each t (dispatch_listener k) d = Done () d' [] /\ follows k s' d'.
Proof.
  induction os as [|o os IH]; intros s h' d Hs Hnd Hk Hf Hrun Hfit; cbn in Hrun.
  { injection Hrun as <-. by exists s, [], d. }
  destruct (mem_step (mrs s) o) as [[h1 b] |] eqn:Hstep; [| done]. cbn in Hrun.
  destruct (roots_ok roots h1) eqn:Hok; [| done]. cbn in Hrun.
  destruct (bool_decide _) eqn:Hpl; [| done]. apply bool_decide_eq_true in Hpl.
  destruct (step_settled roots s o h1 b Hs Hstep Hok Hpl) as (s1 & t1 & H1 & Hm1 & Hs1 & Hl1).
  cbn [views_fit] in Hfit. rewrite H1 in Hfit. apply andb_prop in Hfit as [Hfit1 Hfit].
  destruct (step_followed roots s o h1 b k d s1 t1 Hs Hnd Hk Hf Hstep H1 Hm1 Hs1 Hfit1) as (d1 & Hd1 & Hf1). subst h1.
  destruct (IH s1 h' d1 Hs1 ltac:(by rewrite Hl1) ltac:(by rewrite Hl1) Hf1 Hrun Hfit) as (s2 & t2 & d2 & H2 & Hh & Hd2 & Hf2).
  exists s2, (t1 ++ t2), d2. split; [by eapply bind_Done_trace |]. split; [done |]. split; [| done].
  rewrite for_each_app. by rewrite (bind_Done _ _ _ _ _ Hd1).
Qed.

(** ** A concrete run *)

Definition built_for (s : mstate) : AddressSpaceDispatch :=
  match spaces s !! 0%nat with
  | Some a => match build (current_map a) empty_dispatch with Done _ d _ => d | Halt _ => empty_dispatch end
  | None => empty_dispatch
  end.

Lemma built_follows : follows 0 small_state (built_for small_state).
Proof.
  intros a addr Ha Haddr. destruct (se_current _ _ (proj1 small_settled) 0%nat a Ha) as [Hok Hat].
  assert (Hlen : (length (current_map a) <=? 204)%nat = true).
  { assert (Hs : view_fits 0 small_state = true) by (vm_compute; reflexivity). unfold view_fits in Hs. by rewrite Ha in Hs. }
  apply Nat.leb_le in Hlen. destruct (build_ok (current_map a) empty_dispatch Hok ltac:(lia)) as (d & Hb & Hl).
  unfold built_for. rewrite Ha, Hb. destruct (Hl addr Haddr) as (v & sec & H1 & H2 & H3). exists v, sec. split; [done |]. split; [done |].
  rewrite H3. unfold view_target. by rewrite Hat.
Qed.

Lemma dispatcher_follows_witness :
  exists s' t d', for_each small_ops do_mem small_state = Done () s' t /\
    for_each t (dispatch_listener 0) (built_for small_state) = Done () d' [] /\ follows 0 s' d'.
Proof.
  destruct (mem_run [0%nat] (mrs small_state) small_ops) as [h' |] eqn:Hrun.
  - destruct (dispatcher_follows [0%nat] small_ops 0 small_state h' (built_for small_state) (proj1 small_settled)) as (s' & t & d' & H1 & _ & H2 & H3).
    + assert (Hnd : address_spaces small_state = [0%nat]) by (vm_compute; reflexivity). rewrite Hnd. repeat constructor. apply not_elem_of_nil.
    + assert (Hnd : address_spaces small_state = [0%nat]) by (vm_compute; reflexivity). rewrite Hnd. by left.
    + exact built_follows.
    + exact Hrun.
    + vm_compute. reflexivity.
    + exists s', t, d'. exact (conj H1 (conj H2 H3)).
  - exfalso. assert (Hc : match mem_run [0%nat] (mrs small_state) small_ops with Some _ => true | None => false end = true)
      by (vm_compute; reflexivity). rewrite Hrun in Hc. discriminate Hc.
Defined.
