(* ===== verification/Bitmap.v ===== *)
(** * Bitmaps ([util/bitmap.c], [util/bitops.c], [include/qemu/bitops.h])

    The dirty bitmaps of the guest's memory are arrays of 64-bit words.  Ranges are
    set and cleared a word at a time, and searches look at whole words (four of them
    at once) before they look at bits.  The theorems compare these routines with the
    set of bits that an array stands for. *)

From stdpp Require Import list.
From S2P Require Import Prelude.
Open Scope Z_scope.

Definition BITS_PER_LONG : Z := 64.
Definition BIT_WORD (nr : Z) : Z := nr / BITS_PER_LONG.
Definition BIT_MASK (nr : Z) : Z := 1 << (nr mod BITS_PER_LONG).
Definition BITS_TO_LONGS (nr : Z) : Z := (nr + BITS_PER_LONG - 1) / BITS_PER_LONG.
Definition ULONG_MAX : Z := 2 ^ 64 - 1.
Definition BITMAP_FIRST_WORD_MASK (start : Z) : Z := u64 (ULONG_MAX << (start mod BITS_PER_LONG)).
Definition BITMAP_LAST_WORD_MASK (nbits : Z) : Z :=
  if cbool (nbits mod BITS_PER_LONG) then (1 << (nbits mod BITS_PER_LONG)) - 1 else ULONG_MAX.

Notation bitmap := (list Z).

(** A word of the array; an access outside of it is undefined. *)
Definition word_at (map : bitmap) (p : Z) : option Z := if 0 <=? p then map !! Z.to_nat p else None.

Definition update (map : bitmap) (p : Z) (f : Z → Z) : option bitmap :=
  w ← word_at map p; Some (<[Z.to_nat p := f w]> map).

(** ** Single bits *)

Definition set_bit (nr : Z) (map : bitmap) : option bitmap := update map (BIT_WORD nr) (λ w, w .| BIT_MASK nr).
Definition clear_bit (nr : Z) (map : bitmap) : option bitmap := update map (BIT_WORD nr) (λ w, Z.ldiff w (BIT_MASK nr)).
Definition test_bit (nr : Z) (map : bitmap) : option bool :=
  w ← word_at map (BIT_WORD nr); Some (cbool (1 .& (w >> (nr .& (BITS_PER_LONG - 1))))).

(** ** Ranges *)

(** The loop over whole words; [op] is what is done with a mask and a word. *)
Fixpoint words_loop (fuel : nat) (op : Z → Z → Z) (map : bitmap) (p nr bits mask : Z) : option (bitmap * Z * Z * Z) :=
  if 0 <=? nr - bits then
    match fuel with
    | O => None
    | S fuel =>
        map ← update map p (op mask);
        words_loop fuel op map (p + 1) (nr - bits) BITS_PER_LONG ULONG_MAX
    end
  else Some (map, p, nr, mask).

Definition bitmap_range (op : Z → Z → Z) (map : bitmap) (start nr : Z) : option bitmap :=
  let size := start + nr in
  '(map, p, nr, mask) ←
    words_loop (S (Z.to_nat nr)) op map (BIT_WORD start) nr (BITS_PER_LONG - start mod BITS_PER_LONG)
      (BITMAP_FIRST_WORD_MASK start);
  if cbool nr then update map p (op (mask .& BITMAP_LAST_WORD_MASK size)) else Some map.

Definition bitmap_set (map : bitmap) (start nr : Z) : option bitmap := bitmap_range (λ mask w, w .| mask) map start nr.
Definition bitmap_clear (map : bitmap) (start nr : Z) : option bitmap := bitmap_range (λ mask w, Z.ldiff w mask) map start nr.

(** [g_realloc] keeps the old words; [garbage] is what the new ones hold. *)
Definition bitmap_zero_extend (garbage : nat → Z) (old : bitmap) (old_nbits new_nbits : Z) : option bitmap :=
  let n := Z.to_nat (BITS_TO_LONGS new_nbits) in
  bitmap_clear (take n old ++ (garbage <$> seq (length old) (n - length old))) old_nbits (new_nbits - old_nbits).

(** ** Searching *)

Definition ctzl (val : Z) : Z := if val =? 0 then 64 else Z.log2 (val .& (- val)).

Definition found_middle (result tmp : Z) : option Z := Some (result + ctzl tmp).

(** The last words; [size] is what is left of the bitmap. *)
Definition found_first (size result tmp : Z) : option Z :=
  let tmp := tmp .& (ULONG_MAX >> (BITS_PER_LONG - size)) in
  if tmp =? 0 then Some (result + size) else found_middle result tmp.

Fixpoint one_word_loop (fuel : nat) (map : bitmap) (p size result : Z) : option Z :=
  if BITS_PER_LONG <=? size then
    match fuel with
    | O => None
    | S fuel =>
        tmp ← word_at map p;
        if cbool tmp then found_middle result tmp
        else one_word_loop fuel map (p + 1) (size - BITS_PER_LONG) (result + BITS_PER_LONG)
    end
  else if negb (cbool size) then Some result
  else tmp ← word_at map p; found_first size result tmp.

Fixpoint four_words_loop (fuel : nat) (map : bitmap) (p size result : Z) : option Z :=
  if 4 * BITS_PER_LONG <=? size then
    match fuel with
    | O => None
    | S fuel' =>
        tmp ← word_at map p;
        d1 ← word_at map (p + 1);
        d2 ← word_at map (p + 2);
        d3 ← word_at map (p + 3);
        if cbool tmp then found_middle result tmp
        else if cbool (d1 .| d2 .| d3) then one_word_loop fuel map p size result
        else four_words_loop fuel' map (p + 4) (size - 4 * BITS_PER_LONG) (result + 4 * BITS_PER_LONG)
    end
  else one_word_loop fuel map p size result.

Definition find_next_bit (map : bitmap) (size offset : Z) : option Z :=
  let p := BIT_WORD offset in
  let result := offset - offset mod BITS_PER_LONG in
  if size <=? offset then Some size
  else
    let fuel := Z.to_nat size in
    let size := size - result in
    let offset := offset mod BITS_PER_LONG in
    if cbool offset then
      tmp ← word_at map p;
      let tmp := tmp .& u64 (ULONG_MAX << offset) in
      if size <? BITS_PER_LONG then found_first size result tmp
      else if cbool tmp then found_middle result tmp
      else four_words_loop fuel map (p + 1) (size - BITS_PER_LONG) (result + BITS_PER_LONG)
    else four_words_loop fuel map p size result.

Definition not64 (x : Z) : Z := ULONG_MAX - x.

Definition found_first_zero (size result tmp : Z) : option Z :=
  let tmp := tmp .| u64 (ULONG_MAX << size) in
  if tmp =? ULONG_MAX then Some (result + size) else found_middle result (not64 tmp).

Fixpoint zero_loop (fuel : nat) (map : bitmap) (p size result : Z) : option Z :=
  if cbool (size .& not64 (BITS_PER_LONG - 1)) then
    match fuel with
    | O => None
    | S fuel =>
        tmp ← word_at map p;
        if cbool (not64 tmp) then found_middle result (not64 tmp)
        else zero_loop fuel map (p + 1) (size - BITS_PER_LONG) (result + BITS_PER_LONG)
    end
  else if negb (cbool size) then Some result
  else tmp ← word_at map p; found_first_zero size result tmp.

Definition find_next_zero_bit (map : bitmap) (size offset : Z) : option Z :=
  let p := BIT_WORD offset in
  let result := offset - offset mod BITS_PER_LONG in
  if size <=? offset then Some size
  else
    let fuel := Z.to_nat size in
    let size := size - result in
    let offset := offset mod BITS_PER_LONG in
    if cbool offset then
      tmp ← word_at map p;
      let tmp := tmp .| (ULONG_MAX >> (BITS_PER_LONG - offset)) in
      if size <? BITS_PER_LONG then found_first_zero size result tmp
      else if cbool (not64 tmp) then found_middle result (not64 tmp)
      else zero_loop fuel map (p + 1) (size - BITS_PER_LONG) (result + BITS_PER_LONG)
    else zero_loop fuel map p size result.

(** ** The set of bits of an array *)

Definition bit (map : bitmap) (i : Z) : bool := Z.testbit (default 0 (map !! Z.to_nat (i / 64))) (i mod 64).

Definition words_ok (map : bitmap) : Prop := Forall (λ w, 0 <= w < 2 ^ 64) map.

Definition nbits (map : bitmap) : Z := 64 * Z.of_nat (length map).

Lemma word_at_Some map p : 0 <= p < Z.of_nat (length map) -> exists w, word_at map p = Some w /\ map !! Z.to_nat p = Some w.
Proof.
  intros Hp. unfold word_at. rewrite (proj2 (Z.leb_le 0 p)) by lia.
  destruct (lookup_lt_is_Some_2 map (Z.to_nat p)) as [w Hw]; [lia |]. by exists w.
Qed.

Lemma word_ok map p w : words_ok map -> map !! p = Some w -> 0 <= w < 2 ^ 64.
Proof. intros Hm. apply (proj1 (Forall_lookup _ _) Hm). Qed.

Lemma div64_eq p j : 0 <= j < 64 -> (64 * p + j) / 64 = p.
Proof. intros Hj. symmetry. apply (Z.div_unique _ 64 _ j); lia. Qed.

Lemma mod64_eq p j : 0 <= j < 64 -> (64 * p + j) mod 64 = j.
Proof. intros Hj. symmetry. apply (Z.mod_unique _ 64 p); lia. Qed.

Lemma bit_word map p w j : 0 <= p -> 0 <= j < 64 -> map !! Z.to_nat p = Some w -> bit map (64 * p + j) = Z.testbit w j.
Proof. intros Hp Hj Hw. unfold bit. by rewrite div64_eq, mod64_eq, Hw. Qed.

Lemma testbit_ulong_max i : 0 <= i -> Z.testbit ULONG_MAX i = (i <? 64).
Proof. intros Hi. change ULONG_MAX with (Z.ones 64). by apply testbit_ones. Qed.

Lemma testbit_shl_max k i : 0 <= k -> 0 <= i -> Z.testbit (u64 (ULONG_MAX << k)) i = (k <=? i) && (i <? 64).
Proof.
  intros Hk Hi. unfold u64. rewrite testbit_mod_pow2, testbit_shiftl by lia.
  destruct (Z.leb_spec k i), (Z.ltb_spec i 64); cbn [andb]; rewrite ?testbit_ulong_max by lia; try done.
  apply Z.ltb_lt. lia.
Qed.

Lemma testbit_shr_max k i : 0 <= k <= 64 -> 0 <= i -> Z.testbit (ULONG_MAX >> k) i = (i <? 64 - k).
Proof.
  intros Hk Hi. rewrite Z.shiftr_spec, testbit_ulong_max by lia.
  destruct (Z.ltb_spec (i + k) 64), (Z.ltb_spec i (64 - k)); done || lia.
Qed.

Lemma testbit_last_mask n i : 0 <= n -> 0 <= i < 64 ->
  Z.testbit (BITMAP_LAST_WORD_MASK n) i = (i <? n mod 64) || (n mod 64 =? 0).
Proof.
  intros Hn Hi. unfold BITMAP_LAST_WORD_MASK, BITS_PER_LONG, cbool. pose proof (Z.mod_pos_bound n 64).
  destruct (Z.eqb_spec (n mod 64) 0) as [H0 | H0]; cbn [negb].
  - rewrite orb_true_r, testbit_ulong_max by lia. apply Z.ltb_lt. lia.
  - rewrite orb_false_r. replace ((1 << (n mod 64)) - 1) with (Z.ones (n mod 64)); [apply testbit_ones; lia |].
    rewrite Z.ones_equiv, Z.shiftl_1_l. lia.
Qed.

(** *** Changing words *)

(** What [op] does with a mask: the bits of the mask become [v]. *)
Definition sets_to (op : Z → Z → Z) (v : bool) : Prop :=
  forall mask w, 0 <= mask < 2 ^ 64 -> 0 <= w < 2 ^ 64 ->
    0 <= op mask w < 2 ^ 64 /\ forall i, 0 <= i < 64 -> Z.testbit (op mask w) i = if Z.testbit mask i then v else Z.testbit w i.

Lemma or_sets : sets_to (λ mask w, w .| mask) true.
Proof.
  intros mask w Hm Hw. split; [by apply lor_bound |]. intros i Hi. rewrite Z.lor_spec. by destruct (Z.testbit mask i), (Z.testbit w i).
Qed.

Lemma ldiff_clears : sets_to (λ mask w, Z.ldiff w mask) false.
Proof.
  intros mask w Hm Hw. split; [by apply ldiff_bound |]. intros i Hi. rewrite Z.ldiff_spec. by destruct (Z.testbit mask i), (Z.testbit w i).
Qed.

(** The bits [lo, hi) become [v]. *)
Definition range_becomes (v : bool) (lo hi : Z) (m m' : bitmap) : Prop :=
  words_ok m' /\ length m' = length m /\
  forall i, 0 <= i < nbits m -> bit m' i = if (lo <=? i) && (i <? hi) then v else bit m i.

Lemma becomes_refl v lo m : words_ok m -> range_becomes v lo lo m m.
Proof.
  intros Hm. split; [done |]. split; [done |]. intros i Hi.
  destruct (Z.leb_spec lo i), (Z.ltb_spec i lo); done || lia.
Qed.

Lemma becomes_trans v lo mid hi m1 m2 m3 :
  lo <= mid <= hi -> range_becomes v lo mid m1 m2 -> range_becomes v mid hi m2 m3 -> range_becomes v lo hi m1 m3.
Proof.
  intros Hlm (_ & Hl1 & H1) (Hw & Hl2 & H2). split; [done |]. split; [congruence |]. intros i Hi.
  rewrite H2 by (unfold nbits in *; lia). rewrite H1 by done.
  destruct (Z.leb_spec mid i), (Z.ltb_spec i hi), (Z.leb_spec lo i), (Z.ltb_spec i mid); done || lia.
Qed.

(** A word whose bits [lo, hi) are set to [v]. *)
Lemma update_fills op v m p lo hi mask :
  sets_to op v -> words_ok m -> 0 <= p < Z.of_nat (length m) -> 0 <= mask < 2 ^ 64 ->
  64 * p <= lo -> hi <= 64 * (p + 1) ->
  (forall j, 0 <= j < 64 -> Z.testbit mask j = (lo <=? 64 * p + j) && (64 * p + j <? hi)) ->
  exists m', update m p (op mask) = Some m' /\ range_becomes v lo hi m m'.
Proof.
  intros Hop Hm Hp Hmask Hlo Hhi Hbits. destruct (word_at_Some m p Hp) as (w & Hw & Hl).
  pose proof (word_ok m _ w Hm Hl) as Hwb. destruct (Hop mask w Hmask Hwb) as [Hb Ht].
  unfold update. rewrite Hw. cbn. eexists. split; [done |]. split; [| split].
  - by apply Forall_insert.
  - by rewrite length_insert.
  - intros i Hi. unfold nbits in Hi. pose proof (Z.div_mod i 64 ltac:(lia)). pose proof (Z.mod_pos_bound i 64 ltac:(lia)).
    rewrite (Z.div_mod i 64) by lia. destruct (decide (i / 64 = p)) as [-> | Hne].
    + rewrite (bit_word _ p (op mask w)), Ht, Hbits by (done || lia || (apply list_lookup_insert_eq; lia)).
      by rewrite <- (bit_word m p w) by (done || lia).
    + unfold bit. rewrite !div64_eq, !mod64_eq by lia. rewrite list_lookup_insert_ne by lia.
      destruct (Z.leb_spec lo (64 * (i / 64) + i mod 64)), (Z.ltb_spec (64 * (i / 64) + i mod 64) hi); done || lia.
Qed.

Lemma first_mask_range s : 0 <= BITMAP_FIRST_WORD_MASK s < 2 ^ 64.
Proof. apply u64_range. Qed.

Lemma first_mask_bit s j : 0 <= s -> 0 <= j < 64 -> Z.testbit (BITMAP_FIRST_WORD_MASK s) j = (s <=? 64 * (s / 64) + j).
Proof.
  intros Hs Hj. unfold BITMAP_FIRST_WORD_MASK, BITS_PER_LONG. pose proof (Z.mod_pos_bound s 64). pose proof (Z.div_mod s 64).
  rewrite testbit_shl_max by lia. rewrite (proj2 (Z.ltb_lt j 64)), andb_true_r by lia.
  destruct (Z.leb_spec (s mod 64) j), (Z.leb_spec s (64 * (s / 64) + j)); done || lia.
Qed.

Lemma words_loop_ok op v e : sets_to op v -> forall fuel m s,
  words_ok m -> 0 <= s <= e -> e <= nbits m -> (Z.to_nat (e - s) < fuel)%nat ->
  exists m' s', words_loop fuel op m (s / 64) (e - s) (64 - s mod 64) (BITMAP_FIRST_WORD_MASK s) =
      Some (m', s' / 64, e - s', BITMAP_FIRST_WORD_MASK s') /\
    s <= s' <= e /\ e < 64 * (s' / 64 + 1) /\ range_becomes v s s' m m'.
Proof.
  intros Hop. induction fuel as [|fuel IH]; intros m s Hm Hs He Hf; [lia |].
  pose proof (Z.mod_pos_bound s 64 ltac:(lia)) as Hmod. pose proof (Z.div_mod s 64 ltac:(lia)) as Hdm. cbn [words_loop].
  destruct (Z.leb_spec 0 (e - s - (64 - s mod 64))) as [Hge | Hlt].
  - set (s1 := 64 * (s / 64 + 1)). assert (Hs1 : s1 / 64 = s / 64 + 1 /\ s1 mod 64 = 0).
    { unfold s1. rewrite <- (Z.add_0_r (64 * _)). split; [by apply div64_eq | by apply mod64_eq]. }
    destruct (update_fills op v m (s / 64) s s1 (BITMAP_FIRST_WORD_MASK s) Hop Hm) as (m1 & Hu & Hfill);
      [unfold nbits in He; lia | apply first_mask_range | lia | lia | |].
    { intros j Hj. rewrite first_mask_bit by lia. unfold s1. by rewrite (proj2 (Z.ltb_lt (_ + j) _)), andb_true_r by lia. }
    pose proof Hfill as (Hm1 & Hl1 & _).
    destruct (IH m1 s1) as (m' & s' & Hrun & Hr1 & Hr2 & Hfill2); [done | unfold s1; lia | unfold nbits in *; lia | unfold s1; lia |].
    exists m', s'. rewrite Hu. cbn [mbind option_bind]. destruct Hs1 as [Hq Hr]. rewrite Hq, Hr in Hrun.
    replace (e - s - (64 - s mod 64)) with (e - s1) by (unfold s1; lia).
    replace ULONG_MAX with (BITMAP_FIRST_WORD_MASK s1) by (unfold BITMAP_FIRST_WORD_MASK, BITS_PER_LONG; by rewrite Hr).
    split; [exact Hrun |]. split; [unfold s1 in Hr1; lia |]. split; [done |]. apply (becomes_trans v s s1 s' m m1 m'); [lia | done | done].
  - exists m, s. split; [done |]. split; [lia |]. split; [lia |]. by apply becomes_refl.
Qed.

Lemma bitmap_range_ok op v m start nr :
  sets_to op v -> words_ok m -> 0 <= start -> 0 <= nr -> start + nr <= nbits m ->
  exists m', bitmap_range op m start nr = Some m' /\ range_becomes v start (start + nr) m m'.
Proof.
  intros Hop Hm Hs Hn Hc. unfold bitmap_range, BIT_WORD, BITS_PER_LONG.
  destruct (words_loop_ok op v (start + nr) Hop (S (Z.to_nat nr)) m start) as (m1 & s & Hrun & Hr1 & Hr2 & Hf);
    [done | lia | done | lia |].
  replace (start + nr - start) with nr in Hrun by lia. rewrite Hrun. cbn [mbind option_bind].
  unfold cbool. destruct (Z.eqb_spec (start + nr - s) 0) as [H0 | H0]; cbn [negb].
  { exists m1. split; [done |]. by replace (start + nr) with s by lia. }
  pose proof Hf as (Hm1 & Hl1 & _). pose proof (Z.div_mod s 64 ltac:(lia)). pose proof (Z.mod_pos_bound s 64 ltac:(lia)).
  destruct (update_fills op v m1 (s / 64) s (start + nr) (BITMAP_FIRST_WORD_MASK s .& BITMAP_LAST_WORD_MASK (start + nr)) Hop Hm1)
    as (m2 & Hu & Hf2); [unfold nbits in Hc; lia | | lia | lia | |].
  - rewrite Z.land_comm. apply land_bound; [lia | apply first_mask_range].
  - intros j Hj. rewrite Z.land_spec, first_mask_bit, testbit_last_mask by lia. f_equal.
    assert (Hq : (start + nr) / 64 = s / 64).
    { symmetry. apply (Z.div_unique _ 64 _ (start + nr - 64 * (s / 64))); lia. }
    pose proof (Z.div_mod (start + nr) 64 ltac:(lia)). rewrite Hq in *.
    destruct (Z.ltb_spec j ((start + nr) mod 64)), (Z.ltb_spec (64 * (s / 64) + j) (start + nr)),
      (Z.eqb_spec ((start + nr) mod 64) 0); done || lia.
  - exists m2. split; [done |]. by apply (becomes_trans v start s (start + nr) m m1 m2); [lia | |].
Qed.

Lemma bitmap_set_ok m start nr :
  words_ok m -> 0 <= start -> 0 <= nr -> start + nr <= nbits m ->
  exists m', bitmap_set m start nr = Some m' /\ range_becomes true start (start + nr) m m'.
Proof. apply bitmap_range_ok, or_sets. Qed.

Lemma bitmap_clear_ok m start nr :
  words_ok m -> 0 <= start -> 0 <= nr -> start + nr <= nbits m ->
  exists m', bitmap_clear m start nr = Some m' /\ range_becomes false start (start + nr) m m'.
Proof. apply bitmap_range_ok, ldiff_clears. Qed.

(** *** Searching *)

Lemma land_neg_double v : (2 * v) .& - (2 * v) = 2 * (v .& - v).
Proof.
  apply Z.bits_inj'. intros i Hi. replace (- (2 * v)) with (2 * - v) by lia. rewrite Z.land_spec.
  destruct (decide (i = 0)) as [-> |]; [by rewrite !Z.testbit_even_0 |].
  replace i with (Z.succ (i - 1)) by lia. rewrite !Z.testbit_even_succ by lia. by rewrite Z.land_spec.
Qed.

Lemma land_neg_odd v : (2 * v + 1) .& - (2 * v + 1) = 1.
Proof.
  apply Z.bits_inj'. intros i Hi. replace (- (2 * v + 1)) with (2 * Z.lnot v + 1) by (unfold Z.lnot; lia). rewrite Z.land_spec.
  destruct (decide (i = 0)) as [-> |]; [by rewrite !Z.testbit_odd_0 |].
  replace i with (Z.succ (i - 1)) by lia. rewrite !Z.testbit_odd_succ, Z.lnot_spec, andb_negb_r by lia.
  by destruct (i - 1) as [| [] |] eqn:He; try lia.
Qed.

Lemma land_neg_pos p : 0 < Z.pos p .& - Z.pos p.
Proof.
  induction p as [p IH | p IH |]; [by rewrite Pos2Z.inj_xI, land_neg_odd | | done].
  rewrite Pos2Z.inj_xO, land_neg_double. lia.
Qed.

(** [ctzl] is the number of the lowest bit that is set. *)
Lemma ctzl_spec v : 0 < v -> 0 <= ctzl v /\ Z.testbit v (ctzl v) = true /\ forall i, 0 <= i < ctzl v -> Z.testbit v i = false.
Proof.
  intros Hv. unfold ctzl. rewrite (proj2 (Z.eqb_neq v 0)) by lia. destruct v as [| p |]; try lia. clear Hv.
  induction p as [p IH | p IH |].
  - rewrite Pos2Z.inj_xI, land_neg_odd. cbn. split; [done |]. split; [done |]. intros i Hi. lia.
  - rewrite Pos2Z.inj_xO, land_neg_double. destruct IH as (H1 & H2 & H3).
    rewrite Z.log2_double by apply land_neg_pos. split; [lia |]. split; [by rewrite Z.testbit_even_succ |].
    intros i Hi. destruct (decide (i = 0)) as [-> |]; [apply Z.testbit_even_0 |].
    replace i with (Z.succ (i - 1)) by lia. rewrite Z.testbit_even_succ by lia. apply H3. lia.
  - change (Z.log2 (1 .& - (1))) with 0. split; [done |]. split; [done |]. intros i Hi. lia.
Qed.

(** The least number from [off] on, below [N], that has the property, or [N]. *)
Definition first_from (f : Z → bool) (off N r : Z) : Prop :=
  off <= r <= N /\ (forall i, off <= i < r -> f i = false) /\ (r < N -> f r = true).

(** [tmp] holds the property for the numbers of the word [p] from [off] on. *)
Definition word_of (f : Z → bool) (p off tmp : Z) : Prop :=
  0 <= tmp < 2 ^ 64 /\ forall j, 0 <= j < 64 -> Z.testbit tmp j = (off <=? 64 * p + j) && f (64 * p + j).

Definition none_in (f : Z → bool) (lo hi : Z) : Prop := forall i, lo <= i < hi -> f i = false.

Lemma zero_word f p off tmp : word_of f p off tmp -> tmp = 0 -> none_in f off (64 * p) -> none_in f off (64 * (p + 1)).
Proof.
  intros [_ Ht] -> Hn i Hi. destruct (decide (i < 64 * p)); [apply Hn; lia |].
  specialize (Ht (i - 64 * p) ltac:(lia)). rewrite Z.testbit_0_l, (proj2 (Z.leb_le off _)) in Ht by lia.
  by replace (64 * p + (i - 64 * p)) with i in Ht by lia.
Qed.

Lemma found_ok f p off tmp :
  word_of f p off tmp -> tmp <> 0 -> none_in f off (64 * p) ->
  exists r, found_middle (64 * p) tmp = Some r /\ off <= r < 64 * (p + 1) /\ none_in f off r /\ f r = true.
Proof.
  intros [Hb Ht] Hne Hn. destruct (ctzl_spec tmp ltac:(lia)) as (H1 & H2 & H3). set (c := ctzl tmp) in *.
  assert (Hc : c < 64).
  { destruct (decide (c < 64)); [done |]. rewrite (testbit_high 64 tmp c) in H2 by lia. done. }
  pose proof (Ht c ltac:(lia)) as Hbit. rewrite H2 in Hbit. symmetry in Hbit. apply andb_prop in Hbit as [Hlo%Z.leb_le Hf].
  exists (64 * p + c). split; [done |]. split; [lia |]. split; [| done].
  intros i Hi. destruct (decide (i < 64 * p)); [apply Hn; lia |].
  pose proof (H3 (i - 64 * p) ltac:(lia)) as Hz. rewrite Ht, (proj2 (Z.leb_le off _)) in Hz by lia.
  by replace (64 * p + (i - 64 * p)) with i in Hz by lia.
Qed.

Lemma middle_ok f p off N tmp :
  word_of f p off tmp -> tmp <> 0 -> 64 * (p + 1) <= N -> none_in f off (64 * p) ->
  exists r, found_middle (64 * p) tmp = Some r /\ first_from f off N r.
Proof.
  intros Hw Hne HN Hn. destruct (found_ok f p off tmp Hw Hne Hn) as (r & Hr & Hlt & Hno & Hf).
  exists r. split; [done |]. split; [lia | done].
Qed.

(** The last word, of which [N - 64 * p] bits count. *)
Lemma last_ok f p off N tmp masked :
  word_of f p off tmp -> 64 * p < N < 64 * (p + 1) -> off <= N -> none_in f off (64 * p) ->
  0 <= masked < 2 ^ 64 -> (forall j, 0 <= j < 64 -> Z.testbit masked j = Z.testbit tmp j && (j <? N - 64 * p)) ->
  exists r, (if masked =? 0 then Some (64 * p + (N - 64 * p)) else found_middle (64 * p) masked) = Some r /\ first_from f off N r.
Proof.
  intros [Hb Ht] HN Hoff Hn Hmb Hm.
  assert (Hw : word_of (λ i, f i && (i <? N)) p off masked).
  { split; [done |]. intros j Hj. rewrite Hm, Ht by lia.
    destruct (Z.ltb_spec j (N - 64 * p)), (Z.ltb_spec (64 * p + j) N); try lia; by rewrite ?andb_true_r, ?andb_false_r. }
  destruct (Z.eqb_spec masked 0) as [H0 | H0].
  - exists N. split; [f_equal; lia |]. split; [lia |]. split; [| lia]. intros i Hi.
    assert (Hz : f i && (i <? N) = false).
    { apply (zero_word _ p off masked Hw H0); [intros k Hk; by rewrite Hn | lia]. }
    by rewrite (proj2 (Z.ltb_lt i N)), andb_true_r in Hz by lia.
  - destruct (found_ok _ p off masked Hw H0) as (r & Hr & Hlt & Hno & [Hf HrN%Z.ltb_lt]%andb_prop).
    { intros k Hk. by rewrite Hn. }
    exists r. split; [done |]. split; [lia |]. split; [| done]. intros i Hi. specialize (Hno i Hi). cbn in Hno.
    by rewrite (proj2 (Z.ltb_lt i N)), andb_true_r in Hno by lia.
Qed.

Lemma bit_word_of m p w off :
  words_ok m -> 0 <= p -> m !! Z.to_nat p = Some w -> off <= 64 * p -> word_of (bit m) p off w.
Proof.
  intros Hm Hp Hw Hoff. split; [by apply (word_ok m (Z.to_nat p) w Hm) |]. intros j Hj.
  by rewrite (proj2 (Z.leb_le off _)), (bit_word m p w j) by (done || lia).
Qed.

Lemma not64_range x : 0 <= x < 2 ^ 64 -> 0 <= not64 x < 2 ^ 64.
Proof. unfold not64, ULONG_MAX. lia. Qed.

Lemma testbit_not64 x i : 0 <= x < 2 ^ 64 -> 0 <= i < 64 -> Z.testbit (not64 x) i = negb (Z.testbit x i).
Proof.
  intros Hx Hi. assert (Hn : not64 x = (Z.lnot x) mod 2 ^ 64).
  { unfold not64, ULONG_MAX, Z.lnot. apply (Z.mod_unique _ _ (-1)); lia. }
  by rewrite Hn, testbit_mod_pow2, Z.lnot_spec, (proj2 (Z.ltb_lt i 64)) by lia.
Qed.

Lemma zero_word_of m p w off :
  words_ok m -> 0 <= p -> m !! Z.to_nat p = Some w -> off <= 64 * p -> word_of (λ i, negb (bit m i)) p off (not64 w).
Proof.
  intros Hm Hp Hw Hoff. pose proof (word_ok m _ w Hm Hw). split; [by apply not64_range |]. intros j Hj.
  by rewrite (proj2 (Z.leb_le off _)), (bit_word m p w j), testbit_not64 by (done || lia).
Qed.

(** The end of a search in the words from [p] on. *)
Definition searched (f : Z → bool) (off N : Z) (x : option Z) : Prop := exists r, x = Some r /\ first_from f off N r.

Lemma found_first_ok m p off N tmp :
  word_of (bit m) p off tmp -> 64 * p < N < 64 * (p + 1) -> off <= N -> none_in (bit m) off (64 * p) ->
  searched (bit m) off N (found_first (N - 64 * p) (64 * p) tmp).
Proof.
  intros Hw HN Hoff Hn. unfold found_first. apply (last_ok (bit m) p off N tmp); try done.
  - rewrite Z.land_comm. apply land_bound; [lia | by destruct Hw].
  - intros j Hj. unfold BITS_PER_LONG. rewrite Z.land_spec, testbit_shr_max by lia.
    by replace (64 - (64 - (N - 64 * p))) with (N - 64 * p) by lia.
Qed.

Lemma found_first_zero_ok m p off N tmp :
  word_of (λ i, negb (bit m i)) p off (not64 tmp) -> 0 <= tmp < 2 ^ 64 -> 64 * p < N < 64 * (p + 1) -> off <= N ->
  none_in (λ i, negb (bit m i)) off (64 * p) ->
  searched (λ i, negb (bit m i)) off N (found_first_zero (N - 64 * p) (64 * p) tmp).
Proof.
  intros Hw Htmp HN Hoff Hn. unfold found_first_zero. set (t := tmp .| u64 (ULONG_MAX << (N - 64 * p))).
  assert (Ht : 0 <= t < 2 ^ 64) by (apply lor_bound; [lia | done | apply u64_range]).
  destruct (last_ok _ p off N (not64 tmp) (not64 t) Hw HN Hoff Hn (not64_range t Ht)) as (r & Hr & Hf).
  { intros j Hj. rewrite !testbit_not64 by done. unfold t. rewrite Z.lor_spec, testbit_shl_max by lia.
    destruct (Z.testbit tmp j), (Z.leb_spec (N - 64 * p) j), (Z.ltb_spec j (N - 64 * p)), (Z.ltb_spec j 64); done || lia. }
  exists r. split; [| done]. rewrite <- Hr. unfold not64. destruct (Z.eqb_spec t ULONG_MAX), (Z.eqb_spec (ULONG_MAX - t) 0); done || lia.
Qed.

Lemma one_word_loop_ok m off N : words_ok m -> 0 <= off -> N <= nbits m -> forall fuel p,
  0 <= p -> 64 * p <= N -> off <= N -> off <= 64 * p -> none_in (bit m) off (64 * p) -> (Z.to_nat (N - 64 * p) <= fuel)%nat ->
  searched (bit m) off N (one_word_loop fuel m p (N - 64 * p) (64 * p)).
Proof.
  intros Hm Hoff HN. unfold nbits in HN. induction fuel as [|fuel IH]; intros p Hp HpN HoN Hop Hn Hf; cbn [one_word_loop]; unfold BITS_PER_LONG.
  { assert (HE : N = 64 * p) by lia. rewrite (proj2 (Z.leb_gt 64 _)) by lia. unfold cbool.
    rewrite HE, Z.sub_diag. cbn. exists (64 * p). split; [done |]. rewrite <- HE in *. split; [lia |]. split; [| lia]. exact Hn. }
  destruct (Z.leb_spec 64 (N - 64 * p)) as [Hge | Hlt].
  - destruct (word_at_Some m p ltac:(lia)) as (w & Hw & Hl). rewrite Hw. cbn [mbind option_bind].
    pose proof (bit_word_of m p w off Hm Hp Hl ltac:(lia)) as Hwo. unfold cbool.
    destruct (Z.eqb_spec w 0) as [H0 | H0]; cbn [negb].
    + replace (N - 64 * p - 64) with (N - 64 * (p + 1)) by lia. replace (64 * p + 64) with (64 * (p + 1)) by lia.
      apply IH; try lia. by apply (zero_word _ p off w).
    + apply (middle_ok _ p off N w Hwo H0); [lia | done].
  - unfold cbool. destruct (Z.eqb_spec (N - 64 * p) 0) as [H0 | H0]; cbn [negb].
    + exists (64 * p). split; [done |]. split; [lia |]. split; [exact Hn | lia].
    + destruct (word_at_Some m p ltac:(lia)) as (w & Hw & Hl). rewrite Hw. cbn [mbind option_bind].
      apply found_first_ok; [apply bit_word_of; try done; lia | lia | done | done].
Qed.

Lemma four_words_loop_ok m off N : words_ok m -> 0 <= off -> N <= nbits m -> forall fuel p,
  0 <= p -> 64 * p <= N -> off <= N -> off <= 64 * p -> none_in (bit m) off (64 * p) -> (Z.to_nat (N - 64 * p) <= fuel)%nat ->
  searched (bit m) off N (four_words_loop fuel m p (N - 64 * p) (64 * p)).
Proof.
  intros Hm Hoff HN. induction fuel as [|fuel IH]; intros p Hp HpN HoN Hop Hn Hf; cbn [four_words_loop];
    [| destruct (Z.leb_spec (4 * BITS_PER_LONG) (N - 64 * p)) as [Hge | Hlt]];
    [rewrite (proj2 (Z.leb_gt _ _)) by (unfold BITS_PER_LONG; lia); by apply one_word_loop_ok | | by apply one_word_loop_ok].
  unfold BITS_PER_LONG, nbits in *.
  destruct (word_at_Some m p ltac:(lia)) as (w0 & -> & L0), (word_at_Some m (p + 1) ltac:(lia)) as (w1 & -> & L1),
    (word_at_Some m (p + 2) ltac:(lia)) as (w2 & -> & L2), (word_at_Some m (p + 3) ltac:(lia)) as (w3 & -> & L3).
  cbn [mbind option_bind]. pose proof (bit_word_of m p w0 off Hm Hp L0 ltac:(lia)) as Hwo. unfold cbool.
  destruct (Z.eqb_spec w0 0) as [H0 | H0]; cbn [negb]; [| apply (middle_ok _ p off N w0 Hwo H0); [lia | done]].
  destruct (Z.eqb_spec (w1 .| w2 .| w3) 0) as [HD | HD]; cbn [negb]; [| by apply one_word_loop_ok].
  apply Z.lor_eq_0_iff in HD as [[HD1 HD2]%Z.lor_eq_0_iff HD3].
  replace (N - 64 * p - 4 * 64) with (N - 64 * (p + 1 + 1 + 1 + 1)) by lia.
  replace (64 * p + 4 * 64) with (64 * (p + 1 + 1 + 1 + 1)) by lia. replace (p + 4) with (p + 1 + 1 + 1 + 1) by lia.
  apply IH; try lia.
  assert (Hz : forall q w, 0 <= q -> m !! Z.to_nat q = Some w -> w = 0 -> off <= 64 * q -> none_in (bit m) off (64 * q) ->
    none_in (bit m) off (64 * (q + 1))).
  { intros q w Hq Hl Hw0 Hoq. apply (zero_word _ q off w); [by apply bit_word_of | done]. }
  apply (Hz _ w3); [lia | by replace (p + 1 + 1 + 1) with (p + 3) by lia | done | lia |].
  apply (Hz _ w2); [lia | by replace (p + 1 + 1) with (p + 2) by lia | done | lia |].
  apply (Hz _ w1); [lia | done | done | lia |]. by apply (Hz _ w0); [lia | | | lia |].
Qed.

Lemma whole_words size : 0 <= size < 2 ^ 64 -> cbool (size .& not64 (BITS_PER_LONG - 1)) = (64 <=? size).
Proof.
  intros Hs. assert (Hl : size .& not64 (BITS_PER_LONG - 1) = size / 64 * 64).
  { trans (Z.ldiff size (Z.ones 6)).
    - apply Z.bits_inj'. intros i Hi. rewrite Z.land_spec, Z.ldiff_spec. destruct (decide (i < 64)).
      + rewrite testbit_not64 by (unfold BITS_PER_LONG; lia). done.
      + by rewrite (testbit_high 64 size) by lia.
    - by rewrite Z.ldiff_ones_r, Z.shiftl_mul_pow2, Z.shiftr_div_pow2 by lia. }
  rewrite Hl. unfold cbool. pose proof (Z.div_mod size 64 ltac:(lia)). pose proof (Z.mod_pos_bound size 64 ltac:(lia)).
  destruct (Z.eqb_spec (size / 64 * 64) 0), (Z.leb_spec 64 size); done || lia.
Qed.

Lemma zero_loop_ok m off N : words_ok m -> 0 <= off -> N <= nbits m -> N < 2 ^ 64 -> forall fuel p,
  0 <= p -> 64 * p <= N -> off <= N -> off <= 64 * p -> none_in (λ i, negb (bit m i)) off (64 * p) ->
  (Z.to_nat (N - 64 * p) <= fuel)%nat ->
  searched (λ i, negb (bit m i)) off N (zero_loop fuel m p (N - 64 * p) (64 * p)).
Proof.
  intros Hm Hoff HN HNb. unfold nbits in HN.
  assert (Hend : forall p, off <= 64 * p -> 64 * p = N -> none_in (λ i, negb (bit m i)) off (64 * p) ->
    searched (λ i, negb (bit m i)) off N (Some (64 * p))).
  { intros p Hop HE Hn. exists (64 * p). split; [done |]. split; [lia |]. split; [exact Hn | lia]. }
  induction fuel as [|fuel IH]; intros p Hp HpN HoN Hop Hn Hf; cbn [zero_loop]; rewrite whole_words by lia.
  { rewrite (proj2 (Z.leb_gt 64 _)) by lia. unfold cbool. rewrite (proj2 (Z.eqb_eq _ 0)) by lia. apply Hend; [done | lia | done]. }
  unfold BITS_PER_LONG. destruct (Z.leb_spec 64 (N - 64 * p)) as [Hge | Hlt].
  - destruct (word_at_Some m p ltac:(lia)) as (w & Hw & Hl). rewrite Hw. cbn [mbind option_bind].
    pose proof (zero_word_of m p w off Hm Hp Hl ltac:(lia)) as Hwo. unfold cbool.
    destruct (Z.eqb_spec (not64 w) 0) as [H0 | H0]; cbn [negb].
    + replace (N - 64 * p - 64) with (N - 64 * (p + 1)) by lia. replace (64 * p + 64) with (64 * (p + 1)) by lia.
      apply IH; try lia. by apply (zero_word _ p off (not64 w)).
    + apply (middle_ok _ p off N (not64 w) Hwo H0); [lia | done].
  - unfold cbool. destruct (Z.eqb_spec (N - 64 * p) 0) as [H0 | H0]; cbn [negb]; [apply Hend; [done | lia | done] |].
    destruct (word_at_Some m p ltac:(lia)) as (w & Hw & Hl). rewrite Hw. cbn [mbind option_bind].
    apply found_first_zero_ok; [apply zero_word_of; try done; lia | by apply (word_ok m (Z.to_nat p)) | lia | done | done].
Qed.

(** Where a search starts. *)
Lemma start_word off : 0 <= off -> off - off mod 64 = 64 * (off / 64) /\ 0 <= off / 64 /\ 64 * (off / 64) <= off < 64 * (off / 64 + 1).
Proof. intros Ho. pose proof (Z.div_mod off 64). pose proof (Z.mod_pos_bound off 64). lia. Qed.

Lemma find_next_bit_ok m N off :
  words_ok m -> 0 <= off <= N -> N <= nbits m -> searched (bit m) off N (find_next_bit m N off).
Proof.
  intros Hm Ho HN. destruct (start_word off ltac:(lia)) as (Hr & Hp & Hoff). pose proof (Z.mod_pos_bound off 64 ltac:(lia)) as Hmod.
  unfold find_next_bit, BIT_WORD. change BITS_PER_LONG with 64.
  destruct (Z.leb_spec N off) as [HE | Hlt].
  { exists N. split; [done |]. split; [lia |]. split; [| lia]. intros i Hi. lia. }
  rewrite Hr. set (p := off / 64) in *. cbv zeta. unfold cbool.
  destruct (Z.eqb_spec (off mod 64) 0) as [H0 | H0]; cbn [negb].
  { apply (four_words_loop_ok m off N); try done; try lia. intros i Hi. lia. }
  destruct (word_at_Some m p ltac:(unfold nbits in HN; lia)) as (w & Hw & Hl). rewrite Hw. cbn [mbind option_bind].
  assert (Hwo : word_of (bit m) p off (w .& u64 (ULONG_MAX << (off mod 64)))).
  { split; [apply land_bound; [lia | apply u64_range] |]. intros j Hj. rewrite Z.land_spec, testbit_shl_max by lia.
    rewrite (proj2 (Z.ltb_lt j 64)), andb_true_r, andb_comm, (bit_word m p w j) by (done || lia).
    f_equal. destruct (Z.leb_spec (off mod 64) j), (Z.leb_spec off (64 * p + j)); done || lia. }
  assert (Hno : none_in (bit m) off (64 * p)) by (intros i Hi; lia).
  set (tmp := w .& _) in *.
  destruct (Z.ltb_spec (N - 64 * p) 64) as [Hs | Hs].
  { by apply found_first_ok; [| lia | lia |]. }
  destruct (Z.eqb_spec tmp 0) as [Ht | Ht]; cbn [negb].
  - replace (N - 64 * p - 64) with (N - 64 * (p + 1)) by lia. replace (64 * p + 64) with (64 * (p + 1)) by lia.
    apply (four_words_loop_ok m off N); try done; try lia. by apply (zero_word _ p off tmp).
  - apply (middle_ok _ p off N tmp Hwo Ht); [lia | done].
Qed.

Lemma find_next_zero_bit_ok m N off :
  words_ok m -> 0 <= off <= N -> N <= nbits m -> N < 2 ^ 64 ->
  searched (λ i, negb (bit m i)) off N (find_next_zero_bit m N off).
Proof.
  intros Hm Ho HN HNb. destruct (start_word off ltac:(lia)) as (Hr & Hp & Hoff). pose proof (Z.mod_pos_bound off 64 ltac:(lia)) as Hmod.
  unfold find_next_zero_bit, BIT_WORD. change BITS_PER_LONG with 64.
  destruct (Z.leb_spec N off) as [HE | Hlt].
  { exists N. split; [done |]. split; [lia |]. split; [| lia]. intros i Hi. lia. }
  rewrite Hr. set (p := off / 64) in *. cbv zeta. unfold cbool.
  destruct (Z.eqb_spec (off mod 64) 0) as [H0 | H0]; cbn [negb].
  { apply (zero_loop_ok m off N); try done; try lia. intros i Hi. lia. }
  destruct (word_at_Some m p ltac:(unfold nbits in HN; lia)) as (w & Hw & Hl). rewrite Hw. cbn [mbind option_bind].
  pose proof (word_ok m _ w Hm Hl) as Hwb.
  assert (Htb : 0 <= w .| (ULONG_MAX >> (64 - off mod 64)) < 2 ^ 64).
  { apply lor_bound; [lia | done |]. apply shiftr_bound; [lia | lia |]. unfold ULONG_MAX. pose proof (Z.pow_le_mono_r 2 64 (64 + (64 - off mod 64))). lia. }
  assert (Hwo : word_of (λ i, negb (bit m i)) p off (not64 (w .| (ULONG_MAX >> (64 - off mod 64))))).
  { split; [by apply not64_range |]. intros j Hj. rewrite testbit_not64, Z.lor_spec, testbit_shr_max by (done || lia).
    rewrite negb_orb, andb_comm, (bit_word m p w j) by (done || lia).
    f_equal. destruct (Z.ltb_spec j (64 - (64 - off mod 64))), (Z.leb_spec off (64 * p + j)); done || lia. }
  assert (Hno : none_in (λ i, negb (bit m i)) off (64 * p)) by (intros i Hi; lia).
  set (tmp := w .| _) in *.
  destruct (Z.ltb_spec (N - 64 * p) 64) as [Hs | Hs].
  { by apply found_first_zero_ok; [| | lia | lia |]. }
  destruct (Z.eqb_spec (not64 tmp) 0) as [Ht | Ht]; cbn [negb].
  - replace (N - 64 * p - 64) with (N - 64 * (p + 1)) by lia. replace (64 * p + 64) with (64 * (p + 1)) by lia.
    apply (zero_loop_ok m off N); try done; try lia. by apply (zero_word _ p off (not64 tmp)).
  - apply (middle_ok _ p off N (not64 tmp) Hwo Ht); [lia | done].
Qed.

(** ** Single bits and growing *)

Lemma set_bit_ok m nr :
  words_ok m -> 0 <= nr < nbits m -> exists m', set_bit nr m = Some m' /\ range_becomes true nr (nr + 1) m m'.
Proof.
  intros Hm Hn. unfold nbits in Hn. pose proof (Z.div_mod nr 64 ltac:(lia)). pose proof (Z.mod_pos_bound nr 64 ltac:(lia)).
  apply (update_fills (λ mask w, w .| mask) true m (nr / 64) nr (nr + 1) (BIT_MASK nr) or_sets Hm); unfold BIT_MASK, BITS_PER_LONG; try lia.
  - rewrite Z.shiftl_1_l. split; [by apply Z.pow_nonneg |]. apply Z.pow_lt_mono_r; lia.
  - intros j Hj. change (1 << (nr mod 64)) with (BIT (nr mod 64)). rewrite testbit_BIT by lia.
    destruct (Z.eqb_spec (nr mod 64) j), (Z.leb_spec nr (64 * (nr / 64) + j)), (Z.ltb_spec (64 * (nr / 64) + j) (nr + 1)); done || lia.
Qed.

Lemma test_bit_ok m nr : 0 <= nr < nbits m -> test_bit nr m = Some (bit m nr).
Proof.
  intros Hn. unfold nbits in Hn. pose proof (Z.div_mod nr 64 ltac:(lia)). pose proof (Z.mod_pos_bound nr 64 ltac:(lia)).
  destruct (word_at_Some m (nr / 64) ltac:(lia)) as (w & Hw & Hl). unfold test_bit, BIT_WORD, bit. change BITS_PER_LONG with 64.
  rewrite Hw, Hl. cbn [mbind option_bind default from_option]. change (64 - 1) with (Z.ones 6). rewrite Z.land_ones by lia. change (2 ^ 6) with 64.
  f_equal. change 1 with (BIT 0). rewrite Z.land_comm, cbool_BIT by lia. by rewrite Z.shiftr_spec, Z.add_0_l by lia.
Qed.

Lemma zero_extend_ok garbage m old new :
  words_ok m -> (forall i, 0 <= garbage i < 2 ^ 64) -> 0 <= old <= new -> old <= nbits m ->
  exists m', bitmap_zero_extend garbage m old new = Some m' /\ words_ok m' /\ new <= nbits m' /\
    forall i, 0 <= i < new -> bit m' i = if i <? old then bit m i else false.
Proof.
  intros Hm Hg Ho Hc. unfold bitmap_zero_extend, BITS_TO_LONGS, BITS_PER_LONG, nbits in *. set (n := Z.to_nat ((new + 64 - 1) / 64)).
  pose proof (Z.div_mod (new + 64 - 1) 64 ltac:(lia)). pose proof (Z.mod_pos_bound (new + 64 - 1) 64 ltac:(lia)).
  assert (Hn : new <= 64 * Z.of_nat n) by (unfold n; lia).
  set (L := take n m ++ (garbage <$> seq (length m) (n - length m))).
  assert (HL : length L = n) by (unfold L; rewrite length_app, length_take, length_fmap, length_seq; lia).
  assert (HLw : words_ok L).
  { apply Forall_app. split; [by apply Forall_take |]. apply Forall_fmap, Forall_forall. intros x _. apply Hg. }
  destruct (bitmap_clear_ok L old (new - old) HLw) as (m' & Hrun & Hw & Hlen & Hb); try (unfold nbits; rewrite ?HL; lia).
  exists m'. split; [done |]. split; [done |]. split; [lia |]. intros i Hi. rewrite Hb by (unfold nbits; lia).
  destruct (Z.ltb_spec i old) as [Hlt | Hge].
  - rewrite (proj2 (Z.leb_gt old i)) by lia. cbn [andb]. unfold bit. f_equal. f_equal.
    pose proof (Z.div_mod i 64 ltac:(lia)). pose proof (Z.mod_pos_bound i 64 ltac:(lia)).
    unfold L. rewrite lookup_app_l, lookup_take_lt by (rewrite ?length_take; lia). done.
  - by rewrite (proj2 (Z.leb_le old i)), (proj2 (Z.ltb_lt i (old + (new - old)))) by lia.
Qed.
