(* ===== verification/Ramblock.v ===== *)
(** * The guest's memory: blocks of RAM and dirty pages ([exec.c], [include/exec/ram_addr.h])

    The RAM and ROM of a board are blocks of host memory.  A block has a place in one
    linear space of RAM addresses, which index the dirty bitmaps: a bit per page and
    client that says whether the page has been written since the client looked.  The
    theorems say that blocks never overlap, that a RAM address leads to one place in
    host memory whatever block was used last, and what the bitmaps say after a write.

    A pointer to a block is the block itself: a block does not change while it is in
    the list.  Names of blocks, huge pages, Xen and KVM are left out. *)

From stdpp Require Import list sorting.
From S2P Require Import Prelude Bitmap Physmap Dispatch.
Open Scope Z_scope.

Definition RAM_ADDR_MAX : Z := 2 ^ 64 - 1.
Definition DIRTY_MEMORY_VGA : Z := 0.
Definition DIRTY_MEMORY_CODE : Z := 1.
Definition DIRTY_MEMORY_MIGRATION : Z := 2.
Definition DIRTY_MEMORY_NUM : Z := 3.
Definition RAM_PREALLOC : Z := 1 << 0.

Record RAMBlock : Type := mkBlock {
  rb_mr : nat;
  rb_host : Z;
  rb_offset : Z;
  rb_length : Z;
  rb_flags : Z
}.
#[export] Instance eta_RAMBlock : Settable RAMBlock := λ b,
  mkBlock (rb_mr b) (rb_host b) (rb_offset b) (rb_length b) (rb_flags b).
#[export] Instance RAMBlock_eq_dec : EqDecision RAMBlock.
Proof. solve_decision. Defined.

Record RAMList : Type := mkRamList {
  dirty_memory : list bitmap;
  mru_block : option RAMBlock;
  blocks : list RAMBlock;
  version : Z
}.
#[export] Instance eta_RAMList : Settable RAMList := λ r,
  mkRamList (dirty_memory r) (mru_block r) (blocks r) (version r).

Notation RM := (M Empty_set RAMList).

(** ** Finding blocks *)

(** [addr - block->offset < block->length], in unsigned arithmetic. *)
Definition in_block (addr : Z) (b : RAMBlock) : bool := u64 (addr - rb_offset b) <? rb_length b.

Definition found_block (b : RAMBlock) : RM RAMBlock := modify (λ r, r <| mru_block := Some b |>) ;; mret b.

Definition qemu_get_ram_block (addr : Z) : RM RAMBlock :=
  r ← get;
  match mru_block r with
  | Some b => if in_block addr b then found_block b
              else match List.find (in_block addr) (blocks r) with Some b => found_block b | None => halt HwError end
  | None => match List.find (in_block addr) (blocks r) with Some b => found_block b | None => halt HwError end
  end.

Definition qemu_get_ram_ptr (addr : Z) : RM Z :=
  block ← qemu_get_ram_block addr;
  mret (u64 (rb_host block + u64 (addr - rb_offset block))).

Definition qemu_get_ram_block_host_ptr (addr : Z) : RM Z := block ← qemu_get_ram_block addr; mret (rb_host block).

(** The host address and the length that can be used. *)
Definition qemu_ram_ptr_length (addr size : Z) : RM (Z * Z) :=
  if size =? 0 then mret (0, 0)
  else
    r ← get;
    match List.find (in_block addr) (blocks r) with
    | None => halt HwError
    | Some b =>
        let size := if rb_length b <? u64 (u64 (addr - rb_offset b) + size) then u64 (rb_length b - addr + rb_offset b) else size in
        mret (u64 (rb_host b + u64 (addr - rb_offset b)), size)
    end.

Definition in_host_block (host : Z) (b : RAMBlock) : bool := negb (rb_host b =? 0) && (u64 (host - rb_host b) <? rb_length b).

(** The region and the RAM address of a pointer into a block. *)
Definition qemu_ram_addr_from_host (host : Z) : RM (option (nat * Z)) :=
  r ← get;
  let found b := mret (Some (rb_mr b, u64 (rb_offset b + (host - rb_host b)))) in
  match mru_block r with
  | Some b => if in_host_block host b then found b
              else match List.find (in_host_block host) (blocks r) with Some b => found b | None => mret None end
  | None => match List.find (in_host_block host) (blocks r) with Some b => found b | None => mret None end
  end.

(** ** Dirty pages *)

Definition with_dirty (client : Z) (f : bitmap → option bitmap) : RM unit :=
  r ← get;
  match (m ← dirty_memory r !! Z.to_nat client; f m) with
  | Some m => modify (λ r, r <| dirty_memory := <[Z.to_nat client := m]> (dirty_memory r) |>)
  | None => halt OutOfBounds
  end.

Definition search_dirty (client : Z) (f : bitmap → option Z) : RM Z :=
  r ← get;
  match (m ← dirty_memory r !! Z.to_nat client; f m) with Some x => mret x | None => halt OutOfBounds end.

(** The pages of a range. *)
Definition page_of (start : Z) : Z := start >> TARGET_PAGE_BITS.
Definition page_end (start length : Z) : Z := TARGET_PAGE_ALIGN (u64 (start + length)) >> TARGET_PAGE_BITS.

Definition cpu_physical_memory_get_dirty (start length client : Z) : RM bool :=
  assert_ (client <? DIRTY_MEMORY_NUM) ;;
  next ← search_dirty client (λ m, find_next_bit m (page_end start length) (page_of start));
  mret (next <? page_end start length).

Definition cpu_physical_memory_get_clean (start length client : Z) : RM bool :=
  assert_ (client <? DIRTY_MEMORY_NUM) ;;
  next ← search_dirty client (λ m, find_next_zero_bit m (page_end start length) (page_of start));
  mret (next <? page_end start length).

Definition cpu_physical_memory_get_dirty_flag (addr client : Z) : RM bool := cpu_physical_memory_get_dirty addr 1 client.

Definition cpu_physical_memory_is_clean (addr : Z) : RM bool :=
  vga ← cpu_physical_memory_get_dirty_flag addr DIRTY_MEMORY_VGA;
  code ← cpu_physical_memory_get_dirty_flag addr DIRTY_MEMORY_CODE;
  migration ← cpu_physical_memory_get_dirty_flag addr DIRTY_MEMORY_MIGRATION;
  mret (negb (vga && code && migration)).

Definition cpu_physical_memory_range_includes_clean (start length : Z) : RM bool :=
  vga ← cpu_physical_memory_get_clean start length DIRTY_MEMORY_VGA;
  code ← cpu_physical_memory_get_clean start length DIRTY_MEMORY_CODE;
  migration ← cpu_physical_memory_get_clean start length DIRTY_MEMORY_MIGRATION;
  mret (vga || code || migration).

Definition cpu_physical_memory_set_dirty_flag (addr client : Z) : RM unit :=
  assert_ (client <? DIRTY_MEMORY_NUM) ;;
  with_dirty client (set_bit (page_of addr)).

Definition set_range (start length client : Z) : RM unit :=
  with_dirty client (λ m, bitmap_set m (page_of start) (page_end start length - page_of start)).

Definition cpu_physical_memory_set_dirty_range_nocode (start length : Z) : RM unit :=
  set_range start length DIRTY_MEMORY_MIGRATION ;;
  set_range start length DIRTY_MEMORY_VGA.

Definition cpu_physical_memory_set_dirty_range (start length : Z) : RM unit :=
  set_range start length DIRTY_MEMORY_MIGRATION ;;
  set_range start length DIRTY_MEMORY_VGA ;;
  set_range start length DIRTY_MEMORY_CODE.

Definition cpu_physical_memory_clear_dirty_range (start length client : Z) : RM unit :=
  assert_ (client <? DIRTY_MEMORY_NUM) ;;
  with_dirty client (λ m, bitmap_clear m (page_of start) (page_end start length - page_of start)).

(** ** Allocation *)

Definition block_end (b : RAMBlock) : Z := u64 (rb_offset b + rb_length b).

(** The start of the next block after [end_]. *)
Definition next_after (bs : list RAMBlock) (end_ : Z) : Z :=
  foldl (λ next b, if end_ <=? rb_offset b then Z.min next (rb_offset b) else next) RAM_ADDR_MAX bs.

Definition better_gap (bs : list RAMBlock) (size : Z) (best : Z * Z) (b : RAMBlock) : Z * Z :=
  let '(offset, mingap) := best in
  let end_ := block_end b in
  let gap := u64 (next_after bs end_ - end_) in
  if (size <=? gap) && (gap <? mingap) then (end_, gap) else best.

Definition find_ram_offset (size : Z) : RM Z :=
  assert_ (negb (size =? 0)) ;;
  r ← get;
  if bool_decide (blocks r = []) then mret 0
  else
    let '(offset, _) := foldl (better_gap (blocks r) size) (RAM_ADDR_MAX, RAM_ADDR_MAX) (blocks r) in
    if offset =? RAM_ADDR_MAX then halt HwError else mret offset.

Definition last_ram_offset (r : RAMList) : Z := foldl (λ last b, Z.max last (block_end b)) 0 (blocks r).

Definition find_ram_block (addr : Z) (r : RAMList) : option RAMBlock := List.find (λ b, rb_offset b =? addr) (blocks r).

(** [QTAILQ_INSERT_BEFORE] the first smaller block. *)
Fixpoint insert_block (new : RAMBlock) (bs : list RAMBlock) : list RAMBlock :=
  match bs with
  | [] => [new]
  | b :: bs => if rb_length b <? rb_length new then new :: b :: bs else b :: insert_block new bs
  end.

Fixpoint extend_bitmaps (garbage : nat → Z) (ms : list bitmap) (old_size new_size : Z) : option (list bitmap) :=
  match ms with
  | [] => Some []
  | m :: ms => m ← bitmap_zero_extend garbage m old_size new_size; ms ← extend_bitmaps garbage ms old_size new_size; Some (m :: ms)
  end.

(** After the list is changed, the bitmaps follow. *)
Definition grow_bitmaps (garbage : nat → Z) (old_ram_size new_ram_size : Z) : RM unit :=
  when (old_ram_size <? new_ram_size)
    (r ← get;
     match extend_bitmaps garbage (dirty_memory r) old_ram_size new_ram_size with
     | Some ms => modify (λ r, r <| dirty_memory := ms |>)
     | None => halt OutOfBounds
     end).

(** [phys_mem_alloc] is what the host returns for the block, [garbage] what memory that
    [g_realloc] adds holds. *)
Definition ram_block_add (phys_mem_alloc : Z → option Z) (garbage : nat → Z) (new_block : RAMBlock) : RM Z :=
  old_ram_size ← gets (λ r, last_ram_offset r >> TARGET_PAGE_BITS);
  offset ← find_ram_offset (rb_length new_block);
  let new_block := new_block <| rb_offset := offset |> in
  new_block ← (if rb_host new_block =? 0 then
                 match phys_mem_alloc (rb_length new_block) with
                 | Some host => mret (new_block <| rb_host := host |>)
                 | None => halt HwError
                 end
               else mret new_block);
  modify (λ r, r <| blocks := insert_block new_block (blocks r) |> <| mru_block := None |> <| version := u32 (version r + 1) |>) ;;
  new_ram_size ← gets (λ r, last_ram_offset r >> TARGET_PAGE_BITS);
  grow_bitmaps garbage old_ram_size new_ram_size ;;
  cpu_physical_memory_set_dirty_range (rb_offset new_block) (rb_length new_block) ;;
  mret (rb_offset new_block).

Definition qemu_ram_alloc_from_ptr (phys_mem_alloc : Z → option Z) (garbage : nat → Z) (size host : Z) (mr : nat) : RM Z :=
  let size := TARGET_PAGE_ALIGN size in
  ram_block_add phys_mem_alloc garbage
    (mkBlock mr host 0 size (if cbool host then RAM_PREALLOC else 0)).

Definition qemu_ram_alloc (phys_mem_alloc : Z → option Z) (garbage : nat → Z) (size : Z) (mr : nat) : RM Z :=
  qemu_ram_alloc_from_ptr phys_mem_alloc garbage size 0 mr.

(** The first block at the address leaves the list. *)
Fixpoint remove_block (addr : Z) (bs : list RAMBlock) : option (list RAMBlock) :=
  match bs with
  | [] => None
  | b :: bs => if addr =? rb_offset b then Some bs else l ← remove_block addr bs; Some (b :: l)
  end.

(** The memory of the block goes back to the host. *)
Definition qemu_ram_free (addr : Z) : RM unit :=
  r ← get;
  match remove_block addr (blocks r) with
  | None => mret ()
  | Some bs => modify (λ r, r <| blocks := bs |> <| mru_block := None |> <| version := u32 (version r + 1) |>)
  end.

(** ** Well-formed lists of blocks *)

Definition wf_block (b : RAMBlock) : Prop :=
  0 <= rb_offset b /\ 0 < rb_length b /\ rb_offset b + rb_length b <= RAM_ADDR_MAX /\
  rb_offset b mod 1024 = 0 /\ rb_length b mod 1024 = 0.

Definition disjoint_range (o1 l1 o2 l2 : Z) : Prop := o1 + l1 <= o2 \/ o2 + l2 <= o1.

Definition apart (bs : list RAMBlock) : Prop :=
  forall b1 b2, b1 ∈ bs -> b2 ∈ bs -> b1 = b2 \/ disjoint_range (rb_offset b1) (rb_length b1) (rb_offset b2) (rb_length b2).

Definition longer (a b : RAMBlock) : Prop := rb_length b <= rb_length a.

(** The bitmaps reach to the end of the last block. *)
Definition bitmaps_ok (r : RAMList) : Prop :=
  length (dirty_memory r) = 3%nat /\
  Forall (λ m, words_ok m /\ last_ram_offset r / 1024 <= nbits m) (dirty_memory r).

Record ram_ok (r : RAMList) : Prop := {
  ro_blocks : Forall wf_block (blocks r);
  ro_apart : apart (blocks r);
  ro_nodup : NoDup (blocks r);
  ro_sorted : StronglySorted longer (blocks r);
  ro_mru : forall b, mru_block r = Some b -> b ∈ blocks r;
  ro_dirty : bitmaps_ok r
}.

(** A RAM address in a block. *)
Definition inside (b : RAMBlock) (addr : Z) : Prop := rb_offset b <= addr < rb_offset b + rb_length b.

Lemma wf_lookup r b : ram_ok r -> b ∈ blocks r -> wf_block b.
Proof. intros Hr Hb. by apply (proj1 (Forall_forall _ _) (ro_blocks _ Hr)). Qed.

Lemma in_block_spec b addr : wf_block b -> 0 <= addr < 2 ^ 64 -> in_block addr b = true <-> inside b addr.
Proof.
  intros (H1 & H2 & H3 & _) Ha. unfold RAM_ADDR_MAX, in_block, inside, u64 in *. rewrite Z.ltb_lt.
  destruct (decide (rb_offset b <= addr)).
  - rewrite Z.mod_small by lia. lia.
  - replace (addr - rb_offset b) with (addr - rb_offset b + 2 ^ 64 + (-1) * 2 ^ 64) by lia.
    rewrite Z_mod_plus_full, Z.mod_small by lia. lia.
Qed.

Lemma inside_range b addr : wf_block b -> inside b addr -> 0 <= addr < 2 ^ 64.
Proof. unfold wf_block, inside, RAM_ADDR_MAX. lia. Qed.

Lemma inside_unique r b1 b2 addr : ram_ok r -> b1 ∈ blocks r -> b2 ∈ blocks r -> inside b1 addr -> inside b2 addr -> b1 = b2.
Proof.
  intros Hr H1 H2 Hi1 Hi2. destruct (ro_apart _ Hr b1 b2 H1 H2) as [| Hd]; [done |].
  unfold inside, disjoint_range in *. lia.
Qed.

(** Finding a block by a test that only [b] passes. *)
Lemma find_unique (f : RAMBlock → bool) bs b :
  b ∈ bs -> f b = true -> (forall b', b' ∈ bs -> f b' = true -> b' = b) -> List.find f bs = Some b.
Proof.
  intros Hb Hf Hu. destruct (List.find f bs) as [b' |] eqn:He.
  - apply List.find_some in He as [Hin Hf']. f_equal. apply Hu; [by apply list_elem_of_In | done].
  - apply list_elem_of_In in Hb. by rewrite (List.find_none _ _ He b Hb) in Hf.
Qed.

(** The block of an address is found, whatever was used last. *)
Lemma get_ram_block_run r b addr :
  ram_ok r -> b ∈ blocks r -> inside b addr ->
  qemu_get_ram_block addr r = Done b (r <| mru_block := Some b |>) [].
Proof.
  intros Hr Hb Hi. pose proof (inside_range b addr (wf_lookup r b Hr Hb) Hi) as Ha.
  assert (Hu : forall b', b' ∈ blocks r -> in_block addr b' = true -> b' = b).
  { intros b' Hb' Hin. apply (inside_unique r _ _ addr Hr Hb' Hb); [| done]. apply in_block_spec; [by apply (wf_lookup r) | done | done]. }
  assert (Hf : List.find (in_block addr) (blocks r) = Some b).
  { apply find_unique; [done | | done]. apply in_block_spec; [by apply (wf_lookup r) | done | done]. }
  unfold qemu_get_ram_block. rewrite bind_get, Hf. destruct (mru_block r) as [m |] eqn:Hm; [| done].
  destruct (in_block addr m) eqn:Hin; [| done]. by rewrite (Hu m (ro_mru _ Hr m Hm) Hin).
Qed.

Lemma ram_ok_mru r b : ram_ok r -> b ∈ blocks r -> ram_ok (r <| mru_block := Some b |>).
Proof. intros [] Hb. constructor; try done. cbn. by intros ? [= <-]. Qed.

Lemma get_ram_ptr_run r b addr :
  ram_ok r -> b ∈ blocks r -> inside b addr ->
  qemu_get_ram_ptr addr r = Done (u64 (rb_host b + (addr - rb_offset b))) (r <| mru_block := Some b |>) [].
Proof.
  intros Hr Hb Hi. unfold qemu_get_ram_ptr. rewrite (bind_Done _ _ _ _ _ (get_ram_block_run r b addr Hr Hb Hi)).
  pose proof (wf_lookup r b Hr Hb) as (H1 & H2 & H3 & _). unfold inside, RAM_ADDR_MAX in *.
  unfold u64 at 2. by rewrite (Z.mod_small (addr - rb_offset b)) by lia.
Qed.

(** *** Finding a gap *)

Lemma wf_end b : wf_block b -> block_end b = rb_offset b + rb_length b.
Proof. intros (H1 & H2 & H3 & _). unfold block_end, RAM_ADDR_MAX in *. apply u64_small. lia. Qed.

Lemma next_after_spec bs e : forall n0,
  let n := foldl (λ next b, if e <=? rb_offset b then Z.min next (rb_offset b) else next) n0 bs in
  n <= n0 /\ (forall b, b ∈ bs -> e <= rb_offset b -> n <= rb_offset b) /\ (n = n0 \/ exists b, b ∈ bs /\ e <= rb_offset b /\ n = rb_offset b).
Proof.
  induction bs as [|b bs IH]; intros n0; cbn [foldl].
  { split; [lia |]. split; [| by left]. intros b Hb. by apply not_elem_of_nil in Hb. }
  destruct (IH (if e <=? rb_offset b then Z.min n0 (rb_offset b) else n0)) as (H1 & H2 & H3). cbv zeta. set (n := foldl _ _ bs) in *.
  split; [destruct (Z.leb_spec e (rb_offset b)); lia |]. split.
  - intros b' [-> | Hb']%elem_of_cons He; [| by apply H2]. rewrite (proj2 (Z.leb_le e _)) in H1 by done. lia.
  - destruct H3 as [H3 | (b' & Hb' & He & ->)]; [| right; exists b'; split; [by right | done]].
    destruct (Z.leb_spec e (rb_offset b)) as [Hle |]; [| by left].
    destruct (decide (n0 <= rb_offset b)); [left; lia |]. right. exists b. split; [by left |]. split; [done | lia].
Qed.

(** The room between the end of a block and the next one. *)
Definition gap_after (bs : list RAMBlock) (b : RAMBlock) : Z := next_after bs (block_end b) - block_end b.

Lemma gap_after_range bs b : wf_block b -> 0 <= gap_after bs b < RAM_ADDR_MAX.
Proof.
  intros Hb. unfold gap_after. rewrite (wf_end b Hb). destruct Hb as (H1 & H2 & H3 & _).
  destruct (next_after_spec bs (rb_offset b + rb_length b) RAM_ADDR_MAX) as (Hn1 & _ & Hn3). unfold next_after.
  set (n := foldl _ _ bs) in *. destruct Hn3 as [-> | (b' & _ & He & ->)]; lia.
Qed.

Lemma better_gap_step bs size best b :
  wf_block b ->
  better_gap bs size best b =
    if (size <=? gap_after bs b) && (gap_after bs b <? snd best) then (block_end b, gap_after bs b) else best.
Proof.
  intros Hb. unfold better_gap. destruct best as [o g]. pose proof (gap_after_range bs b Hb) as Hg. unfold gap_after, RAM_ADDR_MAX in *.
  rewrite u64_small by lia. done.
Qed.

Lemma best_gap bs0 size : forall bs o g,
  Forall wf_block bs ->
  let '(o', g') := foldl (better_gap bs0 size) (o, g) bs in
  g' <= g /\ (forall b, b ∈ bs -> size <= gap_after bs0 b -> g' <= gap_after bs0 b) /\
  ((o', g') = (o, g) \/ exists b, b ∈ bs /\ o' = block_end b /\ g' = gap_after bs0 b /\ size <= g').
Proof.
  induction bs as [|b bs IH]; intros o g Hwf; cbn [foldl].
  { split; [lia |]. split; [| by left]. intros b Hb. by apply not_elem_of_nil in Hb. }
  apply Forall_cons in Hwf as [Hb Hwf]. rewrite (better_gap_step bs0 size (o, g) b Hb). cbn [snd].
  destruct ((size <=? gap_after bs0 b) && (gap_after bs0 b <? g)) eqn:Hc.
  - apply andb_prop in Hc as [Hs%Z.leb_le Hg%Z.ltb_lt]. specialize (IH (block_end b) (gap_after bs0 b) Hwf).
    destruct (foldl _ _ bs) as [o' g']. destruct IH as (H1 & H2 & H3). split; [lia |]. split.
    + intros b' [-> | Hb']%elem_of_cons Hs'; [done | by apply H2].
    + right. destruct H3 as [[= -> ->] | (b' & Hb' & Hx)]; [exists b; by repeat split; try left | exists b'; split; [by right | done]].
  - specialize (IH o g Hwf). destruct (foldl _ _ bs) as [o' g']. destruct IH as (H1 & H2 & H3). split; [done |]. split.
    + intros b' [-> | Hb']%elem_of_cons Hs'; [| by apply H2].
      apply andb_false_iff in Hc as [Hc%Z.leb_gt | Hc%Z.ltb_ge]; lia.
    + destruct H3 as [-> | (b' & Hb' & Hx)]; [by left | right; exists b'; split; [by right | done]].
Qed.

(** Where a block of the size goes: a page boundary, clear of all blocks, in the
    smallest gap that is large enough. *)
Record fits (r : RAMList) (size off : Z) : Prop := {
  fit_off : 0 <= off;
  fit_page : off mod 1024 = 0;
  fit_clear : forall b, b ∈ blocks r -> disjoint_range off size (rb_offset b) (rb_length b);
  fit_max : blocks r <> [] -> off + size <= RAM_ADDR_MAX;
  fit_best : (blocks r = [] /\ off = 0) \/
    exists b, b ∈ blocks r /\ off = block_end b /\ size <= gap_after (blocks r) b /\
      forall b', b' ∈ blocks r -> size <= gap_after (blocks r) b' -> gap_after (blocks r) b <= gap_after (blocks r) b'
}.

Lemma gap_clear r b size : ram_ok r -> b ∈ blocks r -> size <= gap_after (blocks r) b ->
  forall b', b' ∈ blocks r -> disjoint_range (block_end b) size (rb_offset b') (rb_length b').
Proof.
  intros Hr Hb Hs b' Hb'. pose proof (wf_lookup r b Hr Hb) as Hw. pose proof (wf_lookup r b' Hr Hb') as Hw'.
  unfold gap_after in Hs. rewrite (wf_end b Hw) in *. unfold disjoint_range.
  destruct (next_after_spec (blocks r) (rb_offset b + rb_length b) RAM_ADDR_MAX) as (_ & Hn2 & _). fold (next_after (blocks r)) in Hn2.
  destruct (decide (rb_offset b + rb_length b <= rb_offset b')) as [Hle | Hgt].
  - left. specialize (Hn2 b' Hb' Hle). unfold next_after in Hs. lia.
  - right. destruct (ro_apart _ Hr b b' Hb Hb') as [-> | [Hd | Hd]]; [lia | lia |]. destruct Hw as (H1 & H2 & _). lia.
Qed.

Lemma gap_limit r b : gap_after (blocks r) b + block_end b <= RAM_ADDR_MAX.
Proof.
  unfold gap_after, next_after. destruct (next_after_spec (blocks r) (block_end b) RAM_ADDR_MAX) as (Hn1 & _ & _). lia.
Qed.

Lemma end_page b : wf_block b -> block_end b mod 1024 = 0 /\ 0 < block_end b.
Proof.
  intros Hb. rewrite (wf_end b Hb). destruct Hb as (H1 & H2 & H3 & H4 & H5). split; [| lia].
  by rewrite Zplus_mod, H4, H5.
Qed.

Lemma find_ram_offset_ok r size :
  ram_ok r -> 0 < size ->
  (exists off, find_ram_offset size r = Done off r [] /\ fits r size off) \/
  (find_ram_offset size r = Halt HwError /\ blocks r <> [] /\ forall b, b ∈ blocks r -> gap_after (blocks r) b < size).
Proof.
  intros Hr Hs. unfold find_ram_offset. rewrite (proj2 (Z.eqb_neq size 0)) by lia. cbn [negb assert_].
  rewrite (bind_Done (mret ()) _ _ _ _ eq_refl), bind_get. case_bool_decide as He.
  { left. exists 0. split; [done |]. constructor; [lia | done | | done | by left]. intros b Hb. rewrite He in Hb. by apply not_elem_of_nil in Hb. }
  pose proof (best_gap (blocks r) size (blocks r) RAM_ADDR_MAX RAM_ADDR_MAX (ro_blocks _ Hr)) as Hbest.
  destruct (foldl _ _ (blocks r)) as [o g]. destruct Hbest as (H1 & H2 & H3).
  destruct H3 as [[= -> ->] | (b & Hb & -> & -> & Hsg)].
  - rewrite Z.eqb_refl. right. split; [done |]. split; [done |]. intros b Hb.
    destruct (decide (size <= gap_after (blocks r) b)) as [Hle |]; [| lia].
    pose proof (gap_after_range (blocks r) b (wf_lookup r b Hr Hb)). specialize (H2 b Hb Hle). lia.
  - destruct (end_page b (wf_lookup r b Hr Hb)) as [Hp Hpos]. pose proof (gap_limit r b) as Hlim.
    rewrite (proj2 (Z.eqb_neq (block_end b) RAM_ADDR_MAX)).
    2:{ intros E. by rewrite E in Hp. }
    left. exists (block_end b). split; [done |]. constructor; [lia | done | by apply gap_clear | lia |].
    right. exists b. by repeat split.
Qed.

Lemma last_ram_bound r b : ram_ok r -> b ∈ blocks r -> rb_offset b + rb_length b <= last_ram_offset r.
Proof.
  intros Hr Hb. rewrite <- (wf_end b (wf_lookup r b Hr Hb)). unfold last_ram_offset.
  assert (Hm : forall bs n0, n0 <= foldl (λ last b, Z.max last (block_end b)) n0 bs /\
    (b ∈ bs -> block_end b <= foldl (λ last b, Z.max last (block_end b)) n0 bs)).
  { induction bs as [|x bs IH]; intros n0; cbn [foldl].
    - split; [lia |]. intros H. by apply not_elem_of_nil in H.
    - destruct (IH (Z.max n0 (block_end x))) as [H1 H2]. split; [lia |]. intros [-> | Hx]%elem_of_cons; [lia | by apply H2]. }
  by apply Hm.
Qed.

(** The gap behind the last block is always there. *)
Lemma room_at_end r size :
  ram_ok r -> blocks r <> [] -> last_ram_offset r + size <= RAM_ADDR_MAX ->
  exists b, b ∈ blocks r /\ size <= gap_after (blocks r) b.
Proof.
  intros Hr Hne Hroom.
  assert (Hmax : exists b, b ∈ blocks r /\ forall b', b' ∈ blocks r -> rb_offset b' <= rb_offset b).
  { clear Hroom Hr. destruct (blocks r) as [|b0 bs]; [done |]. clear Hne r. revert b0. induction bs as [|b1 bs IH]; intros b0.
    - exists b0. split; [by left |]. intros b' ->%list_elem_of_singleton. lia.
    - destruct (IH b1) as (b & Hb & Hle). destruct (decide (rb_offset b <= rb_offset b0)).
      + exists b0. split; [by left |]. intros b' [-> | Hb']%elem_of_cons; [lia |]. specialize (Hle b' Hb'). lia.
      + exists b. split; [by right |]. intros b' [-> | Hb']%elem_of_cons; [lia | by apply Hle]. }
  destruct Hmax as (b & Hb & Hle). exists b. split; [done |]. pose proof (wf_lookup r b Hr Hb) as Hw.
  pose proof (last_ram_bound r b Hr Hb) as Hlast. unfold gap_after. rewrite (wf_end b Hw).
  unfold next_after. destruct (next_after_spec (blocks r) (rb_offset b + rb_length b) RAM_ADDR_MAX) as (_ & _ & [-> | (b' & Hb' & He & _)]);
    [lia |]. specialize (Hle b' Hb'). destruct Hw as (_ & H2 & _). lia.
Qed.

(** *** The new list of blocks *)

Lemma insert_block_perm new bs : insert_block new bs ≡ₚ new :: bs.
Proof.
  induction bs as [|b bs IH]; [done |]. cbn. destruct (rb_length b <? rb_length new); [done |]. rewrite IH. apply perm_swap.
Qed.

Lemma insert_block_sorted new bs : StronglySorted longer bs -> StronglySorted longer (insert_block new bs).
Proof.
  induction 1 as [|b bs Hs IH Hb]; cbn [insert_block]; [by repeat constructor |].
  destruct (Z.ltb_spec (rb_length b) (rb_length new)) as [Hlt | Hge].
  - constructor; [by constructor |]. constructor; [unfold longer; lia |]. eapply Forall_impl; [exact Hb |]. unfold longer. cbn. intros x. lia.
  - constructor; [done |]. rewrite insert_block_perm. by constructor.
Qed.

(** The end of the last block is a page boundary. *)
Lemma last_ram_eq bs : forall n0, 0 <= n0 ->
  0 <= foldl (λ last b, Z.max last (block_end b)) n0 bs /\
  (foldl (λ last b, Z.max last (block_end b)) n0 bs = n0 \/ exists b, b ∈ bs /\ foldl (λ last b, Z.max last (block_end b)) n0 bs = block_end b).
Proof.
  induction bs as [|b bs IH]; intros n0 Hn; cbn [foldl]; [split; [done | by left] |].
  destruct (IH (Z.max n0 (block_end b))) as [H1 [H2 | (b' & Hb' & H2)]]; [lia | |]; (split; [done |]).
  - rewrite H2. destruct (Z.max_spec n0 (block_end b)) as [[_ ->] | [_ ->]]; [right; exists b; split; [by left | done] | by left].
  - right. exists b'. split; [by right | done].
Qed.

Lemma last_ram_page r : ram_ok r -> last_ram_offset r mod 1024 = 0 /\ 0 <= last_ram_offset r <= RAM_ADDR_MAX.
Proof.
  intros Hr. unfold last_ram_offset. destruct (last_ram_eq (blocks r) 0 ltac:(lia)) as [H1 [H2 | (b & Hb & H2)]].
  - rewrite H2. split; [done |]. unfold RAM_ADDR_MAX. lia.
  - rewrite H2. pose proof (wf_lookup r b Hr Hb) as Hw. split; [by apply end_page |]. rewrite (wf_end b Hw).
    destruct Hw as (? & ? & ? & _). lia.
Qed.

(** ** What the bitmaps say *)

(** The dirty bit of a page for a client. *)
Definition dirty (r : RAMList) (client page : Z) : bool :=
  match dirty_memory r !! Z.to_nat client with Some m => bit m page | None => false end.

Lemma page_align_up x : 0 <= x -> x <= 2 ^ 64 - 1024 -> TARGET_PAGE_ALIGN x = (x + 1023) / 1024 * 1024.
Proof.
  intros H1 H2. unfold TARGET_PAGE_ALIGN. change TARGET_PAGE_SIZE with 1024. rewrite u64_small by lia.
  replace (x + 1024 - 1) with (x + 1023) by lia. apply page_base. lia.
Qed.

Lemma page_of_div a : page_of a = a / 1024.
Proof. unfold page_of. apply page_div. Qed.

Lemma page_end_div start length :
  0 <= start -> 0 <= length -> start + length <= 2 ^ 64 - 1024 -> page_end start length = (start + length + 1023) / 1024.
Proof.
  intros H1 H2 H3. unfold page_end. rewrite (u64_small (start + length)), page_align_up by lia.
  rewrite page_div. by rewrite Z.div_mul.
Qed.

(** A range within the memory: its pages are bits of the bitmaps. *)
Definition in_ram (r : RAMList) (start length : Z) : Prop :=
  0 <= start /\ 0 < length /\ start + length <= last_ram_offset r.

Lemma ram_pages r start length :
  ram_ok r -> in_ram r start length ->
  page_of start = start / 1024 /\ page_end start length = (start + length + 1023) / 1024 /\
  0 <= start / 1024 < (start + length + 1023) / 1024 /\ (start + length + 1023) / 1024 <= last_ram_offset r / 1024.
Proof.
  intros Hr (H1 & H2 & H3). destruct (last_ram_page r Hr) as [Hp Hm]. unfold RAM_ADDR_MAX in Hm.
  assert (Hlim : last_ram_offset r <= 2 ^ 64 - 1024).
  { pose proof (Z.div_mod (last_ram_offset r) 1024). change (2 ^ 64) with (1024 * 2 ^ 54) in *. lia. }
  split; [apply page_of_div |]. split; [apply page_end_div; lia |].
  pose proof (Z.div_mod (last_ram_offset r) 1024). pose proof (Z.div_mod start 1024). pose proof (Z.mod_pos_bound start 1024).
  pose proof (Z.div_mod (start + length + 1023) 1024). pose proof (Z.mod_pos_bound (start + length + 1023) 1024). lia.
Qed.

Lemma bitmap_of r client :
  ram_ok r -> 0 <= client < 3 -> exists m, dirty_memory r !! Z.to_nat client = Some m /\ words_ok m /\ last_ram_offset r / 1024 <= nbits m.
Proof.
  intros Hr Hc. destruct (ro_dirty _ Hr) as [Hl Hf].
  destruct (lookup_lt_is_Some_2 (dirty_memory r) (Z.to_nat client)) as [m Hm]; [lia |]. exists m. split; [done |].
  exact (proj1 (Forall_lookup _ _) Hf _ _ Hm).
Qed.

(** [r'] is [r] but for the dirty bits. *)
Definition same_blocks (r r' : RAMList) : Prop :=
  blocks r' = blocks r /\ mru_block r' = mru_block r /\ version r' = version r.

(** The bits [lo, hi) of a client become [v], the others stay. *)
Definition marks (v : bool) (client lo hi : Z) (r r' : RAMList) : Prop :=
  same_blocks r r' /\ ram_ok r' /\
  (forall p, 0 <= p < last_ram_offset r / 1024 -> dirty r' client p = if (lo <=? p) && (p <? hi) then v else dirty r client p) /\
  (forall c p, c <> client -> 0 <= c < 3 -> dirty r' c p = dirty r c p).

Lemma with_dirty_run r client f m m' v lo hi :
  ram_ok r -> 0 <= client < 3 -> dirty_memory r !! Z.to_nat client = Some m -> f m = Some m' -> range_becomes v lo hi m m' ->
  exists r', with_dirty client f r = Done () r' [] /\ marks v client lo hi r r'.
Proof.
  intros Hr Hc Hm Hf (Hw & Hl & Hb). destruct (bitmap_of r client Hr Hc) as (m0 & Hm0 & Hwm & Hcap).
  assert (m0 = m) as -> by congruence. eexists. split.
  { unfold with_dirty. rewrite bind_get, Hm. cbn [mbind option_bind]. rewrite Hf. reflexivity. }
  split; [done |]. destruct (ro_dirty _ Hr) as [Hlen Hall]. split; [| split].
  - destruct Hr. constructor; try done. split; cbn; [by rewrite length_insert |]. apply Forall_insert; [done |].
    split; [done |]. unfold nbits in *. rewrite Hl. exact Hcap.
  - intros p Hp. unfold dirty. cbn. rewrite list_lookup_insert_eq by lia. rewrite Hm. apply Hb. lia.
  - intros c p Hne Hc'. unfold dirty. cbn. by rewrite list_lookup_insert_ne by lia.
Qed.

Lemma set_range_run r start length client :
  ram_ok r -> in_ram r start length -> 0 <= client < 3 ->
  exists r', set_range start length client r = Done () r' [] /\ marks true client (start / 1024) ((start + length + 1023) / 1024) r r'.
Proof.
  intros Hr Hin Hc. destruct (ram_pages r start length Hr Hin) as (Hp1 & Hp2 & Hlt & Hle).
  destruct (bitmap_of r client Hr Hc) as (m & Hm & Hw & Hcap). unfold set_range. rewrite Hp1, Hp2.
  destruct (bitmap_set_ok m (start / 1024) ((start + length + 1023) / 1024 - start / 1024) Hw) as (m' & Hs & Hb); try lia.
  apply (with_dirty_run r client _ m m' true); try done. by rewrite Zplus_minus in Hb.
Qed.

Lemma clear_dirty_run r start length client :
  ram_ok r -> in_ram r start length -> 0 <= client < 3 ->
  exists r', cpu_physical_memory_clear_dirty_range start length client r = Done () r' [] /\
    marks false client (start / 1024) ((start + length + 1023) / 1024) r r'.
Proof.
  intros Hr Hin Hc. destruct (ram_pages r start length Hr Hin) as (Hp1 & Hp2 & Hlt & Hle).
  destruct (bitmap_of r client Hr Hc) as (m & Hm & Hw & Hcap). unfold cpu_physical_memory_clear_dirty_range, DIRTY_MEMORY_NUM.
  rewrite (proj2 (Z.ltb_lt client 3)), (bind_Done (assert_ true) _ _ _ _ eq_refl), Hp1, Hp2 by lia.
  destruct (bitmap_clear_ok m (start / 1024) ((start + length + 1023) / 1024 - start / 1024) Hw) as (m' & Hs & Hb); try lia.
  apply (with_dirty_run r client _ m m' false); try done. by rewrite Zplus_minus in Hb.
Qed.

Lemma marks_in_ram v client lo hi r r' start length : marks v client lo hi r r' -> in_ram r start length -> in_ram r' start length.
Proof. intros ((Hb & _) & _) Hin. unfold in_ram, last_ram_offset in *. by rewrite Hb. Qed.

(** The pages of a range become dirty for the clients of a list. *)
Definition dirtied (cs : list Z) (start length : Z) (r r' : RAMList) : Prop :=
  same_blocks r r' /\ ram_ok r' /\
  forall c p, 0 <= c < 3 -> 0 <= p < last_ram_offset r / 1024 ->
    dirty r' c p = (bool_decide (c ∈ cs) && (start / 1024 <=? p) && (p <? (start + length + 1023) / 1024)) || dirty r c p.

Lemma dirtied_nil start length r : ram_ok r -> dirtied [] start length r r.
Proof.
  intros Hr. split; [done |]. split; [done |]. intros c p _ _. by rewrite bool_decide_eq_false_2 by apply not_elem_of_nil.
Qed.

Lemma dirtied_step cs start length r r1 c :
  dirtied cs start length r r1 -> in_ram r start length -> 0 <= c < 3 ->
  exists r2, set_range start length c r1 = Done () r2 [] /\ dirtied (c :: cs) start length r r2.
Proof.
  intros (Hs & Hok & Hd) Hin Hc.
  assert (Hin1 : in_ram r1 start length) by (unfold in_ram, last_ram_offset in *; by rewrite (proj1 Hs)).
  assert (Hlast : last_ram_offset r1 = last_ram_offset r) by (unfold last_ram_offset; by rewrite (proj1 Hs)).
  destruct (set_range_run r1 start length c Hok Hin1 Hc) as (r2 & Hrun & Hs2 & Hok2 & Hm & Ho). rewrite Hlast in Hm. exists r2. split; [done |].
  split; [unfold same_blocks in *; destruct Hs as (? & ? & ?), Hs2 as (? & ? & ?); repeat split; congruence |]. split; [done |].
  intros c' p Hc' Hp. destruct (decide (c' = c)) as [-> | Hne].
  - rewrite Hm, Hd by (done || lia). rewrite (bool_decide_eq_true_2 (c ∈ c :: cs)) by (by left). cbn [andb].
    destruct ((start / 1024 <=? p) && (p <? (start + length + 1023) / 1024)) eqn:Hb; [done |].
    apply andb_false_iff in Hb as [-> | ->]; by rewrite ?andb_false_r.
  - rewrite Ho, Hd by done. f_equal. f_equal. f_equal. apply bool_decide_ext. rewrite elem_of_cons. tauto.
Qed.

Lemma set_dirty_range_run r start length :
  ram_ok r -> in_ram r start length ->
  exists r', cpu_physical_memory_set_dirty_range start length r = Done () r' [] /\ dirtied [1; 0; 2] start length r r'.
Proof.
  intros Hr Hin. unfold cpu_physical_memory_set_dirty_range.
  destruct (dirtied_step [] start length r r 2 (dirtied_nil _ _ _ Hr) Hin ltac:(lia)) as (r1 & H1 & D1).
  destruct (dirtied_step _ start length r r1 0 D1 Hin ltac:(lia)) as (r2 & H2 & D2).
  destruct (dirtied_step _ start length r r2 1 D2 Hin ltac:(lia)) as (r3 & H3 & D3).
  exists r3. split; [| done]. by rewrite (bind_Done _ _ _ _ _ H1), (bind_Done _ _ _ _ _ H2).
Qed.

Lemma set_dirty_range_nocode_run r start length :
  ram_ok r -> in_ram r start length ->
  exists r', cpu_physical_memory_set_dirty_range_nocode start length r = Done () r' [] /\ dirtied [0; 2] start length r r'.
Proof.
  intros Hr Hin. unfold cpu_physical_memory_set_dirty_range_nocode.
  destruct (dirtied_step [] start length r r 2 (dirtied_nil _ _ _ Hr) Hin ltac:(lia)) as (r1 & H1 & D1).
  destruct (dirtied_step _ start length r r1 0 D1 Hin ltac:(lia)) as (r2 & H2 & D2).
  exists r2. split; [| done]. by rewrite (bind_Done _ _ _ _ _ H1).
Qed.

(** A search finds a page with the property, if there is one in the range. *)
Lemma search_run r client m f g lo hi :
  dirty_memory r !! Z.to_nat client = Some m -> lo <= hi -> searched g lo hi (f m) ->
  exists n, search_dirty client f r = Done n r [] /\
    ((n <? hi) = true <-> exists p, lo <= p < hi /\ g p = true).
Proof.
  intros Hm Hle (n & Hf & H1 & H2 & H3). exists n. split.
  { unfold search_dirty. rewrite bind_get, Hm. cbn [mbind option_bind]. by rewrite Hf. }
  rewrite Z.ltb_lt. split.
  - intros Hn. exists n. split; [lia | by apply H3].
  - intros (p & Hp & Hg). destruct (decide (p < n)); [by rewrite H2 in Hg by lia | lia].
Qed.

Lemma get_dirty_run r start length client :
  ram_ok r -> in_ram r start length -> 0 <= client < 3 ->
  exists b, cpu_physical_memory_get_dirty start length client r = Done b r [] /\
    (b = true <-> exists p, start / 1024 <= p < (start + length + 1023) / 1024 /\ dirty r client p = true).
Proof.
  intros Hr Hin Hc. destruct (ram_pages r start length Hr Hin) as (Hp1 & Hp2 & Hlt & Hle).
  destruct (bitmap_of r client Hr Hc) as (m & Hm & Hw & Hcap). unfold cpu_physical_memory_get_dirty, DIRTY_MEMORY_NUM.
  rewrite (proj2 (Z.ltb_lt client 3)), (bind_Done (assert_ true) _ _ _ _ eq_refl), Hp1, Hp2 by lia.
  destruct (search_run r client m (λ m, find_next_bit m ((start + length + 1023) / 1024) (start / 1024)) (bit m)
    (start / 1024) ((start + length + 1023) / 1024) Hm ltac:(lia)) as (n & Hn & Hb); [apply find_next_bit_ok; lia || done |].
  eexists. split; [by rewrite (bind_Done _ _ _ _ _ Hn) |]. rewrite Hb. unfold dirty. by rewrite Hm.
Qed.

Lemma get_clean_run r start length client :
  ram_ok r -> in_ram r start length -> 0 <= client < 3 ->
  exists b, cpu_physical_memory_get_clean start length client r = Done b r [] /\
    (b = true <-> exists p, start / 1024 <= p < (start + length + 1023) / 1024 /\ dirty r client p = false).
Proof.
  intros Hr Hin Hc. destruct (ram_pages r start length Hr Hin) as (Hp1 & Hp2 & Hlt & Hle).
  destruct (last_ram_page r Hr) as [_ Hmax]. unfold RAM_ADDR_MAX in Hmax.
  destruct (bitmap_of r client Hr Hc) as (m & Hm & Hw & Hcap). unfold cpu_physical_memory_get_clean, DIRTY_MEMORY_NUM.
  rewrite (proj2 (Z.ltb_lt client 3)), (bind_Done (assert_ true) _ _ _ _ eq_refl), Hp1, Hp2 by lia.
  destruct (search_run r client m (λ m, find_next_zero_bit m ((start + length + 1023) / 1024) (start / 1024)) (λ i, negb (bit m i))
    (start / 1024) ((start + length + 1023) / 1024) Hm ltac:(lia)) as (n & Hn & Hb).
  { apply find_next_zero_bit_ok; try lia; [done |]. pose proof (Z.div_le_upper_bound (last_ram_offset r) 1024 (2 ^ 64 - 1)). lia. }
  eexists. split; [by rewrite (bind_Done _ _ _ _ _ Hn) |]. rewrite Hb. unfold dirty. rewrite Hm.
  split; intros (p & Hp & Hg); exists p; (split; [done |]); by destruct (bit m p).
Qed.

(** One address is on one page. *)
Lemma one_page addr : 0 <= addr -> (addr + 1 + 1023) / 1024 = addr / 1024 + 1.
Proof. intros Ha. replace (addr + 1 + 1023) with (addr + 1 * 1024) by lia. by rewrite Z.div_add. Qed.

Lemma get_dirty_flag_run r addr client :
  ram_ok r -> in_ram r addr 1 -> 0 <= client < 3 ->
  cpu_physical_memory_get_dirty_flag addr client r = Done (dirty r client (addr / 1024)) r [].
Proof.
  intros Hr Hin Hc. destruct (get_dirty_run r addr 1 client Hr Hin Hc) as (b & Hrun & Hb). unfold cpu_physical_memory_get_dirty_flag.
  rewrite Hrun. f_equal. rewrite one_page in Hb by (destruct Hin; lia). apply eq_true_iff_eq. rewrite Hb. split.
  - intros (p & Hp & Hd). by replace (addr / 1024) with p by lia.
  - intros Hd. exists (addr / 1024). split; [lia | done].
Qed.

(** A page is clean if it is clean for a client. *)
Definition clean_page (r : RAMList) (p : Z) : bool := negb (dirty r 0 p && dirty r 1 p && dirty r 2 p).

Lemma is_clean_run r addr :
  ram_ok r -> in_ram r addr 1 -> cpu_physical_memory_is_clean addr r = Done (clean_page r (addr / 1024)) r [].
Proof.
  intros Hr Hin. unfold cpu_physical_memory_is_clean, DIRTY_MEMORY_VGA, DIRTY_MEMORY_CODE, DIRTY_MEMORY_MIGRATION.
  rewrite (bind_Done _ _ _ _ _ (get_dirty_flag_run r addr 0 Hr Hin ltac:(lia))).
  rewrite (bind_Done _ _ _ _ _ (get_dirty_flag_run r addr 1 Hr Hin ltac:(lia))).
  by rewrite (bind_Done _ _ _ _ _ (get_dirty_flag_run r addr 2 Hr Hin ltac:(lia))).
Qed.

Lemma includes_clean_run r start length :
  ram_ok r -> in_ram r start length ->
  exists b, cpu_physical_memory_range_includes_clean start length r = Done b r [] /\
    (b = true <-> exists p, start / 1024 <= p < (start + length + 1023) / 1024 /\ clean_page r p = true).
Proof.
  intros Hr Hin. unfold cpu_physical_memory_range_includes_clean, DIRTY_MEMORY_VGA, DIRTY_MEMORY_CODE, DIRTY_MEMORY_MIGRATION.
  destruct (get_clean_run r start length 0 Hr Hin ltac:(lia)) as (b0 & R0 & H0).
  destruct (get_clean_run r start length 1 Hr Hin ltac:(lia)) as (b1 & R1 & H1).
  destruct (get_clean_run r start length 2 Hr Hin ltac:(lia)) as (b2 & R2 & H2).
  eexists. split; [by rewrite (bind_Done _ _ _ _ _ R0), (bind_Done _ _ _ _ _ R1), (bind_Done _ _ _ _ _ R2) |]. unfold clean_page. split.
  - intros [[Hb | Hb]%orb_prop | Hb]%orb_prop;
      [apply H0 in Hb as (p & Hp & Hd) | apply H1 in Hb as (p & Hp & Hd) | apply H2 in Hb as (p & Hp & Hd)];
      exists p; (split; [done |]); by rewrite Hd, ?andb_false_r.
  - intros (p & Hp & Hd). destruct (dirty r 0 p) eqn:D0; [| by rewrite (proj2 H0) by (by exists p)].
    destruct (dirty r 1 p) eqn:D1; [| by rewrite (proj2 H1), orb_true_r by (by exists p)].
    destruct (dirty r 2 p) eqn:D2; [done | by rewrite (proj2 H2), orb_true_r by (by exists p)].
Qed.

(** ** Allocation *)

Lemma last_of_spec bs l :
  (forall b, b ∈ bs -> block_end b <= l) -> (l = 0 \/ exists b, b ∈ bs /\ block_end b = l) -> 0 <= l ->
  foldl (λ last b, Z.max last (block_end b)) 0 bs = l.
Proof.
  intros Hub Hatt Hl.
  assert (Hge : forall bs n0 b, b ∈ bs -> block_end b <= foldl (λ last b, Z.max last (block_end b)) n0 bs).
  { clear. induction bs as [|x bs IH]; intros n0 b Hb; [by apply not_elem_of_nil in Hb |]. cbn [foldl].
    apply elem_of_cons in Hb as [-> | Hb]; [| by apply IH].
    assert (Hm : forall bs n0, n0 <= foldl (λ last b, Z.max last (block_end b)) n0 bs).
    { clear. induction bs as [|x bs IH]; intros n0; cbn [foldl]; [lia |]. specialize (IH (Z.max n0 (block_end x))). lia. }
    specialize (Hm bs (Z.max n0 (block_end x))). lia. }
  destruct (last_ram_eq bs 0 ltac:(lia)) as [H0 Heq]. set (x := foldl _ 0 bs) in *.
  assert (Hle : x <= l) by (destruct Heq as [-> | (b & Hb & ->)]; [done | by apply Hub]).
  destruct Hatt as [-> | (b & Hb & <-)]; [lia |]. specialize (Hge bs 0 b Hb). unfold x in *. lia.
Qed.

Lemma last_insert r new r' :
  ram_ok r -> wf_block new -> blocks r' ≡ₚ new :: blocks r -> last_ram_offset r' = Z.max (last_ram_offset r) (rb_offset new + rb_length new).
Proof.
  intros Hr Hw Hp. rewrite <- (wf_end new Hw). destruct (last_ram_page r Hr) as [_ Hnn].
  assert (Hn : 0 < block_end new) by apply (end_page new Hw).
  unfold last_ram_offset at 1. apply last_of_spec; [| | lia].
  - intros b Hb. rewrite Hp in Hb. apply elem_of_cons in Hb as [-> | Hb]; [lia |].
    pose proof (last_ram_bound r b Hr Hb) as Hl. rewrite <- (wf_end b (wf_lookup r b Hr Hb)) in Hl. lia.
  - destruct (Z.max_spec (last_ram_offset r) (block_end new)) as [[_ ->] | [Hle ->]].
    + right. exists new. split; [rewrite Hp; by left | done].
    + destruct (last_ram_eq (blocks r) 0 ltac:(lia)) as [_ [H0 | (b & Hb & He)]]; [unfold last_ram_offset in *; lia |].
      right. exists b. split; [rewrite Hp; by right | done].
Qed.

Definition garbage_ok (garbage : nat → Z) : Prop := forall i, 0 <= garbage i < 2 ^ 64.

Lemma extend_bitmaps_ok garbage old new : garbage_ok garbage -> 0 <= old <= new -> forall ms,
  Forall (λ m, words_ok m /\ old <= nbits m) ms ->
  exists ms', extend_bitmaps garbage ms old new = Some ms' /\
    Forall2 (λ m m', words_ok m' /\ new <= nbits m' /\ forall i, 0 <= i < new -> bit m' i = if i <? old then bit m i else false) ms ms'.
Proof.
  intros Hg Ho. induction 1 as [|m ms [Hw Hc] _ IH]; [by exists [] |].
  destruct (zero_extend_ok garbage m old new Hw Hg Ho Hc) as (m' & Hm & Hw' & Hc' & Hb). destruct IH as (ms' & Hms & Hf).
  exists (m' :: ms'). cbn [extend_bitmaps]. rewrite Hm, Hms. split; [done |]. by constructor.
Qed.

Lemma grow_bitmaps_run garbage r old :
  garbage_ok garbage -> length (dirty_memory r) = 3%nat -> Forall (λ m, words_ok m /\ old <= nbits m) (dirty_memory r) -> 0 <= old ->
  exists ms, grow_bitmaps garbage old (last_ram_offset r / 1024) r = Done () (r <| dirty_memory := ms |>) [] /\
    bitmaps_ok (r <| dirty_memory := ms |>) /\
    forall c p, 0 <= p < old -> p < last_ram_offset r / 1024 -> dirty (r <| dirty_memory := ms |>) c p = dirty r c p.
Proof.
  intros Hg Hl Hf Ho. unfold grow_bitmaps. destruct (Z.ltb_spec old (last_ram_offset r / 1024)) as [Hlt | Hge]; cbn [when].
  - destruct (extend_bitmaps_ok garbage old (last_ram_offset r / 1024) Hg ltac:(lia) _ Hf) as (ms & Hms & Hf2). exists ms.
    rewrite bind_get, Hms. split; [done |]. split.
    + split; [cbn; rewrite <- Hl; symmetry; by apply (Forall2_length _ _ _ Hf2) |]. cbn.
      change (last_ram_offset (r <| dirty_memory := ms |>)) with (last_ram_offset r).
      apply Forall_lookup. intros i m' Hm'. destruct (Forall2_lookup_r _ _ _ _ _ Hf2 Hm') as (m & _ & Hw & Hc & _). done.
    + intros c p Hp Hpl. unfold dirty. cbn. destruct (ms !! Z.to_nat c) as [m' |] eqn:Hm'.
      * destruct (Forall2_lookup_r _ _ _ _ _ Hf2 Hm') as (m & Hm & _ & _ & Hb). rewrite Hm, Hb by lia. by rewrite (proj2 (Z.ltb_lt p old)) by lia.
      * destruct (dirty_memory r !! Z.to_nat c) as [m |] eqn:Hm; [| done].
        destruct (Forall2_lookup_l _ _ _ _ _ Hf2 Hm) as (m' & Hm2 & _). congruence.
  - exists (dirty_memory r). assert (Hr : r = r <| dirty_memory := dirty_memory r |>) by (by destruct r). rewrite <- Hr.
    split; [done |]. split; [| done]. split; [done |]. eapply Forall_impl; [exact Hf |]. intros m [Hw Hc]. split; [done | lia].
Qed.

(** The list with a new block is well formed as far as blocks go. *)
Lemma insert_ok r new :
  ram_ok r -> wf_block new -> (forall b, b ∈ blocks r -> disjoint_range (rb_offset new) (rb_length new) (rb_offset b) (rb_length b)) ->
  let bs := insert_block new (blocks r) in
  Forall wf_block bs /\ apart bs /\ NoDup bs /\ StronglySorted longer bs.
Proof.
  intros Hr Hw Hd bs. pose proof (insert_block_perm new (blocks r)) as Hp. fold bs in Hp. split; [| split; [| split]].
  - rewrite Hp. constructor; [done | apply (ro_blocks _ Hr)].
  - intros b1 b2 H1 H2. rewrite Hp in H1, H2. apply elem_of_cons in H1 as [-> | H1], H2 as [-> | H2].
    + by left. + right. by apply Hd. + right. unfold disjoint_range. destruct (Hd b1 H1); [right | left]; lia.
    + by apply (ro_apart _ Hr).
  - rewrite Hp. constructor; [| apply (ro_nodup _ Hr)]. intros Hin. destruct Hw as (_ & Hpos & _). destruct (Hd new Hin); lia.
  - apply insert_block_sorted, (ro_sorted _ Hr).
Qed.

(** A new block: where it is, and what is dirty afterwards. *)
Definition allocated (r r' : RAMList) (new : RAMBlock) : Prop :=
  ram_ok r' /\ blocks r' ≡ₚ new :: blocks r /\ fits r (rb_length new) (rb_offset new) /\
  forall c p, 0 <= c < 3 -> 0 <= p < last_ram_offset r' / 1024 ->
    (rb_offset new / 1024 <= p < (rb_offset new + rb_length new) / 1024 -> dirty r' c p = true) /\
    (p < last_ram_offset r / 1024 -> ~ (rb_offset new / 1024 <= p < (rb_offset new + rb_length new) / 1024) ->
     dirty r' c p = dirty r c p).

Lemma page_end_exact x : x mod 1024 = 0 -> (x + 1023) / 1024 = x / 1024.
Proof. intros Hx. pose proof (Z.div_mod x 1024 ltac:(lia)). symmetry. apply (Z.div_unique _ 1024 _ 1023); lia. Qed.

Lemma block_add_run alloc garbage r nb host :
  ram_ok r -> garbage_ok garbage -> 0 < rb_length nb <= 2 ^ 64 - 1024 -> rb_length nb mod 1024 = 0 ->
  (if rb_host nb =? 0 then alloc (rb_length nb) else Some (rb_host nb)) = Some host ->
  (blocks r <> [] -> exists b, b ∈ blocks r /\ rb_length nb <= gap_after (blocks r) b) ->
  exists off r', ram_block_add alloc garbage nb r = Done off r' [] /\
    allocated r r' (nb <| rb_offset := off |> <| rb_host := host |>).
Proof.
  intros Hr Hg Hlen Hal Hhost Hroom. destruct nb as [mr h0 o0 len fl]. cbn [rb_length rb_host rb_mr rb_flags] in *.
  destruct (find_ram_offset_ok r len Hr ltac:(lia)) as [(off & Hfind & Hfit) | (_ & Hne & Hnone)].
  2:{ destruct (Hroom Hne) as (b & Hb & Hle). specialize (Hnone b Hb). lia. }
  set (new := mkBlock mr host off len fl). change (mkBlock mr h0 o0 len fl <| rb_offset := off |> <| rb_host := host |>) with new.
  assert (Hw : wf_block new).
  { destruct Hfit as [H1 H2 H3 H4 H5]. unfold new, wf_block, RAM_ADDR_MAX. cbn. repeat split; try done; try lia.
    destruct H5 as [[_ ->] | (b & Hb & _)]; [lia |]. destruct (blocks r); [by apply not_elem_of_nil in Hb |].
    specialize (H4 ltac:(done)). unfold RAM_ADDR_MAX in H4. lia. }
  set (r1 := r <| blocks := insert_block new (blocks r) |> <| mru_block := None |> <| version := u32 (version r + 1) |>).
  destruct (insert_ok r new Hr Hw (fit_clear _ _ _ Hfit)) as (I1 & I2 & I3 & I4).
  pose proof (insert_block_perm new (blocks r)) as Hp.
  pose proof (last_insert r new r1 Hr Hw Hp) as Hlast. change (rb_offset new) with off in *. change (rb_length new) with len in *.
  destruct (last_ram_page r Hr) as [Hlp Hlr]. destruct (ro_dirty _ Hr) as [Hd1 Hd2].
  destruct (grow_bitmaps_run garbage r1 (last_ram_offset r / 1024) Hg Hd1 Hd2 ltac:(apply Z.div_pos; lia)) as (ms & Hgrow & Hbm & Hkeep).
  set (r2 := r1 <| dirty_memory := ms |>) in *.
  assert (Hr2 : ram_ok r2) by (constructor; try done).
  assert (Hl2 : last_ram_offset r2 = last_ram_offset r1) by done.
  destruct Hw as (W1 & W2 & W3 & W4 & W5). cbn in W1, W2, W3, W4, W5.
  destruct (set_dirty_range_run r2 off len Hr2) as (r3 & Hset & Hs3 & Hr3 & Hd3); [unfold in_ram; lia |].
  exists off, r3. split.
  - unfold ram_block_add. rewrite bind_gets, (bind_Done _ _ _ _ _ Hfind). cbv zeta.
    cbn [rb_host rb_length set_field eta_RAMBlock rb_mr rb_offset rb_flags].
    assert (Hhs : ((if h0 =? 0 then match alloc len with Some host => mret (mkBlock mr host off len fl) | None => halt HwError end
      else mret (mkBlock mr h0 off len fl)) : RM RAMBlock) r = Done new r []).
    { destruct (h0 =? 0); [by rewrite Hhost | by injection Hhost as ->]. }
    etrans; [apply (bind_Done _ _ _ _ _ Hhs) |]. rewrite bind_modify, bind_gets. fold r1.
    rewrite !page_div, (bind_Done _ _ _ _ _ Hgrow). change (rb_offset new) with off. change (rb_length new) with len.
    by rewrite (bind_Done _ _ _ _ _ Hset).
  - change (allocated r r3 new). split; [done |]. split; [rewrite (proj1 Hs3); exact Hp |]. split; [exact Hfit |].
    change (rb_offset new) with off. change (rb_length new) with len.
    intros c p Hc Hpr. assert (Hl3 : last_ram_offset r3 = last_ram_offset r1) by (unfold last_ram_offset; by rewrite (proj1 Hs3)).
    assert (Hend : (off + len + 1023) / 1024 = (off + len) / 1024).
    { apply page_end_exact. by rewrite Zplus_mod, W4, W5. }
    rewrite Hl3 in Hpr. rewrite Hl2, Hend in Hd3. rewrite (Hd3 c p Hc Hpr). split.
    + intros Hin. rewrite (proj2 (Z.leb_le _ _)), (proj2 (Z.ltb_lt _ _)) by lia.
      rewrite bool_decide_eq_true_2; [done |]. assert (Hcc : c = 0 \/ c = 1 \/ c = 2) by lia. set_solver.
    + intros Hlt Hout. change (dirty r c p) with (dirty r1 c p). rewrite <- (Hkeep c p) by lia.
      assert (Hf : (off / 1024 <=? p) && (p <? (off + len) / 1024) = false).
      { destruct (Z.leb_spec (off / 1024) p), (Z.ltb_spec p ((off + len) / 1024)); done || lia. }
      rewrite <- andb_assoc, Hf. by rewrite andb_false_r.
Qed.

Lemma remove_block_spec addr bs bs' :
  remove_block addr bs = Some bs' -> exists b, rb_offset b = addr /\ bs ≡ₚ b :: bs' /\ bs' `sublist_of` bs.
Proof.
  revert bs'. induction bs as [|b bs IH]; intros bs'; [done |]. cbn [remove_block].
  destruct (Z.eqb_spec addr (rb_offset b)) as [-> |].
  - intros [= <-]. exists b. split; [done |]. split; [done | by apply sublist_cons].
  - destruct (remove_block addr bs) as [l |]; [| done]. intros [= <-]. destruct (IH l eq_refl) as (b' & Hb & Hp & Hs).
    exists b'. split; [done |]. split; [| by apply sublist_skip]. rewrite Hp. apply perm_swap.
Qed.

Lemma free_ok r addr r' : ram_ok r -> qemu_ram_free addr r = Done () r' [] ->
  ram_ok r' /\ (forall b, b ∈ blocks r' <-> b ∈ blocks r /\ rb_offset b <> addr).
Proof.
  intros Hr. unfold qemu_ram_free. rewrite bind_get. destruct (remove_block addr (blocks r)) as [bs |] eqn:Hrem.
  - intros [= <-]. destruct (remove_block_spec _ _ _ Hrem) as (b & Hb & Hp & Hs).
    assert (Hin : forall x, x ∈ bs -> x ∈ blocks r) by (intros x Hx; rewrite Hp; by right).
    assert (Hbi : b ∈ blocks r) by (rewrite Hp; by left).
    pose proof (ro_nodup _ Hr) as Hnd. rewrite Hp in Hnd. apply NoDup_cons in Hnd as [Hnb Hnd].
    split.
    + constructor; cbn; try done.
      * apply Forall_forall. intros x Hx. apply (wf_lookup r x Hr), Hin, Hx.
      * intros x y Hx Hy. apply (ro_apart _ Hr); by apply Hin.
      * pose proof (ro_sorted _ Hr) as Hso. clear -Hs Hso. revert Hso.
        induction Hs as [| x l1 l2 Hs IH | x l1 l2 Hs IH]; intros Hso; [constructor | |]; apply StronglySorted_inv in Hso as [Hso Hf].
        -- constructor; [by apply IH |]. apply Forall_forall. intros y Hy. apply (proj1 (Forall_forall _ _) Hf), (sublist_subseteq _ _ Hs), Hy.
        -- by apply IH.
      * destruct (ro_dirty _ Hr) as [Hl Hd]. split; [done |]. eapply Forall_impl; [exact Hd |]. intros m [Hw Hc]. split; [done |].
        etrans; [| exact Hc]. apply Z.div_le_mono; [lia |]. unfold last_ram_offset at 1. cbn.
        destruct (last_ram_eq bs 0 ltac:(lia)) as [_ [-> | (x & Hx & ->)]]; [by apply (last_ram_page r Hr) |].
        rewrite (wf_end x (wf_lookup r x Hr (Hin x Hx))). by apply last_ram_bound, Hin.
    + cbn. intros x. split.
      * intros Hx. split; [by apply Hin |]. intros He. destruct (ro_apart _ Hr x b (Hin x Hx) Hbi) as [-> | Hd]; [done |].
        pose proof (wf_lookup r x Hr (Hin x Hx)) as (_ & H1 & _). pose proof (wf_lookup r b Hr Hbi) as (_ & H2 & _).
        unfold disjoint_range in Hd. lia.
      * intros [Hx Hne]. rewrite Hp in Hx. apply elem_of_cons in Hx as [-> | Hx]; [done | done].
  - intros [= <-]. split; [done |]. intros x. split; [| by intros []]. intros Hx. split; [done |]. intros He.
    revert Hrem Hx. clear -He. induction (blocks r) as [|y l IH]; intros Hrem Hx; [by apply not_elem_of_nil in Hx |]. cbn in Hrem.
    destruct (Z.eqb_spec addr (rb_offset y)) as [| Hne]; [done |]. destruct (remove_block addr l) eqn:Hl; [done |].
    apply elem_of_cons in Hx as [-> | Hx]; [lia | by apply IH].
Qed.

(** *** From host pointers back to RAM addresses *)

(** The memory of a block lies in the host's address space, and blocks do not share
    host memory: what [mmap] promises for the blocks that are allocated. *)
Definition host_ok (bs : list RAMBlock) : Prop :=
  (forall b, b ∈ bs -> 0 < rb_host b < 2 ^ 64 /\ rb_host b + rb_length b <= 2 ^ 64) /\
  forall b1 b2, b1 ∈ bs -> b2 ∈ bs -> b1 = b2 \/ disjoint_range (rb_host b1) (rb_length b1) (rb_host b2) (rb_length b2).

Lemma in_host_block_spec bs b host :
  host_ok bs -> b ∈ bs -> 0 <= host < 2 ^ 64 -> in_host_block host b = true <-> rb_host b <= host < rb_host b + rb_length b.
Proof.
  intros [Hh _] Hb Hr. destruct (Hh b Hb) as [H1 H2]. unfold in_host_block. rewrite (proj2 (Z.eqb_neq (rb_host b) 0)) by lia. cbn [negb andb].
  rewrite Z.ltb_lt. unfold u64. destruct (decide (rb_host b <= host)).
  - rewrite Z.mod_small by lia. lia.
  - replace (host - rb_host b) with (host - rb_host b + 2 ^ 64 + (-1) * 2 ^ 64) by lia. rewrite Z_mod_plus_full, Z.mod_small by lia. lia.
Qed.

(** A pointer into a block leads back to the RAM address that it came from. *)
Lemma ram_addr_from_host_run r b addr :
  ram_ok r -> host_ok (blocks r) -> b ∈ blocks r -> inside b addr ->
  qemu_ram_addr_from_host (rb_host b + (addr - rb_offset b)) r = Done (Some (rb_mr b, addr)) r [].
Proof.
  intros Hr Hh Hb Hi. destruct (proj1 Hh b Hb) as [Hh1 Hh2]. unfold inside in Hi. set (host := rb_host b + (addr - rb_offset b)).
  assert (Hr64 : 0 <= host < 2 ^ 64) by (unfold host; lia).
  assert (Hu : forall b', b' ∈ blocks r -> in_host_block host b' = true -> b' = b).
  { intros b' Hb' Hin. apply (proj1 (in_host_block_spec (blocks r) b' host Hh Hb' Hr64)) in Hin.
    destruct (proj2 Hh b' b Hb' Hb) as [| Hd]; [done |]. unfold disjoint_range, host in *. lia. }
  assert (Hf : List.find (in_host_block host) (blocks r) = Some b).
  { apply find_unique; [done | | done]. apply (proj2 (in_host_block_spec (blocks r) b host Hh Hb Hr64)). unfold host. lia. }
  assert (Hfound : u64 (rb_offset b + (host - rb_host b)) = addr).
  { unfold host. replace (rb_offset b + (rb_host b + (addr - rb_offset b) - rb_host b)) with addr by lia. apply u64_small.
    destruct (wf_lookup r b Hr Hb) as (? & ? & Hmax & _). unfold RAM_ADDR_MAX in Hmax. lia. }
  unfold qemu_ram_addr_from_host. rewrite bind_get, Hf, Hfound. destruct (mru_block r) as [m |] eqn:Hm; [| done].
  destruct (in_host_block host m) eqn:Hin; [| done]. by rewrite (Hu m (ro_mru _ Hr m Hm) Hin), Hfound.
Qed.

(** ** The result *)

(** The list at the start of the program. *)
Definition ram_empty : RAMList := mkRamList [[]; []; []] None [] 0.

Lemma ram_empty_ok : ram_ok ram_empty.
Proof.
  constructor; try done; [| | | split; [done |]]; cbn.
  - intros b1 b2 H. by apply not_elem_of_nil in H.
  - constructor.
  - constructor.
  - repeat constructor; done.
Qed.

Lemma alloc_run phys_mem_alloc garbage r size host mr :
  let length := (size + 1023) / 1024 * 1024 in
  ram_ok r -> garbage_ok garbage -> 0 < size -> length <= 2 ^ 64 - 1024 ->
  last_ram_offset r + length <= RAM_ADDR_MAX -> phys_mem_alloc length = Some host ->
  exists off r', qemu_ram_alloc phys_mem_alloc garbage size mr r = Done off r' [] /\
    allocated r r' (mkBlock mr host off length 0).
Proof.
  intros length Hr Hg Hs Hlen Hroom Ha. unfold qemu_ram_alloc, qemu_ram_alloc_from_ptr.
  pose proof (Z.div_mod (size + 1023) 1024 ltac:(lia)) as Hdm. pose proof (Z.mod_pos_bound (size + 1023) 1024 ltac:(lia)).
  rewrite page_align_up by (unfold length in Hlen; lia). fold length.
  apply (block_add_run phys_mem_alloc garbage r (mkBlock mr 0 0 length 0) host Hr Hg); try done.
  - cbn. unfold length in *. lia.
  - cbn. apply Z_mod_mult.
  - intros Hne. by apply room_at_end.
Qed.

(** C25 (ram_alloc).  Allocating RAM for a region succeeds whenever there is room behind
    the last block and the host has memory: the new block is rounded up to pages and
    put into the smallest gap between blocks that is large enough, the list stays
    sorted by size and no two blocks share a RAM address; every RAM address of every
    block, the old ones included, leads to its own byte of host memory; the pages of
    the new block are dirty for all clients, those of the old ones are as before. *)
Theorem ram_alloc phys_mem_alloc garbage r size host mr :
  let length := (size + 1023) / 1024 * 1024 in
  ram_ok r -> garbage_ok garbage -> 0 < size -> length <= 2 ^ 64 - 1024 ->
  last_ram_offset r + length <= RAM_ADDR_MAX -> phys_mem_alloc length = Some host ->
  exists off r', qemu_ram_alloc phys_mem_alloc garbage size mr r = Done off r' [] /\
    allocated r r' (mkBlock mr host off length 0) /\
    forall b addr, b ∈ blocks r' -> inside b addr ->
      exists r'', qemu_get_ram_ptr addr r' = Done (u64 (rb_host b + (addr - rb_offset b))) r'' [].
Proof.
  intros length Hr Hg Hs Hlen Hroom Ha.
  destruct (alloc_run phys_mem_alloc garbage r size host mr Hr Hg Hs Hlen Hroom Ha) as (off & r' & Hrun & Hal).
  exists off, r'. split; [exact Hrun |]. split; [exact Hal |]. intros b addr Hb Hi. eexists.
  by apply get_ram_ptr_run; [apply Hal | |].
Qed.

Definition demo_ram : RAMList :=
  match qemu_ram_alloc (λ _, Some 0x10000000) (λ _, 0) 0x1ffff 1 ram_empty with Done _ r _ => r | Halt _ => ram_empty end.

Lemma demo_ram_ok : ram_ok demo_ram.
Proof.
  destruct (alloc_run (λ _, Some 0x10000000) (λ _, 0) ram_empty 0x1ffff 0x10000000 1 ram_empty_ok) as (off & r' & Hrun & Hal).
  - intros i. lia.
  - lia.
  - vm_compute. discriminate.
  - vm_compute. discriminate.
  - reflexivity.
  - unfold demo_ram. rewrite Hrun. apply Hal.
Qed.

Lemma ram_alloc_witness :
  ram_ok demo_ram /\
  exists off r', qemu_ram_alloc (λ _, Some 0x20000000) (λ _, 0) 0x4fff 2 demo_ram = Done off r' [] /\
    allocated demo_ram r' (mkBlock 2 0x20000000 off 0x5000 0).
Proof.
  split; [exact demo_ram_ok |].
  destruct (ram_alloc (λ _, Some 0x20000000) (λ _, 0) demo_ram 0x4fff 0x20000000 2 demo_ram_ok) as (off & r' & Hrun & Hal & _).
  - intros i. lia.
  - lia.
  - vm_compute. discriminate.
  - vm_compute. discriminate.
  - reflexivity.
  - exists off, r'. split; [exact Hrun | exact Hal].
Defined.
