(* ===== verification/Physio.v ===== *)
(** * Accesses to physical memory ([exec.c])

    The processor, the devices and the debugger reach guest memory through an address
    space: [address_space_translate] finds the region of an address, RAM is read and
    written in host memory, and the accesses to other regions are cut into pieces that
    the region accepts.  A write to RAM tells the code cache and marks the pages dirty.
    [address_space_map] lends host memory to a device, through a bounce buffer when the
    region is not RAM.

    The state joins the dispatcher of the address space, the regions, the blocks of RAM
    with their dirty bitmaps, the memory of the host and the state of the devices.  The
    host and the target are little-endian; Xen, KVM and IOMMUs are left out. *)

From stdpp Require Import gmap list.
From S2P Require Import Prelude Memory Flatview Memaccess Memregion Physmap Dispatch Bitmap Ramblock.
Open Scope Z_scope.

(** What happens outside: events of devices, the code cache is told that a range of RAM
    changes, a client of the bounce buffer is called, the host's instruction cache is
    flushed. *)
Inductive phys_event (E : Type) : Type :=
  | DeviceEvent (e : E)
  | TbInvalidate (start end_ : Z)
  | MapClientCall (opaque : Z)
  | FlushIcache (start end_ : Z).
Arguments DeviceEvent {E} e.
Arguments TbInvalidate {E} start end_.
Arguments MapClientCall {E} opaque.
Arguments FlushIcache {E} start end_.

(** [buffer] is null when the buffer is free. *)
Record BounceBuffer : Type := mkBounce { bb_mr : phys_mr; bb_buffer : Z; bb_addr : Z; bb_len : Z }.
#[export] Instance eta_BounceBuffer : Settable BounceBuffer := λ b, mkBounce (bb_mr b) (bb_buffer b) (bb_addr b) (bb_len b).

Record memsys (D : Type) : Type := mkSys {
  ms_dispatch : AddressSpaceDispatch;
  ms_regions : regions;
  ms_ram : RAMList;
  ms_host : gmap Z Z;
  in_migration : bool;
  bounce : BounceBuffer;
  map_client_list : list Z;
  ms_devices : D
}.
Arguments mkSys {D} _ _ _ _ _ _ _ _.
Arguments ms_dispatch {D} _.
Arguments ms_regions {D} _.
Arguments ms_ram {D} _.
Arguments ms_host {D} _.
Arguments in_migration {D} _.
Arguments bounce {D} _.
Arguments map_client_list {D} _.
Arguments ms_devices {D} _.
#[export] Instance eta_memsys D : Settable (memsys D) := λ s,
  mkSys (ms_dispatch s) (ms_regions s) (ms_ram s) (ms_host s) (in_migration s) (bounce s) (map_client_list s) (ms_devices s).

(** The callbacks of a region and [impl.unaligned]. *)
Record region_ops (E S : Type) : Type := mkRegionOps { mr_ops : MemoryRegionOps E S; impl_unaligned : bool }.
Arguments mkRegionOps {E S} _ _.
Arguments mr_ops {E S} _.
Arguments impl_unaligned {E S} _.

(** [unassigned_mem_ops]: the callbacks of a region that has been given none, as RAM. *)
Definition unassigned_mem_ops {E S} : region_ops E S :=
  mkRegionOps (mkOps None None DEVICE_NATIVE_ENDIAN 0 0 false (Some (λ _ _ _ _, false)) 0 0 [] []) false.

Section Phys.
  Context {E D : Type}.

Notation Sys := (memsys D).
Notation PIO := (M (phys_event E) Sys).

(** The callbacks of the regions, [mr->ram_addr] of those with RAM, and what an access
    to unassigned memory does. *)
Context (ops : phys_mr → region_ops (phys_event E) Sys) (ram_addr : nat → Z) (unassigned : Z → bool → Z → PIO unit).

(** The dispatcher and the blocks of RAM as parts of the state. *)
Definition on_dispatch {A} (m : PM A) : PIO A := λ s,
  match m (ms_dispatch s) with Done a d _ => Done a (s <| ms_dispatch := d |>) [] | Halt f => Halt f end.

Definition on_ram {A} (m : RM A) : PIO A := λ s,
  match m (ms_ram s) with Done a r _ => Done a (s <| ms_ram := r |>) [] | Halt f => Halt f end.

Definition region_size_of (s : Sys) (r : nat) : Z := match ms_regions s !! r with Some m => mr_size m | None => 0 end.

(** The regions of [exec.c] itself are I/O regions. *)
Definition region_test (f : MemoryRegion → bool) (s : Sys) (mr : phys_mr) : bool :=
  match mr with RegionMr r => match ms_regions s !! r with Some m => f m | None => false end | _ => false end.

Definition memory_region_is_romd (m : MemoryRegion) : bool := mr_rom_device m && mr_romd_mode m.

Definition memory_access_is_direct (s : Sys) (mr : phys_mr) (is_write : bool) : bool :=
  if region_test memory_region_is_ram s mr then negb (is_write && region_test mr_readonly s mr)
  else if region_test memory_region_is_romd s mr then negb is_write
  else false.

(** [mr->ram_addr], which is -1 for a region without RAM. *)
Definition memory_region_get_ram_addr (mr : phys_mr) : Z := match mr with RegionMr r => ram_addr r | _ => 2 ^ 64 - 1 end.

Definition translate (addr plen : Z) : PIO (phys_mr * Z * Z) :=
  s ← get; on_dispatch (address_space_translate (region_size_of s) addr plen).

Definition host_read (ptr : Z) (n : nat) : PIO (list Z) := gets (λ s, bytes_at (ms_host s) ptr n).
Definition host_write (ptr : Z) (bs : list Z) : PIO unit := modify (λ s, s <| ms_host := ram_write (ms_host s) ptr bs |>).

Definition invalidate_and_set_dirty (addr length : Z) : PIO unit :=
  clean ← on_ram (cpu_physical_memory_range_includes_clean addr length);
  when clean
    (emit (TbInvalidate addr (u64 (addr + length))) ;;
     on_ram (cpu_physical_memory_set_dirty_range_nocode addr length)).

(** ** Accesses of any length *)

(** [qemu_fls] of a positive number. *)
Definition qemu_fls (i : Z) : Z := Z.log2 i + 1.

Definition memory_access_size (o : region_ops (phys_event E) Sys) (l addr : Z) : Z :=
  let access_size_max := valid_max_access_size (mr_ops o) in
  let access_size_max := if access_size_max =? 0 then 4 else access_size_max in
  let access_size_max :=
    if negb (impl_unaligned o) then
      let align_size_max := u32 (addr .& u64 (- addr)) in
      if negb (align_size_max =? 0) && (align_size_max <? access_size_max) then align_size_max else access_size_max
    else access_size_max in
  let l := if access_size_max <? l then access_size_max else l in
  if cbool (l .& (l - 1)) then 1 << (qemu_fls l - 1) else l.

Definition io_size (l : Z) : bool := (l =? 8) || (l =? 4) || (l =? 2) || (l =? 1).

(** A piece of an access to a region that is not RAM; other sizes abort. *)
Definition io_write_piece (mr : phys_mr) (addr1 l : Z) (buf : list Z) : PIO bool :=
  if io_size l then io_mem_write unassigned (mr_ops (ops mr)) addr1 (of_le (take (Z.to_nat l) buf)) l else halt AssertFailed.

Definition io_read_piece (mr : phys_mr) (addr1 l : Z) : PIO (bool * list Z) :=
  if io_size l then
    '(e, val) ← io_mem_read unassigned (mr_ops (ops mr)) addr1 l;
    mret (e, le_bytes (Z.to_nat l) val)
  else halt AssertFailed.

(** What the loop of [address_space_rw] does for one piece: how much it is, whether it
    failed, and what the buffer holds there afterwards. *)
Definition rw_piece (addr : Z) (buf : list Z) (is_write : bool) : PIO (Z * bool * list Z) :=
  '(mr, addr1, l) ← translate addr (Z.of_nat (length buf));
  s ← get;
  if is_write then
    if negb (memory_access_is_direct s mr is_write) then
      let l := memory_access_size (ops mr) (u32 l) addr1 in
      e ← io_write_piece mr addr1 l buf;
      mret (l, e, take (Z.to_nat l) buf)
    else
      let addr1 := u64 (addr1 + memory_region_get_ram_addr mr) in
      ptr ← on_ram (qemu_get_ram_ptr addr1);
      host_write ptr (take (Z.to_nat l) buf) ;;
      invalidate_and_set_dirty addr1 l ;;
      mret (l, false, take (Z.to_nat l) buf)
  else
    if negb (memory_access_is_direct s mr is_write) then
      let l := memory_access_size (ops mr) (u32 l) addr1 in
      '(e, bs) ← io_read_piece mr addr1 l;
      mret (l, e, bs)
    else
      ptr ← on_ram (qemu_get_ram_ptr (u64 (memory_region_get_ram_addr mr + addr1)));
      bs ← host_read ptr (Z.to_nat l);
      mret (l, false, bs).

Fixpoint rw_loop (fuel : nat) (addr : Z) (buf : list Z) (is_write : bool) : PIO (bool * list Z) :=
  match buf, fuel with
  | [], _ => mret (false, [])
  | _, O => halt OutOfFuel
  | _, S fuel =>
      '(l, e, now) ← rw_piece addr buf is_write;
      '(error, rest) ← rw_loop fuel (u64 (addr + l)) (drop (Z.to_nat l) buf) is_write;
      mret (e || error, now ++ rest)
  end.

(** Whether a piece failed, and the buffer; its length is below [2 ^ 31]. *)
Definition address_space_rw (addr : Z) (buf : list Z) (is_write : bool) : PIO (bool * list Z) :=
  rw_loop (length buf) addr buf is_write.

Definition address_space_write (addr : Z) (buf : list Z) : PIO bool := '(e, _) ← address_space_rw addr buf true; mret e.

Definition address_space_read (addr : Z) (len : nat) : PIO (bool * list Z) := address_space_rw addr (replicate len 0) false.

Definition cpu_physical_memory_rw (addr : Z) (buf : list Z) (is_write : bool) : PIO (list Z) :=
  '(_, buf) ← address_space_rw addr buf is_write; mret buf.

(** *** Writing to ROM *)

Inductive write_rom_type : Type := WRITE_DATA | FLUSH_CACHE.

Fixpoint write_rom_loop (fuel : nat) (addr : Z) (buf : list Z) (type : write_rom_type) : PIO unit :=
  match buf, fuel with
  | [], _ => mret ()
  | _, O => halt OutOfFuel
  | _, S fuel =>
      '(mr, addr1, l) ← translate addr (Z.of_nat (length buf));
      s ← get;
      when (region_test memory_region_is_ram s mr || region_test memory_region_is_romd s mr)
        (let addr1 := u64 (addr1 + memory_region_get_ram_addr mr) in
         ptr ← on_ram (qemu_get_ram_ptr addr1);
         match type with
         | WRITE_DATA => host_write ptr (take (Z.to_nat l) buf) ;; invalidate_and_set_dirty addr1 l
         | FLUSH_CACHE => emit (FlushIcache ptr (u64 (ptr + l)))
         end) ;;
      write_rom_loop fuel (u64 (addr + l)) (drop (Z.to_nat l) buf) type
  end.

Definition cpu_physical_memory_write_rom_internal (addr : Z) (buf : list Z) (type : write_rom_type) : PIO unit :=
  write_rom_loop (length buf) addr buf type.

Definition cpu_physical_memory_write_rom (addr : Z) (buf : list Z) : PIO unit :=
  cpu_physical_memory_write_rom_internal addr buf WRITE_DATA.

Definition cpu_flush_icache_range (tcg_enabled : bool) (start : Z) (len : nat) : PIO unit :=
  if tcg_enabled then mret () else cpu_physical_memory_write_rom_internal start (replicate len 0) FLUSH_CACHE.

(** *** Asking whether an access is possible *)

Fixpoint valid_loop (fuel : nat) (addr len : Z) (is_write : bool) : PIO bool :=
  if 0 <? len then
    match fuel with
    | O => halt OutOfFuel
    | S fuel =>
        '(mr, xlat, l) ← translate addr len;
        s ← get;
        if negb (memory_access_is_direct s mr is_write) then
          let l := memory_access_size (ops mr) (u32 l) addr in
          if negb (memory_region_access_valid (mr_ops (ops mr)) s xlat l is_write) then mret false
          else valid_loop fuel (u64 (addr + l)) (len - l) is_write
        else valid_loop fuel (u64 (addr + l)) (len - l) is_write
    end
  else mret true.

Definition address_space_access_valid (addr len : Z) (is_write : bool) : PIO bool :=
  valid_loop (Z.to_nat len) addr len is_write.

Definition cpu_physical_memory_is_io (phys_addr : Z) : PIO bool :=
  '(mr, _, _) ← translate phys_addr 1;
  gets (λ s, negb (region_test memory_region_is_ram s mr || region_test memory_region_is_romd s mr)).

(** ** Accesses of a word

    [n] is 2, 4 or 8; the address must be aligned. *)

Definition ld_phys_internal (n : nat) (addr : Z) (endian : device_endian) : PIO Z :=
  '(mr, addr1, l) ← translate addr (Z.of_nat n);
  s ← get;
  if (l <? Z.of_nat n) || negb (memory_access_is_direct s mr false) then
    '(_, val) ← io_mem_read unassigned (mr_ops (ops mr)) addr1 (Z.of_nat n);
    mret (if bool_decide (endian = DEVICE_BIG_ENDIAN) then bswap n val else val)
  else
    ptr ← on_ram (qemu_get_ram_ptr (u64 ((memory_region_get_ram_addr mr .& TARGET_PAGE_MASK) + addr1)));
    bs ← host_read ptr n;
    mret (if bool_decide (endian = DEVICE_BIG_ENDIAN) then of_le (reverse bs) else of_le bs).

Definition ldl_phys_internal (addr : Z) (endian : device_endian) : PIO Z := v ← ld_phys_internal 4 addr endian; mret (u32 v).
Definition ldl_phys (addr : Z) : PIO Z := ldl_phys_internal addr DEVICE_NATIVE_ENDIAN.
Definition ldl_le_phys (addr : Z) : PIO Z := ldl_phys_internal addr DEVICE_LITTLE_ENDIAN.
Definition ldl_be_phys (addr : Z) : PIO Z := ldl_phys_internal addr DEVICE_BIG_ENDIAN.

Definition ldq_phys_internal (addr : Z) (endian : device_endian) : PIO Z := v ← ld_phys_internal 8 addr endian; mret (u64 v).
Definition ldq_phys (addr : Z) : PIO Z := ldq_phys_internal addr DEVICE_NATIVE_ENDIAN.
Definition ldq_le_phys (addr : Z) : PIO Z := ldq_phys_internal addr DEVICE_LITTLE_ENDIAN.
Definition ldq_be_phys (addr : Z) : PIO Z := ldq_phys_internal addr DEVICE_BIG_ENDIAN.

Definition lduw_phys_internal (addr : Z) (endian : device_endian) : PIO Z := v ← ld_phys_internal 2 addr endian; mret (u32 v).
Definition lduw_phys (addr : Z) : PIO Z := lduw_phys_internal addr DEVICE_NATIVE_ENDIAN.
Definition lduw_le_phys (addr : Z) : PIO Z := lduw_phys_internal addr DEVICE_LITTLE_ENDIAN.
Definition lduw_be_phys (addr : Z) : PIO Z := lduw_phys_internal addr DEVICE_BIG_ENDIAN.

Definition ldub_phys (addr : Z) : PIO Z := '(_, bs) ← address_space_rw addr [0] false; mret (of_le bs).

Definition st_phys_internal (n : nat) (addr val : Z) (endian : device_endian) : PIO unit :=
  '(mr, addr1, l) ← translate addr (Z.of_nat n);
  s ← get;
  if (l <? Z.of_nat n) || negb (memory_access_is_direct s mr true) then
    let val := if bool_decide (endian = DEVICE_BIG_ENDIAN) then bswap n val else val in
    _ ← io_mem_write unassigned (mr_ops (ops mr)) addr1 val (Z.of_nat n); mret ()
  else
    let addr1 := u64 (addr1 + (memory_region_get_ram_addr mr .& TARGET_PAGE_MASK)) in
    ptr ← on_ram (qemu_get_ram_ptr addr1);
    host_write ptr (if bool_decide (endian = DEVICE_BIG_ENDIAN) then reverse (le_bytes n val) else le_bytes n val) ;;
    invalidate_and_set_dirty addr1 (Z.of_nat n).

Definition stl_phys_internal (addr val : Z) (endian : device_endian) : PIO unit := st_phys_internal 4 addr val endian.
Definition stl_phys (addr val : Z) : PIO unit := stl_phys_internal addr val DEVICE_NATIVE_ENDIAN.
Definition stl_le_phys (addr val : Z) : PIO unit := stl_phys_internal addr val DEVICE_LITTLE_ENDIAN.
Definition stl_be_phys (addr val : Z) : PIO unit := stl_phys_internal addr val DEVICE_BIG_ENDIAN.

Definition stw_phys_internal (addr val : Z) (endian : device_endian) : PIO unit := st_phys_internal 2 addr val endian.
Definition stw_phys (addr val : Z) : PIO unit := stw_phys_internal addr val DEVICE_NATIVE_ENDIAN.
Definition stw_le_phys (addr val : Z) : PIO unit := stw_phys_internal addr val DEVICE_LITTLE_ENDIAN.
Definition stw_be_phys (addr val : Z) : PIO unit := stw_phys_internal addr val DEVICE_BIG_ENDIAN.

Definition stb_phys (addr val : Z) : PIO unit := _ ← address_space_rw addr [u8 val] true; mret ().
Definition stq_phys (addr val : Z) : PIO unit := _ ← address_space_rw addr (le_bytes 8 val) true; mret ().
Definition stq_le_phys (addr val : Z) : PIO unit := _ ← address_space_rw addr (le_bytes 8 val) true; mret ().
Definition stq_be_phys (addr val : Z) : PIO unit := _ ← address_space_rw addr (reverse (le_bytes 8 val)) true; mret ().

Definition stl_phys_notdirty (addr val : Z) : PIO unit :=
  '(mr, addr1, l) ← translate addr 4;
  s ← get;
  if (l <? 4) || negb (memory_access_is_direct s mr true) then
    _ ← io_mem_write unassigned (mr_ops (ops mr)) addr1 val 4; mret ()
  else
    let addr1 := u64 (addr1 + (memory_region_get_ram_addr mr .& TARGET_PAGE_MASK)) in
    ptr ← on_ram (qemu_get_ram_ptr addr1);
    host_write ptr (le_bytes 4 val) ;;
    when (in_migration s)
      (clean ← on_ram (cpu_physical_memory_is_clean addr1);
       when clean
         (emit (TbInvalidate addr1 (u64 (addr1 + 4))) ;;
          on_ram (cpu_physical_memory_set_dirty_range_nocode addr1 4))).

(** ** Lending memory *)

Definition cpu_register_map_client (client : Z) : PIO Z :=
  modify (λ s, s <| map_client_list := client :: map_client_list s |>) ;; mret client.

Fixpoint remove_client (client : Z) (l : list Z) : list Z :=
  match l with [] => [] | c :: l => if c =? client then l else c :: remove_client client l end.

Definition cpu_unregister_map_client (client : Z) : PIO unit :=
  modify (λ s, s <| map_client_list := remove_client client (map_client_list s) |>).

(** Callbacks that register again are left out. *)
Definition cpu_notify_map_clients : PIO unit :=
  s ← get; for_each (map_client_list s) (λ client, emit (MapClientCall client) ;; cpu_unregister_map_client client).

(** The loop that extends the range; the result is [done]. *)
Fixpoint map_loop (fuel : nat) (mr : phys_mr) (base addr len done_ l : Z) (is_write : bool) : PIO Z :=
  let len := u64 (len - l) in
  let addr := u64 (addr + l) in
  let done_ := u64 (done_ + l) in
  if len =? 0 then mret done_
  else
    match fuel with
    | O => halt OutOfFuel
    | S fuel =>
        '(this_mr, xlat, l) ← translate addr len;
        if negb (bool_decide (this_mr = mr)) || negb (xlat =? u64 (base + done_)) then mret done_
        else map_loop fuel mr base addr len done_ l is_write
    end.

(** The pointer, which can be null, and the length; [memalign] is what the host
    allocates. *)
Definition address_space_map (memalign : Z → Z) (addr plen : Z) (is_write : bool) : PIO (Z * Z) :=
  let len := plen in
  if len =? 0 then mret (0, plen)
  else
    '(mr, xlat, l) ← translate addr len;
    s ← get;
    if negb (memory_access_is_direct s mr is_write) then
      if negb (bb_buffer (bounce s) =? 0) then mret (0, plen)
      else
        let l := Z.min l TARGET_PAGE_SIZE in
        let buffer := memalign l in
        modify (λ s, s <| bounce := mkBounce mr buffer addr l |>) ;;
        when (negb is_write) ('(_, bs) ← address_space_read addr (Z.to_nat l); host_write buffer bs) ;;
        mret (buffer, l)
    else
      let base := xlat in
      let raddr := memory_region_get_ram_addr mr in
      plen ← map_loop (Z.to_nat len) mr base addr len 0 l is_write;
      on_ram (qemu_ram_ptr_length (u64 (raddr + base)) plen).

Definition address_space_unmap (buffer len : Z) (is_write : bool) (access_len : Z) : PIO unit :=
  s ← get;
  if negb (buffer =? bb_buffer (bounce s)) then
    found ← on_ram (qemu_ram_addr_from_host buffer);
    match found with
    | None => halt AssertFailed
    | Some (_, addr1) => when is_write (invalidate_and_set_dirty addr1 access_len)
    end
  else
    when is_write
      (bs ← host_read (bb_buffer (bounce s)) (Z.to_nat access_len);
       _ ← address_space_write (bb_addr (bounce s)) bs; mret ()) ;;
    modify (λ s, s <| bounce := bounce s <| bb_buffer := 0 |> |>) ;;
    cpu_notify_map_clients.

(** ** Accesses of the debugger

    [get_phys_page_debug] is [cpu_get_phys_page_debug], with -1 for a page that is not
    mapped; virtual addresses have 32 bits. *)
Fixpoint debug_loop (get_phys_page_debug : Z → Z) (fuel : nat) (addr : Z) (buf : list Z) (is_write : bool) : PIO (Z * list Z) :=
  match buf, fuel with
  | [], _ => mret (0, [])
  | _, O => halt OutOfFuel
  | _, S fuel =>
      let page := addr .& u32 TARGET_PAGE_MASK in
      let phys_addr := get_phys_page_debug page in
      if phys_addr =? 2 ^ 64 - 1 then mret (-1, buf)
      else
        let l := u32 (u32 (page + TARGET_PAGE_SIZE) - addr) in
        let l := if Z.of_nat (length buf) <? l then Z.of_nat (length buf) else l in
        let phys_addr := u64 (phys_addr + (addr .& (TARGET_PAGE_SIZE - 1))) in
        let now := take (Z.to_nat l) buf in
        now ← (if is_write then cpu_physical_memory_write_rom phys_addr now ;; mret now
               else '(_, bs) ← address_space_rw phys_addr now false; mret bs);
        '(ret, rest) ← debug_loop get_phys_page_debug fuel (u32 (addr + l)) (drop (Z.to_nat l) buf) is_write;
        mret (ret, now ++ rest)
  end.

Definition cpu_memory_rw_debug (get_phys_page_debug : Z → Z) (addr : Z) (buf : list Z) (is_write : bool) : PIO (Z * list Z) :=
  debug_loop get_phys_page_debug (length buf) addr buf is_write.

(** ** Accesses to RAM *)

Lemma on_ram_run {A} (m : RM A) s a r' t : m (ms_ram s) = Done a r' t -> on_ram m s = Done a (s <| ms_ram := r' |>) [].
Proof. intros Hm. unfold on_ram. by rewrite Hm. Qed.

(** The address leads to a place in a region, whatever the length. *)
Definition leads (s : Sys) (addr : Z) (mr : phys_mr) (xlat : Z) : Prop :=
  forall plen, 0 <= plen < 2 ^ 64 ->
    address_space_translate (region_size_of s) addr plen (ms_dispatch s) = Done (mr, xlat, plen) (ms_dispatch s) [].

Lemma translate_run s addr mr xlat plen :
  leads s addr mr xlat -> 0 <= plen < 2 ^ 64 -> translate addr plen s = Done (mr, xlat, plen) s [].
Proof.
  intros Hl Hp. unfold translate. rewrite bind_get. unfold on_dispatch. rewrite (Hl plen Hp). by destruct s.
Qed.

(** [n] bytes at [off] in the block [b] of the region [r]. *)
Record ram_at (s : Sys) (addr : Z) (r : nat) (off : Z) (b : RAMBlock) (n : Z) : Prop := {
  ra_ok : ram_ok (ms_ram s);
  ra_leads : leads s addr (RegionMr r) off;
  ra_ram : region_test memory_region_is_ram s (RegionMr r) = true;
  ra_block : b ∈ blocks (ms_ram s);
  ra_addr : ram_addr r = rb_offset b;
  ra_range : 0 <= off /\ 0 < n /\ off + n <= rb_length b;
  ra_host : 0 <= rb_host b /\ rb_host b + rb_length b <= 2 ^ 64
}.

(** What the code cache and the dirty bitmaps are told. *)
Definition noted (r r' : RAMList) (start n : Z) (t : list (phys_event E)) : Prop :=
  dirtied [0; 2] start n r r' /\
  ((exists p, start / 1024 <= p < (start + n + 1023) / 1024 /\ clean_page r p = true) -> t = [TbInvalidate start (u64 (start + n))]) /\
  ((forall p, start / 1024 <= p < (start + n + 1023) / 1024 -> clean_page r p = false) -> t = []).

(** A page that is not clean is dirty for every client. *)
Lemma all_dirty r start n :
  ram_ok r -> (forall p, start / 1024 <= p < (start + n + 1023) / 1024 -> clean_page r p = false) -> dirtied [0; 2] start n r r.
Proof.
  intros Hr Hc. split; [done |]. split; [done |]. intros c p Hcl Hp.
  destruct (decide (start / 1024 <= p < (start + n + 1023) / 1024)) as [Hin |].
  - specialize (Hc p Hin). unfold clean_page in Hc. apply negb_false_iff, andb_prop in Hc as [[H0 H1]%andb_prop H2].
    assert (dirty r c p = true) as ->; [| by rewrite orb_true_r].
    assert (Hd : c = 0 \/ c = 1 \/ c = 2) by lia. by destruct Hd as [-> | [-> | ->]].
  - by rewrite <- andb_assoc, between_false, andb_false_r by done.
Qed.

Lemma invalidate_run s start n :
  ram_ok (ms_ram s) -> in_ram (ms_ram s) start n ->
  exists r' t, invalidate_and_set_dirty start n s = Done () (s <| ms_ram := r' |>) t /\ noted (ms_ram s) r' start n t.
Proof.
  intros Hr Hin. unfold invalidate_and_set_dirty. destruct (includes_clean_run _ start n Hr Hin) as (b & Hrun & Hb).
  rewrite (bind_Done _ _ _ _ _ (on_ram_run _ _ _ _ _ Hrun)).
  replace (s <| ms_ram := ms_ram s |>) with s by (by destruct s). destruct b; cbn [when].
  - destruct (set_dirty_range_nocode_run _ start n Hr Hin) as (r' & Hset & Hd). exists r', [TbInvalidate start (u64 (start + n))].
    split; [eapply (bind_Done_trace _ _ _ _ _ [_] _ _ []); [done | apply (on_ram_run _ _ _ _ _ Hset)] |].
    split; [done |]. split; [done |]. intros Hno. destruct (proj1 Hb eq_refl) as (p & Hp & Hcl). by rewrite Hno in Hcl.
  - exists (ms_ram s), []. split; [by destruct s |].
    assert (Hno : forall p, start / 1024 <= p < (start + n + 1023) / 1024 -> clean_page (ms_ram s) p = false).
    { intros p Hp. destruct (clean_page (ms_ram s) p) eqn:Hcl; [| done]. by assert (false = true) by (apply Hb; by exists p). }
    split; [by apply all_dirty |]. split; [| done]. intros (p & Hp & Hcl). by rewrite Hno in Hcl.
Qed.

(** Where the bytes are: their RAM address and their host address. *)
Lemma ram_at_inside s addr r off b n : ram_at s addr r off b n ->
  inside b (rb_offset b + off) /\ u64 (off + rb_offset b) = rb_offset b + off /\ u64 (rb_offset b + off) = rb_offset b + off /\
  u64 (rb_host b + off) = rb_host b + off /\ in_ram (ms_ram s) (rb_offset b + off) n.
Proof.
  intros [Hok _ _ Hb _ Hr Hh]. pose proof (wf_lookup _ b Hok Hb) as (H1 & H2 & H3 & _). pose proof (last_ram_bound _ b Hok Hb).
  unfold inside, in_ram, RAM_ADDR_MAX in *. rewrite !u64_small by lia. lia.
Qed.

(** The pointer to the bytes. *)
Lemma ram_ptr_run s addr r off b n : ram_at s addr r off b n ->
  on_ram (qemu_get_ram_ptr (rb_offset b + off)) s =
    Done (rb_host b + off) (s <| ms_ram := ms_ram s <| mru_block := Some b |> |>) [].
Proof.
  intros Hra. destruct (ram_at_inside _ _ _ _ _ _ Hra) as (Hi & _ & _ & Hu & _). destruct Hra.
  rewrite (on_ram_run _ _ _ _ _ (get_ram_ptr_run _ b _ ra_ok0 ra_block0 Hi)). by rewrite Z.add_simpl_l, Hu.
Qed.

(** What a write to RAM leaves. *)
Definition stored (s s' : Sys) (b : RAMBlock) (off : Z) (bs : list Z) (t : list (phys_event E)) : Prop :=
  exists r', s' = s <| ms_host := ram_write (ms_host s) (rb_host b + off) bs |> <| ms_ram := r' |> /\
    noted (ms_ram s <| mru_block := Some b |>) r' (rb_offset b + off) (Z.of_nat (length bs)) t.

Lemma ram_store_run s addr r off b bs : ram_at s addr r off b (Z.of_nat (length bs)) ->
  exists s' t, (ptr ← on_ram (qemu_get_ram_ptr (rb_offset b + off));
     host_write ptr bs ;; invalidate_and_set_dirty (rb_offset b + off) (Z.of_nat (length bs))) s = Done () s' t /\
    stored s s' b off bs t.
Proof.
  intros Hra. rewrite (bind_Done _ _ _ _ _ (ram_ptr_run _ _ _ _ _ _ Hra)). unfold host_write. rewrite bind_modify.
  destruct (ram_at_inside _ _ _ _ _ _ Hra) as (_ & _ & _ & _ & Hin). destruct Hra.
  set (s1 := s <| ms_ram := _ |> <| ms_host := _ |>).
  destruct (invalidate_run s1 (rb_offset b + off) (Z.of_nat (length bs))) as (r' & t & Hrun & Hn).
  - by apply ram_ok_mru.
  - exact Hin.
  - exists (s1 <| ms_ram := r' |>), t. split; [done |]. exists r'. split; [by destruct s | done].
Qed.


Lemma direct_write s r : region_test memory_region_is_ram s (RegionMr r) = true -> region_test mr_readonly s (RegionMr r) = false ->
  memory_access_is_direct s (RegionMr r) true = true.
Proof. unfold memory_access_is_direct. by intros -> ->. Qed.

Lemma direct_read s r : region_test memory_region_is_ram s (RegionMr r) = true -> memory_access_is_direct s (RegionMr r) false = true.
Proof. unfold memory_access_is_direct. by intros ->. Qed.

Lemma take_all {A} (l : list A) : take (Z.to_nat (Z.of_nat (length l))) l = l.
Proof. rewrite Nat2Z.id. apply firstn_all. Qed.

Lemma drop_all_Z {A} (l : list A) : drop (Z.to_nat (Z.of_nat (length l))) l = [].
Proof. rewrite Nat2Z.id. apply drop_all. Qed.

(** One piece that is the whole access. *)
Lemma one_piece addr buf is_write s n e now s' t :
  buf <> [] -> Z.to_nat n = length buf -> rw_piece addr buf is_write s = Done (n, e, now) s' t ->
  address_space_rw addr buf is_write s = Done (e, now) s' t.
Proof.
  intros Hne Hn Hp. unfold address_space_rw. destruct buf as [|x buf]; [done |]. cbn [length rw_loop].
  unfold mbind, M_bind. rewrite Hp, Hn, drop_all. cbn. destruct (length buf); cbn; by rewrite orb_false_r, !app_nil_r.
Qed.

Lemma rw_write_ram s addr r off b buf :
  ram_at s addr r off b (Z.of_nat (length buf)) -> region_test mr_readonly s (RegionMr r) = false -> Z.of_nat (length buf) < 2 ^ 31 ->
  exists s' t, address_space_rw addr buf true s = Done (false, buf) s' t /\ stored s s' b off buf t.
Proof.
  intros Hra Hro Hlen. destruct (ram_store_run _ _ _ _ _ _ Hra) as (s' & t & Hrun & Hst). exists s', t. split; [| done].
  destruct (ram_at_inside _ _ _ _ _ _ Hra) as (_ & Hu & _). destruct Hra as [? Hl Hram ? Haddr ? ?].
  apply (one_piece _ _ _ _ (Z.of_nat (length buf))); [intros ->; cbn in *; lia | apply Nat2Z.id |].
  unfold rw_piece. rewrite (bind_Done _ _ _ _ _ (translate_run s addr (RegionMr r) off (Z.of_nat (length buf)) Hl ltac:(lia))), bind_get.
  rewrite direct_write by done. cbn [negb memory_region_get_ram_addr]. rewrite Haddr, Hu, take_all.
  revert Hrun. unfold mbind, M_bind. destruct (on_ram _ s) as [p s1 t1 |]; [| done].
  destruct (host_write p buf s1) as [[] s2 t2 |]; [| done]. destruct (invalidate_and_set_dirty _ _ s2) as [[] s3 t3 |]; [| done].
  intros [= <- <-]. cbn. by rewrite app_nil_r.
Qed.

Definition read_state (s : Sys) (b : RAMBlock) : Sys := s <| ms_ram := ms_ram s <| mru_block := Some b |> |>.

Lemma rw_read_ram s addr r off b buf :
  ram_at s addr r off b (Z.of_nat (length buf)) -> Z.of_nat (length buf) < 2 ^ 31 ->
  address_space_rw addr buf false s = Done (false, bytes_at (ms_host s) (rb_host b + off) (length buf)) (read_state s b) [].
Proof.
  intros Hra Hlen. pose proof (ram_ptr_run _ _ _ _ _ _ Hra) as Hp.
  destruct (ram_at_inside _ _ _ _ _ _ Hra) as (_ & _ & Hu & _). destruct Hra as [? Hl Hram ? Haddr ? ?].
  apply (one_piece _ _ _ _ (Z.of_nat (length buf))); [intros ->; cbn in *; lia | apply Nat2Z.id |].
  unfold rw_piece. rewrite (bind_Done _ _ _ _ _ (translate_run s addr (RegionMr r) off (Z.of_nat (length buf)) Hl ltac:(lia))), bind_get.
  rewrite direct_read by done. cbn [negb memory_region_get_ram_addr]. rewrite Haddr, Hu, (bind_Done _ _ _ _ _ Hp).
  unfold host_read. rewrite bind_gets, Nat2Z.id. done.
Qed.

(** Writing to RAM does not move it. *)
Lemma stored_ram_at s s' addr r off b bs t addr' r' off' b' n :
  stored s s' b off bs t -> ram_at s addr r off b (Z.of_nat (length bs)) ->
  ram_at s' addr' r' off' b' n <-> ram_at s addr' r' off' b' n.
Proof.
  intros (rl & -> & ((Hbl & _) & Hok & _) & _) Hra. cbn in Hbl. pose proof (ra_ok _ _ _ _ _ _ Hra) as Hok0.
  split; intros [? ? ? Hb ? ? ?]; constructor; try done; cbn in *.
  - by rewrite Hbl in Hb.
  - by rewrite Hbl.
Qed.

Lemma stored_host s s' b off bs t : stored s s' b off bs t -> ms_host s' = ram_write (ms_host s) (rb_host b + off) bs.
Proof. by intros (rl & -> & _). Qed.

Lemma stored_bytes s s' b off bs t : stored s s' b off bs t -> bytes_at (ms_host s') (rb_host b + off) (length bs) = bs.
Proof.
  intros Hs. rewrite (stored_host _ _ _ _ _ _ Hs). apply list_eq. intros i.
  destruct (decide (i < length bs)%nat) as [Hi | Hi].
  - rewrite bytes_at_lookup by done. unfold ram_byte. rewrite ram_write_lookup, (proj2 (Z.leb_le _ _)), (proj2 (Z.ltb_lt _ _)) by lia. cbn [andb].
    replace (Z.to_nat (rb_host b + off + Z.of_nat i - (rb_host b + off))) with i by lia.
    by destruct (lookup_lt_is_Some_2 bs i Hi) as [x ->].
  - by rewrite !lookup_ge_None_2 by (rewrite ?bytes_at_length; lia).
Qed.

(** Other bytes stay. *)
Lemma stored_other s s' b off bs t p : stored s s' b off bs t -> ~ (rb_host b + off <= p < rb_host b + off + Z.of_nat (length bs)) ->
  ms_host s' !! p = ms_host s !! p.
Proof.
  intros Hs Hp. by rewrite (stored_host _ _ _ _ _ _ Hs), ram_write_lookup, between_false.
Qed.


(** *** Words *)

Lemma page_masked s addr r off b n : ram_at s addr r off b n -> ram_addr r .& TARGET_PAGE_MASK = rb_offset b.
Proof.
  intros Hra. pose proof (wf_lookup _ b (ra_ok _ _ _ _ _ _ Hra) (ra_block _ _ _ _ _ _ Hra)) as (H1 & H2 & H3 & H4 & _).
  rewrite (ra_addr _ _ _ _ _ _ Hra). unfold RAM_ADDR_MAX in H3. rewrite page_base by lia.
  pose proof (Z.div_mod (rb_offset b) 1024). lia.
Qed.

Definition word_order (endian : device_endian) (bs : list Z) : list Z :=
  if bool_decide (endian = DEVICE_BIG_ENDIAN) then reverse bs else bs.

Lemma ld_ram s addr r off b n endian :
  ram_at s addr r off b (Z.of_nat n) -> Z.of_nat n < 2 ^ 31 ->
  ld_phys_internal n addr endian s = Done (of_le (word_order endian (bytes_at (ms_host s) (rb_host b + off) n))) (read_state s b) [].
Proof.
  intros Hra Hn. pose proof (ram_ptr_run _ _ _ _ _ _ Hra) as Hp. pose proof (page_masked _ _ _ _ _ _ Hra) as Hpm.
  destruct (ram_at_inside _ _ _ _ _ _ Hra) as (_ & _ & Hu & _). destruct Hra as [? Hl Hram ? Haddr ? ?].
  unfold ld_phys_internal. rewrite (bind_Done _ _ _ _ _ (translate_run s addr (RegionMr r) off (Z.of_nat n) Hl ltac:(lia))), bind_get.
  rewrite Z.ltb_irrefl, direct_read by done. cbn [negb orb memory_region_get_ram_addr]. rewrite Hpm, Hu, (bind_Done _ _ _ _ _ Hp).
  unfold host_read, word_order. rewrite bind_gets. by destruct (bool_decide _).
Qed.

Lemma st_ram s addr r off b n val endian :
  ram_at s addr r off b (Z.of_nat n) -> region_test mr_readonly s (RegionMr r) = false -> Z.of_nat n < 2 ^ 31 ->
  exists s' t, st_phys_internal n addr val endian s = Done () s' t /\ stored s s' b off (word_order endian (le_bytes n val)) t.
Proof.
  intros Hra Hro Hn. pose proof (page_masked _ _ _ _ _ _ Hra) as Hpm.
  assert (Hlen : length (word_order endian (le_bytes n val)) = n).
  { unfold word_order. case_bool_decide; by rewrite ?length_reverse, le_bytes_length. }
  destruct (ram_store_run s addr r off b (word_order endian (le_bytes n val))) as (s' & t & Hrun & Hst); [by rewrite Hlen |].
  exists s', t. split; [| done]. rewrite Hlen in Hrun.
  destruct (ram_at_inside _ _ _ _ _ _ Hra) as (_ & Hu & _). destruct Hra as [? Hl Hram ? Haddr ? ?].
  unfold st_phys_internal. rewrite (bind_Done _ _ _ _ _ (translate_run s addr (RegionMr r) off (Z.of_nat n) Hl ltac:(lia))), bind_get.
  rewrite Z.ltb_irrefl, direct_write by done. cbn [negb orb memory_region_get_ram_addr]. rewrite Hpm, Hu. exact Hrun.
Qed.

(** Two places in RAM that share no byte. *)
Definition elsewhere (b1 : RAMBlock) (off1 n1 : Z) (b2 : RAMBlock) (off2 n2 : Z) : Prop :=
  b1 <> b2 \/ off1 + n1 <= off2 \/ off2 + n2 <= off1.

Lemma stored_elsewhere s s' addr r off b bs t addr' r' off' b' n :
  host_ok (blocks (ms_ram s)) -> stored s s' b off bs t -> ram_at s addr r off b (Z.of_nat (length bs)) ->
  ram_at s addr' r' off' b' (Z.of_nat n) -> elsewhere b off (Z.of_nat (length bs)) b' off' (Z.of_nat n) ->
  bytes_at (ms_host s') (rb_host b' + off') n = bytes_at (ms_host s) (rb_host b' + off') n.
Proof.
  intros [_ Hh] Hst Hra Hra' Hel. apply list_fmap_ext. intros i j [-> Hj]%lookup_seq. unfold ram_byte. f_equal.
  apply (stored_other _ _ _ _ _ _ _ Hst). pose proof (Hh b b' (ra_block _ _ _ _ _ _ Hra) (ra_block _ _ _ _ _ _ Hra')) as Hd.
  pose proof (ra_range _ _ _ _ _ _ Hra). pose proof (ra_range _ _ _ _ _ _ Hra').
  unfold elsewhere, disjoint_range in *. destruct Hd as [-> | Hd]; [destruct Hel as [? |]; [done | lia] | lia].
Qed.

(** C8 (physical_memory).  RAM is an array of bytes, behind the dispatcher, the list of
    blocks and the dirty bitmaps.  A write of any length to RAM that is not write
    protected succeeds; a later read of the same range, by bytes or as a word of either
    byte order, gives what was written, and a read of a range that shares no byte with
    it gives what it gave before.  Once the range is written its pages are dirty for the
    display and for migration, and the code cache has been told of the range if a page
    of it was clean for some client, as a page with translated code is. *)
Theorem physical_memory s addr r off b buf :
  ram_at s addr r off b (Z.of_nat (length buf)) -> region_test mr_readonly s (RegionMr r) = false ->
  Z.of_nat (length buf) < 2 ^ 31 -> host_ok (blocks (ms_ram s)) ->
  exists s' t, address_space_write addr buf s = Done false s' t /\
    noted (ms_ram s <| mru_block := Some b |>) (ms_ram s') (rb_offset b + off) (Z.of_nat (length buf)) t /\
    address_space_read addr (length buf) s' = Done (false, buf) (read_state s' b) [] /\
    (forall endian, ld_phys_internal (length buf) addr endian s' = Done (of_le (word_order endian buf)) (read_state s' b) []) /\
    forall addr' r' off' b' n, ram_at s addr' r' off' b' (Z.of_nat n) -> Z.of_nat n < 2 ^ 31 ->
      elsewhere b off (Z.of_nat (length buf)) b' off' (Z.of_nat n) ->
      exists bs, address_space_read addr' n s = Done (false, bs) (read_state s b') [] /\
        address_space_read addr' n s' = Done (false, bs) (read_state s' b') [].
Proof.
  intros Hra Hro Hlen Hh. destruct (rw_write_ram _ _ _ _ _ _ Hra Hro Hlen) as (s' & t & Hrun & Hst). exists s', t.
  assert (Hkeep : forall addr' r' off' b' n, ram_at s addr' r' off' b' n -> ram_at s' addr' r' off' b' n).
  { intros addr' r' off' b' n. by apply (stored_ram_at s s' addr r off b buf t). }
  pose proof (Hkeep _ _ _ _ _ Hra) as Hra'.
  unfold address_space_write, address_space_read.
  split; [by rewrite <- (app_nil_r t); apply (bind_Done_trace _ _ _ _ _ _ _ _ _ Hrun) |].
  split; [by destruct Hst as (rl & -> & Hn) |]. split; [| split].
  - rewrite rw_read_ram with (r := r) (off := off) (b := b) by (by rewrite length_replicate).
    by rewrite length_replicate, (stored_bytes _ _ _ _ _ _ Hst).
  - intros endian. rewrite (ld_ram _ _ _ _ _ _ _ Hra' Hlen). by rewrite (stored_bytes _ _ _ _ _ _ Hst).
  - intros addr' r' off' b' n Hn Hln Hel. pose proof (Hkeep _ _ _ _ _ Hn) as Hn'.
    exists (bytes_at (ms_host s) (rb_host b' + off') n). split.
    + rewrite rw_read_ram with (r := r') (off := off') (b := b') by (by rewrite length_replicate). by rewrite length_replicate.
    + rewrite rw_read_ram with (r := r') (off := off') (b := b') by (by rewrite length_replicate).
      by rewrite length_replicate, (stored_elsewhere _ _ _ _ _ _ _ _ _ _ _ _ _ Hh Hst Hra Hn Hel).
Qed.


(** ** Accesses to devices *)

(** The largest power of two that divides a number. *)
Lemma lowest_bit a : 0 < a -> exists k, 0 <= k /\ a .& - a = 2 ^ k /\ (2 ^ k | a).
Proof.
  intros Ha. assert (H0 : 0 <= a) by lia. revert Ha. pattern a. apply Zlt_0_ind; [clear a H0 | done]. intros a IH _ Ha.
  destruct (Z.Even_or_Odd a) as [[q ->] | [q ->]].
  - destruct (IH q ltac:(lia) ltac:(lia)) as (k & Hk & Hl & Hd). exists (k + 1). split; [lia |]. rewrite Z.pow_add_r, Z.mul_comm by lia. change (2 ^ 1) with 2.
    split; [| by apply Z.mul_divide_mono_r].
    rewrite <- Hl, <- Z.mul_opp_l. change 2 with (2 ^ 1). rewrite <- !Z.shiftl_mul_pow2 by lia. by rewrite Z.shiftl_land.
  - exists 0. split; [done |]. split; [| apply Z.divide_1_l]. replace (- (2 * q + 1)) with (Z.lnot (2 * q)) by (unfold Z.lnot; lia).
    apply Z.bits_inj'. intros i Hi. rewrite Z.land_spec, Z.lnot_spec by lia. change (2 ^ 0) with (BIT 0). rewrite testbit_BIT by lia.
    destruct (Z.eqb_spec 0 i) as [<- |].
    + by rewrite Z.testbit_odd_0, Z.testbit_even_0.
    + replace i with (Z.succ (i - 1)) by lia. rewrite Z.testbit_odd_succ, Z.testbit_even_succ by lia. apply andb_negb_r.
Qed.

Lemma lowest_bit_64 a : 0 < a < 2 ^ 64 -> exists k, 0 <= k /\ a .& u64 (- a) = 2 ^ k /\ (2 ^ k | a).
Proof.
  intros Ha. destruct (lowest_bit a ltac:(lia)) as (k & Hk & Hl & Hd). exists k. split; [done |]. split; [| done]. rewrite <- Hl.
  apply Z.bits_inj'. intros i Hi. unfold u64. rewrite !Z.land_spec, testbit_mod_pow2 by lia. destruct (Z.ltb_spec i 64); [done |].
  by rewrite (testbit_high 64 a) by lia.
Qed.

Definition effective_max (o : region_ops (phys_event E) Sys) : Z :=
  if valid_max_access_size (mr_ops o) =? 0 then 4 else valid_max_access_size (mr_ops o).

Definition access_sizes : list Z := [1; 2; 4; 8].

Lemma size_divides p k : p ∈ access_sizes -> 0 <= k -> p <= 2 ^ k -> (p | 2 ^ k).
Proof.
  intros Hp Hk Hle. assert (Hp2 : exists j, 0 <= j /\ p = 2 ^ j).
  { unfold access_sizes in Hp. rewrite !elem_of_cons, elem_of_nil in Hp.
    destruct Hp as [-> | [-> | [-> | [-> | []]]]]; [exists 0 | exists 1 | exists 2 | exists 3]; done. }
  destruct Hp2 as (j & Hj & ->). apply Z.pow_le_mono_r_iff in Hle; [| lia | lia]. exists (2 ^ (k - j)).
  rewrite <- Z.pow_add_r by lia. f_equal. lia.
Qed.

(** A size is one that the switch has. *)
Lemma access_size_cases l : 1 <= l <= 8 -> let p := if cbool (l .& (l - 1)) then 1 << (qemu_fls l - 1) else l in p ∈ access_sizes /\ p <= l.
Proof.
  intros Hl. assert (Hc : l = 1 \/ l = 2 \/ l = 3 \/ l = 4 \/ l = 5 \/ l = 6 \/ l = 7 \/ l = 8) by lia.
  unfold access_sizes. destruct Hc as [-> | [-> | [-> | [-> | [-> | [-> | [-> | ->]]]]]]]; vm_compute; split; (set_solver || discriminate).
Qed.

(** The pieces are ones that the region accepts: of a size that the switch has, no
    longer than the rest of the access and the limit of the region, and aligned unless
    the device takes unaligned accesses. *)
Record piece_ok (o : region_ops (phys_event E) Sys) (rest off p : Z) : Prop := {
  pc_size : p ∈ access_sizes;
  pc_rest : p <= rest;
  pc_max : p <= effective_max o;
  pc_aligned : impl_unaligned o = false -> (p | off)
}.

Lemma access_size_ok o l off :
  0 < l -> 0 <= off < 2 ^ 64 -> 1 <= effective_max o <= 8 -> piece_ok o l off (memory_access_size o l off).
Proof.
  intros Hl Ho Hm. unfold memory_access_size. fold (effective_max o). cbv zeta.
  set (x := if negb (impl_unaligned o) then _ else effective_max o).
  assert (Hx : 1 <= x <= effective_max o /\ (impl_unaligned o = false -> off = 0 \/ exists k, 0 <= k /\ x <= 2 ^ k /\ (2 ^ k | off))).
  { unfold x. destruct (impl_unaligned o); cbn [negb]; [split; [lia | done] |].
    destruct (decide (off = 0)) as [-> | Hne].
    { change (u32 (0 .& u64 (- 0))) with 0. cbn [Z.eqb negb andb]. split; [lia | by left]. }
    destruct (lowest_bit_64 off ltac:(lia)) as (k & Hk & Hlow & Hd). rewrite Hlow. unfold u32.
    assert (Hp : 2 ^ k mod 2 ^ 32 = 2 ^ k /\ 0 < 2 ^ k \/ 2 ^ k mod 2 ^ 32 = 0 /\ 8 <= 2 ^ k).
    { destruct (decide (k < 32)).
      - left. split; [| lia]. apply Z.mod_small. split; [lia |]. by apply Z.pow_lt_mono_r.
      - right. replace k with ((k - 32) + 32) by lia. rewrite Z.pow_add_r by lia. split; [apply Z_mod_mult |].
        pose proof (Z.pow_pos_nonneg 2 (k - 32) ltac:(lia) ltac:(lia)). lia. }
    destruct Hp as [[-> Hpos] | [-> Hbig]]; cbn [Z.eqb negb andb].
    - rewrite (proj2 (Z.eqb_neq _ 0)) by lia. cbn [negb andb]. destruct (Z.ltb_spec (2 ^ k) (effective_max o)); (split; [lia |]); intros _; right; exists k; split; try done; split; (lia || done).
    - split; [lia |]. intros _. right. exists k. split; [done |]. split; [lia | done]. }
  clearbody x. destruct Hx as [Hx Hal]. set (l' := if x <? l then x else l).
  assert (Hl' : 1 <= l' <= 8 /\ l' <= l /\ l' <= x) by (unfold l'; destruct (Z.ltb_spec x l); lia). clearbody l'.
  destruct (access_size_cases l' ltac:(lia)) as [Hs Hle]. set (p := if cbool _ then _ else l') in *. clearbody p.
  constructor; [done | lia | lia |]. intros Hu. destruct (Hal Hu) as [-> | (k & Hk & Hxk & Hd)]; [apply Z.divide_0_r |].
  apply (Z.divide_trans _ (2 ^ k)); [| done]. apply size_divides; [done | done | lia].
Qed.

(** The pieces of an access of [len] bytes at [off] in a region. *)
Fixpoint pieces (o : region_ops (phys_event E) Sys) (fuel : nat) (off len : Z) : list (Z * Z) :=
  match fuel with
  | O => []
  | S fuel =>
      if 0 <? len then let l := memory_access_size o len off in (off, l) :: pieces o fuel (off + l) (len - l) else []
  end.

(** The pieces follow each other from the start to the end of the range. *)
Fixpoint tiles (o : region_ops (phys_event E) Sys) (off len : Z) (ps : list (Z * Z)) : Prop :=
  match ps with
  | [] => len = 0
  | (a, l) :: ps => a = off /\ piece_ok o len off l /\ tiles o (off + l) (len - l) ps
  end.

Lemma size_range p : p ∈ access_sizes -> 1 <= p <= 8.
Proof. unfold access_sizes. rewrite !elem_of_cons, elem_of_nil. lia. Qed.

Lemma pieces_tile o fuel : forall off len,
  1 <= effective_max o <= 8 -> 0 <= off -> 0 <= len -> off + len <= 2 ^ 64 -> len <= Z.of_nat fuel -> tiles o off len (pieces o fuel off len).
Proof.
  induction fuel as [|fuel IH]; intros off len Hm Ho Hl He Hf; cbn [pieces tiles]; [lia |].
  destruct (Z.ltb_spec 0 len); cbn [tiles]; [| lia]. pose proof (access_size_ok o len off ltac:(lia) ltac:(lia) Hm) as Hp.
  pose proof (size_range _ (pc_size _ _ _ _ Hp)). pose proof (pc_rest _ _ _ _ Hp).
  split; [done |]. split; [done |]. apply IH; lia || done.
Qed.

(** The accesses one after the other. *)
Fixpoint write_pieces (mr : phys_mr) (ps : list (Z * Z)) (buf : list Z) : PIO bool :=
  match ps with
  | [] => mret false
  | (a, l) :: ps =>
      e ← io_mem_write unassigned (mr_ops (ops mr)) a (of_le (take (Z.to_nat l) buf)) l;
      error ← write_pieces mr ps (drop (Z.to_nat l) buf);
      mret (e || error)
  end.

Fixpoint read_pieces (mr : phys_mr) (ps : list (Z * Z)) : PIO (bool * list Z) :=
  match ps with
  | [] => mret (false, [])
  | (a, l) :: ps =>
      '(e, v) ← io_mem_read unassigned (mr_ops (ops mr)) a l;
      '(error, bs) ← read_pieces mr ps;
      mret (e || error, le_bytes (Z.to_nat l) v ++ bs)
  end.

(** A handler that leaves the map of the memory alone. *)
Definition keeps_map {A} (m : PIO A) : Prop :=
  forall s a s' t, m s = Done a s' t -> ms_dispatch s' = ms_dispatch s /\ ms_regions s' = ms_regions s.

Lemma leads_kept s s' addr mr xlat : ms_dispatch s' = ms_dispatch s -> ms_regions s' = ms_regions s -> leads s addr mr xlat -> leads s' addr mr xlat.
Proof. unfold leads, region_size_of. by intros -> ->. Qed.

Lemma direct_kept s s' mr is_write : ms_regions s' = ms_regions s -> memory_access_is_direct s' mr is_write = memory_access_is_direct s mr is_write.
Proof. unfold memory_access_is_direct, region_test. by intros ->. Qed.


(** A range of a region that is not RAM. *)
Record device_at (s : Sys) (addr : Z) (mr : phys_mr) (off len : Z) (is_write : bool) : Prop := {
  da_leads : forall i, 0 <= i < len -> leads s (addr + i) mr (off + i);
  da_direct : memory_access_is_direct s mr is_write = false;
  da_range : 0 <= off /\ off + len <= 2 ^ 64 /\ 0 <= addr /\ addr + len <= 2 ^ 64 /\ len < 2 ^ 31
}.

Lemma device_rest s s' addr mr off len l is_write :
  device_at s addr mr off len is_write -> ms_dispatch s' = ms_dispatch s -> ms_regions s' = ms_regions s -> 0 <= l <= len ->
  device_at s' (addr + l) mr (off + l) (len - l) is_write.
Proof.
  intros [Hl Hd Hr] H1 H2 Hle. constructor; [| by rewrite (direct_kept s s') | lia].
  intros i Hi. apply (leads_kept s); [done | done |]. rewrite <- !Z.add_assoc. apply Hl. lia.
Qed.

Lemma io_size_ok p : p ∈ access_sizes -> io_size p = true.
Proof. unfold access_sizes. rewrite !elem_of_cons, elem_of_nil. by intros [-> | [-> | [-> | [-> | []]]]]. Qed.

(** The first piece. *)
Lemma device_piece s addr mr off buf is_write :
  device_at s addr mr off (Z.of_nat (length buf)) is_write -> buf <> [] -> 1 <= effective_max (ops mr) <= 8 ->
  let l := memory_access_size (ops mr) (Z.of_nat (length buf)) off in
  piece_ok (ops mr) (Z.of_nat (length buf)) off l /\
  rw_piece addr buf is_write s =
    (if is_write then
       e ← io_mem_write unassigned (mr_ops (ops mr)) off (of_le (take (Z.to_nat l) buf)) l; mret (l, e, take (Z.to_nat l) buf)
     else '(e, val) ← io_mem_read unassigned (mr_ops (ops mr)) off l; mret (l, e, le_bytes (Z.to_nat l) val)) s.
Proof.
  intros [Hl Hd Hr] Hne Hm l. assert (Hpos : 0 < Z.of_nat (length buf)) by (destruct buf; [done | cbn; lia]).
  pose proof (access_size_ok (ops mr) (Z.of_nat (length buf)) off Hpos ltac:(lia) Hm) as Hp. split; [exact Hp |].
  unfold rw_piece. pose proof (Hl 0 ltac:(lia)) as Hl0. rewrite !Z.add_0_r in Hl0.
  rewrite (bind_Done _ _ _ _ _ (translate_run s addr mr off (Z.of_nat (length buf)) Hl0 ltac:(lia))), bind_get, Hd.
  cbn [negb]. rewrite u32_small by lia. fold l. unfold io_write_piece, io_read_piece. rewrite (io_size_ok l (pc_size _ _ _ _ Hp)).
  destruct is_write; [done |]. unfold mbind, M_bind. destruct (io_mem_read _ _ _ _ s) as [[e v] s1 t1 |]; [| done]. cbn. by rewrite !app_nil_r.
Qed.

Definition keeps_accesses (mr : phys_mr) : Prop :=
  (forall a v l, l ∈ access_sizes -> keeps_map (io_mem_write unassigned (mr_ops (ops mr)) a v l)) /\
  (forall a l, l ∈ access_sizes -> keeps_map (io_mem_read unassigned (mr_ops (ops mr)) a l)).

Lemma rw_device_loop mr fuel : forall s addr off buf is_write,
  keeps_accesses mr -> 1 <= effective_max (ops mr) <= 8 ->
  device_at s addr mr off (Z.of_nat (length buf)) is_write -> (length buf <= fuel)%nat ->
  rw_loop fuel addr buf is_write s =
    (let ps := pieces (ops mr) fuel off (Z.of_nat (length buf)) in
     if is_write then e ← write_pieces mr ps buf; mret (e, buf) else read_pieces mr ps) s.
Proof.
  induction fuel as [|fuel IH]; intros s addr off buf is_write Hk Hm Hd Hf.
  { destruct buf; [| cbn in Hf; lia]. by destruct is_write. }
  destruct buf as [|x buf0] eqn:Hbuf; [by destruct is_write |]. rewrite <- Hbuf in *.
  assert (Hne : buf <> []) by (by rewrite Hbuf).
  destruct (device_piece s addr mr off buf is_write Hd Hne Hm) as [Hp Hrun]. set (l := memory_access_size _ _ _) in *.
  pose proof (size_range _ (pc_size _ _ _ _ Hp)) as Hl. pose proof (pc_rest _ _ _ _ Hp) as Hle.
  assert (Hloop : rw_loop (S fuel) addr buf is_write =
    ('(l, e, now) ← rw_piece addr buf is_write;
     '(error, rest) ← rw_loop fuel (u64 (addr + l)) (drop (Z.to_nat l) buf) is_write; mret (e || error, now ++ rest)))
    by (by rewrite Hbuf).
  rewrite Hloop. cbn [pieces]. rewrite (proj2 (Z.ltb_lt 0 _)) by lia. fold l. cbv zeta.
  assert (Hlen : Z.of_nat (length (drop (Z.to_nat l) buf)) = Z.of_nat (length buf) - l) by (rewrite length_drop; lia).
  assert (Hu : forall s', ms_dispatch s' = ms_dispatch s -> ms_regions s' = ms_regions s ->
    rw_loop fuel (u64 (addr + l)) (drop (Z.to_nat l) buf) is_write s' =
    (let ps := pieces (ops mr) fuel (off + l) (Z.of_nat (length buf) - l) in
     if is_write then e ← write_pieces mr ps (drop (Z.to_nat l) buf); mret (e, drop (Z.to_nat l) buf) else read_pieces mr ps) s').
  { intros s' H1 H2. rewrite <- Hlen. destruct (decide (drop (Z.to_nat l) buf = [])) as [-> | Hnd].
    - destruct fuel; by destruct is_write.
    - assert (Z.of_nat (length (drop (Z.to_nat l) buf)) <> 0) by (by destruct (drop (Z.to_nat l) buf)).
      rewrite u64_small by (destruct Hd; lia). apply IH; [done | done | | rewrite length_drop; lia].
      rewrite Hlen. apply (device_rest s s' _ _ _ _ l _ Hd); [done | done | lia]. }
  clear Hloop IH. destruct is_write; cbn [write_pieces read_pieces]; revert Hrun; unfold mbind, M_bind; intros ->.
  - destruct (io_mem_write _ _ _ _ _ s) as [e s1 t1 |] eqn:He; [| done]. destruct (proj1 Hk _ _ _ (pc_size _ _ _ _ Hp) _ _ _ _ He) as [H1 H2].
    unfold mret, M_ret. cbv beta iota. rewrite Hu by done. cbn. unfold mbind, M_bind. destruct (write_pieces mr _ _ s1) as [e2 s2 t2 |]; [| done]. cbn.
    by rewrite take_drop, !app_nil_r.
  - destruct (io_mem_read _ _ _ _ s) as [[e v] s1 t1 |] eqn:He; [| done]. destruct (proj2 Hk _ _ (pc_size _ _ _ _ Hp) _ _ _ _ He) as [H1 H2].
    unfold mret, M_ret. cbv beta iota. rewrite Hu by done. cbn. destruct (read_pieces mr _ s1) as [[e2 bs] s2 t2 |]; [| done]. cbn. by rewrite !app_nil_r.
Qed.

(** C24 (device_accesses).  An access of any length to a device is the sequence of the
    accesses that the device accepts, in the order of the addresses, and its error is
    that of any of them: the loop ends, never takes a size that the emulator aborts on,
    and its pieces, each of 1, 2, 4 or 8 bytes and at most what the device and the
    range allow, aligned unless the device takes unaligned accesses, tile the range. *)
Theorem device_accesses mr s addr off buf is_write :
  keeps_accesses mr -> 1 <= effective_max (ops mr) <= 8 -> device_at s addr mr off (Z.of_nat (length buf)) is_write ->
  exists ps, tiles (ops mr) off (Z.of_nat (length buf)) ps /\
    address_space_rw addr buf is_write s =
      (if is_write then e ← write_pieces mr ps buf; mret (e, buf) else read_pieces mr ps) s.
Proof.
  intros Hk Hm Hd. exists (pieces (ops mr) (length buf) off (Z.of_nat (length buf))). split.
  - destruct Hd as [_ _ Hr]. apply pieces_tile; lia || done.
  - unfold address_space_rw. by apply rw_device_loop.
Qed.


(** ** Lent memory *)

Lemma ptr_length_run s addr r off b n : ram_at s addr r off b n ->
  on_ram (qemu_ram_ptr_length (rb_offset b + off) n) s = Done (rb_host b + off, n) s [].
Proof.
  intros Hra. destruct (ram_at_inside _ _ _ _ _ _ Hra) as (Hi & _ & _ & Hu & _). destruct Hra as [Hok _ _ Hb _ Hr Hh].
  pose proof (wf_lookup _ b Hok Hb) as Hw. pose proof (inside_range b _ Hw Hi) as H64. destruct Hw as (H1 & H2 & H3 & _). unfold RAM_ADDR_MAX in H3.
  assert (Hf : List.find (in_block (rb_offset b + off)) (blocks (ms_ram s)) = Some b).
  { apply find_unique; [done | |].
    - by apply in_block_spec; [apply (wf_lookup (ms_ram s)) | |].
    - intros b' Hb' Hin. apply (inside_unique (ms_ram s) _ _ (rb_offset b + off)); [done | done | done | | done].
      apply in_block_spec; [by apply (wf_lookup (ms_ram s)) | done | done]. }
  rewrite (on_ram_run _ _ (rb_host b + off, n) (ms_ram s) []); [by destruct s |].
  unfold qemu_ram_ptr_length. rewrite (proj2 (Z.eqb_neq n 0)), bind_get, Hf by lia. rewrite Z.add_simpl_l, (u64_small off) by lia.
  rewrite (u64_small (off + n)) by lia. by rewrite (proj2 (Z.ltb_ge (rb_length b) _)), Hu by lia.
Qed.

Lemma map_ram s addr r off b n is_write memalign :
  ram_at s addr r off b n -> (is_write = true -> region_test mr_readonly s (RegionMr r) = false) -> n < 2 ^ 63 ->
  address_space_map memalign addr n is_write s = Done (rb_host b + off, n) s [].
Proof.
  intros Hra Hro Hn. pose proof (ptr_length_run _ _ _ _ _ _ Hra) as Hp. destruct (ram_at_inside _ _ _ _ _ _ Hra) as (_ & _ & Hu & _).
  destruct Hra as [? Hl Hram ? Haddr Hr ?]. unfold address_space_map. rewrite (proj2 (Z.eqb_neq n 0)) by lia.
  rewrite (bind_Done _ _ _ _ _ (translate_run s addr (RegionMr r) off n Hl ltac:(lia))), bind_get.
  assert (Hd : memory_access_is_direct s (RegionMr r) is_write = true).
  { destruct is_write; [by apply direct_write; [| apply Hro] | by apply direct_read]. }
  rewrite Hd. cbn [negb memory_region_get_ram_addr]. rewrite Haddr, Hu.
  assert (Hloop : map_loop (Z.to_nat n) (RegionMr r) off addr n 0 n is_write s = Done n s []).
  { destruct (Z.to_nat n); cbn [map_loop]; rewrite Z.sub_diag, Z.add_0_l, (u64_small n) by lia; done. }
  rewrite (bind_Done _ _ _ _ _ Hloop). exact Hp.
Qed.

Lemma unmap_ram s addr r off b n len is_write :
  ram_at s addr r off b n -> host_ok (blocks (ms_ram s)) -> rb_host b + off <> bb_buffer (bounce s) ->
  address_space_unmap (rb_host b + off) len is_write n s = when is_write (invalidate_and_set_dirty (rb_offset b + off) n) s.
Proof.
  intros Hra Hh Hne. destruct (ram_at_inside _ _ _ _ _ _ Hra) as (Hi & _). destruct Hra as [Hok _ _ Hb _ Hr _].
  unfold address_space_unmap. rewrite bind_get, (proj2 (Z.eqb_neq _ _) Hne). cbn [negb].
  pose proof (ram_addr_from_host_run _ b _ Hok Hh Hb Hi) as Hf. rewrite Z.add_simpl_l in Hf.
  rewrite (bind_Done _ _ _ _ _ (on_ram_run _ _ _ _ _ Hf)). by destruct s.
Qed.

(** C26 (lent_memory).  A device that maps RAM, fills it and gives it back has written to
    it: the pointer leads to the bytes of the range, all of it can be used, and when it
    is given back the code cache and the dirty bitmaps are told what a write of the
    same bytes tells them. *)
Theorem lent_memory s addr r off b bs memalign :
  ram_at s addr r off b (Z.of_nat (length bs)) -> region_test mr_readonly s (RegionMr r) = false ->
  Z.of_nat (length bs) < 2 ^ 31 -> host_ok (blocks (ms_ram s)) -> rb_host b + off <> bb_buffer (bounce s) ->
  exists s' s'' t t',
    ('(p, n) ← address_space_map memalign addr (Z.of_nat (length bs)) true;
     host_write p bs ;; address_space_unmap p n true n) s = Done () s' t /\
    address_space_write addr bs s = Done false s'' t' /\
    ms_host s' = ms_host s'' /\
    noted (ms_ram s) (ms_ram s') (rb_offset b + off) (Z.of_nat (length bs)) t /\
    noted (ms_ram s <| mru_block := Some b |>) (ms_ram s'') (rb_offset b + off) (Z.of_nat (length bs)) t'.
Proof.
  intros Hra Hro Hlen Hh Hne. destruct (rw_write_ram _ _ _ _ _ _ Hra Hro Hlen) as (s'' & t' & Hrun & Hst).
  pose proof (map_ram s addr r off b _ true memalign Hra (λ _, Hro) ltac:(lia)) as Hmap.
  set (s1 := s <| ms_host := ram_write (ms_host s) (rb_host b + off) bs |>).
  assert (Hra1 : ram_at s1 addr r off b (Z.of_nat (length bs))) by (destruct Hra; by constructor).
  pose proof (unmap_ram s1 addr r off b _ (Z.of_nat (length bs)) true Hra1 Hh Hne) as Hun.
  destruct (invalidate_run s1 (rb_offset b + off) (Z.of_nat (length bs))) as (r' & t & Hinv & Hn).
  { by destruct Hra1. }
  { by destruct (ram_at_inside _ _ _ _ _ _ Hra1) as (_ & _ & _ & _ & ?). }
  exists (s1 <| ms_ram := r' |>), s'', t, t'. split.
  { rewrite (bind_Done _ _ _ _ _ Hmap). unfold host_write. rewrite bind_modify. fold s1. rewrite Hun. exact Hinv. }
  split; [unfold address_space_write; rewrite <- (app_nil_r t'); by apply (bind_Done_trace _ _ _ _ _ _ _ _ _ Hrun) |].
  split; [by rewrite (stored_host _ _ _ _ _ _ Hst) |]. split; [done |]. by destruct Hst as (rl & -> & ?).
Qed.

(** There is one bounce buffer: while it is lent, no other access that needs it can be
    mapped. *)
Lemma bounce_taken s addr mr xlat n is_write memalign :
  leads s addr mr xlat -> memory_access_is_direct s mr is_write = false -> 0 < n < 2 ^ 64 -> bb_buffer (bounce s) <> 0 ->
  address_space_map memalign addr n is_write s = Done (0, n) s [].
Proof.
  intros Hl Hd Hn Hb. unfold address_space_map. rewrite (proj2 (Z.eqb_neq n 0)) by lia.
  rewrite (bind_Done _ _ _ _ _ (translate_run s addr mr xlat n Hl ltac:(lia))), bind_get, Hd. cbn [negb].
  by rewrite (proj2 (Z.eqb_neq _ 0) Hb).
Qed.

(** A device that maps a device for writing gets at most a page of the buffer. *)
Lemma bounce_lent s addr mr xlat n memalign :
  leads s addr mr xlat -> memory_access_is_direct s mr true = false -> 0 < n < 2 ^ 64 -> bb_buffer (bounce s) = 0 ->
  let l := Z.min n TARGET_PAGE_SIZE in
  address_space_map memalign addr n true s =
    Done (memalign l, l) (s <| bounce := mkBounce mr (memalign l) addr l |>) [].
Proof.
  intros Hl Hd Hn Hb. unfold address_space_map. rewrite (proj2 (Z.eqb_neq n 0)) by lia.
  rewrite (bind_Done _ _ _ _ _ (translate_run s addr mr xlat n Hl ltac:(lia))), bind_get, Hd. cbn [negb].
  rewrite Hb. done.
Qed.


(** The clients are called, the last to register first, and the list is empty
    afterwards. *)
Lemma map_clients_run s :
  cpu_notify_map_clients s = Done () (s <| map_client_list := [] |>) (MapClientCall <$> map_client_list s).
Proof.
  unfold cpu_notify_map_clients. rewrite bind_get. generalize (eq_refl (map_client_list s)). generalize (map_client_list s) at 1 3 4 as l.
  intros l. revert s. induction l as [|c l IH]; intros s Hs; cbn [for_each].
  - unfold mret, M_ret. f_equal. destruct s. cbn in Hs. by subst.
  - specialize (IH (s <| map_client_list := l |>) eq_refl).
    assert (Hrem : remove_client c (map_client_list s) = l) by (rewrite <- Hs; cbn [remove_client]; by rewrite Z.eqb_refl).
    apply (bind_Done_trace _ _ s () (s <| map_client_list := l |>) [MapClientCall c] _ _ _); [| exact IH].
    unfold cpu_unregister_map_client, modify, emit, mbind, M_bind. by rewrite Hrem.
Qed.

(** Giving the buffer back after writing: its bytes are written to the region, the
    buffer is free and the clients are told. *)
Lemma bounce_returned s len n e s1 t :
  address_space_write (bb_addr (bounce s)) (bytes_at (ms_host s) (bb_buffer (bounce s)) (Z.to_nat n)) s = Done e s1 t ->
  address_space_unmap (bb_buffer (bounce s)) len true n s =
    Done () (s1 <| bounce := bounce s1 <| bb_buffer := 0 |> |> <| map_client_list := [] |>) (t ++ (MapClientCall <$> map_client_list s1)).
Proof.
  intros Hw. unfold address_space_unmap. rewrite bind_get, Z.eqb_refl. cbn [negb when].
  set (m := bs ← host_read _ _; _ ← address_space_write _ bs; mret ()).
  assert (Hm : m s = Done () s1 t).
  { unfold m, host_read. rewrite bind_gets. rewrite <- (app_nil_r t). by apply (bind_Done_trace _ _ _ _ _ _ _ _ _ Hw). }
  apply (bind_Done_trace _ _ _ _ _ _ _ _ _ Hm). rewrite bind_modify. by rewrite map_clients_run.
Qed.


(** *** Write protection *)

(** An access to unassigned memory that only the processor notices. *)
Definition unassigned_harmless : Prop := forall a w n s,
  exists s' t, unassigned a w n s = Done () s' t /\ ms_dispatch s' = ms_dispatch s /\ ms_regions s' = ms_regions s /\
    ms_host s' = ms_host s /\ ms_ram s' = ms_ram s.

Lemma unassigned_write mr a v l s : ops mr = unassigned_mem_ops -> 0 < l ->
  io_mem_write unassigned (mr_ops (ops mr)) a v l s = (unassigned a true l ;; mret true) s.
Proof.
  intros Ho Hl. rewrite invalid_write; [done |]. rewrite Ho. unfold memory_region_access_valid. cbn [unassigned_mem_ops mr_ops valid_unaligned valid_accepts negb andb].
  destruct (cbool _); [done |]. cbn [accepts_loop]. by rewrite (proj2 (Z.ltb_lt 0 l)).
Qed.

Lemma unassigned_read mr a l s : ops mr = unassigned_mem_ops -> 0 < l ->
  io_mem_read unassigned (mr_ops (ops mr)) a l s = (unassigned a false l ;; mret (true, 0)) s.
Proof.
  intros Ho Hl. rewrite invalid_read; [done |]. rewrite Ho. unfold memory_region_access_valid. cbn [unassigned_mem_ops mr_ops valid_unaligned valid_accepts negb andb].
  destruct (cbool _); [done |]. cbn [accepts_loop]. by rewrite (proj2 (Z.ltb_lt 0 l)).
Qed.

(** The pieces of a write that nobody takes. *)
Lemma refused_pieces mr ps : forall off len buf s,
  unassigned_harmless -> ops mr = unassigned_mem_ops -> tiles (ops mr) off len ps ->
  exists s' t, write_pieces mr ps buf s = Done (negb (len =? 0)) s' t /\ ms_host s' = ms_host s /\ ms_ram s' = ms_ram s.
Proof.
  induction ps as [|[a l] ps IH]; intros off len buf s Hun Ho; cbn [tiles write_pieces].
  { intros ->. by exists s, []. }
  intros (-> & Hp & Ht). pose proof (size_range _ (pc_size _ _ _ _ Hp)). pose proof (pc_rest _ _ _ _ Hp).
  destruct (Hun off true l s) as (s1 & t1 & H1 & _ & _ & Hh1 & Hr1).
  destruct (IH (off + l) (len - l) (drop (Z.to_nat l) buf) s1 Hun Ho Ht) as (s2 & t2 & H2 & Hh2 & Hr2).
  exists s2, (t1 ++ t2). split; [| by rewrite Hh2, Hr2]. rewrite (proj2 (Z.eqb_neq len 0)) by lia. cbn [negb].
  unfold mbind, M_bind. rewrite unassigned_write by (done || lia). unfold mbind, M_bind. rewrite H1. cbn. rewrite H2. cbn. by rewrite !app_nil_r.
Qed.

Lemma unassigned_keeps mr : unassigned_harmless -> ops mr = unassigned_mem_ops -> keeps_accesses mr.
Proof.
  intros Hun Ho. split.
  - intros a v l Hl%size_range s b s' t. rewrite unassigned_write by (done || lia). destruct (Hun a true l s) as (s1 & t1 & H1 & Hd & Hr & _).
    unfold mbind, M_bind. rewrite H1. cbn. by intros [= _ <- _].
  - intros a l Hl%size_range s b s' t. rewrite unassigned_read by (done || lia). destruct (Hun a false l s) as (s1 & t1 & H1 & Hd & Hr & _).
    unfold mbind, M_bind. rewrite H1. cbn. by intros [= _ <- _].
Qed.

Lemma write_rom_run s addr r off b buf :
  ram_at s addr r off b (Z.of_nat (length buf)) -> Z.of_nat (length buf) < 2 ^ 31 ->
  exists s' t, cpu_physical_memory_write_rom addr buf s = Done () s' t /\ stored s s' b off buf t.
Proof.
  intros Hra Hlen. destruct (ram_store_run _ _ _ _ _ _ Hra) as (s' & t & Hrun & Hst). exists s', t. split; [| done].
  destruct (ram_at_inside _ _ _ _ _ _ Hra) as (_ & Hu & _). destruct Hra as [? Hl Hram ? Haddr Hr ?].
  unfold cpu_physical_memory_write_rom, cpu_physical_memory_write_rom_internal.
  assert (Hloop : write_rom_loop (length buf) addr buf WRITE_DATA s =
    ((ptr ← on_ram (qemu_get_ram_ptr (rb_offset b + off));
      host_write ptr buf ;; invalidate_and_set_dirty (rb_offset b + off) (Z.of_nat (length buf))) ;; mret ()) s).
  { destruct buf as [|x buf0]; [cbn in *; lia |]. change (length (x :: buf0)) with (S (length buf0)) at 1. cbn [write_rom_loop].
    set (buf := x :: buf0) in *.
    rewrite (bind_Done _ _ _ _ _ (translate_run s addr (RegionMr r) off (Z.of_nat (length buf)) Hl ltac:(lia))), bind_get.
    rewrite Hram. cbn [orb when memory_region_get_ram_addr]. rewrite Haddr, Hu, take_all, drop_all_Z. by destruct (length buf0). }
  rewrite Hloop. rewrite <- (app_nil_r t). by apply (bind_Done_trace _ _ _ _ _ _ _ _ _ Hrun).
Qed.

(** C27 (rom_is_protected).  The guest cannot change memory that is write protected: the
    write reports an error, in pieces that go to the handler of unassigned memory, and
    leaves the host memory, the dirty bitmaps and the code cache as they are, while the
    loader's write of the same range stores the bytes. *)
Theorem rom_is_protected s addr r off b buf :
  ram_at s addr r off b (Z.of_nat (length buf)) -> region_test mr_readonly s (RegionMr r) = true ->
  Z.of_nat (length buf) < 2 ^ 31 -> addr + Z.of_nat (length buf) <= 2 ^ 64 -> 0 <= addr ->
  (forall i, 0 <= i < Z.of_nat (length buf) -> leads s (addr + i) (RegionMr r) (off + i)) ->
  ops (RegionMr r) = unassigned_mem_ops -> unassigned_harmless ->
  (exists s' t, address_space_write addr buf s = Done true s' t /\ ms_host s' = ms_host s /\ ms_ram s' = ms_ram s) /\
  (exists s' t, cpu_physical_memory_write_rom addr buf s = Done () s' t /\ stored s s' b off buf t /\
     bytes_at (ms_host s') (rb_host b + off) (length buf) = buf).
Proof.
  intros Hra Hro Hlen Ha Ha0 Hl Ho Hun. split.
  - pose proof (wf_lookup _ b (ra_ok _ _ _ _ _ _ Hra) (ra_block _ _ _ _ _ _ Hra)) as (H1 & H2 & H3 & _). unfold RAM_ADDR_MAX in H3.
    pose proof (ra_range _ _ _ _ _ _ Hra) as Hr.
    assert (Hd : device_at s addr (RegionMr r) off (Z.of_nat (length buf)) true).
    { constructor; [done | | lia]. unfold memory_access_is_direct. by rewrite (ra_ram _ _ _ _ _ _ Hra), Hro. }
    assert (Hm : 1 <= effective_max (ops (RegionMr r)) <= 8) by (rewrite Ho; cbn; lia).
    pose proof (pieces_tile (ops (RegionMr r)) (length buf) off (Z.of_nat (length buf)) Hm ltac:(lia) ltac:(lia) ltac:(lia) ltac:(lia)) as Ht.
    destruct (refused_pieces _ _ _ _ buf s Hun Ho Ht) as (s' & t & Hrun & Hh & Hrm). exists s', t. split; [| done].
    rewrite (proj2 (Z.eqb_neq _ 0)) in Hrun by lia. unfold address_space_write, address_space_rw. unfold mbind at 1. unfold M_bind at 1.
    rewrite (rw_device_loop _ _ _ _ _ _ _ (unassigned_keeps _ Hun Ho) Hm Hd) by lia. cbv zeta. unfold mbind, M_bind. rewrite Hrun. cbn. by rewrite !app_nil_r.
  - destruct (write_rom_run _ _ _ _ _ _ Hra Hlen) as (s' & t & Hrun & Hst). exists s', t. split; [done |]. split; [done |]. by apply (stored_bytes s s' b off buf t).
Qed.

End Phys.

(** ** The Blue Pill's memory *)

Section Demo.

(** The flash memory (1), the SRAM (2) and a device (3). *)
Definition pill_region (size addr : Z) (readonly ram : bool) : MemoryRegion :=
  mkRegion size addr None [] None 0 0 false true true readonly true ram false 0.

Definition pill_regions : regions :=
  {[ 1%nat := pill_region 0x20000 0x8000000 true true; 2%nat := pill_region 0x5000 0x20000000 false true;
     3%nat := pill_region 0x400 0x40013800 false false ]}.

Definition pill_view : FlatView :=
  [mkFlat 1 0 (mkRange 0x8000000 0x20000) 0 true true; mkFlat 2 0 (mkRange 0x20000000 0x5000) 0 true false;
   mkFlat 3 0 (mkRange 0x40013800 0x400) 0 true false].

Definition pill_dispatch : AddressSpaceDispatch :=
  Eval vm_compute in match build pill_view empty_dispatch with Done _ d _ => d | Halt _ => empty_dispatch end.

Definition pill_ram : RAMList :=
  match qemu_ram_alloc (λ _, Some 0x20000000) (λ _, 0) 0x5000 2 demo_ram with Done _ r _ => r | Halt _ => ram_empty end.

Definition flash : RAMBlock := mkBlock 1 0x10000000 0 0x20000 0.
Definition sram : RAMBlock := mkBlock 2 0x20000000 0x20000 0x5000 0.

Lemma pill_ram_ok : ram_ok pill_ram.
Proof.
  destruct (alloc_run (λ _, Some 0x20000000) (λ _, 0) demo_ram 0x5000 0x20000000 2 demo_ram_ok) as (off & r' & Hrun & Hal).
  - intros i. lia.
  - lia.
  - vm_compute. discriminate.
  - vm_compute. discriminate.
  - reflexivity.
  - unfold pill_ram. rewrite Hrun. apply Hal.
Qed.

Lemma pill_blocks : blocks pill_ram = [flash; sram].
Proof. vm_compute. reflexivity. Qed.

Definition pill : memsys (list (Z * Z * Z)) :=
  mkSys pill_dispatch pill_regions pill_ram ∅ false (mkBounce io_mem_unassigned 0 0 0) [] [].

(** The device logs what is written. *)
Definition log_ops : region_ops (phys_event Empty_set) (memsys (list (Z * Z * Z))) :=
  mkRegionOps (mkOps (Some (λ _ _, mret 0)) (Some (λ a v n, modify (λ s, s <| ms_devices := ms_devices s ++ [(a, v, n)] |>)))
    DEVICE_NATIVE_ENDIAN 0 0 false None 0 0 [] []) false.

Definition pill_ops (mr : phys_mr) : region_ops (phys_event Empty_set) (memsys (list (Z * Z * Z))) :=
  if bool_decide (mr = RegionMr 3) then log_ops else unassigned_mem_ops.
Definition pill_ram_addr (r : nat) : Z := if bool_decide (r = 2%nat) then 0x20000 else 0.
Definition pill_unassigned (a : Z) (w : bool) (n : Z) : M (phys_event Empty_set) (memsys (list (Z * Z * Z))) unit := mret ().

(** A test that an address leads to a place. *)
Definition section_leads (s : PhysSection) (addr : Z) (r : nat) (off : Z) : bool :=
  bool_decide (reach s addr = Some (r, off, ps_readonly s)) && (0 <=? off) && (off <? 2 ^ 64) &&
  (u64 (addr - ps_offset_within_address_space s) <=? region_size_of pill r).

Lemma pill_leads addr r off v s :
  address_space_lookup_region addr true pill_dispatch = Done v pill_dispatch [] ->
  sections pill_dispatch !! Z.to_nat v = Some s -> section_leads s addr r off = true -> leads pill addr (RegionMr r) off.
Proof.
  intros Hl Hs Ht plen Hp. unfold section_leads in Ht.
  apply andb_prop in Ht as [[[Ht1%bool_decide_eq_true Ht2%Z.leb_le]%andb_prop Ht3%Z.ltb_lt]%andb_prop Ht4%Z.leb_le].
  change (ms_dispatch pill) with pill_dispatch. by eapply translate_target; [apply Hl | apply Hs | apply Ht1 | lia | lia | | lia].
Qed.

(** The section of a concrete address, by evaluation. *)
Ltac pill_lead :=
  eapply pill_leads; [vm_compute; reflexivity | vm_compute; reflexivity | vm_compute; reflexivity].

Lemma sram_at n : 0 < n <= 0x4ff0 -> ram_at pill_ram_addr pill 0x20000010 2 0x10 sram n.
Proof.
  intros Hn. constructor; [apply pill_ram_ok | pill_lead | reflexivity | | reflexivity | cbn; lia | cbn; lia].
  change (ms_ram pill) with pill_ram. rewrite pill_blocks. by right; left.
Qed.

Lemma flash_at n : 0 < n <= 0x1fff0 -> ram_at pill_ram_addr pill 0x8000010 1 0x10 flash n.
Proof.
  intros Hn. constructor; [apply pill_ram_ok | pill_lead | reflexivity | | reflexivity | cbn; lia | cbn; lia].
  change (ms_ram pill) with pill_ram. rewrite pill_blocks. by left.
Qed.

Lemma pill_host_ok : host_ok (blocks (ms_ram pill)).
Proof.
  change (ms_ram pill) with pill_ram. rewrite pill_blocks. split.
  - intros b [-> | [-> | []%not_elem_of_nil]%elem_of_cons]%elem_of_cons; cbn; lia.
  - intros b1 b2 [-> | [-> | []%not_elem_of_nil]%elem_of_cons]%elem_of_cons [-> | [-> | []%not_elem_of_nil]%elem_of_cons]%elem_of_cons;
      (by left) || (right; unfold disjoint_range; cbn; lia).
Qed.

Lemma pill_harmless : unassigned_harmless pill_unassigned.
Proof. intros a w n s. by exists s, []. Qed.

Lemma log_keeps : keeps_accesses pill_ops pill_unassigned (RegionMr 3).
Proof.
  split.
  - intros a v l Hl s b s' t. unfold access_sizes in Hl. rewrite !elem_of_cons, elem_of_nil in Hl.
    change (mr_ops (pill_ops (RegionMr 3))) with (mr_ops log_ops).
    unfold io_mem_write, memory_region_dispatch_write. rewrite bind_get. destruct (negb _); [by intros [= _ <- _] |].
    destruct Hl as [-> | [-> | [-> | [-> | []]]]]; cbn; by intros [= _ <- _].
  - intros a l Hl s b s' t. unfold access_sizes in Hl. rewrite !elem_of_cons, elem_of_nil in Hl.
    change (mr_ops (pill_ops (RegionMr 3))) with (mr_ops log_ops).
    unfold io_mem_read, memory_region_dispatch_read. rewrite bind_get. destruct (negb _); [by intros [= _ <- _] |].
    destruct Hl as [-> | [-> | [-> | [-> | []]]]]; cbn; by intros [= _ <- _].
Qed.

(** A transfer that starts in the SRAM and is longer than the rest of it goes on behind
    the end of the block, which is at 0x20005000 in the host. *)
Example past_the_end :
  match address_space_write pill_ops pill_ram_addr pill_unassigned 0x20004ffc [1; 2; 3; 4; 5; 6; 7; 8] pill with
  | Done e s' _ => (e, ms_host s' !! 0x20005003) = (false, Some 8)
  | Halt _ => False
  end.
Proof. vm_compute. reflexivity. Qed.

Lemma physical_memory_witness :
  exists s' t, address_space_write pill_ops pill_ram_addr pill_unassigned 0x20000010 [1; 2; 3; 4] pill = Done false s' t /\
    address_space_read pill_ops pill_ram_addr pill_unassigned 0x20000010 4 s' = Done (false, [1; 2; 3; 4]) (read_state s' sram) [].
Proof.
  destruct (physical_memory pill_ops pill_ram_addr pill_unassigned pill 0x20000010 2 0x10 sram [1; 2; 3; 4]) as (s' & t & H1 & _ & H2 & _).
  - apply sram_at. cbn. lia.
  - reflexivity.
  - cbn. lia.
  - exact pill_host_ok.
  - exists s', t. exact (conj H1 H2).
Defined.

Lemma device_at_pill len : len = 4 -> device_at pill 0x40013802 (RegionMr 3) 2 len true.
Proof.
  intros ->. constructor; [| reflexivity | lia]. intros i Hi.
  assert (Hc : i = 0 \/ i = 1 \/ i = 2 \/ i = 3) by lia. destruct Hc as [-> | [-> | [-> | ->]]]; pill_lead.
Qed.

Lemma device_accesses_witness :
  exists ps, tiles (pill_ops (RegionMr 3)) 2 4 ps /\
    address_space_rw pill_ops pill_ram_addr pill_unassigned 0x40013802 [1; 2; 3; 4] true pill =
      (e ← write_pieces pill_ops pill_unassigned (RegionMr 3) ps [1; 2; 3; 4]; mret (e, [1; 2; 3; 4])) pill.
Proof.
  apply (device_accesses pill_ops pill_ram_addr pill_unassigned (RegionMr 3) pill 0x40013802 2 [1; 2; 3; 4] true).
  - exact log_keeps.
  - vm_compute. split; discriminate.
  - by apply device_at_pill.
Defined.

Lemma lent_memory_witness :
  exists s' s'' t t',
    ('(p, n) ← address_space_map pill_ops pill_ram_addr pill_unassigned (λ _, 0x700000) 0x20000010 4 true;
     host_write p [1; 2; 3; 4] ;; address_space_unmap pill_ops pill_ram_addr pill_unassigned p n true n) pill = Done () s' t /\
    address_space_write pill_ops pill_ram_addr pill_unassigned 0x20000010 [1; 2; 3; 4] pill = Done false s'' t' /\
    ms_host s' = ms_host s''.
Proof.
  destruct (lent_memory pill_ops pill_ram_addr pill_unassigned pill 0x20000010 2 0x10 sram [1; 2; 3; 4] (λ _, 0x700000))
    as (s' & s'' & t & t' & H1 & H2 & H3 & _).
  - apply sram_at. cbn. lia.
  - reflexivity.
  - cbn. lia.
  - exact pill_host_ok.
  - discriminate.
  - exists s', s'', t, t'. exact (conj H1 (conj H2 H3)).
Defined.

Lemma rom_is_protected_witness :
  exists s' t, address_space_write pill_ops pill_ram_addr pill_unassigned 0x8000010 [1; 2] pill = Done true s' t /\
    ms_host s' = ms_host pill /\ ms_ram s' = ms_ram pill.
Proof.
  apply (rom_is_protected pill_ops pill_ram_addr pill_unassigned pill 0x8000010 1 0x10 flash [1; 2]).
  - apply flash_at. cbn. lia.
  - reflexivity.
  - cbn. lia.
  - cbn. lia.
  - lia.
  - intros i Hi. cbn in Hi. assert (Hc : i = 0 \/ i = 1) by lia. destruct Hc as [-> | ->]; pill_lead.
  - reflexivity.
  - exact pill_harmless.
Defined.

End Demo.
