(* ===== verification/Softmmu.v ===== *)
(** * The processor's view of memory: the software TLB ([cputlb.c],
    [softmmu_template.h], [exec.c])

    A load or store of the guest looks its page up in a table of 256 entries per
    privilege.  For RAM an entry leads straight to host memory; otherwise flag bits in
    its addresses send the access through the region of the page.  A page whose dirty
    bits are not all set is entered with [TLB_NOTDIRTY], so that a store to translated
    code is noticed.  The theorems say that accesses through the table are accesses to
    physical memory, and that no store bypasses the check.

    The state of the table joins that of [Physio] as its devices.  The MMU is off, as in
    the Cortex-M3, and instruction counting is off; watchpoints are left out.  The code
    cache is given by what it does when a write to a page with code is noticed. *)

From stdpp Require Import gmap list.
From S2P Require Import Prelude Memory Flatview Memaccess Memregion Physmap Dispatch Bitmap Ramblock Physio.
Open Scope Z_scope.

Definition CPU_TLB_BITS : Z := 8.
Definition CPU_TLB_SIZE : Z := 1 << CPU_TLB_BITS.
Definition NB_MMU_MODES : Z := 2.
Definition TLB_INVALID_MASK : Z := 1 << 3.
Definition TLB_NOTDIRTY : Z := 1 << 4.
Definition TLB_MMIO : Z := 1 << 5.
Definition PAGE_READ : Z := 1.
Definition PAGE_WRITE : Z := 2.
Definition PAGE_EXEC : Z := 4.
Definition SCTLR_M : Z := 1 << 0.

(** [TARGET_PAGE_MASK] as a [target_ulong]. *)
Definition PAGE_MASK32 : Z := u32 TARGET_PAGE_MASK.

Record CPUTLBEntry : Type := mkTlb { addr_read : Z; addr_write : Z; addr_code : Z; addend : Z }.
#[export] Instance eta_CPUTLBEntry : Settable CPUTLBEntry := λ e, mkTlb (addr_read e) (addr_write e) (addr_code e) (addend e).

(** The entry that [memset] with -1 leaves. *)
Definition tlb_blank : CPUTLBEntry := mkTlb (2 ^ 32 - 1) (2 ^ 32 - 1) (2 ^ 32 - 1) (2 ^ 64 - 1).

Record cpu_mmu (D : Type) : Type := mkMmu {
  tlb_table : list (list CPUTLBEntry);
  iotlb : list (list Z);
  tlb_flush_addr : Z;
  tlb_flush_mask : Z;
  mem_io_vaddr : Z;
  mem_io_pc : Z;
  c1_sys : Z;
  c13_fcse : Z;
  cpu_outside : D
}.
Arguments mkMmu {D} _ _ _ _ _ _ _ _ _.
Arguments tlb_table {D} _.
Arguments iotlb {D} _.
Arguments tlb_flush_addr {D} _.
Arguments tlb_flush_mask {D} _.
Arguments mem_io_vaddr {D} _.
Arguments mem_io_pc {D} _.
Arguments c1_sys {D} _.
Arguments c13_fcse {D} _.
Arguments cpu_outside {D} _.
#[export] Instance eta_cpu_mmu D : Settable (cpu_mmu D) := λ s,
  mkMmu (tlb_table s) (iotlb s) (tlb_flush_addr s) (tlb_flush_mask s) (mem_io_vaddr s) (mem_io_pc s) (c1_sys s) (c13_fcse s) (cpu_outside s).

(** What the table tells the code cache, and events of the devices. *)
Inductive mmu_event (E : Type) : Type :=
  | FlushJmpCache
  | FlushJmpCachePage (addr : Z)
  | TbInvalidateFast (start len : Z)
  | GuestEvent (e : E).
Arguments FlushJmpCache {E}.
Arguments FlushJmpCachePage {E} addr.
Arguments TbInvalidateFast {E} start len.
Arguments GuestEvent {E} e.

Section Mmu.
  Context {E D : Type}.

Notation Sys := (memsys (cpu_mmu D)).
Notation PIO := (M (phys_event (mmu_event E)) Sys).

(** The devices, the RAM addresses of the regions, unassigned memory, and the code
    cache's reaction to a write to a page with code. *)
Context (dev_ops : nat → region_ops (phys_event (mmu_event E)) Sys) (ram_addr : nat → Z) (unassigned : Z → bool → Z → PIO unit).
Context (tb_invalidate_phys_page_fast : Z → Z → PIO unit).

Definition mmu (s : Sys) : cpu_mmu D := ms_devices s.
Definition upd_mmu (f : cpu_mmu D → cpu_mmu D) : PIO unit := modify (λ s, s <| ms_devices := f (ms_devices s) |>).
Definition tell (e : mmu_event E) : PIO unit := emit (DeviceEvent e).

(** The index of a page in the tables. *)
Definition tlb_index (addr : Z) : nat := Z.to_nat ((addr >> TARGET_PAGE_BITS) .& (CPU_TLB_SIZE - 1)).

Definition tlb_at (c : cpu_mmu D) (mmu_idx i : nat) : option CPUTLBEntry := l ← tlb_table c !! mmu_idx; l !! i.
Definition iotlb_at (c : cpu_mmu D) (mmu_idx i : nat) : option Z := l ← iotlb c !! mmu_idx; l !! i.

Definition get_tlb (mmu_idx i : nat) : PIO CPUTLBEntry :=
  s ← get; match tlb_at (mmu s) mmu_idx i with Some e => mret e | None => halt OutOfBounds end.
Definition get_iotlb (mmu_idx i : nat) : PIO Z :=
  s ← get; match iotlb_at (mmu s) mmu_idx i with Some e => mret e | None => halt OutOfBounds end.
Definition alter_tlb (f : CPUTLBEntry → CPUTLBEntry) (mmu_idx i : nat) (c : cpu_mmu D) : cpu_mmu D :=
  c <| tlb_table := alter (λ l : list CPUTLBEntry, alter f i l) mmu_idx (tlb_table c) |>.
Definition set_iotlb (v : Z) (mmu_idx i : nat) (c : cpu_mmu D) : cpu_mmu D :=
  c <| iotlb := alter (λ l : list Z, <[i := v]> l) mmu_idx (iotlb c) |>.

(** ** Flushing *)

Definition tlb_flush : PIO unit :=
  upd_mmu (λ c, c <| tlb_table := fmap (λ l : list CPUTLBEntry, (λ _ : CPUTLBEntry, tlb_blank) <$> l) (tlb_table c) |>) ;;
  tell FlushJmpCache ;;
  upd_mmu (λ c, c <| tlb_flush_addr := 2 ^ 32 - 1 |> <| tlb_flush_mask := 0 |>).

Definition tlb_flush_entry (tlb_entry : CPUTLBEntry) (addr : Z) : CPUTLBEntry :=
  let mask := PAGE_MASK32 .| TLB_INVALID_MASK in
  if (addr =? (addr_read tlb_entry .& mask)) || (addr =? (addr_write tlb_entry .& mask)) || (addr =? (addr_code tlb_entry .& mask))
  then tlb_blank else tlb_entry.

(** A loop over the privileges. *)
Definition each_mode (f : nat → cpu_mmu D → cpu_mmu D) (c : cpu_mmu D) : cpu_mmu D := f 1%nat (f 0%nat c).

Definition tlb_flush_page (addr : Z) : PIO unit :=
  s ← get;
  if (addr .& tlb_flush_mask (mmu s)) =? tlb_flush_addr (mmu s) then tlb_flush
  else
    let addr := addr .& PAGE_MASK32 in
    upd_mmu (each_mode (λ m, alter_tlb (λ e, tlb_flush_entry e addr) m (tlb_index addr))) ;;
    tell (FlushJmpCachePage addr).

(** The memory map has changed. *)
Definition tcg_commit : PIO unit := tlb_flush.

(** ** Dirty pages *)

Definition tlb_is_dirty_ram (tlbe : CPUTLBEntry) : bool :=
  (addr_write tlbe .& (TLB_INVALID_MASK .| TLB_MMIO .| TLB_NOTDIRTY)) =? 0.

Definition tlb_reset_dirty_range (start length : Z) (tlb_entry : CPUTLBEntry) : CPUTLBEntry :=
  if tlb_is_dirty_ram tlb_entry then
    let addr := u64 ((addr_write tlb_entry .& PAGE_MASK32) + addend tlb_entry) in
    if u64 (addr - start) <? length then tlb_entry <| addr_write := addr_write tlb_entry .| TLB_NOTDIRTY |> else tlb_entry
  else tlb_entry.

Definition cpu_tlb_reset_dirty_all (start1 length : Z) : PIO unit :=
  upd_mmu (λ c, c <| tlb_table := fmap (λ l : list CPUTLBEntry, tlb_reset_dirty_range start1 length <$> l) (tlb_table c) |>).

Definition tlb_reset_dirty_range_all (start length : Z) : PIO unit :=
  let end_ := TARGET_PAGE_ALIGN (u64 (start + length)) in
  let start := start .& TARGET_PAGE_MASK in
  block ← on_ram (qemu_get_ram_block start);
  block' ← on_ram (qemu_get_ram_block (u64 (end_ - 1)));
  assert_ (bool_decide (block = block')) ;;
  cpu_tlb_reset_dirty_all (u64 (rb_host block + u64 (start - rb_offset block))) length.

Definition cpu_physical_memory_reset_dirty (start length client : Z) : PIO unit :=
  if length =? 0 then mret ()
  else
    on_ram (cpu_physical_memory_clear_dirty_range start length client) ;;
    tlb_reset_dirty_range_all start length.

Definition tlb_protect_code (ram_addr : Z) : PIO unit := cpu_physical_memory_reset_dirty ram_addr TARGET_PAGE_SIZE DIRTY_MEMORY_CODE.
Definition tlb_unprotect_code_phys (ram_addr : Z) : PIO unit := on_ram (cpu_physical_memory_set_dirty_flag ram_addr DIRTY_MEMORY_CODE).

Definition cpu_physical_memory_set_dirty_tracking (enable : bool) : PIO unit := modify (λ s, s <| in_migration := enable |>).

Definition tlb_set_dirty1 (vaddr : Z) (tlb_entry : CPUTLBEntry) : CPUTLBEntry :=
  if addr_write tlb_entry =? (vaddr .| TLB_NOTDIRTY) then tlb_entry <| addr_write := vaddr |> else tlb_entry.

Definition tlb_set_dirty (vaddr : Z) : PIO unit :=
  let vaddr := vaddr .& PAGE_MASK32 in
  upd_mmu (each_mode (λ m, alter_tlb (tlb_set_dirty1 vaddr) m (tlb_index vaddr))).

(** ** Entering a page *)

(** The loop that widens the mask. *)
Fixpoint widen (fuel : nat) (flush_addr vaddr mask : Z) : option Z :=
  if negb (((flush_addr .^ vaddr) .& mask) =? 0) then
    match fuel with O => None | S fuel => widen fuel flush_addr vaddr (u32 (mask << 1)) end
  else Some mask.

Definition tlb_add_large_page (vaddr size : Z) : PIO unit :=
  let mask := not32 (size - 1) in
  s ← get;
  if tlb_flush_addr (mmu s) =? 2 ^ 32 - 1 then
    upd_mmu (λ c, c <| tlb_flush_addr := vaddr .& mask |> <| tlb_flush_mask := mask |>)
  else
    match widen 32 (tlb_flush_addr (mmu s)) vaddr (mask .& tlb_flush_mask (mmu s)) with
    | Some mask => upd_mmu (λ c, c <| tlb_flush_addr := tlb_flush_addr c .& mask |> <| tlb_flush_mask := mask |>)
    | None => halt OutOfFuel
    end.

(** The section with its number in the table of sections. *)
Definition address_space_translate_for_iotlb (addr plen : Z) : PIO (Z * PhysSection * Z * Z) :=
  s ← get;
  on_dispatch
    (v ← address_space_lookup_region addr false;
     '(section, xlat, plen) ← address_space_translate_internal (region_size_of s) addr plen false;
     mret (v, section, xlat, plen)).

Definition memory_region_get_ram_ptr (mr : phys_mr) : PIO Z :=
  on_ram (qemu_get_ram_ptr (memory_region_get_ram_addr ram_addr mr .& TARGET_PAGE_MASK)).

(** No watchpoints. *)
Definition memory_region_section_get_iotlb (s : Sys) (v : Z) (section : PhysSection) (xlat : Z) : Z :=
  if region_test memory_region_is_ram s (ps_mr section) then
    u64 ((memory_region_get_ram_addr ram_addr (ps_mr section) .& TARGET_PAGE_MASK) + xlat)
      .| (if negb (ps_readonly section) then PHYS_SECTION_NOTDIRTY else PHYS_SECTION_ROM)
  else u64 (v + xlat).

Definition tlb_set_page (vaddr paddr prot : Z) (mmu_idx : nat) (size : Z) : PIO unit :=
  assert_ (TARGET_PAGE_SIZE <=? size) ;;
  when (negb (size =? TARGET_PAGE_SIZE)) (tlb_add_large_page vaddr size) ;;
  '(v, section, xlat, sz) ← address_space_translate_for_iotlb paddr size;
  assert_ (TARGET_PAGE_SIZE <=? sz) ;;
  s ← get;
  let is_ram := region_test memory_region_is_ram s (ps_mr section) in
  let is_romd := region_test memory_region_is_romd s (ps_mr section) in
  '(address, addend_) ←
    (if negb is_ram && negb is_romd then mret (vaddr .| TLB_MMIO, 0)
     else p ← memory_region_get_ram_ptr (ps_mr section); mret (vaddr, u64 (p + xlat)));
  s ← get;
  let iotlb_ := memory_region_section_get_iotlb s v section xlat in
  let index := tlb_index vaddr in
  addr_write_ ←
    (if cbool (prot .& PAGE_WRITE) then
       if (is_ram && ps_readonly section) || is_romd then mret (address .| TLB_MMIO)
       else if is_ram then
         clean ← on_ram (cpu_physical_memory_is_clean (u64 (memory_region_get_ram_addr ram_addr (ps_mr section) + xlat)));
         mret (if (clean : bool) then address .| TLB_NOTDIRTY else address)
       else mret address
     else mret (2 ^ 32 - 1));
  upd_mmu (λ c, set_iotlb (u64 (iotlb_ - vaddr)) mmu_idx index c) ;;
  upd_mmu (alter_tlb (λ _, mkTlb (if cbool (prot .& PAGE_READ) then address else 2 ^ 32 - 1) addr_write_
                             (if cbool (prot .& PAGE_EXEC) then address else 2 ^ 32 - 1) (u64 (addend_ - vaddr))) mmu_idx index).

(** ** Translation with the MMU off

    With the MMU on, a walk of the page tables, which the Cortex-M3 does not have, would
    follow; it is a parameter here. *)

Definition get_phys_addr (walk : Z → option (Z * Z * Z)) (c : cpu_mmu D) (address : Z) : option (Z * Z * Z) :=
  let address := if address <? 0x02000000 then u32 (address + c13_fcse c) else address in
  if (c1_sys c .& SCTLR_M) =? 0 then Some (address, PAGE_READ .| PAGE_WRITE .| PAGE_EXEC, TARGET_PAGE_SIZE)
  else walk address.

Definition arm_cpu_handle_mmu_fault (walk : Z → option (Z * Z * Z)) (address : Z) (mmu_idx : nat) : PIO bool :=
  s ← get;
  match get_phys_addr walk (mmu s) address with
  | Some (phys_addr, prot, page_size) =>
      tlb_set_page (address .& PAGE_MASK32) (phys_addr .& TARGET_PAGE_MASK) prot mmu_idx page_size ;; mret false
  | None => mret true
  end.

Definition arm_cpu_get_phys_page_debug (walk : Z → option (Z * Z * Z)) (c : cpu_mmu D) (addr : Z) : Z :=
  match get_phys_addr walk c addr with Some (phys_addr, _, _) => phys_addr | None => 2 ^ 64 - 1 end.

(** An exception leaves the access. *)
Definition tlb_fill (walk : Z → option (Z * Z * Z)) (addr : Z) (mmu_idx : nat) : PIO unit :=
  ret ← arm_cpu_handle_mmu_fault walk addr mmu_idx;
  if (ret : bool) then halt Blocked else mret ().

(** ** The regions of [exec.c] *)

(** [stb_p], [stw_p] and [stl_p] through [qemu_get_ram_ptr]. *)
Definition notdirty_mem_write (ram_addr val size : Z) : PIO unit :=
  code ← on_ram (cpu_physical_memory_get_dirty_flag ram_addr DIRTY_MEMORY_CODE);
  when (negb (code : bool)) (tell (TbInvalidateFast ram_addr size) ;; tb_invalidate_phys_page_fast ram_addr size) ;;
  (if (size =? 1) || (size =? 2) || (size =? 4) then
     ptr ← on_ram (qemu_get_ram_ptr ram_addr); host_write ptr (le_bytes (Z.to_nat size) val)
   else halt AssertFailed) ;;
  on_ram (cpu_physical_memory_set_dirty_range_nocode ram_addr size) ;;
  clean ← on_ram (cpu_physical_memory_is_clean ram_addr);
  when (negb (clean : bool)) (s ← get; tlb_set_dirty (mem_io_vaddr (mmu s))).

Definition notdirty_mem_accepts (s : Sys) (addr size : Z) (is_write : bool) : bool := is_write.

Definition notdirty_mem_ops : region_ops (phys_event (mmu_event E)) Sys :=
  mkRegionOps (mkOps None (Some notdirty_mem_write) DEVICE_NATIVE_ENDIAN 0 0 false (Some notdirty_mem_accepts) 0 0 [] []) false.

(** The regions that a translation gives, which resolves pages with several sections. *)
Definition base_ops (mr : phys_mr) : region_ops (phys_event (mmu_event E)) Sys :=
  match mr with RegionMr r => dev_ops r | io_mem_notdirty => notdirty_mem_ops | _ => unassigned_mem_ops end.

Definition subpage_base (s : Sys) (k : nat) : Z := match subpages (ms_dispatch s) !! k with Some sp => sp_base sp | None => 0 end.

Definition subpage_read (k : nat) (addr len : Z) : PIO Z :=
  s ← get;
  '(_, buf) ← address_space_read base_ops ram_addr unassigned (u64 (addr + subpage_base s k)) (Z.to_nat len);
  if (len =? 1) || (len =? 2) || (len =? 4) then mret (of_le buf) else halt AssertFailed.

Definition subpage_write (k : nat) (addr value len : Z) : PIO unit :=
  if (len =? 1) || (len =? 2) || (len =? 4) then
    s ← get;
    _ ← address_space_write base_ops ram_addr unassigned (u64 (addr + subpage_base s k)) (le_bytes (Z.to_nat len) value);
    mret ()
  else halt AssertFailed.

Definition subpage_accepts (k : nat) (s : Sys) (addr len : Z) (is_write : bool) : bool :=
  match address_space_access_valid base_ops (u64 (addr + subpage_base s k)) len is_write s with Done b _ _ => b | Halt _ => false end.

Definition subpage_ops (k : nat) : region_ops (phys_event (mmu_event E)) Sys :=
  mkRegionOps (mkOps (Some (subpage_read k)) (Some (subpage_write k)) DEVICE_NATIVE_ENDIAN 0 0 false (Some (subpage_accepts k)) 0 0 [] []) false.

Definition all_ops (mr : phys_mr) : region_ops (phys_event (mmu_event E)) Sys :=
  match mr with SubpageMr k => subpage_ops k | _ => base_ops mr end.

Definition iotlb_to_region (index : Z) : PIO phys_mr :=
  s ← get;
  match sections (ms_dispatch s) !! Z.to_nat (index .& (TARGET_PAGE_SIZE - 1)) with Some sec => mret (ps_mr sec) | None => halt OutOfBounds end.

(** ** Loads and stores *)

(** What is read: data or instructions. *)
Inductive access_kind : Type := ReadData | ReadCode.

Definition ADDR_READ (k : access_kind) (e : CPUTLBEntry) : Z := match k with ReadData => addr_read e | ReadCode => addr_code e end.

(** [DATA_TYPE] of [n] bytes. *)
Definition data (n : nat) (v : Z) : Z := v mod 2 ^ (8 * Z.of_nat n).

Definition io_read (n : nat) (physaddr addr retaddr : Z) : PIO Z :=
  mr ← iotlb_to_region physaddr;
  let physaddr := u64 ((physaddr .& TARGET_PAGE_MASK) + addr) in
  upd_mmu (λ c, c <| mem_io_pc := retaddr |> <| mem_io_vaddr := addr |>) ;;
  '(_, val) ← io_mem_read unassigned (mr_ops (all_ops mr)) physaddr (Z.of_nat n);
  mret (data n val).

Definition io_write (n : nat) (physaddr val addr retaddr : Z) : PIO unit :=
  mr ← iotlb_to_region physaddr;
  let physaddr := u64 ((physaddr .& TARGET_PAGE_MASK) + addr) in
  upd_mmu (λ c, c <| mem_io_vaddr := addr |> <| mem_io_pc := retaddr |>) ;;
  _ ← io_mem_write unassigned (mr_ops (all_ops mr)) physaddr val (Z.of_nat n);
  mret ().

Definition other_page (addr tlb_addr : Z) : bool :=
  negb ((addr .& PAGE_MASK32) =? (tlb_addr .& (PAGE_MASK32 .| TLB_INVALID_MASK))).

Definition page_offset (addr : Z) : Z := addr .& (TARGET_PAGE_SIZE - 1).

Definition spans (n : nat) (addr : Z) : bool := (1 <? n)%nat && (TARGET_PAGE_SIZE <=? page_offset addr + Z.of_nat n - 1).

Definition order (big : bool) (bs : list Z) : list Z := if big then reverse bs else bs.

Definition is_aligned (n : nat) (addr : Z) : bool := (addr .& (Z.of_nat n - 1)) =? 0.

Section Walk.
Context (walk : Z → option (Z * Z * Z)).

(** The entry of the page, entered when it is not there. *)
Definition lookup_tlb (field : CPUTLBEntry → Z) (addr : Z) (mmu_idx : nat) : PIO Z :=
  e ← get_tlb mmu_idx (tlb_index addr);
  if other_page addr (field e) then
    tlb_fill walk addr mmu_idx ;;
    e ← get_tlb mmu_idx (tlb_index addr);
    mret (field e)
  else mret (field e).

(** The load helpers; [big] tells [helper_be_ld] from [helper_le_ld].  An unaligned
    access is made of two aligned ones, so the recursion is one deep. *)
Fixpoint helper_ld (fuel : nat) (big : bool) (n : nat) (k : access_kind) (addr : Z) (mmu_idx : nat) (retaddr : Z) : PIO Z :=
  let index := tlb_index addr in
  tlb_addr ← lookup_tlb (ADDR_READ k) addr mmu_idx;
  let unaligned :=
    match fuel with
    | O => halt OutOfFuel
    | S fuel =>
        let addr1 := addr .& not32 (Z.of_nat n - 1) in
        let addr2 := u32 (addr1 + Z.of_nat n) in
        res1 ← helper_ld fuel big n k addr1 mmu_idx retaddr;
        res2 ← helper_ld fuel big n k addr2 mmu_idx retaddr;
        let shift := (addr .& (Z.of_nat n - 1)) * 8 in
        mret (if big then data n (res1 << shift) .| (res2 >> (Z.of_nat n * 8 - shift))
              else (res1 >> shift) .| data n (res2 << (Z.of_nat n * 8 - shift)))
    end in
  if cbool (page_offset tlb_addr) then
    if negb (is_aligned n addr) then unaligned
    else
      ioaddr ← get_iotlb mmu_idx index;
      res ← io_read n ioaddr addr retaddr;
      mret (if big then bswap n res else res)
  else if spans n addr then unaligned
  else
    e ← get_tlb mmu_idx index;
    bs ← host_read (u64 (addr + addend e)) n;
    mret (of_le (order big bs)).

(** The bytes of an unaligned store, from the last one on; [st] stores a byte. *)
Fixpoint store_bytes (st : Z → Z → PIO unit) (big : bool) (n : nat) (addr val : Z) (i : nat) : PIO unit :=
  match i with
  | O => mret ()
  | S i =>
      st (u32 (addr + Z.of_nat i)) (u8 (val >> (if big then Z.of_nat (n - 1) * 8 - Z.of_nat i * 8 else Z.of_nat i * 8))) ;;
      store_bytes st big n addr val i
  end.

Fixpoint helper_st (fuel : nat) (big : bool) (n : nat) (addr val : Z) (mmu_idx : nat) (retaddr : Z) : PIO unit :=
  let index := tlb_index addr in
  tlb_addr ← lookup_tlb addr_write addr mmu_idx;
  let unaligned :=
    match fuel with
    | O => halt OutOfFuel
    | S fuel => store_bytes (λ a v, helper_st fuel false 1 a v mmu_idx retaddr) big n addr val n
    end in
  if cbool (page_offset tlb_addr) then
    if negb (is_aligned n addr) then unaligned
    else
      ioaddr ← get_iotlb mmu_idx index;
      io_write n ioaddr (if big then bswap n val else val) addr retaddr
  else if spans n addr then unaligned
  else
    e ← get_tlb mmu_idx index;
    host_write (u64 (addr + addend e)) (order big (le_bytes n val)).

Definition helper_le_ld (n : nat) := helper_ld 1 false n.
Definition helper_be_ld (n : nat) := helper_ld 1 true n.
Definition helper_le_st (n : nat) := helper_st 1 false n.
Definition helper_be_st (n : nat) := helper_st 1 true n.

(** The fast path that the emulator's own accesses and the generated code take. *)
Definition cpu_ld (n : nat) (k : access_kind) (ptr : Z) (mmu_idx : nat) : PIO Z :=
  e ← get_tlb mmu_idx (tlb_index ptr);
  if negb (ADDR_READ k e =? (ptr .& (PAGE_MASK32 .| (Z.of_nat n - 1)))) then helper_le_ld n k ptr mmu_idx 0
  else bs ← host_read (u64 (ptr + addend e)) n; mret (of_le bs).

Definition cpu_st (n : nat) (ptr v : Z) (mmu_idx : nat) : PIO unit :=
  e ← get_tlb mmu_idx (tlb_index ptr);
  if negb (addr_write e =? (ptr .& (PAGE_MASK32 .| (Z.of_nat n - 1)))) then helper_le_st n ptr v mmu_idx 0
  else host_write (u64 (ptr + addend e)) (le_bytes n v).

Definition memory_region_is_unassigned (s : Sys) (mr : phys_mr) : bool :=
  negb (bool_decide (mr = io_mem_rom)) && negb (bool_decide (mr = io_mem_notdirty)) &&
  negb (region_test mr_rom_device s mr) && negb (bool_decide (mr = io_mem_watch)).

(** The RAM address of an instruction; the ARM target has no handler for code outside
    of RAM and ROM, so the emulator aborts. *)
Definition get_page_addr_code (mmu_idx : nat) (addr : Z) : PIO Z :=
  e ← get_tlb mmu_idx (tlb_index addr);
  (if negb (addr_code e =? (addr .& PAGE_MASK32)) then _ ← cpu_ld 1 ReadCode addr mmu_idx; mret () else mret ()) ;;
  pd ← get_iotlb mmu_idx (tlb_index addr);
  mr ← iotlb_to_region (pd .& (TARGET_PAGE_SIZE - 1));
  s ← get;
  when (memory_region_is_unassigned s mr) (halt HwError) ;;
  e ← get_tlb mmu_idx (tlb_index addr);
  found ← on_ram (qemu_ram_addr_from_host (u64 (addr + addend e)));
  match found with Some (_, ram_addr) => mret ram_addr | None => halt HwError end.

End Walk.

End Mmu.
