(* ===== verification/Tlbspec.v ===== *)
(** * The table is a view of memory

    The invariant of the software TLB ([Softmmu]): an entry is blank, leads to the RAM of
    its page, or sends accesses to the region of the page, and an entry through which
    stores go straight to host memory is for a page all of whose dirty bits are set.
    Every operation keeps it, loads and stores of the guest are loads and stores of
    physical memory, and a store to a page with code tells the code cache. *)

From stdpp Require Import gmap list.
From S2P Require Import Prelude Memory Flatview Memaccess Memregion Physmap Dispatch Bitmap Ramblock Physio Softmmu.
Open Scope Z_scope.

(** ** Pages and flags *)

(** The address of a page. *)
Definition page_addr (v : Z) : Prop := 0 <= v < 2 ^ 32 /\ v mod 1024 = 0.

Lemma page32 a : 0 <= a < 2 ^ 32 -> a .& PAGE_MASK32 = a / 1024 * 1024.
Proof.
  intros Ha. change PAGE_MASK32 with (Z.ldiff (Z.ones 32) (Z.ones 10)). trans (Z.ldiff a (Z.ones 10)).
  - apply Z.bits_inj'. intros i Hi. rewrite Z.land_spec, !Z.ldiff_spec, !testbit_ones by lia.
    destruct (Z.ltb_spec i 32); [by rewrite andb_true_l |]. by rewrite (testbit_high 32 a) by lia.
  - rewrite Z.ldiff_ones_r, Z.shiftl_mul_pow2, Z.shiftr_div_pow2 by lia. done.
Qed.

Lemma page_of_page a : 0 <= a < 2 ^ 32 -> page_addr (a / 1024 * 1024).
Proof.
  intros Ha. pose proof (Z.div_mod a 1024). pose proof (Z.mod_pos_bound a 1024). split; [lia | apply Z_mod_mult].
Qed.

Lemma page_offset_mod a : page_offset a = a mod 1024.
Proof. unfold page_offset. change (TARGET_PAGE_SIZE - 1) with (Z.ones 10). by rewrite Z.land_ones. Qed.

(** The flags of an entry. *)
Definition flag (f : Z) : Prop := f = 0 \/ f = TLB_NOTDIRTY \/ f = TLB_MMIO.

Lemma page_shift v : page_addr v -> v = (v / 1024) << 10 /\ 0 <= v / 1024 < 2 ^ 22.
Proof.
  intros [Hv Hm]. pose proof (Z.div_mod v 1024). rewrite Z.shiftl_mul_pow2 by lia. change (2 ^ 10) with 1024. lia.
Qed.

Lemma flag_range f : flag f -> 0 <= f <= 32.
Proof. intros [-> | [-> | ->]]; vm_compute; split; discriminate. Qed.

(** A number below the size of a page beside the address of a page. *)
Lemma or_low q c : 0 <= c < 1024 -> (q << 10) .| c = (q << 10) + c.
Proof.
  intros Hc. rewrite <- Z.lxor_lor, <- Z.add_nocarry_lxor; [done | |];
    apply Z.bits_inj'; intros i Hi; rewrite Z.land_spec, testbit_shiftl, Z.testbit_0_l by lia;
    (destruct (Z.leb_spec 10 i) as [H10 |]; [| done]); rewrite (testbit_high 10 c) by lia; apply andb_false_r.
Qed.

Lemma or_flag v f : page_addr v -> flag f -> v .| f = v + f.
Proof. intros Hv Hf. destruct (page_shift v Hv) as [-> _]. apply or_low. pose proof (flag_range f Hf). lia. Qed.

(** The page of an address that carries a flag. *)
Lemma flag_page v f : page_addr v -> flag f -> (v .| f) .& (PAGE_MASK32 .| TLB_INVALID_MASK) = v.
Proof.
  intros Hv Hf. destruct (page_shift v Hv) as [He Hq]. rewrite He. generalize dependent (v / 1024). intros q _ Hq.
  apply (bits_eq_upto 32); [lia | | |].
  - apply land_bound; [lia |]. vm_compute. split; [discriminate | done].
  - rewrite Z.shiftl_mul_pow2 by lia. lia.
  - intros i Hi. rewrite Z.land_spec, Z.lor_spec, testbit_shiftl by lia.
    destruct (Z.leb_spec 10 i) as [H10 | H10].
    + rewrite (testbit_high 10 f) by (pose proof (flag_range f Hf); lia). rewrite orb_false_r.
      assert (Hm : Z.testbit (PAGE_MASK32 .| TLB_INVALID_MASK) i = true); [| by rewrite Hm, andb_true_r].
      change (PAGE_MASK32 .| TLB_INVALID_MASK) with (((Z.ones 22) << 10) .| 8). rewrite Z.lor_spec, testbit_shiftl, testbit_ones by lia.
      by rewrite (proj2 (Z.leb_le 10 i)), (proj2 (Z.ltb_lt (i - 10) 22)) by lia.
    + cbn [orb andb]. assert (Hc : i = 0 \/ i = 1 \/ i = 2 \/ i = 3 \/ i = 4 \/ i = 5 \/ i = 6 \/ i = 7 \/ i = 8 \/ i = 9) by lia.
      destruct Hf as [-> | [-> | ->]]; repeat (destruct Hc as [-> | Hc]; [done |]); by subst i.
Qed.

Lemma same_page a v f : 0 <= a < 2 ^ 32 -> page_addr v -> flag f -> other_page a (v .| f) = negb (a / 1024 * 1024 =? v).
Proof. intros Ha Hv Hf. unfold other_page. by rewrite page32, flag_page. Qed.

Lemma blank_page a : 0 <= a < 2 ^ 32 -> other_page a (2 ^ 32 - 1) = true.
Proof.
  intros Ha. unfold other_page. rewrite page32 by done. change ((2 ^ 32 - 1) .& (PAGE_MASK32 .| TLB_INVALID_MASK)) with (4194303 * 1024 + 8).
  apply negb_true_iff, Z.eqb_neq. lia.
Qed.

Lemma flag_offset v f : page_addr v -> flag f -> page_offset (v .| f) = f.
Proof.
  intros Hv Hf. rewrite or_flag, page_offset_mod by done. destruct Hv as [_ Hm]. pose proof (flag_range f Hf).
  rewrite Zplus_mod, Hm, Z.add_0_l, Zmod_mod. apply Z.mod_small. lia.
Qed.

Lemma dirty_flag v f e : page_addr v -> flag f -> addr_write e = v .| f -> tlb_is_dirty_ram e = (f =? 0).
Proof.
  intros Hv Hf He. unfold tlb_is_dirty_ram. rewrite He. apply eq_true_iff_eq. rewrite !Z.eqb_eq.
  change (TLB_INVALID_MASK .| TLB_MMIO .| TLB_NOTDIRTY) with 56.
  assert (Hl : (v .| f) .& 56 = f .& 56).
  { destruct (page_shift v Hv) as [-> _]. apply Z.bits_inj'. intros i Hi. rewrite !Z.land_spec, Z.lor_spec, testbit_shiftl by lia.
    destruct (Z.leb_spec 10 i); [| done]. by rewrite (testbit_high 10 56), !andb_false_r by lia. }
  rewrite Hl. by destruct Hf as [-> | [-> | ->]].
Qed.

Lemma tlb_index_page a : 0 <= a < 2 ^ 32 -> tlb_index a = tlb_index (a / 1024 * 1024) /\ (tlb_index a < 256)%nat.
Proof.
  intros Ha. unfold tlb_index. rewrite !page_div, Z.div_mul by lia. split; [done |].
  change (CPU_TLB_SIZE - 1) with (Z.ones 8). rewrite Z.land_ones by lia. pose proof (Z.mod_pos_bound (a / 1024) (2 ^ 8)). lia.
Qed.

Section Tlb.
  Context {E D : Type}.

Notation Sys := (memsys (cpu_mmu D)).
Notation PIO := (M (phys_event (mmu_event E)) Sys).
Implicit Types (s : Sys) (b : RAMBlock) (e : CPUTLBEntry).

Context (dev_ops : nat → region_ops (phys_event (mmu_event E)) Sys) (ram_addr : nat → Z) (unassigned : Z → bool → Z → PIO unit).
Context (tb_fast : Z → Z → PIO unit) (walk : Z → option (Z * Z * Z)).

(** ** The page of an address *)

(** Looking up a page for the table, in any state with this map. *)
Definition page_lookup (s : Sys) (v k : Z) (sec : PhysSection) (xlat : Z) : Prop :=
  (v' ← address_space_lookup_region v false;
   '(section, x, plen) ← address_space_translate_internal (region_size_of s) v TARGET_PAGE_SIZE false;
   mret (v', section, x, plen) : PM (Z * PhysSection * Z * Z)) (ms_dispatch s) =
  Done (k, sec, xlat, TARGET_PAGE_SIZE) (ms_dispatch s) [].

(** A page of RAM at [off] in the block [b] of the region [r]; [ro] if it is write
    protected. *)
Record ram_page (s : Sys) (v : Z) (r : nat) (off : Z) (b : RAMBlock) (ro : bool) : Prop := {
  rp_addr : page_addr v;
  rp_lookup : exists k sec, page_lookup s v k sec off /\ ps_mr sec = RegionMr r /\ ps_readonly sec = ro;
  rp_ram : region_test memory_region_is_ram s (RegionMr r) = true;
  rp_romd : region_test memory_region_is_romd s (RegionMr r) = false;
  rp_block : b ∈ blocks (ms_ram s);
  rp_start : ram_addr r = rb_offset b;
  rp_range : 0 <= off /\ off mod 1024 = 0 /\ off + 1024 <= rb_length b;
  rp_host : 0 <= rb_host b /\ rb_host b + rb_length b <= 2 ^ 64
}.

(** States with the same map of the memory. *)
Definition same_map (s s' : Sys) : Prop :=
  ms_dispatch s' = ms_dispatch s /\ ms_regions s' = ms_regions s /\ blocks (ms_ram s') = blocks (ms_ram s).

Lemma same_map_refl s : same_map s s.
Proof. done. Qed.

Lemma same_map_trans s1 s2 s3 : same_map s1 s2 -> same_map s2 s3 -> same_map s1 s3.
Proof. unfold same_map. intros (-> & -> & ->). done. Qed.

Lemma same_map_sym s s' : same_map s s' -> same_map s' s.
Proof. unfold same_map. by intros (-> & -> & ->). Qed.

Lemma ram_page_map s s' v r off b ro : same_map s s' -> ram_page s v r off b ro -> ram_page s' v r off b ro.
Proof.
  intros (Hd & Hr & Hb) [Ha (k & sec & Hl & Hs) Hram Hromd Hbl Hst Hrg Hh]. constructor; try done.
  - exists k, sec. split; [| done]. unfold page_lookup, region_size_of in *. by rewrite Hd, Hr.
  - by unfold region_test in *; rewrite Hr.
  - by unfold region_test in *; rewrite Hr.
  - by rewrite Hb.
Qed.

(** A page that is neither RAM nor a ROM device in its readable mode. *)
Record io_page (s : Sys) (v k xlat : Z) : Prop := {
  ip_addr : page_addr v;
  ip_lookup : exists sec, page_lookup s v k sec xlat /\
    region_test memory_region_is_ram s (ps_mr sec) = false /\ region_test memory_region_is_romd s (ps_mr sec) = false
}.

Lemma io_page_map s s' v k xlat : same_map s s' -> io_page s v k xlat -> io_page s' v k xlat.
Proof.
  intros (Hd & Hr & Hb) [Ha (sec & Hl & H1 & H2)]. constructor; [done |]. exists sec.
  unfold page_lookup, region_size_of, region_test in *. by rewrite Hd, Hr.
Qed.

(** The RAM address and the host address of the page. *)
Notation ra b off := (rb_offset b + off).
Notation hp b off := (rb_host b + off).

Lemma ram_page_range s v r off b ro : ram_ok (ms_ram s) -> ram_page s v r off b ro ->
  0 <= ra b off /\ ra b off mod 1024 = 0 /\ ra b off + 1024 <= last_ram_offset (ms_ram s) /\ ra b off < 2 ^ 63 + 2 ^ 63 - 1024 /\
  0 <= hp b off /\ hp b off + 1024 <= 2 ^ 64.
Proof.
  intros Hok [_ _ _ _ Hb _ (H1 & H2 & H3) Hh]. pose proof (wf_lookup _ b Hok Hb) as (W1 & W2 & W3 & W4 & W5).
  pose proof (last_ram_bound _ b Hok Hb). unfold RAM_ADDR_MAX in W3. split; [lia |]. split; [by rewrite Zplus_mod, W4, H2 |]. lia.
Qed.

(** A page has one place. *)
Lemma ram_page_unique s v r r' off off' b b' ro ro' :
  ram_ok (ms_ram s) -> ram_page s v r off b ro -> ram_page s v r' off' b' ro' -> r = r' /\ off = off' /\ b = b' /\ ro = ro'.
Proof.
  intros Hok [Ha (k & sec & Hl & Hm & Hro) _ _ Hb Hst _ _] [_ (k' & sec' & Hl' & Hm' & Hro') _ _ Hb' Hst' _ _].
  unfold page_lookup in *. rewrite Hl in Hl'. injection Hl' as _ Hsec Hoff. subst sec' off'.
  rewrite Hm in Hm'. injection Hm' as Hr. subst r'. split; [done |]. split; [done |]. split; [| congruence].
  apply (inside_unique (ms_ram s) _ _ (rb_offset b)); [done | done | done | |]; unfold inside.
  - pose proof (wf_lookup _ b Hok Hb) as (_ & W2 & _). lia.
  - pose proof (wf_lookup _ b' Hok Hb') as (_ & W2 & _). lia.
Qed.

Lemma ram_not_io s v r off b ro k xlat : ram_page s v r off b ro -> io_page s v k xlat -> False.
Proof.
  intros [_ (k1 & sec & Hl & Hm & _) Hram _ _ _ _ _] [_ (sec' & Hl' & Hn & _)]. unfold page_lookup in *. rewrite Hl in Hl'.
  injection Hl' as _ <- _. by rewrite Hm, Hram in Hn.
Qed.

(** ** The invariant *)

(** The entry of a page of RAM: stores go through [wr]. *)
Definition ram_entry (v hp wr : Z) : CPUTLBEntry := mkTlb v wr v (u64 (hp - v)).
Definition ram_iotlb (v ra : Z) (ro : bool) : Z := u64 ((ra .| (if negb ro then PHYS_SECTION_NOTDIRTY else PHYS_SECTION_ROM)) - v).

Definition io_entry (v : Z) : CPUTLBEntry := mkTlb (v .| TLB_MMIO) (v .| TLB_MMIO) (v .| TLB_MMIO) (u64 (0 - v)).

(** How stores to a page of RAM go: straight to host memory only if all the dirty bits
    of the page are set. *)
Definition write_flag (s : Sys) (ra : Z) (ro : bool) (f : Z) : Prop :=
  if ro then f = TLB_MMIO else f = TLB_NOTDIRTY \/ (f = 0 /\ clean_page (ms_ram s) (ra / 1024) = false).

Inductive entry_ok (s : Sys) (i : nat) (e : CPUTLBEntry) (io : Z) : Prop :=
  | entry_blank : e = tlb_blank -> entry_ok s i e io
  | entry_ram v r off b ro f :
      ram_page s v r off b ro -> i = tlb_index v -> flag f -> write_flag s (ra b off) ro f ->
      e = ram_entry v (hp b off) (v .| f) -> io = ram_iotlb v (ra b off) ro -> entry_ok s i e io
  | entry_io v k xlat :
      io_page s v k xlat -> i = tlb_index v -> e = io_entry v -> io = u64 (u64 (k + xlat) - v) -> entry_ok s i e io.

Record mmu_ok (s : Sys) : Prop := {
  mo_ram : ram_ok (ms_ram s);
  mo_host : host_ok (blocks (ms_ram s));
  mo_off : c1_sys (mmu s) .& SCTLR_M = 0 /\ c13_fcse (mmu s) = 0;
  mo_sections : exists sec1 sec2, sections (ms_dispatch s) !! 1%nat = Some sec1 /\ ps_mr sec1 = io_mem_notdirty /\
    sections (ms_dispatch s) !! 2%nat = Some sec2 /\ ps_mr sec2 = io_mem_rom;
  mo_entries : forall m i, (m < 2)%nat -> (i < 256)%nat ->
    exists e io, tlb_at (mmu s) m i = Some e /\ iotlb_at (mmu s) m i = Some io /\ entry_ok s i e io
}.

(** Dirty bits that are set stay set. *)
Definition keeps_dirty (s s' : Sys) : Prop := forall p, 0 <= p < last_ram_offset (ms_ram s) / 1024 -> clean_page (ms_ram s) p = false -> clean_page (ms_ram s') p = false.

Lemma ram_page_number s v r off b ro : ram_ok (ms_ram s) -> ram_page s v r off b ro -> 0 <= ra b off / 1024 < last_ram_offset (ms_ram s) / 1024.
Proof.
  intros Hok Hp. destruct (ram_page_range _ _ _ _ _ _ Hok Hp) as (H1 & H2 & H3 & _). destruct (last_ram_page _ Hok) as [H4 _].
  pose proof (Z.div_mod (ra b off) 1024). pose proof (Z.div_mod (last_ram_offset (ms_ram s)) 1024). lia.
Qed.

Lemma entry_ok_keep s s' i e io : ram_ok (ms_ram s) -> same_map s s' -> keeps_dirty s s' -> entry_ok s i e io -> entry_ok s' i e io.
Proof.
  intros Hok Hm Hd [He | v r off b ro f Hp Hi Hf Hw He Hio | v k xlat Hp Hi He Hio].
  - by apply entry_blank.
  - apply (entry_ram _ _ _ _ v r off b ro f); [by apply (ram_page_map s) | done | done | | done | done].
    unfold write_flag in *. destruct ro; [done |]. destruct Hw as [| [-> Hc]]; [by left | right; split; [done |]; apply Hd; [exact (ram_page_number _ _ _ _ _ _ Hok Hp) | done]].
  - apply (entry_io _ _ _ _ v k xlat); [by apply (io_page_map s) | done | done | done].
Qed.

(** What may change around the table without touching the invariant. *)
Record calm (s s' : Sys) : Prop := {
  cl_map : same_map s s';
  cl_ram : ram_ok (ms_ram s');
  cl_dirty : keeps_dirty s s';
  cl_table : tlb_table (mmu s') = tlb_table (mmu s);
  cl_iotlb : iotlb (mmu s') = iotlb (mmu s);
  cl_off : c1_sys (mmu s') = c1_sys (mmu s) /\ c13_fcse (mmu s') = c13_fcse (mmu s)
}.

Lemma calm_ok s s' : mmu_ok s -> calm s s' -> mmu_ok s'.
Proof.
  intros [Hr Hh Ho Hs He] [(Hd & Hrg & Hb) Hr' Hdk Ht Hio [Hc1 Hc2]]. constructor; [done | by rewrite Hb | by rewrite Hc1, Hc2 | by rewrite Hd |].
  intros m i Hm Hi. destruct (He m i Hm Hi) as (e & io & H1 & H2 & H3). exists e, io. unfold tlb_at, iotlb_at in *. rewrite Ht, Hio.
  split; [done |]. split; [done |]. by apply (entry_ok_keep s).
Qed.

(** Setting dirty bits keeps them. *)
Lemma dirtied_keeps cs start n r r' p :
  dirtied cs start n r r' -> 0 <= p < last_ram_offset r / 1024 -> clean_page r p = false -> clean_page r' p = false.
Proof.
  intros (_ & _ & Hd) Hp. unfold clean_page. rewrite !negb_false_iff, !andb_true_iff. intros [[H0 H1] H2].
  by rewrite !Hd, H0, H1, H2, !orb_true_r by lia.
Qed.

(** ** Changing entries *)

Lemma tlb_at_alter (f : CPUTLBEntry → CPUTLBEntry) m i (c : cpu_mmu D) m' i' :
  tlb_at (alter_tlb f m i c) m' i' = if bool_decide (m' = m /\ i' = i) then f <$> tlb_at c m' i' else tlb_at c m' i'.
Proof.
  unfold tlb_at, alter_tlb. cbn. destruct (decide (m' = m)) as [-> | Hm].
  - rewrite list_lookup_alter_eq. destruct (tlb_table c !! m) as [l |]; [| cbn; by destruct (bool_decide _)]. cbn.
    destruct (decide (i' = i)) as [-> | Hi].
    + by rewrite list_lookup_alter_eq, bool_decide_eq_true_2.
    + rewrite list_lookup_alter_ne by done. rewrite bool_decide_eq_false_2; [done | by intros [_ ?]].
  - rewrite list_lookup_alter_ne by done. rewrite bool_decide_eq_false_2; [done | by intros [? _]].
Qed.

Lemma iotlb_at_set v m i (c : cpu_mmu D) m' i' :
  iotlb_at (set_iotlb v m i c) m' i' = if bool_decide (m' = m /\ i' = i) then (λ _, v) <$> iotlb_at c m' i' else iotlb_at c m' i'.
Proof.
  unfold iotlb_at, set_iotlb. cbn. destruct (decide (m' = m)) as [-> | Hm].
  - rewrite list_lookup_alter_eq. destruct (iotlb c !! m) as [l |]; [| cbn; by destruct (bool_decide _)]. cbn.
    destruct (decide (i' = i)) as [-> | Hi].
    + rewrite bool_decide_eq_true_2 by done. destruct (decide (i < length l)%nat) as [Hl | Hl].
      * rewrite list_lookup_insert_eq by done. by destruct (lookup_lt_is_Some_2 l i Hl) as [x ->].
      * by rewrite !lookup_ge_None_2 by (rewrite ?length_insert; lia).
    + rewrite list_lookup_insert_ne by done. rewrite bool_decide_eq_false_2; [done | by intros [_ ?]].
  - rewrite list_lookup_alter_ne by done. rewrite bool_decide_eq_false_2; [done | by intros [? _]].
Qed.

(** A new table whose entries are right. *)
Definition with_mmu s (c : cpu_mmu D) : Sys := s <| ms_devices := c |>.

Lemma with_mmu_entry s c i e io : ram_ok (ms_ram s) -> entry_ok s i e io -> entry_ok (with_mmu s c) i e io.
Proof. intros Hok. apply entry_ok_keep; [done | done | by intros p]. Qed.

Lemma table_update_ok s c :
  mmu_ok s -> c1_sys c = c1_sys (mmu s) -> c13_fcse c = c13_fcse (mmu s) ->
  (forall m i e io, (m < 2)%nat -> (i < 256)%nat -> tlb_at (mmu s) m i = Some e -> iotlb_at (mmu s) m i = Some io -> entry_ok s i e io ->
     exists e' io', tlb_at c m i = Some e' /\ iotlb_at c m i = Some io' /\ entry_ok s i e' io') ->
  mmu_ok (with_mmu s c).
Proof.
  intros [Hr Hh Ho Hs He] H1 H2 Hstep. constructor; [done | done | by cbn; rewrite H1, H2 | done |].
  intros m i Hm Hi. destruct (He m i Hm Hi) as (e & io & Ht & Hio & Hok).
  destruct (Hstep m i e io Hm Hi Ht Hio Hok) as (e' & io' & Ht' & Hio' & Hok'). exists e', io'. split; [done |]. split; [done |].
  by apply with_mmu_entry.
Qed.

(** All entries of the table are changed in the same way. *)
Lemma map_ok s (f : CPUTLBEntry → CPUTLBEntry) c :
  mmu_ok s -> c1_sys c = c1_sys (mmu s) -> c13_fcse c = c13_fcse (mmu s) ->
  tlb_table c = (λ l : list CPUTLBEntry, f <$> l) <$> tlb_table (mmu s) -> iotlb c = iotlb (mmu s) ->
  (forall i e io, entry_ok s i e io -> entry_ok s i (f e) io) -> mmu_ok (with_mmu s c).
Proof.
  intros Hok H1 H2 Ht Hio Hf. apply table_update_ok; [done | done | done |]. intros m i e io Hm Hi He Hi0 Hok'. exists (f e), io.
  unfold tlb_at, iotlb_at in *. rewrite Ht, Hio, list_lookup_fmap. destruct (tlb_table (mmu s) !! m) as [l |]; [| done]. cbn in He |- *.
  rewrite list_lookup_fmap, He. split; [done |]. split; [done |]. by apply Hf.
Qed.

Lemma flush_run s : mmu_ok s -> exists s', (tlb_flush : PIO unit) s = Done () s' [DeviceEvent FlushJmpCache] /\ mmu_ok s' /\ same_map s s' /\
  ms_ram s' = ms_ram s /\ ms_host s' = ms_host s.
Proof.
  intros Hok. eexists. split; [reflexivity |]. split; [| done].
  apply (map_ok s (λ _, tlb_blank)); [done | done | done | done | done |]. intros i e io _. by apply entry_blank.
Qed.

(** The entries at an index, in both modes, are changed in the same way. *)
Lemma modes_ok s (f : CPUTLBEntry → CPUTLBEntry) i0 :
  mmu_ok s -> (forall e io, entry_ok s i0 e io -> entry_ok s i0 (f e) io) ->
  mmu_ok (with_mmu s (each_mode (λ m, alter_tlb f m i0) (mmu s))).
Proof.
  intros Hok Hf. apply table_update_ok; [done | done | done |]. intros m i e io Hm Hi He Hio He_ok.
  assert (Hat : tlb_at (each_mode (λ m, alter_tlb f m i0) (mmu s)) m i = if bool_decide (i = i0) then Some (f e) else Some e).
  { unfold each_mode. rewrite !tlb_at_alter, He. assert (Hc : m = 0%nat \/ m = 1%nat) by lia.
    destruct (decide (i = i0)) as [-> | Hne].
    - rewrite (bool_decide_eq_true_2 (i0 = i0)) by done. destruct Hc as [-> | ->].
      + rewrite bool_decide_eq_false_2 by (by intros [? _]). by rewrite bool_decide_eq_true_2.
      + rewrite bool_decide_eq_true_2 by done. by rewrite bool_decide_eq_false_2 by (by intros [? _]).
    - rewrite !bool_decide_eq_false_2; [done | done | by intros [_ ?] | by intros [_ ?]]. }
  exists (if bool_decide (i = i0) then f e else e), io. split; [rewrite Hat; by case_bool_decide |]. split; [exact Hio |].
  case_bool_decide as Hi0; [| done]. subst i0. by apply Hf.
Qed.

Lemma flush_page_run s addr : mmu_ok s ->
  exists s' t, (tlb_flush_page addr : PIO unit) s = Done () s' t /\ mmu_ok s' /\ same_map s s' /\ ms_ram s' = ms_ram s /\ ms_host s' = ms_host s.
Proof.
  intros Hok. unfold tlb_flush_page. rewrite bind_get. destruct (_ =? _).
  - destruct (flush_run s Hok) as (s' & Hrun & H). by exists s', [DeviceEvent FlushJmpCache].
  - eexists _, _. split; [reflexivity |]. split; [| done]. apply modes_ok; [done |]. intros e io He. unfold tlb_flush_entry.
    destruct (_ || _); [by apply entry_blank | done].
Qed.

(** ** Entering a page of RAM *)

Lemma mru_calm s b : mmu_ok s -> b ∈ blocks (ms_ram s) -> calm s (read_state s b).
Proof. intros [Hr _ _ _ _] Hb. constructor; [done | by apply ram_ok_mru | by intros p | done | done | done]. Qed.

Lemma calm_trans s1 s2 s3 : calm s1 s2 -> calm s2 s3 -> calm s1 s3.
Proof.
  intros [A1 A2 A3 A4 A5 [A6 A7]] [B1 B2 B3 B4 B5 [B6 B7]]. constructor; [by eapply same_map_trans | done | | congruence | congruence | split; congruence].
  intros p Hp Hc. apply B3; [| by apply A3]. unfold last_ram_offset in *. by rewrite (proj2 (proj2 A1)).
Qed.

Lemma calm_refl s : mmu_ok s -> calm s s.
Proof. intros [Hr _ _ _ _]. constructor; try done. by intros p. Qed.

(** What was seen of the table and is left alone otherwise. *)
Record at_page (s s' : Sys) (v : Z) (b : RAMBlock) (off : Z) (ro : bool) (m : nat) (f : Z) : Prop := {
  ap_ok : mmu_ok s';
  ap_map : same_map s s';
  ap_host : ms_host s' = ms_host s;
  ap_dirty : dirty_memory (ms_ram s') = dirty_memory (ms_ram s);
  ap_flag : flag f;
  ap_write : write_flag s' (ra b off) ro f;
  ap_tlb : tlb_at (mmu s') m (tlb_index v) = Some (ram_entry v (hp b off) (v .| f));
  ap_iotlb : iotlb_at (mmu s') m (tlb_index v) = Some (ram_iotlb v (ra b off) ro)
}.

Lemma for_iotlb_run s v k sec off : page_lookup s v k sec off ->
  (address_space_translate_for_iotlb v TARGET_PAGE_SIZE : PIO _) s = Done (k, sec, off, TARGET_PAGE_SIZE) s [].
Proof.
  intros Hl. unfold address_space_translate_for_iotlb. rewrite bind_get. unfold on_dispatch. rewrite Hl. by destruct s.
Qed.

(** The entry that the table gets. *)
Definition enter_page s (m i : nat) (e : CPUTLBEntry) (io : Z) : Sys :=
  with_mmu s (alter_tlb (λ _, e) m i (set_iotlb io m i (mmu s))).

Lemma enter_page_ok s m i e io : mmu_ok s -> (m < 2)%nat -> (i < 256)%nat -> entry_ok s i e io ->
  mmu_ok (enter_page s m i e io) /\ tlb_at (mmu (enter_page s m i e io)) m i = Some e /\ iotlb_at (mmu (enter_page s m i e io)) m i = Some io.
Proof.
  intros Hok Hm Hi He. split; [| split].
  - apply table_update_ok; [done | done | done |]. intros m' i' e' io' Hm' Hi' Ht Hio He'.
    change (tlb_at (alter_tlb (λ _, e) m i (set_iotlb io m i (mmu s))) m' i') with (tlb_at (alter_tlb (λ _, e) m i (mmu s)) m' i').
    change (iotlb_at (alter_tlb (λ _, e) m i (set_iotlb io m i (mmu s))) m' i') with (iotlb_at (set_iotlb io m i (mmu s)) m' i').
    rewrite tlb_at_alter, iotlb_at_set, Ht, Hio. case_bool_decide as Hc; [| by exists e', io'].
    destruct Hc as [-> ->]. by exists e, io.
  - destruct (mo_entries _ Hok m i Hm Hi) as (e0 & io0 & H1 & H2 & _).
    change (mmu (enter_page s m i e io)) with (alter_tlb (λ _, e) m i (set_iotlb io m i (mmu s))).
    change (tlb_at (alter_tlb (λ _, e) m i (set_iotlb io m i (mmu s))) m i) with (tlb_at (alter_tlb (λ _, e) m i (mmu s)) m i).
    by rewrite tlb_at_alter, H1, bool_decide_eq_true_2.
  - destruct (mo_entries _ Hok m i Hm Hi) as (e0 & io0 & H1 & H2 & _).
    change (iotlb_at (mmu (enter_page s m i e io)) m i) with (iotlb_at (set_iotlb io m i (mmu s)) m i).
    by rewrite iotlb_at_set, H2, bool_decide_eq_true_2.
Qed.

Lemma region_ptr_run s v r off b ro : mmu_ok s -> ram_page s v r off b ro ->
  (memory_region_get_ram_ptr ram_addr (RegionMr r) : PIO Z) s = Done (rb_host b) (read_state s b) [].
Proof.
  intros [Hr _ _ _ _] Hp. pose proof (wf_lookup _ b Hr (rp_block _ _ _ _ _ _ Hp)) as (W1 & W2 & W3 & W4 & _). unfold RAM_ADDR_MAX in W3.
  destruct Hp as [_ _ _ _ Hb Hst _ Hh]. unfold memory_region_get_ram_ptr. cbn [memory_region_get_ram_addr]. rewrite Hst, page_base by lia.
  replace (rb_offset b / 1024 * 1024) with (rb_offset b) by (pose proof (Z.div_mod (rb_offset b) 1024); lia).
  assert (Hi : inside b (rb_offset b)) by (unfold inside; lia).
  rewrite (on_ram_run _ _ _ _ _ (get_ram_ptr_run _ b _ Hr Hb Hi)). by rewrite Z.sub_diag, Z.add_0_r, u64_small by lia.
Qed.

Lemma page_masked_ram s v r off b ro : ram_ok (ms_ram s) -> ram_page s v r off b ro ->
  memory_region_get_ram_addr ram_addr (RegionMr r) .& TARGET_PAGE_MASK = rb_offset b.
Proof.
  intros Hr Hp. pose proof (wf_lookup _ b Hr (rp_block _ _ _ _ _ _ Hp)) as (W1 & W2 & W3 & W4 & _). unfold RAM_ADDR_MAX in W3.
  cbn [memory_region_get_ram_addr]. rewrite (rp_start _ _ _ _ _ _ Hp), page_base by lia. pose proof (Z.div_mod (rb_offset b) 1024). lia.
Qed.

Notation RWX := (PAGE_READ .| PAGE_WRITE .| PAGE_EXEC).

Lemma set_page_ram s v r off b ro m : mmu_ok s -> ram_page s v r off b ro -> (m < 2)%nat ->
  exists s' f, (tlb_set_page ram_addr v v RWX m TARGET_PAGE_SIZE : PIO unit) s = Done () s' [] /\ at_page s s' v b off ro m f.
Proof.
  intros Hok Hp Hm. pose proof (mo_ram _ Hok) as Hr. destruct (ram_page_range _ _ _ _ _ _ Hr Hp) as (R1 & R2 & R3 & R4 & R5 & R6).
  pose proof (rp_lookup _ _ _ _ _ _ Hp) as (k & sec & Hl & Hsm & Hsr). pose proof (rp_range _ _ _ _ _ _ Hp) as (O1 & O2 & O3).
  set (s1 := read_state s b). pose proof (mru_calm s b Hok (rp_block _ _ _ _ _ _ Hp)) as Hcalm. fold s1 in Hcalm.
  pose proof (calm_ok _ _ Hok Hcalm) as Hok1. pose proof (ram_page_map _ _ _ _ _ _ _ (cl_map _ _ Hcalm) Hp) as Hp1.
  set (f := if ro then TLB_MMIO else if clean_page (ms_ram s) (ra b off / 1024) then TLB_NOTDIRTY else 0).
  assert (Hf : flag f) by (unfold f; destruct ro; [by right; right |]; destruct (clean_page _ _); [by right; left | by left]).
  assert (Hw : write_flag s1 (ra b off) ro f).
  { unfold f, write_flag. destruct ro; [done |]. destruct (clean_page (ms_ram s) _) eqn:Hc; [by left | by right]. }
  set (e := ram_entry v (hp b off) (v .| f)). set (io := ram_iotlb v (ra b off) ro).
  exists (enter_page s1 m (tlb_index v) e io), f. destruct (tlb_index_page v (proj1 (rp_addr _ _ _ _ _ _ Hp))) as [_ Hi].
  destruct (enter_page_ok s1 m (tlb_index v) e io Hok1 Hm Hi) as (Ho2 & Ht2 & Hi2).
  { by apply (entry_ram _ _ _ _ v r off b ro f). }
  split; [| by constructor; try done; apply (same_map_trans s s1)].
  unfold tlb_set_page. change (TARGET_PAGE_SIZE <=? TARGET_PAGE_SIZE) with true. change (TARGET_PAGE_SIZE =? TARGET_PAGE_SIZE) with true.
  cbn [assert_ negb when]. rewrite (bind_Done (mret ()) _ _ _ _ eq_refl), (bind_Done (mret ()) _ _ _ _ eq_refl).
  rewrite (bind_Done _ _ _ _ _ (for_iotlb_run _ _ _ _ _ Hl)). change (TARGET_PAGE_SIZE <=? TARGET_PAGE_SIZE) with true. cbn [assert_].
  rewrite (bind_Done (mret ()) _ _ _ _ eq_refl), bind_get, Hsm, (rp_ram _ _ _ _ _ _ Hp), (rp_romd _ _ _ _ _ _ Hp). cbn [negb andb orb].
  rewrite bind_assoc, (bind_Done _ _ _ _ _ (region_ptr_run _ _ _ _ _ _ Hok Hp)). fold s1. rewrite (bind_Done (mret _) _ _ _ _ eq_refl), bind_get.
  change (cbool (RWX .& PAGE_WRITE)) with true. change (cbool (RWX .& PAGE_READ)) with true. change (cbool (RWX .& PAGE_EXEC)) with true. cbv iota.
  unfold memory_region_section_get_iotlb. rewrite Hsm, (rp_ram _ _ _ _ _ _ Hp1), Hsr, (page_masked_ram s v r off b ro Hr Hp). cbn [memory_region_get_ram_addr].
  rewrite (rp_start _ _ _ _ _ _ Hp), (u64_small (ra b off)), (u64_small (hp b off)) by lia. fold (ram_iotlb v (ra b off) ro). fold io.
  assert (Hclean : on_ram (cpu_physical_memory_is_clean (ra b off)) s1 = Done (clean_page (ms_ram s) (ra b off / 1024)) s1 ([] : list (phys_event (mmu_event E)))).
  { assert (Hin : in_ram (ms_ram s1) (ra b off) 1) by (unfold in_ram; change (last_ram_offset (ms_ram s1)) with (last_ram_offset (ms_ram s)); lia).
    rewrite (on_ram_run _ _ _ _ _ (is_clean_run _ _ (mo_ram _ Hok1) Hin)).
    unfold s1. by destruct s. }
  destruct ro; cbn [orb].
  - by rewrite (bind_Done (mret _) _ _ _ _ eq_refl).
  - rewrite bind_assoc, (bind_Done _ _ _ _ _ Hclean), (bind_Done (mret _) _ _ _ _ eq_refl).
    unfold e, f. destruct (clean_page (ms_ram s) (ra b off / 1024)); [done |]. unfold enter_page, ram_entry. by rewrite Z.lor_0_r.
Qed.

Lemma set_page_io s v k xlat m : mmu_ok s -> io_page s v k xlat -> (m < 2)%nat ->
  exists s', (tlb_set_page ram_addr v v RWX m TARGET_PAGE_SIZE : PIO unit) s = Done () s' [] /\
    mmu_ok s' /\ same_map s s' /\ ms_host s' = ms_host s /\ ms_ram s' = ms_ram s /\
    tlb_at (mmu s') m (tlb_index v) = Some (io_entry v) /\ iotlb_at (mmu s') m (tlb_index v) = Some (u64 (u64 (k + xlat) - v)) /\
    cpu_outside (mmu s') = cpu_outside (mmu s).
Proof.
  intros Hok Hp Hm. pose proof Hp as [Hv (sec & Hl & Hnr & Hnd)]. destruct (tlb_index_page v (proj1 Hv)) as [_ Hi].
  destruct (enter_page_ok s m (tlb_index v) (io_entry v) (u64 (u64 (k + xlat) - v)) Hok Hm Hi) as (Ho2 & Ht2 & Hi2).
  { by apply (entry_io _ _ _ _ v k xlat). }
  exists (enter_page s m (tlb_index v) (io_entry v) (u64 (u64 (k + xlat) - v))). split; [| done].
  unfold tlb_set_page. change (TARGET_PAGE_SIZE <=? TARGET_PAGE_SIZE) with true. change (TARGET_PAGE_SIZE =? TARGET_PAGE_SIZE) with true.
  cbn [assert_ negb when]. rewrite (bind_Done (mret ()) _ _ _ _ eq_refl), (bind_Done (mret ()) _ _ _ _ eq_refl).
  rewrite (bind_Done _ _ _ _ _ (for_iotlb_run _ _ _ _ _ Hl)). change (TARGET_PAGE_SIZE <=? TARGET_PAGE_SIZE) with true. cbn [assert_].
  rewrite (bind_Done (mret ()) _ _ _ _ eq_refl), bind_get, Hnr, Hnd. cbn [negb andb orb].
  rewrite (bind_Done (mret _) _ _ _ _ eq_refl), bind_get. unfold memory_region_section_get_iotlb. rewrite Hnr.
  change (cbool (RWX .& PAGE_WRITE)) with true. change (cbool (RWX .& PAGE_READ)) with true. change (cbool (RWX .& PAGE_EXEC)) with true. cbv iota.
  by rewrite (bind_Done (mret _) _ _ _ _ eq_refl).
Qed.

(** ** Looking up a page *)

Definition page (a : Z) : Z := a / 1024 * 1024.

Lemma tlb_fill_run s a m : mmu_ok s -> 0 <= a < 2 ^ 32 ->
  (tlb_fill ram_addr walk a m : PIO unit) s = (tlb_set_page ram_addr (page a) (page a) RWX m TARGET_PAGE_SIZE ;; mret () : PIO unit) s.
Proof.
  intros Hok Ha. destruct (mo_off _ Hok) as [Hoff Hf]. unfold tlb_fill, arm_cpu_handle_mmu_fault. rewrite bind_assoc, bind_get.
  unfold get_phys_addr. rewrite Hf, Z.add_0_r, u32_small by done.
  replace (if a <? 33554432 then a else a) with a by (by destruct (a <? 33554432)). rewrite Hoff, Z.eqb_refl.
  rewrite page32, page_base by lia. rewrite bind_assoc. unfold mbind, M_bind. by destruct (tlb_set_page _ _ _ _ _ _ s) as [[] s1 t1 |].
Qed.

(** The fields of an entry. *)
Definition is_field (field : CPUTLBEntry → Z) : Prop := field = addr_read \/ field = addr_write \/ field = addr_code.

Lemma field_ram field v p f : is_field field -> flag f -> exists g, flag g /\ field (ram_entry v p (v .| f)) = v .| g.
Proof.
  intros Hfd Hf. destruct Hfd as [-> | [-> | ->]]; [exists 0 | exists f | exists 0]; cbn; (split; [first [exact Hf | by left] | by rewrite ?Z.lor_0_r]).
Qed.

Lemma get_tlb_run s m i e : tlb_at (mmu s) m i = Some e -> (get_tlb m i : PIO CPUTLBEntry) s = Done e s [].
Proof. intros He. unfold get_tlb. by rewrite bind_get, He. Qed.

Lemma get_iotlb_run s m i io : iotlb_at (mmu s) m i = Some io -> (get_iotlb m i : PIO Z) s = Done io s [].
Proof. intros He. unfold get_iotlb. by rewrite bind_get, He. Qed.

Lemma at_page_here s v r off b ro m f e io : mmu_ok s -> ram_page s v r off b ro -> flag f -> write_flag s (ra b off) ro f ->
  tlb_at (mmu s) m (tlb_index v) = Some e -> iotlb_at (mmu s) m (tlb_index v) = Some io ->
  e = ram_entry v (hp b off) (v .| f) -> io = ram_iotlb v (ra b off) ro -> at_page s s v b off ro m f.
Proof. intros. subst. by constructor. Qed.

(** The page of an address is in the table after the lookup. *)
Lemma lookup_run s a field m r off b ro : mmu_ok s -> 0 <= a < 2 ^ 32 -> (m < 2)%nat -> is_field field ->
  ram_page s (page a) r off b ro ->
  exists s' f, (lookup_tlb ram_addr walk field a m : PIO Z) s = Done (field (ram_entry (page a) (hp b off) (page a .| f))) s' [] /\
    at_page s s' (page a) b off ro m f.
Proof.
  intros Hok Ha Hm Hfd Hp. destruct (tlb_index_page a Ha) as [Hidx Hlt]. fold (page a) in Hidx.
  destruct (mo_entries _ Hok m (tlb_index a) Hm Hlt) as (e & io & He & Hio & Hent).
  unfold lookup_tlb. rewrite (bind_Done _ _ _ _ _ (get_tlb_run _ _ _ _ He)).
  destruct (other_page a (field e)) eqn:Ho.
  - destruct (set_page_ram s _ _ _ _ _ m Hok Hp Hm) as (s' & f & Hrun & Hat). exists s', f. split; [| done].
    rewrite (bind_Done _ _ s () s'); [| rewrite tlb_fill_run by done; by rewrite (bind_Done _ _ _ _ _ Hrun)].
    rewrite Hidx. by rewrite (bind_Done _ _ _ _ _ (get_tlb_run _ _ _ _ (ap_tlb _ _ _ _ _ _ _ _ Hat))).
  - exists s. destruct Hent as [-> | v r' off' b' ro' f Hp' Hi Hf Hw He' Hio' | v k xlat Hp' Hi He' _].
    + exfalso. assert (Hbl : other_page a (field tlb_blank) = true) by (destruct Hfd as [-> | [-> | ->]]; by apply blank_page). by rewrite Hbl in Ho.
    + destruct (field_ram field v (hp b' off') f Hfd Hf) as (g & Hg & Hfe). rewrite He', Hfe, same_page in Ho by (done || apply (rp_addr _ _ _ _ _ _ Hp')).
      apply negb_false_iff, Z.eqb_eq in Ho. fold (page a) in Ho. subst v.
      destruct (ram_page_unique _ _ _ _ _ _ _ _ _ _ (mo_ram _ Hok) Hp Hp') as (<- & <- & <- & <-). exists f. split; [by rewrite He' |].
      by apply (at_page_here s (page a) r off b ro m f e io); rewrite <- ?Hidx.
    + exfalso. assert (Hfe : field e = v .| TLB_MMIO) by (rewrite He'; by destruct Hfd as [-> | [-> | ->]]).
      rewrite Hfe, same_page in Ho by (done || apply (ip_addr _ _ _ _ Hp') || by right; right).
      apply negb_false_iff, Z.eqb_eq in Ho. fold (page a) in Ho. subst v. by apply (ram_not_io s (page a) r off b ro k xlat).
Qed.

(** ** Loads *)

Lemma host_addr s v r off b ro a : ram_ok (ms_ram s) -> ram_page s v r off b ro -> v = page a -> 0 <= a < 2 ^ 32 ->
  u64 (a + u64 (hp b off - v)) = hp b off + a mod 1024.
Proof.
  intros Hr Hp -> Ha. destruct (ram_page_range _ _ _ _ _ _ Hr Hp) as (_ & _ & _ & _ & H1 & H2).
  unfold u64. rewrite Zplus_mod_idemp_r. pose proof (Z.div_mod a 1024). pose proof (Z.mod_pos_bound a 1024). unfold page.
  rewrite Z.mod_small by lia. lia.
Qed.

(** A value of the guest's memory: the bytes from [o] on in the page. *)
Definition page_bytes s b off (o : Z) (n : nat) : list Z := bytes_at (ms_host s) (hp b off + o) n.

Lemma not_spans n a : a mod 1024 + Z.of_nat n <= 1024 -> spans n a = false.
Proof.
  intros Hn. unfold spans. rewrite page_offset_mod. apply andb_false_iff. right. apply Z.leb_gt. change TARGET_PAGE_SIZE with 1024. lia.
Qed.

Lemma read_field k : is_field (ADDR_READ k).
Proof. destruct k; [by left | by right; right]. Qed.

Lemma ld_in_page fuel big n k a m ret s r off b ro :
  mmu_ok s -> 0 <= a < 2 ^ 32 -> (m < 2)%nat -> ram_page s (page a) r off b ro -> a mod 1024 + Z.of_nat n <= 1024 ->
  exists s' f, (helper_ld dev_ops ram_addr unassigned tb_fast walk fuel big n k a m ret : PIO Z) s =
      Done (of_le (order big (page_bytes s b off (a mod 1024) n))) s' [] /\
    at_page s s' (page a) b off ro m f.
Proof.
  intros Hok Ha Hm Hp Hn. destruct (lookup_run s a (ADDR_READ k) m r off b ro Hok Ha Hm (read_field k) Hp) as (s' & f & Hrun & Hat).
  exists s', f. split; [| done].
  assert (Hk : ADDR_READ k (ram_entry (page a) (hp b off) (page a .| f)) = page a) by (by destruct k). rewrite Hk in Hrun.
  destruct fuel; cbn [helper_ld]; rewrite (bind_Done _ _ _ _ _ Hrun).
  all: assert (Hpo : cbool (page_offset (page a)) = false) by (rewrite page_offset_mod; unfold page; by rewrite Z_mod_mult).
  all: rewrite Hpo, not_spans by done; destruct (tlb_index_page a Ha) as [-> _]; fold (page a).
  all: rewrite (bind_Done _ _ _ _ _ (get_tlb_run _ _ _ _ (ap_tlb _ _ _ _ _ _ _ _ Hat))); cbn [addend ram_entry];
       rewrite (host_addr s _ r off b ro a (mo_ram _ Hok) Hp eq_refl Ha); unfold host_read; rewrite bind_gets, (ap_host _ _ _ _ _ _ _ _ Hat); done.
Qed.

(** Combining the two halves of an unaligned access. *)
Lemma of_le_drop d bs : Forall is_byte bs -> of_le (drop d bs) = of_le bs >> (8 * Z.of_nat d).
Proof.
  revert bs. induction d as [|d IH]; intros bs Hb; [by rewrite Z.shiftr_0_r |].
  destruct Hb as [|x bs Hx Hb]; [by rewrite Z.shiftr_0_l |]. cbn [drop]. rewrite IH by done.
  apply Z.bits_inj'. intros i Hi. rewrite !Z.shiftr_spec, of_le_bit by lia || done.
  rewrite (proj2 (Z.ltb_ge _ 8)) by lia. f_equal. lia.
Qed.

Lemma of_le_take d bs : Forall is_byte bs -> of_le (take d bs) = of_le bs mod 2 ^ (8 * Z.of_nat d).
Proof.
  intros Hb. destruct (decide (d <= length bs)%nat) as [Hd | Hd].
  - rewrite <- (take_drop d bs) at 2. rewrite of_le_app, length_take, Nat.min_l by done.
    pose proof (of_le_bound (take d bs) (Forall_take _ d bs Hb)) as Hr. rewrite length_take, Nat.min_l in Hr by done.
    apply Z.bits_inj'. intros i Hi. rewrite testbit_mod_pow2, Z.lor_spec, testbit_shiftl by lia.
    destruct (Z.ltb_spec i (8 * Z.of_nat d)).
    + by rewrite (proj2 (Z.leb_gt _ i)), orb_false_r by lia.
    + by rewrite (testbit_high (8 * Z.of_nat d)) by lia.
  - rewrite take_ge by lia. symmetry. apply Z.mod_small. pose proof (of_le_bound bs Hb) as Hr. split; [lia |].
    eapply Z.lt_le_trans; [apply Hr |]. apply Z.pow_le_mono_r; lia.
Qed.

Lemma combine_halves n d xs ys : Forall is_byte xs -> Forall is_byte ys -> length xs = n -> length ys = n -> (d <= n)%nat ->
  (of_le xs >> (8 * Z.of_nat d)) .| data n (of_le ys << (8 * Z.of_nat n - 8 * Z.of_nat d)) = of_le (drop d xs ++ take d ys).
Proof.
  intros Hx Hy Hlx Hly Hd. rewrite of_le_app, of_le_drop, of_le_take, length_drop, Hlx by done. f_equal. unfold data.
  apply Z.bits_inj'. intros i Hi. rewrite testbit_mod_pow2, !testbit_shiftl by lia.
  replace (8 * Z.of_nat (n - d)) with (8 * Z.of_nat n - 8 * Z.of_nat d) by lia.
  destruct (Z.leb_spec (8 * Z.of_nat n - 8 * Z.of_nat d) i); [| by rewrite andb_false_r]. rewrite testbit_mod_pow2 by lia. cbn [andb].
  destruct (Z.ltb_spec i (8 * Z.of_nat n)), (Z.ltb_spec (i - (8 * Z.of_nat n - 8 * Z.of_nat d)) (8 * Z.of_nat d)); done || lia.
Qed.

Lemma combine_order (big : bool) n d xs ys : Forall is_byte xs -> Forall is_byte ys -> length xs = n -> length ys = n -> (d <= n)%nat ->
  (if big then data n (of_le (order big xs) << (8 * Z.of_nat d)) .| (of_le (order big ys) >> (8 * Z.of_nat n - 8 * Z.of_nat d))
   else (of_le (order big xs) >> (8 * Z.of_nat d)) .| data n (of_le (order big ys) << (8 * Z.of_nat n - 8 * Z.of_nat d))) =
  of_le (order big (drop d xs ++ take d ys)).
Proof.
  intros Hx Hy Hlx Hly Hd. destruct big; cbn [order]; [| by apply combine_halves].
  rewrite reverse_app, reverse_take, reverse_drop, Hlx, Hly, Z.lor_comm.
  rewrite <- (combine_halves n (n - d) (reverse ys) (reverse xs)); [| by apply Forall_reverse | by apply Forall_reverse | by rewrite length_reverse | by rewrite length_reverse | lia].
  f_equal; [f_equal; lia | do 2 f_equal; lia].
Qed.

(** A byte of memory as the guest sees it, and where the host keeps it. *)
Definition guest_place s (a p : Z) : Prop :=
  0 <= a < 2 ^ 32 /\ exists r off b ro, ram_page s (page a) r off b ro /\ p = hp b off + a mod 1024.

Definition guest_byte s (a x : Z) : Prop := exists p, guest_place s a p /\ x = ram_byte (ms_host s) p.

Definition guest_bytes s (a : Z) (bs : list Z) : Prop := forall i x, bs !! i = Some x -> guest_byte s (a + Z.of_nat i) x.

Lemma guest_place_map s s' a p : same_map s s' -> guest_place s a p -> guest_place s' a p.
Proof. intros Hm (Ha & r & off & b & ro & Hp & ->). split; [done |]. exists r, off, b, ro. split; [by apply (ram_page_map s) | done]. Qed.

Lemma guest_place_unique s a p p' : ram_ok (ms_ram s) -> guest_place s a p -> guest_place s a p' -> p = p'.
Proof.
  intros Hr (_ & r & off & b & ro & Hp & ->) (_ & r' & off' & b' & ro' & Hp' & ->).
  by destruct (ram_page_unique _ _ _ _ _ _ _ _ _ _ Hr Hp Hp') as (_ & <- & <- & _).
Qed.

(** The bytes of a page. *)
Lemma guest_page s a bs r off b ro : ram_ok (ms_ram s) -> 0 <= a < 2 ^ 32 -> guest_bytes s a bs -> ram_page s (page a) r off b ro ->
  a mod 1024 + Z.of_nat (length bs) <= 1024 -> bs = page_bytes s b off (a mod 1024) (length bs).
Proof.
  intros Hr Ha Hg Hp Hn. apply list_eq. intros i. destruct (decide (i < length bs)%nat) as [Hi | Hi].
  - destruct (lookup_lt_is_Some_2 bs i Hi) as [x Hx]. rewrite Hx. destruct (Hg i x Hx) as (p & (Hai & r' & off' & b' & ro' & Hp' & ->) & ->).
    assert (Hpg : page (a + Z.of_nat i) = page a).
    { unfold page. f_equal. pose proof (Z.div_mod a 1024). symmetry. apply (Z.div_unique _ 1024 _ (a mod 1024 + Z.of_nat i)); pose proof (Z.mod_pos_bound a 1024); lia. }
    rewrite Hpg in Hp'. destruct (ram_page_unique _ _ _ _ _ _ _ _ _ _ Hr Hp Hp') as (_ & <- & <- & _).
    unfold page_bytes. rewrite bytes_at_lookup by done. do 2 f_equal.
    replace ((a + Z.of_nat i) mod 1024) with (a mod 1024 + Z.of_nat i); [lia |].
    apply (Z.mod_unique _ _ (a / 1024)); pose proof (Z.div_mod a 1024); pose proof (Z.mod_pos_bound a 1024); lia.
  - unfold page_bytes. by rewrite !lookup_ge_None_2 by (rewrite ?bytes_at_length; lia).
Qed.

Lemma guest_bytes_drop s a bs d : guest_bytes s a bs -> guest_bytes s (a + Z.of_nat d) (drop d bs).
Proof.
  intros Hg i x Hx. rewrite lookup_drop in Hx. specialize (Hg _ _ Hx). by replace (a + Z.of_nat d + Z.of_nat i) with (a + Z.of_nat (d + i)) by lia.
Qed.

Lemma guest_bytes_take s a bs d : guest_bytes s a bs -> guest_bytes s a (take d bs).
Proof. intros Hg i x Hx. apply Hg. by apply lookup_take_Some in Hx as [Hx _]. Qed.

Definition word_sizes : list nat := [1%nat; 2%nat; 4%nat; 8%nat].

Lemma word_size_pow n : n ∈ word_sizes -> exists j, 0 <= j <= 3 /\ Z.of_nat n = 2 ^ j.
Proof.
  unfold word_sizes. rewrite !elem_of_cons, elem_of_nil.
  intros [-> | [-> | [-> | [-> | []]]]]; [exists 0 | exists 1 | exists 2 | exists 3]; (split; [lia | done]).
Qed.

(** The halves of an unaligned access. *)
Lemma aligned_down n a : n ∈ word_sizes -> 0 <= a < 2 ^ 32 ->
  a .& not32 (Z.of_nat n - 1) = a / Z.of_nat n * Z.of_nat n /\ a .& (Z.of_nat n - 1) = a mod Z.of_nat n.
Proof.
  intros Hn Ha. destruct (word_size_pow n Hn) as (j & Hj & ->). assert (Hp : 2 ^ j - 1 = Z.ones j) by (rewrite Z.ones_equiv; lia). rewrite Hp. split.
  - trans (Z.ldiff a (Z.ones j)).
    + apply Z.bits_inj'. intros i Hi. rewrite Z.land_spec, testbit_not32, Z.ldiff_spec by lia. destruct (Z.ltb_spec i 32); [done |].
      by rewrite (testbit_high 32 a) by lia.
    + rewrite Z.ldiff_ones_r, Z.shiftl_mul_pow2, Z.shiftr_div_pow2 by lia. done.
  - by rewrite Z.land_ones by lia.
Qed.

Lemma aligned_start n a : n ∈ word_sizes -> 0 <= a -> a / Z.of_nat n * Z.of_nat n = page a + (a mod 1024) / Z.of_nat n * Z.of_nat n.
Proof.
  intros Hn Ha. unfold page. pose proof (Z.div_mod a 1024 ltac:(lia)) as Hd. unfold word_sizes in Hn. rewrite !elem_of_cons, elem_of_nil in Hn.
  assert (Hk : exists k, 1024 = k * Z.of_nat n /\ 0 < Z.of_nat n)
    by (destruct Hn as [-> | [-> | [-> | [-> | []]]]]; [exists 1024 | exists 512 | exists 256 | exists 128]; lia).
  destruct Hk as (k & Hk & Hpos). rewrite Hd at 1. replace (1024 * (a / 1024) + a mod 1024) with (a mod 1024 + (a / 1024 * k) * Z.of_nat n) by lia.
  rewrite Z.div_add by lia. lia.
Qed.

Lemma bytes_at_take m x d n : (d <= n)%nat -> take d (bytes_at m x n) = bytes_at m x d.
Proof. intros Hd. replace n with (d + (n - d))%nat by lia. rewrite bytes_at_app. by rewrite take_app_length', ?bytes_at_length by (by rewrite bytes_at_length). Qed.

Lemma bytes_at_drop m x d n : (d <= n)%nat -> drop d (bytes_at m x n) = bytes_at m (x + Z.of_nat d) (n - d).
Proof. intros Hd. replace n with (d + (n - d))%nat at 1 by lia. rewrite bytes_at_app. by rewrite drop_app_length' by (by rewrite bytes_at_length). Qed.

(** Where the halves of an access that spans two pages are. *)
Lemma span_split n a : n ∈ word_sizes -> 0 <= a -> 1024 < a mod 1024 + Z.of_nat n -> a + Z.of_nat n <= 2 ^ 32 ->
  let d := Z.to_nat (a mod Z.of_nat n) in
  (0 < d < n)%nat /\ a mod Z.of_nat n = Z.of_nat d /\ a mod 1024 = 1024 - Z.of_nat n + Z.of_nat d /\
  a / Z.of_nat n * Z.of_nat n = page a + (1024 - Z.of_nat n) /\ a + Z.of_nat (n - d) = page a + 1024 /\ page a + 1024 < 2 ^ 32.
Proof.
  intros Hn Ha Hs Hlim d. pose proof (Z.mod_pos_bound a 1024 ltac:(lia)) as Hm. pose proof (Z.div_mod a 1024 ltac:(lia)) as Hd.
  pose proof (aligned_start n a Hn Ha) as Hal. unfold word_sizes in Hn. rewrite !elem_of_cons, elem_of_nil in Hn.
  assert (Hpos : 1 <= Z.of_nat n <= 8) by lia. pose proof (Z.mod_pos_bound a (Z.of_nat n) ltac:(lia)) as Hmn.
  pose proof (Z.div_mod a (Z.of_nat n) ltac:(lia)) as Hdn. pose proof (Z.mod_pos_bound (a mod 1024) (Z.of_nat n) ltac:(lia)).
  pose proof (Z.div_mod (a mod 1024) (Z.of_nat n) ltac:(lia)).
  assert (Hq : a mod 1024 / Z.of_nat n * Z.of_nat n = 1024 - Z.of_nat n).
  { destruct Hn as [-> | [-> | [-> | [-> | []]]]]; lia. }
  unfold page in *. lia.
Qed.

Lemma next_page a : page (page a + 1024) = page a + 1024 /\ (page a + 1024) mod 1024 = 0.
Proof. unfold page. replace (a / 1024 * 1024 + 1024) with ((a / 1024 + 1) * 1024) by lia. by rewrite Z.div_mul, Z_mod_mult by lia. Qed.

Lemma last_of_page a n : 0 < n <= 1024 -> page (page a + (1024 - n)) = page a /\ (page a + (1024 - n)) mod 1024 = 1024 - n.
Proof. intros Hn. unfold page. rewrite (Z.add_comm (a / 1024 * 1024)), Z.div_add, Z_mod_plus_full, Z.div_small, Z.mod_small by lia. lia. Qed.

(** The value that is made of the two halves. *)
Lemma spanned_value big n a s bs r off b ro r2 off2 b2 ro2 :
  ram_ok (ms_ram s) -> Memory.ram_ok (ms_host s) -> n ∈ word_sizes -> length bs = n -> guest_bytes s a bs -> 0 <= a < 2 ^ 32 ->
  1024 < a mod 1024 + Z.of_nat n -> a + Z.of_nat n <= 2 ^ 32 -> ram_page s (page a) r off b ro -> ram_page s (page a + 1024) r2 off2 b2 ro2 ->
  let shift := a mod Z.of_nat n * 8 in
  let v1 := of_le (order big (page_bytes s b off (1024 - Z.of_nat n) n)) in
  let v2 := of_le (order big (page_bytes s b2 off2 0 n)) in
  (if big then data n (v1 << shift) .| (v2 >> (Z.of_nat n * 8 - shift)) else (v1 >> shift) .| data n (v2 << (Z.of_nat n * 8 - shift))) = of_le (order big bs).
Proof.
  intros Hr Hby Hn Hl Hg Ha Hs Hlim Hp Hp2. destruct (span_split n a Hn ltac:(lia) Hs Hlim) as (Hd & Hmod & Hoff & _ & Ha2 & _). set (d := Z.to_nat (a mod Z.of_nat n)) in *.
  assert (Hn8 : 1 <= Z.of_nat n <= 8) by (clear - Hn; unfold word_sizes in Hn; rewrite !elem_of_cons, elem_of_nil in Hn; lia).
  destruct (next_page a) as [Hpg2 Hmo2].
  assert (Hv : bs = drop d (page_bytes s b off (1024 - Z.of_nat n) n) ++ take d (page_bytes s b2 off2 0 n)).
  { rewrite <- (take_drop (n - d) bs). unfold page_bytes. rewrite bytes_at_drop, bytes_at_take by lia. f_equal.
    - pose proof (guest_page s a (take (n - d) bs) r off b ro Hr Ha (guest_bytes_take _ _ _ _ Hg) Hp) as Ht. rewrite length_take, Hl, Nat.min_l in Ht by lia.
      rewrite Ht by lia. unfold page_bytes. f_equal. lia.
    - pose proof (guest_page s (a + Z.of_nat (n - d)) (drop (n - d) bs) r2 off2 b2 ro2 Hr) as Ht. rewrite Ha2, Hpg2, Hmo2, length_drop, Hl in Ht.
      rewrite Ht; [| lia | rewrite <- Ha2; by apply guest_bytes_drop | done | lia]. unfold page_bytes. f_equal. lia. }
  cbv zeta. rewrite Hv, <- (combine_order big n d); [| by apply bytes_at_byte | by apply bytes_at_byte | by apply bytes_at_length | by apply bytes_at_length | lia].
  rewrite Hmod. replace (Z.of_nat d * 8) with (8 * Z.of_nat d) by lia. replace (Z.of_nat n * 8) with (8 * Z.of_nat n) by lia. done.
Qed.

(** A load gives the bytes of the guest's memory, in either byte order, also when it is
    unaligned or spans two pages. *)
Lemma ld_guest big n k a m ret s bs :
  mmu_ok s -> Memory.ram_ok (ms_host s) -> n ∈ word_sizes -> length bs = n -> guest_bytes s a bs -> a + Z.of_nat n <= 2 ^ 32 -> (m < 2)%nat ->
  exists s', (helper_ld dev_ops ram_addr unassigned tb_fast walk 1 big n k a m ret : PIO Z) s = Done (of_le (order big bs)) s' [] /\
    mmu_ok s' /\ same_map s s' /\ ms_host s' = ms_host s /\ dirty_memory (ms_ram s') = dirty_memory (ms_ram s).
Proof.
  intros Hok Hby Hn Hl Hg Hlim Hm. assert (Hn8 : 1 <= Z.of_nat n <= 8) by (clear - Hn; unfold word_sizes in Hn; rewrite !elem_of_cons, elem_of_nil in Hn; lia).
  destruct (lookup_lt_is_Some_2 bs 0 ltac:(lia)) as [x0 Hx0]. pose proof (Hg 0%nat x0 Hx0) as (p0 & (Ha & r & off & b & ro & Hp & _) & _).
  rewrite Z.add_0_r in Ha, Hp. pose proof (mo_ram _ Hok) as Hr.
  destruct (decide (a mod 1024 + Z.of_nat n <= 1024)) as [Hin | Hout].
  { destruct (ld_in_page 1 big n k a m ret s r off b ro Hok Ha Hm Hp Hin) as (s' & f & Hrun & Hat). exists s'. rewrite Hrun.
    rewrite (guest_page s a bs r off b ro Hr Ha Hg Hp) by (by rewrite Hl). rewrite Hl. split; [done |]. by destruct Hat. }
  destruct (span_split n a Hn ltac:(lia) ltac:(lia) Hlim) as (Hd & Hmod & Hoff & Ha1 & Ha2 & Hp2lim). set (d := Z.to_nat (a mod Z.of_nat n)) in *.
  destruct (aligned_down n a Hn Ha) as [Hdown Hrem].
  destruct (lookup_run s a (ADDR_READ k) m r off b ro Hok Ha Hm (read_field k) Hp) as (s0 & f0 & Hrun0 & Hat0).
  assert (Hk : ADDR_READ k (ram_entry (page a) (hp b off) (page a .| f0)) = page a) by (by destruct k). rewrite Hk in Hrun0.
  cbn [helper_ld]. rewrite (bind_Done _ _ _ _ _ Hrun0).
  assert (Hpo : cbool (page_offset (page a)) = false) by (rewrite page_offset_mod; unfold page; by rewrite Z_mod_mult).
  assert (Hsp : spans n a = true).
  { unfold spans. rewrite page_offset_mod. apply andb_true_iff. split; [apply Nat.ltb_lt; lia | apply Z.leb_le; change TARGET_PAGE_SIZE with 1024; lia]. }
  rewrite Hpo, Hsp, Hdown, Hrem, Ha1. replace (page a + (1024 - Z.of_nat n) + Z.of_nat n) with (page a + 1024) by lia.
  pose proof (page_of_page a Ha) as [Hpa _]. fold (page a) in Hpa. rewrite (u32_small (page a + 1024)) by lia.
  destruct (last_of_page a (Z.of_nat n) ltac:(lia)) as [Hpg1 Hmo1].
  destruct (ld_in_page 0 big n k (page a + (1024 - Z.of_nat n)) m ret s0 r off b ro) as (s1 & f1 & Hrun1 & Hat1).
  { apply Hat0. } { lia. } { done. } { rewrite Hpg1. by apply (ram_page_map s); [apply Hat0 |]. } { rewrite Hmo1. lia. }
  rewrite (bind_Done _ _ _ _ _ Hrun1). rewrite Hmo1, Hpg1 in *.
  destruct (lookup_lt_is_Some_2 bs (n - d) ltac:(lia)) as [x1 Hx1]. pose proof (Hg _ x1 Hx1) as (p1 & (_ & r2 & off2 & b2 & ro2 & Hp2 & _) & _).
  destruct (next_page a) as [Hpg2 Hmo2]. rewrite Ha2 in Hp2.
  destruct (ld_in_page 0 big n k (page a + 1024) m ret s1 r2 off2 b2 ro2) as (s2 & f2 & Hrun2 & Hat2).
  { apply Hat1. } { lia. } { done. } { apply (ram_page_map s); [| done]. eapply same_map_trans; [apply Hat0 | apply Hat1]. } { rewrite Hmo2. lia. }
  rewrite (bind_Done _ _ _ _ _ Hrun2). rewrite Hmo2, Hpg2 in *. exists s2. split.
  - rewrite <- (spanned_value big n a s bs r off b ro r2 off2 b2 ro2 Hr Hby Hn Hl Hg Ha ltac:(lia) Hlim Hp Hp2).
    unfold page_bytes. rewrite (ap_host _ _ _ _ _ _ _ _ Hat1), (ap_host _ _ _ _ _ _ _ _ Hat0). by destruct big.
  - destruct Hat0, Hat1, Hat2. split; [done |]. split; [by do 2 (eapply same_map_trans; [eassumption |]) |]. split; congruence.
Qed.

(** ** Stores *)

(** Whether the page of RAM with this number has no code. *)
Definition code_bit s (g : Z) : bool := dirty (ms_ram s) DIRTY_MEMORY_CODE g.

(** The code cache may set the dirty bits of the page, once it has no code, and keeps
    what it likes of its own, but leaves the table and the memory alone. *)
Definition fast_ok : Prop := forall s start len, mmu_ok s -> in_ram (ms_ram s) start len ->
  exists s' t, tb_fast start len s = Done () s' t /\ calm s s' /\ ms_host s' = ms_host s /\ mem_io_vaddr (mmu s') = mem_io_vaddr (mmu s) /\
    forall g, g <> start / 1024 -> code_bit s' g = code_bit s g.

Definition noticed (start n : Z) : phys_event (mmu_event E) := DeviceEvent (TbInvalidateFast start n).

(** What a store to the page [g] of RAM leaves. *)
Record stored_to s s' (g p : Z) (bs : list Z) : Prop := {
  st_ok : mmu_ok s';
  st_map : same_map s s';
  st_host : ms_host s' = ram_write (ms_host s) p bs;
  st_code : forall h, 0 <= h < last_ram_offset (ms_ram s) / 1024 -> h <> g -> code_bit s' h = code_bit s h
}.

Lemma set_dirty_entry s v v0 r off b e io :
  mmu_ok s -> page_addr v0 -> ram_page s v0 r off b false -> clean_page (ms_ram s) (ra b off / 1024) = false -> v = v0 ->
  entry_ok s (tlb_index v) e io -> entry_ok s (tlb_index v) (tlb_set_dirty1 v e) io.
Proof.
  intros Hok Hv Hp Hc -> He. unfold tlb_set_dirty1. destruct (Z.eqb_spec (addr_write e) (v0 .| TLB_NOTDIRTY)) as [Hw |]; [| done].
  destruct He as [-> | v' r' off' b' ro' f Hp' Hi Hf Hwf -> -> | v' k xlat Hp' Hi -> ->].
  - exfalso. pose proof (or_flag v0 TLB_NOTDIRTY Hv ltac:(by right; left)) as Ho. rewrite Ho in Hw. cbn [addr_write tlb_blank] in Hw.
    destruct Hv as [_ Hm]. change TLB_NOTDIRTY with 16 in Hw. pose proof (Z.div_mod v0 1024 ltac:(lia)). lia.
  - cbn [addr_write ram_entry] in Hw. assert (Hfp : (v' .| f) .& (PAGE_MASK32 .| TLB_INVALID_MASK) = v') by (apply flag_page; [apply (rp_addr _ _ _ _ _ _ Hp') | done]).
    rewrite Hw, flag_page in Hfp by (done || by right; left). subst v'.
    destruct (ram_page_unique _ _ _ _ _ _ _ _ _ _ (mo_ram _ Hok) Hp Hp') as (<- & <- & <- & <-).
    apply (entry_ram _ _ _ _ v0 r off b false 0); [done | done | by left | by right | | done].
    unfold ram_entry. cbn. by rewrite Z.lor_0_r.
  - exfalso. cbn [addr_write io_entry] in Hw.
    assert (Hfp : (v' .| TLB_MMIO) .& (PAGE_MASK32 .| TLB_INVALID_MASK) = v') by (apply flag_page; [apply (ip_addr _ _ _ _ Hp') | by right; right]).
    rewrite Hw, flag_page in Hfp by (done || by right; left). subst v'. by apply (ram_not_io s v0 r off b false k xlat).
Qed.

Lemma set_dirty_run s a r off b :
  mmu_ok s -> 0 <= a < 2 ^ 32 -> ram_page s (page a) r off b false -> clean_page (ms_ram s) (ra b off / 1024) = false ->
  exists s', (tlb_set_dirty a : PIO unit) s = Done () s' [] /\ mmu_ok s' /\ same_map s s' /\ ms_host s' = ms_host s /\ ms_ram s' = ms_ram s.
Proof.
  intros Hok Ha Hp Hc. eexists. split; [reflexivity |]. split; [| done]. rewrite page32 by done. fold (page a).
  apply modes_ok; [done |]. intros e io He. apply (set_dirty_entry s _ (page a) r off b); try done. by apply (rp_addr _ _ _ _ _ _ Hp).
Qed.

Lemma host_calm s p bs : mmu_ok s -> calm s (s <| ms_host := ram_write (ms_host s) p bs |>).
Proof. intros [Hr _ _ _ _]. constructor; try done. by intros q. Qed.

Lemma dirtied_calm s cs start n r' : dirtied cs start n (ms_ram s) r' -> calm s (s <| ms_ram := r' |>).
Proof.
  intros Hd. pose proof Hd as ((Hb & _) & Hok & _). constructor; try done.
  intros p Hp Hc. by apply (dirtied_keeps _ _ _ _ _ p Hd).
Qed.

(** The page of a RAM address within a page. *)
Lemma ram_page_div s v r off b ro o : ram_ok (ms_ram s) -> ram_page s v r off b ro -> 0 <= o < 1024 -> (ra b off + o) / 1024 = ra b off / 1024.
Proof.
  intros Hr Hp Ho. destruct (ram_page_range _ _ _ _ _ _ Hr Hp) as (H1 & H2 & _). pose proof (Z.div_mod (ra b off) 1024).
  symmetry. apply (Z.div_unique _ 1024 _ o); lia.
Qed.

Lemma in_page_ram s v r off b ro o n : ram_ok (ms_ram s) -> ram_page s v r off b ro -> 0 <= o -> 0 < n -> o + n <= 1024 ->
  in_ram (ms_ram s) (ra b off + o) n /\ inside b (ra b off + o).
Proof.
  intros Hr Hp Ho Hn Hon. destruct (ram_page_range _ _ _ _ _ _ Hr Hp) as (H1 & H2 & H3 & _). pose proof (rp_range _ _ _ _ _ _ Hp).
  unfold in_ram, inside. lia.
Qed.

(** The bytes of a store. *)
Definition store_sizes : list nat := [1%nat; 2%nat; 4%nat].

Lemma store_size_word n : n ∈ store_sizes -> n ∈ word_sizes /\ 1 <= Z.of_nat n <= 4.
Proof. unfold store_sizes, word_sizes. rewrite !elem_of_cons, elem_of_nil. intros H. split; [tauto | lia]. Qed.

(** The write itself, the dirty bits, and the table. *)
Lemma notdirty_tail s a bs r off b :
  mmu_ok s -> 0 <= a < 2 ^ 32 -> ram_page s (page a) r off b false -> 0 < Z.of_nat (length bs) -> a mod 1024 + Z.of_nat (length bs) <= 1024 ->
  mem_io_vaddr (mmu s) = a ->
  let x := ra b off + a mod 1024 in
  exists s', ((ptr ← on_ram (qemu_get_ram_ptr x); host_write ptr bs) ;;
     on_ram (cpu_physical_memory_set_dirty_range_nocode x (Z.of_nat (length bs))) ;;
     clean ← on_ram (cpu_physical_memory_is_clean x);
     when (negb (clean : bool)) (s ← get; tlb_set_dirty (mem_io_vaddr (mmu s))) : PIO unit) s = Done () s' [] /\
    stored_to s s' (ra b off / 1024) (hp b off + a mod 1024) bs.
Proof.
  intros Hok Ha Hp Hn Hin Hva x. pose proof (Z.mod_pos_bound a 1024 ltac:(lia)) as Ho. set (o := a mod 1024) in *.
  destruct (in_page_ram s _ r off b false o (Z.of_nat (length bs)) (mo_ram _ Hok) Hp) as [Hir Hi]; [lia | lia | lia |]. fold x in Hir, Hi.
  assert (Hpn : x / 1024 = ra b off / 1024) by (apply (ram_page_div s _ r off b false o (mo_ram _ Hok) Hp); lia).
  set (s2 := read_state s b). pose proof (mru_calm s b Hok (rp_block _ _ _ _ _ _ Hp)) as C2. fold s2 in C2.
  set (s3 := s2 <| ms_host := ram_write (ms_host s) (hp b off + o) bs |>).
  assert (C3 : calm s s3) by (apply (calm_trans s s2); [done | by apply (host_calm s2), (calm_ok s)]).
  assert (Hptr : (on_ram (qemu_get_ram_ptr x) : PIO Z) s = Done (hp b off + o) s2 []).
  { rewrite (on_ram_run _ _ _ _ _ (get_ram_ptr_run _ b x (mo_ram _ Hok) (rp_block _ _ _ _ _ _ Hp) Hi)).
    destruct (ram_page_range _ _ _ _ _ _ (mo_ram _ Hok) Hp) as (_ & _ & _ & _ & H5 & H6). f_equal. unfold x. rewrite u64_small; lia. }
  pose proof (calm_ok _ _ Hok C3) as Ok3. assert (Hir3 : in_ram (ms_ram s3) x (Z.of_nat (length bs))) by exact Hir.
  destruct (set_dirty_range_nocode_run (ms_ram s3) x (Z.of_nat (length bs)) (mo_ram _ Ok3) Hir3) as (r4 & Hset & Hd).
  set (s4 := s3 <| ms_ram := r4 |>). assert (C4 : calm s s4) by (apply (calm_trans s s3); [done | by apply (dirtied_calm s3 _ _ _ _ Hd)]).
  pose proof (calm_ok _ _ Hok C4) as Ok4. pose proof (ram_page_map _ _ _ _ _ _ _ (cl_map _ _ C4) Hp) as Hp4.
  assert (Hir4 : in_ram (ms_ram s4) x 1).
  { destruct (in_page_ram s4 _ r off b false o 1 (mo_ram _ Ok4) Hp4) as [H _]; [lia | lia | lia | exact H]. }
  assert (Hcl : (on_ram (cpu_physical_memory_is_clean x) : PIO bool) s4 = Done (clean_page (ms_ram s4) (ra b off / 1024)) s4 []).
  { rewrite (on_ram_run _ _ _ _ _ (is_clean_run _ x (mo_ram _ Ok4) Hir4)), Hpn. by destruct s4. }
  assert (Hpre : ((ptr ← on_ram (qemu_get_ram_ptr x); host_write ptr bs) : PIO unit) s = Done () s3 []).
  { rewrite (bind_Done _ _ _ _ _ Hptr). done. }
  rewrite (bind_Done _ _ _ _ _ Hpre), (bind_Done _ _ _ _ _ (on_ram_run _ _ _ _ _ Hset)). fold s4. rewrite (bind_Done _ _ _ _ _ Hcl).
  assert (Hcode : forall h, 0 <= h < last_ram_offset (ms_ram s) / 1024 -> h <> ra b off / 1024 -> code_bit s4 h = code_bit s h).
  { intros h Hh _. destruct Hd as (_ & _ & Hd). unfold code_bit. change (ms_ram s4) with r4. rewrite Hd by (done || unfold DIRTY_MEMORY_CODE; lia). done. }
  destruct (clean_page (ms_ram s4) (ra b off / 1024)) eqn:Hc; cbn [negb when].
  - exists s4. split; [done |]. constructor; [done | apply C4 | done | done].
  - rewrite bind_get. change (mem_io_vaddr (mmu s4)) with (mem_io_vaddr (mmu s)). rewrite Hva.
    destruct (set_dirty_run s4 a r off b Ok4 Ha Hp4 Hc) as (s5 & H5 & Ok5 & M5 & Hh5 & Hr5). exists s5. split; [done |].
    constructor; [done | eapply same_map_trans; [apply C4 | done] | by rewrite Hh5 |].
    intros h Hh Hne. unfold code_bit at 1. rewrite Hr5. by apply Hcode.
Qed.

(** The callback of pages that are not dirty. *)
Lemma notdirty_run s a val n r off b :
  fast_ok -> mmu_ok s -> 0 <= a < 2 ^ 32 -> ram_page s (page a) r off b false -> n ∈ store_sizes -> a mod 1024 + Z.of_nat n <= 1024 ->
  mem_io_vaddr (mmu s) = a ->
  exists s' t, notdirty_mem_write tb_fast (ra b off + a mod 1024) val (Z.of_nat n) s = Done () s' t /\
    stored_to s s' (ra b off / 1024) (hp b off + a mod 1024) (le_bytes n val) /\
    (code_bit s (ra b off / 1024) = false -> noticed (ra b off + a mod 1024) (Z.of_nat n) ∈ t).
Proof.
  intros Hf Hok Ha Hp Hn Hin Hva. destruct (store_size_word n Hn) as [_ Hn4]. pose proof (Z.mod_pos_bound a 1024 ltac:(lia)) as Ho.
  destruct (in_page_ram s _ r off b false (a mod 1024) (Z.of_nat n) (mo_ram _ Hok) Hp) as [Hir Hi]; [lia | lia | lia |].
  assert (Hpn : (ra b off + a mod 1024) / 1024 = ra b off / 1024) by (apply (ram_page_div s _ r off b false (a mod 1024) (mo_ram _ Hok) Hp); lia).
  set (x := ra b off + a mod 1024) in *. assert (Hir1 : in_ram (ms_ram s) x 1) by (unfold in_ram in *; lia).
  assert (Hflag : (on_ram (cpu_physical_memory_get_dirty_flag x DIRTY_MEMORY_CODE) : PIO bool) s = Done (dirty (ms_ram s) DIRTY_MEMORY_CODE (ra b off / 1024)) s []).
  { rewrite (on_ram_run _ _ _ _ _ (get_dirty_flag_run _ x DIRTY_MEMORY_CODE (mo_ram _ Hok) Hir1 ltac:(unfold DIRTY_MEMORY_CODE; lia))), Hpn. by destruct s. }
  unfold notdirty_mem_write. rewrite (bind_Done _ _ _ _ _ Hflag). clear Hflag. set (cd := dirty (ms_ram s) DIRTY_MEMORY_CODE (ra b off / 1024)).
  assert (H1 : exists s1 t1, when (negb cd) (tell (TbInvalidateFast x (Z.of_nat n)) ;; tb_fast x (Z.of_nat n)) s = Done () s1 t1 /\
    calm s s1 /\ ms_host s1 = ms_host s /\ mem_io_vaddr (mmu s1) = a /\ (forall g, g <> ra b off / 1024 -> code_bit s1 g = code_bit s g) /\ (cd = false -> noticed x (Z.of_nat n) ∈ t1)).
  { destruct cd; cbn [negb when]; [exists s, []; split; [done |]; split; [by apply calm_refl | done] |].
    destruct (Hf s x (Z.of_nat n) Hok Hir) as (s1 & t1 & Hrun & Hc & Hh & Hv & Hg). exists s1, (noticed x (Z.of_nat n) :: t1).
    split; [unfold mbind, M_bind, tell, emit; by rewrite Hrun |]. split; [done |]. split; [done |]. split; [congruence |].
    split; [by rewrite Hpn in Hg | intros _; by left]. }
  destruct H1 as (s1 & t1 & Hrun1 & Hc1 & Hh1 & Hv1 & Hg1 & Hev). pose proof (calm_ok _ _ Hok Hc1) as Hok1.
  pose proof (ram_page_map _ _ _ _ _ _ _ (cl_map _ _ Hc1) Hp) as Hp1. pose proof (le_bytes_length n val) as Hlen.
  destruct (notdirty_tail s1 a (le_bytes n val) r off b Hok1 Ha Hp1) as (s' & Hrun2 & [Ok2 M2 Hh2 Hg2]); [lia | lia | done |].
  fold x in Hrun2. rewrite Hlen in Hrun2. exists s', (t1 ++ []). split; [| split].
  - apply (bind_Done_trace _ _ _ _ _ _ _ _ _ Hrun1). rewrite Nat2Z.id.
    assert (Hsz : (Z.of_nat n =? 1) || (Z.of_nat n =? 2) || (Z.of_nat n =? 4) = true).
    { unfold store_sizes in Hn. rewrite !elem_of_cons, elem_of_nil in Hn. by destruct Hn as [-> | [-> | [-> | []]]]. }
    rewrite Hsz. exact Hrun2.
  - constructor; [done | eapply same_map_trans; [apply Hc1 | done] | by rewrite Hh2, Hh1 |].
    intros h Hh Hne. rewrite Hg2, Hg1; [done | done | | done]. unfold last_ram_offset in *. by rewrite (proj2 (proj2 (cl_map _ _ Hc1))).
  - intros Hcd. rewrite app_nil_r. by apply Hev.
Qed.

(** What an I/O entry holds: a number below the size of a page and the address of a page,
    less the page's address. *)
Lemma iotlb_parts x c a : 0 <= x < 2 ^ 64 - 1024 -> x mod 1024 = 0 -> 0 <= c < 1024 -> 0 <= a < 2 ^ 32 ->
  u64 (x + c - page a) .& (TARGET_PAGE_SIZE - 1) = c /\ u64 ((u64 (x + c - page a) .& TARGET_PAGE_MASK) + a) = x + a mod 1024.
Proof.
  intros Hx Hxm Hc Ha. set (y := x + c - page a). pose proof (u64_range y) as Hy.
  assert (Hmod : u64 y mod 1024 = c).
  { unfold u64. change (2 ^ 64) with (1024 * 2 ^ 54). rewrite Z.rem_mul_r by lia. rewrite Zplus_mod, (Z.mul_comm 1024), Z_mod_mult, Z.add_0_r, !Zmod_mod.
    unfold y, page. replace (x + c - a / 1024 * 1024) with (x + c + (- (a / 1024)) * 1024) by lia. rewrite Z_mod_plus_full, Zplus_mod, Hxm, Z.add_0_l, Zmod_mod.
    by apply Z.mod_small. }
  split.
  - change (TARGET_PAGE_SIZE - 1) with (Z.ones 10). by rewrite Z.land_ones by lia.
  - rewrite page_base by done. replace (u64 y / 1024 * 1024) with (u64 y - c) by (pose proof (Z.div_mod (u64 y) 1024); lia).
    unfold u64. replace (y mod 2 ^ 64 - c + a) with (a - c + y mod 2 ^ 64) by lia. rewrite Zplus_mod_idemp_r.
    unfold y, page. pose proof (Z.div_mod a 1024). pose proof (Z.mod_pos_bound a 1024). rewrite Z.mod_small by lia. lia.
Qed.

(** The I/O entry of a page of RAM: the section and the RAM address. *)
Lemma ram_iotlb_parts s v r off b ro a : ram_ok (ms_ram s) -> ram_page s v r off b ro -> v = page a -> 0 <= a < 2 ^ 32 ->
  ram_iotlb v (ra b off) ro .& (TARGET_PAGE_SIZE - 1) = (if ro then 2 else 1) /\
  u64 ((ram_iotlb v (ra b off) ro .& TARGET_PAGE_MASK) + a) = ra b off + a mod 1024.
Proof.
  intros Hr Hp -> Ha. destruct (ram_page_range _ _ _ _ _ _ Hr Hp) as (R1 & R2 & _ & R4 & _).
  set (c := if ro then 2 else 1). assert (Hc : 1 <= c <= 2) by (unfold c; destruct ro; lia).
  assert (Hor : ra b off .| (if negb ro then PHYS_SECTION_NOTDIRTY else PHYS_SECTION_ROM) = ra b off + c).
  { assert (Hq : ra b off = (ra b off / 1024) << 10).
    { rewrite Z.shiftl_mul_pow2 by lia. change (2 ^ 10) with 1024. pose proof (Z.div_mod (ra b off) 1024). lia. }
    replace (if negb ro then PHYS_SECTION_NOTDIRTY else PHYS_SECTION_ROM) with c by (by destruct ro).
    rewrite Hq. apply or_low. lia. }
  unfold ram_iotlb. rewrite Hor. apply iotlb_parts; lia.
Qed.

Lemma io_region_run s io sec mr : sections (ms_dispatch s) !! Z.to_nat (io .& (TARGET_PAGE_SIZE - 1)) = Some sec -> ps_mr sec = mr ->
  (iotlb_to_region io : PIO phys_mr) s = Done mr s [].
Proof. intros Hs Hm. unfold iotlb_to_region. rewrite bind_get, Hs. by rewrite Hm. Qed.

Lemma aligned_sum x a n : n ∈ store_sizes -> x mod 1024 = 0 -> a mod Z.of_nat n = 0 ->
  (x + a mod 1024) mod Z.of_nat n = 0 /\ a mod 1024 + Z.of_nat n <= 1024.
Proof.
  intros Hn Hx Ha. assert (Hc : Z.of_nat n = 1 \/ Z.of_nat n = 2 \/ Z.of_nat n = 4) by (unfold store_sizes in Hn; rewrite !elem_of_cons, elem_of_nil in Hn; lia).
  clear Hn. generalize dependent (Z.of_nat n). clear n. intros z Ha Hc.
  assert (Hz : (z | 1024)) by (destruct Hc as [-> | [-> | ->]]; [by exists 1024 | by exists 512 | by exists 256]).
  assert (Hz0 : z <> 0) by lia. apply Z.mod_divide in Ha; [| done].
  assert (Hm : (z | a mod 1024)) by (rewrite Z.mod_eq by lia; apply Z.divide_sub_r; [done | by apply Z.divide_mul_l]).
  split.
  - apply Z.mod_divide; [done |]. apply Z.divide_add_r; [| done]. apply Z.mod_divide in Hx; [| lia]. by apply (Z.divide_trans _ 1024).
  - pose proof (Z.mod_pos_bound a 1024 ltac:(lia)). destruct Hm as [k Hk], Hz as [l Hl]. destruct Hc as [-> | [-> | ->]]; lia.
Qed.

Lemma aligned_ram s v r off b ro a n : ram_ok (ms_ram s) -> ram_page s v r off b ro -> n ∈ store_sizes -> is_aligned n a = true -> 0 <= a < 2 ^ 32 ->
  (ra b off + a mod 1024) .& (Z.of_nat n - 1) = 0 /\ a mod 1024 + Z.of_nat n <= 1024.
Proof.
  intros Hr Hp Hn Hal Ha. destruct (ram_page_range _ _ _ _ _ _ Hr Hp) as (R1 & R2 & _). destruct (store_size_word n Hn) as [Hw _].
  pose proof (proj2 (aligned_down n a Hw Ha)) as Hmod. unfold is_aligned in Hal. apply Z.eqb_eq in Hal. rewrite Hal in Hmod. symmetry in Hmod.
  pose proof (aligned_sum _ _ _ Hn R2 Hmod) as Hal2.
  split; [| apply Hal2]. destruct (word_size_pow n Hw) as (j & Hj & Hnj). rewrite Hnj in *. replace (2 ^ j - 1) with (Z.ones j) by (rewrite Z.ones_equiv; lia).
  rewrite Z.land_ones by lia. apply Hal2.
Qed.

(** The callback takes aligned stores, whole. *)
Lemma notdirty_valid s x n : n ∈ store_sizes -> x .& (Z.of_nat n - 1) = 0 ->
  memory_region_access_valid (mr_ops (notdirty_mem_ops (D := D) tb_fast)) s x (Z.of_nat n) true = true /\
  piece_size (Z.of_nat n) 0 0 = Z.of_nat n.
Proof.
  intros Hn Hx. unfold memory_region_access_valid. cbn [notdirty_mem_ops mr_ops valid_unaligned valid_accepts negb andb]. rewrite Hx.
  unfold store_sizes in Hn. rewrite !elem_of_cons, elem_of_nil in Hn. by destruct Hn as [-> | [-> | [-> | []]]].
Qed.

(** A store in one piece to a page that is not dirty. *)
Lemma io_store s a val n ret r off b :
  fast_ok -> mmu_ok s -> 0 <= a < 2 ^ 32 -> ram_page s (page a) r off b false -> n ∈ store_sizes -> is_aligned n a = true ->
  exists s' t, io_write dev_ops ram_addr unassigned tb_fast n (ram_iotlb (page a) (ra b off) false) val a ret s = Done () s' t /\
    stored_to s s' (ra b off / 1024) (hp b off + a mod 1024) (le_bytes n val) /\
    (code_bit s (ra b off / 1024) = false -> noticed (ra b off + a mod 1024) (Z.of_nat n) ∈ t).
Proof.
  intros Hf Hok Ha Hp Hn Hal. destruct (store_size_word n Hn) as [_ Hn4]. destruct (aligned_ram _ _ _ _ _ _ _ _ (mo_ram _ Hok) Hp Hn Hal Ha) as [Hal1 Hin].
  destruct (ram_iotlb_parts _ _ _ _ _ _ a (mo_ram _ Hok) Hp eq_refl Ha) as [Hsec Haddr].
  destruct (mo_sections _ Hok) as (sec1 & sec2 & Hs1 & Hm1 & _ & _).
  unfold io_write. rewrite (bind_Done _ _ _ _ _ (io_region_run s _ sec1 io_mem_notdirty ltac:(by rewrite Hsec) Hm1)). rewrite Haddr.
  unfold upd_mmu at 1. rewrite bind_modify. set (s1 := s <| ms_devices := _ |>).
  assert (C1 : calm s s1) by (constructor; try done; [apply (mo_ram _ Hok) | by intros p]).
  pose proof (calm_ok _ _ Hok C1) as Hok1. pose proof (ram_page_map _ _ _ _ _ _ _ (cl_map _ _ C1) Hp) as Hp1.
  destruct (notdirty_run s1 a (val .& Z.ones (8 * Z.of_nat n)) n r off b Hf Hok1 Ha Hp1 Hn Hin eq_refl) as (s' & t & Hrun & [Ok' M' Hh' Hg'] & Hev).
  destruct (notdirty_valid s1 (ra b off + a mod 1024) n Hn Hal1) as [Hv Hps].
  assert (Hx : 0 <= ra b off + a mod 1024 < 2 ^ 64).
  { destruct (ram_page_range _ _ _ _ _ _ (mo_ram _ Hok) Hp) as (R1 & _ & _ & R4 & _). pose proof (Z.mod_pos_bound a 1024). lia. }
  assert (Hmw : io_mem_write unassigned (mr_ops (all_ops dev_ops ram_addr unassigned tb_fast io_mem_notdirty)) (ra b off + a mod 1024) val (Z.of_nat n) s1 =
    Done false s' (t ++ [])).
  { rewrite (single_write unassigned (mr_ops (notdirty_mem_ops tb_fast)) (notdirty_mem_write tb_fast) _ _ _ s1 eq_refl eq_refl Hv); [| lia | done | done].
    by apply (bind_Done_trace _ _ _ _ _ _ _ _ _ Hrun). }
  exists s', ((t ++ []) ++ []). split; [| split].
  - by apply (bind_Done_trace _ _ _ _ _ _ _ _ _ Hmw).
  - constructor; [done | eapply same_map_trans; [apply C1 | done] | by rewrite Hh', le_bytes_low | exact Hg'].
  - rewrite !app_nil_r. exact Hev.
Qed.

Lemma order_bytes (big : bool) n v : le_bytes n (if big then bswap n v else v) = order big (le_bytes n v).
Proof.
  destruct big; [| done]. unfold bswap, order. pose proof (le_bytes_of_le (reverse (le_bytes n v)) (proj2 (Forall_reverse _ _) (le_bytes_byte n v))) as He.
  by rewrite length_reverse, le_bytes_length in He.
Qed.

(** After the lookup the store is straight to host memory, when all the dirty bits of
    the page are set. *)
Lemma st_direct fuel big n a val m ret s s1 r off b :
  mmu_ok s -> 0 <= a < 2 ^ 32 -> ram_page s (page a) r off b false -> a mod 1024 + Z.of_nat n <= 1024 ->
  (lookup_tlb ram_addr walk addr_write a m : PIO Z) s = Done (page a .| 0) s1 [] -> at_page s s1 (page a) b off false m 0 ->
  clean_page (ms_ram s1) (ra b off / 1024) = false ->
  exists s', (helper_st dev_ops ram_addr unassigned tb_fast walk fuel big n a val m ret : PIO unit) s = Done () s' [] /\
    stored_to s s' (ra b off / 1024) (hp b off + a mod 1024) (order big (le_bytes n val)) /\ code_bit s (ra b off / 1024) = true.
Proof.
  intros Hok Ha Hp Hin Hrun [Ok1 M1 Hh1 Hd1 _ _ Ht _] Hc. rewrite Z.lor_0_r in *.
  assert (Hcb : forall g, code_bit s1 g = code_bit s g) by (intros g; unfold code_bit, dirty; by rewrite Hd1).
  assert (Hpo : cbool (page_offset (page a)) = false) by (rewrite page_offset_mod; unfold page; by rewrite Z_mod_mult).
  destruct (tlb_index_page a Ha) as [Hidx _]. fold (page a) in Hidx.
  exists (s1 <| ms_host := ram_write (ms_host s1) (hp b off + a mod 1024) (order big (le_bytes n val)) |>). split; [| split].
  - destruct fuel; cbn [helper_st]; rewrite (bind_Done _ _ _ _ _ Hrun), Hpo, not_spans by done;
      rewrite Hidx, (bind_Done _ _ _ _ _ (get_tlb_run _ _ _ _ Ht)); cbn [addend ram_entry];
      by rewrite (host_addr s _ r off b false a (mo_ram _ Hok) Hp eq_refl Ha).
  - constructor; [exact (calm_ok _ _ Ok1 (host_calm s1 _ _ Ok1)) | done | by rewrite <- Hh1 | intros h _ _; exact (Hcb h)].
  - rewrite <- Hcb. unfold clean_page in Hc. apply negb_false_iff, andb_true_iff in Hc as [Hc _]. by apply andb_true_iff in Hc as [_ Hc].
Qed.

(** A store within a page: straight to host memory, or through the callback when the
    page is not dirty. *)
Lemma st_aligned fuel big n a val m ret s r off b :
  fast_ok -> mmu_ok s -> 0 <= a < 2 ^ 32 -> (m < 2)%nat -> ram_page s (page a) r off b false -> n ∈ store_sizes -> is_aligned n a = true ->
  exists s' t, helper_st dev_ops ram_addr unassigned tb_fast walk fuel big n a val m ret s = Done () s' t /\
    stored_to s s' (ra b off / 1024) (hp b off + a mod 1024) (order big (le_bytes n val)) /\
    (code_bit s (ra b off / 1024) = false -> noticed (ra b off + a mod 1024) (Z.of_nat n) ∈ t).
Proof.
  intros Hf Hok Ha Hm Hp Hn Hal. destruct (lookup_run s a addr_write m r off b false Hok Ha Hm (or_intror (or_introl eq_refl)) Hp) as (s1 & f & Hrun & Hat).
  pose proof Hat as [Ok1 M1 Hh1 Hd1 Hfl Hw Ht Hio]. cbn [addr_write ram_entry] in Hrun.
  destruct (aligned_ram _ _ _ _ _ _ _ _ (mo_ram _ Hok) Hp Hn Hal Ha) as [_ Hin].
  destruct Hw as [-> | [-> Hc]].
  - pose proof (flag_offset (page a) TLB_NOTDIRTY (page_of_page a Ha) Hfl) as Hpo. destruct (tlb_index_page a Ha) as [Hidx _]. fold (page a) in Hidx.
    pose proof (ram_page_map _ _ _ _ _ _ _ M1 Hp) as Hp1.
    assert (Hcb : forall g, code_bit s1 g = code_bit s g) by (intros g; unfold code_bit, dirty; by rewrite Hd1).
    destruct (io_store s1 a (if big then bswap n val else val) n ret r off b Hf Ok1 Ha Hp1 Hn Hal) as (s2 & t & Hio2 & [Ok2 M2 Hh2 Hg2] & Hev).
    rewrite order_bytes in Hh2. exists s2, t. split; [| split].
    + destruct fuel; cbn [helper_st]; rewrite (bind_Done _ _ _ _ _ Hrun), Hpo; change (cbool TLB_NOTDIRTY) with true; cbv iota;
        rewrite Hal, Hidx; cbn [negb]; rewrite (bind_Done _ _ _ _ _ (get_iotlb_run _ _ _ _ Hio)); exact Hio2.
    + constructor; [done | by eapply same_map_trans | by rewrite Hh2, Hh1 |].
      intros h Hh Hne. rewrite Hg2, Hcb; [done | | done]. unfold last_ram_offset in *. by rewrite (proj2 (proj2 M1)).
    + intros Hcd. apply Hev. by rewrite Hcb.
  - destruct (st_direct fuel big n a val m ret s s1 r off b Hok Ha Hp Hin Hrun Hat Hc) as (s2 & H2 & Hst & Hcode).
    exists s2, []. split; [done |]. split; [done |]. by rewrite Hcode.
Qed.

(** ** What a store leaves of the guest's memory *)

(** Where a byte that can be written is: in the host's memory and in RAM. *)
Definition ram_spot s (a p x : Z) : Prop :=
  0 <= a < 2 ^ 32 /\ exists r off b, ram_page s (page a) r off b false /\ p = hp b off + a mod 1024 /\ x = ra b off + a mod 1024.

(** The bytes are there, the rest of the memory is as before, and the code cache was told
    of a write to every page with code that was written. *)
Record guest_stored s s' (t : list (phys_event (mmu_event E))) (a : Z) (bs : list Z) : Prop := {
  gs_ok : mmu_ok s';
  gs_map : same_map s s';
  gs_bytes : guest_bytes s' a bs;
  gs_other : forall p, (forall i, (i < length bs)%nat -> ~ guest_place s (a + Z.of_nat i) p) -> ram_byte (ms_host s') p = ram_byte (ms_host s) p;
  gs_memory : Memory.ram_ok (ms_host s) -> Memory.ram_ok (ms_host s');
  gs_noticed : forall i p x, (i < length bs)%nat -> ram_spot s (a + Z.of_nat i) p x -> code_bit s (x / 1024) = false ->
    exists y k, noticed y k ∈ t /\ y / 1024 = x / 1024;
  gs_code : forall h, 0 <= h < last_ram_offset (ms_ram s) / 1024 -> code_bit s' h = code_bit s h \/
    exists i p x, (i < length bs)%nat /\ ram_spot s (a + Z.of_nat i) p x /\ x / 1024 = h
}.

Lemma spot_place s a p x : ram_spot s a p x -> guest_place s a p.
Proof. intros (Ha & r & off & b & Hp & -> & _). split; [done |]. by exists r, off, b, false. Qed.

Lemma ram_spot_map s s' a p x : same_map s s' -> ram_spot s a p x -> ram_spot s' a p x.
Proof. intros Hm (Ha & r & off & b & Hp & Hx). split; [done |]. exists r, off, b. split; [by apply (ram_page_map s) | done]. Qed.

Lemma ram_spot_page s a p x r off b : ram_ok (ms_ram s) -> ram_spot s a p x -> ram_page s (page a) r off b false ->
  p = hp b off + a mod 1024 /\ x = ra b off + a mod 1024 /\ x / 1024 = ra b off / 1024.
Proof.
  intros Hr (Ha & r' & off' & b' & Hp' & -> & ->) Hp. destruct (ram_page_unique _ _ _ _ _ _ _ _ _ _ Hr Hp Hp') as (_ & <- & <- & _).
  split; [done |]. split; [done |]. apply (ram_page_div s _ r off b false _ Hr Hp). apply Z.mod_pos_bound. lia.
Qed.

Lemma ram_spot_number s a p x : ram_ok (ms_ram s) -> ram_spot s a p x -> 0 <= x / 1024 < last_ram_offset (ms_ram s) / 1024.
Proof.
  intros Hr Hs. pose proof Hs as (_ & r & off & b & Hp & _). destruct (ram_spot_page _ _ _ _ _ _ _ Hr Hs Hp) as (_ & _ & ->).
  by apply (ram_page_number s (page a) r off b false).
Qed.

(** Bytes of a store are at different places, also when its pages are the same RAM. *)
Lemma places_apart s a i j p : mmu_ok s -> guest_place s (a + Z.of_nat i) p -> guest_place s (a + Z.of_nat j) p ->
  (i < 1024)%nat -> (j < 1024)%nat -> i = j.
Proof.
  intros Hok (_ & r & off & b & ro & Hp & Hx) (_ & r' & off' & b' & ro' & Hp' & Hx') Hi Hj.
  pose proof (Z.mod_pos_bound (a + Z.of_nat i) 1024 ltac:(lia)) as M1. pose proof (Z.mod_pos_bound (a + Z.of_nat j) 1024 ltac:(lia)) as M2.
  pose proof (rp_range _ _ _ _ _ _ Hp) as (O1 & O2 & O3). pose proof (rp_range _ _ _ _ _ _ Hp') as (O1' & O2' & O3').
  destruct (proj2 (mo_host _ Hok) b b' (rp_block _ _ _ _ _ _ Hp) (rp_block _ _ _ _ _ _ Hp')) as [<- | Hd].
  - assert (Hm : (a + Z.of_nat i) mod 1024 = (a + Z.of_nat j) mod 1024).
    { pose proof (Z.div_mod off 1024 ltac:(lia)) as Q. pose proof (Z.div_mod off' 1024 ltac:(lia)) as Q'. rewrite O2 in Q. rewrite O2' in Q'.
      clear - Hx Hx' Q Q' M1 M2. generalize dependent (off / 1024). generalize dependent (off' / 1024).
      generalize dependent ((a + Z.of_nat i) mod 1024). generalize dependent ((a + Z.of_nat j) mod 1024). intros. lia. }
    pose proof (Z.div_mod (a + Z.of_nat i) 1024 ltac:(lia)). pose proof (Z.div_mod (a + Z.of_nat j) 1024 ltac:(lia)). lia.
  - exfalso. unfold disjoint_range in Hd. lia.
Qed.

(** The address of a byte within a page. *)
Lemma page_within a i : 0 <= a -> a mod 1024 + Z.of_nat i < 1024 -> page (a + Z.of_nat i) = page a /\ (a + Z.of_nat i) mod 1024 = a mod 1024 + Z.of_nat i.
Proof.
  intros Ha Hi. unfold page. pose proof (Z.div_mod a 1024 ltac:(lia)). pose proof (Z.mod_pos_bound a 1024 ltac:(lia)). split.
  - f_equal. symmetry. apply (Z.div_unique _ 1024 _ (a mod 1024 + Z.of_nat i)); lia.
  - symmetry. apply (Z.mod_unique _ _ (a / 1024)); lia.
Qed.

(** A store in one piece. *)
Lemma stored_guest s s' t a bs r off b :
  mmu_ok s -> 0 <= a < 2 ^ 32 -> ram_page s (page a) r off b false -> bs <> [] -> a mod 1024 + Z.of_nat (length bs) <= 1024 -> a + Z.of_nat (length bs) <= 2 ^ 32 ->
  Forall is_byte bs -> stored_to s s' (ra b off / 1024) (hp b off + a mod 1024) bs ->
  (code_bit s (ra b off / 1024) = false -> exists k, noticed (ra b off + a mod 1024) k ∈ t) -> guest_stored s s' t a bs.
Proof.
  intros Hok Ha Hp Hne Hn Hlim Hby [Ok' M' Hh' Hg'] Hev. pose proof (mo_ram _ Hok) as Hr.
  assert (Hin : forall i, (i < length bs)%nat -> guest_place s (a + Z.of_nat i) (hp b off + a mod 1024 + Z.of_nat i)).
  { intros i Hi. destruct (page_within a i) as [H1 H2]; [lia | lia |]. split; [lia |]. exists r, off, b, false. rewrite H1, H2. split; [done | lia]. }
  assert (Hpos : (0 < length bs)%nat) by (destruct bs; cbn; [done | lia]). pose proof (Z.mod_pos_bound a 1024 ltac:(lia)) as Ho.
  constructor; [done | done | | | | |].
  - intros i x Hx. pose proof (lookup_lt_Some _ _ _ Hx) as Hi. exists (hp b off + a mod 1024 + Z.of_nat i). split; [by apply (guest_place_map s), Hin |].
    rewrite Hh'. unfold ram_byte. rewrite ram_write_lookup, (proj2 (Z.leb_le _ _)), (proj2 (Z.ltb_lt _ _)) by lia. cbn [andb].
    replace (Z.to_nat _) with i by lia. by rewrite Hx.
  - intros p Hout. rewrite Hh'. unfold ram_byte. rewrite ram_write_lookup.
    destruct (Z.leb_spec (hp b off + a mod 1024) p), (Z.ltb_spec p (hp b off + a mod 1024 + Z.of_nat (length bs))); cbn [andb]; try done.
    exfalso. apply (Hout (Z.to_nat (p - (hp b off + a mod 1024)))); [lia |].
    replace p with (hp b off + a mod 1024 + Z.of_nat (Z.to_nat (p - (hp b off + a mod 1024)))) at 2 by lia. apply Hin. lia.
  - intros Hm. rewrite Hh'. by apply ram_write_ok.
  - intros i p x Hi Hs Hc. destruct (page_within a i) as [H1 _]; [lia | lia |].
    destruct (ram_spot_page s _ _ _ r off b Hr Hs ltac:(by rewrite H1)) as (_ & _ & Hx). rewrite Hx in Hc.
    destruct (Hev Hc) as [k Hk]. exists (ra b off + a mod 1024), k. split; [done |]. rewrite Hx. by apply (ram_page_div s _ r off b false _ Hr Hp).
  - intros h Hh. destruct (decide (h = ra b off / 1024)) as [-> | Hneq]; [right | left; by apply Hg'].
    exists 0%nat, (hp b off + a mod 1024), (ra b off + a mod 1024). rewrite Z.add_0_r. split; [done |]. split.
    + split; [done |]. by exists r, off, b.
    + by apply (ram_page_div s _ r off b false _ Hr Hp).
Qed.

(** The last bytes first, then those before them. *)
Lemma guest_stored_app s s1 s2 t1 t2 a bs ys :
  mmu_ok s -> (length bs + length ys <= 1024)%nat ->
  guest_stored s s1 t1 (a + Z.of_nat (length bs)) ys -> guest_stored s1 s2 t2 a bs -> guest_stored s s2 (t1 ++ t2) a (bs ++ ys).
Proof.
  intros Hok Hl [A1 A2 A3 A4 A5 A6 A7] [B1 B2 B3 B4 B5 B6 B7].
  assert (Hback : forall x p, guest_place s1 x p -> guest_place s x p) by (intros x p; apply guest_place_map; by apply same_map_sym).
  assert (Hspot : forall x p y, ram_spot s1 x p y -> ram_spot s x p y) by (intros x p y; apply ram_spot_map; by apply same_map_sym).
  constructor; [done | by eapply same_map_trans | | | tauto | |].
  - intros i x Hx. apply lookup_app_Some in Hx as [Hx | [Hge Hx]]; [by apply B3 |].
    destruct (A3 _ x Hx) as (p & Hp & ->). pose proof (lookup_lt_Some _ _ _ Hx) as Hi.
    replace (a + Z.of_nat (length bs) + Z.of_nat (i - length bs)) with (a + Z.of_nat i) in Hp by lia.
    exists p. split; [by apply (guest_place_map s1) |]. symmetry. apply B4. intros j Hj Hpj.
    pose proof (places_apart s1 a i j p A1 Hp Hpj ltac:(lia) ltac:(lia)). lia.
  - intros p Hout. rewrite length_app in Hout. rewrite B4; [apply A4 |]; intros i Hi Hpl.
    + apply (Hout (length bs + i)%nat); [lia |]. by replace (a + Z.of_nat (length bs + i)) with (a + Z.of_nat (length bs) + Z.of_nat i) by lia.
    + apply (Hout i); [lia | by apply Hback].
  - intros i p x Hi Hs Hc. rewrite length_app in Hi. pose proof (ram_spot_number _ _ _ _ (mo_ram _ Hok) Hs) as Hh.
    assert (Hearly : (exists j q y, (j < length ys)%nat /\ ram_spot s (a + Z.of_nat (length bs) + Z.of_nat j) q y /\ y / 1024 = x / 1024) ->
      exists y k, noticed y k ∈ t1 ++ t2 /\ y / 1024 = x / 1024).
    { intros (j & q & y & Hj & Hsy & Hxy). rewrite <- Hxy in Hc. destruct (A6 j q y Hj Hsy Hc) as (z & k & Hz & Hzy). exists z, k.
      split; [apply elem_of_app; by left | congruence]. }
    destruct (decide (i < length bs)%nat) as [Hlt | Hge].
    + destruct (A7 _ Hh) as [Hsame | Hex]; [| by apply Hearly]. rewrite <- Hsame in Hc.
      destruct (B6 i p x Hlt ltac:(by apply (ram_spot_map s)) Hc) as (y & k & Hy & Hyx). exists y, k. split; [apply elem_of_app; by right | done].
    + apply Hearly. exists (i - length bs)%nat, p, x. split; [lia |]. split; [| done].
      by replace (a + Z.of_nat (length bs) + Z.of_nat (i - length bs)) with (a + Z.of_nat i) by lia.
  - intros h Hh. rewrite length_app. destruct (A7 h Hh) as [Ha | (i & p & x & Hi & Hs & Hx)].
    + assert (Hh1 : 0 <= h < last_ram_offset (ms_ram s1) / 1024) by (unfold last_ram_offset in *; by rewrite (proj2 (proj2 A2))).
      destruct (B7 h Hh1) as [Hb | (i & p & x & Hi & Hs & Hx)]; [left; congruence |].
      right. exists i, p, x. split; [lia |]. split; [by apply Hspot | done].
    + right. exists (length bs + i)%nat, p, x. split; [lia |]. split; [| done].
      by replace (a + Z.of_nat (length bs + i)) with (a + Z.of_nat (length bs) + Z.of_nat i) by lia.
Qed.

(** The bytes that the loop of an unaligned store takes from the value. *)
Lemma le_bytes_nth n v j : (j < n)%nat -> le_bytes n v !! j = Some (u8 (v >> (8 * Z.of_nat j))).
Proof.
  revert v j. induction n as [|n IH]; intros v j Hj; [lia |]. destruct j as [|j]; [by rewrite Z.shiftr_0_r |]. cbn [le_bytes lookup list_lookup].
  change (list_lookup j ?l) with (l !! j). rewrite IH by lia. rewrite Z.shiftr_shiftr by lia. do 3 f_equal. lia.
Qed.

Lemma store_byte_value (big : bool) n v j : (j < n)%nat ->
  order big (le_bytes n v) !! j = Some (u8 (v >> (if big then Z.of_nat (n - 1) * 8 - Z.of_nat j * 8 else Z.of_nat j * 8))).
Proof.
  intros Hj. destruct big; cbn [order].
  - rewrite reverse_lookup by (by rewrite le_bytes_length). rewrite le_bytes_length, le_bytes_nth by lia. do 3 f_equal. lia.
  - rewrite le_bytes_nth by done. do 3 f_equal. lia.
Qed.

Lemma order_length (big : bool) (bs : list Z) : length (order big bs) = length bs.
Proof. destruct big; [apply length_reverse | done]. Qed.

Lemma order_byte (big : bool) bs : Forall is_byte bs -> Forall is_byte (order big bs).
Proof. destruct big; [cbn [order]; by rewrite Forall_reverse | done]. Qed.

Lemma guest_stored_nil s a : mmu_ok s -> guest_stored s s [] a [].
Proof. intros Hok. constructor; try done; [intros i p x Hi; cbn in Hi; lia | by left]. Qed.

(** The guest's bytes from [a] on can be written. *)
Definition writable s (a : Z) (n : nat) : Prop :=
  0 <= a /\ a + Z.of_nat n <= 2 ^ 32 /\ forall i, (i < n)%nat -> exists p x, ram_spot s (a + Z.of_nat i) p x.

Lemma writable_map s s' a n n' : same_map s s' -> (n' <= n)%nat -> writable s a n -> writable s' a n'.
Proof.
  intros Hm Hn (H1 & H2 & H3). split; [done |]. split; [lia |]. intros i Hi. destruct (H3 i ltac:(lia)) as (p & x & Hs).
  exists p, x. by apply (ram_spot_map s).
Qed.

Lemma st_byte s a v m ret p x : fast_ok -> mmu_ok s -> (m < 2)%nat -> ram_spot s a p x ->
  exists s' t, helper_st dev_ops ram_addr unassigned tb_fast walk 0 false 1 a (u8 v) m ret s = Done () s' t /\ guest_stored s s' t a [u8 v].
Proof.
  intros Hf Hok Hm (Ha & r & off & b & Hp & _). destruct (st_aligned 0 false 1 a (u8 v) m ret s r off b Hf Hok Ha Hm Hp) as (s' & t & Hrun & Hst & Hev);
    [by left | unfold is_aligned; by rewrite Z.land_0_r |]. exists s', t. split; [done |].
  assert (Hby : le_bytes 1 (u8 v) = [u8 v]) by (cbn; f_equal; unfold u8; apply Z.mod_mod; lia). cbn [order] in Hst. rewrite Hby in Hst.
  pose proof (Z.mod_pos_bound a 1024 ltac:(lia)).
  apply (stored_guest s s' t a [u8 v] r off b); try done; cbn [length]; [lia | lia | by repeat constructor; apply u8_range |]. eauto.
Qed.

Lemma store_bytes_run big n a v m ret i : forall s, fast_ok -> mmu_ok s -> (m < 2)%nat -> (i <= n)%nat -> (n <= 8)%nat -> writable s a i ->
  exists s' t, store_bytes (λ a v, helper_st dev_ops ram_addr unassigned tb_fast walk 0 false 1 a v m ret) big n a v i s = Done () s' t /\
    guest_stored s s' t a (take i (order big (le_bytes n v))).
Proof.
  induction i as [|i IH]; intros s Hf Hok Hm Hi Hn Hw; [exists s, []; split; [done | by apply guest_stored_nil] |].
  pose proof Hw as (Ha & Hlim & Hsp). destruct (Hsp i ltac:(lia)) as (p & x & Hs). cbn [store_bytes]. rewrite u32_small by lia.
  set (sh := if big then Z.of_nat (n - 1) * 8 - Z.of_nat i * 8 else Z.of_nat i * 8).
  destruct (st_byte s (a + Z.of_nat i) (v >> sh) m ret p x Hf Hok Hm Hs) as (s1 & t1 & Hrun1 & G1).
  destruct (IH s1 Hf (gs_ok _ _ _ _ _ G1) Hm ltac:(lia) Hn ltac:(apply (writable_map s _ a (S i)); [apply G1 | lia | done])) as (s2 & t2 & Hrun2 & G2).
  exists s2, (t1 ++ t2). split; [by apply (bind_Done_trace _ _ _ _ _ _ _ _ _ Hrun1) |].
  rewrite (take_S_r _ _ _ (store_byte_value big n v i ltac:(lia))). fold sh.
  assert (Hlen : length (take i (order big (le_bytes n v))) = i) by (rewrite length_take, order_length, le_bytes_length; lia).
  apply (guest_stored_app s s1 s2); [done | rewrite Hlen; cbn; lia | by rewrite Hlen | done].
Qed.

(** The lookup alone changes nothing that a store leaves. *)
Lemma guest_stored_after s s1 s' t a bs : mmu_ok s -> same_map s s1 -> ms_host s1 = ms_host s -> dirty_memory (ms_ram s1) = dirty_memory (ms_ram s) ->
  guest_stored s1 s' t a bs -> guest_stored s s' t a bs.
Proof.
  intros Hok M H1 H2 [A1 A2 A3 A4 A5 A6 A7].
  assert (Hcb : forall g, code_bit s1 g = code_bit s g) by (intros g; unfold code_bit, dirty; by rewrite H2).
  constructor; [done | by eapply same_map_trans | done | | by rewrite <- H1 | |].
  - intros p Hout. rewrite <- H1. apply A4. intros i Hi Hpl. apply (Hout i Hi). apply (guest_place_map s1); [by apply same_map_sym | done].
  - intros i p x Hi Hs Hc. apply (A6 i p x Hi); [by apply (ram_spot_map s) | by rewrite Hcb].
  - intros h Hh. rewrite <- Hcb. destruct (A7 h) as [| (i & p & x & Hi & Hs & Hx)]; [unfold last_ram_offset in *; by rewrite (proj2 (proj2 M)) | by left |].
    right. exists i, p, x. split; [done |]. split; [apply (ram_spot_map s1); [by apply same_map_sym | done] | done].
Qed.

(** A store, aligned or not, in one page or two. *)
Lemma st_guest big n a val m ret s :
  fast_ok -> mmu_ok s -> (m < 2)%nat -> n ∈ store_sizes -> writable s a n ->
  exists s' t, helper_st dev_ops ram_addr unassigned tb_fast walk 1 big n a val m ret s = Done () s' t /\
    guest_stored s s' t a (order big (le_bytes n val)).
Proof.
  intros Hf Hok Hm Hn Hw. pose proof Hw as (Ha0 & Hlim & Hsp). destruct (store_size_word n Hn) as [_ Hn4].
  destruct (Hsp 0%nat ltac:(lia)) as (p & x & (Ha & r & off & b & Hp & _)). rewrite Z.add_0_r in Ha, Hp.
  pose proof (order_byte big _ (le_bytes_byte n val)) as Hby. assert (Hlen : length (order big (le_bytes n val)) = n) by (by rewrite order_length, le_bytes_length).
  assert (Hne : order big (le_bytes n val) <> []) by (intros He; rewrite He in Hlen; cbn in Hlen; lia).
  destruct (is_aligned n a) eqn:Hal.
  { destruct (st_aligned 1 big n a val m ret s r off b Hf Hok Ha Hm Hp Hn Hal) as (s' & t & Hrun & Hst & Hev). exists s', t. split; [done |].
    destruct (aligned_ram _ _ _ _ _ _ _ _ (mo_ram _ Hok) Hp Hn Hal Ha) as [_ Hin].
    apply (stored_guest s s' t a _ r off b); try done; [by rewrite Hlen | by rewrite Hlen | eauto]. }
  destruct (lookup_run s a addr_write m r off b false Hok Ha Hm (or_intror (or_introl eq_refl)) Hp) as (s1 & f & Hrun & Hat).
  pose proof Hat as [Ok1 M1 Hh1 Hd1 Hfl Hwf _ _]. cbn [addr_write ram_entry] in Hrun.
  destruct (store_bytes_run big n a val m ret n s1 Hf Ok1 Hm ltac:(lia) ltac:(lia) ltac:(by apply (writable_map s _ a n))) as (s' & t & Hst & G).
  rewrite take_ge in G by lia. apply (guest_stored_after s) in G; [| done | done | done | done].
  assert (Hbytes : (if cbool (page_offset (page a .| f)) then true else spans n a) = true -> exists s' t,
    helper_st dev_ops ram_addr unassigned tb_fast walk 1 big n a val m ret s = Done () s' t /\ guest_stored s s' t a (order big (le_bytes n val))).
  { intros Hun. exists s', t. split; [| done]. cbn [helper_st]. rewrite (bind_Done _ _ _ _ _ Hrun), Hal. cbn [negb].
    destruct (cbool (page_offset (page a .| f))); [exact Hst |]. rewrite Hun. exact Hst. }
  destruct Hwf as [-> | [-> Hc]].
  { apply Hbytes. by rewrite (flag_offset (page a) TLB_NOTDIRTY (page_of_page a Ha) Hfl). }
  destruct (decide (a mod 1024 + Z.of_nat n <= 1024)) as [Hin | Hout].
  - destruct (st_direct 1 big n a val m ret s s1 r off b Hok Ha Hp Hin Hrun Hat Hc) as (s2 & H2 & Hst2 & Hcode).
    exists s2, []. split; [done |]. apply (stored_guest s s2 [] a _ r off b); try done; [by rewrite Hlen | by rewrite Hlen | by rewrite Hcode].
  - apply Hbytes. destruct (cbool _); [done |]. unfold spans. rewrite page_offset_mod. change TARGET_PAGE_SIZE with 1024. apply andb_true_iff. split.
    + apply Nat.ltb_lt. pose proof (Z.mod_pos_bound a 1024 ltac:(lia)). lia.
    + apply Z.leb_le. lia.
Qed.

(** ** Pages that become clean *)

(** Whole pages of a block. *)
Definition pages_of s (x len : Z) b : Prop :=
  b ∈ blocks (ms_ram s) /\ x mod 1024 = 0 /\ len mod 1024 = 0 /\ 0 < len /\ rb_offset b <= x /\ x + len <= rb_offset b + rb_length b.

(** A page of the range, by its number and by its place in host memory. *)
Lemma page_in_range s x len b v r off b' : ram_ok (ms_ram s) -> pages_of s x len b -> ram_page s v r off b' false ->
  (x / 1024 <=? ra b' off / 1024) && (ra b' off / 1024 <? (x + len + 1023) / 1024) = true ->
  b' = b /\ x <= ra b off < x + len.
Proof.
  intros Hr (Hb & Hx & Hl & Hpos & H1 & H2) Hp Hin. apply andb_true_iff in Hin as [I1 I2]. apply Z.leb_le in I1. apply Z.ltb_lt in I2.
  destruct (ram_page_range _ _ _ _ _ _ Hr Hp) as (R1 & R2 & R3 & _). pose proof (rp_range _ _ _ _ _ _ Hp) as (O1 & _ & O3).
  pose proof (Z.div_mod x 1024 ltac:(lia)) as Dx. pose proof (Z.div_mod (ra b' off) 1024 ltac:(lia)) as Dr. pose proof (Z.div_mod len 1024 ltac:(lia)) as Dl.
  assert (He : (x + len + 1023) / 1024 = x / 1024 + len / 1024).
  { symmetry. apply (Z.div_unique _ 1024 _ 1023); lia. }
  rewrite He in I2. assert (Hrange : x <= ra b' off < x + len) by lia.
  assert (b' = b) as ->; [| done]. apply (inside_unique (ms_ram s) b' b (ra b' off) Hr (rp_block _ _ _ _ _ _ Hp) Hb); unfold inside; lia.
Qed.

(** The dirty bits of a client are cleared for the pages of a range. *)
Definition cleared (client x len : Z) s s' : Prop := forall c g, 0 <= c < 3 -> 0 <= g < last_ram_offset (ms_ram s) / 1024 ->
  dirty (ms_ram s') c g =
    if bool_decide (c = client) && ((x / 1024 <=? g) && (g <? (x + len + 1023) / 1024)) then false else dirty (ms_ram s) c g.

(** The entry after the bits of the range have been cleared. *)
Lemma reset_entry s s' x len b client i e io :
  mmu_ok s -> pages_of s x len b -> same_map s s' -> cleared client x len s s' ->
  entry_ok s i e io -> entry_ok s' i (tlb_reset_dirty_range (rb_host b + (x - rb_offset b)) len e) io.
Proof.
  intros Hok Hpg Hm Hcl He. unfold tlb_reset_dirty_range.
  destruct He as [-> | v r off b' ro f Hp Hi Hf Hw -> Hio | v k xlat Hp Hi -> Hio].
  - by apply entry_blank.
  - rewrite (dirty_flag v f (ram_entry v (hp b' off) (v .| f)) (rp_addr _ _ _ _ _ _ Hp) Hf eq_refl). pose proof (ram_page_map _ _ _ _ _ _ _ Hm Hp) as Hp'.
    destruct (Z.eqb_spec f 0) as [-> | Hne].
    + destruct ro; [done |]. destruct Hw as [| [_ Hc0]]; [done |]. rewrite Z.lor_0_r. cbn [addr_write addend ram_entry].
      destruct (ram_page_range _ _ _ _ _ _ (mo_ram _ Hok) Hp) as (R1 & R2 & R3 & R4 & R5 & R6). pose proof (rp_addr _ _ _ _ _ _ Hp) as [Hv Hvm].
      assert (Hhp : u64 ((v .& PAGE_MASK32) + u64 (hp b' off - v)) = hp b' off).
      { rewrite page32 by done. replace (v / 1024 * 1024) with v by (pose proof (Z.div_mod v 1024 ltac:(lia)); lia).
        unfold u64. rewrite Zplus_mod_idemp_r, Z.mod_small by lia. lia. }
      rewrite Hhp. destruct (Z.ltb_spec (u64 (hp b' off - (rb_host b + (x - rb_offset b)))) len) as [Hin | Hout].
      * apply (entry_ram _ _ _ _ v r off b' false TLB_NOTDIRTY); [done | done | by right; left | by left | done | done].
      * apply (entry_ram _ _ _ _ v r off b' false 0); [done | done | done | | by rewrite Z.lor_0_r | done].
        right. split; [done |]. pose proof (ram_page_number _ _ _ _ _ _ (mo_ram _ Hok) Hp) as Hnum.
        assert (Hd : forall c, 0 <= c < 3 -> dirty (ms_ram s') c (ra b' off / 1024) = dirty (ms_ram s) c (ra b' off / 1024)).
        { intros c Hc3. rewrite Hcl by done. destruct (bool_decide (c = client)); [| done]. cbn [andb].
          destruct (_ && _) eqn:Hr; [| done]. exfalso. destruct (page_in_range s x len b v r off b' (mo_ram _ Hok) Hpg Hp Hr) as [-> Hx].
          destruct Hpg as (_ & _ & _ & _ & P1 & P2). pose proof (rp_range _ _ _ _ _ _ Hp). pose proof (rp_host _ _ _ _ _ _ Hp).
          rewrite u64_small in Hout by lia. lia. }
        unfold clean_page in *. rewrite !Hd by lia. exact Hc0.
    + apply (entry_ram _ _ _ _ v r off b' ro f); [done | done | done | | done | done].
      unfold write_flag in *. destruct ro; [done |]. destruct Hw as [| [-> _]]; [by left | done].
  - rewrite (dirty_flag v TLB_MMIO (io_entry v) (ip_addr _ _ _ _ Hp) (or_intror (or_intror eq_refl)) eq_refl). cbn [Z.eqb].
    by apply (entry_io _ _ _ _ v k xlat); [by apply (io_page_map s) | ..].
Qed.

(** A block is found by an address in it. *)
Lemma on_ram_block s b x : ram_ok (ms_ram s) -> b ∈ blocks (ms_ram s) -> inside b x ->
  (on_ram (qemu_get_ram_block x) : PIO RAMBlock) s = Done b (read_state s b) [].
Proof. intros Hok Hb Hi. by rewrite (on_ram_run _ _ _ _ _ (get_ram_block_run _ b x Hok Hb Hi)). Qed.

Lemma page_rounded x : 0 <= x <= 2 ^ 64 - 1024 -> x mod 1024 = 0 -> TARGET_PAGE_ALIGN x = x /\ x .& TARGET_PAGE_MASK = x.
Proof.
  intros Hx Hm. pose proof (Z.div_mod x 1024 ltac:(lia)). rewrite page_align_up, page_base by lia. split; [| lia].
  assert (Hd : (x + 1023) / 1024 = x / 1024) by (symmetry; apply (Z.div_unique _ 1024 _ 1023); lia). lia.
Qed.

(** Clearing dirty bits of pages resets the entries through which they are written. *)
Lemma reset_dirty_run s x len client b : mmu_ok s -> pages_of s x len b -> 0 <= client < 3 ->
  exists s', (cpu_physical_memory_reset_dirty x len client : PIO unit) s = Done () s' [] /\ mmu_ok s' /\ same_map s s' /\ ms_host s' = ms_host s /\
    cleared client x len s s'.
Proof.
  intros Hok Hpg Hc. pose proof Hpg as (Hb & Hx & Hl & Hpos & H1 & H2). pose proof (wf_lookup _ b (mo_ram _ Hok) Hb) as (W1 & W2 & W3 & W4 & _). unfold RAM_ADDR_MAX in W3.
  pose proof (last_ram_bound _ b (mo_ram _ Hok) Hb) as Hlast. destruct (proj1 (mo_host _ Hok) b Hb) as [Hh1 Hh2].
  assert (Hin : in_ram (ms_ram s) x len) by (unfold in_ram; lia).
  destruct (clear_dirty_run (ms_ram s) x len client (mo_ram _ Hok) Hin Hc) as (r1 & Hclear & Hmk). pose proof Hmk as ((Hbl & _) & Hr1 & Hbits & Hbits').
  set (s1 := s <| ms_ram := r1 |>). assert (M1 : same_map s s1) by done.
  assert (Hb1 : b ∈ blocks r1) by (by rewrite Hbl).
  set (r2 := r1 <| mru_block := Some b |>). assert (Hr2 : ram_ok r2) by (by apply ram_ok_mru).
  set (f := tlb_reset_dirty_range (rb_host b + (x - rb_offset b)) len).
  set (c' := mmu s <| tlb_table := (λ l : list CPUTLBEntry, f <$> l) <$> tlb_table (mmu s) |>).
  set (s' := s <| ms_ram := r2 |> <| ms_devices := c' |>). assert (M' : same_map s s') by done.
  assert (Hcl : cleared client x len s s').
  { intros c g Hc3 Hg. change (dirty (ms_ram s') c g) with (dirty r1 c g). case_bool_decide as Hcc; [subst c; by apply Hbits | by apply Hbits']. }
  exists s'. split; [| split; [| done]].
  - unfold cpu_physical_memory_reset_dirty. rewrite (proj2 (Z.eqb_neq len 0)) by lia. rewrite (bind_Done _ _ _ _ _ (on_ram_run _ _ _ _ _ Hclear)). fold s1.
    unfold tlb_reset_dirty_range_all. assert (Hxl : (x + len) mod 1024 = 0) by (by rewrite Zplus_mod, Hx, Hl).
    assert (Hxm : x + len <= 2 ^ 64 - 1024) by (pose proof (Z.div_mod (x + len) 1024 ltac:(lia)); lia).
    rewrite (u64_small (x + len)) by lia. destruct (page_rounded (x + len) ltac:(lia) Hxl) as [-> _]. destruct (page_rounded x ltac:(lia) Hx) as [_ ->].
    rewrite (u64_small (x + len - 1)) by lia.
    rewrite (bind_Done _ _ _ _ _ (on_ram_block s1 b x Hr1 Hb1 ltac:(unfold inside; lia))).
    rewrite (bind_Done _ _ _ _ _ (on_ram_block (read_state s1 b) b (x + len - 1) Hr2 Hb1 ltac:(unfold inside; lia))).
    rewrite bool_decide_eq_true_2 by done. rewrite (bind_Done (assert_ true) _ _ _ _ eq_refl).
    rewrite (u64_small (x - rb_offset b)), (u64_small (rb_host b + _)) by lia. done.
  - pose proof Hok as [Hr Hh Ho Hs He]. constructor; [done | by cbn; rewrite Hbl | done | done |].
    intros m i Hm Hi. destruct (He m i Hm Hi) as (e & io & Ht & Hio & Hent). exists (f e), io. split; [| split; [exact Hio |]].
    + unfold tlb_at in *. change (tlb_table (mmu s')) with ((λ l : list CPUTLBEntry, f <$> l) <$> tlb_table (mmu s)).
      rewrite list_lookup_fmap. destruct (tlb_table (mmu s) !! m) as [l |]; [| done].
      cbn in Ht |- *. by rewrite list_lookup_fmap, Ht.
    + by apply (reset_entry s s' x len b client).
Qed.

(** A page without code: its stores need not be noticed. *)
Lemma unprotect_run s x : mmu_ok s -> in_ram (ms_ram s) x 1 ->
  exists s', (tlb_unprotect_code_phys x : PIO unit) s = Done () s' [] /\ mmu_ok s' /\ same_map s s' /\ ms_host s' = ms_host s /\ code_bit s' (x / 1024) = true.
Proof.
  intros Hok Hin. pose proof (mo_ram _ Hok) as Hr. destruct (bitmap_of (ms_ram s) DIRTY_MEMORY_CODE Hr ltac:(unfold DIRTY_MEMORY_CODE; lia)) as (bm & Hm & Hw & Hcap).
  destruct (ram_pages _ x 1 Hr Hin) as (Hp1 & _ & Hlt & Hle).
  destruct (set_bit_ok bm (x / 1024) Hw ltac:(lia)) as (m' & Hset & Hbits).
  destruct (with_dirty_run (ms_ram s) DIRTY_MEMORY_CODE (set_bit (page_of x)) bm m' true (x / 1024) (x / 1024 + 1) Hr ltac:(unfold DIRTY_MEMORY_CODE; lia) Hm)
    as (r' & Hrun & ((Hbl & Hmru & Hver) & Hr' & Hb1 & Hb2)); [by rewrite Hp1 | exact Hbits |].
  exists (s <| ms_ram := r' |>). assert (M : same_map s (s <| ms_ram := r' |>)) by done. split; [| split; [| split; [done | split; [done |]]]].
  - unfold tlb_unprotect_code_phys, cpu_physical_memory_set_dirty_flag. change (DIRTY_MEMORY_CODE <? DIRTY_MEMORY_NUM) with true.
    by rewrite (on_ram_run _ s () r' []) by (rewrite (bind_Done (assert_ true) _ _ _ _ eq_refl); exact Hrun).
  - apply (calm_ok s); [done |]. constructor; try done. intros p Hp. unfold clean_page. cbn [ms_ram]. change (dirty (ms_ram (s <| ms_ram := r' |>))) with (dirty r').
    rewrite !negb_false_iff, !andb_true_iff. intros [[H0 H1] H2]. rewrite (Hb2 0), (Hb2 2), H0, H2 by (done || unfold DIRTY_MEMORY_CODE; lia).
    change 1 with DIRTY_MEMORY_CODE at 1. rewrite Hb1 by done. by destruct (_ && _).
  - unfold code_bit. change (ms_ram (s <| ms_ram := r' |>)) with r'. rewrite Hb1 by lia.
    by rewrite (proj2 (Z.leb_le _ _)), (proj2 (Z.ltb_lt _ _)) by lia.
Qed.

(** ** Device pages *)

Lemma io_page_unique s v k k' xlat xlat' : io_page s v k xlat -> io_page s v k' xlat' -> k = k' /\ xlat = xlat'.
Proof.
  intros [_ (sec & Hl & _)] [_ (sec' & Hl' & _)]. unfold page_lookup in *. rewrite Hl in Hl'. by injection Hl'.
Qed.

(** What a lookup leaves of the rest. *)
Definition only_table s s' : Prop :=
  same_map s s' /\ ms_host s' = ms_host s /\ dirty_memory (ms_ram s') = dirty_memory (ms_ram s) /\ cpu_outside (mmu s') = cpu_outside (mmu s).

Lemma lookup_io s a field m k xlat : mmu_ok s -> 0 <= a < 2 ^ 32 -> (m < 2)%nat -> is_field field -> io_page s (page a) k xlat ->
  exists s', (lookup_tlb ram_addr walk field a m : PIO Z) s = Done (page a .| TLB_MMIO) s' [] /\ mmu_ok s' /\ only_table s s' /\
    iotlb_at (mmu s') m (tlb_index a) = Some (u64 (u64 (k + xlat) - page a)).
Proof.
  intros Hok Ha Hm Hfd Hp. destruct (tlb_index_page a Ha) as [Hidx Hlt]. fold (page a) in Hidx.
  destruct (mo_entries _ Hok m (tlb_index a) Hm Hlt) as (e & io & He & Hio & Hent).
  assert (Hfe : forall v, field (io_entry v) = v .| TLB_MMIO) by (by destruct Hfd as [-> | [-> | ->]]).
  unfold lookup_tlb. rewrite (bind_Done _ _ _ _ _ (get_tlb_run _ _ _ _ He)). destruct (other_page a (field e)) eqn:Ho.
  - destruct (set_page_io s _ k xlat m Hok Hp Hm) as (s' & Hrun & Ok' & M' & Hh & Hr & Ht & Hi & Hd). exists s'.
    rewrite (bind_Done _ _ s () s'); [| rewrite tlb_fill_run by done; by rewrite (bind_Done _ _ _ _ _ Hrun)].
    rewrite Hidx, (bind_Done _ _ _ _ _ (get_tlb_run _ _ _ _ Ht)), Hfe. split; [done |]. split; [done |]. split; [| done].
    split; [done |]. split; [done |]. split; [by rewrite Hr | done].
  - exists s. destruct Hent as [-> | v r off b ro f Hp' Hi Hf Hw He' _ | v k' xlat' Hp' Hi He' Hio'].
    + exfalso. assert (Hbl : other_page a (field tlb_blank) = true) by (destruct Hfd as [-> | [-> | ->]]; by apply blank_page). by rewrite Hbl in Ho.
    + exfalso. destruct (field_ram field v (hp b off) f Hfd Hf) as (g & Hg & Hfg). rewrite He', Hfg, same_page in Ho by (done || apply (rp_addr _ _ _ _ _ _ Hp')).
      apply negb_false_iff, Z.eqb_eq in Ho. fold (page a) in Ho. subst v. by apply (ram_not_io s (page a) r off b ro k xlat).
    + rewrite He', Hfe, same_page in Ho by (done || apply (ip_addr _ _ _ _ Hp') || by right; right).
      apply negb_false_iff, Z.eqb_eq in Ho. fold (page a) in Ho. subst v. destruct (io_page_unique _ _ _ _ _ _ Hp Hp') as [<- <-].
      rewrite He', Hfe. split; [done |]. split; [done |]. split; [done |]. by rewrite Hio, Hio'.
Qed.

(** The state in which a device is reached: the table has the page, and the access is
    noted. *)
Definition at_device s s' (a ret : Z) : Prop :=
  mmu_ok s' /\ only_table s s' /\ mem_io_vaddr (mmu s') = a /\ mem_io_pc (mmu s') = ret.

Lemma io_access s a m k xlat sec field ret : mmu_ok s -> 0 <= a < 2 ^ 32 -> (m < 2)%nat -> is_field field -> io_page s (page a) k xlat ->
  sections (ms_dispatch s) !! Z.to_nat k = Some sec -> 0 <= k < 1024 -> 0 <= xlat < 2 ^ 64 - 1024 -> xlat mod 1024 = 0 ->
  exists s1 io, (lookup_tlb ram_addr walk field a m : PIO Z) s = Done (page a .| TLB_MMIO) s1 [] /\
    iotlb_at (mmu s1) m (tlb_index a) = Some io /\ (iotlb_to_region io : PIO phys_mr) s1 = Done (ps_mr sec) s1 [] /\
    u64 ((io .& TARGET_PAGE_MASK) + a) = xlat + a mod 1024 /\
    at_device s (s1 <| ms_devices := ms_devices s1 <| mem_io_pc := ret |> <| mem_io_vaddr := a |> |>) a ret.
Proof.
  intros Hok Ha Hm Hfd Hp Hsec Hk Hx Hxm. destruct (lookup_io s a field m k xlat Hok Ha Hm Hfd Hp) as (s1 & Hrun & Ok1 & Hot & Hio).
  destruct (iotlb_parts xlat k a Hx Hxm Hk Ha) as [Hs Hoff]. rewrite (u64_small (k + xlat)), (Z.add_comm k) in Hio by lia.
  pose proof Hot as ((Hd & _) & _). exists s1, (u64 (xlat + k - page a)). split; [done |]. split; [done |]. split; [| split; [done |]].
  - apply (io_region_run s1 _ sec); [| done]. by rewrite Hs, Hd.
  - split; [| by split]. apply (calm_ok s1); [done |]. constructor; try done; [apply (mo_ram _ Ok1) | by intros p].
Qed.

Lemma mmio_access a : 0 <= a < 2 ^ 32 -> cbool (page_offset (page a .| TLB_MMIO)) = true.
Proof. intros Ha. by rewrite (flag_offset (page a) TLB_MMIO (page_of_page a Ha) (or_intror (or_intror eq_refl))). Qed.

(** C23 (device_pages).  An aligned access of the processor to a page of a device is one
    access to the region of the page, of the size of the access and at the offset of the
    address in the region, whatever the table holds; before, only the table changes, and
    the address and the program counter are noted. *)
Theorem device_pages big n a m ret s k xlat sec :
  mmu_ok s -> 0 <= a < 2 ^ 32 -> (m < 2)%nat -> is_aligned n a = true -> io_page s (page a) k xlat ->
  sections (ms_dispatch s) !! Z.to_nat k = Some sec -> 0 <= k < 1024 -> 0 <= xlat < 2 ^ 64 - 1024 -> xlat mod 1024 = 0 ->
  (forall kind, exists s1, at_device s s1 a ret /\
     helper_ld dev_ops ram_addr unassigned tb_fast walk 1 big n kind a m ret s =
       ('(_, v) ← io_mem_read unassigned (mr_ops (all_ops dev_ops ram_addr unassigned tb_fast (ps_mr sec))) (xlat + a mod 1024) (Z.of_nat n);
        mret (if big then bswap n (data n v) else data n v) : PIO Z) s1) /\
  (forall val, exists s1, at_device s s1 a ret /\
     helper_st dev_ops ram_addr unassigned tb_fast walk 1 big n a val m ret s =
       (_ ← io_mem_write unassigned (mr_ops (all_ops dev_ops ram_addr unassigned tb_fast (ps_mr sec))) (xlat + a mod 1024)
          (if big then bswap n val else val) (Z.of_nat n);
        mret () : PIO unit) s1).
Proof.
  intros Hok Ha Hm Hal Hp Hsec Hk Hx Hxm. split.
  - intros kind. destruct (io_access s a m k xlat sec (ADDR_READ kind) ret Hok Ha Hm (read_field kind) Hp Hsec Hk Hx Hxm) as (s1 & io & Hrun & Hio & Hmr & Hoff & Hat).
    eexists. split; [exact Hat |]. cbn [helper_ld]. rewrite (bind_Done _ _ _ _ _ Hrun), mmio_access, Hal by done. cbn [negb].
    rewrite (bind_Done _ _ _ _ _ (get_iotlb_run _ _ _ _ Hio)). unfold io_read. rewrite bind_assoc, (bind_Done _ _ _ _ _ Hmr), Hoff, bind_assoc.
    unfold upd_mmu. rewrite bind_modify, bind_assoc. unfold mbind, M_bind.
    destruct (io_mem_read _ _ _ _ _) as [[e v] s2 t |]; [| done]. cbn. by rewrite app_nil_r.
  - intros val. destruct (io_access s a m k xlat sec addr_write ret Hok Ha Hm (or_intror (or_introl eq_refl)) Hp Hsec Hk Hx Hxm) as (s1 & io & Hrun & Hio & Hmr & Hoff & Hat).
    eexists. split; [exact Hat |]. cbn [helper_st]. rewrite (bind_Done _ _ _ _ _ Hrun), mmio_access, Hal by done. cbn [negb].
    rewrite (bind_Done _ _ _ _ _ (get_iotlb_run _ _ _ _ Hio)). unfold io_write. rewrite (bind_Done _ _ _ _ _ Hmr), Hoff.
    unfold upd_mmu. by rewrite bind_modify.
Qed.

(** ** The states of the processor *)

(** The tables are of 256 entries for each of the two privileges. *)
Definition tables s : Prop := forall m i, (m < 2)%nat -> (i < 256)%nat ->
  exists e io, tlb_at (mmu s) m i = Some e /\ iotlb_at (mmu s) m i = Some io.

(** What the memory and the processor are like before the table is used. *)
Record mmu_ready (s : Sys) : Prop := {
  mr_ram : ram_ok (ms_ram s);
  mr_host : host_ok (blocks (ms_ram s));
  mr_off : c1_sys (mmu s) .& SCTLR_M = 0 /\ c13_fcse (mmu s) = 0;
  mr_sections : exists sec1 sec2, sections (ms_dispatch s) !! 1%nat = Some sec1 /\ ps_mr sec1 = io_mem_notdirty /\
    sections (ms_dispatch s) !! 2%nat = Some sec2 /\ ps_mr sec2 = io_mem_rom;
  mr_tables : tables s
}.

(** A flush makes the table right, whatever it held. *)
Lemma flushed_ok s : mmu_ready s -> exists s', (tlb_flush : PIO unit) s = Done () s' [DeviceEvent FlushJmpCache] /\ mmu_ok s' /\ same_map s s' /\
  ms_ram s' = ms_ram s /\ ms_host s' = ms_host s.
Proof.
  intros [Hr Hh Ho Hs Ht]. eexists. split; [reflexivity |]. split; [| done]. constructor; [done | done | done | done |].
  intros m i Hm Hi. destruct (Ht m i Hm Hi) as (e & io & He & Hio). exists tlb_blank, io. split; [| split; [exact Hio | by apply entry_blank]].
  unfold tlb_at in *. cbn. rewrite list_lookup_fmap. unfold mmu in He. destruct (tlb_table (ms_devices s) !! m) as [l |]; [| done].
  cbn in He |- *. by rewrite list_lookup_fmap, He.
Qed.

Lemma ok_ready s : mmu_ok s -> mmu_ready s.
Proof.
  intros [Hr Hh Ho Hs He]. constructor; try done. intros m i Hm Hi. destruct (He m i Hm Hi) as (e & io & H1 & H2 & _). by exists e, io.
Qed.

(** What happens to the table: flushes, changes of the memory map, pages that get code
    or lose it, pages whose dirty bits are cleared, loads and stores, and everything
    that leaves the table alone and clears no dirty bit, as the accesses of devices. *)
Inductive mmu_step : Sys → Sys → Prop :=
  | step_flush s s' t : (tlb_flush : PIO unit) s = Done () s' t -> mmu_step s s'
  | step_flush_page s s' addr t : (tlb_flush_page addr : PIO unit) s = Done () s' t -> mmu_step s s'
  | step_map s s' d rg t : mmu_ready (s <| ms_dispatch := d |> <| ms_regions := rg |>) ->
      (tcg_commit : PIO unit) (s <| ms_dispatch := d |> <| ms_regions := rg |>) = Done () s' t -> mmu_step s s'
  | step_protect s s' x b t : pages_of s x 1024 b -> (tlb_protect_code x : PIO unit) s = Done () s' t -> mmu_step s s'
  | step_unprotect s s' x t : in_ram (ms_ram s) x 1 -> (tlb_unprotect_code_phys x : PIO unit) s = Done () s' t -> mmu_step s s'
  | step_reset_dirty s s' x len client b t : pages_of s x len b -> 0 <= client < 3 ->
      (cpu_physical_memory_reset_dirty x len client : PIO unit) s = Done () s' t -> mmu_step s s'
  | step_load s s' big n k a m ret bs v t : Memory.ram_ok (ms_host s) -> (m < 2)%nat -> n ∈ word_sizes -> length bs = n -> guest_bytes s a bs -> a + Z.of_nat n <= 2 ^ 32 ->
      helper_ld dev_ops ram_addr unassigned tb_fast walk 1 big n k a m ret s = Done v s' t -> mmu_step s s'
  | step_store s s' big n a v m ret t : (m < 2)%nat -> n ∈ store_sizes -> writable s a n ->
      helper_st dev_ops ram_addr unassigned tb_fast walk 1 big n a v m ret s = Done () s' t -> mmu_step s s'
  | step_other s s' : calm s s' -> mmu_step s s'.

Lemma step_ok s s' : fast_ok -> mmu_step s s' -> mmu_ok s -> mmu_ok s'.
Proof.
  intros Hf Hst Hok. destruct Hst as [s s' t Hrun | s s' addr t Hrun | s s' d rg t Hrd Hrun | s s' x b t Hp Hrun | s s' x t Hin Hrun
    | s s' x len client b t Hp Hc Hrun | s s' big n k a m ret bs v t Hby Hm Hn Hl Hg Hlim Hrun | s s' big n a v m ret t Hm Hn Hw Hrun | s s' Hc].
  - destruct (flushed_ok s (ok_ready s Hok)) as (s1 & H1 & Ok1 & _). rewrite H1 in Hrun. by injection Hrun as <- _.
  - destruct (flush_page_run s addr Hok) as (s1 & t1 & H1 & Ok1 & _). rewrite H1 in Hrun. by injection Hrun as <- _.
  - destruct (flushed_ok _ Hrd) as (s1 & H1 & Ok1 & _). unfold tcg_commit in Hrun. rewrite H1 in Hrun. by injection Hrun as <- _.
  - destruct (reset_dirty_run s x 1024 DIRTY_MEMORY_CODE b Hok Hp ltac:(unfold DIRTY_MEMORY_CODE; lia)) as (s1 & H1 & Ok1 & _).
    unfold tlb_protect_code in Hrun. change TARGET_PAGE_SIZE with 1024 in Hrun. rewrite H1 in Hrun. by injection Hrun as <- _.
  - destruct (unprotect_run s x Hok Hin) as (s1 & H1 & Ok1 & _). rewrite H1 in Hrun. by injection Hrun as <- _.
  - destruct (reset_dirty_run s x len client b Hok Hp Hc) as (s1 & H1 & Ok1 & _). rewrite H1 in Hrun. by injection Hrun as <- _.
  - destruct (ld_guest big n k a m ret s bs Hok Hby Hn Hl Hg Hlim Hm) as (s1 & H1 & Ok1 & _). rewrite H1 in Hrun. by injection Hrun as _ <- _.
  - destruct (st_guest big n a v m ret s Hf Hok Hm Hn Hw) as (s1 & t1 & H1 & G). rewrite H1 in Hrun. injection Hrun as <- _. apply G.
  - by apply (calm_ok s).
Qed.

Lemma steps_ok s s' : fast_ok -> rtc mmu_step s s' -> mmu_ok s -> mmu_ok s'.
Proof. intros Hf. induction 1 as [| s1 s2 s3 H12 _ IH]; [done |]. intros Hok. apply IH. by apply (step_ok s1). Qed.

(** C7 (code_writes_noticed).  No store bypasses the check for translated code.  From
    any state of the memory, after a flush and any sequence of flushes, changes of the
    memory map, pages that are protected, unprotected or whose dirty bits are cleared,
    loads, stores and accesses of devices, protecting a page clears the dirty bit of its
    code, and a store of 1, 2 or 4 bytes, of any alignment and byte order, also over the end
    of a page, tells the code cache of a write to every page it touches whose bit is clear. *)
Theorem code_writes_noticed s0 s1 s t0 :
  fast_ok -> mmu_ready s0 -> (tlb_flush : PIO unit) s0 = Done () s1 t0 -> rtc mmu_step s1 s ->
  (forall x b, pages_of s x 1024 b ->
     exists s', (tlb_protect_code x : PIO unit) s = Done () s' [] /\ code_bit s' (x / 1024) = false /\ rtc mmu_step s1 s') /\
  (forall big n a val m ret, (m < 2)%nat -> n ∈ store_sizes -> writable s a n ->
     exists s' t, helper_st dev_ops ram_addr unassigned tb_fast walk 1 big n a val m ret s = Done () s' t /\ rtc mmu_step s1 s' /\
       forall i p x, (i < n)%nat -> ram_spot s (a + Z.of_nat i) p x -> code_bit s (x / 1024) = false ->
         exists y k, noticed y k ∈ t /\ y / 1024 = x / 1024).
Proof.
  intros Hf Hrd H1 Hsteps. destruct (flushed_ok s0 Hrd) as (s1' & H1' & Ok1 & _). rewrite H1 in H1'. injection H1' as <- _.
  pose proof (steps_ok s1 s Hf Hsteps Ok1) as Hok. split.
  - intros x b Hp. destruct (reset_dirty_run s x 1024 DIRTY_MEMORY_CODE b Hok Hp ltac:(unfold DIRTY_MEMORY_CODE; lia)) as (s' & Hrun & _ & _ & _ & Hcl).
    exists s'. split; [exact Hrun |]. split; [| eapply rtc_r; [exact Hsteps | by apply (step_protect s s' x b [])]].
    pose proof Hp as (Hb & Hx & _ & _ & P1 & P2). pose proof (last_ram_bound _ b (mo_ram _ Hok) Hb). pose proof (wf_lookup _ b (mo_ram _ Hok) Hb) as (W1 & _).
    destruct (ram_pages (ms_ram s) x 1024 (mo_ram _ Hok)) as (_ & _ & Hlt & Hle); [unfold in_ram; lia |].
    unfold code_bit. rewrite Hcl by (unfold DIRTY_MEMORY_CODE; lia). rewrite bool_decide_eq_true_2, (proj2 (Z.leb_le _ _)), (proj2 (Z.ltb_lt _ _)) by (done || lia). done.
  - intros big n a val m ret Hm Hn Hw. destruct (st_guest big n a val m ret s Hf Hok Hm Hn Hw) as (s' & t & Hrun & G). exists s', t.
    split; [done |]. split; [eapply rtc_r; [exact Hsteps | by apply (step_store s s' big n a val m ret t)] |].
    intros i p x Hi. apply (gs_noticed _ _ _ _ _ G). by rewrite order_length, le_bytes_length.
Qed.

(** ** The guest's memory *)

(** No byte of the one range is where a byte of the other is, also under another
    address. *)
Definition ranges_apart s (a : Z) (n : nat) (a' : Z) (n' : nat) : Prop :=
  forall i j p, (i < n)%nat -> (j < n')%nat -> guest_place s (a + Z.of_nat i) p -> ~ guest_place s (a' + Z.of_nat j) p.

Lemma order_twice big (bs : list Z) : order big (order big bs) = bs.
Proof. destruct big; [apply reverse_involutive | done]. Qed.

(** C6 (guest_memory).  Through the table the guest sees its memory as bytes.  A store of
    1, 2 or 4 bytes, aligned or not, in one page or two, in either byte order and
    whatever the table holds, succeeds when its bytes can be written: a load of its
    bytes, as data or as code and with either privilege, gives the value, a load
    from elsewhere gives what was there, and the state stays right. *)
Theorem guest_memory big n a val m ret s :
  fast_ok -> mmu_ok s -> Memory.ram_ok (ms_host s) -> (m < 2)%nat -> n ∈ store_sizes -> writable s a n ->
  exists s' t, helper_st dev_ops ram_addr unassigned tb_fast walk 1 big n a val m ret s = Done () s' t /\ mmu_ok s' /\ same_map s s' /\
    (forall kind m' ret', (m' < 2)%nat -> exists s2,
       (helper_ld dev_ops ram_addr unassigned tb_fast walk 1 big n kind a m' ret' : PIO Z) s' = Done (val mod 2 ^ (8 * Z.of_nat n)) s2 [] /\ ms_host s2 = ms_host s') /\
    (forall big' n' kind a' m' ret' bs, (m' < 2)%nat -> n' ∈ word_sizes -> length bs = n' -> a' + Z.of_nat n' <= 2 ^ 32 ->
       guest_bytes s a' bs -> ranges_apart s a n a' n' -> exists s2,
       (helper_ld dev_ops ram_addr unassigned tb_fast walk 1 big' n' kind a' m' ret' : PIO Z) s' = Done (of_le (order big' bs)) s2 [] /\ ms_host s2 = ms_host s').
Proof.
  intros Hf Hok Hby Hm Hn Hw. destruct (st_guest big n a val m ret s Hf Hok Hm Hn Hw) as (s' & t & Hrun & G). pose proof G as [Ok' M' Hbs Hother Hmem _ _].
  assert (Hlen : length (order big (le_bytes n val)) = n) by (by rewrite order_length, le_bytes_length).
  exists s', t. split; [done |]. split; [done |]. split; [done |]. split.
  - intros kind m' ret' Hm'. destruct (store_size_word n Hn) as [Hnw _].
    destruct (ld_guest big n kind a m' ret' s' _ Ok' (Hmem Hby) Hnw Hlen Hbs ltac:(apply Hw) Hm') as (s2 & Hld & _ & _ & Hh & _).
    exists s2. split; [| done]. by rewrite Hld, order_twice, of_le_le_bytes.
  - intros big' n' kind a' m' ret' bs Hm' Hn' Hl Hlim Hg Hap.
    assert (Hg' : guest_bytes s' a' bs).
    { intros j x Hx. destruct (Hg j x Hx) as (p & Hp & ->). exists p. split; [by apply (guest_place_map s) |]. symmetry. apply Hother.
      intros i Hi Hpi. rewrite Hlen in Hi. apply (Hap i j p Hi); [| done | done]. rewrite <- Hl. by apply (lookup_lt_Some _ _ _ Hx). }
    destruct (ld_guest big' n' kind a' m' ret' s' bs Ok' (Hmem Hby) Hn' Hl Hg' Hlim Hm') as (s2 & Hld & _ & _ & Hh & _). by exists s2.
Qed.

End Tlb.

(** ** A processor with the memory of the Blue Pill *)

Section Demo.

Notation Sys := (memsys (cpu_mmu (list (Z * Z * Z)))).
Notation PIO := (M (phys_event (mmu_event Empty_set)) Sys).

Definition pill_mmu : Sys :=
  mkSys pill_dispatch pill_regions pill_ram ∅ false (mkBounce io_mem_unassigned 0 0 0) []
    (mkMmu (replicate 2 (replicate 256 tlb_blank)) (replicate 2 (replicate 256 0)) (2 ^ 32 - 1) 0 0 0 0 0 []).

(** The device logs what is written. *)
Definition logger (r : nat) : region_ops (phys_event (mmu_event Empty_set)) Sys :=
  mkRegionOps (mkOps (Some (λ _ _, mret 0)) (Some (λ a v n, upd_mmu (λ c, c <| cpu_outside := cpu_outside c ++ [(a, v, n)] |>)))
    DEVICE_NATIVE_ENDIAN 0 0 false None 0 0 [] []) false.

Definition quiet (a : Z) (w : bool) (n : Z) : PIO unit := mret ().
Definition no_code (start len : Z) : PIO unit := mret ().
Definition no_walk (a : Z) : option (Z * Z * Z) := None.

Lemma no_code_ok : fast_ok pill_ram_addr no_code.
Proof. intros s start len Hok _. exists s, []. split; [done |]. split; [by apply (calm_refl pill_ram_addr) | done]. Qed.

Lemma pill_blank m i : (m < 2)%nat -> (i < 256)%nat -> tlb_at (mmu pill_mmu) m i = Some tlb_blank /\ iotlb_at (mmu pill_mmu) m i = Some 0.
Proof.
  intros Hm Hi. unfold tlb_at, iotlb_at. change (tlb_table (mmu pill_mmu)) with (replicate 2 (replicate 256 tlb_blank)).
  change (iotlb (mmu pill_mmu)) with (replicate 2 (replicate 256 0)).
  rewrite (lookup_replicate_2 2 (replicate 256 tlb_blank) m Hm), (lookup_replicate_2 2 (replicate 256 0) m Hm).
  split; by apply (lookup_replicate_2 256).
Qed.

Lemma pill_ready : mmu_ready pill_mmu.
Proof.
  constructor; [apply pill_ram_ok | apply pill_host_ok | done | eexists _, _; repeat split; vm_compute; reflexivity |].
  intros m i Hm Hi. exists tlb_blank, 0. by apply pill_blank.
Qed.

Lemma pill_mmu_ok : mmu_ok pill_ram_addr pill_mmu.
Proof.
  destruct pill_ready as [Hr Hh Ho Hs _]. constructor; try done. intros m i Hm Hi. exists tlb_blank, 0. destruct (pill_blank m i Hm Hi) as [H1 H2].
  split; [done |]. split; [done |]. by apply entry_blank.
Qed.

Lemma pill_page off : off = 0 \/ off = 0x400 -> ram_page pill_ram_addr pill_mmu (0x20000000 + off) 2 off sram false.
Proof.
  intros Hoff. constructor; [| | reflexivity | reflexivity | | reflexivity | | cbn; lia].
  - by destruct Hoff as [-> | ->].
  - destruct Hoff as [-> | ->]; eexists _, _; (split; [vm_compute; reflexivity | split; reflexivity]).
  - change (ms_ram pill_mmu) with pill_ram. rewrite pill_blocks. by right; left.
  - destruct Hoff as [-> | ->]; cbn; (split; [lia | split; [done | lia]]).
Qed.

Lemma pill_spot a : 0x20000000 <= a < 0x20000800 -> exists p x, ram_spot pill_ram_addr pill_mmu a p x.
Proof.
  intros Ha. set (off := page a - 0x20000000).
  assert (Hoff : off = 0 \/ off = 0x400) by (unfold off, page; pose proof (Z.div_mod a 1024 ltac:(lia)); pose proof (Z.mod_pos_bound a 1024 ltac:(lia)); lia).
  eexists _, _. split; [lia |]. exists 2%nat, off, sram. split; [| done]. replace (page a) with (0x20000000 + off) by (unfold off; lia). by apply pill_page.
Qed.

(** The last two bytes of one page and the first two of the next. *)
Lemma pill_writable : writable pill_ram_addr pill_mmu 0x200003fe 4.
Proof. split; [lia |]. split; [lia |]. intros i Hi. apply pill_spot. lia. Qed.

Lemma guest_memory_witness :
  exists s' t s2, helper_st logger pill_ram_addr quiet no_code no_walk 1 false 4 0x200003fe 0x12345678 0 0 pill_mmu = Done () s' t /\
    helper_ld logger pill_ram_addr quiet no_code no_walk 1 false 4 ReadCode 0x200003fe 1 0 s' = Done 0x12345678 s2 [].
Proof.
  destruct (guest_memory logger pill_ram_addr quiet no_code no_walk false 4 0x200003fe 0x12345678 0 0 pill_mmu no_code_ok pill_mmu_ok) as (s' & t & Hst & _ & _ & Hld & _).
  - intros a. unfold ram_byte, is_byte. cbn. rewrite lookup_empty. cbn. lia.
  - lia.
  - by right; right; left.
  - apply pill_writable.
  - destruct (Hld ReadCode 1%nat 0 ltac:(lia)) as (s2 & H2 & _). exists s', t, s2. split; [exact Hst | exact H2].
Defined.

(** The page of the SRAM's first kilobyte gets code, and the store is noticed. *)
Lemma code_writes_noticed_witness :
  exists s1 t0 s2 s' t y k, (tlb_flush : PIO unit) pill_mmu = Done () s1 t0 /\ (tlb_protect_code 0x20000 : PIO unit) s1 = Done () s2 [] /\
    helper_st logger pill_ram_addr quiet no_code no_walk 1 false 4 0x200003fe 0x12345678 0 0 s2 = Done () s' t /\
    noticed y k ∈ t /\ y / 1024 = 128.
Proof.
  destruct (flushed_ok pill_ram_addr pill_mmu pill_ready : exists s1, (tlb_flush : PIO unit) pill_mmu = _ /\ _) as (s1 & H1 & Ok1 & M1 & R1 & _).
  assert (Hb : sram ∈ blocks (ms_ram s1)) by (rewrite R1; change (ms_ram pill_mmu) with pill_ram; rewrite pill_blocks; by right; left).
  assert (Hp : pages_of s1 0x20000 1024 sram) by (split; [done | repeat split; done || (cbn; lia)]).
  destruct (reset_dirty_run (E := Empty_set) pill_ram_addr s1 0x20000 1024 DIRTY_MEMORY_CODE sram Ok1 Hp ltac:(vm_compute; split; [discriminate | done])) as (s2 & H2 & Ok2 & M2 & _ & Hcl).
  assert (M12 : same_map pill_mmu s2) by (by eapply same_map_trans).
  destruct (code_writes_noticed logger pill_ram_addr quiet no_code no_walk pill_mmu s1 s2 _ no_code_ok pill_ready H1) as [_ Hst].
  - apply rtc_once. by apply (step_protect _ _ _ _ _ s1 s2 0x20000 sram []).
  - destruct (Hst false 4%nat 0x200003fe 0x12345678 0%nat 0 ltac:(lia) ltac:(by right; right; left)) as (s' & t & Hrun & _ & Hn).
    { by apply (writable_map pill_ram_addr pill_mmu s2 _ 4 4 M12 (le_n 4) pill_writable). }
    assert (Hspot : ram_spot pill_ram_addr s2 (0x200003fe + Z.of_nat 0) 0x200003fe 0x203fe).
    { apply (ram_spot_map pill_ram_addr pill_mmu s2 _ _ _ M12). split; [lia |]. exists 2%nat, 0, sram.
      split; [exact (pill_page 0 (or_introl eq_refl)) | split; vm_compute; reflexivity]. }
    destruct (Hn 0%nat _ _ ltac:(lia) Hspot) as (y & k & Hy & Hyk).
    + unfold code_bit. rewrite Hcl; [done | vm_compute; split; [discriminate | done] |]. rewrite R1. vm_compute. split; [discriminate | done].
    + exists s1, [DeviceEvent FlushJmpCache], s2, s', t, y, k. split; [exact H1 |]. split; [exact H2 |]. split; [exact Hrun |]. split; [exact Hy | exact Hyk].
Defined.

Lemma device_pages_witness :
  exists s1, at_device pill_ram_addr pill_mmu s1 0x40013804 0 /\
    helper_st logger pill_ram_addr quiet no_code no_walk 1 false 4 0x40013804 7 0 0 pill_mmu =
      (_ ← io_mem_write quiet (mr_ops (logger 3)) 4 7 4; mret () : PIO unit) s1.
Proof.
  assert (Hp : io_page pill_mmu (page 0x40013804) 6 0).
  { constructor; [done |]. eexists. split; [vm_compute; reflexivity | split; vm_compute; reflexivity]. }
  destruct (device_pages logger pill_ram_addr quiet no_code no_walk false 4 0x40013804 0 0 pill_mmu 6 0
    (mkPhysSection (RegionMr 3) 0 0x400 0x40013800 false) pill_mmu_ok) as [_ Hst];
    [lia | lia | done | exact Hp | vm_compute; reflexivity | lia | lia | done |].
  destruct (Hst 7) as (s1 & Hat & Hrun). exists s1. split; [exact Hat | exact Hrun].
Defined.

(** Whether the display's dirty bit of the second page of the SRAM is set by a store
    after the bits of a range have been cleared. *)
Definition dirty_after (x len : Z) : option bool :=
  let store := helper_st logger pill_ram_addr quiet no_code no_walk 1 false 4 0x20000400 1 0 0 in
  match (store ;; cpu_physical_memory_reset_dirty x len 0 ;; store) pill_mmu with
  | Done _ s _ => Some (dirty (ms_ram s) 0 129)
  | Halt _ => None
  end.

(** A range that does not start at a page: the bits of its last page are cleared, but the
    entry of that page still sends stores straight to memory, so they go unnoticed. *)
Example last_page_missed : dirty_after 0x20000 0x800 = Some true /\ dirty_after 0x20200 0x400 = Some false.
Proof. split; vm_compute; reflexivity. Qed.

End Demo.
