(* ===== verification/Memmap.v ===== *)
(** * The memory map of the boards

    The calls that build the tree of memory regions of a board, from [exec.c]
    ([memory_map_init]), [hw/arm/armv7m.c] ([armv7m_init]), [hw/intc/armv7m_nvic.c]
    ([armv7m_nvic_realize]) and [hw/arm/stm32.c] ([stm32_init]), run on the
    model of the memory layer, and the flat view that results. *)

From stdpp Require Import gmap sorting.
From S2P Require Import Prelude Stm32 Flatview Physmap Dispatch Memregion Soc.
Open Scope Z_scope.

(** ** The regions *)

Definition SYSTEM : nat := 0.
Definition FLASH : nat := 1.
Definition SRAM : nat := 2.
Definition BITBAND_SRAM : nat := 3.
Definition BITBAND_PERIPH : nat := 4.
Definition NVIC_CONTAINER : nat := 5.
Definition NVIC_SYSREGS : nat := 6.
Definition GIC_DIST : nat := 7.
Definition NVIC_GIC : nat := 8.
Definition HACK : nat := 9.
Definition FLASH_ALIAS : nat := 10.
Definition SYSTEM_IO : nat := 11.
Definition DEVICE (i : nat) : nat := 12 + i.

(** The address spaces 0, of the memory, and 1, of the I/O ports. *)
Definition memory_map_init : MM unit :=
  memory_region_init SYSTEM UINT64_MAX ;;
  address_space_init 0 SYSTEM ;;
  memory_region_init_io SYSTEM_IO 65536 ;;
  address_space_init 1 SYSTEM_IO.

(** [sysbus_mmio_map] of a region that is not mapped yet. *)
Definition sysbus_mmio_map (mr : nat) (addr : Z) : MM unit :=
  memory_region_add_subregion SYSTEM addr mr.

Definition bitband_map : MM unit :=
  memory_region_init_io BITBAND_SRAM 0x02000000 ;;
  sysbus_mmio_map BITBAND_SRAM 0x22000000 ;;
  memory_region_init_io BITBAND_PERIPH 0x02000000 ;;
  sysbus_mmio_map BITBAND_PERIPH 0x42000000.

Definition armv7m_nvic_map : MM unit :=
  memory_region_init_io GIC_DIST 0x1000 ;;
  memory_region_init NVIC_CONTAINER 0x1000 ;;
  memory_region_init_io NVIC_SYSREGS 0x1000 ;;
  memory_region_add_subregion NVIC_CONTAINER 0 NVIC_SYSREGS ;;
  memory_region_init_alias NVIC_GIC GIC_DIST 0x100 0xc00 ;;
  memory_region_add_subregion_overlap NVIC_CONTAINER 0x100 NVIC_GIC 1 ;;
  memory_region_add_subregion SYSTEM 0xe000e000 NVIC_CONTAINER.

(** [flash_size] and [sram_size] are taken as kilobytes. *)
Definition armv7m_map (flash_size sram_size : Z) : MM unit :=
  memory_region_init_ram FLASH (flash_size * 1024) ;;
  memory_region_set_readonly FLASH true ;;
  memory_region_add_subregion SYSTEM 0 FLASH ;;
  memory_region_init_ram SRAM (sram_size * 1024) ;;
  memory_region_add_subregion SYSTEM 0x20000000 SRAM ;;
  bitband_map ;;
  armv7m_nvic_map ;;
  memory_region_init_ram HACK 0x1000 ;;
  memory_region_add_subregion SYSTEM 0xfffff000 HACK.

(** The region of a device is created and mapped when the device is. *)
Fixpoint map_devices (i : nat) (devs : list device) : MM unit :=
  match devs with
  | [] => mret ()
  | d :: devs =>
      memory_region_init_io (DEVICE i) (region_size (dev_periph d)) ;;
      sysbus_mmio_map (DEVICE i) (dev_addr d) ;;
      map_devices (S i) devs
  end.

(** The alias shows [flash_size] bytes of the system memory, from 0 on. *)
Definition stm32_map (flash_size ram_size : Z) : MM unit :=
  memory_map_init ;;
  armv7m_map flash_size ram_size ;;
  memory_region_init_alias FLASH_ALIAS SYSTEM 0 flash_size ;;
  memory_region_add_subregion SYSTEM 0x08000000 FLASH_ALIAS ;;
  map_devices 0 stm32_init_devices.

Definition empty_mstate : mstate := mkMstate ∅ [] ∅ 0 false.

(** The sizes that the three boards pass to [stm32_init]. *)
Definition board_flash_size : Z := 0x0001ffff.
Definition board_ram_size : Z := 0x00004fff.

Definition board_outcome : outcome mevent mstate unit := stm32_map board_flash_size board_ram_size empty_mstate.

Definition board_view : FlatView :=
  match board_outcome with
  | Done _ s _ => match spaces s !! 0%nat with Some a => current_map a | None => [] end
  | Halt _ => []
  end.

(** ** The map as a table *)

Definition entry (mr : nat) (base size offset : Z) (ro : bool) : FlatRange :=
  mkFlat mr offset (mkRange base size) 0 true ro.

Definition device_entries : list FlatRange :=
  imap (λ i d, entry (DEVICE i) (dev_addr d) (region_size (dev_periph d)) 0 false) stm32_init_devices.

(** The first of the two real time clocks is hidden by the second. *)
Definition rtc_index : nat := 21.

Definition core_entries (flash_size ram_size : Z) : list FlatRange :=
  [entry FLASH 0 (flash_size * 1024) 0 true;
   entry FLASH 0x08000000 flash_size 0 true;
   entry SRAM 0x20000000 (ram_size * 1024) 0 false;
   entry BITBAND_SRAM 0x22000000 0x02000000 0 false;
   entry BITBAND_PERIPH 0x42000000 0x02000000 0 false;
   entry NVIC_SYSREGS 0xe000e000 0x100 0 false;
   entry GIC_DIST 0xe000e100 0xc00 0x100 false;
   entry NVIC_SYSREGS 0xe000ed00 0x300 0xd00 false;
   entry HACK 0xfffff000 0x1000 0 false].

Definition starts_before (a b : FlatRange) : Prop := ar_start (fr_addr a) <= ar_start (fr_addr b).
#[export] Instance starts_before_dec a b : Decision (starts_before a b).
Proof. unfold starts_before. apply _. Defined.

Definition board_table : FlatView :=
  merge_sort starts_before
    (core_entries board_flash_size board_ram_size ++ delete rtc_index device_entries).

Example board_view_size : length board_view = 35%nat.
Proof. vm_compute. reflexivity. Qed.

Example rtc_index_ok : dev_periph <$> stm32_init_devices !! rtc_index = Some STM32_RTC.
Proof. vm_compute. reflexivity. Qed.

Lemma board_view_table : board_view = board_table.
Proof. vm_compute. reflexivity. Qed.

Lemma board_view_ok : view_ok 0 board_view.
Proof. apply view_okb_ok. vm_compute. reflexivity. Qed.

Definition board_entries : FlatView :=
  core_entries board_flash_size board_ram_size ++ delete rtc_index device_entries.

(** An entry of the table decides what the addresses in it reach. *)
Lemma board_entry_hit e a : e ∈ board_entries -> in_range e a = true -> view_at board_view a = Some (range_hit e a).
Proof.
  intros He Ha. assert (Hin : e ∈ board_view).
  { rewrite board_view_table. unfold board_table. by rewrite merge_sort_Permutation. }
  apply list_elem_of_lookup in Hin as [j Hj]. by apply (view_at_lookup 0 _ j _ _ board_view_ok).
Qed.

Lemma board_entry_none a : (forall e, e ∈ board_entries -> in_range e a = false) -> view_at board_view a = None.
Proof.
  intros Hn. apply view_at_none. intros i r Hi. apply Hn.
  apply list_elem_of_lookup_2 in Hi. rewrite board_view_table in Hi. unfold board_table in Hi.
  by rewrite merge_sort_Permutation in Hi.
Qed.

Lemma device_entry_in i d :
  stm32_init_devices !! i = Some d -> i <> rtc_index ->
  entry (DEVICE i) (dev_addr d) (region_size (dev_periph d)) 0 false ∈ board_entries.
Proof.
  intros Hd Hi. unfold board_entries. apply elem_of_app. right.
  assert (He : device_entries !! i = Some (entry (DEVICE i) (dev_addr d) (region_size (dev_periph d)) 0 false))
    by (unfold device_entries; rewrite list_lookup_imap, Hd; done).
  destruct (decide (i < rtc_index)%nat) as [Hlt | Hge].
  - apply list_elem_of_lookup. exists i. by rewrite list_lookup_delete_lt.
  - apply list_elem_of_lookup. exists (i - 1)%nat. rewrite list_lookup_delete_ge by lia.
    by replace (S (i - 1)) with i by lia.
Qed.

(** C18 (board_memory_map).  The initialisation of a board builds its memory
    tree without stopping, and the flat view of the system memory is well-formed:
    every device answers in the whole of its region, at the offset from its base
    address (except the first real time clock, which the second one at the same
    address hides); the addresses from 0x08000000 on show the flash, read-only;
    the interrupt controller's page shows the GIC registers in its middle part
    and the system registers around it; addresses outside the table reach
    nothing.  The dispatcher of the view is built without stopping and leads every
    address to what the view has there. *)
Theorem board_memory_map :
  (exists s t, board_outcome = Done () s t /\ spaces s !! 0%nat = Some (mkSpace (Some SYSTEM) board_view)) /\
  view_ok 0 board_view /\
  (forall i d a, stm32_init_devices !! i = Some d -> i <> rtc_index ->
     dev_addr d <= a < dev_addr d + region_size (dev_periph d) ->
     view_at board_view a = Some (mkHit (DEVICE i) (a - dev_addr d) 0 true false)) /\
  (forall a, 0 <= a < board_flash_size ->
     view_at board_view (0x08000000 + a) = Some (mkHit FLASH a 0 true true) /\
     view_at board_view a = Some (mkHit FLASH a 0 true true)) /\
  (forall a, 0 <= a < 0x1000 ->
     view_at board_view (0xe000e000 + a) =
       Some (mkHit (if (0x100 <=? a) && (a <? 0xd00) then GIC_DIST else NVIC_SYSREGS) a 0 true false)) /\
  (forall a, (forall e, e ∈ board_entries -> in_range e a = false) -> view_at board_view a = None) /\
  (forall d0, exists d, build board_view d0 = Done () d [] /\
     forall a, 0 <= a < 2 ^ 64 ->
     exists v s, address_space_lookup_region a true d = Done v d [] /\ sections d !! Z.to_nat v = Some s /\
       reach s a = view_target board_view a).
Proof.
  split; [| split; [apply board_view_ok |]; split; [| split; [| split; [| split; [apply board_entry_none |]]]]].
  - assert (Hrun : match board_outcome with Done _ s _ => spaces s !! 0%nat | Halt _ => None end =
      Some (mkSpace (Some SYSTEM) board_view)) by (vm_compute; reflexivity).
    destruct board_outcome as [[] s t |]; [| discriminate]. exists s, t. split; [reflexivity | exact Hrun].
  - intros i d a Hd Hi Ha. rewrite (board_entry_hit _ a (device_entry_in i d Hd Hi)) by (by apply contains_spec).
    unfold range_hit. cbn. by rewrite Z.add_0_l.
  - intros a Ha. unfold board_flash_size in Ha. split.
    + rewrite (board_entry_hit (entry FLASH 0x08000000 board_flash_size 0 true));
        [| apply elem_of_app; left; right; by left | apply contains_spec; cbn; unfold board_flash_size; lia].
      unfold range_hit. cbn. do 2 f_equal. lia.
    + rewrite (board_entry_hit (entry FLASH 0 (board_flash_size * 1024) 0 true));
        [| apply elem_of_app; left; by left | apply contains_spec; cbn; unfold board_flash_size; lia].
      unfold range_hit. cbn. do 2 f_equal. lia.
  - intros a Ha. destruct (Z.leb_spec 0x100 a), (Z.ltb_spec a 0xd00); cbn [andb]; try lia.
    + rewrite (board_entry_hit (entry GIC_DIST 0xe000e100 0xc00 0x100 false));
        [| apply elem_of_app; left; do 6 right; by left | apply contains_spec; cbn; lia].
      unfold range_hit. cbn. do 2 f_equal. lia.
    + rewrite (board_entry_hit (entry NVIC_SYSREGS 0xe000ed00 0x300 0xd00 false));
        [| apply elem_of_app; left; do 7 right; by left | apply contains_spec; cbn; lia].
      unfold range_hit. cbn. do 2 f_equal. lia.
    + rewrite (board_entry_hit (entry NVIC_SYSREGS 0xe000e000 0x100 0 false));
        [| apply elem_of_app; left; do 5 right; by left | apply contains_spec; cbn; lia].
      unfold range_hit. cbn. do 2 f_equal. lia.
  - intros d0. apply build_ok; [apply board_view_ok | rewrite board_view_size; lia].
Qed.

(** The first real time clock cannot be reached. *)
Lemma first_rtc_hidden a hh : view_at board_view a = Some hh -> hit_mr hh <> DEVICE rtc_index.
Proof.
  assert (Hall : forallb (λ r, negb (fr_mr r =? DEVICE rtc_index)%nat) board_view = true) by (vm_compute; reflexivity).
  revert Hall. generalize board_view. intros view. induction view as [|r view IH]; [done |]. cbn [forallb view_at].
  intros [Hr Hall]%andb_true_iff. destruct (in_range r a).
  - intros [= <-]. cbn. apply negb_true_iff, Nat.eqb_neq in Hr. done.
  - by apply IH.
Qed.

(** The sizes are byte counts, less one, that [armv7m_init] multiplies by 1024:
    the flash of the boards ends just below 128 megabytes and the memory is
    larger than 20 megabytes. *)
Lemma memory_sizes :
  view_at board_view (0x07fffc00 - 1) = Some (mkHit FLASH (0x07fffc00 - 1) 0 true true) /\
  view_at board_view (0x20000000 + 0x13ffc00 - 1) = Some (mkHit SRAM (0x13ffc00 - 1) 0 true false) /\
  view_at board_view 0x0801ffff = None.
Proof. vm_compute. done. Qed.
